(* ===== verification/_CoqProject ===== *)
-Q . S2P
Prelude.v
Api.v
Scheduler.v
SchedulerProofs.v
SchedulerTheorems.v
Graph.v
GraphTheorems.v
Runtime.v
RuntimeTheorems.v
Server.v
ServerTheorems.v
Network.v
NetworkProofs.v
NetworkTheorems.v
NetServer.v
NetServerTheorems.v
Threads.v
ThreadsTheorems.v
Process.v
Pipes.v
PipesTheorems.v
Chain.v
Conveyors.v
ChainTheorems.v
Sinks.v
SinksTheorems.v
Relays.v
RelaysTheorems.v
Routers.v
RoutersTheorems.v
Timers.v
TimersTheorems.v
Io.v
Files.v
FilesTheorems.v
Servers.v
ServersTheorems.v
Retry.v
Clients.v
ClientsTheorems.v
Sessions.v
SessionsTheorems.v
TlsTheorems.v
Codecs.v
CodecsTheorems.v
Filters.v
FiltersTheorems.v
Cmd.v
CmdTheorems.v
Http.v
HttpTheorems.v
Brokers.v
BrokersTheorems.v
Agents.v
AgentsTheorems.v
Mail.v
MailTheorems.v
Services.v
ServicesTheorems.v
Email.v
HttpClient.v
HttpClientTheorems.v
HttpServer.v
HttpServerTheorems.v
Library.v
Build.v
BuildTheorems.v
Factory.v
LibraryTheorems.v
