(* ===== verification/Prelude.v ===== *)
(** * flowd: a verification library

    flowd is a runtime for flow-based programs.  A graph of nodes, edges,
    initial packets and exported ports is edited over the FBP network protocol;
    [network:start] turns the active graph into a network of components joined
    by ring buffers, and one scheduler thread runs the components
    cooperatively, each within a budget.

    ** Parts and files

    - [Prelude]: results, outcomes with panics, wrapping and saturating
      integers, ASCII case, map folds, [HashIter], tactics, hints.
    - [Api] models [src/component_api/src/lib.rs]: messages, the edge sink,
      node contexts and their ready flags, process results, budget classes,
      back-pressure constants, retry state, component metadata; and the bounded
      standard-library channel.
    - [Scheduler] models [src/src/scheduler.rs]: [Scheduler] is the scheduler
      with its mutex-protected [SchedulerState]; [Component] is the component
      trait as a type class; [execute_component] is one execution; [step] is
      the run loop, cut where it takes and releases the mutex and where it
      waits, interleaved with the requests of other threads ([label]).
    - [Graph] models [src/src/graph.rs] and the payloads that its operations
      take: [GraphRequest] in [GraphTheorems] collects the mutating ones.
    - [Runtime] models [src/src/multi_graph.rs] and, of
      [src/src/runtime.rs], the configuration: secrets, status, tracing,
      debugging, the persisted graph set.  An [Arc<RwLock<Graph>>] is a
      location in a store of graphs.
    - [Network] models the rest of [src/src/runtime.rs] that runs on request:
      [start] (checks, wiring, registration), [stop], [packet], metrics.
      [connection] is one ring with its two ends.
    - [Server] and [NetServer] model [src/src/server.rs]: one definition per
      message handler; [handle] and [net_handle] dispatch.
    - [Threads] models what [Runtime::start] leaves running beside the
      scheduler, and what it sends to the clients: the dispatcher of trace
      events, the handler of the graph's outports, the watchdog.
    - [Process] is the language in which the processing components of
      [src/components] are written down: [process] as a program over the
      component and its node context, with loops, early returns, unwinding and
      the effects on ports, and a logic ([wp]) for such programs.
    - [Pipes] (Repeat, Trim, Output, TextReplace), [Sinks] (Drop, Panic,
      Visualization, Count), [Relays] (HTMLStrip, RegexpExtract, TeraTemplate,
      Muxer, SplitLines, Sexp), [Routers] (Demux3, Equals, GenericRouter) and
      [Timers] (Delay, Cron) model these components: a record of the fields,
      [new_*], [*_process], and the instance of [Component].
    - [Chain] puts stages behind one another, sharing their rings; [Conveyors]
      is the interface by which a component becomes a stage, and its instances.
    - [Io] is what the components that talk to the outside share: budgets at
      their width, strings, the loops over control ports and over packets
      that wait.  [Files] (FileReader, FileTailer, FileWriter), [Servers]
      (TCPServer, UnixSocketServer), [Clients] (TCPClient, UnixSocketClient,
      WSClient, which follow one program), [Sessions] (WSServer, TLSClient,
      TLSServer), [Codecs] (Xz, Brotli), [Filters] (Hasher, LibComponent,
      JSONQuery, HTMLQuery) and [Cmd] model these components with the threads
      they start.  [Http] is how HTTP requests are parsed and responses printed,
      on bytes, in [src/components/http/src/http.rs]; [HttpServer] and
      [HttpClient] are the two components over it.  [Retry] is the back-off of
      [src/component_api/src/lib.rs], its jitter in binary64 arithmetic, and the
      helpers of retries.
    - [Brokers] (MQTTPublisher, MQTTSubscriber, RedisPublisher,
      RedisSubscriber): the publishers are one machine over what differs, with
      their reconnections.  [Agents] is a component and its thread with a
      bounded channel each way ([Agent], [agent_move], [agent_send]: a send may
      wait, and meanwhile the thread moves), and the chat components over it
      (OpenAIChat, TelegramBot, MatrixClient).  [Mail] (IMAPAppend,
      IMAPMoveCopy, IMAPDelete, IMAPFetchIdle, IMAPFetch, of
      [src/components/imap/src/imap.rs]): the session as a list of operations
      on the server, those that change mailboxes as one machine and those that
      fetch as another.  [Services] (SSHClient, ZeroconfResponder,
      ZeroconfBrowser) and [Email] (EmailParser, with its theorems).
    - [Library] is the metadata of all components, [Build] the build script
      [src/build.rs] with flowd.build.toml, and [Factory] the generated
      [instantiate_component] over all 56 components, each with its constructor.
      The components of [Pipes] to [Timers] carry their [process]; for the
      others, whose calls depend on what threads and connections do, the class
      [Crates] of [Factory] supplies the vtable.

    [Proofs] and [Theorems] files hold what is proved about the file they are
    named after.

    ** What the theorems show

    - [SchedulerTheorems]: an invariant of every interleaving; the thread never
      sleeps while a node is ready nor past an armed deadline; waiting is
      bounded by the queue; one execution terminates, and within the budget;
      exact effect of timers, signals, completion, finishing and stopping.
    - [GraphTheorems]: requests are atomic and never unwind; which of them keep
      edges attached to nodes; exact effect of each request on every branch; round trips.
    - [RuntimeTheorems]: what a secret grants; persisting and loading, which
      loses the metadata that clients gave to nodes; tracing and debugging as
      switches.
    - [ServerTheorems]: requests are local to the graph they address, and the
      graph messages refine the graph operations, [graph:clear] those on the
      active graph.
    - [NetworkTheorems], [NetServerTheorems]: starting a well-formed graph
      leaves exactly the network of that graph ([wired], [registered]) running;
      what a refused start leaves; where a start unwinds or blocks; delivery of
      packets; start, stop, start again.  Over all messages of the protocol,
      those that act on the network included: which are answered, which close
      the connection or unwind, and that only read-write access changes anything.
    - [ThreadsTheorems]: every packet that reaches an outport is passed on once
      and in order; the watchdog takes a network down when, and only when, every
      thread it watches is gone.
    - [PipesTheorems], [SinksTheorems], [RelaysTheorems], [RoutersTheorems],
      [TimersTheorems]: exactly which packets a call takes, sends, keeps and
      drops, in which order, and how it ends; Count against what each packet
      contributes to its mode; the releases of Delay and the ticks of Cron over any number of
      calls; an execution of Repeat by the scheduler.
    - [ChainTheorems]: along every interleaving nothing is lost, duplicated or
      overtaken between the two ends of a chain, and back-pressure never blocks
      it for good, whichever of the stages print, forward or keep packets.
    - [FilesTheorems], [ServersTheorems], [ClientsTheorems], [SessionsTheorems],
      [TlsTheorems]: what goes out of a session and what comes back, in which
      order and what is dropped, over any script of the socket; the frames of
      the servers are read from their own bytes ([frame_says]); how connection
      attempts are repeated and when they end.  [Retry]: the bounds of the
      back-off.
    - [CodecsTheorems]: a decompressor behind a compressor restores the stream.
      [FiltersTheorems], [CmdTheorems]: a call of each filter in terms of its
      queue; the output of a sub-process keeps its order, and Cmd ends with its
      input.
    - [HttpTheorems]: printed requests and responses are read back, whatever
      their transfer encoding, with a path and a query that are printed on their
      own; on which requests the parser never ends; the choice of the route.
      [HttpServerTheorems]: the i-th response of the network answers the i-th
      request handed to it, on the connection it came from, where what a call
      reads, hands over and takes is a function of the call ([http_log]).  [HttpClientTheorems]: the attempts of the worker; the client never
      passes an answer on.
    - [BrokersTheorems]: how publishers reconnect; subscribers deliver nothing.
      [AgentsTheorems]: along every run of a chat component nothing is lost
      between it and its thread; when a call returns and when the two wait for
      each other; what a conversation with OpenAI consists of, request by request.
      [MailTheorems]: a component that ends by itself has done all it was asked
      on the server; what the server answers to a fetch is delivered once and in
      order, or not at all if a part of the fetch fails.
      [ServicesTheorems]: SSHClient runs one command at a time, once for each
      packet; what is announced; that browsing reports nothing.  [Email]: which
      parts are bodies; what a call does with each packet.
    - [BuildTheorems], [LibraryTheorems]: which configurations are built; the
      names in the generated code; metadata and configuration fit together, and
      a well-formed graph of library components starts (where it has a
      LibComponent, with its shared library there).

    ** Parameters

    Code outside the repository is an interface with its documented laws and an
    executable instance: the ring buffer ([Rtrb]), the multimap
    ([MultiMapLib]), JSON values ([SerdeJson]), the JSON form of graphs
    ([serde_graph]).  The iteration order of hash maps is [HashIter], any
    permutation of the entries.  [Network] takes the generated functions
    [instantiate_component] and [get_component_budget_class] as arguments, which
    [Factory] and [Build] supply.  The crates regex, tera, url, atoi, cron,
    serde_json, toml and semver and the parsing of floating-point numbers are
    arguments of the components and functions that call them, and so are xz2,
    brotli, twox_hash, libloading, jaq, the parsing of HTML and XPath,
    shell_words, lexopt, staart, uds and the resolver.  So are the attempts of
    reqwest, the formatted time of an answer and the case mappings of Unicode
    ([CaseMapping]).  The contents of files and
    what opening and writing answers, whether an address can be bound and what
    connecting answers, and whether a tokio runtime is there are arguments.  A
    session of a socket, of tungstenite or of rustls is a script of what its
    calls answer; what rumqttc, redis_async, the servers behind teloxide,
    matrix_sdk and the OpenAI client, an IMAP server, mdns_sd and openssh answer
    comes with each move of the thread that asks; mailparse is a function to
    [ParsedMail]; a sub-process and the threads beside it are moves of the
    environment.  Clock readings, the moves of other threads between two lock
    operations and whether a thread has ended in time are arguments.

    ** Fuel

    The timer loops take the length of the heap as fuel, and every iteration
    pops an entry.  [execute_loop] takes the budget plus one: an iteration that
    continues uses a unit of the budget.  [packet_loop] recurses on the list of
    the moves of other threads between two attempts, so that a list that never
    makes room is the case in which the code does not return.  [agent_send] does
    the same on the moves of the thread at the other end.  The loops of the
    components take the packets of the ring they read, or the packets that wait,
    plus one: every iteration that goes on takes one of them.  The loops over a
    session take the length of its script, the loops over channels what the
    channel holds, and a retry loop the attempts that its configuration allows.  The loop that
    parses a request need not end ([http_split_request_hangs]): its fuel is an
    argument, [http_request_roundtrip] says how much is enough, and a call of the
    server is [None] when the loop does not end.

    ** Not modelled

    The process entry point and the WebSocket set-up of the runtime's own server
    (logging, accept loop, thread spawning); the wire names that serde gives to
    the protocol payloads; [Drop] implementations that wait for a thread when a
    component is dropped; the lines that the build script prints for cargo;
    benches and tests. *)
From Stdlib Require Strings.String.
From Stdlib Require Import NArith ZArith Lia Strings.Byte Strings.Ascii.
From stdpp Require Import base list strings gmap.

Set Default Proof Using "Type".

Declare Scope flowd_scope.
Delimit Scope flowd_scope with flowd.

(** * Results, errors and panics *)

(** Rust's [Result]. *)
Inductive result (T E : Type) : Type :=
| Ok (t : T)
| Err (e : E).
Arguments Ok {T E} t.
Arguments Err {T E} e.

(** The kinds of [std::io::Error] that the program constructs or asks for;
    [Other] stands for the rest. *)
Inductive ErrorKind : Type :=
| NotFound
| AlreadyExists
| ResourceBusy
| PermissionDenied
| InvalidInput
| InvalidData
| TimedOut
| Interrupted
| WouldBlock
| ConnectionRefused
| ConnectionReset
| ConnectionAborted
| NotConnected
| BrokenPipe
| NetworkUnreachable
| HostUnreachable
| Other.

#[export] Instance ErrorKind_eq_dec : EqDecision ErrorKind.
Proof. solve_decision. Defined.

(** [std::io::Error::new(kind, message)]. *)
Record io_error : Type := mk_io_error {
  err_kind : ErrorKind;
  err_message : string
}.

Definition io_err {T : Type} (k : ErrorKind) (m : string) : result T io_error :=
  Err (mk_io_error k m).

Definition is_Ok {T E : Type} (r : result T E) : bool :=
  match r with Ok _ => true | Err _ => false end.

Definition is_err {T E : Type} (r : result T E) : bool := negb (is_Ok r).

(** A call that either returns or unwinds (a failed [expect]/[unwrap], a
    [panic!], an [assert!]). *)
Inductive outcome (A : Type) : Type :=
| Done (a : A)
| Panicked.
Arguments Done {A} a.
Arguments Panicked {A}.

Definition outcome_bind {A B : Type} (o : outcome A) (f : A -> outcome B) : outcome B :=
  match o with Done a => f a | Panicked => Panicked end.

Definition result_bind {A B E : Type} (r : result A E) (f : A -> result B E) : result B E :=
  match r with Ok a => f a | Err e => Err e end.

Notation "'let*' x ':=' o 'in' k" := (outcome_bind o (fun x => k))
  (at level 10, x pattern, k at level 200) : flowd_scope.
Notation "'let?' x ':=' r 'in' k" := (result_bind r (fun x => k))
  (at level 10, x pattern, k at level 200) : flowd_scope.

(** [Option::expect] / [Option::unwrap]. *)
Definition expect {A : Type} (o : option A) : outcome A :=
  match o with Some a => Done a | None => Panicked end.

Lemma expect_Done {A} (o : option A) (a : A) : expect o = Done a <-> o = Some a.
Proof. destruct o; naive_solver. Qed.

Lemma expect_Panicked {A} (o : option A) : expect o = Panicked <-> o = None.
Proof. destruct o; naive_solver. Qed.

(** * Machine-width integers *)

(** Wrap-around at [u64] and [u32] width and the two's complement
    reinterpretation that [as i32] performs (release profile: no overflow
    checks). *)
Definition u64_modulus : N := 18446744073709551616%N.
Definition u32_modulus : N := 4294967296%N.

Definition u64_add (a b : N) : N := ((a + b) mod u64_modulus)%N.
Definition u32_sub (a b : N) : N :=
  (if b <=? a then a - b else a + u32_modulus - b)%N.

Definition i32_of_i64 (z : Z) : Z :=
  ((z + 2147483648) mod 4294967296 - 2147483648)%Z.
Definition u32_of_u64 (n : N) : N := (n mod u32_modulus)%N.

Lemma u64_add_small a b : (a + b < u64_modulus)%N -> u64_add a b = (a + b)%N.
Proof. intros. unfold u64_add. by apply N.mod_small. Qed.

Lemma u64_add_assoc a b c : u64_add (u64_add a b) c = u64_add a (b + c).
Proof.
  unfold u64_add. rewrite N.Div0.add_mod_idemp_l. by rewrite N.add_assoc.
Qed.

Lemma u64_add_0_r a : (a < u64_modulus)%N -> u64_add a 0 = a.
Proof. intros. unfold u64_add. rewrite N.add_0_r. by apply N.mod_small. Qed.

Lemma u32_sub_ge a b : (b <= a)%N -> u32_sub a b = (a - b)%N.
Proof. intros. unfold u32_sub. by rewrite (proj2 (N.leb_le b a)) by done. Qed.

Lemma u32_sub_mod a b :
  (a < u32_modulus)%N -> (b < u32_modulus)%N ->
  u32_sub a b = ((a + u32_modulus - b) mod u32_modulus)%N.
Proof.
  intros Ha Hb. unfold u32_sub. destruct (N.leb_spec b a) as [Hle|Hlt].
  - replace (a + u32_modulus - b)%N with ((a - b) + 1 * u32_modulus)%N by lia.
    rewrite N.Div0.mod_add, N.mod_small; lia.
  - rewrite N.mod_small; lia.
Qed.

Lemma i32_of_i64_range z : (-2147483648 <= i32_of_i64 z < 2147483648)%Z.
Proof.
  unfold i32_of_i64.
  pose proof (Z.mod_pos_bound (z + 2147483648) 4294967296). lia.
Qed.

Lemma i32_of_i64_id z : (-2147483648 <= z < 2147483648)%Z -> i32_of_i64 z = z.
Proof. intros. unfold i32_of_i64. rewrite Z.mod_small by lia. lia. Qed.

(** * Strings *)

(** A Rust string is its UTF-8 byte sequence, here a [String.string]. *)

(** [u8::to_ascii_uppercase] and [to_ascii_lowercase]. *)
Definition ascii_upper (c : ascii) : ascii :=
  let n := Ascii.N_of_ascii c in
  if ((97 <=? n) && (n <=? 122))%N then Ascii.ascii_of_N (n - 32) else c.

Definition ascii_lower (c : ascii) : ascii :=
  let n := Ascii.N_of_ascii c in
  if ((65 <=? n) && (n <=? 90))%N then Ascii.ascii_of_N (n + 32) else c.

Fixpoint string_map (f : ascii -> ascii) (s : string) : string :=
  match s with
  | EmptyString => EmptyString
  | String c r => String (f c) (string_map f r)
  end.

Definition to_ascii_uppercase : string -> string := string_map ascii_upper.
Definition to_ascii_lowercase : string -> string := string_map ascii_lower.

(** [str::eq_ignore_ascii_case]. *)
Definition eq_ignore_ascii_case (a b : string) : bool :=
  String.eqb (to_ascii_lowercase a) (to_ascii_lowercase b).

Lemma ascii_upper_idemp c : ascii_upper (ascii_upper c) = ascii_upper c.
Proof. destruct c as [[] [] [] [] [] [] [] []]; reflexivity. Qed.

Lemma ascii_lower_upper c : ascii_lower (ascii_upper c) = ascii_lower c.
Proof. destruct c as [[] [] [] [] [] [] [] []]; reflexivity. Qed.

Lemma to_ascii_uppercase_idemp s :
  to_ascii_uppercase (to_ascii_uppercase s) = to_ascii_uppercase s.
Proof.
  induction s as [|c s IH]; [done|]. unfold to_ascii_uppercase in *. simpl.
  by rewrite ascii_upper_idemp, IH.
Qed.

Lemma eq_ignore_case_upper s : eq_ignore_ascii_case (to_ascii_uppercase s) s = true.
Proof.
  unfold eq_ignore_ascii_case. apply String.eqb_eq.
  induction s as [|c s IH]; [done|].
  unfold to_ascii_uppercase, to_ascii_lowercase in *. simpl.
  by rewrite ascii_lower_upper, IH.
Qed.

(** [s.contains(c)] for a character of one byte. *)
Fixpoint string_has (c : ascii) (s : string) : bool :=
  match s with
  | EmptyString => false
  | String a r => if Ascii.eqb a c then true else string_has c r
  end.

(** [s.rsplit(c).next()]: the part after the last separator, the whole string
    when there is none.  (The iterator is never empty.) *)
Fixpoint rsplit_next (c : ascii) (s : string) : string :=
  match s with
  | EmptyString => EmptyString
  | String a r =>
      if string_has c r then rsplit_next c r
      else if Ascii.eqb a c then r else s
  end.

Lemma rsplit_next_no_sep c s : string_has c (rsplit_next c s) = false.
Proof.
  induction s as [|a r IH]; [done|]. simpl.
  destruct (string_has c r) eqn:Hr; [done|].
  destruct (Ascii.eqb a c) eqn:Ha; [done|]. simpl. by rewrite Ha, Hr.
Qed.

Lemma rsplit_next_id c s : string_has c s = false -> rsplit_next c s = s.
Proof.
  destruct s as [|a r]; [done|]. simpl.
  destruct (Ascii.eqb a c) eqn:Ha; [done|]. intros Hr. by rewrite Hr.
Qed.

(** * UTF-8 *)

#[export] Instance byte_eq_dec : EqDecision byte := Byte.byte_eq_dec.

Definition byte_in (lo hi : N) (b : byte) : bool :=
  ((lo <=? Byte.to_N b) && (Byte.to_N b <=? hi))%N.

(** The well-formedness test of [core::str::from_utf8] (Unicode table 3-7). *)
Fixpoint utf8_valid (bs : list byte) : bool :=
  match bs with
  | [] => true
  | b0 :: r0 =>
      if byte_in 0 127 b0 then utf8_valid r0 else
      match r0 with
      | [] => false
      | b1 :: r1 =>
          if byte_in 194 223 b0 && byte_in 128 191 b1 then utf8_valid r1 else
          match r1 with
          | [] => false
          | b2 :: r2 =>
              if (byte_in 224 224 b0 && byte_in 160 191 b1 && byte_in 128 191 b2)
                 || (byte_in 225 236 b0 && byte_in 128 191 b1 && byte_in 128 191 b2)
                 || (byte_in 237 237 b0 && byte_in 128 159 b1 && byte_in 128 191 b2)
                 || (byte_in 238 239 b0 && byte_in 128 191 b1 && byte_in 128 191 b2)
              then utf8_valid r2 else
              match r2 with
              | [] => false
              | b3 :: r3 =>
                  if ((byte_in 240 240 b0 && byte_in 144 191 b1)
                      || (byte_in 241 243 b0 && byte_in 128 191 b1)
                      || (byte_in 244 244 b0 && byte_in 128 143 b1))
                     && byte_in 128 191 b2 && byte_in 128 191 b3
                  then utf8_valid r3 else false
              end
          end
      end
  end.

(** [std::str::from_utf8(bytes).ok()]. *)
Definition from_utf8 (bs : list byte) : option string :=
  if utf8_valid bs then Some (String.string_of_list_byte bs) else None.

Definition string_bytes (s : string) : list byte := String.list_byte_of_string s.

Lemma from_utf8_bytes s bs : from_utf8 bs = Some s -> string_bytes s = bs.
Proof.
  unfold from_utf8, string_bytes. destruct (utf8_valid bs); [|done].
  intros [= <-]. apply String.list_byte_of_string_of_list_byte.
Qed.

(** * Search loops over vectors *)

Section find_loops.
Context {A : Type}.
Implicit Types (p : A -> bool) (f : A -> A) (l : list A).

(** [for (i, x) in v.iter().enumerate() { if p(x) { v.remove(i); return } }]:
    the removed element and the rest, [None] when the loop falls through. *)
Fixpoint remove_first p l : option (A * list A) :=
  match l with
  | [] => None
  | x :: r =>
      if p x then Some (x, r)
      else match remove_first p r with
           | Some (y, r') => Some (y, x :: r')
           | None => None
           end
  end.

(** The same loop with [v[i] = f(v[i])]. *)
Fixpoint update_first p f l : option (list A) :=
  match l with
  | [] => None
  | x :: r =>
      if p x then Some (f x :: r)
      else match update_first p f r with
           | Some r' => Some (x :: r')
           | None => None
           end
  end.

Lemma remove_first_Some p l x l' :
  remove_first p l = Some (x, l') <->
  exists l1 l2, l = l1 ++ x :: l2 /\ l' = l1 ++ l2 /\ p x = true /\
                Forall (fun y => p y = false) l1.
Proof.
  split.
  - revert l'. induction l as [|y r IH]; intros l' H; simpl in H; [done|].
    destruct (p y) eqn:Hy.
    + simplify_eq. exists [], l'. by repeat split.
    + destruct (remove_first p r) as [[z r']|] eqn:Hr; simplify_eq.
      destruct (IH _ eq_refl) as (l1 & l2 & -> & -> & Hp & Hall).
      exists (y :: l1), l2. by repeat split; [..|constructor].
  - intros (l1 & l2 & -> & -> & Hp & Hall). induction Hall as [|y l1 Hy Hall IH]; simpl.
    + by rewrite Hp.
    + by rewrite Hy, IH.
Qed.

Lemma remove_first_None p l :
  remove_first p l = None <-> Forall (fun y => p y = false) l.
Proof.
  split.
  - induction l as [|y r IH]; intros H; simpl in H; [constructor|].
    destruct (p y) eqn:Hy; [done|].
    destruct (remove_first p r) as [[]|]; [done|]. constructor; auto.
  - induction 1 as [|y r Hy Hall IH]; simpl; [done|]. by rewrite Hy, IH.
Qed.

Lemma update_first_Some p f l l' :
  update_first p f l = Some l' <->
  exists l1 x l2, l = l1 ++ x :: l2 /\ l' = l1 ++ f x :: l2 /\ p x = true /\
                  Forall (fun y => p y = false) l1.
Proof.
  split.
  - revert l'. induction l as [|y r IH]; intros l' H; simpl in H; [done|].
    destruct (p y) eqn:Hy.
    + simplify_eq. exists [], y, r. by repeat split.
    + destruct (update_first p f r) as [r'|] eqn:Hr; simplify_eq.
      destruct (IH _ eq_refl) as (l1 & x & l2 & -> & -> & Hp & Hall).
      exists (y :: l1), x, l2. by repeat split; [..|constructor].
  - intros (l1 & x & l2 & -> & -> & Hp & Hall).
    induction Hall as [|y l1 Hy Hall IH]; simpl.
    + by rewrite Hp.
    + by rewrite Hy, IH.
Qed.

Lemma update_first_None p f l :
  update_first p f l = None <-> Forall (fun y => p y = false) l.
Proof.
  split.
  - induction l as [|y r IH]; intros H; simpl in H; [constructor|].
    destruct (p y) eqn:Hy; [done|].
    destruct (update_first p f r); [done|]. constructor; auto.
  - induction 1 as [|y r Hy Hall IH]; simpl; [done|]. by rewrite Hy, IH.
Qed.

Lemma update_first_length p f l l' :
  update_first p f l = Some l' -> length l' = length l.
Proof.
  intros (l1 & x & l2 & -> & -> & _ & _)%update_first_Some.
  by rewrite !length_app.
Qed.
End find_loops.

(** * Iterating over a hash map *)

(** The order in which Rust iterates over a [HashMap] is unspecified: it is
    some enumeration of the entries, the same for the same map. *)
Class HashIter : Type := {
  hash_iter {K} `{Countable K} {V} : gmap K V -> list (K * V);
  hash_iter_perm {K} `{Countable K} {V} (m : gmap K V) : hash_iter m ≡ₚ map_to_list m
}.

#[local] Instance sorted_hash_iter : HashIter := {
  hash_iter := fun K _ _ V m => map_to_list m;
  hash_iter_perm := fun K _ _ V m => Permutation_refl (map_to_list m)
}.

Lemma hash_iter_elem `{HashIter} `{Countable K} {V} (m : gmap K V) k v :
  (k, v) ∈ hash_iter m <-> m !! k = Some v.
Proof. rewrite hash_iter_perm. apply elem_of_map_to_list. Qed.

Lemma hash_iter_keys_nodup `{HashIter} `{Countable K} {V} (m : gmap K V) :
  NoDup (hash_iter m).*1.
Proof. rewrite hash_iter_perm. apply NoDup_fst_map_to_list. Qed.

Lemma hash_iter_keys_elem `{HashIter} `{Countable K} {V} (m : gmap K V) k :
  k ∈ (hash_iter m).*1 <-> is_Some (m !! k).
Proof.
  rewrite list_elem_of_fmap. split.
  - intros ([k' v] & -> & Hin%hash_iter_elem). by exists v.
  - intros [v Hv%hash_iter_elem]. by exists (k, v).
Qed.

(** * Automation *)

Create HintDb flowd.
#[export] Hint Resolve from_utf8_bytes i32_of_i64_id : flowd.
Create Rewrite HintDb flowd.
#[export] Hint Rewrite @u64_add_small @u32_sub_ge using lia : flowd.

(** Case analysis on the discriminee of the first [match] or [if] of the goal
    or of a hypothesis. *)
Ltac case_match_goal :=
  match goal with
  | |- context [ match ?x with _ => _ end ] => destruct x eqn:?
  | H : context [ match ?x with _ => _ end ] |- _ => destruct x eqn:?
  end.

Ltac crush := repeat (case_match_goal; simplify_eq/=); try done; eauto with flowd.
