(* ===== verification/Api.v ===== *)
(** The component API crate, [component_api/src/lib.rs]: messages, edges,
    process results, the node context that the scheduler hands to a component,
    signal channels, retry bookkeeping and the component metadata records.

    The ring buffer (crate [rtrb]) and the multimap (crate [multimap]) are not
    part of the repository: they are the interfaces [Rtrb] and [MultiMapLib],
    whose laws restate their documentation.  Each has an executable list or
    map instance that the witnesses use. *)
From S2P Require Import Prelude.
From Stdlib Require Strings.String.
From Stdlib Require Import NArith ZArith Lia Strings.Byte Strings.Ascii.
From stdpp Require Import base list strings gmap pretty.
Local Set Warnings "-register-all".
Local Open Scope string_scope.
Local Open Scope list_scope.
Local Open Scope flowd_scope.

(** * Graph endpoints and trace payloads *)

Record GraphNodeSpecNetwork : Type := mk_GraphNodeSpecNetwork {
  gnsn_node : string;
  gnsn_port : string;
  gnsn_index : option string
}.

Record TraceDataEventPayload : Type := mk_TraceDataEventPayload {
  td_id : string;
  td_src : GraphNodeSpecNetwork;
  td_tgt : GraphNodeSpecNetwork;
  td_graph : string;
  td_data : string
}.

Record TraceConnectEventPayload : Type := mk_TraceConnectEventPayload {
  tc_id : string;
  tc_src : GraphNodeSpecNetwork;
  tc_tgt : GraphNodeSpecNetwork;
  tc_graph : string
}.

Record TraceDisconnectEventPayload : Type := mk_TraceDisconnectEventPayload {
  tx_id : string;
  tx_src : GraphNodeSpecNetwork;
  tx_tgt : GraphNodeSpecNetwork;
  tx_graph : string
}.

#[export] Instance GraphNodeSpecNetwork_eq_dec : EqDecision GraphNodeSpecNetwork.
Proof. solve_decision. Defined.
#[export] Instance TraceDataEventPayload_eq_dec : EqDecision TraceDataEventPayload.
Proof. solve_decision. Defined.
#[export] Instance TraceConnectEventPayload_eq_dec : EqDecision TraceConnectEventPayload.
Proof. solve_decision. Defined.
#[export] Instance TraceDisconnectEventPayload_eq_dec : EqDecision TraceDisconnectEventPayload.
Proof. solve_decision. Defined.

(** * Messages *)

(** [f64] is its IEEE 754 bit pattern. *)
Inductive FbpValue : Type :=
| VNull
| VBool (b : bool)
| VInt (z : Z)
| VFloat (bits : N)
| VText (s : string)
| VBytes (bs : list byte)
| VList (l : list FbpValue)
| VMap (m : gmap string FbpValue).

Inductive ControlEvent : Type :=
| BeginGroup (s : string)
| EndGroup (s : string)
| BeginBracket (s : string)
| EndBracket (s : string)
| Disconnect
| Drain
| Discontinuity
| Custom (s : string) (v : option FbpValue).

Inductive FbpMessage : Type :=
| Bytes (bs : list byte)
| Text (s : string)
| Value (v : FbpValue)
| Control (c : ControlEvent)
| TraceData (p : TraceDataEventPayload)
| TraceConnect (p : TraceConnectEventPayload)
| TraceDisconnect (p : TraceDisconnectEventPayload).

(** The derived [PartialEq] on [f64]: NaN is different from itself, the two
    zeros are equal. *)
Definition f64_is_nan (bits : N) : bool :=
  (N.eqb (N.land (N.shiftr bits 52) 2047) 2047
   && negb (N.eqb (N.land bits 4503599627370495) 0))%N.

Definition f64_is_zero (bits : N) : bool :=
  N.eqb (N.land bits 9223372036854775807) 0%N.

Definition f64_eqb (a b : N) : bool :=
  if f64_is_nan a || f64_is_nan b then false
  else if f64_is_zero a && f64_is_zero b then true else N.eqb a b.

Fixpoint value_eqb (a b : FbpValue) {struct a} : bool :=
  match a, b with
  | VNull, VNull => true
  | VBool x, VBool y => Bool.eqb x y
  | VInt x, VInt y => Z.eqb x y
  | VFloat x, VFloat y => f64_eqb x y
  | VText x, VText y => String.eqb x y
  | VBytes x, VBytes y => bool_decide (x = y)
  | VList l, VList l' =>
      (fix go (l l' : list FbpValue) : bool :=
         match l, l' with
         | [], [] => true
         | x :: r, y :: r' => value_eqb x y && go r r'
         | _, _ => false
         end) l l'
  | VMap m, VMap m' =>
      bool_decide (size m = size m')
      && map_fold (fun k v acc =>
           match m' !! k with Some v' => value_eqb v v' && acc | None => false end) true m
  | _, _ => false
  end.

Definition control_eqb (a b : ControlEvent) : bool :=
  match a, b with
  | BeginGroup x, BeginGroup y | EndGroup x, EndGroup y
  | BeginBracket x, BeginBracket y | EndBracket x, EndBracket y => String.eqb x y
  | Disconnect, Disconnect | Drain, Drain | Discontinuity, Discontinuity => true
  | Custom x v, Custom y w =>
      String.eqb x y
      && match v, w with
         | None, None => true
         | Some v, Some w => value_eqb v w
         | _, _ => false
         end
  | _, _ => false
  end.

Definition message_eqb (a b : FbpMessage) : bool :=
  match a, b with
  | Bytes x, Bytes y => bool_decide (x = y)
  | Text x, Text y => String.eqb x y
  | Value x, Value y => value_eqb x y
  | Control x, Control y => control_eqb x y
  | TraceData x, TraceData y => bool_decide (x = y)
  | TraceConnect x, TraceConnect y => bool_decide (x = y)
  | TraceDisconnect x, TraceDisconnect y => bool_decide (x = y)
  | _, _ => false
  end.

Definition from_bytes (bs : list byte) : FbpMessage := Bytes bs.
Definition from_text (s : string) : FbpMessage := Text s.
Definition from_str (s : string) : FbpMessage := Text s.

Definition as_bytes (m : FbpMessage) : option (list byte) :=
  match m with Bytes bs => Some bs | _ => None end.

(** [m.as_bytes().unwrap_or(&[])]: a text has none. *)
Definition packet_bytes (m : FbpMessage) : list byte := default [] (as_bytes m).

Definition as_text (m : FbpMessage) : option string :=
  match m with Text s => Some s | _ => None end.

Definition as_value (m : FbpMessage) : option FbpValue :=
  match m with Value v => Some v | _ => None end.

Definition as_control (m : FbpMessage) : option ControlEvent :=
  match m with Control c => Some c | _ => None end.

Definition is_control (m : FbpMessage) : bool :=
  match m with Control _ => true | _ => false end.

Definition is_data (m : FbpMessage) : bool :=
  match m with Bytes _ | Text _ | Value _ => true | _ => false end.

Definition is_trace (m : FbpMessage) : bool :=
  match m with TraceData _ | TraceConnect _ | TraceDisconnect _ => true | _ => false end.

(** [message_as_utf8] of [src/runtime.rs], which the components repeat inline
    as [m.as_text().or_else(|| m.as_bytes().and_then(from_utf8))]. *)
Definition message_as_utf8 (m : FbpMessage) : option string :=
  match as_text m with
  | Some s => Some s
  | None => match as_bytes m with Some bs => from_utf8 bs | None => None end
  end.

(** * The ring buffer interface (crate rtrb)

    [ring] is one buffer seen from both ends.  [ring_push] is the producer's
    [push]: [Err] carries the rejected value ([PushError::Full]).  [ring_pop],
    [ring_slots], [ring_is_empty], [ring_is_abandoned] and [ring_read_chunk]
    are the consumer's; [ring_drop_producer] is the producer going out of
    scope, after which the consumer sees the buffer as abandoned; a chunk is consumed as a whole ([commit_all] or
    [into_iter]).  [ring_items] (oldest first) and [ring_cap] only serve the
    laws. *)
Class Rtrb : Type := {
  ring : Type;
  ring_new : nat -> ring;
  ring_push : FbpMessage -> ring -> result unit FbpMessage * ring;
  ring_pop : ring -> option FbpMessage * ring;
  ring_slots : ring -> nat;
  ring_is_empty : ring -> bool;
  ring_is_abandoned : ring -> bool;
  ring_read_chunk : nat -> ring -> option (list FbpMessage * ring);
  ring_drop_producer : ring -> ring;
  ring_items : ring -> list FbpMessage;
  ring_cap : ring -> nat;

  ring_new_items n : ring_items (ring_new n) = [];
  ring_new_cap n : ring_cap (ring_new n) = n;
  ring_push_res m r :
    (ring_push m r).1 =
      if (length (ring_items r) <? ring_cap r)%nat then Ok tt else Err m;
  ring_push_items m r :
    ring_items (ring_push m r).2 =
      if (length (ring_items r) <? ring_cap r)%nat then ring_items r ++ [m] else ring_items r;
  ring_push_cap m r : ring_cap (ring_push m r).2 = ring_cap r;
  ring_new_abandoned n : ring_is_abandoned (ring_new n) = false;
  ring_push_abandoned m r : ring_is_abandoned (ring_push m r).2 = ring_is_abandoned r;
  ring_drop_producer_items r : ring_items (ring_drop_producer r) = ring_items r;
  ring_drop_producer_cap r : ring_cap (ring_drop_producer r) = ring_cap r;
  ring_drop_producer_abandoned r : ring_is_abandoned (ring_drop_producer r) = true;
  ring_pop_res r : (ring_pop r).1 = head (ring_items r);
  ring_pop_items r : ring_items (ring_pop r).2 = tail (ring_items r);
  ring_pop_cap r : ring_cap (ring_pop r).2 = ring_cap r;
  ring_pop_abandoned r : ring_is_abandoned (ring_pop r).2 = ring_is_abandoned r;
  ring_slots_spec r : ring_slots r = length (ring_items r);
  ring_is_empty_spec r : ring_is_empty r = (length (ring_items r) =? 0)%nat;
  ring_read_chunk_spec n r :
    match ring_read_chunk n r with
    | Some (ms, r') =>
        (n <= length (ring_items r))%nat /\ ms = take n (ring_items r)
        /\ ring_items r' = drop n (ring_items r) /\ ring_cap r' = ring_cap r
        /\ ring_is_abandoned r' = ring_is_abandoned r
    | None => (length (ring_items r) < n)%nat
    end
}.

(** The executable instance. *)
Record list_ring : Type := mk_list_ring {
  lr_items : list FbpMessage;
  lr_cap : nat;
  lr_abandoned : bool
}.

Definition list_ring_push (m : FbpMessage) (r : list_ring) : result unit FbpMessage * list_ring :=
  if (length (lr_items r) <? lr_cap r)%nat
  then (Ok tt, mk_list_ring (lr_items r ++ [m]) (lr_cap r) (lr_abandoned r))
  else (Err m, r).

Definition list_ring_pop (r : list_ring) : option FbpMessage * list_ring :=
  (head (lr_items r), mk_list_ring (tail (lr_items r)) (lr_cap r) (lr_abandoned r)).

Definition list_ring_read_chunk (n : nat) (r : list_ring) : option (list FbpMessage * list_ring) :=
  if (n <=? length (lr_items r))%nat
  then Some (take n (lr_items r),
             mk_list_ring (drop n (lr_items r)) (lr_cap r) (lr_abandoned r))
  else None.

#[local, refine] Instance list_rtrb : Rtrb := {
  ring := list_ring;
  ring_new := fun n => mk_list_ring [] n false;
  ring_push := list_ring_push;
  ring_pop := list_ring_pop;
  ring_slots := fun r => length (lr_items r);
  ring_is_empty := fun r => (length (lr_items r) =? 0)%nat;
  ring_is_abandoned := lr_abandoned;
  ring_read_chunk := list_ring_read_chunk;
  ring_drop_producer := fun r => mk_list_ring (lr_items r) (lr_cap r) true;
  ring_items := lr_items;
  ring_cap := lr_cap;
  ring_new_items := _; ring_new_cap := _; ring_push_res := _; ring_push_items := _;
  ring_push_cap := _; ring_new_abandoned := _; ring_push_abandoned := _;
  ring_drop_producer_items := _; ring_drop_producer_cap := _; ring_drop_producer_abandoned := _;
  ring_pop_res := _; ring_pop_items := _; ring_pop_cap := _;
  ring_pop_abandoned := _; ring_slots_spec := _; ring_is_empty_spec := _;
  ring_read_chunk_spec := _
}.
Proof.
  all: intros; try reflexivity.
  all: unfold list_ring_push, list_ring_read_chunk; try by case_match.
  destruct (n <=? length (lr_items r))%nat eqn:Hn; simpl.
  - apply Nat.leb_le in Hn. done.
  - by apply Nat.leb_gt in Hn.
Defined.

(** * The multimap interface (crate multimap) *)
Class MultiMapLib (V : Type) : Type := {
  multimap : Type;
  mm_new : multimap;
  mm_insert : string -> V -> multimap -> multimap;
  mm_get_vec : string -> multimap -> option (list V);
  mm_contains_key : string -> multimap -> bool;
  mm_remove : string -> multimap -> option (list V) * multimap;
  mm_keys : multimap -> list string;

  mm_get_vec_new k : mm_get_vec k mm_new = None;
  mm_get_vec_insert_eq k v m :
    mm_get_vec k (mm_insert k v m) = Some (default [] (mm_get_vec k m) ++ [v]);
  mm_get_vec_insert_ne k k' v m :
    k <> k' -> mm_get_vec k' (mm_insert k v m) = mm_get_vec k' m;
  mm_contains_key_spec k m : mm_contains_key k m = bool_decide (is_Some (mm_get_vec k m));
  mm_remove_res k m : (mm_remove k m).1 = mm_get_vec k m;
  mm_remove_eq k m : mm_get_vec k (mm_remove k m).2 = None;
  mm_remove_ne k k' m : k <> k' -> mm_get_vec k' (mm_remove k m).2 = mm_get_vec k' m;
  mm_keys_nodup m : NoDup (mm_keys m);
  mm_keys_spec k m : k ∈ mm_keys m <-> is_Some (mm_get_vec k m)
}.
Arguments multimap V {_}.

(** The key has a value, here: the port a channel. *)
Definition has_channel {V} `{MultiMapLib V} (name : string) (m : multimap V) : Prop :=
  exists v vs, mm_get_vec name m = Some (v :: vs).

Lemma has_channel_contains {V} `{MultiMapLib V} name (m : multimap V) :
  has_channel name m -> mm_contains_key name m = true.
Proof. intros (v & vs & Hm). rewrite mm_contains_key_spec, Hm. by apply bool_decide_true. Qed.

#[local, refine] Instance gmap_multimap (V : Type) : MultiMapLib V := {
  multimap := gmap string (list V);
  mm_new := ∅;
  mm_insert := fun k v m => <[k := default [] (m !! k) ++ [v]]> m;
  mm_get_vec := fun k m => m !! k;
  mm_contains_key := fun k m => bool_decide (is_Some (m !! k));
  mm_remove := fun k m => (m !! k, delete k m);
  mm_keys := fun m => (map_to_list m).*1
}.
Proof.
  - intros. apply lookup_empty.
  - intros. apply lookup_insert_eq.
  - intros. by apply lookup_insert_ne.
  - done.
  - done.
  - intros. apply lookup_delete_eq.
  - intros. by apply lookup_delete_ne.
  - intros. apply NoDup_fst_map_to_list.
  - intros k m. rewrite list_elem_of_fmap. split.
    + intros ([k' vs] & -> & Hin%elem_of_map_to_list). by exists vs.
    + intros [vs Hk]. exists (k, vs). by rewrite elem_of_map_to_list.
Defined.

(** * Scheduler hooks and observable effects

    A [SchedulerWaker] is a closure; every closure the program builds (in
    [Scheduler::create_waker] and in [Runtime::start]) calls
    [signal_ready(node)] for one fixed node, so it is represented by that
    node's id.  [WakeupNotify] is a thread handle, a trace sender an mpsc
    handle; both are opaque numbers. *)
Abbreviation SchedulerWaker := (string) (only parsing).
Abbreviation WakeupNotify := (N) (only parsing).
Abbreviation TraceSender := (N) (only parsing).

(** What a component does to the outside while [process] runs, in order. *)
Inductive Effect : Type :=
| EffTrace (ch : TraceSender) (m : FbpMessage)     (* trace_sender.send(m) *)
| EffSignalReady (w : SchedulerWaker)              (* signal_ready closure called *)
| EffUnpark (t : WakeupNotify)                     (* wakeup.unpark() *)
| EffContextReady                                  (* context.signal_ready() *)
| EffNetworkOutput (s : string)                    (* (graph_inout.0)(s) *)
| EffPreviewUrl (s : string)                       (* (graph_inout.1)(s) *)
| EffPrint (s : string).                           (* println! *)

Definition send_network_output_comfortable (message : string) : list Effect :=
  [EffNetworkOutput message].
Definition send_network_previewurl_comfortable (url : string) : list Effect :=
  [EffPreviewUrl url].
Definition wake_scheduler (waker : option SchedulerWaker) : list Effect :=
  match waker with Some w => [EffSignalReady w] | None => [] end.

Definition PROCESSEDGE_BUFSIZE : nat := 7 * 7 * 7 * 7.
Definition PROCESSEDGE_SIGNAL_BUFSIZE : nat := 2.
Definition PROCESSEDGE_IIP_BUFSIZE : nat := 1.
(** [Duration]s and [Instant]s are nanosecond counts. *)
Definition DEFAULT_IO_POLL_INTERVAL : N := 25000000.
Definition DEFAULT_MAX_INFLIGHT : nat := 10.
Definition DEFAULT_MAX_PENDING : nat := 100.

(** * Edge sinks *)
Section edge_sink.
Context `{R : Rtrb}.

Record ProcessEdgeSink : Type := mk_ProcessEdgeSink {
  pes_sink : ring;
  pes_wakeup : option WakeupNotify;
  pes_proc_name : option string;
  pes_signal_ready : option SchedulerWaker;
  pes_tracing_enabled : bool;
  pes_edge_id : option string;
  pes_src_node : option string;
  pes_src_port : option string;
  pes_tgt_node : option string;
  pes_tgt_port : option string;
  pes_graph_name : option string;
  pes_trace_sender : option TraceSender
}.

(** [ProcessEdgeSink::new]. *)
Definition new_edge_sink (sink : ring) (wakeup : option WakeupNotify)
    (proc_name : option string) (signal_ready : option SchedulerWaker) : ProcessEdgeSink :=
  mk_ProcessEdgeSink sink wakeup proc_name signal_ready false
    None None None None None None None.

Definition enable_tracing (edge_id src_node src_port tgt_node tgt_port graph_name : string)
    (trace_sender : TraceSender) (s : ProcessEdgeSink) : ProcessEdgeSink :=
  mk_ProcessEdgeSink (pes_sink s) (pes_wakeup s) (pes_proc_name s) (pes_signal_ready s)
    true (Some edge_id) (Some src_node) (Some src_port) (Some tgt_node) (Some tgt_port)
    (Some graph_name) (Some trace_sender).

Definition set_sink (r : ring) (s : ProcessEdgeSink) : ProcessEdgeSink :=
  mk_ProcessEdgeSink r (pes_wakeup s) (pes_proc_name s) (pes_signal_ready s)
    (pes_tracing_enabled s) (pes_edge_id s) (pes_src_node s) (pes_src_port s)
    (pes_tgt_node s) (pes_tgt_port s) (pes_graph_name s) (pes_trace_sender s).

(** The text a trace event carries for a message. *)
Definition trace_data_str (data : FbpMessage) : string :=
  match data with
  | Bytes bytes => pretty (N.of_nat (length bytes)) +:+ " bytes"
  | Text text => text
  | Value _ => "structured data"
  | Control _ => "control message"
  | TraceData _ => "trace data"
  | TraceConnect _ => "trace connect"
  | TraceDisconnect _ => "trace disconnect"
  end.

(** The trace event of a successful push. *)
Definition push_trace (s : ProcessEdgeSink) (data : FbpMessage) : list Effect :=
  if pes_tracing_enabled s then
    match pes_edge_id s, pes_src_node s, pes_src_port s, pes_tgt_node s, pes_tgt_port s,
          pes_graph_name s, pes_trace_sender s with
    | Some edge_id, Some src_node, Some src_port, Some tgt_node, Some tgt_port,
      Some graph_name, Some trace_sender =>
        [EffTrace trace_sender
           (TraceData (mk_TraceDataEventPayload edge_id
              (mk_GraphNodeSpecNetwork src_node src_port None)
              (mk_GraphNodeSpecNetwork tgt_node tgt_port None)
              graph_name (trace_data_str data)))]
    | _, _, _, _, _, _, _ => []
    end
  else [].

(** [ProcessEdgeSink::push]. *)
Definition push (data : FbpMessage) (s : ProcessEdgeSink) :
    result unit FbpMessage * ProcessEdgeSink * list Effect :=
  match ring_push data (pes_sink s) with
  | (Ok tt, r) =>
      (Ok tt, set_sink r s,
       push_trace s data
       ++ wake_scheduler (pes_signal_ready s)
       ++ match pes_wakeup s with Some t => [EffUnpark t] | None => [] end)
  | (Err e, r) => (Err e, set_sink r s, [])
  end.

(** What is queued behind a sink, and the space left. *)
Definition sink_items (s : ProcessEdgeSink) : list FbpMessage := ring_items (pes_sink s).
Definition sink_full (s : ProcessEdgeSink) : bool :=
  negb (length (sink_items s) <? ring_cap (pes_sink s))%nat.

Lemma push_spec data s :
  exists s' eff,
    push data s = (if sink_full s then Err data else Ok tt, s', eff) /\
    sink_items s' = (if sink_full s then sink_items s else sink_items s ++ [data]) /\
    ring_cap (pes_sink s') = ring_cap (pes_sink s) /\
    pes_signal_ready s' = pes_signal_ready s /\
    (sink_full s = true -> eff = []) /\
    (sink_full s = false -> forall w, pes_signal_ready s = Some w -> EffSignalReady w ∈ eff) /\
    ring_is_abandoned (pes_sink s') = ring_is_abandoned (pes_sink s).
Proof.
  unfold push, sink_full, sink_items.
  pose proof (ring_push_res data (pes_sink s)) as Hres.
  pose proof (ring_push_items data (pes_sink s)) as Hitems.
  pose proof (ring_push_cap data (pes_sink s)) as Hcap.
  pose proof (ring_push_abandoned data (pes_sink s)) as Hab.
  destruct (ring_push data (pes_sink s)) as [res r]; simpl in *.
  destruct (length (ring_items (pes_sink s)) <? ring_cap (pes_sink s))%nat eqn:Hlt;
    simpl; subst res; eexists _, _; (split; [reflexivity|]); simpl.
  - repeat split; try done. intros _ w Hw. rewrite Hw. set_solver.
  - by repeat split.
Qed.

Lemma push_ok data s s' eff :
  push data s = (Ok tt, s', eff) ->
  sink_full s = false /\ sink_items s' = sink_items s ++ [data].
Proof.
  destruct (push_spec data s) as (s0 & e0 & Heq & Hi & _). rewrite Heq.
  destruct (sink_full s); intros; by simplify_eq.
Qed.

Lemma push_err data s m s' eff :
  push data s = (Err m, s', eff) ->
  sink_full s = true /\ m = data /\ sink_items s' = sink_items s /\ eff = [].
Proof.
  destruct (push_spec data s) as (s0 & e0 & Heq & Hi & _ & _ & He & _). rewrite Heq.
  destruct (sink_full s); intros; simplify_eq; naive_solver.
Qed.
End edge_sink.

(** * Signal channels: [std::sync::mpsc::sync_channel] *)
Record sync_channel : Type := mk_sync_channel {
  sc_items : list FbpMessage;
  sc_bound : nat;
  sc_rx_alive : bool
}.

Inductive TrySendError : Type :=
| SendFull (m : FbpMessage)
| SendDisconnected (m : FbpMessage).

Definition try_recv (ch : sync_channel) : option FbpMessage * sync_channel :=
  (head (sc_items ch), mk_sync_channel (tail (sc_items ch)) (sc_bound ch) (sc_rx_alive ch)).

Definition try_send (m : FbpMessage) (ch : sync_channel) : result unit TrySendError * sync_channel :=
  if negb (sc_rx_alive ch) then (Err (SendDisconnected m), ch)
  else if (length (sc_items ch) <? sc_bound ch)%nat
  then (Ok tt, mk_sync_channel (sc_items ch ++ [m]) (sc_bound ch) (sc_rx_alive ch))
  else (Err (SendFull m), ch).

(** The signal check that every component repeats: [true] when the signal is
    "stop" (the component then returns [Finished]); "ping" is answered with
    "pong", whose failure is ignored; any other signal is dropped.  [decode]
    is the component's way of reading the signal's text. *)
Definition poll_signal (decode : FbpMessage -> option string) (sin sout : sync_channel) :
    bool * sync_channel * sync_channel :=
  match try_recv sin with
  | (Some ip, sin') =>
      let signal_text := default "" (decode ip) in
      if String.eqb signal_text "stop" then (true, sin', sout)
      else if String.eqb signal_text "ping" then (false, sin', (try_send (from_str "pong") sout).2)
      else (false, sin', sout)
  | (None, sin') => (false, sin', sout)
  end.

Lemma poll_signal_quiet decode sin sout :
  sc_items sin = [] -> poll_signal decode sin sout = (false, sin, sout).
Proof. destruct sin as [items b a]. simpl. by intros ->. Qed.

(** * Results of processing and the node context *)

Inductive ProcessResult : Type :=
| DidWork (n : N)
| NoWork
| Finished.

Inductive BudgetClass : Type := Normal | Heavy | Realtime.

(** [budget_class as u32]. *)
Definition budget_of_class (c : BudgetClass) : N :=
  match c with Normal => 32 | Heavy => 8 | Realtime => 96 end%N.

#[export] Instance ProcessResult_eq_dec : EqDecision ProcessResult.
Proof. solve_decision. Defined.
#[export] Instance BudgetClass_eq_dec : EqDecision BudgetClass.
Proof. solve_decision. Defined.

(** [Instant]: nanoseconds since some origin. *)
Abbreviation Instant := (N) (only parsing).
Abbreviation Duration := (N) (only parsing).

(** [Arc<AtomicBool>]s live in a store; a [flag_loc] is the shared pointer. *)
Abbreviation flag_loc := (positive) (only parsing).
Abbreviation flag_store := (gmap positive bool) (only parsing).

Record NodeContext : Type := mk_NodeContext {
  node_id : string;
  budget_class : BudgetClass;
  remaining_budget : N;
  last_execution : Instant;
  execution_count : N;
  work_units_processed : N;
  ready_signal : flag_loc;
  wake_at : option Instant;
  timer_fired_at : option Instant
}.

Definition new_node_context (id : string) (c : BudgetClass) (flag : flag_loc) (now : Instant) :
    NodeContext :=
  mk_NodeContext id c 0 now 0 0 flag None None.

Definition set_remaining_budget (b : N) (c : NodeContext) : NodeContext :=
  mk_NodeContext (node_id c) (budget_class c) b (last_execution c) (execution_count c)
    (work_units_processed c) (ready_signal c) (wake_at c) (timer_fired_at c).

Definition set_wake_at (w : option Instant) (c : NodeContext) : NodeContext :=
  mk_NodeContext (node_id c) (budget_class c) (remaining_budget c) (last_execution c)
    (execution_count c) (work_units_processed c) (ready_signal c) w (timer_fired_at c).

Definition set_timer_fired_at (t : option Instant) (c : NodeContext) : NodeContext :=
  mk_NodeContext (node_id c) (budget_class c) (remaining_budget c) (last_execution c)
    (execution_count c) (work_units_processed c) (ready_signal c) (wake_at c) t.

(** [signal_ready], [clear_ready] and [is_ready] on the shared flag. *)
Definition ctx_signal_ready (c : NodeContext) (fl : flag_store) : flag_store :=
  <[ready_signal c := true]> fl.
Definition ctx_clear_ready (c : NodeContext) (fl : flag_store) : flag_store :=
  <[ready_signal c := false]> fl.
Definition ctx_is_ready (c : NodeContext) (fl : flag_store) : bool :=
  default false (fl !! ready_signal c).

Definition ctx_wake_at (at_ : Instant) (c : NodeContext) : NodeContext :=
  set_wake_at (Some at_) c.
Definition take_wake_at (c : NodeContext) : option Instant * NodeContext :=
  (wake_at c, set_wake_at None c).
Definition mark_timer_fired (at_ : Instant) (c : NodeContext) : NodeContext :=
  set_timer_fired_at (Some at_) c.
Definition take_timer_fired (c : NodeContext) : option Instant * NodeContext :=
  (timer_fired_at c, set_timer_fired_at None c).

(** * Component metadata *)

Record ComponentPort : Type := mk_ComponentPort {
  cp_name : string;
  cp_allowed_type : string;
  cp_schema : option string;
  cp_required : bool;
  cp_is_arrayport : bool;
  cp_description : string;
  cp_values_allowed : list string;
  cp_value_default : string
}.

Definition default_in : ComponentPort :=
  mk_ComponentPort "in" "string" None true false "a default input port" [] "".
Definition default_out : ComponentPort :=
  mk_ComponentPort "out" "string" None true false "a default output port" [] "".

Record ComponentComponentPayload : Type := mk_ComponentComponentPayload {
  ccp_name : string;
  ccp_description : string;
  ccp_icon : string;
  ccp_subgraph : bool;
  ccp_in_ports : list ComponentPort;
  ccp_out_ports : list ComponentPort;
  ccp_support_health : bool;
  ccp_support_perfdata : bool;
  ccp_support_reconnect : bool
}.

Definition default_component_payload : ComponentComponentPayload :=
  mk_ComponentComponentPayload "main/Repeat" "description of the Repeat component" "fa-usd"
    false [] [] false false false.

(** * Retry bookkeeping (ADR-017) *)

Inductive ErrorType : Type := Transient | Permanent.

Record RetryState : Type := mk_RetryState {
  rs_attempt : N;
  rs_next_retry_at : Instant;
  rs_last_error_type : ErrorType
}.

Definition new_retry_state (now : Instant) : RetryState := mk_RetryState 0 now Transient.

(** [RetryState::should_retry]; only [max_retries] of the config matters. *)
Definition should_retry (s : RetryState) (error_type : ErrorType) (max_retries : N) : bool :=
  match error_type with
  | Permanent => false
  | Transient => (rs_attempt s <? max_retries)%N
  end.

Definition is_ready_to_retry (s : RetryState) (now : Instant) : bool :=
  (rs_next_retry_at s <=? now)%N.
