(* ===== verification/Scheduler.v ===== *)
(** The cooperative scheduler, [src/scheduler.rs]: its state and operations,
    the execution of one component within its budget, the timers, and the run
    loop as a step relation in which other threads interleave. *)
From S2P Require Import Prelude Api.
From Stdlib Require Strings.String.
From Stdlib Require Import NArith ZArith Lia.
From stdpp Require Import base list strings gmap.
Local Open Scope flowd_scope.

(** * State *)

Record SchedulerMetrics : Type := mk_SchedulerMetrics {
  executions_per_node : gmap string N;
  work_units_per_node : gmap string N;
  time_since_last_execution : gmap string Duration;
  queue_depth : nat;
  loop_iterations : N
}.

Record TimerWake : Type := mk_TimerWake {
  tw_when : Instant;
  tw_node_id : string
}.

#[export] Instance TimerWake_eq_dec : EqDecision TimerWake.
Proof. solve_decision. Defined.

(** [impl Ord for TimerWake]: reversed on the deadline, so that the greatest
    entry of the heap is the earliest. *)
Definition timer_cmp (a b : TimerWake) : comparison :=
  match N.compare (tw_when b) (tw_when a) with
  | Eq => String.compare (tw_node_id a) (tw_node_id b)
  | c => c
  end.

(** [std::collections::BinaryHeap<TimerWake>]: a bag with access to its
    greatest element. *)
Fixpoint heap_peek (h : list TimerWake) : option TimerWake :=
  match h with
  | [] => None
  | x :: r =>
      match heap_peek r with
      | None => Some x
      | Some y => match timer_cmp x y with Lt => Some y | _ => Some x end
      end
  end.

Definition heap_pop (h : list TimerWake) : option TimerWake * list TimerWake :=
  match heap_peek h with
  | None => (None, h)
  | Some m =>
      (Some m, match remove_first (fun x => bool_decide (x = m)) h with
               | Some (_, r) => r
               | None => h
               end)
  end.

Definition heap_push (t : TimerWake) (h : list TimerWake) : list TimerWake := t :: h.

(** A component instance ([Box<dyn Component>]) is a value of a type [C] with
    a [process] function.  One call yields the new component and context, the
    effects it had, the time it took, the clock afterwards, and its result;
    [None] means that it unwound. *)
Record process_run (C : Type) : Type := mk_process_run {
  pr_self : C;
  pr_context : NodeContext;
  pr_effects : list Effect;
  pr_elapsed : Duration;
  pr_now : Instant;
  pr_result : option ProcessResult
}.
Arguments mk_process_run {C}.
Arguments pr_self {C}.
Arguments pr_context {C}.
Arguments pr_effects {C}.
Arguments pr_elapsed {C}.
Arguments pr_now {C}.
Arguments pr_result {C}.

(** The flag pointer of a context is a private field: no component can
    replace it. *)
Class Component (C : Type) : Type := {
  process : C -> NodeContext -> process_run C;
  process_keeps_flag c ctx : ready_signal (pr_context (process c ctx)) = ready_signal ctx
}.

Record SchedulerState (C : Type) : Type := mk_SchedulerState {
  nodes : gmap string NodeContext;
  components : gmap string C;
  ready_flags : gmap string flag_loc;
  ready_queue : list string;
  ready_set : gset string;
  timers : list TimerWake;
  timer_latest_by_node : gmap string Instant;
  metrics : SchedulerMetrics
}.
Arguments mk_SchedulerState {C}.
Arguments nodes {C}.
Arguments components {C}.
Arguments ready_flags {C}.
Arguments ready_queue {C}.
Arguments ready_set {C}.
Arguments timers {C}.
Arguments timer_latest_by_node {C}.
Arguments metrics {C}.

(** The scheduler: the mutex-protected state, the [running] flag, and the
    store in which the [AtomicBool]s shared with the node contexts live. *)
Record Scheduler (C : Type) : Type := mk_Scheduler {
  state : SchedulerState C;
  running : bool;
  flags : flag_store
}.
Arguments mk_Scheduler {C}.
Arguments state {C}.
Arguments running {C}.
Arguments flags {C}.

(** [ExecutionOutcome]. *)
Record ExecutionOutcome : Type := mk_ExecutionOutcome {
  eo_did_work : bool;
  eo_finished : bool;
  eo_executions : N;
  eo_work_units : N;
  eo_panicked : bool
}.
Definition default_outcome : ExecutionOutcome := mk_ExecutionOutcome false false 0 0 false.

Section scheduler.
Context {C : Type}.
Implicit Types (st : SchedulerState C) (s : Scheduler C).

(** Field updates. *)
Definition set_nodes x st : SchedulerState C :=
  mk_SchedulerState x (components st) (ready_flags st) (ready_queue st) (ready_set st)
    (timers st) (timer_latest_by_node st) (metrics st).
Definition set_components x st : SchedulerState C :=
  mk_SchedulerState (nodes st) x (ready_flags st) (ready_queue st) (ready_set st)
    (timers st) (timer_latest_by_node st) (metrics st).
Definition set_ready_flags x st : SchedulerState C :=
  mk_SchedulerState (nodes st) (components st) x (ready_queue st) (ready_set st)
    (timers st) (timer_latest_by_node st) (metrics st).
Definition set_ready q x st : SchedulerState C :=
  mk_SchedulerState (nodes st) (components st) (ready_flags st) q x
    (timers st) (timer_latest_by_node st) (metrics st).
Definition set_timers x st : SchedulerState C :=
  mk_SchedulerState (nodes st) (components st) (ready_flags st) (ready_queue st)
    (ready_set st) x (timer_latest_by_node st) (metrics st).
Definition set_timer_latest x st : SchedulerState C :=
  mk_SchedulerState (nodes st) (components st) (ready_flags st) (ready_queue st)
    (ready_set st) (timers st) x (metrics st).
Definition set_metrics x st : SchedulerState C :=
  mk_SchedulerState (nodes st) (components st) (ready_flags st) (ready_queue st)
    (ready_set st) (timers st) (timer_latest_by_node st) x.
Definition set_state st s : Scheduler C := mk_Scheduler st (running s) (flags s).
Definition set_flags f s : Scheduler C := mk_Scheduler (state s) (running s) f.
Definition set_running b s : Scheduler C := mk_Scheduler (state s) b (flags s).

(** [metrics.queue_depth = ready_queue.len()]. *)
Definition update_queue_depth st : SchedulerState C :=
  let m := metrics st in
  set_metrics (mk_SchedulerMetrics (executions_per_node m) (work_units_per_node m)
    (time_since_last_execution m) (length (ready_queue st)) (loop_iterations m)) st.

(** [if ready_set.insert(id) { ready_queue.push_back(id); .. }]: whether the
    id was new, and the state. *)
Definition enqueue (id : string) st : bool * SchedulerState C :=
  if decide (id ∈ ready_set st) then (false, st)
  else (true, set_ready (ready_queue st ++ [id]) ({[id]} ∪ ready_set st) st).

(** * Operations *)

Definition new_scheduler : Scheduler C :=
  mk_Scheduler
    (mk_SchedulerState ∅ ∅ ∅ [] ∅ [] ∅ (mk_SchedulerMetrics ∅ ∅ ∅ 0 0))
    true ∅.

Definition add_node (id : string) (c : BudgetClass) (now : Instant) s : Scheduler C :=
  let loc := fresh (dom (flags s)) in
  let context := new_node_context id c loc now in
  let st := state s in
  let m := metrics st in
  mk_Scheduler
    (set_metrics
       (mk_SchedulerMetrics (<[id := 0%N]> (executions_per_node m))
          (<[id := 0%N]> (work_units_per_node m))
          (<[id := 0%N]> (time_since_last_execution m)) (queue_depth m) (loop_iterations m))
       (set_nodes (<[id := context]> (nodes st))
          (set_ready_flags (<[id := loc]> (ready_flags st)) st)))
    (running s) (<[loc := false]> (flags s)).

Definition add_component (c : C) (id : string) s : Scheduler C :=
  set_state (set_components (<[id := c]> (components (state s))) (state s)) s.

(** The waker's closure calls [signal_ready] on its node. *)
Definition create_waker (id : string) s : option SchedulerWaker :=
  match nodes (state s) !! id with Some _ => Some id | None => None end.

Definition signal_ready (id : string) s : bool * Scheduler C :=
  match ready_flags (state s) !! id with
  | None => (false, s)
  | Some flag =>
      let s1 := set_flags (<[flag := true]> (flags s)) s in
      match enqueue id (state s1) with
      | (true, st) => (true, set_state (update_queue_depth st) s1)
      | (false, _) => (true, s1)
      end
  end.

Definition sched_wake_at (id : string) (when_ : Instant) s : bool * Scheduler C :=
  let st := state s in
  match nodes st !! id with
  | None => (false, s)
  | Some _ =>
      (true, set_state
         (set_timers (heap_push (mk_TimerWake when_ id) (timers st))
            (set_timer_latest (<[id := when_]> (timer_latest_by_node st)) st)) s)
  end.

Definition node_ids s : list string := (map_to_list (nodes (state s))).*1.

(** [now.duration_since(earlier)] saturates at zero. *)
Definition metrics_snapshot (now : Instant) s : SchedulerMetrics * Scheduler C :=
  let st := state s in
  let m := metrics st in
  let time_since := (fun c => (now - last_execution c)%N) <$> nodes st in
  let m' := mk_SchedulerMetrics (executions_per_node m) (work_units_per_node m)
              time_since (queue_depth m) (loop_iterations m) in
  (m', set_state (set_metrics m' st) s).

Definition stop s : Scheduler C := set_running false s.

(** ** Timers *)

(** The loop discards heap entries that a later [wake_at] has superseded. *)
Fixpoint next_valid_timer_loop (fuel : nat) st : option Instant * SchedulerState C :=
  match fuel with
  | O => (None, st)
  | S fuel =>
      match heap_peek (timers st) with
      | None => (None, st)
      | Some next =>
          match timer_latest_by_node st !! tw_node_id next with
          | Some latest =>
              if N.eqb latest (tw_when next) then (Some (tw_when next), st)
              else next_valid_timer_loop fuel (set_timers (heap_pop (timers st)).2 st)
          | None => next_valid_timer_loop fuel (set_timers (heap_pop (timers st)).2 st)
          end
      end
  end.

Definition next_valid_timer_deadline st : option Instant * SchedulerState C :=
  next_valid_timer_loop (length (timers st)) st.

(** One expired heap entry. *)
Definition fire_timer (entry : TimerWake) s : Scheduler C :=
  let st := state s in
  let id := tw_node_id entry in
  match timer_latest_by_node st !! id with
  | Some latest =>
      if N.eqb latest (tw_when entry) then
        let st1 := set_timer_latest (delete id (timer_latest_by_node st)) st in
        let st2 := match nodes st1 !! id with
                   | Some c => set_nodes (<[id := mark_timer_fired (tw_when entry) c]> (nodes st1)) st1
                   | None => st1
                   end in
        let fl := match ready_flags st2 !! id with
                  | Some flag => <[flag := true]> (flags s)
                  | None => flags s
                  end in
        mk_Scheduler (enqueue id st2).2 (running s) fl
      else s
  | None => s
  end.

Fixpoint drain_loop (fuel : nat) (now : Instant) s : Scheduler C :=
  match fuel with
  | O => s
  | S fuel =>
      match next_valid_timer_deadline (state s) with
      | (None, st) => set_state st s
      | (Some next_when, st) =>
          if (now <? next_when)%N then set_state st s
          else match heap_pop (timers st) with
               | (None, _) => set_state st s
               | (Some entry, h) =>
                   drain_loop fuel now (fire_timer entry (set_state (set_timers h st) s))
               end
      end
  end.

Definition drain_expired_timers (now : Instant) s : Scheduler C :=
  let s' := drain_loop (S (length (timers (state s)))) now s in
  set_state (update_queue_depth (state s')) s'.

(** * Executing one component *)

Context `{Comp : Component C}.
(** The crate feature [enforce-process-non-blocking-contract] (on by
    default). *)
Variable enforce : bool.

Definition PROCESS_CALL_MAX_BLOCKING : Duration := 10000000%N.

(** [assert!(elapsed <= PROCESS_CALL_MAX_BLOCKING)]. *)
Definition enforce_non_blocking_process_contract (elapsed : Duration) : bool :=
  negb enforce || (elapsed <=? PROCESS_CALL_MAX_BLOCKING)%N.

Definition apply_effect (flag : flag_loc) s (e : Effect) : Scheduler C :=
  match e with
  | EffSignalReady w => (signal_ready w s).2
  | EffContextReady => set_flags (<[flag := true]> (flags s)) s
  | _ => s
  end.

Definition apply_effects (flag : flag_loc) (es : list Effect) s : Scheduler C :=
  fold_left (apply_effect flag) es s.

(** The end of [execute_component]: it returns, or the assertion on the
    blocking time unwinds the scheduler thread. *)
Inductive exec_result : Type :=
| ExecDone (c : C) (ctx : NodeContext) (o : ExecutionOutcome) (s : Scheduler C)
| ExecCrashed (s : Scheduler C).

(** The accounting of [DidWork(units)]. *)
Definition accounted (units : N) : N := N.max units 1.
Definition consumed_budget (budget_before budget_after units : N) : N :=
  let budget_after_component := N.min budget_after budget_before in
  let consumed_by_component := (budget_before - budget_after_component)%N in
  N.max consumed_by_component (accounted units).

Definition account_work (budget_before units : N) (now : Instant) (ctx : NodeContext) :
    NodeContext :=
  mk_NodeContext (node_id ctx) (budget_class ctx)
    (budget_before - consumed_budget budget_before (remaining_budget ctx) units)%N
    now (u64_add (execution_count ctx) 1)
    (u64_add (work_units_processed ctx) (accounted units))
    (ready_signal ctx) (wake_at ctx) (timer_fired_at ctx).

Fixpoint execute_loop (fuel : nat) (c : C) (ctx : NodeContext) (o : ExecutionOutcome) s :
    exec_result :=
  match fuel with
  | O => ExecDone c ctx o s
  | S fuel =>
      if N.eqb (remaining_budget ctx) 0 then ExecDone c ctx o s
      else
        let budget_before := remaining_budget ctx in
        let r := process c ctx in
        let ctx1 := pr_context r in
        let s1 := apply_effects (ready_signal ctx) (pr_effects r) s in
        if negb (enforce_non_blocking_process_contract (pr_elapsed r)) then ExecCrashed s1
        else
          match pr_result r with
          | None =>
              ExecDone (pr_self r) ctx1
                (mk_ExecutionOutcome (eo_did_work o) true (eo_executions o)
                   (eo_work_units o) true)
                (set_flags (ctx_clear_ready ctx1 (flags s1)) s1)
          | Some (DidWork units) =>
              execute_loop fuel (pr_self r) (account_work budget_before units (pr_now r) ctx1)
                (mk_ExecutionOutcome true (eo_finished o) (eo_executions o + 1)
                   (eo_work_units o + accounted units) (eo_panicked o)) s1
          | Some NoWork => ExecDone (pr_self r) ctx1 o s1
          | Some Finished =>
              ExecDone (pr_self r) ctx1
                (mk_ExecutionOutcome (eo_did_work o) true (eo_executions o)
                   (eo_work_units o) (eo_panicked o))
                (set_flags (ctx_clear_ready ctx1 (flags s1)) s1)
          end
  end.

Definition execute_component (c : C) (ctx : NodeContext) s : exec_result :=
  let ctx1 := set_remaining_budget (budget_of_class (budget_class ctx)) ctx in
  let s1 := set_flags (ctx_clear_ready ctx1 (flags s)) s in
  let ctx2 := (take_wake_at ctx1).2 in
  execute_loop (S (N.to_nat (remaining_budget ctx2))) c ctx2 default_outcome s1.

(** * The run loop

    The phases of the scheduler thread, cut where it takes or releases the
    lock: [PStart] is about to lock; [PChecked d] holds the lock, has found
    nothing to do and is about to wait (until [d], if there is a timer);
    [PWaiting d] waits on the condition variable; [PExec] runs a component
    without the lock; [PDone] is about to lock again with its outcome. *)
Inductive phase : Type :=
| PStart
| PChecked (d : option Instant)
| PWaiting (d : option Instant)
| PExec (id : string) (c : C) (ctx : NodeContext)
| PDone (id : string) (c : C) (ctx : NodeContext) (o : ExecutionOutcome)
| PExited
| PCrashed.

(** Taking the next node from the queue. *)
Definition run_pick s : Scheduler C * phase :=
  let st := state s in
  match ready_queue st with
  | [] => (s, PStart)
  | id :: q =>
      let st1 := set_ready q (ready_set st ∖ {[id]}) st in
      let m := metrics st1 in
      let st2 := set_metrics
                   (mk_SchedulerMetrics (executions_per_node m) (work_units_per_node m)
                      (time_since_last_execution m) (length q)
                      (u64_add (loop_iterations m) 1)) st1 in
      match components st2 !! id with
      | None => (set_state st2 s, PStart)
      | Some c =>
          match nodes st2 !! id with
          | None => (set_state st2 s, PStart)
          | Some ctx =>
              (set_state (set_nodes (delete id (nodes st2))
                            (set_components (delete id (components st2)) st2)) s,
               PExec id c ctx)
          end
      end
  end.

(** The section under the lock that decides what to do next.  [now1] and
    [now2] are the two clock readings. *)
Definition run_check (now1 now2 : Instant) s : Scheduler C * phase :=
  let s1 := drain_expired_timers now1 s in
  if negb (running s1) then (s1, PExited)
  else match ready_queue (state s1) with
       | _ :: _ => run_pick s1
       | [] =>
           match next_valid_timer_deadline (state s1) with
           | (Some next_wake, st) =>
               if (next_wake <=? now2)%N then (set_state st s1, PStart)
               else (set_state st s1, PChecked (Some next_wake))
           | (None, st) => (set_state st s1, PChecked None)
           end
       end.

Definition add_metric (id : string) (n : N) (m : gmap string N) : gmap string N :=
  match m !! id with Some x => <[id := u64_add x n]> m | None => m end.

(** The section under the lock after an execution. *)
Definition complete (id : string) (c : C) (ctx : NodeContext) (o : ExecutionOutcome) s :
    Scheduler C :=
  let m := metrics (state s) in
  let st := set_metrics
              (mk_SchedulerMetrics (add_metric id (eo_executions o) (executions_per_node m))
                 (add_metric id (eo_work_units o) (work_units_per_node m))
                 (time_since_last_execution m) (queue_depth m) (loop_iterations m))
              (state s) in
  if eo_finished o then
    let q := filter (fun queued => queued <> id) (ready_queue st) in
    let st1 := set_ready q (ready_set st ∖ {[id]})
                 (set_timer_latest (delete id (timer_latest_by_node st))
                    (set_ready_flags (delete id (ready_flags st)) st)) in
    let m1 := metrics st1 in
    let st2 := set_metrics
                 (mk_SchedulerMetrics (executions_per_node m1) (work_units_per_node m1)
                    (delete id (time_since_last_execution m1)) (length q)
                    (loop_iterations m1)) st1 in
    if decide (nodes st2 = ∅) then
      if decide (components st2 = ∅) then mk_Scheduler st2 false (flags s)
      else set_state st2 s
    else set_state st2 s
  else
    let ready_flag := ctx_is_ready ctx (flags s) in
    let '(w, ctx1) := take_wake_at ctx in
    let st1 := match w with
               | Some when_ =>
                   set_timers (heap_push (mk_TimerWake when_ id) (timers st))
                     (set_timer_latest (<[id := when_]> (timer_latest_by_node st)) st)
               | None => st
               end in
    let st2 := set_nodes (<[id := ctx1]> (nodes st1))
                 (set_components (<[id := c]> (components st1)) st1) in
    let should_requeue := negb (eo_finished o) && (eo_did_work o || ready_flag) in
    if should_requeue then
      match enqueue id st2 with
      | (true, st3) => set_state (update_queue_depth st3) s
      | (false, _) => set_state st2 s
      end
    else set_state st2 s.

(** Whether the scheduler thread leaves the mutex free. *)
Definition lock_free (ph : phase) : Prop :=
  match ph with PChecked _ => False | _ => True end.

(** [condvar.notify_one] / [notify_all]. *)
Definition notify (ph : phase) : phase :=
  match ph with PWaiting _ => PStart | _ => ph end.

Inductive label : Type :=
| LRun
| LPick (id : string)
| LSignal (id : string)
| LAddNode (id : string)
| LOther.

Record world : Type := W { w_sched : Scheduler C; w_phase : phase }.

(** One step of the scheduler thread or of another thread.  [Runtime::start],
    the only caller of [add_node], registers each node once. *)
Inductive step : label -> world -> world -> Prop :=
| step_check now1 now2 s s' ph' :
    run_check now1 now2 s = (s', ph') ->
    (forall id c ctx, ph' <> PExec id c ctx) ->
    step LRun (W s PStart) (W s' ph')
| step_pick now1 now2 s s' id c ctx :
    run_check now1 now2 s = (s', PExec id c ctx) ->
    step (LPick id) (W s PStart) (W s' (PExec id c ctx))
| step_wait d s : step LRun (W s (PChecked d)) (W s (PWaiting d))
| step_wake_up d s : step LRun (W s (PWaiting d)) (W s PStart)
| step_exec id c ctx s c' ctx' o s' :
    execute_component c ctx s = ExecDone c' ctx' o s' ->
    step LRun (W s (PExec id c ctx)) (W s' (PDone id c' ctx' o))
| step_crash id c ctx s s' :
    execute_component c ctx s = ExecCrashed s' ->
    step LRun (W s (PExec id c ctx)) (W s' PCrashed)
| step_complete id c ctx o s :
    step LRun (W s (PDone id c ctx o)) (W (complete id c ctx o s) PStart)
| step_signal id b s s' ph :
    lock_free ph -> signal_ready id s = (b, s') ->
    step (LSignal id) (W s ph) (W s' (if b then notify ph else ph))
| step_wake_at id t b s s' ph :
    lock_free ph -> sched_wake_at id t s = (b, s') ->
    step LOther (W s ph) (W s' (if b then notify ph else ph))
| step_add_node id k now s ph :
    lock_free ph -> ready_flags (state s) !! id = None ->
    step (LAddNode id) (W s ph) (W (add_node id k now s) ph)
| step_add_component c id s ph :
    lock_free ph -> step LOther (W s ph) (W (add_component c id s) ph)
| step_snapshot now s ph :
    lock_free ph -> step LOther (W s ph) (W (metrics_snapshot now s).2 ph)
| step_stop s ph : step LOther (W s ph) (W (stop s) (notify ph)).

Inductive reachable : world -> Prop :=
| reachable_new : reachable (W new_scheduler PStart)
| reachable_step l w w' : reachable w -> step l w w' -> reachable w'.

Inductive steps : list label -> world -> world -> Prop :=
| steps_nil w : steps [] w w
| steps_cons l ls w w' w'' : step l w w' -> steps ls w' w'' -> steps (l :: ls) w w''.

(** How often the scheduler thread has taken a node from the queue to
    execute it. *)
Definition picks (ls : list label) : nat :=
  length (filter (fun l => match l with LPick _ => true | _ => false end = true) ls).
End scheduler.

#[global] Arguments drain_expired_timers : simpl never.
#[global] Arguments execute_component : simpl never.
