(* ===== verification/SchedulerProofs.v ===== *)
(** Properties of the scheduler: the timer queue, the ready queue, budgets,
    the condition-variable protocol of the run loop, retirement and fairness. *)
From S2P Require Import Prelude Api Scheduler.
From Stdlib Require Strings.String.
From Stdlib Require Import NArith ZArith Lia.
From stdpp Require Import base list strings gmap fin_sets.
Local Open Scope flowd_scope.

(** * The timer heap *)

Lemma timer_cmp_not_lt x y : timer_cmp x y <> Lt -> (tw_when x <= tw_when y)%N.
Proof.
  unfold timer_cmp. destruct (N.compare_spec (tw_when y) (tw_when x)); simpl; try lia.
  done.
Qed.

Lemma timer_cmp_lt x y : timer_cmp x y = Lt -> (tw_when y <= tw_when x)%N.
Proof.
  unfold timer_cmp. destruct (N.compare_spec (tw_when y) (tw_when x)); simpl; try lia.
  done.
Qed.

Lemma heap_peek_None h : heap_peek h = None <-> h = [].
Proof.
  split; [|by intros ->]. destruct h as [|x r]; [done|]. simpl.
  destruct (heap_peek r); [destruct (timer_cmp x t)|]; done.
Qed.

Lemma heap_peek_Some h m :
  heap_peek h = Some m -> m ∈ h /\ forall x, x ∈ h -> (tw_when m <= tw_when x)%N.
Proof.
  revert m. induction h as [|x r IH]; intros m H; [done|]. simpl in H.
  destruct (heap_peek r) as [y|] eqn:Hr.
  - destruct (IH _ eq_refl) as [Hin Hmin].
    destruct (timer_cmp x y) eqn:Hc; simplify_eq.
    + assert (tw_when m <= tw_when y)%N by (apply timer_cmp_not_lt; congruence).
      split; [set_solver|]. intros z [->|Hz]%elem_of_cons; [lia|]. pose proof (Hmin _ Hz). lia.
    + apply timer_cmp_lt in Hc.
      split; [set_solver|]. intros z [->|Hz]%elem_of_cons; [lia|]. by apply Hmin.
    + assert (tw_when m <= tw_when y)%N by (apply timer_cmp_not_lt; congruence).
      split; [set_solver|]. intros z [->|Hz]%elem_of_cons; [lia|]. pose proof (Hmin _ Hz). lia.
  - apply heap_peek_None in Hr as ->. simplify_eq. split; [set_solver|].
    intros z [->|Hz]%elem_of_cons; [lia|]. by apply elem_of_nil in Hz.
Qed.

Lemma heap_pop_Some h m r :
  heap_pop h = (Some m, r) -> heap_peek h = Some m /\ h ≡ₚ m :: r.
Proof.
  unfold heap_pop. destruct (heap_peek h) as [x|] eqn:Hp; [|done]. intros [= -> Hr].
  split; [done|]. apply heap_peek_Some in Hp as [Hin _].
  destruct (remove_first (fun x => bool_decide (x = m)) h) as [[y l]|] eqn:Hrf.
  - apply remove_first_Some in Hrf as (l1 & l2 & -> & -> & Hy & _).
    apply bool_decide_eq_true in Hy as ->. subst r. by rewrite Permutation_middle.
  - apply remove_first_None in Hrf. rewrite Forall_forall in Hrf. apply list_elem_of_In in Hin.
    apply list_elem_of_In in Hin. specialize (Hrf _ Hin). by rewrite bool_decide_eq_false in Hrf.
Qed.

Lemma heap_pop_peek h m : heap_peek h = Some m -> exists r, heap_pop h = (Some m, r).
Proof. unfold heap_pop. intros ->. eauto. Qed.

Section timers.
Context {C : Type}.
Implicit Types (st : SchedulerState C) (s : Scheduler C).

(** A heap entry is current when it is the node's latest deadline. *)
Definition valid_timer st (x : TimerWake) : Prop :=
  timer_latest_by_node st !! tw_node_id x = Some (tw_when x).

(** Every latest deadline has its entry in the heap. *)
Definition timer_inv st : Prop :=
  forall n t, timer_latest_by_node st !! n = Some t -> mk_TimerWake t n ∈ timers st.

Lemma next_valid_loop_spec fuel st d st' :
  next_valid_timer_loop fuel st = (d, st') ->
  (length (timers st) <= fuel)%nat ->
  exists ts, st' = set_timers ts st /\ (length ts <= length (timers st))%nat /\
    (forall x, x ∈ ts -> x ∈ timers st) /\
    (forall x, x ∈ timers st -> valid_timer st x -> x ∈ ts) /\
    match d with
    | None => ts = []
    | Some w => exists m, heap_peek ts = Some m /\ tw_when m = w /\ valid_timer st m
    end.
Proof.
  revert st. induction fuel as [|fuel IH]; intros st Heq Hlen; simpl in Heq.
  - simplify_eq. exists (timers st'). destruct (timers st') eqn:Ht; [|simpl in Hlen; lia].
    split; [by rewrite <- Ht; destruct st'|]. repeat split; eauto.
  - destruct (heap_peek (timers st)) as [m|] eqn:Hp.
    + assert (next_valid_timer_loop fuel (set_timers (heap_pop (timers st)).2 st) = (d, st') ->
              ~ valid_timer st m ->
              exists ts, st' = set_timers ts st /\ (length ts <= length (timers st))%nat /\
                (forall x, x ∈ ts -> x ∈ timers st) /\
                (forall x, x ∈ timers st -> valid_timer st x -> x ∈ ts) /\
                match d with
                | None => ts = []
                | Some w => exists m, heap_peek ts = Some m /\ tw_when m = w /\ valid_timer st m
                end) as Hstale.
      { intros Hrec Hnv. destruct (heap_pop_peek _ _ Hp) as [r Hr].
        apply heap_pop_Some in Hr as Hperm. destruct Hperm as [_ Hperm].
        rewrite Hr in Hrec. simpl in Hrec.
        assert (length (timers st) = S (length r)) as Hl by (by rewrite Hperm).
        destruct (IH _ Hrec) as (ts & -> & Hl' & Hsub & Hkeep & Hd); [simpl; lia|].
        exists ts. split; [done|]. split; [simpl in *; lia|]. split.
        { intros x Hx. rewrite Hperm. right. by apply (Hsub x Hx). }
        split; [|done]. intros x Hx Hv. apply Hkeep; [|done].
        simpl. rewrite Hperm in Hx. apply elem_of_cons in Hx as [->|Hx]; done. }
      destruct (timer_latest_by_node st !! tw_node_id m) as [latest|] eqn:Hlat.
      * destruct (N.eqb_spec latest (tw_when m)) as [->|Hne].
        -- simplify_eq. exists (timers st'). split; [by destruct st'|].
           repeat split; eauto.
        -- apply Hstale; [done|]. unfold valid_timer. rewrite Hlat. by intros [= ->].
      * apply Hstale; [done|]. unfold valid_timer. by rewrite Hlat.
    + apply heap_peek_None in Hp. simplify_eq. exists [].
      split; [by rewrite <- Hp; destruct st'|]. rewrite Hp. repeat split; eauto.
Qed.

Lemma next_valid_spec st d st' :
  next_valid_timer_deadline st = (d, st') ->
  exists ts, st' = set_timers ts st /\ (length ts <= length (timers st))%nat /\
    (forall x, x ∈ ts -> x ∈ timers st) /\
    (forall x, x ∈ timers st -> valid_timer st x -> x ∈ ts) /\
    match d with
    | None => ts = []
    | Some w => exists m, heap_peek ts = Some m /\ tw_when m = w /\ valid_timer st m
    end.
Proof. intros H. by apply (next_valid_loop_spec _ _ _ _ H). Qed.

(** The state only changes in its heap, and the invariant survives. *)
Lemma next_valid_inv st d st' :
  next_valid_timer_deadline st = (d, st') -> timer_inv st -> timer_inv st'.
Proof.
  intros (ts & -> & _ & _ & Hkeep & _)%next_valid_spec Hinv n t Hn.
  apply Hkeep; [by apply Hinv|done].
Qed.

(** The deadline found is the earliest of all current ones. *)
Lemma next_valid_earliest st d st' :
  next_valid_timer_deadline st = (d, st') -> timer_inv st ->
  forall n t, timer_latest_by_node st !! n = Some t -> exists w, d = Some w /\ (w <= t)%N.
Proof.
  intros (ts & -> & _ & _ & Hkeep & Hd)%next_valid_spec Hinv n t Hn.
  assert (mk_TimerWake t n ∈ ts) as Hin by (apply Hkeep; [by apply Hinv|done]).
  destruct d as [w|].
  - destruct Hd as (m & Hp & <- & _). exists (tw_when m). split; [done|].
    apply heap_peek_Some in Hp as [_ Hmin]. by apply (Hmin _ Hin).
  - subst ts. by apply elem_of_nil in Hin.
Qed.
End timers.

(** * The ready queue and the state invariant *)
Section invariant.
Context {C : Type}.
Implicit Types (st : SchedulerState C) (s : Scheduler C).

(** The queue and the set hold the same nodes, each once, and the published
    depth is the length of the queue. *)
Record queue_inv st : Prop := {
  qi_nodup : NoDup (ready_queue st);
  qi_set x : x ∈ ready_set st <-> x ∈ ready_queue st;
}.

Record state_inv st : Prop := {
  si_queue : queue_inv st;
  si_depth : queue_depth (metrics st) = length (ready_queue st);
  si_ready_live x : x ∈ ready_set st -> is_Some (ready_flags st !! x);
  si_nodes n ctx : nodes st !! n = Some ctx -> ready_flags st !! n = Some (ready_signal ctx);
  si_timer_live n t : timer_latest_by_node st !! n = Some t -> is_Some (ready_flags st !! n);
  si_timer : timer_inv st
}.

Lemma enqueue_spec id st b st' :
  enqueue id st = (b, st') -> queue_inv st ->
  queue_inv st' /\ id ∈ ready_set st' /\
  st' = set_ready (ready_queue st') (ready_set st') st /\
  (forall x, x ∈ ready_set st' <-> x = id \/ x ∈ ready_set st) /\
  (if b then ready_queue st' = ready_queue st ++ [id] else ready_queue st' = ready_queue st).
Proof.
  unfold enqueue. intros Heq [Hnd Hset]. destruct (decide _) as [Hin|Hnin]; simplify_eq.
  - split; [done|]. split; [done|]. split; [by destruct st'|]. split; [set_solver|done].
  - simpl. split; [|repeat split; set_solver].
    constructor; simpl.
    + apply NoDup_app. split; [done|]. split; [|apply NoDup_singleton].
      intros x Hx Hy. apply list_elem_of_singleton in Hy as ->. apply Hnin. by apply Hset.
    + intros x. rewrite elem_of_app, elem_of_union, Hset. set_solver.
Qed.

Lemma elem_of_enqueue id st x :
  x ∈ ready_set (enqueue id st).2 <-> x = id \/ x ∈ ready_set st.
Proof. unfold enqueue. destruct (decide _); simpl; set_solver. Qed.

Lemma enqueue_frame id st :
  (enqueue id st).2 = set_ready (ready_queue (enqueue id st).2) (ready_set (enqueue id st).2) st.
Proof. unfold enqueue. destruct (decide _); by destruct st. Qed.

(** ** Draining the expired timers *)

(** [fired st now n]: node [n]'s latest deadline has passed. *)
Definition fired st (now : Instant) (n : string) : bool :=
  match timer_latest_by_node st !! n with Some t => (t <=? now)%N | None => false end.

(** The effect of draining, stated on every field of the state. *)
Record drained (now : Instant) s s' : Prop := {
  dr_latest n : timer_latest_by_node (state s') !! n =
    if fired (state s) now n then None else timer_latest_by_node (state s) !! n;
  dr_nodes n : nodes (state s') !! n =
    (fun c => match timer_latest_by_node (state s) !! n with
              | Some t => if (t <=? now)%N then mark_timer_fired t c else c
              | None => c
              end) <$> nodes (state s) !! n;
  dr_ready n : n ∈ ready_set (state s') <->
    n ∈ ready_set (state s) \/ fired (state s) now n = true;
  dr_queue : exists l, ready_queue (state s') = ready_queue (state s) ++ l;
  dr_flag n l : fired (state s) now n = true -> ready_flags (state s) !! n = Some l ->
    flags s' !! l = Some true;
  dr_flags_true l : flags s !! l = Some true -> flags s' !! l = Some true;
  dr_frame : components (state s') = components (state s) /\
    ready_flags (state s') = ready_flags (state s) /\ running s' = running s /\
    executions_per_node (metrics (state s')) = executions_per_node (metrics (state s)) /\
    work_units_per_node (metrics (state s')) = work_units_per_node (metrics (state s)) /\
    loop_iterations (metrics (state s')) = loop_iterations (metrics (state s))
}.

Lemma drained_none now s ts :
  (forall n, fired (state s) now n = false) ->
  drained now s (set_state (set_timers ts (state s)) s).
Proof.
  intros Hno. constructor; simpl; try done.
  - intros n. by rewrite Hno.
  - intros n. specialize (Hno n). unfold fired in Hno.
    destruct (timer_latest_by_node _ !! n) as [t|]; [rewrite Hno|]; by destruct (nodes _ !! n).
  - intros n. rewrite Hno. naive_solver.
  - exists []. by rewrite app_nil_r.
  - intros n l. by rewrite Hno.
Qed.

(** Firing the earliest current entry, then draining the rest. *)
Lemma drained_fire now s m h s' :
  valid_timer (state s) m -> (tw_when m <= now)%N ->
  drained now (fire_timer m (set_state (set_timers h (state s)) s)) s' ->
  drained now s s'.
Proof.
  intros Hv Hle [Dl Dn Dr Dq Df Dft Dfr]. destruct m as [t id]; simpl in *.
  unfold valid_timer in Hv; simpl in Hv.
  assert (forall n, fired (state s) now n = true <->
    n = id \/ (n <> id /\ fired (state (fire_timer (mk_TimerWake t id)
                (set_state (set_timers h (state s)) s))) now n = true)) as Hf.
  { intros n. unfold fired, fire_timer; simpl. rewrite Hv, N.eqb_refl; simpl.
    rewrite enqueue_frame; simpl.
    destruct (nodes (state s) !! id); simpl;
      (destruct (decide (n = id)) as [->|Hne];
       [rewrite Hv, N.leb_le; naive_solver
       |rewrite lookup_delete_ne by done; naive_solver]). }
  unfold fire_timer in *; simpl in *. rewrite Hv, N.eqb_refl in *; simpl in *.
  rewrite enqueue_frame in *. 
  set (q := enqueue id _) in *. 
  constructor.
  - intros n. rewrite Dl. specialize (Hf n).
    destruct (nodes (state s) !! id); simpl in *; unfold fired in *; simpl in *;
      (destruct (decide (n = id)) as [->|Hne];
       [rewrite lookup_delete_eq, Hv; by rewrite (proj2 (N.leb_le _ _) Hle)
       |by rewrite lookup_delete_ne by done]).
  - intros n. rewrite Dn.
    destruct (nodes (state s) !! id) as [c|] eqn:Hid; simpl in *;
      (destruct (decide (n = id)) as [->|Hne];
       [rewrite lookup_delete_eq, Hv, (proj2 (N.leb_le _ _) Hle), Hid;
        rewrite ?lookup_insert_eq, ?Hid; done
       |rewrite lookup_delete_ne by done; rewrite ?lookup_insert_ne by done; done]).
  - intros n. rewrite Dr, Hf. simpl. subst q. rewrite elem_of_enqueue.
    destruct (nodes (state s) !! id); simpl; destruct (decide (n = id)); naive_solver.
  - destruct Dq as [l Hl]. revert Hl. simpl. subst q. unfold enqueue.
    destruct (nodes (state s) !! id); simpl; destruct (decide _); simpl; intros ->;
      rewrite <- ?app_assoc; eauto.
  - intros n l Hn Hl. apply Hf in Hn as [->|[Hne Hn]].
    + apply Dft. simpl. destruct (nodes (state s) !! id); simpl; rewrite Hl; apply lookup_insert_eq.
    + apply (Df n); [done|]. simpl. by destruct (nodes (state s) !! id).
  - intros l Hl. apply Dft. simpl.
    destruct (nodes (state s) !! id); simpl; destruct (ready_flags (state s) !! id) as [f|]; try done;
      rewrite lookup_insert; by destruct (decide _).
  - destruct Dfr as (-> & -> & -> & -> & -> & ->). simpl. by destruct (nodes (state s) !! id).
Qed.
End invariant.

Section drain.
Context {C : Type}.
Implicit Types (st : SchedulerState C) (s : Scheduler C).

Lemma fire_timer_timer_inv s m h :
  timer_inv (state s) -> heap_pop (timers (state s)) = (Some m, h) ->
  valid_timer (state s) m ->
  timer_inv (state (fire_timer m (set_state (set_timers h (state s)) s))).
Proof.
  intros Hinv [_ Hperm]%heap_pop_Some Hv n t. unfold fire_timer; simpl.
  unfold valid_timer in Hv. rewrite Hv, N.eqb_refl; simpl. rewrite enqueue_frame; simpl.
  destruct (nodes (state s) !! tw_node_id m); simpl;
    intros [Hne Hn]%lookup_delete_Some;
    (specialize (Hinv _ _ Hn); rewrite Hperm in Hinv;
     apply elem_of_cons in Hinv as [<-|Hin]; [by destruct Hne|done]).
Qed.

Lemma fire_timer_timers s m : timers (state (fire_timer m s)) = timers (state s).
Proof.
  unfold fire_timer. destruct (timer_latest_by_node _ !! _); [|done].
  destruct (N.eqb _ _); [|done]. simpl. rewrite enqueue_frame; simpl.
  by destruct (nodes (state s) !! _).
Qed.

Lemma drain_loop_spec fuel now s :
  timer_inv (state s) -> (length (timers (state s)) < fuel)%nat ->
  drained now s (drain_loop fuel now s) /\ timer_inv (state (drain_loop fuel now s)).
Proof.
  revert s. induction fuel as [|fuel IH]; intros s Hinv Hlen; [lia|]. simpl.
  destruct (next_valid_timer_deadline (state s)) as [d st] eqn:Hn.
  pose proof (next_valid_earliest _ _ _ Hn Hinv) as Hearly.
  pose proof (next_valid_inv _ _ _ Hn Hinv) as Hinv'.
  apply next_valid_spec in Hn as (ts & -> & Hle & Hsub & Hkeep & Hd).
  destruct d as [w|].
  - destruct Hd as (m & Hp & <- & Hv).
    destruct (now <? tw_when m)%N eqn:Hnow.
    + apply N.ltb_lt in Hnow. split; [|done]. apply drained_none. intros n. unfold fired.
      destruct (timer_latest_by_node (state s) !! n) as [t|] eqn:Ht; [|done].
      destruct (Hearly _ _ Ht) as (w & [= <-] & Hw). apply N.leb_gt. lia.
    + apply N.ltb_ge in Hnow. destruct (heap_pop_peek _ _ Hp) as [h Hh].
      change (timers (set_timers ts (state s))) with ts. rewrite Hh.
      change (set_timers h (set_timers ts (state s))) with (set_timers h (state s)).
      pose proof (heap_pop_Some _ _ _ Hh) as [_ Hperm].
      assert (length ts = S (length h)) as Hl by (by rewrite Hperm).
      assert (timer_inv (state (fire_timer m (set_state (set_timers h (state s)) s)))) as Hti.
      { apply (fire_timer_timer_inv (set_state (set_timers ts (state s)) s)); done. }
      destruct (IH _ Hti) as [Hdr Hinv''].
      { rewrite fire_timer_timers. simpl. lia. }
      split; [|done]. eapply drained_fire; eauto.
  - subst ts. split; [|done]. apply drained_none. intros n. unfold fired.
    destruct (timer_latest_by_node (state s) !! n) as [t|] eqn:Ht; [|done].
    by destruct (Hearly _ _ Ht) as (w & [=] & _).
Qed.

(** Draining keeps the queue well formed. *)
Lemma fire_timer_queue_inv s m : queue_inv (state s) -> queue_inv (state (fire_timer m s)).
Proof.
  intros Hq. unfold fire_timer. destruct (timer_latest_by_node _ !! _); [|done].
  destruct (N.eqb _ _); [|done]. simpl.
  match goal with |- queue_inv (enqueue ?i ?x).2 =>
    destruct (enqueue i x) as [b st'] eqn:He; simpl; eapply enqueue_spec; [exact He|] end.
  destruct (nodes (state s) !! _); by destruct Hq.
Qed.

Lemma drain_loop_queue_inv fuel now s :
  queue_inv (state s) -> queue_inv (state (drain_loop fuel now s)).
Proof.
  revert s. induction fuel as [|fuel IH]; intros s Hq; [done|]. simpl.
  destruct (next_valid_timer_deadline (state s)) as [d st] eqn:Hn.
  apply next_valid_spec in Hn as (ts & -> & _).
  assert (forall ts, queue_inv (set_timers ts (state s))) as Hq' by (intros; by destruct Hq).
  destruct d; [|apply Hq']. destruct (now <? n)%N; [apply Hq'|].
  simpl. destruct (heap_pop ts) as [[e|] h]; [|apply Hq'].
  apply IH, fire_timer_queue_inv, Hq'.
Qed.

Lemma drain_spec now s :
  state_inv (state s) ->
  drained now s (drain_expired_timers now s) /\ state_inv (state (drain_expired_timers now s)).
Proof.
  intros [Hq Hd Hrl Hn Htl Ht]. unfold drain_expired_timers.
  destruct (drain_loop_spec (S (length (timers (state s)))) now s Ht) as [Hdr Hti]; [lia|].
  pose proof (drain_loop_queue_inv (S (length (timers (state s)))) now s Hq) as Hq'.
  set (s' := drain_loop _ now s) in *. clearbody s'.
  destruct Hdr as [Dl Dn Dr Dq Df Dft Dfr].
  destruct Dfr as (Hc & Hrf & Hrun & He & Hw & Hli).
  split; [by constructor|]. constructor; simpl.
  - by destruct Hq'.
  - done.
  - intros x Hx. rewrite Hrf. apply Dr in Hx as [Hx|Hx]; [by apply Hrl|].
    unfold fired in Hx. destruct (timer_latest_by_node (state s) !! x) eqn:Hxt; [|done]. eauto.
  - intros n c. rewrite Dn, Hrf. intros (c0 & Hc0 & ->)%fmap_Some.
    rewrite (Hn _ _ Hc0). by destruct (timer_latest_by_node _ !! n); [destruct (_ <=? _)%N|].
  - intros n t. rewrite Dl, Hrf. destruct (fired _ _ _); [done|]. apply Htl.
  - done.
Qed.
End drain.

(** * Signals, effects and execution *)
Section execution.
Context {C : Type} `{Comp : Component C} (enforce : bool).
Implicit Types (st : SchedulerState C) (s : Scheduler C).

(** What another thread's signals can change: the ready queue grows at its
    end, flags are set; everything else stays. *)
Record signalled s s' : Prop := {
  sg_nodes : nodes (state s') = nodes (state s);
  sg_components : components (state s') = components (state s);
  sg_ready_flags : ready_flags (state s') = ready_flags (state s);
  sg_timers : timers (state s') = timers (state s);
  sg_latest : timer_latest_by_node (state s') = timer_latest_by_node (state s);
  sg_running : running s' = running s;
  sg_queue : exists l, ready_queue (state s') = ready_queue (state s) ++ l;
  sg_ready x : x ∈ ready_set (state s) -> x ∈ ready_set (state s')
}.

#[global] Instance signalled_preorder : PreOrder signalled.
Proof.
  split.
  - intros s. constructor; try done. exists []. by rewrite app_nil_r.
  - intros s1 s2 s3 [? ? ? ? ? ? [l1 Hl1] ?] [? ? ? ? ? ? [l2 Hl2] ?].
    constructor; try congruence; [|auto].
    exists (l1 ++ l2). by rewrite Hl2, Hl1, app_assoc.
Qed.

Lemma signalled_flags s f : signalled s (set_flags f s).
Proof. constructor; try done. exists []. by rewrite app_nil_r. Qed.

Lemma signal_ready_signalled id b s s' : signal_ready id s = (b, s') -> signalled s s'.
Proof.
  unfold signal_ready, enqueue. intros H.
  destruct (ready_flags (state s) !! id) as [f|]; [|simplify_eq; reflexivity].
  simpl in H. destruct (decide _); simplify_eq; [apply signalled_flags|].
  constructor; simpl; try done; [by eexists|set_solver].
Qed.

Lemma signal_ready_inv id b s s' :
  signal_ready id s = (b, s') -> state_inv (state s) -> state_inv (state s').
Proof.
  unfold signal_ready. intros H [Hq Hd Hrl Hn Htl Ht].
  destruct (ready_flags (state s) !! id) as [f|] eqn:Hf; [|by simplify_eq].
  destruct (enqueue id (state (set_flags (<[f:=true]> (flags s)) s))) as [b' st'] eqn:He.
  pose proof (enqueue_spec _ _ _ _ He Hq) as (Hq' & Hin & Hfr & Hrs & Hqq).
  destruct b'; simplify_eq; [|by constructor].
  rewrite Hfr. constructor; simpl; [by destruct Hq'|done| |done..].
  intros x [->|Hx]%Hrs; [by eexists|by apply Hrl].
Qed.

(** Afterwards the node is queued, exactly once. *)
Lemma signal_ready_queues id s s' :
  signal_ready id s = (true, s') -> state_inv (state s) -> id ∈ ready_queue (state s').
Proof.
  intros H Hinv. pose proof (signal_ready_inv _ _ _ _ H Hinv) as [Hq' _ _ _ _ _].
  apply Hq'. destruct Hinv as [Hq _ _ _ _ _]. unfold signal_ready in H.
  destruct (ready_flags (state s) !! id) as [f|]; [|done].
  destruct (enqueue id (state (set_flags (<[f:=true]> (flags s)) s))) as [b' st'] eqn:He.
  pose proof (enqueue_spec _ _ _ _ He Hq) as (_ & Hin & _ & _ & Hqq).
  destruct b'; simplify_eq; [done|]. simpl.
  revert He. unfold enqueue. destruct (decide _); [done|]. by intros [=].
Qed.

Lemma apply_effects_signalled flag es s :
  signalled s (apply_effects flag es s) /\
  (state_inv (state s) -> state_inv (state (apply_effects flag es s))).
Proof.
  unfold apply_effects. revert s. induction es as [|e es IH]; intros s; [by split; [reflexivity|]|].
  simpl. destruct (IH (apply_effect flag s e)) as [IH1 IH2].
  assert (signalled s (apply_effect flag s e) /\
          (state_inv (state s) -> state_inv (state (apply_effect flag s e)))) as [H1 H2].
  { destruct e; simpl; try by split; [reflexivity|].
    - destruct (signal_ready w s) as [b s'] eqn:Hs; simpl.
      split; [by eapply signal_ready_signalled|intros; by eapply signal_ready_inv].
    - split; [apply signalled_flags|done]. }
  split; [by etransitivity|auto].
Qed.

(** A registered node that is signalled on the way ends up queued. *)
Lemma apply_effects_queues flag es s w :
  EffSignalReady w ∈ es -> is_Some (ready_flags (state s) !! w) -> state_inv (state s) ->
  w ∈ ready_queue (state (apply_effects flag es s)).
Proof.
  intros Hin [l Hl] Hinv. apply list_elem_of_split in Hin as (es1 & es2 & ->).
  unfold apply_effects. rewrite fold_left_app. simpl.
  destruct (apply_effects_signalled flag es1 s) as [[_ _ Hf _ _ _ _ _] Hi].
  unfold apply_effects in *. set (s1 := fold_left _ es1 s) in *.
  destruct (signal_ready w s1) as [b s2] eqn:Hs2; simpl.
  assert (b = true) as ->.
  { unfold signal_ready in Hs2. rewrite Hf, Hl in Hs2. destruct (enqueue _ _) as [[] ?]; congruence. }
  apply signal_ready_queues in Hs2; [|by apply Hi].
  destruct (apply_effects_signalled flag es2 s2) as [[_ _ _ _ _ _ [q Hq] _] _].
  unfold apply_effects in Hq. rewrite Hq. apply elem_of_app. by left.
Qed.

(** ** Executing within the budget *)

Lemma consumed_budget_pos before after units : (1 <= consumed_budget before after units)%N.
Proof. unfold consumed_budget, accounted. lia. Qed.

Lemma execute_loop_spec fuel c ctx o s r :
  execute_loop enforce fuel c ctx o s = r ->
  match r with
  | ExecDone c' ctx' o' s' =>
      signalled s s' /\ (state_inv (state s) -> state_inv (state s')) /\
      ready_signal ctx' = ready_signal ctx /\
      (eo_executions o <= eo_executions o')%N /\
      (eo_executions o' - eo_executions o <= remaining_budget ctx)%N /\
      (eo_did_work o' = eo_did_work o || negb (eo_executions o' =? eo_executions o)%N) /\
      (eo_executions o' - eo_executions o <= eo_work_units o' - eo_work_units o)%N /\
      (eo_work_units o <= eo_work_units o')%N
  | ExecCrashed s' => signalled s s' /\ (state_inv (state s) -> state_inv (state s'))
  end.
Proof.
  intros <-. revert c ctx o s. induction fuel as [|fuel IH]; intros c ctx o s; simpl.
  { rewrite N.eqb_refl, orb_false_r. split; [reflexivity|].
    split_and!; try done; lia. }
  destruct (N.eqb_spec (remaining_budget ctx) 0) as [Hb|Hb]; simpl.
  { rewrite N.eqb_refl, orb_false_r. split; [reflexivity|].
    split_and!; try done; lia. }
  destruct (apply_effects_signalled (ready_signal ctx) (pr_effects (process c ctx)) s) as [Hs Hi].
  set (s1 := apply_effects _ _ s) in *.
  pose proof (process_keeps_flag c ctx) as Hflag.
  destruct (negb _); [done|].
  destruct (pr_result (process c ctx)) as [[units| |]|]; simpl.
  - set (ctx1 := account_work _ _ _ _).
    set (o1 := mk_ExecutionOutcome _ _ _ _ _).
    specialize (IH (pr_self (process c ctx)) ctx1 o1 s1).
    destruct (execute_loop enforce fuel _ ctx1 o1 s1) as [c' ctx' o' s'|s'].
    + destruct IH as (I1 & I2 & I3 & I4 & I5 & I6 & I7 & I8).
      pose proof (consumed_budget_pos (remaining_budget ctx)
                    (remaining_budget (pr_context (process c ctx))) units) as Hpos.
      subst o1 ctx1; simpl in *.
      unfold accounted in *.
      split; [by etransitivity|]. split; [auto|]. split; [congruence|].
      split; [lia|]. split; [lia|].
      split; [|lia].
      rewrite I6. simpl. destruct (N.eqb_spec (eo_executions o') (eo_executions o)); [lia|].
      by rewrite orb_true_r.
    + destruct IH as [I1 I2]. split; [by etransitivity|auto].
  - split; [done|]. rewrite N.eqb_refl, orb_false_r.
    split_and!; try done; lia.
  - rewrite N.eqb_refl, orb_false_r.
    split; [etransitivity; [exact Hs|apply signalled_flags]|].
    split_and!; try done; lia.
  - rewrite N.eqb_refl, orb_false_r.
    split; [etransitivity; [exact Hs|apply signalled_flags]|].
    split_and!; try done; lia.
Qed.
End execution.

(** * Invariants of the run loop *)
Section run_loop.
Context {C : Type} `{Comp : Component C} (enforce : bool).
Implicit Types (st : SchedulerState C) (s : Scheduler C).

(** A deadline that covers every armed timer. *)
Definition covers (d : option Instant) st : Prop :=
  forall n t, timer_latest_by_node st !! n = Some t -> exists w, d = Some w /\ (w <= t)%N.

Record world_inv (w : world (C := C)) : Prop := {
  wi_state : state_inv (state (w_sched w));
  wi_phase : match w_phase w with
    | PExec id _ ctx | PDone id _ ctx _ =>
        ready_flags (state (w_sched w)) !! id = Some (ready_signal ctx) /\
        nodes (state (w_sched w)) !! id = None
    | PChecked d | PWaiting d =>
        ready_queue (state (w_sched w)) = [] /\ covers d (state (w_sched w))
    | _ => True
    end
}.

Lemma run_pick_inv s s' ph :
  run_pick s = (s', ph) -> state_inv (state s) -> world_inv (W s' ph).
Proof.
  unfold run_pick. intros H Hinv. pose proof Hinv as [[Hnd Hset] Hd Hrl Hn Htl Ht].
  destruct (ready_queue (state s)) as [|id q] eqn:Hq; [by simplify_eq|].
  apply NoDup_cons in Hnd as [Hid Hnd]. simpl in H.
  assert (forall x, x ∈ ready_set (state s) ∖ {[id]} <-> x ∈ q) as Hset'.
  { intros x. rewrite elem_of_difference, Hset, elem_of_cons, elem_of_singleton. naive_solver. }
  assert (forall x, x ∈ ready_set (state s) ∖ {[id]} -> is_Some (ready_flags (state s) !! x)) as Hrl'.
  { intros x Hx. apply Hrl, Hset. apply Hset' in Hx. set_solver. }
  destruct (components (state s) !! id) as [c|]; [|simplify_eq; constructor; [|done]; by constructor].
  destruct (nodes (state s) !! id) as [ctx|] eqn:Hctx;
    [|simplify_eq; constructor; [|done]; by constructor].
  simplify_eq. constructor; simpl.
  - constructor; simpl; try done.
    intros n ctx' [_ Hctx']%lookup_delete_Some. by apply Hn.
  - by rewrite (Hn _ _ Hctx), lookup_delete_eq.
Qed.

Lemma run_check_inv now1 now2 s s' ph :
  run_check now1 now2 s = (s', ph) -> state_inv (state s) -> world_inv (W s' ph).
Proof.
  unfold run_check. intros H Hinv. destruct (drain_spec now1 s Hinv) as [_ Hinv'].
  set (s1 := drain_expired_timers now1 s) in *.
  destruct (negb (running s1)); [by simplify_eq|].
  destruct (ready_queue (state s1)) as [|id q] eqn:Hq; [|by eapply run_pick_inv].
  destruct (next_valid_timer_deadline (state s1)) as [d st] eqn:Hnv.
  destruct Hinv' as [[Hnd Hset] Hd Hrl Hn Htl Ht].
  pose proof (next_valid_earliest _ _ _ Hnv Ht) as Hearly.
  pose proof (next_valid_inv _ _ _ Hnv Ht) as Ht'.
  apply next_valid_spec in Hnv as (ts & -> & _).
  assert (state_inv (set_timers ts (state s1))) as Hinv'' by by constructor.
  destruct d as [w|]; [destruct (w <=? now2)%N|]; simplify_eq; by constructor.
Qed.

Lemma complete_inv id c ctx o s :
  world_inv (W s (PDone id c ctx o)) -> state_inv (state (complete id c ctx o s)).
Proof.
  intros [[[Hnd Hset] Hd Hrl Hn Htl Ht] [Hid Hnid]]; simpl in *. unfold complete.
  destruct (eo_finished o); simpl.
  - set (q := filter _ _).
    assert (state_inv (set_metrics
      (mk_SchedulerMetrics (add_metric id (eo_executions o) (executions_per_node (metrics (state s))))
         (add_metric id (eo_work_units o) (work_units_per_node (metrics (state s))))
         (delete id (time_since_last_execution (metrics (state s)))) (length q)
         (loop_iterations (metrics (state s))))
      (set_ready q (ready_set (state s) ∖ {[id]})
         (set_timer_latest (delete id (timer_latest_by_node (state s)))
            (set_ready_flags (delete id (ready_flags (state s))) (state s)))))) as Hfin.
    { constructor; simpl; try done.
      - constructor; simpl; [by apply NoDup_filter|]. intros x. subst q.
        rewrite elem_of_difference, Hset, list_elem_of_filter, elem_of_singleton. naive_solver.
      - intros x [Hx Hne]%elem_of_difference.
        rewrite lookup_delete_ne by set_solver. by apply Hrl.
      - intros n ctx' Hctx'. rewrite lookup_delete_ne; [by apply Hn|]. intros ->. congruence.
      - intros n t [Hne Hnt]%lookup_delete_Some. rewrite lookup_delete_ne by done. by eapply Htl.
      - intros n t. simpl. intros [Hne Hnt]%lookup_delete_Some. by apply Ht. }
    destruct (decide _); [destruct (decide _)|]; done.
  - match goal with |- context [enqueue id ?x] => set (st2 := x) end.
    assert (state_inv st2) as Hst2.
    { subst st2. destruct (wake_at ctx) as [w|]; constructor; simpl; try done.
      - intros n ctx'. rewrite lookup_insert. destruct (decide (id = n)) as [->|]; [|by apply Hn].
        by intros [= <-].
      - intros n t. rewrite lookup_insert. destruct (decide (id = n)) as [->|]; [|by apply Htl]. done.
      - intros n t. simpl. rewrite lookup_insert.
        destruct (decide (id = n)) as [->|]; [intros [= ->]; by left|].
        intros Hnt. right. by apply Ht.
      - intros n ctx'. rewrite lookup_insert. destruct (decide (id = n)) as [->|]; [|by apply Hn].
        by intros [= <-]. }
    destruct (_ || _); [|done].
    destruct (enqueue id st2) as [b st3] eqn:He. destruct b; [|done].
    destruct Hst2 as [Hq2 Hd2 Hrl2 Hn2 Htl2 Ht2].
    pose proof (enqueue_spec _ _ _ _ He Hq2) as (Hq' & _ & Hfr & Hrs & _).
    simpl. rewrite Hfr. constructor; simpl; [by destruct Hq'|done| |done..].
    intros x [->|Hx]%Hrs; [|by apply Hrl2].
    subst st2. destruct (wake_at ctx); simpl; by eexists.
Qed.

(** Another thread's call that leaves the queue alone, or wakes the
    scheduler thread up. *)
Lemma world_inv_signalled s s' ph :
  signalled s s' -> state_inv (state s') -> world_inv (W s ph) -> world_inv (W s' (notify ph)) \/
  exists d, ph = PChecked d.
Proof.
  intros [Hn _ Hrf _ _ _ _ _] Hinv [_ Hph]; simpl in *.
  destruct ph; try (left; constructor; simpl; by rewrite ?Hrf, ?Hn). right; eauto.
Qed.

Lemma signal_step_inv id b s s' ph :
  lock_free ph -> signal_ready id s = (b, s') -> world_inv (W s ph) ->
  world_inv (W s' (if b then notify ph else ph)).
Proof.
  intros Hlf Hs Hw. pose proof (wi_state _ Hw) as Hinv. simpl in Hinv.
  pose proof (signal_ready_inv _ _ _ _ Hs Hinv) as Hinv'.
  pose proof (signal_ready_signalled _ _ _ _ Hs) as Hsg.
  destruct b.
  - destruct (world_inv_signalled _ _ _ Hsg Hinv' Hw) as [|[d ->]]; done.
  - unfold signal_ready in Hs. destruct (ready_flags (state s) !! id); [|by simplify_eq].
    destruct (enqueue _ _) as [[] ?]; simplify_eq.
Qed.

Lemma wake_at_step_inv id t b s s' ph :
  lock_free ph -> sched_wake_at id t s = (b, s') -> world_inv (W s ph) ->
  world_inv (W s' (if b then notify ph else ph)).
Proof.
  intros Hlf Hs [[Hq Hd Hrl Hn Htl Ht] Hph]; simpl in *. unfold sched_wake_at in Hs.
  destruct (nodes (state s) !! id) as [ctx|] eqn:Hctx; simplify_eq; [|by constructor].
  constructor; simpl; [|by destruct ph].
  constructor; simpl; try done.
  - by destruct Hq.
  - intros n u. rewrite lookup_insert. destruct (decide (id = n)) as [->|]; [|by apply Htl].
    intros _. eauto.
  - intros n u; simpl. rewrite lookup_insert.
    destruct (decide (id = n)) as [->|]; [intros [= ->]; by left|]. intros Hu. right. by apply Ht.
Qed.

Lemma add_node_step_inv id k now s ph :
  ready_flags (state s) !! id = None -> world_inv (W s ph) -> world_inv (W (add_node id k now s) ph).
Proof.
  intros Hid [[Hq Hd Hrl Hn Htl Ht] Hph]; simpl in *. constructor; simpl.
  - constructor; simpl; try done.
    + by destruct Hq.
    + intros x Hx. rewrite lookup_insert. destruct (decide _); [by eexists|by apply Hrl].
    + intros n c. rewrite !lookup_insert. destruct (decide _); [by intros [= <-]|apply Hn].
    + intros n t Hnt. rewrite lookup_insert. destruct (decide _); [by eexists|by eapply Htl].
  - destruct ph; try done; destruct Hph as [Hf Hnone];
      (split; [rewrite lookup_insert_ne; [done|congruence]
              |rewrite lookup_insert_ne; [done|congruence]]).
Qed.

Lemma exec_step_inv id c ctx s c' ctx' o s' :
  execute_component enforce c ctx s = ExecDone c' ctx' o s' ->
  world_inv (W s (PExec id c ctx)) -> world_inv (W s' (PDone id c' ctx' o)).
Proof.
  intros H [Hinv [Hf Hno]]. simpl in *. unfold execute_component in H.
  apply execute_loop_spec in H as (Hsg & Hi & Hrs & _).
  destruct Hsg as [Hn _ Hrf _ _ _ _ _]. simpl in *.
  constructor; simpl; [by apply Hi|]. by rewrite Hrf, Hn, Hrs.
Qed.

Lemma crash_step_inv id c ctx s s' :
  execute_component enforce c ctx s = ExecCrashed s' ->
  world_inv (W s (PExec id c ctx)) -> world_inv (W s' PCrashed).
Proof.
  intros H [Hinv _]. unfold execute_component in H.
  apply execute_loop_spec in H as (_ & Hi). constructor; [by apply Hi|done].
Qed.

Lemma step_inv l w w' : step enforce l w w' -> world_inv w -> world_inv w'.
Proof.
  intros Hstep Hw.
  destruct Hstep as [now1 now2 s s' ph' Hc _|now1 now2 s s' id c ctx Hc|d s|d s
    |id c ctx s c' ctx' o s' He|id c ctx s s' He|id c ctx o s|id b s s' ph Hlf Hs
    |id t b s s' ph Hlf Hs|id k now s ph Hlf Hid|c id s ph Hlf|now s ph Hlf|s ph].
  - eapply run_check_inv; [exact Hc|apply Hw].
  - eapply run_check_inv; [exact Hc|apply Hw].
  - destruct Hw; by constructor.
  - constructor; [apply Hw|done].
  - by eapply exec_step_inv.
  - by eapply crash_step_inv.
  - constructor; [by apply complete_inv|done].
  - by eapply signal_step_inv.
  - by eapply wake_at_step_inv.
  - by apply add_node_step_inv.
  - destruct Hw as [[Hq Hd Hrl Hn Htl Ht] Hph]. constructor; [|by destruct ph].
    constructor; try done; by destruct Hq.
  - destruct Hw as [[Hq Hd Hrl Hn Htl Ht] Hph]. constructor; [|by destruct ph].
    constructor; try done; by destruct Hq.
  - destruct Hw as [Hi Hph]. constructor; [done|]. by destruct ph.
Qed.

Lemma new_scheduler_inv : world_inv (W new_scheduler PStart).
Proof.
  constructor; [|done]. constructor; simpl; try done.
  constructor; simpl; [constructor|set_solver].
Qed.

Lemma reachable_inv w : reachable enforce w -> world_inv w.
Proof. induction 1; [apply new_scheduler_inv|by eapply step_inv]. Qed.
End run_loop.
