(* ===== verification/SchedulerTheorems.v ===== *)
(** The scheduler's contract: the theorems that clients of the scheduler rely
    on, each with a concrete instance. *)
From S2P Require Import Prelude Api Scheduler SchedulerProofs.
From Stdlib Require Strings.String.
From Stdlib Require Import NArith ZArith Lia.
From stdpp Require Import base list strings gmap fin_sets.
Local Open Scope string_scope.
Local Open Scope list_scope.
Local Open Scope flowd_scope.

(** * A component for the concrete instances

    It reports one unit of work as long as its counter is positive, then
    finishes; it never touches its budget. *)
Definition countdown_run (n : nat) (ctx : NodeContext) : process_run nat :=
  match n with
  | O => mk_process_run O ctx [] 0 0 (Some Finished)
  | S m => mk_process_run m ctx [] 0 0 (Some (DidWork 1))
  end.

#[export, refine] Instance countdown : Component nat := {
  process := countdown_run
}.
Proof. by intros [|n] ctx. Defined.

Definition demo_sched_of (n : nat) : Scheduler nat :=
  (signal_ready "a" (add_component n "a" (add_node "a" Heavy 0 new_scheduler))).2.
Definition demo_sched : Scheduler nat := demo_sched_of 3.

Lemma demo_reachable_of n : reachable true (W (demo_sched_of n) PStart).
Proof.
  eapply reachable_step; [eapply reachable_step; [eapply reachable_step; [apply reachable_new|]|]|].
  - by apply (step_add_node true "a" Heavy 0%N).
  - by apply (step_add_component true n "a").
  - by eapply (step_signal true "a" true).
Defined.

Lemma demo_reachable : reachable true (W demo_sched PStart).
Proof. exact (demo_reachable_of 3). Defined.

Section fairness.
Context {C : Type} `{Comp : Component C} (enforce : bool).

Lemma signal_ready_flag id l (s s' : Scheduler C) :
  signal_ready id s = (true, s') -> ready_flags (state s) !! id = Some l -> flags s' !! l = Some true.
Proof.
  unfold signal_ready. intros H Hl. rewrite Hl in H.
  destruct (enqueue _ _) as [[] ?]; simplify_eq; simpl; apply lookup_insert_eq.
Qed.

Lemma signal_ready_queue id (s s' : Scheduler C) :
  signal_ready id s = (true, s') -> state_inv (state s) ->
  ready_queue (state s') = ready_queue (state s) ++
    (if decide (id ∈ ready_queue (state s)) then [] else [id]).
Proof.
  unfold signal_ready, enqueue. intros H [[_ Hset] _ _ _ _ _].
  destruct (ready_flags (state s) !! id) as [f|]; [|done]. simpl in H.
  destruct (decide (id ∈ ready_set (state s))) as [Hin|Hin]; simplify_eq; simpl;
    rewrite Hset in Hin; destruct (decide _); try done. by rewrite app_nil_r.
Qed.

Lemma signal_ready_again id (s : Scheduler C) l :
  ready_flags (state s) !! id = Some l -> id ∈ ready_set (state s) -> flags s !! l = Some true ->
  signal_ready id s = (true, s).
Proof.
  intros Hl Hin Hf. unfold signal_ready, enqueue. rewrite Hl. simpl.
  rewrite decide_True by done. f_equal. unfold set_flags. rewrite insert_id by done. by destruct s.
Qed.

Definition is_pick (l : label) : nat := match l with LPick _ => 1 | _ => 0 end.

Lemma picks_cons l ls : picks (l :: ls) = (is_pick l + picks ls)%nat.
Proof. by destruct l. Qed.

(** [x] is queued behind at most [k] others, and is runnable. *)
Definition queued_at (x : string) (k : nat) (w : world (C := C)) : Prop :=
  (exists pre post, ready_queue (state (w_sched w)) = pre ++ x :: post /\ (length pre <= k)%nat) /\
  is_Some (components (state (w_sched w)) !! x) /\ is_Some (nodes (state (w_sched w)) !! x).

Lemma queued_at_signalled x k s s' ph ph' :
  signalled s s' -> queued_at x k (W s ph) -> queued_at x k (W s' ph').
Proof.
  intros [Hn Hc _ _ _ _ [l Hl] _] ((pre & post & Hq & Hlen) & Hxc & Hxn); simpl in *.
  unfold queued_at; simpl. rewrite Hn, Hc, Hl, Hq. split; [|done].
  exists pre, (post ++ l). by rewrite <- app_assoc.
Qed.

Lemma queued_at_drain x k now s ph :
  state_inv (state s) -> queued_at x k (W s ph) ->
  queued_at x k (W (drain_expired_timers now s) ph).
Proof.
  intros Hinv ((pre & post & Hq & Hlen) & Hxc & Hxn); simpl in *.
  destruct (drain_spec now s Hinv) as [[_ Dn _ [l Hl] _ _ (Hc & _)] _].
  set (s1 := drain_expired_timers now s) in *. clearbody s1.
  split; [|split]; simpl.
  - exists pre, (post ++ l). by rewrite Hl, Hq, <- app_assoc.
  - by rewrite Hc.
  - rewrite Dn. by apply fmap_is_Some.
Qed.

Lemma queued_at_pick x k s s' ph ph' :
  state_inv (state s) -> run_pick s = (s', ph') -> queued_at x k (W s ph) ->
  (exists c ctx, ph' = PExec x c ctx) \/
  (queued_at x (k - 1) (W s' ph') /\ (1 <= k)%nat).
Proof.
  intros Hinv H ((pre & post & Hq & Hlen) & [c Hxc] & [ctx Hxn]); simpl in *.
  unfold run_pick in H. rewrite Hq in H. destruct pre as [|y pre]; simpl in H.
  - rewrite Hxc, Hxn in H. simplify_eq. left; eauto.
  - right. destruct Hinv as [[Hnd _] _ _ _ _ _]. rewrite Hq in Hnd.
    apply NoDup_cons in Hnd as [Hy _].
    assert (y <> x) as Hne by set_solver.
    assert (forall s0 ph0, ready_queue (state s0) = pre ++ x :: post ->
      components (state s0) !! x = Some c -> nodes (state s0) !! x = Some ctx ->
      queued_at x (k - 1) (W s0 ph0)) as Hgo.
    { intros s0 ph0 H1 H2 H3. unfold queued_at; simpl. rewrite H2, H3.
      split; [|split; by eexists]. exists pre, post. simpl in Hlen. split; [done|lia]. }
    simpl in Hlen. split; [|lia].
    destruct (components (state s) !! y); [|simplify_eq; by apply Hgo].
    destruct (nodes (state s) !! y); simplify_eq; apply Hgo; simpl; try done.
    + by rewrite lookup_delete_ne.
    + by rewrite lookup_delete_ne.
Qed.

Lemma queued_at_check x k now1 now2 s s' ph' :
  state_inv (state s) -> run_check now1 now2 s = (s', ph') -> queued_at x k (W s PStart) ->
  (exists c ctx, ph' = PExec x c ctx) \/
  (queued_at x (k - 1) (W s' ph') /\ (1 <= k)%nat) \/
  (queued_at x k (W s' ph') /\ forall id c ctx, ph' <> PExec id c ctx).
Proof.
  intros Hinv H Hx. destruct (drain_spec now1 s Hinv) as [_ Hinv1].
  pose proof (queued_at_drain x k now1 s PStart Hinv Hx) as Hx1. unfold run_check in H.
  set (s1 := drain_expired_timers now1 s) in *. clearbody s1.
  destruct (negb (running s1)).
  { simplify_eq. right; right. split; [done|]. by intros. }
  destruct (ready_queue (state s1)) as [|y q] eqn:Hq.
  - destruct Hx1 as ((pre & post & Hq' & _) & _). simpl in Hq'. rewrite Hq in Hq'.
    by destruct pre.
  - destruct (queued_at_pick x k s1 s' PStart ph' Hinv1 H Hx1) as [?|?]; auto.
Qed.

Lemma queued_at_complete x k id c ctx o s :
  nodes (state s) !! id = None ->
  queued_at x k (W s (PDone id c ctx o)) -> queued_at x k (W (complete id c ctx o s) PStart).
Proof.
  intros Hid ((pre & post & Hq & Hlen) & Hxc & Hxn); simpl in *.
  assert (x <> id) as Hne by (intros ->; rewrite Hid in Hxn; by destruct Hxn).
  unfold complete, queued_at. simpl. destruct (eo_finished o).
  - set (q := filter _ _).
    assert (exists pre' post', q = pre' ++ x :: post' /\ (length pre' <= k)%nat) as Hq'.
    { exists (filter (fun y => y <> id) pre), (filter (fun y => y <> id) post). subst q.
      rewrite Hq, filter_app, filter_cons_True by done. split; [done|].
      pose proof (length_filter (fun y => y <> id) pre). lia. }
    repeat case_decide; simpl; eauto.
  - assert (forall l, exists p p', (ready_queue (state s) ++ l) = p ++ x :: p' /\ (length p <= k)%nat)
      as Hgo by (intros l; exists pre, (post ++ l); by rewrite Hq, <- app_assoc).
    pose proof (Hgo []) as Hgo0. rewrite app_nil_r in Hgo0.
    destruct (wake_at ctx); simpl; (destruct (_ || _); [unfold enqueue; destruct (decide _)|]);
      simpl; rewrite !lookup_insert_ne by done; (split; [auto|done]).
Qed.

Lemma queued_at_step x k l w w' :
  world_inv w -> step enforce l w w' -> queued_at x k w ->
  l = LPick x \/ (queued_at x (k - is_pick l) w' /\ (is_pick l <= k)%nat).
Proof.
  intros Hw Hstep Hx.
  destruct Hstep as [now1 now2 s s' ph' Hc Hno|now1 now2 s s' id c ctx Hc|d s|d s
    |id c ctx s c' ctx' o s' He|id c ctx s s' He|id c ctx o s|id b s s' ph Hlf Hs
    |id t b s s' ph Hlf Hs|id kk now s ph Hlf Hid|c id s ph Hlf|now s ph Hlf|s ph]; simpl;
    rewrite ?Nat.sub_0_r.
  - destruct (queued_at_check _ _ _ _ _ _ _ (wi_state _ Hw) Hc Hx) as [(c & ctx & ->)|[[H ?]|[H _]]].
    + by destruct (Hno x c ctx).
    + right. split; [|lia]. destruct H as ((pre & post & Hq & Hl) & ? & ?).
      split; [|done]. exists pre, post. split; [done|lia].
    + right. split; [done|lia].
  - destruct (queued_at_check _ _ _ _ _ _ _ (wi_state _ Hw) Hc Hx) as [(c' & ctx' & Heq)|[[H ?]|[_ H]]].
    + simplify_eq. by left.
    + right. by split.
    + by destruct (H id c ctx).
  - right. split; [done|lia].
  - right. split; [done|lia].
  - right. split; [|lia]. apply execute_loop_spec in He as (Hsg & _).
    exact (queued_at_signalled _ _ _ _ (PExec id c ctx) _ Hsg Hx).
  - right. split; [|lia]. apply execute_loop_spec in He as (Hsg & _).
    exact (queued_at_signalled _ _ _ _ (PExec id c ctx) _ Hsg Hx).
  - right. split; [|lia]. apply queued_at_complete; [apply Hw|done].
  - right. split; [|lia]. exact (queued_at_signalled _ _ _ _ ph _ (signal_ready_signalled _ _ _ _ Hs) Hx).
  - right. split; [|lia]. unfold sched_wake_at in Hs.
    destruct (nodes (state s) !! id); by simplify_eq.
  - right. split; [|lia]. destruct Hx as (Hq & Hxc & Hxn); simpl in *. split; [done|].
    simpl. split; [done|]. rewrite lookup_insert. destruct (decide _); [by eexists|done].
  - right. split; [|lia]. destruct Hx as (Hq & Hxc & Hxn); simpl in *. split; [done|].
    simpl. split; [|done]. rewrite lookup_insert. destruct (decide _); [by eexists|done].
  - right. split; [done|lia].
  - right. split; [done|lia].
Qed.

Lemma queued_at_steps x k ls w w' :
  world_inv w -> steps enforce ls w w' -> queued_at x k w ->
  LPick x ∈ ls \/ (picks ls <= k)%nat.
Proof.
  intros Hw Hs. revert k Hw.
  induction Hs as [w|l ls w w' w'' Hstep Hs IH]; intros k Hw Hx; [right; apply Nat.le_0_l|].
  destruct (queued_at_step _ _ _ _ _ Hw Hstep Hx) as [->|[Hx' Hle]]; [left; set_solver|].
  destruct (IH _ (step_inv _ _ _ _ Hstep Hw) Hx') as [?|Hp]; [left; set_solver|right].
  rewrite picks_cons. lia.
Qed.
End fairness.

(** * The run loop in isolation *)
Section run_loop.
Context {C : Type} `{Comp : Component C} (enforce : bool).
Implicit Types (s : Scheduler C) (w : world (C := C)).

(** A node without a flag, a context and an instance cannot come back by
    itself. *)
Definition retired (x : string) (w : world (C := C)) : Prop :=
  ready_flags (state (w_sched w)) !! x = None /\ forall id c ctx, w_phase w = PExec id c ctx -> id <> x.

(** [execute_component]'s loop as a relation, without fuel: the reference
    against which the executable loop is checked. *)
Inductive executes : C -> NodeContext -> ExecutionOutcome -> Scheduler C -> exec_result (C := C) -> Prop :=
| ex_budget c ctx o s :
    remaining_budget ctx = 0%N -> executes c ctx o s (ExecDone c ctx o s)
| ex_blocked c ctx o s r :
    remaining_budget ctx <> 0%N -> process c ctx = r ->
    enforce_non_blocking_process_contract enforce (pr_elapsed r) = false ->
    executes c ctx o s (ExecCrashed (apply_effects (ready_signal ctx) (pr_effects r) s))
| ex_panic c ctx o s r s1 :
    remaining_budget ctx <> 0%N -> process c ctx = r ->
    enforce_non_blocking_process_contract enforce (pr_elapsed r) = true ->
    s1 = apply_effects (ready_signal ctx) (pr_effects r) s ->
    pr_result r = None ->
    executes c ctx o s (ExecDone (pr_self r) (pr_context r)
      (mk_ExecutionOutcome (eo_did_work o) true (eo_executions o) (eo_work_units o) true)
      (set_flags (ctx_clear_ready (pr_context r) (flags s1)) s1))
| ex_nowork c ctx o s r :
    remaining_budget ctx <> 0%N -> process c ctx = r ->
    enforce_non_blocking_process_contract enforce (pr_elapsed r) = true ->
    pr_result r = Some NoWork ->
    executes c ctx o s (ExecDone (pr_self r) (pr_context r) o
      (apply_effects (ready_signal ctx) (pr_effects r) s))
| ex_finished c ctx o s r s1 :
    remaining_budget ctx <> 0%N -> process c ctx = r ->
    enforce_non_blocking_process_contract enforce (pr_elapsed r) = true ->
    s1 = apply_effects (ready_signal ctx) (pr_effects r) s ->
    pr_result r = Some Finished ->
    executes c ctx o s (ExecDone (pr_self r) (pr_context r)
      (mk_ExecutionOutcome (eo_did_work o) true (eo_executions o) (eo_work_units o) (eo_panicked o))
      (set_flags (ctx_clear_ready (pr_context r) (flags s1)) s1))
| ex_work c ctx o s r units res :
    remaining_budget ctx <> 0%N -> process c ctx = r ->
    enforce_non_blocking_process_contract enforce (pr_elapsed r) = true ->
    pr_result r = Some (DidWork units) ->
    executes (pr_self r) (account_work (remaining_budget ctx) units (pr_now r) (pr_context r))
      (mk_ExecutionOutcome true (eo_finished o) (eo_executions o + 1)
         (eo_work_units o + accounted units) (eo_panicked o))
      (apply_effects (ready_signal ctx) (pr_effects r) s) res ->
    executes c ctx o s res.

Lemma account_work_decreases before units now ctx :
  before <> 0%N -> (remaining_budget (account_work before units now ctx) < before)%N.
Proof.
  intros Hb. simpl. pose proof (consumed_budget_pos before (remaining_budget ctx) units). lia.
Qed.

Lemma execute_loop_sound fuel c ctx o s :
  (N.to_nat (remaining_budget ctx) < fuel)%nat ->
  executes c ctx o s (execute_loop enforce fuel c ctx o s).
Proof.
  revert c ctx o s. induction fuel as [|fuel IH]; intros c ctx o s Hf; [lia|]. simpl.
  destruct (N.eqb_spec (remaining_budget ctx) 0) as [Hb|Hb]; [by apply ex_budget|].
  destruct (enforce_non_blocking_process_contract enforce (pr_elapsed (process c ctx))) eqn:He;
    simpl; [|by eapply ex_blocked].
  destruct (pr_result (process c ctx)) as [[units| |]|] eqn:Hr.
  - eapply ex_work; [done..|]. apply IH.
    pose proof (account_work_decreases _ units (pr_now (process c ctx))
                  (pr_context (process c ctx)) Hb). lia.
  - by eapply ex_nowork.
  - by eapply ex_finished.
  - by eapply ex_panic.
Qed.

Lemma executes_det c ctx o s r1 r2 :
  executes c ctx o s r1 -> executes c ctx o s r2 -> r1 = r2.
Proof.
  intros H1. revert r2. induction H1; intros r2 Hr2; inversion Hr2; simplify_eq; try congruence.
  by apply IHexecutes.
Qed.
End run_loop.

(** * The contract *)

Section retirement.
Context {C : Type} `{Comp : Component C} (enforce : bool).

Lemma retired_step x l w w' :
  world_inv w -> step enforce l w w' -> l <> LAddNode x -> retired x w -> retired x w' /\ l <> LPick x.
Proof.
  intros Hw Hstep Hl [Hf Hph]. pose proof (step_inv _ _ _ _ Hstep Hw) as Hw'.
  assert (ready_flags (state (w_sched w')) !! x = None) as Hf'.
  { assert (forall n1 n2 (s s' : Scheduler C) ph, run_check n1 n2 s = (s', ph) -> state_inv (state s) ->
             ready_flags (state s') = ready_flags (state s)) as Hcheck.
    { intros n1 n2 s s' ph H Hs. unfold run_check, run_pick in H.
      destruct (drain_spec n1 s Hs) as [[_ _ _ _ _ _ (_ & Hrf & _)] _].
      set (s1 := drain_expired_timers n1 s) in *. clearbody s1. rewrite <- Hrf. clear Hrf.
      destruct (next_valid_timer_deadline (state s1)) as [d st] eqn:Hnv.
      apply next_valid_spec in Hnv as (ts & -> & _). by repeat case_match; simplify_eq. }
    destruct Hstep as [n1 n2 s s' ph' Hc _|n1 n2 s s' id c ctx Hc|d s|d s
      |id c ctx s c' ctx' o s' He|id c ctx s s' He|id c ctx o s|id b s s' ph Hlf Hs
      |id t b s s' ph Hlf Hs|id k now s ph Hlf Hid|c id s ph Hlf|now s ph Hlf|s ph]; simpl in *;
      try done.
    - by rewrite (Hcheck _ _ _ _ _ Hc (wi_state _ Hw)).
    - by rewrite (Hcheck _ _ _ _ _ Hc (wi_state _ Hw)).
    - unfold execute_component in He. apply execute_loop_spec in He as ([_ _ -> _ _ _ _ _] & _). done.
    - unfold execute_component in He. apply execute_loop_spec in He as ([_ _ -> _ _ _ _ _] & _). done.
    - unfold complete. destruct (eo_finished o); simpl.
      + repeat case_decide; simpl; rewrite lookup_delete; by destruct (decide _).
      + destruct (wake_at ctx); simpl; (destruct (_ || _); [unfold enqueue; destruct (decide _)|]); done.
    - by apply signal_ready_signalled in Hs as [_ _ -> _ _ _ _ _].
    - unfold sched_wake_at in Hs. destruct (nodes (state s) !! id); by simplify_eq.
    - rewrite lookup_insert_ne; [done|congruence]. }
  split.
  - split; [done|]. intros id c ctx Hp ->. destruct Hw' as [_ H']. rewrite Hp in H'.
    destruct H' as [H' _]. congruence.
  - intros ->. inversion Hstep; simplify_eq. simpl in *. destruct Hw' as [_ [H' _]]; simpl in *. congruence.
Qed.

Lemma retired_steps x ls w w' :
  world_inv w -> steps enforce ls w w' -> LAddNode x ∉ ls -> retired x w -> LPick x ∉ ls.
Proof.
  intros Hw Hs. revert Hw. induction Hs as [w|l ls w w' w'' Hstep Hs IH]; intros Hw Hl Hr; [set_solver|].
  destruct (retired_step x l w w' Hw Hstep) as [Hr' Hne]; [set_solver|done|].
  apply not_elem_of_cons. split; [congruence|].
  apply IH; [by eapply step_inv|set_solver|done].
Qed.

Lemma complete_finished_flag id (c : C) ctx o (s : Scheduler C) :
  eo_finished o = true -> ready_flags (state (complete id c ctx o s)) !! id = None.
Proof.
  intros Ho. unfold complete. rewrite Ho. simpl.
  repeat case_decide; simpl; by rewrite lookup_delete_eq.
Qed.
End retirement.

Section contract.
Context {C : Type} `{Comp : Component C} (enforce : bool).
Implicit Types (s : Scheduler C) (w : world (C := C)).

(** C1: in every reachable state of the scheduler, with signals, timers,
    registrations and stops interleaved in any way, the ready queue has no
    duplicates and agrees with the ready set, the published queue depth is
    its length, every queued node and every armed timer belongs to a node
    that has not finished, and every armed deadline is in the timer heap. *)
Theorem scheduler_invariant w : reachable enforce w -> state_inv (state (w_sched w)).
Proof. intros H. by apply reachable_inv in H as []. Qed.

(** C2: the scheduler thread never sleeps past work: when it waits on the
    condition variable, nothing is queued, and its timeout is no later than
    any armed timer. *)
Theorem never_sleeps_past_work s d :
  reachable enforce (W s (PWaiting d)) ->
  ready_queue (state s) = [] /\ ready_set (state s) = ∅ /\
  forall n t, timer_latest_by_node (state s) !! n = Some t -> exists u, d = Some u /\ (u <= t)%N.
Proof.
  intros [[[_ Hset] _ _ _ _ _] [Hq Hd]]%reachable_inv; simpl in *.
  split_and!; [done| |done]. apply set_eq. intros x. rewrite Hset, Hq. set_solver.
Qed.

(** [signal_ready] on a node that has not finished raises its flag,
    leaves it queued exactly once, wakes the scheduler thread, and a second
    signal changes nothing; on an unknown node it changes nothing. *)
Theorem signal_ready_spec id s ph :
  reachable enforce (W s ph) ->
  (forall l, ready_flags (state s) !! id = Some l -> exists s',
     signal_ready id s = (true, s') /\ flags s' !! l = Some true /\
     id ∈ ready_queue (state s') /\ NoDup (ready_queue (state s')) /\
     ready_queue (state s') = ready_queue (state s) ++
       (if decide (id ∈ ready_queue (state s)) then [] else [id]) /\
     signal_ready id s' = (true, s') /\
     (forall d, notify ph <> PWaiting d)) /\
  (ready_flags (state s) !! id = None -> signal_ready id s = (false, s)).
Proof.
  intros Hr%reachable_inv. pose proof (wi_state _ Hr) as Hinv; simpl in Hinv. split.
  - intros l Hl. destruct (signal_ready id s) as [b s'] eqn:Hs. exists s'.
    pose proof (signal_ready_inv _ _ _ _ Hs Hinv) as Hinv'.
    assert (b = true) as ->.
    { unfold signal_ready in Hs. rewrite Hl in Hs. by destruct (enqueue _ _) as [[] ?]; simplify_eq. }
    pose proof (signal_ready_queues _ _ _ Hs Hinv) as Hin.
    pose proof (signal_ready_signalled _ _ _ _ Hs) as [_ _ Hrf _ _ _ _ _].
    pose proof Hinv' as [[Hnd Hset'] _ _ _ _ _].
    split; [done|]. split; [by eapply signal_ready_flag|]. split; [done|]. split; [done|].
    split; [by eapply signal_ready_queue|]. split; [|by destruct ph].
    rewrite (signal_ready_again id s' l); [done| |by apply Hset'|]; [by rewrite Hrf|].
    by eapply signal_ready_flag.
  - intros Hn. unfold signal_ready. by rewrite Hn.
Qed.

(** C9: bounded waiting: a runnable node queued behind [k] others has been
    taken for execution before the scheduler has taken more than [k] nodes,
    whatever other threads do meanwhile. *)
Theorem bounded_waiting s ph ls w' x k :
  reachable enforce (W s ph) -> ready_queue (state s) !! k = Some x ->
  is_Some (components (state s) !! x) -> is_Some (nodes (state s) !! x) ->
  steps enforce ls (W s ph) w' ->
  LPick x ∈ ls \/ (picks ls <= k)%nat.
Proof.
  intros Hr%reachable_inv Hk Hc Hn Hs. apply (queued_at_steps enforce x k ls (W s ph) w' Hr Hs).
  split; [|done]. apply list_elem_of_split_length in Hk as (pre & post & Hq & ->). by eauto.
Qed.

(** A node that reported [Finished] (or panicked) is retired for good:
    unless it is registered anew, the scheduler never executes it again,
    however often it is signalled. *)
Theorem finished_node_never_runs_again id c ctx o s ls w' :
  reachable enforce (W s (PDone id c ctx o)) -> eo_finished o = true ->
  LAddNode id ∉ ls -> steps enforce ls (W (complete id c ctx o s) PStart) w' ->
  LPick id ∉ ls.
Proof.
  intros Hr Ho Hl Hs. eapply retired_steps; [|exact Hs|done|].
  - apply (reachable_inv enforce). eapply reachable_step; [exact Hr|constructor].
  - split; [by apply complete_finished_flag|done].
Qed.

(** C12: one execution of a component terminates and its result is the unique
    one that the source's unbounded loop (the relation [executes]) has: the
    budget strictly decreases, so the fuel given is always enough. *)
Theorem execute_component_terminates c ctx s r :
  execute_component enforce c ctx s = r <->
  executes enforce c (take_wake_at (set_remaining_budget (budget_of_class (budget_class ctx)) ctx)).2
    default_outcome (set_flags (ctx_clear_ready ctx (flags s)) s) r.
Proof.
  unfold execute_component. split.
  - intros <-. apply execute_loop_sound. lia.
  - intros H. eapply executes_det; [|exact H]. apply execute_loop_sound. lia.
Qed.

(** A node's share is bounded: one execution calls [process] successfully
    at most 32, 8 or 96 times (its budget class), each call accounts for at
    least one work unit, [did_work] is set exactly when there was such a
    call, and other nodes are affected at most by being queued. *)
Theorem execute_component_bounded c ctx s c' ctx' o s' :
  execute_component enforce c ctx s = ExecDone c' ctx' o s' ->
  (eo_executions o <= budget_of_class (budget_class ctx))%N /\
  (eo_executions o <= eo_work_units o)%N /\
  eo_did_work o = negb (eo_executions o =? 0)%N /\
  nodes (state s') = nodes (state s) /\ components (state s') = components (state s) /\
  timers (state s') = timers (state s) /\
  (forall x, x ∈ ready_set (state s) -> x ∈ ready_set (state s')).
Proof.
  intros H. unfold execute_component in H.
  apply execute_loop_spec in H as ([-> -> _ -> _ _ _ Hr] & _ & _ & _ & Hb & Hd & Hw & _).
  simpl in *. rewrite !N.sub_0_r in *. split_and!; try done.
Qed.

(** [drain_expired_timers] fires exactly the nodes whose latest deadline
    has passed: each is queued, its flag raised, its context marked with
    that deadline and the deadline disarmed; every other timer, the order of
    the nodes already queued and all else stay. *)
Theorem drain_expired_timers_spec now s ph :
  reachable enforce (W s ph) ->
  drained now s (drain_expired_timers now s) /\ state_inv (state (drain_expired_timers now s)).
Proof. intros [Hi _]%reachable_inv. by apply drain_spec. Qed.

(** A component that did work, or whose flag was raised while it ran, is
    queued again after an execution that did not finish it; it keeps its
    instance, its context and the wake-up it asked for, and no other node's
    registration changes. *)
Theorem complete_requeues id c ctx o s :
  reachable enforce (W s (PDone id c ctx o)) -> eo_finished o = false ->
  let s' := complete id c ctx o s in
  components (state s') = <[id := c]> (components (state s)) /\
  nodes (state s') = <[id := set_wake_at None ctx]> (nodes (state s)) /\
  timer_latest_by_node (state s') =
    match wake_at ctx with
    | Some t => <[id := t]> (timer_latest_by_node (state s))
    | None => timer_latest_by_node (state s)
    end /\
  (forall x, x ∈ ready_queue (state s') <-> x ∈ ready_queue (state s) \/
     (x = id /\ (eo_did_work o = true \/ ctx_is_ready ctx (flags s) = true))).
Proof.
  intros Hr Ho. apply reachable_inv in Hr as [[[_ Hset] _ _ _ _ _] _]; simpl in *.
  unfold complete. rewrite Ho. simpl.
  destruct (wake_at ctx); simpl;
    (destruct (eo_did_work o || ctx_is_ready ctx (flags s)) eqn:Hq;
     [apply orb_prop in Hq; unfold enqueue; destruct (decide _) as [Hin|Hin]; simpl in *
     |apply orb_false_elim in Hq as [-> ->]; simpl];
     (split_and!; [done..|]); intros x; rewrite ?elem_of_app, ?list_elem_of_singleton;
     first [rewrite Hset in Hin|idtac]; naive_solver).
Qed.

(** When the last node finishes, the scheduler thread stops itself: the
    [running] flag is cleared and its next look at the state makes it exit. *)
Theorem exits_when_all_finished id c ctx o s now1 now2 :
  reachable enforce (W s (PDone id c ctx o)) ->
  eo_finished o = true -> nodes (state s) = ∅ -> components (state s) = ∅ ->
  exists s', run_check now1 now2 (complete id c ctx o s) = (s', PExited).
Proof.
  intros Hr Ho Hn Hc. assert (reachable enforce (W (complete id c ctx o s) PStart)) as Hr'
    by (eapply reachable_step; [exact Hr|constructor]).
  apply reachable_inv in Hr' as [Hi _]; simpl in Hi.
  assert (running (complete id c ctx o s) = false) as Hrun.
  { unfold complete. rewrite Ho. simpl. by rewrite !decide_True. }
  unfold run_check. destruct (drain_spec now1 _ Hi) as [[_ _ _ _ _ _ (_ & _ & Hrun' & _)] _].
  rewrite Hrun', Hrun. simpl. eauto.
Qed.
End contract.

Section stop.
Context {C : Type} `{Comp : Component C} (enforce : bool).
Implicit Types (s : Scheduler C).

(** [stop] while the scheduler thread waits wakes it and its next look at
    the state makes it exit; but [stop] does not take the lock, so when it
    falls between the thread's check of [running] and its wait, the
    notification is lost and the thread goes to sleep although the scheduler
    is stopped. *)
Theorem stop_exits_unless_before_wait s d :
  (reachable enforce (W s (PWaiting d)) -> forall now1 now2, exists s',
     step enforce LOther (W s (PWaiting d)) (W (stop s) PStart) /\
     run_check now1 now2 (stop s) = (s', PExited)) /\
  (reachable enforce (W s (PChecked d)) -> exists s',
     steps enforce [LOther; LRun] (W s (PChecked d)) (W s' (PWaiting d)) /\ running s' = false).
Proof.
  split.
  - intros [Hi _]%reachable_inv now1 now2; simpl in Hi. unfold run_check.
    destruct (drain_spec now1 (stop s) Hi) as [[_ _ _ _ _ _ (_ & _ & Hrun & _)] _].
    rewrite Hrun. simpl. eexists. split; [|done]. apply (step_stop enforce s (PWaiting d)).
  - intros _. exists (stop s). split; [|done].
    eapply steps_cons; [apply step_stop|]. eapply steps_cons; [apply step_wait|apply steps_nil].
Qed.
End stop.

(** * Concrete instances *)

Definition demo_ctx : NodeContext := new_node_context "a" Heavy 1 0.

(** The end of an execution without the scheduler, and the scheduler alone. *)
Definition exec_summary {C} (r : exec_result (C := C)) : option (C * NodeContext * ExecutionOutcome) :=
  match r with ExecDone c ctx o _ => Some (c, ctx, o) | ExecCrashed _ => None end.
Definition exec_sched {C} (r : exec_result (C := C)) : Scheduler C :=
  match r with ExecDone _ _ _ s => s | ExecCrashed s => s end.

Lemma exec_summary_Some {C} (r : exec_result (C := C)) c ctx o :
  exec_summary r = Some (c, ctx, o) -> r = ExecDone c ctx o (exec_sched r).
Proof. destruct r; [by intros [= -> -> ->]|done]. Qed.

Lemma step_pick_of {C} `{Component C} enforce now1 now2 s id c ctx :
  (run_check now1 now2 s).2 = PExec id c ctx ->
  step enforce (LPick id) (W s PStart) (W (run_check now1 now2 s).1 (PExec id c ctx)).
Proof. intros Hp. apply step_pick with now1 now2. rewrite <- Hp. apply surjective_pairing. Qed.

Lemma step_signal_of {C} `{Component C} enforce id s ph :
  lock_free ph ->
  step enforce (LSignal id) (W s ph)
    (W (signal_ready id s).2 (if (signal_ready id s).1 then notify ph else ph)).
Proof. intros Hlf. by apply step_signal; [|apply surjective_pairing]. Qed.

(** The scheduler after node ["a"] has been taken. *)
Definition demo_picked : Scheduler nat := (run_check 0 0 demo_sched).1.

Lemma demo_reachable_exec : reachable true (W demo_picked (PExec "a" 3 demo_ctx)).
Proof.
  eapply reachable_step; [apply demo_reachable|]. apply step_pick_of. vm_compute. reflexivity.
Defined.

(** It runs to its end: three units of work, then [Finished]. *)
Definition demo_after : exec_result (C := nat) := execute_component true 3 demo_ctx demo_picked.
Definition demo_done : Scheduler nat := exec_sched demo_after.
Definition demo_done_ctx : NodeContext := mk_NodeContext "a" Heavy 5 0 3 3 1 None None.
Definition demo_outcome : ExecutionOutcome := mk_ExecutionOutcome true true 3 3 false.

Lemma demo_executed : execute_component true 3 demo_ctx demo_picked = ExecDone 0%nat demo_done_ctx demo_outcome demo_done.
Proof. apply exec_summary_Some. vm_compute. reflexivity. Qed.

Lemma demo_reachable_done : reachable true (W demo_done (PDone "a" 0%nat demo_done_ctx demo_outcome)).
Proof. eapply reachable_step; [apply demo_reachable_exec|]. apply step_exec, demo_executed. Defined.

(** A longer countdown is interrupted by its budget. *)
Definition demo_picked20 : Scheduler nat := (run_check 0 0 (demo_sched_of 20)).1.
Definition demo_done20 : Scheduler nat := exec_sched (execute_component true 20 demo_ctx demo_picked20).
Definition demo_done20_ctx : NodeContext := mk_NodeContext "a" Heavy 0 0 8 8 1 None None.
Definition demo_outcome20 : ExecutionOutcome := mk_ExecutionOutcome true false 8 8 false.

Lemma demo_reachable_interrupted :
  reachable true (W demo_done20 (PDone "a" 12%nat demo_done20_ctx demo_outcome20)).
Proof.
  eapply reachable_step; [|apply step_exec, exec_summary_Some; vm_compute; reflexivity].
  eapply reachable_step; [|apply (step_pick_of true 0%N 0%N); vm_compute; reflexivity].
  apply demo_reachable_of.
Defined.

Lemma demo_reachable_checked : reachable true (W (new_scheduler (C := nat)) (PChecked None)).
Proof.
  eapply reachable_step; [apply reachable_new|]. by apply (step_check true 0%N 0%N).
Defined.

Lemma demo_reachable_waiting : reachable true (W (new_scheduler (C := nat)) (PWaiting None)).
Proof. eapply reachable_step; [apply demo_reachable_checked|apply step_wait]. Defined.

Lemma scheduler_invariant_witness : state_inv (state demo_sched).
Proof. exact (scheduler_invariant true _ demo_reachable). Defined.

Lemma never_sleeps_past_work_witness :
  ready_queue (state (new_scheduler (C := nat))) = [].
Proof. exact (proj1 (never_sleeps_past_work true _ None demo_reachable_waiting)). Defined.

Lemma signal_ready_spec_witness :
  (exists s', signal_ready "a" demo_sched = (true, s') /\ ready_queue (state s') = ["a"]) /\
  signal_ready "b" demo_sched = (false, demo_sched).
Proof.
  destruct (signal_ready_spec true "a" demo_sched PStart demo_reachable) as [H _].
  destruct (signal_ready_spec true "b" demo_sched PStart demo_reachable) as [_ Hb].
  destruct (H 1%positive eq_refl) as (s' & Hs & _ & _ & _ & Hq & _).
  split; [exists s'; split; [exact Hs|exact Hq]|apply Hb; reflexivity].
Defined.

Lemma bounded_waiting_witness :
  LPick "a" ∈ [LPick "a"] \/ (picks [LPick "a"] <= 0)%nat.
Proof.
  apply (bounded_waiting true demo_sched PStart [LPick "a"]
           (W demo_picked (PExec "a" 3 demo_ctx)) "a" 0 demo_reachable); [reflexivity|by eexists|by eexists|].
  eapply steps_cons; [|apply steps_nil].
  apply (step_pick_of true 0%N 0%N). vm_compute. reflexivity.
Defined.

Lemma finished_node_never_runs_again_witness : LPick "a" ∉ [LSignal "a"].
Proof.
  eapply (finished_node_never_runs_again true "a" 0%nat _ _ _ [LSignal "a"]
           _ demo_reachable_done).
  - reflexivity.
  - intros [H|H]%elem_of_cons; [discriminate H|by apply elem_of_nil in H].
  - eapply steps_cons; [by apply (step_signal_of true "a")|apply steps_nil].
Defined.

Lemma execute_component_bounded_witness : (eo_executions demo_outcome <= 8)%N.
Proof. exact (proj1 (execute_component_bounded true 3 demo_ctx demo_picked _ _ _ _ demo_executed)). Defined.

Lemma drain_expired_timers_spec_witness : drained 5 demo_sched (drain_expired_timers 5 demo_sched).
Proof. exact (proj1 (drain_expired_timers_spec true 5 _ PStart demo_reachable)). Defined.

Lemma complete_requeues_witness :
  "a" ∈ ready_queue (state (complete "a" 12%nat demo_done20_ctx demo_outcome20 demo_done20)).
Proof.
  destruct (complete_requeues true "a" 12%nat _ _ _ demo_reachable_interrupted eq_refl)
    as (_ & _ & _ & H).
  apply H. right. split; [|left]; reflexivity.
Defined.

Lemma exits_when_all_finished_witness :
  exists s', run_check 0 0 (complete "a" 0%nat demo_done_ctx demo_outcome demo_done) = (s', PExited).
Proof.
  apply (exits_when_all_finished true "a" 0%nat _ _ _ 0%N 0%N demo_reachable_done);
    [reflexivity|apply (map_size_empty_inv (nodes _))|apply (map_size_empty_inv (components _))]; vm_compute; reflexivity.
Defined.

Lemma stop_exits_unless_before_wait_witness :
  exists s', steps true [LOther; LRun] (W (new_scheduler (C := nat)) (PChecked None)) (W s' (PWaiting None))
    /\ running s' = false.
Proof.
  exact (proj2 (stop_exits_unless_before_wait true new_scheduler None) demo_reachable_checked).
Defined.
