(* ===== verification/Graph.v ===== *)
(** The FBP graph, [src/graph.rs], with the payload records of
    [src/protocol.rs] that its operations take and return.

    serde_json is not part of the repository: its numbers, values and maps are
    the interface [SerdeJson], whose laws restate its documentation; an
    executable instance serves the examples. *)
From S2P Require Import Prelude Api.
From Stdlib Require Strings.String.
From Stdlib Require Import NArith ZArith Lia Strings.Ascii.
From stdpp Require Import base list strings gmap.
Local Open Scope string_scope.
Local Open Scope list_scope.
Local Open Scope flowd_scope.

(** * The interface of serde_json *)

(** [jv_number] and [jv_string] are the patterns [JsonValue::Number(n)] and
    [JsonValue::String(s)]; [jm_iter] is the iteration order. *)
Class SerdeJson : Type := {
  JsonNumber : Type;
  JsonValue : Type;
  JsonMap : Type;
  as_i64 : JsonNumber -> option Z;
  as_u64 : JsonNumber -> option N;
  jv_number : JsonValue -> option JsonNumber;
  jv_string : JsonValue -> option string;
  jv_is_null : JsonValue -> bool;
  jv_from_i32 : Z -> JsonValue;
  jv_from_u32 : N -> JsonValue;
  jv_from_string : string -> JsonValue;
  jv_from_bool : bool -> JsonValue;
  jv_null : JsonValue;
  jm_new : JsonMap;
  jm_get : string -> JsonMap -> option JsonValue;
  jm_insert : string -> JsonValue -> JsonMap -> JsonMap;
  jm_remove : string -> JsonMap -> JsonMap;
  jm_iter : JsonMap -> list (string * JsonValue);

  jv_number_i32 z : (-2147483648 <= z < 2147483648)%Z ->
    exists n, jv_number (jv_from_i32 z) = Some n /\ as_i64 n = Some z;
  jv_number_u32 w : (w < u32_modulus)%N ->
    exists n, jv_number (jv_from_u32 w) = Some n /\ as_u64 n = Some w;
  jv_string_string s : jv_string (jv_from_string s) = Some s;
  jv_is_null_i32 z : jv_is_null (jv_from_i32 z) = false;
  jv_is_null_null : jv_is_null jv_null = true;
  jm_get_new k : jm_get k jm_new = None;
  jm_get_insert_eq k v m : jm_get k (jm_insert k v m) = Some v;
  jm_get_insert_ne k k' v m : k <> k' -> jm_get k' (jm_insert k v m) = jm_get k' m;
  jm_get_remove_eq k m : jm_get k (jm_remove k m) = None;
  jm_get_remove_ne k k' m : k <> k' -> jm_get k' (jm_remove k m) = jm_get k' m;
  jm_iter_nodup m : NoDup (jm_iter m).*1;
  jm_iter_get m k v : (k, v) ∈ jm_iter m <-> jm_get k m = Some v
}.

(** An executable instance for the examples. *)
Inductive json : Type :=
| JNull
| JBool (b : bool)
| JInt (z : Z)
| JString (s : string).

#[local, refine] Instance gmap_serde_json : SerdeJson := {
  JsonNumber := Z;
  JsonValue := json;
  JsonMap := gmap string json;
  as_i64 := fun z => if ((-9223372036854775808 <=? z) && (z <? 9223372036854775808))%Z
                     then Some z else None;
  as_u64 := fun z => if ((0 <=? z) && (z <? 18446744073709551616))%Z
                     then Some (Z.to_N z) else None;
  jv_number := fun v => match v with JInt z => Some z | _ => None end;
  jv_string := fun v => match v with JString s => Some s | _ => None end;
  jv_is_null := fun v => match v with JNull => true | _ => false end;
  jv_from_i32 := JInt;
  jv_from_u32 := fun n => JInt (Z.of_N n);
  jv_from_string := JString;
  jv_from_bool := JBool;
  jv_null := JNull;
  jm_new := ∅;
  jm_get := fun k m => m !! k;
  jm_insert := fun k v m => <[k := v]> m;
  jm_remove := fun k m => delete k m;
  jm_iter := fun m => map_to_list m
}.
Proof.
  all: try reflexivity.
  - intros z Hz. exists z. split; [done|].
    rewrite (proj2 (Z.leb_le _ _)), (proj2 (Z.ltb_lt _ _)) by lia. done.
  - unfold u32_modulus. intros w Hw. exists (Z.of_N w). split; [done|].
    rewrite (proj2 (Z.leb_le _ _)), (proj2 (Z.ltb_lt _ _)) by lia. simpl. by rewrite N2Z.id.
  - intros. apply lookup_insert_eq.
  - intros. by apply lookup_insert_ne.
  - intros. apply lookup_delete_eq.
  - intros. by apply lookup_delete_ne.
  - intros. apply NoDup_fst_map_to_list.
  - intros. apply elem_of_map_to_list.
Defined.

(** * Data *)

Record GraphNodeMetadata : Type := mk_GraphNodeMetadata {
  nm_x : Z;
  nm_y : Z;
  nm_width : option N;
  nm_height : option N;
  nm_label : option string;
  nm_icon : option string
}.

Definition NODE_WIDTH_DEFAULT : N := 72.
Definition NODE_HEIGHT_DEFAULT : N := 72.
Definition default_node_metadata : GraphNodeMetadata :=
  mk_GraphNodeMetadata 0 0 (Some NODE_WIDTH_DEFAULT) (Some NODE_HEIGHT_DEFAULT) None None.

Record GraphEdgeMetadata : Type := mk_GraphEdgeMetadata {
  em_route : option Z;
  em_schema : option string;
  em_secure : option bool
}.
Definition default_edge_metadata : GraphEdgeMetadata := mk_GraphEdgeMetadata None None None.

Record GraphGroupMetadata : Type := mk_GraphGroupMetadata { gm_description : string }.

Record GraphPropertiesEnvironment : Type := mk_GraphPropertiesEnvironment {
  env_typ : string;
  env_content : string
}.
Definition default_environment : GraphPropertiesEnvironment :=
  mk_GraphPropertiesEnvironment "flowd" "".

Record GraphProperties : Type := mk_GraphProperties {
  gp_name : string;
  gp_environment : GraphPropertiesEnvironment;
  gp_description : string;
  gp_icon : string
}.

Record GraphPort : Type := mk_GraphPort {
  port_process : string;
  port_port : string;
  port_x : Z;
  port_y : Z
}.

Record GraphGroup : Type := mk_GraphGroup {
  group_name : string;
  group_nodes : list string;
  group_metadata : GraphGroupMetadata
}.

Record GraphNodeSpec : Type := mk_GraphNodeSpec {
  ns_process : string;
  ns_port : string;
  ns_index : option string
}.

Record GraphEdge : Type := mk_GraphEdge {
  edge_source : GraphNodeSpec;
  edge_data : option string;
  edge_target : GraphNodeSpec;
  edge_metadata : GraphEdgeMetadata
}.

#[export] Instance GraphEdgeMetadata_eq_dec : EqDecision GraphEdgeMetadata.
Proof. solve_decision. Defined.
#[export] Instance GraphNodeSpec_eq_dec : EqDecision GraphNodeSpec.
Proof. solve_decision. Defined.
#[export] Instance GraphEdge_eq_dec : EqDecision GraphEdge.
Proof. solve_decision. Defined.
#[export] Instance GraphGroupMetadata_eq_dec : EqDecision GraphGroupMetadata.
Proof. solve_decision. Defined.
#[export] Instance GraphGroup_eq_dec : EqDecision GraphGroup.
Proof. solve_decision. Defined.

(** Request and response payloads. *)
Record GraphClearRequestPayload : Type := mk_GraphClearRequestPayload {
  clr_name : string;
  clr_label : option string;
  clr_library : option string;
  clr_main : bool;
  clr_icon : option string;
  clr_description : option string;
  clr_secret : option string
}.

Record GraphAddportRequestPayload : Type := mk_GraphAddportRequestPayload {
  ap_graph : string;
  ap_public : string;
  ap_node : string;
  ap_port : string;
  ap_metadata : option GraphNodeMetadata;
  ap_secret : option string
}.

Record GraphAddedgeRequestPayload : Type := mk_GraphAddedgeRequestPayload {
  ae_src : GraphNodeSpecNetwork;
  ae_tgt : GraphNodeSpecNetwork;
  ae_metadata : GraphEdgeMetadata;
  ae_graph : string;
  ae_secret : option string
}.

Record GraphAddinitialRequestPayload : Type := mk_GraphAddinitialRequestPayload {
  ai_graph : string;
  ai_metadata : GraphEdgeMetadata;
  ai_src : string;                       (* [GraphIIPSpecNetwork { data }] *)
  ai_tgt : GraphNodeSpecNetwork;
  ai_secret : option string
}.

Record GraphRemoveinitialRequestPayload : Type := mk_GraphRemoveinitialRequestPayload {
  ri_graph : string;
  ri_src : option string;
  ri_tgt : GraphNodeSpecNetwork;
  ri_secret : option string
}.

Record GraphRemoveedgeResponsePayload : Type := mk_GraphRemoveedgeResponsePayload {
  re_graph : string;
  re_src : GraphNodeSpecNetwork;
  re_tgt : GraphNodeSpecNetwork
}.

Record ComponentSourcePayload : Type := mk_ComponentSourcePayload {
  cs_name : string;
  cs_language : string;
  cs_library : string;
  cs_code : string;
  cs_tests : string
}.

(** ** Conversions *)

Definition nodespec_from (s : GraphNodeSpecNetwork) : GraphNodeSpec :=
  mk_GraphNodeSpec (gnsn_node s) (gnsn_port s) (gnsn_index s).

Definition nodespec_to_network (s : GraphNodeSpec) : GraphNodeSpecNetwork :=
  mk_GraphNodeSpecNetwork (ns_process s) (ns_port s) (ns_index s).

(** [impl PartialEq<GraphNodeSpecNetwork> for GraphNodeSpec]. *)
Definition nodespec_eqb (s : GraphNodeSpec) (o : GraphNodeSpecNetwork) : bool :=
  String.eqb (ns_process s) (gnsn_node o)
  && String.eqb (ns_port s) (gnsn_port o)
  && bool_decide (ns_index s = gnsn_index o).

Definition port_from_addport (p : GraphAddportRequestPayload) : GraphPort :=
  let metadata := default default_node_metadata (ap_metadata p) in
  mk_GraphPort (ap_node p) (ap_port p) (nm_x metadata) (nm_y metadata).

Definition edge_from_addedge (p : GraphAddedgeRequestPayload) : GraphEdge :=
  mk_GraphEdge (nodespec_from (ae_src p)) None (nodespec_from (ae_tgt p)) (ae_metadata p).

Definition edge_from_addinitial (p : GraphAddinitialRequestPayload) : GraphEdge :=
  mk_GraphEdge (mk_GraphNodeSpec "" "" (Some ""))
    (if (0 <? String.length (ai_src p))%nat then Some (ai_src p) else None)
    (nodespec_from (ai_tgt p)) (ai_metadata p).

(** [HashMap::try_insert]. *)
Definition try_insert {V : Type} (k : string) (v : V) (m : gmap string V) :
    result unit unit * gmap string V :=
  match m !! k with Some _ => (Err tt, m) | None => (Ok tt, <[k := v]> m) end.

Section graph.
Context `{J : SerdeJson}.

Record GraphNode : Type := mk_GraphNode {
  node_component : string;
  node_metadata : GraphNodeMetadata;
  node_protocol_metadata : JsonMap
}.

Record Graph : Type := mk_Graph {
  g_case_sensitive : bool;
  g_properties : GraphProperties;
  g_inports : gmap string GraphPort;
  g_outports : gmap string GraphPort;
  g_groups : list GraphGroup;
  g_nodes : gmap string GraphNode;
  g_edges : list GraphEdge
}.

Record GraphAddnodeRequestPayload : Type := mk_GraphAddnodeRequestPayload {
  an_name : string;
  an_component : string;
  an_metadata : JsonMap;
  an_graph : option string;
  an_icon : option string;
  an_secret : option string
}.

Record GraphAddnodeResponsePayload : Type := mk_GraphAddnodeResponsePayload {
  anr_name : string;
  anr_component : string;
  anr_metadata : JsonMap;
  anr_graph : string
}.

Definition set_inports x (g : Graph) : Graph :=
  mk_Graph (g_case_sensitive g) (g_properties g) x (g_outports g) (g_groups g) (g_nodes g) (g_edges g).
Definition set_outports x (g : Graph) : Graph :=
  mk_Graph (g_case_sensitive g) (g_properties g) (g_inports g) x (g_groups g) (g_nodes g) (g_edges g).
Definition set_groups x (g : Graph) : Graph :=
  mk_Graph (g_case_sensitive g) (g_properties g) (g_inports g) (g_outports g) x (g_nodes g) (g_edges g).
Definition set_gnodes x (g : Graph) : Graph :=
  mk_Graph (g_case_sensitive g) (g_properties g) (g_inports g) (g_outports g) (g_groups g) x (g_edges g).
Definition set_edges x (g : Graph) : Graph :=
  mk_Graph (g_case_sensitive g) (g_properties g) (g_inports g) (g_outports g) (g_groups g) (g_nodes g) x.

Definition g_name (g : Graph) : string := gp_name (g_properties g).

(** A graph operation returns its result and the graph it leaves. *)
Definition graph_op (A : Type) : Type := Graph -> result A io_error * Graph.

(** ** Node metadata as JSON *)

Definition graph_node_metadata_from_payload (metadata : JsonMap) : GraphNodeMetadata :=
  let num k := match jm_get k metadata with Some v => jv_number v | None => None end in
  let str k := match jm_get k metadata with Some v => jv_string v | None => None end in
  let d := default_node_metadata in
  mk_GraphNodeMetadata
    (match num "x" with
     | Some n => match as_i64 n with Some x => i32_of_i64 x | None => nm_x d end
     | None => nm_x d end)
    (match num "y" with
     | Some n => match as_i64 n with Some y => i32_of_i64 y | None => nm_y d end
     | None => nm_y d end)
    (match num "width" with Some n => u32_of_u64 <$> as_u64 n | None => nm_width d end)
    (match num "height" with Some n => u32_of_u64 <$> as_u64 n | None => nm_height d end)
    (match str "label" with Some s => Some s | None => nm_label d end)
    (match str "icon" with Some s => Some s | None => nm_icon d end).

(** [if let Some(v) = o { out.insert(k, JsonValue::from(v)) }]. *)
Definition insert_opt {A : Type} (k : string) (f : A -> JsonValue) (o : option A) (m : JsonMap) :
    JsonMap :=
  match o with Some a => jm_insert k (f a) m | None => m end.

Definition graph_node_metadata_to_payload (metadata : GraphNodeMetadata) : JsonMap :=
  insert_opt "icon" jv_from_string (nm_icon metadata)
    (insert_opt "label" jv_from_string (nm_label metadata)
       (insert_opt "height" jv_from_u32 (nm_height metadata)
          (insert_opt "width" jv_from_u32 (nm_width metadata)
             (jm_insert "y" (jv_from_i32 (nm_y metadata))
                (jm_insert "x" (jv_from_i32 (nm_x metadata)) jm_new))))).

(** ** Operations *)

Definition new_graph (name description icon : string) : Graph :=
  mk_Graph true (mk_GraphProperties name default_environment description icon) ∅ ∅ [] ∅ [].

Definition ports_as_componentportsarray (ports : gmap string GraphPort) : list ComponentPort :=
  map (fun p => mk_ComponentPort p.1 "" None true false "" [] "") (map_to_list ports).

(** [running] is [runtime.status.running]. *)
Definition clear (payload : GraphClearRequestPayload) (running : bool) : graph_op unit := fun g =>
  if running then (io_err ResourceBusy "network still running", g)
  else (Ok tt,
    mk_Graph (g_case_sensitive g)
      (mk_GraphProperties (clr_name payload) (gp_environment (g_properties g))
         (default "" (clr_description payload)) (default "" (clr_icon payload)))
      ∅ ∅ [] ∅ []).

Definition add_inport (name : string) (portdef : GraphPort) : graph_op unit := fun g =>
  match try_insert name portdef (g_inports g) with
  | (Ok _, m) => (Ok tt, set_inports m g)
  | (Err _, _) => (io_err AlreadyExists "inport with that name already exists", g)
  end.

Definition add_outport (name : string) (portdef : GraphPort) : graph_op unit := fun g =>
  match try_insert name portdef (g_outports g) with
  | (Ok _, m) => (Ok tt, set_outports m g)
  | (Err _, _) => (io_err AlreadyExists "outport with that name already exists", g)
  end.

Definition remove_inport (name : string) : graph_op unit := fun g =>
  match g_inports g !! name with
  | Some _ => (Ok tt, set_inports (delete name (g_inports g)) g)
  | None => (io_err NotFound "inport not found", g)
  end.

Definition remove_outport (name : string) : graph_op unit := fun g =>
  match g_outports g !! name with
  | Some _ => (Ok tt, set_outports (delete name (g_outports g)) g)
  | None => (io_err NotFound "outport not found", g)
  end.

(** The second [try_insert] is followed by [expect]: it may unwind. *)
Definition rename_inport (old new : string) (g : Graph) : outcome (result unit io_error * Graph) :=
  match g_inports g !! new with
  | Some _ => Done (io_err AlreadyExists "inport already exists", g)
  | None =>
      match g_inports g !! old with
      | Some v =>
          match try_insert new v (delete old (g_inports g)) with
          | (Ok _, m) => Done (Ok tt, set_inports m g)
          | (Err _, _) => Panicked
          end
      | None => Done (io_err NotFound "inport not found", g)
      end
  end.

Definition rename_outport (old new : string) (g : Graph) : outcome (result unit io_error * Graph) :=
  match g_outports g !! new with
  | Some _ => Done (io_err AlreadyExists "outport already exists", g)
  | None =>
      match g_outports g !! old with
      | Some v =>
          match try_insert new v (delete old (g_outports g)) with
          | (Ok _, m) => Done (Ok tt, set_outports m g)
          | (Err _, _) => Panicked
          end
      | None => Done (io_err NotFound "outport not found", g)
      end
  end.

Definition wrong_graph {A : Type} (g : Graph) : result A io_error * Graph :=
  (io_err NotFound "wrong graph addressed", g).

Definition add_node (graph component name : string) (metadata : GraphNodeMetadata) :
    graph_op GraphAddnodeResponsePayload := fun g =>
  if negb (String.eqb graph (g_name g)) then wrong_graph g
  else
    let protocol_metadata := graph_node_metadata_to_payload metadata in
    let nodedef := mk_GraphNode component metadata protocol_metadata in
    let ret := mk_GraphAddnodeResponsePayload name component protocol_metadata graph in
    match try_insert name nodedef (g_nodes g) with
    | (Ok _, m) => (Ok ret, set_gnodes m g)
    | (Err _, _) => (io_err AlreadyExists "node with that name already exists", g)
    end.

Definition add_node_from_payload (graph component name : string) (metadata : JsonMap) :
    graph_op GraphAddnodeResponsePayload := fun g =>
  let metadata_parsed := graph_node_metadata_from_payload metadata in
  let normalized_component := rsplit_next "/"%char component in
  match add_node graph normalized_component name metadata_parsed g with
  | (Err e, g1) => (Err e, g1)
  | (Ok response, g1) =>
      let g2 := match g_nodes g1 !! anr_name response with
                | Some node =>
                    set_gnodes (<[anr_name response :=
                      mk_GraphNode (node_component node) (node_metadata node) metadata]> (g_nodes g1)) g1
                | None => g1
                end in
      (Ok (mk_GraphAddnodeResponsePayload (anr_name response) component metadata graph), g2)
  end.

(** Whether the edge has the node at one of its ends. *)
Definition edge_touches (name : string) (e : GraphEdge) : bool :=
  String.eqb (ns_process (edge_source e)) name || String.eqb (ns_process (edge_target e)) name.

Definition removed_edge (graph : string) (e : GraphEdge) : GraphRemoveedgeResponsePayload :=
  mk_GraphRemoveedgeResponsePayload graph (nodespec_to_network (edge_source e))
    (nodespec_to_network (edge_target e)).

(** [edges.retain(..)] with the removed edges pushed along the way. *)
Fixpoint retain_edges (graph name : string) (es : list GraphEdge)
    (removed : list GraphRemoveedgeResponsePayload) :
    list GraphEdge * list GraphRemoveedgeResponsePayload :=
  match es with
  | [] => ([], removed)
  | e :: r =>
      if edge_touches name e then retain_edges graph name r (removed ++ [removed_edge graph e])
      else let '(kept, removed') := retain_edges graph name r removed in (e :: kept, removed')
  end.

Definition remove_node (graph name : string) : graph_op (list GraphRemoveedgeResponsePayload) :=
  fun g =>
  if negb (String.eqb graph (g_name g)) then wrong_graph g
  else match g_nodes g !! name with
       | Some _ =>
           let '(kept, removed_edges) := retain_edges graph name (g_edges g) [] in
           (Ok removed_edges, set_edges kept (set_gnodes (delete name (g_nodes g)) g))
       | None => (io_err NotFound "node not found", g)
       end.

Definition rename_spec (old new : string) (s : GraphNodeSpec) : GraphNodeSpec :=
  if String.eqb (ns_process s) old then mk_GraphNodeSpec new (ns_port s) (ns_index s) else s.

Definition rename_in_edge (old new : string) (e : GraphEdge) : GraphEdge :=
  mk_GraphEdge (rename_spec old new (edge_source e)) (edge_data e)
    (rename_spec old new (edge_target e)) (edge_metadata e).

Definition rename_node (graph old new : string) (g : Graph) :
    outcome (result unit io_error * Graph) :=
  if negb (String.eqb graph (g_name g)) then Done (wrong_graph g)
  else match g_nodes g !! new with
       | Some _ => Done (io_err AlreadyExists "node with that name already exists", g)
       | None =>
           match g_nodes g !! old with
           | Some v =>
               match try_insert new v (delete old (g_nodes g)) with
               | (Ok _, m) =>
                   Done (Ok tt, set_edges (map (rename_in_edge old new) (g_edges g)) (set_gnodes m g))
               | (Err _, _) => Panicked
               end
           | None => Done (io_err NotFound "wtf node not found", g)
           end
       end.

(** One entry of the metadata of [changenode]: [null] deletes the key. *)
Definition change_entry (m : JsonMap) (kv : string * JsonValue) : JsonMap :=
  if jv_is_null kv.2 then jm_remove kv.1 m else jm_insert kv.1 kv.2 m.

(** [if let Some(JsonValue::Number(n)) = m.get(k) { if let Some(z) = n.as_i64() {..} }]. *)
Definition get_i32 (k : string) (m : JsonMap) (old : Z) : Z :=
  match jm_get k m with
  | Some v =>
      match jv_number v with
      | Some n => match as_i64 n with Some z => i32_of_i64 z | None => old end
      | None => old
      end
  | None => old
  end.

Definition change_node (graph name : string) (metadata : JsonMap) : graph_op JsonMap := fun g =>
  if negb (String.eqb graph (g_name g)) then wrong_graph g
  else match g_nodes g !! name with
       | Some node =>
           let pm := fold_left change_entry (jm_iter metadata) (node_protocol_metadata node) in
           let md := node_metadata node in
           let md' := mk_GraphNodeMetadata (get_i32 "x" pm (nm_x md)) (get_i32 "y" pm (nm_y md))
                        (nm_width md) (nm_height md) (nm_label md) (nm_icon md) in
           (Ok pm, set_gnodes (<[name := mk_GraphNode (node_component node) md' pm]> (g_nodes g)) g)
       | None => (io_err NotFound "node by that name not found", g)
       end.

Definition add_edge (graph : string) (edge : GraphEdge) : graph_op unit := fun g =>
  if negb (String.eqb graph (g_name g)) then wrong_graph g
  else (Ok tt, set_edges (g_edges g ++ [edge]) g).

Definition edge_matches (source target : GraphNodeSpecNetwork) (e : GraphEdge) : bool :=
  nodespec_eqb (edge_source e) source && nodespec_eqb (edge_target e) target.

Definition remove_edge (graph : string) (source target : GraphNodeSpecNetwork) : graph_op unit :=
  fun g =>
  if negb (String.eqb graph (g_name g)) then wrong_graph g
  else match remove_first (edge_matches source target) (g_edges g) with
       | Some (_, es) => (Ok tt, set_edges es g)
       | None => (io_err NotFound "edge with that src+tgt not found", g)
       end.

Definition set_edge_metadata (m : GraphEdgeMetadata) (e : GraphEdge) : GraphEdge :=
  mk_GraphEdge (edge_source e) (edge_data e) (edge_target e) m.

Definition change_edge (graph : string) (source target : GraphNodeSpecNetwork)
    (metadata : GraphEdgeMetadata) : graph_op unit := fun g =>
  if negb (String.eqb graph (g_name g)) then wrong_graph g
  else match update_first (edge_matches source target) (set_edge_metadata metadata) (g_edges g) with
       | Some es => (Ok tt, set_edges es g)
       | None => (io_err NotFound "edge with that src+tgt not found", g)
       end.

Definition add_initialip (payload : GraphAddinitialRequestPayload) : graph_op unit := fun g =>
  (Ok tt, set_edges (g_edges g ++ [edge_from_addinitial payload]) g).

Definition iip_matches (payload : GraphRemoveinitialRequestPayload) (e : GraphEdge) : bool :=
  match edge_data e with
  | Some iipdata =>
      match ri_src payload with
      | None => nodespec_eqb (edge_target e) (ri_tgt payload)
      | Some data => String.eqb iipdata data && nodespec_eqb (edge_target e) (ri_tgt payload)
      end
  | None => false
  end.

(** The result carries the data of the removed IIP. *)
Definition remove_initialip (payload : GraphRemoveinitialRequestPayload) : graph_op string := fun g =>
  match remove_first (iip_matches payload) (g_edges g) with
  | Some (e, es) => (Ok (default "" (edge_data e)), set_edges es g)
  | None => (io_err NotFound "edge with that data+tgt not found", g)
  end.

Definition add_group (graph name : string) (nodes : list string) (metadata : GraphGroupMetadata) :
    graph_op unit := fun g =>
  if negb (String.eqb graph (g_name g)) then wrong_graph g
  else (Ok tt, set_groups (g_groups g ++ [mk_GraphGroup name nodes metadata]) g).

Definition group_named (name : string) (gr : GraphGroup) : bool := String.eqb (group_name gr) name.

Definition remove_group (graph name : string) : graph_op unit := fun g =>
  if negb (String.eqb graph (g_name g)) then wrong_graph g
  else match remove_first (group_named name) (g_groups g) with
       | Some (_, grs) => (Ok tt, set_groups grs g)
       | None => (io_err NotFound "group with that name not found", g)
       end.

Definition rename_group (graph old new : string) : graph_op unit := fun g =>
  if negb (String.eqb graph (g_name g)) then wrong_graph g
  else match update_first (group_named old)
               (fun gr => mk_GraphGroup new (group_nodes gr) (group_metadata gr)) (g_groups g) with
       | Some grs => (Ok tt, set_groups grs g)
       | None => (io_err NotFound "group with that name not found", g)
       end.

Definition change_group (graph name : string) (metadata : GraphGroupMetadata) : graph_op unit :=
  fun g =>
  if negb (String.eqb graph (g_name g)) then wrong_graph g
  else match update_first (group_named name)
               (fun gr => mk_GraphGroup (group_name gr) (group_nodes gr) metadata) (g_groups g) with
       | Some grs => (Ok tt, set_groups grs g)
       | None => (io_err NotFound "group with that name not found", g)
       end.

(** [serde_json::to_string] on the graph is an argument. *)
Definition graph_get_source (to_string : Graph -> option string) (name : string) (g : Graph) :
    outcome (result ComponentSourcePayload io_error) :=
  if String.eqb name (g_name g) then
    let* code := expect (to_string g) in
    Done (Ok (mk_ComponentSourcePayload name "json" "" code "// tests for graph here"))
  else Done (io_err NotFound "graph with that name not found").
End graph.

(** * The component library *)

Record ComponentLibrary : Type := mk_ComponentLibrary { available : list ComponentComponentPayload }.

Definition library_get_source (name : string) (lib : ComponentLibrary) :
    result ComponentSourcePayload io_error :=
  match find (fun c => String.eqb (ccp_name c) name) (available lib) with
  | Some _ => Ok (mk_ComponentSourcePayload name "" "" "// code for component here"
                    "// tests for component here")
  | None => io_err NotFound "component not found"
  end.
