(* ===== verification/GraphTheorems.v ===== *)
(** The contract of the graph operations: what each request does to the
    graph, that a refused request leaves it as it was, which requests keep
    every edge attached to existing nodes, and the round trips. *)
From S2P Require Import Prelude Api Graph.
From Stdlib Require Strings.String.
From Stdlib Require Import NArith ZArith Lia Strings.Ascii.
From stdpp Require Import base list strings gmap.
Local Open Scope string_scope.
Local Open Scope list_scope.
Local Open Scope flowd_scope.

(** * All mutating operations as one request type *)
Section requests.
Context `{J : SerdeJson}.

Inductive graph_request : Type :=
| RqClear (p : GraphClearRequestPayload) (running : bool)
| RqAddInport (name : string) (d : GraphPort)
| RqAddOutport (name : string) (d : GraphPort)
| RqRemoveInport (name : string)
| RqRemoveOutport (name : string)
| RqRenameInport (old new : string)
| RqRenameOutport (old new : string)
| RqAddNode (graph component name : string) (metadata : JsonMap)
| RqRemoveNode (graph name : string)
| RqRenameNode (graph old new : string)
| RqChangeNode (graph name : string) (metadata : JsonMap)
| RqAddEdge (graph : string) (e : GraphEdge)
| RqRemoveEdge (graph : string) (src tgt : GraphNodeSpecNetwork)
| RqChangeEdge (graph : string) (src tgt : GraphNodeSpecNetwork) (m : GraphEdgeMetadata)
| RqAddInitial (p : GraphAddinitialRequestPayload)
| RqRemoveInitial (p : GraphRemoveinitialRequestPayload)
| RqAddGroup (graph name : string) (nodes : list string) (m : GraphGroupMetadata)
| RqRemoveGroup (graph name : string)
| RqRenameGroup (graph old new : string)
| RqChangeGroup (graph name : string) (m : GraphGroupMetadata).

(** Forgets the value an operation returns. *)
Definition unit_result {A} (r : result A io_error * Graph) : outcome (result unit io_error * Graph) :=
  Done (match r.1 with Ok _ => Ok tt | Err e => Err e end, r.2).

Definition run_request (rq : graph_request) (g : Graph) : outcome (result unit io_error * Graph) :=
  match rq with
  | RqClear p running => unit_result (clear p running g)
  | RqAddInport n d => unit_result (add_inport n d g)
  | RqAddOutport n d => unit_result (add_outport n d g)
  | RqRemoveInport n => unit_result (remove_inport n g)
  | RqRemoveOutport n => unit_result (remove_outport n g)
  | RqRenameInport old new => rename_inport old new g
  | RqRenameOutport old new => rename_outport old new g
  | RqAddNode gr c n m => unit_result (add_node_from_payload gr c n m g)
  | RqRemoveNode gr n => unit_result (remove_node gr n g)
  | RqRenameNode gr old new => rename_node gr old new g
  | RqChangeNode gr n m => unit_result (change_node gr n m g)
  | RqAddEdge gr e => unit_result (add_edge gr e g)
  | RqRemoveEdge gr s t => unit_result (remove_edge gr s t g)
  | RqChangeEdge gr s t m => unit_result (change_edge gr s t m g)
  | RqAddInitial p => unit_result (add_initialip p g)
  | RqRemoveInitial p => unit_result (remove_initialip p g)
  | RqAddGroup gr n ns m => unit_result (add_group gr n ns m g)
  | RqRemoveGroup gr n => unit_result (remove_group gr n g)
  | RqRenameGroup gr old new => unit_result (rename_group gr old new g)
  | RqChangeGroup gr n m => unit_result (change_group gr n m g)
  end.

(** An edge is attached when its target is a node and its source is one too,
    unless it is an initial packet. *)
Definition edge_attached (g : Graph) (e : GraphEdge) : Prop :=
  (is_Some (edge_data e) \/ is_Some (g_nodes g !! ns_process (edge_source e))) /\
  is_Some (g_nodes g !! ns_process (edge_target e)).

Definition well_connected (g : Graph) : Prop := Forall (edge_attached g) (g_edges g).

(** The edge that a request adds when it is accepted; the operations check
    neither of its ends. *)
Definition added_edge (rq : graph_request) : option GraphEdge :=
  match rq with
  | RqAddEdge _ e => Some e
  | RqAddInitial p => Some (edge_from_addinitial p)
  | _ => None
  end.
End requests.

(** * Lemmas *)
Section lemmas.
Context `{J : SerdeJson}.
Implicit Types (g : Graph).

Lemma try_insert_None {V} k (v : V) m : m !! k = None -> try_insert k v m = (Ok tt, <[k := v]> m).
Proof. unfold try_insert. by intros ->. Qed.

Lemma try_insert_Some {V} k (v w : V) m : m !! k = Some w -> try_insert k v m = (Err tt, m).
Proof. unfold try_insert. by intros ->. Qed.

(** A renaming never meets an occupied key. *)
Lemma rename_insert {V} old new (v : V) (m : gmap string V) :
  m !! new = None -> try_insert new v (delete old m) = (Ok tt, <[new := v]> (delete old m)).
Proof. intros H. apply try_insert_None. by rewrite lookup_delete_None; right. Qed.

Lemma retain_edges_spec graph name es removed :
  retain_edges graph name es removed =
    (filter (fun e => edge_touches name e = false) es,
     removed ++ map (removed_edge graph) (filter (fun e => edge_touches name e = true) es)).
Proof.
  revert removed. induction es as [|e r IH]; intros removed; simpl; [by rewrite app_nil_r|].
  rewrite !filter_cons. destruct (edge_touches name e) eqn:He; simpl.
  - rewrite IH. by rewrite <- app_assoc.
  - by rewrite IH.
Qed.

Lemma nodespec_eqb_spec s o : nodespec_eqb s o = true <-> s = nodespec_from o.
Proof.
  unfold nodespec_eqb. rewrite !andb_true_iff, !String.eqb_eq, bool_decide_eq_true.
  destruct s, o; simpl. split; [by intros [[-> ->] ->]|by intros [= -> -> ->]].
Qed.

Lemma nodespec_network_from s : nodespec_from (nodespec_to_network s) = s.
Proof. by destruct s. Qed.

Lemma edge_matches_spec src tgt e :
  edge_matches src tgt e = true <-> edge_source e = nodespec_from src /\ edge_target e = nodespec_from tgt.
Proof. unfold edge_matches. by rewrite andb_true_iff, !nodespec_eqb_spec. Qed.

Lemma edge_touches_false name e :
  edge_touches name e = false <->
  ns_process (edge_source e) <> name /\ ns_process (edge_target e) <> name.
Proof. unfold edge_touches. by rewrite orb_false_iff, !String.eqb_neq. Qed.

Lemma edge_attached_nodes g g' e :
  (forall n, is_Some (g_nodes g !! n) -> is_Some (g_nodes g' !! n)) ->
  edge_attached g e -> edge_attached g' e.
Proof. unfold edge_attached. naive_solver. Qed.

Lemma well_connected_nodes g g' :
  (forall n, is_Some (g_nodes g !! n) -> is_Some (g_nodes g' !! n)) -> g_edges g' = g_edges g ->
  well_connected g -> well_connected g'.
Proof.
  intros Hn He Hw. unfold well_connected. rewrite He. eapply Forall_impl; [exact Hw|].
  intros e. by apply edge_attached_nodes.
Qed.

Lemma rename_spec_process old new s :
  ns_process (rename_spec old new s) = if String.eqb (ns_process s) old then new else ns_process s.
Proof. unfold rename_spec. by destruct (String.eqb _ _). Qed.

Lemma rename_spec_inv old new s :
  ns_process s <> new -> rename_spec new old (rename_spec old new s) = s.
Proof.
  intros Hs. unfold rename_spec. destruct (String.eqb_spec (ns_process s) old) as [<-|Hne]; simpl.
  - rewrite String.eqb_refl. by destruct s.
  - by rewrite (proj2 (String.eqb_neq _ _) Hs).
Qed.

(** The outcome of [add_node_from_payload] on success. *)
Lemma add_node_from_payload_spec graph c n m g :
  graph = g_name g -> g_nodes g !! n = None ->
  add_node_from_payload graph c n m g =
    (Ok (mk_GraphAddnodeResponsePayload n c m graph),
     set_gnodes (<[n := mk_GraphNode (rsplit_next "/"%char c)
                          (graph_node_metadata_from_payload m) m]> (g_nodes g)) g).
Proof.
  intros -> Hn. unfold add_node_from_payload, add_node. rewrite String.eqb_refl; simpl.
  rewrite try_insert_None by done. simpl. rewrite lookup_insert_eq. simpl.
  unfold set_gnodes; simpl. by rewrite insert_insert_eq.
Qed.

Lemma add_node_from_payload_err graph c n m g :
  graph <> g_name g \/ is_Some (g_nodes g !! n) ->
  exists e, add_node_from_payload graph c n m g = (Err e, g).
Proof.
  intros H. unfold add_node_from_payload, add_node, wrong_graph, io_err.
  destruct (String.eqb_spec graph (g_name g)) as [->|Hg]; simpl; [|eauto].
  destruct H as [|[v Hv]]; [done|]. rewrite (try_insert_Some _ _ v) by done. simpl. eauto.
Qed.

Lemma change_entries_spec l m k :
  NoDup l.*1 ->
  jm_get k (fold_left change_entry l m) =
    match list_find (fun kv => kv.1 = k) l with
    | Some (_, (_, v)) => if jv_is_null v then None else Some v
    | None => jm_get k m
    end.
Proof.
  revert m. induction l as [|[k' v] l IH]; intros m Hnd; [done|].
  apply NoDup_cons in Hnd as [Hk Hnd]. cbn [fold_left]. rewrite (IH _ Hnd). cbn [list_find].
  destruct (decide (k' = k)) as [->|Hne]; cbn [fst].
  - destruct (list_find (fun kv => kv.1 = k) l) as [[i [k2 v2]]|] eqn:Hf; simpl.
    + apply list_find_Some in Hf as (Hi & Heq & _). simpl in Heq. subst k2.
      exfalso. apply Hk. apply list_elem_of_fmap. exists (k, v2). split; [done|].
      by eapply list_elem_of_lookup_2.
    + rewrite decide_True by done. simpl. unfold change_entry; simpl.
      destruct (jv_is_null v); [apply jm_get_remove_eq|apply jm_get_insert_eq].
  - rewrite decide_False by done.
    destruct (list_find (fun kv => kv.1 = k) l) as [[i [k2 v2]]|] eqn:Hf; simpl; [done|].
    unfold change_entry; simpl.
    destruct (jv_is_null v); [by apply jm_get_remove_ne|by apply jm_get_insert_ne].
Qed.
End lemmas.

(** * The contract *)
Section contract.
Context `{J : SerdeJson}.
Implicit Types (g : Graph).

Lemma unit_result_err {A} (r : result A io_error * Graph) g e g' :
  unit_result r = Done (Err e, g') -> (forall e', r.1 = Err e' -> r.2 = g) -> g' = g.
Proof. unfold unit_result. destruct r as [[a|e'] g0]; simpl; intros Heq H; simplify_eq. by apply (H e). Qed.

Lemma run_request_total rq g : exists r, run_request rq g = Done r.
Proof.
  destruct rq; simpl; try by eexists.
  - unfold rename_inport. destruct (g_inports g !! new) eqn:Hn; [by eexists|].
    destruct (g_inports g !! old) as [v|]; [rewrite (rename_insert _ _ _ _ Hn)|]; by eexists.
  - unfold rename_outport. destruct (g_outports g !! new) eqn:Hn; [by eexists|].
    destruct (g_outports g !! old) as [v|]; [rewrite (rename_insert _ _ _ _ Hn)|]; by eexists.
  - unfold rename_node. destruct (negb _); [by eexists|]. destruct (g_nodes g !! new) eqn:Hn; [by eexists|].
    destruct (g_nodes g !! old) as [v|]; [rewrite (rename_insert _ _ _ _ Hn)|]; by eexists.
Qed.

(** C17: no request makes a graph operation unwind (the [expect]s of the
    renames never fail), and a request that is refused leaves the graph
    exactly as it was. *)
Theorem requests_are_atomic rq g :
  exists r g', run_request rq g = Done (r, g') /\ (is_err r = true -> g' = g).
Proof.
  destruct (run_request_total rq g) as [[r g'] H]. exists r, g'. split; [done|].
  destruct r as [|e]; [done|]. intros _. revert H.
  destruct rq; simpl;
    try (intros H; eapply unit_result_err; [exact H|]; clear H; intros e').
  - unfold clear. by destruct running.
  - unfold add_inport, try_insert. by destruct (g_inports g !! name).
  - unfold add_outport, try_insert. by destruct (g_outports g !! name).
  - unfold remove_inport. by destruct (g_inports g !! name).
  - unfold remove_outport. by destruct (g_outports g !! name).
  - unfold rename_inport, try_insert, io_err. repeat case_match; by intros [=].
  - unfold rename_outport, try_insert, io_err. repeat case_match; by intros [=].
  - unfold add_node_from_payload, add_node, try_insert, wrong_graph.
    destruct (negb _); [done|]. destruct (g_nodes g !! name); [done|]. simpl.
    by rewrite lookup_insert_eq.
  - unfold remove_node, wrong_graph. destruct (negb _); [done|].
    destruct (g_nodes g !! name); [|done]. by destruct (retain_edges _ _ _ _).
  - unfold rename_node, try_insert, wrong_graph, io_err. repeat case_match; by intros [=].
  - unfold change_node, wrong_graph. destruct (negb _); [done|]. by destruct (g_nodes g !! name).
  - unfold add_edge, wrong_graph. by destruct (negb _).
  - unfold remove_edge, wrong_graph. destruct (negb _); [done|]. by destruct (remove_first _ _) as [[]|].
  - unfold change_edge, wrong_graph. destruct (negb _); [done|]. by destruct (update_first _ _ _).
  - done.
  - unfold remove_initialip. by destruct (remove_first _ _) as [[]|].
  - unfold add_group, wrong_graph. by destruct (negb _).
  - unfold remove_group, wrong_graph. destruct (negb _); [done|]. by destruct (remove_first _ _) as [[]|].
  - unfold rename_group, wrong_graph. destruct (negb _); [done|]. by destruct (update_first _ _ _).
  - unfold change_group, wrong_graph. destruct (negb _); [done|]. by destruct (update_first _ _ _).
Qed.

Lemma name_set_edges es g : g_name (set_edges es g) = g_name g.
Proof. done. Qed.

Lemma name_set_gnodes m g : g_name (set_gnodes m g) = g_name g.
Proof. done. Qed.

Lemma well_connected_edges g es :
  (forall e, e ∈ es -> exists e0, e0 ∈ g_edges g /\ edge_source e = edge_source e0 /\
     edge_target e = edge_target e0 /\ edge_data e = edge_data e0) ->
  well_connected g -> well_connected (set_edges es g).
Proof.
  unfold well_connected. rewrite !Forall_forall. intros Hes Hw e He. simpl in He.
  destruct (Hes e He) as (e0 & He0 & Hs & Ht & Hd). specialize (Hw e0 He0).
  unfold edge_attached in *. simpl. by rewrite Hs, Ht, Hd.
Qed.

Lemma well_connected_remove p es g e :
  remove_first p (g_edges g) = Some (e, es) -> well_connected g -> well_connected (set_edges es g).
Proof.
  intros (l1 & l2 & Hg & -> & _)%remove_first_Some. apply well_connected_edges.
  intros x Hx. exists x. rewrite Hg. set_solver.
Qed.

Lemma well_connected_update p m es g :
  update_first p (set_edge_metadata m) (g_edges g) = Some es ->
  well_connected g -> well_connected (set_edges es g).
Proof.
  intros (l1 & x & l2 & Hg & -> & _)%update_first_Some. apply well_connected_edges.
  intros y [Hy|[->|Hy]%elem_of_cons]%elem_of_app.
  - exists y. rewrite Hg. set_solver.
  - exists x. rewrite Hg. set_solver.
  - exists y. rewrite Hg. set_solver.
Qed.

Lemma well_connected_push e g :
  edge_attached g e -> well_connected g -> well_connected (set_edges (g_edges g ++ [e]) g).
Proof.
  unfold well_connected. simpl. intros He Hw. apply Forall_app. by split; [|constructor].
Qed.

Lemma well_connected_remove_node graph name v g :
  g_nodes g !! name = Some v -> well_connected g -> well_connected (remove_node graph name g).2.
Proof.
  intros Hn Hw. unfold remove_node. destruct (negb _); [done|]. rewrite Hn, retain_edges_spec. simpl.
  unfold well_connected in *. simpl. rewrite Forall_forall in *.
  intros e [[Hs Ht]%edge_touches_false He]%list_elem_of_filter.
  specialize (Hw e He). unfold edge_attached in *. simpl.
  by rewrite !lookup_delete_ne by done.
Qed.

Lemma well_connected_rename_node old new v g :
  g_nodes g !! new = None -> g_nodes g !! old = Some v -> well_connected g ->
  well_connected (set_edges (map (rename_in_edge old new) (g_edges g))
    (set_gnodes (<[new := v]> (delete old (g_nodes g))) g)).
Proof.
  intros Hnew Hold Hw. unfold well_connected in *. simpl.
  apply List.Forall_map. eapply Forall_impl; [exact Hw|].
  intros e. unfold edge_attached; simpl. rewrite !rename_spec_process.
  assert (forall x, is_Some (g_nodes g !! x) ->
    is_Some (<[new := v]> (delete old (g_nodes g)) !! (if String.eqb x old then new else x))) as Hx.
  { intros x [u Hx]. destruct (String.eqb_spec x old) as [->|Hne].
    - by rewrite lookup_insert_eq.
    - rewrite lookup_insert_ne by congruence. rewrite lookup_delete_ne by done. eauto. }
  naive_solver.
Qed.

(** A request that adds no edge keeps every edge attached. *)
Lemma others_keep_well_connected rq g r g' :
  run_request rq g = Done (r, g') -> added_edge rq = None -> well_connected g -> well_connected g'.
Proof.
  destruct rq; cbn [run_request added_edge]; intros H Ha Hw; try done;
    unfold unit_result in H; try (injection H as _ <-).
  - unfold clear. destruct running; [done|constructor].
  - unfold add_inport, try_insert. by destruct (g_inports g !! name).
  - unfold add_outport, try_insert. by destruct (g_outports g !! name).
  - unfold remove_inport. by destruct (g_inports g !! name).
  - unfold remove_outport. by destruct (g_outports g !! name).
  - unfold rename_inport, try_insert in H. by repeat case_match; simplify_eq.
  - unfold rename_outport, try_insert in H. by repeat case_match; simplify_eq.
  - destruct (decide (graph = g_name g)) as [Hg|Hg], (g_nodes g !! name) eqn:Hn;
      try (destruct (add_node_from_payload_err graph component name metadata g) as [e ->];
           [naive_solver|done]).
    rewrite add_node_from_payload_spec by done. apply (well_connected_nodes g); [|done|exact Hw].
    simpl. intros n Hs. rewrite lookup_insert. destruct (decide _); [by eexists|done].
  - destruct (g_nodes g !! name) as [v|] eqn:Hn; [by eapply well_connected_remove_node|].
    unfold remove_node. rewrite Hn. by destruct (negb _).
  - unfold rename_node in H. destruct (negb _); [by simplify_eq|].
    destruct (g_nodes g !! new) eqn:Hnew; [by simplify_eq|].
    destruct (g_nodes g !! old) as [v|] eqn:Hold; [|by simplify_eq].
    rewrite (rename_insert _ _ _ _ Hnew) in H. simplify_eq. by eapply well_connected_rename_node.
  - unfold change_node. destruct (negb _); [done|]. destruct (g_nodes g !! name) eqn:Hn; [|done].
    apply (well_connected_nodes g); [|done|exact Hw].
    simpl. intros n Hs. rewrite lookup_insert. destruct (decide _); [by eexists|done].
  - unfold remove_edge. destruct (negb _); [done|].
    destruct (remove_first _ _) as [[]|] eqn:Hr; [by eapply well_connected_remove|done].
  - unfold change_edge. destruct (negb _); [done|].
    destruct (update_first _ _ _) eqn:Hr; [by eapply well_connected_update|done].
  - unfold remove_initialip.
    destruct (remove_first _ _) as [[]|] eqn:Hr; [by eapply well_connected_remove|done].
  - unfold add_group. by destruct (negb _).
  - unfold remove_group. destruct (negb _); [done|]. by destruct (remove_first _ _) as [[]|].
  - unfold rename_group. destruct (negb _); [done|]. by destruct (update_first _ _ _).
  - unfold change_group. destruct (negb _); [done|]. by destruct (update_first _ _ _).
Qed.

(** Pushing an edge keeps the graph well connected exactly when that edge is
    attached. *)
Lemma well_connected_pushed e g :
  well_connected g -> well_connected (set_edges (g_edges g ++ [e]) g) <-> edge_attached g e.
Proof.
  intros Hw. split; [|by intros; apply well_connected_push].
  unfold well_connected. simpl. rewrite Forall_app, Forall_singleton. by intros [_ ?].
Qed.

(** C10: along every request, accepted or refused, the edges of a graph stay
    attached to existing nodes (initial packets to an existing target), except
    in one case, and then always: an accepted addedge or addinitial whose edge
    names a node that does not exist, which neither operation checks. *)
Theorem requests_keep_well_connected rq g r g' :
  run_request rq g = Done (r, g') -> well_connected g ->
  well_connected g' <-> forall e, added_edge rq = Some e -> is_err r = false -> edge_attached g e.
Proof.
  intros H Hw. destruct (added_edge rq) as [e|] eqn:Ha.
  - assert (well_connected g' <-> (is_err r = false -> edge_attached g e)) as ->; [|naive_solver].
    destruct rq; simplify_eq/=; unfold unit_result in H.
    + unfold add_edge in H. destruct (negb _); simplify_eq/=; [by split; [|intros _]|].
      rewrite well_connected_pushed by done. naive_solver.
    + unfold add_initialip in H. simplify_eq/=. rewrite well_connected_pushed by done. naive_solver.
  - split; [done|]. intros _. by eapply others_keep_well_connected.
Qed.

(** Removing a node removes exactly the edges at it, returns them in
    their order, and leaves the other edges in their order and everything
    else as it was. *)
Theorem remove_node_spec name v g :
  g_nodes g !! name = Some v ->
  exists g', remove_node (g_name g) name g =
      (Ok (map (removed_edge (g_name g)) (filter (fun e => edge_touches name e = true) (g_edges g))), g') /\
    g_nodes g' = delete name (g_nodes g) /\
    g_edges g' = filter (fun e => edge_touches name e = false) (g_edges g) /\
    Forall (fun e => ns_process (edge_source e) <> name /\ ns_process (edge_target e) <> name) (g_edges g') /\
    g_properties g' = g_properties g /\ g_inports g' = g_inports g /\
    g_outports g' = g_outports g /\ g_groups g' = g_groups g.
Proof.
  intros Hn. eexists. unfold remove_node. rewrite String.eqb_refl, Hn, retain_edges_spec. simpl.
  split_and!; try done. apply Forall_forall. intros e [He _]%list_elem_of_filter.
  by apply edge_touches_false.
Qed.

(** Renaming a node to an unused name renames it at every end of every
    edge, and renaming it back restores the graph, provided no (dangling)
    edge mentioned the new name before. *)
Theorem rename_node_roundtrip old new v g :
  g_nodes g !! old = Some v -> g_nodes g !! new = None ->
  Forall (fun e => ns_process (edge_source e) <> new /\ ns_process (edge_target e) <> new) (g_edges g) ->
  exists g', rename_node (g_name g) old new g = Done (Ok tt, g') /\
    g_nodes g' = <[new := v]> (delete old (g_nodes g)) /\
    Forall (fun e => edge_touches old e = false) (g_edges g') /\
    rename_node (g_name g) new old g' = Done (Ok tt, g).
Proof.
  intros Hold Hnew Hes. assert (old <> new) as Hne by congruence.
  unfold rename_node at 1. rewrite String.eqb_refl, Hnew, Hold, (rename_insert _ _ _ _ Hnew).
  eexists. split; [done|]. split; [done|]. split.
  - simpl. apply List.Forall_map. apply Forall_true. intros e.
    apply edge_touches_false. simpl. rewrite !rename_spec_process.
    split; case_match eqn:Hs; try done; by apply String.eqb_neq.
  - unfold rename_node. rewrite name_set_edges, name_set_gnodes, String.eqb_refl.
    simpl. rewrite lookup_insert_ne, lookup_delete_eq, lookup_insert_eq by done.
    rewrite rename_insert by (rewrite lookup_insert_ne by done; apply lookup_delete_eq).
    rewrite delete_insert_id by (by rewrite lookup_delete_ne by congruence).
    rewrite insert_delete_id by done. f_equal. f_equal.
    assert (map (rename_in_edge new old) (map (rename_in_edge old new) (g_edges g)) = g_edges g) as Hmap.
    { rewrite List.map_map. induction Hes as [|e es [Hs Ht] _ IH]; simpl; [done|]. f_equal; [|done].
      unfold rename_in_edge; simpl. rewrite !rename_spec_inv by done. by destruct e. }
    unfold set_edges, set_gnodes; simpl. rewrite Hmap. by destruct g.
Qed.

Lemma remove_first_last {A} (p : A -> bool) l x :
  Forall (fun y => p y = false) l -> p x = true -> remove_first p (l ++ [x]) = Some (x, l).
Proof.
  intros Hl Hx. apply remove_first_Some. exists l, []. by rewrite app_nil_r.
Qed.

(** [remove_edge] removes the first edge between the two ports and no
    other; when there is none it reports NotFound.  Hence an edge added by
    [add_edge] between ports that were not connected is removed again by
    [remove_edge], restoring the graph. *)
Theorem remove_edge_spec src tgt g :
  match remove_edge (g_name g) src tgt g with
  | (Ok _, g') => exists l1 e l2, g_edges g = l1 ++ e :: l2 /\ g' = set_edges (l1 ++ l2) g /\
      edge_source e = nodespec_from src /\ edge_target e = nodespec_from tgt /\
      Forall (fun e => edge_matches src tgt e = false) l1
  | (Err e, g') => err_kind e = NotFound /\ g' = g /\
      Forall (fun e => edge_matches src tgt e = false) (g_edges g)
  end /\
  (forall d m, Forall (fun e => edge_matches src tgt e = false) (g_edges g) ->
    remove_edge (g_name g) src tgt
      (add_edge (g_name g) (mk_GraphEdge (nodespec_from src) d (nodespec_from tgt) m) g).2 = (Ok tt, g)).
Proof.
  split.
  - unfold remove_edge. rewrite String.eqb_refl. simpl.
    destruct (remove_first _ _) as [[e es]|] eqn:Hr.
    + apply remove_first_Some in Hr as (l1 & l2 & Hl & -> & [Hs Ht]%edge_matches_spec & Hno).
      exists l1, e, l2. by split_and!.
    + apply remove_first_None in Hr. by split_and!.
  - intros d m Hno. unfold add_edge. rewrite String.eqb_refl. simpl. unfold remove_edge.
    rewrite name_set_edges, String.eqb_refl. simpl. rewrite remove_first_last; [|done|].
    + unfold set_edges; simpl. by destruct g.
    + by apply edge_matches_spec.
Qed.

(** An initial packet with data, added to a graph that has none with
    this data at this port, is taken out again by [removeinitial], which
    returns its data; one with empty data is recorded as an ordinary edge
    with an empty source, which [removeinitial] never finds. *)
Theorem initialip_roundtrip p rp g :
  ri_tgt rp = ai_tgt p -> ri_src rp = Some (ai_src p) ->
  Forall (fun e => iip_matches rp e = false) (g_edges g) ->
  remove_initialip rp (add_initialip p g).2 =
    if (0 <? String.length (ai_src p))%nat then (Ok (ai_src p), g)
    else (io_err NotFound "edge with that data+tgt not found", (add_initialip p g).2).
Proof.
  intros Ht Hs Hno. unfold remove_initialip. simpl.
  destruct (0 <? String.length (ai_src p))%nat eqn:Hlen.
  - rewrite remove_first_last; [|done|].
    + unfold edge_from_addinitial. rewrite Hlen. simpl. unfold set_edges; simpl. by destruct g.
    + unfold iip_matches, edge_from_addinitial. rewrite Hlen, Hs. simpl.
      rewrite String.eqb_refl. simpl. apply nodespec_eqb_spec. by rewrite Ht.
  - rewrite (proj2 (remove_first_None _ _)); [done|]. apply Forall_app. split; [done|].
    constructor; [|constructor]. unfold iip_matches, edge_from_addinitial. by rewrite Hlen.
Qed.

(** [addnode] on the addressed graph with an unused name creates a node
    whose component is the last path segment of the requested component,
    with the metadata the request carries, echoes the request, and leaves
    the rest alone; otherwise it is refused. *)
Theorem addnode_spec graph c n m g :
  (graph = g_name g -> g_nodes g !! n = None -> exists node g',
     add_node_from_payload graph c n m g = (Ok (mk_GraphAddnodeResponsePayload n c m graph), g') /\
     g' = set_gnodes (<[n := node]> (g_nodes g)) g /\
     string_has "/"%char (node_component node) = false /\
     (string_has "/"%char c = false -> node_component node = c) /\
     node_protocol_metadata node = m /\
     node_metadata node = graph_node_metadata_from_payload m) /\
  (graph <> g_name g \/ is_Some (g_nodes g !! n) ->
     exists e, add_node_from_payload graph c n m g = (Err e, g)).
Proof.
  split; [|apply add_node_from_payload_err]. intros Hg Hn.
  rewrite add_node_from_payload_spec by done. eexists _, _. split; [done|]. split; [done|]. simpl.
  split_and!; [apply rsplit_next_no_sep|apply rsplit_next_id|done..].
Qed.

(** [changenode] merges metadata: a key the request sets to null is
    deleted, any other key it carries is overwritten, the rest stays; but of
    the typed metadata, the part of a node that is persisted, only the
    coordinates follow. *)
Theorem changenode_spec n node m g :
  g_nodes g !! n = Some node ->
  exists pm node', change_node (g_name g) n m g =
      (Ok pm, set_gnodes (<[n := node']> (g_nodes g)) g) /\
    node_protocol_metadata node' = pm /\ node_component node' = node_component node /\
    (forall k, jm_get k pm =
       match jm_get k m with
       | Some v => if jv_is_null v then None else Some v
       | None => jm_get k (node_protocol_metadata node)
       end) /\
    nm_x (node_metadata node') = get_i32 "x" pm (nm_x (node_metadata node)) /\
    nm_y (node_metadata node') = get_i32 "y" pm (nm_y (node_metadata node)) /\
    nm_label (node_metadata node') = nm_label (node_metadata node) /\
    nm_icon (node_metadata node') = nm_icon (node_metadata node) /\
    nm_width (node_metadata node') = nm_width (node_metadata node) /\
    nm_height (node_metadata node') = nm_height (node_metadata node).
Proof.
  intros Hn. unfold change_node. rewrite String.eqb_refl, Hn. simpl.
  eexists _, _. split; [done|]. simpl. split_and!; try done. intros k.
  rewrite change_entries_spec by apply jm_iter_nodup.
  destruct (jm_get k m) as [v|] eqn:Hk.
  - apply jm_iter_get in Hk. pose proof (jm_iter_nodup m) as Hnd.
    destruct (list_find (fun kv => kv.1 = k) (jm_iter m)) as [[i [k' v']]|] eqn:Hf.
    + apply list_find_Some in Hf as (Hi & Heq & _). simpl in Heq. subst k'.
      apply list_elem_of_lookup_2 in Hi.
      rewrite jm_iter_get in Hi, Hk. by simplify_eq.
    + apply list_find_None in Hf. rewrite Forall_forall in Hf. by destruct (Hf _ Hk).
  - destruct (list_find (fun kv => kv.1 = k) (jm_iter m)) as [[i [k' v']]|] eqn:Hf; [|done].
    apply list_find_Some in Hf as (Hi & Heq & _). simpl in Heq. subst k'.
    apply list_elem_of_lookup_2, jm_iter_get in Hi. congruence.
Qed.

Lemma to_payload_get md :
  jm_get "x" (graph_node_metadata_to_payload md) = Some (jv_from_i32 (nm_x md)) /\
  jm_get "y" (graph_node_metadata_to_payload md) = Some (jv_from_i32 (nm_y md)) /\
  jm_get "width" (graph_node_metadata_to_payload md) = jv_from_u32 <$> nm_width md /\
  jm_get "height" (graph_node_metadata_to_payload md) = jv_from_u32 <$> nm_height md /\
  jm_get "label" (graph_node_metadata_to_payload md) = jv_from_string <$> nm_label md /\
  jm_get "icon" (graph_node_metadata_to_payload md) = jv_from_string <$> nm_icon md.
Proof.
  unfold graph_node_metadata_to_payload, insert_opt.
  destruct md as [x y [w|] [h|] [l|] [i|]]; simpl;
    split_and!; repeat first [rewrite jm_get_insert_eq; reflexivity
                             |rewrite jm_get_insert_ne by done|apply jm_get_new].
Qed.

(** Writing node metadata as JSON and reading it back gives it back,
    except that an absent width or height comes back as the default 72. *)
Theorem node_metadata_roundtrip md :
  (-2147483648 <= nm_x md < 2147483648)%Z -> (-2147483648 <= nm_y md < 2147483648)%Z ->
  (forall w, nm_width md = Some w -> (w < u32_modulus)%N) ->
  (forall h, nm_height md = Some h -> (h < u32_modulus)%N) ->
  graph_node_metadata_from_payload (graph_node_metadata_to_payload md) =
    mk_GraphNodeMetadata (nm_x md) (nm_y md)
      (Some (default NODE_WIDTH_DEFAULT (nm_width md)))
      (Some (default NODE_HEIGHT_DEFAULT (nm_height md))) (nm_label md) (nm_icon md).
Proof.
  intros Hx Hy Hw Hh. destruct (to_payload_get md) as (Gx & Gy & Gw & Gh & Gl & Gi).
  unfold graph_node_metadata_from_payload. rewrite Gx, Gy, Gw, Gh, Gl, Gi.
  destruct (jv_number_i32 _ Hx) as (nx & -> & ->), (jv_number_i32 _ Hy) as (ny & -> & ->).
  rewrite !i32_of_i64_id by done.
  assert (forall w d, (w < u32_modulus)%N ->
    match jv_number (jv_from_u32 w) with
    | Some n => u32_of_u64 <$> as_u64 n | None => d end = Some w) as Hu.
  { intros w d Hlt. destruct (jv_number_u32 w Hlt) as (n & -> & ->). simpl. f_equal.
    by apply N.mod_small. }
  f_equal.
  - destruct (nm_width md) as [w|]; simpl; [by apply Hu, Hw|done].
  - destruct (nm_height md) as [h|]; simpl; [by apply Hu, Hh|done].
  - destruct (nm_label md); simpl; [by rewrite jv_string_string|done].
  - destruct (nm_icon md); simpl; [by rewrite jv_string_string|done].
Qed.
End contract.

(** * Concrete instances *)

#[local] Existing Instance gmap_serde_json.

Definition demo_spec (n p : string) : GraphNodeSpecNetwork := mk_GraphNodeSpecNetwork n p None.
Definition demo_edge (n p n' p' : string) : GraphEdge :=
  mk_GraphEdge (nodespec_from (demo_spec n p)) None (nodespec_from (demo_spec n' p')) default_edge_metadata.
Definition demo_node (c : string) : GraphNode := mk_GraphNode c default_node_metadata jm_new.

(** [a -> b -> c], and an edge from [a] to [c]. *)
Definition demo_graph : Graph :=
  set_edges [demo_edge "a" "OUT" "b" "IN"; demo_edge "a" "OUT" "c" "IN"; demo_edge "b" "OUT" "c" "IN"]
    (set_gnodes {["a" := demo_node "Repeat"; "b" := demo_node "Repeat"; "c" := demo_node "Drop"]}
      (new_graph "main" "" "")).

Lemma demo_graph_connected : well_connected demo_graph.
Proof. repeat constructor; try (right; by eexists); by eexists. Qed.

Lemma requests_are_atomic_witness :
  exists r g', run_request (RqRemoveNode "main" "zz") demo_graph = Done (r, g') /\
    is_err r = true /\ g' = demo_graph.
Proof.
  destruct (requests_are_atomic (RqRemoveNode "main" "zz") demo_graph) as (r & g' & H & Hr).
  exists r, g'. split; [exact H|]. assert (is_err r = true) as He.
  { injection H as <- _. reflexivity. }
  split; [exact He|exact (Hr He)].
Defined.

Lemma requests_keep_well_connected_witness :
  (exists g', run_request (RqRenameNode "main" "b" "d") demo_graph = Done (Ok tt, g') /\ well_connected g') /\
  (exists g', run_request (RqAddEdge "main" (demo_edge "a" "OUT" "zz" "IN")) demo_graph = Done (Ok tt, g') /\
     (well_connected g' -> False)).
Proof.
  split; eexists; (split; [reflexivity|]).
  - apply (proj2 (requests_keep_well_connected (RqRenameNode "main" "b" "d") demo_graph _ _ eq_refl
      demo_graph_connected)). discriminate.
  - intros Hw. destruct (proj1 (requests_keep_well_connected
      (RqAddEdge "main" (demo_edge "a" "OUT" "zz" "IN")) demo_graph _ _ eq_refl demo_graph_connected) Hw
      _ eq_refl eq_refl) as [_ [v Hv]]. discriminate Hv.
Defined.

Lemma remove_node_spec_witness :
  exists g', remove_node "main" "b" demo_graph =
    (Ok [mk_GraphRemoveedgeResponsePayload "main" (demo_spec "a" "OUT") (demo_spec "b" "IN");
         mk_GraphRemoveedgeResponsePayload "main" (demo_spec "b" "OUT") (demo_spec "c" "IN")], g') /\
    g_edges g' = [demo_edge "a" "OUT" "c" "IN"].
Proof.
  destruct (remove_node_spec "b" (demo_node "Repeat") demo_graph eq_refl) as (g' & H & _ & He & _).
  exists g'. split; [exact H|exact He].
Defined.

Lemma rename_node_roundtrip_witness :
  exists g', rename_node "main" "b" "d" demo_graph = Done (Ok tt, g') /\
    rename_node "main" "d" "b" g' = Done (Ok tt, demo_graph).
Proof.
  destruct (rename_node_roundtrip "b" "d" (demo_node "Repeat") demo_graph eq_refl eq_refl)
    as (g' & H & _ & _ & H').
  - repeat constructor; discriminate.
  - exists g'. split; [exact H|exact H'].
Defined.

Lemma remove_edge_spec_witness :
  remove_edge "main" (demo_spec "c" "OUT") (demo_spec "a" "IN")
    (add_edge "main" (demo_edge "c" "OUT" "a" "IN") demo_graph).2 = (Ok tt, demo_graph).
Proof.
  apply (proj2 (remove_edge_spec (demo_spec "c" "OUT") (demo_spec "a" "IN") demo_graph)).
  repeat constructor.
Defined.

Definition demo_iip (data : string) : GraphAddinitialRequestPayload :=
  mk_GraphAddinitialRequestPayload "main" default_edge_metadata data (demo_spec "a" "IN") None.
Definition demo_uniip (data : string) : GraphRemoveinitialRequestPayload :=
  mk_GraphRemoveinitialRequestPayload "main" (Some data) (demo_spec "a" "IN") None.

Lemma initialip_roundtrip_witness :
  remove_initialip (demo_uniip "x") (add_initialip (demo_iip "x") demo_graph).2 = (Ok "x", demo_graph) /\
  is_err (remove_initialip (demo_uniip "") (add_initialip (demo_iip "") demo_graph).2).1 = true.
Proof.
  split.
  - apply (initialip_roundtrip (demo_iip "x") (demo_uniip "x") demo_graph eq_refl eq_refl). repeat constructor.
  - rewrite (initialip_roundtrip (demo_iip "") (demo_uniip "") demo_graph eq_refl eq_refl);
      [reflexivity|repeat constructor].
Defined.

Lemma addnode_spec_witness :
  exists node g', add_node_from_payload "main" "core/Repeat" "d" jm_new demo_graph =
    (Ok (mk_GraphAddnodeResponsePayload "d" "core/Repeat" jm_new "main"), g') /\
    g' = set_gnodes (<["d" := node]> (g_nodes demo_graph)) demo_graph.
Proof.
  destruct (proj1 (addnode_spec "main" "core/Repeat" "d" jm_new demo_graph) eq_refl eq_refl)
    as (node & g' & H & Hg & _).
  exists node, g'. split; [exact H|exact Hg].
Defined.

Lemma changenode_spec_witness :
  exists pm g', change_node "main" "a" (jm_insert "label" (jv_from_string "start") jm_new) demo_graph = (Ok pm, g') /\
    jm_get "label" pm = Some (jv_from_string "start").
Proof.
  destruct (changenode_spec "a" (demo_node "Repeat") (jm_insert "label" (jv_from_string "start") jm_new)
              demo_graph eq_refl) as (pm & node & H & _ & _ & Hk & _).
  eexists pm, _. split; [exact H|]. rewrite (Hk "label"). reflexivity.
Defined.

Lemma node_metadata_roundtrip_witness :
  graph_node_metadata_from_payload (graph_node_metadata_to_payload
    (mk_GraphNodeMetadata 36 (-72) None (Some 100%N) (Some "x") None)) =
  mk_GraphNodeMetadata 36 (-72) (Some 72%N) (Some 100%N) (Some "x") None.
Proof.
  apply (node_metadata_roundtrip (mk_GraphNodeMetadata 36 (-72) None (Some 100%N) (Some "x") None)).
  - simpl. lia.
  - simpl. lia.
  - discriminate.
  - intros h Hh. injection Hh as <-. reflexivity.
Defined.
