(* ===== verification/Runtime.v ===== *)
(** The multi-graph manager, [src/multi_graph.rs], and the runtime object of
    [src/runtime.rs]: status, secrets, debug edges, tracing, the default graph
    and the persistence of the graph set.

    An [Arc<RwLock<Graph>>] is a location in a store of graphs, so that the
    manager and the connection handlers share graphs as the code does.  The
    file system and serde_json's text and value formats are arguments. *)
From S2P Require Import Prelude Api Graph.
From Stdlib Require Strings.String.
From Stdlib Require Import NArith ZArith Lia.
From stdpp Require Import base list strings gmap.
Local Open Scope string_scope.
Local Open Scope list_scope.
Local Open Scope flowd_scope.

Abbreviation graph_loc := (positive) (only parsing).

(** * MultiGraphManager *)

Record MultiGraphManager : Type := mk_MultiGraphManager {
  mg_graphs : gmap string graph_loc;
  mg_active_graph : string
}.

Definition new_manager : MultiGraphManager := mk_MultiGraphManager ∅ "main_graph".

Definition get_graph (graph_id : string) (m : MultiGraphManager) : option graph_loc :=
  mg_graphs m !! graph_id.

Definition get_active_graph (m : MultiGraphManager) : option graph_loc :=
  get_graph (mg_active_graph m) m.

Definition not_found_message (graph_id : string) : string :=
  "Graph '" +:+ graph_id +:+ "' not found".

Definition set_active_graph (graph_id : string) (m : MultiGraphManager) :
    result unit io_error * MultiGraphManager :=
  match mg_graphs m !! graph_id with
  | Some _ => (Ok tt, mk_MultiGraphManager (mg_graphs m) graph_id)
  | None => (io_err NotFound (not_found_message graph_id), m)
  end.

Definition add_graph (graph_id : string) (graph : graph_loc) (m : MultiGraphManager) :
    MultiGraphManager :=
  mk_MultiGraphManager (<[graph_id := graph]> (mg_graphs m)) (mg_active_graph m).

Definition remove_graph (graph_id : string) (m : MultiGraphManager) :
    option graph_loc * MultiGraphManager :=
  (mg_graphs m !! graph_id, mk_MultiGraphManager (delete graph_id (mg_graphs m)) (mg_active_graph m)).

Definition list_graphs (m : MultiGraphManager) : list string := (map_to_list (mg_graphs m)).*1.

(** * Runtime *)

Inductive AccessLevel : Type := ReadOnly | ReadWrite.

#[export] Instance AccessLevel_eq_dec : EqDecision AccessLevel.
Proof. solve_decision. Defined.

Inductive Capability : Type :=
| ProtocolNetwork | NetworkPersist | NetworkStatus | NetworkData | NetworkControl
| ProtocolComponent | ComponentGetsource | ComponentSetsource
| ProtocolRuntime | GraphReadonly | ProtocolGraph | ProtocolTrace.

#[export] Instance Capability_eq_dec : EqDecision Capability.
Proof. solve_decision. Defined.

Record RuntimeRuntimePayload : Type := mk_RuntimeRuntimePayload {
  rp_id : string;
  rp_label : string;
  rp_version : string;
  rp_all_capabilities : list Capability;
  rp_capabilities : list Capability;
  rp_graph : string;
  rp_runtime : string;
  rp_namespace : string;
  rp_repository : string;
  rp_repository_version : string
}.

Definition default_capabilities : list Capability :=
  [ProtocolNetwork; NetworkPersist; NetworkStatus; NetworkData; NetworkControl;
   ProtocolComponent; ComponentGetsource; ComponentSetsource; ProtocolRuntime;
   ProtocolGraph; ProtocolTrace].

Definition default_runtime_payload : RuntimeRuntimePayload :=
  mk_RuntimeRuntimePayload "f18a4924-9d4f-414d-a37c-deadbeef0000"
    "human-readable description of the runtime" "0.7"
    [ProtocolNetwork; NetworkPersist; NetworkStatus; NetworkData; NetworkControl;
     ProtocolComponent; ComponentGetsource; ComponentSetsource; ProtocolRuntime;
     ProtocolGraph; GraphReadonly; ProtocolTrace]
    default_capabilities "default_graph" "flowd" "main"
    "https://github.com/ERnsTL/flowd.git" "0.0.1-ffffffff".

(** [chrono::DateTime] as nanoseconds; [MIN_UTC] is zero. *)
Record RuntimeStatus : Type := mk_RuntimeStatus {
  st_time_started : N;
  st_graph : string;
  st_started : bool;
  st_running : bool;
  st_debug : option bool
}.

Record GraphEdgeSpec : Type := mk_GraphEdgeSpec {
  es_src : GraphNodeSpecNetwork;
  es_tgt : GraphNodeSpecNetwork
}.

(** The threads and schedulers the runtime tracks are kept by name. *)
Record Runtime : Type := mk_Runtime {
  rt_info : RuntimeRuntimePayload;        (* id .. repository_version *)
  rt_status : RuntimeStatus;
  rt_tracing : bool;
  rt_trace_sender : option TraceSender;
  rt_boundary_threads : gset string;
  rt_watchdog_thread : bool;
  rt_watchdog_channel : bool;
  rt_scheduler_threads : gset string;
  rt_schedulers : gset string;
  rt_secrets : gmap string (string * AccessLevel);
  rt_graphs : MultiGraphManager;
  rt_debug_edges : gmap string (list GraphEdgeSpec)
}.

(** [runtime.graph], the active graph. *)
Definition rt_graph (r : Runtime) : string := rp_graph (rt_info r).

Definition set_payload_graph (g : string) (p : RuntimeRuntimePayload) : RuntimeRuntimePayload :=
  mk_RuntimeRuntimePayload (rp_id p) (rp_label p) (rp_version p) (rp_all_capabilities p)
    (rp_capabilities p) g (rp_runtime p) (rp_namespace p) (rp_repository p)
    (rp_repository_version p).

Definition set_info x (r : Runtime) : Runtime :=
  mk_Runtime x (rt_status r) (rt_tracing r) (rt_trace_sender r) (rt_boundary_threads r)
    (rt_watchdog_thread r) (rt_watchdog_channel r) (rt_scheduler_threads r) (rt_schedulers r)
    (rt_secrets r) (rt_graphs r) (rt_debug_edges r).
Definition set_rt_graph (g : string) (r : Runtime) : Runtime :=
  set_info (set_payload_graph g (rt_info r)) r.
Definition set_status x (r : Runtime) : Runtime :=
  mk_Runtime (rt_info r) x (rt_tracing r) (rt_trace_sender r) (rt_boundary_threads r)
    (rt_watchdog_thread r) (rt_watchdog_channel r) (rt_scheduler_threads r) (rt_schedulers r)
    (rt_secrets r) (rt_graphs r) (rt_debug_edges r).
Definition set_tracing x (r : Runtime) : Runtime :=
  mk_Runtime (rt_info r) (rt_status r) x (rt_trace_sender r) (rt_boundary_threads r)
    (rt_watchdog_thread r) (rt_watchdog_channel r) (rt_scheduler_threads r) (rt_schedulers r)
    (rt_secrets r) (rt_graphs r) (rt_debug_edges r).
Definition set_graphs x (r : Runtime) : Runtime :=
  mk_Runtime (rt_info r) (rt_status r) (rt_tracing r) (rt_trace_sender r) (rt_boundary_threads r)
    (rt_watchdog_thread r) (rt_watchdog_channel r) (rt_scheduler_threads r) (rt_schedulers r)
    (rt_secrets r) x (rt_debug_edges r).
Definition set_debug_map x (r : Runtime) : Runtime :=
  mk_Runtime (rt_info r) (rt_status r) (rt_tracing r) (rt_trace_sender r) (rt_boundary_threads r)
    (rt_watchdog_thread r) (rt_watchdog_channel r) (rt_scheduler_threads r) (rt_schedulers r)
    (rt_secrets r) (rt_graphs r) x.
Definition set_secrets x (r : Runtime) : Runtime :=
  mk_Runtime (rt_info r) (rt_status r) (rt_tracing r) (rt_trace_sender r) (rt_boundary_threads r)
    (rt_watchdog_thread r) (rt_watchdog_channel r) (rt_scheduler_threads r) (rt_schedulers r)
    x (rt_graphs r) (rt_debug_edges r).

Definition snapshot (r : Runtime) : RuntimeRuntimePayload := rt_info r.

(** ** Secrets *)

(** A missing or empty secret is accepted. *)
Definition validate_secret_with_access (secret : option string) (graph : string)
    (required_access : AccessLevel) (r : Runtime) : result unit io_error :=
  match secret with
  | Some secret =>
      if String.eqb secret "" then Ok tt
      else match rt_secrets r !! graph with
           | Some (expected_secret, access_level) =>
               if negb (String.eqb secret expected_secret)
               then io_err PermissionDenied "invalid secret token"
               else if bool_decide (access_level = ReadOnly)
                       && bool_decide (required_access = ReadWrite)
               then io_err PermissionDenied "readonly access not sufficient for write operation"
               else Ok tt
           | None => io_err PermissionDenied "no secret configured for graph"
           end
  | None => Ok tt
  end.

Definition validate_secret (secret : option string) (graph : string) (r : Runtime) :
    result unit io_error :=
  validate_secret_with_access secret graph ReadWrite r.

(** ** Debugging and tracing *)

Definition debug_mode (graph : string) (mode : bool) (r : Runtime) : result unit io_error * Runtime :=
  match get_graph graph (rt_graphs r) with
  | None => (io_err NotFound (not_found_message graph), r)
  | Some _ =>
      let r1 := set_rt_graph graph r in
      let s := rt_status r1 in
      (Ok tt, set_status (mk_RuntimeStatus (st_time_started s) graph (st_started s) (st_running s)
                            (Some mode)) r1)
  end.

Definition set_debug_edges (graph : string) (edges : list GraphEdgeSpec) (r : Runtime) :
    result unit io_error * Runtime :=
  match get_graph graph (rt_graphs r) with
  | None => (io_err NotFound (not_found_message graph), r)
  | Some _ =>
      let r1 := set_rt_graph graph r in
      let s := rt_status r1 in
      let r2 := set_status (mk_RuntimeStatus (st_time_started s) graph (st_started s) (st_running s)
                              (st_debug s)) r1 in
      (Ok tt, set_debug_map (<[graph := edges]> (rt_debug_edges r2)) r2)
  end.

Definition debug_edges_for_graph (graph : string) (r : Runtime) : list GraphEdgeSpec :=
  default [] (rt_debug_edges r !! graph).

Definition wrong_trace_graph {A : Type} (graph : string) (r : Runtime) : result A io_error * Runtime :=
  (io_err NotFound ("Graph '" +:+ graph +:+ "' not found. Current graph is '" +:+ rt_graph r
     +:+ "'. Multi-graph support not yet implemented."), r).

Definition start_trace (graph : string) (buffer_size : N) (r : Runtime) :
    result unit io_error * Runtime :=
  if negb (String.eqb graph (rt_graph r)) then wrong_trace_graph graph r
  else if rt_tracing r then (io_err AlreadyExists "tracing already started", r)
  else (Ok tt, set_tracing true r).

Definition stop_trace (graph : string) (r : Runtime) : result unit io_error * Runtime :=
  if negb (String.eqb graph (rt_graph r)) then wrong_trace_graph graph r
  else if negb (rt_tracing r) then (io_err NotFound "tracing not started", r)
  else (Ok tt, set_tracing false r).

Definition clear_trace (graph : string) (r : Runtime) : result unit io_error * Runtime :=
  if negb (String.eqb graph (rt_graph r)) then wrong_trace_graph graph r else (Ok tt, r).

Definition dump_trace (graph : string) (r : Runtime) : result string io_error * Runtime :=
  if negb (String.eqb graph (rt_graph r)) then wrong_trace_graph graph r else (Ok "", r).

(** The trace dispatch thread's decision to forward a data event as
    [network:data]. *)
Definition should_emit_network_data (p : TraceDataEventPayload) (r : Runtime) : bool :=
  let debug_enabled := default false (st_debug (rt_status r))
                       && String.eqb (st_graph (rt_status r)) (td_graph p) in
  if negb debug_enabled then false
  else existsb (fun selected =>
         String.eqb (gnsn_node (es_src selected)) (gnsn_node (td_src p))
         && String.eqb (gnsn_node (es_tgt selected)) (gnsn_node (td_tgt p))
         && eq_ignore_ascii_case (gnsn_port (es_src selected)) (gnsn_port (td_src p))
         && eq_ignore_ascii_case (gnsn_port (es_tgt selected)) (gnsn_port (td_tgt p)))
       (debug_edges_for_graph (td_graph p) r).

(** * Graphs *)
Section graphs.
Context `{J : SerdeJson}.

(** The store holds the graphs behind the [Arc<RwLock<Graph>>]s. *)

(** [Runtime::new]: the store gains the initial graph. *)
Definition new_runtime (active_graph : string) (store : gmap positive Graph) : Runtime * gmap positive Graph :=
  let loc := fresh (dom store) in
  (mk_Runtime (set_payload_graph active_graph default_runtime_payload)
     (mk_RuntimeStatus 0 active_graph false false None) false None ∅ false false ∅ ∅ ∅
     (add_graph active_graph loc new_manager) ∅,
   <[loc := new_graph active_graph "Initial graph" "default"]> store).

(** ** The default graph *)

Definition label_metadata (x y : Z) (label : string) : GraphNodeMetadata :=
  mk_GraphNodeMetadata x y (Some NODE_WIDTH_DEFAULT) (Some NODE_HEIGHT_DEFAULT) (Some label) None.

Definition plain_edge (p port p' port' : string) (data : option string) : GraphEdge :=
  mk_GraphEdge (mk_GraphNodeSpec p port None) data (mk_GraphNodeSpec p' port' None)
    (mk_GraphEdgeMetadata None None None).

(** [x?] on a graph operation. *)
Definition graph_try {A B : Type} (r : result A io_error * Graph)
    (k : Graph -> result B io_error) : result B io_error :=
  match r with (Ok _, g) => k g | (Err e, _) => Err e end.

Definition create_default_graph : result Graph io_error :=
  let g := new_graph "main_graph" "basic description" "usd" in
  let g := set_inports (<["GRAPHIN" := mk_GraphPort "Repeat_31337" "IN" 36 72]> (g_inports g)) g in
  let g := set_outports (<["GRAPHOUT" := mk_GraphPort "Repeat_31338" "OUT" 468 72]> (g_outports g)) g in
  graph_try (add_node "main_graph" "Repeat" "Repeat_31337" (label_metadata 180 72 "Repeat") g) (fun g =>
  graph_try (add_edge "main_graph" (plain_edge "Repeat_31337" "OUT" "Repeat_31338" "IN" None) g) (fun g =>
  graph_try (add_node "main_graph" "Repeat" "Repeat_31338" (label_metadata 324 72 "Repeat") g) (fun g =>
  graph_try (add_node "main_graph" "Repeat" "Repeat_2ufmu" (label_metadata 36 216 "Repeat") g) (fun g =>
  graph_try (add_node "main_graph" "Drop" "Drop_raux7" (label_metadata 324 216 "Drop") g) (fun g =>
  graph_try (add_node "main_graph" "Output" "Output_mwr5y" (label_metadata 180 216 "Output") g) (fun g =>
  graph_try (add_edge "main_graph" (plain_edge "" "" "Repeat_2ufmu" "IN" (Some "test IIP data")) g) (fun g =>
  graph_try (add_edge "main_graph" (plain_edge "Repeat_2ufmu" "OUT" "Output_mwr5y" "IN" None) g) (fun g =>
  graph_try (add_edge "main_graph" (plain_edge "Output_mwr5y" "OUT" "Drop_raux7" "IN" None) g) (fun g =>
  Ok g))))))))).

(** ** Persistence *)

Record PersistedGraphSet : Type := mk_PersistedGraphSet {
  pg_active_graph : string;
  pg_graphs : gmap string Graph
}.

(** serde_json on graphs: [to_value] and [from_value], the text of a set, and
    the two readers of [load_or_create_graph_set]. *)
Record serde_graph : Type := mk_serde_graph {
  sg_value : Type;
  sg_to_value : Graph -> result sg_value string;
  sg_from_value : sg_value -> result Graph string;
  sg_text : Type;
  sg_encode : PersistedGraphSet -> result sg_text string;
  sg_decode_set : sg_text -> option PersistedGraphSet;
  sg_decode_graph : sg_text -> result Graph io_error
}.

(** A copy of a graph by way of its JSON value; [what] names the graph in the
    error messages. *)
Definition clone_graph (sd : serde_graph) (what : string) (g : Graph) : result Graph io_error :=
  match sg_to_value sd g with
  | Err e => io_err InvalidData ("failed to serialize " +:+ what +:+ ": " +:+ e)
  | Ok v =>
      match sg_from_value sd v with
      | Err e => io_err InvalidData ("failed to clone " +:+ what +:+ ": " +:+ e)
      | Ok g' => Ok g'
      end
  end.

(** [for graph_id in list_graphs() { .. persisted_graphs.insert(..) }]; a
    manager entry always has its graph, as the [Arc] keeps it alive. *)
Fixpoint persist_loop (sd : serde_graph) (store : gmap positive Graph) (m : MultiGraphManager)
    (ids : list string) (acc : gmap string Graph) : result (gmap string Graph) io_error :=
  match ids with
  | [] => Ok acc
  | graph_id :: rest =>
      match get_graph graph_id m with
      | Some loc =>
          match store !! loc with
          | Some g =>
              match clone_graph sd ("graph '" +:+ graph_id +:+ "'") g with
              | Ok g' => persist_loop sd store m rest (<[graph_id := g']> acc)
              | Err e => Err e
              end
          | None => persist_loop sd store m rest acc
          end
      | None => persist_loop sd store m rest acc
      end
  end.

(** [HashMap::keys().next()]. *)
Definition first_key {V : Type} (m : gmap string V) : option string := head (map_to_list m).*1.

(** [persist] up to the text written into the file: [File::create] and
    [write] are the caller's. *)
Definition persist (sd : serde_graph) (store : gmap positive Graph) (graph : Graph) (r : Runtime) :
    outcome (result (sg_text sd) io_error) :=
  match persist_loop sd store (rt_graphs r) (list_graphs (rt_graphs r)) ∅ with
  | Err e => Done (Err e)
  | Ok persisted =>
      let filled :=
        if decide (persisted = ∅) then
          match clone_graph sd "fallback graph" graph with
          | Ok g' => Ok (<[rt_graph r := g']> persisted)
          | Err e => Err e
          end
        else Ok persisted in
      match filled with
      | Err e => Done (Err e)
      | Ok persisted_graphs =>
          let* active_graph :=
            match persisted_graphs !! rt_graph r with
            | Some _ => Done (rt_graph r)
            | None => expect (first_key persisted_graphs)
            end in
          match sg_encode sd (mk_PersistedGraphSet active_graph persisted_graphs) with
          | Ok text => Done (Ok text)
          | Err e => Done (io_err InvalidData ("failed to encode graph set: " +:+ e))
          end
      end
  end.

(** [load_or_create_graph_set]: [file] is the content of the persistence file
    when there is one. *)
Definition load_or_create_graph_set (sd : serde_graph) (file : option (sg_text sd)) :
    outcome (result (gmap string Graph * string) io_error) :=
  match file with
  | Some json_data =>
      match sg_decode_set sd json_data with
      | Some graph_set =>
          let graph_map := pg_graphs graph_set in
          if decide (graph_map = ∅)
          then Done (io_err InvalidData "persisted graph set is empty")
          else
            let* active :=
              match graph_map !! pg_active_graph graph_set with
              | Some _ => Done (pg_active_graph graph_set)
              | None => expect (first_key graph_map)
              end in
            Done (Ok (graph_map, active))
      | None =>
          match sg_decode_graph sd json_data with
          | Ok graph => Done (Ok ({[g_name graph := graph]}, g_name graph))
          | Err e => Done (Err e)
          end
      end
  | None =>
      match create_default_graph with
      | Ok graph => Done (Ok ({[g_name graph := graph]}, g_name graph))
      | Err e => Done (Err e)
      end
  end.
End graphs.
