(* ===== verification/RuntimeTheorems.v ===== *)
(** The contract of the runtime object: secrets, the default graph, loading and
    persisting the graph set, tracing and debug selection. *)
From S2P Require Import Prelude Api Graph GraphTheorems Runtime.
From Stdlib Require Strings.String.
From Stdlib Require Import NArith ZArith Lia.
From stdpp Require Import base list strings gmap.
Local Open Scope string_scope.
Local Open Scope list_scope.
Local Open Scope flowd_scope.

(** What a secret gives access to: [None] when it is not the configured one. *)
Definition granted (secret : option string) (graph : string) (r : Runtime) : option AccessLevel :=
  match secret with
  | None | Some EmptyString => Some ReadWrite
  | Some s =>
      match rt_secrets r !! graph with
      | Some (expected, level) => if decide (s = expected) then Some level else None
      | None => None
      end
  end.

(** What a graph's JSON holds of it: everything but the metadata that a node
    keeps for protocol clients, which is neither written nor read (it is the
    empty map after reading). *)
Definition serialised_node `{J : SerdeJson} (n : GraphNode) : GraphNode :=
  mk_GraphNode (node_component n) (node_metadata n) jm_new.
Definition serialised `{J : SerdeJson} (g : Graph) : Graph := set_gnodes (serialised_node <$> g_nodes g) g.

(** serde_json reads back what it writes: a graph from its JSON value, and a
    graph set from its text, up to the fields that are not serialised. *)
Record serde_laws `{J : SerdeJson} (sd : serde_graph) : Prop := {
  sl_value g : exists v, sg_to_value sd g = Ok v /\ sg_from_value sd v = Ok (serialised g);
  sl_text s : exists t, sg_encode sd s = Ok t /\
    sg_decode_set sd t = Some (mk_PersistedGraphSet (pg_active_graph s) (serialised <$> pg_graphs s))
}.

Lemma validate_granted secret graph required r :
  is_Ok (validate_secret_with_access secret graph required r) = true <->
  granted secret graph r = Some ReadWrite \/ (granted secret graph r = Some ReadOnly /\ required = ReadOnly).
Proof.
  assert (forall o : option AccessLevel, o <> Some ReadWrite -> o <> Some ReadOnly ->
    false = true <-> o = Some ReadWrite \/ (o = Some ReadOnly /\ required = ReadOnly)) as Hno.
  { intros o H1 H2. split; [done|]. by intros [?|[? _]]. }
  destruct secret as [[|c s]|]; [by split; [left|]| |by split; [left|]].
  unfold validate_secret_with_access, granted.
  replace (String.eqb (String c s) "") with false by done.
  destruct (rt_secrets r !! graph) as [[e l]|]; [|by apply Hno].
  destruct (String.eqb_spec (String c s) e) as [Heq|Hne]; cbn [negb].
  - rewrite decide_True by done. destruct l, required; cbn.
    + split; [by right|done].
    + split; [done|]. by intros [?|[_ ?]].
    + split; [by left|done].
    + split; [by left|done].
  - rewrite decide_False by done. by apply Hno.
Qed.

Section lemmas.
Context `{J : SerdeJson}.

Lemma first_key_lookup {V} (m : gmap string V) :
  m <> ∅ -> exists k, first_key m = Some k /\ is_Some (m !! k).
Proof.
  intros Hm. unfold first_key. destruct (map_to_list m) as [|[k v] l] eqn:Hl.
  - by apply map_to_list_empty_iff in Hl.
  - exists k. split; [done|]. exists v. apply elem_of_map_to_list. rewrite Hl. left.
Qed.

Lemma list_graphs_elem m k : k ∈ list_graphs m <-> is_Some (mg_graphs m !! k).
Proof.
  unfold list_graphs. rewrite list_elem_of_fmap. split.
  - intros ([k' v] & -> & Hin%elem_of_map_to_list). by exists v.
  - intros [v Hv]. exists (k, v). split; [done|]. by apply elem_of_map_to_list.
Qed.

Lemma graph_try_node {B} graph c n md g (k : Graph -> result B io_error) :
  graph = g_name g -> g_nodes g !! n = None ->
  graph_try (add_node graph c n md g) k =
    k (set_gnodes (<[n := mk_GraphNode c md (graph_node_metadata_to_payload md)]> (g_nodes g)) g).
Proof.
  intros -> Hn. unfold add_node. rewrite String.eqb_refl. cbn [negb].
  by rewrite try_insert_None.
Qed.

Lemma graph_try_edge {B} graph e g (k : Graph -> result B io_error) :
  graph = g_name g -> graph_try (add_edge graph e g) k = k (set_edges (g_edges g ++ [e]) g).
Proof. intros ->. unfold add_edge. by rewrite String.eqb_refl. Qed.

Lemma serialised_idemp g : serialised (serialised g) = serialised g.
Proof.
  unfold serialised. destruct g. unfold set_gnodes. simpl. f_equal.
  rewrite <- map_fmap_compose. by apply map_fmap_ext.
Qed.

Lemma clone_serialised sd what g : serde_laws sd -> clone_graph sd what g = Ok (serialised g).
Proof. intros H. unfold clone_graph. by destruct (sl_value _ H g) as (v & -> & ->). Qed.

Lemma persist_loop_spec sd store m ids acc :
  serde_laws sd ->
  (forall k loc, mg_graphs m !! k = Some loc -> is_Some (store !! loc)) ->
  exists res, persist_loop sd store m ids acc = Ok res /\
    forall k, res !! k =
      match mg_graphs m !! k with
      | Some loc => if decide (k ∈ ids) then serialised <$> store !! loc else acc !! k
      | None => acc !! k
      end.
Proof.
  intros Hsd Hst. revert acc. induction ids as [|id ids IH]; intros acc; cbn [persist_loop].
  - exists acc. split; [done|]. intros k. destruct (mg_graphs m !! k); [|done].
    rewrite decide_False; [done|]. apply not_elem_of_nil.
  - unfold get_graph. destruct (mg_graphs m !! id) as [loc|] eqn:Hid.
    + destruct (Hst _ _ Hid) as [g Hg]. rewrite Hg, (clone_serialised sd) by done.
      destruct (IH (<[id := serialised g]> acc)) as (res & -> & Hres). exists res. split; [done|].
      intros k. rewrite Hres. destruct (decide (k = id)) as [->|Hne].
      * rewrite Hid, lookup_insert_eq, Hg. rewrite (decide_True (P := id ∈ id :: ids)) by left.
        by destruct (decide _).
      * rewrite lookup_insert_ne by done. destruct (mg_graphs m !! k) as [l|]; [|done].
        destruct (decide (k ∈ ids)).
        -- by rewrite decide_True by (by right).
        -- by rewrite decide_False by (by apply not_elem_of_cons).
    + destruct (IH acc) as (res & -> & Hres). exists res. split; [done|].
      intros k. rewrite Hres. destruct (mg_graphs m !! k) as [l|] eqn:Hk; [|done].
      destruct (decide (k ∈ ids)).
      * by rewrite decide_True by (by right).
      * rewrite decide_False; [done|]. apply not_elem_of_cons. split; [congruence|done].
Qed.
End lemmas.

(** * The contract *)
Section contract.
Context `{J : SerdeJson}.

(** A secret check succeeds exactly when the secret grants the access
    level asked for: a non-empty secret must be the one configured for the
    graph, with read-write access for a write; a missing or empty secret is
    granted everything. *)
Theorem validate_secret_spec secret graph required r :
  is_Ok (validate_secret_with_access secret graph required r) = true <->
  granted secret graph r = Some ReadWrite \/ (granted secret graph r = Some ReadOnly /\ required = ReadOnly).
Proof. apply validate_granted. Qed.

(** The default graph is built without error; it is called [main_graph],
    has its five nodes and five connections, and is well connected: every edge
    and every exported port is attached to one of its nodes. *)
Theorem create_default_graph_ok :
  exists g, create_default_graph = Ok g /\ g_name g = "main_graph" /\ well_connected g /\
    dom (g_nodes g) = {["Repeat_31337"; "Repeat_31338"; "Repeat_2ufmu"; "Drop_raux7"; "Output_mwr5y"]} /\
    length (g_edges g) = 4 /\
    (forall n p, g_inports g !! n = Some p \/ g_outports g !! n = Some p ->
       is_Some (g_nodes g !! port_process p)).
Proof.
  unfold create_default_graph.
  repeat first [rewrite graph_try_edge by done
               |rewrite graph_try_node;
                 [|done|cbn [g_nodes set_gnodes set_edges set_inports set_outports new_graph];
                   rewrite ?lookup_insert_ne by done; apply lookup_empty]].
  cbn [g_nodes g_edges g_inports g_outports set_gnodes set_edges set_inports set_outports new_graph app].
  eexists. split; [done|]. split; [done|]. split; [|split; [|split; [done|]]].
  - unfold well_connected, edge_attached, plain_edge.
    cbn [g_nodes g_edges g_inports g_outports set_gnodes set_edges set_inports set_outports new_graph app].
    rewrite !Forall_cons, Forall_nil. cbn [edge_source edge_target edge_data ns_process].
    split_and!; first [left; by eexists|right|idtac]; try done; eexists;
      repeat first [rewrite lookup_insert_eq; reflexivity|rewrite lookup_insert_ne by done].
  - cbn [g_nodes g_edges g_inports g_outports set_gnodes set_edges set_inports set_outports new_graph]. rewrite !dom_insert_L. set_solver.
  - cbn [g_nodes g_edges g_inports g_outports set_gnodes set_edges set_inports set_outports new_graph].
    intros n p [H|H]; apply lookup_insert_Some in H as [[_ <-]|[_ H]]; try done;
      cbn [port_process]; eexists;
      repeat first [rewrite lookup_insert_eq; reflexivity|rewrite lookup_insert_ne by done].
Qed.

(** Loading never unwinds, and what it returns is usable: a non-empty set
    of graphs whose active graph is one of them; without a persistence file it
    is the default graph. *)
Theorem load_graph_set_ok sd file :
  exists r, load_or_create_graph_set sd file = Done r /\
    (forall m active, r = Ok (m, active) -> is_Some (m !! active)) /\
    (file = None -> exists g, create_default_graph = Ok g /\ r = Ok ({["main_graph" := g]}, "main_graph")).
Proof.
  unfold load_or_create_graph_set. destruct file as [text|].
  - destruct (sg_decode_set sd text) as [s|].
    + destruct (decide (pg_graphs s = ∅)) as [He|He]; [eexists; split; [done|]; split; [by intros|done]|].
      destruct (pg_graphs s !! pg_active_graph s) eqn:Ha; simpl.
      * eexists. split; [done|]. split; [|done]. intros m a [= <- <-]. by rewrite Ha.
      * destruct (first_key_lookup _ He) as (k & -> & Hk). simpl.
        eexists. split; [done|]. split; [|done]. by intros m a [= <- <-].
    + destruct (sg_decode_graph sd text) as [g|e]; eexists; (split; [done|]); (split; [|done]); [|done].
      intros m a [= <- <-]. by rewrite lookup_singleton_eq.
  - destruct create_default_graph as [g|e] eqn:Hg; eexists; (split; [done|]).
    + split; [intros m a [= <- <-]; by rewrite lookup_singleton_eq|].
      intros _. exists g. split; [done|].
      assert (g_name g = "main_graph") as -> by (by injection Hg as <-). done.
    + done.
Qed.

(** C18: what [persist] writes, [load_or_create_graph_set] reads back: every
    graph the manager knows and no other, with everything but the metadata its
    nodes keep for protocol clients, and with the runtime's active graph active
    again. *)
Theorem persist_load_roundtrip sd store fallback r loc :
  serde_laws sd ->
  (forall k l, mg_graphs (rt_graphs r) !! k = Some l -> is_Some (store !! l)) ->
  get_graph (rt_graph r) (rt_graphs r) = Some loc ->
  exists text m, persist sd store fallback r = Done (Ok text) /\
    load_or_create_graph_set sd (Some text) = Done (Ok (m, rt_graph r)) /\
    forall k, m !! k = l ← mg_graphs (rt_graphs r) !! k; serialised <$> (store !! l).
Proof.
  intros Hsd Hst Hact. unfold persist, get_graph in *.
  destruct (persist_loop_spec sd store (rt_graphs r) (list_graphs (rt_graphs r)) ∅ Hsd Hst)
    as (res & -> & Hres).
  assert (forall k, res !! k = l ← mg_graphs (rt_graphs r) !! k; serialised <$> (store !! l)) as Hm.
  { intros k. rewrite Hres. destruct (mg_graphs (rt_graphs r) !! k) as [l|] eqn:Hk; [|done].
    rewrite decide_True; [done|]. by apply list_graphs_elem; eexists. }
  assert (serialised <$> res = res) as Hid.
  { apply map_eq. intros k. rewrite lookup_fmap, Hm. destruct (mg_graphs (rt_graphs r) !! k) as [l|]; [|done].
    simpl. destruct (store !! l) as [g|]; [|done]. simpl. by rewrite serialised_idemp. }
  destruct (Hst _ _ Hact) as [g Hg].
  assert (res !! rt_graph r = Some (serialised g)) as Hr by (by rewrite Hm, Hact; simpl; rewrite Hg).
  assert (res <> ∅) as Hne by (intros ->; by rewrite lookup_empty in Hr).
  rewrite decide_False by done. rewrite Hr. simpl.
  destruct (sl_text _ Hsd (mk_PersistedGraphSet (rt_graph r) res)) as (text & -> & Hdec).
  exists text, res. split; [done|]. split; [|done]. simpl in Hdec. rewrite Hid in Hdec.
  unfold load_or_create_graph_set. rewrite Hdec. simpl. rewrite decide_False by done. by rewrite Hr.
Qed.

(** [persist] never unwinds. *)
Lemma persist_returns sd store fallback r : exists res, persist sd store fallback r = Done res.
Proof.
  unfold persist. destruct (persist_loop _ _ _ _ _) as [m|e]; [|by eexists].
  assert (exists filled, (if decide (m = ∅) then
      match clone_graph sd "fallback graph" fallback with
      | Ok g' => Ok (<[rt_graph r := g']> m)
      | Err e => Err e
      end else Ok m) = filled /\ forall m', filled = Ok m' -> m' <> ∅) as (filled & -> & Hne).
  { eexists. split; [done|]. destruct (decide (m = ∅)); [|by intros ? [= <-]].
    destruct (clone_graph _ _ _); [|done]. intros ? [= <-]. apply insert_non_empty. }
  destruct filled as [m'|e]; [|by eexists].
  destruct (m' !! rt_graph r); simpl; [|destruct (first_key_lookup m') as (k & -> & _); [by apply Hne|simpl]];
    by destruct (sg_encode _ _); eexists.
Qed.
End contract.

(** Tracing is a switch on the active graph: starting it twice or stopping
    it twice is refused, a request for another graph is refused, and a refused
    request changes nothing. *)
Theorem trace_switch graph n r :
  (graph = rt_graph r ->
     (rt_tracing r = false -> start_trace graph n r = (Ok tt, set_tracing true r)) /\
     (rt_tracing r = true -> stop_trace graph r = (Ok tt, set_tracing false r)) /\
     (start_trace graph n (start_trace graph n r).2).2 = (start_trace graph n r).2 /\
     is_err (start_trace graph n (start_trace graph n r).2).1 = true /\
     is_err (stop_trace graph (stop_trace graph r).2).1 = true) /\
  (graph <> rt_graph r ->
     is_err (start_trace graph n r).1 = true /\ (start_trace graph n r).2 = r /\
     is_err (stop_trace graph r).1 = true /\ (stop_trace graph r).2 = r).
Proof.
  unfold start_trace, stop_trace, wrong_trace_graph. split.
  - intros ->. rewrite String.eqb_refl. simpl. split_and!.
    + by intros ->.
    + by intros ->.
    + destruct (rt_tracing r) eqn:Ht; simpl; rewrite ?String.eqb_refl; simpl; by rewrite ?Ht.
    + destruct (rt_tracing r) eqn:Ht; simpl; rewrite ?String.eqb_refl; simpl; by rewrite ?Ht.
    + destruct (rt_tracing r) eqn:Ht; simpl; rewrite ?String.eqb_refl; simpl; by rewrite ?Ht.
  - intros Hne. by rewrite (proj2 (String.eqb_neq _ _) Hne).
Qed.

(** Once debugging is on for a graph and its edges are selected, exactly
    the data events of that graph on a selected edge are forwarded, ports
    compared without regard to case; for another graph nothing is forwarded. *)
Theorem debug_selection graph edges r p :
  is_Some (get_graph graph (rt_graphs r)) ->
  let r' := (set_debug_edges graph edges (debug_mode graph true r).2).2 in
  should_emit_network_data p r' = true <->
  td_graph p = graph /\
  Exists (fun e => gnsn_node (es_src e) = gnsn_node (td_src p) /\ gnsn_node (es_tgt e) = gnsn_node (td_tgt p) /\
     eq_ignore_ascii_case (gnsn_port (es_src e)) (gnsn_port (td_src p)) = true /\
     eq_ignore_ascii_case (gnsn_port (es_tgt e)) (gnsn_port (td_tgt p)) = true) edges.
Proof.
  intros [loc Hg]. unfold debug_mode. rewrite Hg. simpl. unfold set_debug_edges. simpl. rewrite Hg. simpl.
  unfold should_emit_network_data, debug_edges_for_graph. simpl.
  destruct (String.eqb_spec graph (td_graph p)) as [->|Hne]; simpl.
  - rewrite lookup_insert_eq. simpl. rewrite existsb_exists, Exists_exists.
    setoid_rewrite andb_true_iff. setoid_rewrite andb_true_iff. setoid_rewrite andb_true_iff.
    setoid_rewrite String.eqb_eq. setoid_rewrite list_elem_of_In. naive_solver.
  - split; [done|]. intros [? _]. congruence.
Qed.

(** * Concrete instances *)

#[local] Existing Instance gmap_serde_json.

Definition demo_serde : serde_graph :=
  mk_serde_graph Graph (fun g => Ok (serialised g)) (fun g => Ok g)
    PersistedGraphSet (fun s => Ok (mk_PersistedGraphSet (pg_active_graph s) (serialised <$> pg_graphs s)))
    Some (fun _ => io_err InvalidData "not a graph").

Lemma demo_serde_laws : serde_laws demo_serde.
Proof. constructor; [intros g; by eexists|]. intros s. by eexists. Qed.

Definition demo_runtime : Runtime * gmap positive Graph := new_runtime "main" ∅.

Lemma demo_runtime_store k l :
  mg_graphs (rt_graphs demo_runtime.1) !! k = Some l -> is_Some (demo_runtime.2 !! l).
Proof.
  unfold demo_runtime, new_runtime, add_graph. cbn [fst snd rt_graphs mg_graphs new_manager].
  intros [[_ <-]|[_ H]]%lookup_insert_Some; [|done]. rewrite lookup_insert_eq. by eexists.
Qed.

Lemma persist_load_roundtrip_witness :
  exists text m, persist demo_serde demo_runtime.2 (new_graph "x" "" "") demo_runtime.1 = Done (Ok text) /\
    load_or_create_graph_set demo_serde (Some text) = Done (Ok (m, "main")).
Proof.
  destruct (persist_load_roundtrip demo_serde demo_runtime.2 (new_graph "x" "" "")
              demo_runtime.1 (fresh (dom (∅ : gmap positive Graph))) demo_serde_laws demo_runtime_store)
    as (text & m & H & H' & _); [reflexivity|].
  exists text, m. split; [exact H|exact H'].
Defined.

Lemma debug_selection_witness :
  let e := mk_GraphEdgeSpec (demo_spec "a" "out") (demo_spec "b" "in") in
  let r := (set_debug_edges "main" [e] (debug_mode "main" true demo_runtime.1).2).2 in
  should_emit_network_data
    (mk_TraceDataEventPayload "e" (demo_spec "a" "OUT") (demo_spec "b" "IN") "main" "hi") r = true.
Proof.
  apply debug_selection; [eexists; reflexivity|].
  split; [reflexivity|]. constructor. split_and!; reflexivity.
Defined.

Lemma validate_secret_spec_witness :
  let r := set_secrets {["main" := ("s3cret", ReadOnly)]} demo_runtime.1 in
  is_Ok (validate_secret_with_access (Some "s3cret") "main" ReadOnly r) = true.
Proof.
  apply (proj2 (validate_secret_spec (Some "s3cret") "main" ReadOnly
           (set_secrets {["main" := ("s3cret", ReadOnly)]} demo_runtime.1))).
  right. split; reflexivity.
Defined.

Lemma trace_switch_witness :
  (start_trace "main" 0 demo_runtime.1).1 = Ok tt.
Proof.
  rewrite (proj1 (proj1 (trace_switch "main" 0 demo_runtime.1) eq_refl) eq_refl). reflexivity.
Defined.
