(* ===== verification/Server.v ===== *)
(** The FBP network protocol server, [src/server.rs]: the handlers that
    [handle_client] runs for the messages of the graph, trace, network, runtime
    and component protocols, with the request and response payloads of
    [src/protocol.rs].

    A handler returns what it sends and the state it leaves; a handler that
    unwinds (an [expect]) ends the connection's thread. *)
From S2P Require Import Prelude Api Graph Runtime.
From Stdlib Require Strings.String.
From Stdlib Require Import NArith ZArith Lia.
From stdpp Require Import base list strings gmap.
Local Open Scope string_scope.
Local Open Scope list_scope.
Local Open Scope flowd_scope.

(** * Payloads *)

(** [removenode] and [removegroup]. *)
Record NamedRequestPayload : Type := mk_NamedRequestPayload {
  nr_name : string;
  nr_graph : string;
  nr_secret : option string
}.

(** [renamenode], [renameinport], [renameoutport] and [renamegroup]. *)
Record RenameRequestPayload : Type := mk_RenameRequestPayload {
  rn_from : string;
  rn_to : string;
  rn_graph : string;
  rn_secret : option string
}.

(** [removeinport] and [removeoutport]. *)
Record RemoveportRequestPayload : Type := mk_RemoveportRequestPayload {
  rmp_graph : string;
  rmp_public : string;
  rmp_secret : option string
}.

Record GraphRemoveedgeRequestPayload : Type := mk_GraphRemoveedgeRequestPayload {
  rq_graph : string;
  rq_src : GraphNodeSpecNetwork;
  rq_tgt : GraphNodeSpecNetwork;
  rq_secret : option string
}.

Record GraphChangeedgeRequestPayload : Type := mk_GraphChangeedgeRequestPayload {
  ce_graph : string;
  ce_src : GraphNodeSpecNetwork;
  ce_tgt : GraphNodeSpecNetwork;
  ce_metadata : GraphEdgeMetadata;
  ce_secret : option string
}.

Record GraphAddgroupRequestPayload : Type := mk_GraphAddgroupRequestPayload {
  ag_name : string;
  ag_graph : string;
  ag_nodes : list string;
  ag_metadata : GraphGroupMetadata;
  ag_secret : option string
}.

Record GraphChangegroupRequestPayload : Type := mk_GraphChangegroupRequestPayload {
  cg_graph : string;
  cg_name : string;
  cg_metadata : GraphGroupMetadata;
  cg_secret : option string
}.

(** [trace:start], and with an unused size the other trace requests. *)
Record TraceRequestPayload : Type := mk_TraceRequestPayload {
  tr_graph : string;
  tr_buffer_size : N;
  tr_secret : option string
}.

Record NetworkEdgesRequestPayload : Type := mk_NetworkEdgesRequestPayload {
  ne_graph : string;
  ne_edges : list GraphEdgeSpec;
  ne_secret : option string
}.

Record NetworkDebugRequestPayload : Type := mk_NetworkDebugRequestPayload {
  nd_enable : bool;
  nd_graph : string;
  nd_secret : option string
}.

(** [getstatus], [start] and [stop]. *)
Record NetworkRequestPayload : Type := mk_NetworkRequestPayload {
  nw_graph : string;
  nw_secret : option string
}.

Record GraphClearResponsePayload : Type := mk_GraphClearResponsePayload {
  clp_name : string;
  clp_label : string;
  clp_library : option string;
  clp_main : bool;
  clp_icon : option string;
  clp_description : option string
}.

Record NetworkStatusPayload : Type := mk_NetworkStatusPayload {
  sp_graph : string;
  sp_started : bool;
  sp_running : bool;
  sp_debug : option bool
}.

(** [uptime] and [scheduler_metrics] are [None] in every status the server
    sends. *)
Definition new_status_payload (s : RuntimeStatus) : NetworkStatusPayload :=
  mk_NetworkStatusPayload (st_graph s) (st_started s) (st_running s) (st_debug s).

Definition clear_response (p : GraphClearRequestPayload) : GraphClearResponsePayload :=
  mk_GraphClearResponsePayload (clr_name p) (default (clr_name p) (clr_label p)) (clr_library p)
    (clr_main p) (clr_icon p) (clr_description p).

(** What a client is known to be allowed to receive. *)
Record ClientCapabilityHolder : Type := mk_ClientCapabilityHolder {
  ch_graph : option string;
  ch_capabilities : list Capability
}.

Definition update_from_runtime_payload (p : RuntimeRuntimePayload) : ClientCapabilityHolder :=
  mk_ClientCapabilityHolder (Some (rp_graph p)) (rp_capabilities p).

Definition has_capability (c : Capability) (l : list Capability) : bool :=
  existsb (fun c' => bool_decide (c' = c)) l.

Definition can_receive_network_debug_for_graph (graph : string) (h : ClientCapabilityHolder) : bool :=
  if negb (bool_decide (ch_graph h = Some graph)) then false
  else has_capability NetworkControl (ch_capabilities h)
       || has_capability NetworkStatus (ch_capabilities h).

Section server.
Context `{J : SerdeJson}.

Record GraphChangenodeRequestPayload : Type := mk_GraphChangenodeRequestPayload {
  cn_name : string;
  cn_metadata : JsonMap;
  cn_graph : string;
  cn_secret : option string
}.

(** The messages that a runtime sends and that a client has no business to
    send: the server has no handler for them. *)
Inductive UnhandledMessage : Type :=
| URuntime
| UPorts
| UStatus
| USource
| UComponent
| UComponentsready
| UTraceData
| UTraceConnect
| UTraceDisconnect.

(** * Messages *)

Inductive FBPMessage : Type :=
| MGetruntime (secret : option string)
| MComponentList (secret : option string)
| MComponentGetsource (name : string) (secret : option string)
| MGetstatus (p : NetworkRequestPayload)
| MNetworkEdges (p : NetworkEdgesRequestPayload)
| MNetworkDebug (p : NetworkDebugRequestPayload)
| MNetworkStop (p : NetworkRequestPayload)
| MClear (p : GraphClearRequestPayload)
| MAddnode (p : GraphAddnodeRequestPayload)
| MRemovenode (p : NamedRequestPayload)
| MRenamenode (p : RenameRequestPayload)
| MChangenode (p : GraphChangenodeRequestPayload)
| MAddedge (p : GraphAddedgeRequestPayload)
| MRemoveedge (p : GraphRemoveedgeRequestPayload)
| MChangeedge (p : GraphChangeedgeRequestPayload)
| MAddinitial (p : GraphAddinitialRequestPayload)
| MRemoveinitial (p : GraphRemoveinitialRequestPayload)
| MAddinport (p : GraphAddportRequestPayload)
| MRemoveinport (p : RemoveportRequestPayload)
| MRenameinport (p : RenameRequestPayload)
| MAddoutport (p : GraphAddportRequestPayload)
| MRemoveoutport (p : RemoveportRequestPayload)
| MRenameoutport (p : RenameRequestPayload)
| MAddgroup (p : GraphAddgroupRequestPayload)
| MRemovegroup (p : NamedRequestPayload)
| MRenamegroup (p : RenameRequestPayload)
| MChangegroup (p : GraphChangegroupRequestPayload)
| MTraceStart (p : TraceRequestPayload)
| MTraceStop (p : TraceRequestPayload)
| MTraceClear (p : TraceRequestPayload)
| MTraceDump (p : TraceRequestPayload)
| MPacketsent
| MUnhandled (u : UnhandledMessage).

Inductive Response : Type :=
| RGraphError (message : string)
| RNetworkError (message stack graph : string)
| RTraceError (message : string)
| RRuntimeError (message : string)
| RRuntime (p : RuntimeRuntimePayload)
| RPorts (graph : string) (in_ports out_ports : list ComponentPort)
| RComponent (c : ComponentComponentPayload)
| RComponentsready (count : N)
| RSource (p : ComponentSourcePayload)
| RStatus (p : NetworkStatusPayload)
| REdges (graph : string) (edges : list GraphEdgeSpec)
| RDebug (graph : string) (enable : bool)
| RStopped (time : N) (uptime : N) (p : NetworkStatusPayload)
| RClear (p : GraphClearResponsePayload)
| RAddnode (p : GraphAddnodeResponsePayload)
| RRemovenode (name graph : string)
| RRenamenode (from to graph : string)
| RChangenode (id : string) (metadata : JsonMap) (graph : string)
| RAddedge (src tgt : GraphNodeSpecNetwork) (m : GraphEdgeMetadata) (graph : string)
| RRemoveedge (p : GraphRemoveedgeResponsePayload)
| RChangeedge (graph : string) (src tgt : GraphNodeSpecNetwork) (m : GraphEdgeMetadata)
| RAddinitial (src : string) (tgt : GraphNodeSpecNetwork) (m : GraphEdgeMetadata) (graph : string)
| RRemoveinitial (src : string) (tgt : GraphNodeSpecNetwork) (graph : string)
| RAddinport (graph public node port : string)
| RRemoveinport
| RRenameinport
| RAddoutport (graph public node port : string)
| RRemoveoutport (graph public : string)
| RRenameoutport
| RAddgroup
| RRemovegroup
| RRenamegroup
| RChangegroup
| RTraceStart (graph : string)
| RTraceStop (graph : string)
| RTraceClear (graph : string)
| RTraceDump (graph dump : string).

(** What a handler does to the outside: a message to its client, one to all
    clients, the thread that completes [network:stop], or the close frame that
    ends the connection. *)
Inductive Output : Type :=
| Send (r : Response)
| Broadcast (r : Response)
| SpawnRuntimeStop
| CloseConnection.

(** The runtime and the graphs, shared between connections, and the
    connection's own capability record. *)
Record Server : Type := mk_Server {
  sv_runtime : Runtime;
  sv_store : gmap positive Graph;
  sv_client : ClientCapabilityHolder
}.

Definition set_runtime x (s : Server) : Server := mk_Server x (sv_store s) (sv_client s).
Definition set_store x (s : Server) : Server := mk_Server (sv_runtime s) x (sv_client s).
Definition set_client x (s : Server) : Server := mk_Server (sv_runtime s) (sv_store s) x.

Definition handled : Type := outcome (list Output * Server).

(** The connection's [graph] argument, the component library, and
    [serde_json::to_string] on a graph. *)
Variable graph : positive.
Variable components : ComponentLibrary.
Variable to_string : Graph -> option string.

(** * Helpers of [handle_client] *)

Definition sv_validate_secret (secret : option string) (graph_name : string) (s : Server) : bool :=
  is_Ok (validate_secret_with_access secret graph_name ReadWrite (sv_runtime s)).

Definition validate_secret_readonly (secret : option string) (graph_name : string) (s : Server) : bool :=
  is_Ok (validate_secret_with_access secret graph_name ReadOnly (sv_runtime s)).

Definition has_readonly_secret_for_graph (secret : option string) (graph_name : string) (s : Server) : bool :=
  match secret with
  | Some secret =>
      if String.eqb secret "" then false
      else match rt_secrets (sv_runtime s) !! graph_name with
           | Some (expected, level) => String.eqb secret expected && bool_decide (level = ReadOnly)
           | None => false
           end
  | None => false
  end.

(** Reading the graph behind an [Arc]: it always exists. *)
Definition read_graph (loc : positive) (s : Server) : outcome Graph := expect (sv_store s !! loc).

Definition get_graph_by_name (graph_name : string) (s : Server) : outcome (result positive io_error) :=
  match get_graph graph_name (rt_graphs (sv_runtime s)) with
  | Some loc => Done (Ok loc)
  | None =>
      let* g := read_graph graph s in
      if String.eqb (g_name g) graph_name then Done (Ok graph)
      else Done (io_err NotFound (not_found_message graph_name))
  end.

(** [target_graph.write()] around one operation on the graph. *)
Definition on_graph {A : Type} (loc : positive) (f : Graph -> outcome (result A io_error * Graph))
    (s : Server) : outcome (result A io_error * Server) :=
  let* g := read_graph loc s in
  let* rg := f g in
  Done (rg.1, set_store (<[loc := rg.2]> (sv_store s)) s).

Definition graph_error (message : string) (s : Server) : handled := Done ([Send (RGraphError message)], s).

Definition invalid_secret : string := "invalid secret token".

(** The frame that most handlers of the graph protocol share: the secret, the
    graph, the operation, then the response or [graph:error]. *)
Definition graph_handler {A : Type} (secret : option string) (graph_name : string)
    (f : Graph -> outcome (result A io_error * Graph)) (respond : A -> list Output)
    (s : Server) : handled :=
  if negb (sv_validate_secret secret graph_name s) then graph_error invalid_secret s
  else
    let* target := get_graph_by_name graph_name s in
    match target with
    | Err e => graph_error (err_message e) s
    | Ok loc =>
        let* res := on_graph loc f s in
        match res.1 with
        | Ok a => Done (respond a, res.2)
        | Err e => graph_error (err_message e) res.2
        end
    end.

(** * protocol:graph *)

Definition handle_clear (payload : GraphClearRequestPayload) (s : Server) : handled :=
  if negb (sv_validate_secret (clr_secret payload) (clr_name payload) s) then graph_error invalid_secret s
  else
    let previous_active_graph := rt_graph (sv_runtime s) in
    let running := st_running (rt_status (sv_runtime s)) in
    let* res := on_graph graph (fun g => Done (clear payload running g)) s in
    match res.1 with
    | Ok _ =>
        let r := sv_runtime res.2 in
        let r1 := set_rt_graph (clr_name payload) r in
        let r2 := set_graphs (add_graph (clr_name payload) graph (rt_graphs r1)) r1 in
        let r3 := if negb (String.eqb previous_active_graph (clr_name payload))
                  then set_graphs (remove_graph previous_active_graph (rt_graphs r2)).2 r2
                  else r2 in
        let r4 := set_graphs (set_active_graph (clr_name payload) (rt_graphs r3)).2 r3 in
        Done ([Send (RClear (clear_response payload))], set_runtime r4 res.2)
    | Err e => graph_error (err_message e) res.2
    end.

Definition handle_addnode (payload : GraphAddnodeRequestPayload) (s : Server) : handled :=
  match an_graph payload with
  | None => graph_error "No graph specified" s
  | Some graph_name =>
      if negb (sv_validate_secret (an_secret payload) graph_name s) then graph_error invalid_secret s
      else
        let* target := get_graph_by_name graph_name s in
        match target with
        | Err _ => graph_error "Requested graph not found" s
        | Ok loc =>
            let metadata := match an_icon payload with
                            | Some icon => jm_insert "icon" (jv_from_string icon) (an_metadata payload)
                            | None => an_metadata payload
                            end in
            let* res := on_graph loc (fun g =>
              Done (add_node_from_payload graph_name (an_component payload) (an_name payload) metadata g)) s in
            match res.1 with
            | Ok response => Done ([Send (RAddnode response)], res.2)
            | Err e =>
                graph_error (if bool_decide (err_kind e = NotFound)
                             then "Requested graph not found" else err_message e) res.2
            end
        end
  end.

Definition handle_removenode (payload : NamedRequestPayload) : Server -> handled :=
  graph_handler (nr_secret payload) (nr_graph payload)
    (fun g => Done (remove_node (nr_graph payload) (nr_name payload) g))
    (fun removed_edges => map (fun e => Send (RRemoveedge e)) removed_edges
                          ++ [Send (RRemovenode (nr_name payload) (nr_graph payload))]).

Definition handle_renamenode (payload : RenameRequestPayload) : Server -> handled :=
  graph_handler (rn_secret payload) (rn_graph payload)
    (rename_node (rn_graph payload) (rn_from payload) (rn_to payload))
    (fun _ => [Send (RRenamenode (rn_from payload) (rn_to payload) (rn_graph payload))]).

Definition handle_changenode (payload : GraphChangenodeRequestPayload) : Server -> handled :=
  graph_handler (cn_secret payload) (cn_graph payload)
    (fun g => Done (change_node (cn_graph payload) (cn_name payload) (cn_metadata payload) g))
    (fun updated_metadata => [Send (RChangenode (cn_name payload) updated_metadata (cn_graph payload))]).

Definition handle_addedge (payload : GraphAddedgeRequestPayload) : Server -> handled :=
  graph_handler (ae_secret payload) (ae_graph payload)
    (fun g => Done (add_edge (ae_graph payload) (edge_from_addedge payload) g))
    (fun _ => [Send (RAddedge (ae_src payload) (ae_tgt payload) (ae_metadata payload) (ae_graph payload))]).

Definition handle_removeedge (payload : GraphRemoveedgeRequestPayload) : Server -> handled :=
  graph_handler (rq_secret payload) (rq_graph payload)
    (fun g => Done (remove_edge (rq_graph payload) (rq_src payload) (rq_tgt payload) g))
    (fun _ => [Send (RRemoveedge (mk_GraphRemoveedgeResponsePayload (rq_graph payload) (rq_src payload)
                                    (rq_tgt payload)))]).

Definition handle_changeedge (payload : GraphChangeedgeRequestPayload) : Server -> handled :=
  graph_handler (ce_secret payload) (ce_graph payload)
    (fun g => Done (change_edge (ce_graph payload) (ce_src payload) (ce_tgt payload) (ce_metadata payload) g))
    (fun _ => [Send (RChangeedge (ce_graph payload) (ce_src payload) (ce_tgt payload) (ce_metadata payload))]).

Definition handle_addinitial (payload : GraphAddinitialRequestPayload) : Server -> handled :=
  graph_handler (ai_secret payload) (ai_graph payload)
    (fun g => Done (add_initialip payload g))
    (fun _ => [Send (RAddinitial (ai_src payload) (ai_tgt payload) (ai_metadata payload) (ai_graph payload))]).

Definition handle_removeinitial (payload : GraphRemoveinitialRequestPayload) : Server -> handled :=
  graph_handler (ri_secret payload) (ri_graph payload)
    (fun g => Done (remove_initialip payload g))
    (fun removed_src => [Send (RRemoveinitial removed_src (ri_tgt payload) (ri_graph payload))]).

Definition handle_addinport (payload : GraphAddportRequestPayload) : Server -> handled :=
  graph_handler (ap_secret payload) (ap_graph payload)
    (fun g => Done (add_inport (ap_public payload) (port_from_addport payload) g))
    (fun _ => [Send (RAddinport (ap_graph payload) (ap_public payload) (ap_node payload) (ap_port payload))]).

Definition handle_removeinport (payload : RemoveportRequestPayload) : Server -> handled :=
  graph_handler (rmp_secret payload) (rmp_graph payload)
    (fun g => Done (remove_inport (rmp_public payload) g)) (fun _ => [Send RRemoveinport]).

Definition handle_renameinport (payload : RenameRequestPayload) : Server -> handled :=
  graph_handler (rn_secret payload) (rn_graph payload)
    (rename_inport (rn_from payload) (rn_to payload)) (fun _ => [Send RRenameinport]).

Definition handle_addoutport (payload : GraphAddportRequestPayload) : Server -> handled :=
  graph_handler (ap_secret payload) (ap_graph payload)
    (fun g => Done (add_outport (ap_public payload) (port_from_addport payload) g))
    (fun _ => [Send (RAddoutport (ap_graph payload) (ap_public payload) (ap_node payload) (ap_port payload))]).

Definition handle_removeoutport (payload : RemoveportRequestPayload) : Server -> handled :=
  graph_handler (rmp_secret payload) (rmp_graph payload)
    (fun g => Done (remove_outport (rmp_public payload) g))
    (fun _ => [Send (RRemoveoutport (rmp_graph payload) (rmp_public payload))]).

Definition handle_renameoutport (payload : RenameRequestPayload) : Server -> handled :=
  graph_handler (rn_secret payload) (rn_graph payload)
    (rename_outport (rn_from payload) (rn_to payload)) (fun _ => [Send RRenameoutport]).

Definition handle_addgroup (payload : GraphAddgroupRequestPayload) : Server -> handled :=
  graph_handler (ag_secret payload) (ag_graph payload)
    (fun g => Done (add_group (ag_graph payload) (ag_name payload) (ag_nodes payload) (ag_metadata payload) g))
    (fun _ => [Send RAddgroup]).

Definition handle_removegroup (payload : NamedRequestPayload) : Server -> handled :=
  graph_handler (nr_secret payload) (nr_graph payload)
    (fun g => Done (remove_group (nr_graph payload) (nr_name payload) g)) (fun _ => [Send RRemovegroup]).

Definition handle_renamegroup (payload : RenameRequestPayload) : Server -> handled :=
  graph_handler (rn_secret payload) (rn_graph payload)
    (fun g => Done (rename_group (rn_graph payload) (rn_from payload) (rn_to payload) g))
    (fun _ => [Send RRenamegroup]).

Definition handle_changegroup (payload : GraphChangegroupRequestPayload) : Server -> handled :=
  graph_handler (cg_secret payload) (cg_graph payload)
    (fun g => Done (change_group (cg_graph payload) (cg_name payload) (cg_metadata payload) g))
    (fun _ => [Send RChangegroup]).

(** * protocol:trace *)

Definition trace_result {A : Type} (respond : A -> Response) (res : result A io_error * Runtime)
    (s : Server) : handled :=
  match res.1 with
  | Ok a => Done ([Send (respond a)], set_runtime res.2 s)
  | Err e => Done ([Send (RTraceError (err_message e))], set_runtime res.2 s)
  end.

Definition handle_trace_start (payload : TraceRequestPayload) (s : Server) : handled :=
  if negb (sv_validate_secret (tr_secret payload) (tr_graph payload) s)
  then Done ([Send (RTraceError invalid_secret)], s)
  else trace_result (fun _ => RTraceStart (tr_graph payload))
         (start_trace (tr_graph payload) (tr_buffer_size payload) (sv_runtime s)) s.

Definition handle_trace_stop (payload : TraceRequestPayload) (s : Server) : handled :=
  if negb (sv_validate_secret (tr_secret payload) (tr_graph payload) s)
  then Done ([Send (RTraceError invalid_secret)], s)
  else trace_result (fun _ => RTraceStop (tr_graph payload))
         (stop_trace (tr_graph payload) (sv_runtime s)) s.

Definition handle_trace_clear (payload : TraceRequestPayload) (s : Server) : handled :=
  if negb (sv_validate_secret (tr_secret payload) (tr_graph payload) s)
  then Done ([Send (RTraceError invalid_secret)], s)
  else trace_result (fun _ => RTraceClear (tr_graph payload))
         (clear_trace (tr_graph payload) (sv_runtime s)) s.

Definition handle_trace_dump (payload : TraceRequestPayload) (s : Server) : handled :=
  if negb (validate_secret_readonly (tr_secret payload) (tr_graph payload) s)
  then Done ([Send (RTraceError invalid_secret)], s)
  else trace_result (fun dump => RTraceDump (tr_graph payload) dump)
         (dump_trace (tr_graph payload) (sv_runtime s)) s.

(** * protocol:runtime and protocol:component *)

Definition handle_getruntime (secret : option string) (s : Server) : handled :=
  let r := sv_runtime s in
  if negb (validate_secret_readonly secret (rt_graph r) s)
  then Done ([Send (RRuntimeError invalid_secret)], s)
  else
    let p := snapshot r in
    let p := if has_readonly_secret_for_graph secret (rp_graph p) s
                && negb (has_capability GraphReadonly (rp_capabilities p))
             then mk_RuntimeRuntimePayload (rp_id p) (rp_label p) (rp_version p)
                    (rp_all_capabilities p) (rp_capabilities p ++ [GraphReadonly]) (rp_graph p)
                    (rp_runtime p) (rp_namespace p) (rp_repository p) (rp_repository_version p)
             else p in
    let st := rt_status r in
    let* g := read_graph graph s in
    Done ([Send (RRuntime p);
           Send (RStatus (mk_NetworkStatusPayload (rt_graph r) (st_started st) (st_running st) (st_debug st)));
           Send (RPorts (rt_graph r) (ports_as_componentportsarray (g_inports g))
                   (ports_as_componentportsarray (g_outports g)))],
          set_client (update_from_runtime_payload p) s).

Definition handle_packetsent (s : Server) : handled :=
  Done ([Send (RRuntimeError "runtime:packetsent from client is an error")], s).

Definition handle_component_list (secret : option string) (s : Server) : handled :=
  let r := sv_runtime s in
  if negb (validate_secret_readonly secret (rt_graph r) s) then graph_error invalid_secret s
  else
    let active_graph := rt_graph r in
    let debug_status :=
      if can_receive_network_debug_for_graph active_graph (sv_client s)
      then [Send (RDebug active_graph (default false (st_debug (rt_status r))))]
      else [] in
    Done (map (fun c => Send (RComponent c)) (available components)
          ++ [Send (RComponentsready (u32_of_u64 (N.of_nat (length (available components)))))]
          ++ debug_status, s).

(** The debug log reads the source a first time. *)
Definition handle_component_getsource (name : string) (secret : option string) (s : Server) : handled :=
  if negb (validate_secret_readonly secret (rt_graph (sv_runtime s)) s) then graph_error invalid_secret s
  else
    let* g := read_graph graph s in
    if String.eqb (g_name g) name then
      let* logged := graph_get_source to_string name g in
      match logged with
      | Err _ => Panicked
      | Ok _ =>
          let* source := graph_get_source to_string name g in
          match source with
          | Ok source_info => Done ([Send (RSource source_info)], s)
          | Err e => graph_error (err_message e) s
          end
      end
    else
      match library_get_source name components with
      | Ok source_info => Done ([Send (RSource source_info)], s)
      | Err e => graph_error (err_message e) s
      end.

(** * protocol:network *)

Definition network_error (message graph_name : string) (s : Server) : handled :=
  Done ([Send (RNetworkError message "" graph_name)], s).

(** The secret and the existence of the graph, which the network handlers
    check first. *)
Definition network_handler (access : AccessLevel) (secret : option string) (graph_name : string)
    (k : Server -> handled) (s : Server) : handled :=
  if negb (is_Ok (validate_secret_with_access secret graph_name access (sv_runtime s)))
  then network_error invalid_secret graph_name s
  else
    let* target := get_graph_by_name graph_name s in
    match target with
    | Err _ => network_error "Requested graph not found" graph_name s
    | Ok _ => k s
    end.

(** The loop that waits for a short network to finish: the status as read by
    successive polls. *)
Fixpoint poll_status (reads : list RuntimeStatus) (snapshot : RuntimeStatus) : RuntimeStatus :=
  match reads with
  | [] => snapshot
  | next :: rest => if negb (st_running next) then next else poll_status rest next
  end.

(** [reads] are the (at most ten) statuses that other threads leave while the
    handler waits. *)
Definition handle_getstatus (reads : list RuntimeStatus) (payload : NetworkRequestPayload) :
    Server -> handled :=
  network_handler ReadOnly (nw_secret payload) (nw_graph payload) (fun s =>
    let snapshot := rt_status (sv_runtime s) in
    let status :=
      if String.eqb (st_graph snapshot) (nw_graph payload) && st_started snapshot && st_running snapshot
      then poll_status reads snapshot else snapshot in
    let status_payload :=
      if String.eqb (st_graph status) (nw_graph payload) then
        let p := new_status_payload status in
        if sp_started p && sp_running p
        then mk_NetworkStatusPayload (sp_graph p) (sp_started p) false (sp_debug p) else p
      else mk_NetworkStatusPayload (nw_graph payload) false false (st_debug status) in
    Done ([Send (RStatus status_payload)], s)).

Definition handle_network_edges (payload : NetworkEdgesRequestPayload) : Server -> handled :=
  network_handler ReadWrite (ne_secret payload) (ne_graph payload) (fun s =>
    let res := set_debug_edges (ne_graph payload) (ne_edges payload) (sv_runtime s) in
    match res.1 with
    | Ok _ => Done ([Send (REdges (ne_graph payload) (ne_edges payload))], set_runtime res.2 s)
    | Err e => network_error (err_message e) (ne_graph payload) (set_runtime res.2 s)
    end).

Definition handle_network_debug (payload : NetworkDebugRequestPayload) : Server -> handled :=
  network_handler ReadWrite (nd_secret payload) (nd_graph payload) (fun s =>
    let res := debug_mode (nd_graph payload) (nd_enable payload) (sv_runtime s) in
    match res.1 with
    | Ok _ => Done ([Send (RDebug (nd_graph payload) (nd_enable payload))], set_runtime res.2 s)
    | Err e => network_error (err_message e) (nd_graph payload) (set_runtime res.2 s)
    end).

(** [NetworkStoppedResponse::new]; [now] in nanoseconds. *)
Definition stopped_response (now : N) (st : RuntimeStatus) : Response :=
  RStopped now ((now - st_time_started st) / 1000000000)%N (new_status_payload st).

(** Both branches set the same status; only a running network still has its
    teardown to do. *)
Definition handle_network_stop (now : N) (payload : NetworkRequestPayload) : Server -> handled :=
  network_handler ReadWrite (nw_secret payload) (nw_graph payload) (fun s =>
    let st := rt_status (sv_runtime s) in
    if negb (String.eqb (st_graph st) (nw_graph payload))
    then network_error "requested graph is not the running network" (nw_graph payload) s
    else
      let st' := mk_RuntimeStatus (st_time_started st) (nw_graph payload) false false (st_debug st) in
      let s' := set_runtime (set_status st' (sv_runtime s)) s in
      if negb (st_running st)
      then Done ([Send (stopped_response now st'); Broadcast (RStatus (new_status_payload st'))], s')
      else Done ([Send (stopped_response now st'); Broadcast (RStatus (new_status_payload st'));
                  SpawnRuntimeStop], s')).

(** * Dispatch *)

(** The last arm: the connection is closed. *)
Definition handle_unhandled (u : UnhandledMessage) (s : Server) : handled := Done ([CloseConnection], s).

Definition handle (now : N) (reads : list RuntimeStatus) (m : FBPMessage) : Server -> handled :=
  match m with
  | MGetruntime secret => handle_getruntime secret
  | MComponentList secret => handle_component_list secret
  | MComponentGetsource name secret => handle_component_getsource name secret
  | MGetstatus p => handle_getstatus reads p
  | MNetworkEdges p => handle_network_edges p
  | MNetworkDebug p => handle_network_debug p
  | MNetworkStop p => handle_network_stop now p
  | MClear p => handle_clear p
  | MAddnode p => handle_addnode p
  | MRemovenode p => handle_removenode p
  | MRenamenode p => handle_renamenode p
  | MChangenode p => handle_changenode p
  | MAddedge p => handle_addedge p
  | MRemoveedge p => handle_removeedge p
  | MChangeedge p => handle_changeedge p
  | MAddinitial p => handle_addinitial p
  | MRemoveinitial p => handle_removeinitial p
  | MAddinport p => handle_addinport p
  | MRemoveinport p => handle_removeinport p
  | MRenameinport p => handle_renameinport p
  | MAddoutport p => handle_addoutport p
  | MRemoveoutport p => handle_removeoutport p
  | MRenameoutport p => handle_renameoutport p
  | MAddgroup p => handle_addgroup p
  | MRemovegroup p => handle_removegroup p
  | MRenamegroup p => handle_renamegroup p
  | MChangegroup p => handle_changegroup p
  | MTraceStart p => handle_trace_start p
  | MTraceStop p => handle_trace_stop p
  | MTraceClear p => handle_trace_clear p
  | MTraceDump p => handle_trace_dump p
  | MPacketsent => handle_packetsent
  | MUnhandled u => handle_unhandled u
  end.
End server.
