(* ===== verification/ServerTheorems.v ===== *)
(** What is proved about the handlers of the protocol server: which of them
    unwind, what a refused secret leaves, that a request changes only the graph it
    addresses, and that the graph messages implement the graph operations. *)
From S2P Require Import Prelude Api Graph GraphTheorems Runtime RuntimeTheorems Server.
From Stdlib Require Strings.String.
From Stdlib Require Import NArith ZArith Lia.
From stdpp Require Import base list strings gmap.
Local Open Scope string_scope.
Local Open Scope list_scope.
Local Open Scope flowd_scope.

Section spec.
Context `{J : SerdeJson}.

(** The secret and the graph under which a message that may write is
    checked. *)
Definition write_request (m : FBPMessage) : option (option string * string) :=
  match m with
  | MGetruntime _ | MComponentList _ | MComponentGetsource _ _ | MGetstatus _ | MTraceDump _
  | MPacketsent | MUnhandled _ => None
  | MNetworkEdges p => Some (ne_secret p, ne_graph p)
  | MNetworkDebug p => Some (nd_secret p, nd_graph p)
  | MNetworkStop p => Some (nw_secret p, nw_graph p)
  | MClear p => Some (clr_secret p, clr_name p)
  | MAddnode p => (fun g => (an_secret p, g)) <$> an_graph p
  | MRemovenode p | MRemovegroup p => Some (nr_secret p, nr_graph p)
  | MRenamenode p | MRenameinport p | MRenameoutport p | MRenamegroup p => Some (rn_secret p, rn_graph p)
  | MChangenode p => Some (cn_secret p, cn_graph p)
  | MAddedge p => Some (ae_secret p, ae_graph p)
  | MRemoveedge p => Some (rq_secret p, rq_graph p)
  | MChangeedge p => Some (ce_secret p, ce_graph p)
  | MAddinitial p => Some (ai_secret p, ai_graph p)
  | MRemoveinitial p => Some (ri_secret p, ri_graph p)
  | MAddinport p | MAddoutport p => Some (ap_secret p, ap_graph p)
  | MRemoveinport p | MRemoveoutport p => Some (rmp_secret p, rmp_graph p)
  | MAddgroup p => Some (ag_secret p, ag_graph p)
  | MChangegroup p => Some (cg_secret p, cg_graph p)
  | MTraceStart p | MTraceStop p | MTraceClear p => Some (tr_secret p, tr_graph p)
  end.

(** The graph operation that a message of the graph protocol stands for. *)
Definition graph_message (m : FBPMessage) : option graph_request :=
  match m with
  | MAddnode p =>
      (fun gr => RqAddNode gr (an_component p) (an_name p)
         (match an_icon p with
          | Some icon => jm_insert "icon" (jv_from_string icon) (an_metadata p)
          | None => an_metadata p
          end)) <$> an_graph p
  | MRemovenode p => Some (RqRemoveNode (nr_graph p) (nr_name p))
  | MRenamenode p => Some (RqRenameNode (rn_graph p) (rn_from p) (rn_to p))
  | MChangenode p => Some (RqChangeNode (cn_graph p) (cn_name p) (cn_metadata p))
  | MAddedge p => Some (RqAddEdge (ae_graph p) (edge_from_addedge p))
  | MRemoveedge p => Some (RqRemoveEdge (rq_graph p) (rq_src p) (rq_tgt p))
  | MChangeedge p => Some (RqChangeEdge (ce_graph p) (ce_src p) (ce_tgt p) (ce_metadata p))
  | MAddinitial p => Some (RqAddInitial p)
  | MRemoveinitial p => Some (RqRemoveInitial p)
  | MAddinport p => Some (RqAddInport (ap_public p) (port_from_addport p))
  | MRemoveinport p => Some (RqRemoveInport (rmp_public p))
  | MRenameinport p => Some (RqRenameInport (rn_from p) (rn_to p))
  | MAddoutport p => Some (RqAddOutport (ap_public p) (port_from_addport p))
  | MRemoveoutport p => Some (RqRemoveOutport (rmp_public p))
  | MRenameoutport p => Some (RqRenameOutport (rn_from p) (rn_to p))
  | MAddgroup p => Some (RqAddGroup (ag_graph p) (ag_name p) (ag_nodes p) (ag_metadata p))
  | MRemovegroup p => Some (RqRemoveGroup (nr_graph p) (nr_name p))
  | MRenamegroup p => Some (RqRenameGroup (rn_graph p) (rn_from p) (rn_to p))
  | MChangegroup p => Some (RqChangeGroup (cg_graph p) (cg_name p) (cg_metadata p))
  | _ => None
  end.

Definition is_error (o : Output) : bool :=
  match o with
  | Send (RGraphError _ | RNetworkError _ _ _ | RTraceError _ | RRuntimeError _) => true
  | _ => false
  end.

(** What reaches the client that asked, and nothing else. *)
Definition replies (o : Output) : bool :=
  match o with Send _ | CloseConnection => true | _ => false end.

(** A message to the client that asked. *)
Definition sends (o : Output) : bool :=
  match o with Send _ => true | _ => false end.

(** Every registered graph, and the connection's, exists. *)
Record server_inv (graph : positive) (s : Server) : Prop := {
  inv_graph : is_Some (sv_store s !! graph);
  inv_manager k l : mg_graphs (rt_graphs (sv_runtime s)) !! k = Some l -> is_Some (sv_store s !! l)
}.

(** Which graph a name addresses. *)
Definition resolves (graph : positive) (name : string) (s : Server) (loc : positive) : Prop :=
  get_graph_by_name graph name s = Done (Ok loc).
End spec.

Section lemmas.
Context `{J : SerdeJson}.
Context (graph : positive) (components : ComponentLibrary) (to_string : Graph -> option string).

Lemma outcome_bind_Done {A B} (o : outcome A) (f : A -> outcome B) b :
  outcome_bind o f = Done b -> exists a, o = Done a /\ f a = Done b.
Proof. destruct o; [eauto|done]. Qed.

Lemma expect_inv {A} (o : option A) a : expect o = Done a -> o = Some a.
Proof. by apply expect_Done. Qed.

Lemma valid_granted secret gn s :
  sv_validate_secret secret gn s = true <-> granted secret gn (sv_runtime s) = Some ReadWrite.
Proof. unfold sv_validate_secret. rewrite validate_granted. naive_solver. Qed.

Lemma not_granted secret gn s :
  granted secret gn (sv_runtime s) <> Some ReadWrite -> sv_validate_secret secret gn s = false.
Proof. intros H. apply not_true_is_false. by rewrite valid_granted. Qed.

Lemma get_graph_by_name_total name s :
  server_inv graph s ->
  exists r, get_graph_by_name graph name s = Done r /\
    forall loc, r = Ok loc -> is_Some (sv_store s !! loc).
Proof.
  intros [[g Hg] Hm]. unfold get_graph_by_name, get_graph, read_graph.
  destruct (mg_graphs (rt_graphs (sv_runtime s)) !! name) as [loc|] eqn:Hl.
  - eexists. split; [done|]. intros ? [= <-]. by eapply Hm.
  - rewrite Hg. simpl. destruct (String.eqb _ _); (eexists; split; [done|]); [|done].
    intros ? [= <-]. by eexists.
Qed.

(** A graph handler either leaves the state alone or, with write access,
    replaces the graph it addresses by what the operation made of it. *)
Lemma graph_handler_cases {A} secret gn (f : Graph -> outcome (result A io_error * Graph)) respond s o s' :
  graph_handler graph secret gn f respond s = Done (o, s') ->
  s' = s \/
  (granted secret gn (sv_runtime s) = Some ReadWrite /\
   exists loc g r, resolves graph gn s loc /\ sv_store s !! loc = Some g /\ f g = Done r /\
     s' = set_store (<[loc := r.2]> (sv_store s)) s).
Proof.
  unfold graph_handler. destruct (sv_validate_secret secret gn s) eqn:Hv; simpl;
    [|unfold graph_error; intros; simplify_eq; by left].
  apply valid_granted in Hv.
  intros (target & Ht & H)%outcome_bind_Done. destruct target as [loc|e];
    [|unfold graph_error in H; simplify_eq; by left].
  apply outcome_bind_Done in H as ([res s1] & Hon & H).
  unfold on_graph in Hon. apply outcome_bind_Done in Hon as (g & Hg%expect_inv & Hon).
  apply outcome_bind_Done in Hon as (r & Hf & Hon). simplify_eq. right. split; [done|].
  exists loc, g, r. split_and!; try done. simpl in H.
  unfold graph_error in H. destruct r.1; by simplify_eq.
Qed.

(** With an operation that implements the request, the handler does what the
    request does and reports its outcome. *)
Lemma graph_handler_refines {A} rq secret gn f (respond : A -> list Output) s loc g :
  granted secret gn (sv_runtime s) = Some ReadWrite -> resolves graph gn s loc ->
  sv_store s !! loc = Some g ->
  (forall g, run_request rq g = let* r := f g in unit_result r) ->
  (forall a, existsb is_error (respond a) = false /\ respond a <> []) ->
  exists outs r g', run_request rq g = Done (r, g') /\
    graph_handler graph secret gn f respond s = Done (outs, set_store (<[loc := g']> (sv_store s)) s) /\
    (is_err r = true -> exists e, outs = [Send (RGraphError e)]) /\
    (is_err r = false -> existsb is_error outs = false /\ outs <> []).
Proof.
  intros Hv%valid_granted Hres Hg Hf Hresp. unfold graph_handler. rewrite Hv. simpl.
  unfold resolves in Hres. rewrite Hres. simpl. unfold on_graph, read_graph. rewrite Hg. simpl.
  destruct (run_request_total rq g) as [[r g'] Hrun]. rewrite Hrun. rewrite Hf in Hrun.
  destruct (f g) as [[[a|e] g1]|]; simpl in *; [| |done]; unfold unit_result in Hrun; simplify_eq; simpl.
  - exists (respond a), (Ok tt), g'. split_and!; try done; intros _; apply Hresp.
  - eexists _, (Err e), g'. split_and!; try done; eauto.
Qed.

Lemma unit_result_id (o : outcome (result unit io_error * Graph)) :
  o = let* r := o in unit_result r.
Proof. by destruct o as [[[[]|e] g]|]. Qed.

Lemma graph_handler_denied {A} secret gn (f : Graph -> outcome (result A io_error * Graph)) respond s :
  granted secret gn (sv_runtime s) <> Some ReadWrite ->
  graph_handler graph secret gn f respond s = graph_error invalid_secret s.
Proof. intros H. unfold graph_handler. by rewrite not_granted. Qed.

Lemma graph_handler_unresolved {A} secret gn (f : Graph -> outcome (result A io_error * Graph)) respond s e :
  granted secret gn (sv_runtime s) = Some ReadWrite -> get_graph_by_name graph gn s = Done (Err e) ->
  graph_handler graph secret gn f respond s = graph_error (err_message e) s.
Proof. intros Hv%valid_granted Hr. unfold graph_handler. rewrite Hv. simpl. by rewrite Hr. Qed.

Lemma server_inv_store g' loc s :
  is_Some (sv_store s !! loc) -> server_inv graph s -> server_inv graph (set_store (<[loc := g']> (sv_store s)) s).
Proof.
  intros Hl [Hg Hm]. constructor; simpl.
  - rewrite lookup_insert. by destruct (decide _).
  - intros k l Hk. rewrite lookup_insert. destruct (decide _); [by eexists|by eapply Hm].
Qed.

Lemma server_inv_runtime r s :
  rt_graphs r = rt_graphs (sv_runtime s) -> server_inv graph s -> server_inv graph (set_runtime r s).
Proof. intros Hr [Hg Hm]. constructor; simpl; [done|]. by rewrite Hr. Qed.

(** The handler terminates normally, with an answer, in a state that
    satisfies the invariant. *)
Definition answers (h : handled) : Prop :=
  exists outs s', h = Done (outs, s') /\ existsb sends outs = true /\ server_inv graph s'.

Lemma graph_handler_answers {A} secret gn (f : Graph -> outcome (result A io_error * Graph)) respond s :
  server_inv graph s -> (forall g, exists r, f g = Done r) -> (forall a, existsb sends (respond a) = true) ->
  answers (graph_handler graph secret gn f respond s).
Proof.
  intros Hinv Hf Hresp. unfold answers, graph_handler, graph_error.
  destruct (sv_validate_secret secret gn s); simpl; [|by eexists _, _].
  destruct (get_graph_by_name_total gn s Hinv) as ([loc|e] & -> & Hloc); simpl; [|by eexists _, _].
  destruct (Hloc _ eq_refl) as [g Hg]. unfold on_graph, read_graph. rewrite Hg. simpl.
  destruct (Hf g) as [[[a|e] g'] ->]; simpl; eexists _, _; (split; [done|]); (split; [done|]);
    apply server_inv_store; eauto.
Qed.

Lemma network_handler_answers access secret gn k s :
  server_inv graph s -> answers (k s) -> answers (network_handler graph access secret gn k s).
Proof.
  intros Hinv Hk. unfold network_handler, network_error.
  destruct (is_Ok _); simpl; [|by eexists _, _].
  destruct (get_graph_by_name_total gn s Hinv) as ([loc|e] & -> & _); simpl; [done|by eexists _, _].
Qed.

Lemma trace_answers {A} (denied : bool) (respond : A -> Response) (res : result A io_error * Runtime) s :
  server_inv graph s -> rt_graphs res.2 = rt_graphs (sv_runtime s) ->
  answers (if denied then Done ([Send (RTraceError invalid_secret)], s) else trace_result respond res s).
Proof.
  intros Hinv Hr. destruct denied; [by eexists _, _|]. unfold trace_result.
  destruct res.1; eexists _, _; (split; [done|]); (split; [done|]); by apply server_inv_runtime.
Qed.

Lemma trace_keeps_graphs gn n r :
  rt_graphs (start_trace gn n r).2 = rt_graphs r /\ rt_graphs (stop_trace gn r).2 = rt_graphs r /\
  rt_graphs (clear_trace gn r).2 = rt_graphs r /\ rt_graphs (dump_trace gn r).2 = rt_graphs r.
Proof.
  unfold start_trace, stop_trace, clear_trace, dump_trace, wrong_trace_graph.
  by destruct (negb _), (rt_tracing r).
Qed.

Lemma clear_answers p s : server_inv graph s -> answers (handle_clear graph p s).
Proof.
  intros Hinv. unfold answers, handle_clear, graph_error. destruct (negb _); [by eexists _, _|].
  destruct (inv_graph _ _ Hinv) as [g Hg]. unfold on_graph, read_graph. rewrite Hg. simpl.
  unfold clear. destruct (st_running _); simpl.
  { eexists _, _. split; [done|]. split; [done|]. apply server_inv_store; eauto. }
  eexists _, _. split; [done|]. split; [done|]. constructor; simpl; [by rewrite lookup_insert_eq; eexists|].
  intros k l. unfold set_active_graph; simpl.
  assert (forall m : gmap string positive, (forall k l, m !! k = Some l -> <[clr_name p := graph]> (mg_graphs (rt_graphs (sv_runtime s))) !! k = Some l) ->
    m !! k = Some l -> is_Some (<[graph := mk_Graph (g_case_sensitive g)
        (mk_GraphProperties (clr_name p) (gp_environment (g_properties g))
           (default "" (clr_description p)) (default "" (clr_icon p))) ∅ ∅ [] ∅ []]> (sv_store s) !! l)) as Hgo.
  { intros m Hm Hk%Hm. rewrite lookup_insert in Hk. rewrite lookup_insert.
    destruct (decide (graph = l)); [by eexists|]. destruct (decide (clr_name p = k)); simplify_eq.
    by eapply Hinv. }
  destruct (negb _); simpl; (destruct (_ !! clr_name p); simpl; apply Hgo; intros ? ?);
    rewrite ?lookup_delete; try done; by destruct (decide _).
Qed.
End lemmas.

Section contract.
Context `{J : SerdeJson}.
Context (graph : positive) (components : ComponentLibrary) (to_string : Graph -> option string).

(** Without write access a message that may write is refused. *)
Lemma refused_frame now reads m secret gn s o s' :
  write_request m = Some (secret, gn) -> sv_validate_secret secret gn s = false ->
  handle graph components to_string now reads m s = Done (o, s') ->
  sv_store s' = sv_store s /\ sv_runtime s' = sv_runtime s /\ forallb replies o = true.
Proof.
  intros Hm Hv H. destruct m; simpl in Hm; simplify_eq; cbn [handle] in H;
    unfold handle_removenode, handle_renamenode, handle_changenode, handle_addedge, handle_removeedge,
      handle_changeedge, handle_addinitial, handle_removeinitial, handle_addinport, handle_removeinport,
      handle_renameinport, handle_addoutport, handle_removeoutport, handle_renameoutport, handle_addgroup,
      handle_removegroup, handle_renamegroup, handle_changegroup, graph_handler,
      handle_network_edges, handle_network_debug, handle_network_stop, network_handler,
      handle_clear, handle_addnode, handle_trace_start, handle_trace_stop, handle_trace_clear,
      sv_validate_secret in *;
    try (rewrite Hv in H; unfold graph_error, network_error in H; simpl in H; simplify_eq; by repeat split).
  destruct (an_graph p); simpl in Hm; simplify_eq. rewrite Hv in H.
  unfold graph_error in H. simpl in H. simplify_eq. by repeat split.
Qed.

(** The messages that only read. *)
Lemma read_only_frame now reads m s o s' :
  write_request m = None -> handle graph components to_string now reads m s = Done (o, s') ->
  sv_store s' = sv_store s /\ sv_runtime s' = sv_runtime s /\ forallb replies o = true.
Proof.
  intros Hm H. destruct m; simpl in Hm; try done; cbn [handle] in H.
  - unfold handle_getruntime in H. destruct (negb _); [simplify_eq; by repeat split|].
    apply outcome_bind_Done in H as (g & _ & H). simplify_eq; by repeat split.
  - unfold handle_component_list, graph_error in H. destruct (negb _); simplify_eq; [by repeat split|]. split; [done|]. split; [done|].
    rewrite !forallb_app. apply andb_true_iff. split; [by induction (available components)|].
    simpl. by destruct (can_receive_network_debug_for_graph _ _).
  - unfold handle_component_getsource, graph_error in H. destruct (negb _); [simplify_eq; by repeat split|].
    apply outcome_bind_Done in H as (g & _ & H). destruct (String.eqb _ _).
    + apply outcome_bind_Done in H as ([] & _ & H); [|done].
      apply outcome_bind_Done in H as ([] & _ & H); simplify_eq; by repeat split.
    + destruct (library_get_source _ _); simplify_eq; by repeat split.
  - unfold handle_getstatus, network_handler, network_error in H. destruct (negb _); [simplify_eq; by repeat split|].
    apply outcome_bind_Done in H as ([] & _ & H); simplify_eq; by repeat split.
  - unfold handle_addnode, graph_error in H. destruct (an_graph p); [done|]. simplify_eq; by repeat split.
  - unfold handle_trace_dump, trace_result, dump_trace, wrong_trace_graph, io_err in H.
    destruct (negb _); [simplify_eq; by repeat split|]. destruct (negb _); simpl in H; simplify_eq; by repeat split.
  - unfold handle_packetsent in H. simplify_eq; by repeat split.
  - unfold handle_unhandled in H. simplify_eq; by repeat split.
Qed.

(** A message of this part of the protocol that changes a graph or the runtime
    carries a secret that the runtime grants read-write access to the graph it
    names. *)
Lemma changes_need_write_access now reads m s o s' :
  handle graph components to_string now reads m s = Done (o, s') ->
  (sv_store s' = sv_store s /\ sv_runtime s' = sv_runtime s /\ forallb replies o = true) \/
  exists secret gn, write_request m = Some (secret, gn) /\
    granted secret gn (sv_runtime s) = Some ReadWrite.
Proof.
  intros H. destruct (write_request m) as [[secret gn]|] eqn:Hm; [|left; by eapply read_only_frame].
  destruct (sv_validate_secret secret gn s) eqn:Hv; [|left; by eapply refused_frame].
  right. exists secret, gn. split; [done|by apply valid_granted].
Qed.

(** With write access to an existing graph, a message has exactly the effect
    of the operation it stands for on the addressed graph, nothing else
    changes, and the client is told an error exactly when the operation was
    refused. *)
Lemma graph_message_refines now reads m rq secret gn s loc g :
  graph_message m = Some rq -> write_request m = Some (secret, gn) ->
  granted secret gn (sv_runtime s) = Some ReadWrite ->
  resolves graph gn s loc -> sv_store s !! loc = Some g ->
  exists outs r g', run_request rq g = Done (r, g') /\
    handle graph components to_string now reads m s = Done (outs, set_store (<[loc := g']> (sv_store s)) s) /\
    (is_err r = true -> exists e, outs = [Send (RGraphError e)]) /\
    (is_err r = false -> existsb is_error outs = false /\ outs <> []).
Proof.
  intros Hm Hw Hgr Hres Hg.
  destruct m; simpl in Hm, Hw; simplify_eq; cbn [handle];
    try (eapply graph_handler_refines; try done; intros ?; by (try destruct a)).
  - (* addnode: the frame has its own messages *)
    destruct (an_graph p) as [gr|] eqn:Hgr'; simpl in *; simplify_eq.
    unfold handle_addnode. rewrite Hgr'. apply valid_granted in Hgr. rewrite Hgr. simpl.
    unfold resolves in Hres. rewrite Hres. simpl. unfold on_graph, read_graph. rewrite Hg. simpl.
    cbn [run_request]. unfold unit_result.
    destruct (add_node_from_payload _ _ _ _ g) as [[a|e] g'] eqn:Ha; simpl.
    + eexists _, _, _. split; [done|]. split_and!; done.
    + eexists _, _, _. split; [done|]. split_and!; try done. eauto.
  - (* removenode: one response per removed edge *)
    eapply graph_handler_refines; try done. intros removed. split; [|by destruct removed].
    rewrite existsb_app. by induction removed.
  - eapply graph_handler_refines; try done. intros ?. apply unit_result_id.
  - eapply graph_handler_refines; try done. intros ?. apply unit_result_id.
  - eapply graph_handler_refines; try done. intros ?. apply unit_result_id.
Qed.

Lemma addnode_answers p s : server_inv graph s -> answers graph (handle_addnode graph p s).
Proof.
  intros Hinv. unfold answers, handle_addnode, graph_error.
  destruct (an_graph p) as [gn|]; [|by eexists _, _]. destruct (negb _); [by eexists _, _|].
  destruct (get_graph_by_name_total graph gn s Hinv) as ([loc|e] & -> & Hloc); simpl; [|by eexists _, _].
  destruct (Hloc _ eq_refl) as [g Hg]. unfold on_graph, read_graph. rewrite Hg. simpl.
  destruct (add_node_from_payload _ _ _ _ g) as [[a|e] g']; simpl; eexists _, _; (split; [done|]);
    (split; [done|]); apply server_inv_store; eauto.
Qed.

Lemma getsource_answers name secret s :
  server_inv graph s -> (forall g, is_Some (to_string g)) ->
  answers graph (handle_component_getsource graph components to_string name secret s).
Proof.
  intros Hinv Hts. unfold answers, handle_component_getsource, graph_error.
  destruct (negb _); [by eexists _, _|].
  destruct (inv_graph _ _ Hinv) as [g Hg]. unfold read_graph. rewrite Hg. simpl.
  destruct (String.eqb_spec (g_name g) name) as [<-|Hne].
  - unfold graph_get_source. rewrite String.eqb_refl. destruct (Hts g) as [code ->]. simpl. by eexists _, _.
  - destruct (library_get_source _ _); by eexists _, _.
Qed.

(** No message of this part of the protocol brings the server down: each that
    clients may send is handled to the end and answered with at least one
    message to the client, and the graphs the server refers to keep existing. *)
Lemma requests_answered now reads m s :
  server_inv graph s -> (forall g, is_Some (to_string g)) -> (forall u, m <> MUnhandled u) ->
  exists outs s', handle graph components to_string now reads m s = Done (outs, s') /\
    existsb sends outs = true /\ server_inv graph s'.
Proof.
  intros Hinv Hts Hun. change (answers graph (handle graph components to_string now reads m s)).
  assert (forall rq g, exists r, run_request rq g = Done r) as Htot by apply run_request_total.
  destruct m; cbn [handle];
    try (apply graph_handler_answers; [done|by eauto|done]);
    try (apply trace_answers; [done|apply trace_keeps_graphs; exact 0%N]).
  - unfold handle_getruntime. destruct (negb _); [by eexists _, _|].
    destruct (inv_graph _ _ Hinv) as [g Hg]. unfold read_graph. rewrite Hg. simpl.
    eexists _, _. split; [done|]. split; [done|]. by destruct Hinv.
  - unfold handle_component_list, graph_error. destruct (negb _); [by eexists _, _|].
    eexists _, _. split; [done|]. split; [|done].
    destruct (available components); [done|]. done.
  - by apply getsource_answers.
  - apply network_handler_answers; [done|]. by eexists _, _.
  - apply network_handler_answers; [done|]. unfold set_debug_edges, network_error.
    destruct (get_graph _ _); simpl; eexists _, _; (split; [done|]); (split; [done|]);
      by apply server_inv_runtime.
  - apply network_handler_answers; [done|]. unfold debug_mode, network_error.
    destruct (get_graph _ _); simpl; eexists _, _; (split; [done|]); (split; [done|]);
      by apply server_inv_runtime.
  - apply network_handler_answers; [done|]. unfold network_error. destruct (negb _); [by eexists _, _|].
    destruct (negb _); eexists _, _; (split; [done|]); (split; [done|]); by apply server_inv_runtime.
  - by apply clear_answers.
  - by apply addnode_answers.
  - apply graph_handler_answers; [done|by eauto|]. intros a. by destruct a.
  - apply graph_handler_answers; [done| |done].
    exact (Htot (RqRenameNode (rn_graph p) (rn_from p) (rn_to p))).
  - apply graph_handler_answers; [done| |done]. exact (Htot (RqRenameInport (rn_from p) (rn_to p))).
  - apply graph_handler_answers; [done| |done]. exact (Htot (RqRenameOutport (rn_from p) (rn_to p))).
  - by eexists _, _.
  - by destruct (Hun u).
Qed.

(** A graph message changes at most the graph that it addresses. *)
Lemma graph_message_frame now reads m rq s o s' :
  graph_message m = Some rq -> handle graph components to_string now reads m s = Done (o, s') ->
  s' = s \/ exists secret gn loc g', write_request m = Some (secret, gn) /\ resolves graph gn s loc /\
    s' = set_store (<[loc := g']> (sv_store s)) s.
Proof.
  intros Hm H.
  assert (forall A secret gn (f : Graph -> outcome (result A io_error * Graph)) respond,
    graph_handler graph secret gn f respond s = Done (o, s') -> write_request m = Some (secret, gn) ->
    s' = s \/ exists secret gn loc g', write_request m = Some (secret, gn) /\ resolves graph gn s loc /\
      s' = set_store (<[loc := g']> (sv_store s)) s) as Hgh.
  { intros A secret gn f respond Hh Hw.
    apply graph_handler_cases in Hh as [->|(_ & loc & g & r & Hres & _ & _ & ->)]; [by left|right].
    by exists secret, gn, loc, r.2. }
  destruct m; simpl in Hm; try done; cbn [handle] in H; try (by eapply Hgh).
  unfold handle_addnode, graph_error in H. simpl in *. destruct (an_graph p) as [gn|]; [|done].
  destruct (negb _); [simplify_eq; by left|].
  apply outcome_bind_Done in H as (target & Ht & H). destruct target as [loc|e]; [|simplify_eq; by left].
  apply outcome_bind_Done in H as ([res s1] & Hon & H). unfold on_graph in Hon.
  apply outcome_bind_Done in Hon as (g & _ & Hon). simpl in Hon. simplify_eq. right.
  eexists _, gn, loc, _. split; [done|]. split; [done|]. simpl in H.
  destruct (add_node_from_payload _ _ _ _ g).1; by simplify_eq.
Qed.

(** [graph:clear] changes the connection's graph. *)
Lemma clear_frame now reads p s o s' l :
  handle graph components to_string now reads (MClear p) s = Done (o, s') -> l <> graph ->
  sv_store s' !! l = sv_store s !! l.
Proof.
  cbn [handle]. unfold handle_clear, graph_error. intros H Hl. destruct (negb _); [by simplify_eq|].
  apply outcome_bind_Done in H as ([res s1] & Hon & H). unfold on_graph in Hon.
  apply outcome_bind_Done in Hon as (g & _ & Hon). apply outcome_bind_Done in Hon as (r & _ & Hon).
  simplify_eq. simpl in H. destruct r.1; simplify_eq; simpl; by rewrite lookup_insert_ne.
Qed.

(** Every other message keeps the graphs and their registration. *)
Lemma runtime_message_frame now reads m s o s' :
  graph_message m = None -> (forall p, m <> MClear p) ->
  handle graph components to_string now reads m s = Done (o, s') ->
  sv_store s' = sv_store s /\ mg_graphs (rt_graphs (sv_runtime s')) = mg_graphs (rt_graphs (sv_runtime s)).
Proof.
  intros Hg Hc H. destruct (write_request m) as [[secret gn]|] eqn:Hm.
  2: { by apply read_only_frame in H as (-> & -> & _). }
  destruct m; simpl in Hg, Hm; try done; cbn [handle] in H;
    try (unfold handle_network_edges, handle_network_debug, handle_network_stop, network_handler,
           network_error in H; destruct (negb _); [by simplify_eq|];
         apply outcome_bind_Done in H as ([] & _ & H); [|by simplify_eq]);
    try (progress (unfold handle_trace_start, handle_trace_stop, handle_trace_clear, trace_result in H);
         destruct (negb _); [by simplify_eq|]).
  - unfold set_debug_edges in H. destruct (get_graph _ _); by simplify_eq/=.
  - unfold debug_mode in H. destruct (get_graph _ _); by simplify_eq/=.
  - destruct (negb _); [by simplify_eq|]. destruct (negb _); by simplify_eq.
  - by destruct (Hc p).
  - by destruct (an_graph p).
  - unfold start_trace, wrong_trace_graph, io_err in H. repeat case_match; by simplify_eq/=.
  - unfold stop_trace, wrong_trace_graph, io_err in H. repeat case_match; by simplify_eq/=.
  - unfold clear_trace, wrong_trace_graph, io_err in H. repeat case_match; by simplify_eq/=.
Qed.

(** A request changes at most the graph that its graph name addresses
    ([graph:clear] changes the connection's own graph), and only [graph:clear]
    changes which graphs are registered. *)
Theorem requests_are_local now reads m s o s' l :
  handle graph components to_string now reads m s = Done (o, s') ->
  (sv_store s' !! l <> sv_store s !! l ->
   (exists p, m = MClear p /\ l = graph) \/
   (exists secret gn, write_request m = Some (secret, gn) /\ resolves graph gn s l /\
      sv_runtime s' = sv_runtime s)) /\
  ((exists p, m = MClear p) \/
   mg_graphs (rt_graphs (sv_runtime s')) = mg_graphs (rt_graphs (sv_runtime s))).
Proof.
  intros H. destruct (graph_message m) as [rq|] eqn:Hg.
  - destruct (graph_message_frame _ _ _ _ _ _ _ Hg H) as [->|(secret & gn & loc & g' & Hw & Hres & ->)];
      (split; [|by right]); [done|]. simpl. intros Hne. right. exists secret, gn. split; [done|].
    destruct (decide (loc = l)) as [->|Hl]; [done|]. by rewrite lookup_insert_ne in Hne.
  - assert ((exists p, m = MClear p) \/ forall p, m <> MClear p) as [[p ->]|Hc].
    { destruct m; (by right) || (left; by eexists). }
    + split; [|left; by eexists]. intros Hne. left. exists p. split; [done|]. apply dec_stable. intros Hl.
      by rewrite (clear_frame _ _ _ _ _ _ _ H Hl) in Hne.
    + destruct (runtime_message_frame _ _ _ _ _ _ Hg Hc H) as [-> ->]. by split; [|right].
Qed.

(** [graph:clear] on a stopped network empties the connection's graph
    under its new name, registers it under that name as the active graph, and
    unregisters the graph that was active before, whichever that was. *)
Lemma clear_spec now reads p s g :
  sv_store s !! graph = Some g -> st_running (rt_status (sv_runtime s)) = false ->
  granted (clr_secret p) (clr_name p) (sv_runtime s) = Some ReadWrite ->
  exists s' g', handle graph components to_string now reads (MClear p) s =
      Done ([Send (RClear (clear_response p))], s') /\
    sv_store s' = <[graph := g']> (sv_store s) /\
    g_name g' = clr_name p /\ g_nodes g' = ∅ /\ g_edges g' = [] /\ g_groups g' = [] /\
    g_inports g' = ∅ /\ g_outports g' = ∅ /\
    rt_graph (sv_runtime s') = clr_name p /\
    mg_active_graph (rt_graphs (sv_runtime s')) = clr_name p /\
    forall k, mg_graphs (rt_graphs (sv_runtime s')) !! k =
      if decide (k = clr_name p) then Some graph
      else if decide (k = rt_graph (sv_runtime s)) then None
      else mg_graphs (rt_graphs (sv_runtime s)) !! k.
Proof.
  intros Hg Hrun Hv%valid_granted. cbn [handle]. unfold handle_clear. rewrite Hv. simpl.
  unfold on_graph, read_graph. rewrite Hg, Hrun. simpl. eexists _, _. split; [done|].
  cbn [sv_store set_runtime set_store sv_runtime]. split; [done|]. split_and!; try done.
  - destruct (negb _); simpl; by destruct (set_active_graph _ _).
  - unfold set_active_graph. destruct (String.eqb_spec (rt_graph (sv_runtime s)) (clr_name p)) as [He|He];
      simpl; [by rewrite lookup_insert_eq|].
    by rewrite lookup_delete_ne, lookup_insert_eq by done.
  - intros k. unfold set_active_graph.
    destruct (String.eqb_spec (rt_graph (sv_runtime s)) (clr_name p)) as [He|He]; simpl.
    + rewrite lookup_insert_eq. simpl. rewrite lookup_insert, He.
      repeat case_decide; simplify_eq; try done.
    + rewrite lookup_delete_ne, lookup_insert_eq by done. simpl.
      destruct (decide (k = clr_name p)) as [->|Hk].
      * by rewrite lookup_delete_ne, lookup_insert_eq by done.
      * destruct (decide (k = rt_graph (sv_runtime s))) as [->|Hk'].
        -- by rewrite lookup_delete_eq.
        -- by rewrite lookup_delete_ne, lookup_insert_ne by done.
Qed.

(** [graph:clear] is the operation on the connection's own graph, whichever
    graph its name addresses; an accepted one registers that graph under its
    new name and unregisters the graph that was active before. *)
Lemma clear_refines now reads p s g :
  sv_store s !! graph = Some g -> granted (clr_secret p) (clr_name p) (sv_runtime s) = Some ReadWrite ->
  exists outs r g' s', run_request (RqClear p (st_running (rt_status (sv_runtime s)))) g = Done (r, g') /\
    handle graph components to_string now reads (MClear p) s = Done (outs, s') /\
    sv_store s' = <[graph := g']> (sv_store s) /\
    (is_err r = true <-> st_running (rt_status (sv_runtime s)) = true) /\
    (is_err r = true -> (exists e, outs = [Send (RGraphError e)]) /\ sv_runtime s' = sv_runtime s) /\
    (is_err r = false -> existsb is_error outs = false /\ outs <> [] /\
       rt_graph (sv_runtime s') = clr_name p /\ mg_active_graph (rt_graphs (sv_runtime s')) = clr_name p /\
       forall k, mg_graphs (rt_graphs (sv_runtime s')) !! k =
         if decide (k = clr_name p) then Some graph
         else if decide (k = rt_graph (sv_runtime s)) then None
         else mg_graphs (rt_graphs (sv_runtime s)) !! k).
Proof.
  intros Hg Hv. destruct (st_running (rt_status (sv_runtime s))) eqn:Hrun.
  - apply valid_granted in Hv. cbn [handle]. unfold handle_clear. rewrite Hv. simpl.
    unfold on_graph, read_graph. rewrite Hg, Hrun. simpl. eexists _, _, _, _.
    split; [done|]. split; [done|]. by split_and!; eauto.
  - destruct (clear_spec now reads p s g Hg Hrun Hv) as (s' & g' & H & Hst & Hrest).
    assert (exists g1, run_request (RqClear p false) g = Done (Ok tt, g1)) as [g1 Hr] by (by eexists).
    assert (g1 = g') as ->.
    { apply valid_granted in Hv. cbn [handle] in H. unfold handle_clear in H. rewrite Hv in H. simpl in H.
      unfold on_graph, read_graph in H. rewrite Hg, Hrun in H. simpl in H. simplify_eq. simpl in Hst.
      apply (f_equal (lookup graph)) in Hst. rewrite !lookup_insert_eq in Hst.
      unfold run_request, unit_result in Hr. simplify_eq. congruence. }
    destruct Hrest as (_ & _ & _ & _ & _ & _ & Hn & Ha & Hk).
    exists [Send (RClear (clear_response p))], (Ok tt), g', s'. split; [done|]. split; [done|].
    split; [done|]. split; [done|]. split; [done|]. intros _. by split_and!.
Qed.

(** C8: the graph messages implement the graph operations.  With write access
    to an existing graph, a message other than graph:clear has exactly the
    effect of the operation it stands for on the addressed graph, nothing else
    changes, and the client is told an error exactly when the operation was
    refused.  graph:clear, refused exactly while a network runs, has the effect
    of [clear] on the graph of the connection, whatever graph it names, and
    registers it under the name in the message in place of the graph that was
    active. *)
Theorem graph_messages_refine_operations now reads m secret gn s :
  write_request m = Some (secret, gn) -> granted secret gn (sv_runtime s) = Some ReadWrite ->
  (forall rq loc g, graph_message m = Some rq -> resolves graph gn s loc -> sv_store s !! loc = Some g ->
     exists outs r g', run_request rq g = Done (r, g') /\
       handle graph components to_string now reads m s = Done (outs, set_store (<[loc := g']> (sv_store s)) s) /\
       (is_err r = true -> exists e, outs = [Send (RGraphError e)]) /\
       (is_err r = false -> existsb is_error outs = false /\ outs <> [])) /\
  (forall p g, m = MClear p -> sv_store s !! graph = Some g ->
     exists outs r g' s', run_request (RqClear p (st_running (rt_status (sv_runtime s)))) g = Done (r, g') /\
       handle graph components to_string now reads m s = Done (outs, s') /\
       sv_store s' = <[graph := g']> (sv_store s) /\
       (is_err r = true <-> st_running (rt_status (sv_runtime s)) = true) /\
       (is_err r = true -> (exists e, outs = [Send (RGraphError e)]) /\ sv_runtime s' = sv_runtime s) /\
       (is_err r = false -> existsb is_error outs = false /\ outs <> [] /\
          rt_graph (sv_runtime s') = clr_name p /\ mg_active_graph (rt_graphs (sv_runtime s')) = clr_name p /\
          forall k, mg_graphs (rt_graphs (sv_runtime s')) !! k =
            if decide (k = clr_name p) then Some graph
            else if decide (k = rt_graph (sv_runtime s)) then None
            else mg_graphs (rt_graphs (sv_runtime s)) !! k)).
Proof.
  intros Hw Hgr. split.
  - intros rq loc g Hm Hres Hg. by eapply graph_message_refines.
  - intros p g -> Hg. simplify_eq/=. exact (clear_refines now reads p s g Hg Hgr).
Qed.

(** [network:getstatus] never reports a network as started and running:
    whatever the status, an accepted request is answered with
    [running = false] for a started network. *)
Theorem getstatus_never_running now reads p s o s' :
  handle graph components to_string now reads (MGetstatus p) s = Done (o, s') ->
  forall st, Send (RStatus st) ∈ o -> sp_started st && sp_running st = false.
Proof.
  cbn [handle]. unfold handle_getstatus, network_handler, network_error. intros H st Hin.
  destruct (negb _); [simplify_eq; by apply list_elem_of_singleton in Hin|].
  apply outcome_bind_Done in H as ([] & _ & H); [|simplify_eq; by apply list_elem_of_singleton in Hin].
  simplify_eq. apply list_elem_of_singleton in Hin. simplify_eq. simpl.
  set (status := if _ && _ && _ then _ else _) in *. clearbody status.
  destruct (String.eqb_spec (st_graph status) (nw_graph p)) as [Hs|Hs]; [|done].
  by destruct (st_started status) eqn:Hst, (st_running status) eqn:Hrn; simpl; rewrite ?Hst, ?Hrn.
Qed.

(** [network:stop] for the running network marks it as stopped at once and
    answers; it leaves the teardown to another thread exactly when the network
    was running, and for another graph it is refused without effect. *)
Theorem network_stop_spec now reads p s loc :
  granted (nw_secret p) (nw_graph p) (sv_runtime s) = Some ReadWrite ->
  resolves graph (nw_graph p) s loc ->
  let st := rt_status (sv_runtime s) in
  exists outs s', handle graph components to_string now reads (MNetworkStop p) s = Done (outs, s') /\
    sv_store s' = sv_store s /\
    (st_graph st = nw_graph p ->
       st_running (rt_status (sv_runtime s')) = false /\ st_started (rt_status (sv_runtime s')) = false /\
       (SpawnRuntimeStop ∈ outs <-> st_running st = true)) /\
    (st_graph st <> nw_graph p -> s' = s /\ existsb is_error outs = true).
Proof.
  intros Hv%valid_granted Hres st. cbn [handle]. unfold handle_network_stop, network_handler.
  unfold sv_validate_secret in Hv. rewrite Hv. simpl. unfold resolves in Hres. rewrite Hres. simpl.
  fold st. destruct (String.eqb_spec (st_graph st) (nw_graph p)) as [He|He]; simpl.
  - destruct (st_running st); simpl; eexists _, _; (split; [done|]); (split; [done|]);
      (split; [|done]); intros _; (split; [done|]); (split; [done|]); rewrite !elem_of_cons, elem_of_nil;
      naive_solver.
  - eexists _, _. split; [done|]. split; [done|]. by split.
Qed.
End contract.

(** * Concrete instances *)

#[local] Existing Instance gmap_serde_json.

(** A server with one graph, [main], writable with the secret "rw"; a second
    graph, [sub], is readable with the secret "ro". *)
Definition demo_server : Server :=
  mk_Server
    (set_status (mk_RuntimeStatus 0 "main" true true None)
      (set_secrets {["main" := ("rw", ReadWrite); "sub" := ("ro", ReadOnly)]}
        (set_graphs (mk_MultiGraphManager {["main" := 1%positive; "sub" := 2%positive]} "main")
          demo_runtime.1)))
    {[1%positive := demo_graph; 2%positive := new_graph "sub" "" ""]}
    (mk_ClientCapabilityHolder None []).

Definition demo_library : ComponentLibrary := mk_ComponentLibrary [default_component_payload].
Definition demo_handle : FBPMessage -> Server -> handled :=
  handle 1%positive demo_library (fun _ => Some "{}") 0 [].

Lemma demo_server_inv : server_inv 1%positive demo_server.
Proof.
  constructor; [by eexists|]. intros k l.
  change (mg_graphs _) with ({["main" := 1%positive; "sub" := 2%positive]} : gmap string positive).
  intros [[_ <-]|[_ [_ <-]%lookup_singleton_Some]]%lookup_insert_Some; by eexists.
Qed.

(** Removing a node over the protocol. *)
Definition demo_removenode (secret : string) (gn : string) : FBPMessage :=
  MRemovenode (mk_NamedRequestPayload "b" gn (Some secret)).

Lemma demo_removenode_refused :
  demo_handle (demo_removenode "ro" "sub") demo_server =
    Done ([Send (RGraphError "invalid secret token")], demo_server).
Proof. reflexivity. Qed.

Lemma requests_are_local_witness :
  exists secret gn, write_request (demo_removenode "rw" "main") = Some (secret, gn) /\
    resolves 1%positive gn demo_server 1%positive.
Proof.
  destruct (requests_are_local 1%positive demo_library (fun _ => Some "{}") 0 []
              (demo_removenode "rw" "main") demo_server _ _ 1%positive eq_refl) as [Hl _].
  destruct Hl as [(p & H & _)|(sec & gn & H & Hr & _)].
  - intros H. apply (f_equal (fun o => match o with Some g => length (g_edges g) | None => 0 end)) in H.
    vm_compute in H. discriminate H.
  - discriminate H.
  - exists sec, gn. split; [exact H|exact Hr].
Defined.

Definition demo_clear : GraphClearRequestPayload :=
  mk_GraphClearRequestPayload "fresh" None None true None None None.

(** The client had selected [sub] for debugging: clearing the connection's own
    graph under a new name then unregisters [sub]. *)
Definition demo_server_sub : Server :=
  set_runtime (set_status (mk_RuntimeStatus 0 "sub" false false None)
    (set_rt_graph "sub" (sv_runtime demo_server))) demo_server.

Lemma graph_messages_refine_operations_witness :
  (exists outs r g', run_request (RqRemoveNode "main" "b") demo_graph = Done (r, g') /\
    demo_handle (demo_removenode "rw" "main") demo_server =
      Done (outs, set_store (<[1%positive := g']> (sv_store demo_server)) demo_server)) /\
  (exists o s', demo_handle (MClear demo_clear) demo_server_sub = Done (o, s') /\
    mg_graphs (rt_graphs (sv_runtime s')) !! "sub" = None /\
    mg_graphs (rt_graphs (sv_runtime s')) !! "fresh" = Some 1%positive).
Proof.
  split.
  - destruct (proj1 (graph_messages_refine_operations 1%positive demo_library (fun _ => Some "{}") 0 []
                (demo_removenode "rw" "main") (Some "rw") "main" demo_server eq_refl eq_refl)
                (RqRemoveNode "main" "b") 1%positive demo_graph eq_refl eq_refl eq_refl)
      as (outs & r & g' & H & H' & _).
    exists outs, r, g'. split; [exact H|exact H'].
  - destruct (proj2 (graph_messages_refine_operations 1%positive demo_library (fun _ => Some "{}") 0 []
                (MClear demo_clear) None "fresh" demo_server_sub eq_refl eq_refl)
                demo_clear demo_graph eq_refl eq_refl)
      as (o & r & g' & s' & Hr & H & _ & _ & _ & Hok).
    assert (is_err r = false) as He by (injection Hr as <- _; reflexivity).
    destruct (Hok He) as (_ & _ & _ & _ & Hk).
    exists o, s'. split; [exact H|]. rewrite !Hk. split; reflexivity.
Defined.

Lemma getstatus_never_running_witness :
  exists o s', demo_handle (MGetstatus (mk_NetworkRequestPayload "main" None)) demo_server = Done (o, s') /\
    forall st, Send (RStatus st) ∈ o -> sp_started st && sp_running st = false.
Proof.
  eexists _, _. split; [reflexivity|].
  exact (getstatus_never_running 1%positive demo_library (fun _ => Some "{}") 0 []
           (mk_NetworkRequestPayload "main" None) demo_server _ _ eq_refl).
Defined.

Lemma network_stop_spec_witness :
  exists outs s', demo_handle (MNetworkStop (mk_NetworkRequestPayload "main" (Some "rw"))) demo_server = Done (outs, s') /\
    SpawnRuntimeStop ∈ outs /\ st_running (rt_status (sv_runtime s')) = false.
Proof.
  destruct (network_stop_spec 1%positive demo_library (fun _ => Some "{}") 0 []
              (mk_NetworkRequestPayload "main" (Some "rw")) demo_server 1%positive eq_refl eq_refl)
    as (outs & s' & H & _ & Hs & _).
  destruct (Hs eq_refl) as (Hr & _ & Hsp).
  exists outs, s'. split; [exact H|]. split; [apply Hsp; reflexivity|exact Hr].
Defined.
