(* ===== verification/Network.v ===== *)
(** Starting and stopping a network, [Runtime::start], [Runtime::stop] and
    [Runtime::packet] of [src/runtime.rs]: the checks, the wiring of the
    connections, the registration of the components with a new scheduler and
    the packets that enter through the graph's inports.

    A connection is one ring buffer with two ends; the connections of a
    network are numbered in the order of their creation, and a port holds the
    numbers of the connections whose end it owns. *)
From S2P Require Import Prelude Api Scheduler Graph Runtime.
From Stdlib Require Strings.String.
From Stdlib Require Import NArith Lia.
From stdpp Require Import base list strings gmap.
Local Open Scope string_scope.
Local Open Scope list_scope.
Local Open Scope flowd_scope.

(** * Calls that may not return *)

(** A call returns, unwinds, or waits for a lock that its own thread holds. *)
Inductive run (A : Type) : Type :=
| Returns (a : A)
| Unwinds
| Blocks.
Arguments Returns {A} a.
Arguments Unwinds {A}.
Arguments Blocks {A}.

Definition run_bind {A B : Type} (r : run A) (f : A -> run B) : run B :=
  match r with Returns a => f a | Unwinds => Unwinds | Blocks => Blocks end.

Definition lift {A : Type} (o : outcome A) : run A :=
  match o with Done a => Returns a | Panicked => Unwinds end.

Notation "'let!' x ':=' r 'in' k" := (run_bind r (fun x => k))
  (at level 10, x pattern, k at level 200) : flowd_scope.

Fixpoint run_fold {A B : Type} (f : A -> B -> run B) (l : list A) (b : B) : run B :=
  match l with
  | [] => Returns b
  | x :: l => let! b' := f x b in run_fold f l b'
  end.

Section network.
Context `{R : Rtrb} `{J : SerdeJson} `{MM : forall V, MultiMapLib V} `{HI : HashIter}.
Context {C : Type}.

(** The functions that the build script generates from [flowd.build.toml]. *)
Variable get_component_budget_class : string -> BudgetClass.
Variable instantiate_component :
  string -> multimap nat -> multimap nat -> option SchedulerWaker -> outcome (option C).

(** * Connections and ports *)

(** [IipChannel]: the channel of an initial packet; its sink is dropped as
    soon as the packet is in it. *)
Inductive connection : Type :=
| Edge (sink : ProcessEdgeSink)
| IipChannel (source : ring).

Definition conn_ring (c : connection) : ring :=
  match c with Edge s => pes_sink s | IipChannel r => r end.

Record ProcPorts : Type := mk_ProcPorts {
  pp_inports : multimap nat;
  pp_outports : multimap nat
}.
Definition default_proc_ports : ProcPorts := mk_ProcPorts mm_new mm_new.

(** [ports_all.get_mut(process).expect(..).inports.insert(port, source)] and
    the same for an outport. *)
Definition wire_in (process port : string) (c : nat) (ports : gmap string ProcPorts) :
    outcome (gmap string ProcPorts) :=
  let* pp := expect (ports !! process) in
  Done (<[process := mk_ProcPorts (mm_insert port c (pp_inports pp)) (pp_outports pp)]> ports).

Definition wire_out (process port : string) (c : nat) (ports : gmap string ProcPorts) :
    outcome (gmap string ProcPorts) :=
  let* pp := expect (ports !! process) in
  Done (<[process := mk_ProcPorts (pp_inports pp) (mm_insert port c (pp_outports pp))]> ports).

(** * The checks on array ports *)

(** Two edges share a port that some component of that name does not declare
    as an array port. *)
Definition port_conflict (ports_of : ComponentComponentPayload -> list ComponentPort)
    (available : list ComponentComponentPayload) (component_name port : string) : bool :=
  existsb (fun c => String.eqb (ccp_name c) component_name &&
    existsb (fun p => String.eqb (cp_name p) port && negb (cp_is_arrayport p)) (ports_of c)) available.

(** Both loops over the edges: [skip] the edges that do not count, take one
    [end_] of the others, and look up the component once a port is used again. *)
Fixpoint check_arrayports (nodes : gmap string GraphNode) (available : list ComponentComponentPayload)
    (skip : GraphEdge -> bool) (end_ : GraphEdge -> GraphNodeSpec)
    (ports_of : ComponentComponentPayload -> list ComponentPort) (message : string)
    (edges : list GraphEdge) (known : multimap string) : outcome (result unit io_error) :=
  match edges with
  | [] => Done (Ok tt)
  | e :: edges =>
      let continue_ := check_arrayports nodes available skip end_ ports_of message edges in
      let process := ns_process (end_ e) in
      let port := ns_port (end_ e) in
      if skip e then continue_ known
      else match mm_get_vec process known with
           | Some ports =>
               if existsb (String.eqb port) ports then
                 let* node := expect (nodes !! process) in
                 if port_conflict ports_of available (node_component node) port
                 then Done (io_err InvalidInput message)
                 else continue_ known
               else continue_ (mm_insert process port known)
           | None => continue_ (mm_insert process port known)
           end
  end.

Definition is_iip (e : GraphEdge) : bool := bool_decide (is_Some (edge_data e)).

Definition check_source_ports (g : Graph) (available : list ComponentComponentPayload) :
    outcome (result unit io_error) :=
  check_arrayports (g_nodes g) available
    (fun e => is_iip e && String.eqb (ns_process (edge_source e)) "") edge_source ccp_out_ports
    "multiple edges from source process port which is not an array port" (g_edges g) mm_new.

Definition check_target_ports (g : Graph) (available : list ComponentComponentPayload) :
    outcome (result unit io_error) :=
  check_arrayports (g_nodes g) available is_iip edge_target ccp_in_ports
    "multiple edges to target process port which is not an array port" (g_edges g) mm_new.

(** * Wiring *)

Definition iip_key (e : GraphEdge) : string * string :=
  (ns_process (edge_target e), ns_port (edge_target e)).

(** [iips_per_target]. *)
Definition collect_iip (m : gmap (string * string) (list string)) (e : GraphEdge) :
    gmap (string * string) (list string) :=
  match edge_data e with
  | Some iip => <[iip_key e := default [] (m !! iip_key e) ++ [iip]]> m
  | None => m
  end.
Definition iips_per_target (edges : list GraphEdge) : gmap (string * string) (list string) :=
  fold_left collect_iip edges ∅.

Record wiring : Type := mk_wiring {
  wr_conns : list connection;
  wr_ports : gmap string ProcPorts;
  wr_iips : gmap (string * string) (list string)
}.

(** The keys of [ports_all]: the nodes and the two processes that stand for
    the graph's own ports. *)
Fixpoint insert_procs (names : list string) (m : gmap string ProcPorts) :
    outcome (gmap string ProcPorts) :=
  match names with
  | [] => Done m
  | n :: names =>
      match try_insert n default_proc_ports m with
      | (Ok _, m') => insert_procs names m'
      | (Err _, _) => Panicked
      end
  end.

Definition in_process (g : Graph) : string := g_name g +:+ "-IN".
Definition out_process (g : Graph) : string := g_name g +:+ "-OUT".

Definition proc_names (g : Graph) : list string :=
  (hash_iter (g_nodes g)).*1
  ++ (if bool_decide (g_inports g = ∅) then [] else [in_process g])
  ++ (if bool_decide (g_outports g = ∅) then [] else [out_process g]).

(** Initial packets for a port that an edge also leads to go through that
    edge's buffer, ahead of its traffic.  (Their [signal_ready] finds no node:
    the scheduler is still empty.) *)
Fixpoint inject_iips (iips : list string) (sink : ProcessEdgeSink) : outcome ProcessEdgeSink :=
  match iips with
  | [] => Done sink
  | iip :: iips =>
      match push (from_text iip) sink with
      | (Ok _, sink', _) => inject_iips iips sink'
      | (Err _, _, _) => Panicked
      end
  end.

Definition edge_id_of (e : GraphEdge) : string :=
  ns_process (edge_source e) +:+ "." +:+ ns_port (edge_source e) +:+ "-" +:+
  ns_process (edge_target e) +:+ "." +:+ ns_port (edge_target e).

(** One edge.  With tracing on, [send_trace_connect] locks [graph_inout], which
    [start] itself holds locked. *)
Definition wire_edge (graph_name : string) (tracing : bool) (trace_sender : option TraceSender)
    (e : GraphEdge) (w : wiring) : run wiring :=
  if is_iip e then Returns w
  else
    let src := edge_source e in
    let tgt := edge_target e in
    let c := length (wr_conns w) in
    let! ports1 := lift (wire_in (ns_process tgt) (to_ascii_uppercase (ns_port tgt)) c (wr_ports w)) in
    let! _ := lift (expect (ports1 !! ns_process src)) in
    let edge_sink := new_edge_sink (ring_new PROCESSEDGE_BUFSIZE) None
                       (Some (ns_process tgt)) (Some (ns_process tgt)) in
    let iips := default [] (wr_iips w !! iip_key e) in
    let! edge_sink1 := lift (inject_iips iips edge_sink) in
    let edge_sink2 :=
      match trace_sender with
      | Some tx => enable_tracing (edge_id_of e) (ns_process src) (ns_port src) (ns_process tgt)
                     (ns_port tgt) graph_name tx edge_sink1
      | None => edge_sink1
      end in
    let! ports2 := lift (wire_out (ns_process src) (to_ascii_uppercase (ns_port src)) c ports1) in
    if tracing then Blocks
    else Returns (mk_wiring (wr_conns w ++ [Edge edge_sink2]) ports2 (delete (iip_key e) (wr_iips w))).

(** One initial packet to a port that no edge leads to: a channel of its own. *)
Definition wire_iip (target : string * string) (iip : string) (w : wiring) : run wiring :=
  match ring_push (from_text iip) (ring_new PROCESSEDGE_IIP_BUFSIZE) with
  | (Ok _, r) =>
      let! ports := lift (wire_in target.1 (to_ascii_uppercase target.2) (length (wr_conns w))
                            (wr_ports w)) in
      Returns (mk_wiring (wr_conns w ++ [IipChannel (ring_drop_producer r)]) ports (wr_iips w))
  | (Err _, _) => Unwinds
  end.

Definition wire_leftover (entry : (string * string) * list string) (w : wiring) : run wiring :=
  run_fold (wire_iip entry.1) entry.2 w.

Definition wire_inport (g : Graph) (entry : string * GraphPort) (w : wiring) : run wiring :=
  let '(public_name, port) := entry in
  let c := length (wr_conns w) in
  let! ports1 := lift (wire_in (port_process port) (to_ascii_uppercase (port_port port)) c (wr_ports w)) in
  let! ports2 := lift (wire_out (in_process g) public_name c ports1) in
  Returns (mk_wiring
    (wr_conns w ++ [Edge (new_edge_sink (ring_new PROCESSEDGE_BUFSIZE) None
                            (Some (port_process port)) (Some (port_process port)))])
    ports2 (wr_iips w)).

Definition wire_outport (g : Graph) (entry : string * GraphPort) (w : wiring) : run wiring :=
  let '(public_name, port) := entry in
  let c := length (wr_conns w) in
  let! ports1 := lift (wire_in (out_process g) public_name c (wr_ports w)) in
  let! ports2 := lift (wire_out (port_process port) (to_ascii_uppercase (port_port port)) c ports1) in
  Returns (mk_wiring
    (wr_conns w ++ [Edge (new_edge_sink (ring_new PROCESSEDGE_BUFSIZE) None
                            (Some (out_process g)) None)])
    ports2 (wr_iips w)).

(** From the graph to [ports_all]. *)
Definition wire (g : Graph) (tracing : bool) (trace_sender : option TraceSender) : run wiring :=
  let! ports := lift (insert_procs (proc_names g) ∅) in
  let! w1 := run_fold (wire_edge (g_name g) tracing trace_sender) (g_edges g)
               (mk_wiring [] ports (iips_per_target (g_edges g))) in
  let! w2 := run_fold wire_leftover (hash_iter (wr_iips w1)) (mk_wiring (wr_conns w1) (wr_ports w1) ∅) in
  let! w3 := run_fold (wire_inport g) (hash_iter (g_inports g)) w2 in
  run_fold (wire_outport g) (hash_iter (g_outports g)) w3.

(** * Processes *)

Definition has_port (name : string) (m : multimap nat) : bool :=
  mm_contains_key name m || mm_contains_key (to_ascii_lowercase name) m.

(** A port of the component's metadata that neither an edge nor one of the
    graph's exported ports connects. *)
Definition missing_port (ports : list ComponentPort) (connected : multimap nat) (proc_name : string)
    (exported : gmap string GraphPort) : option ComponentPort :=
  List.find (fun p => negb (has_port (cp_name p) connected) &&
    negb (existsb (fun e => String.eqb (port_process e.2) proc_name &&
                            eq_ignore_ascii_case (port_port e.2) (cp_name p)) (hash_iter exported))) ports.

Definition find_component (name : string) (available : list ComponentComponentPayload) :
    option ComponentComponentPayload :=
  List.find (fun c => String.eqb (ccp_name c) name) available.

Definition check_process (g : Graph) (available : list ComponentComponentPayload)
    (proc_name component_name : string) (ports : ProcPorts) : result unit io_error :=
  match find_component component_name available with
  | None => io_err NotFound "unconnected port checking could not find component in component library"
  | Some c =>
      match missing_port (ccp_in_ports c) (pp_inports ports) proc_name (g_inports g) with
      | Some p => io_err NotFound ("unconnected port checking: process " +:+ proc_name +:+
                    " is missing required port " +:+ cp_name p +:+ " for component " +:+ ccp_name c)
      | None =>
          match missing_port (ccp_out_ports c) (pp_outports ports) proc_name (g_outports g) with
          | Some p => io_err NotFound ("unconnected port checking: process " +:+ proc_name +:+
                        " is missing required outport " +:+ cp_name p +:+ " on component " +:+ ccp_name c)
          | None => Ok tt
          end
      end
  end.

(** What the loop over the nodes works on: the ports not handed out yet and
    the new scheduler. *)
Definition setup : Type := gmap string ProcPorts * Scheduler C.

Definition start_process (g : Graph) (available : list ComponentComponentPayload)
    (clock : string -> Instant) (proc_name : string) (node : GraphNode) (s : setup) :
    outcome (result unit io_error * setup) :=
  let component_name := node_component node in
  let* ports := expect (s.1 !! proc_name) in
  let ports_all := delete proc_name s.1 in
  match check_process g available proc_name component_name ports with
  | Err e => Done (Err e, (ports_all, s.2))
  | Ok _ =>
      let s1 := Scheduler.add_node proc_name (get_component_budget_class component_name) (clock proc_name) s.2 in
      let scheduler_waker := create_waker proc_name s1 in
      let* component := instantiate_component component_name (pp_inports ports) (pp_outports ports)
                          scheduler_waker in
      match component with
      | Some c => Done (Ok tt, (ports_all, add_component c proc_name s1))
      | None => Done (io_err NotFound ("component '" +:+ component_name +:+ "' not found"), (ports_all, s1))
      end
  end.

Fixpoint start_processes (g : Graph) (available : list ComponentComponentPayload)
    (clock : string -> Instant) (nodes : list (string * GraphNode)) (s : setup) :
    outcome (result unit io_error * setup) :=
  match nodes with
  | [] => Done (Ok tt, s)
  | (proc_name, node) :: nodes =>
      let* res := start_process g available clock proc_name node s in
      match res.1 with
      | Ok _ => start_processes g available clock nodes res.2
      | Err e => Done (Err e, res.2)
      end
  end.

(** All nodes are ready at first. *)
Definition signal_all (s : Scheduler C) : Scheduler C :=
  fold_left (fun s id => (signal_ready id s).2) (node_ids s) s.

(** * The network of a runtime *)

(** Besides the runtime: the schedulers themselves (the runtime keeps them by
    the graph's name), the connections of the network, the sinks behind the
    graph's inports ([GraphInportOutportHolder::inports]), and the clients'
    part of that holder is what is sent. *)
Record Network : Type := mk_Network {
  net_runtime : Runtime;
  net_schedulers : gmap string (Scheduler C);
  net_conns : list connection;
  net_inports : option (gmap string nat)
}.

Inductive NetEvent : Type :=
| SpawnTraceDispatch
| SpawnGraphOut (name : string) (inports : multimap nat)
| SpawnWatchdog
| SpawnScheduler (graph_name : string)
| PacketConnect (graph_name port : string)
| PacketDisconnect (graph_name port : string)
| TraceDisconnected (p : TraceDisconnectEventPayload)
| BroadcastStatus (st : RuntimeStatus).

Definition set_net_runtime (r : Runtime) (n : Network) : Network :=
  mk_Network r (net_schedulers n) (net_conns n) (net_inports n).
Definition set_net_schedulers x (n : Network) : Network :=
  mk_Network (net_runtime n) x (net_conns n) (net_inports n).
Definition set_net_conns x (n : Network) : Network :=
  mk_Network (net_runtime n) (net_schedulers n) x (net_inports n).
Definition set_net_inports x (n : Network) : Network :=
  mk_Network (net_runtime n) (net_schedulers n) (net_conns n) x.

(** The fields of the runtime that [start] and [stop] manage. *)
Definition set_threads (sender : option TraceSender) (boundary : gset string)
    (watchdog channel : bool) (threads schedulers : gset string) (r : Runtime) : Runtime :=
  mk_Runtime (rt_info r) (rt_status r) (rt_tracing r) sender boundary watchdog channel threads
    schedulers (rt_secrets r) (rt_graphs r) (rt_debug_edges r).

Definition network_busy (r : Runtime) : bool :=
  st_running (rt_status r) || negb (bool_decide (rt_boundary_threads r = ∅)) || rt_watchdog_thread r.

(** The sinks of the process that stands for the graph's inports: one per
    exported port. *)
Fixpoint collect_inports (ports : list string) (outports : multimap nat) (m : gmap string nat) :
    result (gmap string nat) io_error :=
  match ports with
  | [] => Ok m
  | p :: ports =>
      match mm_get_vec p outports with
      | Some [c] => collect_inports ports outports (<[p := c]> m)
      | _ => io_err InvalidInput "multiple edges from graph inport"
      end
  end.

(** [start] once the checks have passed and the connections exist: the
    processes, the graph's own ports, the threads, the status. *)
Definition launch (g : Graph) (available : list ComponentComponentPayload) (clock : string -> Instant)
    (now : Instant) (w : wiring) (net : Network) :
    outcome (result RuntimeStatus io_error * Network * list NetEvent) :=
  let name := g_name g in
  let* res := start_processes g available clock (hash_iter (g_nodes g)) (wr_ports w, new_scheduler) in
  let net1 := set_net_conns (wr_conns w) (set_net_schedulers (<[name := res.2.2]> (net_schedulers net)) net) in
  match res.1 with
  | Err e => Done (Err e, net1, [SpawnTraceDispatch])
  | Ok _ =>
      let ports_all := res.2.1 in
      let scheduler := signal_all res.2.2 in
      let net2 := set_net_schedulers (<[name := scheduler]> (net_schedulers net)) net1 in
      let ins := match ports_all !! in_process g with
                 | Some pp =>
                     let? m := collect_inports (mm_keys (pp_outports pp)) (pp_outports pp) ∅ in
                     Ok (Some m)
                 | None => Ok None
                 end in
      match ins with
      | Err e => Done (Err e, set_net_inports None net2, [SpawnTraceDispatch])
      | Ok inports =>
          let ports_all1 := delete (in_process g) ports_all in
          let graph_out := ports_all1 !! out_process g in
          let ports_all2 := delete (out_process g) ports_all1 in
          let r := net_runtime net2 in
          let boundary := match graph_out with
                          | Some _ => {[out_process g]} ∪ rt_boundary_threads r
                          | None => rt_boundary_threads r
                          end in
          let spawned := match graph_out with
                         | Some pp => [SpawnGraphOut (out_process g) (pp_inports pp)]
                         | None => []
                         end in
          let net3 := set_net_inports inports net2 in
          if negb (bool_decide (ports_all2 = ∅)) then
            Done (io_err InvalidData
                    "there are ports for processes left over, source+target nodes in edges != nodes",
                  set_net_runtime (set_threads (rt_trace_sender r) ∅ (rt_watchdog_thread r)
                    (rt_watchdog_channel r) (rt_scheduler_threads r) (rt_schedulers r) r) net3,
                  SpawnTraceDispatch :: spawned)
          else
            let status := mk_RuntimeStatus now (rt_graph r) true true (st_debug (rt_status r)) in
            let r' := set_status status
                        (set_threads (rt_trace_sender r) boundary true true
                           ({[name]} ∪ rt_scheduler_threads r) (rt_schedulers r) r) in
            Done (Ok status, set_net_runtime r' net3,
                  SpawnTraceDispatch :: spawned ++ [SpawnWatchdog]
                  ++ match inports with
                     | Some m => map (fun p => PacketConnect name p) (hash_iter m).*1
                     | None => []
                     end
                  ++ [SpawnScheduler name])
      end
  end.

(** [Runtime::start].  [trace_tx] is the new trace channel's sender, [clock]
    the time at which a node is registered, [now] the time at the end. *)
Definition start (g : Graph) (available : list ComponentComponentPayload) (trace_tx : TraceSender)
    (clock : string -> Instant) (now : Instant) (net : Network) :
    run (result RuntimeStatus io_error * Network * list NetEvent) :=
  let r := net_runtime net in
  if network_busy r then
    Returns (io_err AlreadyExists "network already running or previous shutdown incomplete", net, [])
  else
    let name := g_name g in
    let r1 := set_threads (Some trace_tx) (rt_boundary_threads r) (rt_watchdog_thread r)
                (rt_watchdog_channel r) (rt_scheduler_threads r) ({[name]} ∪ rt_schedulers r) r in
    let net1 := set_net_schedulers (<[name := new_scheduler]> (net_schedulers net)) (set_net_runtime r1 net) in
    let! sources := lift (check_source_ports g available) in
    match sources with
    | Err e => Returns (Err e, net1, [SpawnTraceDispatch])
    | Ok _ =>
        let! targets := lift (check_target_ports g available) in
        match targets with
        | Err e => Returns (Err e, net1, [SpawnTraceDispatch])
        | Ok _ =>
            let! w := wire g (rt_tracing r1) (rt_trace_sender r1) in
            lift (launch g available clock now w net1)
        end
    end.

(** * Packets for the graph's inports *)

(** One attempt of [packet], under the lock of [graph_inout]: pushed, full
    (the packet comes back), or no such inport. *)
Definition push_inport (port : string) (packet : FbpMessage) (net : Network) :
    result (result unit FbpMessage * Network * list Effect) io_error :=
  match net_inports net with
  | None => io_err NotFound "no graph inports exist"
  | Some inports =>
      match inports !! port with
      | None => io_err NotFound "graph inport with that name not found"
      | Some c =>
          match net_conns net !! c with
          | Some (Edge sink) =>
              let '(res, sink', effects) := push packet sink in
              Ok (res, set_net_conns (<[c := Edge sink']> (net_conns net)) net, effects)
          | _ => io_err NotFound "graph inport with that name not found"
          end
      end
  end.

(** The loop retries while the buffer is full, for two seconds: [others] is
    what other threads do to the network between two attempts, as long as the
    time is not up. *)
Fixpoint packet_loop (others : list (Network -> Network)) (port : string) (packet : FbpMessage)
    (net : Network) : result unit io_error * Network * list Effect :=
  match push_inport port packet net with
  | Err e => (Err e, net, [])
  | Ok (Ok _, net', effects) => (Ok tt, net', effects)
  | Ok (Err packet', net', _) =>
      match others with
      | [] => (io_err TimedOut ("graph inport " +:+ port +:+ " backpressured for 2s"), net', [])
      | other :: others => packet_loop others port packet' (other net')
      end
  end.

Record RuntimePacketRequestPayload : Type := mk_RuntimePacketRequestPayload {
  pk_port : string;
  pk_event : string;
  pk_graph : string;
  pk_payload : option string;
  pk_secret : option string
}.

(** [Runtime::packet]. *)
Definition packet (others : list (Network -> Network)) (payload : RuntimePacketRequestPayload)
    (net : Network) : outcome (result unit io_error * Network * list Effect) :=
  match validate_secret (pk_secret payload) (pk_graph payload) (net_runtime net) with
  | Err e => Done (Err e, net, [])
  | Ok _ =>
      let* text := expect (pk_payload payload) in
      Done (packet_loop others (pk_port payload) (from_str text) net)
  end.

(** * Stopping *)

(** The trace:disconnect event of an edge of the active graph. *)
Definition disconnect_event (g : Graph) (e : GraphEdge) : list NetEvent :=
  if is_iip e && String.eqb (ns_process (edge_source e)) "" then []
  else [TraceDisconnected (mk_TraceDisconnectEventPayload (edge_id_of e)
          (mk_GraphNodeSpecNetwork (ns_process (edge_source e)) (ns_port (edge_source e))
             (ns_index (edge_source e)))
          (mk_GraphNodeSpecNetwork (ns_process (edge_target e)) (ns_port (edge_target e))
             (ns_index (edge_target e)))
          (g_name g))].

(** [Runtime::stop].  [finished] tells of each thread, by its name, whether it
    ends within the grace period after its stop signal; [store] are the
    graphs.  [watchdog_all_exited]: the watchdog itself calls. *)
Definition stop_network (store : gmap positive Graph) (finished_scheduler finished : string -> bool)
    (watchdog_all_exited : bool) (net : Network) :
    result RuntimeStatus io_error * Network * list NetEvent :=
  let r := net_runtime net in
  let disconnects :=
    if watchdog_all_exited then []
    else match net_inports net with
         | Some inports => map (fun p => PacketDisconnect (rt_graph r) p) (hash_iter inports).*1
         | None => []
         end in
  let schedulers := stop <$> net_schedulers net in
  let threads := filter (fun n => finished_scheduler n = false) (rt_scheduler_threads r) in
  let boundary := filter (fun n => finished n = false) (rt_boundary_threads r) in
  let watchdog := rt_watchdog_thread r && negb watchdog_all_exited && negb (finished "watchdog") in
  let timed_out := elements boundary ++ (if watchdog then ["watchdog"] else []) in
  let r1 := set_threads (rt_trace_sender r) boundary watchdog false threads (rt_schedulers r) r in
  let net1 := set_net_schedulers schedulers (set_net_runtime r1 net) in
  match timed_out with
  | _ :: _ =>
      let status := mk_RuntimeStatus (st_time_started (rt_status r)) (rt_graph r) true true
                      (st_debug (rt_status r)) in
      (io_err TimedOut ("network stop incomplete, timed-out threads still running: " +:+
                        String.concat ", " timed_out),
       set_net_runtime (set_status status r1) net1, disconnects)
  | [] =>
      let traced :=
        if rt_tracing r then
          match get_graph (rt_graph r) (rt_graphs r) with
          | Some loc =>
              match store !! loc with
              | Some g => flat_map (disconnect_event g) (g_edges g)
              | None => []
              end
          | None => []
          end
        else [] in
      let status := mk_RuntimeStatus (st_time_started (rt_status r)) (rt_graph r) watchdog_all_exited
                      false (st_debug (rt_status r)) in
      let r2 := set_status status
                  (set_threads None boundary watchdog false threads (rt_schedulers r) r) in
      (Ok status, set_net_runtime r2 net1, disconnects ++ traced ++ [BroadcastStatus status])
  end.

(** [collect_scheduler_metrics]: a snapshot of every scheduler, with the times
    in milliseconds; [SchedulerMetricsSnapshot]. *)
Definition metrics_in_millis (m : SchedulerMetrics) : SchedulerMetrics :=
  mk_SchedulerMetrics (executions_per_node m) (work_units_per_node m)
    ((fun d => N.min (d / 1000000) (u64_modulus - 1))%N <$> time_since_last_execution m)
    (queue_depth m) (loop_iterations m).

Definition collect_scheduler_metrics (now : Instant) (net : Network) :
    gmap string SchedulerMetrics * Network :=
  ((fun s => metrics_in_millis (metrics_snapshot now s).1) <$> net_schedulers net,
   set_net_schedulers ((fun s => (metrics_snapshot now s).2) <$> net_schedulers net) net).
End network.
