(* ===== verification/NetworkProofs.v ===== *)
(** The abstract picture of a network that [Runtime::start] is to build, a
    list of links between ports, and the lemmas that [wire] builds it. *)
From S2P Require Import Prelude Api Scheduler SchedulerProofs Graph GraphTheorems Runtime Network.
From Stdlib Require Strings.String.
From Stdlib Require Import NArith Lia.
From stdpp Require Import base list strings gmap.
Local Open Scope string_scope.
Local Open Scope list_scope.
Local Open Scope flowd_scope.

(** * Numbering *)
Section positions.
Context {A : Type}.
Implicit Types (f : A -> bool) (l : list A).

(** The positions, counted from [n], of the elements that satisfy [f]. *)
Fixpoint positions f (n : nat) l : list nat :=
  match l with
  | [] => []
  | x :: l => if f x then n :: positions f (S n) l else positions f (S n) l
  end.

Lemma positions_app f n l1 l2 :
  positions f n (l1 ++ l2) = positions f n l1 ++ positions f (length l1 + n) l2.
Proof.
  revert n. induction l1 as [|x l1 IH]; intros n; simpl; [done|].
  rewrite IH. replace (length l1 + S n) with (S (length l1 + n)) by lia. by destruct (f x).
Qed.

Lemma positions_snoc f l x :
  positions f 0 (l ++ [x]) = positions f 0 l ++ (if f x then [length l] else []).
Proof. rewrite positions_app. simpl. by rewrite Nat.add_0_r. Qed.

Lemma elem_of_positions f n l i :
  i ∈ positions f n l <-> exists x, n <= i /\ l !! (i - n) = Some x /\ f x = true.
Proof.
  revert n. induction l as [|y l IH]; intros n; simpl.
  - split; [by intros ?%elem_of_nil|]. intros (x & _ & Hl & _). by rewrite lookup_nil in Hl.
  - assert (i ∈ positions f (S n) l <->
      exists x, n <= i /\ i <> n /\ (y :: l) !! (i - n) = Some x /\ f x = true) as Hrest.
    { rewrite IH. split.
      - intros (x & Hi & Hl & Hx). exists x. replace (i - n) with (S (i - S n)) by lia.
        repeat split; [lia|lia|done|done].
      - intros (x & Hi & Hne & Hl & Hx). exists x.
        replace (i - n) with (S (i - S n)) in Hl by lia. split; [lia|done]. }
    destruct (f y) eqn:Hy.
    + rewrite elem_of_cons, Hrest. split.
      * intros [->|(x & ? & _ & ? & ?)]; [exists y; rewrite Nat.sub_diag; by repeat split|by exists x].
      * intros (x & Hi & Hl & Hx). destruct (decide (i = n)) as [->|Hne]; [by left|right].
        by exists x.
    + rewrite Hrest. split; [naive_solver|]. intros (x & Hi & Hl & Hx). exists x.
      destruct (decide (i = n)) as [->|Hne]; [|done].
      rewrite Nat.sub_diag in Hl. simplify_eq/=. by rewrite Hy in Hx.
Qed.

(** What a multimap holds for a key that was only ever inserted at. *)
Definition vec_of {V} (l : list V) : option (list V) := match l with [] => None | _ => Some l end.

Lemma positions_nodup f n l : NoDup (positions f n l).
Proof.
  revert n. induction l as [|x l IH]; intros n; simpl; [constructor|].
  destruct (f x); [|apply IH]. constructor; [|apply IH].
  intros (y & Hle & _)%elem_of_positions. lia.
Qed.

(** The only position there is. *)
Lemma positions_single f l i x :
  l !! i = Some x -> f x = true -> (forall j y, l !! j = Some y -> f y = true -> j = i) ->
  positions f 0 l = [i].
Proof.
  intros Hi Hx Hu. pose proof (positions_nodup f 0 l) as Hnd.
  assert (forall j, j ∈ positions f 0 l <-> j = i) as Hel.
  { intros j. rewrite elem_of_positions. split.
    - intros (y & _ & Hy & Hf). rewrite Nat.sub_0_r in Hy. by eapply Hu.
    - intros ->. exists x. rewrite Nat.sub_0_r. repeat split; [lia|done|done]. }
  destruct (positions f 0 l) as [|a [|b r]].
  - exfalso. assert (i ∈ @nil nat) as ?%elem_of_nil; [by apply Hel|done].
  - f_equal. apply Hel. by left.
  - exfalso. assert (a = i) by (apply Hel; by left). assert (b = i) by (apply Hel; right; by left).
    subst. apply NoDup_cons in Hnd as [Hn _]. apply Hn. by left.
Qed.
End positions.

(** * The abstract network *)

(** One connection: the port it leaves ([None]: an initial packet's channel),
    the port it leads to, the node its sink signals, and the initial packets
    in it. *)
Record link : Type := mk_link {
  ln_src : option (string * string);
  ln_tgt : string * string;
  ln_signal : option string;
  ln_queue : list string
}.

Definition leaves (p port : string) (l : link) : bool := bool_decide (ln_src l = Some (p, port)).
Definition leads_to (p port : string) (l : link) : bool := bool_decide (ln_tgt l = (p, port)).

Section links.
Context `{J : SerdeJson} `{HI : HashIter}.

(** The initial packets for a port, in the order of the edges. *)
Definition iips_for (k : string * string) (edges : list GraphEdge) : list string :=
  omap (fun e => if decide (iip_key e = k) then edge_data e else None) edges.

(** An edge between two ports; the first one to lead to a port takes the
    initial packets for it. *)
Definition takes_iips (before : list GraphEdge) (k : string * string) : bool :=
  negb (existsb (fun e => negb (is_iip e) && bool_decide (iip_key e = k)) before).

Definition edge_link (all before : list GraphEdge) (e : GraphEdge) : link :=
  mk_link (Some (ns_process (edge_source e), to_ascii_uppercase (ns_port (edge_source e))))
    (ns_process (edge_target e), to_ascii_uppercase (ns_port (edge_target e)))
    (Some (ns_process (edge_target e)))
    (if takes_iips before (iip_key e) then iips_for (iip_key e) all else []).

Fixpoint edge_links (all before edges : list GraphEdge) : list link :=
  match edges with
  | [] => []
  | e :: edges =>
      (if is_iip e then [] else [edge_link all before e]) ++ edge_links all (before ++ [e]) edges
  end.

(** The initial packets for ports that no edge leads to. *)
Definition leftover_iips (edges : list GraphEdge) : gmap (string * string) (list string) :=
  filter (fun kv => takes_iips edges kv.1 = true) (iips_per_target edges).

Definition iip_link (k : string * string) (iip : string) : link :=
  mk_link None (k.1, to_ascii_uppercase k.2) None [iip].

Definition inport_link (g : Graph) (e : string * GraphPort) : link :=
  mk_link (Some (in_process g, e.1)) (port_process e.2, to_ascii_uppercase (port_port e.2))
    (Some (port_process e.2)) [].

Definition outport_link (g : Graph) (e : string * GraphPort) : link :=
  mk_link (Some (port_process e.2, to_ascii_uppercase (port_port e.2))) (out_process g, e.1) None [].

(** The network of a graph. *)
Definition links (g : Graph) : list link :=
  edge_links (g_edges g) [] (g_edges g)
  ++ flat_map (fun kv => map (iip_link kv.1) kv.2) (hash_iter (leftover_iips (g_edges g)))
  ++ map (inport_link g) (hash_iter (g_inports g))
  ++ map (outport_link g) (hash_iter (g_outports g)).

(** What a graph must satisfy to be started. *)
Record startable (g : Graph) : Prop := {
  sta_connected : well_connected g;
  sta_inports n p : g_inports g !! n = Some p -> is_Some (g_nodes g !! port_process p);
  sta_outports n p : g_outports g !! n = Some p -> is_Some (g_nodes g !! port_process p);
  sta_in_name : g_inports g <> ∅ -> g_nodes g !! in_process g = None;
  sta_out_name : g_outports g <> ∅ -> g_nodes g !! out_process g = None;
  sta_iips k : length (iips_for k (g_edges g)) <= PROCESSEDGE_BUFSIZE
}.
End links.

(** * Initial packets *)
Section iips.
Context `{J : SerdeJson}.

Lemma collect_iips_lookup edges m k :
  default [] (fold_left collect_iip edges m !! k) = default [] (m !! k) ++ iips_for k edges.
Proof.
  revert m. induction edges as [|e edges IH]; intros m; simpl; [by rewrite app_nil_r|].
  rewrite IH. unfold collect_iip. destruct (edge_data e) as [iip|] eqn:He; simpl.
  - destruct (decide (iip_key e = k)) as [<-|Hne].
    + rewrite lookup_insert_eq. simpl. by rewrite <- app_assoc.
    + by rewrite lookup_insert_ne by done.
  - by destruct (decide _).
Qed.

Lemma iips_per_target_default edges k :
  default [] (iips_per_target edges !! k) = iips_for k edges.
Proof. unfold iips_per_target. by rewrite collect_iips_lookup, lookup_empty. Qed.

Lemma collect_iips_keys edges m k :
  is_Some (fold_left collect_iip edges m !! k) ->
  is_Some (m !! k) \/ exists e, e ∈ edges /\ is_iip e = true /\ iip_key e = k.
Proof.
  revert m. induction edges as [|e edges IH]; intros m Hk; simpl in Hk; [by left|].
  destruct (IH _ Hk) as [Hm|(e' & He' & ? & ?)]; [|right; exists e'; set_solver].
  unfold collect_iip in Hm. destruct (edge_data e) as [iip|] eqn:He; [|by left].
  destruct (decide (iip_key e = k)) as [<-|Hne].
  - right. exists e. split; [set_solver|]. split; [|done]. unfold is_iip. by rewrite He.
  - left. by rewrite lookup_insert_ne in Hm.
Qed.

Lemma iips_per_target_key edges k :
  is_Some (iips_per_target edges !! k) -> exists e, e ∈ edges /\ is_iip e = true /\ iip_key e = k.
Proof. intros [Hm|?]%collect_iips_keys; [|done]. rewrite lookup_empty in Hm. by destruct Hm. Qed.

Lemma takes_iips_snoc before e k :
  takes_iips (before ++ [e]) k =
    takes_iips before k && negb (negb (is_iip e) && bool_decide (iip_key e = k)).
Proof. unfold takes_iips. rewrite existsb_app. simpl. by rewrite orb_false_r, negb_orb. Qed.
End iips.

(** * Wiring *)
Section wiring.
Context `{R : Rtrb} `{J : SerdeJson} `{MM : forall V, MultiMapLib V} `{HI : HashIter}.

(** A connection is as its link says: an edge's buffer has the full size and
    its sink signals the target; an initial packet's channel is already closed. *)
Definition conn_ok (l : link) (c : connection) : Prop :=
  ring_items (conn_ring c) = map from_text (ln_queue l) /\
  match c with
  | Edge s => is_Some (ln_src l) /\ ring_cap (pes_sink s) = PROCESSEDGE_BUFSIZE /\
              ring_is_abandoned (pes_sink s) = false /\ pes_signal_ready s = ln_signal l
  | IipChannel r => ln_src l = None /\ ring_cap r = PROCESSEDGE_IIP_BUFSIZE /\ ring_is_abandoned r = true
  end.

(** Every port holds exactly the connections that lead to it, or leave it, in
    the order of their numbers. *)
Definition ports_ok (ls : list link) (ports : gmap string ProcPorts) : Prop :=
  forall p pp port, ports !! p = Some pp ->
    mm_get_vec port (pp_inports pp) = vec_of (positions (leads_to p port) 0 ls) /\
    mm_get_vec port (pp_outports pp) = vec_of (positions (leaves p port) 0 ls).

Record wired (ls : list link) (names : gset string) (w : wiring) : Prop := {
  wd_conns : Forall2 conn_ok ls (wr_conns w);
  wd_names : dom (wr_ports w) = names;
  wd_ports : ports_ok ls (wr_ports w)
}.

Lemma push_ring data (s : ProcessEdgeSink) :
  length (ring_items (pes_sink s)) < ring_cap (pes_sink s) ->
  exists s' eff, push data s = (Ok tt, s', eff) /\
    ring_items (pes_sink s') = ring_items (pes_sink s) ++ [data] /\
    ring_cap (pes_sink s') = ring_cap (pes_sink s) /\
    ring_is_abandoned (pes_sink s') = ring_is_abandoned (pes_sink s) /\
    pes_signal_ready s' = pes_signal_ready s.
Proof.
  intros Hlt%Nat.ltb_lt. unfold push.
  pose proof (ring_push_res data (pes_sink s)) as Hr. rewrite Hlt in Hr.
  pose proof (ring_push_items data (pes_sink s)) as Hi. rewrite Hlt in Hi.
  pose proof (ring_push_cap data (pes_sink s)). pose proof (ring_push_abandoned data (pes_sink s)).
  destruct (ring_push data (pes_sink s)) as [res r]; simpl in *. subst res.
  eexists _, _. split; [reflexivity|]. by repeat split.
Qed.

Lemma inject_iips_spec iips (s : ProcessEdgeSink) :
  length (ring_items (pes_sink s)) + length iips <= ring_cap (pes_sink s) ->
  exists s', inject_iips iips s = Done s' /\
    ring_items (pes_sink s') = ring_items (pes_sink s) ++ map from_text iips /\
    ring_cap (pes_sink s') = ring_cap (pes_sink s) /\
    ring_is_abandoned (pes_sink s') = ring_is_abandoned (pes_sink s) /\
    pes_signal_ready s' = pes_signal_ready s.
Proof.
  revert s. induction iips as [|iip iips IH]; intros s Hlen; simpl in *.
  - exists s. by rewrite app_nil_r.
  - destruct (push_ring (from_text iip) s) as (s1 & eff & -> & Hi & Hc & Ha & Hs); [lia|].
    destruct (IH s1) as (s' & -> & Hi' & Hc' & Ha' & Hs').
    { rewrite Hi, Hc, length_app. simpl. lia. }
    exists s'. split; [done|]. rewrite Hi', Hi, Hc', Hc, Ha', Ha, Hs', Hs, <- app_assoc. by repeat split.
Qed.

Lemma mm_insert_vec {V} (k k' : string) (v : V) (m : multimap V) l :
  mm_get_vec k' m = vec_of l ->
  mm_get_vec k' (mm_insert k v m) = vec_of (l ++ (if decide (k = k') then [v] else [])).
Proof.
  intros Hl. destruct (decide (k = k')) as [<-|Hne].
  - rewrite mm_get_vec_insert_eq, Hl. by destruct l.
  - by rewrite mm_get_vec_insert_ne, app_nil_r by done.
Qed.

(** Wiring both ends of a link, or the target end only. *)
Lemma wire_in_ok ls names ports p port c :
  dom ports = names -> p ∈ names -> ports_ok ls ports -> c = length ls ->
  exists ports1, wire_in p port c ports = Done ports1 /\ dom ports1 = names /\
    forall p' pp port', ports1 !! p' = Some pp ->
      mm_get_vec port' (pp_inports pp) =
        vec_of (positions (leads_to p' port') 0 ls ++
                (if bool_decide ((p, port) = (p', port')) then [length ls] else [])) /\
      mm_get_vec port' (pp_outports pp) = vec_of (positions (leaves p' port') 0 ls).
Proof.
  intros Hdom Hp Hok ->. unfold wire_in.
  assert (is_Some (ports !! p)) as [pp Hpp] by (apply elem_of_dom; by rewrite Hdom).
  rewrite Hpp. simpl. eexists. split; [done|]. split; [rewrite dom_insert_L, Hdom; set_solver|].
  intros p' pp' port' Hl. apply lookup_insert_Some in Hl as [[<- <-]|[Hne Hl]]; simpl.
  - destruct (Hok _ _ port' Hpp) as [Hi Ho]. split; [|done]. rewrite (mm_insert_vec _ _ _ _ _ Hi).
    destruct (decide (port = port')) as [->|Hne].
    + by rewrite bool_decide_true.
    + by rewrite bool_decide_false by congruence.
  - destruct (Hok _ _ port' Hl) as [-> ->]. split; [|done].
    rewrite bool_decide_false by congruence. by rewrite app_nil_r.
Qed.

Lemma wire_both_ok ls names ports p port q oport sig queue c :
  dom ports = names -> p ∈ names -> q ∈ names -> ports_ok ls ports -> c = length ls ->
  exists ports1 ports2, wire_in p port c ports = Done ports1 /\ is_Some (ports1 !! q) /\
    wire_out q oport c ports1 = Done ports2 /\ dom ports2 = names /\
    ports_ok (ls ++ [mk_link (Some (q, oport)) (p, port) sig queue]) ports2.
Proof.
  intros Hdom Hp Hq Hok Hc. destruct (wire_in_ok ls names ports p port c) as (ports1 & Hin & Hd1 & H1);
    [done..|].
  assert (is_Some (ports1 !! q)) as [qq Hqq] by (apply elem_of_dom; by rewrite Hd1).
  exists ports1. eexists. split; [done|]. split; [by eauto|]. unfold wire_out. rewrite Hqq. simpl.
  split; [done|]. split; [rewrite dom_insert_L, Hd1; set_solver|].
  intros p' pp' port' Hl. rewrite !positions_snoc. unfold leads_to at 2, leaves at 2. simpl.
  rewrite (bool_decide_ext (Some (q, oport) = Some (p', port')) ((q, oport) = (p', port')))
    by (split; congruence).
  apply lookup_insert_Some in Hl as [[<- <-]|[Hne Hl]]; simpl.
  - destruct (H1 _ _ port' Hqq) as [Hi Ho]. split; [done|]. rewrite (mm_insert_vec _ _ _ _ _ Ho). subst c.
    destruct (decide (oport = port')) as [->|Hne].
    + by rewrite bool_decide_true.
    + by rewrite bool_decide_false by congruence.
  - destruct (H1 _ _ port' Hl) as [-> ->]. split; [done|].
    rewrite bool_decide_false by congruence. by rewrite app_nil_r.
Qed.

Lemma wire_target_ok ls names ports p port sig queue c :
  dom ports = names -> p ∈ names -> ports_ok ls ports -> c = length ls ->
  exists ports1, wire_in p port c ports = Done ports1 /\ dom ports1 = names /\
    ports_ok (ls ++ [mk_link None (p, port) sig queue]) ports1.
Proof.
  intros Hdom Hp Hok Hc. destruct (wire_in_ok ls names ports p port c) as (ports1 & Hin & Hd1 & H1);
    [done..|]. exists ports1. split; [done|]. split; [done|].
  intros p' pp' port' Hl. rewrite !positions_snoc. unfold leads_to at 2, leaves at 2. simpl.
  rewrite app_nil_r. by apply H1.
Qed.

(** The buffer that a new edge starts with. *)
Lemma new_edge_sink_ok wakeup name sig :
  let s := new_edge_sink (ring_new PROCESSEDGE_BUFSIZE) wakeup name sig in
  ring_items (pes_sink s) = [] /\ ring_cap (pes_sink s) = PROCESSEDGE_BUFSIZE /\
  ring_is_abandoned (pes_sink s) = false /\ pes_signal_ready s = sig.
Proof. simpl. by rewrite ring_new_items, ring_new_cap, ring_new_abandoned. Qed.
End wiring.

(** * The loops of [wire] *)
Section loops.
Context `{R : Rtrb} `{J : SerdeJson} `{MM : forall V, MultiMapLib V} `{HI : HashIter}.

Lemma run_fold_app {A B} (f : A -> B -> run B) l1 l2 b :
  run_fold f (l1 ++ l2) b = let! b' := run_fold f l1 b in run_fold f l2 b'.
Proof. revert b. induction l1 as [|x l1 IH]; intros b; simpl; [done|]. by destruct (f x b); simpl. Qed.

(** A loop whose every turn adds the links of its element. *)
Lemma run_fold_wired {A} (f : A -> wiring -> run wiring) (lk : A -> list link) names (ok : A -> Prop) l :
  (forall x ls w, ok x -> wired ls names w -> exists w', f x w = Returns w' /\ wired (ls ++ lk x) names w') ->
  forall ls w, Forall ok l -> wired ls names w ->
  exists w', run_fold f l w = Returns w' /\ wired (ls ++ flat_map lk l) names w'.
Proof.
  intros Hf. induction l as [|x l IH]; intros ls w Hok Hw; simpl.
  - exists w. by rewrite app_nil_r.
  - apply Forall_cons in Hok as [Hx Hok]. destruct (Hf x ls w Hx Hw) as (w1 & -> & Hw1). simpl.
    destruct (IH _ w1 Hok Hw1) as (w' & -> & Hw'). exists w'. by rewrite app_assoc.
Qed.

Lemma insert_procs_ok l m :
  NoDup l -> (forall n, n ∈ l -> m !! n = None) ->
  exists m', insert_procs l m = Done m' /\ dom m' = list_to_set l ∪ dom m /\
    forall n pp, m' !! n = Some pp -> pp = default_proc_ports \/ m !! n = Some pp.
Proof.
  revert m. induction l as [|n l IH]; intros m Hnd Hm; simpl.
  - exists m. split; [done|]. split; [set_solver|auto].
  - apply NoDup_cons in Hnd as [Hn Hnd]. unfold try_insert. rewrite (Hm n) by set_solver.
    destruct (IH (<[n := default_proc_ports]> m)) as (m' & -> & Hd & Hl); [done| |].
    + intros k Hk. rewrite lookup_insert_ne by set_solver. apply Hm. set_solver.
    + exists m'. split; [done|]. split; [rewrite Hd, dom_insert_L; set_solver|].
      intros k pp Hk. destruct (Hl _ _ Hk) as [?|Hi]; [by left|].
      apply lookup_insert_Some in Hi as [[_ <-]|[_ ?]]; auto.
Qed.

Lemma in_out_ne g : in_process g <> out_process g.
Proof.
  unfold in_process, out_process. by intros H%(inj (String.append (g_name g))).
Qed.

Lemma proc_names_nodup g : startable g -> NoDup (proc_names g).
Proof.
  intros Hs. unfold proc_names. pose proof (in_out_ne g) as Hio.
  assert (forall n l, NoDup l -> (forall x, x ∈ l -> g_nodes g !! x = None) -> n = l ->
    NoDup ((hash_iter (g_nodes g)).*1 ++ n)) as Hno.
  { intros ? l Hl Hn ->. apply NoDup_app. split; [apply hash_iter_keys_nodup|]. split; [|done].
    intros x [v Hv]%hash_iter_keys_elem Hx. apply Hn in Hx. congruence. }
  pose proof (sta_in_name g Hs) as Hin. pose proof (sta_out_name g Hs) as Hout.
  do 2 case_bool_decide; (eapply Hno; [| |reflexivity]); simpl.
  - constructor.
  - by intros x ?%elem_of_nil.
  - apply NoDup_singleton.
  - intros x ->%list_elem_of_singleton. auto.
  - apply NoDup_singleton.
  - intros x ->%list_elem_of_singleton. auto.
  - constructor; [by intros ?%list_elem_of_singleton|apply NoDup_singleton].
  - intros x [->| ->%list_elem_of_singleton]%elem_of_cons; auto.
Qed.

Definition proc_set (g : Graph) : gset string := list_to_set (proc_names g).

Lemma node_in_proc_set g n : is_Some (g_nodes g !! n) -> n ∈ proc_set g.
Proof.
  intros Hn. unfold proc_set, proc_names. rewrite elem_of_list_to_set, elem_of_app. left.
  by apply hash_iter_keys_elem.
Qed.

Lemma taken_iips before edges k :
  default [] (filter (fun kv => takes_iips before kv.1 = true) (iips_per_target edges) !! k) =
    if takes_iips before k then iips_for k edges else [].
Proof.
  rewrite <- iips_per_target_default. destruct (takes_iips before k) eqn:Hk.
  - destruct (iips_per_target edges !! k) as [v|] eqn:Hv; simpl.
    + by rewrite (proj2 (map_lookup_filter_Some _ _ k v)).
    + rewrite (proj2 (map_lookup_filter_None _ _ k)); [done|]. left. done.
  - rewrite (proj2 (map_lookup_filter_None _ _ k)); [done|]. right. intros v _. simpl. congruence.
Qed.

Lemma wire_edge_ok g tx before edges e ls w :
  startable g -> g_edges g = before ++ e :: edges -> wired ls (proc_set g) w ->
  wr_iips w = filter (fun kv => takes_iips before kv.1 = true) (iips_per_target (g_edges g)) ->
  exists w', wire_edge (g_name g) false tx e w = Returns w' /\
    wired (ls ++ (if is_iip e then [] else [edge_link (g_edges g) before e])) (proc_set g) w' /\
    wr_iips w' = filter (fun kv => takes_iips (before ++ [e]) kv.1 = true) (iips_per_target (g_edges g)).
Proof.
  intros Hs Hg [Hc Hd Hp] Hi. unfold wire_edge. destruct (is_iip e) eqn:He.
  { exists w. rewrite app_nil_r. split; [done|]. split; [by constructor|]. rewrite Hi.
    apply map_filter_ext. intros k v _. simpl. by rewrite takes_iips_snoc, He, andb_true_r. }
  assert (edge_attached g e) as [Hsrc Htgt].
  { pose proof (sta_connected g Hs) as Hwc. unfold well_connected in Hwc. rewrite Hg in Hwc.
    apply Forall_app in Hwc as [_ Hwc]. by apply Forall_cons in Hwc as [? _]. }
  destruct Hsrc as [Hdata|Hsrc]; [unfold is_iip in He; by rewrite bool_decide_true in He|].
  destruct (inject_iips_spec (default [] (wr_iips w !! iip_key e))
    (new_edge_sink (ring_new PROCESSEDGE_BUFSIZE) None (Some (ns_process (edge_target e)))
       (Some (ns_process (edge_target e))))) as (s' & Hinj & Hit & Hcap & Hab & Hsig).
  { simpl. rewrite ring_new_items, ring_new_cap, Hi, taken_iips. pose proof (sta_iips g Hs (iip_key e)).
    destruct (takes_iips before (iip_key e)); simpl; lia. }
  simpl in Hit, Hcap, Hab, Hsig. rewrite ring_new_items in Hit. rewrite ring_new_cap in Hcap.
  rewrite ring_new_abandoned in Hab.
  destruct (wire_both_ok ls (proc_set g) (wr_ports w) (ns_process (edge_target e))
    (to_ascii_uppercase (ns_port (edge_target e))) (ns_process (edge_source e))
    (to_ascii_uppercase (ns_port (edge_source e))) (Some (ns_process (edge_target e)))
    (if takes_iips before (iip_key e) then iips_for (iip_key e) (g_edges g) else [])
    (length (wr_conns w))) as (ports1 & ports2 & Hin & [q Hq] & Hout & Hd2 & Hp2);
    [done|by apply node_in_proc_set..|done|by rewrite (Forall2_length _ _ _ Hc)|].
  rewrite Hin. simpl. rewrite Hq. simpl. rewrite Hinj. simpl. rewrite Hout. simpl.
  eexists. split; [done|]. split.
  - constructor; simpl; [|done|done]. apply Forall2_app; [done|]. constructor; [|done].
    rewrite Hi, taken_iips in Hit. unfold edge_link. split; [by destruct tx|].
    repeat split; [by eauto|by destruct tx..].
  - simpl. rewrite Hi. apply map_eq. intros k. apply option_eq. intros v.
    rewrite lookup_delete_Some, !map_lookup_filter_Some. simpl. rewrite takes_iips_snoc, He. simpl.
    destruct (decide (iip_key e = k)) as [->|Hne].
    + rewrite bool_decide_true, andb_false_r by done. naive_solver.
    + rewrite bool_decide_false, andb_true_r by done. naive_solver.
Qed.

Lemma wire_edges_ok g tx edges before ls w :
  startable g -> g_edges g = before ++ edges -> wired ls (proc_set g) w ->
  wr_iips w = filter (fun kv => takes_iips before kv.1 = true) (iips_per_target (g_edges g)) ->
  exists w', run_fold (wire_edge (g_name g) false tx) edges w = Returns w' /\
    wired (ls ++ edge_links (g_edges g) before edges) (proc_set g) w' /\
    wr_iips w' = leftover_iips (g_edges g).
Proof.
  intros Hs. revert before ls w. induction edges as [|e edges IH]; intros before ls w Hg Hw Hi; simpl.
  - exists w. rewrite app_nil_r in Hg |- *. split; [done|]. split; [done|]. unfold leftover_iips.
    by rewrite Hi, Hg.
  - destruct (wire_edge_ok g tx before edges e ls w) as (w1 & -> & Hw1 & Hi1); [done..|]. simpl.
    rewrite app_assoc. apply IH; [|done|done]. rewrite Hg. by rewrite <- app_assoc.
Qed.

Lemma wire_iip_ok names k iip ls w :
  k.1 ∈ names -> wired ls names w ->
  exists w', wire_iip k iip w = Returns w' /\ wired (ls ++ [iip_link k iip]) names w'.
Proof.
  intros Hk [Hc Hd Hp]. unfold wire_iip.
  pose proof (ring_push_res (from_text iip) (ring_new PROCESSEDGE_IIP_BUFSIZE)) as Hres.
  pose proof (ring_push_items (from_text iip) (ring_new PROCESSEDGE_IIP_BUFSIZE)) as Hit.
  pose proof (ring_push_cap (from_text iip) (ring_new PROCESSEDGE_IIP_BUFSIZE)) as Hcap.
  rewrite ring_new_items, ring_new_cap in Hres, Hit. rewrite ring_new_cap in Hcap. simpl in Hres, Hit.
  destruct (ring_push _ _) as [res r]; simpl in *. subst res.
  destruct (wire_target_ok ls names (wr_ports w) k.1 (to_ascii_uppercase k.2) None [iip]
    (length (wr_conns w))) as (ports1 & -> & Hd1 & Hp1);
    [done|done|done|by rewrite (Forall2_length _ _ _ Hc)|].
  simpl. eexists. split; [done|]. constructor; simpl; [|done|done].
  apply Forall2_app; [done|]. constructor; [|done]. unfold conn_ok; simpl.
  rewrite ring_drop_producer_items, ring_drop_producer_cap, ring_drop_producer_abandoned. done.
Qed.

Lemma wire_leftover_ok names kv ls w :
  kv.1.1 ∈ names -> wired ls names w ->
  exists w', wire_leftover kv w = Returns w' /\ wired (ls ++ map (iip_link kv.1) kv.2) names w'.
Proof.
  intros Hk Hw. unfold wire_leftover.
  destruct (run_fold_wired (wire_iip kv.1) (fun iip => [iip_link kv.1 iip]) names (fun _ => True) kv.2
    (fun iip ls w _ => wire_iip_ok names kv.1 iip ls w Hk) ls w) as (w' & -> & Hw');
    [by apply Forall_true|done|].
  exists w'. split; [done|]. replace (map (iip_link kv.1) kv.2) with
    (flat_map (fun iip => [iip_link kv.1 iip]) kv.2); [done|].
  clear. induction kv.2 as [|x l IH]; simpl; congruence.
Qed.

Lemma new_edge_conn_ok q p sig name :
  conn_ok (mk_link (Some q) p sig []) (Edge (new_edge_sink (ring_new PROCESSEDGE_BUFSIZE) None name sig)).
Proof. destruct (new_edge_sink_ok None name sig) as (? & ? & ? & ?). by repeat split; [..|eauto]. Qed.

Lemma flat_map_single {A B} (f : A -> B) l : flat_map (fun x => [f x]) l = map f l.
Proof. induction l as [|x l IH]; simpl; congruence. Qed.

Lemma wire_inport_ok g e ls w :
  startable g -> g_inports g !! e.1 = Some e.2 -> wired ls (proc_set g) w ->
  exists w', wire_inport g e w = Returns w' /\ wired (ls ++ [inport_link g e]) (proc_set g) w'.
Proof.
  intros Hs He [Hc Hd Hp]. destruct e as [public_name port]; simpl in He. unfold wire_inport.
  destruct (wire_both_ok ls (proc_set g) (wr_ports w) (port_process port)
    (to_ascii_uppercase (port_port port)) (in_process g) public_name (Some (port_process port)) []
    (length (wr_conns w))) as (ports1 & ports2 & -> & _ & Hout & Hd2 & Hp2);
    [done|by eapply node_in_proc_set, sta_inports| |done|by rewrite (Forall2_length _ _ _ Hc)|].
  - unfold proc_set, proc_names. rewrite bool_decide_false; [set_solver|].
    intros Hem. by rewrite Hem, lookup_empty in He.
  - simpl. rewrite Hout. simpl. eexists. split; [done|]. constructor; simpl; [|done|done].
    apply Forall2_app; [done|]. constructor; [|done]. apply new_edge_conn_ok.
Qed.

Lemma wire_outport_ok g e ls w :
  startable g -> g_outports g !! e.1 = Some e.2 -> wired ls (proc_set g) w ->
  exists w', wire_outport g e w = Returns w' /\ wired (ls ++ [outport_link g e]) (proc_set g) w'.
Proof.
  intros Hs He [Hc Hd Hp]. destruct e as [public_name port]; simpl in He. unfold wire_outport.
  destruct (wire_both_ok ls (proc_set g) (wr_ports w) (out_process g) public_name (port_process port)
    (to_ascii_uppercase (port_port port)) None [] (length (wr_conns w)))
    as (ports1 & ports2 & -> & _ & Hout & Hd2 & Hp2);
    [done| |by eapply node_in_proc_set, sta_outports|done|by rewrite (Forall2_length _ _ _ Hc)|].
  - unfold proc_set, proc_names. rewrite (bool_decide_false (g_outports g = ∅)); [set_solver|].
    intros Hem. by rewrite Hem, lookup_empty in He.
  - simpl. rewrite Hout. simpl. eexists. split; [done|]. constructor; simpl; [|done|done].
    apply Forall2_app; [done|]. constructor; [|done]. apply new_edge_conn_ok.
Qed.

(** [wire] builds the network of a startable graph. *)
Lemma wire_ok g tx :
  startable g -> exists w, wire g false tx = Returns w /\ wired (links g) (proc_set g) w.
Proof.
  intros Hs. unfold wire.
  destruct (insert_procs_ok (proc_names g) ∅) as (ports & -> & Hd & Hl);
    [by apply proc_names_nodup|intros; apply lookup_empty|]. simpl.
  destruct (wire_edges_ok g tx (g_edges g) [] [] (mk_wiring [] ports (iips_per_target (g_edges g))))
    as (w1 & -> & Hw1 & Hi1); [done|done| |by rewrite map_filter_id|].
  { constructor; simpl; [constructor|by rewrite Hd, dom_empty_L, (right_id_L ∅ (∪))|].
    intros p pp port Hpp. destruct (Hl _ _ Hpp) as [->|Hem]; [|by rewrite lookup_empty in Hem].
    simpl. by rewrite !mm_get_vec_new. }
  simpl. destruct (run_fold_wired wire_leftover (fun kv => map (iip_link kv.1) kv.2) (proc_set g)
    (fun kv => kv.1.1 ∈ proc_set g) (hash_iter (wr_iips w1)) (fun kv ls w => wire_leftover_ok _ kv ls w)
    ([] ++ edge_links (g_edges g) [] (g_edges g)) (mk_wiring (wr_conns w1) (wr_ports w1) ∅))
    as (w2 & -> & Hw2); [|by destruct Hw1|].
  { apply Forall_forall. intros [k iips] Hk%hash_iter_elem. simpl. rewrite Hi1 in Hk.
    apply map_lookup_filter_Some in Hk as [Hk _].
    destruct (iips_per_target_key (g_edges g) k) as (e & He & _ & <-); [by eauto|].
    apply node_in_proc_set. pose proof (sta_connected g Hs) as Hwc. unfold well_connected in Hwc.
    rewrite Forall_forall in Hwc. by destruct (Hwc e He). }
  rewrite Hi1 in Hw2. simpl.
  assert (forall m : gmap string GraphPort, Forall (fun e => m !! e.1 = Some e.2) (hash_iter m)) as Hall.
  { intros m. apply Forall_forall. by intros [k p] ?%hash_iter_elem. }
  pose proof (run_fold_wired (wire_inport g) (fun e => [inport_link g e]) (proc_set g) _
    (hash_iter (g_inports g)) (fun e ls w => wire_inport_ok g e ls w Hs)) as Hin.
  destruct (Hin _ _ (Hall _) Hw2) as (w3 & -> & Hw3). simpl.
  pose proof (run_fold_wired (wire_outport g) (fun e => [outport_link g e]) (proc_set g) _
    (hash_iter (g_outports g)) (fun e ls w => wire_outport_ok g e ls w Hs)) as Hout.
  destruct (Hout _ _ (Hall _) Hw3) as (w4 & -> & Hw4).
  exists w4. split; [done|]. rewrite !flat_map_single in Hw4. unfold links.
  by rewrite <- !app_assoc in Hw4.
Qed.
End loops.

(** * Processes *)
Section processes.
Context `{R : Rtrb} `{J : SerdeJson} `{MM : forall V, MultiMapLib V} `{HI : HashIter}.
Context {C : Type} `{Comp : Component C} (enforce : bool).
Variable get_component_budget_class : string -> BudgetClass.
Variable instantiate_component :
  string -> multimap nat -> multimap nat -> option SchedulerWaker -> outcome (option C).

(** A node's component was made with the connections of its links. *)
Definition created (g : Graph) (n : string) (c : C) : Prop :=
  exists node ins outs, g_nodes g !! n = Some node /\
    instantiate_component (node_component node) ins outs (Some n) = Done (Some c) /\
    forall port, mm_get_vec port ins = vec_of (positions (leads_to n port) 0 (links g)) /\
                 mm_get_vec port outs = vec_of (positions (leaves n port) 0 (links g)).

(** Each node's component is in the library and a link leads to, or leaves,
    each of its ports. *)
Definition ports_connected (g : Graph) (available : list ComponentComponentPayload) : Prop :=
  forall n node, g_nodes g !! n = Some node -> exists c,
    find_component (node_component node) available = Some c /\
    Forall (fun p => Exists (fun l => ln_tgt l = (n, cp_name p)) (links g)) (ccp_in_ports c) /\
    Forall (fun p => Exists (fun l => ln_src l = Some (n, cp_name p)) (links g)) (ccp_out_ports c).

(** What the generated constructor does: the component of a node is built when
    its ports are there. *)
Definition constructs (g : Graph) (available : list ComponentComponentPayload) : Prop :=
  forall n node c ins outs, g_nodes g !! n = Some node ->
    find_component (node_component node) available = Some c ->
    Forall (fun p => has_channel (cp_name p) ins) (ccp_in_ports c) ->
    Forall (fun p => has_channel (cp_name p) outs) (ccp_out_ports c) ->
    exists inst, instantiate_component (node_component node) ins outs (Some n) = Done (Some inst).

Record registered (g : Graph) (names : gset string) (s : Scheduler C) : Prop := {
  rg_reachable : reachable enforce (W s PStart);
  rg_running : running s = true;
  rg_nodes : dom (nodes (state s)) = names;
  rg_flags : dom (ready_flags (state s)) = names;
  rg_components : dom (components (state s)) = names;
  rg_created n c : components (state s) !! n = Some c -> created g n c
}.

Lemma new_scheduler_registered g : registered g ∅ new_scheduler.
Proof. constructor; simpl; try by rewrite ?dom_empty_L. constructor. Qed.

Lemma positions_ne_nil {A} (f : A -> bool) (l : list A) :
  Exists (fun x => f x = true) l -> positions f 0 l <> [].
Proof.
  intros (x & Hx & Hf)%Exists_exists Hn. apply list_elem_of_lookup_1 in Hx as [i Hi].
  assert (i ∈ positions f 0 l) as Hp; [|rewrite Hn in Hp; by apply elem_of_nil in Hp].
  apply elem_of_positions. exists x. split; [lia|]. by rewrite Nat.sub_0_r.
Qed.

Lemma has_channel_positions {A} k (m : multimap nat) (f : A -> bool) (l : list A) :
  mm_get_vec k m = vec_of (positions f 0 l) -> Exists (fun x => f x = true) l ->
  has_channel k m.
Proof.
  intros Hm Hex%positions_ne_nil. unfold has_channel. rewrite Hm.
  destruct (positions f 0 l); [done|]. by eexists _, _.
Qed.

Lemma ports_present (ls : list link) (m : multimap nat) (ports : list ComponentPort) (f : string -> link -> bool) :
  (forall port, mm_get_vec port m = vec_of (positions (f port) 0 ls)) ->
  Forall (fun p => Exists (fun l => f (cp_name p) l = true) ls) ports ->
  Forall (fun p => has_channel (cp_name p) m) ports.
Proof. intros Hm Hp. eapply Forall_impl; [exact Hp|]. intros p. by apply has_channel_positions. Qed.

Lemma missing_port_none (ports : list ComponentPort) m n exported :
  Forall (fun p => has_channel (cp_name p) m) ports -> missing_port ports m n exported = None.
Proof.
  unfold missing_port, has_port. induction 1 as [|p ports Hp%has_channel_contains _ IH]; simpl; [done|].
  by rewrite Hp.
Qed.

Lemma check_process_ok g available n node w pp :
  wired (links g) (proc_set g) w -> ports_connected g available -> constructs g available ->
  g_nodes g !! n = Some node -> wr_ports w !! n = Some pp ->
  check_process g available n (node_component node) pp = Ok tt /\
  exists c, instantiate_component (node_component node) (pp_inports pp) (pp_outports pp) (Some n)
    = Done (Some c) /\ created g n c.
Proof.
  intros Hw Hc Hi Hn Hpp. destruct (Hc n node Hn) as (c & Hf & Hins & Houts).
  pose proof (fun port => wd_ports _ _ _ Hw n pp port Hpp) as Hports.
  assert (Forall (fun p => has_channel (cp_name p) (pp_inports pp)) (ccp_in_ports c)) as Hin.
  { apply (ports_present (links g) _ _ (leads_to n)); [intros port; by destruct (Hports port)|].
    eapply Forall_impl; [exact Hins|]. intros p Hex. eapply Exists_impl; [exact Hex|]. intros l Hl.
    by apply bool_decide_true. }
  assert (Forall (fun p => has_channel (cp_name p) (pp_outports pp)) (ccp_out_ports c)) as Hout.
  { apply (ports_present (links g) _ _ (leaves n)); [intros port; by destruct (Hports port)|].
    eapply Forall_impl; [exact Houts|]. intros p Hex. eapply Exists_impl; [exact Hex|]. intros l Hl.
    by apply bool_decide_true. }
  unfold check_process. rewrite Hf, !missing_port_none by done. split; [done|].
  destruct (Hi n node _ _ _ Hn Hf Hin Hout) as [inst Hinst]. exists inst. split; [done|].
  exists node, (pp_inports pp), (pp_outports pp). by repeat split; try apply Hports.
Qed.

Lemma registered_node g names s n k now c :
  registered g names s -> n ∉ names -> created g n c ->
  registered g ({[n]} ∪ names) (add_component c n (Scheduler.add_node n k now s)).
Proof.
  intros [Hr Hrun Hn Hf Hc Hcr] Hnew Hcn.
  assert (ready_flags (state s) !! n = None) as Hfn by (apply not_elem_of_dom; by rewrite Hf).
  constructor; simpl; rewrite ?dom_insert_L, ?Hn, ?Hf, ?Hc; try done.
  - eapply reachable_step; [eapply reachable_step; [exact Hr|]|].
    + by apply (step_add_node enforce n k now).
    + by apply step_add_component.
  - intros n' c' [[<- <-]|[_ Hl]]%lookup_insert_Some; [done|by apply Hcr].
Qed.

Lemma start_process_ok g available clock w names n node (s : setup) :
  wired (links g) (proc_set g) w -> ports_connected g available -> constructs g available ->
  g_nodes g !! n = Some node -> n ∉ names -> registered g names s.2 -> s.1 !! n = wr_ports w !! n ->
  exists s', start_process get_component_budget_class instantiate_component g available clock n node s =
      Done (Ok tt, s') /\ s'.1 = delete n s.1 /\ registered g ({[n]} ∪ names) s'.2.
Proof.
  intros Hw Hc Hi Hn Hnew Hr Hs. unfold start_process. rewrite Hs.
  assert (is_Some (wr_ports w !! n)) as [pp Hpp].
  { apply elem_of_dom. rewrite (wd_names _ _ _ Hw). by apply node_in_proc_set. }
  rewrite Hpp. simpl. destruct (check_process_ok g available n node w pp) as (-> & c & Hinst & Hcr);
    [done..|].
  unfold create_waker. simpl. rewrite lookup_insert_eq, Hinst. simpl.
  eexists. split; [done|]. split; [done|]. by apply registered_node.
Qed.

Lemma start_processes_ok g available clock w nodes names (s : setup) :
  wired (links g) (proc_set g) w -> ports_connected g available -> constructs g available ->
  NoDup nodes.*1 -> (forall n node, (n, node) ∈ nodes -> g_nodes g !! n = Some node) ->
  (forall n, n ∈ nodes.*1 -> (n ∉ names) /\ s.1 !! n = wr_ports w !! n) -> registered g names s.2 ->
  exists s', start_processes get_component_budget_class instantiate_component g available clock nodes s =
      Done (Ok tt, s') /\
    (forall n, s'.1 !! n = (if decide (n ∈ nodes.*1) then None else s.1 !! n)) /\
    registered g (list_to_set nodes.*1 ∪ names) s'.2.
Proof.
  intros Hw Hc Hi. revert names s. induction nodes as [|[n node] nodes IH]; intros names s Hnd Hg Hs Hr.
  - simpl. exists s. split; [done|]. split; [done|]. by rewrite (left_id_L ∅ (∪)).
  - rewrite fmap_cons in *. cbn [start_processes fst] in *.
    apply NoDup_cons in Hnd as [Hn Hnd]. destruct (Hs n) as [Hnew Hsn]; [by left|].
    destruct (start_process_ok g available clock w names n node s) as (s1 & -> & Hd & Hr1);
      [done|done|done|apply Hg; by left|done|done|done|]. simpl.
    destruct (IH ({[n]} ∪ names) s1) as (s' & -> & Hs' & Hr'); [done| | |done|].
    + intros n' node' Hin. apply Hg. by right.
    + intros n' Hin. destruct (Hs n') as [Hn' Hsn']; [by right|].
      assert (n' <> n) by (intros ->; done). split; [set_solver|]. rewrite Hd.
      by rewrite lookup_delete_ne by done.
    + exists s'. split; [done|]. split.
      * intros n'. rewrite Hs', Hd. destruct (decide (n' ∈ nodes.*1)) as [Hin|Hnin].
        -- by rewrite decide_True by (by right).
        -- destruct (decide (n' = n)) as [->|Hne].
           ++ rewrite lookup_delete_eq. by rewrite decide_True by (by left).
           ++ rewrite lookup_delete_ne by done. rewrite decide_False by set_solver. done.
      * replace ({[n]} ∪ list_to_set nodes.*1 ∪ names) with
          (list_to_set nodes.*1 ∪ ({[n]} ∪ names)) by set_solver. exact Hr'.
Qed.

(** [signal_all]: the scheduler stays one that its operations reach, and every
    node is queued. *)
Lemma fold_signals_ok l s :
  reachable enforce (W s PStart) -> (forall n, n ∈ l -> is_Some (ready_flags (state s) !! n)) ->
  let s' := fold_left (fun s id => (signal_ready id s).2) l s in
  reachable enforce (W s' PStart) /\ signalled s s' /\ forall n, n ∈ l -> n ∈ ready_queue (state s').
Proof.
  revert s. induction l as [|n l IH]; intros s Hr Hl; simpl.
  - split; [done|]. split; [reflexivity|]. by intros n ?%elem_of_nil.
  - destruct (signal_ready n s) as [b s1] eqn:Hsig. simpl.
    pose proof (signal_ready_signalled _ _ _ _ Hsig) as Hsg.
    assert (b = true) as ->.
    { destruct (Hl n) as [f Hf]; [by left|]. unfold signal_ready in Hsig. rewrite Hf in Hsig.
      destruct (enqueue _ _) as [[]]; by simplify_eq. }
    assert (reachable enforce (W s1 PStart)) as Hr1.
    { eapply reachable_step; [exact Hr|]. by apply (step_signal enforce n true s s1 PStart). }
    destruct (IH s1 Hr1) as (Hr' & Hsg' & Hq).
    { intros x Hx. rewrite (sg_ready_flags _ _ Hsg). apply Hl. by right. }
    split; [done|]. split; [by etransitivity|]. intros x [->|Hx]%elem_of_cons; [|by apply Hq].
    destruct (sg_queue _ _ Hsg') as [tl ->]. apply elem_of_app. left.
    eapply signal_ready_queues; [exact Hsig|]. exact (wi_state _ (reachable_inv _ _ Hr)).
Qed.

Lemma signal_all_ok g names s :
  registered g names s ->
  registered g names (signal_all s) /\ forall n, n ∈ names -> n ∈ ready_queue (state (signal_all s)).
Proof.
  intros [Hr Hrun Hn Hf Hc Hcr]. unfold signal_all.
  assert (forall n, n ∈ node_ids s <-> n ∈ names) as Hids.
  { intros n. unfold node_ids. rewrite list_elem_of_fmap, <- Hn, elem_of_dom. split.
    - intros ([n' ctx] & -> & Hin%elem_of_map_to_list). by exists ctx.
    - intros [ctx Hctx]. exists (n, ctx). by rewrite elem_of_map_to_list. }
  destruct (fold_signals_ok (node_ids s) s Hr) as (Hr' & [? ? ? ? ? ? ? ?] & Hq).
  { intros n Hin%Hids. apply elem_of_dom. by rewrite Hf. }
  split; [|intros n Hin; by apply Hq, Hids].
  constructor; [done|congruence|congruence|congruence|congruence|].
  intros n c Hl. apply Hcr. congruence.
Qed.
End processes.

(** * The graph's own ports *)
Section boundary.
Context `{R : Rtrb} `{J : SerdeJson} `{MM : forall V, MultiMapLib V} `{HI : HashIter}.

(** The sinks of the exported inports, and what they lead to. *)
Definition inports_ok (g : Graph) (inports : option (gmap string nat)) : Prop :=
  match inports with
  | None => g_inports g = ∅
  | Some m => g_inports g <> ∅ /\ forall public_name c, m !! public_name = Some c <->
      exists p, g_inports g !! public_name = Some p /\ links g !! c = Some (inport_link g (public_name, p))
  end.

Lemma edge_links_src all before edges l p port :
  l ∈ edge_links all before edges -> ln_src l = Some (p, port) ->
  exists e, e ∈ edges /\ is_iip e = false /\ p = ns_process (edge_source e).
Proof.
  revert before. induction edges as [|e edges IH]; intros before Hin Hl; simpl in Hin;
    [by apply elem_of_nil in Hin|].
  apply elem_of_app in Hin as [Hin|Hin].
  - destruct (is_iip e) eqn:He; [by apply elem_of_nil in Hin|].
    apply list_elem_of_singleton in Hin as ->. simpl in Hl. simplify_eq. exists e. by split; [left|].
  - destruct (IH _ Hin Hl) as (e' & ? & ? & ?). exists e'. by split; [right|].
Qed.

(** Only the links of the exported inports leave [in_process]. *)
Lemma leaves_in_process g j l public_name :
  startable g -> g_inports g <> ∅ -> links g !! j = Some l -> leaves (in_process g) public_name l = true ->
  exists k p, hash_iter (g_inports g) !! k = Some (public_name, p) /\
    l = inport_link g (public_name, p) /\
    j = length (edge_links (g_edges g) [] (g_edges g)) +
        (length (flat_map (fun kv => map (iip_link kv.1) kv.2) (hash_iter (leftover_iips (g_edges g)))) + k).
Proof.
  intros Hs Hne Hj Hl%bool_decide_eq_true. pose proof (sta_in_name g Hs Hne) as Hin.
  assert (forall p port, ln_src l = Some (p, port) -> g_nodes g !! p = None) as Hno.
  { intros p port Hp. rewrite Hl in Hp. by simplify_eq. }
  unfold links in Hj. apply lookup_app_Some in Hj as [Hj|[Hle1 Hj]].
  { exfalso. apply list_elem_of_lookup_2 in Hj.
    destruct (edge_links_src _ _ _ _ _ _ Hj Hl) as (e & He & Hi & Hp).
    pose proof (sta_connected g Hs) as Hwc. unfold well_connected in Hwc. rewrite Forall_forall in Hwc.
    destruct (Hwc e He) as [[Hd|[v Hv]] _]; [|congruence].
    unfold is_iip in Hi. by rewrite bool_decide_true in Hi. }
  apply lookup_app_Some in Hj as [Hj|[Hle2 Hj]].
  { exfalso. apply list_elem_of_lookup_2, list_elem_of_In, in_flat_map in Hj as (kv & _ & Hj).
    apply in_map_iff in Hj as (iip & <- & _). done. }
  apply lookup_app_Some in Hj as [Hj|[Hle3 Hj]].
  - apply list_lookup_fmap_Some in Hj as ([k p] & -> & Hk). simpl in Hl. simplify_eq.
    eexists _, p. split; [exact Hk|]. split; [done|]. lia.
  - exfalso. apply list_elem_of_lookup_2, list_elem_of_In, in_map_iff in Hj as ([k p] & <- & Hk).
    simpl in Hl. apply list_elem_of_In, hash_iter_elem in Hk.
    destruct (sta_outports g Hs k p Hk) as [v Hv]. simplify_eq. congruence.
Qed.

Lemma inport_position g public_name p :
  startable g -> g_inports g !! public_name = Some p -> exists c,
    links g !! c = Some (inport_link g (public_name, p)) /\
    positions (leaves (in_process g) public_name) 0 (links g) = [c].
Proof.
  intros Hs Hp. assert (g_inports g <> ∅) as Hne by (intros Hem; by rewrite Hem, lookup_empty in Hp).
  apply hash_iter_elem, list_elem_of_lookup_1 in Hp as [k Hk].
  eexists. assert (links g !! (length (edge_links (g_edges g) [] (g_edges g)) +
    (length (flat_map (fun kv => map (iip_link kv.1) kv.2) (hash_iter (leftover_iips (g_edges g)))) + k))
    = Some (inport_link g (public_name, p))) as Hl.
  { unfold links. rewrite lookup_app_r, Nat.add_sub_swap, Nat.sub_diag by lia. simpl.
    rewrite lookup_app_r, Nat.add_sub_swap, Nat.sub_diag by lia. simpl.
    rewrite lookup_app_l by (rewrite length_map; by eapply lookup_lt_Some).
    apply list_lookup_fmap_Some. by eexists. }
  split; [exact Hl|]. eapply positions_single; [exact Hl|by apply bool_decide_true|].
  intros j l Hj Hf. destruct (leaves_in_process g j l public_name Hs Hne Hj Hf) as (k' & p' & Hk' & _ & ->).
  do 2 f_equal. pose proof (hash_iter_keys_nodup (g_inports g)) as Hnd.
  eapply (NoDup_lookup _ k' k public_name Hnd); rewrite list_lookup_fmap; by rewrite ?Hk', ?Hk.
Qed.

Lemma collect_inports_ok keys outs m :
  NoDup keys -> (forall k, k ∈ keys -> exists c, mm_get_vec k outs = Some [c]) ->
  exists m', collect_inports keys outs m = Ok m' /\
    forall k c, m' !! k = Some c <-> (k ∈ keys /\ mm_get_vec k outs = Some [c]) \/ ((k ∉ keys) /\ m !! k = Some c).
Proof.
  revert m. induction keys as [|k keys IH]; intros m Hnd Hk; simpl.
  - exists m. split; [done|]. intros k c. set_solver.
  - apply NoDup_cons in Hnd as [Hkn Hnd]. destruct (Hk k) as [c Hc]; [by left|]. rewrite Hc.
    destruct (IH (<[k := c]> m)) as (m' & -> & Hm'); [done|intros k' Hk'; apply Hk; by right|].
    exists m'. split; [done|]. intros k' c'. rewrite Hm', elem_of_cons.
    destruct (decide (k' = k)) as [->|Hne].
    + rewrite lookup_insert_eq, Hc. naive_solver.
    + rewrite lookup_insert_ne by done. naive_solver.
Qed.

Lemma graph_inports_ok g w pp :
  startable g -> g_inports g <> ∅ -> wired (links g) (proc_set g) w -> wr_ports w !! in_process g = Some pp ->
  exists m, collect_inports (mm_keys (pp_outports pp)) (pp_outports pp) ∅ = Ok m /\ inports_ok g (Some m).
Proof.
  intros Hs Hne Hw Hpp.
  assert (forall k, mm_get_vec k (pp_outports pp) =
    vec_of (positions (leaves (in_process g) k) 0 (links g))) as Hv
    by (intros k; by destruct (wd_ports _ _ _ Hw _ _ k Hpp)).
  assert (forall k, k ∈ mm_keys (pp_outports pp) -> exists p c, g_inports g !! k = Some p /\
    links g !! c = Some (inport_link g (k, p)) /\ mm_get_vec k (pp_outports pp) = Some [c]) as Hkey.
  { intros k [vs Hk]%mm_keys_spec. rewrite Hv in Hk.
    destruct (positions (leaves (in_process g) k) 0 (links g)) as [|i r] eqn:Hpos; [done|].
    assert (i ∈ positions (leaves (in_process g) k) 0 (links g)) as Hi by (rewrite Hpos; by left).
    apply elem_of_positions in Hi as (l & _ & Hl & Hf). rewrite Nat.sub_0_r in Hl.
    destruct (leaves_in_process g i l k Hs Hne Hl Hf) as (k' & p & Hk' & _ & _).
    apply list_elem_of_lookup_2, hash_iter_elem in Hk'.
    destruct (inport_position g k p Hs Hk') as (c & Hc & Hpos'). exists p, c.
    by rewrite Hv, Hpos'. }
  destruct (collect_inports_ok (mm_keys (pp_outports pp)) (pp_outports pp) ∅) as (m & -> & Hm);
    [apply mm_keys_nodup|intros k Hk; destruct (Hkey k Hk) as (p & c & _ & _ & ?); by eauto|].
  exists m. split; [done|]. split; [done|]. intros k c. rewrite Hm, lookup_empty. split.
  - intros [[Hk Hc]|[_ ?]]; [|done]. destruct (Hkey k Hk) as (p & c' & Hp & Hl & Hc'). exists p.
    rewrite Hc' in Hc. by simplify_eq.
  - intros (p & Hp & Hc). left. destruct (inport_position g k p Hs Hp) as (c' & Hc' & Hpos).
    assert (c ∈ positions (leaves (in_process g) k) 0 (links g)) as Hin.
    { apply elem_of_positions. eexists. rewrite Nat.sub_0_r. split; [lia|]. split; [exact Hc|].
      by apply bool_decide_true. }
    rewrite Hpos in Hin. apply list_elem_of_singleton in Hin as ->. specialize (Hv k).
    rewrite Hpos in Hv. split; [|done]. apply mm_keys_spec. by eexists.
Qed.
End boundary.
