(* ===== verification/NetworkTheorems.v ===== *)
(** What starting a network does, and what it does wrong; packets for the
    graph's inports. *)
From S2P Require Import Prelude Api Scheduler SchedulerProofs Graph GraphTheorems Runtime Network NetworkProofs.
From Stdlib Require Strings.String.
From Stdlib Require Import NArith Lia.
From stdpp Require Import base list strings gmap.
Local Open Scope string_scope.
Local Open Scope list_scope.
Local Open Scope flowd_scope.

Section launch.
Context `{R : Rtrb} `{J : SerdeJson} `{MM : forall V, MultiMapLib V} `{HI : HashIter}.
Context {C : Type} `{Comp : Component C} (enforce : bool).
Variable get_component_budget_class : string -> BudgetClass.
Variable instantiate_component :
  string -> multimap nat -> multimap nat -> option SchedulerWaker -> outcome (option C).

(** The network of a graph, running: the connections are the graph's links,
    the scheduler has exactly the graph's nodes, each with its component and
    ready to run, and the exported inports accept packets. *)
Record network_runs (g : Graph) (net : Network (C := C)) : Prop := {
  nr_conns : Forall2 conn_ok (links g) (net_conns net);
  nr_scheduler : exists s, net_schedulers net !! g_name g = Some s /\
    registered enforce instantiate_component g (dom (g_nodes g)) s /\
    forall n, is_Some (g_nodes g !! n) -> n ∈ ready_queue (state s);
  nr_inports : inports_ok g (net_inports net);
  nr_status : st_running (rt_status (net_runtime net)) = true /\
              st_started (rt_status (net_runtime net)) = true /\
              st_graph (rt_status (net_runtime net)) = rt_graph (net_runtime net);
  nr_outports : out_process g ∈ rt_boundary_threads (net_runtime net) <-> g_outports g <> ∅;
  nr_threads : rt_watchdog_thread (net_runtime net) = true /\
               g_name g ∈ rt_scheduler_threads (net_runtime net)
}.

(** After the nodes have their ports, only the graph's own are left. *)
Lemma leftover_ports g w (ports_all : gmap string ProcPorts) :
  startable g -> wired (links g) (proc_set g) w ->
  (forall n, ports_all !! n =
     (if decide (n ∈ (hash_iter (g_nodes g)).*1) then None else wr_ports w !! n)) ->
  delete (out_process g) (delete (in_process g) ports_all) = ∅ /\
  (is_Some (ports_all !! in_process g) <-> g_inports g <> ∅) /\
  (is_Some (ports_all !! out_process g) <-> g_outports g <> ∅) /\
  forall n pp, ports_all !! n = Some pp -> wr_ports w !! n = Some pp.
Proof.
  intros Hs Hw Hp.
  assert (forall n, is_Some (ports_all !! n) <-> n ∈ proc_set g /\ g_nodes g !! n = None) as Hdom.
  { intros n. rewrite Hp, <- (wd_names _ _ _ Hw), elem_of_dom. destruct (decide _) as [Hin|Hnin].
    - apply hash_iter_keys_elem in Hin as [v Hv]. rewrite Hv. split; [by intros []|by intros [_ ?]].
    - rewrite hash_iter_keys_elem, <- eq_None_not_Some in Hnin. naive_solver. }
  pose proof (in_out_ne g) as Hio.
  assert (forall n, n ∈ proc_set g <-> is_Some (g_nodes g !! n) \/ (n = in_process g /\ g_inports g <> ∅) \/
    (n = out_process g /\ g_outports g <> ∅)) as Hset.
  { intros n. unfold proc_set, proc_names. rewrite elem_of_list_to_set, !elem_of_app, hash_iter_keys_elem.
    do 2 case_bool_decide; set_solver. }
  pose proof (sta_in_name g Hs) as Hin. pose proof (sta_out_name g Hs) as Hout.
  split; [|split; [|split]].
  - apply map_eq. intros n. rewrite lookup_empty. apply eq_None_not_Some.
    rewrite !lookup_delete_is_Some. intros (Ho & Hi & [Hn Hno]%Hdom).
    apply Hset in Hn as [[v Hv]|[[? _]|[? _]]]; congruence.
  - rewrite Hdom, Hset. split; [|by auto]. intros [[[v Hv]|[[_ ?]|[? _]]] Hn]; congruence.
  - rewrite Hdom, Hset. split; [|by auto]. intros [[[v Hv]|[[? _]|[_ ?]]] Hn]; congruence.
  - intros n pp. rewrite Hp. by destruct (decide _).
Qed.

Lemma launch_ok g available clock now w net :
  startable g -> ports_connected g available -> constructs instantiate_component g available ->
  wired (links g) (proc_set g) w -> rt_boundary_threads (net_runtime net) = ∅ ->
  exists net' evs,
    launch get_component_budget_class instantiate_component g available clock now w net =
      Done (Ok (rt_status (net_runtime net')), net', evs) /\
    network_runs g net' /\ SpawnScheduler (g_name g) ∈ evs.
Proof.
  intros Hs Hc Hi Hw Hb. unfold launch.
  destruct (start_processes_ok enforce get_component_budget_class instantiate_component g available clock w
    (hash_iter (g_nodes g)) ∅ (wr_ports w, new_scheduler)) as (s' & -> & Hports & Hreg); [exact Hw|exact Hc|exact Hi| | | | |].
  { apply hash_iter_keys_nodup. }
  { intros n node. apply hash_iter_elem. }
  { intros n _. split; [set_solver|done]. }
  { apply new_scheduler_registered. }
  simpl in Hports |- *.
  destruct (leftover_ports g w s'.1 Hs Hw Hports) as (Hempty & Hin & Hout & Hsub).
  replace (list_to_set (hash_iter (g_nodes g)).*1 ∪ ∅) with (dom (g_nodes g)) in Hreg.
  2: { apply set_eq. intros n. rewrite elem_of_dom, elem_of_union, elem_of_list_to_set, hash_iter_keys_elem.
       set_solver. }
  destruct (signal_all_ok enforce instantiate_component g _ _ Hreg) as [Hreg' Hq].
  assert (exists ins, match s'.1 !! in_process g with
      | Some pp => let? m := collect_inports (mm_keys (pp_outports pp)) (pp_outports pp) ∅ in Ok (Some m)
      | None => Ok None end = Ok ins /\ inports_ok g ins) as (ins & -> & Hins).
  { destruct (s'.1 !! in_process g) as [pp|] eqn:Hpp.
    - destruct (graph_inports_ok g w pp) as (m & -> & Hm); [done|by apply Hin; eexists|done|by apply Hsub|].
      by exists (Some m).
    - exists None. split; [done|]. apply dec_stable. intros Hne. apply Hin in Hne as [? ?]. congruence. }
  rewrite lookup_delete_ne by (apply in_out_ne). rewrite Hempty, bool_decide_true by done. cbn [negb].
  match goal with |- exists net' evs, Done (_, ?n, ?l) = _ /\ _ => exists n, l end.
  split; [reflexivity|]. split; [|set_solver].
  assert (is_Some (s'.1 !! out_process g) <-> g_outports g <> ∅) as Hout' by done. clear Hout.
  constructor; simpl; try done.
  - apply (wd_conns _ _ _ Hw).
  - exists (signal_all s'.2). rewrite lookup_insert_eq. split; [done|]. split; [done|].
    intros n Hn. by apply Hq, elem_of_dom.
  - destruct (s'.1 !! out_process g) as [pp|]; rewrite <- Hout'.
    + set_solver.
    + rewrite Hb. split; [set_solver|by intros []].
  - split; [done|set_solver].
Qed.
End launch.

(** * The array-port checks *)
Section arrayports.
Context `{J : SerdeJson} `{MM : forall V, MultiMapLib V}.

(** The ends of the edges that count. *)
Definition used_ports (skip : GraphEdge -> bool) (end_ : GraphEdge -> GraphNodeSpec)
    (edges : list GraphEdge) : list (string * string) :=
  map (fun e => (ns_process (end_ e), ns_port (end_ e))) (filter (fun e => skip e = false) edges).

(** Whoever uses a port again finds it declared as an array port. *)
Definition sharing_allowed (nodes : gmap string GraphNode) available skip end_ ports_of
    (used : list (string * string)) (edges : list GraphEdge) : Prop :=
  forall before e after, edges = before ++ e :: after -> skip e = false ->
    (ns_process (end_ e), ns_port (end_ e)) ∈ used ++ used_ports skip end_ before ->
    exists node, nodes !! ns_process (end_ e) = Some node /\
      port_conflict ports_of available (node_component node) (ns_port (end_ e)) = false.

Definition knows (known : multimap string) (used : list (string * string)) : Prop :=
  forall process port, port ∈ default [] (mm_get_vec process known) <-> (process, port) ∈ used.

Lemma knows_insert known used process port :
  knows known used -> knows (mm_insert process port known) (used ++ [(process, port)]).
Proof.
  intros Hk p q. rewrite elem_of_app, list_elem_of_singleton. specialize (Hk p q).
  destruct (decide (process = p)) as [<-|Hne].
  - rewrite mm_get_vec_insert_eq. simpl. rewrite elem_of_app, list_elem_of_singleton. naive_solver.
  - rewrite mm_get_vec_insert_ne by done. naive_solver.
Qed.

Lemma existsb_elem (x : string) l : existsb (String.eqb x) l = true <-> x ∈ l.
Proof.
  rewrite existsb_exists. setoid_rewrite <- list_elem_of_In. split.
  - intros (y & Hy & ->%String.eqb_eq). done.
  - intros Hx. exists x. by rewrite String.eqb_refl.
Qed.

Lemma sharing_allowed_cons nodes available skip end_ ports_of used e edges :
  sharing_allowed nodes available skip end_ ports_of used (e :: edges) <->
  (skip e = false -> (ns_process (end_ e), ns_port (end_ e)) ∈ used -> exists node,
     nodes !! ns_process (end_ e) = Some node /\
     port_conflict ports_of available (node_component node) (ns_port (end_ e)) = false) /\
  sharing_allowed nodes available skip end_ ports_of (used ++ used_ports skip end_ [e]) edges.
Proof.
  unfold sharing_allowed. split.
  - intros H. split.
    + intros Hsk Hin. apply (H [] e edges); [done|done|]. by rewrite app_nil_r.
    + intros before e' after -> Hsk Hin. apply (H (e :: before) e' after); [done|done|].
      rewrite <- app_assoc in Hin. unfold used_ports in *. rewrite <- map_app, <- filter_app in Hin. done.
  - intros [H1 H2] before e' after Heq Hsk Hin. destruct before as [|e0 before]; simplify_eq/=.
    + apply H1; [done|]. by rewrite app_nil_r in Hin.
    + apply (H2 before e' after); [done|done|]. rewrite <- app_assoc. unfold used_ports in *.
      by rewrite <- map_app, <- filter_app.
Qed.

Lemma check_arrayports_ok nodes available skip end_ ports_of message edges known used :
  knows known used ->
  check_arrayports nodes available skip end_ ports_of message edges known = Done (Ok tt) <->
  sharing_allowed nodes available skip end_ ports_of used edges.
Proof.
  revert known used. induction edges as [|e edges IH]; intros known used Hk; simpl.
  { split; [|done]. intros _ before e after Heq. by destruct before. }
  rewrite sharing_allowed_cons. unfold used_ports at 1. rewrite filter_cons, filter_nil.
  destruct (skip e) eqn:Hsk; simpl.
  { rewrite (IH _ used Hk), app_nil_r. naive_solver. }
  pose proof (Hk (ns_process (end_ e)) (ns_port (end_ e))) as Hke.
  pose proof (knows_insert _ _ (ns_process (end_ e)) (ns_port (end_ e)) Hk) as Hk'.
  destruct (mm_get_vec (ns_process (end_ e)) known) as [ports|]; simpl in Hke; [|rewrite (IH _ _ Hk')].
  2: { split; [|naive_solver]. intros H. split; [|done]. intros _ Hin%Hke. by apply elem_of_nil in Hin. }
  destruct (existsb _ ports) eqn:Hex.
  - apply existsb_elem, Hke in Hex as Hin.
    assert (knows known (used ++ [(ns_process (end_ e), ns_port (end_ e))])) as Hk2.
    { intros p q. specialize (Hk p q). rewrite elem_of_app, list_elem_of_singleton. naive_solver. }
    destruct (nodes !! ns_process (end_ e)) as [node|] eqn:Hn; simpl.
    + destruct (port_conflict _ _ _ _) eqn:Hc.
      * split; [done|]. intros [H _]. destruct (H eq_refl Hin) as (? & ? & ?). simplify_eq. congruence.
      * rewrite (IH _ _ Hk2). naive_solver.
    + split; [done|]. intros [H _]. destruct (H eq_refl Hin) as (? & ? & ?). congruence.
  - rewrite (IH _ _ Hk'). split; [|naive_solver]. intros H. split; [|done]. intros _ Hin%Hke%existsb_elem.
    congruence.
Qed.

Lemma knows_new : knows mm_new [].
Proof. intros p q. rewrite mm_get_vec_new. simpl. by rewrite !elem_of_nil. Qed.
End arrayports.

(** * What a wiring that succeeds tells *)
Section wire_facts.
Context `{R : Rtrb} `{J : SerdeJson} `{MM : forall V, MultiMapLib V} `{HI : HashIter}.

Lemma run_fold_inv {A B} (f : A -> B -> run B) (P : B -> Prop) (Q : A -> Prop) l b b' :
  (forall x b b', f x b = Returns b' -> P b -> P b' /\ Q x) ->
  run_fold f l b = Returns b' -> P b -> P b' /\ Forall Q l.
Proof.
  intros Hf. revert b. induction l as [|x l IH]; intros b Hr Hb; simpl in Hr; [by simplify_eq|].
  destruct (f x b) as [b1| |] eqn:Hx; simpl in Hr; try done.
  destruct (Hf _ _ _ Hx Hb) as [Hb1 HQ]. destruct (IH _ Hr Hb1). by split; [|constructor].
Qed.

Lemma run_fold_not_blocks {A B} (f : A -> B -> run B) l b :
  (forall x b, f x b <> Blocks) -> run_fold f l b <> Blocks.
Proof.
  intros Hf. revert b. induction l as [|x l IH]; intros b; simpl; [done|].
  pose proof (Hf x b). by destruct (f x b); simpl.
Qed.

Lemma wire_in_dom p port c ports ports' :
  wire_in p port c ports = Done ports' -> dom ports' = dom ports /\ p ∈ dom ports.
Proof.
  unfold wire_in. destruct (ports !! p) as [pp|] eqn:Hp; [|done]. intros; simplify_eq/=.
  apply elem_of_dom_2 in Hp. rewrite dom_insert_L. split; [set_solver|done].
Qed.

Lemma wire_out_dom p port c ports ports' :
  wire_out p port c ports = Done ports' -> dom ports' = dom ports /\ p ∈ dom ports.
Proof.
  unfold wire_out. destruct (ports !! p) as [pp|] eqn:Hp; [|done]. intros; simplify_eq/=.
  apply elem_of_dom_2 in Hp. rewrite dom_insert_L. split; [set_solver|done].
Qed.

Ltac wire_cases := repeat match goal with
  | H : context [ lift (?f ?a ?b ?c ?d) ] |- _ => destruct (f a b c d) eqn:?; simpl in H; try done
  | |- context [ lift (?f ?a ?b ?c ?d) ] => destruct (f a b c d) eqn:?; simpl; try done
  | H : context [ lift ?o ] |- _ => destruct o eqn:?; simpl in H; try done
  | |- context [ lift ?o ] => destruct o eqn:?; simpl; try done
  | H : wire_in _ _ _ _ = Done _ |- _ => apply wire_in_dom in H as [? ?]
  | H : wire_out _ _ _ _ = Done _ |- _ => apply wire_out_dom in H as [? ?]
  end.

Definition edge_ends_in (names : gset string) (e : GraphEdge) : Prop :=
  is_iip e = false -> ns_process (edge_source e) ∈ names /\ ns_process (edge_target e) ∈ names.

Lemma wire_edge_dom names name tracing tx e w w' :
  wire_edge name tracing tx e w = Returns w' -> dom (wr_ports w) = names ->
  dom (wr_ports w') = names /\ edge_ends_in names e.
Proof.
  unfold wire_edge, edge_ends_in. intros H Hd. destruct (is_iip e); [by simplify_eq|].
  wire_cases. destruct tracing; [done|]. simplify_eq/=. split; [congruence|]. split; congruence.
Qed.

Lemma wire_iip_dom names k iip w w' :
  wire_iip k iip w = Returns w' -> dom (wr_ports w) = names -> dom (wr_ports w') = names /\ True.
Proof.
  unfold wire_iip. intros H Hd. destruct (ring_push _ _) as [[] r]; [|done]. wire_cases.
  simplify_eq/=. split; [congruence|done].
Qed.

Lemma wire_inport_dom g names e w w' :
  wire_inport g e w = Returns w' -> dom (wr_ports w) = names -> dom (wr_ports w') = names /\ True.
Proof.
  unfold wire_inport. destruct e. intros H Hd. wire_cases. simplify_eq/=. split; [congruence|done].
Qed.

Lemma wire_outport_dom g names e w w' :
  wire_outport g e w = Returns w' -> dom (wr_ports w) = names -> dom (wr_ports w') = names /\ True.
Proof.
  unfold wire_outport. destruct e. intros H Hd. wire_cases. simplify_eq/=. split; [congruence|done].
Qed.

Lemma insert_procs_dom l m m' : insert_procs l m = Done m' -> dom m' = list_to_set l ∪ dom m.
Proof.
  revert m. induction l as [|n l IH]; intros m H; simpl in *; [simplify_eq; set_solver|].
  unfold try_insert in H. destruct (m !! n); [done|]. rewrite (IH _ H), dom_insert_L. set_solver.
Qed.

(** A wiring that succeeds has a port set per node and pseudo process, and all
    its edges lie between those. *)
Lemma wire_dom g tracing tx w :
  wire g tracing tx = Returns w ->
  dom (wr_ports w) = proc_set g /\ Forall (edge_ends_in (proc_set g)) (g_edges g).
Proof.
  unfold wire. intros H. destruct (insert_procs (proc_names g) ∅) as [ports|] eqn:Hp; [|done].
  apply insert_procs_dom in Hp. rewrite dom_empty_L, (right_id_L ∅ (∪)) in Hp. simpl in H.
  destruct (run_fold (wire_edge _ _ _) _ _) as [w1| |] eqn:H1; simpl in H; try done.
  destruct (run_fold wire_leftover _ _) as [w2| |] eqn:H2; simpl in H; try done.
  destruct (run_fold (wire_inport g) _ _) as [w3| |] eqn:H3; simpl in H; try done.
  apply (run_fold_inv _ (fun w => dom (wr_ports w) = proc_set g) (edge_ends_in (proc_set g))) in H1 as [Hd1 He];
    [|intros x b b'; apply wire_edge_dom|done].
  apply (run_fold_inv _ (fun w => dom (wr_ports w) = proc_set g) (fun _ => True)) in H2 as [Hd2 _]; [| |done].
  2: { intros [k iips] b b' Hl Hb. unfold wire_leftover in Hl. split; [|done].
       apply (run_fold_inv _ (fun w => dom (wr_ports w) = proc_set g) (fun _ => True)) in Hl as [Hd _];
         [done|intros x c c'; apply wire_iip_dom|done]. }
  apply (run_fold_inv _ (fun w => dom (wr_ports w) = proc_set g) (fun _ => True)) in H3 as [Hd3 _];
    [|intros x b b'; apply wire_inport_dom|done].
  apply (run_fold_inv _ (fun w => dom (wr_ports w) = proc_set g) (fun _ => True)) in H as [Hd4 _];
    [done|intros x b b'; apply wire_outport_dom|done].
Qed.

Lemma wire_not_blocks g tx : wire g false tx <> Blocks.
Proof.
  unfold wire. destruct (insert_procs _ _); simpl; [|done].
  assert (forall A (f : A -> wiring -> run wiring) l b (k : wiring -> run wiring),
    (forall x b, f x b <> Blocks) -> (forall w, k w <> Blocks) -> run_bind (run_fold f l b) k <> Blocks) as Hb.
  { intros A f l b k Hf Hk. pose proof (run_fold_not_blocks f l b Hf). destruct (run_fold f l b); simpl; auto. }
  apply Hb; [|intros w1; apply Hb; [|intros w2; apply Hb; [|intros w3; apply run_fold_not_blocks]]].
  - intros e w. unfold wire_edge. destruct (is_iip e); [done|]. wire_cases.
  - intros kv w. unfold wire_leftover. apply run_fold_not_blocks. intros iip w'. unfold wire_iip.
    destruct (ring_push _ _) as [[] r]; [|done]. wire_cases.
  - intros [] w. unfold wire_inport. wire_cases.
  - intros [] w. unfold wire_outport. wire_cases.
Qed.

(** With tracing on, the first ordinary edge that can be wired blocks. *)
Lemma wire_edge_tracing name tx e w :
  wire_edge name true tx e w =
    if is_iip e then Returns w
    else match wire_edge name false tx e w with Returns _ => Blocks | r => r end.
Proof. unfold wire_edge. destruct (is_iip e); [done|]. wire_cases. Qed.

Lemma wire_tracing g tx :
  startable g -> Exists (fun e => is_iip e = false) (g_edges g) -> wire g true tx = Blocks.
Proof.
  intros Hs Hex. destruct (wire_ok g tx Hs) as (w & Hw & _). unfold wire in *.
  destruct (insert_procs (proc_names g) ∅) as [ports|]; [|done]. simpl in *.
  assert (forall l b r, Exists (fun e => is_iip e = false) l ->
    run_fold (wire_edge (g_name g) false tx) l b = Returns r ->
    run_fold (wire_edge (g_name g) true tx) l b = Blocks) as Hfold.
  { intros l. induction l as [|e l IH]; intros b r He Hr; [by apply Exists_nil in He|].
    simpl in *. rewrite wire_edge_tracing. destruct (is_iip e) eqn:Hi.
    - apply Exists_cons in He as [?|He]; [congruence|]. unfold wire_edge at 1 in Hr. rewrite Hi in Hr.
      simpl in *. by eapply IH.
    - by destruct (wire_edge _ false _ _ _). }
  destruct (run_fold (wire_edge (g_name g) false tx) _ _) as [w1| |] eqn:H1; try done.
  by rewrite (Hfold _ _ _ Hex H1).
Qed.
End wire_facts.

(** * Starting and feeding a network *)
Section contract.
Context `{R : Rtrb} `{J : SerdeJson} `{MM : forall V, MultiMapLib V} `{HI : HashIter}.
Context {C : Type} `{Comp : Component C} (enforce : bool).
Variable get_component_budget_class : string -> BudgetClass.
Variable instantiate_component :
  string -> multimap nat -> multimap nat -> option SchedulerWaker -> outcome (option C).
Implicit Types (net : Network (C := C)).

Abbreviation start_ := (start get_component_budget_class instantiate_component).

(** Every port used by two edges is an array port: by two outgoing edges, and
    by two incoming ones. *)
Definition source_sharing_allowed (g : Graph) available : Prop :=
  sharing_allowed (g_nodes g) available (fun e => is_iip e && String.eqb (ns_process (edge_source e)) "")
    edge_source ccp_out_ports [] (g_edges g).
Definition target_sharing_allowed (g : Graph) available : Prop :=
  sharing_allowed (g_nodes g) available is_iip edge_target ccp_in_ports [] (g_edges g).

Lemma check_source_ports_ok g available :
  check_source_ports g available = Done (Ok tt) <-> source_sharing_allowed g available.
Proof. apply check_arrayports_ok, knows_new. Qed.

Lemma check_target_ports_ok g available :
  check_target_ports g available = Done (Ok tt) <-> target_sharing_allowed g available.
Proof. apply check_arrayports_ok, knows_new. Qed.

Lemma not_busy (r : Runtime) :
  network_busy r = false ->
  st_running (rt_status r) = false /\ rt_boundary_threads r = ∅ /\ rt_watchdog_thread r = false.
Proof.
  unfold network_busy. intros [[? Hb%negb_false_iff%bool_decide_eq_true]%orb_false_iff ?]%orb_false_iff. done.
Qed.

Lemma start_builds g available tx clock now net :
  startable g -> ports_connected g available -> constructs instantiate_component g available ->
  source_sharing_allowed g available -> target_sharing_allowed g available ->
  network_busy (net_runtime net) = false -> rt_tracing (net_runtime net) = false ->
  exists status net' evs, start_ g available tx clock now net = Returns (Ok status, net', evs) /\
    network_runs enforce instantiate_component g net' /\ status = rt_status (net_runtime net').
Proof.
  intros Hs Hc Hi Hsrc%check_source_ports_ok Htgt%check_target_ports_ok Hb Ht.
  destruct (wire_ok g (Some tx) Hs) as (w & Hw & Hwired).
  unfold start. rewrite Hb, Hsrc, Htgt. simpl. rewrite Ht, Hw. simpl.
  edestruct (launch_ok enforce get_component_budget_class instantiate_component g available clock now w)
    as (net' & evs & -> & Hrun & _); [done..| |]; [|by eexists _, net', evs].
  simpl. by apply not_busy in Hb as (_ & ? & _).
Qed.

(** C6: starting a well-formed graph of library components succeeds and leaves
    exactly the graph's network running: one bounded connection per edge,
    with the initial packets for its target port ahead of all traffic, one
    closed channel per other initial packet, the ports of every component
    holding the connections that lead there, and a scheduler, itself reached by
    the scheduler's own operations, that has every node queued. *)
Theorem start_builds_network g available tx clock now net :
  startable g -> ports_connected g available -> constructs instantiate_component g available ->
  source_sharing_allowed g available -> target_sharing_allowed g available ->
  network_busy (net_runtime net) = false -> rt_tracing (net_runtime net) = false ->
  exists status net' evs, start_ g available tx clock now net = Returns (Ok status, net', evs) /\
    network_runs enforce instantiate_component g net' /\ status = rt_status (net_runtime net').
Proof. apply start_builds. Qed.

Lemma check_arrayports_err nodes available skip end_ ports_of message edges known e :
  check_arrayports nodes available skip end_ ports_of message edges known = Done (Err e) ->
  err_kind e = InvalidInput.
Proof.
  revert known. induction edges as [|x edges IH]; intros known H; simpl in H; [done|].
  destruct (skip x); [by eapply IH|]. destruct (mm_get_vec _ _); [|by eapply IH].
  destruct (existsb _ _); [|by eapply IH]. destruct (nodes !! _); simpl in H; [|done].
  destruct (port_conflict _ _ _ _); [by simplify_eq|by eapply IH].
Qed.

Lemma collect_inports_err keys outs m e :
  collect_inports keys outs m = Err e -> err_kind e = InvalidInput.
Proof.
  revert m. induction keys as [|k keys IH]; intros m H; simpl in H; [done|].
  unfold io_err in H. destruct (mm_get_vec k outs) as [[|c [|]]|]; [by simplify_eq|by eapply IH|by simplify_eq..].
Qed.

Lemma start_processes_facts g available clock l (s s' : setup) r :
  start_processes get_component_budget_class instantiate_component g available clock l s = Done (r, s') ->
  match r with Ok _ => dom s'.1 = dom s.1 ∖ list_to_set l.*1 | Err e => err_kind e = NotFound end.
Proof.
  revert s. induction l as [|[n node] l IH]; intros s H; simpl in H; [simplify_eq; set_solver|].
  destruct (start_process _ _ _ _ _ _ _ _) as [[r1 s1]|] eqn:H1; simpl in H; [|done].
  unfold start_process in H1. destruct (s.1 !! n) as [pp|]; simpl in H1; [|done].
  destruct (check_process _ _ _ _ _) as [|e] eqn:Hc; simplify_eq/=.
  - destruct (instantiate_component _ _ _ _) as [[c|]|]; simplify_eq/=; [|done].
    apply IH in H. destruct r; [|done]. simpl in H. rewrite H, dom_delete_L. set_solver.
  - unfold check_process, io_err in Hc. repeat case_match; by simplify_eq.
Qed.

(** Nothing is left over once every node has its ports. *)
Lemma nothing_left g (ports_all : gmap string ProcPorts) :
  dom ports_all = proc_set g ∖ list_to_set (hash_iter (g_nodes g)).*1 ->
  delete (out_process g) (delete (in_process g) ports_all) = ∅.
Proof.
  intros Hd. apply dom_empty_inv_L. rewrite !dom_delete_L, Hd. unfold proc_set, proc_names.
  do 2 case_bool_decide; set_solver.
Qed.

Definition unchanged net net' : Prop :=
  rt_status (net_runtime net') = rt_status (net_runtime net) /\
  rt_boundary_threads (net_runtime net') = rt_boundary_threads (net_runtime net) /\
  rt_watchdog_thread (net_runtime net') = rt_watchdog_thread (net_runtime net) /\
  rt_scheduler_threads (net_runtime net') = rt_scheduler_threads (net_runtime net) /\
  (net_inports net' = net_inports net \/ net_inports net' = None).

Lemma launch_err g available clock now w net e net' evs :
  dom (wr_ports w) = proc_set g ->
  launch get_component_budget_class instantiate_component g available clock now w net =
    Done (Err e, net', evs) ->
  unchanged net net' /\ (err_kind e = NotFound \/ err_kind e = InvalidInput).
Proof.
  unfold launch. intros Hd H.
  destruct (start_processes _ _ _ _ _ _ _) as [[r s]|] eqn:Hp; simpl in H; [|done].
  apply start_processes_facts in Hp. destruct r as [|e'].
  - simpl in Hp. rewrite Hd in Hp.
    destruct (match s.1 !! in_process g with Some _ => _ | None => _ end) as [ins|e'] eqn:Hins.
    + by rewrite (nothing_left g s.1 Hp), bool_decide_true in H.
    + simplify_eq. split; [by repeat split; right|]. right.
      destruct (s.1 !! in_process g) as [pp|]; [|done].
      destruct (collect_inports _ _ _) eqn:Hc; simplify_eq/=. by eapply collect_inports_err.
  - simplify_eq. split; [|by left]. by repeat split; left.
Qed.

(** A start that is refused changes nothing that counts: the status and the
    tracked threads stay, the inports stay or are gone; a network that is
    running, or not fully shut down, is the only reason for AlreadyExists,
    and the final check for left-over ports (InvalidData) never fails. *)
Theorem start_refused g available tx clock now net e net' evs :
  start_ g available tx clock now net = Returns (Err e, net', evs) ->
  unchanged net net' /\ err_kind e <> InvalidData /\
  (err_kind e = AlreadyExists <-> network_busy (net_runtime net) = true) /\
  (network_busy (net_runtime net) = true -> net' = net /\ evs = []).
Proof.
  unfold start. intros H. destruct (network_busy (net_runtime net)).
  { simplify_eq. split; [by repeat split; left|]. done. }
  set (net1 := set_net_schedulers _ _) in H.
  assert (unchanged net net1) as Hnet1 by (by repeat split; left). clearbody net1.
  assert (unchanged net net' /\ (err_kind e = NotFound \/ err_kind e = InvalidInput)) as [Hu Hk].
  2: { split; [done|]. split; [by destruct Hk; congruence|]. split; [|done].
       split; [by destruct Hk; congruence|done]. }
  destruct (check_source_ports g available) as [[[]|e1]|] eqn:H1; simpl in H; [| |done].
  2: { simplify_eq. apply check_arrayports_err in H1. auto. }
  destruct (check_target_ports g available) as [[[]|e2]|] eqn:H2; simpl in H; [| |done].
  2: { simplify_eq. apply check_arrayports_err in H2. auto. }
  destruct (wire g _ _) as [w| |] eqn:Hw; simpl in H; try done.
  apply wire_dom in Hw as [Hd _].
  destruct (launch _ _ _ _ _ _ _ _) as [res|] eqn:Hl; simpl in H; [|done]. injection H as ->.
  apply launch_err in Hl as [(Hu1 & Hu2 & Hu3 & Hu4 & Hu5) Hk]; [|done]. split; [|done].
  destruct Hnet1 as (? & ? & ? & ? & Hin). repeat split; try congruence.
  destruct Hu5; [|by right]. destruct Hin; [left|right]; congruence.
Qed.

(** A constructor does not unwind on the ports that the wiring gave a node,
    once the check of these ports has passed. *)
Definition builds (g : Graph) available : Prop :=
  forall tx w n node pp, wire g false tx = Returns w -> g_nodes g !! n = Some node ->
    wr_ports w !! n = Some pp -> check_process g available n (node_component node) pp = Ok tt ->
    instantiate_component (node_component node) (pp_inports pp) (pp_outports pp) (Some n) <> Panicked.

(** Initial packets have no source. *)
Definition iips_sourceless (g : Graph) : Prop :=
  forall e, e ∈ g_edges g -> is_iip e = true -> ns_process (edge_source e) = "".

Lemma check_arrayports_returns nodes available skip end_ ports_of message edges known :
  (forall e, e ∈ edges -> skip e = false -> is_Some (nodes !! ns_process (end_ e))) ->
  exists r, check_arrayports nodes available skip end_ ports_of message edges known = Done r.
Proof.
  revert known. induction edges as [|x edges IH]; intros known He; simpl; [by eexists|].
  assert (forall known, exists r, check_arrayports nodes available skip end_ ports_of message edges known = Done r)
    as Hgo by (intros known'; apply IH; intros e Hin; apply He; by right).
  destruct (skip x) eqn:Hs; [apply Hgo|]. destruct (mm_get_vec _ _); [|apply Hgo].
  destruct (existsb _ _); [|apply Hgo]. destruct (He x) as [node ->]; [by left|done|]. simpl.
  destruct (port_conflict _ _ _ _); [by eexists|apply Hgo].
Qed.

Lemma port_checks_return g available :
  well_connected g -> iips_sourceless g ->
  (exists r, check_source_ports g available = Done r) /\ (exists r, check_target_ports g available = Done r).
Proof.
  unfold well_connected. rewrite Forall_forall. intros Hw Hi.
  split; apply check_arrayports_returns; intros e He Hs; destruct (Hw e He) as [Hsrc Htgt]; [|done].
  destruct Hsrc as [Hd|Hsrc]; [|done].
  assert (is_iip e = true) as Hiip by by apply bool_decide_eq_true.
  by rewrite Hiip, (Hi e He Hiip) in Hs.
Qed.

Lemma start_processes_returns g available clock tx w nodes (s : setup) :
  builds g available -> wire g false tx = Returns w -> dom (wr_ports w) = proc_set g ->
  NoDup nodes.*1 -> (forall n node, (n, node) ∈ nodes -> g_nodes g !! n = Some node) ->
  (forall n, n ∈ nodes.*1 -> s.1 !! n = wr_ports w !! n) ->
  exists res, start_processes get_component_budget_class instantiate_component g available clock nodes s = Done res.
Proof.
  intros Hb Hw Hd. revert s. induction nodes as [|[n node] nodes IH]; intros s Hnd Hg Hs; [by eexists|].
  rewrite fmap_cons in *. cbn [start_processes fst] in *. apply NoDup_cons in Hnd as [Hn Hnd].
  assert (g_nodes g !! n = Some node) as Hnode by (apply Hg; by left).
  assert (is_Some (wr_ports w !! n)) as [pp Hpp].
  { apply elem_of_dom. rewrite Hd. by apply node_in_proc_set. }
  unfold start_process. rewrite (Hs n), Hpp by (by left). simpl.
  destruct (check_process _ _ _ _ _) as [[]|e] eqn:Hc; simpl; [|by eexists].
  unfold create_waker. simpl. rewrite lookup_insert_eq.
  destruct (instantiate_component _ _ _ _) as [[c|]|] eqn:Hi; simpl; [|by eexists|by destruct (Hb tx w n node pp)].
  apply IH; [done| |].
  - intros n' node' Hin. apply Hg. by right.
  - intros n' Hin. simpl. rewrite lookup_delete_ne; [|by intros ->]. apply Hs. by right.
Qed.

(** Starting a graph whose connections and exported ports are attached returns
    while tracing is off, with an error if a port is shared or unconnected. *)
Lemma start_returns g available tx clock now net :
  startable g -> iips_sourceless g -> builds g available -> rt_tracing (net_runtime net) = false ->
  exists res, start_ g available tx clock now net = Returns res.
Proof.
  intros Hs Hi Hb Ht. unfold start. destruct (network_busy _); [by eexists|].
  destruct (port_checks_return g available (sta_connected g Hs) Hi) as [[[[]|e1] ->] [[[]|e2] ->]];
    simpl; try by eexists.
  destruct (wire_ok g (Some tx) Hs) as (w & Hw & Hwd). rewrite Ht, Hw. simpl. unfold launch.
  destruct (start_processes_returns g available clock (Some tx) w (hash_iter (g_nodes g))
    (wr_ports w, new_scheduler)) as [[[[]|e] s'] ->]; simpl; [done|done|apply Hwd| | |done| |by eexists].
  - apply hash_iter_keys_nodup.
  - by intros n node ?%hash_iter_elem.
  - destruct (match s'.1 !! in_process g with Some _ => _ | None => _ end); [|by eexists].
    destruct (negb _); by eexists.
Qed.

(** What a start does wrong: with an ordinary edge to or from a node that
    does not exist (which [addedge] accepts) it unwinds, while the caller holds
    the runtime's lock; and while tracing is on, starting a well-formed graph
    with at least one ordinary edge waits forever for a lock that it holds
    itself. *)
Theorem start_hazards g available tx clock now net :
  network_busy (net_runtime net) = false ->
  source_sharing_allowed g available -> target_sharing_allowed g available ->
  (forall e p, e ∈ g_edges g -> is_iip e = false ->
     p = ns_process (edge_source e) \/ p = ns_process (edge_target e) ->
     g_nodes g !! p = None -> p <> in_process g -> p <> out_process g ->
     rt_tracing (net_runtime net) = false -> start_ g available tx clock now net = Unwinds) /\
  (startable g -> Exists (fun e => is_iip e = false) (g_edges g) ->
     rt_tracing (net_runtime net) = true -> start_ g available tx clock now net = Blocks).
Proof.
  intros Hb Hsrc%check_source_ports_ok Htgt%check_target_ports_ok. split.
  - intros e p He Hi Hp Hn Hin Hout Ht. unfold start. rewrite Hb, Hsrc, Htgt. simpl. rewrite Ht.
    pose proof (wire_not_blocks g (Some tx)) as Hnb.
    destruct (wire g false (Some tx)) as [w| |] eqn:Hw; [|done|done]. exfalso.
    apply wire_dom in Hw as [_ Hall]. rewrite Forall_forall in Hall. destruct (Hall e He Hi) as [Hs1 Ht1].
    assert (p ∈ proc_set g) as Hpp by (by destruct Hp as [-> | ->]).
    unfold proc_set, proc_names in Hpp. rewrite elem_of_list_to_set, !elem_of_app in Hpp.
    destruct Hpp as [[v Hv]%hash_iter_keys_elem|[Hpp|Hpp]]; [congruence| |];
      case_bool_decide; try (by apply elem_of_nil in Hpp); by apply list_elem_of_singleton in Hpp.
  - intros Hs Hex Ht. unfold start. rewrite Hb, Hsrc, Htgt. simpl. by rewrite Ht, wire_tracing.
Qed.

End contract.

(** * Feeding and stopping a network *)
Section running.
Context `{R : Rtrb} `{J : SerdeJson} `{MM : forall V, MultiMapLib V} `{HI : HashIter} {C : Type}.
Implicit Types (net : Network (C := C)).

(** The sink behind an exported inport. *)
Definition inport_sink (port : string) net : option ProcessEdgeSink :=
  inports ← net_inports net; c ← inports !! port;
  match net_conns net !! c with Some (Edge sink) => Some sink | _ => None end.

Definition same_buffers net net' : Prop :=
  net_runtime net' = net_runtime net /\ net_schedulers net' = net_schedulers net /\
  net_inports net' = net_inports net /\
  forall port, (sink_items <$> inport_sink port net') = (sink_items <$> inport_sink port net).

(** Attempts that found the buffer full and changed nothing; [others] ran in
    between. *)
Inductive retried (port : string) : list (Network -> Network) -> Network -> Network -> Prop :=
| retried_none net : retried port [] net net
| retried_once other others net net1 net2 sink :
    inport_sink port net = Some sink -> sink_full sink = true -> same_buffers net net1 ->
    retried port others (other net1) net2 -> retried port (other :: others) net net2.

(** What an accepted packet did: it is the newest in the buffer, and the
    node behind it is signalled. *)
Definition delivered (port : string) (m : FbpMessage) net net' (effects : list Effect) : Prop :=
  exists sink sink', inport_sink port net = Some sink /\ sink_full sink = false /\
    inport_sink port net' = Some sink' /\ sink_items sink' = sink_items sink ++ [m] /\
    forall w, pes_signal_ready sink = Some w -> EffSignalReady w ∈ effects.

Lemma push_inport_spec port m net :
  match push_inport port m net with
  | Err e => err_kind e = NotFound /\ inport_sink port net = None
  | Ok (Ok _, net', effects) => delivered port m net net' effects
  | Ok (Err m', net', _) => m' = m /\ same_buffers net net' /\
      exists sink, inport_sink port net = Some sink /\ sink_full sink = true
  end.
Proof.
  unfold push_inport, delivered, same_buffers, inport_sink.
  destruct (net_inports net) as [inports|] eqn:Hin; simpl; [|done].
  destruct (inports !! port) as [c|] eqn:Hc; simpl; [|done].
  destruct (net_conns net !! c) as [[sink|r]|] eqn:Hs; simpl; [|done..].
  destruct (push_spec m sink) as (sink' & eff & -> & Hi & _ & Hsig & Hf & He & _).
  assert (c < length (net_conns net)) as Hlt by (by eapply lookup_lt_Some).
  destruct (sink_full sink) eqn:Hfull; simpl.
  - split; [done|]. split; [|by exists sink]. split; [done|]. split; [done|]. split; [done|].
    intros port'. rewrite Hin. simpl. destruct (inports !! port') as [c'|]; simpl; [|done].
    destruct (decide (c' = c)) as [->|Hne].
    + rewrite list_lookup_insert_eq, Hs by done. simpl. by rewrite Hi.
    + by rewrite list_lookup_insert_ne by done.
  - exists sink, sink'. rewrite Hin. simpl. rewrite Hc. simpl. rewrite list_lookup_insert_eq by done.
    by repeat split; auto.
Qed.

Lemma packet_loop_spec others port m net :
  match packet_loop others port m net with
  | (Ok _, net', effects) => exists tried rest net1, others = tried ++ rest /\
      retried port tried net net1 /\ delivered port m net1 net' effects
  | (Err e, net', effects) => effects = [] /\ exists tried rest net1, others = tried ++ rest /\
      retried port tried net net1 /\ same_buffers net1 net' /\
      match inport_sink port net1 with
      | Some sink => err_kind e = TimedOut /\ rest = [] /\ sink_full sink = true
      | None => err_kind e = NotFound
      end
  end.
Proof.
  assert (forall n, same_buffers n n) as Hrefl by done.
  revert net. induction others as [|other others IH]; intros net; simpl;
    pose proof (push_inport_spec port m net) as Hp;
    destruct (push_inport port m net) as [[[[[]|m'] net1] eff]|e].
  - exists [], [], net. by repeat split; [constructor|].
  - destruct Hp as (_ & Hsame & sink & Hsink & Hfull). split; [done|]. exists [], [], net.
    rewrite Hsink. do 3 (split; [first [done|constructor]|]). done.
  - destruct Hp as [? Hnone]. split; [done|]. exists [], [], net. rewrite Hnone.
    do 3 (split; [first [done|constructor]|]). done.
  - exists [], (other :: others), net. by repeat split; [constructor|].
  - destruct Hp as (-> & Hsame & sink & Hsink & Hfull). specialize (IH (other net1)).
    destruct (packet_loop others port m (other net1)) as [[[r|e] net'] effects].
    + destruct IH as (tried & rest & n & -> & Hr & Hd). exists (other :: tried), rest, n.
      by repeat split; [econstructor|].
    + destruct IH as (He & tried & rest & n & -> & Hr & Hd). split; [done|].
      exists (other :: tried), rest, n. split; [done|]. split; [by econstructor|done].
  - destruct Hp as [? Hnone]. split; [done|]. exists [], (other :: others), net. rewrite Hnone.
    do 3 (split; [first [done|constructor]|]). done.
Qed.

(** [runtime:packet] needs write access to the graph; a packet without
    payload unwinds; any other is put into the inport's buffer exactly once,
    behind what is there, with the node it leads to signalled, as soon as an
    attempt finds room; the attempts before change nothing; if none finds
    room it is refused with TimedOut, for an unknown inport with NotFound. *)
Theorem packet_spec others p net :
  (is_err (validate_secret (pk_secret p) (pk_graph p) (net_runtime net)) = true ->
     exists e, packet others p net = Done (Err e, net, [])) /\
  (is_Ok (validate_secret (pk_secret p) (pk_graph p) (net_runtime net)) = true ->
   match pk_payload p with
   | None => packet others p net = Panicked
   | Some text => exists r net' effects, packet others p net = Done (r, net', effects) /\
       exists tried rest net1, others = tried ++ rest /\ retried (pk_port p) tried net net1 /\
       match r with
       | Ok _ => delivered (pk_port p) (from_str text) net1 net' effects
       | Err e => effects = [] /\ same_buffers net1 net' /\
           match inport_sink (pk_port p) net1 with
           | Some sink => err_kind e = TimedOut /\ rest = [] /\ sink_full sink = true
           | None => err_kind e = NotFound
           end
       end
   end).
Proof.
  unfold packet. destruct (validate_secret _ _ _) as [[]|e]; (split; [|]); try done; [|by eauto].
  intros _. destruct (pk_payload p) as [text|]; simpl; [|done].
  pose proof (packet_loop_spec others (pk_port p) (from_str text) net) as Hl.
  destruct (packet_loop _ _ _ _) as [[r net'] effects]. exists r, net', effects. split; [done|].
  destruct r.
  - by destruct Hl as (tried & rest & n & ? & ? & ?); exists tried, rest, n.
  - by destruct Hl as (? & tried & rest & n & ? & ? & ?); exists tried, rest, n.
Qed.

Lemma stop_network_facts store finished_scheduler finished all_exited net :
  let '(r, net', evs) := stop_network store finished_scheduler finished all_exited net in
  let old := net_runtime net in
  let new := net_runtime net' in
  (is_Ok r = true <->
     (forall n, n ∈ rt_boundary_threads old -> finished n = true) /\
     (rt_watchdog_thread old = true -> all_exited = true \/ finished "watchdog" = true)) /\
  (is_Ok r = true -> network_busy new = false /\ st_started (rt_status new) = all_exited /\
     st_graph (rt_status new) = rt_graph new) /\
  (forall e, r = Err e -> err_kind e = TimedOut /\ st_running (rt_status new) = true) /\
  (forall g s, net_schedulers net' !! g = Some s -> running s = false) /\
  (forall n, n ∈ rt_scheduler_threads new <-> n ∈ rt_scheduler_threads old /\ finished_scheduler n = false) /\
  net_inports net' = net_inports net /\ net_conns net' = net_conns net.
Proof.
  unfold stop_network. set (boundary := filter _ (rt_boundary_threads _)).
  set (watchdog := rt_watchdog_thread _ && _ && _). set (old := net_runtime net).
  assert (boundary = ∅ <-> forall n, n ∈ rt_boundary_threads old -> finished n = true) as Hb.
  { unfold boundary. split.
    - intros Hem n Hn. apply not_false_is_true. intros Hf.
      assert (n ∈ (∅ : gset string)) as Hin by (rewrite <- Hem; by apply elem_of_filter).
      set_solver.
    - intros H. apply set_eq. intros n. rewrite elem_of_filter. split; [|set_solver].
      intros [Hf Hn%H]. congruence. }
  assert (watchdog = false <->
    (rt_watchdog_thread old = true -> all_exited = true \/ finished "watchdog" = true)) as Hw.
  { unfold watchdog, old. destruct (rt_watchdog_thread _), all_exited, (finished "watchdog"); simpl;
      naive_solver. }
  assert (elements boundary ++ (if watchdog then ["watchdog"] else []) = [] <->
    boundary = ∅ /\ watchdog = false) as Hnil.
  { split.
    - intros [He Hwd]%app_eq_nil. split; [|by destruct watchdog]. by apply leibniz_equiv, elements_empty_inv.
    - intros [-> ->]. by rewrite elements_empty. }
  destruct (elements boundary ++ _) as [|x l] eqn:Hl; simpl; (split; [|split; [|split; [|split; [|split]]]]);
    try done; try (by intros g s [s0 [<- _]]%lookup_fmap_Some); try (intros n; rewrite elem_of_filter; tauto).
  - rewrite <- Hb, <- Hw, <- Hnil. done.
  - intros _. destruct Hnil as [Hnil _]. destruct (Hnil eq_refl) as [-> ->]. unfold network_busy; simpl.
    by rewrite bool_decide_true.
  - rewrite <- Hb, <- Hw, <- Hnil. done.
  - by intros e [= <-].
Qed.

(** [stop] reports success exactly when the watchdog and the graph's output
    thread have ended; then the network may be started again, no scheduler is
    running and every sink and inport is as before, so that packets are still
    accepted; a scheduler thread that did not end is not a reason for failure,
    it is only kept.  On failure the network still counts as running. *)
Theorem stop_network_spec store finished_scheduler finished all_exited net :
  let '(r, net', evs) := stop_network store finished_scheduler finished all_exited net in
  let old := net_runtime net in
  let new := net_runtime net' in
  (is_Ok r = true <->
     (forall n, n ∈ rt_boundary_threads old -> finished n = true) /\
     (rt_watchdog_thread old = true -> all_exited = true \/ finished "watchdog" = true)) /\
  (is_Ok r = true -> network_busy new = false /\ st_started (rt_status new) = all_exited /\
     st_graph (rt_status new) = rt_graph new) /\
  (forall e, r = Err e -> err_kind e = TimedOut /\ st_running (rt_status new) = true) /\
  (forall g s, net_schedulers net' !! g = Some s -> running s = false) /\
  (forall n, n ∈ rt_scheduler_threads new <-> n ∈ rt_scheduler_threads old /\ finished_scheduler n = false) /\
  net_inports net' = net_inports net /\ net_conns net' = net_conns net.
Proof. apply stop_network_facts. Qed.
End running.

(** * Witnesses *)
#[local] Existing Instance gmap_serde_json.
#[local] Existing Instance list_rtrb.
#[local] Existing Instance gmap_multimap.
#[local] Existing Instance sorted_hash_iter.

(** A component that never has work. *)
#[local, refine] Instance idle_component : Component unit := {
  process := fun c ctx => mk_process_run c ctx [] 0 0 (Some NoWork)
}.
Proof. done. Defined.

Definition demo_node (component : string) : GraphNode := mk_GraphNode component default_node_metadata ∅.
Definition demo_edge (s sp t tp : string) (d : option string) : GraphEdge :=
  mk_GraphEdge (mk_GraphNodeSpec s sp None) d (mk_GraphNodeSpec t tp None) default_edge_metadata.

(** An initial packet into a Repeat, which feeds a Drop and is exported. *)
Definition demo_graph : Graph :=
  set_inports {["DATA" := mk_GraphPort "r" "in" 0 0]}
    (set_edges [demo_edge "" "" "r" "IN" (Some "hello"); demo_edge "r" "OUT" "d" "IN" None]
       (set_gnodes (<["r" := demo_node "Repeat"]> {["d" := demo_node "Drop"]}) (new_graph "main" "" ""))).

Definition demo_port (name : string) : ComponentPort := mk_ComponentPort name "any" None true false "" [] "".
Definition demo_library : list ComponentComponentPayload :=
  [mk_ComponentComponentPayload "Repeat" "" "" false [demo_port "IN"] [demo_port "OUT"] false false false;
   mk_ComponentComponentPayload "Drop" "" "" false [demo_port "IN"] [] false false false].
Definition demo_instantiate (name : string) (ins outs : multimap nat) (w : option SchedulerWaker) :
    outcome (option unit) := Done (Some tt).

Definition demo_runtime (running tracing : bool) : Runtime :=
  set_tracing tracing
    (set_status (mk_RuntimeStatus 0 "main" running running None) (new_runtime "main" ∅).1).
Definition demo_network (running tracing : bool) : Network (C := unit) :=
  mk_Network (demo_runtime running tracing) ∅ [] None.

Lemma demo_links : links demo_graph =
  [mk_link (Some ("r", "OUT")) ("d", "IN") (Some "d") []; mk_link None ("r", "IN") None ["hello"];
   mk_link (Some ("main-IN", "DATA")) ("r", "IN") (Some "r") []].
Proof. vm_compute. reflexivity. Defined.

Lemma demo_inports : g_inports demo_graph = {["DATA" := mk_GraphPort "r" "in" 0 0]}.
Proof. reflexivity. Defined.
Lemma demo_nodes : g_nodes demo_graph = <["r" := demo_node "Repeat"]> {["d" := demo_node "Drop"]}.
Proof. reflexivity. Defined.

Lemma demo_startable : startable demo_graph.
Proof.
  constructor.
  - constructor; [|constructor; [|constructor]]; split.
    + left. by eexists.
    + eexists. reflexivity.
    + right. eexists. reflexivity.
    + eexists. reflexivity.
  - intros n p Hp. rewrite demo_inports in Hp. apply lookup_singleton_Some in Hp as [<- <-]. by eexists.
  - intros n p Hp. by rewrite (lookup_empty n : g_outports demo_graph !! n = None) in Hp.
  - done.
  - done.
  - intros k. assert (2 <= PROCESSEDGE_BUFSIZE) by (by apply Nat.leb_le).
    unfold iips_for. cbn [omap list_omap g_edges demo_graph set_inports set_edges].
    repeat (destruct (decide _); cbn [edge_data demo_edge length]); lia.
Defined.

Lemma demo_connected : ports_connected demo_graph demo_library.
Proof.
  intros n node Hn. rewrite demo_links. rewrite demo_nodes in Hn.
  apply lookup_insert_Some in Hn as [[<- <-]|[_ Hn]];
    [|apply lookup_singleton_Some in Hn as [<- <-]]; eexists;
    (split; [reflexivity|split; simpl]); repeat (apply Forall_cons; split); try apply Forall_nil, I;
    simpl; rewrite ?Exists_cons; auto.
Defined.

Lemma demo_constructs : constructs demo_instantiate demo_graph demo_library.
Proof. intros n node c ins outs _ _ _ _. by exists tt. Defined.

Definition demo_dangling : Graph := set_edges [demo_edge "gone" "OUT" "d" "IN" None] demo_graph.

Lemma demo_sharing :
  source_sharing_allowed demo_graph demo_library /\ target_sharing_allowed demo_graph demo_library /\
  source_sharing_allowed demo_dangling demo_library /\ target_sharing_allowed demo_dangling demo_library.
Proof.
  rewrite <- !check_source_ports_ok, <- !check_target_ports_ok. by repeat split; vm_compute.
Defined.

Lemma start_builds_network_witness : exists status net' evs,
  start (fun _ => Normal) demo_instantiate demo_graph demo_library 7 (fun _ => 0%N) 5 (demo_network false false) =
    Returns (Ok status, net', evs) /\ network_runs true demo_instantiate demo_graph net'.
Proof.
  destruct (start_builds_network true (fun _ => Normal) demo_instantiate demo_graph demo_library 7 (fun _ => 0%N)
    5 (demo_network false false) demo_startable demo_connected demo_constructs
    (proj1 demo_sharing) (proj1 (proj2 demo_sharing)) eq_refl eq_refl)
    as (status & net' & evs & H & Hr & _).
  exists status, net', evs. split; [exact H|exact Hr].
Defined.

Lemma start_refused_witness : exists e,
  start (fun _ => Normal) demo_instantiate demo_graph demo_library 7 (fun _ => 0%N) 5 (demo_network true false) =
    Returns (Err e, demo_network true false, []) /\ err_kind e <> InvalidData.
Proof.
  eexists. split; [reflexivity|].
  exact (proj1 (proj2 (start_refused (fun _ => Normal) demo_instantiate demo_graph demo_library 7
    (fun _ => 0%N) 5 (demo_network true false) _ _ _ eq_refl))).
Defined.

Lemma start_hazards_witness :
  start (fun _ => Normal) demo_instantiate
    demo_dangling demo_library 7 (fun _ => 0%N) 5
    (demo_network false false) = Unwinds /\
  start (fun _ => Normal) demo_instantiate demo_graph demo_library 7 (fun _ => 0%N) 5
    (demo_network false true) = Blocks.
Proof.
  split.
  - eapply (proj1 (start_hazards (fun _ => Normal) demo_instantiate _ demo_library 7 (fun _ => 0%N) 5
      (demo_network false false) eq_refl (proj1 (proj2 (proj2 demo_sharing))) (proj2 (proj2 (proj2 demo_sharing)))));
      [left|reflexivity|left; reflexivity|reflexivity|discriminate|discriminate|reflexivity].
  - apply (proj2 (start_hazards (fun _ => Normal) demo_instantiate demo_graph demo_library 7 (fun _ => 0%N) 5
      (demo_network false true) eq_refl (proj1 demo_sharing) (proj1 (proj2 demo_sharing))));
      [exact demo_startable|right; left; reflexivity|reflexivity].
Defined.

Lemma packet_spec_witness :
  packet [] (mk_RuntimePacketRequestPayload "DATA" "connect" "main" None None) (demo_network true false) = Panicked.
Proof.
  exact (proj2 (packet_spec [] (mk_RuntimePacketRequestPayload "DATA" "connect" "main" None None)
    (demo_network true false)) eq_refl).
Defined.
