(* ===== verification/NetServer.v ===== *)
(** The messages of the FBP network protocol that act on the network itself,
    [network:start], [network:persist] and [runtime:packet] of
    [src/server.rs], on top of the other handlers (Server) and of the network
    (Network). *)
From S2P Require Import Prelude Api Scheduler Graph Runtime Server Network.
From Stdlib Require Strings.String.
From Stdlib Require Import NArith Lia.
From stdpp Require Import base list strings gmap.
Local Open Scope string_scope.
Local Open Scope list_scope.
Local Open Scope flowd_scope.

Section net_server.
Context `{R : Rtrb} `{J : SerdeJson} `{MM : forall V, MultiMapLib V} `{HI : HashIter}.
Context {C : Type}.
Variable get_component_budget_class : string -> BudgetClass.
Variable instantiate_component :
  string -> multimap nat -> multimap nat -> option SchedulerWaker -> outcome (option C).

(** The connection's [graph] argument, the component library, serde_json on a
    graph and on the persisted graph set, and whether the file can be written. *)
Variable graph : positive.
Variable components : ComponentLibrary.
Variable to_string : Graph -> option string.
Variable sd : serde_graph.
Variable write_file : sg_text sd -> result unit io_error.

(** The server and the network share the runtime. *)
Record NetServer : Type := mk_NetServer {
  ns_server : Server;
  ns_schedulers : gmap string (Scheduler C);
  ns_conns : list connection;
  ns_inports : option (gmap string nat)
}.

Definition network_of (s : NetServer) : Network :=
  mk_Network (sv_runtime (ns_server s)) (ns_schedulers s) (ns_conns s) (ns_inports s).
Definition set_network (n : Network) (s : NetServer) : NetServer :=
  mk_NetServer (set_runtime (net_runtime n) (ns_server s)) (net_schedulers n) (net_conns n) (net_inports n).
Definition set_server (x : Server) (s : NetServer) : NetServer :=
  mk_NetServer x (ns_schedulers s) (ns_conns s) (ns_inports s).

Inductive NetMessage : Type :=
| MNetworkStart (p : NetworkRequestPayload)
| MPersist (secret : option string)
| MPacket (p : RuntimePacketRequestPayload)
| MOther (m : FBPMessage).

Inductive NetOutput : Type :=
| Out (o : Output)
| SendStarted (st : RuntimeStatus)
| SendPersist
| SendPacketsent (p : RuntimePacketRequestPayload)
| NetworkEvent (e : NetEvent)
| PushEffect (e : Effect).

Definition net_handled : Type := run (list NetOutput * NetServer).

Definition net_error (message graph_name : string) (s : NetServer) : net_handled :=
  Returns ([Out (Send (RNetworkError message "" graph_name))], s).

(** [network:start]: the runtime's active graph is set before the network is
    started. *)
Definition handle_network_start (tx : TraceSender) (clock : string -> Instant) (now : Instant)
    (payload : NetworkRequestPayload) (s : NetServer) : net_handled :=
  let sv := ns_server s in
  if negb (sv_validate_secret (nw_secret payload) (nw_graph payload) sv)
  then net_error invalid_secret (nw_graph payload) s
  else
    let! target := lift (get_graph_by_name graph (nw_graph payload) sv) in
    match target with
    | Err _ => net_error "Requested graph not found" (nw_graph payload) s
    | Ok loc =>
        let! g := lift (read_graph loc sv) in
        let s1 := set_server (set_runtime (set_rt_graph (nw_graph payload) (sv_runtime sv)) sv) s in
        let! res := start get_component_budget_class instantiate_component g (available components)
                      tx clock now (network_of s1) in
        let '(r, net, events) := res in
        let s2 := set_network net s1 in
        match r with
        | Ok status => Returns (map NetworkEvent events ++ [SendStarted status; NetworkEvent (BroadcastStatus status)], s2)
        | Err e => Returns (map NetworkEvent events ++ [Out (Send (RNetworkError (err_message e) "" (nw_graph payload)))], s2)
        end
    end.

(** [network:persist]; the text goes to the persistence file. *)
Definition handle_persist (secret : option string) (s : NetServer) : net_handled :=
  let sv := ns_server s in
  let active := rt_graph (sv_runtime sv) in
  if negb (sv_validate_secret secret active sv) then net_error invalid_secret active s
  else
    let! g := lift (read_graph graph sv) in
    let! res := lift (persist sd (sv_store sv) g (sv_runtime sv)) in
    match res with
    | Err e => net_error (err_message e) active s
    | Ok text =>
        match write_file text with
        | Ok _ => Returns ([SendPersist], s)
        | Err e => net_error (err_message e) active s
        end
    end.

(** [runtime:packet]; the secret is checked against the active graph here and
    against the graph of the packet in [packet]. *)
Definition handle_packet (others : list (Network -> Network)) (payload : RuntimePacketRequestPayload)
    (s : NetServer) : net_handled :=
  let sv := ns_server s in
  if negb (sv_validate_secret (pk_secret payload) (rt_graph (sv_runtime sv)) sv)
  then Returns ([Out (Send (RRuntimeError invalid_secret))], s)
  else
    let! res := lift (packet others payload (network_of s)) in
    let '(r, net, effects) := res in
    let s' := set_network net s in
    match r with
    | Ok _ => Returns (map PushEffect effects ++ [SendPacketsent payload], s')
    | Err e => Returns ([Out (Send (RRuntimeError (err_message e)))], s')
    end.

(** The whole protocol. *)
Definition net_handle (tx : TraceSender) (clock : string -> Instant) (now : Instant)
    (reads : list RuntimeStatus) (others : list (Network -> Network)) (m : NetMessage) (s : NetServer) :
    net_handled :=
  match m with
  | MNetworkStart p => handle_network_start tx clock now p s
  | MPersist secret => handle_persist secret s
  | MPacket p => handle_packet others p s
  | MOther m =>
      let! res := lift (handle graph components to_string now reads m (ns_server s)) in
      Returns (map Out res.1, set_server res.2 s)
  end.

(** The thread that [network:stop] leaves behind. *)
Definition finish_stop (finished_scheduler finished : string -> bool) (s : NetServer) :
    result RuntimeStatus io_error * NetServer * list NetEvent :=
  let '(r, net, events) :=
    stop_network (sv_store (ns_server s)) finished_scheduler finished false (network_of s) in
  (r, set_network net s, events).
End net_server.
