(* ===== verification/NetServerTheorems.v ===== *)
(** The contract of the whole protocol server: only read-write access changes
    anything, every message is answered, what [network:start] does, and the life
    cycle of a network: started, stopped, and started again. *)
From S2P Require Import Prelude Api Scheduler SchedulerProofs Graph GraphTheorems Runtime RuntimeTheorems.
From S2P Require Import Server ServerTheorems Network NetworkProofs NetworkTheorems NetServer.
From Stdlib Require Strings.String.
From Stdlib Require Import NArith Lia.
From stdpp Require Import base list strings gmap.
Local Open Scope string_scope.
Local Open Scope list_scope.
Local Open Scope flowd_scope.

Section net_server.
Context `{R : Rtrb} `{J : SerdeJson} `{MM : forall V, MultiMapLib V} `{HI : HashIter}.
Context {C : Type} `{Comp : Component C} (enforce : bool).
Variable get_component_budget_class : string -> BudgetClass.
Variable instantiate_component :
  string -> multimap nat -> multimap nat -> option SchedulerWaker -> outcome (option C).
Variable graph : positive.
Variable components : ComponentLibrary.
Variable to_string : Graph -> option string.
Variable sd : serde_graph.
Variable write_file : sg_text sd -> result unit io_error.

Abbreviation net_handle_ := (net_handle get_component_budget_class instantiate_component graph components
  to_string sd write_file).

(** The parts of the runtime that starting and stopping leave alone. *)
Definition same_config (r r' : Runtime) : Prop :=
  rt_info r' = rt_info r /\ rt_secrets r' = rt_secrets r /\ rt_graphs r' = rt_graphs r /\
  rt_tracing r' = rt_tracing r /\ rt_debug_edges r' = rt_debug_edges r.

Lemma launch_config g lib clock now w net r net' evs :
  launch get_component_budget_class instantiate_component g lib clock now w net = Done (r, net', evs) ->
  same_config (net_runtime net) (net_runtime net').
Proof.
  unfold launch. destruct (start_processes _ _ _ _ _ _ _) as [[[[]|e] s]|]; simpl; [| |done].
  - destruct (match s.1 !! in_process g with Some _ => _ | None => _ end) as [ins|e]; [|by intros; simplify_eq].
    destruct (negb _); intros; by simplify_eq.
  - by intros; simplify_eq.
Qed.

Lemma start_config g lib tx clock now net r net' evs :
  start get_component_budget_class instantiate_component g lib tx clock now net = Returns (r, net', evs) ->
  same_config (net_runtime net) (net_runtime net').
Proof.
  unfold start. destruct (network_busy _); [by intros; simplify_eq|].
  set (net1 := set_net_schedulers _ _).
  assert (same_config (net_runtime net) (net_runtime net1)) as Hn by done. clearbody net1.
  destruct (check_source_ports g lib) as [[[]|e]|]; simpl; [|by intros; simplify_eq|done].
  destruct (check_target_ports g lib) as [[[]|e]|]; simpl; [|by intros; simplify_eq|done].
  destruct (wire g _ _) as [w| |]; simpl; [|done..].
  destruct (launch _ _ _ _ _ _ _ _) as [[[r1 n1] e1]|] eqn:Hl; simpl; [|done].
  intros H. simplify_eq. apply launch_config in Hl.
  destruct Hn as (? & ? & ? & ? & ?), Hl as (? & ? & ? & ? & ?). repeat split; congruence.
Qed.

(** A graph that the server can run. *)
Definition runnable (g : Graph) : Prop :=
  startable g /\ ports_connected g (available components) /\
  source_sharing_allowed g (available components) /\ target_sharing_allowed g (available components).

(** The server runs the network of a graph under the name [gn]. *)
Definition serves (gn : string) (g : Graph) (s : NetServer (C := C)) : Prop :=
  network_runs enforce instantiate_component g (network_of s) /\
  st_graph (rt_status (sv_runtime (ns_server s))) = gn /\ rt_graph (sv_runtime (ns_server s)) = gn.

Lemma set_network_of n (s : NetServer (C := C)) : network_of (set_network n s) = n.
Proof. by destruct n. Qed.

Lemma start_message_ok tx clock now p s loc g :
  granted (nw_secret p) (nw_graph p) (sv_runtime (ns_server s)) = Some ReadWrite ->
  resolves graph (nw_graph p) (ns_server s) loc -> sv_store (ns_server s) !! loc = Some g ->
  constructs instantiate_component g (available components) -> runnable g ->
  network_busy (sv_runtime (ns_server s)) = false -> rt_tracing (sv_runtime (ns_server s)) = false ->
  exists status outs s',
    handle_network_start get_component_budget_class instantiate_component graph components tx clock now p s =
      Returns (outs ++ [SendStarted status; NetworkEvent (BroadcastStatus status)], s') /\
    status = rt_status (sv_runtime (ns_server s')) /\ serves (nw_graph p) g s' /\
    sv_store (ns_server s') = sv_store (ns_server s) /\
    rt_secrets (sv_runtime (ns_server s')) = rt_secrets (sv_runtime (ns_server s)) /\
    rt_graphs (sv_runtime (ns_server s')) = rt_graphs (sv_runtime (ns_server s)) /\
    rt_tracing (sv_runtime (ns_server s')) = false.
Proof.
  intros Hv%valid_granted Hres Hg Hcon (Hs & Hpc & Hsrc & Htgt) Hb Ht. unfold handle_network_start.
  rewrite Hv. simpl. unfold resolves in Hres. rewrite Hres. simpl. unfold read_graph. rewrite Hg. simpl.
  match goal with |- context [start _ _ _ _ _ _ _ ?n] => set (net := n) end.
  destruct (start_builds enforce get_component_budget_class instantiate_component g (available components)
    tx clock now net Hs Hpc Hcon Hsrc Htgt Hb Ht) as (status & net' & evs & Hstart & Hrun & Hst).
  rewrite Hstart. simpl. apply start_config in Hstart as (Hinfo & Hsec & Hgr & Htr & _).
  eexists status, _, _. split; [reflexivity|]. split; [done|].
  assert (rt_graph (net_runtime net') = nw_graph p) as Hact.
  { unfold rt_graph. rewrite Hinfo. done. }
  split; [|simpl; rewrite Hsec, Hgr, Htr; by repeat split].
  split; [by rewrite set_network_of|]. simpl. split; [|done].
  by rewrite (proj2 (proj2 (nr_status _ _ _ _ Hrun))).
Qed.

Lemma stop_config store fs f all_exited (net : Network (C := C)) :
  same_config (net_runtime net) (net_runtime (stop_network store fs f all_exited net).1.2).
Proof. unfold stop_network. by destruct (elements _ ++ _). Qed.

(** A start while a network runs, or while an earlier one is not shut down
    completely, is refused. *)
Lemma start_message_busy tx clock now p s loc g :
  granted (nw_secret p) (nw_graph p) (sv_runtime (ns_server s)) = Some ReadWrite ->
  resolves graph (nw_graph p) (ns_server s) loc -> sv_store (ns_server s) !! loc = Some g ->
  network_busy (sv_runtime (ns_server s)) = true -> exists message s',
    handle_network_start get_component_budget_class instantiate_component graph components tx clock now p s =
      Returns ([Out (Send (RNetworkError message "" (nw_graph p)))], s') /\
    sv_store (ns_server s') = sv_store (ns_server s) /\
    rt_status (sv_runtime (ns_server s')) = rt_status (sv_runtime (ns_server s)) /\
    rt_graph (sv_runtime (ns_server s')) = nw_graph p /\
    ns_schedulers s' = ns_schedulers s /\ ns_conns s' = ns_conns s /\ ns_inports s' = ns_inports s.
Proof.
  intros Hv%valid_granted Hres Hg Hb. unfold handle_network_start. rewrite Hv. simpl.
  unfold resolves in Hres. rewrite Hres. simpl. unfold read_graph. rewrite Hg. simpl. unfold start.
  replace (network_busy _) with true by done. simpl. eexists _, _. by repeat split.
Qed.

(** * Access *)

(** The secrets, each with its graph, that a message is checked with before it
    may change anything. *)
Definition write_checks (m : NetMessage) (s : NetServer (C := C)) : list (option string * string) :=
  let active := rt_graph (sv_runtime (ns_server s)) in
  match m with
  | MNetworkStart p => [(nw_secret p, nw_graph p)]
  | MPersist secret => [(secret, active)]
  | MPacket p => [(pk_secret p, active); (pk_secret p, pk_graph p)]
  | MOther m => option_list (write_request m)
  end.

(** An output that only the client that asked notices. *)
Definition net_replies (o : NetOutput) : bool :=
  match o with
  | Out o => replies o
  | SendStarted _ | SendPersist | SendPacketsent _ => true
  | NetworkEvent _ | PushEffect _ => false
  end.

(** Nothing has changed, and nothing but replies to the client, none of which
    confirms that the graphs were persisted, has been sent. *)
Definition untouched (s s' : NetServer (C := C)) (o : list NetOutput) : Prop :=
  sv_store (ns_server s') = sv_store (ns_server s) /\ sv_runtime (ns_server s') = sv_runtime (ns_server s) /\
  ns_schedulers s' = ns_schedulers s /\ ns_conns s' = ns_conns s /\ ns_inports s' = ns_inports s /\
  forall x, x ∈ o -> net_replies x = true /\ x <> SendPersist.
Definition refusal (s : NetServer (C := C)) (h : net_handled) : Prop :=
  forall o s', h = Returns (o, s') -> untouched s s' o.

Lemma untouched_reply x s : net_replies x = true -> x <> SendPersist -> untouched s s [x].
Proof. intros Hx Hp. do 5 (split; [done|]). by intros y ->%list_elem_of_singleton. Qed.

Lemma refusal_error x s : net_replies x = true -> x <> SendPersist -> refusal s (Returns ([x], s)).
Proof. intros Hx Hp o s' H. simplify_eq. by apply untouched_reply. Qed.

Lemma start_denied tx clock now p s :
  granted (nw_secret p) (nw_graph p) (sv_runtime (ns_server s)) <> Some ReadWrite ->
  refusal s (handle_network_start get_component_budget_class instantiate_component graph components tx clock now p s).
Proof. intros H. unfold handle_network_start. rewrite not_granted by done. by apply refusal_error. Qed.

Lemma persist_denied secret s :
  granted secret (rt_graph (sv_runtime (ns_server s))) (sv_runtime (ns_server s)) <> Some ReadWrite ->
  refusal s (handle_persist graph sd write_file secret s).
Proof. intros H. unfold handle_persist. rewrite not_granted by done. by apply refusal_error. Qed.

Lemma packet_denied others p s :
  granted (pk_secret p) (rt_graph (sv_runtime (ns_server s))) (sv_runtime (ns_server s)) <> Some ReadWrite \/
  granted (pk_secret p) (pk_graph p) (sv_runtime (ns_server s)) <> Some ReadWrite ->
  refusal s (handle_packet others p s).
Proof.
  intros H. unfold handle_packet.
  destruct (sv_validate_secret _ _ _) eqn:Hv; simpl; [|by apply refusal_error].
  apply valid_granted in Hv. destruct H as [H|H]; [done|]. apply not_granted in H.
  unfold sv_validate_secret, validate_secret in *. unfold packet, validate_secret. simpl.
  destruct (validate_secret_with_access _ (pk_graph p) _ _) as [|e]; [done|]. simpl.
  intros o s' Hr. simplify_eq/=. do 5 (split; [done|]). by intros x ->%list_elem_of_singleton.
Qed.

(** C5: only read-write access changes anything: unless the runtime grants
    read-write access for every secret and graph that the message is checked
    with (for [runtime:packet] both the active graph and the graph of the
    packet), the graphs, the runtime, the schedulers and the connections stay
    as they were, and nothing goes out but replies to the client; in
    particular nothing is persisted.  What is granted is what the runtime
    grants: a missing or empty secret always has read-write access. *)
Theorem only_write_access_changes tx clock now reads others m s o s' :
  net_handle_ tx clock now reads others m s = Returns (o, s') ->
  untouched s s' o \/
  (write_checks m s <> [] /\
   forall secret gn, (secret, gn) ∈ write_checks m s ->
     granted secret gn (sv_runtime (ns_server s)) = Some ReadWrite).
Proof.
  intros H. destruct m as [p|secret|p|m]; cbn [net_handle write_checks] in *.
  - destruct (decide (granted (nw_secret p) (nw_graph p) (sv_runtime (ns_server s)) = Some ReadWrite)) as [Hg|Hg].
    + right. split; [done|]. by intros ? ? [= -> ->]%list_elem_of_singleton.
    + left. by apply (start_denied tx clock now p s Hg).
  - destruct (decide (granted secret (rt_graph (sv_runtime (ns_server s))) (sv_runtime (ns_server s)) = Some ReadWrite)) as [Hg|Hg].
    + right. split; [done|]. by intros ? ? [= -> ->]%list_elem_of_singleton.
    + left. by apply (persist_denied secret s Hg).
  - destruct (decide (granted (pk_secret p) (rt_graph (sv_runtime (ns_server s))) (sv_runtime (ns_server s)) = Some ReadWrite)) as [Hg|Hg];
      [destruct (decide (granted (pk_secret p) (pk_graph p) (sv_runtime (ns_server s)) = Some ReadWrite)) as [Hg'|Hg']|].
    + right. split; [done|].
      by intros ? ? [[= -> ->]|[= -> ->]%list_elem_of_singleton]%elem_of_cons.
    + left. apply (packet_denied others p s); [by right|done].
    + left. apply (packet_denied others p s); [by left|done].
  - destruct (handle _ _ _ _ _ _ _) as [[outs sv]|] eqn:Hh; simplify_eq/=.
    apply changes_need_write_access in Hh as [(Hst & Hrt & Hr)|(secret & gn & -> & Hg)].
    + left. do 5 (split; [done|]). intros x (y & -> & Hy)%list_elem_of_fmap. split; [|done].
      rewrite forallb_forall in Hr. by apply Hr, list_elem_of_In.
    + right. split; [done|]. by intros ? ? [= -> ->]%list_elem_of_singleton.
Qed.

(** * Answers *)

(** The two messages that can bring the server down: a packet without payload,
    and a start that gets as far as the graph, unless its connections and
    exported ports are attached, its constructors do not unwind, and tracing is
    off. *)
Definition handled_to_the_end (m : NetMessage) (s : NetServer (C := C)) : Prop :=
  let r := sv_runtime (ns_server s) in
  match m with
  | MPacket p =>
      pk_payload p = None -> exists secret gn, (secret, gn) ∈ write_checks m s /\ granted secret gn r <> Some ReadWrite
  | MNetworkStart p =>
      forall loc g, granted (nw_secret p) (nw_graph p) r = Some ReadWrite -> network_busy r = false ->
        resolves graph (nw_graph p) (ns_server s) loc -> sv_store (ns_server s) !! loc = Some g ->
        startable g /\ iips_sourceless g /\ builds instantiate_component g (available components) /\
        rt_tracing r = false
  | _ => True
  end.

(** A message to the client. *)
Definition net_sends (o : NetOutput) : bool :=
  match o with
  | Out o => sends o
  | SendStarted _ | SendPersist | SendPacketsent _ => true
  | NetworkEvent _ | PushEffect _ => false
  end.
Definition net_answers (h : net_handled) : Prop :=
  exists outs s', h = Returns (outs, s') /\ existsb net_sends outs = true /\
    server_inv graph (ns_server (C := C) s').

Lemma server_inv_network (s : NetServer (C := C)) n :
  rt_graphs (net_runtime n) = rt_graphs (sv_runtime (ns_server s)) ->
  server_inv graph (ns_server s) -> server_inv graph (ns_server (set_network n s)).
Proof. intros Hn. by apply server_inv_runtime. Qed.

Lemma start_answers tx clock now p s :
  server_inv graph (ns_server s) -> handled_to_the_end (MNetworkStart p) s ->
  net_answers (handle_network_start get_component_budget_class instantiate_component graph components tx clock now p s).
Proof.
  intros Hinv Hok. unfold net_answers, handle_network_start, net_error.
  destruct (sv_validate_secret _ _ _) eqn:Hv; simpl; [|by eexists _, _]. apply valid_granted in Hv.
  destruct (get_graph_by_name_total graph (nw_graph p) _ Hinv) as ([loc|e] & Hres & Hloc); rewrite Hres; simpl;
    [|by eexists _, _].
  destruct (Hloc _ eq_refl) as [g Hg]. unfold read_graph. rewrite Hg. simpl.
  match goal with |- context [start _ _ _ _ _ _ _ ?n] => set (net := n) end.
  assert (exists res, start get_component_budget_class instantiate_component g (available components)
    tx clock now net = Returns res) as [[[r n'] evs] Hs].
  { destruct (network_busy (sv_runtime (ns_server s))) eqn:Hb.
    - unfold start. replace (network_busy _) with true by done. by eexists.
    - destruct (Hok loc g Hv Hb Hres Hg) as (? & ? & ? & ?). by apply start_returns. }
  rewrite Hs. simpl. apply start_config in Hs as (_ & _ & Hgr & _).
  assert (server_inv graph (set_runtime (net_runtime n') (ns_server s))) as Hinv'
    by (by apply server_inv_runtime).
  assert (server_inv graph (ns_server (set_network n' (set_server
    (set_runtime (set_rt_graph (nw_graph p) (sv_runtime (ns_server s))) (ns_server s)) s)))) as Hinv2
    by (by destruct Hinv'; constructor).
  destruct r; simpl; eexists _, _; (split; [done|]); (split; [|done]);
    rewrite existsb_app; simpl; by rewrite ?orb_true_r.
Qed.

Lemma persist_answers secret s :
  server_inv graph (ns_server s) -> net_answers (handle_persist graph sd write_file secret s).
Proof.
  intros Hinv. unfold net_answers, handle_persist, net_error. destruct (negb _); [by eexists _, _|].
  destruct (inv_graph _ _ Hinv) as [g Hg]. unfold read_graph. rewrite Hg. simpl.
  destruct (persist_returns sd (sv_store (ns_server s)) g (sv_runtime (ns_server s))) as [res ->]. simpl.
  destruct res as [text|e]; [|by eexists _, _]. destruct (write_file text); by eexists _, _.
Qed.

Lemma packet_loop_graphs others port m net :
  Forall (fun f => forall n, rt_graphs (net_runtime (f n)) = rt_graphs (net_runtime n)) others ->
  rt_graphs (net_runtime (packet_loop (C := C) others port m net).1.2) = rt_graphs (net_runtime net).
Proof.
  assert (forall n res n' eff, push_inport (C := C) port m n = Ok (res, n', eff) ->
    net_runtime n' = net_runtime n) as Hpush.
  { unfold push_inport, io_err. intros n res n' eff H. destruct (net_inports n) as [i|]; [|done].
    destruct (i !! port) as [c|]; [|done]. destruct (net_conns n !! c) as [[]|]; try done.
    destruct (push _ _) as [[]]. by simplify_eq. }
  intros Hf. revert m Hpush net. induction Hf as [|f others Hf _ IH]; intros m Hpush net; simpl;
    destruct (push_inport port m net) as [[[[[]|m'] n1] eff]|e] eqn:Hp; simpl; try done;
    pose proof (Hpush _ _ _ _ Hp) as Hr; [by rewrite Hr..|].
  rewrite IH, Hf, Hr; [done|].
  intros n res n' e. clear Hp. unfold push_inport, io_err. intros H. destruct (net_inports n) as [i|]; [|done].
  destruct (i !! port) as [c|]; [|done]. destruct (net_conns n !! c) as [[]|]; try done.
  destruct (push _ _) as [[]]. by simplify_eq.
Qed.

Lemma packet_answers others p s :
  server_inv graph (ns_server s) -> handled_to_the_end (MPacket p) s ->
  Forall (fun f => forall n, rt_graphs (net_runtime (C := C) (f n)) = rt_graphs (net_runtime n)) others ->
  net_answers (handle_packet others p s).
Proof.
  intros Hinv Hok Hf. unfold net_answers, handle_packet.
  destruct (sv_validate_secret _ _ _) eqn:Hv; simpl; [|by eexists _, _]. apply valid_granted in Hv.
  unfold packet. simpl. destruct (validate_secret (pk_secret p) (pk_graph p) _) as [[]|e] eqn:Hv2; simpl.
  2: { eexists _, _. split; [done|]. split; [done|]. by apply server_inv_network. }
  assert (granted (pk_secret p) (pk_graph p) (sv_runtime (ns_server s)) = Some ReadWrite) as Hg2.
  { apply valid_granted. unfold sv_validate_secret, validate_secret in *. by rewrite Hv2. }
  destruct (pk_payload p) as [text|] eqn:Hpay; simpl.
  - pose proof (packet_loop_graphs others (pk_port p) (from_str text) (network_of s) Hf) as Hgr.
    destruct (packet_loop _ _ _ _) as [[r n'] eff]. simpl in *.
    destruct r; eexists _, _; (split; [done|]); (split; [|by apply server_inv_network]); [|done].
    rewrite existsb_app. simpl. by rewrite orb_true_r.
  - destruct (Hok Hpay) as (secret & gn & Hin & Hno). simpl in Hin.
    rewrite !elem_of_cons, elem_of_nil in Hin. naive_solver.
Qed.


(** With write access, [network:start] of a graph the server knows: while a
    network runs, or an earlier one is not shut down completely, it is refused,
    yet the runtime's active graph is switched to the requested one; otherwise
    a runnable graph is started and the client told so. *)
Theorem network_start_spec tx clock now reads others p s loc g :
  granted (nw_secret p) (nw_graph p) (sv_runtime (ns_server s)) = Some ReadWrite ->
  resolves graph (nw_graph p) (ns_server s) loc -> sv_store (ns_server s) !! loc = Some g ->
  (network_busy (sv_runtime (ns_server s)) = true -> exists message s',
     net_handle_ tx clock now reads others (MNetworkStart p) s =
       Returns ([Out (Send (RNetworkError message "" (nw_graph p)))], s') /\
     sv_store (ns_server s') = sv_store (ns_server s) /\
     rt_status (sv_runtime (ns_server s')) = rt_status (sv_runtime (ns_server s)) /\
     rt_graph (sv_runtime (ns_server s')) = nw_graph p) /\
  (network_busy (sv_runtime (ns_server s)) = false -> rt_tracing (sv_runtime (ns_server s)) = false ->
   constructs instantiate_component g (available components) -> runnable g -> exists status outs s',
     net_handle_ tx clock now reads others (MNetworkStart p) s =
       Returns (outs ++ [SendStarted status; NetworkEvent (BroadcastStatus status)], s') /\
     serves (nw_graph p) g s' /\ st_running status = true /\ st_started status = true).
Proof.
  intros Hv Hres Hg. cbn [net_handle]. split.
  - intros Hb. destruct (start_message_busy tx clock now p s loc g Hv Hres Hg Hb)
      as (message & s' & -> & ? & ? & ? & _). by exists message, s'.
  - intros Hb Ht Hcon Hrun.
    destruct (start_message_ok tx clock now p s loc g Hv Hres Hg Hcon Hrun Hb Ht)
      as (status & outs & s' & -> & -> & Hs & _).
    eexists _, outs, s'. split; [done|]. split; [done|]. destruct Hs as [Hn _].
    by destruct (nr_status _ _ _ _ Hn) as (? & ? & _).
Qed.

(** Every message with write access that asks to start the network of a graph
    is refused, without effect on the network there is. *)
Definition start_refused_in (tx : TraceSender) clock now reads others (s : NetServer (C := C)) : Prop :=
  forall p loc g, granted (nw_secret p) (nw_graph p) (sv_runtime (ns_server s)) = Some ReadWrite ->
  get_graph_by_name graph (nw_graph p) (ns_server s) = Done (Ok loc) ->
  sv_store (ns_server s) !! loc = Some g ->
  exists message s', net_handle_ tx clock now reads others (MNetworkStart p) s =
      Returns ([Out (Send (RNetworkError message "" (nw_graph p)))], s') /\
    sv_store (ns_server s') = sv_store (ns_server s) /\
    rt_status (sv_runtime (ns_server s')) = rt_status (sv_runtime (ns_server s)) /\
    ns_schedulers s' = ns_schedulers s /\ ns_conns s' = ns_conns s /\ ns_inports s' = ns_inports s.

Lemma busy_refuses tx clock now reads others s :
  network_busy (sv_runtime (ns_server s)) = true -> start_refused_in tx clock now reads others s.
Proof.
  intros Hb p loc g Hv Hres Hg. destruct (start_message_busy tx clock now p s loc g Hv Hres Hg Hb)
    as (message & s' & H & ? & ? & _ & ? & ? & ?). by exists message, s'.
Qed.

(** What [network:stop] of the running network leaves: a server that still
    counts as busy, and knows the same secrets and graphs. *)
Lemma stop_message_ok now reads p s loc g tx clock others :
  granted (nw_secret p) (nw_graph p) (sv_runtime (ns_server s)) = Some ReadWrite ->
  get_graph_by_name graph (nw_graph p) (ns_server s) = Done (Ok loc) ->
  serves (nw_graph p) g s ->
  exists o2 s2, net_handle_ tx clock now reads others (MOther (MNetworkStop p)) s = Returns (o2, s2) /\
    Out SpawnRuntimeStop ∈ o2 /\ network_busy (sv_runtime (ns_server s2)) = true /\
    st_running (rt_status (sv_runtime (ns_server s2))) = false /\
    rt_secrets (sv_runtime (ns_server s2)) = rt_secrets (sv_runtime (ns_server s)) /\
    rt_graphs (sv_runtime (ns_server s2)) = rt_graphs (sv_runtime (ns_server s)) /\
    rt_tracing (sv_runtime (ns_server s2)) = rt_tracing (sv_runtime (ns_server s)) /\
    sv_store (ns_server s2) = sv_store (ns_server s).
Proof.
  intros Hv Hres (Hn & Hst & _). destruct (nr_status _ _ _ _ Hn) as (Hr1 & _ & _). simpl in Hr1.
  destruct (nr_threads _ _ _ _ Hn) as [Hwd _]. simpl in Hwd.
  pose proof (proj2 (valid_granted _ _ _) Hv) as Hval. unfold sv_validate_secret in Hval.
  cbn [net_handle handle]. unfold handle_network_stop, network_handler. rewrite Hval. simpl.
  rewrite Hres. simpl. rewrite Hst, String.eqb_refl. simpl. rewrite Hr1. simpl.
  eexists _, _. split; [reflexivity|]. split; [set_solver|].
  split; [unfold network_busy; simpl; by rewrite Hwd, orb_true_r|]. done.
Qed.

(** C7: the life cycle of a network, for a client with write access to a graph
    that can run, on a server that is idle and has tracing off: its start runs
    that graph's network; every further start is refused while the network runs
    and, after the client's stop, until the teardown is complete, after which
    no scheduler runs; then it can be started again. *)
Theorem network_lifecycle tx clock now reads others p s loc g :
  granted (nw_secret p) (nw_graph p) (sv_runtime (ns_server s)) = Some ReadWrite ->
  resolves graph (nw_graph p) (ns_server s) loc -> sv_store (ns_server s) !! loc = Some g ->
  network_busy (sv_runtime (ns_server s)) = false -> rt_tracing (sv_runtime (ns_server s)) = false ->
  constructs instantiate_component g (available components) -> runnable g ->
  exists o1 s1 o2 s2, net_handle_ tx clock now reads others (MNetworkStart p) s = Returns (o1, s1) /\
    serves (nw_graph p) g s1 /\ start_refused_in tx clock now reads others s1 /\
    net_handle_ tx clock now reads others (MOther (MNetworkStop p)) s1 = Returns (o2, s2) /\
    Out SpawnRuntimeStop ∈ o2 /\ st_running (rt_status (sv_runtime (ns_server s2))) = false /\
    start_refused_in tx clock now reads others s2 /\
    forall finished, exists status s3 evs o4 s4,
      finish_stop finished (fun _ => true) s2 = (Ok status, s3, evs) /\
      (forall k sc, ns_schedulers s3 !! k = Some sc -> running sc = false) /\
      net_handle_ tx clock now reads others (MNetworkStart p) s3 = Returns (o4, s4) /\
      serves (nw_graph p) g s4.
Proof.
  intros Hv Hres Hg Hb Ht Hcon Hrun.
  destruct (start_message_ok tx clock now p s loc g Hv Hres Hg Hcon Hrun Hb Ht)
    as (st1 & outs & s1 & H1 & _ & Hserves & Hstore & Hsec & Hgr & Htr).
  exists (outs ++ [SendStarted st1; NetworkEvent (BroadcastStatus st1)]), s1.
  assert (granted (nw_secret p) (nw_graph p) (sv_runtime (ns_server s1)) = Some ReadWrite) as Hv1.
  { unfold granted in *. by rewrite Hsec. }
  assert (get_graph_by_name graph (nw_graph p) (ns_server s1) = Done (Ok loc)) as Hres1.
  { unfold resolves, get_graph_by_name, read_graph in *. by rewrite Hgr, Hstore. }
  pose proof Hserves as (Hn & Hst & _). destruct (nr_status _ _ _ _ Hn) as (Hr1 & _ & _). simpl in Hr1.
  destruct (stop_message_ok now reads p s1 loc g tx clock others Hv1 Hres1 Hserves)
    as (o2 & s2 & H2 & Hsp & Hb2 & Hnr & Hsec2 & Hgr2 & Ht2 & Hst2).
  exists o2, s2. split; [exact H1|]. split; [done|].
  split; [apply busy_refuses; unfold network_busy; by rewrite Hr1|].
  split; [exact H2|]. split; [done|]. split; [done|]. split; [by apply busy_refuses|].
  intros finished. unfold finish_stop.
  match goal with |- context [stop_network ?st ?f1 ?f2 false ?n] =>
    pose proof (stop_network_facts st f1 f2 false n) as Hstop; pose proof (stop_config st f1 f2 false n) as Hcfg;
    destruct (stop_network st f1 f2 false n) as [[r3 n3] e3] end.
  simpl in Hcfg, Hstop. destruct Hcfg as (Hi3 & Hsec3 & Hg3 & Ht3 & _).
  destruct Hstop as (Hok & Hidle & _ & Hsch & _).
  destruct r3 as [st3|e]; [|by discriminate (proj2 Hok (conj (fun _ _ => eq_refl) (fun _ => or_intror eq_refl)))].
  destruct (Hidle eq_refl) as (Hb3 & _ & _).
  set (s3 := set_network n3 _).
  destruct (start_message_ok tx clock now p s3 loc g) as (st4 & o4 & s4 & H4 & _ & Hs4 & _); try done.
  - simpl. unfold granted in *. by rewrite Hsec3, Hsec2.
  - unfold resolves, get_graph_by_name, read_graph in *. simpl. rewrite Hg3. simpl. by rewrite Hgr2, Hgr, Hst2, Hstore.
  - simpl. by rewrite Hst2, Hstore.
  - simpl. by rewrite Ht3, Ht2.
  - eexists st3, s3, e3, _, s4. split; [done|]. split; [done|]. split; [exact H4|done].
Qed.

End net_server.

(** * Witnesses *)
#[local] Existing Instance gmap_serde_json.
#[local] Existing Instance list_rtrb.
#[local] Existing Instance gmap_multimap.
#[local] Existing Instance sorted_hash_iter.
#[local] Existing Instance idle_component.

(** A stopped server with one runnable graph and the secret "rw". *)
Definition demo_net_server (busy : bool) : NetServer (C := unit) :=
  mk_NetServer
    (mk_Server
       (set_secrets {["main" := ("rw", ReadWrite)]}
          (set_graphs (mk_MultiGraphManager {["main" := 1%positive]} "main")
             (NetworkTheorems.demo_runtime busy false)))
       {[1%positive := NetworkTheorems.demo_graph]} (mk_ClientCapabilityHolder None []))
    ∅ [] None.
Definition demo_components : ComponentLibrary := mk_ComponentLibrary NetworkTheorems.demo_library.
Definition demo_start : NetworkRequestPayload := mk_NetworkRequestPayload "main" (Some "rw").

Lemma demo_runnable : runnable demo_components NetworkTheorems.demo_graph.
Proof.
  split; [exact demo_startable|]. split; [exact demo_connected|].
  split; [exact (proj1 demo_sharing)|exact (proj1 (proj2 demo_sharing))].
Defined.

Definition demo_net_handle : NetMessage -> NetServer (C := unit) -> net_handled :=
  net_handle (fun _ => Normal) demo_instantiate 1%positive demo_components (fun _ => Some "{}") demo_serde
    (fun _ => Ok tt) 7 (fun _ => 0%N) 5 [] [].

Lemma network_start_spec_witness :
  (exists message s', demo_net_handle (MNetworkStart demo_start) (demo_net_server true) =
     Returns ([Out (Send (RNetworkError message "" "main"))], s')) /\
  (exists status outs s', demo_net_handle (MNetworkStart demo_start) (demo_net_server false) =
     Returns (outs ++ [SendStarted status; NetworkEvent (BroadcastStatus status)], s')).
Proof.
  split.
  - destruct (network_start_spec true (fun _ => Normal) demo_instantiate 1%positive demo_components
      (fun _ => Some "{}") demo_serde (fun _ => Ok tt) 7 (fun _ => 0%N) 5 [] [] demo_start (demo_net_server true)
      1%positive NetworkTheorems.demo_graph eq_refl eq_refl eq_refl) as [H _].
    destruct (H eq_refl) as (message & s' & Hs & _). exists message, s'. exact Hs.
  - destruct (network_start_spec true (fun _ => Normal) demo_instantiate 1%positive demo_components
      (fun _ => Some "{}") demo_serde (fun _ => Ok tt) 7 (fun _ => 0%N) 5 [] [] demo_start (demo_net_server false)
      1%positive NetworkTheorems.demo_graph eq_refl eq_refl eq_refl) as [_ H].
    destruct (H eq_refl eq_refl demo_constructs demo_runnable) as (status & outs & s' & Hs & _).
    exists status, outs, s'. exact Hs.
Defined.

Lemma network_lifecycle_witness : exists o1 s1 o2 s2,
  demo_net_handle (MNetworkStart demo_start) (demo_net_server false) = Returns (o1, s1) /\
  demo_net_handle (MOther (MNetworkStop demo_start)) s1 = Returns (o2, s2) /\ Out SpawnRuntimeStop ∈ o2.
Proof.
  destruct (network_lifecycle true (fun _ => Normal) demo_instantiate 1%positive demo_components
    (fun _ => Some "{}") demo_serde (fun _ => Ok tt) 7 (fun _ => 0%N) 5 [] [] demo_start (demo_net_server false)
    1%positive NetworkTheorems.demo_graph eq_refl eq_refl eq_refl eq_refl eq_refl demo_constructs demo_runnable)
    as (o1 & s1 & o2 & s2 & H1 & _ & _ & H2 & Hin & _).
  exists o1, s1, o2, s2. split; [exact H1|split; [exact H2|exact Hin]].
Defined.

Lemma only_write_access_changes_witness : exists o s',
  demo_net_handle (MPacket (mk_RuntimePacketRequestPayload "IN" "data" "main" (Some "hi") (Some "guess")))
    (demo_net_server false) = Returns (o, s') /\
  (untouched (demo_net_server false) s' o \/
   exists secret gn, granted secret gn (sv_runtime (ns_server (demo_net_server false))) = Some ReadWrite).
Proof.
  eexists _, _. split; [reflexivity|].
  destruct (only_write_access_changes (fun _ => Normal) demo_instantiate 1%positive demo_components
    (fun _ => Some "{}") demo_serde (fun _ => Ok tt) 7 (fun _ => 0%N) 5 [] []
    (MPacket (mk_RuntimePacketRequestPayload "IN" "data" "main" (Some "hi") (Some "guess")))
    (demo_net_server false) _ _ eq_refl) as [H|[_ H]]; [left; exact H|right].
  eexists _, _. apply H. left.
Defined.

Lemma demo_net_server_inv busy : server_inv 1%positive (ns_server (demo_net_server busy)).
Proof.
  constructor; [by eexists|]. intros k l.
  change (mg_graphs _) with ({["main" := 1%positive]} : gmap string positive).
  intros [_ <-]%lookup_singleton_Some. by eexists.
Qed.

Lemma demo_start_handled :
  handled_to_the_end demo_instantiate 1%positive demo_components (MNetworkStart demo_start) (demo_net_server false).
Proof.
  intros loc g _ _ Hres Hg.
  assert (g = NetworkTheorems.demo_graph) as ->.
  { change (@Done (result positive io_error) (Ok 1%positive) = Done (Ok loc)) in Hres. injection Hres as <-.
    change (Some NetworkTheorems.demo_graph = Some g) in Hg. by injection Hg as <-. }
  split; [exact demo_startable|]. split; [|split; [discriminate|reflexivity]].
  intros e He Hi. apply elem_of_cons in He as [->|He]; [reflexivity|].
  apply list_elem_of_singleton in He as ->. discriminate Hi.
Qed.

