(* ===== verification/Threads.v ===== *)
(** The threads that [Runtime::start] spawns beside the scheduler, and what they
    send to the clients: the dispatcher of trace events, the handler of the
    graph's outports, and the watchdog.

    What other threads do in the meantime is an argument: the answers of locks,
    flags and channels at the moment a thread looks at them. *)
From S2P Require Import Prelude Api Scheduler Graph Runtime Network.
From Stdlib Require Strings.String.
From Stdlib Require Import NArith ZArith Lia.
From stdpp Require Import base list strings gmap.
Local Open Scope string_scope.
Local Open Scope list_scope.
Local Open Scope flowd_scope.

(** * Messages to the clients *)

Inductive RuntimePacketEvent : Type :=
| Connect_
| BeginGroup_
| Data_
| EndGroup_
| Disconnect_.

Record RuntimePacketResponsePayload : Type := mk_RuntimePacketResponsePayload {
  rpk_port : string;
  rpk_event : RuntimePacketEvent;
  rpk_typ : option string;
  rpk_schema : option string;
  rpk_graph : string;
  rpk_payload : option string
}.

Definition new_connect (graph port : string) (typ schema : option string) :
    RuntimePacketResponsePayload :=
  mk_RuntimePacketResponsePayload port Connect_ typ schema graph None.
Definition new_disconnect (graph port : string) (typ schema : option string) :
    RuntimePacketResponsePayload :=
  mk_RuntimePacketResponsePayload port Disconnect_ typ schema graph None.

Definition new_begingroup (graph port : string) (typ schema : option string) (group_name : string) :
    RuntimePacketResponsePayload :=
  mk_RuntimePacketResponsePayload port BeginGroup_ typ schema graph (Some group_name).
Definition new_endgroup (graph port : string) (typ schema : option string) (group_name : string) :
    RuntimePacketResponsePayload :=
  mk_RuntimePacketResponsePayload port EndGroup_ typ schema graph (Some group_name).

(** Not what its name says; nothing calls it. *)
Definition new_data (graph port : string) (typ schema : option string) (payload : string) :
    RuntimePacketResponsePayload :=
  mk_RuntimePacketResponsePayload port Connect_ typ schema graph (Some payload).

Record NetworkOutputResponsePayload : Type := mk_NetworkOutputResponsePayload {
  no_typ : string;
  no_message : option string;
  no_url : option string
}.

Record NetworkTransmissionPayload : Type := mk_NetworkTransmissionPayload {
  nt_id : string;
  nt_src : option GraphNodeSpecNetwork;
  nt_tgt : option GraphNodeSpecNetwork;
  nt_graph : string;
  nt_subgraph : option (list string);
  nt_data : option string
}.

Inductive ClientMessage : Type :=
| CRuntimePacket (p : RuntimePacketResponsePayload)
| CNetworkStopped (time uptime : N) (st : RuntimeStatus)
| CNetworkOutput (p : NetworkOutputResponsePayload)
| CNetworkData (p : NetworkTransmissionPayload)
| CTraceData (p : TraceDataEventPayload)
| CTraceConnect (p : TraceConnectEventPayload)
| CTraceDisconnect (p : TraceDisconnectEventPayload).

(** [NetworkStoppedResponse::new]; [now] in nanoseconds. *)
Definition network_stopped (now : N) (st : RuntimeStatus) : ClientMessage :=
  CNetworkStopped now ((now - st_time_started st) / 1000000000)%N st.

(** * The clients

    The part of [GraphInportOutportHolder] that concerns them.  The tap is a
    bounded channel of which the other end may be gone. *)
Record Tap : Type := mk_Tap {
  tap_items : list RuntimePacketResponsePayload;
  tap_bound : nat;
  tap_rx_alive : bool
}.

Record Clients : Type := mk_Clients {
  cl_websockets : gset string;
  cl_packet_tap : option Tap
}.

Definition tap_try_send (p : RuntimePacketResponsePayload) (t : Tap) : Tap :=
  if tap_rx_alive t && (length (tap_items t) <? tap_bound t)%nat
  then mk_Tap (tap_items t ++ [p]) (tap_bound t) (tap_rx_alive t)
  else t.

(** What happens at one client: its lock is poisoned, the send fails, or the
    message is sent. *)
Inductive Delivery : Type := LockPoisoned | SendFailed | Sent.

(** [broadcast_to_clients], the clients in some order: who gets the message and
    who is dropped. *)
Definition broadcast_to_clients (deliver : string -> Delivery) (packet : ClientMessage) (c : Clients) :
    list (string * ClientMessage) * Clients :=
  let clients := elements (cl_websockets c) in
  let reached := List.filter (fun addr => match deliver addr with Sent => true | _ => false end) clients in
  let failed := List.filter (fun addr => match deliver addr with Sent => false | _ => true end) clients in
  (map (fun addr => (addr, packet)) reached,
   mk_Clients (fold_left (fun ws addr => ws ∖ {[addr]}) failed (cl_websockets c)) (cl_packet_tap c)).

Definition send_runtime_packet (deliver : string -> Delivery) (packet : RuntimePacketResponsePayload)
    (c : Clients) : list (string * ClientMessage) * Clients :=
  broadcast_to_clients deliver (CRuntimePacket packet)
    (mk_Clients (cl_websockets c) (tap_try_send packet <$> cl_packet_tap c)).

(** [create_graph_inout_handle]: the two functions a component can call. *)
Definition output_message (message : string) : ClientMessage := 
  CNetworkOutput (mk_NetworkOutputResponsePayload "message" (Some message) None).
Definition output_previewurl (url : string) : ClientMessage := 
  CNetworkOutput (mk_NetworkOutputResponsePayload "previewurl" None (Some url)).

(** * The dispatcher of trace events *)

Definition new_network_data (p : TraceDataEventPayload) : NetworkTransmissionPayload :=
  mk_NetworkTransmissionPayload (td_id p)
    (Some (mk_GraphNodeSpecNetwork (gnsn_node (td_src p)) (gnsn_port (td_src p)) (gnsn_index (td_src p))))
    (Some (mk_GraphNodeSpecNetwork (gnsn_node (td_tgt p)) (gnsn_port (td_tgt p)) (gnsn_index (td_tgt p))))
    (td_graph p) None (Some (td_data p)).

(** One message of the trace channel: [debugging] is the runtime at the first
    look, [tracing] the one at the second. *)
Definition dispatch_trace (debugging tracing : Runtime) (m : FbpMessage) : list ClientMessage :=
  match m with
  | TraceData p =>
      (if should_emit_network_data p debugging then [CNetworkData (new_network_data p)] else []) ++
      (if rt_tracing tracing then [CTraceData p] else [])
  | TraceConnect p => if rt_tracing tracing then [CTraceConnect p] else []
  | TraceDisconnect p => if rt_tracing tracing then [CTraceDisconnect p] else []
  | _ => []
  end.

(** * The handler of the graph's outports *)
Section graph_out.
Context `{R : Rtrb}.

(** The inports of the thread, in the order of its map. *)
Abbreviation OutPorts := (list (string * ring)).

Definition data_packet (graph_name port payload_text : string) : RuntimePacketResponsePayload :=
  mk_RuntimePacketResponsePayload port Data_ None None graph_name (Some payload_text).

(** [loop { if let Ok(ip) = inport.pop() { .. } else { break } }]; every round
    takes a packet. *)
Fixpoint drain_inport (fuel : nat) (graph_name port : string) (inport : ring) :
    outcome (list RuntimePacketResponsePayload * ring) :=
  match fuel with
  | O => Done ([], inport)
  | S fuel =>
      match ring_pop inport with
      | (Some ip, inport) =>
          let* payload_text := expect (message_as_utf8 ip) in
          let* rest := drain_inport fuel graph_name port inport in
          Done (data_packet graph_name port payload_text :: rest.1, rest.2)
      | (None, inport) => Done ([], inport)
      end
  end.

Fixpoint drain_inports (graph_name : string) (inports : OutPorts) :
    outcome (list RuntimePacketResponsePayload * OutPorts) :=
  match inports with
  | [] => Done ([], [])
  | (port_name, inport) :: inports =>
      let* here := drain_inport (S (length (ring_items inport))) graph_name port_name inport in
      let* rest := drain_inports graph_name inports in
      Done (here.1 ++ rest.1, (port_name, here.2) :: rest.2)
  end.

(** A round: what the signal channel holds, and what the scheduler has pushed
    for each outport since it was last looked at; a full ring takes no more. *)
Record Round : Type := mk_Round {
  rn_signal : option FbpMessage;
  rn_pushed : string -> list FbpMessage
}.

Definition offer (ms : list FbpMessage) (r : ring) : ring :=
  fold_left (fun r m => (ring_push m r).2) ms r.

Definition feed (round : Round) (inports : OutPorts) : OutPorts :=
  map (fun x => (x.1, offer (rn_pushed round x.1) x.2)) inports.

(** Unlike elsewhere the text of a packet that is not text counts as empty. *)
Definition stops_thread (round : Round) : bool :=
  match rn_signal round with
  | Some signal => String.eqb (default "" (message_as_utf8 signal)) "stop"
  | None => false
  end.

Fixpoint graph_out_loop (graph_name : string) (rounds : list Round) (inports : OutPorts) :
    outcome (list RuntimePacketResponsePayload * OutPorts) :=
  match rounds with
  | [] => Done ([], inports)
  | round :: rounds =>
      let inports := feed round inports in
      if stops_thread round then
        Done (map (fun p => new_disconnect graph_name p None None) inports.*1, inports)
      else
        let* here := drain_inports graph_name inports in
        let* rest := graph_out_loop graph_name rounds here.2 in
        Done (here.1 ++ rest.1, rest.2)
  end.

(** The thread; a list of rounds without a stop is a thread that still runs. *)
Definition graph_out (graph_name : string) (rounds : list Round) (inports : OutPorts) :
    outcome (list RuntimePacketResponsePayload * OutPorts) :=
  if bool_decide (inports = []) then Done ([], [])
  else
    let* rest := graph_out_loop graph_name rounds inports in
    Done (map (fun p => new_connect graph_name p None None) inports.*1 ++ rest.1, rest.2).
End graph_out.

(** * The watchdog *)

Definition WATCHDOG_MAX_MISSED_PONGS : N := 2.

(** A thread under watch: its signal channel and whether it answers pings. *)
Record Watched : Type := mk_Watched {
  wt_signal : sync_channel;
  wt_answers : bool
}.

Record Watchdog : Type := mk_Watchdog {
  wd_procs : gmap string Watched;
  wd_missed_pongs : gmap string N
}.

(** What the second after a ping brings. *)
Inductive Answer : Type :=
| Answered (signal : FbpMessage)
| NoAnswer
| AnswerGone
| StopInstead.

(** What the watchdog sees when it comes to a thread. *)
Record Look : Type := mk_Look {
  lk_signal : option FbpMessage;
  lk_exited : bool;
  lk_answer : Answer
}.

(** The state of a health check. *)
Record Health : Type := mk_Health {
  hl_ok : bool;
  hl_disconnected : list string;
  hl_watchdog : Watchdog
}.

Definition told_to_stop (signal : option FbpMessage) : bool :=
  match signal with
  | Some ip => bool_decide (message_as_utf8 ip = Some "stop")
  | None => false
  end.

Definition forget_pongs (name : string) (w : Watchdog) : Watchdog :=
  mk_Watchdog (wd_procs w) (delete name (wd_missed_pongs w)).

(** [saturating_add] on a [u8]. *)
Definition one_more_miss (name : string) (w : Watchdog) : N :=
  N.min 255 (default 0%N (wd_missed_pongs w !! name) + 1)%N.

(** One thread; [None]: the watchdog has been told to stop. *)
Definition check_thread (look : Look) (name : string) (proc : Watched) (h : Health) : option Health :=
  let w := hl_watchdog h in
  if told_to_stop (lk_signal look) then None
  else if lk_exited look then
    Some (mk_Health false (hl_disconnected h ++ [name]) (forget_pongs name w))
  else if negb (wt_answers proc) then Some h
  else
    match try_send (from_str "ping") (wt_signal proc) with
    | (Err (SendFull _), _) => Some (mk_Health false (hl_disconnected h) w)
    | (Err (SendDisconnected _), _) =>
        Some (mk_Health false (hl_disconnected h ++ [name]) (forget_pongs name w))
    | (Ok _, signal) =>
        let w := mk_Watchdog (<[name := mk_Watched signal (wt_answers proc)]> (wd_procs w))
                   (wd_missed_pongs w) in
        match lk_answer look with
        | StopInstead => None
        | Answered ip =>
            Some (mk_Health (hl_ok h) (hl_disconnected h)
                    (if String.eqb (default "" (message_as_utf8 ip)) "pong" then forget_pongs name w else w))
        | AnswerGone => Some (mk_Health false (hl_disconnected h) (forget_pongs name w))
        | NoAnswer =>
            let misses := one_more_miss name w in
            let w := mk_Watchdog (wd_procs w) (<[name := misses]> (wd_missed_pongs w)) in
            Some (mk_Health (hl_ok h && negb (WATCHDOG_MAX_MISSED_PONGS <=? misses)%N)
                    (hl_disconnected h) w)
        end
    end.

Fixpoint check_threads (look : string -> Look) (procs : list (string * Watched)) (h : Health) :
    option Health :=
  match procs with
  | [] => Some h
  | (name, proc) :: procs =>
      match check_thread (look name) name proc h with
      | Some h => check_threads look procs h
      | None => None
      end
  end.

(** The threads that are gone are not watched any more. *)
Definition drop_disconnected (h : Health) : Watchdog :=
  fold_left (fun w name => mk_Watchdog (delete name (wd_procs w)) (delete name (wd_missed_pongs w)))
    (hl_disconnected h) (hl_watchdog h).

(** The answer of a lock that is only tried. *)
Inductive TryLock : Type := LockFree | WouldBlock | Poisoned.

Section watchdog.
Context `{R : Rtrb} `{J : SerdeJson} `{MM : forall V : Type, MultiMapLib V} `{HI : HashIter} {C : Type}.
Implicit Types (net : Network (C := C)).

(** What else a round depends on: the signals at its beginning, the locks, the
    scheduler threads that have ended, how long the threads take to end when
    they are stopped, the graphs, and the clock. *)
Record World : Type := mk_World {
  wo_signals : list FbpMessage;
  wo_look : string -> Look;
  wo_try_read : TryLock;
  wo_try_write : TryLock;
  wo_scheduler_finished : string -> bool;
  wo_finished : string -> bool;
  wo_store : gmap positive Graph;
  wo_now : N
}.

Inductive Verdict : Type :=
| Watching (w : Watchdog)
| Exits (stopped : bool).

(** [runtime.stop(.., true)] and the notice to the clients; an error of [stop]
    is only logged. *)
Definition shut_down (o : World) net : Network (C := C) * list NetEvent * list ClientMessage :=
  let '(_, net', events) :=
    stop_network (wo_store o) (wo_scheduler_finished o) (wo_finished o) true net in
  (net', events, [network_stopped (wo_now o) (rt_status (net_runtime net'))]).

(** One iteration of the loop, with the signals that came during the sleep
    before it. *)
Definition watchdog_round (o : World) (w : Watchdog) net :
    Verdict * Network (C := C) * list NetEvent * list ClientMessage :=
  if existsb (fun ip => told_to_stop (Some ip)) (wo_signals o) then (Exits false, net, [], [])
  else
    match check_threads (wo_look o) (hash_iter (wd_procs w)) (mk_Health true [] w) with
    | None => (Exits false, net, [], [])
    | Some h =>
        let w := drop_disconnected h in
        let schedulers := rt_scheduler_threads (net_runtime net) in
        let all_schedulers_exited :=
          bool_decide (wd_procs w = ∅) &&
          match wo_try_read o with
          | LockFree => negb (bool_decide (schedulers = ∅)) &&
                        forallb (wo_scheduler_finished o) (elements schedulers)
          | _ => false
          end in
        if all_schedulers_exited || (negb (hl_ok h) && bool_decide (wd_procs w = ∅)) then
          match wo_try_write o with
          | LockFree =>
              let '(net, events, messages) := shut_down o net in
              (Exits true, net, events, messages)
          | _ => (Exits false, net, [], [])
          end
        else (Watching w, net, [], [])
    end.
End watchdog.
