(* ===== verification/ThreadsTheorems.v ===== *)
(** What is proved about the threads beside the scheduler: the handler of the
    outports passes on every packet once and in order, and the watchdog takes a
    network down only when every thread it watches is gone. *)
From S2P Require Import Prelude Api Scheduler Graph Runtime Network NetworkTheorems Threads.
From Stdlib Require Strings.String.
From Stdlib Require Import NArith ZArith Lia.
From stdpp Require Import base list strings gmap.
Local Open Scope string_scope.
Local Open Scope list_scope.
Local Open Scope flowd_scope.

(** * Broadcasts *)

Lemma removed_clients (addrs : list string) (ws : gset string) :
  fold_left (fun ws addr => ws ∖ {[addr]}) addrs ws = ws ∖ list_to_set addrs.
Proof.
  revert ws. induction addrs as [|a addrs IH]; intros ws; simpl; [set_solver|]. rewrite IH. set_solver.
Qed.

(** A broadcast reaches every client whose socket works, once, and drops the
    others. *)
Lemma broadcast_spec deliver m c :
  let res := broadcast_to_clients deliver m c in
  res.1.*1 ≡ₚ elements (cl_websockets res.2) /\ Forall (fun s => s.2 = m) res.1 /\
  (forall a, a ∈ cl_websockets res.2 <-> a ∈ cl_websockets c /\ deliver a = Sent) /\
  cl_packet_tap res.2 = cl_packet_tap c.
Proof.
  simpl. rewrite removed_clients. set (ws := cl_websockets c).
  assert (forall a, a ∈ ws ∖ list_to_set (List.filter (fun addr => match deliver addr with
    Sent => false | _ => true end) (elements ws)) <-> a ∈ ws /\ deliver a = Sent) as Hin.
  { intros a. rewrite elem_of_difference, elem_of_list_to_set, list_elem_of_In, filter_In,
      <- list_elem_of_In, elem_of_elements. destruct (deliver a); naive_solver. }
  split; [|split; [|by split]].
  - apply NoDup_Permutation.
    + rewrite <- list_fmap_compose. simpl. rewrite list_fmap_id.
      apply NoDup_ListNoDup, List.NoDup_filter, NoDup_ListNoDup, NoDup_elements.
    + apply NoDup_elements.
    + intros a. rewrite <- list_fmap_compose. simpl. rewrite list_fmap_id, elem_of_elements, Hin.
      rewrite list_elem_of_In, filter_In, <- list_elem_of_In, elem_of_elements.
      destruct (deliver a); naive_solver.
  - apply Forall_forall. intros s (a & -> & _)%list_elem_of_fmap. done.
Qed.

(** * The handler of the outports *)
Section graph_out.
Context `{R : Rtrb}.
Abbreviation OutPorts := (list (string * ring)).

(** The texts that were sent out for a port. *)
Definition data_of (port : string) (s : RuntimePacketResponsePayload) : list string :=
  match rpk_event s, rpk_payload s with
  | Data_, Some text => if String.eqb (rpk_port s) port then [text] else []
  | _, _ => []
  end.
Definition delivered (port : string) (sends : list RuntimePacketResponsePayload) : list string :=
  flat_map (data_of port) sends.

Lemma delivered_app port l1 l2 : delivered port (l1 ++ l2) = delivered port l1 ++ delivered port l2.
Proof. apply flat_map_app. Qed.

Lemma delivered_data port p graph texts :
  delivered port (map (data_packet graph p) texts) = if String.eqb p port then texts else [].
Proof.
  induction texts as [|t texts IH]; simpl; [by destruct (String.eqb p port)|].
  rewrite IH. unfold data_of. simpl. by destruct (String.eqb p port).
Qed.

(** Messages about other ports, or without data. *)
Lemma delivered_none port sends :
  Forall (fun s => rpk_event s <> Data_ \/ rpk_port s <> port) sends -> delivered port sends = [].
Proof.
  induction 1 as [|s sends Hs _ IH]; simpl; [done|]. rewrite IH, app_nil_r. unfold data_of.
  destruct (rpk_event s), (rpk_payload s); try done.
  destruct (String.eqb_spec (rpk_port s) port); [|done]. by destruct Hs.
Qed.

Lemma drain_inport_spec fuel graph port r :
  length (ring_items r) < fuel ->
  match drain_inport fuel graph port r with
  | Done (sends, r') => exists texts, sends = map (data_packet graph port) texts /\
      map message_as_utf8 (ring_items r) = map Some texts /\ ring_items r' = [] /\
      ring_cap r' = ring_cap r
  | Panicked => exists m, m ∈ ring_items r /\ message_as_utf8 m = None
  end.
Proof.
  revert r. induction fuel as [|fuel IH]; intros r Hf; [lia|]. simpl.
  pose proof (ring_pop_res r) as Hres. pose proof (ring_pop_items r) as Hit.
  pose proof (ring_pop_cap r) as Hcap.
  destruct (ring_pop r) as [res r'] eqn:Hpop. simpl in *. subst res.
  destruct (ring_items r) as [|m items]; simpl in *; [by exists []|].
  destruct (message_as_utf8 m) as [text|] eqn:Hm; simpl.
  - specialize (IH r'). rewrite Hit in IH. specialize (IH ltac:(lia)).
    destruct (drain_inport fuel graph port r') as [[sends r2]|]; simpl.
    + destruct IH as (texts & -> & Ht & He & ->). exists (text :: texts). simpl. by rewrite Ht.
    + destruct IH as (m' & Hin & Hm'). exists m'. split; [by right|done].
  - exists m. split; [by left|done].
Qed.

(** Both rings of a port, before and after. *)
Definition drained (graph : string) (sends : list RuntimePacketResponsePayload) (x y : string * ring) :
    Prop :=
  y.1 = x.1 /\ ring_items y.2 = [] /\ ring_cap y.2 = ring_cap x.2 /\
  map message_as_utf8 (ring_items x.2) = map Some (delivered x.1 sends).

Lemma drain_inports_spec graph (inports : OutPorts) :
  NoDup inports.*1 ->
  match drain_inports graph inports with
  | Done (sends, inports') =>
      Forall2 (drained graph sends) inports inports' /\
      Forall (fun s => rpk_event s = Data_ /\ rpk_port s ∈ inports.*1) sends
  | Panicked => Exists (fun x => Exists (fun m => message_as_utf8 m = None) (ring_items x.2)) inports
  end.
Proof.
  induction inports as [|[port r] inports IH]; cbn [drain_inports]; [by intros _; split|].
  rewrite fmap_cons. intros [Hnew Hnd]%NoDup_cons. specialize (IH Hnd).
  pose proof (drain_inport_spec (S (length (ring_items r))) graph port r ltac:(lia)) as Hd.
  destruct (drain_inport (S (length (ring_items r))) graph port r) as [[sends r']|]; simpl;
    [|left; apply Exists_exists; naive_solver].
  destruct Hd as (texts & -> & Ht & He & Hcap).
  destruct (drain_inports graph inports) as [[sends inports']|]; simpl; [|by right].
  destruct IH as [Hall Hsends]. split.
  - assert (forall (x : string) (l : list string), (x ∉ l) -> Forall (fun s => rpk_event s = Data_ /\ rpk_port s ∈ l) sends ->
      delivered x sends = []) as Hnone.
    { intros x l Hx Hl. apply delivered_none. eapply Forall_impl; [exact Hl|]. intros s [_ Hin]. right.
      intros Heq. apply Hx. by rewrite <- Heq. }
    constructor.
    + split_and!; [done|done|done|]. cbn [fst snd].
      by rewrite delivered_app, delivered_data, String.eqb_refl, (Hnone port _ Hnew Hsends), app_nil_r.
    + rewrite Forall2_lookup in Hall |- *. intros i. specialize (Hall i).
      destruct (inports !! i) as [x|] eqn:Hx, (inports' !! i) as [y|]; inversion Hall as [? ? Hxy|]; subst;
        constructor.
      destruct Hxy as (H1 & H2 & H4 & H3). split_and!; [done|done|done|]. rewrite delivered_app, delivered_data, H3.
      destruct (String.eqb_spec port x.1) as [->|_]; [|done].
      exfalso. apply Hnew, list_elem_of_fmap. exists x. split; [done|]. by apply list_elem_of_lookup_2 in Hx.
  - apply Forall_app. split.
    + apply Forall_forall. intros s (text & -> & _)%list_elem_of_fmap. split; [done|by left].
    + eapply Forall_impl; [exact Hsends|]. intros s [? ?]. split; [done|by right].
Qed.

(** A round feeds the rings. *)
Lemma offer_facts ms r :
  ring_cap (offer ms r) = ring_cap r /\
  (length (ring_items r) + length ms <= ring_cap r -> ring_items (offer ms r) = ring_items r ++ ms).
Proof.
  revert r. induction ms as [|m ms IH]; intros r; [by rewrite app_nil_r|].
  change (offer (m :: ms) r) with (offer ms (ring_push m r).2). cbn [length].
  destruct (IH (ring_push m r).2) as [Hc Hi]. rewrite ring_push_cap in Hc. split; [done|].
  intros Hfit. rewrite ring_push_items, ring_push_cap in Hi.
  destruct (Nat.ltb_spec (length (ring_items r)) (ring_cap r)) as [_|]; [|lia].
  rewrite length_app in Hi. rewrite Hi by (simpl; lia). by rewrite <- app_assoc.
Qed.

Lemma feed_keys round (inports : OutPorts) : (feed round inports).*1 = inports.*1.
Proof. unfold feed. by rewrite <- list_fmap_compose. Qed.

(** What becomes of the packets of one port: those that are taken out, and
    those that stay in the ring because the thread was stopped. *)
Fixpoint account (port : string) (rounds : list Round) (held : list FbpMessage) :
    list FbpMessage * list FbpMessage :=
  match rounds with
  | [] => ([], held)
  | round :: rounds =>
      let held := held ++ rn_pushed round port in
      if stops_thread round then ([], held)
      else let later := account port rounds [] in (held ++ later.1, later.2)
  end.

(** The rings are never overrun. *)
Fixpoint fits (port : string) (cap : nat) (rounds : list Round) (held : nat) : Prop :=
  match rounds with
  | [] => True
  | round :: rounds => held + length (rn_pushed round port) <= cap /\ fits port cap rounds 0
  end.
Definition fitting (rounds : list Round) (x : string * ring) : Prop :=
  fits x.1 (ring_cap x.2) rounds (length (ring_items x.2)).

(** The same for a port, when the thread has run. *)
Definition settled (rounds : list Round) (sends : list RuntimePacketResponsePayload)
    (x y : string * ring) : Prop :=
  let acc := account x.1 rounds (ring_items x.2) in
  y.1 = x.1 /\ map message_as_utf8 acc.1 = map Some (delivered x.1 sends) /\ ring_items y.2 = acc.2.

Definition not_text (rounds : list Round) (x : string * ring) : Prop :=
  Exists (fun m => message_as_utf8 m = None) (account x.1 rounds (ring_items x.2)).1.

Lemma disconnects_deliver_nothing graph names port :
  delivered port (map (fun p => new_disconnect graph p None None) names) = [].
Proof. apply delivered_none, Forall_forall. intros s (p & -> & _)%list_elem_of_fmap. by left. Qed.

(** A step that is taken at every port. *)
Lemma Forall2_Exists_l {A B} (P : A -> B -> Prop) (Q : B -> Prop) (Q' : A -> Prop) l k :
  Forall2 P l k -> (forall x y, P x y -> Q y -> Q' x) -> Exists Q k -> Exists Q' l.
Proof.
  intros H HQ. induction H as [|x y l k Hxy _ IH]; [by intros ?%Exists_nil|].
  intros [Hy|Hk]%Exists_cons; [left|right]; eauto.
Qed.

(** Feeding the rings. *)
Lemma feed_spec round rounds (inports : OutPorts) :
  Forall (fitting (round :: rounds)) inports ->
  Forall2 (fun x y => y.1 = x.1 /\ ring_items y.2 = ring_items x.2 ++ rn_pushed round x.1 /\
    fits x.1 (ring_cap y.2) rounds 0) inports (feed round inports).
Proof.
  induction 1 as [|x inports [Hfit Hlater] _ IH]; [constructor|]. simpl. constructor; [|done]. simpl.
  destruct (offer_facts (rn_pushed round x.1) x.2) as [-> Hi]. auto.
Qed.

(** Feeding the rings and then emptying them. *)
Lemma feed_drain_spec graph round rounds (inports : OutPorts) :
  NoDup inports.*1 -> Forall (fitting (round :: rounds)) inports ->
  match drain_inports graph (feed round inports) with
  | Done (sends, inports') =>
      Forall2 (fun x z => z.1 = x.1 /\ ring_items z.2 = [] /\ fitting rounds z /\
        map message_as_utf8 (ring_items x.2 ++ rn_pushed round x.1) = map Some (delivered x.1 sends))
        inports inports' /\
      Forall (fun s => rpk_event s = Data_ /\ rpk_port s ∈ inports.*1) sends
  | Panicked =>
      Exists (fun x => Exists (fun m => message_as_utf8 m = None) (ring_items x.2 ++ rn_pushed round x.1))
        inports
  end.
Proof.
  intros Hnd Hfit. apply feed_spec in Hfit.
  pose proof (drain_inports_spec graph (feed round inports)) as Hd. rewrite feed_keys in Hd.
  specialize (Hd Hnd). destruct (drain_inports graph (feed round inports)) as [[sends inports']|].
  - destruct Hd as [Hd Hsends]. split; [|done]. eapply Forall2_trans; [|exact Hfit|exact Hd].
    intros x y z (Hx & Hix & Hf) (Hy & He & Hc & Ht). unfold fitting. rewrite Hy, Hx, He, Hc. split_and!; try done.
    by rewrite <- Hix, Ht, Hx.
  - eapply Forall2_Exists_l; [exact Hfit| |exact Hd]. intros x y (_ & <- & _) Hex. exact Hex.
Qed.

Lemma graph_out_loop_spec graph rounds (inports : OutPorts) :
  NoDup inports.*1 -> Forall (fitting rounds) inports ->
  match graph_out_loop graph rounds inports with
  | Done (sends, inports') => exists body,
      sends = body ++ (if existsb stops_thread rounds
                       then map (fun p => new_disconnect graph p None None) inports.*1 else []) /\
      Forall (fun s => rpk_event s = Data_ /\ rpk_port s ∈ inports.*1) body /\
      Forall2 (settled rounds body) inports inports'
  | Panicked => Exists (not_text rounds) inports
  end.
Proof.
  revert inports. induction rounds as [|round rounds IH]; intros inports Hnd Hfit.
  { exists []. split_and!; [done|constructor|]. apply Forall_Forall2_diag, Forall_true. done. }
  cbn [graph_out_loop existsb]. destruct (stops_thread round) eqn:Hstop.
  - exists []. rewrite feed_keys. split_and!; [done|constructor|].
    eapply Forall2_impl; [exact (feed_spec _ _ _ Hfit)|]. intros x y (Hx & Hi & _).
    unfold settled. cbn [account]. by rewrite Hstop.
  - pose proof (feed_drain_spec graph round rounds inports Hnd Hfit) as Hd.
    destruct (drain_inports graph (feed round inports)) as [[here inports1]|]; simpl.
    + destruct Hd as [Hd Hhere].
      assert (inports1.*1 = inports.*1) as Hkeys.
      { symmetry. apply list_eq_Forall2, Forall2_fmap. eapply Forall2_impl; [exact Hd|]. by intros x z [-> _]. }
      specialize (IH inports1). rewrite Hkeys in IH. specialize (IH Hnd).
      destruct (graph_out_loop graph rounds inports1) as [[sends inports2]|]; simpl.
      * destruct IH as (body & -> & Hbody & Hall).
        { eapply Forall2_Forall_r; [exact Hd|]. apply Forall_true. by intros x z (_ & _ & ? & _). }
        exists (here ++ body). split_and!; [by rewrite app_assoc|by apply Forall_app|].
        eapply Forall2_trans; [|exact Hd|exact Hall].
        intros x y z (Hx & Hi & _ & Ht) (Hy & Hacc & Hz). unfold settled. cbn [account]. rewrite Hstop.
        rewrite Hi, Hx in Hacc, Hz. rewrite Hx in Hy. cbn [fst snd].
        split_and!; [done| |done]. by rewrite delivered_app, map_app, Ht, Hacc, map_app.
      * eapply Forall2_Exists_l; [exact Hd| |apply IH].
        { intros x z (Hx & Hi & _) Hex. unfold not_text in *. cbn [account]. rewrite Hstop. simpl.
          apply Exists_app. right. by rewrite Hi, Hx in Hex. }
        eapply Forall2_Forall_r; [exact Hd|]. apply Forall_true. by intros x z (_ & _ & ? & _).
    + eapply Exists_impl; [exact Hd|]. intros x Hex. unfold not_text. cbn [account]. rewrite Hstop. simpl.
      apply Exists_app. by left.
Qed.

(** The handler of the graph's outports sends, for the graph and under the
    name of the port, one connect for every outport, then every packet that is
    taken out of a ring, each exactly once and in the order in which the
    packets of its port were pushed, and, when it is stopped, one disconnect
    for every outport.  The packets that are still in a ring when the stop
    arrives stay there.  The thread unwinds, without a disconnect, exactly when
    it takes out a packet that is not text. *)
Theorem graph_out_spec graph rounds (inports : list (string * ring)) :
  NoDup inports.*1 -> Forall (fitting rounds) inports ->
  match graph_out graph rounds inports with
  | Done (sends, inports') => exists body,
      sends = map (fun p => new_connect graph p None None) inports.*1 ++ body ++
              (if existsb stops_thread rounds
               then map (fun p => new_disconnect graph p None None) inports.*1 else []) /\
      Forall (fun s => rpk_event s = Data_ /\ rpk_port s ∈ inports.*1) body /\
      Forall2 (settled rounds body) inports inports' /\
      ~ Exists (not_text rounds) inports
  | Panicked => Exists (not_text rounds) inports
  end.
Proof.
  intros Hnd Hfit. unfold graph_out. case_bool_decide as Hnil.
  { subst. exists []. split_and!; [by destruct (existsb _ _)|constructor|constructor|by intros ?%Exists_nil]. }
  pose proof (graph_out_loop_spec graph rounds inports Hnd Hfit) as H.
  destruct (graph_out_loop graph rounds inports) as [[sends inports']|]; [|exact H].
  destruct H as (body & -> & Hbody & Hall). exists body. split_and!; [done|done|done|].
  intros (x & Hx & Hex)%Exists_exists. apply list_elem_of_lookup in Hx as [i Hi].
  destruct (Forall2_lookup_l _ _ _ _ _ Hall Hi) as (y & _ & _ & Hacc & _).
  unfold not_text in Hex. apply Exists_exists in Hex as (m & Hm & Hnone).
  apply (list_elem_of_fmap_2 message_as_utf8) in Hm. rewrite Hnone in Hm.
  change (None ∈ map message_as_utf8 (account x.1 rounds (ring_items x.2)).1) in Hm. rewrite Hacc in Hm.
  apply list_elem_of_fmap in Hm as (? & ? & _). done.
Qed.
End graph_out.

(** * The watchdog *)

(** What makes the watchdog give up on a thread: it has ended, or nobody
    listens to the pings any more. *)
Definition gone (look : Look) (proc : Watched) : bool :=
  lk_exited look || (wt_answers proc && negb (sc_rx_alive (wt_signal proc))).

(** No stop arrives while this thread is looked at. *)
Definition undisturbed (look : Look) : Prop :=
  told_to_stop (lk_signal look) = false /\ lk_answer look <> StopInstead.

Definition within_u8 (w : Watchdog) : Prop := map_Forall (fun _ m => (m <= 255)%N) (wd_missed_pongs w).

Lemma within_u8_delete name w : within_u8 w -> within_u8 (forget_pongs name w).
Proof. intros H. by apply map_Forall_delete. Qed.

(** How one check changes the state of health. *)
Record checked (names : list string) (h h' : Health) : Prop := {
  chk_procs : dom (wd_procs (hl_watchdog h')) = dom (wd_procs (hl_watchdog h));
  chk_disconnected : hl_disconnected h' = hl_disconnected h ++ names;
  chk_ok : hl_ok h' = true -> hl_ok h = true /\ names = [];
  chk_missed : within_u8 (hl_watchdog h) -> within_u8 (hl_watchdog h')
}.

Lemma checked_trans names1 names2 h1 h2 h3 :
  checked names1 h1 h2 -> checked names2 h2 h3 -> checked (names1 ++ names2) h1 h3.
Proof.
  intros [P1 D1 O1 M1] [P2 D2 O2 M2]. split; [congruence|by rewrite D2, D1, app_assoc| |auto].
  intros [[? ->]%O1 ->]%O2. done.
Qed.

Lemma check_thread_facts look name proc h :
  name ∈ dom (wd_procs (hl_watchdog h)) ->
  match check_thread look name proc h with
  | Some h' => checked (if gone look proc then [name] else []) h h'
  | None => ~ undisturbed look
  end.
Proof.
  intros Hin. unfold check_thread, gone, undisturbed.
  destruct (told_to_stop (lk_signal look)); [by intros [? _]|].
  destruct (lk_exited look); [split; simpl; auto using within_u8_delete; done|].
  destruct (wt_answers proc); [|split; simpl; by rewrite ?app_nil_r].
  unfold try_send. destruct (sc_rx_alive (wt_signal proc)); simpl;
    [|split; simpl; auto using within_u8_delete; done].
  destruct (_ <? _)%nat; [|split; simpl; by rewrite ?app_nil_r].
  assert (forall w, dom (<[name := w]> (wd_procs (hl_watchdog h))) = dom (wd_procs (hl_watchdog h))) as Hdom.
  { intros w. rewrite dom_insert_L. set_solver. }
  destruct (lk_answer look); [| | |by intros [_ ?]]; (split; simpl; [|by rewrite app_nil_r| |]).
  - destruct (String.eqb _ _); apply Hdom.
  - done.
  - destruct (String.eqb _ _); [|done]. intros H. by apply map_Forall_delete.
  - apply Hdom.
  - by intros [? _]%andb_true_iff.
  - intros H. apply map_Forall_insert_2; [|done]. unfold one_more_miss. lia.
  - apply Hdom.
  - done.
  - intros H. by apply map_Forall_delete.
Qed.

Definition all_gone (look : string -> Look) (procs : list (string * Watched)) : list string :=
  (filter (fun x => gone (look x.1) x.2 = true) procs).*1.

Lemma check_threads_facts look procs h :
  Forall (fun x => x.1 ∈ dom (wd_procs (hl_watchdog h))) procs ->
  match check_threads look procs h with
  | Some h' => checked (all_gone look procs) h h'
  | None => Exists (fun x => ~ undisturbed (look x.1)) procs
  end.
Proof.
  revert h. induction procs as [|[name proc] procs IH]; intros h.
  { intros _. split; simpl; by rewrite ?app_nil_r. }
  intros [Hn Hp]%Forall_cons. simpl in Hn. cbn [check_threads].
  pose proof (check_thread_facts (look name) name proc h Hn) as H1.
  destruct (check_thread (look name) name proc h) as [h1|]; [|by left].
  specialize (IH h1). rewrite (chk_procs _ _ _ H1) in IH. specialize (IH Hp).
  destruct (check_threads look procs h1) as [h2|]; [|by right].
  pose proof (checked_trans _ _ _ _ _ H1 IH) as H. unfold all_gone in *. rewrite filter_cons. simpl.
  by destruct (gone (look name) proc).
Qed.

Lemma drop_disconnected_facts h :
  let w := drop_disconnected h in
  dom (wd_procs w) = dom (wd_procs (hl_watchdog h)) ∖ list_to_set (hl_disconnected h) /\
  (within_u8 (hl_watchdog h) -> within_u8 w).
Proof.
  unfold drop_disconnected. generalize (hl_watchdog h) as w. induction (hl_disconnected h) as [|n l IH];
    intros w; simpl; [split; [set_solver|done]|].
  destruct (IH (mk_Watchdog (delete n (wd_procs w)) (delete n (wd_missed_pongs w)))) as [-> Hw].
  split; [simpl; set_solver|]. intros H. by apply Hw, map_Forall_delete.
Qed.

Section watchdog.
Context `{R : Rtrb} `{J : SerdeJson} `{MM : forall V : Type, MultiMapLib V} `{HI : HashIter} {C : Type}.
Implicit Types (net : Network (C := C)).

Definition survivors (look : string -> Look) (w : Watchdog) : gmap string Watched :=
  filter (fun x => gone (look x.1) x.2 = false) (wd_procs w).

Lemma all_gone_elem look w n :
  n ∈ all_gone look (hash_iter (wd_procs w)) <->
  exists p, wd_procs w !! n = Some p /\ gone (look n) p = true.
Proof.
  unfold all_gone. rewrite list_elem_of_fmap. split.
  - intros ([k p] & -> & [Hg Hin]%list_elem_of_filter). exists p. by apply hash_iter_elem in Hin.
  - intros (p & Hin & Hg). exists (n, p). split; [done|]. apply list_elem_of_filter.
    by rewrite hash_iter_elem.
Qed.

Lemma hash_iter_empty {V} : hash_iter (∅ : gmap string V) = [].
Proof. apply Permutation_nil. by rewrite hash_iter_perm, map_to_list_empty. Qed.

(** A whole health check. *)
Lemma health_check_spec look w :
  match check_threads look (hash_iter (wd_procs w)) (mk_Health true [] w) with
  | Some h =>
      let w' := drop_disconnected h in
      dom (wd_procs w') = dom (survivors look w) /\
      (hl_ok h = true -> survivors look w = wd_procs w) /\
      (wd_procs w = ∅ -> hl_ok h = true) /\
      (within_u8 w -> within_u8 w')
  | None => exists n, n ∈ dom (wd_procs w) /\ ~ undisturbed (look n)
  end.
Proof.
  pose proof (check_threads_facts look (hash_iter (wd_procs w)) (mk_Health true [] w)) as H.
  destruct (check_threads _ _ _) as [h|] eqn:Hc.
  - destruct H as [Hp Hd Ho Hm]; [|destruct (drop_disconnected_facts h) as [Hdom Hw]].
    { apply Forall_forall. intros [n p]. rewrite hash_iter_elem. apply elem_of_dom_2. }
    simpl in *. split; [|split; [|split; [|auto]]].
    + rewrite Hdom, Hp, Hd. apply set_eq. intros n. unfold survivors.
      rewrite elem_of_difference, elem_of_list_to_set, all_gone_elem, !elem_of_dom. split.
      * intros [[p Hn] Hng]. exists p. apply map_lookup_filter_Some. split; [done|]. apply not_true_is_false.
        intros Hg. apply Hng. by exists p.
      * intros [p [Hn Hg]%map_lookup_filter_Some]. split; [by exists p|]. intros (q & Hq & ?). simpl in *. congruence.
    + intros Hok. destruct (Ho Hok) as [_ Hnone]. unfold survivors. apply map_filter_id. intros n p Hn.
      apply not_true_is_false. intros Hg. enough (n ∈ @nil string) by set_solver. rewrite <- Hnone.
      apply all_gone_elem. by exists p.
    + intros He. rewrite He, hash_iter_empty in Hc. simpl in Hc. by injection Hc as <-.
  - apply Exists_exists in H as ([n p] & Hin & Hu).
    + rewrite hash_iter_elem in Hin. exists n. split; [by eapply elem_of_dom_2|done].
    + apply Forall_forall. intros [n p]. rewrite hash_iter_elem. apply elem_of_dom_2.
Qed.

(** Taking the network down. *)
Lemma shut_down_spec o net :
  let '(net', events, messages) := shut_down o net in
  messages = [network_stopped (wo_now o) (rt_status (net_runtime net'))] /\
  (forall g s, net_schedulers net' !! g = Some s -> running s = false) /\
  ((forall n, n ∈ rt_boundary_threads (net_runtime net) -> wo_finished o n = true) ->
   network_busy (net_runtime net') = false).
Proof.
  unfold shut_down.
  pose proof (stop_network_facts (wo_store o) (wo_scheduler_finished o) (wo_finished o) true net) as H.
  destruct (stop_network _ _ _ _ _) as [[r net'] events].
  destruct H as (Hok & Hbusy & _ & Hrun & _). split; [done|]. split; [exact Hrun|].
  intros Hfin. apply Hbusy, Hok. auto.
Qed.

(** A round of the watchdog stops the network only when every thread it
    watches is gone -- a thread that is slow to answer, or whose channel is
    full, never is, however often it misses -- and, when there was none to
    watch, only when all schedulers have ended.  The clients are then told, no
    scheduler is running, and if the boundary threads have ended the network
    can be started again.  In every other round the network is left alone:
    the watchdog goes on with the threads that are not gone, its counters
    within a byte, or it leaves because it is told to stop or because somebody
    else holds the runtime.  And when the last thread is gone, nobody stops
    the watchdog and the runtime is free, it does stop the network. *)
Theorem watchdog_round_spec o w net :
  let '(verdict, net', events, messages) := watchdog_round o w net in
  match verdict with
  | Watching w' => net' = net /\ events = [] /\ messages = [] /\
      dom (wd_procs w') = dom (survivors (wo_look o) w) /\ (within_u8 w -> within_u8 w')
  | Exits false => net' = net /\ events = [] /\ messages = [] /\
      (Exists (fun ip => told_to_stop (Some ip) = true) (wo_signals o) \/
       (exists n, n ∈ dom (wd_procs w) /\ ~ undisturbed (wo_look o n)) \/ wo_try_write o <> LockFree)
  | Exits true => survivors (wo_look o) w = ∅ /\
      (wd_procs w = ∅ -> rt_scheduler_threads (net_runtime net) <> ∅ /\
         forall n, n ∈ rt_scheduler_threads (net_runtime net) -> wo_scheduler_finished o n = true) /\
      messages = [network_stopped (wo_now o) (rt_status (net_runtime net'))] /\
      (forall g s, net_schedulers net' !! g = Some s -> running s = false) /\
      ((forall n, n ∈ rt_boundary_threads (net_runtime net) -> wo_finished o n = true) ->
       network_busy (net_runtime net') = false)
  end /\
  (Forall (fun ip => told_to_stop (Some ip) = false) (wo_signals o) ->
   (forall n, n ∈ dom (wd_procs w) -> undisturbed (wo_look o n)) -> wo_try_write o = LockFree ->
   wd_procs w <> ∅ -> survivors (wo_look o) w = ∅ -> verdict = Exits true).
Proof.
  unfold watchdog_round. destruct (existsb _ (wo_signals o)) eqn:Hsig.
  { apply existsb_exists in Hsig as (ip & Hin & Hs). split.
    - split_and!; try done. left. apply Exists_exists. exists ip. by rewrite list_elem_of_In.
    - rewrite Forall_forall. intros H. exfalso. specialize (H ip). rewrite list_elem_of_In in H.
      rewrite H in Hs; done. }
  pose proof (health_check_spec (wo_look o) w) as H.
  destruct (check_threads _ _ _) as [h|].
  2: { destruct H as (n & Hn & Hu). split; [split_and!; naive_solver|]. intros _ Hall. by destruct Hu; apply Hall. }
  destruct H as (Hdom & Hok & Hempty & Hw). destruct (_ || _) eqn:Hdown.
  - assert (survivors (wo_look o) w = ∅) as Hnone.
    { apply dom_empty_inv_L. rewrite <- Hdom. apply dom_empty_iff_L.
      apply orb_true_iff in Hdown as [[He _]%andb_true_iff|[_ He]%andb_true_iff]; by apply bool_decide_eq_true in He. }
    destruct (wo_try_write o) eqn:Hlock; try (split; [split_and!; try done; by right; right|done]).
    pose proof (shut_down_spec o net) as Hs. destruct (shut_down o net) as [[net' events] messages].
    destruct Hs as (Hm & Hrun & Hbusy). split; [|done]. split_and!; try done. intros He.
    rewrite (Hempty He), andb_false_l, orb_false_r in Hdown. apply andb_true_iff in Hdown as [_ Hdown].
    destruct (wo_try_read o); try done. apply andb_true_iff in Hdown as [Hn Hall]. split.
    + by apply negb_true_iff, bool_decide_eq_false in Hn.
    + intros n Hn'. rewrite forallb_forall in Hall. apply Hall. by rewrite <- list_elem_of_In, elem_of_elements.
  - split; [split_and!; try done|]. intros _ _ _ Hne Hnone. exfalso.
    apply orb_false_iff in Hdown as [_ Hdown]. rewrite (bool_decide_eq_true_2 (wd_procs _ = ∅)) in Hdown.
    + rewrite andb_true_r in Hdown. apply negb_false_iff, Hok in Hdown. congruence.
    + apply dom_empty_iff_L. by rewrite Hdom, Hnone, dom_empty_L.
Qed.
End watchdog.

(** * Witnesses *)
#[local] Existing Instance gmap_serde_json.
#[local] Existing Instance list_rtrb.
#[local] Existing Instance gmap_multimap.
#[local] Existing Instance sorted_hash_iter.

Definition demo_outports : list (string * ring) := [("A", ring_new 2); ("B", ring_new 2)].
Definition demo_pushed (a b : list string) (port : string) : list FbpMessage :=
  map from_str (if String.eqb port "A" then a else b).
Definition demo_rounds : list Round :=
  [mk_Round None (demo_pushed ["1"; "2"] ["x"]);
   mk_Round (Some (from_str "ping")) (demo_pushed ["3"] []);
   mk_Round (Some (from_str "stop")) (demo_pushed [] ["y"])].

Lemma graph_out_spec_witness :
  exists sends inports',
    graph_out "main" demo_rounds demo_outports = Done (sends, inports') /\
    delivered "A" sends = ["1"; "2"; "3"] /\ length sends = 8 /\
    ~ Exists (not_text demo_rounds) demo_outports.
Proof.
  pose proof (graph_out_spec "main" demo_rounds demo_outports) as H.
  assert (exists sends inports', graph_out "main" demo_rounds demo_outports = Done (sends, inports') /\
    delivered "A" sends = ["1"; "2"; "3"] /\ length sends = 8) as (sends & inports' & Hrun & Hd & Hl)
    by (vm_compute; do 2 eexists; split; [reflexivity|split; reflexivity]).
  exists sends, inports'. rewrite Hrun in H. split; [done|]. split; [done|]. split; [done|].
  destruct H as (_ & _ & _ & _ & Hn); [vm_compute; repeat constructor; set_solver| |exact Hn].
  repeat constructor; simpl; lia.
Defined.

(** The graph's output thread has ended. *)
Definition demo_world : World :=
  mk_World [] (fun _ => mk_Look None true NoAnswer) LockFree LockFree (fun _ => false) (fun _ => true) ∅ 9.
Definition demo_watchdog : Watchdog :=
  mk_Watchdog {["main-OUT" := mk_Watched (mk_sync_channel [] 2 true) false]} ∅.

Lemma watchdog_round_spec_witness :
  (watchdog_round demo_world demo_watchdog (demo_network true false)).1.1.1 = Exits true.
Proof.
  pose proof (watchdog_round_spec demo_world demo_watchdog (demo_network true false)) as H.
  destruct (watchdog_round demo_world demo_watchdog (demo_network true false))
    as [[[verdict net'] events] messages].
  apply (proj2 H); clear.
  - constructor.
  - intros n _. by split.
  - reflexivity.
  - intros Hw. apply (f_equal (lookup "main-OUT")) in Hw. discriminate Hw.
  - vm_compute. reflexivity.
Defined.
