(* ===== verification/Process.v ===== *)
(** The language in which the [process] functions of the components are
    written: a state monad over the component, the node context and what the
    call has done so far, with early [return], [break] out of a loop, unwinding,
    and [while] loops; its total-correctness rules; and the phases that the
    components repeat.

    While one component runs, no other component does (there is one scheduler
    thread), so the rings that a component holds change only through its own
    operations during a call. *)
From S2P Require Import Prelude Api Scheduler.
From Stdlib Require Strings.String.
From Stdlib Require Import NArith ZArith Lia.
From stdpp Require Import base list strings gmap.
Local Open Scope string_scope.
Local Open Scope list_scope.

(** * Programs *)

(** How a piece of code ends other than by falling through. *)
Inductive exit : Type :=
| Break
| Return (r : ProcessResult)
| Unwind.

(** A call under way: [self], [context], the local variable [work_units], the
    effects so far, and how often the clock has been read. *)
Record frame (C : Type) : Type := mk_frame {
  fr_self : C;
  fr_ctx : NodeContext;
  fr_work : N;
  fr_effects : list Effect;
  fr_reads : nat
}.
Arguments mk_frame {C}.
Arguments fr_self {C}.
Arguments fr_ctx {C}.
Arguments fr_work {C}.
Arguments fr_effects {C}.
Arguments fr_reads {C}.

(** [None]: a loop has run out of fuel. *)
Definition proc (C A : Type) : Type := frame C -> option (frame C * (A + exit)).

#[export] Instance proc_ret {C} : MRet (proc C) := fun A a f => Some (f, inl a).
#[export] Instance proc_bind {C} : MBind (proc C) := fun A B k m f =>
  match m f with
  | None => None
  | Some (f', inl a) => k a f'
  | Some (f', inr e) => Some (f', inr e)
  end.

(** A field of the component. *)
Record lens (C F : Type) : Type := mk_lens { get : C -> F; set : F -> C -> C }.
Arguments mk_lens {C F}.
Arguments get {C F}.
Arguments set {C F}.

Section programs.
Context {C : Type}.

Definition leave {A} (e : exit) : proc C A := fun f => Some (f, inr e).
Definition break : proc C unit := leave Break.
Definition return_ {A} (r : ProcessResult) : proc C A := leave (Return r).
Definition panic {A} : proc C A := leave Unwind.

Definition with_self (c : C) (f : frame C) : frame C :=
  mk_frame c (fr_ctx f) (fr_work f) (fr_effects f) (fr_reads f).
Definition with_ctx (x : NodeContext) (f : frame C) : frame C :=
  mk_frame (fr_self f) x (fr_work f) (fr_effects f) (fr_reads f).

Definition read {F} (l : lens C F) : proc C F := fun f => Some (f, inl (get l (fr_self f))).
Definition write {F} (l : lens C F) (v : F) : proc C unit := fun f =>
  Some (with_self (set l v (fr_self f)) f, inl tt).

(** [context.remaining_budget] and [context.remaining_budget -= n] (u32). *)
Definition budget : proc C N := fun f => Some (f, inl (remaining_budget (fr_ctx f))).
Definition charge (n : N) : proc C unit := fun f =>
  Some (with_ctx (set_remaining_budget (u32_sub (remaining_budget (fr_ctx f)) n) (fr_ctx f)) f,
        inl tt).

(** [work_units += n] and the local itself. *)
Definition work (n : N) : proc C unit := fun f =>
  Some (mk_frame (fr_self f) (fr_ctx f) (fr_work f + n)%N (fr_effects f) (fr_reads f), inl tt).
Definition work_units : proc C N := fun f => Some (f, inl (fr_work f)).

Definition emit (es : list Effect) : proc C unit := fun f =>
  Some (mk_frame (fr_self f) (fr_ctx f) (fr_work f) (fr_effects f ++ es) (fr_reads f), inl tt).

(** [Instant::now()]: the next reading of the clock. *)
Definition now (clock : nat -> Instant) : proc C Instant := fun f =>
  Some (mk_frame (fr_self f) (fr_ctx f) (fr_work f) (fr_effects f) (S (fr_reads f)),
        inl (clock (fr_reads f))).

(** [context.wake_at(at)] and [context.take_timer_fired()]. *)
Definition wake_at_ (at_ : Instant) : proc C unit := fun f =>
  Some (with_ctx (ctx_wake_at at_ (fr_ctx f)) f, inl tt).
Definition timer_fired : proc C (option Instant) := fun f =>
  Some (with_ctx (take_timer_fired (fr_ctx f)).2 f, inl (take_timer_fired (fr_ctx f)).1).

(** [while cond { body }]: the fuel is computed when the loop is entered. *)
Fixpoint while_fuel (fuel : nat) (cond : frame C -> bool) (body : proc C unit) : proc C unit :=
  fun f =>
  if cond f then
    match fuel with
    | O => None
    | S fuel =>
        match body f with
        | None => None
        | Some (f', inl _) => while_fuel fuel cond body f'
        | Some (f', inr Break) => Some (f', inl tt)
        | Some (f', inr e) => Some (f', inr e)
        end
    end
  else Some (f, inl tt).

Definition while (fuel : frame C -> nat) (cond : frame C -> bool) (body : proc C unit) :
    proc C unit :=
  fun f => while_fuel (fuel f) cond body f.

(** A whole call: the component, the context and the result, [None] for an
    unwinding; a [break] outside a loop does not exist in Rust. *)
Definition call (body : proc C ProcessResult) (c : C) (ctx : NodeContext) :
    option (frame C * option ProcessResult) :=
  match body (mk_frame c ctx 0 [] 0) with
  | Some (f, inl r) | Some (f, inr (Return r)) => Some (f, Some r)
  | Some (f, inr Unwind) => Some (f, None)
  | Some (_, inr Break) | None => None
  end.
End programs.
Arguments with_self {C} c f /.
Arguments with_ctx {C} x f /.

(** * Total correctness *)
Section wp.
Context {C : Type}.
Implicit Types (f : frame C).

(** The code ends (no loop runs out of fuel), with [Q] if it falls through and
    [E] if it leaves. *)
Definition wp {A} (m : proc C A) (Q : A -> frame C -> Prop) (E : exit -> frame C -> Prop) f : Prop :=
  match m f with
  | None => False
  | Some (f', inl a) => Q a f'
  | Some (f', inr e) => E e f'
  end.

Lemma wp_conseq {A} (m : proc C A) (Q Q' : A -> frame C -> Prop) (E E' : exit -> frame C -> Prop) f :
  wp m Q E f -> (forall a f', Q a f' -> Q' a f') -> (forall e f', E e f' -> E' e f') -> wp m Q' E' f.
Proof. unfold wp. destruct (m f) as [[f' [a|e]]|]; eauto. Qed.

Lemma wp_ret {A} (a : A) Q E f : Q a f -> wp (mret a) Q E f.
Proof. done. Qed.

Lemma wp_bind {A B} (m : proc C A) (k : A -> proc C B) Q E f :
  wp m (fun a f' => wp (k a) Q E f') E f -> wp (m ≫= k) Q E f.
Proof. unfold wp, mbind, proc_bind. destruct (m f) as [[f' [a|e]]|]; eauto. Qed.

Lemma wp_unbind {A B} (m : proc C A) (k : A -> proc C B) Q E f :
  wp (m ≫= k) Q E f -> wp m (fun a f' => wp (k a) Q E f') E f.
Proof. unfold wp, mbind, proc_bind. destruct (m f) as [[f' [a|e]]|]; eauto. Qed.

Lemma wp_leave {A} e Q E f : E e f -> wp (leave e : proc C A) Q E f.
Proof. done. Qed.

Lemma wp_read {F} (l : lens C F) Q E f : Q (get l (fr_self f)) f -> wp (read l) Q E f.
Proof. done. Qed.

Lemma wp_write {F} (l : lens C F) v (Q : unit -> frame C -> Prop) E f :
  Q tt (with_self (set l v (fr_self f)) f) -> wp (write l v) Q E f.
Proof. done. Qed.

Lemma wp_budget Q E f : Q (remaining_budget (fr_ctx f)) f -> wp budget Q E f.
Proof. done. Qed.

Lemma wp_charge n (Q : unit -> frame C -> Prop) E f :
  (n <= remaining_budget (fr_ctx f))%N ->
  Q tt (with_ctx (set_remaining_budget (remaining_budget (fr_ctx f) - n)%N (fr_ctx f)) f) ->
  wp (charge n) Q E f.
Proof. intros Hn HQ. unfold wp, charge. by rewrite u32_sub_ge. Qed.

(** Whatever is left of the budget. *)
Lemma wp_charge_any n (Q : unit -> frame C -> Prop) E f :
  (forall ctx, Q tt (with_ctx ctx f)) -> wp (charge n) Q E f.
Proof. intros H. apply H. Qed.

Lemma wp_work n (Q : unit -> frame C -> Prop) E f :
  Q tt (mk_frame (fr_self f) (fr_ctx f) (fr_work f + n)%N (fr_effects f) (fr_reads f)) ->
  wp (work n) Q E f.
Proof. done. Qed.

Lemma wp_work_units Q E f : Q (fr_work f) f -> wp work_units Q E f.
Proof. done. Qed.

Lemma wp_emit es (Q : unit -> frame C -> Prop) E f :
  Q tt (mk_frame (fr_self f) (fr_ctx f) (fr_work f) (fr_effects f ++ es) (fr_reads f)) ->
  wp (emit es) Q E f.
Proof. done. Qed.

Lemma wp_now clock Q E f :
  Q (clock (fr_reads f))
    (mk_frame (fr_self f) (fr_ctx f) (fr_work f) (fr_effects f) (S (fr_reads f))) ->
  wp (now clock) Q E f.
Proof. done. Qed.

Lemma wp_wake_at t (Q : unit -> frame C -> Prop) E f :
  Q tt (with_ctx (ctx_wake_at t (fr_ctx f)) f) -> wp (wake_at_ t) Q E f.
Proof. done. Qed.

Lemma wp_timer_fired (Q : option Instant -> frame C -> Prop) E f :
  Q (timer_fired_at (fr_ctx f)) (with_ctx (set_timer_fired_at None (fr_ctx f)) f) ->
  wp timer_fired Q E f.
Proof. done. Qed.

(** The rule for loops: an invariant, and a measure that is below the fuel and
    decreases whenever the body falls through. *)
Lemma wp_while_fuel (I : frame C -> Prop) (m : frame C -> nat) cond body Q E fuel f :
  I f -> (m f < fuel)%nat ->
  (forall f, I f -> cond f = false -> Q tt f) ->
  (forall f, I f -> cond f = true ->
     wp body (fun _ f' => I f' /\ (m f' < m f)%nat)
        (fun e f' => match e with Break => Q tt f' | _ => E e f' end) f) ->
  wp (while_fuel fuel cond body) Q E f.
Proof.
  intros HI Hm Hexit Hbody. revert f HI Hm.
  induction fuel as [|fuel IH]; intros f HI Hm; [lia|].
  unfold wp. simpl. destruct (cond f) eqn:Hc; [|by apply Hexit].
  specialize (Hbody f HI Hc). unfold wp in Hbody.
  destruct (body f) as [[f' [[]|e]]|]; [|by destruct e|done].
  destruct Hbody as [HI' Hm']. apply IH; [done|lia].
Qed.

Lemma wp_while (I : frame C -> Prop) (m : frame C -> nat) fuel cond body Q E f :
  I f -> (m f < fuel f)%nat ->
  (forall f, I f -> cond f = false -> Q tt f) ->
  (forall f, I f -> cond f = true ->
     wp body (fun _ f' => I f' /\ (m f' < m f)%nat)
        (fun e f' => match e with Break => Q tt f' | _ => E e f' end) f) ->
  wp (while fuel cond body) Q E f.
Proof. apply wp_while_fuel. Qed.

(** A loop that runs at most once. *)
Lemma wp_while_once fuel cond (body : proc C unit) (Q : unit -> frame C -> Prop) E f :
  (0 < fuel f)%nat ->
  (cond f = false -> Q tt f) ->
  (cond f = true -> wp body (fun _ f' => cond f' = false /\ Q tt f')
     (fun e f' => match e with Break => Q tt f' | _ => E e f' end) f) ->
  wp (while fuel cond body) Q E f.
Proof.
  intros Hf H0 H1. unfold wp, while. destruct (fuel f) as [|n]; [lia|]. simpl.
  destruct (cond f); [|by apply H0]. specialize (H1 eq_refl). unfold wp in H1.
  destruct (body f) as [[g [[]|[]]]|]; try done.
  destruct H1 as [Hg HQ]. destruct n; simpl; by rewrite Hg.
Qed.

Lemma wp_call (body : proc C ProcessResult) c ctx (P : frame C -> option ProcessResult -> Prop) :
  wp body (fun r f => P f (Some r))
     (fun e f => match e with Return r => P f (Some r) | Unwind => P f None | Break => False end)
     (mk_frame c ctx 0 [] 0) ->
  exists f r, call body c ctx = Some (f, r) /\ P f r.
Proof.
  unfold wp, call. destruct (body _) as [[f [r|[|r|]]]|]; intros H; try done; eauto.
Qed.

(** A call that does not unwind. *)
Lemma wp_returns (body : proc C ProcessResult) c ctx (P : frame C -> ProcessResult -> Prop) :
  wp body (fun r f => P f r) (fun e f => match e with Return r => P f r | _ => False end)
     (mk_frame c ctx 0 [] 0) ->
  exists f r, call body c ctx = Some (f, Some r) /\ P f r.
Proof.
  unfold wp, call. destruct (body _) as [[f [r|[|r|]]]|]; intros H; try done; eauto.
Qed.
End wp.

(** * Partial correctness *)
Section wlp.
Context {C : Type}.
Implicit Types (f : frame C).

(** The same for code that need not end. *)
Definition wlp {A} (m : proc C A) (Q : A -> frame C -> Prop) (E : exit -> frame C -> Prop) f : Prop :=
  m f = None \/ wp m Q E f.

Lemma wlp_wp {A} (m : proc C A) Q E f : wp m Q E f -> wlp m Q E f.
Proof. by right. Qed.

Lemma wlp_diverge {A} (m : proc C A) Q E f : m f = None -> wlp m Q E f.
Proof. by left. Qed.

Lemma wlp_bind {A B} (m : proc C A) (k : A -> proc C B) Q E f :
  wlp m (fun a f' => wlp (k a) Q E f') E f -> wlp (m ≫= k) Q E f.
Proof.
  unfold wlp, wp, mbind, proc_bind. destruct (m f) as [[f' [a|e]]|]; [|naive_solver..].
  intros [|[H|H]]; [done|by left|by right].
Qed.

(** A first part that ends. *)
Lemma wlp_bind_wp {A B} (m : proc C A) (k : A -> proc C B) Q E f :
  wp m (fun a f' => wlp (k a) Q E f') E f -> wlp (m ≫= k) Q E f.
Proof. intros H. by apply wlp_bind, wlp_wp. Qed.

Lemma wlp_conseq {A} (m : proc C A) (Q Q' : A -> frame C -> Prop) (E E' : exit -> frame C -> Prop) f :
  wlp m Q E f -> (forall a f', Q a f' -> Q' a f') -> (forall e f', E e f' -> E' e f') -> wlp m Q' E' f.
Proof. intros [H|H] HQ HE; [by left|right]. by eapply wp_conseq. Qed.

(** Loops need no measure. *)
Lemma wlp_while (I : frame C -> Prop) fuel cond (body : proc C unit) Q E f :
  I f -> (forall f, I f -> cond f = false -> Q tt f) ->
  (forall f, I f -> cond f = true ->
     wlp body (fun _ f' => I f') (fun e f' => match e with Break => Q tt f' | _ => E e f' end) f) ->
  wlp (while fuel cond body) Q E f.
Proof.
  intros HI Hexit Hbody. unfold wlp, wp, while. generalize (fuel f) as n. intros n. revert f HI.
  induction n as [|n IH]; intros f HI; simpl; (destruct (cond f) eqn:Hc; [|right; by apply (Hexit f HI Hc)]).
  - by left.
  - specialize (Hbody f HI Hc). unfold wlp, wp in Hbody.
    destruct (body f) as [[f' [[]|e]]|]; [|by destruct e; right; destruct Hbody|by left].
    destruct Hbody as [|HI']; [done|]. by apply IH.
Qed.

Lemma wlp_call (body : proc C ProcessResult) c ctx (P : frame C -> option ProcessResult -> Prop) f r :
  wlp body (fun r f => P f (Some r))
     (fun e f => match e with Return r => P f (Some r) | Unwind => P f None | Break => True end)
     (mk_frame c ctx 0 [] 0) ->
  call body c ctx = Some (f, r) -> P f r.
Proof.
  unfold wlp, wp, call. destruct (body _) as [[g [x|[|x|]]]|]; intros [|H]; try done; by intros [= <- <-].
Qed.
End wlp.

(** Symbolic execution of the straight-line operations. *)
Ltac wp_step :=
  lazymatch goal with
  | |- wp (_ ≫= _) _ _ _ => apply wp_bind
  | |- wp (mret _) _ _ _ => apply wp_ret
  | |- wp (leave _) _ _ _ => apply wp_leave
  | |- wp break _ _ _ => apply wp_leave
  | |- wp (return_ _) _ _ _ => apply wp_leave
  | |- wp panic _ _ _ => apply wp_leave
  | |- wp (read _) _ _ _ => apply wp_read
  | |- wp (write _ _) _ _ _ => apply wp_write
  | |- wp budget _ _ _ => apply wp_budget
  | |- wp (work _) _ _ _ => apply wp_work
  | |- wp work_units _ _ _ => apply wp_work_units
  | |- wp (emit _) _ _ _ => apply wp_emit
  | |- wp (now _) _ _ _ => apply wp_now
  | |- wp (wake_at_ _) _ _ _ => apply wp_wake_at
  | |- wp timer_fired _ _ _ => apply wp_timer_fired
  | |- wp (charge _) _ _ _ => apply wp_charge; [try (simpl in *; lia)|]
  end.
Ltac wp_run := repeat (wp_step; simpl).
(** One operation of code that need not end. *)
Ltac wlp_step := lazymatch goal with
  | |- wlp (_ ≫= _) _ _ _ => apply wlp_bind_wp; wp_step
  | |- wlp _ _ _ _ => apply wlp_wp; wp_step
  end.
Ltac wlp_run := repeat (wlp_step; simpl).

(** * Ports and signals *)

(** Code written for a part of a component's fields, run on the component. *)
Definition zoom {C P A} (l : lens C P) (m : proc P A) : proc C A := fun f =>
  match m (mk_frame (get l (fr_self f)) (fr_ctx f) (fr_work f) (fr_effects f) (fr_reads f)) with
  | Some (g, x) =>
      Some (mk_frame (set l (fr_self g) (fr_self f)) (fr_ctx g) (fr_work g) (fr_effects g)
              (fr_reads g), x)
  | None => None
  end.

Lemma wp_zoom {C P A} (l : lens C P) (m : proc P A) Q E (f : frame C) :
  wp m (fun a g => Q a (mk_frame (set l (fr_self g) (fr_self f)) (fr_ctx g) (fr_work g)
                          (fr_effects g) (fr_reads g)))
       (fun e g => E e (mk_frame (set l (fr_self g) (fr_self f)) (fr_ctx g) (fr_work g)
                          (fr_effects g) (fr_reads g)))
     (mk_frame (get l (fr_self f)) (fr_ctx f) (fr_work f) (fr_effects f) (fr_reads f)) ->
  wp (zoom l m) Q E f.
Proof. unfold wp, zoom. by destruct (m _) as [[g [a|e]]|]. Qed.

Lemma wlp_zoom {C P A} (l : lens C P) (m : proc P A) Q E (f : frame C) :
  wlp m (fun a g => Q a (mk_frame (set l (fr_self g) (fr_self f)) (fr_ctx g) (fr_work g)
                          (fr_effects g) (fr_reads g)))
       (fun e g => E e (mk_frame (set l (fr_self g) (fr_self f)) (fr_ctx g) (fr_work g)
                          (fr_effects g) (fr_reads g)))
     (mk_frame (get l (fr_self f)) (fr_ctx f) (fr_work f) (fr_effects f) (fr_reads f)) ->
  wlp (zoom l m) Q E f.
Proof. intros [H|H]; [left; unfold zoom; by rewrite H|right; by apply wp_zoom]. Qed.

(** The frame of the part as a frame of the component. *)
Definition zoomed {C P} (l : lens C P) (c : C) (g : frame P) : frame C :=
  mk_frame (set l (fr_self g) c) (fr_ctx g) (fr_work g) (fr_effects g) (fr_reads g).

Lemma call_zoom {C P} (l : lens C P) (m : proc P ProcessResult) (c : C) ctx :
  call (zoom l m) c ctx =
  match call m (get l c) ctx with Some (g, r) => Some (zoomed l c g, r) | None => None end.
Proof. unfold call, zoom. simpl. by destruct (m _) as [[g [r|[|r|]]]|]. Qed.

Section ports.
Context `{R : Rtrb}.

(** [self.inn.pop().ok()], [self.out.push(m)], [self.inn.is_empty()],
    [self.inn.is_abandoned()]. *)
Definition pop {C} (l : lens C ring) : proc C (option FbpMessage) := fun f =>
  let r := ring_pop (get l (fr_self f)) in
  Some (with_self (set l r.2 (fr_self f)) f, inl r.1).

Definition send {C} (l : lens C ProcessEdgeSink) (m : FbpMessage) :
    proc C (result unit FbpMessage) := fun f =>
  let '(res, o, es) := push m (get l (fr_self f)) in
  Some (mk_frame (set l o (fr_self f)) (fr_ctx f) (fr_work f) (fr_effects f ++ es) (fr_reads f),
        inl res).

Definition is_empty {C} (l : lens C ring) : proc C bool := fun f =>
  Some (f, inl (ring_is_empty (get l (fr_self f)))).
Definition is_abandoned {C} (l : lens C ring) : proc C bool := fun f =>
  Some (f, inl (ring_is_abandoned (get l (fr_self f)))).

(** How many packets still fit behind a sink. *)
Definition room (o : ProcessEdgeSink) : nat := ring_cap (pes_sink o) - length (sink_items o).

(** What a call prints. *)
Definition prints (es : list Effect) : list string :=
  omap (fun e => match e with EffPrint s => Some s | _ => None end) es.

Lemma prints_app es1 es2 : prints (es1 ++ es2) = prints es1 ++ prints es2.
Proof. apply omap_app. Qed.

Lemma prints_push m o : prints (push m o).2 = [].
Proof.
  unfold push. destruct (ring_push _ _) as [[[]|] r]; [|done]. simpl. rewrite !prints_app.
  unfold push_trace, wake_scheduler. by repeat case_match.
Qed.

(** [ms] have been sent from [o] to [o'], with the effects [es]. *)
Record sent (ms : list FbpMessage) (o o' : ProcessEdgeSink) (es : list Effect) : Prop := mk_sent {
  sent_items : sink_items o' = sink_items o ++ ms;
  sent_cap : ring_cap (pes_sink o') = ring_cap (pes_sink o);
  sent_waker : pes_signal_ready o' = pes_signal_ready o;
  sent_wakes : ms <> [] -> forall w, pes_signal_ready o = Some w -> EffSignalReady w ∈ es;
  sent_abandoned : ring_is_abandoned (pes_sink o') = ring_is_abandoned (pes_sink o)
}.

(** [k] packets have been taken out of [r]. *)
Record taken (k : nat) (r r' : ring) : Prop := mk_taken {
  taken_items : ring_items r' = drop k (ring_items r);
  taken_cap : ring_cap r' = ring_cap r;
  taken_abandoned : ring_is_abandoned r' = ring_is_abandoned r
}.

Lemma sent_nil o : sent [] o o [].
Proof. split; [by rewrite app_nil_r|done..]. Qed.

Lemma sent_app ms1 ms2 o1 o2 o3 es1 es2 :
  sent ms1 o1 o2 es1 -> sent ms2 o2 o3 es2 -> sent (ms1 ++ ms2) o1 o3 (es1 ++ es2).
Proof.
  intros [I1 C1 W1 E1 A1] [I2 C2 W2 E2 A2]. split.
  - by rewrite I2, I1, app_assoc.
  - by rewrite C2.
  - by rewrite W2.
  - intros Hne w Hw. apply elem_of_app. destruct ms1 as [|m ms1].
    + right. apply E2; [done|]. by rewrite W1.
    + left. by apply E1.
  - by rewrite A2.
Qed.

Lemma sent_more ms o o' es es' : sent ms o o' es -> sent ms o o' (es ++ es').
Proof.
  intros [I C W E A]. split; try done. intros Hne w Hw. apply elem_of_app. left. by apply E.
Qed.

Lemma sent_room ms o o' es : sent ms o o' es -> room o' = (room o - length ms)%nat.
Proof. intros [I C _ _ _]. unfold room. rewrite C, I, length_app. lia. Qed.

Lemma taken_0 r : taken 0 r r.
Proof. by split. Qed.

Lemma taken_add j k r1 r2 r3 : taken j r1 r2 -> taken k r2 r3 -> taken (j + k) r1 r3.
Proof.
  intros [I1 C1 A1] [I2 C2 A2]. split.
  - by rewrite I2, I1, drop_drop.
  - by rewrite C2.
  - by rewrite A2.
Qed.

Lemma sink_full_room o : sink_full o = true <-> room o = 0%nat.
Proof. unfold sink_full, room. rewrite negb_true_iff, Nat.ltb_ge. lia. Qed.

Lemma sink_full_false o : sink_full o = false <-> (0 < room o)%nat.
Proof. unfold sink_full, room. rewrite negb_false_iff, Nat.ltb_lt. lia. Qed.

Lemma wp_pop {C} (l : lens C ring) (Q : option FbpMessage -> frame C -> Prop) E f :
  (ring_items (get l (fr_self f)) = [] -> forall r, taken 0 (get l (fr_self f)) r ->
     Q None (with_self (set l r (fr_self f)) f)) ->
  (forall m rest r, ring_items (get l (fr_self f)) = m :: rest -> taken 1 (get l (fr_self f)) r ->
     Q (Some m) (with_self (set l r (fr_self f)) f)) ->
  wp (pop l) Q E f.
Proof.
  intros H0 H1. unfold wp, pop. simpl.
  set (r := get l (fr_self f)) in *.
  pose proof (ring_pop_res r) as Hres. pose proof (ring_pop_items r) as Hitems.
  pose proof (ring_pop_cap r) as Hcap. pose proof (ring_pop_abandoned r) as Hab.
  destruct (ring_pop r) as [res r']; simpl in *. subst res.
  destruct (ring_items r) as [|m rest] eqn:Hr; simpl.
  - apply H0; [done|]. by split; rewrite ?Hr.
  - eapply H1; [done|]. by split; rewrite ?Hr.
Qed.

Lemma wp_send {C} (l : lens C ProcessEdgeSink) m (Q : result unit FbpMessage -> frame C -> Prop) E f :
  ((0 < room (get l (fr_self f)))%nat -> forall o es, sent [m] (get l (fr_self f)) o es ->
     prints es = [] -> Q (Ok tt) (mk_frame (set l o (fr_self f)) (fr_ctx f) (fr_work f) (fr_effects f ++ es)
                  (fr_reads f))) ->
  (room (get l (fr_self f)) = 0%nat -> forall o, sent [] (get l (fr_self f)) o [] ->
     Q (Err m) (mk_frame (set l o (fr_self f)) (fr_ctx f) (fr_work f) (fr_effects f) (fr_reads f))) ->
  wp (send l m) Q E f.
Proof.
  intros Hok Herr. unfold wp, send. pose proof (prints_push m (get l (fr_self f))) as Hpr.
  destruct (push_spec m (get l (fr_self f))) as (o & es & Hpush & Hi & Hc & Hw & Hfull & Hwake & Hab).
  rewrite Hpush in *. simpl in Hpr.
  destruct (sink_full _) eqn:Hf; simpl.
  - rewrite (Hfull eq_refl), app_nil_r. apply Herr; [by apply sink_full_room|].
    split; [by rewrite app_nil_r|done..].
  - apply Hok; [by apply sink_full_false| |done]. by split; auto.
Qed.

Lemma wp_is_abandoned {C} (l : lens C ring) (Q : bool -> frame C -> Prop) E f :
  Q (ring_is_abandoned (get l (fr_self f))) f -> wp (is_abandoned l) Q E f.
Proof. done. Qed.

Lemma wp_is_empty {C} (l : lens C ring) (Q : bool -> frame C -> Prop) E f :
  Q (bool_decide (ring_items (get l (fr_self f)) = [])) f -> wp (is_empty l) Q E f.
Proof.
  unfold wp, is_empty. rewrite ring_is_empty_spec.
  destruct (ring_items _); by intros.
Qed.

(** ** Signals *)

Record Signals : Type := mk_Signals { sig_in : sync_channel; sig_out : sync_channel }.

(** One check of the signal port: whether a "stop" was received. *)
Definition signal_stop (decode : FbpMessage -> option string) : proc Signals bool := fun f =>
  let '(stop, sin, sout) := poll_signal decode (sig_in (fr_self f)) (sig_out (fr_self f)) in
  Some (with_self (mk_Signals sin sout) f, inl stop).

(** The check of most components: "stop" finishes. *)
Definition poll (decode : FbpMessage -> option string) : proc Signals unit :=
  stop ← signal_stop decode;
  if (stop : bool) then return_ Finished else mret tt.

(** The text of a signal and whether it is "stop". *)
Definition is_stop (decode : FbpMessage -> option string) (m : FbpMessage) : Prop :=
  default "" (decode m) = "stop".

(** No "stop" is waiting. *)
Definition no_stop decode (s : Signals) : Prop :=
  Forall (fun m => ~ is_stop decode m) (sc_items (sig_in s)).

(** [s'] is [s] after some checks of the signal port. *)
Definition polled (s s' : Signals) : Prop :=
  exists k, sc_items (sig_in s') = drop k (sc_items (sig_in s)).

Lemma polled_refl s : polled s s.
Proof. by exists 0%nat. Qed.

Lemma polled_trans s1 s2 s3 : polled s1 s2 -> polled s2 s3 -> polled s1 s3.
Proof. intros [j H1] [k H2]. exists (j + k)%nat. by rewrite H2, H1, drop_drop. Qed.

Lemma polled_no_stop decode s s' : polled s s' -> no_stop decode s -> no_stop decode s'.
Proof. intros [k H] Hs. unfold no_stop. rewrite H. by apply Forall_drop. Qed.

(** A "stop" is the next signal. *)
Definition stop_next decode (s : Signals) : Prop :=
  exists m, head (sc_items (sig_in s)) = Some m /\ is_stop decode m.

Lemma stop_next_stop decode s : stop_next decode s -> ~ no_stop decode s.
Proof.
  intros (m & Hm & Hstop) Hs. unfold no_stop in Hs.
  destruct (sc_items (sig_in s)); simplify_eq/=. by apply Forall_cons in Hs as [? _].
Qed.

Lemma wp_signal_stop decode (Q : bool -> frame Signals -> Prop) E f :
  (~ stop_next decode (fr_self f) -> forall s, polled (fr_self f) s -> Q false (with_self s f)) ->
  (stop_next decode (fr_self f) -> forall s, polled (fr_self f) s -> Q true (with_self s f)) ->
  wp (signal_stop decode) Q E f.
Proof.
  intros HQ HE. unfold wp, signal_stop, poll_signal, try_recv, stop_next in *.
  destruct f as [[sin sout] ctx w es rd]; simpl in *.
  assert (forall sout', polled (mk_Signals sin sout)
            (mk_Signals (mk_sync_channel (tail (sc_items sin)) (sc_bound sin) (sc_rx_alive sin)) sout'))
    as Hp by (intros; exists 1%nat; simpl; by destruct (sc_items sin)).
  destruct (sc_items sin) as [|m ms] eqn:Hs; [apply HQ; [naive_solver|done]|]; simpl.
  destruct (String.eqb_spec (default "" (decode m)) "stop") as [Hstop|Hstop].
  - apply HE; [by exists m|by apply Hp].
  - destruct (String.eqb _ "ping"); (apply HQ; [naive_solver|apply Hp]).
Qed.

Lemma wp_poll decode (Q : unit -> frame Signals -> Prop) (E : exit -> frame Signals -> Prop) f :
  (~ stop_next decode (fr_self f) -> forall s, polled (fr_self f) s -> Q tt (with_self s f)) ->
  (stop_next decode (fr_self f) -> forall s, polled (fr_self f) s ->
     E (Return Finished) (with_self s f)) ->
  wp (poll decode) Q E f.
Proof.
  intros HQ HE. unfold poll. apply wp_bind, wp_signal_stop; intros H s Hs; wp_run.
  - by apply HQ.
  - by apply HE.
Qed.

(** ** Packets waiting for room *)

Record Outbox : Type := mk_Outbox { ob_out : ProcessEdgeSink; ob_pending : list FbpMessage }.
Definition l_ob_out : lens Outbox ProcessEdgeSink :=
  mk_lens ob_out (fun o b => mk_Outbox o (ob_pending b)).
Definition l_ob_pending : lens Outbox (list FbpMessage) :=
  mk_lens ob_pending (fun p b => mk_Outbox (ob_out b) p).

(** [while context.remaining_budget > 0 && !pending.is_empty()]. *)
Definition flush : proc Outbox unit :=
  while (fun f => S (length (ob_pending (fr_self f))))
    (fun f => (0 <? remaining_budget (fr_ctx f))%N
              && negb (bool_decide (ob_pending (fr_self f) = [])))
    (p ← read l_ob_pending;
     match head p with
     | Some ip =>
         r ← send l_ob_out ip;
         match r with
         | Ok _ => write l_ob_pending (tail p);; work 1;; charge 1
         | Err _ => break
         end
     | None => mret tt
     end).

(** How many packets a call can move: as many as there are, as fit behind the
    sink and as the budget allows. *)
Definition movable (b : N) (o : ProcessEdgeSink) (k : nat) : nat :=
  N.to_nat (b `min` N.of_nat (room o `min` k)).

(** The messages [ms] have been offered to an outport: those that fitted were
    sent, the others wait behind [q]. *)
Record offered (ms : list FbpMessage) (o : ProcessEdgeSink) (q : list FbpMessage)
    (o' : ProcessEdgeSink) (q' : list FbpMessage) (es : list Effect) : Prop := mk_offered {
  of_sent : sent (take (room o) ms) o o' es;
  of_kept : q' = q ++ drop (room o) ms
}.

Lemma offered_nil o q : offered [] o q o q [].
Proof. split; [rewrite take_nil; apply sent_nil|by rewrite drop_nil, app_nil_r]. Qed.

Lemma offered_more ms o q o' q' es es' : offered ms o q o' q' es -> offered ms o q o' q' (es ++ es').
Proof. intros [Hs Hq]. split; [by apply sent_more|done]. Qed.

Lemma offered_snoc ms m o q o1 q1 es o2 es' :
  offered ms o q o1 q1 es ->
  sent (if decide (0 < room o1)%nat then [m] else []) o1 o2 es' ->
  offered (ms ++ [m]) o q o2 (q1 ++ (if decide (0 < room o1)%nat then [] else [m])) (es ++ es').
Proof.
  intros [Hs ->] Hm. pose proof (sent_room _ _ _ _ Hs) as Hroom. rewrite length_take in Hroom.
  destruct (decide (0 < room o1)%nat) as [Hfree|Hfull].
  - rewrite (take_ge ms) in Hs by lia. rewrite (drop_ge ms) by lia.
    split; rewrite ?take_ge, ?drop_ge by (rewrite length_app; simpl; lia); [by eapply sent_app|by rewrite !app_nil_r].
  - split; [|rewrite drop_app_le by lia; by rewrite <- app_assoc].
    rewrite take_app_le by lia. rewrite <- (app_nil_r (take _ ms)). by eapply sent_app.
Qed.

(** Nothing is lost or overtaken. *)
Lemma offered_all ms o q o' q' es :
  offered ms o q o' q' es -> sink_items o' ++ drop (length q) q' = sink_items o ++ ms.
Proof.
  intros [[Hi _ _ _ _] ->]. by rewrite drop_app_length, Hi, <- app_assoc, take_drop.
Qed.

(** How many packets a call takes from an inport with [items], when [q] wait:
    those it sends, and one more when it finds the outport full. *)
Definition intake (b : N) (o : ProcessEdgeSink) (q items : nat) : nat :=
  let n := movable b o (q + items) in
  if (N.of_nat n <? b)%N then Nat.min (S (n - q)) items else (n - q)%nat.

Lemma drop_cons {A} (l : list A) j x rest :
  drop j l = x :: rest -> l !! j = Some x /\ drop (S j) l = rest.
Proof.
  intros H. split.
  - rewrite <- (Nat.add_0_r j), <- lookup_drop, H. done.
  - by rewrite <- Nat.add_1_r, <- drop_drop, H.
Qed.

Lemma set_remaining_budget_twice b1 b2 c :
  set_remaining_budget b1 (set_remaining_budget b2 c) = set_remaining_budget b1 c.
Proof. done. Qed.

Lemma set_remaining_budget_id c : set_remaining_budget (remaining_budget c) c = c.
Proof. by destruct c. Qed.

(** The frame of a call that has used [k] units and sent from its outbox. *)
Definition flushed (j : nat) (o : ProcessEdgeSink) (es : list Effect) (f : frame Outbox) :
    frame Outbox :=
  mk_frame (mk_Outbox o (drop j (ob_pending (fr_self f))))
    (set_remaining_budget (remaining_budget (fr_ctx f) - N.of_nat j) (fr_ctx f))
    (fr_work f + N.of_nat j) (fr_effects f ++ es) (fr_reads f).

Lemma wp_flush (Q : unit -> frame Outbox -> Prop) E f :
  (forall o es, let b := fr_self f in
     let n := movable (remaining_budget (fr_ctx f)) (ob_out b) (length (ob_pending b)) in
     sent (take n (ob_pending b)) (ob_out b) o es -> prints es = [] -> Q tt (flushed n o es f)) ->
  wp flush Q E f.
Proof.
  intros HQ. destruct f as [[o0 p0] ctx w0 es0 rd]; simpl in HQ.
  set (b0 := remaining_budget ctx) in *. set (f0 := mk_frame _ _ _ _ _).
  assert (forall j o es, (j <= length p0)%nat -> (j <= room o0)%nat -> (N.of_nat j <= b0)%N ->
            sent (take j p0) o0 o es -> prints es = [] ->
            (N.of_nat j = b0 \/ j = length p0 \/ j = room o0) -> Q tt (flushed j o es f0)) as Hend.
  { intros j o es Hp Hr Hb Hs Hpr Hmax.
    assert (j = movable b0 o0 (length p0)) as -> by (unfold movable; lia). by apply HQ. }
  apply (wp_while (fun f => exists j o es, f = flushed j o es f0
            /\ (j <= length p0)%nat /\ (j <= room o0)%nat /\ (N.of_nat j <= b0)%N
            /\ sent (take j p0) o0 o es /\ prints es = []) (fun f => length (ob_pending (fr_self f)))).
  - exists 0%nat, o0, []. unfold flushed; simpl.
    rewrite N.sub_0_r, N.add_0_r, app_nil_r, drop_0. unfold b0. rewrite set_remaining_budget_id.
    split_and!; [done|lia..|apply sent_nil|done].
  - simpl. lia.
  - intros f (j & o & es & -> & Hp & Hr & Hb & Hs & Hpr) Hc. apply (Hend j o es); auto.
    unfold flushed in Hc; simpl in Hc. apply andb_false_iff in Hc as [Hc|Hc].
    + apply N.ltb_ge in Hc. unfold b0 in *. lia.
    + apply negb_false_iff, bool_decide_eq_true in Hc.
      apply (f_equal length) in Hc. rewrite length_drop in Hc. simpl in Hc. lia.
  - intros f (j & o & es & -> & Hp & Hr & Hb & Hs & Hpr) Hc. unfold flushed in Hc |- *; simpl in Hc |- *.
    apply andb_true_iff in Hc as [Hc Hne]. apply N.ltb_lt in Hc.
    apply negb_true_iff, bool_decide_eq_false in Hne.
    destruct (drop j p0) as [|m rest] eqn:Hd; [done|]. clear Hne.
    apply drop_cons in Hd as [Hm Hd]. pose proof (lookup_lt_Some _ _ _ Hm) as Hj.
    pose proof (sent_room _ _ _ _ Hs) as Hroom. rewrite length_take in Hroom.
    wp_run. apply wp_send; simpl.
    + intros Hfree o' es' Hs' Hpr'. wp_run.
      split; [|apply (f_equal length) in Hd; rewrite length_drop in Hd; lia].
      exists (S j), o', (es ++ es'). unfold flushed; simpl. rewrite Hd, <- !app_assoc.
      split_and!; [|lia..|rewrite (take_S_r _ _ _ Hm); by eapply sent_app|by rewrite prints_app, Hpr].
      f_equal; [|lia]. rewrite set_remaining_budget_twice. f_equal. lia.
    + intros Hfull o' Hs'. wp_run.
      rewrite Hroom in Hfull. replace (mk_frame _ _ _ _ _) with (flushed j o' es f0).
      * apply Hend; [lia..| |done|right; right; lia].
        rewrite <- (app_nil_r es). eapply sent_app in Hs'; [|done]. by rewrite app_nil_r in Hs'.
      * unfold flushed; simpl. by rewrite (drop_S _ _ _ Hm), Hd.
Qed.

(** ** Forwarding the packets of an inport *)

Record Pipe : Type := mk_Pipe { p_in : ring; p_sig : Signals; p_box : Outbox }.
Definition l_p_in : lens Pipe ring := mk_lens p_in (fun r p => mk_Pipe r (p_sig p) (p_box p)).
Definition l_p_sig : lens Pipe Signals := mk_lens p_sig (fun s p => mk_Pipe (p_in p) s (p_box p)).
Definition l_p_box : lens Pipe Outbox := mk_lens p_box (fun b p => mk_Pipe (p_in p) (p_sig p) b).
Definition l_p_out : lens Pipe ProcessEdgeSink :=
  mk_lens (fun p => ob_out (p_box p))
    (fun o p => mk_Pipe (p_in p) (p_sig p) (mk_Outbox o (ob_pending (p_box p)))).
Definition l_p_pending : lens Pipe (list FbpMessage) :=
  mk_lens (fun p => ob_pending (p_box p))
    (fun q p => mk_Pipe (p_in p) (p_sig p) (mk_Outbox (ob_out (p_box p)) q)).

(** [while context.remaining_budget > 0]: check the signals, take a packet,
    transform it ([None]: the transformation unwinds) and send the result; a
    rejected one is kept and ends the loop. *)
Definition forward (decode : FbpMessage -> option string)
    (transform : FbpMessage -> option FbpMessage) : proc Pipe unit :=
  while (fun f => S (ring_slots (p_in (fr_self f))))
    (fun f => (0 <? remaining_budget (fr_ctx f))%N)
    (zoom l_p_sig (poll decode);;
     ip ← pop l_p_in;
     match ip with
     | Some ip =>
         match transform ip with
         | Some m =>
             r ← send l_p_out m;
             match r with
             | Ok _ => work 1;; charge 1
             | Err returned =>
                 p ← read l_p_pending;
                 write l_p_pending (p ++ [returned]);; break
             end
         | None => panic
         end
     | None => break
     end).

(** The frame of a call that has taken its packets from [f]'s inport, sent [k]
    and kept [extra]. *)
Definition forwarded (k : nat) (r : ring) (s : Signals) (o : ProcessEdgeSink)
    (extra : list FbpMessage) (es : list Effect) (f : frame Pipe) : frame Pipe :=
  mk_frame (mk_Pipe r s (mk_Outbox o (ob_pending (p_box (fr_self f)) ++ extra)))
    (set_remaining_budget (remaining_budget (fr_ctx f) - N.of_nat k) (fr_ctx f))
    (fr_work f + N.of_nat k) (fr_effects f ++ es) (fr_reads f).

Definition becomes (transform : FbpMessage -> option FbpMessage) : list FbpMessage -> list FbpMessage -> Prop :=
  Forall2 (fun i m => transform i = Some m).

(** What the loop has done after [k] packets. *)
Record progress (transform : FbpMessage -> option FbpMessage) (f : frame Pipe) (k : nat)
    (r : ring) (s : Signals) (o : ProcessEdgeSink) (es : list Effect) : Prop := mk_progress {
  pg_packets : (k <= length (ring_items (p_in (fr_self f))))%nat;
  pg_room : (k <= room (ob_out (p_box (fr_self f))))%nat;
  pg_budget : (N.of_nat k <= remaining_budget (fr_ctx f))%N;
  pg_taken : taken k (p_in (fr_self f)) r;
  pg_polled : polled (p_sig (fr_self f)) s;
  pg_sent : exists ms, becomes transform (take k (ring_items (p_in (fr_self f)))) ms
              /\ sent ms (ob_out (p_box (fr_self f))) o es
}.

Lemma progress_0 transform f :
  progress transform f 0 (p_in (fr_self f)) (p_sig (fr_self f)) (ob_out (p_box (fr_self f))) [].
Proof.
  split; [lia..|apply taken_0|apply polled_refl|].
  exists []. split; [constructor|apply sent_nil].
Qed.

Lemma progress_room transform f k r s o es :
  progress transform f k r s o es -> room o = (room (ob_out (p_box (fr_self f))) - k)%nat.
Proof.
  intros [Hp _ _ _ _ (ms & Hb & Hs)]. rewrite (sent_room _ _ _ _ Hs).
  apply Forall2_length in Hb. rewrite length_take in Hb. lia.
Qed.

Lemma progress_polled transform f k r s s' o es :
  progress transform f k r s o es -> polled s s' -> progress transform f k r s' o es.
Proof. intros [] Hp. split; try done. by eapply polled_trans. Qed.

Lemma progress_S transform f k r r' s o o' es es' i m :
  progress transform f k r s o es ->
  ring_items (p_in (fr_self f)) !! k = Some i -> transform i = Some m -> taken 1 r r' ->
  sent [m] o o' es' -> (0 < room o)%nat -> (N.of_nat k < remaining_budget (fr_ctx f))%N ->
  progress transform f (S k) r' s o' (es ++ es').
Proof.
  intros Hpg Hi Hm Ht Hs Hr Hb. pose proof (progress_room _ _ _ _ _ _ _ Hpg) as Hroom.
  destruct Hpg as [Hp Hro Hbu Hta Hpo (ms & Hbe & Hse)].
  apply lookup_lt_Some in Hi as Hlt. split; [lia..| |done|].
  - rewrite <- Nat.add_1_r. by eapply taken_add.
  - exists (ms ++ [m]). rewrite (take_S_r _ _ _ Hi). split; [|by eapply sent_app].
    apply Forall2_app; [done|]. by constructor.
Qed.

(** The packet that a call takes although there is no room for it. *)
Definition overflow (b : N) (k : nat) (items : list FbpMessage) : list FbpMessage :=
  if (N.of_nat k <? b)%N then take 1 (drop k items) else [].

(** How the loop ends. *)
Definition forward_ends decode transform (f : frame Pipe) (e : option exit) (f' : frame Pipe) : Prop :=
  let items := ring_items (p_in (fr_self f)) in
  let out := ob_out (p_box (fr_self f)) in
  let b := remaining_budget (fr_ctx f) in
  exists k r s o es extra, f' = forwarded k r s o extra es f
    /\ match e with
       | None => k = movable b out (length items) /\ becomes transform (overflow b k items) extra
                 /\ exists r0, progress transform f k r0 s o es /\ taken (length extra) r0 r
       | Some (Return Finished) =>
           ~ no_stop decode (p_sig (fr_self f)) /\ extra = [] /\ progress transform f k r s o es
       | Some Unwind =>
           extra = [] /\ exists r0 i, progress transform f k r0 s o es /\ taken 1 r0 r
             /\ items !! k = Some i /\ transform i = None /\ (N.of_nat k < b)%N
       | Some _ => False
       end.

Lemma forwarded_0 f : 
  f = forwarded 0 (p_in (fr_self f)) (p_sig (fr_self f)) (ob_out (p_box (fr_self f))) [] [] f.
Proof.
  destruct f as [[r s [o p]] c w es rd]. unfold forwarded; simpl.
  by rewrite N.sub_0_r, N.add_0_r, !app_nil_r, set_remaining_budget_id.
Qed.

(** One packet, after the signals have been checked. *)
Lemma forward_body decode transform (Q : unit -> frame Pipe -> Prop) (E : exit -> frame Pipe -> Prop)
    f k r s o es :
  (forall f', forward_ends decode transform f None f' -> Q tt f') ->
  (forall e f', forward_ends decode transform f (Some e) f' -> E e f') ->
  progress transform f k r s o es -> (0 < remaining_budget (fr_ctx f) - N.of_nat k)%N ->
  wp (ip ← pop l_p_in;
      match ip with
      | Some ip =>
          match transform ip with
          | Some m =>
              r ← send l_p_out m;
              match r with
              | Ok _ => work 1;; charge 1
              | Err returned =>
                  p ← read l_p_pending;
                  write l_p_pending (p ++ [returned]);; break
              end
          | None => panic
          end
      | None => break
      end)
    (fun _ f' => (exists k r s o es, f' = forwarded k r s o [] es f /\ progress transform f k r s o es)
                 /\ (length (ring_items (p_in (fr_self f'))) < length (ring_items r))%nat)
    (fun e f' => match e with Break => Q tt f' | _ => E e f' end)
    (forwarded k r s o [] es f).
Proof.
  intros HQ HE Hpg Hc. pose proof Hpg as [Hk Hro Hbu [Hr _ _] _ _].
  pose proof (progress_room _ _ _ _ _ _ _ Hpg) as Hroom.
  wp_run. apply wp_pop; simpl.
  - intros Hempty r' Hr'. rewrite Hempty in Hr. wp_run. apply HQ.
    symmetry in Hr. apply (f_equal length) in Hr. rewrite length_drop in Hr; simpl in Hr.
    exists k, r', s, o, es, []. split; [done|]. split; [unfold movable; lia|].
    unfold overflow. rewrite drop_ge by lia. split; [case_match; constructor|]. by exists r.
  - intros i rest r' Hi Hr'. rewrite Hi in Hr. symmetry in Hr.
    apply drop_cons in Hr as [Hik Hrest].
    destruct (transform i) as [m|] eqn:Ht.
    + wp_run. apply wp_send; simpl.
      * intros Hfree o' es' Hs' _. wp_run. split.
        -- exists (S k), r', s, o', (es ++ es'). split; [|eapply progress_S; try done; lia].
           unfold forwarded; simpl. rewrite <- !app_assoc. f_equal; [|lia].
           rewrite set_remaining_budget_twice. f_equal. lia.
        -- destruct Hr' as [-> _ _]. rewrite Hi. simpl. rewrite drop_0. lia.
      * intros Hfull o' Hs'. wp_run. apply HQ.
        exists k, r', s, o', es, [m]. split; [by unfold forwarded; simpl; rewrite app_nil_r|].
        split; [unfold movable; lia|]. unfold overflow. rewrite (proj2 (N.ltb_lt _ _)) by lia.
        rewrite (drop_S _ _ _ Hik). split; [by constructor|]. exists r. split; [|done].
        destruct Hpg as [? ? ? ? ? (ms & Hb & Hs)]. split; try done. exists ms. split; [done|].
        rewrite <- (app_nil_r ms), <- (app_nil_r es). by eapply sent_app.
    + wp_run. apply HE. exists k, r', s, o, es, []. split; [done|]. split; [done|].
      exists r, i. split_and!; try done. lia.
Qed.

Lemma wp_forward decode transform (Q : unit -> frame Pipe -> Prop) (E : exit -> frame Pipe -> Prop) f :
  (forall f', forward_ends decode transform f None f' -> Q tt f') ->
  (forall e f', forward_ends decode transform f (Some e) f' -> E e f') ->
  wp (forward decode transform) Q E f.
Proof.
  intros HQ HE. set (items := ring_items (p_in (fr_self f))) in *.
  set (b := remaining_budget (fr_ctx f)) in *. set (out := ob_out (p_box (fr_self f))) in *.
  apply (wp_while (fun g => exists k r s o es, g = forwarded k r s o [] es f
            /\ progress transform f k r s o es)
           (fun g => length (ring_items (p_in (fr_self g))))).
  - exists 0%nat, (p_in (fr_self f)), (p_sig (fr_self f)), out, []. split; [|apply progress_0].
    apply forwarded_0.
  - rewrite ring_slots_spec. lia.
  - intros g (k & r & s & o & es & -> & Hpg) Hc. apply N.ltb_ge in Hc. simpl in Hc.
    apply HQ. exists k, r, s, o, es, []. split; [done|]. pose proof Hpg as [Hk Hro Hbu _ _ _].
    assert (N.of_nat k = b) as Hkb by (unfold b in *; lia).
    unfold overflow. fold b. rewrite (proj2 (N.ltb_ge _ _)) by lia.
    split; [unfold movable; lia|]. split; [constructor|]. exists r. split; [done|apply taken_0].
  - intros g (k & r & s & o & es & -> & Hpg) Hc. apply N.ltb_lt in Hc. simpl in Hc. fold b in Hc.
    wp_run. apply wp_zoom, wp_poll; simpl.
    + intros _ s' Hs'. apply (progress_polled _ _ _ _ _ s') in Hpg; [|done]. clear Hs' s.
      wp_run. apply (forward_body decode); auto.
    + intros Hstop%stop_next_stop s' Hs'. apply HE. exists k, r, s', o, es, []. split; [done|].
      split; [|split; [done|by eapply progress_polled]].
      contradict Hstop. destruct Hpg as [_ _ _ _ Hpo _]. by eapply polled_no_stop.
Qed.
End ports.

(** * The context's flag

    No operation replaces the pointer to the node's ready flag. *)
Class Keeps {C A} (m : proc C A) : Prop :=
  keeps f f' x : m f = Some (f', x) -> ready_signal (fr_ctx f') = ready_signal (fr_ctx f).

#[export] Hint Extern 1 (Keeps (match ?x with _ => _ end)) => destruct x : typeclass_instances.

Section keeps.
Context `{R : Rtrb} {C : Type}.

#[export] Instance keeps_ret {A} (a : A) : Keeps (mret a : proc C A).
Proof. intros f f' x. by intros [= <- _]. Qed.
#[export] Instance keeps_leave {A} e : Keeps (leave e : proc C A).
Proof. intros f f' x. by intros [= <- _]. Qed.
#[export] Instance keeps_break : Keeps (break : proc C unit) := keeps_leave _.
#[export] Instance keeps_return {A} r : Keeps (return_ r : proc C A) := keeps_leave _.
#[export] Instance keeps_panic {A} : Keeps (panic : proc C A) := keeps_leave _.
#[export] Instance keeps_read {F} (l : lens C F) : Keeps (read l).
Proof. intros f f' x. by intros [= <- _]. Qed.
#[export] Instance keeps_write {F} (l : lens C F) v : Keeps (write l v).
Proof. intros f f' x. by intros [= <- _]. Qed.
#[export] Instance keeps_budget : Keeps (budget : proc C N).
Proof. intros f f' x. by intros [= <- _]. Qed.
#[export] Instance keeps_charge n : Keeps (charge n : proc C unit).
Proof. intros f f' x. by intros [= <- _]. Qed.
#[export] Instance keeps_work n : Keeps (work n : proc C unit).
Proof. intros f f' x. by intros [= <- _]. Qed.
#[export] Instance keeps_work_units : Keeps (work_units : proc C N).
Proof. intros f f' x. by intros [= <- _]. Qed.
#[export] Instance keeps_emit es : Keeps (emit es : proc C unit).
Proof. intros f f' x. by intros [= <- _]. Qed.
#[export] Instance keeps_now clock : Keeps (now clock : proc C Instant).
Proof. intros f f' x. by intros [= <- _]. Qed.
#[export] Instance keeps_wake_at t : Keeps (wake_at_ t : proc C unit).
Proof. intros f f' x. by intros [= <- _]. Qed.
#[export] Instance keeps_timer_fired : Keeps (timer_fired : proc C (option Instant)).
Proof. intros f f' x. by intros [= <- _]. Qed.
#[export] Instance keeps_pop (l : lens C ring) : Keeps (pop l).
Proof. intros f f' x. unfold pop. by intros [= <- _]. Qed.
#[export] Instance keeps_send (l : lens C ProcessEdgeSink) m : Keeps (send l m).
Proof. intros f f' x. unfold send. destruct (push _ _) as [[? ?] ?]. by intros [= <- _]. Qed.
#[export] Instance keeps_is_empty (l : lens C ring) : Keeps (is_empty l).
Proof. intros f f' x. by intros [= <- _]. Qed.
#[export] Instance keeps_is_abandoned (l : lens C ring) : Keeps (is_abandoned l).
Proof. intros f f' x. by intros [= <- _]. Qed.
#[export] Instance keeps_signal_stop decode : Keeps (signal_stop decode).
Proof.
  intros f f' x. unfold signal_stop. destruct (poll_signal _ _ _) as [[? ?] ?]. by intros [= <- _].
Qed.

#[export] Instance keeps_bind {A B} (m : proc C A) (k : A -> proc C B) :
  Keeps m -> (forall a, Keeps (k a)) -> Keeps (m ≫= k).
Proof.
  intros Hm Hk f f' x. unfold mbind, proc_bind. destruct (m f) as [[g [a|e]]|] eqn:Hg; [| |done].
  - intros H%Hk. by rewrite H, (Hm _ _ _ Hg).
  - intros [= <- _]. by eapply Hm.
Qed.

#[export] Instance keeps_while fuel cond (body : proc C unit) :
  Keeps body -> Keeps (while fuel cond body).
Proof.
  intros Hb f f' x. unfold while. generalize (fuel f) as n. intros n. revert f.
  induction n as [|n IH]; intros f; simpl; destruct (cond f); try done; try by intros [= <- _].
  destruct (body f) as [[g [[]|e]]|] eqn:Hg; [| |done]; pose proof (Hb _ _ _ Hg) as Heq.
  - intros H%IH. by rewrite H.
  - destruct e; by intros [= <- _].
Qed.

#[export] Instance keeps_zoom {P A} (l : lens C P) (m : proc P A) : Keeps m -> Keeps (zoom l m).
Proof.
  intros Hm f f' x. unfold zoom. destruct (m _) as [[g y]|] eqn:Hg; [|done].
  intros [= <- _]. simpl. by rewrite (Hm _ _ _ Hg).
Qed.
End keeps.

#[export] Instance keeps_poll `{R : Rtrb} decode : Keeps (poll decode).
Proof. unfold poll. apply _. Qed.

(** A call as the scheduler sees it; [t] is the time it takes and the clock
    afterwards. *)
Definition run_call {C} (body : proc C ProcessResult) (t : Duration * Instant) (c : C)
    (ctx : NodeContext) : process_run C :=
  match call body c ctx with
  | Some (f, r) => mk_process_run (fr_self f) (fr_ctx f) (fr_effects f) t.1 t.2 r
  | None => mk_process_run c ctx [] t.1 t.2 None
  end.

Lemma run_call_keeps {C} (body : proc C ProcessResult) `{!Keeps body} t c ctx :
  ready_signal (pr_context (run_call body t c ctx)) = ready_signal ctx.
Proof.
  unfold run_call, call. destruct (body _) as [[f [r|[|r|]]]|] eqn:Hb; try done;
    by apply keeps in Hb.
Qed.

(** A component whose [process] is such a program; [timing] gives the time of
    each call. *)
Definition component_of {C} (body : proc C ProcessResult) `{!Keeps body}
    (timing : C -> NodeContext -> Duration * Instant) : Component C := {|
  process := fun c ctx => run_call body (timing c ctx) c ctx;
  process_keeps_flag := fun c ctx => run_call_keeps body (timing c ctx) c ctx
|}.

Ltac movable_lia := unfold movable in *; lia.

(** * Ports for concrete runs *)
#[local] Existing Instance list_rtrb.

Definition demo_channel : sync_channel := mk_sync_channel [] 2 true.
Definition demo_ring (abandoned : bool) (items : list FbpMessage) : list_ring :=
  mk_list_ring items 8 abandoned.
Definition demo_out (cap : nat) : ProcessEdgeSink :=
  new_edge_sink (ring_new cap) None None (Some "consumer").
Definition demo_context (c : BudgetClass) (b : N) : NodeContext :=
  set_remaining_budget b (new_node_context "node" c 1%positive 0).
