(* ===== verification/Pipes.v ===== *)
(** The components that keep what does not fit behind the outport: [Repeat],
    [Trim], [Output] and [TextReplace], their state, [new] and [process]. *)
From S2P Require Import Prelude Api Scheduler Process.
From Stdlib Require Strings.String.
From Stdlib Require Import NArith ZArith Lia Strings.Byte Strings.Ascii.
From stdpp Require Import base list strings gmap.
Local Open Scope string_scope.
Local Open Scope list_scope.
Local Open Scope flowd_scope.

(** * Text operations of the standard library *)

(** The characters with the Unicode property White_Space, by the length of
    their UTF-8 encoding. *)
Definition ws1 (a : byte) : bool := byte_in 9 13 a || byte_in 32 32 a.
Definition ws2 (a b : byte) : bool :=
  byte_in 194 194 a && (byte_in 133 133 b || byte_in 160 160 b).
Definition ws3 (a b c : byte) : bool :=
  (byte_in 225 225 a && byte_in 154 154 b && byte_in 128 128 c)
  || (byte_in 226 226 a && byte_in 128 128 b
      && (byte_in 128 138 c || byte_in 168 169 c || byte_in 175 175 c))
  || (byte_in 226 226 a && byte_in 129 129 b && byte_in 159 159 c)
  || (byte_in 227 227 a && byte_in 128 128 b && byte_in 128 128 c).

(** Dropping leading white space, for one of the two directions. *)
Fixpoint strip (w2 : byte -> byte -> bool) (w3 : byte -> byte -> byte -> bool) (bs : list byte) :
    list byte :=
  match bs with
  | [] => []
  | a :: r1 =>
      if ws1 a then strip w2 w3 r1 else
      match r1 with
      | [] => bs
      | b :: r2 =>
          if w2 a b then strip w2 w3 r2 else
          match r2 with
          | [] => bs
          | c :: r3 => if w3 a b c then strip w2 w3 r3 else bs
          end
      end
  end.

Definition trim_start (bs : list byte) : list byte := strip ws2 ws3 bs.
Definition trim_end (bs : list byte) : list byte :=
  rev (strip (fun b a => ws2 a b) (fun c b a => ws3 a b c) (rev bs)).

(** [str::trim]. *)
Definition str_trim (s : string) : string :=
  String.string_of_list_byte (trim_end (trim_start (string_bytes s))).

Example str_trim_example :
  str_trim (String (Ascii.ascii_of_nat 9) " a b " ++ String (Ascii.ascii_of_nat 10) "")%string = "a b".
Proof. reflexivity. Qed.

(** [text.replace(from, to)] for a pattern that is not empty: [skip] bytes of
    the last match are still to be passed over. *)
Fixpoint replace_from (from to : string) (skip : nat) (s : string) : string :=
  match s with
  | EmptyString => EmptyString
  | String c r =>
      match skip with
      | S skip => replace_from from to skip r
      | O =>
          if String.prefix from s
          then (to ++ replace_from from to (String.length from - 1) r)%string
          else String c (replace_from from to 0 r)
      end
  end.

(** An empty pattern matches at every character boundary. *)
Fixpoint replace_empty (to s : string) : string :=
  match s with
  | EmptyString => to
  | String c r =>
      let n := Ascii.N_of_ascii c in
      if ((128 <=? n) && (n <=? 191))%N then String c (replace_empty to r)
      else (to ++ String c (replace_empty to r))%string
  end.

Definition str_replace (from to s : string) : string :=
  if String.eqb from "" then replace_empty to s else replace_from from to 0 s.

Example str_replace_example : str_replace "aa" "b" "aaaxa" = "baxa".
Proof. reflexivity. Qed.
Example str_replace_empty_example : str_replace "" "-" "ab" = "-a-b-".
Proof. reflexivity. Qed.

(** * Ports *)
Section components.
Context `{R : Rtrb}.

(** [ports.remove(name).expect(..).pop().unwrap()]: the last channel of the
    port; the others are dropped. *)
Definition take_port {V} `{MultiMapLib V} (name : string) (ports : multimap V) :
    outcome (V * multimap V) :=
  let '(vs, ports) := mm_remove name ports in
  let* vs := expect vs in
  let* v := expect (last vs) in
  Done (v, ports).

(** The result of [process] for a component that has done [w] units. *)
Definition result_of_work (w : N) : ProcessResult :=
  if (0 <? w)%N then DidWork w else NoWork.

(** [process] in Repeat and Trim: first the packets that had no room, then the
    signals, then the inport. *)
Definition pipe_process (transform : FbpMessage -> option FbpMessage) :
    proc Pipe ProcessResult :=
  zoom l_p_box flush;;
  zoom l_p_sig (poll as_text);;
  forward as_text transform;;
  abandoned ← is_abandoned l_p_in;
  pending ← read l_p_pending;
  if abandoned && bool_decide (pending = []) then return_ Finished
  else w ← work_units; mret (result_of_work w).

(** * Repeat *)

Record RepeatComponent : Type := mk_RepeatComponent {
  rp_inn : ring;
  rp_out : ProcessEdgeSink;
  rp_signals_in : sync_channel;
  rp_signals_out : sync_channel;
  rp_pending_out : list FbpMessage
}.

Definition new_repeat `{MultiMapLib ring} `{MultiMapLib ProcessEdgeSink}
    (inports : multimap ring) (outports : multimap ProcessEdgeSink)
    (signals_in signals_out : sync_channel) : outcome RepeatComponent :=
  let* (inn, inports) := take_port "IN" inports in
  let* (out, outports) := take_port "OUT" outports in
  Done (mk_RepeatComponent inn out signals_in signals_out []).

Definition rp_pipe : lens RepeatComponent Pipe := mk_lens
  (fun c => mk_Pipe (rp_inn c) (mk_Signals (rp_signals_in c) (rp_signals_out c))
              (mk_Outbox (rp_out c) (rp_pending_out c)))
  (fun p _ => mk_RepeatComponent (p_in p) (ob_out (p_box p)) (sig_in (p_sig p)) (sig_out (p_sig p))
                (ob_pending (p_box p))).

Definition repeat_process : proc RepeatComponent ProcessResult :=
  zoom rp_pipe (pipe_process Some).

(** * Trim *)

Record TrimComponent : Type := mk_TrimComponent {
  tr_inn : ring;
  tr_out : ProcessEdgeSink;
  tr_signals_in : sync_channel;
  tr_signals_out : sync_channel;
  tr_pending_out : list FbpMessage
}.

Definition new_trim `{MultiMapLib ring} `{MultiMapLib ProcessEdgeSink}
    (inports : multimap ring) (outports : multimap ProcessEdgeSink)
    (signals_in signals_out : sync_channel) : outcome TrimComponent :=
  let* (inn, inports) := take_port "IN" inports in
  let* (out, outports) := take_port "OUT" outports in
  Done (mk_TrimComponent inn out signals_in signals_out []).

Definition tr_pipe : lens TrimComponent Pipe := mk_lens
  (fun c => mk_Pipe (tr_inn c) (mk_Signals (tr_signals_in c) (tr_signals_out c))
              (mk_Outbox (tr_out c) (tr_pending_out c)))
  (fun p _ => mk_TrimComponent (p_in p) (ob_out (p_box p)) (sig_in (p_sig p)) (sig_out (p_sig p))
                (ob_pending (p_box p))).

(** [ip.as_text().expect(..)], trimmed and sent as a text. *)
Definition trim_message (ip : FbpMessage) : option FbpMessage :=
  match as_text ip with
  | Some text => Some (from_str (str_trim text))
  | None => None
  end.

Definition trim_process : proc TrimComponent ProcessResult :=
  zoom tr_pipe (pipe_process trim_message).

(** * Loops that keep what is rejected and go on

    The loop of Output and TextReplace: [note] is what it does with a packet
    before it sends the result. *)
Definition buffering (decode : FbpMessage -> option string) (note : FbpMessage -> list Effect)
    (transform : FbpMessage -> option FbpMessage) : proc Pipe unit :=
  while (fun f => S (ring_slots (p_in (fr_self f))))
    (fun f => (0 <? remaining_budget (fr_ctx f))%N)
    (zoom l_p_sig (poll decode);;
     ip ← pop l_p_in;
     match ip with
     | Some ip =>
         match transform ip with
         | Some m =>
             emit (note ip);;
             r ← send l_p_out m;
             match r with
             | Ok _ => work 1;; charge 1
             | Err returned =>
                 p ← read l_p_pending;
                 write l_p_pending (p ++ [returned]);; work 1;; charge 1
             end
         | None => panic
         end
     | None => break
     end).

(** A whole call of such a component; with the producer gone it finishes, a
    patient one only when nothing waits. *)
Definition keeping_pipe (patient : bool) (decode : FbpMessage -> option string)
    (transform : FbpMessage -> option FbpMessage) : proc Pipe ProcessResult :=
  zoom l_p_sig (poll decode);;
  zoom l_p_box flush;;
  buffering decode (fun _ => nil) transform;;
  abandoned ← is_abandoned l_p_in;
  pending ← read l_p_pending;
  if (abandoned : bool) && (negb patient || bool_decide (pending = [])) then return_ Finished
  else w ← work_units; mret (result_of_work w).

(** * Output *)

(** [message_as_utf8] of the Output component. *)
Definition output_message_as_utf8 (message : FbpMessage) : option string :=
  match message with
  | Text text => Some text
  | Bytes bytes => from_utf8 bytes
  | Value (VText text) => Some text
  | Value (VBytes bytes) => from_utf8 bytes
  | _ => None
  end.

Record OutputComponent : Type := mk_OutputComponent {
  ou_inn : ring;
  ou_out : ProcessEdgeSink;
  ou_signals_in : sync_channel;
  ou_signals_out : sync_channel;
  ou_pending_packets : list FbpMessage
}.

Definition new_output `{MultiMapLib ring} `{MultiMapLib ProcessEdgeSink}
    (inports : multimap ring) (outports : multimap ProcessEdgeSink)
    (signals_in signals_out : sync_channel) : outcome OutputComponent :=
  let* (inn, inports) := take_port "IN" inports in
  let* (out, outports) := take_port "OUT" outports in
  Done (mk_OutputComponent inn out signals_in signals_out []).

Definition ou_pipe : lens OutputComponent Pipe := mk_lens
  (fun c => mk_Pipe (ou_inn c) (mk_Signals (ou_signals_in c) (ou_signals_out c))
              (mk_Outbox (ou_out c) (ou_pending_packets c)))
  (fun p _ => mk_OutputComponent (p_in p) (ob_out (p_box p)) (sig_in (p_sig p)) (sig_out (p_sig p))
                (ob_pending (p_box p))).

(** [println!] of the packet's text; other packets are only logged. *)
Definition println (ip : FbpMessage) : list Effect :=
  match output_message_as_utf8 ip with Some text => [EffPrint text] | None => [] end.

Definition output_pipe : proc Pipe ProcessResult :=
  zoom l_p_sig (poll output_message_as_utf8);;
  zoom l_p_box flush;;
  buffering output_message_as_utf8 println Some;;
  w ← work_units;
  if (0 <? w)%N then mret (DidWork w)
  else
    abandoned ← is_abandoned l_p_in;
    if (abandoned : bool) then return_ Finished else mret NoWork.

Definition output_process : proc OutputComponent ProcessResult := zoom ou_pipe output_pipe.

(** * TextReplace *)

Record TextReplaceComponent : Type := mk_TextReplaceComponent {
  tx_conf : ring;
  tx_inn : ring;
  tx_out : ProcessEdgeSink;
  tx_signals_in : sync_channel;
  tx_signals_out : sync_channel;
  tx_replacements : list (string * string);
  tx_config_complete : bool;
  tx_pending_packets : list FbpMessage
}.

Definition new_text_replace `{MultiMapLib ring} `{MultiMapLib ProcessEdgeSink}
    (inports : multimap ring) (outports : multimap ProcessEdgeSink)
    (signals_in signals_out : sync_channel) : outcome TextReplaceComponent :=
  let* (conf, inports) := take_port "CONF" inports in
  let* (inn, inports) := take_port "IN" inports in
  let* (out, outports) := take_port "OUT" outports in
  Done (mk_TextReplaceComponent conf inn out signals_in signals_out [] false []).

Definition tx_l_conf : lens TextReplaceComponent ring := mk_lens tx_conf
  (fun r c => mk_TextReplaceComponent r (tx_inn c) (tx_out c) (tx_signals_in c) (tx_signals_out c)
                (tx_replacements c) (tx_config_complete c) (tx_pending_packets c)).
Definition tx_l_replacements : lens TextReplaceComponent (list (string * string)) :=
  mk_lens tx_replacements
  (fun l c => mk_TextReplaceComponent (tx_conf c) (tx_inn c) (tx_out c) (tx_signals_in c)
                (tx_signals_out c) l (tx_config_complete c) (tx_pending_packets c)).
Definition tx_l_config_complete : lens TextReplaceComponent bool := mk_lens tx_config_complete
  (fun b c => mk_TextReplaceComponent (tx_conf c) (tx_inn c) (tx_out c) (tx_signals_in c)
                (tx_signals_out c) (tx_replacements c) b (tx_pending_packets c)).
Definition tx_pipe : lens TextReplaceComponent Pipe := mk_lens
  (fun c => mk_Pipe (tx_inn c) (mk_Signals (tx_signals_in c) (tx_signals_out c))
              (mk_Outbox (tx_out c) (tx_pending_packets c)))
  (fun p c => mk_TextReplaceComponent (tx_conf c) (p_in p) (ob_out (p_box p)) (sig_in (p_sig p))
                (sig_out (p_sig p)) (tx_replacements c) (tx_config_complete c)
                (ob_pending (p_box p))).

(** The replacements, one after the other. *)
Definition apply_replacements (rs : list (string * string)) (text : string) : string :=
  fold_left (fun text r => str_replace r.1 r.2 text) rs text.

Definition replace_message (rs : list (string * string)) (ip : FbpMessage) : option FbpMessage :=
  match as_text ip with
  | Some text => Some (from_str (apply_replacements rs text))
  | None => None
  end.

(** Reading pairs of packets from CONF. *)
Definition read_replacements : proc TextReplaceComponent unit :=
  while (fun f => S (ring_slots (tx_conf (fr_self f))))
    (fun f => (2 <=? ring_slots (tx_conf (fr_self f)))%nat)
    (from ← pop tx_l_conf;
     to ← pop tx_l_conf;
     match from, to with
     | Some from, Some to =>
         match as_text from, as_text to with
         | Some from_str, Some to_str =>
             rs ← read tx_l_replacements;
             write tx_l_replacements (rs ++ [(from_str, to_str)])
         | _, _ => panic
         end
     | _, _ => break
     end).

Definition text_replace_pipe (rs : list (string * string)) : proc Pipe ProcessResult :=
  keeping_pipe false as_text (replace_message rs).

Definition text_replace_process : proc TextReplaceComponent ProcessResult :=
  complete ← read tx_l_config_complete;
  (if (complete : bool) then mret tt
   else
     read_replacements;;
     abandoned ← is_abandoned tx_l_conf;
     if (abandoned : bool) then write tx_l_config_complete true
     else
       rs ← read tx_l_replacements;
       if bool_decide (rs = []) then return_ NoWork else mret tt);;
  rs ← read tx_l_replacements;
  zoom tx_pipe (text_replace_pipe rs).

(** * The components as the scheduler runs them *)

#[export] Instance keeps_repeat : Keeps repeat_process.
Proof. unfold repeat_process, pipe_process, flush, forward. apply _. Qed.
#[export] Instance keeps_trim : Keeps trim_process.
Proof. unfold trim_process, pipe_process, flush, forward. apply _. Qed.

#[export] Instance keeps_output : Keeps output_process.
Proof. unfold output_process, output_pipe, flush, buffering. apply _. Qed.
#[export] Instance keeps_text_replace : Keeps text_replace_process.
Proof.
  unfold text_replace_process, read_replacements, text_replace_pipe, keeping_pipe, flush, buffering. apply _.
Qed.

Definition repeat_component := component_of repeat_process.
Definition trim_component := component_of trim_process.
Definition output_component := component_of output_process.
Definition text_replace_component := component_of text_replace_process.
End components.
