(* ===== verification/PipesTheorems.v ===== *)
(** What one call of [process] does, for the components of [Pipes]. *)
From S2P Require Import Prelude Api Scheduler SchedulerProofs Process Pipes.
From Stdlib Require Strings.String.
From Stdlib Require Import NArith ZArith Lia Strings.Byte Strings.Ascii.
From stdpp Require Import base list strings gmap.
Local Open Scope string_scope.
Local Open Scope list_scope.
Local Open Scope flowd_scope.


(** * Trimming *)

(** The encoding of one white-space character, for one of the directions. *)
Definition ws_char (w2 : byte -> byte -> bool) (w3 : byte -> byte -> byte -> bool) (cs : list byte) : bool :=
  match cs with
  | [a] => ws1 a
  | [a; b] => w2 a b
  | [a; b; c] => w3 a b c
  | _ => false
  end.

(** A sequence of white-space characters. *)
Definition white (bs : list byte) : Prop :=
  exists cs, bs = concat cs /\ Forall (fun c => ws_char ws2 ws3 c = true) cs.

Definition starts_ws (w2 : byte -> byte -> bool) (w3 : byte -> byte -> byte -> bool)
    (bs : list byte) : bool :=
  match bs with
  | a :: b :: c :: _ => ws1 a || w2 a b || w3 a b c
  | [a; b] => ws1 a || w2 a b
  | [a] => ws1 a
  | [] => false
  end.

Lemma strip_spec w2 w3 bs :
  exists cs, bs = concat cs ++ strip w2 w3 bs /\ Forall (fun c => ws_char w2 w3 c = true) cs /\
    starts_ws w2 w3 (strip w2 w3 bs) = false.
Proof.
  remember (length bs) as n eqn:Hn. revert bs Hn.
  induction (lt_wf n) as [n _ IH]. intros bs ->.
  assert (forall c r, bs = c ++ r -> ws_char w2 w3 c = true ->
    strip w2 w3 bs = strip w2 w3 r ->
    exists cs, bs = concat cs ++ strip w2 w3 bs /\ Forall (fun c => ws_char w2 w3 c = true) cs /\
      starts_ws w2 w3 (strip w2 w3 bs) = false) as Hstep.
  { intros c r -> Hc Hr. destruct (IH (length r)) with (bs := r) as (cs & H1 & H2 & H3); [|done|].
    - rewrite length_app. destruct c; [done|]. simpl. lia.
    - exists (c :: cs). rewrite Hr. split_and!; [|by constructor|done].
      simpl. by rewrite <- app_assoc, <- H1. }
  assert (strip w2 w3 bs = bs -> starts_ws w2 w3 bs = false ->
    exists cs, bs = concat cs ++ strip w2 w3 bs /\ Forall (fun c => ws_char w2 w3 c = true) cs /\
      starts_ws w2 w3 (strip w2 w3 bs) = false) as Hend.
  { intros H1 H2. exists []. by rewrite H1. }
  destruct bs as [|a [|b [|c r]]]; [by apply Hend| | |].
  - destruct (ws1 a) eqn:H1; [apply (Hstep [a] []); simpl; by rewrite ?H1|].
    apply Hend; simpl; by rewrite H1.
  - destruct (ws1 a) eqn:H1; [apply (Hstep [a] [b]); simpl; by rewrite ?H1|].
    destruct (w2 a b) eqn:H2; [apply (Hstep [a; b] []); simpl; by rewrite ?H1, ?H2|].
    apply Hend; simpl; by rewrite H1, H2.
  - destruct (ws1 a) eqn:H1; [apply (Hstep [a] (b :: c :: r)); simpl; by rewrite ?H1|].
    destruct (w2 a b) eqn:H2; [apply (Hstep [a; b] (c :: r)); simpl; by rewrite ?H1, ?H2|].
    destruct (w3 a b c) eqn:H3; [apply (Hstep [a; b; c] r); simpl; by rewrite ?H1, ?H2, ?H3|].
    apply Hend; simpl; by rewrite H1, H2, ?H3.
Qed.

Lemma starts_ws_prefix w2 w3 bs r : starts_ws w2 w3 (bs ++ r) = false -> starts_ws w2 w3 bs = false.
Proof.
  destruct bs as [|a [|b [|c bs]]]; simpl; try done;
    destruct r as [|x [|y r]]; simpl; rewrite ?orb_false_iff; tauto.
Qed.

Lemma concat_rev (cs : list (list byte)) : rev (concat cs) = concat (map (@rev byte) (rev cs)).
Proof.
  induction cs as [|c cs IH]; [done|]. simpl.
  rewrite rev_app_distr, IH, map_app, concat_app. simpl. by rewrite app_nil_r.
Qed.

(** [u] is [s] without the white space around it. *)
Record trimmed (s u : string) : Prop := mk_trimmed {
  tm_around : exists l r, string_bytes s = l ++ string_bytes u ++ r /\ white l /\ white r;
  tm_start : starts_ws ws2 ws3 (string_bytes u) = false;
  tm_end : starts_ws (fun b a => ws2 a b) (fun c b a => ws3 a b c) (rev (string_bytes u)) = false
}.

Lemma str_trim_spec s : trimmed s (str_trim s).
Proof.
  unfold str_trim, trim_end, trim_start. set (bs := string_bytes s).
  destruct (strip_spec ws2 ws3 bs) as (cs & H1 & H2 & H3). set (u := strip ws2 ws3 bs) in *.
  destruct (strip_spec (fun b a => ws2 a b) (fun c b a => ws3 a b c) (rev u)) as (ds & K1 & K2 & K3).
  set (v := strip _ _ (rev u)) in *.
  assert (string_bytes (String.string_of_list_byte (rev v)) = rev v) as Hv
    by apply String.list_byte_of_string_of_list_byte.
  assert (u = rev v ++ rev (concat ds)) as Hu.
  { by rewrite <- rev_app_distr, <- K1, rev_involutive. }
  split.
  - exists (concat cs), (rev (concat ds)). rewrite Hv, <- Hu. split_and!; [done|by exists cs|].
    exists (map (@rev byte) (rev ds)). split; [apply concat_rev|].
    apply Forall_map, Forall_rev. eapply Forall_impl; [exact K2|].
    intros [|a [|b [|c [|d r]]]] Hc; simpl in *; try done.
  - rewrite Hv. rewrite Hu in H3. by eapply starts_ws_prefix.
  - by rewrite Hv, rev_involutive.
Qed.

Section pipes.
Context `{R : Rtrb}.

(** A call that has sent [n] packets and taken [j] turned [p] into [p']. *)
Record piped (transform : FbpMessage -> option FbpMessage) (p : Pipe) (n j : nat) (p' : Pipe)
    (es : list Effect) : Prop := mk_piped {
  pp_taken : taken j (p_in p) (p_in p');
  pp_polled : polled (p_sig p) (p_sig p');
  pp_sent : exists ms, becomes transform (take j (ring_items (p_in p))) ms
    /\ sent (take n (ob_pending (p_box p) ++ ms)) (ob_out (p_box p)) (ob_out (p_box p')) es
    /\ ob_pending (p_box p') = drop n (ob_pending (p_box p) ++ ms)
}.

(** How the call ends: [None] for the regular end. *)
Definition pipe_ends transform (f : frame Pipe) (e : option exit) (f' : frame Pipe) : Prop :=
  let p := fr_self f in
  let b := remaining_budget (fr_ctx f) in
  let q := length (ob_pending (p_box p)) in
  let items := ring_items (p_in p) in
  let most := movable b (ob_out (p_box p)) (q + length items) in
  exists n j p' es,
    f' = mk_frame p' (set_remaining_budget (b - N.of_nat n) (fr_ctx f)) (fr_work f + N.of_nat n)
           (fr_effects f ++ es) (fr_reads f) /\
    match e with
    | None => n = most /\ j = intake b (ob_out (p_box p)) q (length items)
              /\ piped transform p n j p' es
    | Some (Return Finished) =>
        ~ no_stop as_text (p_sig p) /\ (n <= most)%nat /\ j = (n - q)%nat
        /\ piped transform p n j p' es
    | Some Unwind =>
        exists r i, (n <= most)%nat /\ (N.of_nat n < b)%N /\ j = (n - q)%nat
        /\ piped transform p n j (mk_Pipe r (p_sig p') (p_box p')) es /\ taken 1 r (p_in p')
        /\ items !! j = Some i /\ transform i = None
    | Some _ => False
    end.

Lemma split_sent {A} (n k : nat) (q ms extra : list A) :
  (n <= length q)%nat -> length ms = k -> (k = 0 \/ n = length q)%nat ->
  take (n + k) (q ++ ms ++ extra) = take n q ++ ms /\
  drop (n + k) (q ++ ms ++ extra) = drop n q ++ extra.
Proof.
  intros Hn Hms [-> | ->].
  - apply length_zero_iff_nil in Hms as ->. rewrite Nat.add_0_r, app_nil_r. simpl.
    by rewrite take_app_le, drop_app_le.
  - rewrite take_app_add, drop_app_add, (take_ge q), (drop_ge q) by done.
    by rewrite take_app_length', drop_app_length'.
Qed.

Lemma overflow_length b k items :
  length (overflow b k items) =
  (if (N.of_nat k <? b)%N then Nat.min 1 (length items - k) else 0)%nat.
Proof. unfold overflow. destruct (_ <? _)%N; [|done]. by rewrite length_take, length_drop. Qed.

Lemma overflow_take b k items n :
  n = length (overflow b k items) -> overflow b k items = take n (drop k items).
Proof.
  intros ->. rewrite overflow_length. unfold overflow. destruct (_ <? _)%N; [|done].
  destruct (drop k items) as [|x r] eqn:Hd; [by rewrite !take_nil|].
  apply (f_equal length) in Hd. rewrite length_drop in Hd. simpl in Hd.
  by replace (Nat.min 1 _) with 1%nat by lia.
Qed.

(** The packets of the loop after those of the outbox. *)
Lemma piped_progress transform inn s0 out q b n (g : frame Pipe) s o es k r s' o' es' r' extra :
  n = movable b out (length q) ->
  fr_self g = mk_Pipe inn s (mk_Outbox o (drop n q)) ->
  remaining_budget (fr_ctx g) = (b - N.of_nat n)%N ->
  polled s0 s -> sent (take n q) out o es ->
  progress transform g k r s' o' es' ->
  becomes transform (take (length extra) (drop k (ring_items inn))) extra ->
  taken (length extra) r r' ->
  piped transform (mk_Pipe inn s0 (mk_Outbox out q)) (n + k) (k + length extra)
    (mk_Pipe r' s' (mk_Outbox o' (drop n q ++ extra))) (es ++ es').
Proof.
  intros Hn Hself Hb Hpo Hse [Hk Hro Hbu Hta Hpo' (ms & Hbe & Hse')] Hex Hta'.
  rewrite Hself, ?Hb in *; simpl in *.
  pose proof (sent_room _ _ _ _ Hse) as Hroom. rewrite length_take in Hroom.
  assert (n <= length q)%nat as Hnq by movable_lia.
  assert (length ms = k) as Hms.
  { apply Forall2_length in Hbe. rewrite length_take in Hbe. lia. }
  assert (k = 0 \/ n = length q)%nat as Hor by movable_lia.
  destruct (split_sent n k q ms extra Hnq Hms Hor) as [Ht Hd].
  split; simpl.
  - by eapply taken_add.
  - by eapply polled_trans.
  - exists (ms ++ extra). rewrite Ht, Hd. split_and!; [|by eapply sent_app|done].
    rewrite <- take_take_drop. by apply Forall2_app.
Qed.

Lemma piped_progress_nil transform inn s0 out q b n (g : frame Pipe) s o es k r s' o' es' :
  n = movable b out (length q) ->
  fr_self g = mk_Pipe inn s (mk_Outbox o (drop n q)) ->
  remaining_budget (fr_ctx g) = (b - N.of_nat n)%N ->
  polled s0 s -> sent (take n q) out o es ->
  progress transform g k r s' o' es' ->
  piped transform (mk_Pipe inn s0 (mk_Outbox out q)) (n + k) (k + 0)
    (mk_Pipe r s' (mk_Outbox o' (drop n q ++ []))) (es ++ es').
Proof.
  intros Hn Hg Hb Hpo Hse Hpg.
  apply (piped_progress _ _ _ _ _ _ _ _ _ _ _ _ _ _ _ _ _ [] Hn Hg Hb Hpo Hse Hpg);
    [constructor|apply taken_0].
Qed.

(** The state after [flush] and the first signal check, as the start of the
    loop. *)
Lemma forward_pipe transform (f : frame Pipe) s o es e f' :
  let p := fr_self f in
  let q := ob_pending (p_box p) in
  let n := movable (remaining_budget (fr_ctx f)) (ob_out (p_box p)) (length q) in
  polled (p_sig p) s -> sent (take n q) (ob_out (p_box p)) o es ->
  forward_ends as_text transform
    (mk_frame (mk_Pipe (p_in p) s (mk_Outbox o (drop n q)))
       (set_remaining_budget (remaining_budget (fr_ctx f) - N.of_nat n) (fr_ctx f))
       (fr_work f + N.of_nat n) (fr_effects f ++ es) (fr_reads f)) e f' ->
  pipe_ends transform f e f'.
Proof.
  destruct f as [[inn s0 [out q]] ctx w0 es0 rd]. cbn -[pipe_ends]. unfold pipe_ends. cbn.
  intros Hpo Hse (k & r & s' & o' & es' & extra & -> & He); cbn in *.
  remember (movable (remaining_budget ctx) out (length q)) as n eqn:Hn.
  pose proof (sent_room _ _ _ _ Hse) as Hroom. rewrite length_take in Hroom.
  assert (n <= length q)%nat as Hnq by movable_lia.
  exists (n + k)%nat, (k + length extra)%nat, (mk_Pipe r s' (mk_Outbox o' (drop n q ++ extra))),
    (es ++ es').
  split.
  { unfold forwarded; simpl. rewrite set_remaining_budget_twice, <- app_assoc.
    f_equal; [f_equal|]; lia. }
  destruct e as [[|[| |]|]|]; try done.
  - destruct He as (Hstop & -> & Hpg).
    pose proof Hpg as [Hk Hro Hbu _ _ _]; simpl in *.
    split_and!; [by contradict Hstop; eapply polled_no_stop| | |].
    + movable_lia.
    + movable_lia.
    + by eapply piped_progress_nil; [exact Hn| | |exact Hpo|exact Hse|exact Hpg|..].
  - destruct He as (-> & r0 & i & Hpg & Hr0 & Hi & Ht & Hb).
    pose proof Hpg as [Hk Hro Hbu _ _ _]; simpl in *. apply lookup_lt_Some in Hi as Hlt.
    exists r0, i. simpl.
    split_and!; [| | | |done|by rewrite Nat.add_0_r|done].
    + movable_lia.
    + lia.
    + movable_lia.
    + by eapply piped_progress_nil; [exact Hn| | |exact Hpo|exact Hse|exact Hpg|..].
  - destruct He as (-> & Hex & r0 & Hpg & Hr0).
    pose proof Hpg as [Hk Hro Hbu _ _ _]; simpl in *.
    assert (n + movable (remaining_budget ctx - N.of_nat n) o (length (ring_items inn)) =
            movable (remaining_budget ctx) out (length q + length (ring_items inn)))%nat as Hmost
      by movable_lia.
    remember (movable (remaining_budget ctx - N.of_nat n) o (length (ring_items inn))) as k eqn:Hkdef.
    pose proof (Forall2_length _ _ _ Hex) as Hlen. rewrite overflow_length in Hlen.
    split_and!; [done| |].
    + rewrite <- Hlen. unfold intake. rewrite <- Hmost.
      assert (n + k - length q = k)%nat as -> by (clear Hlen Hmost; movable_lia).
      clear Hmost Hkdef Hn Hlen.
      destruct (N.ltb_spec (N.of_nat k) (remaining_budget ctx - N.of_nat n));
        destruct (N.ltb_spec (N.of_nat (n + k)) (remaining_budget ctx)); lia.
    + eapply piped_progress; [exact Hn| | |exact Hpo|exact Hse|exact Hpg| |exact Hr0]; [done..|].
      rewrite (overflow_take _ _ _ (length extra)) in Hex; [done|].
      by rewrite overflow_length.
Qed.

(** A "stop" found by the first signal check. *)
Lemma stopped_pipe transform (f : frame Pipe) s o es :
  let p := fr_self f in
  let q := ob_pending (p_box p) in
  let n := movable (remaining_budget (fr_ctx f)) (ob_out (p_box p)) (length q) in
  polled (p_sig p) s -> ~ no_stop as_text (p_sig p) -> sent (take n q) (ob_out (p_box p)) o es ->
  pipe_ends transform f (Some (Return Finished))
    (mk_frame (mk_Pipe (p_in p) s (mk_Outbox o (drop n q)))
       (set_remaining_budget (remaining_budget (fr_ctx f) - N.of_nat n) (fr_ctx f))
       (fr_work f + N.of_nat n) (fr_effects f ++ es) (fr_reads f)).
Proof.
  destruct f as [[inn s0 [out q]] ctx w0 es0 rd]. cbn -[pipe_ends]. unfold pipe_ends. cbn.
  intros Hpo Hstop Hse. remember (movable (remaining_budget ctx) out (length q)) as n eqn:Hn.
  set (p' := mk_Pipe inn s (mk_Outbox o (drop n q))). exists n, 0%nat, p', es.
  split_and!; [done|done|movable_lia|movable_lia|].
  split; [apply taken_0|done|]. exists []. rewrite app_nil_r. by split; [constructor|].
Qed.

(** One call ends in one of these ways. *)
Lemma call_pipe transform (p : Pipe) ctx :
  exists f r e, call (pipe_process transform) p ctx = Some (f, r) /\
    pipe_ends transform (mk_frame p ctx 0 [] 0) e f /\
    r = match e with
        | None => Some (if ring_is_abandoned (p_in p) && bool_decide (ob_pending (p_box (fr_self f)) = [])
                        then Finished else result_of_work (fr_work f))
        | Some (Return r) => Some r
        | Some _ => None
        end.
Proof.
  destruct (wp_call (pipe_process transform) p ctx (fun f r => exists e,
    pipe_ends transform (mk_frame p ctx 0 [] 0) e f /\
    r = match e with
        | None => Some (if ring_is_abandoned (p_in p) && bool_decide (ob_pending (p_box (fr_self f)) = [])
                        then Finished else result_of_work (fr_work f))
        | Some (Return r) => Some r
        | Some _ => None
        end)) as (f & r & Hcall & e & He & Hr); [|by exists f, r, e].
  set (f0 := mk_frame p ctx 0 [] 0).
  apply wp_bind, wp_zoom, wp_flush. intros o es b n Hsent _.
  assert (forall s e f', polled (p_sig p) s -> forward_ends as_text transform
    (mk_frame (mk_Pipe (p_in p) s (mk_Outbox o (drop n (ob_pending b))))
       (set_remaining_budget (remaining_budget ctx - N.of_nat n) ctx)
       (0 + N.of_nat n) ([] ++ es) 0) e f' -> pipe_ends transform f0 e f') as Hends.
  { intros s e f' Hs He. by eapply (forward_pipe transform f0). }
  wp_run. apply wp_zoom, wp_poll; simpl.
  - intros _ s Hs. wp_run. apply wp_forward; simpl.
    + intros f' He. pose proof (Hends _ _ _ Hs He) as Hp. wp_run. apply wp_is_abandoned. wp_run.
      assert (ring_is_abandoned (p_in (fr_self f')) = ring_is_abandoned (p_in p)) as ->.
      { destruct Hp as (m & j & p' & es' & -> & _ & _ & [[_ _ Ha] _ _]). done. }
      destruct (_ && _) eqn:Hab; wp_run; exists None; by rewrite Hab.
    + intros e f' He. pose proof (Hends _ _ _ Hs He) as Hp.
      destruct e as [|r|]; [by destruct Hp as (? & ? & ? & ? & _ & [])| |]; by eexists.
  - intros Hstop%stop_next_stop s Hs. exists (Some (Return Finished)). split; [|done].
    by apply (stopped_pipe transform f0 s o es).
Qed.

(** A call that finds a "stop" waiting finishes without touching the inport. *)
Lemma call_pipe_stop transform (p : Pipe) ctx :
  stop_next as_text (p_sig p) ->
  let q := ob_pending (p_box p) in
  let n := movable (remaining_budget ctx) (ob_out (p_box p)) (length q) in
  exists f, call (pipe_process transform) p ctx = Some (f, Some Finished) /\
    p_in (fr_self f) = p_in p /\ ob_pending (p_box (fr_self f)) = drop n q /\
    sink_items (ob_out (p_box (fr_self f))) = sink_items (ob_out (p_box p)) ++ take n q.
Proof.
  intros Hstop q n.
  destruct (wp_call (pipe_process transform) p ctx (fun f r => r = Some Finished /\
    p_in (fr_self f) = p_in p /\ ob_pending (p_box (fr_self f)) = drop n q /\
    sink_items (ob_out (p_box (fr_self f))) = sink_items (ob_out (p_box p)) ++ take n q))
    as (f & r & Hcall & -> & H); [|by exists f].
  apply wp_bind, wp_zoom, wp_flush. intros o es b n' [Hi _ _ _ _] _.
  wp_run. apply wp_zoom, wp_poll; simpl; [done|]. by intros _ s Hs.
Qed.

(** The contract of a call, by its result. *)
Record pipe_run transform (p : Pipe) ctx (f : frame Pipe) (r : ProcessResult) (n j : nat) : Prop :=
  mk_pipe_run {
  pr_piped : piped transform p n j (fr_self f) (fr_effects f);
  pr_ctx : fr_ctx f = set_remaining_budget (remaining_budget ctx - N.of_nat n) ctx;
  pr_stop : stop_next as_text (p_sig p) -> r = Finished /\ p_in (fr_self f) = p_in p;
  pr_quiet : no_stop as_text (p_sig p) ->
    n = movable (remaining_budget ctx) (ob_out (p_box p))
          (length (ob_pending (p_box p)) + length (ring_items (p_in p))) /\
    j = intake (remaining_budget ctx) (ob_out (p_box p)) (length (ob_pending (p_box p)))
          (length (ring_items (p_in p))) /\
    r = (if ring_is_abandoned (p_in p) && bool_decide (ob_pending (p_box (fr_self f)) = [])
         then Finished else result_of_work (N.of_nat n))
}.

Record pipe_unwinds transform (p : Pipe) ctx (f : frame Pipe) (n j : nat) (i : FbpMessage) : Prop :=
  mk_pipe_unwinds {
  pu_piped : exists r, piped transform p n j (mk_Pipe r (p_sig (fr_self f)) (p_box (fr_self f)))
               (fr_effects f) /\ taken 1 r (p_in (fr_self f));
  pu_packet : ring_items (p_in p) !! j = Some i;
  pu_bad : transform i = None;
  pu_budget : (N.of_nat n < remaining_budget ctx)%N
}.

Lemma pipe_call transform (p : Pipe) ctx :
  exists f r, call (pipe_process transform) p ctx = Some (f, r) /\
    match r with
    | Some r => exists n j, pipe_run transform p ctx f r n j
    | None => exists n j i, pipe_unwinds transform p ctx f n j i
    end.
Proof.
  pose proof (call_pipe_stop transform p ctx) as Hstop.
  destruct (call_pipe transform p ctx) as (f & r & e & Hcall & He & ->).
  eexists _, _. split; [exact Hcall|]. rewrite Hcall in Hstop.
  destruct He as (m & j & p' & es & -> & He); simpl in *.
  destruct e as [[|r|]|]; [done| | |].
  - destruct r; try done. destruct He as (Hno & Hm & Hj & Hp). exists m, j. split; try done.
    intros Hs. by destruct (Hstop Hs) as (f & [= <-] & Hin & _).
  - destruct He as (r & i & _ & Hb & _ & Hp & Ht & Hi & Htr). exists m, j, i. split; try done.
    by exists r.
  - destruct He as (Hm & Hj & Hp). exists m, j. split; [done|done| |done].
    intros Hs. by destruct (Hstop Hs) as (f & [= <- Hr] & Hin & _).
Qed.

Lemma becomes_Some l ms : becomes Some l ms -> ms = l.
Proof. induction 1; congruence. Qed.

(** What leaves, waits and stays is what there was. *)
Lemma piped_conserves p n j p' es :
  piped Some p n j p' es ->
  sink_items (ob_out (p_box p')) ++ ob_pending (p_box p') ++ ring_items (p_in p') =
  sink_items (ob_out (p_box p)) ++ ob_pending (p_box p) ++ ring_items (p_in p).
Proof.
  intros [[Ht _ _] _ (ms & ->%becomes_Some & [Hi _ _ _ _] & Hp)].
  rewrite Ht, Hi, Hp, <- app_assoc. f_equal.
  by rewrite (app_assoc (take _ _)), take_drop, <- app_assoc, take_drop.
Qed.

(** The packets sent are among those taken. *)
Lemma take_intake b o (pend items : list FbpMessage) :
  take (movable b o (length pend + length items))
    (pend ++ take (intake b o (length pend) (length items)) items) =
  take (movable b o (length pend + length items)) (pend ++ items).
Proof.
  rewrite !take_app, take_take. do 2 f_equal. unfold intake.
  set (n := movable _ _ _). assert (n <= length pend + length items)%nat by (unfold n; movable_lia).
  clearbody n. destruct (_ <? _)%N; lia.
Qed.

(** ** Loops that keep what is rejected *)

(** The loop after [k] packets: those that fitted are sent, the others wait. *)
Record buffered (note : FbpMessage -> list Effect) transform (f f' : frame Pipe) (k : nat) : Prop :=
  mk_buffered {
  bf_packets : (k <= length (ring_items (p_in (fr_self f))))%nat;
  bf_budget : (N.of_nat k <= remaining_budget (fr_ctx f))%N;
  bf_ctx : fr_ctx f' = set_remaining_budget (remaining_budget (fr_ctx f) - N.of_nat k) (fr_ctx f);
  bf_work : fr_work f' = (fr_work f + N.of_nat k)%N;
  bf_taken : taken k (p_in (fr_self f)) (p_in (fr_self f'));
  bf_polled : polled (p_sig (fr_self f)) (p_sig (fr_self f'));
  bf_prints : prints (fr_effects f') = prints (fr_effects f) ++
                prints (concat (map note (take k (ring_items (p_in (fr_self f))))));
  bf_sent : exists ms es, becomes transform (take k (ring_items (p_in (fr_self f)))) ms /\
    offered ms (ob_out (p_box (fr_self f))) (ob_pending (p_box (fr_self f)))
      (ob_out (p_box (fr_self f'))) (ob_pending (p_box (fr_self f'))) es
}.

Lemma buffered_0 note transform f : buffered note transform f f 0.
Proof.
  split; try done; [lia|lia| |lia|apply polled_refl|by rewrite app_nil_r|].
  - rewrite N.sub_0_r. symmetry. apply set_remaining_budget_id.
  - exists [], []. split; [constructor|apply offered_nil].
Qed.

Definition buffering_ends decode note transform (f : frame Pipe) (e : option exit) (f' : frame Pipe) : Prop :=
  match e with
  | None => buffered note transform f f' (N.to_nat (remaining_budget (fr_ctx f) `min`
                N.of_nat (length (ring_items (p_in (fr_self f))))))
  | Some (Return Finished) =>
      ~ no_stop decode (p_sig (fr_self f)) /\ exists k, buffered note transform f f' k
  | Some Unwind => exists k i r, (N.of_nat k < remaining_budget (fr_ctx f))%N /\
      ring_items (p_in (fr_self f)) !! k = Some i /\ transform i = None /\ taken 1 r (p_in (fr_self f')) /\
      buffered note transform f
        (with_self (mk_Pipe r (p_sig (fr_self f')) (p_box (fr_self f'))) f') k
  | Some _ => False
  end.

Lemma buffered_polled note transform f g k s :
  buffered note transform f g k -> polled (p_sig (fr_self g)) s ->
  buffered note transform f
    (mk_frame (mk_Pipe (p_in (fr_self g)) s (p_box (fr_self g))) (fr_ctx g) (fr_work g)
       (fr_effects g) (fr_reads g)) k.
Proof. intros [] Hs. split; try done. by eapply polled_trans. Qed.

(** One more packet, sent ([Some es]) or kept. *)
Lemma buffered_S note transform f g k i m r o es pend :
  buffered note transform f g k -> ring_items (p_in (fr_self f)) !! k = Some i ->
  transform i = Some m -> taken 1 (p_in (fr_self g)) r ->
  (N.of_nat k < remaining_budget (fr_ctx f))%N ->
  let out := ob_out (p_box (fr_self g)) in
  sent (if decide (0 < room out)%nat then [m] else []) out o es -> prints es = [] ->
  pend = ob_pending (p_box (fr_self g)) ++ (if decide (0 < room out)%nat then [] else [m]) ->
  buffered note transform f
    (mk_frame (mk_Pipe r (p_sig (fr_self g)) (mk_Outbox o pend))
       (set_remaining_budget (remaining_budget (fr_ctx g) - 1) (fr_ctx g)) (fr_work g + 1)
       ((fr_effects g ++ note i) ++ es) (fr_reads g)) (S k).
Proof.
  intros [Hk Hb Hctx Hw Ht Hpo Hpr (ms & es0 & Hbe & Ho)] Hi Hm Hr Hkb out Hs Hes ->.
  apply lookup_lt_Some in Hi as Hlt.
  split; simpl; [lia|lia| | | |done| |].
  - rewrite Hctx. simpl. rewrite set_remaining_budget_twice. f_equal. lia.
  - rewrite Hw. lia.
  - rewrite <- Nat.add_1_r. by eapply taken_add.
  - rewrite !prints_app, Hpr, Hes, app_nil_r, (take_S_r _ _ _ Hi), map_app, concat_app, prints_app.
    simpl. by rewrite app_nil_r, <- app_assoc.
  - exists (ms ++ [m]), (es0 ++ es). rewrite (take_S_r _ _ _ Hi).
    split; [apply Forall2_app; [done|by constructor]|by apply offered_snoc].
Qed.

Lemma buffering_body decode note transform (Q : unit -> frame Pipe -> Prop)
    (E : exit -> frame Pipe -> Prop) f g k :
  (forall f', buffering_ends decode note transform f None f' -> Q tt f') ->
  (forall e f', buffering_ends decode note transform f (Some e) f' -> E e f') ->
  buffered note transform f g k -> (0 < remaining_budget (fr_ctx f) - N.of_nat k)%N ->
  wp (ip ← pop l_p_in;
      match ip with
      | Some ip =>
          match transform ip with
          | Some m =>
              emit (note ip);;
              r ← send l_p_out m;
              match r with
              | Ok _ => work 1;; charge 1
              | Err returned =>
                  p ← read l_p_pending;
                  write l_p_pending (p ++ [returned]);; work 1;; charge 1
              end
          | None => panic
          end
      | None => break
      end)
    (fun _ f' => (exists k, buffered note transform f f' k)
                 /\ (length (ring_items (p_in (fr_self f'))) < length (ring_items (p_in (fr_self g))))%nat)
    (fun e f' => match e with Break => Q tt f' | _ => E e f' end) g.
Proof.
  intros HQ HE Hg Hc. pose proof Hg as [Hk Hb Hctx _ [Ht _ _] _ _ _].
  assert (0 < remaining_budget (fr_ctx g))%N as Hbg by (rewrite Hctx; done).
  wp_run. apply wp_pop; simpl.
  - intros Hempty r Hr. wp_run. apply HQ. simpl.
    rewrite Hempty in Ht. symmetry in Ht. apply (f_equal length) in Ht.
    rewrite length_drop in Ht; simpl in Ht. replace (N.to_nat _) with k by lia.
    destruct Hg as [? ? ? ? Ht' ? ? ?]. split; try done.
    rewrite <- (Nat.add_0_r k). by eapply taken_add.
  - intros i rest r Hi Hr. rewrite Hi in Ht. symmetry in Ht. apply drop_cons in Ht as [Hik Hrest].
    assert (length (ring_items r) < length (ring_items (p_in (fr_self g))))%nat as Hdec.
    { destruct Hr as [-> _ _]. rewrite Hi. simpl. rewrite drop_0. lia. }
    destruct (transform i) as [m|] eqn:Hm.
    + wp_run. apply wp_send; simpl.
      * intros Hfree o es Hs Hes. wp_run. split; [|done]. exists (S k).
        eapply (buffered_S _ _ _ _ _ i m); try done; [lia| |]; destruct (decide _); try done; try lia.
        by rewrite app_nil_r.
      * intros Hfull o Hs. wp_run. split; [|done]. exists (S k).
        rewrite <- (app_nil_r (fr_effects g ++ note i)).
        eapply (buffered_S _ _ _ _ _ i m); try done; [lia| |]; destruct (decide _); try done; lia.
    + wp_run. apply HE. exists k, i, (p_in (fr_self g)). split_and!; try done; [lia|].
      destruct Hg as [? ? ? ? ? ? ? ?]. by split.
Qed.

Lemma wp_buffering decode note transform (Q : unit -> frame Pipe -> Prop) (E : exit -> frame Pipe -> Prop) f :
  (forall f', buffering_ends decode note transform f None f' -> Q tt f') ->
  (forall e f', buffering_ends decode note transform f (Some e) f' -> E e f') ->
  wp (buffering decode note transform) Q E f.
Proof.
  intros HQ HE.
  apply (wp_while (fun g => exists k, buffered note transform f g k)
           (fun g => length (ring_items (p_in (fr_self g))))).
  - exists 0%nat. apply buffered_0.
  - rewrite ring_slots_spec. lia.
  - intros g [k Hg] Hc. apply N.ltb_ge in Hc. apply HQ. simpl.
    pose proof Hg as [Hk Hb Hctx _ _ _ _ _]. rewrite Hctx in Hc. simpl in Hc.
    by replace (N.to_nat _) with k by lia.
  - intros g [k Hg] Hc. apply N.ltb_lt in Hc. pose proof Hg as [_ _ Hctx _ _ _ _ _].
    rewrite Hctx in Hc. simpl in Hc.
    wp_run. apply wp_zoom, wp_poll; simpl.
    + intros _ s Hs. wp_run. apply (buffering_body decode note transform Q E f
        (mk_frame (mk_Pipe (p_in (fr_self g)) s (p_box (fr_self g))) (fr_ctx g) (fr_work g)
           (fr_effects g) (fr_reads g)) k); auto.
      by apply buffered_polled.
    + intros Hstop%stop_next_stop s Hs. apply HE. split.
      * contradict Hstop. destruct Hg as [_ _ _ _ _ Hpo _ _]. by eapply polled_no_stop.
      * exists k. by apply buffered_polled.
Qed.

(** ** Repeat *)

Lemma repeat_call (c : RepeatComponent) ctx :
  exists f r n j, call repeat_process c ctx = Some (zoomed rp_pipe c f, Some r) /\
    pipe_run Some (get rp_pipe c) ctx f r n j.
Proof.
  unfold repeat_process. rewrite call_zoom.
  destruct (pipe_call Some (get rp_pipe c) ctx) as (f & r & -> & Hrun).
  destruct r as [r|]; [|by destruct Hrun as (? & ? & ? & [])].
  destruct Hrun as (n & j & Hrun). by exists f, r, n, j.
Qed.

(** The signals that wait for Repeat. *)
Definition rp_signals (c : RepeatComponent) : Signals :=
  mk_Signals (rp_signals_in c) (rp_signals_out c).

(** All that waits to be sent, oldest first. *)
Definition rp_waiting (c : RepeatComponent) : list FbpMessage :=
  rp_pending_out c ++ ring_items (rp_inn c).

(** What an undisturbed call does, in one record. *)
Record repeated (c c' : RepeatComponent) (ctx ctx' : NodeContext) (es : list Effect)
    (r : ProcessResult) (n : nat) : Prop := mk_repeated {
  rd_count : n = movable (remaining_budget ctx) (rp_out c) (length (rp_waiting c));
  rd_sent : sent (take n (rp_waiting c)) (rp_out c) (rp_out c') es;
  rd_waiting : rp_waiting c' = drop n (rp_waiting c);
  rd_taken : length (ring_items (rp_inn c')) = (length (ring_items (rp_inn c)) -
    intake (remaining_budget ctx) (rp_out c) (length (rp_pending_out c))
      (length (ring_items (rp_inn c))))%nat;
  rd_abandoned : ring_is_abandoned (rp_inn c') = ring_is_abandoned (rp_inn c);
  rd_quiet : no_stop as_text (rp_signals c');
  rd_ctx : ctx' = set_remaining_budget (remaining_budget ctx - N.of_nat n) ctx;
  rd_result : r = (if ring_is_abandoned (rp_inn c) && bool_decide (rp_pending_out c' = [])
                   then Finished else result_of_work (N.of_nat n))
}.

Lemma repeat_quiet c ctx :
  no_stop as_text (rp_signals c) ->
  exists f r n, call repeat_process c ctx = Some (f, Some r) /\
    repeated c (fr_self f) ctx (fr_ctx f) (fr_effects f) r n.
Proof.
  intros Hq. destruct (repeat_call c ctx) as (f & r & n & j & Hcall & [Hp Hctx _ Hquiet]).
  exists (zoomed rp_pipe c f), r, n. split; [done|].
  destruct c as [inn out sin sout pend]; simpl in *.
  destruct (Hquiet Hq) as (Hn & Hj & Hr). pose proof (piped_conserves _ _ _ _ _ Hp) as Hcons.
  destruct Hp as [[Ht _ Ha] Hpo (ms & Hms%becomes_Some & Hs & _)]; simpl in *.
  rewrite Hms, Hn, Hj, take_intake, <- length_app in Hs. rewrite <- length_app in Hn.
  rewrite <- Hn in Hs. clear Hms.
  assert (ob_pending (p_box (fr_self f)) ++ ring_items (p_in (fr_self f)) =
          drop n (pend ++ ring_items inn)) as Hw.
  { destruct Hs as [Hi _ _ _ _]. rewrite Hi, <- app_assoc in Hcons.
    apply app_inv_head in Hcons. apply (app_inv_head (take n (pend ++ ring_items inn))).
    by rewrite Hcons, take_drop. }
  split; simpl; try done; [by rewrite Ht, length_drop, Hj|by eapply polled_no_stop].
Qed.

(** Repeat sends exactly the packets that the budget, the room behind the
    outport and its input allow, oldest first; no packet is lost, duplicated or
    overtaken, also when a "stop" ends the call; the consumer is woken when
    something was sent.  A "stop" found at the beginning ends the call before
    the inport is touched. *)
Theorem repeat_process_spec (c : RepeatComponent) (ctx : NodeContext) :
  let n := movable (remaining_budget ctx) (rp_out c) (length (rp_waiting c)) in
  exists f r,
    call repeat_process c ctx = Some (f, Some r) /\
    let c' := fr_self f in
    sink_items (rp_out c') ++ rp_waiting c' = sink_items (rp_out c) ++ rp_waiting c /\
    (no_stop as_text (rp_signals c) ->
       sink_items (rp_out c') = sink_items (rp_out c) ++ take n (rp_waiting c) /\
       length (ring_items (rp_inn c')) = (length (ring_items (rp_inn c)) -
         intake (remaining_budget ctx) (rp_out c) (length (rp_pending_out c))
                (length (ring_items (rp_inn c))))%nat /\
       remaining_budget (fr_ctx f) = (remaining_budget ctx - N.of_nat n)%N /\
       r = (if ring_is_abandoned (rp_inn c) && bool_decide (rp_pending_out c' = [])
            then Finished else result_of_work (N.of_nat n)) /\
       (0 < n -> forall w, pes_signal_ready (rp_out c) = Some w ->
          EffSignalReady w ∈ fr_effects f)%nat) /\
    (stop_next as_text (rp_signals c) -> r = Finished /\ rp_inn c' = rp_inn c).
Proof.
  intros n. destruct (repeat_call c ctx) as (f & r & m & j & Hcall & [Hp _ Hstop _]).
  exists (zoomed rp_pipe c f), r. split; [done|]. simpl. split_and!.
  - pose proof (piped_conserves _ _ _ _ _ Hp) as Hcons. by destruct c.
  - intros Hq. destruct (repeat_quiet c ctx Hq) as (f' & r' & n' & Hcall' & []).
    rewrite Hcall' in Hcall. simplify_eq. destruct rd_sent0 as [Hi _ _ Hw _]. simpl in *.
    split_and!; [done|done|by rewrite rd_ctx0|done|].
    intros Hpos. apply Hw. intros Hnil. apply (f_equal length) in Hnil.
    rewrite length_take in Hnil. simpl in Hnil. unfold n in *. movable_lia.
  - intros Hs. by apply Hstop.
Qed.

(** ** Output *)

(** A flush, then the loop: what was waiting goes first. *)
Lemma flush_buffering note transform (p : Pipe) s o es (ctx : NodeContext) (w : N) es0 f' k :
  let q := ob_pending (p_box p) in
  let b := remaining_budget ctx in
  let n := movable b (ob_out (p_box p)) (length q) in
  sent (take n q) (ob_out (p_box p)) o es ->
  buffered note transform
    (mk_frame (mk_Pipe (p_in p) s (mk_Outbox o (drop n q)))
       (set_remaining_budget (b - N.of_nat n) ctx) (w + N.of_nat n) es0 0) f' k ->
  exists ms, becomes transform (take k (ring_items (p_in p))) ms /\
    sink_items (ob_out (p_box (fr_self f'))) ++ ob_pending (p_box (fr_self f')) =
      sink_items (ob_out (p_box p)) ++ q ++ ms.
Proof.
  intros q b n [Hi Hc _ _ _] [Hk Hb _ _ _ _ _ (ms & es' & Hbe & [Hse Hpe])]; simpl in *.
  exists ms. split; [done|]. destruct Hse as [Hi' _ _ _].
  apply Forall2_length in Hbe. rewrite length_take in Hbe.
  rewrite Hi', Hpe, Hi, <- !app_assoc. f_equal.
  assert (room o = room (ob_out (p_box p)) - n)%nat as Hr.
  { unfold room. rewrite Hc, Hi, length_app, length_take. unfold n. movable_lia. }
  destruct (decide (n = length q)) as [->|Hn].
  - rewrite take_ge, drop_ge by done. simpl. by rewrite take_drop.
  - assert (room o = 0 \/ k = 0)%nat as [Hz|Hz].
    { unfold n, b in *. movable_lia. }
    + rewrite Hz. simpl. rewrite drop_0. by rewrite app_assoc, take_drop.
    + assert (ms = []) as -> by (apply length_zero_iff_nil; lia).
      rewrite take_nil, drop_nil, !app_nil_r. simpl. by rewrite take_drop.
Qed.

Lemma prints_println l : prints (concat (map println l)) = omap output_message_as_utf8 l.
Proof.
  induction l as [|i l IH]; [done|]. simpl. rewrite prints_app, IH. unfold println.
  by destruct (output_message_as_utf8 i).
Qed.

(** What a call of Output has done when it has taken [k] packets. *)
Record output_run (p : Pipe) (ctx : NodeContext) (f : frame Pipe) (r : ProcessResult) (k : nat) : Prop :=
  mk_output_run {
  or_packets : sink_items (ob_out (p_box (fr_self f))) ++ ob_pending (p_box (fr_self f)) =
    sink_items (ob_out (p_box p)) ++ ob_pending (p_box p) ++ take k (ring_items (p_in p));
  or_taken : ring_items (p_in (fr_self f)) = drop k (ring_items (p_in p));
  or_prints : prints (fr_effects f) = omap output_message_as_utf8 (take k (ring_items (p_in p)));
  or_quiet : no_stop output_message_as_utf8 (p_sig p) ->
    let b := remaining_budget ctx in
    let n := movable b (ob_out (p_box p)) (length (ob_pending (p_box p))) in
    k = N.to_nat ((b - N.of_nat n) `min` N.of_nat (length (ring_items (p_in p)))) /\
    r = (if (0 <? n + k)%nat then DidWork (N.of_nat (n + k))
         else if ring_is_abandoned (p_in p) then Finished else NoWork);
  or_stop : stop_next output_message_as_utf8 (p_sig p) ->
    r = Finished /\ k = 0%nat /\ ob_pending (p_box (fr_self f)) = ob_pending (p_box p)
}.

(** The loop, from the state that the flush leaves. *)
Lemma output_run_of (p : Pipe) ctx s o es f k r :
  let q := ob_pending (p_box p) in
  let b := remaining_budget ctx in
  let n := movable b (ob_out (p_box p)) (length q) in
  ~ stop_next output_message_as_utf8 (p_sig p) ->
  sent (take n q) (ob_out (p_box p)) o es -> prints es = [] ->
  buffered println Some
    (mk_frame (mk_Pipe (p_in p) s (mk_Outbox o (drop n q)))
       (set_remaining_budget (b - N.of_nat n) ctx) (0 + N.of_nat n) es 0) f k ->
  (no_stop output_message_as_utf8 (p_sig p) ->
    k = N.to_nat ((b - N.of_nat n) `min` N.of_nat (length (ring_items (p_in p)))) /\
    r = (if (0 <? n + k)%nat then DidWork (N.of_nat (n + k))
         else if ring_is_abandoned (p_in p) then Finished else NoWork)) ->
  output_run p ctx f r k.
Proof.
  intros q b n Hns Hsent Hpr Hbuf Hquiet.
  destruct (flush_buffering _ _ _ _ _ _ _ _ _ _ _ Hsent Hbuf) as (ms & ->%becomes_Some & Hall).
  destruct Hbuf as [_ _ _ _ [Ht _ _] _ Hp _]; simpl in *.
  split; try done. by rewrite Hp, Hpr, prints_println.
Qed.

Lemma output_pipe_call (p : Pipe) ctx :
  exists f r k, call output_pipe p ctx = Some (f, Some r) /\ output_run p ctx f r k.
Proof.
  destruct (wp_call output_pipe p ctx (fun f x => exists r k, x = Some r /\ output_run p ctx f r k))
    as (f & x & Hcall & r & k & -> & H); [|by exists f, r, k].
  unfold output_pipe. wp_run. apply wp_zoom, wp_poll; simpl.
  - intros Hns s Hs. wp_run. apply wp_zoom, wp_flush; simpl. intros o es Hsent Hpr.
    wp_run. apply wp_buffering; simpl.
    + intros f' Hbuf. wp_run. pose proof Hbuf as [_ _ _ Hw [_ _ Ha] _ _ _]. simpl in Hw, Ha.
      rewrite N.add_0_l, <- Nat2N.inj_add in Hw.
      destruct (N.ltb_spec 0 (fr_work f')) as [Hpos|Hz]; wp_run.
      * eexists _, _. split; [done|]. eapply output_run_of; [done..|]. intros _. split; [done|].
        rewrite (proj2 (Nat.ltb_lt _ _)) by lia. by rewrite Hw.
      * apply wp_is_abandoned. simpl. rewrite Ha.
        destruct (ring_is_abandoned (p_in p)) eqn:Hab; wp_run;
          (eexists _, _; split; [done|]; eapply output_run_of; [done..|]; intros _; split; [done|];
           rewrite (proj2 (Nat.ltb_ge _ _)) by lia; by rewrite Hab).
    + intros e f' Hends. destruct e as [|r|]; [done| |].
      * destruct r; try done. destruct Hends as [Hstop [k Hbuf]]. exists Finished, k.
        split; [done|]. eapply output_run_of; [done..|]. intros Hq. by destruct Hstop; eapply polled_no_stop.
      * by destruct Hends as (? & ? & ? & _ & _ & ? & _).
  - intros Hstop s Hs. exists Finished, 0%nat. split; [done|]. split; simpl; try done.
    + by rewrite app_nil_r.
    + by intros Hq%(stop_next_stop _ _ Hstop).
Qed.

(** Output prints every packet it takes that is a text or UTF-8 bytes,
    exactly once and in order, and passes every packet on in order, none lost
    or repeated.  It takes as many as the budget allows, also when the outport
    is full; it finishes without "stop" only when there was nothing to do and
    the producer is gone, and then forgets what still waits. *)
Theorem output_process_spec (c : OutputComponent) (ctx : NodeContext) :
  let items := ring_items (ou_inn c) in
  let b := remaining_budget ctx in
  let n := movable b (ou_out c) (length (ou_pending_packets c)) in
  let signals := mk_Signals (ou_signals_in c) (ou_signals_out c) in
  exists f r k,
    call output_process c ctx = Some (f, Some r) /\
    let c' := fr_self f in
    sink_items (ou_out c') ++ ou_pending_packets c' =
      sink_items (ou_out c) ++ ou_pending_packets c ++ take k items /\
    ring_items (ou_inn c') = drop k items /\
    prints (fr_effects f) = omap output_message_as_utf8 (take k items) /\
    (no_stop output_message_as_utf8 signals ->
       k = N.to_nat ((b - N.of_nat n) `min` N.of_nat (length items)) /\
       r = (if (0 <? n + k)%nat then DidWork (N.of_nat (n + k))
            else if ring_is_abandoned (ou_inn c) then Finished else NoWork)) /\
    (stop_next output_message_as_utf8 signals ->
       r = Finished /\ k = 0%nat /\ ou_pending_packets c' = ou_pending_packets c).
Proof.
  intros items b n signals. unfold output_process. rewrite call_zoom.
  destruct (output_pipe_call (get ou_pipe c) ctx) as (f & r & k & -> & H).
  exists (zoomed ou_pipe c f), r, k. split; [done|]. by destruct c, H.
Qed.

(** ** Trim *)

(** A packet and what Trim makes of it. *)
Definition trims (i m : FbpMessage) : Prop :=
  exists s u, i = Text s /\ m = Text u /\ trimmed s u.

Lemma becomes_trims l ms : becomes trim_message l ms -> Forall2 trims l ms.
Proof.
  intros H. eapply Forall2_impl; [exact H|]. intros i m Him. unfold trim_message in Him.
  destruct i; simplify_eq/=. eexists _, _. split_and!; [done..|]. apply str_trim_spec.
Qed.

(** Trim removes exactly the white space around the texts it takes and
    sends them on in their order, none lost or repeated, as many as budget, room
    and input allow; it unwinds exactly when it takes a packet that is not a
    text, and that packet is gone. *)
Theorem trim_process_spec (c : TrimComponent) (ctx : NodeContext) :
  let items := ring_items (tr_inn c) in
  let most := movable (remaining_budget ctx) (tr_out c) (length (tr_pending_out c) + length items) in
  exists f r j ms,
    call trim_process c ctx = Some (f, r) /\
    let c' := fr_self f in
    Forall2 trims (take j items) ms /\
    sink_items (tr_out c') ++ tr_pending_out c' = sink_items (tr_out c) ++ tr_pending_out c ++ ms /\
    match r with
    | None =>
        ring_items (tr_inn c') = drop (S j) items /\
        exists i, items !! j = Some i /\ as_text i = None
    | Some r =>
        ring_items (tr_inn c') = drop j items /\
        (no_stop as_text (mk_Signals (tr_signals_in c) (tr_signals_out c)) ->
           sink_items (tr_out c') = sink_items (tr_out c) ++ take most (tr_pending_out c ++ ms) /\
           j = intake (remaining_budget ctx) (tr_out c) (length (tr_pending_out c)) (length items) /\
           remaining_budget (fr_ctx f) = (remaining_budget ctx - N.of_nat most)%N /\
           r = (if ring_is_abandoned (tr_inn c) && bool_decide (tr_pending_out c' = [])
                then Finished else result_of_work (N.of_nat most)))
    end.
Proof.
  intros items most. unfold trim_process. rewrite call_zoom.
  destruct (pipe_call trim_message (get tr_pipe c) ctx) as (f & r & -> & Hrun).
  destruct c as [inn out sin sout pend]; simpl in *. destruct r as [r|].
  - destruct Hrun as (n & j & [[[Ht _ _] _ (ms & Hms & [Hi _ _ _ _] & Hpd)] Hctx _ Hquiet]); simpl in *.
    exists (zoomed tr_pipe (mk_TrimComponent inn out sin sout pend) f), (Some r), j, ms. simpl.
    split_and!; [done|by apply becomes_trims| |done|].
    + by rewrite Hi, Hpd, <- app_assoc, take_drop.
    + intros Hq. destruct (Hquiet Hq) as (-> & Hj & ->). by split_and!; [..|rewrite Hctx|].
  - destruct Hrun as (n & j & i & [(r & [[Ht _ _] _ (ms & Hms & [Hi _ _ _ _] & Hpd)] & [Ht' _ _]) Hij Hbad _]);
      simpl in *.
    exists (zoomed tr_pipe (mk_TrimComponent inn out sin sout pend) f), None, j, ms. simpl.
    split_and!; [done|by apply becomes_trims| |..].
    + by rewrite Hi, Hpd, <- app_assoc, take_drop.
    + by rewrite Ht', Ht, drop_drop, Nat.add_1_r.
    + exists i. split; [done|]. unfold trim_message in Hbad. by destruct (as_text i).
Qed.
End pipes.

(** ** Repeat under the scheduler *)
Section repeat_execution.
Context `{R : Rtrb} (enforce : bool).
Variable timing : RepeatComponent -> NodeContext -> Duration * Instant.

(** No call blocks for too long. *)
Definition prompt : Prop :=
  forall c ctx, enforce_non_blocking_process_contract enforce (timing c ctx).1 = true.

#[local] Instance repeat_inst : Component RepeatComponent := repeat_component timing.

(** One turn of the execution loop. *)
Lemma repeat_turn fuel c ctx o (s : Scheduler RepeatComponent) :
  prompt -> no_stop as_text (rp_signals c) -> remaining_budget ctx <> 0%N ->
  exists c' ctx' es r n,
    repeated c c' ctx ctx' es r n /\
    let s1 := apply_effects (ready_signal ctx) es s in
    execute_loop enforce (S fuel) c ctx o s =
    match r with
    | DidWork u =>
        execute_loop enforce fuel c'
          (account_work (remaining_budget ctx) u (timing c ctx).2 ctx')
          (mk_ExecutionOutcome true (eo_finished o) (eo_executions o + 1)
             (eo_work_units o + accounted u) (eo_panicked o)) s1
    | NoWork => ExecDone c' ctx' o s1
    | Finished =>
        ExecDone c' ctx' (mk_ExecutionOutcome (eo_did_work o) true (eo_executions o)
                            (eo_work_units o) (eo_panicked o))
          (set_flags (ctx_clear_ready ctx' (flags s1)) s1)
    end.
Proof.
  intros Hprompt Hq Hb. destruct (repeat_quiet c ctx Hq) as (f & r & n & Hcall & Hr).
  exists (fr_self f), (fr_ctx f), (fr_effects f), r, n. split; [done|].
  assert (process c ctx = mk_process_run (fr_self f) (fr_ctx f) (fr_effects f)
            (timing c ctx).1 (timing c ctx).2 (Some r)) as Hrun.
  { simpl. unfold run_call. by rewrite Hcall. }
  cbn [execute_loop]. rewrite (proj2 (N.eqb_neq _ _) Hb), Hrun. simpl.
  rewrite Hprompt. by destruct r.
Qed.

(** After a first call that has left some of the budget, a second one finds
    nothing to move. *)
Lemma second_call_idle c c' c'' ctx ctx' ctx2 ctx2' es es' r r' n n' :
  repeated c c' ctx ctx' es r n ->
  remaining_budget ctx2 = (remaining_budget ctx - N.of_nat n)%N ->
  repeated c' c'' ctx2 ctx2' es' r' n' ->
  n' = 0%nat /\ sink_items (rp_out c'') = sink_items (rp_out c') /\ rp_waiting c'' = rp_waiting c' /\
  (rp_pending_out c' <> [] -> rp_pending_out c'' <> []).
Proof.
  intros [Hn Hs Hw _ _ _ _ _] Hb [Hn' [Hi _ _ _ _] Hw' Ht _ _ _ _].
  pose proof (sent_room _ _ _ _ Hs) as Hr. rewrite length_take in Hr.
  assert (n' = 0)%nat as -> by (rewrite Hw, length_drop, Hb in Hn'; movable_lia).
  split_and!; [done|by rewrite Hi, app_nil_r|done|].
  intros Hne Hnil. unfold rp_waiting in Hw'. rewrite Hnil in Hw'. simpl in Hw'.
  rewrite drop_0 in Hw'. apply (f_equal length) in Hw'. rewrite length_app in Hw'.
  destruct (rp_pending_out c'); [done|]. simpl in Hw'. lia.
Qed.

Lemma result_of_work_eq (b : bool) n :
  match (if b then Finished else result_of_work (N.of_nat n)) with
  | Finished => b = true
  | NoWork => b = false /\ n = 0%nat
  | DidWork u => b = false /\ u = N.of_nat n /\ (0 < n)%nat
  end.
Proof.
  destruct b; [done|]. unfold result_of_work. destruct (N.ltb_spec 0 (N.of_nat n)); split; lia.
Qed.

Lemma account_work_used b n t ctx :
  (0 < n)%nat -> (N.of_nat n <= b)%N -> remaining_budget ctx = (b - N.of_nat n)%N ->
  remaining_budget (account_work b (N.of_nat n) t ctx) = (b - N.of_nat n)%N.
Proof. intros Hn Hb Hr. simpl. unfold consumed_budget, accounted. rewrite Hr. lia. Qed.

Lemma repeated_wakes c c' ctx ctx' es r n flag (s : Scheduler RepeatComponent) w :
  repeated c c' ctx ctx' es r n -> (0 < n)%nat -> pes_signal_ready (rp_out c) = Some w ->
  state_inv (state s) -> is_Some (ready_flags (state s) !! w) ->
  w ∈ ready_queue (state (apply_effects flag es s)).
Proof.
  intros [Hn [_ _ _ Hw _] _ _ _ _ _ _] Hpos Hwk Hinv Hreg.
  apply apply_effects_queues; [|done|done]. apply Hw; [|done].
  intros Hnil. apply (f_equal length) in Hnil. rewrite length_take in Hnil. simpl in Hnil.
  movable_lia.
Qed.

(** After a call that moved [n] packets and is not at its end, the loop stops:
    the budget is used up, or the next call finds nothing to do. *)
Lemma repeat_rest c c1 ctx0 ctx1 ctx2 es n u o1 (s1 : Scheduler RepeatComponent) :
  prompt -> repeated c c1 ctx0 ctx1 es (DidWork u) n ->
  let b := remaining_budget ctx0 in
  remaining_budget ctx2 = (b - N.of_nat n)%N -> (0 < n)%nat -> (N.of_nat n <= b)%N ->
  ring_is_abandoned (rp_inn c) && bool_decide (rp_pending_out c1 = []) = false ->
  exists c2 ctx3 s2,
    execute_loop enforce (N.to_nat b) c1 ctx2 o1 s1 =
      ExecDone c2 ctx3 o1 s2 /\
    sink_items (rp_out c2) = sink_items (rp_out c1) /\ rp_waiting c2 = rp_waiting c1 /\
    ring_is_abandoned (rp_inn c) && bool_decide (rp_pending_out c2 = []) = false /\
    (forall w, w ∈ ready_queue (state s1) -> w ∈ ready_queue (state s2)).
Proof.
  intros Hprompt Hrep b Hb2 Hpos Hle Hfin. pose proof Hrep as [_ _ _ _ Hab Hq1 _ _].
  destruct (decide (N.of_nat n = b)) as [Hfull|Hleft].
  - exists c1, ctx2, s1. split; [|by split_and!].
    destruct (N.to_nat b) eqn:?; [lia|]. cbn [execute_loop]. by rewrite Hb2, Hfull, N.sub_diag.
  - destruct (repeat_turn (pred (N.to_nat b)) c1 ctx2 o1 s1 Hprompt Hq1)
      as (c2 & ctx3 & es2 & r2 & m & Hrep2 & Heq2); [rewrite Hb2; lia|].
    replace (S (pred (N.to_nat b))) with (N.to_nat b) in Heq2 by lia.
    destruct (second_call_idle _ _ _ _ _ _ _ _ _ _ _ _ _ Hrep Hb2 Hrep2) as (-> & Hi2 & Hw2 & Hpend).
    pose proof (apply_effects_signalled (ready_signal ctx2) es2 s1) as [[_ _ _ _ _ _ [l Hl] _] _].
    destruct Hrep2 as [_ _ _ _ _ _ _ ->].
    assert (ring_is_abandoned (rp_inn c1) && bool_decide (rp_pending_out c2 = []) = false) as Hfin2.
    { rewrite Hab. destruct (ring_is_abandoned (rp_inn c)); [|done]. simpl in *.
      apply bool_decide_eq_false. apply Hpend. by apply bool_decide_eq_false in Hfin. }
    rewrite Hfin2 in Heq2. exists c2, ctx3, (apply_effects (ready_signal ctx2) es2 s1). rewrite Hab in Hfin2.
    split_and!; try done. intros w Hw. rewrite Hl. apply elem_of_app. by left.
Qed.

(** One execution of Repeat by the scheduler forwards as many packets as
    the budget of its class, the room behind the outport and its input allow,
    in order and without loss; the consumer is then queued for execution; it
    finishes when the producer is gone and nothing waits for room. *)
Theorem repeat_execution_spec (c : RepeatComponent) (ctx : NodeContext) (s : Scheduler RepeatComponent)
    (Hprompt : prompt) (Hquiet : no_stop as_text (rp_signals c)) :
  let n := movable (budget_of_class (budget_class ctx)) (rp_out c) (length (rp_waiting c)) in
  exists c' ctx' o s',
    execute_component enforce c ctx s = ExecDone c' ctx' o s' /\
    sink_items (rp_out c') = sink_items (rp_out c) ++ take n (rp_waiting c) /\
    rp_waiting c' = drop n (rp_waiting c) /\
    eo_panicked o = false /\
    eo_finished o = ring_is_abandoned (rp_inn c) && bool_decide (rp_pending_out c' = []) /\
    eo_work_units o = (if eo_finished o then 0 else N.of_nat n)%N /\
    (forall w, (0 < n)%nat -> pes_signal_ready (rp_out c) = Some w -> state_inv (state s) ->
       is_Some (ready_flags (state s) !! w) -> w ∈ ready_queue (state s')).
Proof.
  intros n. set (b := budget_of_class (budget_class ctx)) in *.
  set (ctx0 := (take_wake_at (set_remaining_budget b ctx)).2).
  set (s0 := set_flags (ctx_clear_ready (set_remaining_budget b ctx) (flags s)) s).
  change (execute_component enforce c ctx s)
    with (execute_loop enforce (S (N.to_nat b)) c ctx0 default_outcome s0).
  destruct (repeat_turn (N.to_nat b) c ctx0 default_outcome s0 Hprompt Hquiet)
    as (c1 & ctx1 & es & r & m & Hrep & Heq).
  { simpl. unfold b. by destruct (budget_class ctx). }
  change (remaining_budget ctx0) with b in *. rewrite Heq. clear Heq.
  pose proof Hrep as [Hm [Hi _ _ _ _] Hw _ Hab Hq1 Hctx Hr]. change (m = n) in Hm. subst m.
  pose proof (result_of_work_eq
    (ring_is_abandoned (rp_inn c) && bool_decide (rp_pending_out c1 = [])) n) as Hcases.
  rewrite <- Hr in Hcases. clear Hr. destruct r as [u| |].
  - destruct Hcases as (Hfin & -> & Hpos).
    assert (N.of_nat n <= b)%N as Hle by (unfold n; movable_lia).
    assert (remaining_budget (account_work b (N.of_nat n) (timing c ctx0).2 ctx1) = (b - N.of_nat n)%N) as Hb2.
    { apply account_work_used; [done|done|by rewrite Hctx]. }
    destruct (repeat_rest _ _ _ _ _ _ _ _ (mk_ExecutionOutcome true false 1 (accounted (N.of_nat n)) false)
      (apply_effects (ready_signal ctx0) es s0) Hprompt Hrep Hb2 Hpos Hle Hfin)
      as (c2 & ctx3 & s2 & Heq & Hi2 & Hw2 & Hfin2 & Hq2).
    eexists c2, ctx3, _, s2. split; [exact Heq|]. rewrite Hi2, Hw2, Hfin2. simpl.
    split_and!; try done; [unfold accounted; lia|].
    intros w _ Hwk Hinv Hreg. apply Hq2. by eapply repeated_wakes.
  - eexists _, _, _, _. split; [reflexivity|]. destruct Hcases as [Hfin Hn]. simpl. rewrite Hfin.
    split_and!; try done; lia.
  - eexists _, _, _, _. split; [reflexivity|]. simpl. rewrite Hcases. split_and!; try done.
    intros w Hpos Hwk Hinv Hreg. by eapply repeated_wakes.
Qed.
End repeat_execution.

(** ** Concrete runs *)
#[local] Existing Instance list_rtrb.

Definition demo_repeat : RepeatComponent :=
  mk_RepeatComponent (demo_ring false [Text "a"; Text "b"]) (demo_out 1) demo_channel demo_channel [].

Lemma repeat_execution_spec_witness :
  exists c' ctx' o s',
    execute_component (Comp := repeat_component (fun _ _ => (1, 2)%N)) true demo_repeat
      (demo_context Normal 0) new_scheduler = ExecDone c' ctx' o s' /\
    sink_items (rp_out c') = [Text "a"] /\ rp_waiting c' = [Text "b"].
Proof.
  destruct (repeat_execution_spec true (fun _ _ => (1, 2)%N) demo_repeat (demo_context Normal 0)
    new_scheduler) as (c' & ctx' & o & s' & Heq & Hi & Hw & _).
  - intros c ctx. reflexivity.
  - constructor.
  - exists c', ctx', o, s'. split; [exact Heq|]. split; [exact Hi|exact Hw].
Defined.

(** The end of the producer ends Repeat although its budget left input unread. *)
Example repeat_finishes_unread :
  exists f, call repeat_process
    (mk_RepeatComponent (demo_ring true [Text "a"; Text "b"]) (demo_out 8) demo_channel demo_channel [])
    (demo_context Normal 1) = Some (f, Some Finished) /\
    ring_items (rp_inn (fr_self f)) = [Text "b"].
Proof. eexists. split; vm_compute; reflexivity. Qed.
