(* ===== verification/Chain.v ===== *)
(** Chains of processing components: stages that share the ring between them,
    each called whenever and with whatever budget the scheduler likes. *)
From S2P Require Import Prelude Api Scheduler Process Pipes.
From Stdlib Require Strings.String.
From Stdlib Require Import NArith ZArith Lia.
From stdpp Require Import base list strings gmap.
Local Open Scope string_scope.
Local Open Scope list_scope.
Local Open Scope flowd_scope.

Section chain.
Context `{R : Rtrb}.

(** The components that can be a stage, by their [process]: Repeat and Trim;
    Output; TextReplace once it is configured, and the components that
    compress and decompress. *)
Inductive StageKind : Type :=
| Forwarding (transform : FbpMessage -> option FbpMessage)
| Printing
| Keeping (patient : bool) (decode : FbpMessage -> option string)
    (transform : FbpMessage -> option FbpMessage).
Definition stage_process (k : StageKind) : proc Pipe ProcessResult :=
  match k with
  | Forwarding transform => pipe_process transform
  | Printing => output_pipe
  | Keeping patient decode transform => keeping_pipe patient decode transform
  end.
Definition stage_decode (k : StageKind) : FbpMessage -> option string :=
  match k with
  | Forwarding _ => as_text
  | Printing => output_message_as_utf8
  | Keeping _ decode _ => decode
  end.
Definition stage_transform (k : StageKind) : FbpMessage -> option FbpMessage :=
  match k with Forwarding transform | Keeping _ _ transform => transform | Printing => Some end.

(** The two rings of a stage are those of the chain. *)
Record Stage : Type := mk_Stage {
  sg_kind : StageKind;
  sg_signals : Signals;
  sg_out : ProcessEdgeSink;
  sg_pending : list FbpMessage;
  sg_finished : bool
}.
Definition sg_transform (s : Stage) : FbpMessage -> option FbpMessage := stage_transform (sg_kind s).

(** [ch_rings] has one more element than [ch_stages]; [ch_fed] is what the
    producer in front of the chain has sent so far, [ch_got] what the consumer
    behind it has received. *)
Record Chain : Type := mk_Chain {
  ch_rings : list ring;
  ch_stages : list Stage;
  ch_fed : list FbpMessage;
  ch_got : list FbpMessage
}.

(** The sink of a stage at the ring behind it. *)
Definition sink_at (r : ring) (o : ProcessEdgeSink) : ProcessEdgeSink :=
  mk_ProcessEdgeSink r (pes_wakeup o) (pes_proc_name o) (pes_signal_ready o)
    (pes_tracing_enabled o) (pes_edge_id o) (pes_src_node o) (pes_src_port o) (pes_tgt_node o)
    (pes_tgt_port o) (pes_graph_name o) (pes_trace_sender o).

Definition stage_pipe (rin rout : ring) (s : Stage) : Pipe :=
  mk_Pipe rin (sg_signals s) (mk_Outbox (sink_at rout (sg_out s)) (sg_pending s)).

(** What a call leaves of its stage and of the ring behind it: a component that
    has finished is dropped, and with it the producer of that ring. *)
Definition stage_after (s : Stage) (p : Pipe) (r : ProcessResult) : Stage :=
  mk_Stage (sg_kind s) (p_sig p) (ob_out (p_box p)) (ob_pending (p_box p))
    (match r with Finished => true | _ => false end).
Definition ring_after (p : Pipe) (r : ProcessResult) : ring :=
  match r with
  | Finished => ring_drop_producer (pes_sink (ob_out (p_box p)))
  | _ => pes_sink (ob_out (p_box p))
  end.

Inductive chain_step : Chain -> Chain -> Prop :=
| chain_run i ctx c s rin rout f r :
    ch_stages c !! i = Some s -> sg_finished s = false ->
    ch_rings c !! i = Some rin -> ch_rings c !! S i = Some rout ->
    call (stage_process (sg_kind s)) (stage_pipe rin rout s) ctx = Some (f, Some r) ->
    chain_step c
      (mk_Chain (<[S i := ring_after (fr_self f) r]> (<[i := p_in (fr_self f)]> (ch_rings c)))
         (<[i := stage_after s (fr_self f) r]> (ch_stages c)) (ch_fed c) (ch_got c))
| chain_feed c r m r' :
    ch_rings c !! 0%nat = Some r -> ring_is_abandoned r = false -> ring_push m r = (Ok tt, r') ->
    chain_step c (mk_Chain (<[0%nat := r']> (ch_rings c)) (ch_stages c) (ch_fed c ++ [m]) (ch_got c))
| chain_close c r :
    ch_rings c !! 0%nat = Some r ->
    chain_step c (mk_Chain (<[0%nat := ring_drop_producer r]> (ch_rings c)) (ch_stages c)
                    (ch_fed c) (ch_got c))
| chain_take c r m r' :
    ch_rings c !! length (ch_stages c) = Some r -> ring_pop r = (Some m, r') ->
    chain_step c (mk_Chain (<[length (ch_stages c) := r']> (ch_rings c)) (ch_stages c) (ch_fed c)
                    (ch_got c ++ [m]))
| chain_signal i c s m sin' :
    ch_stages c !! i = Some s -> try_send m (sig_in (sg_signals s)) = (Ok tt, sin') ->
    chain_step c
      (mk_Chain (ch_rings c)
         (<[i := mk_Stage (sg_kind s) (mk_Signals sin' (sig_out (sg_signals s))) (sg_out s)
                   (sg_pending s) (sg_finished s)]> (ch_stages c)) (ch_fed c) (ch_got c)).

(** A turn with the context [ctx]: a stage is called with it, or the consumer
    takes a packet. *)
Inductive chain_turn (ctx : NodeContext) : Chain -> Chain -> Prop :=
| turn_run i c s rin rout f r :
    ch_stages c !! i = Some s -> sg_finished s = false ->
    ch_rings c !! i = Some rin -> ch_rings c !! S i = Some rout ->
    call (stage_process (sg_kind s)) (stage_pipe rin rout s) ctx = Some (f, Some r) ->
    chain_turn ctx c
      (mk_Chain (<[S i := ring_after (fr_self f) r]> (<[i := p_in (fr_self f)]> (ch_rings c)))
         (<[i := stage_after s (fr_self f) r]> (ch_stages c)) (ch_fed c) (ch_got c))
| turn_take c r m r' :
    ch_rings c !! length (ch_stages c) = Some r -> ring_pop r = (Some m, r') ->
    chain_turn ctx c (mk_Chain (<[length (ch_stages c) := r']> (ch_rings c)) (ch_stages c) (ch_fed c)
                        (ch_got c ++ [m])).

(** [n] turns, the [i]-th with the context [ctxs i]. *)
Inductive chain_turns : nat -> (nat -> NodeContext) -> Chain -> Chain -> Prop :=
| turns_none ctxs c : chain_turns 0 ctxs c c
| turns_more n ctxs c c1 c2 :
    chain_turn (ctxs 0%nat) c c1 -> chain_turns n (fun i => ctxs (S i)) c1 c2 -> chain_turns (S n) ctxs c c2.

(** The network before anything runs. *)
Record untouched (c : Chain) : Prop := mk_untouched {
  untouched_shape : length (ch_rings c) = S (length (ch_stages c));
  untouched_rings : Forall (fun r => ring_items r = [] /\ (0 < ring_cap r)%nat) (ch_rings c);
  untouched_stages : Forall (fun s => sg_pending s = [] /\ sg_finished s = false) (ch_stages c);
  untouched_fed : ch_fed c = [];
  untouched_got : ch_got c = []
}.

Definition chain_reachable : Chain -> Prop :=
  fun c => exists c0, untouched c0 /\ rtc chain_step c0 c.

(** * What is on its way *)

(** What the transformations make of a packet. *)
Definition through (ts : list (FbpMessage -> option FbpMessage)) (m : FbpMessage) : FbpMessage :=
  fold_left (fun m t => default m (t m)) ts m.

Abbreviation transforms ss := (map sg_transform ss).

(** None of the transformations unwinds. *)
Fixpoint passes (ts : list (FbpMessage -> option FbpMessage)) (m : FbpMessage) : Prop :=
  match ts with
  | [] => True
  | t :: ts => exists m', t m = Some m' /\ passes ts m'
  end.

(** The packets in the chain, oldest first, as they will come out of it. *)
Fixpoint flight (rings : list ring) (stages : list Stage) : list FbpMessage :=
  match rings, stages with
  | r :: rings, s :: stages =>
      flight rings stages ++ map (through (transforms stages)) (sg_pending s) ++
      map (through (transforms (s :: stages))) (ring_items r)
  | r :: _, [] => ring_items r
  | [], _ => []
  end.

(** Every packet in the chain passes what is ahead of it. *)
Fixpoint clear (rings : list ring) (stages : list Stage) : Prop :=
  match rings, stages with
  | r :: rings, s :: stages =>
      clear rings stages /\ Forall (passes (transforms stages)) (sg_pending s) /\
      Forall (passes (transforms (s :: stages))) (ring_items r)
  | _, _ => True
  end.

(** How many more moves they need until the consumer has them: out of a ring,
    and out of the store of a stage. *)
Fixpoint distance (rings : list ring) (stages : list Stage) : nat :=
  match rings, stages with
  | r :: rings, s :: stages =>
      distance rings stages + (2 * length stages + 2) * length (sg_pending s) +
      (2 * length stages + 3) * length (ring_items r)
  | r :: _, [] => length (ring_items r)
  | [], _ => 0
  end.
End chain.
