(* ===== verification/Conveyors.v ===== *)
(** What a chain needs to know of its stages: an interface, and the kinds of
    stages as its instances. *)
From S2P Require Import Prelude Api Scheduler Process Pipes PipesTheorems Chain.
From Stdlib Require Strings.String.
From Stdlib Require Import NArith ZArith Lia.
From stdpp Require Import base list strings gmap.
Local Open Scope string_scope.
Local Open Scope list_scope.
Local Open Scope flowd_scope.

Section conveyors.
Context `{R : Rtrb}.

(** [j] packets have been taken, and they are, transformed, behind those that
    were there before. *)
Record conveyed (transform : FbpMessage -> option FbpMessage) (p : Pipe) (j : nat) (p' : Pipe) : Prop :=
  mk_conveyed {
  cy_taken : taken j (p_in p) (p_in p');
  cy_polled : polled (p_sig p) (p_sig p');
  cy_cap : ring_cap (pes_sink (ob_out (p_box p'))) = ring_cap (pes_sink (ob_out (p_box p)));
  cy_abandoned : ring_is_abandoned (pes_sink (ob_out (p_box p'))) = ring_is_abandoned (pes_sink (ob_out (p_box p)));
  cy_packets : exists ms, becomes transform (take j (ring_items (p_in p))) ms /\
    sink_items (ob_out (p_box p')) ++ ob_pending (p_box p') = sink_items (ob_out (p_box p)) ++ ob_pending (p_box p) ++ ms
}.

(** A pipe from which something can be moved: no stop, no packet that unwinds, no
    end that is gone, a budget, work, and an outport that is empty. *)
Record ready (decode : FbpMessage -> option string) (transform : FbpMessage -> option FbpMessage) (p : Pipe)
    (ctx : NodeContext) : Prop := mk_ready {
  rd_quiet : no_stop decode (p_sig p);
  rd_total : forall m, m ∈ ring_items (p_in p) -> is_Some (transform m);
  rd_in : ring_is_abandoned (p_in p) = false;
  rd_empty : sink_items (ob_out (p_box p)) = [];
  rd_cap : (0 < ring_cap (pes_sink (ob_out (p_box p))))%nat;
  rd_work : ob_pending (p_box p) ++ ring_items (p_in p) <> [];
  rd_budget : (0 < remaining_budget ctx)%N
}.

(** A component that conveys packets: its calls convey, and they move something
    if they can. *)
Class Conveyor (decode : FbpMessage -> option string) (transform : FbpMessage -> option FbpMessage)
    (process : proc Pipe ProcessResult) : Prop := {
  conveyor_call p ctx f r : call process p ctx = Some (f, Some r) -> exists j, conveyed transform p j (fr_self f);
  conveyor_ready p ctx : ready decode transform p ctx ->
    exists f r j, call process p ctx = Some (f, Some r) /\ r <> Finished /\ conveyed transform p j (fr_self f) /\
      (0 < length (sink_items (ob_out (p_box (fr_self f)))) + Nat.min j (length (ring_items (p_in p))))%nat
}.

Lemma ready_room decode transform p ctx :
  ready decode transform p ctx -> room (ob_out (p_box p)) = ring_cap (pes_sink (ob_out (p_box p))).
Proof. intros [_ _ _ He _ _ _]. unfold room. rewrite He. apply Nat.sub_0_r. Qed.

Lemma ready_length decode transform p ctx :
  ready decode transform p ctx -> (0 < length (ob_pending (p_box p)) + length (ring_items (p_in p)))%nat.
Proof. intros [_ _ _ _ _ Hw _]. rewrite <- length_app. destruct (_ ++ _); [done|]. simpl. lia. Qed.

(** ** Repeat and Trim *)
Lemma piped_conveyed transform p n j p' es : piped transform p n j p' es -> conveyed transform p j p'.
Proof.
  intros [Ht Hpo (ms & Hbe & [Hi Hc _ _ Ha] & Hp)]. split; [done..|]. exists ms. split; [done|].
  by rewrite Hi, Hp, <- app_assoc, take_drop.
Qed.

#[export] Instance forwarding_conveyor transform : Conveyor as_text transform (pipe_process transform).
Proof.
  split.
  - intros p ctx f r Hcall. destruct (pipe_call transform p ctx) as (f' & r' & Hc & H).
    rewrite Hcall in Hc. injection Hc as <- <-. destruct H as (n & j & [Hp _ _ _]). exists j. by eapply piped_conveyed.
  - intros p ctx Hready. pose proof (ready_room _ _ _ _ Hready) as Hroom. pose proof (ready_length _ _ _ _ Hready) as Hlen.
    destruct Hready as [Hq Htot Hin He Hcap Hwork Hb]. destruct (pipe_call transform p ctx) as (f & r & Hcall & H).
    destruct r as [r|].
    2: { destruct H as (n & j & i & [_ Hi Hbad _]). destruct (Htot i) as [m Hm]; [by eapply list_elem_of_lookup_2|congruence]. }
    destruct H as (n & j & [Hp _ _ Hquiet]). destruct (Hquiet Hq) as (Hn & Hj & Hr). exists f, r, j.
    split_and!; [done| |by eapply piped_conveyed|].
    + rewrite Hr, Hin. simpl. unfold result_of_work. by destruct (_ <? _)%N.
    + destruct Hp as [[Ht _ _] _ (ms & Hbe & [Hi _ _ _ _] & _)]. rewrite Hi, length_app, length_take, length_app.
      apply Forall2_length in Hbe. rewrite length_take in Hbe. clear Hi Ht Hr Hcall Hquiet Hwork.
      unfold intake in Hj. rewrite <- Hn in Hj. unfold movable in Hn. destruct (_ <? _)%N; lia.
Qed.

(** ** The loops that keep what is rejected *)

(** A flush, then the loop, of which [j] packets were taken. *)
Lemma flush_conveyed note transform (p : Pipe) s o es (ctx : NodeContext) (w : N) es0 f' k :
  let q := ob_pending (p_box p) in
  let b := remaining_budget ctx in
  let n := movable b (ob_out (p_box p)) (length q) in
  polled (p_sig p) s -> sent (take n q) (ob_out (p_box p)) o es ->
  buffered note transform
    (mk_frame (mk_Pipe (p_in p) s (mk_Outbox o (drop n q)))
       (set_remaining_budget (b - N.of_nat n) ctx) (w + N.of_nat n) es0 0) f' k ->
  conveyed transform p k (fr_self f') /\ (n <= length (sink_items (ob_out (p_box (fr_self f')))))%nat.
Proof.
  intros q b n Hpo Hs Hbuf. destruct (flush_buffering _ _ _ _ _ _ _ _ _ _ _ Hs Hbuf) as (ms & Hbe & Hall).
  destruct Hs as [Hi Hc _ _ Ha], Hbuf as [_ _ _ _ Ht Hpo' _ (ms' & es' & _ & [[Hi' Hc' _ _ Ha'] _])]. simpl in *.
  split; [split; [done|by eapply polled_trans|congruence|congruence|by exists ms]|].
  rewrite Hi', Hi, !length_app, length_take. unfold n. movable_lia.
Qed.

(** A packet waits and one can be sent, or the loop takes one. *)
Lemma flush_moves decode transform p ctx o' k :
  ready decode transform p ctx ->
  let n := movable (remaining_budget ctx) (ob_out (p_box p)) (length (ob_pending (p_box p))) in
  k = N.to_nat ((remaining_budget ctx - N.of_nat n) `min` N.of_nat (length (ring_items (p_in p)))) ->
  (n <= length (sink_items o'))%nat -> (0 < length (sink_items o') + Nat.min k (length (ring_items (p_in p))))%nat.
Proof.
  intros Hr n -> Hn. pose proof (ready_room _ _ _ _ Hr). pose proof (ready_length _ _ _ _ Hr).
  destruct Hr as [_ _ _ _ Hc _ Hb]. unfold n in *. movable_lia.
Qed.

(** The beginning that such components have in common, with what follows the
    loop. *)
Lemma wp_keeping note decode transform (p : Pipe) ctx (tail : proc Pipe ProcessResult)
    (Q : ProcessResult -> frame Pipe -> Prop) (E : exit -> frame Pipe -> Prop) :
  let n := movable (remaining_budget ctx) (ob_out (p_box p)) (length (ob_pending (p_box p))) in
  (forall f k, conveyed transform p k (fr_self f) -> (n <= length (sink_items (ob_out (p_box (fr_self f)))))%nat ->
     fr_work f = N.of_nat (n + k) ->
     k = N.to_nat ((remaining_budget ctx - N.of_nat n) `min` N.of_nat (length (ring_items (p_in p)))) ->
     wp tail Q E f) ->
  (forall f k, ~ no_stop decode (p_sig p) -> conveyed transform p k (fr_self f) -> E (Return Finished) f) ->
  (forall f i, i ∈ ring_items (p_in p) -> transform i = None -> E Unwind f) ->
  wp (zoom l_p_sig (poll decode);; zoom l_p_box flush;; buffering decode note transform;; tail) Q E
    (mk_frame p ctx 0 [] 0).
Proof.
  intros n HQ HF HU. apply wp_bind, wp_zoom, wp_poll; cbn [fr_self].
  - intros _ s Hs. apply wp_bind, wp_zoom, wp_flush; simpl. intros o es Hsent _.
    apply wp_bind, wp_buffering; simpl.
    + intros f Hbuf. destruct (flush_conveyed _ _ _ _ _ _ _ _ _ _ _ Hs Hsent Hbuf) as [Hcy Hn].
      eapply HQ; [exact Hcy|exact Hn| |done]. destruct Hbuf as [_ _ _ Hw _ _ _ _]. simpl in Hw. rewrite Hw. fold n. lia.
    + intros e f Hends. destruct e as [|r|]; [done| |].
      * destruct r; try done. destruct Hends as [Hstop [k Hbuf]].
        destruct (flush_conveyed _ _ _ _ _ _ _ _ _ _ _ Hs Hsent Hbuf) as [Hcy _].
        apply (HF f k); [|done]. contradict Hstop. by eapply polled_no_stop.
      * destruct Hends as (k & i & r & _ & Hk & Hi & _). eapply HU; [by eapply list_elem_of_lookup_2|exact Hi].
  - intros Hstop s Hs. apply (HF _ 0%nat); [by apply (stop_next_stop _ _ Hstop)|].
    split; simpl; [apply taken_0|done..|]. exists []. split; [constructor|by rewrite app_nil_r].
Qed.

(** Such a component is a conveyor if the rest of the call leaves the ports as
    they are and, with the producer there, does not finish. *)
Lemma keeping_conveyor note decode transform (tail : proc Pipe ProcessResult) :
  (forall f, wp tail (fun r f' => fr_self f' = fr_self f /\
       (ring_is_abandoned (p_in (fr_self f)) = false -> r <> Finished))
     (fun e f' => fr_self f' = fr_self f /\ exists r, e = Return r /\
       (ring_is_abandoned (p_in (fr_self f)) = false -> r <> Finished)) f) ->
  Conveyor decode transform
    (zoom l_p_sig (poll decode);; zoom l_p_box flush;; buffering decode note transform;; tail).
Proof.
  intros Htail. split.
  - intros p ctx f r Hcall. set (m := _ ≫= _) in Hcall.
    destruct (wp_call m p ctx (fun f r => is_Some r -> exists j, conveyed transform p j (fr_self f))) as (f' & r' & Hc & H);
      [|rewrite Hcall in Hc; injection Hc as <- <-; by apply H].
    apply wp_keeping.
    + intros g k Hcy _ _ _. eapply wp_conseq; [apply Htail| |].
      * intros x h [-> _] _. by exists k.
      * intros e h [Hh (x & -> & _)] _. exists k. by rewrite Hh.
    + intros g k _ Hcy _. by exists k.
    + by intros g i _ _ [].
  - intros p ctx Hready. set (m := _ ≫= _).
    destruct (wp_call m p ctx (fun f r => exists x j, r = Some x /\ x <> Finished /\ conveyed transform p j (fr_self f) /\
      (0 < length (sink_items (ob_out (p_box (fr_self f)))) + Nat.min j (length (ring_items (p_in p))))%nat)) as (f & r & Hc & x & j & -> & H);
      [|by exists f, x, j].
    pose proof Hready as [Hq Htot Hin _ _ _ _]. apply wp_keeping.
    + intros g k Hcy Hn _ Hk. pose proof (flush_moves _ _ _ _ _ _ Hready Hk Hn) as Hmove.
      assert (ring_is_abandoned (p_in (fr_self g)) = false) as Ha by (by destruct Hcy as [[_ _ ->] _ _ _ _]).
      eapply wp_conseq; [apply Htail| |].
      * intros y h [-> Hy]. exists y, k. split_and!; auto.
      * intros e h [Hh (y & -> & Hy)]. rewrite Hh. exists y, k. split_and!; auto.
    + by intros g k [].
    + intros g i Hin' Hi. destruct (Htot i Hin') as [y Hy]. congruence.
Qed.

#[export] Instance printing_conveyor : Conveyor output_message_as_utf8 Some output_pipe.
Proof.
  apply keeping_conveyor. intros f. wp_run. destruct (0 <? _)%N; wp_run; [done|]. apply wp_is_abandoned. simpl.
  destruct (ring_is_abandoned _); wp_run; [|done]. split; [done|]. by exists Finished.
Qed.

#[export] Instance keeping_pipe_conveyor patient decode transform :
  Conveyor decode transform (keeping_pipe patient decode transform).
Proof.
  apply keeping_conveyor. intros f. wp_run. apply wp_is_abandoned. wp_run. simpl.
  destruct (ring_is_abandoned _); simpl.
  - destruct (_ || _); wp_run; [|done]. split; [done|]. by exists Finished.
  - wp_run. split; [done|]. intros _. unfold result_of_work. by destruct (_ <? _)%N.
Qed.

#[export] Instance stage_conveyor k : Conveyor (stage_decode k) (stage_transform k) (stage_process k).
Proof. destruct k; simpl; apply _. Qed.
End conveyors.
