(* ===== verification/ChainTheorems.v ===== *)
(** What is proved about chains of components: nothing is lost, duplicated or
    reordered on the way, and back-pressure never blocks a chain for good. *)
From S2P Require Import Prelude Api Scheduler Process Pipes PipesTheorems Chain Conveyors.
From Stdlib Require Strings.String.
From Stdlib Require Import NArith ZArith Lia.
From stdpp Require Import base list strings gmap.
Local Open Scope string_scope.
Local Open Scope list_scope.
Local Open Scope flowd_scope.

Section chain.
Context `{R : Rtrb}.
Implicit Types (c : Chain) (s : Stage).
Abbreviation transforms ss := (map sg_transform ss).

(** What a stage sent, keeps and left in its inport is what there was, the
    packets taken being transformed. *)
Lemma conveyed_moves transform p j p' :
  conveyed transform p j p' ->
  sink_items (ob_out (p_box p')) ++ ob_pending (p_box p') ++
    map (fun m => default m (transform m)) (ring_items (p_in p')) =
  sink_items (ob_out (p_box p)) ++ ob_pending (p_box p) ++
    map (fun m => default m (transform m)) (ring_items (p_in p)).
Proof.
  intros [[Ht _ _] _ _ _ (ms & Hb & Hp)]. rewrite app_assoc, Hp, Ht, <- !app_assoc. do 2 f_equal.
  assert (ms = map (fun m => default m (transform m)) (take j (ring_items (p_in p)))) as ->.
  { clear -Hb. induction Hb as [|i m l ms Him _ IH]; simpl; [done|]. by rewrite Him, IH. }
  by rewrite <- map_app, take_drop.
Qed.

(** ** Where the packets are *)

(** The part of the flight that does not depend on the first ring. *)
Definition ahead (rings : list ring) (stages : list Stage) : list FbpMessage :=
  match stages with
  | s :: stages => flight rings stages ++ map (through (transforms stages)) (sg_pending s)
  | [] => []
  end.

Lemma flight_ahead r rings stages :
  flight (r :: rings) stages = ahead rings stages ++ map (through (transforms stages)) (ring_items r).
Proof.
  destruct stages as [|s stages]; simpl; [|by rewrite app_assoc]. by rewrite map_id.
Qed.

Lemma transforms_insert i s s' stages :
  stages !! i = Some s -> sg_transform s' = sg_transform s ->
  transforms (<[i := s']> stages) = transforms stages.
Proof.
  intros Hi Ht. rewrite list_fmap_insert. apply list_insert_id. rewrite list_lookup_fmap, Hi. simpl.
  by rewrite Ht.
Qed.

Lemma flight_cons r rings s stages :
  flight (r :: rings) (s :: stages) = flight rings stages ++
    map (through (transforms stages)) (sg_pending s) ++
    map (through (transforms (s :: stages))) (ring_items r).
Proof. done. Qed.

(** A stage that moves packets of its own changes nothing in the flight. *)
Lemma flight_run i rings stages s s' rin rin' rout rout' :
  stages !! i = Some s -> rings !! i = Some rin -> rings !! S i = Some rout ->
  sg_transform s' = sg_transform s ->
  ring_items rout' ++ sg_pending s' ++
    map (fun m => default m (sg_transform s m)) (ring_items rin') =
  ring_items rout ++ sg_pending s ++
    map (fun m => default m (sg_transform s m)) (ring_items rin) ->
  flight (<[S i := rout']> (<[i := rin']> rings)) (<[i := s']> stages) = flight rings stages.
Proof.
  intros Hs Hin Hout Ht Hmoves. revert i rings Hs Hin Hout.
  induction stages as [|s0 stages IH]; intros i rings Hs Hin Hout; [done|].
  destruct rings as [|r0 rings]; [done|].
  destruct i as [|i]; cbn [lookup list_lookup] in Hs, Hin, Hout.
  - destruct rings as [|r1 rings]; [done|]. simpl in Hout. simplify_eq.
    change (flight (rin' :: rout' :: rings) (s' :: stages) = flight (rin :: rout :: rings) (s :: stages)).
    rewrite !flight_cons, !flight_ahead. cbn [map]. rewrite Ht, <- !app_assoc. f_equal.
    assert (forall l, map (through (transforms stages))
      (map (fun m => default m (sg_transform s m)) l) =
      map (through (sg_transform s :: transforms stages)) l) as Hmap.
    { intros l. by rewrite map_map. }
    apply (f_equal (map (through (transforms stages)))) in Hmoves.
    by rewrite !map_app, !Hmap in Hmoves.
  - change (flight (r0 :: <[S i := rout']> (<[i := rin']> rings)) (s0 :: <[i := s']> stages) =
      flight (r0 :: rings) (s0 :: stages)).
    rewrite !flight_cons, (IH i rings) by done. cbn [map]. by rewrite (transforms_insert i s s').
Qed.

(** Replacing the signals of a stage changes nothing. *)
Lemma flight_stage i rings stages s s' :
  stages !! i = Some s -> sg_transform s' = sg_transform s -> sg_pending s' = sg_pending s ->
  flight rings (<[i := s']> stages) = flight rings stages.
Proof.
  intros Hs Ht Hp. revert i rings Hs. induction stages as [|s0 stages IH]; intros i rings Hs; [done|].
  destruct rings as [|r0 rings]; [by destruct i|].
  destruct i as [|i]; cbn [lookup list_lookup] in Hs.
  - simplify_eq. change (flight (r0 :: rings) (s' :: stages) = flight (r0 :: rings) (s :: stages)).
    rewrite !flight_cons. cbn [map]. by rewrite Ht, Hp.
  - change (flight (r0 :: rings) (s0 :: <[i := s']> stages) = flight (r0 :: rings) (s0 :: stages)).
    rewrite !flight_cons, (IH i rings) by done. cbn [map]. by rewrite (transforms_insert i s s').
Qed.

Lemma flight_first r r' rings stages ms :
  ring_items r' = ring_items r ++ ms ->
  flight (<[0%nat := r']> (r :: rings)) stages =
    flight (r :: rings) stages ++ map (through (transforms stages)) ms.
Proof.
  intros Hr. change (flight (r' :: rings) stages =
    flight (r :: rings) stages ++ map (through (transforms stages)) ms).
  by rewrite !flight_ahead, Hr, map_app, app_assoc.
Qed.

Lemma flight_last rings stages r r' m :
  rings !! length stages = Some r -> ring_items r = m :: ring_items r' ->
  flight rings stages = m :: flight (<[length stages := r']> rings) stages.
Proof.
  intros Hl Hr. revert rings Hl. induction stages as [|s stages IH]; intros rings Hl;
    (destruct rings as [|r0 rings]; [done|]); cbn [lookup list_lookup length] in Hl.
  - simplify_eq. exact Hr.
  - change (flight (r0 :: rings) (s :: stages) =
      m :: flight (r0 :: <[length stages := r']> rings) (s :: stages)).
    by rewrite !flight_cons, (IH rings Hl).
Qed.

(** ** What is ahead of the packets *)

Lemma clear_cons r rings s stages :
  clear (r :: rings) (s :: stages) <-> clear rings stages /\ Forall (passes (transforms stages)) (sg_pending s) /\
    Forall (passes (transforms (s :: stages))) (ring_items r).
Proof. done. Qed.

(** The part that does not depend on the first ring. *)
Lemma clear_first r rings stages :
  clear (r :: rings) stages <->
  (forall r', ring_items r' = [] -> clear (r' :: rings) stages) /\ Forall (passes (transforms stages)) (ring_items r).
Proof.
  destruct stages as [|s stages].
  - simpl. split; [intros _|done]. split; [done|]. by apply Forall_true.
  - rewrite clear_cons. split.
    + intros (H1 & H2 & H3). split; [|done]. intros r' Hr'. rewrite clear_cons, Hr'. split_and!; [done..|constructor].
    + intros [H1 H2]. specialize (H1 (ring_new 0)). rewrite clear_cons, ring_new_items in H1.
      destruct (H1 eq_refl) as (? & ? & _). done.
Qed.

Lemma becomes_passes t ts l ms : becomes t l ms -> Forall (passes (t :: ts)) l -> Forall (passes ts) ms.
Proof.
  induction 1 as [|i m l ms Him _ IH]; [constructor|]. intros [(m' & Hm' & Hp) Hl]%Forall_cons.
  constructor; [congruence|by apply IH].
Qed.

(** The packets of a stage keep passing when it moves them. *)
Lemma clear_run i rings stages s s' rin rin' rout rout' j ms :
  stages !! i = Some s -> rings !! i = Some rin -> rings !! S i = Some rout ->
  sg_transform s' = sg_transform s -> ring_items rin' = drop j (ring_items rin) ->
  becomes (sg_transform s) (take j (ring_items rin)) ms ->
  ring_items rout' ++ sg_pending s' = ring_items rout ++ sg_pending s ++ ms ->
  clear rings stages -> clear (<[S i := rout']> (<[i := rin']> rings)) (<[i := s']> stages).
Proof.
  intros Hs Hin Hout Ht Hdrop Hms Hmoves. revert i rings Hs Hin Hout.
  induction stages as [|s0 stages IH]; intros i rings Hs Hin Hout; [done|].
  destruct rings as [|r0 rings]; [done|].
  destruct i as [|i]; cbn [lookup list_lookup] in Hs, Hin, Hout.
  - destruct rings as [|r1 rings]; [done|]. simpl in Hout. simplify_eq.
    change (clear (rin :: rout :: rings) (s :: stages) -> clear (rin' :: rout' :: rings) (s' :: stages)).
    rewrite !clear_cons, !clear_first. cbn [map]. rewrite Ht, Hdrop. intros ((H1 & H2) & H3 & H4).
    rewrite <- (take_drop j (ring_items rin)) in H4. apply Forall_app in H4 as [H4 H5].
    pose proof (becomes_passes _ _ _ _ Hms H4) as H6.
    assert (Forall (passes (transforms stages)) (ring_items rout' ++ sg_pending s')) as [H7 H8]%Forall_app
      by (rewrite Hmoves; rewrite !Forall_app; done).
    by split_and!.
  - change (clear (r0 :: rings) (s0 :: stages) ->
      clear (r0 :: <[S i := rout']> (<[i := rin']> rings)) (s0 :: <[i := s']> stages)).
    rewrite !clear_cons. cbn [map]. rewrite (transforms_insert i s s') by done. intros (H1 & H2 & H3).
    split_and!; [by eapply IH|done|done].
Qed.

(** Replacing the signals of a stage changes nothing. *)
Lemma clear_stage i rings stages s s' :
  stages !! i = Some s -> sg_transform s' = sg_transform s -> sg_pending s' = sg_pending s ->
  clear rings stages -> clear rings (<[i := s']> stages).
Proof.
  intros Hs Ht Hp. revert i rings Hs. induction stages as [|s0 stages IH]; intros i rings Hs; [done|].
  destruct rings as [|r0 rings]; [by destruct i|].
  destruct i as [|i]; cbn [lookup list_lookup] in Hs.
  - simplify_eq. change (clear (r0 :: rings) (s :: stages) -> clear (r0 :: rings) (s' :: stages)).
    rewrite !clear_cons. cbn [map]. by rewrite Ht, Hp.
  - change (clear (r0 :: rings) (s0 :: stages) -> clear (r0 :: rings) (s0 :: <[i := s']> stages)).
    rewrite !clear_cons. cbn [map]. rewrite (transforms_insert i s s') by done. intros (H1 & H2 & H3).
    split_and!; [by apply IH|done|done].
Qed.

Lemma clear_last rings stages r r' :
  rings !! length stages = Some r -> clear rings stages -> clear (<[length stages := r']> rings) stages.
Proof.
  revert rings. induction stages as [|s stages IH]; intros rings Hl;
    (destruct rings as [|r0 rings]; [done|]); cbn [lookup list_lookup length] in Hl; [done|].
  change (clear (r0 :: rings) (s :: stages) -> clear (r0 :: <[length stages := r']> rings) (s :: stages)).
  rewrite !clear_cons. intros (H1 & H2 & H3). split_and!; [by apply IH|done|done].
Qed.

Lemma clear_at i rings stages s rin :
  stages !! i = Some s -> rings !! i = Some rin -> clear rings stages ->
  forall m, m ∈ ring_items rin -> is_Some (sg_transform s m).
Proof.
  revert i rings. induction stages as [|s0 stages IH]; intros i rings Hs Hin; [done|].
  destruct rings as [|r0 rings]; [done|]. rewrite clear_cons. intros (H1 & _ & H2).
  destruct i as [|i]; cbn [lookup list_lookup] in Hs, Hin; [|by eapply IH]. simplify_eq.
  intros m Hm. eapply Forall_forall in H2 as (m' & Hm' & _); [by exists m'|done].
Qed.

Lemma clear_untouched rings stages :
  Forall (fun r => ring_items r = [] /\ (0 < ring_cap r)%nat) rings ->
  Forall (fun s => sg_pending s = [] /\ sg_finished s = false) stages -> clear rings stages.
Proof.
  intros Hr Hs. revert stages Hs. induction Hr as [|r rings [Hi _] _ IH]; intros stages Hs; [by destruct stages|].
  destruct Hs as [|s stages [Hp _] Hs]; [done|]. rewrite clear_cons, Hp, Hi. split_and!; [by apply IH|constructor..].
Qed.

(** ** The invariant *)

Record conserving c : Prop := mk_conserving {
  cv_shape : length (ch_rings c) = S (length (ch_stages c));
  cv_caps : Forall (fun r => (0 < ring_cap r)%nat) (ch_rings c);
  cv_packets : ch_got c ++ flight (ch_rings c) (ch_stages c) =
               map (through (transforms (ch_stages c))) (ch_fed c);
  cv_clear : Forall (passes (transforms (ch_stages c))) (ch_fed c) -> clear (ch_rings c) (ch_stages c)
}.

Lemma flight_untouched rings stages :
  Forall (fun r => ring_items r = [] /\ (0 < ring_cap r)%nat) rings ->
  Forall (fun s => sg_pending s = [] /\ sg_finished s = false) stages -> flight rings stages = [].
Proof.
  intros Hr Hs. revert stages Hs. induction Hr as [|r rings [Hi _] _ IH]; intros stages Hs; [by destruct stages|].
  destruct Hs as [|s stages [Hp _] Hs]; [done|]. by rewrite flight_cons, (IH stages Hs), Hp, Hi.
Qed.

Lemma untouched_conserving c : untouched c -> conserving c.
Proof.
  intros [Hsh Hr Hs Hf Hg]. split; [done| | |].
  - eapply Forall_impl; [exact Hr|]. by intros r [_ ?].
  - by rewrite Hf, Hg, (flight_untouched _ _ Hr Hs).
  - intros _. by apply clear_untouched.
Qed.

Lemma ring_after_items p r : ring_items (ring_after p r) = sink_items (ob_out (p_box p)).
Proof. destruct r; try done. apply ring_drop_producer_items. Qed.
Lemma ring_after_cap p r : ring_cap (ring_after p r) = ring_cap (pes_sink (ob_out (p_box p))).
Proof. destruct r; try done. apply ring_drop_producer_cap. Qed.

Lemma step_conserving c c' : chain_step c c' -> conserving c -> conserving c'.
Proof.
  intros Hstep [Hsh Hcap Hp Hclear].
  destruct Hstep as [i ctx c s rin rout f r Hs Hfin Hin Hout Hcall|c r m r' Hr Hab Hpush|c r Hr
                    |c r m r' Hr Hpop|i c s m sin' Hs Hsend]; split; cbn [ch_rings ch_stages ch_got ch_fed] in *.
  all: rewrite ?length_insert; try done.
  - apply conveyor_call in Hcall as (j & [[_ Hc1 _] _ Hc2 _ _]).
    apply Forall_insert; [apply Forall_insert; [done|]|].
    + rewrite Hc1. by apply (Forall_lookup_1 _ _ _ _ Hcap Hin).
    + rewrite ring_after_cap, Hc2. by apply (Forall_lookup_1 _ _ _ _ Hcap Hout).
  - apply conveyor_call in Hcall as (j & Hmoves%conveyed_moves).
    rewrite (transforms_insert i s) by done.
    rewrite (flight_run i _ _ s _ rin _ rout); try done. by rewrite ring_after_items.
  - rewrite (transforms_insert i s) by done. intros Hfed%Hclear.
    apply conveyor_call in Hcall as (j & [[Hdrop _ _] _ _ _ (ms & Hms & Hmoves)]).
    apply (clear_run i _ _ s _ rin _ rout _ j ms); try done. by rewrite ring_after_items.
  - apply Forall_insert; [done|]. pose proof (ring_push_cap m r) as Hc. rewrite Hpush in Hc. simpl in Hc.
    rewrite Hc. by apply (Forall_lookup_1 _ _ _ _ Hcap Hr).
  - destruct (ch_rings c) as [|r0 rings]; [done|]. injection Hr as ->.
    pose proof (ring_push_items m r) as Hi. pose proof (ring_push_res m r) as Hres.
    rewrite Hpush in Hi, Hres. simpl in Hi, Hres. destruct (_ <? _)%nat; [|done].
    rewrite (flight_first r r' rings _ [m]) by done. by rewrite map_app, app_assoc, Hp.
  - destruct (ch_rings c) as [|r0 rings]; [done|]. injection Hr as ->.
    pose proof (ring_push_items m r) as Hi. pose proof (ring_push_res m r) as Hres.
    rewrite Hpush in Hi, Hres. simpl in Hi, Hres. destruct (_ <? _)%nat; [|done].
    intros [Hfed%Hclear Hm]%Forall_app. change (clear (r' :: rings) (ch_stages c)). rewrite clear_first in *.
    destruct Hfed as [H1 H2]. split; [exact H1|]. rewrite Hi. by apply Forall_app.
  - apply Forall_insert; [done|]. rewrite ring_drop_producer_cap.
    by apply (Forall_lookup_1 _ _ _ _ Hcap Hr).
  - destruct (ch_rings c) as [|r0 rings]; [done|]. injection Hr as ->.
    rewrite (flight_first r _ rings _ []); [by rewrite app_nil_r|].
    by rewrite ring_drop_producer_items, app_nil_r.
  - destruct (ch_rings c) as [|r0 rings]; [done|]. injection Hr as ->. intros Hfed%Hclear.
    change (clear (ring_drop_producer r :: rings) (ch_stages c)). rewrite clear_first in *.
    by rewrite ring_drop_producer_items.
  - apply Forall_insert; [done|]. pose proof (ring_pop_cap r) as Hc. rewrite Hpop in Hc. simpl in Hc.
    rewrite Hc. by apply (Forall_lookup_1 _ _ _ _ Hcap Hr).
  - pose proof (ring_pop_items r) as Hi. pose proof (ring_pop_res r) as Hres.
    rewrite Hpop in Hi, Hres. simpl in Hi, Hres.
    assert (ring_items r = m :: ring_items r') as Hcons by (destruct (ring_items r); simplify_eq/=; congruence).
    rewrite (flight_last _ _ r r' m Hr Hcons) in Hp. by rewrite <- app_assoc.
  - intros Hfed%Hclear. by eapply clear_last.
  - rewrite (flight_stage i _ _ s) by done. by rewrite (transforms_insert i s).
  - rewrite (transforms_insert i s) by done. intros Hfed%Hclear. by eapply clear_stage.
Qed.

Lemma reachable_conserving c0 c : untouched c0 -> rtc chain_step c0 c -> conserving c.
Proof.
  intros H0 Hr. apply untouched_conserving in H0. induction Hr; [done|]. eauto using step_conserving.
Qed.

(** C3: what the consumer behind a chain has received and what is still in the
    chain, oldest first, is exactly what the producer has sent, each packet
    transformed by every stage: whatever the length of the chain, the sizes of
    its rings, the order in which the stages are called, their budgets and
    signals, and wherever stages have finished, no packet is lost, duplicated
    or overtaken. *)
Theorem chain_conserves c0 c :
  untouched c0 -> rtc chain_step c0 c ->
  ch_got c ++ flight (ch_rings c) (ch_stages c) = map (through (transforms (ch_stages c))) (ch_fed c).
Proof. intros H0 Hr. apply (reachable_conserving c0 c H0 Hr). Qed.

(** ** Progress *)

Lemma distance_cons r rings s stages :
  distance (r :: rings) (s :: stages) = distance rings stages +
    (2 * length stages + 2) * length (sg_pending s) + (2 * length stages + 3) * length (ring_items r).
Proof. done. Qed.

Lemma distance_first r r' rings stages :
  distance (r' :: rings) stages + (2 * length stages + 1) * length (ring_items r) =
  distance (r :: rings) stages + (2 * length stages + 1) * length (ring_items r').
Proof. destruct stages as [|s stages]; [simpl; lia|]. rewrite !distance_cons. simpl length. lia. Qed.

Lemma distance_run i k rings stages s s' rin rin' rout rout' :
  stages !! i = Some s -> rings !! i = Some rin -> rings !! S i = Some rout ->
  length stages = i + S k ->
  distance (<[S i := rout']> (<[i := rin']> rings)) (<[i := s']> stages) +
    (2 * k + 1) * length (ring_items rout) + (2 * k + 2) * length (sg_pending s) +
    (2 * k + 3) * length (ring_items rin) =
  distance rings stages +
    (2 * k + 1) * length (ring_items rout') + (2 * k + 2) * length (sg_pending s') +
    (2 * k + 3) * length (ring_items rin').
Proof.
  revert i rings. induction stages as [|s0 stages IH]; intros i rings Hs Hin Hout Hk; [done|].
  destruct rings as [|r0 rings]; [done|]. destruct i as [|i]; cbn [lookup list_lookup] in Hs, Hin, Hout.
  - destruct rings as [|r1 rings]; [done|]. simpl in Hout. simplify_eq/=.
    change (distance (rin' :: rout' :: rings) (s' :: stages) +
      (2 * length stages + 1) * length (ring_items rout) + (2 * length stages + 2) * length (sg_pending s) +
      (2 * length stages + 3) * length (ring_items rin) =
      distance (rin :: rout :: rings) (s :: stages) + (2 * length stages + 1) * length (ring_items rout') +
      (2 * length stages + 2) * length (sg_pending s') + (2 * length stages + 3) * length (ring_items rin')).
    rewrite !distance_cons. pose proof (distance_first rout rout' rings stages). lia.
  - change (distance (r0 :: <[S i := rout']> (<[i := rin']> rings)) (s0 :: <[i := s']> stages) +
      (2 * k + 1) * length (ring_items rout) + (2 * k + 2) * length (sg_pending s) +
      (2 * k + 3) * length (ring_items rin) =
      distance (r0 :: rings) (s0 :: stages) + (2 * k + 1) * length (ring_items rout') +
      (2 * k + 2) * length (sg_pending s') + (2 * k + 3) * length (ring_items rin')).
    rewrite !distance_cons, length_insert. specialize (IH i rings Hs Hin Hout). simpl in Hk. lia.
Qed.

(** A stage with work and an empty ring behind it, unless the consumer has
    something to take. *)
Lemma stage_with_work rings stages :
  length rings = S (length stages) -> flight rings stages <> [] ->
  (exists r, rings !! length stages = Some r /\ ring_items r <> []) \/
  exists i s rin rout, stages !! i = Some s /\ rings !! i = Some rin /\ rings !! S i = Some rout /\
    ring_items rout = [] /\ sg_pending s ++ ring_items rin <> [].
Proof.
  revert rings. induction stages as [|s stages IH]; intros rings Hlen Hf.
  { destruct rings as [|r []]; try done. left. by exists r. }
  destruct rings as [|r0 [|r1 rings]]; [done..|]. simpl in Hlen.
  destruct (decide (flight (r1 :: rings) stages = [])) as [He|Hne].
  - right. exists 0%nat, s, r0, r1. repeat split; try done.
    + rewrite flight_ahead in He. apply app_eq_nil in He as [_ He%map_eq_nil]. done.
    + intros [Hp Hi]%app_eq_nil. apply Hf. by rewrite flight_cons, He, Hp, Hi.
  - destruct (IH (r1 :: rings)) as [(r & Hr & Hi)|(i & s' & rin & rout & ? & ? & ? & ?)]; [simpl; lia|done| |].
    + left. by exists r.
    + right. by exists (S i), s', rin, rout.
Qed.

(** Nothing stands in the way of the packets: no stage has finished or has
    been told to stop, no packet makes one unwind, and no producer is gone. *)
Record open c : Prop := mk_open {
  op_stages : Forall (fun s => sg_finished s = false /\ no_stop (stage_decode (sg_kind s)) (sg_signals s)) (ch_stages c);
  op_fed : Forall (passes (transforms (ch_stages c))) (ch_fed c);
  op_rings : Forall (fun r => ring_is_abandoned r = false) (ch_rings c)
}.

(** A call of an open stage with work and an empty ring behind it. *)
Lemma stage_call s rin rout ctx :
  no_stop (stage_decode (sg_kind s)) (sg_signals s) ->
  (forall m, m ∈ ring_items rin -> is_Some (sg_transform s m)) ->
  ring_is_abandoned rin = false -> ring_is_abandoned rout = false -> (0 < ring_cap rout)%nat ->
  ring_items rout = [] -> sg_pending s ++ ring_items rin <> [] -> (0 < remaining_budget ctx)%N ->
  exists f r, call (stage_process (sg_kind s)) (stage_pipe rin rout s) ctx = Some (f, Some r) /\
    r <> Finished /\ no_stop (stage_decode (sg_kind s)) (p_sig (fr_self f)) /\
    ring_is_abandoned (p_in (fr_self f)) = false /\
    ring_is_abandoned (pes_sink (ob_out (p_box (fr_self f)))) = false /\
    forall k, (2 * k + 1) * length (sink_items (ob_out (p_box (fr_self f)))) +
        (2 * k + 2) * length (ob_pending (p_box (fr_self f))) +
        (2 * k + 3) * length (ring_items (p_in (fr_self f))) <
      (2 * k + 2) * length (sg_pending s) + (2 * k + 3) * length (ring_items rin).
Proof.
  intros Hq Htot Hin Haout Hcap Hempty Hwork Hb.
  destruct (conveyor_ready (stage_pipe rin rout s) ctx
    (mk_ready (stage_decode (sg_kind s)) (stage_transform (sg_kind s)) (stage_pipe rin rout s) ctx Hq Htot Hin Hempty Hcap Hwork Hb))
    as (f & r & j & Hcall & Hr & [[Ht _ Ha] Hpo _ Hab (ms & Hbe & Hp)] & Hmove). simpl in *.
  exists f, r. split_and!; [done|done|by eapply polled_no_stop|congruence|by rewrite Hab|].
  intros k. apply (f_equal length) in Hp. rewrite !length_app, (Hempty : sink_items (sink_at rout (sg_out s)) = []) in Hp.
  apply Forall2_length in Hbe. rewrite length_take in Hbe. rewrite Ht, length_drop. simpl in Hp. nia.
Qed.

Lemma distance_last rings stages r r' m :
  rings !! length stages = Some r -> ring_items r = m :: ring_items r' ->
  (distance (<[length stages := r']> rings) stages < distance rings stages)%nat.
Proof.
  intros Hl Hr. revert rings Hl. induction stages as [|s stages IH]; intros rings Hl;
    (destruct rings as [|r0 rings]; [done|]); cbn [lookup list_lookup length] in Hl.
  - injection Hl as ->. change (length (ring_items r') < length (ring_items r))%nat.
    rewrite Hr. simpl. lia.
  - change (distance (r0 :: <[length stages := r']> rings) (s :: stages) <
      distance (r0 :: rings) (s :: stages))%nat.
    rewrite !distance_cons. specialize (IH rings Hl). lia.
Qed.

Lemma turn_step ctx c c' : chain_turn ctx c c' -> chain_step c c'.
Proof. destruct 1; [by eapply chain_run|by eapply chain_take]. Qed.

Lemma turns_steps n ctxs c c' : chain_turns n ctxs c c' -> rtc chain_step c c'.
Proof. induction 1; [done|]. eapply rtc_l; [by eapply turn_step|done]. Qed.

(** As long as something is on its way, some turn brings it closer. *)
Lemma open_step ctx c :
  (0 < remaining_budget ctx)%N -> conserving c -> open c -> flight (ch_rings c) (ch_stages c) <> [] ->
  exists c', chain_turn ctx c c' /\ open c' /\ ch_fed c' = ch_fed c /\
    transforms (ch_stages c') = transforms (ch_stages c) /\
    (distance (ch_rings c') (ch_stages c') < distance (ch_rings c) (ch_stages c))%nat.
Proof.
  intros Hb [Hsh Hcap _ Hclear] [Hst Hfed Hri] Hf. specialize (Hclear Hfed).
  destruct (stage_with_work _ _ Hsh Hf) as [(r & Hr & Hi)|(i & s & rin & rout & Hs & Hin & Hout & He & Hw)].
  - destruct (ring_pop r) as [res r'] eqn:Hpop. pose proof (ring_pop_res r) as Hres.
    pose proof (ring_pop_items r) as Hit. pose proof (ring_pop_abandoned r) as Ha.
    rewrite Hpop in Hres, Hit, Ha. simpl in *. destruct (ring_items r) as [|m rest] eqn:Hitems; [done|].
    simplify_eq/=. eexists. split; [by eapply turn_take|]. simpl. split_and!; try done.
    + split; [done..|]. apply Forall_insert; [done|]. rewrite Ha.
      by apply (Forall_lookup_1 _ _ _ _ Hri Hr).
    + by apply (distance_last _ _ r r' m Hr).
  - destruct (Forall_lookup_1 _ _ _ _ Hst Hs) as (Hfin & Hq).
    pose proof (clear_at _ _ _ _ _ Hs Hin Hclear) as Htot.
    destruct (stage_call s rin rout ctx Hq Htot (Forall_lookup_1 _ _ _ _ Hri Hin)
      (Forall_lookup_1 _ _ _ _ Hri Hout) (Forall_lookup_1 _ _ _ _ Hcap Hout) He Hw Hb)
      as (f & r & Hcall & Hr & Hq' & Hain & Haout & Hcloser).
    eexists. split; [by eapply turn_run|]. simpl.
    assert (ring_after (fr_self f) r = pes_sink (ob_out (p_box (fr_self f)))) as Hafter by (by destruct r).
    split_and!; [|done|by apply (transforms_insert i s)|].
    + split; simpl.
      * apply Forall_insert; [done|]. split; [by destruct r|done].
      * by rewrite (transforms_insert i s).
      * apply Forall_insert; [by apply Forall_insert|by rewrite Hafter].
    + apply lookup_lt_Some in Hs as Hlt.
      pose proof (distance_run i (length (ch_stages c) - S i) (ch_rings c) (ch_stages c) s
        (stage_after s (fr_self f) r) rin (p_in (fr_self f)) rout (ring_after (fr_self f) r) Hs Hin Hout) as Hd.
      specialize (Hcloser (length (ch_stages c) - S i)%nat). rewrite Hafter in Hd |- *.
      unfold sink_items in Hcloser. simpl sg_pending in Hd. rewrite He in Hd. simpl length in Hd. lia.
Qed.

Lemma open_stage_drains ctxs c :
  (forall n, (0 < remaining_budget (ctxs n))%N) -> conserving c -> open c ->
  exists n c', (n <= distance (ch_rings c) (ch_stages c))%nat /\ chain_turns n ctxs c c' /\
    ch_fed c' = ch_fed c /\ flight (ch_rings c') (ch_stages c') = [] /\
    ch_got c' = map (through (transforms (ch_stages c))) (ch_fed c).
Proof.
  remember (distance (ch_rings c) (ch_stages c)) as d eqn:Hd. revert ctxs c Hd.
  induction d as [d IH] using lt_wf_ind. intros ctxs c -> Hb Hc Ho.
  destruct (decide (flight (ch_rings c) (ch_stages c) = [])) as [He|Hne].
  - exists 0%nat, c. split_and!; [lia|constructor|done|done|]. pose proof (cv_packets c Hc) as Hp.
    by rewrite He, app_nil_r in Hp.
  - destruct (open_step (ctxs 0%nat) c (Hb 0%nat) Hc Ho Hne) as (c1 & Hstep & Ho1 & Hf1 & Ht1 & Hlt).
    destruct (IH _ Hlt (fun i => ctxs (S i)) c1 eq_refl (fun n => Hb (S n))
      (step_conserving _ _ (turn_step _ _ _ Hstep) Hc) Ho1) as (n & c' & Hn & Hs & Hf & Hfl & Hg).
    exists (S n), c'. split_and!; [lia|by eapply turns_more|congruence|done|congruence].
Qed.

(** C13: back-pressure never blocks a chain for good: in every state that the
    chain can reach with no stage finished or told to stop, no packet that
    unwinds and no end gone, and whatever positive budgets the next calls are
    given, calling the right stages with these budgets and draining the end of
    the chain delivers every packet that has been sent, transformed and in
    order, after at most as many turns as the packets have moves to make. *)
Theorem chain_drains ctxs c0 c :
  (forall n, (0 < remaining_budget (ctxs n))%N) -> untouched c0 -> rtc chain_step c0 c -> open c ->
  exists n c', (n <= distance (ch_rings c) (ch_stages c))%nat /\ chain_turns n ctxs c c' /\
    ch_fed c' = ch_fed c /\ flight (ch_rings c') (ch_stages c') = [] /\
    ch_got c' = map (through (transforms (ch_stages c))) (ch_fed c).
Proof. intros Hb H0 Hr Ho. by apply (open_stage_drains ctxs c Hb (reachable_conserving c0 c H0 Hr)). Qed.
End chain.

(** * Two Repeats in a row *)
#[local] Existing Instance list_rtrb.

Definition demo_stage : Stage :=
  mk_Stage (Forwarding Some) (mk_Signals demo_channel demo_channel) (demo_out 2) [] false.
Definition demo_chain : Chain :=
  mk_Chain [ring_new 2; ring_new 1; ring_new 2] [demo_stage; demo_stage] [] [].

Lemma demo_untouched : untouched demo_chain.
Proof. split; try done; repeat constructor. Defined.

(** One packet sent, and moved by the first stage. *)
Definition demo_chain_1 : Chain :=
  mk_Chain [mk_list_ring [] 2 false; mk_list_ring [from_str "a"] 1 false; mk_list_ring [] 2 false]
    [mk_Stage (Forwarding Some) (mk_Signals demo_channel demo_channel)
       (sink_at (mk_list_ring [from_str "a"] 1 false) (demo_out 2)) [] false; demo_stage]
    [from_str "a"] [].

Lemma rtc_eq {A} (S : relation A) x y : x = y -> rtc S x y.
Proof. intros ->. apply rtc_refl. Defined.

Lemma demo_chain_steps : rtc chain_step demo_chain demo_chain_1.
Proof.
  eapply rtc_l; [by eapply (chain_feed demo_chain _ (from_str "a"))|].
  eapply rtc_l; [eapply (chain_run 0%nat (demo_context Normal 32) _ demo_stage); [reflexivity..|vm_compute; reflexivity]|].
  apply rtc_eq. vm_compute. reflexivity.
Defined.

Lemma chain_conserves_witness :
  ch_got demo_chain_1 ++ flight (ch_rings demo_chain_1) (ch_stages demo_chain_1) = [from_str "a"].
Proof. exact (chain_conserves demo_chain demo_chain_1 demo_untouched demo_chain_steps). Defined.

Lemma chain_drains_witness : exists n c', chain_turns n (fun _ => demo_context Normal 1) demo_chain_1 c' /\
  ch_got c' = [from_str "a"].
Proof.
  destruct (chain_drains (fun _ => demo_context Normal 1) demo_chain demo_chain_1) as (n & c' & _ & Hs & _ & _ & Hg).
  - intros n. by vm_compute.
  - exact demo_untouched.
  - exact demo_chain_steps.
  - split; repeat constructor; repeat (eexists; split; [reflexivity|]); done.
  - by exists n, c'.
Defined.

(** A stage that finds its producer gone finishes although its budget did not
    let it read everything: the second packet stays in the first ring, whose
    consumer will not run again. *)
Example chain_strands : exists c, rtc chain_step demo_chain c /\
  map sg_finished (ch_stages c) = [true; false] /\ ch_fed c = [from_str "a"; from_str "b"] /\
  map (fun r => length (ring_items r)) (ch_rings c) = [1; 1; 0]%nat.
Proof.
  eexists. split.
  - eapply rtc_l; [by eapply (chain_feed demo_chain _ (from_str "a"))|].
    eapply rtc_l; [by eapply (chain_feed _ _ (from_str "b"))|].
    eapply rtc_l; [by eapply chain_close|].
    eapply rtc_l; [eapply (chain_run 0%nat (demo_context Normal 1) _ demo_stage); [reflexivity..|vm_compute; reflexivity]|]. apply rtc_refl.
  - by vm_compute.
Qed.
