(* ===== verification/Sinks.v ===== *)
(** The components that consume their input: [Drop], [Count], [Visualization]
    and [Panic], their state, [new] and [process].

    The URL parser (crate url) and the number parser (crate atoi) that Count
    uses are arguments; the clock is a stream of readings. *)
From S2P Require Import Prelude Api Scheduler Process Pipes.
From Stdlib Require Strings.String.
From Stdlib Require Import NArith ZArith Lia Strings.Byte Strings.Ascii.
From stdpp Require Import base list strings gmap pretty.
Local Open Scope string_scope.
Local Open Scope list_scope.
Local Open Scope flowd_scope.

Section sinks.
Context `{R : Rtrb}.

(** [self.inn.read_chunk(n)], consumed as a whole. *)
Definition read_chunk {C} (l : lens C ring) (n : nat) : proc C (option (list FbpMessage)) := fun f =>
  match ring_read_chunk n (get l (fr_self f)) with
  | Some (ms, r) => Some (with_self (set l r (fr_self f)) f, inl (Some ms))
  | None => Some (f, inl None)
  end.

#[export] Instance keeps_read_chunk {C} (l : lens C ring) n : Keeps (read_chunk l n).
Proof.
  intros f f' x. unfold read_chunk. destruct (ring_read_chunk _ _) as [[ms r]|]; by intros [= <- _].
Qed.

(** [self.inn.slots().min(context.remaining_budget as usize)]. *)
Definition to_process {C} (l : lens C ring) : proc C nat := fun f =>
  Some (f, inl (Nat.min (ring_slots (get l (fr_self f))) (N.to_nat (remaining_budget (fr_ctx f))))).

#[export] Instance keeps_to_process {C} (l : lens C ring) : Keeps (to_process l).
Proof. intros f f' x. by intros [= <- _]. Qed.

(** A check of the signal port; [on_stop] runs before a "stop" finishes. *)
Definition stop_signal {C} (decode : FbpMessage -> option string) (s : lens C Signals)
    (on_stop : proc C unit) : proc C unit :=
  stop ← zoom s (signal_stop decode);
  if (stop : bool) then on_stop;; return_ Finished else mret tt.

(** The loop of Drop and Count over chunks of the inport; [on_stop] is what a
    "stop" does first, [consume] what is done with a chunk. *)
Definition chunks {C} (decode : FbpMessage -> option string) (l : lens C ring) (s : lens C Signals)
    (on_stop : proc C unit) (consume : list FbpMessage -> proc C unit) : proc C unit :=
  while (fun f => S (ring_slots (get l (fr_self f))))
    (fun f => (0 <? remaining_budget (fr_ctx f))%N && negb (ring_is_empty (get l (fr_self f))))
    (stop_signal decode s on_stop;;
     n ← to_process l;
     if (0 <? n)%nat then
       chunk ← read_chunk l n;
       match chunk with
       | Some ms =>
           consume ms;; work (N.of_nat (length ms));; charge (N.of_nat (length ms))
       | None => break
       end
     else break).

(** * Drop *)

Record DropComponent : Type := mk_DropComponent {
  dr_inn : ring;
  dr_signals_in : sync_channel;
  dr_signals_out : sync_channel
}.

Definition new_drop `{MultiMapLib ring} (inports : multimap ring)
    (signals_in signals_out : sync_channel) : outcome DropComponent :=
  let* (inn, inports) := take_port "IN" inports in
  Done (mk_DropComponent inn signals_in signals_out).

Definition dr_l_inn : lens DropComponent ring := mk_lens dr_inn
  (fun r c => mk_DropComponent r (dr_signals_in c) (dr_signals_out c)).
Definition dr_l_sig : lens DropComponent Signals := mk_lens
  (fun c => mk_Signals (dr_signals_in c) (dr_signals_out c))
  (fun s c => mk_DropComponent (dr_inn c) (sig_in s) (sig_out s)).

Definition drop_process : proc DropComponent ProcessResult :=
  stop_signal as_text dr_l_sig (mret tt);;
  chunks as_text dr_l_inn dr_l_sig (mret tt) (fun _ => mret tt);;
  w ← work_units;
  if (0 <? w)%N then mret (DidWork w)
  else
    abandoned ← is_abandoned dr_l_inn;
    if (abandoned : bool) then return_ Finished else mret NoWork.

(** * Panic *)

Record PanicComponent : Type := mk_PanicComponent {
  pc_inn : ring;
  pc_out : ProcessEdgeSink;
  pc_signals_in : sync_channel;
  pc_signals_out : sync_channel
}.

Definition new_panic `{MultiMapLib ring} `{MultiMapLib ProcessEdgeSink}
    (inports : multimap ring) (outports : multimap ProcessEdgeSink)
    (signals_in signals_out : sync_channel) : outcome PanicComponent :=
  let* (inn, inports) := take_port "IN" inports in
  let* (out, outports) := take_port "OUT" outports in
  Done (mk_PanicComponent inn out signals_in signals_out).

Definition pc_l_inn : lens PanicComponent ring := mk_lens pc_inn
  (fun r c => mk_PanicComponent r (pc_out c) (pc_signals_in c) (pc_signals_out c)).

Definition panic_process : proc PanicComponent ProcessResult :=
  ip ← pop pc_l_inn;
  match ip with
  | Some _ => panic
  | None =>
      abandoned ← is_abandoned pc_l_inn;
      if (abandoned : bool) then return_ Finished else mret NoWork
  end.

(** * Visualization *)

Record FlowdVisComponent : Type := mk_FlowdVisComponent {
  vi_inn : ring;
  vi_signals_in : sync_channel;
  vi_signals_out : sync_channel
}.

Definition new_vis `{MultiMapLib ring} (inports : multimap ring)
    (signals_in signals_out : sync_channel) : outcome FlowdVisComponent :=
  let* (inn, inports) := take_port "IN" inports in
  Done (mk_FlowdVisComponent inn signals_in signals_out).

Definition vi_l_inn : lens FlowdVisComponent ring := mk_lens vi_inn
  (fun r c => mk_FlowdVisComponent r (vi_signals_in c) (vi_signals_out c)).
Definition vi_l_sig : lens FlowdVisComponent Signals := mk_lens
  (fun c => mk_Signals (vi_signals_in c) (vi_signals_out c))
  (fun s c => mk_FlowdVisComponent (vi_inn c) (sig_in s) (sig_out s)).

Definition vis_process : proc FlowdVisComponent ProcessResult :=
  zoom vi_l_sig (poll message_as_utf8);;
  while (fun f => S (ring_slots (vi_inn (fr_self f))))
    (fun f => (0 <? remaining_budget (fr_ctx f))%N)
    (ip ← pop vi_l_inn;
     match ip with
     | Some _ =>
         emit (send_network_previewurl_comfortable "https://placehold.co/150x150");;
         work 1;; charge 1
     | None => break
     end);;
  abandoned ← is_abandoned vi_l_inn;
  if (abandoned : bool) then return_ Finished
  else
    inn ← read vi_l_inn;
    (if (0 <? ring_slots inn)%nat then emit [EffContextReady] else mret tt);;
    w ← work_units; mret (result_of_work w).

(** * Count *)

Inductive Mode : Type := Packets | Size | Sum.

Record CountComponent : Type := mk_CountComponent {
  ct_conf : ring;
  ct_inn : ring;
  ct_out : ProcessEdgeSink;
  ct_signals_in : sync_channel;
  ct_signals_out : sync_channel;
  ct_mode : option Mode;
  ct_packets : N;
  ct_packetsize : N;
  ct_sum : N;
  ct_start : option Instant;
  ct_start_1st : option Instant;
  ct_pending_reports : list FbpMessage
}.

Definition new_count `{MultiMapLib ring} `{MultiMapLib ProcessEdgeSink}
    (inports : multimap ring) (outports : multimap ProcessEdgeSink)
    (signals_in signals_out : sync_channel) : outcome CountComponent :=
  let* (conf, inports) := take_port "CONF" inports in
  let* (inn, inports) := take_port "IN" inports in
  let* (out, outports) := take_port "OUT" outports in
  Done (mk_CountComponent conf inn out signals_in signals_out None 0 0 0 None None []).

(** The counters and the moments. *)
Record Totals : Type := mk_Totals {
  to_packets : N;
  to_packetsize : N;
  to_sum : N
}.

Definition ct_l_conf : lens CountComponent ring := mk_lens ct_conf
  (fun r c => mk_CountComponent r (ct_inn c) (ct_out c) (ct_signals_in c) (ct_signals_out c)
    (ct_mode c) (ct_packets c) (ct_packetsize c) (ct_sum c) (ct_start c) (ct_start_1st c)
    (ct_pending_reports c)).
Definition ct_l_inn : lens CountComponent ring := mk_lens ct_inn
  (fun r c => mk_CountComponent (ct_conf c) r (ct_out c) (ct_signals_in c) (ct_signals_out c)
    (ct_mode c) (ct_packets c) (ct_packetsize c) (ct_sum c) (ct_start c) (ct_start_1st c)
    (ct_pending_reports c)).
Definition ct_l_sig : lens CountComponent Signals := mk_lens
  (fun c => mk_Signals (ct_signals_in c) (ct_signals_out c))
  (fun s c => mk_CountComponent (ct_conf c) (ct_inn c) (ct_out c) (sig_in s) (sig_out s)
    (ct_mode c) (ct_packets c) (ct_packetsize c) (ct_sum c) (ct_start c) (ct_start_1st c)
    (ct_pending_reports c)).
Definition ct_l_box : lens CountComponent Outbox := mk_lens
  (fun c => mk_Outbox (ct_out c) (ct_pending_reports c))
  (fun b c => mk_CountComponent (ct_conf c) (ct_inn c) (ob_out b) (ct_signals_in c)
    (ct_signals_out c) (ct_mode c) (ct_packets c) (ct_packetsize c) (ct_sum c) (ct_start c)
    (ct_start_1st c) (ob_pending b)).
Definition ct_l_mode : lens CountComponent (option Mode) := mk_lens ct_mode
  (fun m c => mk_CountComponent (ct_conf c) (ct_inn c) (ct_out c) (ct_signals_in c)
    (ct_signals_out c) m (ct_packets c) (ct_packetsize c) (ct_sum c) (ct_start c)
    (ct_start_1st c) (ct_pending_reports c)).
Definition ct_l_totals : lens CountComponent Totals := mk_lens
  (fun c => mk_Totals (ct_packets c) (ct_packetsize c) (ct_sum c))
  (fun t c => mk_CountComponent (ct_conf c) (ct_inn c) (ct_out c) (ct_signals_in c)
    (ct_signals_out c) (ct_mode c) (to_packets t) (to_packetsize t) (to_sum t) (ct_start c)
    (ct_start_1st c) (ct_pending_reports c)).
Definition ct_l_start : lens CountComponent (option Instant) := mk_lens ct_start
  (fun t c => mk_CountComponent (ct_conf c) (ct_inn c) (ct_out c) (ct_signals_in c)
    (ct_signals_out c) (ct_mode c) (ct_packets c) (ct_packetsize c) (ct_sum c) t
    (ct_start_1st c) (ct_pending_reports c)).
Definition ct_l_start_1st : lens CountComponent (option Instant) := mk_lens ct_start_1st
  (fun t c => mk_CountComponent (ct_conf c) (ct_inn c) (ct_out c) (ct_signals_in c)
    (ct_signals_out c) (ct_mode c) (ct_packets c) (ct_packetsize c) (ct_sum c) (ct_start c) t
    (ct_pending_reports c)).

(** [Url::parse("https://makeurlhappy/?" + query)] and its [query_pairs];
    [atoi::atoi::<u64>]; [chrono::Utc::now()]. *)
Variable query_pairs : string -> option (list (string * string)).
Variable atoi : list byte -> option N.
Variable clock : nat -> Instant.

(** [format!("{}", n)] of the counter of the mode. *)
Definition final_count (m : Mode) (t : Totals) : string :=
  match m with
  | Packets => pretty (to_packets t)
  | Size => pretty (to_packetsize t)
  | Sum => pretty (to_sum t)
  end.

Definition emit_final_count (m : Mode) : proc CountComponent unit :=
  totals ← read ct_l_totals;
  let count := final_count m totals in
  r ← zoom ct_l_box (send l_ob_out (from_text count));
  match r with
  | Ok _ => mret tt
  | Err returned =>
      p ← zoom ct_l_box (read l_ob_pending);
      zoom ct_l_box (write l_ob_pending (p ++ [returned]))
  end;;
  emit (send_network_output_comfortable count).

(** [strip_prefix('?')]. *)
Definition strip_question_mark (s : string) : string :=
  match s with
  | String c r => if Ascii.eqb c "?" then r else s
  | EmptyString => s
  end.

Definition mode_of_string (s : string) : option Mode :=
  if String.eqb s "packets" then Some Packets
  else if String.eqb s "size" then Some Size
  else if String.eqb s "sum" then Some Sum
  else None.

(** Reading the configuration. *)
Definition count_configure : proc CountComponent unit :=
  mode ← read ct_l_mode;
  match mode with
  | Some _ => mret tt
  | None =>
      config_msg ← pop ct_l_conf;
      match config_msg with
      | None => mret tt
      | Some config_msg =>
          let raw_conf := default "" (message_as_utf8 config_msg) in
          match query_pairs (strip_question_mark raw_conf) with
          | None => panic
          | Some pairs =>
              match list_find (fun p => p.1 = "mode") pairs with
              | Some (_, (_, value)) =>
                  match mode_of_string value with
                  | Some m =>
                      write ct_l_mode (Some m);;
                      start ← now clock;
                      write ct_l_start (Some start)
                  | None => return_ Finished
                  end
              | None => return_ Finished
              end
          end
      end
  end.

(** The size of a packet in size mode. *)
Definition message_size (msg : FbpMessage) : N :=
  match msg with
  | Bytes data => N.of_nat (length data)
  | Text text => N.of_nat (String.length text)
  | _ => 0
  end.

(** What a chunk adds; sums wrap around at 64 bits. *)
Definition count_chunk (m : Mode) (ms : list FbpMessage) (t : Totals) : Totals :=
  match m with
  | Packets => mk_Totals (u64_add (to_packets t) (N.of_nat (length ms))) (to_packetsize t) (to_sum t)
  | Size =>
      mk_Totals (to_packets t) (fold_left (fun n msg => u64_add n (message_size msg)) ms (to_packetsize t))
        (to_sum t)
  | Sum =>
      mk_Totals (to_packets t) (to_packetsize t)
        (fold_left (fun n msg =>
           match atoi (string_bytes (default "" (message_as_utf8 msg))) with
           | Some value => u64_add n value
           | None => n
           end) ms (to_sum t))
  end.

(** The loop over the inport and what follows it. *)
Definition count_input (m : Mode) : proc CountComponent ProcessResult :=
  chunks message_as_utf8 ct_l_inn ct_l_sig (emit_final_count m)
    (fun ms => totals ← read ct_l_totals; write ct_l_totals (count_chunk m ms totals));;
  w ← work_units;
  idle ← is_empty ct_l_inn;
  abandoned ← is_abandoned ct_l_inn;
  (if (0 <? w)%N && idle && negb abandoned then emit_final_count m else mret tt);;
  pending ← zoom ct_l_box (read l_ob_pending);
  if abandoned && bool_decide (pending = []) then
    _ ← now clock;
    start ← read ct_l_start;
    match start with
    | None => panic
    | Some _ => emit_final_count m;; return_ Finished
    end
  else mret (result_of_work w).

Definition count_process : proc CountComponent ProcessResult :=
  count_configure;;
  mode ← read ct_l_mode;
  match mode with
  | None => mret NoWork
  | Some m =>
      zoom ct_l_box flush;;
      stop_signal message_as_utf8 ct_l_sig (emit_final_count m);;
      totals ← read ct_l_totals;
      idle ← is_empty ct_l_inn;
      (if (to_packets totals =? 0)%N && negb idle then
         t ← now clock; write ct_l_start_1st (Some t)
       else mret tt);;
      count_input m
  end.

(** * The components as the scheduler runs them *)

#[export] Instance keeps_emit_final_count m : Keeps (emit_final_count m).
Proof. unfold emit_final_count. apply _. Qed.
#[export] Instance keeps_chunks {C} decode (l : lens C ring) s on_stop consume :
  Keeps on_stop -> (forall ms, Keeps (consume ms)) -> Keeps (chunks decode l s on_stop consume).
Proof. intros. unfold chunks, stop_signal. apply _. Qed.
#[export] Instance keeps_drop : Keeps drop_process.
Proof. unfold drop_process, stop_signal. apply _. Qed.
#[export] Instance keeps_panic_process : Keeps panic_process.
Proof. unfold panic_process. apply _. Qed.
#[export] Instance keeps_vis : Keeps vis_process.
Proof. unfold vis_process. apply _. Qed.
#[export] Instance keeps_count : Keeps count_process.
Proof. unfold count_process, count_configure, count_input, stop_signal, flush. apply _. Qed.

Definition drop_component := component_of drop_process.
Definition panic_component := component_of panic_process.
Definition vis_component := component_of vis_process.
Definition count_component := component_of count_process.
End sinks.
