(* ===== verification/SinksTheorems.v ===== *)
(** What one call of [process] does, for the components of [Sinks]. *)
From S2P Require Import Prelude Api Scheduler Process Pipes Sinks.
From Stdlib Require Strings.String.
From Stdlib Require Import NArith ZArith Lia Strings.Byte Strings.Ascii.
From stdpp Require Import base list strings gmap pretty.
Local Open Scope string_scope.
Local Open Scope list_scope.
Local Open Scope flowd_scope.

Section sinks.
Context `{R : Rtrb}.

(** How many packets a call takes: all there are, within the budget. *)
Definition chunk_size (b : N) (items : list FbpMessage) : nat :=
  N.to_nat (b `min` N.of_nat (length items)).

Lemma wp_read_chunk {C} (l : lens C ring) n (Q : option (list FbpMessage) -> frame C -> Prop) E f :
  (n <= length (ring_items (get l (fr_self f))))%nat ->
  (forall r, taken n (get l (fr_self f)) r ->
     Q (Some (take n (ring_items (get l (fr_self f))))) (with_self (set l r (fr_self f)) f)) ->
  wp (read_chunk l n) Q E f.
Proof.
  intros Hn HQ. unfold wp, read_chunk.
  pose proof (ring_read_chunk_spec n (get l (fr_self f))) as Hspec.
  destruct (ring_read_chunk _ _) as [[ms r]|]; [|lia].
  destruct Hspec as (_ & -> & Hi & Hc & Ha). by apply HQ.
Qed.

Lemma wp_to_process {C} (l : lens C ring) (Q : nat -> frame C -> Prop) E f :
  Q (chunk_size (remaining_budget (fr_ctx f)) (ring_items (get l (fr_self f)))) f ->
  wp (to_process l) Q E f.
Proof.
  unfold wp, to_process. rewrite ring_slots_spec. unfold chunk_size.
  replace (Nat.min _ _) with (N.to_nat (remaining_budget (fr_ctx f) `min`
    N.of_nat (length (ring_items (get l (fr_self f)))))) by lia. done.
Qed.

Lemma wp_stop_signal {C} decode (s : lens C Signals) on_stop (Q : unit -> frame C -> Prop) E f :
  (~ stop_next decode (get s (fr_self f)) -> forall sg, polled (get s (fr_self f)) sg ->
     Q tt (with_self (set s sg (fr_self f)) f)) ->
  (stop_next decode (get s (fr_self f)) -> forall sg, polled (get s (fr_self f)) sg ->
     wp on_stop (fun _ => E (Return Finished)) E (with_self (set s sg (fr_self f)) f)) ->
  wp (stop_signal decode s on_stop) Q E f.
Proof.
  intros HQ HE. unfold stop_signal. apply wp_bind, wp_zoom, wp_signal_stop; simpl.
  - intros H sg Hsg. wp_run. by apply HQ.
  - intros H sg Hsg. wp_run. eapply wp_conseq; [by apply HE|by intros [] ?|done].
Qed.

(** The chunk loop takes one chunk: afterwards the budget or the inport is
    used up. *)
Lemma wp_chunks {C} decode (l : lens C ring) (s : lens C Signals) on_stop consume
    (Q : unit -> frame C -> Prop) E f :
  (forall v c, get l (set s v c) = get l c) -> (forall v c, get l (set l v c) = v) ->
  let items := ring_items (get l (fr_self f)) in
  let b := remaining_budget (fr_ctx f) in
  let k := chunk_size b items in
  (k = 0%nat -> Q tt f) ->
  (~ stop_next decode (get s (fr_self f)) -> forall sg r,
     polled (get s (fr_self f)) sg -> taken k (get l (fr_self f)) r -> (0 < k)%nat ->
     wp (consume (take k items)) (fun _ g =>
         get l (fr_self g) = r /\ remaining_budget (fr_ctx g) = b /\
         Q tt (mk_frame (fr_self g) (set_remaining_budget (b - N.of_nat k) (fr_ctx g))
                 (fr_work g + N.of_nat k) (fr_effects g) (fr_reads g)))
       (fun _ _ => False) (with_self (set l r (set s sg (fr_self f))) f)) ->
  (stop_next decode (get s (fr_self f)) -> forall sg, polled (get s (fr_self f)) sg -> (0 < k)%nat ->
     wp on_stop (fun _ => E (Return Finished)) (fun _ _ => False)
       (with_self (set s sg (fr_self f)) f)) ->
  wp (chunks decode l s on_stop consume) Q E f.
Proof.
  intros Hls Hll items b k H0 Hchunk Hstop.
  assert (k <= length items)%nat as Hk by (unfold k, chunk_size; lia).
  assert (N.of_nat k <= b)%N as Hkb by (unfold k, chunk_size; lia).
  apply wp_while_once.
  - rewrite ring_slots_spec. lia.
  - intros Hc. apply H0. unfold k, chunk_size, b, items. rewrite ring_is_empty_spec in Hc.
    apply andb_false_iff in Hc as [Hc|Hc]; [apply N.ltb_ge in Hc; lia|].
    apply negb_false_iff, Nat.eqb_eq in Hc. lia.
  - intros Hc. rewrite ring_is_empty_spec in Hc. apply andb_true_iff in Hc as [Hb Hne].
    apply N.ltb_lt in Hb. apply negb_true_iff, Nat.eqb_neq in Hne. fold items b in Hb, Hne.
    assert (0 < k)%nat as Hpos by (unfold k, chunk_size; lia).
    wp_run. apply wp_stop_signal.
    + intros Hns sg Hsg. wp_run. apply wp_to_process. simpl. rewrite Hls. fold items b k.
      rewrite (proj2 (Nat.ltb_lt _ _) Hpos). wp_run.
      apply wp_read_chunk; simpl; rewrite Hls; fold items; [done|].
      intros r Hr. wp_run. eapply wp_conseq; [by apply Hchunk| |done].
      intros [] g (Hg & Hbg & HQ).
      assert (length (take k items) = k) as -> by (rewrite length_take; lia).
      wp_run. rewrite Hbg. split; [|done]. rewrite Hg, ring_is_empty_spec.
      destruct Hr as [-> _ _]. fold items. rewrite length_drop. apply andb_false_iff.
      destruct (decide (N.of_nat k = b)) as [Hkb'|Hkb'].
      * left. apply N.ltb_ge. lia.
      * right. apply negb_false_iff, Nat.eqb_eq. unfold k, chunk_size in *. lia.
    + intros Hs sg Hsg. eapply wp_conseq; [by apply Hstop|done|done].
Qed.

(** ** Drop *)

(** Drop takes as many packets as the budget allows, at once, and finishes
    only when its input is empty and the producer is gone. *)
Theorem drop_process_spec (c : DropComponent) (ctx : NodeContext) :
  let items := ring_items (dr_inn c) in
  let k := chunk_size (remaining_budget ctx) items in
  let signals := mk_Signals (dr_signals_in c) (dr_signals_out c) in
  exists f r, call drop_process c ctx = Some (f, Some r) /\
    let c' := fr_self f in
    (no_stop as_text signals ->
       ring_items (dr_inn c') = drop k items /\
       remaining_budget (fr_ctx f) = (remaining_budget ctx - N.of_nat k)%N /\
       r = (if (0 <? k)%nat then DidWork (N.of_nat k)
            else if ring_is_abandoned (dr_inn c) then Finished else NoWork)) /\
    (stop_next as_text signals -> r = Finished /\ dr_inn c' = dr_inn c).
Proof.
  intros items k signals.
  destruct (wp_call drop_process c ctx (fun f x => exists r, x = Some r /\
    let c' := fr_self f in
    (no_stop as_text signals ->
       ring_items (dr_inn c') = drop k items /\
       remaining_budget (fr_ctx f) = (remaining_budget ctx - N.of_nat k)%N /\
       r = (if (0 <? k)%nat then DidWork (N.of_nat k)
            else if ring_is_abandoned (dr_inn c) then Finished else NoWork)) /\
    (stop_next as_text signals -> r = Finished /\ dr_inn c' = dr_inn c)))
    as (f & x & Hcall & r & -> & H); [|by exists f, r].
  unfold drop_process. wp_run. apply wp_stop_signal; simpl.
  - intros Hns sg Hsg. wp_run. apply wp_chunks; simpl; try done.
    + intros Hk. fold items k in Hk. wp_run.
      apply wp_is_abandoned. simpl. destruct (ring_is_abandoned (dr_inn c)); wp_run;
        eexists; (split; [done|]); rewrite Hk, N.sub_0_r, drop_0; by split.
    + intros _ sg' r Hsg' [Hr _ _] Hpos. fold items k in Hr, Hpos |- *. wp_run. split_and!; [done..|].
      wp_run. rewrite N.add_0_l, (proj2 (N.ltb_lt _ _)) by lia. wp_run. eexists. split; [done|].
      rewrite (proj2 (Nat.ltb_lt _ _) Hpos). by split.
    + intros Hs sg' Hsg' _. wp_run. eexists. split; [done|]. split; [|done].
      intros Hq. by destruct (stop_next_stop _ _ Hs); eapply polled_no_stop.
  - intros Hs sg Hsg. wp_run. eexists. split; [done|]. split; [|done].
    by intros Hq%(stop_next_stop _ _ Hs).
Qed.

(** ** Count *)

Variable query_pairs : string -> option (list (string * string)).
Variable atoi : list byte -> option N.
Variable clock : nat -> Instant.

(** A report goes out if there is room, else it waits behind the others. *)
Definition reported (reports : list FbpMessage) (b b' : Outbox) : Prop :=
  sink_items (ob_out b') = sink_items (ob_out b) ++ take (room (ob_out b)) reports /\
  ob_pending b' = ob_pending b ++ drop (room (ob_out b)) reports.

Lemma reported_nil b : reported [] b b.
Proof. unfold reported. by rewrite take_nil, drop_nil, !app_nil_r. Qed.

Definition report (m : Mode) (t : Totals) : FbpMessage := Text (final_count m t).

Lemma wp_emit_final_count m (Q : unit -> frame CountComponent -> Prop) E f :
  (forall b es, reported [report m (get ct_l_totals (fr_self f))] (get ct_l_box (fr_self f)) b ->
     Q tt (mk_frame (set ct_l_box b (fr_self f)) (fr_ctx f) (fr_work f) (fr_effects f ++ es)
             (fr_reads f))) ->
  wp (emit_final_count m) Q E f.
Proof.
  intros HQ. unfold emit_final_count. wp_run. apply wp_zoom, wp_send; simpl.
  - intros Hfree o es Hs _. wp_run. rewrite <- app_assoc.
    apply (HQ (mk_Outbox o (ct_pending_reports (fr_self f)))). destruct Hs as [Hi _ _ _ _].
    split; simpl; [|by rewrite drop_ge, app_nil_r by (simpl; lia)].
    by rewrite Hi, take_ge by (simpl; lia).
  - intros Hfull o Hs. wp_run. apply wp_zoom. wp_run. apply wp_zoom. wp_run.
    apply (HQ (mk_Outbox o (ct_pending_reports (fr_self f) ++ _))).
    destruct Hs as [Hi _ _ _ _]. split; simpl; by rewrite Hfull, ?Hi.
Qed.

(** The reference: what a packet contributes in each mode, and the counter of the
    mode increased by all contributions, modulo 2^64. *)
Definition contribution (m : Mode) (msg : FbpMessage) : N :=
  match m, msg with
  | Packets, _ => 1
  | Sinks.Size, Bytes data => N.of_nat (length data)
  | Sinks.Size, Text text => N.of_nat (length (string_bytes text))
  | Sinks.Size, _ => 0
  | Sum, Text text => default 0%N (atoi (string_bytes text))
  | Sum, Bytes data => default 0%N (atoi (if utf8_valid data then data else []))
  | Sum, _ => default 0%N (atoi [])
  end.
Definition contributions (m : Mode) (ms : list FbpMessage) : N := foldr N.add 0%N (map (contribution m) ms).
Definition count_all (m : Mode) (t : Totals) (ms : list FbpMessage) : Totals :=
  let more n := ((n + contributions m ms) mod 2 ^ 64)%N in
  match m with
  | Packets => mk_Totals (more (to_packets t)) (to_packetsize t) (to_sum t)
  | Sinks.Size => mk_Totals (to_packets t) (more (to_packetsize t)) (to_sum t)
  | Sum => mk_Totals (to_packets t) (to_packetsize t) (more (to_sum t))
  end.
(** The counters are numbers of 64 bits. *)
Definition in_width (t : Totals) : Prop := (to_packets t < 2 ^ 64 /\ to_packetsize t < 2 ^ 64 /\ to_sum t < 2 ^ 64)%N.

Lemma fold_u64_add (f : N -> FbpMessage -> N) (g : FbpMessage -> N) ms n :
  (forall n msg, (n < 2 ^ 64)%N -> f n msg = u64_add n (g msg)) -> (n < 2 ^ 64)%N ->
  fold_left f ms n = ((n + foldr N.add 0 (map g ms)) mod 2 ^ 64)%N.
Proof.
  intros Hf. revert n. induction ms as [|msg ms IH]; intros n Hn; simpl; [by rewrite N.add_0_r, N.mod_small|].
  rewrite Hf by done. unfold u64_add. change u64_modulus with (2 ^ 64)%N. rewrite IH by (by apply N.mod_lt).
  rewrite N.Div0.add_mod_idemp_l. f_equal. lia.
Qed.

Lemma contribution_sum n msg :
  (n < 2 ^ 64)%N ->
  match atoi (string_bytes (default "" (message_as_utf8 msg))) with Some value => u64_add n value | None => n end =
    u64_add n (contribution Sum msg).
Proof.
  intros Hn. assert (forall o : option N, match o with Some v => u64_add n v | None => n end = u64_add n (default 0%N o)) as Ho.
  { intros [v|]; [done|]. simpl. unfold u64_add. by rewrite N.add_0_r, N.mod_small. }
  rewrite Ho. destruct msg as [data|text|v|b|x|x|x]; simpl; try done. unfold message_as_utf8. simpl. unfold from_utf8.
  destruct (utf8_valid data); [|done]. simpl. unfold string_bytes. by rewrite String.list_byte_of_string_of_list_byte.
Qed.

Lemma count_none m t : in_width t -> count_all m t [] = t.
Proof. intros (H1 & H2 & H3). unfold count_all, contributions. destruct t, m; simpl in *; f_equal; rewrite N.add_0_r; by apply N.mod_small. Qed.

Lemma count_chunk_all m ms t : in_width t -> count_chunk atoi m ms t = count_all m t ms.
Proof.
  intros (H1 & H2 & H3). unfold count_chunk, count_all, contributions. destruct m; f_equal.
  - unfold u64_add. do 2 f_equal. induction ms as [|msg ms IH]; [done|]. simpl in *. lia.
  - apply fold_u64_add; [|done]. intros n msg Hn. f_equal. destruct msg as [data|text|v|b|x|x|x]; try done. simpl. f_equal.
    unfold string_bytes. induction text as [|a text IH]; [done|]. simpl in *. by f_equal.
  - apply fold_u64_add; [|done]. intros n msg Hn. by apply contribution_sum.
Qed.

(** The second half of the call, on its own. *)
Record counted (c : CountComponent) (b : N) (w : N) (m : Mode) (f : frame CountComponent)
    (r : ProcessResult) : Prop := mk_counted {
  cd_inn : let k := chunk_size b (ring_items (ct_inn c)) in
    ring_items (ct_inn (fr_self f)) = drop k (ring_items (ct_inn c));
  cd_totals : let k := chunk_size b (ring_items (ct_inn c)) in
    get ct_l_totals (fr_self f) = count_all m (get ct_l_totals c) (take k (ring_items (ct_inn c)));
  cd_reported : let items := ring_items (ct_inn c) in
    let k := chunk_size b items in
    let gone := ring_is_abandoned (ct_inn c) in
    let last := gone && bool_decide (ct_pending_reports c = []) in
    let idle := (0 <? w + N.of_nat k)%N && (k =? length items)%nat && negb gone in
    reported (if idle || last then [report m (get ct_l_totals (fr_self f))] else [])
      (get ct_l_box c) (get ct_l_box (fr_self f)) /\
    r = (if last then Finished else result_of_work (w + N.of_nat k))
}.

Lemma drop_nil_count {A} (n : nat) (l : list A) :
  (n <= length l)%nat -> bool_decide (drop n l = []) = (n =? length l)%nat.
Proof.
  intros Hn. destruct (Nat.eqb_spec n (length l)) as [->|Hne].
  - apply bool_decide_eq_true. by rewrite drop_all.
  - apply bool_decide_eq_false. intros Hd. apply (f_equal length) in Hd.
    rewrite length_drop in Hd. simpl in Hd. lia.
Qed.

Lemma N_ltb_nat n : (0 <? N.of_nat n)%N = (0 <? n)%nat.
Proof. destruct (N.ltb_spec 0 (N.of_nat n)), (Nat.ltb_spec 0 n); lia. Qed.

(** What follows the loop. *)
Lemma wp_count_end c b w m g (E : exit -> frame CountComponent -> Prop) :
  let k := chunk_size b (ring_items (ct_inn c)) in
  ring_items (ct_inn (fr_self g)) = drop k (ring_items (ct_inn c)) ->
  ring_is_abandoned (ct_inn (fr_self g)) = ring_is_abandoned (ct_inn c) ->
  get ct_l_totals (fr_self g) = count_all m (get ct_l_totals c) (take k (ring_items (ct_inn c))) ->
  get ct_l_box (fr_self g) = get ct_l_box c -> is_Some (ct_start (fr_self g)) ->
  fr_work g = (w + N.of_nat k)%N ->
  (forall f r, counted c b w m f r -> E (Return r) f) ->
  wp (w ← work_units;
      idle ← is_empty ct_l_inn;
      abandoned ← is_abandoned ct_l_inn;
      (if (0 <? w)%N && idle && negb abandoned then emit_final_count m else mret tt);;
      pending ← zoom ct_l_box (read l_ob_pending);
      if abandoned && bool_decide (pending = []) then
        _ ← now clock;
        start ← read ct_l_start;
        match start with
        | None => panic
        | Some _ => emit_final_count m;; return_ Finished
        end
      else mret (result_of_work w)) (fun r f => E (Return r) f) E g.
Proof.
  intros k Hi Ha Ht Hb [t0 Hstart] Hw HE.
  wp_run. apply wp_is_empty. simpl. wp_run. apply wp_is_abandoned. simpl. rewrite Ha, Hw, Hi.
  assert (bool_decide (drop k (ring_items (ct_inn c)) = []) = (k =? length (ring_items (ct_inn c)))%nat) as ->.
  { apply drop_nil_count. unfold k, chunk_size. lia. }
  assert (forall f r, ring_items (ct_inn (fr_self f)) = ring_items (ct_inn (fr_self g)) ->
    get ct_l_totals (fr_self f) = get ct_l_totals (fr_self g) ->
    (let last := ring_is_abandoned (ct_inn c) && bool_decide (ct_pending_reports c = []) in
     let idle := (0 <? w + N.of_nat k)%N && (k =? length (ring_items (ct_inn c)))%nat
                 && negb (ring_is_abandoned (ct_inn c)) in
     reported (if idle || last then [report m (get ct_l_totals (fr_self f))] else [])
       (get ct_l_box c) (get ct_l_box (fr_self f)) /\
     r = (if last then Finished else result_of_work (w + N.of_nat k))) ->
    E (Return r) f) as Hend.
  { intros f r H1 H2 H3. apply HE. split; [by rewrite H1|by rewrite H2|done]. }
  clear HE. set (full := (k =? length (ring_items (ct_inn c)))%nat) in *.
  set (work0 := (w + N.of_nat k)%N) in *. rewrite <- Hb in Hend.
  assert (ct_pending_reports c = ct_pending_reports (fr_self g)) as Hpc by (simpl in Hb; congruence).
  rewrite Hpc in Hend. clear Hb Hi Ht Ha Hpc.
  destruct (ring_is_abandoned (ct_inn c)); rewrite ?andb_false_r, ?andb_true_r in *; simpl in *.
  - wp_run. apply wp_zoom. wp_run.
    destruct (bool_decide (ct_pending_reports (fr_self g) = [])); wp_run.
    + rewrite Hstart. wp_run. apply wp_emit_final_count. intros bx es Hrep. wp_run. by apply Hend.
    + apply Hend; [done..|]. split; [apply reported_nil|done].
  - rewrite orb_false_r in Hend. destruct ((0 <? work0)%N && full); wp_run.
    + apply wp_emit_final_count. intros bx es Hrep. wp_run. apply wp_zoom. wp_run. by apply Hend.
    + apply wp_zoom. wp_run. apply Hend; [done..|]. split; [apply reported_nil|done].
Qed.

Lemma wp_count_input m g (E : exit -> frame CountComponent -> Prop) :
  is_Some (ct_start (fr_self g)) -> in_width (get ct_l_totals (fr_self g)) ->
  no_stop message_as_utf8 (get ct_l_sig (fr_self g)) ->
  (forall f r, counted (fr_self g) (remaining_budget (fr_ctx g)) (fr_work g) m f r -> E (Return r) f) ->
  wp (count_input atoi clock m) (fun r f => E (Return r) f) E g.
Proof.
  intros Hstart Hwidth Hquiet HE. unfold count_input. apply wp_bind.
  apply wp_chunks; simpl; try done.
  - intros Hk. apply (wp_count_end (fr_self g) (remaining_budget (fr_ctx g)) (fr_work g)); rewrite ?Hk;
      simpl; try done; [by rewrite count_none|by rewrite N.add_0_r].
  - intros _ sg r Hsg [Hr _ Ha] Hpos. wp_run. split_and!; [done..|].
    apply (wp_count_end (fr_self g) (remaining_budget (fr_ctx g)) (fr_work g)); try done.
    rewrite <- count_chunk_all by done. simpl. by destruct (count_chunk _ _ _ _).
  - intros Hs. by destruct (stop_next_stop _ _ Hs).
Qed.

(** C36: a Count that is configured and not told to stop counts every packet that
    it takes exactly once: whatever the chunks, a call adds to the counter of its
    mode what its packets contribute (one each, their length, or the number that
    they hold), with wrap-around at 64 bits.  It takes what the budget left by old
    reports allows, reports the total when the input has run dry, and at the end,
    and at no other time: it finishes as soon as the producer is gone and no
    report waits, whatever is left unread. *)
Theorem count_process_spec (c : CountComponent) (ctx : NodeContext) (m : Mode)
    (Hmode : ct_mode c = Some m) (Hstart : is_Some (ct_start c))
    (Hquiet : no_stop message_as_utf8 (mk_Signals (ct_signals_in c) (ct_signals_out c)))
    (Hwidth : in_width (get ct_l_totals c)) :
  let items := ring_items (ct_inn c) in
  let pending := ct_pending_reports c in
  let n := movable (remaining_budget ctx) (ct_out c) (length pending) in
  let k := chunk_size (remaining_budget ctx - N.of_nat n) items in
  let total := count_all m (get ct_l_totals c) (take k items) in
  let gone := ring_is_abandoned (ct_inn c) in
  let last := gone && (n =? length pending)%nat in
  let idle := (0 <? n + k)%nat && (k =? length items)%nat && negb gone in
  exists f r b,
    call (count_process query_pairs atoi clock) c ctx = Some (f, Some r) /\
    let c' := fr_self f in
    ring_items (ct_inn c') = drop k items /\
    get ct_l_totals c' = total /\
    sink_items (ob_out b) = sink_items (ct_out c) ++ take n pending /\
    ob_pending b = drop n pending /\
    reported (if idle || last then [report m total] else []) b (get ct_l_box c') /\
    r = (if last then Finished else result_of_work (N.of_nat (n + k))).
Proof.
  intros items pending n k total gone last idle.
  set (P := fun (f : frame CountComponent) (x : option ProcessResult) =>
    exists r b, x = Some r /\ let c' := fr_self f in
    ring_items (ct_inn c') = drop k items /\
    get ct_l_totals c' = total /\
    sink_items (ob_out b) = sink_items (ct_out c) ++ take n pending /\
    ob_pending b = drop n pending /\
    reported (if idle || last then [report m total] else []) b (get ct_l_box c') /\
    r = (if last then Finished else result_of_work (N.of_nat (n + k)))).
  destruct (wp_call (count_process query_pairs atoi clock) c ctx P)
    as (f & x & Hcall & r & b & -> & H); [|by exists f, r, b].
  unfold count_process. wp_run. unfold count_configure. wp_run. rewrite Hmode. wp_run.
  rewrite Hmode. wp_run. apply wp_zoom, wp_flush; simpl. intros o es [Ho _ _ _] _. fold pending n.
  wp_run. apply wp_stop_signal; simpl.
  - intros _ sg Hsg. wp_run. apply wp_is_empty. wp_run.
    assert (forall t rd, wp (count_input atoi clock m) (fun r f => P f (Some r))
      (fun e f => match e with Break => False | Return r => P f (Some r) | Unwind => P f None end)
      (mk_frame (mk_CountComponent (ct_conf c) (ct_inn c) o (sig_in sg) (sig_out sg) (ct_mode c)
         (ct_packets c) (ct_packetsize c) (ct_sum c) (ct_start c) t (drop n pending))
         (set_remaining_budget (remaining_budget ctx - N.of_nat n) ctx) (0 + N.of_nat n) es rd)) as Hin.
    { intros t rd. apply (wp_count_input m _ (fun e f => match e with Break => False
        | Return r => P f (Some r) | Unwind => P f None end)); try done.
      { simpl. by eapply polled_no_stop. }
      intros f r [H1 H2 H3]; simpl in *. exists r, (mk_Outbox o (drop n pending)).
      fold items k in H1, H2, H3. rewrite H2 in H3. rewrite drop_nil_count in H3 by (unfold n; movable_lia).
      replace (0 + N.of_nat n + N.of_nat k)%N with (N.of_nat (n + k)) in H3 by lia.
      rewrite N_ltb_nat in H3. destruct H3 as [H3 ->]. by split_and!. }
    match goal with |- wp (if ?x then _ else _) _ _ _ => destruct x end; wp_run; apply Hin.
  - intros Hs. by destruct (stop_next_stop _ _ Hs).
Qed.
End sinks.

(** ** Concrete runs *)
#[local] Existing Instance list_rtrb.

(** A Count that has its mode and has seen packets before. *)
Definition demo_count (gone : bool) : CountComponent :=
  mk_CountComponent (demo_ring false []) (demo_ring gone [Text "a"; Text "b"; Text "c"]) (demo_out 8)
    demo_channel demo_channel (Some Packets) 4 0 0 (Some 0%N) (Some 0%N) [].

Lemma count_process_spec_witness :
  exists f r, call (count_process (fun _ => None) (fun _ => None) (fun n => N.of_nat n)) (demo_count false)
      (demo_context Normal 2) = Some (f, Some r) /\
    ring_items (ct_inn (fr_self f)) = [Text "c"] /\ ct_packets (fr_self f) = 6%N /\ r = DidWork 2.
Proof.
  destruct (count_process_spec (fun _ => None) (fun _ => None) (fun n => N.of_nat n) (demo_count false)
    (demo_context Normal 2) Packets) as (f & r & b & Hcall & Hi & Ht & _ & _ & _ & Hr).
  - reflexivity.
  - by eexists.
  - constructor.
  - repeat split; vm_compute; reflexivity.
  - exists f, r. split; [exact Hcall|]. split; [exact Hi|].
    split; [exact (f_equal to_packets Ht)|exact Hr].
Defined.

(** The end of the producer ends Count although its budget left input uncounted. *)
Example count_finishes_unread :
  exists f, call (count_process (fun _ => None) (fun _ => None) (fun n => N.of_nat n)) (demo_count true)
      (demo_context Normal 2) = Some (f, Some Finished) /\
    ring_items (ct_inn (fr_self f)) = [Text "c"] /\
    sink_items (ct_out (fr_self f)) = [Text "6"].
Proof. eexists. split_and!; vm_compute; reflexivity. Qed.
