(* ===== verification/Relays.v ===== *)
(** The components that pass packets on without keeping those that the outport
    rejects: [Muxer], [SplitLines], [HTMLStrip], [RegexpExtract],
    [TeraTemplate] and [Sexp].

    The regular expressions (crate regex) and the templates (crate tera) are
    arguments. *)
From S2P Require Import Prelude Api Scheduler Process Pipes.
From Stdlib Require Strings.String.
From Stdlib Require Import NArith ZArith Lia Strings.Byte Strings.Ascii.
From stdpp Require Import base list strings gmap.
Local Open Scope string_scope.
Local Open Scope list_scope.
Local Open Scope flowd_scope.

(** [s.split(c)] for a character of one byte. *)
Fixpoint str_split (c : ascii) (s : string) : list string :=
  match s with
  | EmptyString => [EmptyString]
  | String a r =>
      if Ascii.eqb a c then EmptyString :: str_split c r
      else match str_split c r with
           | [] => [String a EmptyString]
           | part :: parts => String a part :: parts
           end
  end.

(** [bytes.split(|&x| x == b)]. *)
Fixpoint bytes_split (b : byte) (bs : list byte) : list (list byte) :=
  match bs with
  | [] => [[]]
  | a :: r =>
      if bool_decide (a = b) then [] :: bytes_split b r
      else match bytes_split b r with
           | [] => [[a]]
           | part :: parts => (a :: part) :: parts
           end
  end.

Definition newline : ascii := Ascii.ascii_of_nat 10.

Section relays.
Context `{R : Rtrb}.

(** * The loop *)

Record Tube : Type := mk_Tube { tb_in : ring; tb_out : ProcessEdgeSink }.
Definition l_tb_in : lens Tube ring := mk_lens tb_in (fun r t => mk_Tube r (tb_out t)).
Definition l_tb_out : lens Tube ProcessEdgeSink := mk_lens tb_out (fun o t => mk_Tube (tb_in t) o).

(** What becomes of a packet. *)
Inductive relay_step : Type :=
| Forward (m : FbpMessage)
| Skip
| Crash.

(** [while context.remaining_budget > 0 && !self.inn.is_empty()]: a packet that
    the outport rejects is dropped and ends the loop.  (Some components test
    for a used-up budget again after a packet, where the condition of the loop
    tests it next.) *)
Definition relay (step : FbpMessage -> relay_step) : proc Tube unit :=
  while (fun f => S (ring_slots (tb_in (fr_self f))))
    (fun f => (0 <? remaining_budget (fr_ctx f))%N && negb (ring_is_empty (tb_in (fr_self f))))
    (ip ← pop l_tb_in;
     match ip with
     | Some ip =>
         match step ip with
         | Forward m =>
             r ← send l_tb_out m;
             match r with
             | Ok _ => work 1;; charge 1
             | Err _ => break
             end
         | Skip => mret tt
         | Crash => panic
         end
     | None => break
     end).

(** The end of these components. *)
Definition relay_result : proc Tube ProcessResult :=
  abandoned ← is_abandoned l_tb_in;
  if (abandoned : bool) then return_ Finished
  else w ← work_units; mret (result_of_work w).

(** * HTMLStrip *)

Record HTMLStripComponent : Type := mk_HTMLStripComponent {
  hs_inn : ring;
  hs_out : ProcessEdgeSink;
  hs_signals_in : sync_channel;
  hs_signals_out : sync_channel
}.

Definition new_html_strip `{MultiMapLib ring} `{MultiMapLib ProcessEdgeSink}
    (inports : multimap ring) (outports : multimap ProcessEdgeSink)
    (signals_in signals_out : sync_channel) : outcome HTMLStripComponent :=
  let* (inn, inports) := take_port "IN" inports in
  let* (out, outports) := take_port "OUT" outports in
  Done (mk_HTMLStripComponent inn out signals_in signals_out).

Definition hs_signals : lens HTMLStripComponent Signals := mk_lens
  (fun c => mk_Signals (hs_signals_in c) (hs_signals_out c))
  (fun s c => mk_HTMLStripComponent (hs_inn c) (hs_out c) (sig_in s) (sig_out s)).
Definition hs_tube : lens HTMLStripComponent Tube := mk_lens
  (fun c => mk_Tube (hs_inn c) (hs_out c))
  (fun t c => mk_HTMLStripComponent (tb_in t) (tb_out t) (hs_signals_in c) (hs_signals_out c)).

(** The loop of [remove_html_tags] (the bytes are less-than, greater-than and
    the double quote); the tests are those of the code, in its
    order. *)
Fixpoint remove_html_tags_loop (html : list byte) (inside_tag inside_quotes : bool) : list byte :=
  match html with
  | [] => []
  | b :: r =>
      if bool_decide (b = Byte.x3c) then remove_html_tags_loop r true inside_quotes
      else if bool_decide (b = Byte.x3e) && negb inside_quotes
      then remove_html_tags_loop r false inside_quotes
      else if bool_decide (b = Byte.x22) then remove_html_tags_loop r inside_tag (negb inside_quotes)
      else if negb inside_tag then b :: remove_html_tags_loop r inside_tag inside_quotes
      else remove_html_tags_loop r inside_tag inside_quotes
  end.

Definition remove_html_tags (html : list byte) : list byte := remove_html_tags_loop html false false.

Definition strip_message (ip : FbpMessage) : relay_step :=
  Forward (from_bytes (remove_html_tags (default [] (as_bytes ip)))).

Definition html_strip_process : proc HTMLStripComponent ProcessResult :=
  zoom hs_signals (poll message_as_utf8);;
  zoom hs_tube (relay strip_message;; relay_result).

(** * RegexpExtract *)

(** [Regex::new(s).ok()] and [captures(s)] with its first group; of crate tera,
    a template and its rendering of one input. *)
Context {Regex Template : Type}.
Variable regex_new : string -> option Regex.
Variable captures : Regex -> string -> option (option string).
Variable add_raw_template : string -> option Template.
Variable render : Template -> string -> option string.

Record RegexpExtractComponent : Type := mk_RegexpExtractComponent {
  rx_conf : ring;
  rx_inn : ring;
  rx_out : ProcessEdgeSink;
  rx_signals_in : sync_channel;
  rx_signals_out : sync_channel;
  rx_regexp : option Regex
}.

Definition new_regexp_extract `{MultiMapLib ring} `{MultiMapLib ProcessEdgeSink}
    (inports : multimap ring) (outports : multimap ProcessEdgeSink)
    (signals_in signals_out : sync_channel) : outcome RegexpExtractComponent :=
  let* (conf, inports) := take_port "REGEXP" inports in
  let* (inn, inports) := take_port "IN" inports in
  let* (out, outports) := take_port "OUT" outports in
  Done (mk_RegexpExtractComponent conf inn out signals_in signals_out None).

Definition rx_signals : lens RegexpExtractComponent Signals := mk_lens
  (fun c => mk_Signals (rx_signals_in c) (rx_signals_out c))
  (fun s c => mk_RegexpExtractComponent (rx_conf c) (rx_inn c) (rx_out c) (sig_in s) (sig_out s)
                (rx_regexp c)).
Definition rx_tube : lens RegexpExtractComponent Tube := mk_lens
  (fun c => mk_Tube (rx_inn c) (rx_out c))
  (fun t c => mk_RegexpExtractComponent (rx_conf c) (tb_in t) (tb_out t) (rx_signals_in c)
                (rx_signals_out c) (rx_regexp c)).
Definition rx_l_conf : lens RegexpExtractComponent ring := mk_lens rx_conf
  (fun r c => mk_RegexpExtractComponent r (rx_inn c) (rx_out c) (rx_signals_in c)
                (rx_signals_out c) (rx_regexp c)).
Definition rx_l_regexp : lens RegexpExtractComponent (option Regex) := mk_lens rx_regexp
  (fun x c => mk_RegexpExtractComponent (rx_conf c) (rx_inn c) (rx_out c) (rx_signals_in c)
                (rx_signals_out c) x).

(** The first capture, or an empty packet. *)
Definition extract (re : Regex) (ip : FbpMessage) : relay_step :=
  match captures re (default "" (as_text ip)) with
  | Some (Some capture) => Forward (from_str capture)
  | Some None => Forward (from_bytes [])
  | None => Forward (from_bytes [])
  end.

(** Reading the configuration: [Some r] ends the call with [r]. *)
Definition configured {C Conf} (conf : lens C ring) (field : lens C (option Conf))
    (parse : string -> option Conf) : proc C unit :=
  current ← read field;
  match current with
  | Some _ => mret tt
  | None =>
      ip ← pop conf;
      match ip with
      | None => return_ NoWork
      | Some ip =>
          match as_text ip with
          | None => panic
          | Some s =>
              match parse s with
              | Some x => write field (Some x);; return_ (DidWork 1)
              | None => return_ Finished
              end
          end
      end
  end.

Definition regexp_extract_process : proc RegexpExtractComponent ProcessResult :=
  zoom rx_signals (poll message_as_utf8);;
  configured rx_l_conf rx_l_regexp regex_new;;
  regexp ← read rx_l_regexp;
  match regexp with
  | Some re => zoom rx_tube (relay (extract re);; relay_result)
  | None => panic
  end.

(** * TeraTemplate *)

Record TeraTemplateComponent : Type := mk_TeraTemplateComponent {
  tt_conf : ring;
  tt_inn : ring;
  tt_out : ProcessEdgeSink;
  tt_signals_in : sync_channel;
  tt_signals_out : sync_channel;
  tt_template : option Template
}.

Definition new_tera_template `{MultiMapLib ring} `{MultiMapLib ProcessEdgeSink}
    (inports : multimap ring) (outports : multimap ProcessEdgeSink)
    (signals_in signals_out : sync_channel) : outcome TeraTemplateComponent :=
  let* (conf, inports) := take_port "TEMPLATE" inports in
  let* (inn, inports) := take_port "IN" inports in
  let* (out, outports) := take_port "OUT" outports in
  Done (mk_TeraTemplateComponent conf inn out signals_in signals_out None).

Definition tt_signals : lens TeraTemplateComponent Signals := mk_lens
  (fun c => mk_Signals (tt_signals_in c) (tt_signals_out c))
  (fun s c => mk_TeraTemplateComponent (tt_conf c) (tt_inn c) (tt_out c) (sig_in s) (sig_out s)
                (tt_template c)).
Definition tt_tube : lens TeraTemplateComponent Tube := mk_lens
  (fun c => mk_Tube (tt_inn c) (tt_out c))
  (fun t c => mk_TeraTemplateComponent (tt_conf c) (tb_in t) (tb_out t) (tt_signals_in c)
                (tt_signals_out c) (tt_template c)).
Definition tt_l_conf : lens TeraTemplateComponent ring := mk_lens tt_conf
  (fun r c => mk_TeraTemplateComponent r (tt_inn c) (tt_out c) (tt_signals_in c)
                (tt_signals_out c) (tt_template c)).
Definition tt_l_template : lens TeraTemplateComponent (option Template) := mk_lens tt_template
  (fun x c => mk_TeraTemplateComponent (tt_conf c) (tt_inn c) (tt_out c) (tt_signals_in c)
                (tt_signals_out c) x).

(** A packet that is not a text unwinds; one that does not render is dropped. *)
Definition rendered (t : Template) (ip : FbpMessage) : relay_step :=
  match as_text ip with
  | None => Crash
  | Some s =>
      match render t s with
      | Some text => Forward (from_text (str_trim text))
      | None => Skip
      end
  end.

Definition tera_template_process : proc TeraTemplateComponent ProcessResult :=
  zoom tt_signals (poll message_as_utf8);;
  configured tt_l_conf tt_l_template add_raw_template;;
  template ← read tt_l_template;
  match template with
  | Some t => zoom tt_tube (relay (rendered t);; relay_result)
  | None => panic
  end.

(** * Muxer *)

Record MuxerComponent : Type := mk_MuxerComponent {
  mx_inn : list ring;
  mx_out : ProcessEdgeSink;
  mx_signals_in : sync_channel;
  mx_signals_out : sync_channel
}.

Definition new_muxer `{MultiMapLib ring} `{MultiMapLib ProcessEdgeSink}
    (inports : multimap ring) (outports : multimap ProcessEdgeSink)
    (signals_in signals_out : sync_channel) : outcome MuxerComponent :=
  let '(inn, inports) := mm_remove "IN" inports in
  let* inn := expect inn in
  let* (out, outports) := take_port "OUT" outports in
  Done (mk_MuxerComponent inn out signals_in signals_out).

Definition mx_signals : lens MuxerComponent Signals := mk_lens
  (fun c => mk_Signals (mx_signals_in c) (mx_signals_out c))
  (fun s c => mk_MuxerComponent (mx_inn c) (mx_out c) (sig_in s) (sig_out s)).
Definition mx_l_inn : lens MuxerComponent (list ring) := mk_lens mx_inn
  (fun l c => mk_MuxerComponent l (mx_out c) (mx_signals_in c) (mx_signals_out c)).
(** The inport at an index of the vector, with the outport. *)
Definition mx_tube (i : nat) : lens MuxerComponent Tube := mk_lens
  (fun c => mk_Tube (default (ring_new 0) (mx_inn c !! i)) (mx_out c))
  (fun t c => mk_MuxerComponent (<[i := tb_in t]> (mx_inn c)) (tb_out t) (mx_signals_in c)
                (mx_signals_out c)).

(** [for inport in self.inn.iter_mut()], over the indices from [i] on. *)
Fixpoint mux_inports (n i : nat) : proc MuxerComponent unit :=
  match n with
  | O => mret tt
  | S n =>
      zoom (mx_tube i) (relay Forward);;
      b ← budget;
      if (b =? 0)%N then mret tt else mux_inports n (S i)
  end.

Definition muxer_process : proc MuxerComponent ProcessResult :=
  zoom mx_signals (poll message_as_utf8);;
  inn ← read mx_l_inn;
  mux_inports (length inn) 0;;
  inn ← read mx_l_inn;
  if forallb ring_is_abandoned inn then return_ Finished
  else w ← work_units; mret (result_of_work w).

(** * SplitLines *)

Record SplitLinesComponent : Type := mk_SplitLinesComponent {
  sl_inn : ring;
  sl_out : ProcessEdgeSink;
  sl_signals_in : sync_channel;
  sl_signals_out : sync_channel;
  sl_line_iter : option (list FbpMessage)
}.

Definition new_split_lines `{MultiMapLib ring} `{MultiMapLib ProcessEdgeSink}
    (inports : multimap ring) (outports : multimap ProcessEdgeSink)
    (signals_in signals_out : sync_channel) : outcome SplitLinesComponent :=
  let* (inn, inports) := take_port "IN" inports in
  let* (out, outports) := take_port "OUT" outports in
  Done (mk_SplitLinesComponent inn out signals_in signals_out None).

Definition sl_signals : lens SplitLinesComponent Signals := mk_lens
  (fun c => mk_Signals (sl_signals_in c) (sl_signals_out c))
  (fun s c => mk_SplitLinesComponent (sl_inn c) (sl_out c) (sig_in s) (sig_out s) (sl_line_iter c)).
Definition sl_l_inn : lens SplitLinesComponent ring := mk_lens sl_inn
  (fun r c => mk_SplitLinesComponent r (sl_out c) (sl_signals_in c) (sl_signals_out c)
                (sl_line_iter c)).
Definition sl_l_out : lens SplitLinesComponent ProcessEdgeSink := mk_lens sl_out
  (fun o c => mk_SplitLinesComponent (sl_inn c) o (sl_signals_in c) (sl_signals_out c)
                (sl_line_iter c)).
Definition sl_l_line_iter : lens SplitLinesComponent (option (list FbpMessage)) :=
  mk_lens sl_line_iter
  (fun l c => mk_SplitLinesComponent (sl_inn c) (sl_out c) (sl_signals_in c) (sl_signals_out c) l).

(** The lines of a packet; other packets than texts and bytes have none. *)
Definition split_message (ip : FbpMessage) : list FbpMessage :=
  match ip with
  | Text text => map from_str (str_split newline text)
  | Bytes bytes =>
      map (fun x => match from_utf8 x with Some s => from_str s | None => from_bytes x end)
        (bytes_split Byte.x0a bytes)
  | _ => []
  end.

(** [while context.remaining_budget > 0]: the next line, or the end of the
    iterator. *)
Definition send_lines : proc SplitLinesComponent unit :=
  while (fun f => S (length (default [] (sl_line_iter (fr_self f)))))
    (fun f => (0 <? remaining_budget (fr_ctx f))%N)
    (lines ← read sl_l_line_iter;
     match lines with
     | Some (line :: rest) =>
         write sl_l_line_iter (Some rest);;
         r ← send sl_l_out line;
         match r with
         | Ok _ => charge 1
         | Err _ => break
         end
     | _ => write sl_l_line_iter None;; break
     end).

Definition split_lines_process : proc SplitLinesComponent ProcessResult :=
  zoom sl_signals (poll message_as_utf8);;
  b ← budget;
  (if (0 <? b)%N then
     zoom sl_signals (poll message_as_utf8);;
     lines ← read sl_l_line_iter;
     match lines with
     | Some _ => mret tt
     | None =>
         ip ← pop sl_l_inn;
         match ip with
         | Some ip => write sl_l_line_iter (Some (split_message ip))
         | None => mret tt
         end
     end;;
     lines ← read sl_l_line_iter;
     match lines with
     | Some _ =>
         send_lines;;
         b' ← budget;
         (if (b' <? b)%N then work 1 else mret tt)
     | None => mret tt
     end
   else mret tt);;
  abandoned ← is_abandoned sl_l_inn;
  if (abandoned : bool) then return_ Finished
  else w ← work_units; mret (result_of_work w).

(** * Sexp *)

Record SexpComponent : Type := mk_SexpComponent {
  sx_inn : ring;
  sx_out : ProcessEdgeSink;
  sx_signals_in : sync_channel;
  sx_signals_out : sync_channel
}.

Definition new_sexp `{MultiMapLib ring} `{MultiMapLib ProcessEdgeSink}
    (inports : multimap ring) (outports : multimap ProcessEdgeSink)
    (signals_in signals_out : sync_channel) : outcome SexpComponent :=
  let* (inn, inports) := take_port "IN" inports in
  let* (out, outports) := take_port "OUT" outports in
  Done (mk_SexpComponent inn out signals_in signals_out).

Definition sx_signals : lens SexpComponent Signals := mk_lens
  (fun c => mk_Signals (sx_signals_in c) (sx_signals_out c))
  (fun s c => mk_SexpComponent (sx_inn c) (sx_out c) (sig_in s) (sig_out s)).
Definition sx_l_inn : lens SexpComponent ring := mk_lens sx_inn
  (fun r c => mk_SexpComponent r (sx_out c) (sx_signals_in c) (sx_signals_out c)).
Definition sx_l_out : lens SexpComponent ProcessEdgeSink := mk_lens sx_out
  (fun o c => mk_SexpComponent (sx_inn c) o (sx_signals_in c) (sx_signals_out c)).

Definition sexp_process : proc SexpComponent ProcessResult :=
  zoom sx_signals (poll message_as_utf8);;
  while (fun f => S (ring_slots (sx_inn (fr_self f))))
    (fun f => (0 <? remaining_budget (fr_ctx f))%N)
    (ip ← pop sx_l_inn;
     match ip with
     | Some ip =>
         r ← send sx_l_out (from_str (str_trim (default "" (message_as_utf8 ip))));
         match r with
         | Err _ => return_ Finished
         | Ok _ => work 1;; charge 1
         end
     | None => break
     end);;
  abandoned ← is_abandoned sx_l_inn;
  if (abandoned : bool) then return_ Finished
  else
    inn ← read sx_l_inn;
    (if (0 <? ring_slots inn)%nat then emit [EffContextReady] else mret tt);;
    w ← work_units; mret (result_of_work w).

(** * The components as the scheduler runs them *)

#[export] Instance keeps_relay step : Keeps (relay step).
Proof. unfold relay. apply _. Qed.
#[export] Instance keeps_relay_result : Keeps relay_result.
Proof. unfold relay_result. apply _. Qed.
#[export] Instance keeps_configured {C Conf} (conf : lens C ring) (field : lens C (option Conf)) parse :
  Keeps (configured conf field parse).
Proof. unfold configured. apply _. Qed.
#[export] Instance keeps_mux_inports n i : Keeps (mux_inports n i).
Proof. revert i. induction n as [|n IH]; intros i; simpl; apply _. Qed.
#[export] Instance keeps_html_strip : Keeps html_strip_process.
Proof. unfold html_strip_process. apply _. Qed.
#[export] Instance keeps_regexp_extract : Keeps regexp_extract_process.
Proof. unfold regexp_extract_process. apply _. Qed.
#[export] Instance keeps_tera_template : Keeps tera_template_process.
Proof. unfold tera_template_process. apply _. Qed.
#[export] Instance keeps_muxer : Keeps muxer_process.
Proof. unfold muxer_process. apply _. Qed.
#[export] Instance keeps_split_lines : Keeps split_lines_process.
Proof. unfold split_lines_process, send_lines. apply _. Qed.
#[export] Instance keeps_sexp : Keeps sexp_process.
Proof. unfold sexp_process. apply _. Qed.

Definition html_strip_component := component_of html_strip_process.
Definition regexp_extract_component := component_of regexp_extract_process.
Definition tera_template_component := component_of tera_template_process.
Definition muxer_component := component_of muxer_process.
Definition split_lines_component := component_of split_lines_process.
Definition sexp_component := component_of sexp_process.
End relays.
