(* ===== verification/RelaysTheorems.v ===== *)
(** What one call of [process] does, for the components of [Relays]. *)
From S2P Require Import Prelude Api Scheduler Process Pipes Relays.
From Stdlib Require Strings.String.
From Stdlib Require Import NArith ZArith Lia Strings.Byte Strings.Ascii.
From stdpp Require Import base list strings gmap.
Local Open Scope string_scope.
Local Open Scope list_scope.
Local Open Scope flowd_scope.

(** ** Splitting and joining *)

Fixpoint str_has (c : ascii) (s : string) : bool :=
  match s with
  | EmptyString => false
  | String a r => Ascii.eqb a c || str_has c r
  end.

Fixpoint str_join (c : ascii) (parts : list string) : string :=
  match parts with
  | [] => EmptyString
  | [part] => part
  | part :: parts => part +:+ String c (str_join c parts)
  end.

Lemma str_split_ne c s : str_split c s <> [].
Proof. destruct s as [|a r]; simpl; [done|]. destruct (Ascii.eqb a c); [done|]. by destruct (str_split c r). Qed.

Lemma str_join_cons c part parts :
  parts <> [] -> str_join c (part :: parts) = part +:+ String c (str_join c parts).
Proof. by destruct parts. Qed.

Lemma str_join_String c a part parts :
  str_join c (String a part :: parts) = String a (str_join c (part :: parts)).
Proof. by destruct parts. Qed.

Lemma str_split_part c part : str_has c part = false -> str_split c part = [part].
Proof.
  induction part as [|a r IH]; simpl; [done|]. intros [-> Hr]%orb_false_iff. by rewrite IH.
Qed.

Lemma str_split_app c part s :
  str_has c part = false -> str_split c (part +:+ String c s) = part :: str_split c s.
Proof.
  induction part as [|a r IH]; simpl; [by rewrite Ascii.eqb_refl|].
  intros [-> Hr]%orb_false_iff. by rewrite IH.
Qed.

(** Cutting a text at its newlines loses nothing and leaves no newline in
    the parts: joining the parts gives the text back, and a list of lines
    without newlines is what its joined text is cut into. *)
Theorem split_join_roundtrip (s : string) (parts : list string) :
  str_join newline (str_split newline s) = s /\
  Forall (fun part => str_has newline part = false) (str_split newline s) /\
  (parts <> [] -> Forall (fun part => str_has newline part = false) parts ->
     str_split newline (str_join newline parts) = parts).
Proof.
  split; [|split].
  - induction s as [|a r IH]; simpl; [done|]. pose proof (str_split_ne newline r) as Hne.
    destruct (Ascii.eqb_spec a newline) as [-> | Ha]; [by rewrite str_join_cons, IH|].
    destruct (str_split newline r) as [|part rest]; [done|]. by rewrite str_join_String, IH.
  - induction s as [|a r IH]; simpl; [by constructor|].
    destruct (Ascii.eqb a newline) eqn:Ha; [by constructor|].
    destruct (str_split newline r) as [|part rest]; inversion_clear IH; constructor; simpl; try done;
      by rewrite Ha.
  - induction parts as [|part parts IH]; [done|]. intros _ [Hp Hps]%Forall_cons.
    destruct parts as [|part2 parts]; [by apply str_split_part|].
    rewrite str_join_cons, str_split_app by done. by rewrite IH.
Qed.

Section relays.
Context `{R : Rtrb}.

(** ** The loop, for components that forward every packet *)

(** The frame after [n] packets have been sent. *)
Definition relayed (n : nat) (r : ring) (o : ProcessEdgeSink) (es : list Effect) (f : frame Tube) :
    frame Tube :=
  mk_frame (mk_Tube r o)
    (set_remaining_budget (remaining_budget (fr_ctx f) - N.of_nat n) (fr_ctx f))
    (fr_work f + N.of_nat n) (fr_effects f ++ es) (fr_reads f).

Lemma wp_relay (g : FbpMessage -> FbpMessage) (Q : unit -> frame Tube -> Prop) E f :
  let items := ring_items (tb_in (fr_self f)) in
  let b := remaining_budget (fr_ctx f) in
  let n := movable b (tb_out (fr_self f)) (length items) in
  (forall r o es, taken (intake b (tb_out (fr_self f)) 0 (length items)) (tb_in (fr_self f)) r ->
     sent (map g (take n items)) (tb_out (fr_self f)) o es -> Q tt (relayed n r o es f)) ->
  wp (relay (fun i => Forward (g i))) Q E f.
Proof.
  intros items b n HQ. set (out := tb_out (fr_self f)) in *.
  assert (forall k r o es, (k <= length items)%nat -> (k <= room out)%nat -> (N.of_nat k <= b)%N ->
    (k = length items \/ N.of_nat k = b) -> taken k (tb_in (fr_self f)) r ->
    sent (map g (take k items)) out o es -> Q tt (relayed k r o es f)) as Hend.
  { intros k r o es H1 H2 H3 H4 Ht Hs. assert (k = n) as -> by (unfold n; movable_lia).
    apply HQ; [|done]. assert (intake b out 0 (length items) = n) as ->; [|done].
    unfold intake. rewrite Nat.add_0_l, Nat.sub_0_r. cbv zeta. fold n. destruct (N.ltb_spec (N.of_nat n) b); lia. }
  apply (wp_while (fun h => exists k r o es, h = relayed k r o es f
    /\ (k <= length items)%nat /\ (k <= room out)%nat /\ (N.of_nat k <= b)%N
    /\ taken k (tb_in (fr_self f)) r /\ sent (map g (take k items)) out o es)
    (fun h => length (ring_items (tb_in (fr_self h))))).
  - exists 0%nat, (tb_in (fr_self f)), out, []. split_and!; try lia; [|apply taken_0|apply sent_nil].
    destruct f as [[r o] c w es rd]. unfold relayed; simpl.
    by rewrite N.sub_0_r, N.add_0_r, app_nil_r, set_remaining_budget_id.
  - rewrite ring_slots_spec. lia.
  - intros h (k & r & o & es & -> & H1 & H2 & H3 & Ht & Hs) Hc. apply Hend; try done.
    simpl in Hc. rewrite ring_is_empty_spec in Hc. destruct Ht as [Ht _ _]. rewrite Ht in Hc.
    fold items in Hc. rewrite length_drop in Hc.
    apply andb_false_iff in Hc as [Hc|Hc]; [apply N.ltb_ge in Hc; fold b in Hc; lia|].
    apply negb_false_iff, Nat.eqb_eq in Hc. lia.
  - intros h (k & r & o & es & -> & H1 & H2 & H3 & Ht & Hs) Hc. simpl in Hc.
    apply andb_true_iff in Hc as [Hb _]. apply N.ltb_lt in Hb. fold b in Hb.
    wp_run. apply wp_pop; simpl.
    + intros Hempty r' Hr'. wp_run. apply Hend; try done.
      * left. destruct Ht as [Ht _ _]. rewrite Hempty in Ht. symmetry in Ht.
        apply (f_equal length) in Ht. rewrite length_drop in Ht. fold items in Ht. simpl in Ht. lia.
      * rewrite <- (Nat.add_0_r k). by eapply taken_add.
    + intros i rest r' Hi Hr'. pose proof Ht as [Hti _ _]. rewrite Hi in Hti. symmetry in Hti.
      apply drop_cons in Hti as [Hik _]. fold items in Hik. apply lookup_lt_Some in Hik as Hlt.
      assert (taken (S k) (tb_in (fr_self f)) r') as Ht'.
      { rewrite <- Nat.add_1_r. by eapply taken_add. }
      pose proof (sent_room _ _ _ _ Hs) as Hroom. rewrite length_map, length_take in Hroom.
      wp_run. apply wp_send; simpl.
      * intros Hfree o' es' Hs' _. wp_run. split.
        -- exists (S k), r', o', (es ++ es'). split_and!; try lia; [|done|].
           ++ unfold relayed; simpl. rewrite <- app_assoc, set_remaining_budget_twice.
              f_equal; [f_equal|]; lia.
           ++ rewrite (take_S_r _ _ _ Hik), map_app. by eapply sent_app.
        -- destruct Hr' as [-> _ _]. rewrite Hi. simpl. rewrite drop_0. lia.
      * intros Hfull o' Hs'. wp_run.
        assert (k = n) as -> by (unfold n; movable_lia).
        apply HQ.
        -- assert (intake b out 0 (length items) = S n) as ->; [|done].
           unfold intake. rewrite Nat.add_0_l, Nat.sub_0_r. cbv zeta. fold n. rewrite (proj2 (N.ltb_lt _ _)); lia.
        -- rewrite <- (app_nil_r (map g _)), <- (app_nil_r es). by eapply sent_app.
Qed.

(** ** HTMLStrip *)

(** What stripping guarantees: nothing is added, no less-than sign and no double
    quote is left, and a text without markup characters is not changed. *)
Record stripped (html text : list byte) : Prop := mk_stripped {
  st_sublist : sublist text html;
  st_clean : (Byte.x3c ∉ text) /\ (Byte.x22 ∉ text);
  st_plain : (Byte.x3c ∉ html) -> (Byte.x3e ∉ html) -> (Byte.x22 ∉ html) -> text = html
}.

Lemma remove_html_tags_stripped html tag quotes :
  let text := remove_html_tags_loop html tag quotes in
  sublist text html /\ (Byte.x3c ∉ text) /\ (Byte.x22 ∉ text) /\
  (tag = false -> (Byte.x3c ∉ html) -> (Byte.x3e ∉ html) -> (Byte.x22 ∉ html) -> text = html).
Proof.
  revert tag quotes. induction html as [|b html IH]; intros tag quotes; cbn [remove_html_tags_loop].
  { split_and!; [constructor|apply not_elem_of_nil..|done]. }
  destruct (bool_decide_reflect (b = Byte.x3c)) as [-> | Hlt].
  { destruct (IH true quotes) as (H1 & H2 & H3 & _). split_and!; [by constructor|done..|set_solver]. }
  destruct (bool_decide (b = Byte.x3e) && negb quotes) eqn:Hgt.
  { destruct (IH false quotes) as (H1 & H2 & H3 & _). apply andb_true_iff in Hgt as [->%bool_decide_eq_true _].
    split_and!; [by constructor|done..|set_solver]. }
  destruct (bool_decide_reflect (b = Byte.x22)) as [-> | Hquot].
  { destruct (IH tag (negb quotes)) as (H1 & H2 & H3 & _). split_and!; [by constructor|done..|set_solver]. }
  destruct (IH tag quotes) as (H1 & H2 & H3 & H4). destruct tag; cbn [negb].
  - split_and!; [by constructor|done..].
  - split_and!; [by constructor|set_solver..|].
    intros _ Ha Hb Hc. f_equal. apply H4; set_solver.
Qed.

Lemma remove_html_tags_spec html : stripped html (remove_html_tags html).
Proof.
  destruct (remove_html_tags_stripped html false false) as (H1 & H2 & H3 & H4). split; auto.
Qed.

(** HTMLStrip sends the stripped bytes of its packets in order, as many as
    budget, room and input allow: nothing is added, no less-than sign or double
    quote is left, and bytes without markup come through unchanged.  Packets
    that are not bytes come out empty, and the packet that finds the outport
    full is lost. *)
Theorem html_strip_process_spec (c : HTMLStripComponent) (ctx : NodeContext) :
  let items := ring_items (hs_inn c) in
  let b := remaining_budget ctx in
  let n := movable b (hs_out c) (length items) in
  exists f r, call html_strip_process c ctx = Some (f, Some r) /\
    let c' := fr_self f in
    (~ stop_next message_as_utf8 (get hs_signals c) -> exists texts,
       sink_items (hs_out c') = sink_items (hs_out c) ++ map Bytes texts /\
       Forall2 (fun m text => stripped (default [] (as_bytes m)) text) (take n items) texts /\
       ring_items (hs_inn c') = drop (intake b (hs_out c) 0 (length items)) items /\
       remaining_budget (fr_ctx f) = (b - N.of_nat n)%N /\
       r = (if ring_is_abandoned (hs_inn c) then Finished else result_of_work (N.of_nat n))) /\
    (stop_next message_as_utf8 (get hs_signals c) ->
       r = Finished /\ hs_inn c' = hs_inn c /\ hs_out c' = hs_out c).
Proof.
  intros items b n. apply wp_returns. unfold html_strip_process. wp_run. apply wp_zoom, wp_poll; simpl.
  - intros Hns s Hs. wp_run. apply wp_zoom, wp_bind.
    apply (wp_relay (fun i => from_bytes (remove_html_tags (default [] (as_bytes i))))).
    intros r o es [Hi _ Ha] [Ho _ _ _]. fold b items n in Hi, Ho |- *. simpl in Hi, Ho, Ha.
    assert (exists texts, sink_items o = sink_items (hs_out c) ++ map Bytes texts /\
       Forall2 (fun m text => stripped (default [] (as_bytes m)) text) (take n items) texts /\
       ring_items r = drop (intake b (hs_out c) 0 (length items)) items) as (texts & H1 & H2 & H3).
    { exists (map (fun m => remove_html_tags (default [] (as_bytes m))) (take n items)).
      split_and!; [by rewrite Ho, map_map| |done].
      apply Forall2_fmap_r, Forall_Forall2_diag, Forall_true. intros m. apply remove_html_tags_spec. }
    unfold relay_result. wp_run. apply wp_is_abandoned. simpl. rewrite Ha.
    destruct (ring_is_abandoned (hs_inn c)); wp_run; (split; [|done]); intros _; by exists texts.
  - intros Hstop s Hs. by split.
Qed.

(** ** Muxer *)

(** The reference: how many packets each inport gives up and how many of them
    are sent, with [b] of the budget and room for [rm] left. *)
Fixpoint mux_plan (b : N) (rm : nat) (inputs : list nat) : list (nat * nat) :=
  match inputs with
  | [] => []
  | k :: rest =>
      let n := N.to_nat (b `min` N.of_nat (rm `min` k)) in
      (n, if (N.of_nat n <? b)%N then Nat.min (S n) k else n)
        :: mux_plan (b - N.of_nat n) (rm - n) rest
  end.

Definition plan_sent (plan : list (nat * nat)) : nat := sum_list (plan.*1).

Lemma sum_list_cons n l : sum_list (n :: l) = (n + sum_list l)%nat.
Proof. done. Qed.

Lemma mux_plan_idle inputs rm : mux_plan 0 rm inputs = map (fun _ => (0, 0)%nat) inputs.
Proof.
  revert rm. induction inputs as [|k rest IH]; intros rm; [done|].
  cbn [mux_plan map]. rewrite N.min_0_l. simpl. by rewrite Nat.sub_0_r, IH.
Qed.

(** It sends as much as budget, room and inputs allow; an inport loses at most
    one packet, and none when there is room for all. *)
Lemma mux_plan_spec b rm inputs :
  plan_sent (mux_plan b rm inputs) = N.to_nat (b `min` N.of_nat (rm `min` sum_list inputs)) /\
  Forall (fun x => x.1 <= x.2 <= S x.1)%nat (mux_plan b rm inputs) /\
  (sum_list inputs <= rm -> Forall (fun x => x.2 = x.1) (mux_plan b rm inputs))%nat.
Proof.
  revert b rm. induction inputs as [|k rest IH]; intros b rm.
  { split_and!; [|done..]. change (0%nat = N.to_nat (b `min` N.of_nat (rm `min` 0))). lia. }
  cbn [mux_plan]. remember (N.to_nat _) as n eqn:Hn.
  destruct (IH (b - N.of_nat n)%N (rm - n)%nat) as (H1 & H2 & H3).
  unfold plan_sent in *. rewrite fmap_cons, !sum_list_cons. cbn [fst]. split_and!.
  - rewrite H1. lia.
  - constructor; [|done]. cbn [fst snd]. destruct (_ <? _)%N; lia.
  - intros Hsum. constructor; [|apply H3; lia]. cbn [fst snd].
    destruct (N.ltb_spec (N.of_nat n) b); lia.
Qed.

Lemma insert_here {A} (pre rs : list A) r r' :
  <[length pre := r']> (pre ++ r :: rs) = pre ++ r' :: rs.
Proof. by rewrite <- (Nat.add_0_r (length pre)), insert_app_r. Qed.

(** A plan that moves nothing. *)
Lemma idle_plan (rs : list ring) (ks : list nat) :
  length ks = length rs ->
  let plan := map (fun _ => (0, 0)%nat) ks in
  Forall3 (fun x => taken x.2) plan rs rs /\ plan_sent plan = 0%nat /\
  concat (zip_with (fun x r => take x.1 (ring_items r)) plan rs) = [].
Proof.
  revert rs. induction ks as [|k ks IH]; intros [|r rs] Hlen; try done.
  { split_and!; [constructor|done..]. }
  injection Hlen as Hlen. destruct (IH rs Hlen) as (H1 & H2 & H3).
  split_and!; [constructor; [apply taken_0|done]|exact H2|exact H3].
Qed.

Lemma wp_mux_inports pre rs out sin sout (Q : unit -> frame MuxerComponent -> Prop) E
    ctx w es rd :
  let plan := mux_plan (remaining_budget ctx) (room out) (map (fun r => length (ring_items r)) rs) in
  (forall rs' o es', Forall3 (fun x => taken x.2) plan rs rs' ->
     sent (concat (zip_with (fun x r => take x.1 (ring_items r)) plan rs)) out o es' ->
     Q tt (mk_frame (mk_MuxerComponent (pre ++ rs') o sin sout)
             (set_remaining_budget (remaining_budget ctx - N.of_nat (plan_sent plan)) ctx)
             (w + N.of_nat (plan_sent plan)) (es ++ es') rd)) ->
  wp (mux_inports (length rs) (length pre)) Q E
    (mk_frame (mk_MuxerComponent (pre ++ rs) out sin sout) ctx w es rd).
Proof.
  revert pre out ctx w es. induction rs as [|r rs IH]; intros pre out ctx w es plan HQ.
  - cbn [length mux_inports]. apply wp_ret. rewrite app_nil_r.
    specialize (HQ [] out []). rewrite !app_nil_r in HQ.
    unfold plan_sent in HQ. simpl in HQ. rewrite N.sub_0_r, N.add_0_r, set_remaining_budget_id in HQ.
    apply HQ; [constructor|apply sent_nil].
  - cbn [length mux_inports]. apply wp_bind, wp_zoom. cbn [get mx_tube mx_inn mx_out fr_self].
    rewrite list_lookup_middle by done. cbn [default].
    apply (wp_relay id). cbn [tb_in tb_out fr_self fr_ctx]. rewrite map_id.
    intros r' o es1 Ht Hs. set (n := movable _ _ _) in *.
    cbn [set mx_tube mx_inn mx_out fr_self tb_in tb_out relayed fr_ctx fr_work fr_effects fr_reads
         mx_signals_in mx_signals_out].
    rewrite insert_here. change (id r) with r in *.
    pose proof (sent_room _ _ _ _ Hs) as Hroom. rewrite length_take in Hroom.
    assert (room o = room out - n)%nat as Hroom' by (unfold n; movable_lia). clear Hroom.
    assert (mux_plan (remaining_budget ctx) (room out) (map (fun r => length (ring_items r)) (r :: rs))
      = (n, intake (remaining_budget ctx) out 0 (length (ring_items r)))
        :: mux_plan (remaining_budget ctx - N.of_nat n) (room o)
             (map (fun r => length (ring_items r)) rs)) as Hplan.
    { cbn [map mux_plan]. rewrite Hroom'. f_equal. unfold intake. rewrite Nat.add_0_l, Nat.sub_0_r. done. }
    unfold plan in HQ. rewrite Hplan in HQ. clear Hplan plan. unfold plan_sent in HQ.
    rewrite fmap_cons, sum_list_cons in HQ. cbn [fst zip_with concat] in HQ.
    set (b := remaining_budget ctx) in *.
    wp_run. destruct (N.eqb_spec (b - N.of_nat n) 0) as [Hz|Hnz]; wp_run.
    + rewrite Hz, mux_plan_idle in HQ.
      destruct (idle_plan rs (map (fun r => length (ring_items r)) rs)) as (H1 & H2 & H3); [apply length_map|].
      unfold plan_sent in H2. rewrite H2, H3, app_nil_r in HQ. cbn [snd] in HQ.
      specialize (HQ (r' :: rs) o es1). rewrite Nat.add_0_r in HQ. apply HQ; [by constructor|done].
    + change (pre ++ r' :: rs) with (pre ++ [r'] ++ rs). rewrite app_assoc.
      replace (S (length pre)) with (length (pre ++ [r'])) by (rewrite length_app; simpl; lia).
      apply IH. intros rs' o' es' Ht' Hs'. cbn [remaining_budget set_remaining_budget] in *.
      specialize (HQ (r' :: rs') o' (es1 ++ es')). rewrite <- app_assoc.
      rewrite set_remaining_budget_twice, <- app_assoc.
      match type of HQ with _ -> _ -> Q _ (mk_frame _ ?c1 ?w1 _ _) =>
        match goal with |- Q _ (mk_frame _ ?c2 ?w2 _ _) =>
          replace c2 with c1; [replace w2 with w1 by (unfold plan_sent; lia)|] end end.
      * apply HQ; [by constructor|by eapply sent_app].
      * f_equal. unfold plan_sent. fold b. lia.
Qed.

Lemma taken_all_abandoned {A} (plan : list A) (g : A -> nat) rs rs' :
  Forall3 (fun x => taken (g x)) plan rs rs' ->
  forallb ring_is_abandoned rs' = forallb ring_is_abandoned rs.
Proof. induction 1 as [|x r r' plan rs rs' [_ _ Ha] _ IH]; simpl; [done|]. by rewrite Ha, IH. Qed.

(** Muxer serves its inports in order, each until it is empty, the budget
    is used up or the outport is full; what leaves is the concatenation of
    what was taken from each inport, as much as budget, room and input allow.
    Each inport loses at most one packet (the one that found the outport
    full), and none when there is room for everything.  It finishes exactly on
    "stop" or when every producer is gone. *)
Theorem muxer_process_spec (c : MuxerComponent) (ctx : NodeContext) :
  let b := remaining_budget ctx in
  let inputs := map (fun r => length (ring_items r)) (mx_inn c) in
  let plan := mux_plan b (room (mx_out c)) inputs in
  let n := movable b (mx_out c) (sum_list inputs) in
  exists f r, call muxer_process c ctx = Some (f, Some r) /\
    let c' := fr_self f in
    (~ stop_next message_as_utf8 (get mx_signals c) ->
       Forall3 (fun x r r' => ring_items r' = drop x.2 (ring_items r)) plan (mx_inn c) (mx_inn c') /\
       sink_items (mx_out c') = sink_items (mx_out c) ++
         concat (zip_with (fun x r => take x.1 (ring_items r)) plan (mx_inn c)) /\
       plan_sent plan = n /\
       Forall (fun x => x.1 <= x.2 <= S x.1)%nat plan /\
       (sum_list inputs <= room (mx_out c) -> Forall (fun x => x.2 = x.1) plan)%nat /\
       remaining_budget (fr_ctx f) = (b - N.of_nat n)%N /\
       r = (if forallb ring_is_abandoned (mx_inn c) then Finished
            else result_of_work (N.of_nat n))) /\
    (stop_next message_as_utf8 (get mx_signals c) ->
       r = Finished /\ mx_inn c' = mx_inn c /\ mx_out c' = mx_out c).
Proof.
  intros b inputs plan n. apply wp_returns. unfold muxer_process.
  destruct (mux_plan_spec b (room (mx_out c)) inputs) as (Hn & Hloss & Hnone).
  fold plan in Hn, Hloss, Hnone. fold (movable b (mx_out c) (sum_list inputs)) in Hn. fold n in Hn.
  destruct c as [inn out sin sout]; simpl in *. wp_run. apply wp_zoom, wp_poll; simpl.
  - intros Hns s Hs. wp_run. apply (wp_mux_inports []); simpl. intros rs' o es' Ht [Hi _ _ _ _].
    fold b inputs plan in Ht, Hi |- *. rewrite Hn. wp_run.
    rewrite (taken_all_abandoned _ _ _ _ Ht).
    destruct (forallb ring_is_abandoned inn); wp_run; (split; [|done]); intros _; split_and!; try done;
      (eapply Forall3_impl; [exact Ht|]; by intros x r r' []).
  - intros Hstop s Hs. by split.
Qed.

(** ** SplitLines *)

(** What the iterator holds after a call that had [lines] to send and sent [n]
    of them: the rest; the line that the outport rejected is gone. *)
Definition lines_left (b : N) (n : nat) (lines : list FbpMessage) : option (list FbpMessage) :=
  if (N.of_nat n <? b)%N then
    if (n <? length lines)%nat then Some (drop (S n) lines) else None
  else Some (drop n lines).

Lemma wp_send_lines lines inn out sin sout (Q : unit -> frame SplitLinesComponent -> Prop) E
    ctx w es rd :
  let b := remaining_budget ctx in
  let n := movable b out (length lines) in
  (forall o es', sent (take n lines) out o es' ->
     Q tt (mk_frame (mk_SplitLinesComponent inn o sin sout (lines_left b n lines))
             (set_remaining_budget (b - N.of_nat n) ctx) w (es ++ es') rd)) ->
  wp send_lines Q E (mk_frame (mk_SplitLinesComponent inn out sin sout (Some lines)) ctx w es rd).
Proof.
  intros b n HQ.
  apply (wp_while (fun f => exists k o es',
      f = mk_frame (mk_SplitLinesComponent inn o sin sout (Some (drop k lines)))
            (set_remaining_budget (b - N.of_nat k) ctx) w (es ++ es') rd
      /\ (k <= length lines)%nat /\ (k <= room out)%nat /\ (N.of_nat k <= b)%N
      /\ sent (take k lines) out o es')
    (fun f => length (default [] (sl_line_iter (fr_self f))))).
  - exists 0%nat, out, []. rewrite app_nil_r, drop_0, N.sub_0_r. unfold b.
    rewrite set_remaining_budget_id. split_and!; [done|lia..|apply sent_nil].
  - simpl. lia.
  - intros f (k & o & es' & -> & H1 & H2 & H3 & Hs) Hc. apply N.ltb_ge in Hc. simpl in Hc.
    assert (k = n) as -> by (unfold n; movable_lia).
    assert (Some (drop n lines) = lines_left b n lines) as ->; [|by apply HQ].
    unfold lines_left. by rewrite (proj2 (N.ltb_ge _ _)) by lia.
  - intros f (k & o & es' & -> & H1 & H2 & H3 & Hs) Hc. apply N.ltb_lt in Hc. simpl in Hc.
    pose proof (sent_room _ _ _ _ Hs) as Hroom. rewrite length_take in Hroom.
    wp_run. destruct (drop k lines) as [|line rest] eqn:Hd.
    + apply (f_equal length) in Hd. rewrite length_drop in Hd. simpl in Hd.
      assert (k = n) as -> by (unfold n; movable_lia). wp_run.
      assert (None = lines_left b n lines) as ->; [|by apply HQ].
      unfold lines_left. rewrite (proj2 (N.ltb_lt _ _)) by lia. by rewrite (proj2 (Nat.ltb_ge _ _)) by lia.
    + apply drop_cons in Hd as [Hline Hd]. apply lookup_lt_Some in Hline as Hlt.
      wp_run. apply wp_send; simpl.
      * intros Hfree o' es2 Hs' _. wp_run.
        split; [|subst rest; rewrite length_drop; lia].
        exists (S k), o', (es' ++ es2). rewrite <- app_assoc, set_remaining_budget_twice, Hd.
        split_and!; [do 2 f_equal; lia|lia..|].
        rewrite (take_S_r _ _ _ Hline). by eapply sent_app.
      * intros Hfull o' Hs'. wp_run. assert (k = n) as -> by (unfold n; movable_lia).
        assert (Some rest = lines_left b n lines) as ->.
        { unfold lines_left. rewrite (proj2 (N.ltb_lt _ _)) by lia.
          by rewrite (proj2 (Nat.ltb_lt _ _)), <- Hd by lia. }
        apply HQ. rewrite <- (app_nil_r (take _ _)), <- (app_nil_r es'). by eapply sent_app.
Qed.

(** The lines that a call starts from: those left of the last packet, else
    those of the next one. *)
Definition lines_next (c : SplitLinesComponent) : option (list FbpMessage) :=
  match sl_line_iter c with
  | Some lines => Some lines
  | None => split_message <$> head (ring_items (sl_inn c))
  end.

(** The end of a call that has sent [n] lines. *)
Lemma wp_lines_end (b : N) (n : nat) (Q : ProcessResult -> frame SplitLinesComponent -> Prop)
    (E : exit -> frame SplitLinesComponent -> Prop) f :
  (N.of_nat n <= b)%N -> (0 < b)%N -> fr_work f = 0%N ->
  remaining_budget (fr_ctx f) = (b - N.of_nat n)%N ->
  (forall w, let f' := mk_frame (fr_self f) (fr_ctx f) w (fr_effects f) (fr_reads f) in
     if ring_is_abandoned (sl_inn (fr_self f)) then E (Return Finished) f'
     else Q (if (0 <? n)%nat then DidWork 1 else NoWork) f') ->
  wp (b' ← budget; if (b' <? b)%N then work 1 else mret tt)
     (fun _ => wp (abandoned ← is_abandoned sl_l_inn;
                   if (abandoned : bool) then return_ Finished
                   else w ← work_units; mret (result_of_work w)) Q E) E f.
Proof.
  intros Hn Hb Hw Hc HQ. destruct f as [c x w es rd]; simpl in *. subst w. wp_run. rewrite Hc.
  destruct (Nat.ltb_spec 0 n).
  - rewrite (proj2 (N.ltb_lt _ _)) by lia. wp_run. apply wp_is_abandoned. simpl. specialize (HQ 1%N).
    destruct (ring_is_abandoned _); by wp_run.
  - rewrite (proj2 (N.ltb_ge _ _)) by lia. wp_run. apply wp_is_abandoned. simpl. specialize (HQ 0%N).
    destruct (ring_is_abandoned _); by wp_run.
Qed.

(** SplitLines takes a packet only when it has no lines left of the last
    one, and sends its lines in order, as many as budget and room allow; the
    line that finds the outport full is lost, the others are kept for the next
    call.  Once the producer is gone it finishes, also with lines unsent. *)
Theorem split_lines_process_spec (c : SplitLinesComponent) (ctx : NodeContext) :
  let b := remaining_budget ctx in
  exists f r, call split_lines_process c ctx = Some (f, Some r) /\
    let c' := fr_self f in
    (no_stop message_as_utf8 (get sl_signals c) -> (0 < b)%N ->
       match lines_next c with
       | Some lines =>
           let n := movable b (sl_out c) (length lines) in
           ring_items (sl_inn c') = drop (match sl_line_iter c with Some _ => 0 | None => 1 end) (ring_items (sl_inn c)) /\
           sink_items (sl_out c') = sink_items (sl_out c) ++ take n lines /\
           sl_line_iter c' = lines_left b n lines /\
           remaining_budget (fr_ctx f) = (b - N.of_nat n)%N /\
           r = (if ring_is_abandoned (sl_inn c) then Finished
                else if (0 <? n)%nat then DidWork 1 else NoWork)
       | None =>
           sink_items (sl_out c') = sink_items (sl_out c) /\ ring_items (sl_inn c') = [] /\
           sl_line_iter c' = None /\ fr_ctx f = ctx /\
           r = (if ring_is_abandoned (sl_inn c) then Finished else NoWork)
       end) /\
    (stop_next message_as_utf8 (get sl_signals c) ->
       r = Finished /\ sl_inn c' = sl_inn c /\ sl_out c' = sl_out c /\
       sl_line_iter c' = sl_line_iter c).
Proof.
  intros b. apply wp_returns. destruct c as [inn out sin sout it].
  unfold split_lines_process, lines_next. simpl.
  wp_run. apply wp_zoom, wp_poll; simpl.
  - intros Hns s Hs. wp_run. fold b. destruct (N.ltb_spec 0 b) as [Hb|Hb]; wp_run.
    + apply wp_zoom, wp_poll; simpl.
      * intros _ s' Hs'. wp_run. destruct it as [lines|]; wp_run.
        -- apply wp_send_lines; simpl. intros o es' [Hi _ _ _ _]. fold b in Hi |- *.
           apply (wp_lines_end b (movable b out (length lines))); [movable_lia|done..|]. simpl. intros w.
           destruct (ring_is_abandoned inn); (split; [|by intros ?%Hns]); intros _ _; by split_and!.
        -- apply wp_pop; simpl.
           ++ intros Hempty r [Ht _ Ha]. wp_run. replace (b <? b)%N with false by (symmetry; apply N.ltb_irrefl).
              wp_run. apply wp_is_abandoned. simpl. rewrite Ha, Hempty. simpl.
              destruct (ring_is_abandoned inn); wp_run; (split; [|by intros ?%Hns]); intros _ _; rewrite Ht, Hempty; by split_and!.
           ++ intros ip rest r Hi [Ht _ Ha]. wp_run. apply wp_send_lines; simpl. intros o es' [Ho _ _ _].
              fold b in Ho |- *. rewrite Hi. simpl.
              apply (wp_lines_end b (movable b out (length (split_message ip)))); [movable_lia|done..|].
              simpl. intros w. rewrite Ha.
              destruct (ring_is_abandoned inn); (split; [|by intros ?%Hns]); intros _ _; rewrite Ht, Hi; by split_and!.
      * intros Hstop s' Hs'. split; [|done]. intros Hq. exfalso.
        apply (stop_next_stop _ _ Hstop). by eapply polled_no_stop.
    + apply wp_is_abandoned. simpl. destruct (ring_is_abandoned _); wp_run; (split; [lia|done]).
  - intros Hstop s Hs. split; [|done]. intros Hq. by destruct (stop_next_stop _ _ Hstop).
Qed.
End relays.
