(* ===== verification/Routers.v ===== *)
(** The components that choose an outport for each packet: [Demux3],
    [Equals] and [GenericRouter].

    The regular expressions (crate regex) and the JSON parser (crate
    serde_json) of the router are arguments. *)
From S2P Require Import Prelude Api Scheduler Process Pipes Relays.
From Stdlib Require Strings.String.
From Stdlib Require Import NArith ZArith Lia Strings.Byte Strings.Ascii.
From stdpp Require Import base list strings gmap.
Local Open Scope string_scope.
Local Open Scope list_scope.
Local Open Scope flowd_scope.

(** [text.contains(value)] and [text.ends_with(value)]. *)
Fixpoint str_contains (value text : string) : bool :=
  String.prefix value text ||
  match text with EmptyString => false | String _ r => str_contains value r end.
Fixpoint str_ends_with (value text : string) : bool :=
  String.eqb value text ||
  match text with EmptyString => false | String _ r => str_ends_with value r end.

Section routers.
Context `{R : Rtrb}.

(** * Demux3 *)

Record Demux3Component : Type := mk_Demux3Component {
  dm_inn : ring;
  dm_out_a : ProcessEdgeSink;
  dm_out_b : ProcessEdgeSink;
  dm_out_c : ProcessEdgeSink;
  dm_signals_in : sync_channel;
  dm_signals_out : sync_channel;
  dm_branch : N
}.

Definition new_demux3 `{MultiMapLib ring} `{MultiMapLib ProcessEdgeSink}
    (inports : multimap ring) (outports : multimap ProcessEdgeSink)
    (signals_in signals_out : sync_channel) : outcome Demux3Component :=
  let* (inn, inports) := take_port "IN" inports in
  let* (out_a, outports) := take_port "A" outports in
  let* (out_b, outports) := take_port "B" outports in
  let* (out_c, outports) := take_port "C" outports in
  Done (mk_Demux3Component inn out_a out_b out_c signals_in signals_out 0).

Definition dm_signals : lens Demux3Component Signals := mk_lens
  (fun c => mk_Signals (dm_signals_in c) (dm_signals_out c))
  (fun s c => mk_Demux3Component (dm_inn c) (dm_out_a c) (dm_out_b c) (dm_out_c c)
                (sig_in s) (sig_out s) (dm_branch c)).
Definition dm_l_inn : lens Demux3Component ring := mk_lens dm_inn
  (fun r c => mk_Demux3Component r (dm_out_a c) (dm_out_b c) (dm_out_c c)
                (dm_signals_in c) (dm_signals_out c) (dm_branch c)).
Definition dm_l_branch : lens Demux3Component N := mk_lens dm_branch
  (fun b c => mk_Demux3Component (dm_inn c) (dm_out_a c) (dm_out_b c) (dm_out_c c)
                (dm_signals_in c) (dm_signals_out c) b).

(** [match self.branch % 3]: the outport of a residue. *)
Definition dm_l_out (i : N) : lens Demux3Component ProcessEdgeSink := mk_lens
  (fun c => match i with 0%N => dm_out_a c | 1%N => dm_out_b c | _ => dm_out_c c end)
  (fun o c =>
     match i with
     | 0%N => mk_Demux3Component (dm_inn c) o (dm_out_b c) (dm_out_c c)
                (dm_signals_in c) (dm_signals_out c) (dm_branch c)
     | 1%N => mk_Demux3Component (dm_inn c) (dm_out_a c) o (dm_out_c c)
                (dm_signals_in c) (dm_signals_out c) (dm_branch c)
     | _ => mk_Demux3Component (dm_inn c) (dm_out_a c) (dm_out_b c) o
                (dm_signals_in c) (dm_signals_out c) (dm_branch c)
     end).

Definition demux3_loop : proc Demux3Component unit :=
  while (fun f => S (ring_slots (dm_inn (fr_self f))))
    (fun f => (0 <? remaining_budget (fr_ctx f))%N && negb (ring_is_empty (dm_inn (fr_self f))))
    (ip ← pop dm_l_inn;
     match ip with
     | Some ip =>
         branch ← read dm_l_branch;
         r ← send (dm_l_out (branch mod 3)%N) ip;
         match r with
         | Ok _ =>
             work 1;; charge 1;; write dm_l_branch (u64_add branch 1);;
             b ← budget;
             if (b =? 0)%N then break else mret tt
         | Err _ => break
         end
     | None => break
     end).

Definition demux3_process : proc Demux3Component ProcessResult :=
  zoom dm_signals (poll message_as_utf8);;
  demux3_loop;;
  abandoned ← is_abandoned dm_l_inn;
  if (abandoned : bool) then return_ Finished
  else w ← work_units; mret (result_of_work w).

(** * Equals *)

Record EqualsComponent : Type := mk_EqualsComponent {
  eq_cmp : ring;
  eq_inn : ring;
  eq_out_true : ProcessEdgeSink;
  eq_out_false : ProcessEdgeSink;
  eq_signals_in : sync_channel;
  eq_signals_out : sync_channel;
  eq_cmp_value : option FbpMessage;
  eq_pending_packets : list (FbpMessage * bool)
}.

Definition new_equals `{MultiMapLib ring} `{MultiMapLib ProcessEdgeSink}
    (inports : multimap ring) (outports : multimap ProcessEdgeSink)
    (signals_in signals_out : sync_channel) : outcome EqualsComponent :=
  let* (cmp, inports) := take_port "CMP" inports in
  let* (inn, inports) := take_port "IN" inports in
  let* (out_true, outports) := take_port "TRUE" outports in
  let* (out_false, outports) := take_port "FALSE" outports in
  Done (mk_EqualsComponent cmp inn out_true out_false signals_in signals_out None []).

Definition eq_signals : lens EqualsComponent Signals := mk_lens
  (fun c => mk_Signals (eq_signals_in c) (eq_signals_out c))
  (fun s c => mk_EqualsComponent (eq_cmp c) (eq_inn c) (eq_out_true c) (eq_out_false c)
                (sig_in s) (sig_out s) (eq_cmp_value c) (eq_pending_packets c)).
Definition eq_l_cmp : lens EqualsComponent ring := mk_lens eq_cmp
  (fun r c => mk_EqualsComponent r (eq_inn c) (eq_out_true c) (eq_out_false c)
                (eq_signals_in c) (eq_signals_out c) (eq_cmp_value c) (eq_pending_packets c)).
Definition eq_l_inn : lens EqualsComponent ring := mk_lens eq_inn
  (fun r c => mk_EqualsComponent (eq_cmp c) r (eq_out_true c) (eq_out_false c)
                (eq_signals_in c) (eq_signals_out c) (eq_cmp_value c) (eq_pending_packets c)).
Definition eq_l_cmp_value : lens EqualsComponent (option FbpMessage) := mk_lens eq_cmp_value
  (fun v c => mk_EqualsComponent (eq_cmp c) (eq_inn c) (eq_out_true c) (eq_out_false c)
                (eq_signals_in c) (eq_signals_out c) v (eq_pending_packets c)).
Definition eq_l_pending : lens EqualsComponent (list (FbpMessage * bool)) :=
  mk_lens eq_pending_packets
  (fun p c => mk_EqualsComponent (eq_cmp c) (eq_inn c) (eq_out_true c) (eq_out_false c)
                (eq_signals_in c) (eq_signals_out c) (eq_cmp_value c) p).
(** The outport for packets that are equal, or not. *)
Definition eq_l_out (route : bool) : lens EqualsComponent ProcessEdgeSink := mk_lens
  (if route then eq_out_true else eq_out_false)
  (fun o c =>
     if route then
       mk_EqualsComponent (eq_cmp c) (eq_inn c) o (eq_out_false c)
         (eq_signals_in c) (eq_signals_out c) (eq_cmp_value c) (eq_pending_packets c)
     else
       mk_EqualsComponent (eq_cmp c) (eq_inn c) (eq_out_true c) o
         (eq_signals_in c) (eq_signals_out c) (eq_cmp_value c) (eq_pending_packets c)).

(** Sending the packets that had no room; the first that still has none ends
    the loop. *)
Definition equals_flush : proc EqualsComponent unit :=
  while (fun f => S (length (eq_pending_packets (fr_self f))))
    (fun f => (0 <? remaining_budget (fr_ctx f))%N
              && negb (bool_decide (eq_pending_packets (fr_self f) = [])))
    (p ← read eq_l_pending;
     match head p with
     | Some (pending_ip, route_to_true) =>
         r ← send (eq_l_out route_to_true) pending_ip;
         match r with
         | Ok _ => write eq_l_pending (tail p);; work 1;; charge 1
         | Err _ => break
         end
     | None => mret tt
     end).

Definition equals_input (cmp_value : FbpMessage) : proc EqualsComponent unit :=
  while (fun f => S (ring_slots (eq_inn (fr_self f))))
    (fun f => (0 <? remaining_budget (fr_ctx f))%N)
    (zoom eq_signals (poll message_as_utf8);;
     ip ← pop eq_l_inn;
     match ip with
     | Some ip =>
         let route_to_true := message_eqb ip cmp_value in
         r ← send (eq_l_out route_to_true) ip;
         match r with
         | Ok _ => work 1;; charge 1
         | Err returned_ip =>
             p ← read eq_l_pending;
             write eq_l_pending (p ++ [(returned_ip, route_to_true)]);; work 1;; charge 1
         end
     | None => break
     end).

(** The comparison value: read when there is none yet. *)
Definition equals_configure : proc EqualsComponent FbpMessage :=
  current ← read eq_l_cmp_value;
  match current with
  | Some v => mret v
  | None =>
      cmp_data ← pop eq_l_cmp;
      match cmp_data with
      | Some v => write eq_l_cmp_value (Some v);; mret v
      | None => return_ NoWork
      end
  end.

Definition equals_process : proc EqualsComponent ProcessResult :=
  cmp_value ← equals_configure;
  zoom eq_signals (poll message_as_utf8);;
  equals_flush;;
  equals_input cmp_value;;
  new_cmp ← pop eq_l_cmp;
  (match new_cmp with Some v => write eq_l_cmp_value (Some v) | None => mret tt end);;
  abandoned ← is_abandoned eq_l_inn;
  if (abandoned : bool) then return_ Finished
  else w ← work_units; mret (result_of_work w).

(** * GenericRouter *)

(** [serde_json::Value]: [as_str], and [map.get] on an object ([None]: not an
    object); [Regex::new] and [is_match]. *)
Context {Json Regex : Type}.
Variable json_null : Json.
Variable json_as_str : Json -> option string.
Variable json_as_object : Json -> option (gmap string Json).
Variable json_from_str : string -> option Json.
Variable regex_new : string -> option Regex.
Variable regex_is_match : Regex -> string -> bool.

Record Condition : Type := mk_Condition {
  cd_field : string;
  cd_operator : string;
  cd_value : string
}.
Record RoutingRule : Type := mk_RoutingRule {
  rr_condition : Condition;
  rr_output_port : string
}.
Record RouterConfig : Type := mk_RouterConfig {
  rc_rules : list RoutingRule;
  rc_default_output : option string
}.
Inductive RuleOperator : Type := Equals | Contains | RegexOp (re : Regex) | StartsWith | EndsWith.
Record CompiledRule : Type := mk_CompiledRule {
  cr_field : string;
  cr_operator : RuleOperator;
  cr_value : string;
  cr_output_port : string
}.

(** [serde_json::from_str::<RouterConfig>]. *)
Variable config_from_str : string -> option RouterConfig.

(** [compile_rules]; the texts of the errors are only logged. *)
Definition compile_operator (c : Condition) : option RuleOperator :=
  if String.eqb (cd_operator c) "equals" then Some Equals
  else if String.eqb (cd_operator c) "contains" then Some Contains
  else if String.eqb (cd_operator c) "regex" then
    match regex_new (cd_value c) with Some re => Some (RegexOp re) | None => None end
  else if String.eqb (cd_operator c) "starts_with" then Some StartsWith
  else if String.eqb (cd_operator c) "ends_with" then Some EndsWith
  else None.

Fixpoint compile_rules (rules : list RoutingRule) : option (list CompiledRule) :=
  match rules with
  | [] => Some []
  | rule :: rest =>
      match compile_operator (rr_condition rule) with
      | None => None
      | Some operator =>
          match compile_rules rest with
          | None => None
          | Some compiled =>
              Some (mk_CompiledRule (cd_field (rr_condition rule)) operator
                      (cd_value (rr_condition rule)) (rr_output_port rule) :: compiled)
          end
      end
  end.

Definition dot : ascii := Ascii.ascii_of_nat 46.

Fixpoint get_nested (current : Json) (parts : list string) : Json :=
  match parts with
  | [] => current
  | part :: rest =>
      match json_as_object current with
      | Some map =>
          match map !! part with
          | Some next => get_nested next rest
          | None => json_null
          end
      | None => json_null
      end
  end.
Definition get_nested_field (value : Json) (field_path : string) : Json :=
  get_nested value (str_split dot field_path).

Definition evaluate_text_condition (text : string) (rule : CompiledRule) : bool :=
  match cr_operator rule with
  | Equals => String.eqb text (cr_value rule)
  | Contains => str_contains (cr_value rule) text
  | RegexOp re => regex_is_match re text
  | StartsWith => String.prefix (cr_value rule) text
  | EndsWith => str_ends_with (cr_value rule) text
  end.

Definition evaluate_condition (json_value : Json) (rule : CompiledRule) : bool :=
  evaluate_text_condition (default "" (json_as_str (get_nested_field json_value (cr_field rule)))) rule.

Fixpoint first_rule (matches : CompiledRule -> bool) (rules : list CompiledRule) : option string :=
  match rules with
  | [] => None
  | rule :: rest => if matches rule then Some (cr_output_port rule) else first_rule matches rest
  end.

Definition route_message (config : option RouterConfig) (rules : list CompiledRule)
    (input_text : string) : string :=
  let found :=
    match json_from_str input_text with
    | Some json_value => first_rule (evaluate_condition json_value) rules
    | None =>
        first_rule (fun rule => String.eqb (cr_field rule) "content"
                                && evaluate_text_condition input_text rule) rules
    end in
  match found with
  | Some port => port
  | None =>
      default "default" (match config with Some c => rc_default_output c | None => None end)
  end.

Record GenericRouterComponent : Type := mk_GenericRouterComponent {
  gr_conf : ring;
  gr_inn : ring;
  gr_out_ports : gmap string ProcessEdgeSink;
  gr_signals_in : sync_channel;
  gr_signals_out : sync_channel;
  gr_config : option RouterConfig;
  gr_compiled_rules : list CompiledRule
}.

(** One sink for each name: the last channel of the port. *)
Fixpoint collect_out_ports `{MultiMapLib ProcessEdgeSink} (port_keys : list string)
    (outports : multimap ProcessEdgeSink) (out_ports : gmap string ProcessEdgeSink) :
    gmap string ProcessEdgeSink :=
  match port_keys with
  | [] => out_ports
  | port_name :: rest =>
      let '(sinks, outports) := mm_remove port_name outports in
      collect_out_ports rest outports
        (match sinks ≫= last with
         | Some sink => <[port_name := sink]> out_ports
         | None => out_ports
         end)
  end.

Definition new_generic_router `{MultiMapLib ring} `{MultiMapLib ProcessEdgeSink}
    (inports : multimap ring) (outports : multimap ProcessEdgeSink)
    (signals_in signals_out : sync_channel) : outcome GenericRouterComponent :=
  let out_ports := collect_out_ports (mm_keys outports) outports ∅ in
  let* (conf, inports) := take_port "CONF" inports in
  let* (inn, inports) := take_port "IN" inports in
  Done (mk_GenericRouterComponent conf inn out_ports signals_in signals_out None []).

Definition gr_signals : lens GenericRouterComponent Signals := mk_lens
  (fun c => mk_Signals (gr_signals_in c) (gr_signals_out c))
  (fun s c => mk_GenericRouterComponent (gr_conf c) (gr_inn c) (gr_out_ports c) (sig_in s) (sig_out s)
                (gr_config c) (gr_compiled_rules c)).
Definition gr_l_conf : lens GenericRouterComponent ring := mk_lens gr_conf
  (fun r c => mk_GenericRouterComponent r (gr_inn c) (gr_out_ports c) (gr_signals_in c)
                (gr_signals_out c) (gr_config c) (gr_compiled_rules c)).
Definition gr_l_inn : lens GenericRouterComponent ring := mk_lens gr_inn
  (fun r c => mk_GenericRouterComponent (gr_conf c) r (gr_out_ports c) (gr_signals_in c)
                (gr_signals_out c) (gr_config c) (gr_compiled_rules c)).
Definition gr_l_rules : lens GenericRouterComponent (option RouterConfig * list CompiledRule) :=
  mk_lens (fun c => (gr_config c, gr_compiled_rules c))
  (fun x c => mk_GenericRouterComponent (gr_conf c) (gr_inn c) (gr_out_ports c) (gr_signals_in c)
                (gr_signals_out c) x.1 x.2).

(** [self.out_ports.get_mut(&port)] and [push] on it: [None] when there is no
    such port. *)
Definition send_to (port : string) (m : FbpMessage) :
    proc GenericRouterComponent (option (result unit FbpMessage)) := fun f =>
  let c := fr_self f in
  match gr_out_ports c !! port with
  | None => Some (f, inl None)
  | Some sink =>
      let '(res, o, es) := push m sink in
      Some (mk_frame
              (mk_GenericRouterComponent (gr_conf c) (gr_inn c) (<[port := o]> (gr_out_ports c))
                 (gr_signals_in c) (gr_signals_out c) (gr_config c) (gr_compiled_rules c))
              (fr_ctx f) (fr_work f) (fr_effects f ++ es) (fr_reads f),
            inl (Some res))
  end.

Definition router_configure : proc GenericRouterComponent unit :=
  current ← read gr_l_rules;
  match current.1 with
  | Some _ => mret tt
  | None =>
      conf_msg ← pop gr_l_conf;
      match conf_msg with
      | None => return_ NoWork
      | Some conf_msg =>
          match as_text conf_msg with
          | None => panic
          | Some conf_text =>
              match config_from_str conf_text with
              | None => return_ Finished
              | Some config =>
                  match compile_rules (rc_rules config) with
                  | None => return_ Finished
                  | Some compiled => write gr_l_rules (Some config, compiled);; work 1
                  end
              end
          end
      end
  end.

(** A packet for which there is no outport is dropped, and costs no budget. *)
Definition router_loop : proc GenericRouterComponent unit :=
  while (fun f => S (ring_slots (gr_inn (fr_self f))))
    (fun f => (0 <? remaining_budget (fr_ctx f))%N && negb (ring_is_empty (gr_inn (fr_self f))))
    (input_msg ← pop gr_l_inn;
     match input_msg with
     | Some input_msg =>
         let input_text := default "" (as_text input_msg) in
         rules ← read gr_l_rules;
         r ← send_to (route_message rules.1 rules.2 input_text) (from_str input_text);
         match r with
         | Some (Ok _) => work 1;; charge 1
         | Some (Err _) => break
         | None => mret tt
         end
     | None => break
     end).

Definition generic_router_process : proc GenericRouterComponent ProcessResult :=
  zoom gr_signals (poll message_as_utf8);;
  router_configure;;
  router_loop;;
  abandoned ← is_abandoned gr_l_inn;
  if (abandoned : bool) then return_ Finished
  else w ← work_units; mret (result_of_work w).

(** * The components as the scheduler runs them *)

#[export] Instance keeps_demux3 : Keeps demux3_process.
Proof. unfold demux3_process, demux3_loop. apply _. Qed.
#[export] Instance keeps_equals : Keeps equals_process.
Proof. unfold equals_process, equals_configure, equals_flush, equals_input. apply _. Qed.
#[export] Instance keeps_send_to port m : Keeps (send_to port m).
Proof.
  intros f f' x. unfold send_to. destruct (_ !! port) as [o|]; [|by intros [= <- _]].
  destruct (push m o) as [[? ?] ?]. by intros [= <- _].
Qed.
#[export] Instance keeps_generic_router : Keeps generic_router_process.
Proof. unfold generic_router_process, router_configure, router_loop. apply _. Qed.

Definition demux3_component := component_of demux3_process.
Definition equals_component := component_of equals_process.
Definition generic_router_component := component_of generic_router_process.
End routers.
