(* ===== verification/RoutersTheorems.v ===== *)
(** What one call of [process] does, for the components of [Routers]. *)
From S2P Require Import Prelude Api Scheduler Process Pipes Relays Routers.
From Stdlib Require Strings.String.
From Stdlib Require Import NArith ZArith Lia Strings.Byte Strings.Ascii.
From stdpp Require Import base list strings gmap.
Local Open Scope string_scope.
Local Open Scope list_scope.
Local Open Scope flowd_scope.

Section routers.
Context `{R : Rtrb}.

(** ** Demux3 *)

(** The packets for outport [i] among [l], when [br] is the branch of the
    first. *)
Fixpoint branch_items (i br : N) (l : list FbpMessage) : list FbpMessage :=
  match l with
  | [] => []
  | m :: l =>
      (if (br mod 3 =? i)%N then [m] else []) ++ branch_items i (u64_add br 1) l
  end.

Definition advance (n : nat) (br : N) : N := Nat.iter n (fun b => u64_add b 1) br.

Lemma advance_S n br : advance (S n) br = u64_add (advance n br) 1.
Proof. done. Qed.

Lemma advance_next n br : advance n (u64_add br 1) = advance (S n) br.
Proof. induction n as [|n IH]; [done|]. by rewrite advance_S, IH. Qed.

Lemma branch_items_snoc i br l m :
  branch_items i br (l ++ [m]) =
  branch_items i br l ++ (if (advance (length l) br mod 3 =? i)%N then [m] else []).
Proof.
  revert br. induction l as [|x l IH]; intros br; simpl; [by rewrite app_nil_r|].
  by rewrite IH, app_assoc, advance_next.
Qed.

Lemma advance_small n br : (br + N.of_nat n < u64_modulus)%N -> advance n br = (br + N.of_nat n)%N.
Proof.
  induction n as [|n IH]; intros H; [by rewrite N.add_0_r|].
  rewrite advance_S, IH, u64_add_small by lia. lia.
Qed.

(** Turns are fair as long as the counter does not wrap around. *)
Lemma branch_items_length i br l :
  (i < 3)%N -> (br + N.of_nat (length l) < u64_modulus)%N ->
  N.of_nat (length (branch_items i br l)) = ((N.of_nat (length l) + 2 - (i + 3 - br mod 3) mod 3) / 3)%N.
Proof.
  intros Hi. revert br. induction l as [|m l IH]; intros br Hbr.
  - cbn [branch_items length]. change (N.of_nat 0) with 0%N. symmetry. apply N.div_small.
    apply N.le_lt_trans with 2%N; [apply N.le_sub_l|done].
  - cbn [branch_items length] in *. rewrite length_app, Nat2N.inj_add, IH by (rewrite u64_add_small; lia).
    rewrite u64_add_small by lia.
    destruct (N.eqb_spec (br mod 3) i); cbn [length]; zify; Z.to_euclidean_division_equations; lia.
Qed.

Lemma branch_items_fair i j br l :
  (i < 3)%N -> (j < 3)%N -> (br + N.of_nat (length l) < u64_modulus)%N ->
  (length (branch_items i br l) <= S (length (branch_items j br l)))%nat.
Proof.
  intros Hi Hj Hb. pose proof (branch_items_length i br l Hi Hb).
  pose proof (branch_items_length j br l Hj Hb).
  zify; Z.to_euclidean_division_equations; lia.
Qed.

Lemma dm_l_out_same i o c : get (dm_l_out i) (set (dm_l_out i) o c) = o.
Proof. by destruct i as [|[]]. Qed.
Lemma dm_l_out_other i j o c :
  (i < 3)%N -> (j < 3)%N -> i <> j -> get (dm_l_out i) (set (dm_l_out j) o c) = get (dm_l_out i) c.
Proof.
  intros Hi Hj Hij.
  assert (i = 0 \/ i = 1 \/ i = 2)%N as [-> | [-> | ->]] by lia;
    assert (j = 0 \/ j = 1 \/ j = 2)%N as [-> | [-> | ->]] by lia; done.
Qed.

Lemma dm_l_out_mk i r sin sout b c :
  get (dm_l_out i) (mk_Demux3Component r (dm_out_a c) (dm_out_b c) (dm_out_c c) sin sout b) =
  get (dm_l_out i) c.
Proof. by destruct i as [|[]]. Qed.
Lemma dm_l_out_inn i o c : dm_inn (set (dm_l_out i) o c) = dm_inn c.
Proof. by destruct i as [|[]]. Qed.
Lemma dm_l_out_branch i o c : dm_branch (set (dm_l_out i) o c) = dm_branch c.
Proof. by destruct i as [|[]]. Qed.
#[local] Opaque dm_l_out.

(** The loop after [n] packets. *)
Record dealt (f g : frame Demux3Component) (n : nat) : Prop := mk_dealt {
  dl_packets : (n <= length (ring_items (dm_inn (fr_self f))))%nat;
  dl_budget : (N.of_nat n <= remaining_budget (fr_ctx f))%N;
  dl_ctx : fr_ctx g = set_remaining_budget (remaining_budget (fr_ctx f) - N.of_nat n) (fr_ctx f);
  dl_work : fr_work g = (fr_work f + N.of_nat n)%N;
  dl_branch : dm_branch (fr_self g) = advance n (dm_branch (fr_self f));
  dl_sent : forall i, (i < 3)%N -> exists es,
    sent (branch_items i (dm_branch (fr_self f)) (take n (ring_items (dm_inn (fr_self f)))))
      (get (dm_l_out i) (fr_self f)) (get (dm_l_out i) (fr_self g)) es
}.

(** How it ends: the packet that finds its outport full is gone. *)
Definition dealt_ends (f g : frame Demux3Component) (n : nat) : Prop :=
  let items := ring_items (dm_inn (fr_self f)) in
  dealt f g n /\
  ((taken n (dm_inn (fr_self f)) (dm_inn (fr_self g)) /\
    (n = length items \/ N.of_nat n = remaining_budget (fr_ctx f))) \/
   (taken (S n) (dm_inn (fr_self f)) (dm_inn (fr_self g)) /\
    (n < length items)%nat /\ (N.of_nat n < remaining_budget (fr_ctx f))%N /\
    room (get (dm_l_out (dm_branch (fr_self g) mod 3)) (fr_self g)) = 0%nat)).

Lemma dealt_0 f : dealt f f 0.
Proof.
  split; try done; [lia|lia| |lia|].
  - by rewrite N.sub_0_r, set_remaining_budget_id.
  - intros i _. exists []. apply sent_nil.
Qed.

(** The component after [r] was popped and [o] pushed to. *)
Definition turn (g : frame Demux3Component) (r : ring) (o : ProcessEdgeSink) : Demux3Component :=
  set (dm_l_out (dm_branch (fr_self g) mod 3)) o (set dm_l_inn r (fr_self g)).

(** A packet that fits. *)
Lemma dealt_S f g n i r o es :
  dealt f g n -> ring_items (dm_inn (fr_self f)) !! n = Some i ->
  (N.of_nat n < remaining_budget (fr_ctx f))%N ->
  sent [i] (get (dm_l_out (dm_branch (fr_self g) mod 3)) (fr_self g)) o es ->
  dealt f (mk_frame (set dm_l_branch (u64_add (dm_branch (fr_self g)) 1) (turn g r o))
    (set_remaining_budget (remaining_budget (fr_ctx g) - 1) (fr_ctx g)) (fr_work g + 1)
    (fr_effects g ++ es) (fr_reads g)) (S n).
Proof.
  intros [H1 H2 Hctx Hw Hb Hs] Hi Hlt Hsent. apply lookup_lt_Some in Hi as Hlen.
  assert (dm_branch (fr_self g) mod 3 < 3)%N as Hk by (apply N.mod_lt; done).
  split; cbn [fr_self fr_ctx fr_work dm_branch set dm_l_branch]; [done|lia| |lia| |].
  - rewrite Hctx, set_remaining_budget_twice. f_equal. cbn. lia.
  - by rewrite advance_S, Hb.
  - intros j Hj. rewrite dm_l_out_mk. destruct (Hs j Hj) as [es0 Hs0]. unfold turn.
    rewrite (take_S_r _ _ _ Hi), branch_items_snoc, length_take, Nat.min_l, <- Hb by lia.
    destruct (N.eqb_spec (dm_branch (fr_self g) mod 3) j) as [<- | Hkj].
    + exists (es0 ++ es). rewrite dm_l_out_same. by eapply sent_app.
    + exists es0. rewrite dm_l_out_other by done. simpl. by rewrite dm_l_out_mk, app_nil_r.
Qed.

(** A packet that does not. *)
Lemma dealt_full f g n r o es w :
  dealt f g n -> w = fr_work g ->
  sent [] (get (dm_l_out (dm_branch (fr_self g) mod 3)) (fr_self g)) o [] ->
  dealt f (mk_frame (turn g r o) (fr_ctx g) w es (fr_reads g)) n.
Proof.
  intros [H1 H2 Hctx Hw Hb Hs] -> Hsent.
  assert (dm_branch (fr_self g) mod 3 < 3)%N as Hk by (apply N.mod_lt; done).
  split; cbn [fr_self fr_ctx fr_work]; try done; [by unfold turn; rewrite dm_l_out_branch|].
  intros j Hj. destruct (Hs j Hj) as [es0 Hs0]. exists es0. unfold turn.
  destruct (N.eqb_spec (dm_branch (fr_self g) mod 3) j) as [<- | Hkj].
  - rewrite dm_l_out_same. rewrite <- (app_nil_r (branch_items _ _ _)), <- (app_nil_r es0). by eapply sent_app.
  - rewrite dm_l_out_other by done. simpl. by rewrite dm_l_out_mk.
Qed.

Lemma wp_demux3_loop (Q : unit -> frame Demux3Component -> Prop) E f :
  (forall g n, dealt_ends f g n -> Q tt g) -> wp demux3_loop Q E f.
Proof.
  intros HQ. set (items := ring_items (dm_inn (fr_self f))).
  apply (wp_while (fun g => exists n, dealt f g n /\ taken n (dm_inn (fr_self f)) (dm_inn (fr_self g)))
    (fun g => length (ring_items (dm_inn (fr_self g))))).
  - exists 0%nat. split; [apply dealt_0|apply taken_0].
  - rewrite ring_slots_spec. lia.
  - intros g (n & Hd & Ht) Hc. apply (HQ g n). split; [done|]. left. split; [done|].
    destruct Hd as [H1 H2 Hctx _ _ _], Ht as [Ht _ _]. rewrite Hctx in Hc. cbn in Hc.
    rewrite ring_is_empty_spec, Ht, length_drop in Hc.
    apply andb_false_iff in Hc as [Hc|Hc]; [apply N.ltb_ge in Hc; lia|].
    apply negb_false_iff, Nat.eqb_eq in Hc. lia.
  - intros g (n & Hd & Ht) Hc. pose proof Hd as [_ _ Hctx _ _ _].
    apply andb_true_iff in Hc as [Hc Hne]. apply N.ltb_lt in Hc. rewrite Hctx in Hc. cbn in Hc.
    pose proof Ht as [Hti _ _]. wp_run. apply wp_pop; simpl.
    { intros Hempty. rewrite ring_is_empty_spec, Hempty in Hne. done. }
    intros i rest r' Hi Hr'. rewrite Hi in Hti. symmetry in Hti.
    apply drop_cons in Hti as [Hik _]. apply lookup_lt_Some in Hik as Hlt. fold items in Hik, Hlt.
    assert (taken (S n) (dm_inn (fr_self f)) r') as Ht'.
    { rewrite <- Nat.add_1_r. by eapply taken_add. }
    wp_run. apply wp_send; simpl; rewrite dm_l_out_mk.
    + intros Hfree o es Hsent _. wp_run; [rewrite Hctx; cbn; lia|].
      eapply (dealt_S _ _ _ _ r') in Hd; [|exact Hik|lia|exact Hsent].
      assert (dm_inn (turn g r' o) = r') as Hinn by (unfold turn; by rewrite dm_l_out_inn).
      destruct (N.eqb_spec (remaining_budget (fr_ctx g) - 1) 0) as [Hz|Hz]; wp_run.
      * eapply HQ. split; [exact Hd|]. left. split; [exact (eq_ind_r (taken _ _) Ht' Hinn)|].
        rewrite Hctx in Hz. cbn in Hz. right. lia.
      * split; [exists (S n); split; [exact Hd|exact (eq_ind_r (taken _ _) Ht' Hinn)]|].
        change (length (ring_items (dm_inn (turn g r' o))) < length (ring_items (dm_inn (fr_self g))))%nat.
        destruct Hr' as [Hr' _ _]. rewrite Hinn, Hr', Hi. simpl. rewrite drop_0. lia.
    + intros Hfull o Hsent. wp_run. eapply HQ. split; [by apply dealt_full|]. right.
      unfold turn. cbn [fr_self]. rewrite dm_l_out_inn, dm_l_out_branch, dm_l_out_same.
      split_and!; [done|done|lia|]. by rewrite (sent_room _ _ _ _ Hsent), Hfull.
Qed.
(** [n] packets have been dealt out within the budget [b]. *)
Record demuxed (c c' : Demux3Component) (b : N) (n : nat) : Prop := mk_demuxed {
  dx_items : let items := ring_items (dm_inn c) in
    (n <= length items)%nat /\ (N.of_nat n <= b)%N /\
    forall i, (i < 3)%N -> sink_items (get (dm_l_out i) c') =
      sink_items (get (dm_l_out i) c) ++ branch_items i (dm_branch c) (take n items);
  dx_fair : forall i j, (i < 3)%N -> (j < 3)%N -> (dm_branch c + N.of_nat n < u64_modulus)%N ->
    let dealt_to i := length (branch_items i (dm_branch c) (take n (ring_items (dm_inn c)))) in
    (dealt_to i <= S (dealt_to j))%nat;
  dx_branch : dm_branch c' = advance n (dm_branch c);
  dx_end : let items := ring_items (dm_inn c) in
    (ring_items (dm_inn c') = drop n items /\ (n = length items \/ N.of_nat n = b)) \/
    (ring_items (dm_inn c') = drop (S n) items /\ (n < length items)%nat /\ (N.of_nat n < b)%N /\
     room (get (dm_l_out (dm_branch c' mod 3)) c') = 0%nat)
}.

Lemma demuxed_of sin sout c ctx w es rd g n :
  dealt_ends (mk_frame (mk_Demux3Component (dm_inn c) (dm_out_a c) (dm_out_b c) (dm_out_c c)
    sin sout (dm_branch c)) ctx w es rd) g n ->
  demuxed c (fr_self g) (remaining_budget ctx) n /\
  ring_is_abandoned (dm_inn (fr_self g)) = ring_is_abandoned (dm_inn c).
Proof.
  intros [[H1 H2 Hctx Hw Hb Hsent] He]. cbn [fr_self fr_ctx fr_work dm_inn dm_branch] in *. split.
  - split; cbv zeta.
    + split_and!; [done..|]. intros i Hi. destruct (Hsent i Hi) as (es' & [Hit _ _ _]).
      by rewrite dm_l_out_mk in Hit.
    + intros i j Hi Hj Hbr. apply branch_items_fair; [done..|]. rewrite length_take. lia.
    + done.
    + destruct He as [([? _ _] & ?)|([? _ _] & ? & ? & ?)]; [left|right]; by split_and!.
  - by destruct He as [[[] _]|[[] _]].
Qed.

(** Demux3 deals its packets out to A, B and C in turn: each outport gets
    the packets of its turns in order, and the numbers that they get differ by
    at most one.  It stops at the end of its budget or input, or at the first
    packet that finds its outport full; that packet is lost, and the turn stays
    with that outport. *)
Theorem demux3_process_spec (c : Demux3Component) (ctx : NodeContext) :
  exists f r, call demux3_process c ctx = Some (f, Some r) /\
    let c' := fr_self f in
    let b := remaining_budget ctx in
    (~ stop_next message_as_utf8 (get dm_signals c) -> exists n, demuxed c c' b n /\
       remaining_budget (fr_ctx f) = (b - N.of_nat n)%N /\
       r = (if ring_is_abandoned (dm_inn c) then Finished else result_of_work (N.of_nat n))) /\
    (stop_next message_as_utf8 (get dm_signals c) ->
       r = Finished /\ dm_inn c' = dm_inn c /\ dm_branch c' = dm_branch c).
Proof.
  apply wp_returns. unfold demux3_process. wp_run. apply wp_zoom, wp_poll; simpl.
  - intros Hns s Hs. wp_run. apply wp_demux3_loop. intros g n He. wp_run. apply wp_is_abandoned.
    pose proof He as [[_ _ Hctx Hw _ _] _]. cbn in Hctx, Hw.
    destruct (demuxed_of _ _ _ _ _ _ _ _ _ He) as [Hd Ha]. simpl. rewrite Ha.
    destruct (ring_is_abandoned (dm_inn c)); wp_run; (split; [|done]); intros _; exists n; rewrite Hctx;
      by rewrite ?Hw.
  - intros Hstop s Hs. by split.
Qed.
(** ** Equals *)

(** The packets with their routes, and those of one route. *)
Definition routed (v : FbpMessage) (l : list FbpMessage) : list (FbpMessage * bool) :=
  map (fun ip => (ip, message_eqb ip v)) l.
Definition of_side (t : bool) (l : list (FbpMessage * bool)) : list FbpMessage :=
  omap (fun x => if Bool.eqb x.2 t then Some x.1 else None) l.

Lemma of_side_app t l1 l2 : of_side t (l1 ++ l2) = of_side t l1 ++ of_side t l2.
Proof. apply omap_app. Qed.
Lemma of_side_same m t : of_side t [(m, t)] = [m].
Proof. unfold of_side. simpl. by rewrite Bool.eqb_reflx. Qed.
Lemma of_side_other m t u : t <> u -> of_side t [(m, u)] = [].
Proof. by destruct t, u. Qed.

Lemma eq_l_out_same t o c : get (eq_l_out t) (set (eq_l_out t) o c) = o.
Proof. by destruct t. Qed.
Lemma eq_l_out_other t u o c :
  t <> u -> get (eq_l_out t) (set (eq_l_out u) o c) = get (eq_l_out t) c.
Proof. by destruct t, u. Qed.
Lemma eq_l_out_mk t cmp inn sin sout v p c :
  get (eq_l_out t) (mk_EqualsComponent cmp inn (eq_out_true c) (eq_out_false c) sin sout v p) =
  get (eq_l_out t) c.
Proof. by destruct t. Qed.
Lemma eq_l_out_keeps t o c :
  let c' := set (eq_l_out t) o c in
  eq_cmp c' = eq_cmp c /\ eq_inn c' = eq_inn c /\ eq_cmp_value c' = eq_cmp_value c /\
  eq_pending_packets c' = eq_pending_packets c /\ get eq_signals c' = get eq_signals c.
Proof. by destruct t. Qed.
#[local] Opaque eq_l_out.

(** [f] and [g] agree on what these loops leave alone. *)
Record eq_same (c c' : EqualsComponent) : Prop := mk_eq_same {
  es_cmp : eq_cmp c' = eq_cmp c;
  es_cmp_value : eq_cmp_value c' = eq_cmp_value c;
  es_signals : polled (get eq_signals c) (get eq_signals c')
}.

(** [j] packets have left the queue. *)
Record eq_flushed (f g : frame EqualsComponent) (j : nat) : Prop := mk_eq_flushed {
  ef_packets : (j <= length (eq_pending_packets (fr_self f)))%nat;
  ef_budget : (N.of_nat j <= remaining_budget (fr_ctx f))%N;
  ef_ctx : fr_ctx g = set_remaining_budget (remaining_budget (fr_ctx f) - N.of_nat j) (fr_ctx f);
  ef_work : fr_work g = (fr_work f + N.of_nat j)%N;
  ef_inn : eq_inn (fr_self g) = eq_inn (fr_self f);
  ef_same : eq_same (fr_self f) (fr_self g);
  ef_pending : eq_pending_packets (fr_self g) = drop j (eq_pending_packets (fr_self f));
  ef_sent : forall t, exists es, sent (of_side t (take j (eq_pending_packets (fr_self f))))
    (get (eq_l_out t) (fr_self f)) (get (eq_l_out t) (fr_self g)) es
}.

(** Why the queue is not shorter. *)
Definition flush_stops (p : list (FbpMessage * bool)) (b : N) (j : nat) (c' : EqualsComponent) : Prop :=
  j = length p \/ N.of_nat j = b \/
  exists x, p !! j = Some x /\ room (get (eq_l_out x.2) c') = 0%nat.

Lemma eq_flushed_0 f : eq_flushed f f 0.
Proof.
  split; try done; [lia|lia| |lia|split; [done|done|apply polled_refl]|].
  - by rewrite N.sub_0_r, set_remaining_budget_id.
  - intros t. exists []. apply sent_nil.
Qed.

Lemma eq_flushed_S f g j m u o es :
  eq_flushed f g j -> eq_pending_packets (fr_self f) !! j = Some (m, u) ->
  (N.of_nat j < remaining_budget (fr_ctx f))%N ->
  sent [m] (get (eq_l_out u) (fr_self g)) o es ->
  eq_flushed f
    (mk_frame (set eq_l_pending (drop (S j) (eq_pending_packets (fr_self f)))
                 (set (eq_l_out u) o (fr_self g)))
       (set_remaining_budget (remaining_budget (fr_ctx g) - 1) (fr_ctx g)) (fr_work g + 1)
       (fr_effects g ++ es) (fr_reads g)) (S j).
Proof.
  intros [H1 H2 Hctx Hw Hi [Hc Hv Hsig] Hp Hs] Hm Hb Hsent. apply lookup_lt_Some in Hm as Hlt.
  destruct (eq_l_out_keeps u o (fr_self g)) as (K1 & K2 & K3 & _ & K5).
  split; cbn [fr_self fr_ctx fr_work set eq_l_pending eq_inn eq_pending_packets]; [lia|lia| |lia| | |done|].
  - rewrite Hctx, set_remaining_budget_twice. f_equal. cbn. lia.
  - by rewrite K2.
  - split; cbn [eq_cmp eq_cmp_value]; [by rewrite K1|by rewrite K3|]. by rewrite <- K5 in Hsig.
  - intros t. destruct (Hs t) as [es0 Hs0]. rewrite eq_l_out_mk, (take_S_r _ _ _ Hm), of_side_app.
    destruct (decide (t = u)) as [-> | Htu].
    + exists (es0 ++ es). rewrite eq_l_out_same, of_side_same. by eapply sent_app.
    + exists es0. by rewrite eq_l_out_other, of_side_other, app_nil_r by done.
Qed.

Lemma eq_flushed_full f g j u o es w :
  eq_flushed f g j -> w = fr_work g -> sent [] (get (eq_l_out u) (fr_self g)) o [] ->
  eq_flushed f (mk_frame (set (eq_l_out u) o (fr_self g)) (fr_ctx g) w es (fr_reads g)) j.
Proof.
  intros [H1 H2 Hctx Hw Hi [Hc Hv Hsig] Hp Hs] -> Hsent.
  destruct (eq_l_out_keeps u o (fr_self g)) as (K1 & K2 & K3 & K4 & K5).
  split; cbn [fr_self fr_ctx fr_work]; rewrite ?K2, ?K4; try done.
  - split; rewrite ?K1, ?K3, ?K5; done.
  - intros t. destruct (Hs t) as [es0 Hs0]. exists es0. destruct (decide (t = u)) as [-> | Htu].
    + rewrite eq_l_out_same. rewrite <- (app_nil_r (of_side _ _)), <- (app_nil_r es0). by eapply sent_app.
    + by rewrite eq_l_out_other.
Qed.

Lemma wp_equals_flush (Q : unit -> frame EqualsComponent -> Prop) E f :
  (forall g j, eq_flushed f g j ->
     flush_stops (eq_pending_packets (fr_self f)) (remaining_budget (fr_ctx f)) j (fr_self g) -> Q tt g) ->
  wp equals_flush Q E f.
Proof.
  intros HQ. set (p := eq_pending_packets (fr_self f)) in *.
  apply (wp_while (fun g => exists j, eq_flushed f g j)
    (fun g => length (eq_pending_packets (fr_self g)))).
  - exists 0%nat. apply eq_flushed_0.
  - lia.
  - intros g [j Hj] Hc. apply (HQ g j Hj). destruct Hj as [H1 H2 Hctx _ _ _ Hp _].
    rewrite Hctx, Hp in Hc. cbn [remaining_budget set_remaining_budget] in Hc.
    apply andb_false_iff in Hc as [Hc|Hc]; [apply N.ltb_ge in Hc; right; left; lia|].
    apply negb_false_iff, bool_decide_eq_true in Hc. apply (f_equal length) in Hc.
    rewrite length_drop in Hc. left. simpl in Hc. unfold p in *. lia.
  - intros g [j Hj] Hc. pose proof Hj as [H1 H2 Hctx Hw Hi Hsame Hp Hs].
    apply andb_true_iff in Hc as [Hb Hne]. apply N.ltb_lt in Hb. rewrite Hctx in Hb. cbn in Hb.
    apply negb_true_iff, bool_decide_eq_false in Hne.
    wp_run. destruct (eq_pending_packets (fr_self g)) as [|[m u] rest] eqn:Hpend; [done|]. clear Hne.
    symmetry in Hp. apply drop_cons in Hp as [Hm Hd]. fold p in Hm, Hd.
    simpl. wp_run. apply wp_send.
    + intros Hfree o es Hsent _. wp_run; [rewrite Hctx; cbn; lia|].
      eapply eq_flushed_S in Hj; [|exact Hm|lia|exact Hsent]. fold p in Hj. rewrite Hd in Hj.
      split; [exists (S j); exact Hj|]. lia.
    + intros Hfull o Hsent. wp_run. eapply HQ; [by apply eq_flushed_full|].
      right. right. exists (m, u). split; [done|]. cbn [fr_self snd]. rewrite eq_l_out_same.
      by rewrite (sent_room _ _ _ _ Hsent), Hfull.
Qed.
(** [k] packets have been routed: sent, or behind those that wait. *)
Record eq_routed (v : FbpMessage) (f g : frame EqualsComponent) (k : nat) : Prop := mk_eq_routed {
  er_packets : (k <= length (ring_items (eq_inn (fr_self f))))%nat;
  er_budget : (N.of_nat k <= remaining_budget (fr_ctx f))%N;
  er_ctx : fr_ctx g = set_remaining_budget (remaining_budget (fr_ctx f) - N.of_nat k) (fr_ctx f);
  er_work : fr_work g = (fr_work f + N.of_nat k)%N;
  er_taken : taken k (eq_inn (fr_self f)) (eq_inn (fr_self g));
  er_same : eq_same (fr_self f) (fr_self g);
  er_offered : forall t, exists es,
    offered (of_side t (routed v (take k (ring_items (eq_inn (fr_self f))))))
      (get (eq_l_out t) (fr_self f)) (of_side t (eq_pending_packets (fr_self f)))
      (get (eq_l_out t) (fr_self g)) (of_side t (eq_pending_packets (fr_self g))) es
}.

Lemma eq_same_trans c1 c2 c3 : eq_same c1 c2 -> eq_same c2 c3 -> eq_same c1 c3.
Proof. intros [A1 B1 C1] [A2 B2 C2]. split; [by rewrite A2|by rewrite B2|by eapply polled_trans]. Qed.

Lemma eq_routed_0 v f : eq_routed v f f 0.
Proof.
  split; [lia|lia| |lia|apply taken_0|split; [done|done|apply polled_refl]|].
  - by rewrite N.sub_0_r, set_remaining_budget_id.
  - intros t. exists []. apply offered_nil.
Qed.

Lemma eq_routed_same v f g k c' :
  eq_routed v f g k -> eq_same (fr_self g) c' -> taken 0 (eq_inn (fr_self g)) (eq_inn c') ->
  (forall t, get (eq_l_out t) c' = get (eq_l_out t) (fr_self g)) ->
  eq_pending_packets c' = eq_pending_packets (fr_self g) ->
  eq_routed v f (mk_frame c' (fr_ctx g) (fr_work g) (fr_effects g) (fr_reads g)) k.
Proof.
  intros [H1 H2 Hctx Hw Ht Hs Ho] Hs' Ht' Hout Hp. split; cbn [fr_self fr_ctx fr_work]; try done.
  - rewrite <- (Nat.add_0_r k). by eapply taken_add.
  - by eapply eq_same_trans.
  - intros t. rewrite Hout, Hp. apply Ho.
Qed.

(** One more: sent, or kept when there is no room. *)
Lemma eq_routed_S v f g k i o es c' :
  let u := message_eqb i v in
  let out := get (eq_l_out u) (fr_self g) in
  eq_routed v f g k -> ring_items (eq_inn (fr_self f)) !! k = Some i ->
  (N.of_nat k < remaining_budget (fr_ctx f))%N ->
  eq_same (fr_self g) c' -> taken 1 (eq_inn (fr_self g)) (eq_inn c') ->
  (forall t, get (eq_l_out t) c' = if decide (t = u) then o else get (eq_l_out t) (fr_self g)) ->
  sent (if decide (0 < room out)%nat then [i] else []) out o es ->
  eq_pending_packets c' = eq_pending_packets (fr_self g) ++
    (if decide (0 < room out)%nat then [] else [(i, u)]) ->
  eq_routed v f (mk_frame c' (set_remaining_budget (remaining_budget (fr_ctx g) - 1) (fr_ctx g))
    (fr_work g + 1) (fr_effects g ++ es) (fr_reads g)) (S k).
Proof.
  intros u out [H1 H2 Hctx Hw Ht Hs Ho] Hi Hb Hs' Ht' Hout Hsent Hp.
  apply lookup_lt_Some in Hi as Hlt.
  split; cbn [fr_self fr_ctx fr_work]; [lia|lia| |lia| | |].
  - rewrite Hctx, set_remaining_budget_twice. f_equal. cbn. lia.
  - rewrite <- Nat.add_1_r. by eapply taken_add.
  - by eapply eq_same_trans.
  - intros t. destruct (Ho t) as [es0 Ho']. unfold routed in *.
    rewrite Hout, Hp, of_side_app, (take_S_r _ _ _ Hi), map_app, of_side_app. cbn [map]. fold u.
    destruct (decide (t = u)) as [-> | Htu].
    + exists (es0 ++ es). rewrite of_side_same.
      replace (of_side u (if decide _ then [] else _)) with (if decide (0 < room out)%nat then [] else [i])
        by (destruct (decide _); [done|by rewrite of_side_same]).
      by apply offered_snoc.
    + exists es0. rewrite of_side_other by done. rewrite app_nil_r.
      replace (of_side t (if decide _ then [] else _)) with (@nil FbpMessage)
        by (destruct (decide _); [done|by rewrite of_side_other]).
      by rewrite app_nil_r.
Qed.

(** How the loop ends. *)
Definition eq_input_ends (v : FbpMessage) (f : frame EqualsComponent) (e : option exit)
    (g : frame EqualsComponent) : Prop :=
  match e with
  | None => eq_routed v f g (N.to_nat (remaining_budget (fr_ctx f) `min`
              N.of_nat (length (ring_items (eq_inn (fr_self f))))))
  | Some (Return Finished) => ~ no_stop message_as_utf8 (get eq_signals (fr_self f)) /\
      exists k, eq_routed v f g k
  | Some _ => False
  end.

Lemma equals_body v (Q : unit -> frame EqualsComponent -> Prop)
    (E : exit -> frame EqualsComponent -> Prop) f g k :
  (forall g, eq_input_ends v f None g -> Q tt g) ->
  eq_routed v f g k -> (0 < remaining_budget (fr_ctx f) - N.of_nat k)%N ->
  wp (ip ← pop eq_l_inn;
      match ip with
      | Some ip =>
          let route_to_true := message_eqb ip v in
          r ← send (eq_l_out route_to_true) ip;
          match r with
          | Ok _ => work 1;; charge 1
          | Err returned_ip =>
              p ← read eq_l_pending;
              write eq_l_pending (p ++ [(returned_ip, route_to_true)]);; work 1;; charge 1
          end
      | None => break
      end)
    (fun _ f' => (exists k, eq_routed v f f' k)
                 /\ (length (ring_items (eq_inn (fr_self f'))) < length (ring_items (eq_inn (fr_self g))))%nat)
    (fun e f' => match e with Break => Q tt f' | _ => E e f' end) g.
Proof.
  intros HQ Hg Hc. pose proof Hg as [_ _ Hctx _ [Ht _ _] _ _]. wp_run. apply wp_pop; simpl.
  - intros Hempty r Hr. wp_run. apply HQ. simpl. rewrite Hempty in Ht. symmetry in Ht.
    apply (f_equal length) in Ht. rewrite length_drop in Ht; simpl in Ht.
    pose proof Hg as [H1 H2 _ _ _ _ _]. replace (N.to_nat _) with k by lia.
    eapply eq_routed_same; [exact Hg| |done|intros t; by rewrite eq_l_out_mk|done].
    split; [done|done|apply polled_refl].
  - intros i rest r Hi Hr. rewrite Hi in Ht. symmetry in Ht. apply drop_cons in Ht as [Hik _].
    assert (length (ring_items r) < length (i :: rest))%nat as Hdec.
    { destruct Hr as [-> _ _]. rewrite Hi. simpl. rewrite drop_0. lia. }
    set (u := message_eqb i v). rewrite Hi. wp_run.
    set (c1 := mk_EqualsComponent (eq_cmp (fr_self g)) r (eq_out_true (fr_self g))
      (eq_out_false (fr_self g)) (eq_signals_in (fr_self g)) (eq_signals_out (fr_self g))
      (eq_cmp_value (fr_self g)) (eq_pending_packets (fr_self g))).
    assert (forall o t, get (eq_l_out t) (set (eq_l_out u) o c1) =
      if decide (t = u) then o else get (eq_l_out t) (fr_self g)) as Hout.
    { intros o t. destruct (decide (t = u)) as [-> | Htu]; [apply eq_l_out_same|].
      rewrite eq_l_out_other by done. apply eq_l_out_mk. }
    apply wp_send; cbn [fr_self]; unfold c1; rewrite eq_l_out_mk; fold c1;
      intros Hroom o; destruct (eq_l_out_keeps u o c1) as (K1 & K2 & K3 & K4 & K5).
    + intros es Hs _. wp_run; [rewrite Hctx; cbn; lia|]. fold c1. split; [exists (S k)|by rewrite K2].
      eapply eq_routed_S; [exact Hg|exact Hik|lia| |by rewrite K2|exact (Hout o)| |].
      * split; [exact K1|exact K3|rewrite K5; apply polled_refl].
      * rewrite decide_True by done. exact Hs.
      * by rewrite K4, decide_True, app_nil_r.
    + intros Hs. wp_run; [rewrite Hctx; cbn; lia|]. fold c1. split; [exists (S k)|by rewrite K2].
      rewrite <- (app_nil_r (fr_effects g)).
      eapply eq_routed_S; [exact Hg|exact Hik|lia| |by cbn [eq_inn]; rewrite K2| | |].
      * split; [exact K1|exact K3|]. change (polled (get eq_signals (fr_self g)) (get eq_signals (set (eq_l_out u) o c1))).
        rewrite K5. apply polled_refl.
      * intros t. rewrite eq_l_out_mk. apply Hout.
      * rewrite decide_False by (fold u; lia). exact Hs.
      * cbn [eq_pending_packets]. by rewrite K4, decide_False by (fold u; lia).
Qed.

Lemma wp_equals_input v (Q : unit -> frame EqualsComponent -> Prop)
    (E : exit -> frame EqualsComponent -> Prop) f :
  (forall g, eq_input_ends v f None g -> Q tt g) ->
  (forall e g, eq_input_ends v f (Some e) g -> E e g) ->
  wp (equals_input v) Q E f.
Proof.
  intros HQ HE. set (items := ring_items (eq_inn (fr_self f))) in *.
  apply (wp_while (fun g => exists k, eq_routed v f g k)
    (fun g => length (ring_items (eq_inn (fr_self g))))).
  - exists 0%nat. apply eq_routed_0.
  - rewrite ring_slots_spec. lia.
  - intros g [k Hg] Hc. apply HQ. simpl. pose proof Hg as [H1 H2 Hctx _ _ _ _].
    rewrite Hctx in Hc. apply N.ltb_ge in Hc. cbn in Hc. by replace (N.to_nat _) with k by lia.
  - intros g [k Hg] Hc.
    assert (forall s, polled (get eq_signals (fr_self g)) s -> eq_routed v f
      (mk_frame (set eq_signals s (fr_self g)) (fr_ctx g) (fr_work g) (fr_effects g) (fr_reads g)) k) as Hsame.
    { intros s Hs. eapply eq_routed_same; [exact Hg| |apply taken_0|intros t; apply eq_l_out_mk|done].
      by split; [..|destruct s]. }
    wp_run. apply wp_zoom, wp_poll; cbn [fr_self with_self].
    + intros _ s Hs. wp_run. apply (equals_body v Q E f (mk_frame (set eq_signals s (fr_self g)) (fr_ctx g)
        (fr_work g) (fr_effects g) (fr_reads g)) k HQ).
      * by apply Hsame.
      * pose proof Hg as [_ _ Hctx _ _ _ _]. rewrite Hctx in Hc. apply N.ltb_lt in Hc. exact Hc.
    + intros Hstop%stop_next_stop s Hs. apply HE. split; [|exists k; by apply Hsame].
      contradict Hstop. destruct Hg as [_ _ _ _ _ [_ _ Hp] _]. by eapply polled_no_stop.
Qed.
(** What an undisturbed call does with the comparison value [v]: [j] packets
    leave the queue, [k] the inport. *)
Record equaled (v : FbpMessage) (c c' : EqualsComponent) (b : N) (j k : nat) : Prop := mk_equaled {
  eqd_queue : (j <= length (eq_pending_packets c))%nat /\ (N.of_nat j <= b)%N /\
    flush_stops (eq_pending_packets c) b j c';
  eqd_input : k = N.to_nat ((b - N.of_nat j) `min` N.of_nat (length (ring_items (eq_inn c)))) /\
    ring_items (eq_inn c') = drop k (ring_items (eq_inn c));
  eqd_sides : forall t,
    let old := of_side t (take j (eq_pending_packets c)) in
    let new := of_side t (routed v (take k (ring_items (eq_inn c)))) in
    let free := (room (get (eq_l_out t) c) - length old)%nat in
    sink_items (get (eq_l_out t) c') = sink_items (get (eq_l_out t) c) ++ old ++ take free new /\
    of_side t (eq_pending_packets c') = of_side t (drop j (eq_pending_packets c)) ++ drop free new
}.

Lemma equaled_conserves v c c' b j k t :
  equaled v c c' b j k ->
  sink_items (get (eq_l_out t) c') ++ of_side t (eq_pending_packets c') ≡ₚ
  sink_items (get (eq_l_out t) c) ++ of_side t (eq_pending_packets c) ++
    of_side t (routed v (take k (ring_items (eq_inn c)))) /\
  (eq_pending_packets c = [] ->
   sink_items (get (eq_l_out t) c') ++ of_side t (eq_pending_packets c') =
   sink_items (get (eq_l_out t) c) ++ of_side t (routed v (take k (ring_items (eq_inn c))))).
Proof.
  intros [_ _ Hs]. destruct (Hs t) as [-> ->]. rewrite <- !app_assoc. split.
  - assert (of_side t (eq_pending_packets c) = of_side t (take j (eq_pending_packets c)) ++
      of_side t (drop j (eq_pending_packets c))) as -> by (by rewrite <- of_side_app, take_drop).
    rewrite <- !app_assoc. do 2 f_equiv. rewrite app_assoc, (Permutation_app_comm (take _ _)), <- app_assoc.
    by rewrite take_drop.
  - intros ->. rewrite take_nil, drop_nil. simpl. by rewrite take_drop.
Qed.

Lemma equaled_of v c c1 c2 f g h b j k :
  eq_flushed f g j -> fr_self f = c -> remaining_budget (fr_ctx f) = b -> fr_self g = c1 ->
  flush_stops (eq_pending_packets c) b j c1 ->
  eq_routed v g h k -> fr_self h = c2 ->
  k = N.to_nat ((b - N.of_nat j) `min` N.of_nat (length (ring_items (eq_inn c)))) ->
  equaled v c c2 b j k.
Proof.
  intros [H1 H2 _ _ Hi _ Hp Hs] <- <- <- Hstop [H3 _ _ _ [Ht _ _] _ Ho] <- Hk.
  rewrite Hi in Ht, Ho. split.
  - split_and!; [done..|]. destruct Hstop as [?|[?|(x & Hx & Hr)]]; [by left|by right; left|].
    right. right. exists x. split; [done|]. destruct (Ho x.2) as [es [Hsent _]].
    rewrite (sent_room _ _ _ _ Hsent), Hr. done.
  - done.
  - intros t old new free. destruct (Hs t) as [es1 Hs1]. destruct (Ho t) as [es2 [Hs2 Hkept]].
    rewrite (sent_room _ _ _ _ Hs1) in Hs2, Hkept. fold old new free in Hs1, Hs2, Hkept.
    destruct Hs1 as [Hi1 _ _ _], Hs2 as [Hi2 _ _ _]. rewrite Hi2, Hi1, Hkept, Hp, <- app_assoc. done.
Qed.

(** Only these parts count. *)
Lemma equaled_parts v c c0 c1 c' b j k :
  equaled v c0 c1 b j k ->
  eq_inn c0 = eq_inn c -> (forall t, get (eq_l_out t) c0 = get (eq_l_out t) c) ->
  eq_pending_packets c0 = eq_pending_packets c ->
  eq_inn c' = eq_inn c1 -> (forall t, get (eq_l_out t) c' = get (eq_l_out t) c1) ->
  eq_pending_packets c' = eq_pending_packets c1 -> equaled v c c' b j k.
Proof.
  intros [H1 H2 H3] Hi Ho Hp Hi' Ho' Hp'. rewrite Hi in H2, H3. rewrite Hp in H1, H3. split.
  - destruct H1 as (? & ? & H). split_and!; [done..|]. destruct H as [?|[?|(x & ? & ?)]]; [by left|by right; left|].
    right. right. exists x. by rewrite Ho'.
  - by rewrite Hi'.
  - intros t. specialize (H3 t). rewrite Ho in H3. by rewrite Ho', Hp'.
Qed.

(** The value to compare with, and how many packets of CMP that takes. *)
Definition cmp_next (c : EqualsComponent) : option FbpMessage :=
  match eq_cmp_value c with Some v => Some v | None => head (ring_items (eq_cmp c)) end.
Definition cmp_used (c : EqualsComponent) : nat :=
  match eq_cmp_value c with Some _ => 0 | None => 1 end.

(** The call after the configuration. *)
Definition equals_run (v : FbpMessage) (c c' : EqualsComponent) (ctx : NodeContext)
    (f : frame EqualsComponent) (r : ProcessResult) : Prop :=
  let b := remaining_budget ctx in
  (no_stop message_as_utf8 (get eq_signals c) -> exists j k,
     equaled v c c' b j k /\
     (forall t,
        sink_items (get (eq_l_out t) c') ++ of_side t (eq_pending_packets c') ≡ₚ
        sink_items (get (eq_l_out t) c) ++ of_side t (eq_pending_packets c) ++
          of_side t (routed v (take k (ring_items (eq_inn c)))) /\
        (eq_pending_packets c = [] ->
         sink_items (get (eq_l_out t) c') ++ of_side t (eq_pending_packets c') =
         sink_items (get (eq_l_out t) c) ++ of_side t (routed v (take k (ring_items (eq_inn c)))))) /\
     eq_cmp_value c' = Some (default v (head (drop (cmp_used c) (ring_items (eq_cmp c))))) /\
     remaining_budget (fr_ctx f) = (b - N.of_nat (j + k))%N /\
     r = (if ring_is_abandoned (eq_inn c) then Finished else result_of_work (N.of_nat (j + k)))) /\
  (stop_next message_as_utf8 (get eq_signals c) ->
     r = Finished /\ eq_inn c' = eq_inn c /\ eq_pending_packets c' = eq_pending_packets c).

Lemma wp_equals_end v c ctx h j k :
  ~ stop_next message_as_utf8 (get eq_signals c) ->
  equaled v c (fr_self h) (remaining_budget ctx) j k ->
  fr_work h = N.of_nat (j + k) -> remaining_budget (fr_ctx h) = (remaining_budget ctx - N.of_nat (j + k))%N ->
  eq_cmp_value (fr_self h) = Some v ->
  ring_items (eq_cmp (fr_self h)) = drop (cmp_used c) (ring_items (eq_cmp c)) ->
  ring_is_abandoned (eq_inn (fr_self h)) = ring_is_abandoned (eq_inn c) ->
  wp (new_cmp ← pop eq_l_cmp;
      (match new_cmp with Some v => write eq_l_cmp_value (Some v) | None => mret tt end);;
      abandoned ← is_abandoned eq_l_inn;
      if (abandoned : bool) then return_ Finished
      else w ← work_units; mret (result_of_work w))
    (fun r f => equals_run v c (fr_self f) ctx f r)
    (fun e f => match e with Return r => equals_run v c (fr_self f) ctx f r | _ => False end) h.
Proof.
  intros Hns Heq Hw Hb Hv Hcmp Ha.
  assert (forall c' r w es rd, eq_inn c' = eq_inn (fr_self h) ->
    (forall t, get (eq_l_out t) c' = get (eq_l_out t) (fr_self h)) ->
    eq_pending_packets c' = eq_pending_packets (fr_self h) ->
    eq_cmp_value c' = Some (default v (head (drop (cmp_used c) (ring_items (eq_cmp c))))) ->
    r = (if ring_is_abandoned (eq_inn c) then Finished else result_of_work (N.of_nat (j + k))) ->
    equals_run v c c' ctx (mk_frame c' (fr_ctx h) w es rd) r) as Hend.
  { intros c' r w es rd Hi Ho Hp Hv' ->. split; [|done]. intros _. exists j, k.
    assert (equaled v c c' (remaining_budget ctx) j k) as He by (by eapply equaled_parts).
    split_and!; try done. intros t. by eapply equaled_conserves. }
  wp_run. apply wp_pop; simpl; rewrite Hcmp.
  - intros Hempty r _. wp_run. apply wp_is_abandoned. simpl. rewrite Ha.
    destruct (ring_is_abandoned (eq_inn c)); wp_run; apply Hend; simpl; rewrite ?Hempty, ?Hw; try done;
      intros t; apply eq_l_out_mk.
  - intros m rest r Hm _. wp_run. apply wp_is_abandoned. simpl. rewrite Ha.
    destruct (ring_is_abandoned (eq_inn c)); wp_run; apply Hend; simpl; rewrite ?Hm, ?Hw; try done;
      intros t; apply eq_l_out_mk.
Qed.

Lemma wp_equals_run v (c c0 : EqualsComponent) ctx rd :
  eq_inn c0 = eq_inn c -> (forall t, get (eq_l_out t) c0 = get (eq_l_out t) c) ->
  get eq_signals c0 = get eq_signals c -> eq_pending_packets c0 = eq_pending_packets c ->
  eq_cmp_value c0 = Some v -> ring_items (eq_cmp c0) = drop (cmp_used c) (ring_items (eq_cmp c)) ->
  wp (zoom eq_signals (poll message_as_utf8);;
      equals_flush;;
      equals_input v;;
      new_cmp ← pop eq_l_cmp;
      (match new_cmp with Some v => write eq_l_cmp_value (Some v) | None => mret tt end);;
      abandoned ← is_abandoned eq_l_inn;
      if (abandoned : bool) then return_ Finished
      else w ← work_units; mret (result_of_work w))
    (fun r f => equals_run v c (fr_self f) ctx f r)
    (fun e f => match e with Return r => equals_run v c (fr_self f) ctx f r | _ => False end)
    (mk_frame c0 ctx 0 [] rd).
Proof.
  intros Hinn Hout Hsig Hpend Hv Hcmp. wp_run. apply wp_zoom, wp_poll; cbn [fr_self].
  - intros Hns s Hs. assert (~ stop_next message_as_utf8 (get eq_signals c)) as Hns' by (by rewrite <- Hsig). wp_run. apply wp_equals_flush. intros g j Hg Hstop. wp_run.
    apply wp_equals_input.
    + intros h Hh. simpl in Hh. remember (N.to_nat _) as k eqn:Hk in Hh.
      eapply equaled_of in Hstop as Heq; [|exact Hg|done..|exact Hh|done|].
      * pose proof Hg as [_ _ Hc1 Hw1 Hi1 [Hcm1 Hv1 _] _ _].
        pose proof Hh as [_ _ Hc2 Hw2 [_ _ Ha] [Hcm2 Hv2 _] _]. cbn in Hc1, Hw1, Hi1, Hcm1, Hv1.
        apply (wp_equals_end v c ctx h j k Hns').
        -- eapply equaled_parts; [exact Heq|exact Hinn|intros t|exact Hpend|done..].
           cbn [fr_self]. rewrite eq_l_out_mk. apply Hout.
        -- rewrite Hw2, Hw1. lia.
        -- rewrite Hc2, Hc1. cbn. lia.
        -- by rewrite Hv2, Hv1.
        -- by rewrite Hcm2, Hcm1.
        -- by rewrite Ha, Hi1, Hinn.
      * destruct Hg as [_ _ Hc1 _ Hi1 _ _ _]. by rewrite Hc1, Hi1 in Hk.
    + intros e h He. destruct e as [|r|]; try done. destruct r; try done. destruct He as [Hno _].
      split; [|by intros ?%Hns']. intros Hq. destruct Hno. destruct Hg as [_ _ _ _ _ [_ _ Hp] _ _].
      eapply polled_no_stop; [exact Hp|]. eapply polled_no_stop; [exact Hs|].
      change (no_stop message_as_utf8 (get eq_signals c0)). by rewrite Hsig.
  - intros Hstop s Hs. split; [|done]. intros Hq%stop_next_stop; [done|]. by rewrite <- Hsig.
Qed.

(** Equals sends every packet it takes to TRUE or FALSE, as it is equal to
    the comparison value or not; those that do not fit wait, each behind its
    outport, so that on each side nothing is lost or duplicated.  The order
    within a side is that of the input when nothing was waiting before; else a
    packet may be overtaken.  It takes as many packets as the budget allows,
    and a new comparison value holds from the next call on. *)
Theorem equals_process_spec (c : EqualsComponent) (ctx : NodeContext) :
  exists f r, call equals_process c ctx = Some (f, Some r) /\
    let c' := fr_self f in
    match cmp_next c with
    | None => r = NoWork /\ eq_inn c' = eq_inn c /\ eq_pending_packets c' = eq_pending_packets c
    | Some v => equals_run v c c' ctx f r
    end.
Proof.
  apply wp_returns. unfold equals_process, equals_configure. wp_run.
  unfold cmp_next. destruct (eq_cmp_value c) as [v|] eqn:Hv; wp_run.
  - apply wp_unbind, wp_equals_run; unfold cmp_used; by rewrite ?Hv.
  - apply wp_pop; simpl.
    + intros Hempty r _. wp_run. by rewrite Hempty.
    + intros v rest r Hr [Hi _ _]. wp_run. rewrite Hr. simpl.
      apply wp_unbind, wp_equals_run; try done; [intros t; by rewrite !eq_l_out_mk|].
      unfold cmp_used. by rewrite Hv.
Qed.
(** ** GenericRouter *)
Section generic_router.
Context {Json Regex : Type}.
Variable json_null : Json.
Variable json_as_str : Json -> option string.
Variable json_as_object : Json -> option (gmap string Json).
Variable json_from_str : string -> option Json.
Variable regex_new : string -> option Regex.
Variable regex_is_match : Regex -> string -> bool.
Variable config_from_str : string -> option RouterConfig.

Abbreviation Router := (@GenericRouterComponent R Regex).
Abbreviation route := (route_message json_null json_as_str json_as_object json_from_str regex_is_match).

(** Where the text of a packet goes; what a port gets; the packets that some
    port gets. *)
Definition port_of (rules : option RouterConfig * list CompiledRule) (m : FbpMessage) : string :=
  route rules.1 rules.2 (default "" (as_text m)).
Definition addressed rules (port : string) (l : list FbpMessage) : list FbpMessage :=
  omap (fun m => if String.eqb (port_of rules m) port
                 then Some (Text (default "" (as_text m))) else None) l.
Definition deliverable rules (ports : gmap string ProcessEdgeSink) (l : list FbpMessage) : nat :=
  length (filter (fun m => is_Some (ports !! port_of rules m)) l).

Lemma addressed_snoc rules port l m :
  addressed rules port (l ++ [m]) = addressed rules port l ++
    (if String.eqb (port_of rules m) port then [Text (default "" (as_text m))] else []).
Proof. unfold addressed. rewrite omap_app. simpl. by destruct (String.eqb _ _). Qed.

Lemma deliverable_snoc rules ports l m :
  deliverable rules ports (l ++ [m]) = (deliverable rules ports l +
    (if decide (is_Some (ports !! port_of rules m)) then 1 else 0))%nat.
Proof.
  unfold deliverable. rewrite filter_app, length_app, filter_cons, filter_nil. by destruct (decide _).
Qed.

(** [k] packets have been routed_by. *)
Record routed_by (f g : frame Router) (k : nat) : Prop := mk_handled {
  hd_packets : (k <= length (ring_items (gr_inn (fr_self f))))%nat;
  hd_budget : (N.of_nat (deliverable (get gr_l_rules (fr_self f)) (gr_out_ports (fr_self f))
                (take k (ring_items (gr_inn (fr_self f))))) <= remaining_budget (fr_ctx f))%N;
  hd_ctx : fr_ctx g = set_remaining_budget (remaining_budget (fr_ctx f) -
    N.of_nat (deliverable (get gr_l_rules (fr_self f)) (gr_out_ports (fr_self f))
                (take k (ring_items (gr_inn (fr_self f)))))) (fr_ctx f);
  hd_work : fr_work g = (fr_work f +
    N.of_nat (deliverable (get gr_l_rules (fr_self f)) (gr_out_ports (fr_self f))
                (take k (ring_items (gr_inn (fr_self f))))))%N;
  hd_rules : get gr_l_rules (fr_self g) = get gr_l_rules (fr_self f);
  hd_ports : forall port, match gr_out_ports (fr_self f) !! port with
    | None => gr_out_ports (fr_self g) !! port = None
    | Some o => exists o' es, gr_out_ports (fr_self g) !! port = Some o' /\
        sent (addressed (get gr_l_rules (fr_self f)) port
                (take k (ring_items (gr_inn (fr_self f))))) o o' es
    end
}.

Lemma handled_0 f : routed_by f f 0.
Proof.
  assert (forall rules ports l, deliverable rules ports (take 0 l) = 0%nat) as H0 by done.
  split; rewrite ?H0; try done; [lia|lia| |by rewrite N.add_0_r|].
  - by rewrite N.sub_0_r, set_remaining_budget_id.
  - intros port. destruct (_ !! port) as [o|] eqn:Ho; [|done]. exists o, []. split; [done|apply sent_nil].
Qed.

(** One more: [p] is what becomes of the outports. *)
Lemma handled_S f g k m x w p es r :
  routed_by f g k -> ring_items (gr_inn (fr_self f)) !! k = Some m ->
  let port := port_of (get gr_l_rules (fr_self f)) m in
  (match gr_out_ports (fr_self f) !! port with
   | None => p = gr_out_ports (fr_self g) /\ x = fr_ctx g /\ w = fr_work g
   | Some _ => exists o o' es, gr_out_ports (fr_self g) !! port = Some o /\
       sent [Text (default "" (as_text m))] o o' es /\ p = <[port := o']> (gr_out_ports (fr_self g)) /\
       x = set_remaining_budget (remaining_budget (fr_ctx g) - 1) (fr_ctx g) /\ w = (fr_work g + 1)%N /\
       (1 <= remaining_budget (fr_ctx g))%N
   end) ->
  routed_by f (mk_frame (mk_GenericRouterComponent (gr_conf (fr_self g)) r p (gr_signals_in (fr_self g))
      (gr_signals_out (fr_self g))
      (gr_config (fr_self g)) (gr_compiled_rules (fr_self g)))
    x w es (fr_reads g)) (S k).
Proof.
  intros [H1 H2 Hctx Hw Hr Hp] Hm port H. apply lookup_lt_Some in Hm as Hlt.
  assert (deliverable (get gr_l_rules (fr_self f)) (gr_out_ports (fr_self f))
    (take (S k) (ring_items (gr_inn (fr_self f)))) =
    (deliverable (get gr_l_rules (fr_self f)) (gr_out_ports (fr_self f))
      (take k (ring_items (gr_inn (fr_self f)))) +
     match gr_out_ports (fr_self f) !! port with Some _ => 1 | None => 0 end)%nat) as Hd.
  { rewrite (take_S_r _ _ _ Hm), deliverable_snoc. fold port.
    by destruct (decide _) as [[? ->]|Hn], (_ !! port) eqn:?; [|done|destruct Hn|]. }
  split; rewrite ?Hd; cbn [fr_self fr_ctx fr_work gr_out_ports]; [done| | | |done|].
  - destruct (_ !! port); [|by rewrite Nat.add_0_r]. destruct H as (o & o' & es' & _ & _ & _ & _ & _ & Hb).
    rewrite Hctx in Hb. cbn [remaining_budget set_remaining_budget] in Hb. lia.
  - destruct (_ !! port); [destruct H as (o & o' & es' & _ & _ & _ & -> & _ & _)|destruct H as (_ & -> & _)];
      rewrite Hctx, ?set_remaining_budget_twice; f_equal; cbn [remaining_budget set_remaining_budget]; lia.
  - destruct (_ !! port); [destruct H as (o & o' & es' & _ & _ & _ & _ & -> & _)|destruct H as (_ & _ & ->)];
      rewrite Hw; lia.
  - intros q. specialize (Hp q) as Hq. rewrite (take_S_r _ _ _ Hm), addressed_snoc. fold port.
    destruct (String.eqb_spec port q) as [<- | Hne].
    + destruct (gr_out_ports (fr_self f) !! port) as [o0|].
      * destruct H as (o & o' & es' & Ho & Hs & -> & _). destruct Hq as (o1 & es1 & Ho1 & Hs1).
        simplify_eq. exists o', (es1 ++ es'). rewrite lookup_insert_eq. split; [done|]. by eapply sent_app.
      * by destruct H as (-> & _).
    + rewrite app_nil_r. destruct (gr_out_ports (fr_self f) !! port) as [o0|].
      * destruct H as (o & o' & es' & _ & _ & -> & _). by rewrite lookup_insert_ne.
      * by destruct H as (-> & _).
Qed.

(** A packet that does not fit. *)
Lemma handled_full f g k port o o' es' r es :
  routed_by f g k -> gr_out_ports (fr_self g) !! port = Some o -> sent [] o o' es' ->
  routed_by f (mk_frame (mk_GenericRouterComponent (gr_conf (fr_self g)) r
      (<[port := o']> (gr_out_ports (fr_self g))) (gr_signals_in (fr_self g))
      (gr_signals_out (fr_self g)) (gr_config (fr_self g)) (gr_compiled_rules (fr_self g)))
    (fr_ctx g) (fr_work g) es (fr_reads g)) k.
Proof.
  intros [H1 H2 Hctx Hw Hr Hp] Ho Hs. split; try done. intros q. specialize (Hp q). cbn [fr_self gr_out_ports].
  destruct (decide (port = q)) as [-> | Hne]; [|by rewrite lookup_insert_ne].
  destruct (gr_out_ports (fr_self f) !! q) as [o0|]; [|by simplify_eq].
  destruct Hp as (o1 & es1 & Ho1 & Hs1). simplify_eq. exists o', (es1 ++ es').
  rewrite lookup_insert_eq. split; [done|]. rewrite <- (app_nil_r (addressed _ _ _)). by eapply sent_app.
Qed.

(** How the loop ends. *)
Definition handled_ends (f g : frame Router) (k : nat) : Prop :=
  let items := ring_items (gr_inn (fr_self f)) in
  routed_by f g k /\
  ((taken k (gr_inn (fr_self f)) (gr_inn (fr_self g)) /\
    (k = length items \/ remaining_budget (fr_ctx g) = 0%N)) \/
   (taken (S k) (gr_inn (fr_self f)) (gr_inn (fr_self g)) /\ exists m o,
    items !! k = Some m /\
    gr_out_ports (fr_self g) !! port_of (get gr_l_rules (fr_self f)) m = Some o /\ room o = 0%nat)).

(** [push] in the words of [sent]. *)
Lemma push_sent m o :
  exists o' es, push m o = (if decide (0 < room o)%nat then Ok tt else Err m, o', es) /\
    sent (if decide (0 < room o)%nat then [m] else []) o o' es.
Proof.
  assert (wp (send (C := ProcessEdgeSink) (mk_lens (fun o => o) (fun o _ => o)) m)
    (fun r f => r = (if decide (0 < room o)%nat then Ok tt else Err m) /\
       sent (if decide (0 < room o)%nat then [m] else []) o (fr_self f) (fr_effects f)) (fun _ _ => False)
    (mk_frame o (new_node_context "" Normal 1%positive 0) 0 [] 0)) as H.
  { apply wp_send; simpl.
    - intros Hr o' es Hs _. destruct (decide _); [done|lia].
    - intros Hr o' Hs. destruct (decide _); [lia|done]. }
  unfold wp, send in H. simpl in H. destruct (push m o) as [[r o'] es]. simpl in H.
  destruct H as [-> H]. eauto.
Qed.

Lemma wp_send_to port m (Q : option (result unit FbpMessage) -> frame Router -> Prop) E f :
  (gr_out_ports (fr_self f) !! port = None -> Q None f) ->
  (forall o o' es, gr_out_ports (fr_self f) !! port = Some o ->
     sent (if decide (0 < room o)%nat then [m] else []) o o' es ->
     let c := fr_self f in
     Q (Some (if decide (0 < room o)%nat then Ok tt else Err m))
       (mk_frame (mk_GenericRouterComponent (gr_conf c) (gr_inn c) (<[port := o']> (gr_out_ports c))
          (gr_signals_in c) (gr_signals_out c) (gr_config c) (gr_compiled_rules c))
          (fr_ctx f) (fr_work f) (fr_effects f ++ es) (fr_reads f))) ->
  wp (send_to port m) Q E f.
Proof.
  intros H0 H1. unfold wp, send_to. destruct (_ !! port) as [o|] eqn:Ho; [|by apply H0].
  destruct (push_sent m o) as (o' & es & -> & Hs). by apply H1.
Qed.

Lemma wp_router_loop (Q : unit -> frame Router -> Prop) E f :
  (forall g k, handled_ends f g k -> Q tt g) ->
  wp (router_loop json_null json_as_str json_as_object json_from_str regex_is_match) Q E f.
Proof.
  intros HQ. set (items := ring_items (gr_inn (fr_self f))).
  apply (wp_while (fun g => exists k, routed_by f g k /\ taken k (gr_inn (fr_self f)) (gr_inn (fr_self g)))
    (fun g => length (ring_items (gr_inn (fr_self g))))).
  - exists 0%nat. split; [apply handled_0|apply taken_0].
  - rewrite ring_slots_spec. lia.
  - intros g (k & Hd & Ht) Hc. apply (HQ g k). split; [done|]. left. split; [done|].
    destruct Hd as [H1 _ _ _ _ _], Ht as [Ht _ _]. rewrite ring_is_empty_spec, Ht, length_drop in Hc.
    apply andb_false_iff in Hc as [Hc|Hc]; [apply N.ltb_ge in Hc; right; lia|].
    apply negb_false_iff, Nat.eqb_eq in Hc. left. lia.
  - intros g (k & Hd & Ht) Hc. apply andb_true_iff in Hc as [Hc Hne]. apply N.ltb_lt in Hc.
    pose proof Hd as [_ _ _ _ Hr Hp]. pose proof Ht as [Hti _ _]. wp_run. apply wp_pop; simpl.
    { intros Hempty. rewrite ring_is_empty_spec, Hempty in Hne. done. }
    intros m rest r' Hi Hr'. rewrite Hi in Hti. symmetry in Hti.
    apply drop_cons in Hti as [Hik _]. fold items in Hik.
    assert (taken (S k) (gr_inn (fr_self f)) r') as Ht'.
    { rewrite <- Nat.add_1_r. by eapply taken_add. }
    assert (length (ring_items r') < length (ring_items (gr_inn (fr_self g))))%nat as Hdec.
    { destruct Hr' as [-> _ _]. rewrite Hi. simpl. rewrite drop_0. lia. }
    specialize (Hp (port_of (get gr_l_rules (fr_self f)) m)).
    assert (route (gr_config (fr_self g)) (gr_compiled_rules (fr_self g)) (default "" (as_text m)) =
      port_of (get gr_l_rules (fr_self f)) m) as Hport by (unfold port_of; by rewrite <- Hr).
    wp_run. rewrite Hport. set (port := port_of _ m) in *. apply wp_send_to; cbn [fr_self gr_out_ports].
    + intros Hnone. wp_run. split; [|done]. exists (S k). split; [|done].
      eapply handled_S; [exact Hd|exact Hik|]. fold port.
      destruct (gr_out_ports (fr_self f) !! port); [|done]. destruct Hp as (? & ? & ? & _). by simplify_eq.
    + intros o o' es Ho Hs. destruct (decide (0 < room o)%nat) as [Hfree|Hfull]; wp_run.
      * split; [|done]. exists (S k). split; [|done].
        eapply handled_S; [exact Hd|exact Hik|]. fold port.
        destruct (gr_out_ports (fr_self f) !! port); [|by simplify_eq]. exists o, o', es. by split_and!; try lia.
      * apply (HQ _ k). split; [by eapply handled_full|]. right. split; [done|].
        exists m, o'. split_and!; [done|cbn; apply lookup_insert_eq|]. rewrite (sent_room _ _ _ _ Hs). lia.
Qed.

(** The rules of a call, and the work that reading them counts for; or how the
    call ends without rules ([None]: it unwinds). *)
Definition router_next (c : Router) :
    option ProcessResult + (option RouterConfig * list CompiledRule) * N :=
  match gr_config c with
  | Some _ => inr (get gr_l_rules c, 0%N)
  | None =>
      match head (ring_items (gr_conf c)) with
      | None => inl (Some NoWork)
      | Some conf_msg =>
          match as_text conf_msg with
          | None => inl None
          | Some conf_text =>
              match config_from_str conf_text with
              | None => inl (Some Finished)
              | Some config =>
                  match compile_rules regex_new (rc_rules config) with
                  | None => inl (Some Finished)
                  | Some compiled => inr ((Some config, compiled), 1%N)
                  end
              end
          end
      end
  end.

(** [k] packets have been dispatched within the budget [b]. *)
Record dispatched rules (c c' : Router) (b : N) (k : nat) : Prop := mk_dispatched {
  di_packets : (k <= length (ring_items (gr_inn c)))%nat;
  di_budget : (N.of_nat (deliverable rules (gr_out_ports c) (take k (ring_items (gr_inn c)))) <= b)%N;
  di_rules : get gr_l_rules c' = rules;
  di_ports : forall port, match gr_out_ports c !! port with
    | None => gr_out_ports c' !! port = None
    | Some o => exists o', gr_out_ports c' !! port = Some o' /\
        sink_items o' = sink_items o ++ addressed rules port (take k (ring_items (gr_inn c)))
    end;
  di_end : let items := ring_items (gr_inn c) in
    (ring_items (gr_inn c') = drop k items /\
     (k = length items \/ N.of_nat (deliverable rules (gr_out_ports c) (take k items)) = b)) \/
    (ring_items (gr_inn c') = drop (S k) items /\ exists m o, items !! k = Some m /\
     gr_out_ports c' !! port_of rules m = Some o /\ room o = 0%nat)
}.

(** The call after the configuration. *)
Definition router_run rules (w : N) (c : Router) (ctx : NodeContext) (f : frame Router)
    (r : option ProcessResult) : Prop :=
  exists k, let n := deliverable rules (gr_out_ports c) (take k (ring_items (gr_inn c))) in
    dispatched rules c (fr_self f) (remaining_budget ctx) k /\
    remaining_budget (fr_ctx f) = (remaining_budget ctx - N.of_nat n)%N /\
    r = Some (if ring_is_abandoned (gr_inn c) then Finished else result_of_work (w + N.of_nat n)).

Lemma wp_router_run rules w (c c0 : Router) ctx es rd (P : frame Router -> option ProcessResult -> Prop) :
  (forall f r, router_run rules w c ctx f (Some r) -> P f (Some r)) ->
  gr_inn c0 = gr_inn c -> gr_out_ports c0 = gr_out_ports c -> get gr_l_rules c0 = rules ->
  wp (router_loop json_null json_as_str json_as_object json_from_str regex_is_match;;
      abandoned ← is_abandoned gr_l_inn;
      if (abandoned : bool) then return_ Finished
      else w ← work_units; mret (result_of_work w))
    (fun r f => P f (Some r))
    (fun e f => match e with Return r => P f (Some r) | Unwind => P f None | Break => False end)
    (mk_frame c0 ctx w es rd).
Proof.
  intros HP Hi Hp Hr. wp_run. apply wp_router_loop. intros g k [[H1 H2 Hctx Hw Hr' Hports] He].
  cbn [fr_self fr_ctx fr_work] in *. rewrite Hr, ?Hi, ?Hp in *.
  set (n := deliverable _ _ _) in *.
  assert (ring_is_abandoned (gr_inn (fr_self g)) = ring_is_abandoned (gr_inn c)) as Ha
    by (by destruct He as [[[] _]|[[] _]]).
  assert (dispatched rules c (fr_self g) (remaining_budget ctx) k) as Hd.
  { split; try done.
    - intros port. specialize (Hports port).
      destruct (gr_out_ports c !! port) as [o|]; [|done].
      destruct Hports as (o' & es' & Ho & [Hit _ _ _]). by exists o'.
    - cbv zeta. fold n. destruct He as [([Ht _ _] & He)|([Ht _ _] & He)]; [left|right]; (split; [done|]); [|done].
      destruct He as [?|Hz]; [by left|]. right. rewrite Hctx in Hz. cbn in Hz. lia. }
  wp_run. apply wp_is_abandoned. simpl. rewrite Ha.
  destruct (ring_is_abandoned (gr_inn c)) eqn:Hab; wp_run; apply HP; exists k; cbv zeta; fold n; rewrite Hab, ?Hw, Hctx;
    by split_and!.
Qed.

(** GenericRouter sends the text of every packet to the outport that the
    first matching rule names, or the default; each outport gets its texts in
    order.  Packets for which no outport exists are dropped and cost nothing;
    the first that finds its outport full is lost and ends the loop.  A
    configuration that does not parse or compile finishes the component, one
    that is not a text unwinds. *)
Theorem generic_router_process_spec (c : Router) (ctx : NodeContext) :
  exists f r,
    call (generic_router_process json_null json_as_str json_as_object json_from_str regex_new
            regex_is_match config_from_str) c ctx = Some (f, r) /\
    (stop_next message_as_utf8 (get gr_signals c) ->
       r = Some Finished /\ gr_inn (fr_self f) = gr_inn c) /\
    (~ stop_next message_as_utf8 (get gr_signals c) ->
       match router_next c with
       | inl res => r = res /\ gr_inn (fr_self f) = gr_inn c /\
           gr_out_ports (fr_self f) = gr_out_ports c
       | inr (rules, w) => router_run rules w c ctx f r
       end).
Proof.
  apply wp_call. unfold generic_router_process, router_configure. wp_run.
  apply wp_zoom, wp_poll; cbn [fr_self].
  - intros Hns s Hs. unfold router_next. wp_run.
    pose (P rules w f r := (stop_next message_as_utf8 (get gr_signals c) ->
       r = Some Finished /\ gr_inn (fr_self f) = gr_inn c) /\
      (~ stop_next message_as_utf8 (get gr_signals c) -> router_run rules w c ctx f r)).
    assert (forall rules w f r, router_run rules w c ctx f (Some r) -> P rules w f (Some r)) as HP by by split.
    destruct (gr_config c) as [config|] eqn:Hconf; wp_run.
    + apply wp_unbind, (wp_router_run (Some config, gr_compiled_rules c) 0 c _ _ _ _ (P _ 0%N)); auto.
    + apply wp_pop; simpl.
      * intros Hempty r _. wp_run. by rewrite Hempty.
      * intros conf_msg rest r Hr _. rewrite Hr. simpl. wp_run.
        destruct (as_text conf_msg) as [conf_text|]; wp_run; [|by split; [intros ?%Hns|]].
        destruct (config_from_str conf_text) as [config|]; wp_run; [|by split; [intros ?%Hns|]].
        destruct (compile_rules _ _) as [compiled|]; wp_run; [|by split; [intros ?%Hns|]].
        apply wp_unbind, (wp_router_run (Some config, compiled) 1 c _ _ _ _ (P _ 1%N)); auto.
  - intros Hstop s Hs. by split.
Qed.
End generic_router.
End routers.

(** ** Concrete runs *)
#[local] Existing Instance list_rtrb.

(** The queue is blocked by a packet for TRUE; a packet for FALSE that waits
    behind it is overtaken by one that has just arrived. *)
Definition demo_equals : EqualsComponent :=
  mk_EqualsComponent (demo_ring false []) (demo_ring false [Text "late"]) (demo_out 0) (demo_out 8)
    demo_channel demo_channel (Some (Text "x")) [(Text "x", true); (Text "early", false)].

Example equals_overtakes :
  exists f, call equals_process demo_equals (demo_context Normal 8) = Some (f, Some (DidWork 1)) /\
    sink_items (eq_out_false (fr_self f)) = [Text "late"] /\
    eq_pending_packets (fr_self f) = [(Text "x", true); (Text "early", false)].
Proof. eexists. split_and!; vm_compute; reflexivity. Qed.
