(* ===== verification/Timers.v ===== *)
(** The components that live by the scheduler's timers: [Delay] and [Cron].

    The reading of decimal fractions (floating point numbers) and the cron
    schedules (crates cron and chrono) are arguments, and so are the clocks. *)
From S2P Require Import Prelude Api Scheduler Process Pipes.
From Stdlib Require Strings.String.
From Stdlib Require Import NArith ZArith Lia Strings.Byte Strings.Ascii.
From stdpp Require Import base list strings gmap.
Local Open Scope string_scope.
Local Open Scope list_scope.
Local Open Scope flowd_scope.

(** * Reading a delay *)

Definition is_ascii_digit (c : ascii) : bool :=
  let n := Ascii.N_of_ascii c in ((48 <=? n) && (n <=? 57))%N.

(** [s.parse::<u64>()]: an optional plus sign and digits, without overflow. *)
Fixpoint parse_digits (s : string) (acc : N) : option N :=
  match s with
  | EmptyString => Some acc
  | String c r =>
      if is_ascii_digit c then
        let acc := (acc * 10 + (Ascii.N_of_ascii c - 48))%N in
        if (acc <? u64_modulus)%N then parse_digits r acc else None
      else None
  end.

Definition parse_u64 (s : string) : option N :=
  match s with
  | EmptyString => None
  | String c r =>
      if Ascii.eqb c "+"%char then
        match r with EmptyString => None | _ => parse_digits r 0 end
      else parse_digits s 0
  end.

(** The digits and points of a text, and the rest of it, each in order. *)
Fixpoint split_unit (s : string) : string * string :=
  match s with
  | EmptyString => (EmptyString, EmptyString)
  | String c r =>
      let '(num_str, unit) := split_unit r in
      if is_ascii_digit c || Ascii.eqb c "."%char then (String c num_str, unit)
      else (num_str, String c unit)
  end.

Section timers.
Context `{R : Rtrb}.

(** [(num_str.parse::<f64>()? * multiplier) as u64]. *)
Variable f64_times : string -> N -> option N.
(** [Instant::now()]. *)
Variable clock : nat -> Instant.

Definition from_micros (n : N) : Duration := (n * 1000)%N.

(** [parse_delay]; the texts of the errors are only logged. *)
Definition parse_delay (s : string) : option Duration :=
  let s := str_trim s in
  let delay_value :=
    if String.prefix "?" s then
      if String.prefix "?delay=" s
      then Some (String.substring 7 (String.length s - 7) s) else None
    else Some s in
  match delay_value with
  | None => None
  | Some v =>
      match parse_u64 v with
      | Some num => Some (from_micros num)
      | None =>
          let '(num_str, unit) := split_unit v in
          let times m := match f64_times num_str m with
                         | Some n => Some (from_micros n) | None => None end in
          if String.eqb unit "us" then times 1%N
          else if String.eqb unit "ms" then times 1000%N
          else if String.eqb unit "s" then times 1000000%N
          else None
      end
  end.

(** * Delay *)

Record DelayedPacket : Type := mk_DelayedPacket {
  dp_data : FbpMessage;
  dp_ready_time : Instant
}.

Record DelayComponent : Type := mk_DelayComponent {
  dy_conf : ring;
  dy_inn : ring;
  dy_out : ProcessEdgeSink;
  dy_signals_in : sync_channel;
  dy_signals_out : sync_channel;
  dy_delay : option Duration;
  dy_pending_packets : list DelayedPacket
}.

Definition new_delay `{MultiMapLib ring} `{MultiMapLib ProcessEdgeSink}
    (inports : multimap ring) (outports : multimap ProcessEdgeSink)
    (signals_in signals_out : sync_channel) : outcome DelayComponent :=
  let* (conf, inports) := take_port "CONF" inports in
  let* (inn, inports) := take_port "IN" inports in
  let* (out, outports) := take_port "OUT" outports in
  Done (mk_DelayComponent conf inn out signals_in signals_out None []).

Definition dy_signals : lens DelayComponent Signals := mk_lens
  (fun c => mk_Signals (dy_signals_in c) (dy_signals_out c))
  (fun s c => mk_DelayComponent (dy_conf c) (dy_inn c) (dy_out c) (sig_in s) (sig_out s)
                (dy_delay c) (dy_pending_packets c)).
Definition dy_l_conf : lens DelayComponent ring := mk_lens dy_conf
  (fun r c => mk_DelayComponent r (dy_inn c) (dy_out c) (dy_signals_in c) (dy_signals_out c)
                (dy_delay c) (dy_pending_packets c)).
Definition dy_l_inn : lens DelayComponent ring := mk_lens dy_inn
  (fun r c => mk_DelayComponent (dy_conf c) r (dy_out c) (dy_signals_in c) (dy_signals_out c)
                (dy_delay c) (dy_pending_packets c)).
Definition dy_l_out : lens DelayComponent ProcessEdgeSink := mk_lens dy_out
  (fun o c => mk_DelayComponent (dy_conf c) (dy_inn c) o (dy_signals_in c) (dy_signals_out c)
                (dy_delay c) (dy_pending_packets c)).
Definition dy_l_delay : lens DelayComponent (option Duration) := mk_lens dy_delay
  (fun d c => mk_DelayComponent (dy_conf c) (dy_inn c) (dy_out c) (dy_signals_in c)
                (dy_signals_out c) d (dy_pending_packets c)).
Definition dy_l_pending : lens DelayComponent (list DelayedPacket) := mk_lens dy_pending_packets
  (fun p c => mk_DelayComponent (dy_conf c) (dy_inn c) (dy_out c) (dy_signals_in c)
                (dy_signals_out c) (dy_delay c) p).

(** Without a configuration that can be read, the delay is 50us. *)
Definition delay_configure : proc DelayComponent Duration :=
  delay ← read dy_l_delay;
  match delay with
  | Some d => mret d
  | None =>
      config_data ← pop dy_l_conf;
      d ← match config_data with
          | Some config_data =>
              match as_text config_data with
              | Some config_str => mret (default (from_micros 50) (parse_delay config_str))
              | None => panic
              end
          | None => mret (from_micros 50)
          end;
      write dy_l_delay (Some d);; mret d
  end.

(** The packets whose time has come when the timer fired.  The budget is not
    tested here. *)
Definition delay_release (fired_at : Instant) : proc DelayComponent unit :=
  while (fun f => S (length (dy_pending_packets (fr_self f))))
    (fun f => negb (bool_decide (dy_pending_packets (fr_self f) = [])))
    (p ← read dy_l_pending;
     match p with
     | packet :: rest =>
         let front_ready_time := dp_ready_time packet in
         if (front_ready_time <=? fired_at)%N then
           write dy_l_pending rest;;
           r ← send dy_l_out (dp_data packet);
           match r with
           | Err returned_packet =>
               p ← read dy_l_pending;
               write dy_l_pending (mk_DelayedPacket returned_packet front_ready_time :: p);;
               t ← now clock;
               wake_at_ (t + DEFAULT_IO_POLL_INTERVAL)%N;;
               break
           | Ok _ => work 1;; charge 1
           end
         else break
     | [] => mret tt
     end).

(** The next packet of the inport; the release may have used up the budget. *)
Definition delay_take (delay : Duration) : proc DelayComponent unit :=
  ip ← pop dy_l_inn;
  match ip with
  | Some ip =>
      t ← now clock;
      p ← read dy_l_pending;
      write dy_l_pending (p ++ [mk_DelayedPacket ip (t + delay)%N]);;
      work 1;; charge 1
  | None => break
  end.

Definition delay_loop (delay : Duration) : proc DelayComponent unit :=
  while (fun f => S (ring_slots (dy_inn (fr_self f))))
    (fun f => (0 <? remaining_budget (fr_ctx f))%N)
    (zoom dy_signals (poll message_as_utf8);;
     fired ← timer_fired;
     (match fired with Some fired_at => delay_release fired_at | None => mret tt end);;
     delay_take delay).

Definition delay_process : proc DelayComponent ProcessResult :=
  delay ← delay_configure;
  zoom dy_signals (poll message_as_utf8);;
  delay_loop delay;;
  abandoned ← is_abandoned dy_l_inn;
  p ← read dy_l_pending;
  if abandoned && bool_decide (p = []) then return_ Finished
  else
    (match head p with
     | Some pkt => wake_at_ (dp_ready_time pkt)
     | None => mret tt
     end);;
    w ← work_units; mret (result_of_work w).

(** * Cron *)

(** [Schedule], [OwnedScheduleIterator] with [next], and [Local::now()];
    [DateTime]s are nanoseconds. *)
Context {Schedule Upcoming : Type}.
Variable schedule_from_str : string -> option Schedule.
Variable upcoming_owned : Schedule -> Upcoming.
Variable upcoming_next : Upcoming -> option N * Upcoming.
Variable local_clock : nat -> N.

Record CronComponent : Type := mk_CronComponent {
  cn_when : ring;
  cn_tick : ProcessEdgeSink;
  cn_signals_in : sync_channel;
  cn_signals_out : sync_channel;
  cn_schedule : option Upcoming;
  cn_next_fire_time : option N;
  cn_timer_armed : bool
}.

Definition new_cron `{MultiMapLib ring} `{MultiMapLib ProcessEdgeSink}
    (inports : multimap ring) (outports : multimap ProcessEdgeSink)
    (signals_in signals_out : sync_channel) : outcome CronComponent :=
  let* (when, inports) := take_port "WHEN" inports in
  let* (tick, outports) := take_port "TICK" outports in
  Done (mk_CronComponent when tick signals_in signals_out None None false).

Definition cn_signals : lens CronComponent Signals := mk_lens
  (fun c => mk_Signals (cn_signals_in c) (cn_signals_out c))
  (fun s c => mk_CronComponent (cn_when c) (cn_tick c) (sig_in s) (sig_out s) (cn_schedule c)
                (cn_next_fire_time c) (cn_timer_armed c)).
Definition cn_l_when : lens CronComponent ring := mk_lens cn_when
  (fun r c => mk_CronComponent r (cn_tick c) (cn_signals_in c) (cn_signals_out c) (cn_schedule c)
                (cn_next_fire_time c) (cn_timer_armed c)).
Definition cn_l_tick : lens CronComponent ProcessEdgeSink := mk_lens cn_tick
  (fun o c => mk_CronComponent (cn_when c) o (cn_signals_in c) (cn_signals_out c) (cn_schedule c)
                (cn_next_fire_time c) (cn_timer_armed c)).
Definition cn_l_schedule : lens CronComponent (option Upcoming) := mk_lens cn_schedule
  (fun s c => mk_CronComponent (cn_when c) (cn_tick c) (cn_signals_in c) (cn_signals_out c) s
                (cn_next_fire_time c) (cn_timer_armed c)).
Definition cn_l_next_fire_time : lens CronComponent (option N) := mk_lens cn_next_fire_time
  (fun n c => mk_CronComponent (cn_when c) (cn_tick c) (cn_signals_in c) (cn_signals_out c)
                (cn_schedule c) n (cn_timer_armed c)).
Definition cn_l_timer_armed : lens CronComponent bool := mk_lens cn_timer_armed
  (fun b c => mk_CronComponent (cn_when c) (cn_tick c) (cn_signals_in c) (cn_signals_out c)
                (cn_schedule c) (cn_next_fire_time c) b).

Definition arm_next_timer : proc CronComponent unit :=
  next ← read cn_l_next_fire_time;
  match next with
  | Some next =>
      local_now ← now local_clock;
      t ← now clock;
      (if (local_now <? next)%N then wake_at_ (t + (next - local_now))%N else wake_at_ t);;
      write cn_l_timer_armed true
  | None => mret tt
  end.

(** The schedule is read from WHEN; every branch ends the call. *)
Definition cron_configure : proc CronComponent ProcessResult :=
  ip ← pop cn_l_when;
  match ip with
  | None => return_ NoWork
  | Some ip =>
      match as_text ip with
      | None => panic
      | Some cron_str =>
          match schedule_from_str cron_str with
          | None => return_ Finished
          | Some schedule =>
              let '(next_time, iterator) := upcoming_next (upcoming_owned schedule) in
              match next_time with
              | Some next_time =>
                  write cn_l_schedule (Some iterator);;
                  write cn_l_next_fire_time (Some next_time);;
                  arm_next_timer;;
                  return_ (DidWork 1)
              | None => return_ Finished
              end
          end
      end
  end.

(** The timer has fired. *)
Definition cron_tick : proc CronComponent ProcessResult :=
  next ← read cn_l_next_fire_time;
  match next with
  | None => return_ Finished
  | Some _ =>
      r ← send cn_l_tick (from_bytes []);
      match r with
      | Ok _ =>
          write cn_l_timer_armed false;;
          schedule ← read cn_l_schedule;
          (match schedule with
           | Some schedule =>
               let '(next_time, schedule) := upcoming_next schedule in
               write cn_l_schedule (Some schedule);;
               match next_time with
               | Some next_time =>
                   write cn_l_next_fire_time (Some next_time);; arm_next_timer
               | None => write cn_l_next_fire_time None
               end
           | None => mret tt
           end);;
          mret (DidWork 1)
      | Err _ =>
          t ← now clock;
          wake_at_ (t + DEFAULT_IO_POLL_INTERVAL)%N;;
          mret NoWork
      end
  end.

Definition cron_process : proc CronComponent ProcessResult :=
  zoom cn_signals (poll message_as_utf8);;
  schedule ← read cn_l_schedule;
  match schedule with
  | None => cron_configure
  | Some _ =>
      timer_armed ← read cn_l_timer_armed;
      fired ← (if (timer_armed : bool) then timer_fired else mret None);
      match fired with
      | Some _ => cron_tick
      | None =>
          next ← read cn_l_next_fire_time;
          match next with Some _ => mret NoWork | None => return_ Finished end
      end
  end.

(** * The components as the scheduler runs them *)

#[export] Instance keeps_delay_configure : Keeps delay_configure.
Proof. unfold delay_configure. apply _. Qed.
#[export] Instance keeps_delay : Keeps delay_process.
Proof. unfold delay_process, delay_loop, delay_release, delay_take. apply _. Qed.
#[export] Instance keeps_arm_next_timer : Keeps arm_next_timer.
Proof. unfold arm_next_timer. apply _. Qed.
#[export] Instance keeps_cron : Keeps cron_process.
Proof.
  unfold cron_process, cron_configure, cron_tick. apply _.
Qed.

Definition delay_component := component_of delay_process.
Definition cron_component := component_of cron_process.
End timers.
