(* ===== verification/TimersTheorems.v ===== *)
(** What one call of [process] does, for the components of [Timers]. *)
From S2P Require Import Prelude Api Scheduler Process Pipes Timers.
From Stdlib Require Strings.String.
From Stdlib Require Import NArith ZArith Lia Strings.Byte Strings.Ascii.
From stdpp Require Import base list strings gmap.
Local Open Scope string_scope.
Local Open Scope list_scope.
Local Open Scope flowd_scope.

(** ** Budgets that wrap around *)

Definition spend (n : nat) (b : N) : N := Nat.iter n (fun b => u32_sub b 1) b.

Lemma spend_add n k b : spend (k + n) b = spend k (spend n b).
Proof. unfold spend. by rewrite Nat.iter_add. Qed.

Lemma spend_S n b : spend (S n) b = u32_sub (spend n b) 1.
Proof. done. Qed.

Lemma spend_small n b : (N.of_nat n <= b)%N -> spend n b = (b - N.of_nat n)%N.
Proof.
  induction n as [|n IH]; intros H; [by rewrite N.sub_0_r|].
  change (u32_sub (spend n b) 1 = (b - N.of_nat (S n))%N). rewrite IH, u32_sub_ge by lia. lia.
Qed.

Lemma spend_wrap n b :
  (b < N.of_nat n)%N -> (N.of_nat n <= b + u32_modulus)%N ->
  spend n b = (b + u32_modulus - N.of_nat n)%N.
Proof.
  induction n as [|n IH]; intros H1 H2; [lia|].
  change (u32_sub (spend n b) 1 = (b + u32_modulus - N.of_nat (S n))%N).
  destruct (N.eq_dec b (N.of_nat n)) as [Hb|Hb].
  - rewrite spend_small by lia. subst b. rewrite N.sub_diag. change (u32_sub 0 1) with (u32_modulus - 1)%N. lia.
  - rewrite IH by lia. rewrite u32_sub_ge; [lia|]. unfold u32_modulus in *. lia.
Qed.

(** Charging without the check. *)
Lemma wp_charge_wrap {C} n (Q : unit -> frame C -> Prop) E f :
  Q tt (with_ctx (set_remaining_budget (u32_sub (remaining_budget (fr_ctx f)) n) (fr_ctx f)) f) ->
  wp (charge n) Q E f.
Proof. done. Qed.

Ltac wp_wrap := repeat (first [apply wp_charge_wrap | wp_step]; simpl).

Section timers.
Context `{R : Rtrb}.
Variable f64_times : string -> N -> option N.
Variable clock : nat -> Instant.

(** ** Delay *)

(** How many packets at the front are ready. *)
Fixpoint due (fired_at : Instant) (p : list DelayedPacket) : nat :=
  match p with
  | [] => 0
  | x :: p => if (dp_ready_time x <=? fired_at)%N then S (due fired_at p) else 0
  end.

Lemma due_length t p : (due t p <= length p)%nat.
Proof. induction p as [|x p IH]; simpl; [lia|]. destruct (_ <=? _)%N; lia. Qed.

Lemma due_ready t p n : (n <= due t p)%nat -> Forall (fun x => dp_ready_time x <= t)%N (take n p).
Proof.
  revert n. induction p as [|x p IH]; intros [|n] H; simpl in *; [constructor..|].
  destruct (N.leb_spec (dp_ready_time x) t); [|lia]. constructor; [done|]. apply IH. lia.
Qed.

Lemma due_next t p j x : p !! j = Some x -> (j <= due t p)%nat ->
  (j < due t p)%nat <-> (dp_ready_time x <= t)%N.
Proof.
  revert j. induction p as [|y p IH]; intros [|j] Hx Hj; simpl in *; try done.
  - simplify_eq. destruct (N.leb_spec (dp_ready_time x) t); lia.
  - destruct (N.leb_spec (dp_ready_time y) t); [|lia]. rewrite <- (IH j) by (done || lia). lia.
Qed.

(** The frame after [n] packets have been released. *)
Record released (f g : frame DelayComponent) (n : nat) : Prop := mk_released {
  rl_self : exists o, fr_self g = set dy_l_out o (set dy_l_pending
              (drop n (dy_pending_packets (fr_self f))) (fr_self f)) /\ exists es,
            sent (map dp_data (take n (dy_pending_packets (fr_self f)))) (dy_out (fr_self f)) o es;
  rl_ctx : exists w, fr_ctx g =
    set_wake_at w (set_remaining_budget (spend n (remaining_budget (fr_ctx f))) (fr_ctx f));
  rl_work : fr_work g = (fr_work f + N.of_nat n)%N
}.

Lemma wp_delay_release t (Q : unit -> frame DelayComponent -> Prop) E f :
  let n := Nat.min (due t (dy_pending_packets (fr_self f))) (room (dy_out (fr_self f))) in
  (forall g, released f g n -> Q tt g) ->
  wp (delay_release clock t) Q E f.
Proof.
  intros n HQ. set (p := dy_pending_packets (fr_self f)) in *.
  pose proof (due_length t p) as Hdue.
  apply (wp_while (fun g => exists j, released f g j /\ (j <= n)%nat)
    (fun g => length (dy_pending_packets (fr_self g)))).
  - exists 0%nat. split; [|lia]. split; [|exists (wake_at (fr_ctx f))|lia].
    + exists (dy_out (fr_self f)). split; [by destruct f as [[]]|]. exists []. apply sent_nil.
    + by destruct f as [? [] ? ? ?].
  - lia.
  - intros g (j & Hj & Hle) Hc. apply HQ. assert (j = n) as <-; [|done].
    pose proof Hj as [(o & Hself & _) _ _]. rewrite Hself in Hc. cbn [dy_pending_packets set dy_l_out dy_l_pending] in Hc.
    apply negb_false_iff, bool_decide_eq_true in Hc. apply (f_equal length) in Hc.
    rewrite length_drop in Hc. fold p in Hc. simpl in Hc. unfold n in *. lia.
  - intros g (j & Hj & Hle) Hc. pose proof Hj as [(o & Hself & es & Hs) (w & Hctx) Hw].
    apply negb_true_iff, bool_decide_eq_false in Hc.
    destruct g as [c x wk ef rd]. cbn [fr_self fr_ctx fr_work] in *. subst c x wk.
    cbn [dy_pending_packets set dy_l_out dy_l_pending] in Hc. fold p in Hc.
    destruct (drop j p) as [|packet rest] eqn:Hd; [done|]. clear Hc. fold p. 
    pose proof (sent_room _ _ _ _ Hs) as Hroom. fold p in Hroom, Hs.
    apply drop_cons in Hd as Hd'. destruct Hd' as [Hx Hrest]. apply lookup_lt_Some in Hx as Hlt.
    rewrite length_map, length_take in Hroom.
    pose proof (due_next t p j packet Hx ltac:(lia)) as Hnext.
    wp_run. fold p. rewrite Hd. destruct (N.leb_spec (dp_ready_time packet) t) as [Hready|Hlate]; wp_wrap.
    + apply wp_send; simpl.
      * intros Hfree o' es' Hs' _. wp_wrap. split; [|lia]. exists (S j). split; [|unfold n; lia].
        split; simpl; [|exists w; by rewrite <- spend_S|lia].
        exists o'. fold p. rewrite Hrest. split; [done|]. exists (es ++ es').
        rewrite (take_S_r _ _ _ Hx), map_app. by eapply sent_app.
      * intros Hfull o' Hs'. wp_wrap. apply HQ. assert (j = n) as -> by (unfold n; lia).
        split; simpl; [|by eexists|done].
        exists o'. fold p. rewrite Hd. split; [by destruct packet|]. exists es.
        rewrite <- (app_nil_r (map _ _)), <- (app_nil_r es). by eapply sent_app.
    + apply HQ. assert (j = n) as -> by (unfold n; lia). split; simpl; [|by exists w|done].
      exists o. fold p. rewrite Hd. split; [done|]. by exists es.
Qed.
(** The packets accepted, when the clock had been read [rd] times. *)
Definition accepted (delay : Duration) (rd : nat) (l : list FbpMessage) : list DelayedPacket :=
  imap (fun i m => mk_DelayedPacket m (clock (rd + i) + delay)%N) l.

Lemma accepted_snoc delay rd l m :
  accepted delay rd (l ++ [m]) =
  accepted delay rd l ++ [mk_DelayedPacket m (clock (rd + length l) + delay)%N].
Proof. unfold accepted. rewrite imap_app. simpl. by rewrite Nat.add_0_r. Qed.

(** How many packets the timer lets go. *)
Definition release_count (c : DelayComponent) (ctx : NodeContext) : nat :=
  match timer_fired_at ctx with
  | Some t => Nat.min (due t (dy_pending_packets c)) (room (dy_out c))
  | None => 0
  end.

(** The loop after the release and [k] packets from the inport. *)
Record delayed (delay : Duration) (f g : frame DelayComponent) (k : nat) : Prop := mk_delayed {
  dd_packets : (k <= length (ring_items (dy_inn (fr_self f))))%nat;
  dd_taken : taken k (dy_inn (fr_self f)) (dy_inn (fr_self g));
  dd_sent : let n := release_count (fr_self f) (fr_ctx f) in
    exists es, sent (map dp_data (take n (dy_pending_packets (fr_self f))))
      (dy_out (fr_self f)) (dy_out (fr_self g)) es;
  dd_pending : let n := release_count (fr_self f) (fr_ctx f) in
    exists rd, fr_reads g = (rd + k)%nat /\
    dy_pending_packets (fr_self g) = drop n (dy_pending_packets (fr_self f)) ++
      accepted delay rd (take k (ring_items (dy_inn (fr_self f))));
  dd_budget : remaining_budget (fr_ctx g) =
    spend (release_count (fr_self f) (fr_ctx f) + k) (remaining_budget (fr_ctx f));
  dd_work : fr_work g = (fr_work f + N.of_nat (release_count (fr_self f) (fr_ctx f) + k))%N;
  dd_polled : polled (get dy_signals (fr_self f)) (get dy_signals (fr_self g));
  dd_timer : timer_fired_at (fr_ctx g) = None;
  dd_quota : forall j, (0 < j < k)%nat ->
    spend (release_count (fr_self f) (fr_ctx f) + j) (remaining_budget (fr_ctx f)) <> 0%N
}.

(** How the loop ends. *)
Definition delay_ends (delay : Duration) (f : frame DelayComponent) (e : option exit)
    (g : frame DelayComponent) : Prop :=
  match e with
  | None =>
      ((remaining_budget (fr_ctx f) = 0)%N /\ g = f) \/
      exists k, (0 < remaining_budget (fr_ctx f))%N /\ delayed delay f g k /\
        (k = length (ring_items (dy_inn (fr_self f))) \/
         (0 < k)%nat /\
         spend (release_count (fr_self f) (fr_ctx f) + k) (remaining_budget (fr_ctx f)) = 0%N)
  | Some (Return Finished) => ~ no_stop message_as_utf8 (get dy_signals (fr_self f))
  | Some _ => False
  end.

(** One packet from the inport. *)
Lemma delay_accept delay (Q : unit -> frame DelayComponent -> Prop) (E : exit -> frame DelayComponent -> Prop)
    f g k :
  (forall g, delay_ends delay f None g -> Q tt g) ->
  (0 < remaining_budget (fr_ctx f))%N -> delayed delay f g k ->
  ((0 < k)%nat -> spend (release_count (fr_self f) (fr_ctx f) + k) (remaining_budget (fr_ctx f)) <> 0%N) ->
  wp (delay_take clock delay)
    (fun _ f' => (exists k, (0 < k)%nat /\ delayed delay f f' k) /\
       (length (ring_items (dy_inn (fr_self f'))) < length (ring_items (dy_inn (fr_self g))))%nat)
    (fun e f' => match e with Break => Q tt f' | _ => E e f' end) g.
Proof.
  intros HQ Hb [Hk Ht Hs (rd & Hrd & Hp) Hbud Hw Hpol Htimer Hquota] Hq. cbv zeta in *.
  set (n := release_count _ _) in *. pose proof Ht as [Hti _ _].
  unfold delay_take. wp_run. apply wp_pop; simpl.
  - intros Hempty r Hr. wp_run. apply HQ. right. exists k. split; [done|]. split.
    + split; try done; [by rewrite <- (Nat.add_0_r k); eapply taken_add|by exists rd].
    + left. rewrite Hempty in Hti. symmetry in Hti. apply (f_equal length) in Hti.
      rewrite length_drop in Hti; simpl in Hti. lia.
  - intros i rest r Hi Hr. rewrite Hi in Hti. symmetry in Hti. apply drop_cons in Hti as [Hik _].
    apply lookup_lt_Some in Hik as Hlt. wp_wrap. split.
    + exists (S k). split; [lia|]. split; cbn [fr_self fr_ctx fr_work fr_reads dy_inn dy_out dy_pending_packets
        remaining_budget set_remaining_budget timer_fired_at]; fold n; try done.
      * rewrite <- Nat.add_1_r. by eapply taken_add.
      * exists rd. split; [lia|].
        rewrite (take_S_r _ _ _ Hik), accepted_snoc, length_take, Nat.min_l, Hp, Hrd, app_assoc by lia. done.
      * by rewrite Hbud, Nat.add_succ_r.
      * rewrite Hw. lia.
      * intros j Hj. destruct (decide (j = k)) as [-> | Hne]; [apply Hq; lia|apply Hquota; lia].
    + destruct Hr as [-> _ _]. rewrite Hi. simpl. rewrite drop_0. lia.
Qed.

Lemma released_0 f : released f f 0.
Proof.
  split; [|exists (wake_at (fr_ctx f))|lia].
  - exists (dy_out (fr_self f)). split; [by destruct f as [[]]|]. exists []. apply sent_nil.
  - by destruct f as [? [] ? ? ?].
Qed.

(** The frame in which the release starts. *)
Definition polled_frame (f : frame DelayComponent) (s : Signals) : frame DelayComponent :=
  mk_frame (set dy_signals s (fr_self f)) (set_timer_fired_at None (fr_ctx f)) (fr_work f)
    (fr_effects f) (fr_reads f).

Lemma delayed_0 delay f s h :
  polled (get dy_signals (fr_self f)) s ->
  released (polled_frame f s) h (release_count (fr_self f) (fr_ctx f)) ->
  delayed delay f h 0 /\ dy_inn (fr_self h) = dy_inn (fr_self f).
Proof.
  intros Hs [(o & Hself & es & Hsent) (w & Hctx) Hw]. rewrite Hself. split; [|done].
  split; rewrite ?Hself, ?Hctx, ?Hw, ?Nat.add_0_r; cbv zeta; try done.
  - lia.
  - by exists es.
  - exists (fr_reads h). split; [lia|]. by rewrite app_nil_r.
  - lia.
Qed.

Lemma wp_delay_loop delay (Q : unit -> frame DelayComponent -> Prop)
    (E : exit -> frame DelayComponent -> Prop) f :
  (forall g, delay_ends delay f None g -> Q tt g) ->
  (forall e g, delay_ends delay f (Some e) g -> E e g) ->
  wp (delay_loop clock delay) Q E f.
Proof.
  intros HQ HE.
  apply (wp_while (fun g => g = f \/ (0 < remaining_budget (fr_ctx f))%N /\ exists k, (0 < k)%nat /\ delayed delay f g k)
    (fun g => length (ring_items (dy_inn (fr_self g))))).
  - by left.
  - rewrite ring_slots_spec. lia.
  - intros g Hg Hc. apply N.ltb_ge in Hc. apply HQ. simpl. destruct Hg as [-> | (Hb & k & Hk & Hg)].
    + left. split; [lia|done].
    + right. exists k. pose proof Hg as [_ _ _ _ Hbud _ _ _ _]. split_and!; [done|done|].
      right. split; [done|]. rewrite <- Hbud. lia.
  - intros g Hg Hc. apply N.ltb_lt in Hc. wp_run. apply wp_zoom, wp_poll; cbn [fr_self with_self].
    + intros _ s Hs. wp_run. destruct Hg as [-> | (Hb & k & Hk & Hg)].
      * assert (forall h, delayed delay f h 0 /\ dy_inn (fr_self h) = dy_inn (fr_self f) ->
          wp (delay_take clock delay)
            (fun _ f' => (f' = f \/ (0 < remaining_budget (fr_ctx f))%N /\ exists k, (0 < k)%nat /\ delayed delay f f' k) /\
               (length (ring_items (dy_inn (fr_self f'))) < length (ring_items (dy_inn (fr_self f))))%nat)
            (fun e f' => match e with Break => Q tt f' | _ => E e f' end) h) as Hacc.
        { intros h [Hd Hinn].
          eapply wp_conseq; [apply (delay_accept delay Q E f h 0 HQ Hc Hd); lia|..].
          - intros _ h' [H1 H2]. rewrite Hinn in H2. exact (conj (or_intror (conj Hc H1)) H2).
          - intros e h' He. exact He. }
        pose proof (delayed_0 delay f s) as H0. unfold release_count in H0.
        destruct (timer_fired_at (fr_ctx f)) as [t|] eqn:Ht; wp_run.
        -- apply wp_delay_release. intros h Hh. apply Hacc, H0; [done|exact Hh].
        -- apply Hacc, H0; [done|]. apply released_0.
      * pose proof Hg as [_ _ _ _ Hbud _ _ Htimer _]. rewrite Htimer. wp_run.
        eapply wp_conseq; [apply (delay_accept delay Q E f (polled_frame g s) k HQ Hb)|..].
        -- destruct Hg. split; try done. eapply polled_trans; [done|]. by destruct s.
        -- intros _. rewrite <- Hbud. lia.
        -- intros _ h [H1 H2]. split; [by right|exact H2].
        -- done.
    + intros Hstop%stop_next_stop s Hs. apply HE. destruct Hg as [-> | (Hb & k & Hk & [_ _ _ _ _ _ Hpol _ _])];
        [done|]. intros Hq. apply Hstop. by eapply polled_no_stop.
Qed.
(** The delay of a call; [None]: the configuration is not a text. *)
Definition delay_next (c : DelayComponent) : option Duration :=
  match dy_delay c with
  | Some d => Some d
  | None =>
      match head (ring_items (dy_conf c)) with
      | Some config_data =>
          match as_text config_data with
          | Some config_str => Some (default (from_micros 50) (parse_delay f64_times config_str))
          | None => None
          end
      | None => Some (from_micros 50)
      end
  end.

(** An undisturbed call with the delay [d]: [n] packets are released and [k]
    accepted. *)
Record delay_run (d : Duration) (c c' : DelayComponent) (ctx ctx' : NodeContext)
    (r : ProcessResult) (n k : nat) : Prop := mk_delay_run {
  dn_released : n = release_count c ctx;
  dn_ready : forall t, timer_fired_at ctx = Some t ->
    Forall (fun x => dp_ready_time x <= t)%N (take n (dy_pending_packets c));
  dn_sent : sink_items (dy_out c') =
    sink_items (dy_out c) ++ map dp_data (take n (dy_pending_packets c));
  dn_taken : ring_items (dy_inn c') = drop k (ring_items (dy_inn c));
  dn_pending : exists rd, dy_pending_packets c' =
    drop n (dy_pending_packets c) ++ accepted d rd (take k (ring_items (dy_inn c)));
  dn_within : (N.of_nat n < remaining_budget ctx)%N ->
    N.of_nat k = ((remaining_budget ctx - N.of_nat n) `min` N.of_nat (length (ring_items (dy_inn c))))%N;
  dn_overrun : (remaining_budget ctx <= N.of_nat n)%N ->
    (N.of_nat (n + length (ring_items (dy_inn c))) < remaining_budget ctx + u32_modulus)%N ->
    k = length (ring_items (dy_inn c));
  dn_wake : forall x, head (dy_pending_packets c') = Some x -> wake_at ctx' = Some (dp_ready_time x);
  dn_result : r = if ring_is_abandoned (dy_inn c) && bool_decide (dy_pending_packets c' = [])
                  then Finished else result_of_work (N.of_nat (n + k))
}.

(** How many packets the loop accepts. *)
Lemma quota_within n k len b :
  (k <= len)%nat -> (0 < b)%N ->
  (k = len \/ (0 < k)%nat /\ spend (n + k) b = 0%N) ->
  (forall j, (0 < j < k)%nat -> spend (n + j) b <> 0%N) ->
  ((N.of_nat n < b)%N -> N.of_nat k = ((b - N.of_nat n) `min` N.of_nat len)%N) /\
  ((b <= N.of_nat n)%N -> (N.of_nat (n + len) < b + u32_modulus)%N -> k = len).
Proof.
  intros Hk Hb Hend Hq. split.
  - intros Hn. assert (N.of_nat (n + k) <= b)%N as Hle.
    { destruct (N.le_gt_cases (N.of_nat (n + k)) b) as [|Hgt]; [done|]. exfalso.
      apply (Hq (N.to_nat (b - N.of_nat n))); [lia|].
      rewrite spend_small; lia. }
    destruct Hend as [-> | [Hpos Hz]]; [lia|]. rewrite spend_small in Hz by done. lia.
  - intros Hn Hlen. destruct Hend as [-> | [Hpos Hz]]; [done|].
    rewrite spend_wrap in Hz; unfold u32_modulus in *; lia.
Qed.

Lemma delay_run_of d f g k w :
  (0 < remaining_budget (fr_ctx f))%N -> delayed d f g k ->
  (k = length (ring_items (dy_inn (fr_self f))) \/
   (0 < k)%nat /\ spend (release_count (fr_self f) (fr_ctx f) + k) (remaining_budget (fr_ctx f)) = 0%N) ->
  (forall x, head (dy_pending_packets (fr_self g)) = Some x -> wake_at w = Some (dp_ready_time x)) ->
  delay_run d (fr_self f) (fr_self g) (fr_ctx f) w
    (if ring_is_abandoned (dy_inn (fr_self f)) && bool_decide (dy_pending_packets (fr_self g) = [])
     then Finished else result_of_work (N.of_nat (release_count (fr_self f) (fr_ctx f) + k)))
    (release_count (fr_self f) (fr_ctx f)) k.
Proof.
  intros Hb [Hk [Ht _ _] [es [Hs _ _ _]] (rd & _ & Hp) _ _ _ _ Hq] Hend Hw.
  destruct (quota_within _ _ _ _ Hk Hb Hend Hq) as [Hin Hover].
  split; try done; [|by exists rd]. intros t Ht'. apply due_ready.
  unfold release_count. rewrite Ht'. lia.
Qed.

(** The call after the configuration. *)
Definition delay_called (d : Duration) (c : DelayComponent) (ctx : NodeContext)
    (f : frame DelayComponent) (r : option ProcessResult) : Prop :=
  (no_stop message_as_utf8 (get dy_signals c) -> (0 < remaining_budget ctx)%N ->
     exists r' n k, r = Some r' /\ delay_run d c (fr_self f) ctx (fr_ctx f) r' n k) /\
  (stop_next message_as_utf8 (get dy_signals c) ->
     r = Some Finished /\ dy_inn (fr_self f) = dy_inn c /\
     dy_pending_packets (fr_self f) = dy_pending_packets c).

Lemma wp_delay_run d c conf ctx (P : frame DelayComponent -> option ProcessResult -> Prop) :
  (forall f r, delay_called d c ctx f (Some r) -> P f (Some r)) ->
  wp (zoom dy_signals (poll message_as_utf8);;
      delay_loop clock d;;
      abandoned ← is_abandoned dy_l_inn;
      p ← read dy_l_pending;
      if abandoned && bool_decide (p = []) then return_ Finished
      else
        (match head p with
         | Some pkt => wake_at_ (dp_ready_time pkt)
         | None => mret tt
         end);;
        w ← work_units; mret (result_of_work w))
    (fun r f => P f (Some r))
    (fun e f => match e with Return r => P f (Some r) | Unwind => P f None | Break => False end)
    (mk_frame (mk_DelayComponent conf (dy_inn c) (dy_out c) (dy_signals_in c) (dy_signals_out c)
       (Some d) (dy_pending_packets c)) ctx 0 [] 0).
Proof.
  intros HP. wp_run. apply wp_zoom, wp_poll; cbn [fr_self with_self].
  - intros Hns s Hs. wp_run. set (f0 := mk_frame _ ctx _ _ _). apply wp_delay_loop.
    + intros g [[Hz ->]|(k & Hb & Hg & Hend)].
      * assert (forall f' r, remaining_budget ctx = 0%N -> P f' (Some r)) as H0.
        { intros f' r Hb. apply HP. split; [|by intros ?%Hns]. intros _. lia. }
        change (remaining_budget ctx = 0%N) in Hz. wp_run. apply wp_is_abandoned. wp_run.
        destruct (ring_is_abandoned _ && _); wp_run; [by apply H0|].
        destruct (head _); wp_run; by apply H0.
      * pose proof (delay_run_of d f0 g k) as Hrun. pose proof Hg as Hg'; destruct Hg as [_ [_ _ Ha] _ _ _ Hw _ _ _].
        assert (forall x r, r = (if ring_is_abandoned (dy_inn c) && bool_decide (dy_pending_packets (fr_self g) = [])
            then Finished else result_of_work (N.of_nat (release_count c ctx + k))) ->
          (forall y, head (dy_pending_packets (fr_self g)) = Some y -> wake_at x = Some (dp_ready_time y)) ->
          P (mk_frame (fr_self g) x (fr_work g) (fr_effects g) (fr_reads g)) (Some r)) as Hend'.
        { intros x r -> Hx. apply HP. split; [|by intros ?%Hns]. intros _ _. eexists _, (release_count c ctx), k.
          split; [done|]. by destruct (Hrun x Hb Hg' Hend Hx). }
        wp_run. apply wp_is_abandoned. wp_run. simpl in Ha. rewrite Ha.
        destruct (ring_is_abandoned (dy_inn c) && bool_decide (dy_pending_packets (fr_self g) = [])) eqn:Hfin; wp_run.
        -- destruct g as [gc gx gw ge gr]. apply (Hend' gx Finished); [done|].
           apply andb_true_iff in Hfin as [_ Hfin%bool_decide_eq_true]. simpl in *. by rewrite Hfin.
        -- change (fr_work g = (0 + N.of_nat (release_count c ctx + k))%N) in Hw.
           rewrite N.add_0_l in Hw. rewrite <- Hw in Hend'.
           destruct (dy_pending_packets (fr_self g)) as [|x rest] eqn:Hpend; wp_run.
           ++ destruct g as [gc gx gw ge gr]. by apply Hend'.
           ++ apply Hend'; [done|]. by intros y [= <-].
    + intros e g He. destruct e as [|r|]; try done. destruct r; try done.
      apply HP. split; [|done]. intros Hq. destruct He. by eapply polled_no_stop.
  - intros Hstop s Hs. apply HP. split; [|done]. intros Hq. by destruct (stop_next_stop _ _ Hstop).
Qed.

(** Delay keeps the order of its packets and loses none: those at the front
    whose time had come when the timer fired leave first, as many as fit, and
    never one before its time; what it takes from its inport is due one delay
    after it was taken.  While packets wait, it asks to be woken when the first
    is due.  A call that releases fewer packets than its budget keeps to the
    budget; one that releases as many or more wraps the budget around and takes
    all of its input. *)
Theorem delay_process_spec (c : DelayComponent) (ctx : NodeContext) :
  exists f r, call (delay_process f64_times clock) c ctx = Some (f, r) /\
    let c' := fr_self f in
    match delay_next c with
    | None => r = None /\ dy_inn c' = dy_inn c /\ dy_pending_packets c' = dy_pending_packets c
    | Some d => delay_called d c ctx f r
    end.
Proof.
  apply wp_call. unfold delay_process, delay_configure, delay_next. wp_run.
  destruct (dy_delay c) as [d|] eqn:Hd; wp_run.
  - destruct c as [conf inn out sin sout dl p]. simpl in Hd. subst dl.
    by eapply wp_unbind, (wp_delay_run d (mk_DelayComponent conf inn out sin sout (Some d) p)).
  - apply wp_pop; simpl.
    + intros -> r _. wp_run. by eapply wp_unbind, wp_delay_run.
    + intros m rest r -> _. simpl. destruct (as_text m) as [s|]; wp_run; [|done].
      by eapply wp_unbind, wp_delay_run.
Qed.
(** ** Cron *)
Section cron.
Context {Schedule Upcoming : Type}.
Variable schedule_from_str : string -> option Schedule.
Variable upcoming_owned : Schedule -> Upcoming.
Variable upcoming_next : Upcoming -> option N * Upcoming.
Variable local_clock : nat -> N.

Abbreviation Cron := (@CronComponent R Upcoming).
Abbreviation cron := (cron_process clock schedule_from_str upcoming_owned upcoming_next local_clock).

(** When the timer goes off that is armed for [next]. *)
Definition armed_at (rd : nat) (next : N) : Instant :=
  let local_now := local_clock rd in
  (clock (S rd) + (if local_now <? next then next - local_now else 0))%N.

Lemma wp_arm_next_timer next (Q : unit -> frame Cron -> Prop) E f :
  cn_next_fire_time (fr_self f) = Some next ->
  Q tt (mk_frame (set cn_l_timer_armed true (fr_self f))
         (ctx_wake_at (armed_at (fr_reads f) next) (fr_ctx f)) (fr_work f) (fr_effects f)
         (S (S (fr_reads f)))) ->
  wp (arm_next_timer clock local_clock) Q E f.
Proof.
  intros Hn HQ. unfold arm_next_timer. wp_run. rewrite Hn. wp_run. unfold armed_at in HQ.
  destruct (_ <? _)%N; wp_run; [done|]. by rewrite N.add_0_r in HQ.
Qed.

(** The state of the schedule: its rest, the next time, and whether the timer
    is armed. *)
Definition cron_state (c : Cron) : option Upcoming * option N * bool :=
  (cn_schedule c, cn_next_fire_time c, cn_timer_armed c).

(** The state after one more time has been drawn from [it]. *)
Definition drawn (it : Upcoming) : option Upcoming * option N * bool :=
  let '(next, rest) := upcoming_next it in
  (Some rest, next, match next with Some _ => true | None => false end).

(** A call that is not stopped, with a schedule: no timer, a tick, or no room
    for a tick. *)
Definition cron_running (it : Upcoming) (c : Cron) (ctx : NodeContext) (f : frame Cron)
    (r : option ProcessResult) : Prop :=
  match cn_next_fire_time c, timer_fired_at ctx with
  | None, _ => r = Some Finished
  | Some _, None => r = Some NoWork /\ cron_state (fr_self f) = cron_state c /\
      cn_tick (fr_self f) = cn_tick c /\ fr_ctx f = ctx
  | Some _, Some _ =>
      if decide (0 < room (cn_tick c))%nat then
        r = Some (DidWork 1) /\ cron_state (fr_self f) = drawn it /\
        sink_items (cn_tick (fr_self f)) = sink_items (cn_tick c) ++ [Bytes []] /\
        forall next, cn_next_fire_time (fr_self f) = Some next ->
          exists rd, wake_at (fr_ctx f) = Some (armed_at rd next)
      else r = Some NoWork /\ cron_state (fr_self f) = cron_state c /\
        sink_items (cn_tick (fr_self f)) = sink_items (cn_tick c) /\
        exists rd, wake_at (fr_ctx f) = Some (clock rd + DEFAULT_IO_POLL_INTERVAL)%N
  end.

(** The schedule that a call without one reads; [Some (Some it)]: it has a
    first time. *)
Definition schedule_next (c : Cron) : option ProcessResult + Upcoming :=
  match head (ring_items (cn_when c)) with
  | None => inl (Some NoWork)
  | Some ip =>
      match as_text ip with
      | None => inl None
      | Some cron_str =>
          match schedule_from_str cron_str with
          | None => inl (Some Finished)
          | Some schedule =>
              let it := upcoming_owned schedule in
              match (upcoming_next it).1 with Some _ => inr it | None => inl (Some Finished) end
          end
      end
  end.

Definition cron_called (c : Cron) (ctx : NodeContext) (f : frame Cron) (r : option ProcessResult) : Prop :=
  (stop_next message_as_utf8 (get cn_signals c) -> r = Some Finished) /\
  (~ stop_next message_as_utf8 (get cn_signals c) ->
     match cn_schedule c with
     | Some it => cron_running it c ctx f r
     | None =>
         match schedule_next c with
         | inl res => r = res /\ cron_state (fr_self f) = cron_state c /\ cn_tick (fr_self f) = cn_tick c
         | inr it => r = Some (DidWork 1) /\ cron_state (fr_self f) = drawn it /\
             cn_tick (fr_self f) = cn_tick c /\
             forall next, cn_next_fire_time (fr_self f) = Some next ->
               exists rd, wake_at (fr_ctx f) = Some (armed_at rd next)
         end
     end).

Lemma cron_call (c : Cron) (ctx : NodeContext) :
  (cn_timer_armed c = match cn_next_fire_time c with Some _ => true | None => false end) ->
  exists f r, call cron c ctx = Some (f, r) /\ cron_called c ctx f r.
Proof.
  intros Harmed. apply wp_call. unfold cron_process. wp_run.
  apply wp_zoom, wp_poll; cbn [fr_self with_self].
  2: { intros Hstop s Hs. by split. }
  intros Hns s Hs. wp_run. destruct (cn_schedule c) as [it|] eqn:Hsch; wp_run.
  - set (P f r := cron_running it c ctx f r).
    assert (forall f r, P f r -> cron_called c ctx f r) as HP.
    { intros f r Hr. split; [by intros ?%Hns|]. intros _. by rewrite Hsch. }
    unfold P, cron_running in HP. clear P. rewrite Harmed.
    destruct (cn_next_fire_time c) as [next|] eqn:Hn; wp_run; [|rewrite ?Hn; wp_run; by apply HP].
    destruct (timer_fired_at ctx) as [t|] eqn:Ht; wp_run.
    + unfold cron_tick. wp_run. rewrite ?Hn. wp_run. apply wp_send; simpl.
      * intros Hfree o es Hsent _. wp_run. rewrite ?Hsch.
        destruct Hsent as [Hi _ _ _ _]. destruct (upcoming_next it) as [[next'|] rest] eqn:Hup; wp_run.
        -- eapply wp_arm_next_timer; [done|]. wp_run. apply HP. rewrite decide_True by done. split_and!; try done.
           ++ unfold drawn. by rewrite Hup.
           ++ intros x [= <-]. by eexists.
        -- apply HP. rewrite decide_True by done. split_and!; try done. unfold drawn. by rewrite Hup.
      * intros Hfull o Hsent. wp_run. apply HP. rewrite decide_False by lia.
        destruct Hsent as [Hi _ _ _ _]. rewrite app_nil_r in Hi.
        split_and!; [done| |done|by eexists]. unfold cron_state. simpl. by rewrite Hsch, Hn, Harmed.
    + rewrite ?Hn. wp_run. apply HP. split_and!; [done|by unfold cron_state; simpl; rewrite Hsch, Hn, Harmed|done|].
      simpl. destruct ctx; simpl in *. by rewrite Ht.
  - assert (forall f r, match schedule_next c with
      | inl res => r = res /\ cron_state (fr_self f) = cron_state c /\ cn_tick (fr_self f) = cn_tick c
      | inr it => r = Some (DidWork 1) /\ cron_state (fr_self f) = drawn it /\
          cn_tick (fr_self f) = cn_tick c /\
          forall next, cn_next_fire_time (fr_self f) = Some next ->
            exists rd, wake_at (fr_ctx f) = Some (armed_at rd next)
      end -> cron_called c ctx f r) as HP.
    { intros f r Hr. split; [by intros ?%Hns|]. intros _. by rewrite Hsch. }
    assert (forall w t s1 s2, cron_state (mk_CronComponent w t s1 s2 None (cn_next_fire_time c)
      (cn_timer_armed c)) = cron_state c) as Hsame by (intros; unfold cron_state; simpl; by rewrite Hsch).
    unfold schedule_next in HP. unfold cron_configure. wp_run. apply wp_pop; simpl.
    + intros Hempty r _. wp_run. apply HP. rewrite Hempty. split_and!; [done|apply Hsame|done].
    + intros ip rest r Hr _. rewrite Hr in HP. simpl in HP. wp_run.
      destruct (as_text ip) as [cron_str|]; wp_run; [|apply HP; split_and!; [done|apply Hsame|done]].
      destruct (schedule_from_str cron_str) as [schedule|]; wp_run; [|apply HP; split_and!; [done|apply Hsame|done]].
      destruct (upcoming_next (upcoming_owned schedule)) as [[next|] it'] eqn:Hup; simpl in HP; wp_run;
        [|apply HP; split_and!; [done|apply Hsame|done]].
      eapply wp_arm_next_timer; [done|]. wp_run. apply HP. split_and!; try done.
      * unfold drawn. by rewrite Hup.
      * intros x [= <-]. by eexists.
Qed.
(** What is left of a schedule after [n] times. *)
Definition rest_after (n : nat) (it : Upcoming) : Upcoming :=
  Nat.iter n (fun it => (upcoming_next it).2) it.

(** The life of a component: its calls, and what others do to its ports in
    between; the schedule it has read, if any, and the ticks sent so far. *)
Inductive cron_reach : option Upcoming -> nat -> Cron -> Prop :=
| cr_new c : cron_state c = (None, None, false) -> cron_reach None 0 c
| cr_call s n c ctx f r :
    cron_reach s n c -> call cron c ctx = Some (f, Some r) -> r <> Finished ->
    cron_reach
      (match s, schedule_next c with
       | Some it, _ => Some it
       | None, inr it => Some it
       | None, inl _ => None
       end)
      (n + (length (sink_items (cn_tick (fr_self f))) - length (sink_items (cn_tick c))))
      (fr_self f)
| cr_ports s n c c' : cron_reach s n c -> cron_state c' = cron_state c -> cron_reach s n c'.

Definition cron_inv (s : option Upcoming) (n : nat) (c : Cron) : Prop :=
  match s with
  | None => n = 0%nat /\ cron_state c = (None, None, false)
  | Some it => cron_state c = drawn (rest_after n it) /\
      forall j, (j < n)%nat -> is_Some (upcoming_next (rest_after j it)).1
  end.

Lemma cron_inv_armed s n c :
  cron_inv s n c ->
  cn_timer_armed c = match cn_next_fire_time c with Some _ => true | None => false end.
Proof.
  destruct s as [it|]; intros [H1 H2].
  - unfold cron_state, drawn in H1. destruct (upcoming_next _) as [[next|] rest]; injection H1 as _ Hn Ha;
      by rewrite Hn, Ha.
  - injection H2 as _ Hn Ha. by rewrite Hn, Ha.
Qed.

(** A call keeps it. *)
Lemma cron_inv_call s n c ctx f r :
  cron_inv s n c -> cron_called c ctx f (Some r) -> r <> Finished ->
  cron_inv
    (match s, schedule_next c with
     | Some it, _ => Some it
     | None, inr it => Some it
     | None, inl _ => None
     end)
    (n + (length (sink_items (cn_tick (fr_self f))) - length (sink_items (cn_tick c))))
    (fr_self f).
Proof.
  intros Hinv [Hstop Hrun] Hr.
  assert (~ stop_next message_as_utf8 (get cn_signals c)) as Hns by (intros [= ->]%Hstop; done).
  specialize (Hrun Hns). destruct s as [it|]; destruct Hinv as [H1 H2].
  - assert (exists next, upcoming_next (rest_after n it) = (cn_next_fire_time c, next) /\
      cn_schedule c = Some next) as (rest & Hup & Hsch).
    { unfold cron_state, drawn in H1. destruct (upcoming_next _) as [next rest].
      injection H1 as Hs Hn _. rewrite Hs, Hn. by exists rest. }
    rewrite Hsch in Hrun. unfold cron_running in Hrun.
    destruct (cn_next_fire_time c) as [next|] eqn:Hn; [|by simplify_eq].
    destruct (timer_fired_at ctx) as [t|].
    + destruct (decide _) as [Hfree|Hfull].
      * destruct Hrun as (_ & Hst & -> & _). rewrite length_app. simpl.
        replace (n + _)%nat with (S n) by lia. unfold cron_inv. simpl. rewrite Hup. split; [done|].
        intros j Hj. destruct (decide (j = n)) as [-> | Hne]; [by rewrite Hup|apply H2; lia].
      * destruct Hrun as (_ & Hst & -> & _). rewrite Nat.sub_diag, Nat.add_0_r. unfold cron_inv. by rewrite Hst.
    + destruct Hrun as (_ & Hst & -> & _). rewrite Nat.sub_diag, Nat.add_0_r. unfold cron_inv. by rewrite Hst.
  - subst n. injection H2 as Hs Hn Ha. rewrite Hs in Hrun. destruct (schedule_next c) as [res|it].
    + destruct Hrun as (_ & Hst & ->). rewrite Nat.sub_diag. unfold cron_inv. rewrite Hst.
      split; [done|]. unfold cron_state. by rewrite Hs, Hn, Ha.
    + destruct Hrun as (_ & Hst & -> & _). rewrite Nat.sub_diag. split; [exact Hst|lia].
Qed.

Lemma cr_call_eq s s' n n' c c' ctx f r :
  cron_reach s n c -> call cron c ctx = Some (f, Some r) -> r <> Finished ->
  s' = (match s, schedule_next c with
        | Some it, _ => Some it
        | None, inr it => Some it
        | None, inl _ => None
        end) ->
  n' = (n + (length (sink_items (cn_tick (fr_self f))) - length (sink_items (cn_tick c))))%nat ->
  c' = fr_self f -> cron_reach s' n' c'.
Proof. intros H1 H2 H3 -> -> ->. by eapply cr_call. Qed.

(** After any number of calls, Cron has sent one tick for each of the first
    [n] times of its schedule and none other, and it waits, with the timer
    armed, for the time after those, if there is one: no time of the schedule is
    skipped or served twice, also when the outport was full. *)
Theorem cron_ticks_in_order s n (c : Cron) :
  cron_reach s n c ->
  match s with
  | None => n = 0%nat /\ cron_state c = (None, None, false)
  | Some it => cron_state c = drawn (rest_after n it) /\
      forall j, (j < n)%nat -> is_Some (upcoming_next (rest_after j it)).1
  end.
Proof.
  change (cron_reach s n c -> cron_inv s n c).
  induction 1 as [c Hc|s n c ctx f r _ IH Hcall Hr|s n c c' _ IH Heq].
  - done.
  - destruct (cron_call c ctx (cron_inv_armed _ _ _ IH)) as (f' & r' & Hcall' & Hrun).
    rewrite Hcall in Hcall'. injection Hcall' as <- <-. by eapply cron_inv_call.
  - unfold cron_inv. by rewrite Heq.
Qed.
End cron.
End timers.

(** ** Concrete runs *)
#[local] Existing Instance list_rtrb.

(** One unit of budget: two packets are released and three accepted, and the
    budget has wrapped around. *)
Definition demo_delay : DelayComponent :=
  mk_DelayComponent (demo_ring false []) (demo_ring false [Text "c"; Text "d"; Text "e"]) (demo_out 8)
    demo_channel demo_channel (Some 50%N) [mk_DelayedPacket (Text "a") 1; mk_DelayedPacket (Text "b") 2].

Example delay_overruns :
  exists f, call (delay_process (fun _ _ => None) (fun n => N.of_nat n)) demo_delay
      (set_timer_fired_at (Some 2%N) (demo_context Normal 1)) = Some (f, Some (DidWork 5)) /\
    remaining_budget (fr_ctx f) = 4294967292%N /\
    sink_items (dy_out (fr_self f)) = [Text "a"; Text "b"] /\ ring_items (dy_inn (fr_self f)) = [].
Proof. eexists. split_and!; vm_compute; reflexivity. Qed.

(** No room for the ready packet: the retry in 25ms is replaced by the time
    that has passed already. *)
Example delay_retry_overwritten :
  exists f, call (delay_process (fun _ _ => None) (fun n => N.of_nat n))
      (mk_DelayComponent (demo_ring false []) (demo_ring false []) (demo_out 0)
         demo_channel demo_channel (Some 50%N) [mk_DelayedPacket (Text "a") 1])
      (set_timer_fired_at (Some 2%N) (demo_context Normal 1)) = Some (f, Some NoWork) /\
    wake_at (fr_ctx f) = Some 1%N.
Proof. eexists. split_and!; vm_compute; reflexivity. Qed.

(** A schedule with two times. *)
Definition demo_cron : @CronComponent list_rtrb (list N) :=
  mk_CronComponent (demo_ring false [Text "schedule"]) (demo_out 8) demo_channel demo_channel None None false.
Definition demo_next (l : list N) : option N * list N := (head l, tail l).
Definition demo_cron_process : proc (@CronComponent list_rtrb (list N)) ProcessResult :=
  cron_process (fun n => N.of_nat n) (fun _ => Some tt) (fun _ => [100; 200]%N) demo_next
    (fun n => N.of_nat n).
Definition demo_call (c : CronComponent) (ctx : NodeContext) : CronComponent :=
  match call demo_cron_process c ctx with Some (f, _) => fr_self f | None => c end.
Definition demo_ticked : CronComponent :=
  demo_call (demo_call demo_cron (demo_context Normal 8))
    (set_timer_fired_at (Some 100%N) (demo_context Normal 8)).

Lemma cron_ticks_in_order_witness :
  cron_state demo_ticked = (Some [], Some 200%N, true) /\ sink_items (cn_tick demo_ticked) = [Bytes []].
Proof.
  assert (cron_reach (fun n => N.of_nat n) (fun _ => Some tt) (fun _ => [100; 200]%N) demo_next
    (fun n => N.of_nat n) (Some [100; 200]%N) 1 demo_ticked) as Hreach.
  { eapply (cr_call_eq _ _ _ _ _ (Some [100; 200]%N) _ 0%nat _ (demo_call demo_cron (demo_context Normal 8))
      _ (set_timer_fired_at (Some 100%N) (demo_context Normal 8)));
      [|vm_compute; reflexivity|discriminate|vm_compute; reflexivity..].
    eapply (cr_call_eq _ _ _ _ _ None _ 0%nat _ demo_cron _ (demo_context Normal 8));
      [by apply cr_new|vm_compute; reflexivity|discriminate|vm_compute; reflexivity..]. }
  destruct (cron_ticks_in_order _ _ _ _ _ _ _ _ Hreach) as [Hs _].
  split; [exact Hs|reflexivity].
Defined.
