(* ===== verification/Io.v ===== *)
(** What the components share that talk to the outside: the channels of the
    standard library to their background threads, the poll interval, sending or
    keeping a packet, the conversion of bytes to text, and the frames of the
    servers. *)
From S2P Require Import Prelude Api Scheduler Process.
From Stdlib Require Strings.String.
From Stdlib Require Import NArith ZArith Lia ZifyBool Strings.Byte Strings.Ascii.
From stdpp Require Import base list strings gmap pretty.
Local Open Scope string_scope.
Local Open Scope list_scope.
Local Open Scope flowd_scope.

(** [str::parse::<bool>().ok()]. *)
Definition parse_bool (s : string) : option bool :=
  if String.eqb s "true" then Some true else if String.eqb s "false" then Some false else None.

(** * Channels ([std::sync::mpsc])

    A channel seen from both ends: [mp_bound] is [None] for [channel()], and the
    flags tell whether the sender and the receiver still exist. *)
Record mpsc (T : Type) : Type := mk_mpsc {
  mp_items : list T;
  mp_bound : option nat;
  mp_tx_alive : bool;
  mp_rx_alive : bool
}.
Arguments mk_mpsc {T}.
Arguments mp_items {T}.
Arguments mp_bound {T}.
Arguments mp_tx_alive {T}.
Arguments mp_rx_alive {T}.

Inductive received (T : Type) : Type :=
| Received (t : T)
| RecvEmpty
| RecvDisconnected.
Arguments Received {T}.
Arguments RecvEmpty {T}.
Arguments RecvDisconnected {T}.

Inductive posted : Type := Posted | PostFull | PostDisconnected.

Section mpsc.
Context {T : Type}.
Implicit Types (ch : mpsc T).

Definition channel : mpsc T := mk_mpsc [] None true true.
Definition mpsc_sync_channel (bound : nat) : mpsc T := mk_mpsc [] (Some bound) true true.

Definition with_items (l : list T) ch : mpsc T := mk_mpsc l (mp_bound ch) (mp_tx_alive ch) (mp_rx_alive ch).

(** [Receiver::try_recv]: what was sent before the sender went away is still
    received. *)
Definition mpsc_try_recv ch : received T * mpsc T :=
  match mp_items ch with
  | t :: rest => (Received t, with_items rest ch)
  | [] => (if mp_tx_alive ch then RecvEmpty else RecvDisconnected, ch)
  end.

Definition mpsc_full ch : bool :=
  match mp_bound ch with Some n => (n <=? length (mp_items ch))%nat | None => false end.

(** [SyncSender::try_send]; [Sender::send] for a channel without bound. *)
Definition mpsc_try_send (t : T) ch : posted * mpsc T :=
  if negb (mp_rx_alive ch) then (PostDisconnected, ch)
  else if mpsc_full ch then (PostFull, ch)
  else (Posted, with_items (mp_items ch ++ [t]) ch).

Definition drop_sender ch : mpsc T := mk_mpsc (mp_items ch) (mp_bound ch) false (mp_rx_alive ch).
Definition drop_receiver ch : mpsc T := mk_mpsc (mp_items ch) (mp_bound ch) (mp_tx_alive ch) false.
End mpsc.

(** The bounded channels of [create_io_channels]: commands and results. *)
Definition create_io_channels (T U : Type) : mpsc T * mpsc U :=
  (mpsc_sync_channel DEFAULT_MAX_INFLIGHT, mpsc_sync_channel DEFAULT_MAX_PENDING).

(** [rx.try_recv()] and [tx.try_send(t)] on a field of the component. *)
Section operations.
Context {C T : Type}.

Definition receive (l : lens C (mpsc T)) : proc C (received T) := fun f =>
  let r := mpsc_try_recv (get l (fr_self f)) in Some (with_self (set l r.2 (fr_self f)) f, inl r.1).
Definition post (l : lens C (mpsc T)) (t : T) : proc C posted := fun f =>
  let r := mpsc_try_send t (get l (fr_self f)) in Some (with_self (set l r.2 (fr_self f)) f, inl r.1).

Lemma wp_receive (l : lens C (mpsc T)) Q E f :
  Q (mpsc_try_recv (get l (fr_self f))).1
    (with_self (set l (mpsc_try_recv (get l (fr_self f))).2 (fr_self f)) f) ->
  wp (receive l) Q E f.
Proof. done. Qed.

Lemma wp_post (l : lens C (mpsc T)) t Q E f :
  Q (mpsc_try_send t (get l (fr_self f))).1
    (with_self (set l (mpsc_try_send t (get l (fr_self f))).2 (fr_self f)) f) ->
  wp (post l t) Q E f.
Proof. done. Qed.

#[export] Instance keeps_receive (l : lens C (mpsc T)) : Keeps (receive l).
Proof. intros f f' x. by intros [= <- _]. Qed.
#[export] Instance keeps_post (l : lens C (mpsc T)) t : Keeps (post l t).
Proof. intros f f' x. by intros [= <- _]. Qed.
End operations.

(** [Option::is_none]. *)
Definition is_none {A} (o : option A) : bool := match o with None => true | Some _ => false end.

(** [context.wake_at(Instant::now() + DEFAULT_IO_POLL_INTERVAL)]. *)
Definition wake_poll {C} (clock : nat -> Instant) : proc C unit :=
  t ← now clock; wake_at_ (t + DEFAULT_IO_POLL_INTERVAL)%N.

#[export] Instance keeps_wake_poll {C} clock : Keeps (wake_poll clock : proc C unit).
Proof. unfold wake_poll. apply _. Qed.

Lemma wp_wake_poll {C} clock (Q : unit -> frame C -> Prop) E f :
  Q tt (mk_frame (fr_self f)
          (ctx_wake_at (clock (fr_reads f) + DEFAULT_IO_POLL_INTERVAL)%N (fr_ctx f))
          (fr_work f) (fr_effects f) (S (fr_reads f))) ->
  wp (wake_poll clock) Q E f.
Proof. intros H. unfold wake_poll. by wp_run. Qed.

(** * Sending or keeping *)
Section outbox.
Context `{R : Rtrb}.

(** [push] of a packet that is kept when there is no room. *)
Definition send_or_keep (m : FbpMessage) : proc Outbox unit :=
  r ← send l_ob_out m;
  match r with
  | Ok _ => mret tt
  | Err returned => p ← read l_ob_pending; write l_ob_pending (p ++ [returned])
  end.

#[export] Instance keeps_send_or_keep m : Keeps (send_or_keep m).
Proof. unfold send_or_keep. apply _. Qed.

(** A packet cannot overtake another one: nothing waits, or there is no room. *)
Definition in_order (b : Outbox) : Prop := ob_pending b = [] \/ room (ob_out b) = 0%nat.

Lemma wp_send_or_keep m (f : frame Outbox) (Q : unit -> frame Outbox -> Prop) E :
  (forall o q es, sink_items o ++ q = sink_items (ob_out (fr_self f)) ++ ob_pending (fr_self f) ++ [m] ->
     (length q <= S (length (ob_pending (fr_self f))))%nat ->
     ring_cap (pes_sink o) = ring_cap (pes_sink (ob_out (fr_self f))) -> in_order (mk_Outbox o q) ->
     Q tt (mk_frame (mk_Outbox o q) (fr_ctx f) (fr_work f) (fr_effects f ++ es) (fr_reads f))) ->
  in_order (fr_self f) -> wp (send_or_keep m) Q E f.
Proof.
  intros HQ Hp. unfold send_or_keep. apply wp_bind, wp_send; simpl.
  - intros Hroom o es [Hs Hc _ _ _] _. wp_run. destruct Hp as [Hp|]; [|lia].
    apply HQ; [by rewrite Hs, Hp, <- app_assoc|lia|done|by left].
  - intros Hroom o [Hs Hc _ _ _]. wp_run. rewrite <- (app_nil_r (fr_effects f)).
    apply HQ; [by rewrite Hs, app_nil_r|rewrite length_app; simpl; lia|done|].
    right. unfold room in *. simpl. by rewrite Hc, Hs, app_nil_r.
Qed.
End outbox.

(** * Text on the wire *)

(** U+FFFD. *)
Definition replacement_character : list byte := [xef; xbf; xbd].

(** [String::from_utf8_lossy]: every maximal part of an ill-formed sequence
    becomes one replacement character. *)
Fixpoint utf8_lossy (bs : list byte) : list byte :=
  match bs with
  | [] => []
  | b0 :: r0 =>
      if byte_in 0 127 b0 then b0 :: utf8_lossy r0 else
      match r0 with
      | [] => replacement_character
      | b1 :: r1 =>
          if byte_in 194 223 b0 && byte_in 128 191 b1 then b0 :: b1 :: utf8_lossy r1
          else if (byte_in 224 224 b0 && byte_in 160 191 b1)
                  || (byte_in 225 236 b0 && byte_in 128 191 b1)
                  || (byte_in 237 237 b0 && byte_in 128 159 b1)
                  || (byte_in 238 239 b0 && byte_in 128 191 b1) then
            match r1 with
            | [] => replacement_character
            | b2 :: r2 =>
                if byte_in 128 191 b2 then b0 :: b1 :: b2 :: utf8_lossy r2
                else replacement_character ++ utf8_lossy r1
            end
          else if (byte_in 240 240 b0 && byte_in 144 191 b1)
                  || (byte_in 241 243 b0 && byte_in 128 191 b1)
                  || (byte_in 244 244 b0 && byte_in 128 143 b1) then
            match r1 with
            | [] => replacement_character
            | b2 :: r2 =>
                if byte_in 128 191 b2 then
                  match r2 with
                  | [] => replacement_character
                  | b3 :: r3 =>
                      if byte_in 128 191 b3 then b0 :: b1 :: b2 :: b3 :: utf8_lossy r3
                      else replacement_character ++ utf8_lossy r2
                  end
                else replacement_character ++ utf8_lossy r1
            end
          else replacement_character ++ utf8_lossy r0
      end
  end.

(** [str::find(':')]: the position of the first colon, in bytes. *)
Fixpoint find_colon (bs : list byte) : option nat :=
  match bs with
  | [] => None
  | b :: rest => if bool_decide (b = x3a) then Some 0%nat else S <$> find_colon rest
  end.

(** [str::parse] for unsigned integers: an optional plus sign and digits, with checks for
    overflow at every step. *)
Definition parse_digit (b : byte) : option N :=
  if byte_in 48 57 b then Some (Byte.to_N b - 48)%N else None.
Fixpoint parse_digits (modulus acc : N) (bs : list byte) : option N :=
  match bs with
  | [] => Some acc
  | b :: rest =>
      match parse_digit b with
      | None => None
      | Some d =>
          if (acc * 10 <? modulus)%N && (acc * 10 + d <? modulus)%N
          then parse_digits modulus (acc * 10 + d) rest else None
      end
  end.
Definition parse_uint (modulus : N) (bs : list byte) : option N :=
  match bs with
  | [] => None
  | b :: rest =>
      if bool_decide (b = x2b) then match rest with [] => None | _ => parse_digits modulus 0 rest end
      else parse_digits modulus 0 bs
  end.
Definition parse_u32 : list byte -> option N := parse_uint u32_modulus.
Definition parse_u64 : list byte -> option N := parse_uint u64_modulus.

(** [format!("{}:{}", client_id, String::from_utf8_lossy(&data))]. *)
Definition frame_bytes (client_id : N) (data : list byte) : list byte :=
  string_bytes (pretty client_id) ++ [x3a] ++ utf8_lossy data.

(** ** Their laws *)

(** The leads of sequences of three and four bytes. *)
Definition lead3 (b0 b1 : byte) : bool :=
  (byte_in 224 224 b0 && byte_in 160 191 b1) || (byte_in 225 236 b0 && byte_in 128 191 b1)
  || (byte_in 237 237 b0 && byte_in 128 159 b1) || (byte_in 238 239 b0 && byte_in 128 191 b1).
Definition lead4 (b0 b1 : byte) : bool :=
  (byte_in 240 240 b0 && byte_in 144 191 b1) || (byte_in 241 243 b0 && byte_in 128 191 b1)
  || (byte_in 244 244 b0 && byte_in 128 143 b1).

Lemma lead34 b0 b1 : lead3 b0 b1 = true -> lead4 b0 b1 = false.
Proof. unfold lead3, lead4, byte_in. lia. Qed.

(** Well-formed text is left alone. *)
Lemma utf8_lossy_valid bs : utf8_valid bs = true -> utf8_lossy bs = bs.
Proof.
  induction bs as [bs IH] using (induction_ltof1 _ (@length byte)). unfold ltof in IH.
  destruct bs as [|b0 r0]; [done|]. cbn [utf8_valid utf8_lossy].
  destruct (byte_in 0 127 b0); [intros H; f_equal; apply IH; [simpl; lia|done]|].
  destruct r0 as [|b1 r1]; [done|].
  destruct (byte_in 194 223 b0 && byte_in 128 191 b1).
  { intros H. do 2 f_equal. apply IH; [simpl; lia|done]. }
  fold (lead3 b0 b1) (lead4 b0 b1). destruct r1 as [|b2 r2]; [done|].
  replace (_ || _) with (lead3 b0 b1 && byte_in 128 191 b2)
    by (unfold lead3; rewrite !andb_orb_distrib_l; done).
  pose proof (lead34 b0 b1) as Hex. destruct (lead3 b0 b1) eqn:H3; simpl.
  - rewrite (Hex eq_refl). destruct (byte_in 128 191 b2); [|by destruct r2].
    intros H. do 3 f_equal. apply IH; [simpl; lia|done].
  - destruct r2 as [|b3 r3]; [done|]. destruct (lead4 b0 b1); [|done].
    destruct (byte_in 128 191 b2); [|done]. destruct (byte_in 128 191 b3); [|done].
    intros H. do 4 f_equal. apply IH; [simpl; lia|done].
Qed.

(** The position of the first colon, in a text and in the bytes it was made of. *)
Lemma find_colon_app ds rest : x3a ∉ ds -> find_colon (ds ++ x3a :: rest) = Some (length ds).
Proof.
  induction ds as [|d ds IH]; [done|]. intros [Hd Hds]%not_elem_of_cons. simpl.
  rewrite bool_decide_eq_false_2 by done. by rewrite IH.
Qed.

Lemma find_colon_Some bs n :
  find_colon bs = Some n -> bs = take n bs ++ x3a :: drop (S n) bs /\ x3a ∉ take n bs.
Proof.
  revert n. induction bs as [|b bs IH]; intros n; simpl; [done|].
  destruct (bool_decide_reflect (b = x3a)) as [->|Hb]; [intros [= <-]; split; [done|apply not_elem_of_nil]|].
  intros (m & Hm & ->)%fmap_Some. destruct (IH m Hm) as [Heq Hn]. simpl. split; [by f_equal|].
  by apply not_elem_of_cons.
Qed.

(** Digits, plus signs and colons are ASCII. *)
Definition ascii (b : byte) : Prop := byte_in 0 127 b = true.

Lemma utf8_lossy_ascii ds rest : Forall ascii ds -> utf8_lossy (ds ++ rest) = ds ++ utf8_lossy rest.
Proof. induction 1 as [|d ds Hd _ IH]; [done|]. simpl. unfold ascii in Hd. by rewrite Hd, IH. Qed.

Lemma utf8_lossy_not_ascii b0 r0 :
  byte_in 0 127 b0 = false -> exists x l, utf8_lossy (b0 :: r0) = x :: l /\ byte_in 0 127 x = false.
Proof.
  intros Hb. cbn [utf8_lossy]. rewrite Hb.
  destruct r0 as [|b1 r1]; [by do 2 eexists|].
  destruct (byte_in 194 223 b0 && byte_in 128 191 b1); [by do 2 eexists|].
  fold (lead3 b0 b1) (lead4 b0 b1). destruct (lead3 b0 b1).
  { destruct r1 as [|b2 r2]; [by do 2 eexists|]. by destruct (byte_in 128 191 b2); do 2 eexists. }
  destruct (lead4 b0 b1); [|by do 2 eexists].
  destruct r1 as [|b2 r2]; [by do 2 eexists|]. destruct (byte_in 128 191 b2); [|by do 2 eexists].
  destruct r2 as [|b3 r3]; [by do 2 eexists|]. by destruct (byte_in 128 191 b3); do 2 eexists.
Qed.

(** A text that starts with ASCII characters comes from bytes that do. *)
Lemma utf8_lossy_prefix ds rest bs :
  Forall ascii ds -> utf8_lossy bs = ds ++ rest -> exists bs', bs = ds ++ bs' /\ utf8_lossy bs' = rest.
Proof.
  intros Hds. revert bs. induction Hds as [|d ds Hd _ IH]; intros bs Hbs; [by exists bs|].
  destruct bs as [|b0 r0]; [done|]. destruct (byte_in 0 127 b0) eqn:Hb0.
  - cbn [utf8_lossy] in Hbs. rewrite Hb0 in Hbs. injection Hbs as -> Hbs.
    destruct (IH r0 Hbs) as (bs' & -> & ?). by exists bs'.
  - destruct (utf8_lossy_not_ascii b0 r0 Hb0) as (x & l & Heq & Hx). unfold ascii in Hd.
    rewrite Heq in Hbs. simpl in Hbs. congruence.
Qed.

(** ** Numbers *)

Lemma parse_digits_ascii m acc bs n : parse_digits m acc bs = Some n -> Forall ascii bs /\ x3a ∉ bs.
Proof.
  revert acc. induction bs as [|b bs IH]; intros acc; simpl; [by split; [|apply not_elem_of_nil]|].
  unfold parse_digit. destruct (byte_in 48 57 b) eqn:Hb; [|done]. destruct (_ && _); [|done].
  intros [Ha Hc]%IH. split.
  - constructor; [|done]. unfold ascii, byte_in in *. lia.
  - apply not_elem_of_cons. split; [by intros <-|done].
Qed.

Lemma parse_u32_ascii bs n : parse_u32 bs = Some n -> Forall ascii bs /\ x3a ∉ bs.
Proof.
  destruct bs as [|b bs]; [done|]. unfold parse_u32, parse_uint. destruct (bool_decide_reflect (b = x2b)) as [->|_].
  - destruct bs as [|b bs]; [done|]. intros [Ha Hc]%parse_digits_ascii. split; [by constructor|].
    by apply not_elem_of_cons.
  - apply parse_digits_ascii.
Qed.

Lemma parse_digit_char n : (n < 10)%N -> parse_digit (Ascii.byte_of_ascii (pretty_N_char n)) = Some n.
Proof.
  intros Hn. assert (n ∈ [0; 1; 2; 3; 4; 5; 6; 7; 8; 9]%N) as Hin by (rewrite !elem_of_cons; lia).
  revert Hin. set_unfold. by intros; repeat (destruct_or!; subst).
Qed.

Lemma parse_digits_go m x s :
  (x < m)%N -> parse_digits m 0 (string_bytes (pretty_N_go x s)) = parse_digits m x (string_bytes s).
Proof.
  revert s. induction (N.lt_wf_0 x) as [x _ IH]. intros s Hx.
  destruct (decide (x = 0%N)) as [->|Hnz]; [by rewrite pretty_N_go_0|].
  pose proof (N.div_mod x 10 ltac:(done)) as Hdm. pose proof (N.mod_lt x 10 ltac:(done)) as Hm.
  rewrite pretty_N_go_step by lia. set (q := (x `div` 10)%N) in *. set (r := (x `mod` 10)%N) in *.
  clearbody q r. rewrite IH by lia.
  unfold string_bytes, String.list_byte_of_string. cbn [String.list_ascii_of_string map parse_digits].
  rewrite parse_digit_char by done.
  replace (_ && _) with true by lia. f_equal. lia.
Qed.

Lemma parse_uint_pretty m n : (n < m)%N -> parse_uint m (string_bytes (pretty n)) = Some n.
Proof.
  intros Hn. unfold pretty, pretty_N. destruct (decide (n = 0)%N) as [->|Hnz].
  { unfold parse_uint. simpl. unfold parse_digit. simpl. by replace (_ && _) with true by lia. }
  pose proof (parse_digits_go m n "" Hn) as Hgo. simpl in Hgo.
  destruct (string_bytes (pretty_N_go n "")) as [|b bs]; [by injection Hgo as <-|].
  unfold parse_uint. destruct (bool_decide_reflect (b = x2b)) as [->|_]; [done|exact Hgo].
Qed.

(** What the servers write for a client, they read. *)
Lemma parse_pretty n : (n < u32_modulus)%N -> parse_u32 (string_bytes (pretty n)) = Some n.
Proof. apply parse_uint_pretty. Qed.

(** ** Frames

    [split_frame] is how the servers take a frame apart: the client and what is
    behind the first colon. *)
Definition split_frame (bs : list byte) : option (N * nat) :=
  match find_colon (utf8_lossy bs) with
  | Some pos => match parse_u32 (take pos (utf8_lossy bs)) with Some id => Some (id, pos) | None => None end
  | None => None
  end.

(** The position was found in the text, and is one in the bytes: what is
    before it is ASCII. *)
Lemma split_frame_Some bs id pos :
  split_frame bs = Some (id, pos) ->
  exists ds, bs = ds ++ x3a :: drop (S pos) bs /\ parse_u32 ds = Some id /\ length ds = pos.
Proof.
  unfold split_frame. destruct (find_colon (utf8_lossy bs)) as [n|] eqn:Hc; [|done].
  destruct (parse_u32 _) as [i|] eqn:Hp; [|done]. intros [= -> ->].
  destruct (find_colon_Some _ _ Hc) as [Heq _]. destruct (parse_u32_ascii _ _ Hp) as [Hasc _].
  set (ds := take pos (utf8_lossy bs)) in *.
  assert (length ds = pos) as Hlen.
  { unfold ds. rewrite length_take. apply (f_equal length) in Heq. rewrite length_app in Heq. simpl in Heq.
    unfold ds in Heq. rewrite length_take, length_drop in Heq. lia. }
  destruct (utf8_lossy_prefix ds _ _ Hasc Heq) as (bs' & Hbs & Hrest).
  destruct (utf8_lossy_prefix [x3a] _ bs' ltac:(by repeat constructor) Hrest) as (bs'' & -> & _).
  exists ds. split_and!; [|done..]. rewrite Hbs at 2. rewrite <- Hlen.
  change (ds ++ [x3a] ++ bs'') with (ds ++ ([x3a] ++ bs'')). rewrite app_assoc, drop_app_ge; [|rewrite length_app; simpl; lia].
  rewrite length_app. simpl. replace (S (length ds) - (length ds + 1))%nat with 0%nat by lia. simpl. by rewrite Hbs.
Qed.

(** A frame that comes back to the server goes to the client it came from. *)
Lemma split_frame_bytes id data :
  (id < u32_modulus)%N -> split_frame (frame_bytes id data) = Some (id, length (string_bytes (pretty id))).
Proof.
  intros Hid. pose proof (parse_pretty id Hid) as Hp. destruct (parse_u32_ascii _ _ Hp) as [Ha Hc].
  unfold split_frame, frame_bytes. rewrite utf8_lossy_ascii by done. cbn [app utf8_lossy].
  replace (byte_in 0 127 x3a) with true by done. rewrite find_colon_app by done.
  by rewrite take_app_length, Hp.
Qed.
