(* ===== verification/Files.v ===== *)
(** The file components: [FileReader], [FileTailer] and [FileWriter], their
    state, [new] and [process], and the threads that read and write for them.

    The file system is an argument: what opening, reading and writing answers.
    An error of the file system is its text, since it is only logged. *)
From S2P Require Import Prelude Api Scheduler Process Pipes Sinks Io.
From Stdlib Require Strings.String.
From Stdlib Require Import NArith ZArith Lia Strings.Byte.
From stdpp Require Import base list strings gmap.
Local Open Scope string_scope.
Local Open Scope list_scope.
Local Open Scope flowd_scope.

(** [message_as_utf8] of the file components. *)
Definition file_message_as_utf8 (message : FbpMessage) : option string :=
  match message with
  | Text text => Some text
  | Bytes bytes => from_utf8 bytes
  | Value (VText text) => Some text
  | Value (VBytes bytes) => from_utf8 bytes
  | _ => None
  end.

Section files.
Context `{R : Rtrb}.
Variable clock : nat -> Instant.

(** * FileReader *)

(** A read under way: the path that the thread was given, and the channel of
    its answer. *)
Record FileRead : Type := mk_FileRead {
  fd_path : string;
  fd_result : mpsc (result (list byte) string)
}.

(** The thread: [std::fs::read], one answer, and the channel's sender is
    dropped. *)
Definition file_read_thread (fs_read : string -> result (list byte) string) (rd : FileRead) : FileRead :=
  mk_FileRead (fd_path rd) (drop_sender (mpsc_try_send (fs_read (fd_path rd)) (fd_result rd)).2).

Record FileReaderComponent : Type := mk_FileReaderComponent {
  rd_conf : ring;
  rd_out : ProcessEdgeSink;
  rd_signals_in : sync_channel;
  rd_signals_out : sync_channel;
  rd_filenames : list FbpMessage;
  rd_pending_files : list FbpMessage;
  rd_pending_read : option FileRead;
  rd_scheduler_waker : option SchedulerWaker;
  rd_finished : bool
}.

Definition new_file_reader `{MultiMapLib ring} `{MultiMapLib ProcessEdgeSink}
    (inports : multimap ring) (outports : multimap ProcessEdgeSink)
    (signals_in signals_out : sync_channel) (scheduler_waker : option SchedulerWaker) :
    outcome FileReaderComponent :=
  let* (conf, inports) := take_port "NAMES" inports in
  let* (out, outports) := take_port "OUT" outports in
  Done (mk_FileReaderComponent conf out signals_in signals_out [] [] None scheduler_waker false).

Definition rd_l_conf : lens FileReaderComponent ring := mk_lens rd_conf
  (fun x c => mk_FileReaderComponent x (rd_out c) (rd_signals_in c) (rd_signals_out c) (rd_filenames c)
                (rd_pending_files c) (rd_pending_read c) (rd_scheduler_waker c) (rd_finished c)).
Definition rd_l_box : lens FileReaderComponent Outbox := mk_lens
  (fun c => mk_Outbox (rd_out c) (rd_pending_files c))
  (fun x c => mk_FileReaderComponent (rd_conf c) (ob_out x) (rd_signals_in c) (rd_signals_out c)
                (rd_filenames c) (ob_pending x) (rd_pending_read c) (rd_scheduler_waker c) (rd_finished c)).
Definition rd_l_signals : lens FileReaderComponent Signals := mk_lens
  (fun c => mk_Signals (rd_signals_in c) (rd_signals_out c))
  (fun x c => mk_FileReaderComponent (rd_conf c) (rd_out c) (sig_in x) (sig_out x) (rd_filenames c)
                (rd_pending_files c) (rd_pending_read c) (rd_scheduler_waker c) (rd_finished c)).
Definition rd_l_filenames : lens FileReaderComponent (list FbpMessage) := mk_lens rd_filenames
  (fun x c => mk_FileReaderComponent (rd_conf c) (rd_out c) (rd_signals_in c) (rd_signals_out c) x
                (rd_pending_files c) (rd_pending_read c) (rd_scheduler_waker c) (rd_finished c)).
Definition rd_l_pending_read : lens FileReaderComponent (option FileRead) := mk_lens rd_pending_read
  (fun x c => mk_FileReaderComponent (rd_conf c) (rd_out c) (rd_signals_in c) (rd_signals_out c)
                (rd_filenames c) (rd_pending_files c) x (rd_scheduler_waker c) (rd_finished c)).
Definition rd_l_finished : lens FileReaderComponent bool := mk_lens rd_finished
  (fun x c => mk_FileReaderComponent (rd_conf c) (rd_out c) (rd_signals_in c) (rd_signals_out c)
                (rd_filenames c) (rd_pending_files c) (rd_pending_read c) (rd_scheduler_waker c) x).

(** [while self.filenames.is_empty()]: one name, when there is one. *)
Definition read_names : proc FileReaderComponent unit :=
  while (fun _ => 1%nat) (fun f => bool_decide (rd_filenames (fr_self f) = []))
    (filename ← pop rd_l_conf;
     match filename with
     | Some filename => names ← read rd_l_filenames; write rd_l_filenames (names ++ [filename])
     | None => break
     end).

(** The asynchronous read that is started when the component is idle. *)
Definition start_read : proc FileReaderComponent unit :=
  rd ← read rd_l_pending_read;
  names ← read rd_l_filenames;
  match rd, names with
  | None, filename :: _ =>
      write rd_l_pending_read
        (Some (mk_FileRead (default "" (file_message_as_utf8 filename)) channel))
  | _, _ => mret tt
  end.

(** The packet for the contents of a file. *)
Definition content_message (contents : list byte) : FbpMessage :=
  match from_utf8 contents with Some text => from_str text | None => from_bytes contents end.

(** The end of a read: the file name is done with, in any case. *)
Definition end_read : proc FileReaderComponent unit :=
  write rd_l_pending_read None;;
  names ← read rd_l_filenames; write rd_l_filenames (tail names);;
  work 1;; charge 1.

Definition complete_read : proc FileReaderComponent unit :=
  b ← budget;
  if (0 <? b)%N then
    pending ← read rd_l_pending_read;
    match pending with
    | None => mret tt
    | Some rd =>
        let '(res, ch) := mpsc_try_recv (fd_result rd) in
        write rd_l_pending_read (Some (mk_FileRead (fd_path rd) ch));;
        match res with
        | Received (Ok contents) => zoom rd_l_box (send_or_keep (content_message contents));; end_read
        | Received (Err _) => end_read
        | RecvEmpty => mret tt
        | RecvDisconnected => write rd_l_pending_read None
        end
    end
  else mret tt.

Definition file_reader_process : proc FileReaderComponent ProcessResult :=
  finished ← read rd_l_finished;
  if (finished : bool) then return_ Finished
  else
    read_names;;
    zoom rd_l_signals (poll file_message_as_utf8);;
    zoom rd_l_box flush;;
    start_read;;
    complete_read;;
    w ← work_units;
    if (0 <? w)%N then mret (DidWork w)
    else
      names ← read rd_l_filenames;
      abandoned ← is_abandoned rd_l_conf;
      box ← read rd_l_box;
      pending ← read rd_l_pending_read;
      if bool_decide (names = []) && abandoned && bool_decide (ob_pending box = []) &&
         is_none pending
      then write rd_l_finished true;; return_ Finished
      else wake_poll clock;; mret NoWork.

#[export] Instance keeps_file_reader : Keeps file_reader_process.
Proof.
  unfold file_reader_process, read_names, flush, start_read, complete_read, end_read, send_or_keep. apply _.
Qed.
Definition file_reader_component := component_of file_reader_process.

End files.

(** ** A reader between its producer, its consumer and its threads

    [rr_given] are the names that the producer has sent so far, [rr_got] what
    the consumer has received. *)
Section reader_runs.
Context `{R : Rtrb}.
Record ReaderRun : Type := mk_ReaderRun {
  rr_reader : FileReaderComponent;
  rr_given : list FbpMessage;
  rr_got : list FbpMessage
}.

Inductive reader_step (fs_read : string -> result (list byte) string) : ReaderRun -> ReaderRun -> Prop :=
| reader_called (times : nat -> Instant) c given got ctx f r :
    call (file_reader_process times) c ctx = Some (f, Some r) ->
    reader_step fs_read (mk_ReaderRun c given got) (mk_ReaderRun (fr_self f) given got)
| reader_read c given got rd :
    rd_pending_read c = Some rd -> mp_tx_alive (fd_result rd) = true ->
    reader_step fs_read (mk_ReaderRun c given got)
      (mk_ReaderRun (set rd_l_pending_read (Some (file_read_thread fs_read rd)) c) given got)
| reader_named c given got m r' :
    ring_is_abandoned (rd_conf c) = false -> ring_push m (rd_conf c) = (Ok tt, r') ->
    reader_step fs_read (mk_ReaderRun c given got) (mk_ReaderRun (set rd_l_conf r' c) (given ++ [m]) got)
| reader_closed c given got :
    reader_step fs_read (mk_ReaderRun c given got)
      (mk_ReaderRun (set rd_l_conf (ring_drop_producer (rd_conf c)) c) given got)
| reader_taken c given got m r' :
    ring_pop (pes_sink (rd_out c)) = (Some m, r') ->
    reader_step fs_read (mk_ReaderRun c given got)
      (mk_ReaderRun (set rd_l_box (mk_Outbox (set_sink r' (rd_out c)) (rd_pending_files c)) c) given
         (got ++ [m]))
| reader_signalled c given got m sin :
    try_send m (rd_signals_in c) = (Ok tt, sin) ->
    reader_step fs_read (mk_ReaderRun c given got)
      (mk_ReaderRun (set rd_l_signals (mk_Signals sin (rd_signals_out c)) c) given got).

(** A reader before anything has happened. *)
Definition reader_untouched (s : ReaderRun) : Prop :=
  let c := rr_reader s in
  ring_items (rd_conf c) = [] /\ sink_items (rd_out c) = [] /\ rd_filenames c = [] /\
  rd_pending_files c = [] /\ rd_pending_read c = None /\ rd_finished c = false /\
  rr_given s = [] /\ rr_got s = [].

End reader_runs.

(** * FileTailer

    The crate staart is an argument: opening a file at its end, and what has
    been appended to it since the last look. *)
Section tailer.
Context `{R : Rtrb} {TailedFile : Type}.
Variable clock : nat -> Instant.
Variable tailed_file_new : string -> result TailedFile string.
Variable tailed_file_read : TailedFile -> result (list byte) string * TailedFile.

Record FileTailerComponent : Type := mk_FileTailerComponent {
  tl_conf : ring;
  tl_out : ProcessEdgeSink;
  tl_signals_in : sync_channel;
  tl_signals_out : sync_channel;
  tl_filename : option string;
  tl_file : option TailedFile;
  tl_pending_lines : list (list byte)
}.

Definition new_file_tailer `{MultiMapLib ring} `{MultiMapLib ProcessEdgeSink}
    (inports : multimap ring) (outports : multimap ProcessEdgeSink)
    (signals_in signals_out : sync_channel) : outcome FileTailerComponent :=
  let* (conf, inports) := take_port "NAME" inports in
  let* (out, outports) := take_port "OUT" outports in
  Done (mk_FileTailerComponent conf out signals_in signals_out None None []).

Definition tl_l_conf : lens FileTailerComponent ring := mk_lens tl_conf
  (fun x c => mk_FileTailerComponent x (tl_out c) (tl_signals_in c) (tl_signals_out c) (tl_filename c)
                (tl_file c) (tl_pending_lines c)).
Definition tl_l_out : lens FileTailerComponent ProcessEdgeSink := mk_lens tl_out
  (fun x c => mk_FileTailerComponent (tl_conf c) x (tl_signals_in c) (tl_signals_out c) (tl_filename c)
                (tl_file c) (tl_pending_lines c)).
Definition tl_l_signals : lens FileTailerComponent Signals := mk_lens
  (fun c => mk_Signals (tl_signals_in c) (tl_signals_out c))
  (fun x c => mk_FileTailerComponent (tl_conf c) (tl_out c) (sig_in x) (sig_out x) (tl_filename c)
                (tl_file c) (tl_pending_lines c)).
Definition tl_l_filename : lens FileTailerComponent (option string) := mk_lens tl_filename
  (fun x c => mk_FileTailerComponent (tl_conf c) (tl_out c) (tl_signals_in c) (tl_signals_out c) x
                (tl_file c) (tl_pending_lines c)).
Definition tl_l_file : lens FileTailerComponent (option TailedFile) := mk_lens tl_file
  (fun x c => mk_FileTailerComponent (tl_conf c) (tl_out c) (tl_signals_in c) (tl_signals_out c)
                (tl_filename c) x (tl_pending_lines c)).
Definition tl_l_pending_lines : lens FileTailerComponent (list (list byte)) := mk_lens tl_pending_lines
  (fun x c => mk_FileTailerComponent (tl_conf c) (tl_out c) (tl_signals_in c) (tl_signals_out c)
                (tl_filename c) (tl_file c) x).

(** The name of the file, and opening it. *)
Definition open_tailed : proc FileTailerComponent unit :=
  filename ← read tl_l_filename;
  match filename with
  | Some _ => mret tt
  | None =>
      msg ← pop tl_l_conf;
      match msg with
      | None => wake_poll clock;; return_ NoWork
      | Some msg =>
          match as_text msg with
          | None => panic
          | Some name =>
              write tl_l_filename (Some name);;
              match tailed_file_new name with
              | Ok file => write tl_l_file (Some file)
              | Err _ => wake_poll clock;; return_ NoWork
              end
          end
      end
  end.

Definition flush_lines : proc FileTailerComponent unit :=
  while (fun f => S (length (tl_pending_lines (fr_self f))))
    (fun f => (0 <? remaining_budget (fr_ctx f))%N
              && negb (bool_decide (tl_pending_lines (fr_self f) = [])))
    (p ← read tl_l_pending_lines;
     match head p with
     | Some line =>
         r ← send tl_l_out (from_bytes line);
         match r with
         | Ok _ => write tl_l_pending_lines (tail p);; work 1;; charge 1
         | Err _ => break
         end
     | None => mret tt
     end).

(** New lines, as long as the budget lasts: every iteration that goes on uses
    a unit of it. *)
Definition read_lines : proc FileTailerComponent unit :=
  while (fun f => S (N.to_nat (remaining_budget (fr_ctx f))))
    (fun f => (0 <? remaining_budget (fr_ctx f))%N)
    (zoom tl_l_signals (poll message_as_utf8);;
     file ← read tl_l_file;
     match file with
     | None => break
     | Some file =>
         let '(res, file) := tailed_file_read file in
         write tl_l_file (Some file);;
         match res with
         | Ok [] => break
         | Ok lines =>
             r ← send tl_l_out (from_bytes lines);
             match r with
             | Ok _ => work 1;; charge 1
             | Err returned =>
                 p ← read tl_l_pending_lines;
                 write tl_l_pending_lines (p ++ [default [] (as_bytes returned)]);;
                 work 1;; charge 1
             end
         | Err _ => break
         end
     end).

Definition file_tailer_process : proc FileTailerComponent ProcessResult :=
  open_tailed;;
  zoom tl_l_signals (poll message_as_utf8);;
  flush_lines;;
  read_lines;;
  w ← work_units;
  if (0 <? w)%N then mret (DidWork w) else wake_poll clock;; mret NoWork.

#[export] Instance keeps_file_tailer : Keeps file_tailer_process.
Proof. unfold file_tailer_process, open_tailed, flush_lines, read_lines. apply _. Qed.
Definition file_tailer_component := component_of file_tailer_process.

(** * FileWriter *)

Record FileWriterComponent : Type := mk_FileWriterComponent {
  wr_conf : ring;
  wr_inn : ring;
  wr_signals_in : sync_channel;
  wr_signals_out : sync_channel;
  wr_filename : option string;
  wr_writer_tx : option (mpsc (list byte));
  wr_writer_result_rx : option (mpsc (result unit string));
  wr_pending_writes : list (list byte);
  wr_scheduler_waker : option SchedulerWaker
}.

Definition new_file_writer `{MultiMapLib ring} (inports : multimap ring)
    (signals_in signals_out : sync_channel) (scheduler_waker : option SchedulerWaker) :
    outcome FileWriterComponent :=
  let* (conf, inports) := take_port "CONF" inports in
  let* (inn, inports) := take_port "IN" inports in
  Done (mk_FileWriterComponent conf inn signals_in signals_out None None None [] scheduler_waker).

Definition wr_l_conf : lens FileWriterComponent ring := mk_lens wr_conf
  (fun x c => mk_FileWriterComponent x (wr_inn c) (wr_signals_in c) (wr_signals_out c) (wr_filename c)
                (wr_writer_tx c) (wr_writer_result_rx c) (wr_pending_writes c) (wr_scheduler_waker c)).
Definition wr_l_inn : lens FileWriterComponent ring := mk_lens wr_inn
  (fun x c => mk_FileWriterComponent (wr_conf c) x (wr_signals_in c) (wr_signals_out c) (wr_filename c)
                (wr_writer_tx c) (wr_writer_result_rx c) (wr_pending_writes c) (wr_scheduler_waker c)).
Definition wr_l_signals : lens FileWriterComponent Signals := mk_lens
  (fun c => mk_Signals (wr_signals_in c) (wr_signals_out c))
  (fun x c => mk_FileWriterComponent (wr_conf c) (wr_inn c) (sig_in x) (sig_out x) (wr_filename c)
                (wr_writer_tx c) (wr_writer_result_rx c) (wr_pending_writes c) (wr_scheduler_waker c)).
Definition wr_l_filename : lens FileWriterComponent (option string) := mk_lens wr_filename
  (fun x c => mk_FileWriterComponent (wr_conf c) (wr_inn c) (wr_signals_in c) (wr_signals_out c) x
                (wr_writer_tx c) (wr_writer_result_rx c) (wr_pending_writes c) (wr_scheduler_waker c)).
Definition wr_l_writer_tx : lens FileWriterComponent (option (mpsc (list byte))) := mk_lens wr_writer_tx
  (fun x c => mk_FileWriterComponent (wr_conf c) (wr_inn c) (wr_signals_in c) (wr_signals_out c)
                (wr_filename c) x (wr_writer_result_rx c) (wr_pending_writes c) (wr_scheduler_waker c)).
Definition wr_l_writer_result_rx : lens FileWriterComponent (option (mpsc (result unit string))) :=
  mk_lens wr_writer_result_rx
  (fun x c => mk_FileWriterComponent (wr_conf c) (wr_inn c) (wr_signals_in c) (wr_signals_out c)
                (wr_filename c) (wr_writer_tx c) x (wr_pending_writes c) (wr_scheduler_waker c)).
Definition wr_l_pending_writes : lens FileWriterComponent (list (list byte)) := mk_lens wr_pending_writes
  (fun x c => mk_FileWriterComponent (wr_conf c) (wr_inn c) (wr_signals_in c) (wr_signals_out c)
                (wr_filename c) (wr_writer_tx c) (wr_writer_result_rx c) x (wr_scheduler_waker c)).

(** The name of the file, and the thread that writes it. *)
Definition open_writer : proc FileWriterComponent unit :=
  filename ← read wr_l_filename;
  tx ← read wr_l_writer_tx;
  if is_none filename || is_none tx then
    msg ← pop wr_l_conf;
    match msg with
    | None => return_ NoWork
    | Some msg =>
        match as_text msg with
        | None => panic
        | Some name =>
            write wr_l_filename (Some name);;
            write wr_l_writer_tx (Some (mpsc_sync_channel PROCESSEDGE_BUFSIZE));;
            write wr_l_writer_result_rx (Some channel);;
            work 1
        end
    end
  else mret tt.

(** [while let Ok(result) = result_rx.try_recv()]: the results are counted, the
    errors only logged. *)
Definition drain_results : proc FileWriterComponent unit :=
  rx ← read wr_l_writer_result_rx;
  match rx with
  | Some rx =>
      write wr_l_writer_result_rx (Some (with_items [] rx));;
      work (N.of_nat (length (mp_items rx)))
  | None => mret tt
  end.

(** The bytes that are written for a packet. *)
Definition payload (ip : FbpMessage) : list byte := default [] (as_bytes ip).

(** All packets of the inport, whatever the budget. *)
Definition take_packets : proc FileWriterComponent unit :=
  inn ← read wr_l_inn;
  chunk ← read_chunk wr_l_inn (ring_slots inn);
  match chunk with
  | Some chunk => p ← read wr_l_pending_writes; write wr_l_pending_writes (p ++ map payload chunk)
  | None => mret tt
  end.

Definition hand_over : proc FileWriterComponent unit :=
  while (fun f => S (length (wr_pending_writes (fr_self f))))
    (fun f => (0 <? remaining_budget (fr_ctx f))%N
              && negb (bool_decide (wr_pending_writes (fr_self f) = [])))
    (tx ← read wr_l_writer_tx;
     p ← read wr_l_pending_writes;
     match tx with
     | None => break
     | Some tx =>
         match p with
         | [] => break
         | packet :: rest =>
             let '(res, tx) := mpsc_try_send packet tx in
             match res with
             | Posted =>
                 write wr_l_writer_tx (Some tx);; write wr_l_pending_writes rest;; work 1;; charge 1
             | PostFull => break
             | PostDisconnected => write wr_l_writer_tx None;; break
             end
         end
     end).

Definition file_writer_process : proc FileWriterComponent ProcessResult :=
  open_writer;;
  zoom wr_l_signals (poll message_as_utf8);;
  drain_results;;
  take_packets;;
  hand_over;;
  abandoned ← is_abandoned wr_l_inn;
  p ← read wr_l_pending_writes;
  if abandoned && bool_decide (p = []) then return_ Finished
  else w ← work_units; mret (result_of_work w).

#[export] Instance keeps_file_writer : Keeps file_writer_process.
Proof. unfold file_writer_process, open_writer, drain_results, take_packets, hand_over. apply _. Qed.
Definition file_writer_component := component_of file_writer_process.

(** ** The thread that writes

    Its phases: not yet started; the file is open, [written] is in it and
    [buffered] in the [BufWriter], which is what an error has left there; it has
    returned, and its ends of the channels are gone. *)
Inductive WriterPhase : Type :=
| WriterStarting
| WriterOpen (written buffered : list byte)
| WriterEnded (written : list byte).

Record WriterThread : Type := mk_WriterThread {
  wt_phase : WriterPhase;
  wt_data : mpsc (list byte);
  wt_results : mpsc (result unit string)
}.

(** [result_tx.send(r)] (nobody waits for it in vain). *)
Definition report (r : result unit string) (th : WriterThread) : WriterThread :=
  mk_WriterThread (wt_phase th) (wt_data th) (mpsc_try_send r (wt_results th)).2.
Definition at_phase (p : WriterPhase) (th : WriterThread) : WriterThread :=
  mk_WriterThread p (wt_data th) (wt_results th).
(** The thread returns and drops its ends. *)
Definition writer_ends (written : list byte) (th : WriterThread) : WriterThread :=
  mk_WriterThread (WriterEnded written) (drop_receiver (wt_data th)) (drop_sender (wt_results th)).

(** What the file system answers: to [File::create], and to [write_all] and
    [flush], of which a failure has written [part] and left [rest] in the
    buffer. *)
Inductive FsAnswer : Type :=
| FsOk
| FsError (e : string) (part rest : list byte).

(** One turn of the thread; [None]: it waits for a packet. *)
Definition writer_turn (answer : FsAnswer) (th : WriterThread) : option WriterThread :=
  match wt_phase th with
  | WriterStarting =>
      match answer with
      | FsOk => Some (report (Ok tt) (at_phase (WriterOpen [] []) th))
      | FsError e _ _ => Some (writer_ends [] (report (Err e) th))
      end
  | WriterOpen written buffered =>
      match mpsc_try_recv (wt_data th) with
      | (Received packet, data) =>
          let th := mk_WriterThread (wt_phase th) data (wt_results th) in
          match answer with
          | FsOk => Some (report (Ok tt) (at_phase (WriterOpen (written ++ buffered ++ packet) []) th))
          | FsError e part rest => Some (report (Err e) (at_phase (WriterOpen (written ++ part) rest) th))
          end
      | (RecvEmpty, _) => None
      | (RecvDisconnected, _) =>
          (* the buffer is written when it is dropped *)
          match answer with
          | FsOk => Some (writer_ends (written ++ buffered) th)
          | FsError _ part _ => Some (writer_ends (written ++ part) th)
          end
      end
  | WriterEnded _ => None
  end.

(** ** A writer between its producer and its thread

    [wn_thread] is the thread, once there is one; [wn_given] what the producer
    has sent so far; [wn_failed] whether the file system has failed;
    [wn_dropped] whether the component has finished and been dropped, and the
    sender of its channel with it. *)
Record WriterRun : Type := mk_WriterRun {
  wn_writer : FileWriterComponent;
  wn_thread : option WriterPhase;
  wn_given : list FbpMessage;
  wn_failed : bool;
  wn_dropped : bool
}.

(** A call that makes a channel starts a thread. *)
Definition thread_after (c c' : FileWriterComponent) (th : option WriterPhase) : option WriterPhase :=
  match wr_writer_tx c, wr_writer_tx c' with None, Some _ => Some WriterStarting | _, _ => th end.
Definition dropped_after (r : ProcessResult) (c : FileWriterComponent) : FileWriterComponent :=
  match r with
  | Finished => set wr_l_writer_tx (drop_sender <$> wr_writer_tx c) c
  | _ => c
  end.
Definition is_finished (r : ProcessResult) : bool := match r with Finished => true | _ => false end.
Definition is_fs_ok (a : FsAnswer) : bool := match a with FsOk => true | FsError _ _ _ => false end.

Inductive writer_step : WriterRun -> WriterRun -> Prop :=
| writer_called c th given failed ctx f r :
    call file_writer_process c ctx = Some (f, Some r) ->
    writer_step (mk_WriterRun c th given failed false)
      (mk_WriterRun (dropped_after r (fr_self f)) (thread_after c (fr_self f) th) given failed (is_finished r))
| writer_turned c p data results th' given failed dropped answer :
    wr_writer_tx c = Some data -> wr_writer_result_rx c = Some results ->
    writer_turn answer (mk_WriterThread p data results) = Some th' ->
    writer_step (mk_WriterRun c (Some p) given failed dropped)
      (mk_WriterRun (set wr_l_writer_tx (Some (wt_data th'))
                       (set wr_l_writer_result_rx (Some (wt_results th')) c))
         (Some (wt_phase th')) given (failed || negb (is_fs_ok answer)) dropped)
| writer_fed c th given failed dropped m r' :
    ring_is_abandoned (wr_inn c) = false -> ring_push m (wr_inn c) = (Ok tt, r') ->
    writer_step (mk_WriterRun c th given failed dropped)
      (mk_WriterRun (set wr_l_inn r' c) th (given ++ [m]) failed dropped)
| writer_closed c th given failed dropped :
    writer_step (mk_WriterRun c th given failed dropped)
      (mk_WriterRun (set wr_l_inn (ring_drop_producer (wr_inn c)) c) th given failed dropped)
| writer_configured c th given failed dropped m r' :
    ring_push m (wr_conf c) = (Ok tt, r') ->
    writer_step (mk_WriterRun c th given failed dropped)
      (mk_WriterRun (set wr_l_conf r' c) th given failed dropped)
| writer_pinged c th given failed dropped m sin :
    ~ is_stop message_as_utf8 m -> try_send m (wr_signals_in c) = (Ok tt, sin) ->
    writer_step (mk_WriterRun c th given failed dropped)
      (mk_WriterRun (set wr_l_signals (mk_Signals sin (wr_signals_out c)) c) th given failed dropped).

(** A writer before anything has happened. *)
Definition writer_untouched (s : WriterRun) : Prop :=
  let c := wn_writer s in
  wr_writer_tx c = None /\ wr_writer_result_rx c = None /\ wr_pending_writes c = [] /\
  ring_items (wr_inn c) = [] /\ sc_items (wr_signals_in c) = [] /\
  wn_thread s = None /\ wn_given s = [] /\ wn_failed s = false /\ wn_dropped s = false.

(** What has been written to the file, or at least to the buffer. *)
Definition file_of (th : option WriterPhase) : list byte :=
  match th with
  | Some (WriterOpen written buffered) => written ++ buffered
  | Some (WriterEnded written) => written
  | _ => []
  end.
End tailer.
