(* ===== verification/FilesTheorems.v ===== *)
(** What is proved about the file components: FileReader sends the contents of
    every file it is given, once and in order; FileWriter writes the bytes of
    every packet, once and in order, and what that makes of packets that are
    texts. *)
From S2P Require Import Prelude Api Scheduler Process Pipes PipesTheorems Sinks SinksTheorems Io Files.
From Stdlib Require Strings.String.
From Stdlib Require Import NArith ZArith Lia Strings.Byte.
From stdpp Require Import base list strings gmap.
Local Open Scope string_scope.
Local Open Scope list_scope.

Section reader.
Context `{R : Rtrb}.
(** The files, which do not change. *)
Variable fs_read : string -> result (list byte) string.
Implicit Types (c : FileReaderComponent) (f : frame FileReaderComponent).

(** The path a name stands for, and the packets for some names; a file that
    cannot be read has none. *)
Definition path_of (name : FbpMessage) : string := default "" (file_message_as_utf8 name).
Definition file_packet (name : FbpMessage) : option FbpMessage :=
  match fs_read (path_of name) with Ok bs => Some (content_message bs) | Err _ => None end.
Definition file_packets (names : list FbpMessage) : list FbpMessage := omap file_packet names.

Lemma file_packets_app l1 l2 : file_packets (l1 ++ l2) = file_packets l1 ++ file_packets l2.
Proof. apply omap_app. Qed.

(** What is behind the outport, what waits for room, and what is still to be
    read, in the order in which it is sent. *)
Definition reader_flow c : list FbpMessage :=
  sink_items (rd_out c) ++ rd_pending_files c ++ file_packets (rd_filenames c ++ ring_items (rd_conf c)).

(** A read under way is that of the first name, and has not been answered or
    has been answered by the file system. *)
Definition answered (rd : FileRead) : Prop :=
  fd_result rd = channel \/ fd_result rd = drop_sender (with_items [fs_read (fd_path rd)] channel).
Definition read_ok c : Prop :=
  match rd_pending_read c with
  | None => True
  | Some rd => answered rd /\ exists name names, rd_filenames c = name :: names /\ fd_path rd = path_of name
  end.

(** How far the reader is from having nothing to do. *)
Definition reads_left c : nat :=
  4 * length (rd_filenames c ++ ring_items (rd_conf c)) + length (rd_pending_files c) +
  match rd_pending_read c with
  | None => 2
  | Some rd => if bool_decide (mp_items (fd_result rd) = []) then 1 else 0
  end.

Record reading c0 f : Prop := mk_reading {
  rg_flow : reader_flow (fr_self f) = reader_flow c0;
  rg_ok : read_ok (fr_self f);
  rg_abandoned : ring_is_abandoned (rd_conf (fr_self f)) = ring_is_abandoned (rd_conf c0);
  rg_signals : polled (get rd_l_signals c0) (get rd_l_signals (fr_self f));
  rg_finished : rd_finished (fr_self f) = false;
  rg_cap : ring_cap (pes_sink (rd_out (fr_self f))) = ring_cap (pes_sink (rd_out c0));
  rg_left : (reads_left (fr_self f) <= reads_left c0)%nat;
  rg_idle : fr_work f = 0%N -> rd_filenames (fr_self f) = [] -> ring_items (rd_conf (fr_self f)) = []
}.

(** With budget and room, a call gets something done or is in [P]. *)
Definition eager c0 (b0 : N) (P : frame FileReaderComponent -> Prop) f : Prop :=
  (0 < b0)%N -> (0 < room (rd_out c0))%nat -> (reads_left (fr_self f) < reads_left c0)%nat \/ P f.

(** Nothing has been sent yet. *)
Definition unsent c0 (b0 : N) f : Prop :=
  rd_out (fr_self f) = rd_out c0 /\ remaining_budget (fr_ctx f) = b0 /\ fr_work f = 0%N.

Lemma wp_read_names c0 (Q : unit -> frame FileReaderComponent -> Prop) E ctx :
  read_ok c0 -> rd_finished c0 = false ->
  (forall f, reading c0 f -> unsent c0 (remaining_budget ctx) f -> Q tt f) ->
  wp read_names Q E (mk_frame c0 ctx 0 [] 0).
Proof.
  intros Hok Hfin HQ. apply wp_while_once; simpl; [lia| |].
  - intros Hne%bool_decide_eq_false. apply HQ; [|done]. split; try done. apply polled_refl.
  - intros He%bool_decide_eq_true. wp_run. apply wp_pop; simpl.
    + intros Hempty r [Hr _ Ha]. wp_run. apply HQ; [|done]. rewrite drop_0 in Hr.
      split; simpl; try done; [|apply polled_refl| |by rewrite Hr].
      * unfold reader_flow. simpl. by rewrite Hr.
      * unfold reads_left. simpl. by rewrite Hr.
    + intros m rest r Hi [Hr _ Ha]. wp_run. rewrite He. split; [done|].
      rewrite Hi in Hr. simpl in Hr. rewrite drop_0 in Hr.
      apply HQ; [|done]. split; simpl; try done; [| |apply polled_refl|].
      * unfold reader_flow. simpl. by rewrite Hr, He, Hi.
      * unfold read_ok in *. simpl in *. destruct (rd_pending_read c0); [|done].
        destruct Hok as (_ & ? & ? & Hn & _). congruence.
      * unfold reads_left. simpl. by rewrite Hr, He, Hi.
Qed.

Lemma wp_reader_poll c0 b0 f (Q : unit -> frame FileReaderComponent -> Prop) (E : exit -> _ -> Prop) :
  reading c0 f -> unsent c0 b0 f -> (forall f, reading c0 f -> unsent c0 b0 f -> Q tt f) ->
  (forall f, reading c0 f -> ~ no_stop file_message_as_utf8 (get rd_l_signals c0) -> E (Return Finished) f) ->
  wp (zoom rd_l_signals (poll file_message_as_utf8)) Q E f.
Proof.
  intros Hrg Hun HQ HE.
  assert (forall s, polled (get rd_l_signals (fr_self f)) s ->
    reading c0 (with_self (set rd_l_signals s (fr_self f)) f)) as Hrg'.
  { intros [sin sout] Hs. destruct Hrg as [Hf Ho Ha Hp Hfi Hc Hl Hi]. split; simpl; try done.
    by eapply polled_trans. }
  apply wp_zoom, wp_poll; simpl.
  - intros _ s Hs. apply HQ; [by apply Hrg'|done].
  - intros Hstop s Hs. apply HE; [by apply Hrg'|]. intros Hns. apply stop_next_stop in Hstop. apply Hstop.
    destruct Hrg as [_ _ _ Hp _ _ _ _]. by eapply polled_no_stop.
Qed.

(** What waits can only wait because there is no room or no budget. *)
Definition flushed_out f : Prop :=
  (0 < remaining_budget (fr_ctx f))%N -> rd_pending_files (fr_self f) = [] \/ room (rd_out (fr_self f)) = 0%nat.

Lemma wp_reader_flush c0 b0 f (Q : unit -> frame FileReaderComponent -> Prop) E :
  reading c0 f -> unsent c0 b0 f ->
  (forall f, reading c0 f -> flushed_out f ->
     eager c0 b0 (fun f => rd_pending_files (fr_self f) = [] /\ (0 < remaining_budget (fr_ctx f))%N /\ fr_work f = 0%N) f -> Q tt f) ->
  wp (zoom rd_l_box flush) Q E f.
Proof.
  intros Hrg (Ho & Hb0 & Hw0) HQ. apply wp_zoom, wp_flush; simpl. intros o es Hsent _.
  pose proof (sent_room _ _ _ _ Hsent) as Hroom. rewrite length_take in Hroom. destruct Hsent as [Hs Hcap _ _ _].
  set (n := movable _ _ _) in *. destruct Hrg as [Hf Hok Ha Hp Hfin Hc Hl Hi]. apply HQ.
  - split; simpl; try done.
    + rewrite <- Hf. unfold reader_flow. simpl. rewrite Hs, <- app_assoc. f_equal.
      by rewrite app_assoc, take_drop.
    + by rewrite Hcap.
    + unfold reads_left in *. simpl. rewrite length_drop. lia.
    + intros Hw. apply Hi. lia.
  - unfold flushed_out; simpl. intros Hb.
    destruct (decide (room o = 0%nat)); [by right|left]. apply drop_ge. subst n. movable_lia.
  - unfold eager; simpl. rewrite <- Ho. intros Hb Hr. unfold reads_left in *; simpl. rewrite length_drop.
    destruct (decide (n = 0%nat)) as [Hn|]; [right|left; subst n; movable_lia].
    rewrite Hn, drop_0. split; [|split; lia]. apply nil_length_inv. subst n. movable_lia.
Qed.

Lemma wp_start_read c0 b0 f (Q : unit -> frame FileReaderComponent -> Prop) E :
  reading c0 f -> flushed_out f ->
  eager c0 b0 (fun f => rd_pending_files (fr_self f) = [] /\ (0 < remaining_budget (fr_ctx f))%N /\ fr_work f = 0%N) f ->
  (forall f, reading c0 f -> flushed_out f ->
     eager c0 b0 (fun f => ((0 < remaining_budget (fr_ctx f))%N /\ fr_work f = 0%N) /\ rd_pending_files (fr_self f) = [] /\
       (is_Some (rd_pending_read (fr_self f)) \/ rd_filenames (fr_self f) = [])) f -> Q tt f) ->
  wp start_read Q E f.
Proof.
  intros Hrg Hfl Hea HQ. unfold start_read. wp_run.
  assert (forall P, (is_Some (rd_pending_read (fr_self f)) \/ rd_filenames (fr_self f) = []) -> P = Q tt f -> P) as Hend.
  { intros P H ->. apply HQ; try done. intros Hb Hr. destruct (Hea Hb Hr) as [|(? & ? & ?)]; auto. }
  destruct (rd_pending_read (fr_self f)) eqn:Hrd; [wp_run; eapply Hend; [by left|done]|].
  destruct (rd_filenames (fr_self f)) as [|name names] eqn:Hn; [wp_run; eapply Hend; [by right|done]|].
  wp_run. destruct Hrg as [Hf Hok Ha Hp Hfin Hc Hl Hi]. unfold reads_left in Hl. rewrite Hrd in Hl.
  apply HQ; [|done|].
  - split; simpl; try done; [|unfold reads_left; simpl; lia].
    unfold read_ok; simpl. split; [by left|]. exists name, names. done.
  - intros Hb Hr. left. unfold reads_left. simpl. destruct (Hea Hb Hr) as [|(? & ? & ?)]; unfold reads_left in *; lia.
Qed.

Lemma wp_end_read c0 f name names (Q : unit -> frame FileReaderComponent -> Prop) E :
  rd_filenames (fr_self f) = name :: names -> (0 < remaining_budget (fr_ctx f))%N ->
  sink_items (rd_out (fr_self f)) ++ rd_pending_files (fr_self f) ++
    file_packets (names ++ ring_items (rd_conf (fr_self f))) = reader_flow c0 ->
  ring_is_abandoned (rd_conf (fr_self f)) = ring_is_abandoned (rd_conf c0) ->
  polled (get rd_l_signals c0) (get rd_l_signals (fr_self f)) -> rd_finished (fr_self f) = false ->
  ring_cap (pes_sink (rd_out (fr_self f))) = ring_cap (pes_sink (rd_out c0)) ->
  (4 * length (names ++ ring_items (rd_conf (fr_self f))) + length (rd_pending_files (fr_self f)) + 2 <
    reads_left c0)%nat ->
  (forall f, reading c0 f -> (reads_left (fr_self f) < reads_left c0)%nat -> Q tt f) -> wp end_read Q E f.
Proof.
  intros Hn Hb Hflow Ha Hp Hfin Hc Hl HQ. unfold end_read. wp_run. apply HQ; rewrite Hn; [|done].
  split; simpl; try done; [unfold reads_left at 1; simpl; lia|]. intros Hw. lia.
Qed.

(** A read has been started and not been answered. *)
Definition awaiting c : Prop := exists rd, rd_pending_read c = Some rd /\ fd_result rd = channel.
Definition all_read c : Prop :=
  rd_filenames c = [] /\ ring_items (rd_conf c) = [] /\ rd_pending_files c = [] /\ rd_pending_read c = None.

Lemma wp_complete_read c0 b0 f (Q : unit -> frame FileReaderComponent -> Prop) E :
  reading c0 f -> flushed_out f ->
  eager c0 b0 (fun f => ((0 < remaining_budget (fr_ctx f))%N /\ fr_work f = 0%N) /\ rd_pending_files (fr_self f) = [] /\
       (is_Some (rd_pending_read (fr_self f)) \/ rd_filenames (fr_self f) = [])) f ->
  (forall f, reading c0 f -> eager c0 b0 (fun f => (rd_pending_files (fr_self f) = [] /\ fr_work f = 0%N) /\
     (awaiting (fr_self f) \/ rd_filenames (fr_self f) = [] /\ rd_pending_read (fr_self f) = None)) f -> Q tt f) ->
  wp complete_read Q E f.
Proof.
  intros Hrg Hfl Hea HQ. unfold complete_read. wp_run.
  destruct (N.ltb_spec 0 (remaining_budget (fr_ctx f))) as [Hb|].
  2: { wp_run. apply HQ; [done|]. intros H1 H2. destruct (Hea H1 H2) as [|[[] _]]; [by left|lia]. }
  specialize (Hfl Hb). wp_run. pose proof Hrg as [Hflow Hok Ha Hp Hfin Hc Hl _]. unfold read_ok in Hok.
  destruct (rd_pending_read (fr_self f)) as [rd|] eqn:Hrd.
  2: { wp_run. apply HQ; [done|]. intros H1 H2. destruct (Hea H1 H2) as [|([_ ?] & Hpe & [[]|])]; auto; congruence. }
  destruct Hok as [Hans (name & names & Hn & Hpath)].
  unfold reader_flow at 1 in Hflow. rewrite Hn in Hflow. simpl in Hflow. unfold file_packet in Hflow.
  unfold reads_left at 1 in Hl. rewrite Hn, Hrd in Hl. simpl in Hl. rewrite <- Hpath in Hflow.
  destruct Hans as [Hch|Hch]; rewrite Hch in *; simpl in *; wp_run.
  - replace (mk_FileRead (fd_path rd) channel) with rd by (by destruct rd; simpl in *; subst).
    replace (mk_frame _ _ _ _ _) with f by (destruct f as [[] ? ? ? ?]; simpl in *; by subst).
    apply HQ; [done|]. intros H1 H2. destruct (Hea H1 H2) as [|([_ ?] & Hpe & _)]; [by left|right]. split; [done|].
    left. by exists rd.
  - destruct (fs_read (fd_path rd)) as [bs|e]; simpl in *.
    + wp_run. apply wp_zoom, wp_send_or_keep; simpl; [|done]. intros o q es Hoq Hlen Hcap _.
      eapply (wp_end_read c0); simpl; try done; [|by rewrite Hcap|lia|intros; apply HQ; [done|by left]].
      rewrite app_assoc, Hoq, <- Hflow. by rewrite <- !app_assoc.
    + eapply (wp_end_read c0); try done; [simpl; lia|intros; apply HQ; [done|by left]].
Qed.

(** What a call of FileReader does to the flow of packets. *)
Record reader_call c (b : N) (r : ProcessResult) c' : Prop := mk_reader_call {
  rcl_flow : reader_flow c' = reader_flow c;
  rcl_ok : read_ok c';
  rcl_finished : no_stop file_message_as_utf8 (get rd_l_signals c) -> r = Finished -> rd_finished c' = true;
  rcl_all_read : rd_finished c' = true -> all_read c';
  rcl_eof : rd_finished c' = true -> rd_finished c = true \/ ring_is_abandoned (rd_conf c) = true;
  rcl_abandoned : ring_is_abandoned (rd_conf c') = ring_is_abandoned (rd_conf c);
  rcl_signals : polled (get rd_l_signals c) (get rd_l_signals c');
  rcl_cap : ring_cap (pes_sink (rd_out c')) = ring_cap (pes_sink (rd_out c));
  rcl_le : (reads_left c' <= reads_left c)%nat;
  rcl_left : no_stop file_message_as_utf8 (get rd_l_signals c) -> (0 < b)%N -> (0 < room (rd_out c))%nat ->
    (reads_left c' < reads_left c)%nat \/ awaiting c' \/ all_read c' /\ (ring_is_abandoned (rd_conf c) = true -> r = Finished)
}.

Lemma file_reader_call (clock : nat -> Instant) c ctx :
  read_ok c -> (rd_finished c = true -> all_read c) ->
  exists f r, call (file_reader_process clock) c ctx = Some (f, Some r) /\
    reader_call c (remaining_budget ctx) r (fr_self f).
Proof.
  intros Hok Hdone. apply wp_returns. unfold file_reader_process. wp_run.
  destruct (rd_finished c) eqn:Hfin.
  { wp_run. specialize (Hdone eq_refl). split; auto using polled_refl. }
  clear Hdone. apply wp_bind. apply (wp_read_names c); [done..|]. intros f0 Hrg0 Hun.
  wp_run. apply (wp_reader_poll c (remaining_budget ctx)); [done..| |].
  2: { intros f [Hf Ho Ha Hp Hfi Hc Hl _] Hstop. split; try done; congruence. }
  clear f0 Hrg0 Hun. intros f Hrg Hun. wp_run. apply (wp_reader_flush c (remaining_budget ctx)); [done..|].
  clear f Hrg Hun. intros f Hrg Hfl Hea. wp_run. apply (wp_start_read c (remaining_budget ctx)); [done..|].
  clear f Hrg Hfl Hea. intros f Hrg Hfl Hea. wp_run. apply (wp_complete_read c (remaining_budget ctx)); [done..|].
  clear f Hrg Hfl Hea. intros f [Hf Ho Ha Hp Hfi Hc Hl Hi] Hea. wp_run.
  destruct (N.ltb_spec 0 (fr_work f)) as [Hw|Hw]; wp_run.
  { split; try done; [congruence..|]. intros _ H1 H2. destruct (Hea H1 H2) as [|([_ ?] & _)]; [auto|lia]. }
  specialize (Hi ltac:(lia)). apply wp_is_abandoned. wp_run.
  destruct (_ && is_none _) eqn:Hend; wp_run.
  - rewrite !andb_true_iff, !bool_decide_eq_true in Hend. destruct Hend as [[[Hn Hab] Hpe] Hrd].
    rewrite Ha in Hab.
    assert (all_read (fr_self f)) by (split_and!; auto; by destruct (rd_pending_read (fr_self f))).
    split; simpl; auto.
  - apply wp_wake_poll. wp_run. split; simpl; try done; [congruence..|]. intros _ H1 H2.
    destruct (Hea H1 H2) as [|([Hpe _] & [|[Hn Hrd]])]; auto. right; right. split; [split_and!; auto|].
    rewrite <- Ha. intros Hab. by rewrite Hn, Hab, Hpe, Hrd in Hend.
Qed.

(** ** Along a run *)


Record reader_inv (s : ReaderRun) : Prop := mk_reader_inv {
  ri_flow : rr_got s ++ reader_flow (rr_reader s) = file_packets (rr_given s);
  ri_ok : read_ok (rr_reader s);
  ri_finished : rd_finished (rr_reader s) = true -> all_read (rr_reader s) /\
    ring_is_abandoned (rd_conf (rr_reader s)) = true
}.

Lemma reader_step_inv s s' : reader_inv s -> reader_step fs_read s s' -> reader_inv s'.
Proof.
  intros [Hflow Hok Hfin] Hs. inversion Hs as [times c given got ctx f r Hcall|c given got rd Hrd Htx|
    c given got m r' Hab Hpush|c given got|c given got m r' Hpop|c given got m sin Hsend]; subst; simpl in *.
  - destruct (file_reader_call times c ctx Hok) as (f' & r2 & Hcall' & [Hf Ho _ Har He Ha _ _ _ _]).
    { intros H. by apply Hfin. }
    rewrite Hcall in Hcall'. simplify_eq. split; simpl; [congruence|done|].
    intros H. rewrite Ha. split; [by apply Har|]. destruct (He H) as [H'|]; [by apply Hfin|done].
  - split; simpl; [done| |].
    + unfold read_ok in *. rewrite Hrd in Hok. destruct Hok as [Hans Hn]. simpl. split; [|done].
      unfold answered in *. simpl. destruct Hans as [-> | Hd]; [by right|]. rewrite Hd in Htx. done.
    + intros [[_ [_ [_ ?]]] _]%Hfin. congruence.
  - pose proof (ring_push_items m (rd_conf c)) as Hi. pose proof (ring_push_res m (rd_conf c)) as Hres.
    pose proof (ring_push_abandoned m (rd_conf c)) as Hab'. rewrite Hpush in Hi, Hres, Hab'. simpl in *.
    destruct (_ <? _)%nat; [|done]. split; simpl; [|done|].
    + unfold reader_flow in *. simpl. rewrite Hi.
      by rewrite (file_packets_app given), <- Hflow, (app_assoc (rd_filenames c)), file_packets_app, <- !app_assoc.
    + intros [_ H]%Hfin. congruence.
  - split; simpl; [|done|].
    + unfold reader_flow in *. simpl. by rewrite ring_drop_producer_items.
    + intros [(? & ? & ? & ?) _]%Hfin. rewrite ring_drop_producer_abandoned. split; [|done].
      split_and!; simpl; try done. by rewrite ring_drop_producer_items.
  - pose proof (ring_pop_items (pes_sink (rd_out c))) as Hi. pose proof (ring_pop_res (pes_sink (rd_out c))) as Hr.
    rewrite Hpop in Hi, Hr. simpl in *. split; simpl; [|done|done].
    rewrite <- Hflow. unfold reader_flow. simpl. unfold sink_items. simpl.
    destruct (ring_items (pes_sink (rd_out c))) as [|m0 rest]; [done|]. simpl in *. injection Hr as <-.
    by rewrite Hi, <- app_assoc.
  - by split.
Qed.

Lemma reader_untouched_inv s : reader_untouched s -> reader_inv s.
Proof.
  intros (Hc & Ho & Hn & Hp & Hr & Hf & Hg & Hgot). split.
  - unfold reader_flow. by rewrite Hc, Ho, Hn, Hp, Hg, Hgot.
  - unfold read_ok. by rewrite Hr.
  - congruence.
Qed.

Lemma reader_reachable_inv s0 s : reader_untouched s0 -> rtc (reader_step fs_read) s0 s -> reader_inv s.
Proof.
  intros H0%reader_untouched_inv Hr. induction Hr; [done|]. eauto using reader_step_inv.
Qed.

(** C24: whatever the order in which FileReader is called, its threads answer,
    names arrive and packets are taken, whatever budgets and signals it gets:
    what the consumer has received, what is on its way and what is still to be
    read are together the contents of the files that were named, each once and
    in the order of the names, less the files that cannot be read; and once the
    reader has come to its end nothing is left but what is in the ring behind
    it. *)
Theorem file_reader_delivers s0 s :
  reader_untouched s0 -> rtc (reader_step fs_read) s0 s ->
  rr_got s ++ reader_flow (rr_reader s) = file_packets (rr_given s) /\
  (rd_finished (rr_reader s) = true ->
   rr_got s ++ sink_items (rd_out (rr_reader s)) = file_packets (rr_given s)).
Proof.
  intros H0 Hr. destruct (reader_reachable_inv s0 s H0 Hr) as [Hflow Hok Hfin]. split; [done|].
  intros [(Hn & Hc & Hp & _) _]%Hfin. rewrite <- Hflow. unfold reader_flow.
  by rewrite Hn, Hc, Hp, !app_nil_r.
Qed.

(** ** To the end of a run *)

Lemma drain_sink c given got :
  exists o', rtc (reader_step fs_read) (mk_ReaderRun c given got)
    (mk_ReaderRun (set rd_l_box (mk_Outbox o' (rd_pending_files c)) c) given (got ++ sink_items (rd_out c))) /\
    sink_items o' = [] /\ ring_cap (pes_sink o') = ring_cap (pes_sink (rd_out c)).
Proof.
  remember (sink_items (rd_out c)) as ms eqn:Hms. revert c got Hms.
  induction ms as [|m ms IH]; intros c got Hms.
  - exists (rd_out c). rewrite app_nil_r. split; [|done]. destruct c; apply rtc_refl.
  - unfold sink_items in Hms. pose proof (ring_pop_items (pes_sink (rd_out c))) as Hi.
    pose proof (ring_pop_res (pes_sink (rd_out c))) as Hr. pose proof (ring_pop_cap (pes_sink (rd_out c))) as Hc.
    destruct (ring_pop (pes_sink (rd_out c))) as [res r'] eqn:Hpop. rewrite <- Hms in Hi, Hr. simpl in *. subst res.
    destruct (IH (set rd_l_box (mk_Outbox (set_sink r' (rd_out c)) (rd_pending_files c)) c) (got ++ [m]))
      as (o' & Hs & Ho & Hcap); [done|].
    exists o'. simpl in *. split; [|split; [done|congruence]].
    eapply rtc_l; [by eapply reader_taken|]. by rewrite <- app_assoc in Hs.
Qed.

(** A reader that will get no more names, is not told to stop and has a place
    behind its outport. *)
Record ending c : Prop := mk_ending {
  en_abandoned : ring_is_abandoned (rd_conf c) = true;
  en_signals : no_stop file_message_as_utf8 (get rd_l_signals c);
  en_cap : (0 < ring_cap (pes_sink (rd_out c)))%nat
}.

(** The thread answers. *)
Lemma awaited c given got :
  awaiting c -> exists c', reader_step fs_read (mk_ReaderRun c given got) (mk_ReaderRun c' given got) /\
    (reads_left c' < reads_left c)%nat /\ (ending c -> ending c').
Proof.
  intros (rd & Hrd & Hch). eexists. split; [eapply reader_read; [done|by rewrite Hch]|]. split.
  - unfold reads_left. simpl. rewrite Hrd, Hch. simpl. lia.
  - by intros [].
Qed.

(** One round: the consumer takes what is there, and the reader is called or
    its thread answers. *)
Lemma reader_round (times : nat -> Instant) ctx s :
  (0 < remaining_budget ctx)%N -> reader_inv s -> ending (rr_reader s) ->
  exists s', rtc (reader_step fs_read) s s' /\ rr_given s' = rr_given s /\ ending (rr_reader s') /\
    ((reads_left (rr_reader s') < reads_left (rr_reader s))%nat \/ rd_finished (rr_reader s') = true).
Proof.
  intros Hb Hinv Hend. destruct s as [c given got]. simpl in *.
  destruct (drain_sink c given got) as (o' & Hs & Ho & Hcap).
  set (c1 := set rd_l_box (mk_Outbox o' (rd_pending_files c)) c) in *.
  set (s1 := mk_ReaderRun c1 given (got ++ sink_items (rd_out c))) in *.
  assert (reader_inv s1) as [_ Hok Hfin].
  { clear -Hinv Hs. induction Hs; [done|]. eauto using reader_step_inv. }
  assert (ending c1) as He1 by (destruct Hend; split; simpl; [done|done|by rewrite Hcap]).
  assert (reads_left c1 = reads_left c) as Hl1 by done.
  destruct (file_reader_call times c1 ctx Hok) as (f & r & Hcall & Hrc); [intros H; by apply Hfin|].
  pose proof Hrc as [_ _ Hf _ _ Hab Hsig Hcp Hle Hleft].
  assert (ending (fr_self f)) as Hef.
  { destruct He1 as [Ha Hn Hc0]. split; [by rewrite Hab|by eapply polled_no_stop|by rewrite Hcp]. }
  assert (rtc (reader_step fs_read) (mk_ReaderRun c given got)
    (mk_ReaderRun (fr_self f) given (got ++ sink_items (rd_out c)))) as Hrun.
  { eapply rtc_r; [exact Hs|]. by eapply reader_called. }
  destruct Hleft as [Hlt|[Haw|[Har Hfd]]]; [apply He1|done| | | |].
  - unfold room. simpl. rewrite Ho, Hcap. destruct Hend. simpl. lia.
  - eexists. split; [exact Hrun|]. simpl. split_and!; [done|done|left; lia].
  - destruct (awaited (fr_self f) given (got ++ sink_items (rd_out c)) Haw) as (c' & Hst & Hlt & He').
    eexists. split; [eapply rtc_r; [exact Hrun|exact Hst]|]. simpl. split_and!; [done|auto|left; lia].
  - eexists. split; [exact Hrun|]. simpl. split_and!; [done|done|right]. apply Hf; [apply He1|].
    apply Hfd, He1.
Qed.

(** A FileReader that is called again and again with some budget, whose
    threads answer and whose consumer takes what there is, comes to its end
    when the producer of the names is gone; by then the consumer has received
    the contents of all files. *)
Theorem file_reader_finishes ctx s0 s :
  (0 < remaining_budget ctx)%N -> reader_untouched s0 -> rtc (reader_step fs_read) s0 s ->
  ending (rr_reader s) ->
  exists s', rtc (reader_step fs_read) s s' /\ rd_finished (rr_reader s') = true /\
    rr_given s' = rr_given s /\ rr_got s' = file_packets (rr_given s).
Proof.
  intros Hb H0 Hr Hend. apply (reader_reachable_inv s0 s H0) in Hr. clear s0 H0. rename Hr into Hinv.
  remember (reads_left (rr_reader s)) as n eqn:Hn. revert s Hinv Hend Hn.
  induction (lt_wf n) as [n _ IH]. intros s Hinv Hend ->.
  destruct (reader_round (fun _ => 0%N) ctx s Hb Hinv Hend) as (s1 & Hs1 & Hg1 & He1 & Hor).
  assert (reader_inv s1) as Hinv1 by (clear -Hinv Hs1; induction Hs1; eauto using reader_step_inv).
  destruct Hor as [Hlt|Hfin].
  - destruct (IH _ Hlt s1) as (s' & Hs' & Hf & Hg & Hgot); [done..|].
    exists s'. rewrite Hg1 in *. split_and!; [by eapply rtc_trans|done..].
  - destruct s1 as [c1 given1 got1]. simpl in *. destruct (drain_sink c1 given1 got1) as (o' & Hs2 & Ho & _).
    eexists. split; [eapply rtc_trans; [exact Hs1|exact Hs2]|]. simpl. split_and!; [done|done|].
    destruct Hinv1 as [Hflow _ H]. destruct (H Hfin) as [(Hn & Hc & Hp & _) _]. simpl in *.
    rewrite <- Hg1, <- Hflow. unfold reader_flow. by rewrite Hn, Hc, Hp, !app_nil_r.
Qed.
End reader.

Section writer.
Context `{R : Rtrb}.
Implicit Types (c : FileWriterComponent) (f : frame FileWriterComponent).

(** The bytes of some packets; a packet that is not bytes has none. *)
Definition bytes_of (ms : list FbpMessage) : list byte := concat (map payload ms).

(** The packets on their way to the thread, in the order in which they are
    written. *)
Definition channel_items c : list (list byte) :=
  match wr_writer_tx c with Some data => mp_items data | None => [] end.
Definition writer_flow c : list byte :=
  concat (channel_items c) ++ concat (wr_pending_writes c) ++ bytes_of (ring_items (wr_inn c)).
Definition writes_left c : nat := length (wr_pending_writes c) + length (ring_items (wr_inn c)).

(** The thread listens, if there is one. *)
Definition writer_ok c : Prop :=
  match wr_writer_tx c with
  | Some data => mp_rx_alive data = true /\ mp_tx_alive data = true /\
      mp_bound data = Some PROCESSEDGE_BUFSIZE /\ is_Some (wr_filename c) /\ is_Some (wr_writer_result_rx c)
  | None => True
  end.

Record writing c0 f : Prop := mk_writing {
  wg_flow : writer_flow (fr_self f) = writer_flow c0;
  wg_ok : writer_ok (fr_self f);
  wg_tx : is_Some (wr_writer_tx (fr_self f));
  wg_abandoned : ring_is_abandoned (wr_inn (fr_self f)) = ring_is_abandoned (wr_inn c0);
  wg_signals : polled (get wr_l_signals c0) (get wr_l_signals (fr_self f));
  wg_left : (writes_left (fr_self f) <= writes_left c0)%nat
}.

(** Nothing has been handed over yet. *)
Definition unhanded c0 (b : N) f : Prop :=
  channel_items (fr_self f) = channel_items c0 /\ remaining_budget (fr_ctx f) = b.

Lemma wp_open_writer c0 ctx (Q : unit -> frame FileWriterComponent -> Prop) (E : exit -> _ -> Prop) :
  writer_ok c0 ->
  (forall f, writing c0 f -> unhanded c0 (remaining_budget ctx) f -> Q tt f) ->
  (forall f r, writer_flow (fr_self f) = writer_flow c0 -> wr_writer_tx c0 = None ->
     wr_writer_tx (fr_self f) = None -> polled (get wr_l_signals c0) (get wr_l_signals (fr_self f)) ->
     wr_inn (fr_self f) = wr_inn c0 -> r = Return NoWork \/ r = Unwind -> E r f) ->
  wp open_writer Q E (mk_frame c0 ctx 0 [] 0).
Proof.
  intros Hok HQ HE. unfold open_writer. wp_run. destruct (is_none (wr_filename c0) || is_none (wr_writer_tx c0)) eqn:Hn.
  - assert (wr_writer_tx c0 = None) as Htx.
    { destruct (wr_writer_tx c0) as [data|] eqn:Htx; [|done]. unfold writer_ok in Hok. rewrite Htx in Hok.
      destruct Hok as (_ & _ & _ & [? Hf] & _). by rewrite Hf in Hn. }
    wp_run. apply wp_pop; simpl.
    + intros _ r _. wp_run. apply HE; simpl; auto using polled_refl.
    + intros m rest r _ _. destruct (as_text m) as [name|]; wp_run.
      * apply HQ; [|split; [|done]; by unfold channel_items; rewrite Htx].
        split; simpl; try done; [|apply polled_refl].
        unfold writer_flow, channel_items. simpl. by rewrite Htx.
      * apply HE; simpl; auto using polled_refl.
  - apply orb_false_iff in Hn as [_ Hn]. wp_run. apply HQ; [|done]. split; try done; [|apply polled_refl].
    simpl. destruct (wr_writer_tx c0); [eauto|done].
Qed.

Lemma wp_writer_poll c0 b f (Q : unit -> frame FileWriterComponent -> Prop) (E : exit -> _ -> Prop) :
  writing c0 f -> unhanded c0 b f -> no_stop message_as_utf8 (get wr_l_signals c0) ->
  (forall f, writing c0 f -> unhanded c0 b f -> Q tt f) ->
  wp (zoom wr_l_signals (poll message_as_utf8)) Q E f.
Proof.
  intros [Hf Ho Ht Ha Hp Hl] Hun Hns HQ. apply wp_zoom, wp_poll; simpl.
  - intros _ [sin sout] Hs. apply HQ; [|done]. split; simpl; try done. by eapply polled_trans.
  - intros Hstop%stop_next_stop s Hs. exfalso. apply Hstop. by eapply polled_no_stop.
Qed.

Lemma wp_drain_results c0 b f (Q : unit -> frame FileWriterComponent -> Prop) E :
  writing c0 f -> unhanded c0 b f -> (forall f, writing c0 f -> unhanded c0 b f -> Q tt f) ->
  wp drain_results Q E f.
Proof.
  intros Hwg Hun HQ. unfold drain_results. wp_run.
  destruct (wr_writer_result_rx (fr_self f)); wp_run; apply HQ; try done.
  destruct Hwg as [Hf Ho Ht Ha Hp Hl]. split; simpl; try done. unfold writer_ok in *. simpl.
  destruct (wr_writer_tx (fr_self f)); [|done]. destruct Ho as (? & ? & ? & ? & ?). eauto 10.
Qed.

Lemma bytes_of_app l1 l2 : bytes_of (l1 ++ l2) = bytes_of l1 ++ bytes_of l2.
Proof. unfold bytes_of. by rewrite map_app, concat_app. Qed.

Lemma wp_take_packets c0 b f (Q : unit -> frame FileWriterComponent -> Prop) E :
  writing c0 f -> unhanded c0 b f ->
  (forall f, writing c0 f -> unhanded c0 b f -> ring_items (wr_inn (fr_self f)) = [] -> Q tt f) ->
  wp take_packets Q E f.
Proof.
  intros [Hf Ho Ht Ha Hp Hl] Hun HQ. unfold take_packets. wp_run. rewrite ring_slots_spec.
  apply wp_read_chunk; simpl; [lia|]. intros r [Hr _ Hra]. rewrite drop_all in Hr. wp_run.
  apply HQ; [|done..]. split; simpl; try done; [|by rewrite Hra|].
  - rewrite <- Hf. unfold writer_flow, channel_items. simpl. rewrite Hr, firstn_all, concat_app.
    unfold bytes_of at 1. simpl. by rewrite app_nil_r.
  - unfold writes_left in *. simpl. rewrite Hr, firstn_all, length_app, length_map. simpl. lia.
Qed.

(** What is handed over: something, if there is budget and room. *)
Lemma wp_hand_over c0 b f (Q : unit -> frame FileWriterComponent -> Prop) E :
  writing c0 f -> unhanded c0 b f -> ring_items (wr_inn (fr_self f)) = [] ->
  (forall f, writing c0 f -> ring_items (wr_inn (fr_self f)) = [] ->
     ((0 < b)%N -> channel_items c0 = [] ->
      wr_pending_writes (fr_self f) = [] \/ (writes_left (fr_self f) < writes_left c0)%nat) -> Q tt f) ->
  wp hand_over Q E f.
Proof.
  intros Hwg Hun Hinn HQ.
  apply (wp_while (fun f => writing c0 f /\ ring_items (wr_inn (fr_self f)) = [] /\
    (unhanded c0 b f \/ (writes_left (fr_self f) < writes_left c0)%nat))
    (fun f => length (wr_pending_writes (fr_self f)))); [auto|simpl; lia| |].
  { intros g (Hg & Hi & Hor) Hc. apply HQ; [done..|]. intros Hb Hci. destruct Hor as [[_ Hbg]|]; [|auto].
    left. apply andb_false_iff in Hc as [Hc|Hc]; [apply N.ltb_ge in Hc; lia|].
    by apply negb_false_iff, bool_decide_eq_true in Hc. }
  clear f Hwg Hun Hinn. intros f ([Hf Ho Ht Ha Hp Hl] & Hinn & Hor) Hc. apply andb_true_iff in Hc as [Hb _].
  apply N.ltb_lt in Hb. wp_run. destruct Ht as [data Htx]. rewrite Htx.
  destruct (wr_pending_writes (fr_self f)) as [|packet rest] eqn:Hpe.
  { wp_run. apply HQ; [by split|done|auto]. }
  unfold writer_ok in Ho. rewrite Htx in Ho. destruct Ho as (Hrx & Htxa & Hbd & Hname & Hres).
  unfold mpsc_try_send. rewrite Hrx. simpl. destruct (mpsc_full data) eqn:Hfull; wp_run.
  - apply HQ; [|done|].
    + split; [done|by unfold writer_ok; rewrite Htx|eauto|done..].
    + intros _ Hci. destruct Hor as [[Hor _]|]; [|auto]. unfold channel_items at 1 in Hor. rewrite Htx in Hor.
      unfold mpsc_full in Hfull. by rewrite Hbd, Hor, Hci in Hfull.
  - unfold writes_left in *. rewrite Hpe in Hl. simpl in Hl.
    split; [|simpl; lia]. split; [|split; [done|right; simpl; lia]]. split; simpl; try done; [|unfold writes_left; simpl; lia].
    rewrite <- Hf. unfold writer_flow, channel_items. simpl. rewrite Htx, Hpe. simpl.
    rewrite concat_app. simpl. by rewrite app_nil_r, <- !app_assoc.
Qed.

(** What a call of FileWriter does. *)
Record writer_call c (b : N) (r : ProcessResult) c' : Prop := mk_writer_call {
  wcl_flow : writer_flow c' = writer_flow c;
  wcl_ok : writer_ok c';
  wcl_tx : is_Some (wr_writer_tx c) -> is_Some (wr_writer_tx c');
  wcl_abandoned : ring_is_abandoned (wr_inn c') = ring_is_abandoned (wr_inn c);
  wcl_signals : polled (get wr_l_signals c) (get wr_l_signals c');
  wcl_finished : r = Finished ->
    ring_is_abandoned (wr_inn c) = true /\ writes_left c' = 0%nat /\ is_Some (wr_writer_tx c');
  wcl_left : (0 < b)%N -> channel_items c = [] -> is_Some (wr_writer_tx c) ->
    (writes_left c' < writes_left c)%nat \/ (ring_is_abandoned (wr_inn c) = true -> r = Finished)
}.

Lemma file_writer_call c ctx :
  writer_ok c -> no_stop message_as_utf8 (get wr_l_signals c) ->
  exists f r, call file_writer_process c ctx = Some (f, r) /\
    (is_Some (wr_writer_tx c) -> r <> None) /\
    forall r', r = Some r' -> writer_call c (remaining_budget ctx) r' (fr_self f).
Proof.
  intros Hok Hns. apply (wp_call file_writer_process c ctx
    (fun f r => (_ -> r <> None) /\ forall r', r = Some r' -> _ r' (fr_self f))).
  unfold file_writer_process. apply wp_bind, wp_open_writer; [done| |].
  2: { intros f r Hf Htx Htx' Hp Hi [-> | ->]; (split; [by rewrite ?Htx; intros []|]); [|done].
       intros r' [= <-].
       split; try done; [by unfold writer_ok; rewrite Htx'|by rewrite Htx; intros []|by rewrite Hi|].
       rewrite Htx. by intros _ _ []. }
  intros f Hwg Hun. apply wp_bind, (wp_writer_poll c (remaining_budget ctx)); [done..|].
  clear f Hwg Hun. intros f Hwg Hun. apply wp_bind, (wp_drain_results c (remaining_budget ctx)); [done..|].
  clear f Hwg Hun. intros f Hwg Hun. apply wp_bind, (wp_take_packets c (remaining_budget ctx)); [done..|].
  clear f Hwg Hun. intros f Hwg Hun Hinn. apply wp_bind, (wp_hand_over c (remaining_budget ctx)); [done..|].
  clear f Hwg Hun Hinn. intros f [Hf Ho Ht Ha Hp Hl] Hinn Hleft. apply wp_bind, wp_is_abandoned. wp_run.
  destruct (ring_is_abandoned _) eqn:Hab, (bool_decide_reflect (wr_pending_writes (fr_self f) = [])) as [Hpe|Hpe];
    simpl; wp_run; (split; [done|]); intros r' [= <-]; simpl in Ha; split; try done; try congruence.
  - intros _. split_and!; [congruence| |done]. unfold writes_left. simpl. by rewrite Hpe, Hinn.
  - intros _ _ _. by right.
  - by destruct (fr_work f).
  - intros H1 H2 _. left. by destruct (Hleft H1 H2).
  - by destruct (fr_work f).
  - intros _ _ _. right. congruence.
  - by destruct (fr_work f).
  - intros _ _ _. right. congruence.
Qed.

(** ** Along a run *)

Definition ended (th : option WriterPhase) : Prop := exists written, th = Some (WriterEnded written).

Record turned p data (th : WriterThread) : Prop := mk_turned {
  tn_file : file_of (Some (wt_phase th)) ++ concat (mp_items (wt_data th)) =
    file_of (Some p) ++ concat (mp_items data);
  tn_tx : mp_tx_alive (wt_data th) = mp_tx_alive data;
  tn_bound : mp_bound (wt_data th) = mp_bound data;
  tn_ended : ended (Some (wt_phase th)) -> mp_tx_alive data = false /\ mp_items (wt_data th) = [];
  tn_rx : ended (Some (wt_phase th)) \/ mp_rx_alive (wt_data th) = mp_rx_alive data
}.

Lemma writer_turn_ok p data results th :
  writer_turn FsOk (mk_WriterThread p data results) = Some th -> turned p data th.
Proof.
  unfold writer_turn. simpl. destruct p as [|written buf|written]; [|destruct data as [[|packet rest] bound tx rx]|done].
  - intros [= <-]. split; simpl; try done; [by intros []|by right].
  - unfold mpsc_try_recv. simpl. destruct tx; [done|]. intros [= <-]. split; simpl; eauto. left. by eexists.
  - intros [= <-]. simpl. split; simpl; try done; [by rewrite app_nil_r, <- !app_assoc|by intros []|by right].
Qed.

(** As long as the file system does not fail. *)
Record writer_inv (s : WriterRun) : Prop := mk_writer_inv {
  wi_flow : file_of (wn_thread s) ++ writer_flow (wn_writer s) = bytes_of (wn_given s);
  wi_thread : wn_thread s = None <-> wr_writer_tx (wn_writer s) = None;
  wi_running : wn_dropped s = false -> writer_ok (wn_writer s) /\ ~ ended (wn_thread s);
  wi_dropped : wn_dropped s = true -> ring_is_abandoned (wr_inn (wn_writer s)) = true /\
    writes_left (wn_writer s) = 0%nat /\ is_Some (wr_writer_result_rx (wn_writer s)) /\
    exists data, wr_writer_tx (wn_writer s) = Some data /\ mp_tx_alive data = false;
  wi_ended : ended (wn_thread s) -> channel_items (wn_writer s) = [];
  wi_signals : no_stop message_as_utf8 (get wr_l_signals (wn_writer s))
}.

Lemma writer_called_inv c th given ctx f r :
  writer_inv (mk_WriterRun c th given false false) -> call file_writer_process c ctx = Some (f, Some r) ->
  writer_inv (mk_WriterRun (dropped_after r (fr_self f)) (thread_after c (fr_self f) th) given false (is_finished r)).
Proof.
  intros [Hflow Hth Hrun _ _ Hns] Hcall. destruct (Hrun eq_refl) as [Hok Hne]. simpl in *.
  destruct (file_writer_call c ctx Hok Hns) as (f' & r' & Hcall' & _ & Hwc). rewrite Hcall in Hcall'.
  injection Hcall' as <- <-. destruct (Hwc r eq_refl) as [Hf Ho Ht Ha Hp Hfin _]. clear Hwc.
  assert (forall c', channel_items (dropped_after r c') = channel_items c') as Hci.
  { intros c'. unfold dropped_after, channel_items. destruct r; try done. simpl. by destruct (wr_writer_tx c'). }
  assert (file_of (thread_after c (fr_self f) th) = file_of th /\ ~ ended (thread_after c (fr_self f) th)) as [Hfile Hne'].
  { unfold thread_after. destruct (wr_writer_tx c) eqn:Htx; [done|]. destruct (wr_writer_tx (fr_self f)); [|done].
    rewrite (proj2 Hth eq_refl). split; [done|]. by intros []. }
  split; simpl.
  - rewrite Hfile, <- Hflow, <- Hf. f_equal. unfold writer_flow. rewrite Hci. by destruct r.
  - unfold thread_after. transitivity (wr_writer_tx (fr_self f) = None).
    + destruct (wr_writer_tx c) eqn:Htx, (wr_writer_tx (fr_self f)) eqn:Htx'; try done.
      * split; [|done]. by intros ?%Hth.
      * by destruct (Ht ltac:(eauto)).
    + unfold dropped_after. destruct r; try done. simpl. by destruct (wr_writer_tx (fr_self f)).
  - intros Hr. split; [|done]. by destruct r.
  - intros Hr. destruct r; try done. destruct (Hfin eq_refl) as (Hab & Hl & [data Htx]). simpl.
    split_and!; [congruence|done| |rewrite Htx; by eexists].
    unfold writer_ok in Ho. rewrite Htx in Ho. naive_solver.
  - done.
  - eapply polled_no_stop; [|exact Hns]. by destruct r.
Qed.

Lemma writer_turned_inv c p given dropped data results th' :
  writer_inv (mk_WriterRun c (Some p) given false dropped) ->
  wr_writer_tx c = Some data -> wr_writer_result_rx c = Some results ->
  writer_turn FsOk (mk_WriterThread p data results) = Some th' ->
  writer_inv (mk_WriterRun (set wr_l_writer_tx (Some (wt_data th')) (set wr_l_writer_result_rx (Some (wt_results th')) c))
    (Some (wt_phase th')) given false dropped).
Proof.
  intros [Hflow Hth Hrun Hdr Hen Hns] Htx Hres [Hf Ht Hb He Hr]%writer_turn_ok. simpl in *. split; simpl; try done.
  - rewrite <- Hflow. unfold writer_flow, channel_items. simpl. rewrite Htx, !app_assoc. by rewrite Hf.
  - intros Hd. destruct (Hrun Hd) as [Hok Hne]. unfold writer_ok in *. simpl. rewrite Htx in Hok.
    destruct Hok as (Hrx & Htxa & Hbd & Hname & _).
    assert (~ ended (Some (wt_phase th'))) by (intros [? _]%He; congruence). destruct Hr as [|Hr]; [done|].
    split; [|done]. rewrite Hr, Ht, Hb. eauto 10.
  - intros Hd. destruct (Hdr Hd) as (Hab & Hl & _ & data' & Htx' & Hal). rewrite Htx in Htx'. simplify_eq.
    split_and!; [done|done|eauto|]. eexists. split; [done|]. congruence.
  - intros H. by destruct (He H).
Qed.

Lemma writer_step_inv s s' :
  writer_inv s -> writer_step s s' -> wn_failed s' = false -> writer_inv s'.
Proof.
  intros Hinv Hs. inversion Hs as [c th given failed ctx f r Hcall|c p data results th' given failed dropped answer Htx Hres Hturn|
    c th given failed dropped m r' Hab Hpush|c th given failed dropped|c th given failed dropped m r' Hpush|
    c th given failed dropped m sin Hm Hsend]; subst; simpl in *; intros Hfail; subst.
  - by eapply writer_called_inv.
  - apply orb_false_iff in Hfail as [-> Ha]. destruct answer; [|done]. simpl. by eapply writer_turned_inv.
  - destruct Hinv as [Hflow Hth Hrun Hdr Hen Hns]. simpl in *.
    pose proof (ring_push_items m (wr_inn c)) as Hi. pose proof (ring_push_res m (wr_inn c)) as Hres.
    pose proof (ring_push_abandoned m (wr_inn c)) as Hab'. rewrite Hpush in Hi, Hres, Hab'. simpl in *.
    destruct (_ <? _)%nat; [|done]. split; simpl; try done.
    + unfold writer_flow in *. simpl. rewrite Hi. rewrite (bytes_of_app given), bytes_of_app, <- Hflow.
      by rewrite <- !app_assoc.
    + intros (? & _)%Hdr. congruence.
  - destruct Hinv as [Hflow Hth Hrun Hdr Hen Hns]. simpl in *. split; simpl; try done.
    + unfold writer_flow in *. simpl. by rewrite ring_drop_producer_items.
    + intros (Hab & Hl & H)%Hdr. rewrite ring_drop_producer_abandoned. split; [done|split; [|done]].
      unfold writes_left in *. simpl. by rewrite ring_drop_producer_items.
  - by destruct Hinv as [Hflow Hth Hrun Hdr Hen Hns].
  - destruct Hinv as [Hflow Hth Hrun Hdr Hen Hns]. simpl in *. split; simpl; try done.
    revert Hns Hsend. unfold no_stop, try_send. simpl. destruct (negb _); [done|]. destruct (_ <? _)%nat; [|done].
    intros Hns [= <-]. simpl. apply Forall_app. auto.
Qed.

Lemma writer_untouched_inv s : writer_untouched s -> writer_inv s.
Proof.
  intros (Htx & Hrx & Hp & Hi & Hsig & Hth & Hg & Hf & Hd).
  split; try congruence; try (rewrite Hth; by intros []).
  - unfold writer_flow, channel_items. by rewrite Htx, Hp, Hi, Hth, Hg.
  - by rewrite Htx, Hth.
  - intros _. rewrite Hth. split; [|by intros []]. unfold writer_ok. by rewrite Htx.
  - unfold no_stop. simpl. by rewrite Hsig.
Qed.

Lemma writer_failed_before s s' : rtc writer_step s s' -> wn_failed s' = false -> wn_failed s = false.
Proof.
  induction 1 as [|s1 s2 s3 Hs _ IH]; [done|]. intros H%IH. destruct Hs; simpl in *; try done.
  by apply orb_false_iff in H as [? _].
Qed.

Lemma writer_run_inv s s' : writer_inv s -> rtc writer_step s s' -> wn_failed s' = false -> writer_inv s'.
Proof.
  intros Hinv Hr. induction Hr as [|s1 s2 s3 Hs Hr IH]; [done|]. intros Hf.
  apply IH; [|done]. eapply writer_step_inv; [done..|]. by eapply writer_failed_before.
Qed.

(** The thread only returns when the component is finished and gone. *)
Lemma ended_dropped s : writer_inv s -> ended (wn_thread s) -> wn_dropped s = true.
Proof. intros [_ _ Hrun _ _ _] He. destruct (wn_dropped s); [done|]. by destruct (Hrun eq_refl). Qed.

Lemma ended_file s : writer_inv s -> ended (wn_thread s) -> file_of (wn_thread s) = bytes_of (wn_given s).
Proof.
  intros Hinv He. pose proof (ended_dropped s Hinv He) as Hd. destruct Hinv as [Hflow _ _ Hdr Hen _].
  destruct (Hdr Hd) as (_ & Hl & _). rewrite <- Hflow. unfold writer_flow, writes_left in *.
  rewrite (Hen He). destruct (wr_pending_writes _), (ring_items _); simpl in Hl; try lia.
  simpl. by rewrite app_nil_r.
Qed.

(** C25: whatever the order in which FileWriter is called, packets arrive and
    its thread runs, and whatever budget it gets: as long as the file system
    does not fail and it is not told to stop, what is in the file and what is
    on its way there are together the bytes of the packets, each once and in
    order; once the thread has returned, which it only does when the component
    is finished and gone, they are all in the file. *)
Theorem file_writer_writes s0 s :
  writer_untouched s0 -> rtc writer_step s0 s -> wn_failed s = false ->
  file_of (wn_thread s) ++ writer_flow (wn_writer s) = bytes_of (wn_given s) /\
  (ended (wn_thread s) -> wn_dropped s = true /\ file_of (wn_thread s) = bytes_of (wn_given s)).
Proof.
  intros H0%writer_untouched_inv Hr Hf.
  pose proof (writer_run_inv s0 s H0 Hr Hf) as Hinv. split; [apply Hinv|].
  intros He. split; [by apply ended_dropped|by apply ended_file].
Qed.

(** ** To the end of a run *)

Definition with_ends (data : mpsc (list byte)) (results : mpsc (result unit string)) c : FileWriterComponent :=
  set wr_l_writer_tx (Some data) (set wr_l_writer_result_rx (Some results) c).

Lemma turns c p data results th' given dropped :
  wr_writer_tx c = Some data -> wr_writer_result_rx c = Some results ->
  writer_turn FsOk (mk_WriterThread p data results) = Some th' ->
  writer_step (mk_WriterRun c (Some p) given false dropped)
    (mk_WriterRun (with_ends (wt_data th') (wt_results th') c) (Some (wt_phase th')) given false dropped).
Proof. intros H1 H2 H3. exact (writer_turned c p data results th' given false dropped FsOk H1 H2 H3). Qed.

(** The thread empties its channel. *)
Lemma open_drains given dropped items : forall written buf bound tx rx c results,
  exists written' buf' results', rtc writer_step
    (mk_WriterRun (with_ends (mk_mpsc items bound tx rx) results c) (Some (WriterOpen written buf)) given false dropped)
    (mk_WriterRun (with_ends (mk_mpsc [] bound tx rx) results' c) (Some (WriterOpen written' buf')) given false dropped).
Proof.
  induction items as [|packet items IH]; intros written buf bound tx rx c results.
  - do 3 eexists. apply rtc_refl.
  - destruct (IH (written ++ buf ++ packet) [] bound tx rx c (mpsc_try_send (Ok tt) results).2) as (w' & b' & r' & Hr).
    exists w', b', r'. eapply rtc_l; [by eapply turns|exact Hr].
Qed.

Lemma thread_drains c p given dropped data results :
  wr_writer_tx c = Some data -> wr_writer_result_rx c = Some results -> ~ ended (Some p) ->
  exists written' buf' results', rtc writer_step (mk_WriterRun c (Some p) given false dropped)
    (mk_WriterRun (with_ends (with_items [] data) results' c) (Some (WriterOpen written' buf')) given false dropped).
Proof.
  intros Htx Hres Hne. assert (c = with_ends data results c) as Hc by (destruct c; simpl in *; by subst).
  destruct data as [items bound tx rx]. destruct p as [|written buf|written]; [| |by destruct Hne; eexists].
  - destruct (open_drains given dropped items [] [] bound tx rx c (mpsc_try_send (Ok tt) results).2)
      as (w' & b' & r' & Hr).
    exists w', b', r'. eapply rtc_l; [by eapply turns|exact Hr].
  - pose proof (open_drains given dropped items written buf bound tx rx c results) as H. by rewrite <- Hc in H.
Qed.

(** Once the component is gone, the thread comes to its end. *)
Lemma thread_ends s :
  writer_inv s -> wn_failed s = false -> wn_dropped s = true ->
  exists s', rtc writer_step s s' /\ ended (wn_thread s') /\ wn_given s' = wn_given s /\ wn_failed s' = false.
Proof.
  intros [_ Hth _ Hdr _ _] Hf Hd. destruct (Hdr Hd) as (_ & _ & [results Hres] & data & Htx & Hal).
  destruct s as [c [p|] given failed dropped]; simpl in *; subst; [|by rewrite (proj1 Hth eq_refl) in Htx].
  assert (ended (Some p) \/ ~ ended (Some p)) as [He|Hne].
  { destruct p; [right; by intros []..|left; by eexists]. }
  - eexists. split; [apply rtc_refl|done].
  - destruct (thread_drains c p given true data results) as (w & b & r & Hr); [done..|].
    eexists. split; [eapply rtc_r; [exact Hr|]|].
    + eapply turns; [done..|]. unfold writer_turn, mpsc_try_recv. simpl. by rewrite Hal.
    + simpl. split; [by eexists|done].
Qed.

(** One round: the thread empties its channel and the component is called. *)
Lemma writer_round ctx s :
  (0 < remaining_budget ctx)%N -> writer_inv s -> wn_failed s = false -> wn_dropped s = false ->
  wn_thread s <> None -> ring_is_abandoned (wr_inn (wn_writer s)) = true ->
  exists s', rtc writer_step s s' /\ wn_given s' = wn_given s /\ wn_failed s' = false /\ wn_thread s' <> None /\
    ring_is_abandoned (wr_inn (wn_writer s')) = true /\
    (wn_dropped s' = true \/
     wn_dropped s' = false /\ (writes_left (wn_writer s') < writes_left (wn_writer s))%nat).
Proof.
  intros Hb Hinv Hf Hd Hth Hab. destruct s as [c [p|] given failed dropped]; simpl in *; [subst|done].
  pose proof Hinv as [_ Hth' Hrun _ _ Hns]. simpl in *. destruct (Hrun eq_refl) as [Hok Hne].
  destruct (wr_writer_tx c) as [data|] eqn:Htx; [|by destruct (proj2 Hth' eq_refl)].
  pose proof Hok as Hok'. unfold writer_ok in Hok'. rewrite Htx in Hok'. destruct Hok' as (_ & _ & _ & _ & [results Hres]).
  destruct (thread_drains c p given false data results) as (w & b & r & Hr); [done..|].
  set (c1 := with_ends (with_items [] data) r c) in *.
  pose proof (writer_run_inv _ _ Hinv Hr eq_refl) as [_ _ Hrun1 _ _ Hns1]. destruct (Hrun1 eq_refl) as [Hok1 _].
  destruct (file_writer_call c1 ctx Hok1 Hns1) as (f & [res|] & Hcall & Hsome & Hwc);
    [|by destruct Hsome; [by eexists|]].
  destruct (Hwc res eq_refl) as [_ _ Ht Ha _ _ Hleft]. specialize (Hleft Hb eq_refl ltac:(by eexists)).
  eexists. split; [eapply rtc_r; [exact Hr|by eapply writer_called]|]. simpl.
  split_and!; [done|done|done| |].
  - rewrite <- Hab. etransitivity; [|exact Ha]. by destruct res.
  - destruct res; [| |by left]; right; (split; [done|]); destruct Hleft as [|Hfin]; try done; by specialize (Hfin Hab).
Qed.

(** Once its producer is gone, a FileWriter that has its file, and that is
    called again and again with some budget while its thread runs and the file
    system does not fail, finishes, and its thread returns; by then the bytes of
    all packets are in the file. *)
Theorem file_writer_flushes ctx s0 s :
  (0 < remaining_budget ctx)%N -> writer_untouched s0 -> rtc writer_step s0 s -> wn_failed s = false ->
  wn_thread s <> None -> ring_is_abandoned (wr_inn (wn_writer s)) = true ->
  exists s', rtc writer_step s s' /\ wn_thread s' = Some (WriterEnded (bytes_of (wn_given s))) /\
    wn_given s' = wn_given s /\ wn_failed s' = false.
Proof.
  intros Hb H0 Hr Hf Hth Hab. apply (writer_run_inv s0) in Hr; [|by apply writer_untouched_inv|done].
  clear s0 H0. rename Hr into Hinv.
  enough (exists s', rtc writer_step s s' /\ ended (wn_thread s') /\ wn_given s' = wn_given s /\
    wn_failed s' = false) as (s' & Hs & [w He] & Hg & Hf').
  { exists s'. split_and!; [done| |done..]. rewrite He. do 2 f_equal. rewrite <- Hg.
    pose proof (writer_run_inv s s' Hinv Hs Hf') as Hinv'. pose proof (ended_file s' Hinv') as H.
    rewrite He in H. apply H. by eexists. }
  remember (writes_left (wn_writer s)) as n eqn:Hn. revert s Hf Hth Hab Hinv Hn.
  induction (lt_wf n) as [n _ IH]. intros s Hf Hth Hab Hinv ->.
  destruct (wn_dropped s) eqn:Hd; [by apply thread_ends|].
  destruct (writer_round ctx s Hb Hinv Hf Hd Hth Hab) as (s1 & Hs1 & Hg1 & Hf1 & Ht1 & Ha1 & Hor).
  pose proof (writer_run_inv s s1 Hinv Hs1 Hf1) as Hinv1. rewrite <- Hg1. destruct Hor as [Hd1|[Hd1 Hlt]].
  - destruct (thread_ends s1 Hinv1 Hf1 Hd1) as (s' & Hs' & H). exists s'. split; [by eapply rtc_trans|done].
  - destruct (IH _ Hlt s1) as (s' & Hs' & H); [done..|]. exists s'. split; [by eapply rtc_trans|done].
Qed.
End writer.

(** * From a reader to a writer *)

Section copy.
Context `{R : Rtrb}.
Variable fs_read : string -> result (list byte) string.

(** The contents of a file when it is not a text. *)
Definition binary_contents (name : FbpMessage) : list byte :=
  match fs_read (path_of name) with
  | Ok contents => if is_none (from_utf8 contents) then contents else []
  | Err _ => []
  end.

Lemma bytes_of_files names : bytes_of (file_packets fs_read names) = concat (map binary_contents names).
Proof.
  unfold file_packets. induction names as [|name names IH]; [done|]. unfold bytes_of in *. cbn [map omap list_omap concat].
  unfold file_packet at 1, binary_contents at 1. destruct (fs_read (path_of name)) as [contents|]; [|done].
  unfold content_message. cbn [map concat]. fold (omap (file_packet fs_read) names). rewrite IH.
  by destruct (from_utf8 contents).
Qed.

(** A FileReader whose packets go to a FileWriter copies the files that are
    not valid UTF-8; a file that is valid UTF-8 is read as a text, and of a
    text nothing is written. *)
Theorem file_copy_loses_texts r0 r w0 w :
  reader_untouched r0 -> rtc (reader_step fs_read) r0 r ->
  rd_finished (rr_reader r) = true -> sink_items (rd_out (rr_reader r)) = [] ->
  writer_untouched w0 -> rtc writer_step w0 w -> wn_failed w = false -> ended (wn_thread w) ->
  wn_given w = rr_got r ->
  file_of (wn_thread w) = concat (map binary_contents (rr_given r)).
Proof.
  intros Hr0 Hr Hfin Hout Hw0 Hw Hf He Hg. rewrite <- bytes_of_files.
  destruct (reader_reachable_inv fs_read r0 r Hr0 Hr) as [Hflow _ Hdone].
  destruct (Hdone Hfin) as [(Hn & Hc & Hp & _) _].
  pose proof (writer_run_inv w0 w (writer_untouched_inv _ Hw0) Hw Hf) as Hinv.
  rewrite (ended_file w Hinv He), Hg, <- Hflow. unfold reader_flow. by rewrite Hn, Hc, Hp, Hout, !app_nil_r.
Qed.
End copy.

(** ** Concrete runs *)
#[local] Existing Instance list_rtrb.

(** Two files: one is a text, the other is not; there is no third. *)
Definition demo_fs (path : string) : result (list byte) string :=
  if String.eqb path "text" then Ok [x61; x62]
  else if String.eqb path "data" then Ok [xff; x00]
  else Err "No such file or directory".
Definition demo_clock (n : nat) : Instant := N.of_nat n.

Definition demo_reader : ReaderRun :=
  mk_ReaderRun (mk_FileReaderComponent (demo_ring false []) (demo_out 8) demo_channel demo_channel [] [] None
    None false) [] [].
Definition demo_names : list FbpMessage := [Text "text"; Text "none"; Text "data"].
(** The names have been sent and the producer is gone. *)
Definition demo_reader_named : ReaderRun :=
  mk_ReaderRun (set rd_l_conf (demo_ring true demo_names) (rr_reader demo_reader)) demo_names [].

Lemma demo_reader_untouched : reader_untouched demo_reader.
Proof. by split_and!. Defined.

Lemma demo_reader_run : rtc (reader_step demo_fs) demo_reader demo_reader_named.
Proof.
  do 3 (eapply rtc_l; [by eapply reader_named; vm_compute|]).
  eapply rtc_l; [by apply reader_closed|]. apply rtc_refl.
Defined.

(** The first file has been read. *)
Lemma demo_reader_reads :
  exists s, rtc (reader_step demo_fs) demo_reader s /\ rr_got s = [Text "ab"] /\
    rr_given s = demo_names.
Proof.
  eexists. split.
  - eapply rtc_trans; [apply demo_reader_run|].
    eapply rtc_l; [eapply (reader_called _ demo_clock _ _ _ (demo_context Normal 4)); vm_compute; reflexivity|].
    eapply rtc_l; [eapply reader_read; vm_compute; reflexivity|].
    eapply rtc_l; [eapply (reader_called _ demo_clock _ _ _ (demo_context Normal 4)); vm_compute; reflexivity|].
    eapply rtc_l; [eapply reader_taken; vm_compute; reflexivity|]. apply rtc_refl.
  - split; vm_compute; reflexivity.
Defined.

Lemma file_reader_delivers_witness :
  exists s, rtc (reader_step demo_fs) demo_reader s /\ rr_got s = [Text "ab"] /\
    rr_got s ++ reader_flow demo_fs (rr_reader s) = [Text "ab"; Bytes [xff; x00]].
Proof.
  destruct demo_reader_reads as (s & Hr & Hgot & Hgiven). exists s. split; [exact Hr|]. split; [exact Hgot|].
  destruct (file_reader_delivers demo_fs demo_reader s demo_reader_untouched Hr) as [H _].
  rewrite H, Hgiven. vm_compute. reflexivity.
Defined.

Lemma file_reader_finishes_witness :
  exists s', rtc (reader_step demo_fs) demo_reader_named s' /\ rd_finished (rr_reader s') = true /\
    rr_got s' = [Text "ab"; Bytes [xff; x00]].
Proof.
  destruct (file_reader_finishes demo_fs (demo_context Normal 4) demo_reader demo_reader_named)
    as (s' & Hr & Hf & _ & Hgot).
  - reflexivity.
  - apply demo_reader_untouched.
  - apply demo_reader_run.
  - split; [reflexivity|constructor|vm_compute; lia].
  - exists s'. split; [exact Hr|]. split; [exact Hf|]. rewrite Hgot. vm_compute. reflexivity.
Defined.

Definition demo_writer : WriterRun :=
  mk_WriterRun (mk_FileWriterComponent (demo_ring false [Text "copy"]) (demo_ring false []) demo_channel demo_channel
    None None None [] None) None [] false false.

Lemma demo_writer_untouched : writer_untouched demo_writer.
Proof. by split_and!. Defined.

(** Two packets have been sent, one of them is on its way to the thread, which
    has opened the file; the producer is gone. *)
Lemma demo_writer_run :
  exists s, rtc writer_step demo_writer s /\ wn_given s = [Text "ab"; Bytes [xff; x00]] /\ wn_failed s = false /\
    wn_thread s = Some (WriterOpen [] []) /\ ring_is_abandoned (wr_inn (wn_writer s)) = true.
Proof.
  eexists. split.
  - eapply rtc_l; [eapply (writer_fed _ _ _ _ _ (Text "ab")); vm_compute; reflexivity|].
    eapply rtc_l; [eapply (writer_fed _ _ _ _ _ (Bytes [xff; x00])); vm_compute; reflexivity|].
    eapply rtc_l; [eapply (writer_called _ _ _ _ (demo_context Normal 1)); vm_compute; reflexivity|].
    eapply rtc_l; [eapply (writer_turned _ _ _ _ _ _ _ _ FsOk); vm_compute; reflexivity|].
    eapply rtc_l; [eapply writer_closed|]. apply rtc_refl.
  - split_and!; vm_compute; reflexivity.
Defined.

Lemma file_writer_writes_witness :
  exists s, rtc writer_step demo_writer s /\ file_of (wn_thread s) ++ writer_flow (wn_writer s) = [xff; x00].
Proof.
  destruct demo_writer_run as (s & Hr & Hg & Hf & _). exists s. split; [exact Hr|].
  destruct (file_writer_writes demo_writer s demo_writer_untouched Hr Hf) as [H _].
  rewrite H, Hg. vm_compute. reflexivity.
Defined.

Lemma file_writer_flushes_witness :
  exists s, rtc writer_step demo_writer s /\ wn_thread s = Some (WriterEnded [xff; x00]).
Proof.
  destruct demo_writer_run as (s & Hr & Hg & Hf & Ht & Ha).
  destruct (file_writer_flushes (demo_context Normal 1) demo_writer s) as (s' & Hr' & Ht' & _).
  - reflexivity.
  - apply demo_writer_untouched.
  - exact Hr.
  - exact Hf.
  - rewrite Ht. discriminate.
  - exact Ha.
  - exists s'. split; [eapply rtc_trans; [exact Hr|exact Hr']|]. rewrite Ht', Hg. vm_compute. reflexivity.
Defined.

(** A text and a file that is no text are copied: what is in the copy is the
    second. *)
Lemma demo_copied :
  exists r w, rtc (reader_step demo_fs) demo_reader r /\ rtc writer_step demo_writer w /\
    rr_given r = [Text "text"; Text "data"] /\ rd_finished (rr_reader r) = true /\
    sink_items (rd_out (rr_reader r)) = [] /\ wn_given w = rr_got r /\ wn_failed w = false /\
    ended (wn_thread w).
Proof.
  do 2 eexists. split_and!.
  - eapply rtc_l; [eapply (reader_named _ _ _ _ (Text "text")); vm_compute; reflexivity|].
    eapply rtc_l; [eapply (reader_named _ _ _ _ (Text "data")); vm_compute; reflexivity|].
    eapply rtc_l; [eapply reader_closed|].
    do 2 (eapply rtc_l; [eapply (reader_called _ demo_clock _ _ _ (demo_context Normal 4)); vm_compute; reflexivity|];
          eapply rtc_l; [eapply reader_read; vm_compute; reflexivity|];
          eapply rtc_l; [eapply (reader_called _ demo_clock _ _ _ (demo_context Normal 4)); vm_compute; reflexivity|];
          eapply rtc_l; [eapply reader_taken; vm_compute; reflexivity|]).
    eapply rtc_l; [eapply (reader_called _ demo_clock _ _ _ (demo_context Normal 4)); vm_compute; reflexivity|].
    apply rtc_refl.
  - eapply rtc_l; [eapply (writer_fed _ _ _ _ _ (Text "ab")); vm_compute; reflexivity|].
    eapply rtc_l; [eapply (writer_fed _ _ _ _ _ (Bytes [xff; x00])); vm_compute; reflexivity|].
    eapply rtc_l; [eapply writer_closed|].
    eapply rtc_l; [eapply (writer_called _ _ _ _ (demo_context Normal 4)); vm_compute; reflexivity|].
    do 4 (eapply rtc_l; [eapply (writer_turned _ _ _ _ _ _ _ _ FsOk); vm_compute; reflexivity|]).
    apply rtc_refl.
  - vm_compute. reflexivity.
  - vm_compute. reflexivity.
  - vm_compute. reflexivity.
  - vm_compute. reflexivity.
  - vm_compute. reflexivity.
  - eexists. vm_compute. reflexivity.
Defined.

Lemma file_copy_loses_texts_witness :
  exists r w, rtc (reader_step demo_fs) demo_reader r /\ rtc writer_step demo_writer w /\
    wn_given w = rr_got r /\ rr_given r = [Text "text"; Text "data"] /\ file_of (wn_thread w) = [xff; x00].
Proof.
  destruct demo_copied as (r & w & Hr & Hw & Hgr & Hfin & Hout & Hg & Hf & He). exists r, w.
  split_and!; [exact Hr|exact Hw|exact Hg|exact Hgr|].
  rewrite (file_copy_loses_texts demo_fs demo_reader r demo_writer w
    demo_reader_untouched Hr Hfin Hout demo_writer_untouched Hw Hf He Hg), Hgr.
  vm_compute. reflexivity.
Defined.

(** When the file cannot be created the thread is gone, and the sender with the
    next packet; from then on FileWriter waits for another name, whatever
    arrives: it does not look at its signals, and it does not finish when its
    producer is gone. *)
Definition abandoned_writer : FileWriterComponent :=
  mk_FileWriterComponent (demo_ring true []) (demo_ring true []) (mk_sync_channel [Text "stop"] 2 true) demo_channel
    (Some "copy") (Some (drop_receiver (mpsc_sync_channel PROCESSEDGE_BUFSIZE))) (Some (drop_sender channel))
    [[x61]] None.
Example file_writer_stuck :
  exists c1, (forall ctx, exists f, call file_writer_process c1 ctx = Some (f, Some NoWork) /\ fr_self f = c1) /\
    exists f1, call file_writer_process (set wr_l_signals (mk_Signals demo_channel demo_channel) abandoned_writer)
      (demo_context Normal 1) = Some (f1, Some NoWork) /\
    c1 = set wr_l_signals (mk_Signals (mk_sync_channel [Text "stop"] 2 true) demo_channel) (fr_self f1).
Proof.
  eexists. split; [|eexists; split; [vm_compute; reflexivity|vm_compute; reflexivity]].
  intros ctx. eexists. split; vm_compute; reflexivity.
Qed.
