(* ===== verification/Servers.v ===== *)
(** The servers for many clients: [TCPServer] and [UnixSocketServer].  They
    frame what a client sends with the number of the client and send answers to
    the client that their frame names.

    What the two have in common is written once, for a [Hub]: the listener, the
    connections and what waits for room; [HubKind] holds what differs.  A socket
    is seen as what its peer and the network will do with it. *)
From S2P Require Import Prelude Api Scheduler Process Pipes Sinks Io.
From Stdlib Require Strings.String.
From Stdlib Require Import NArith ZArith Lia Strings.Byte.
From stdpp Require Import base list strings gmap.
Local Open Scope string_scope.
Local Open Scope list_scope.
Local Open Scope flowd_scope.

(** * Sockets

    What the next reads find ([ReadBytes []] is the end), what happens to the
    next writes, and what has been read and written so far.  Without anything left to
    find, a read of a non-blocking socket would block. *)
Inductive ReadAnswer : Type :=
| ReadBytes (bs : list byte)
| ReadError (kind : ErrorKind).
(** A [write_all] writes everything, or fails after [n] bytes. *)
Inductive WriteAnswer : Type :=
| WriteDone
| WriteError (n : nat) (kind : ErrorKind).

Record Socket : Type := mk_Socket {
  so_reads : list ReadAnswer;
  so_writes : list WriteAnswer;
  so_seen : list byte;
  so_written : list byte;
  so_nonblocking : bool
}.

(** [read] into a buffer of [n] bytes. *)
Definition sock_seen (bs : list byte) (rest : list ReadAnswer) (s : Socket) : Socket :=
  mk_Socket rest (so_writes s) (so_seen s ++ bs) (so_written s) (so_nonblocking s).
Definition sock_read (n : N) (s : Socket) : result (list byte) ErrorKind * Socket :=
  match so_reads s with
  | [] => (Err WouldBlock, s)
  | ReadError kind :: rest => (Err kind, sock_seen [] rest s)
  | ReadBytes bs :: rest =>
      if (N.of_nat (length bs) <=? n)%N then (Ok bs, sock_seen bs rest s)
      else
        let data := take (N.to_nat n) bs in
        (Ok data, sock_seen data (ReadBytes (drop (N.to_nat n) bs) :: rest) s)
  end.

Definition sock_write_all (bs : list byte) (s : Socket) : result unit ErrorKind * Socket :=
  let wrote rest part :=
    mk_Socket (so_reads s) rest (so_seen s) (so_written s ++ part) (so_nonblocking s) in
  match so_writes s with
  | WriteError n kind :: rest => (Err kind, wrote rest (take n bs))
  | answers => (Ok tt, wrote (tail answers) bs)
  end.

(** The connections that wait to be accepted, and whether the listener can be
    made non-blocking. *)
Record Listener : Type := mk_Listener {
  li_accepts : list (result Socket ErrorKind);
  li_nonblocking : bool
}.
Definition listener_accept (li : Listener) : result Socket ErrorKind * Listener :=
  match li_accepts li with
  | [] => (Err WouldBlock, li)
  | a :: rest => (a, mk_Listener rest (li_nonblocking li))
  end.

(** * The hub *)

(** [Connection]; the token of the event loop, which nothing reads, is left
    out.  [UnixSocketServer] does not note the time. *)
Record Connection : Type := mk_Connection {
  cn_last_active : option Instant;
  cn_sock : Socket
}.

(** How the servers differ: the buffer for a read; the frame for what a client
    has sent; whether a connection remembers its last activity; the bytes from a
    position on, [None] if that unwinds; the work that an answer counts that
    would block; and what happens when a socket cannot be made non-blocking. *)
Record HubKind : Type := mk_HubKind {
  hk_read_buffer : N;
  hk_frame : N -> list byte -> FbpMessage;
  hk_clocked : bool;
  hk_from : nat -> list byte -> option (list byte);
  hk_block_work : N;
  hk_blocking_socket : exit
}.

Section hub.
Context `{R : Rtrb} `{HI : HashIter}.
Variable clock : nat -> Instant.
Variable k : HubKind.

Record Hub : Type := mk_Hub {
  hb_listener : option Listener;
  hb_resp : ring;
  hb_box : Outbox;
  hb_connections : gmap N Connection;
  hb_next_client_id : N;
  hb_pending_responses : gmap N FbpMessage
}.

Definition hb_l_listener : lens Hub (option Listener) := mk_lens hb_listener
  (fun x h => mk_Hub x (hb_resp h) (hb_box h) (hb_connections h) (hb_next_client_id h) (hb_pending_responses h)).
Definition hb_l_resp : lens Hub ring := mk_lens hb_resp
  (fun x h => mk_Hub (hb_listener h) x (hb_box h) (hb_connections h) (hb_next_client_id h)
                (hb_pending_responses h)).
Definition hb_l_box : lens Hub Outbox := mk_lens hb_box
  (fun x h => mk_Hub (hb_listener h) (hb_resp h) x (hb_connections h) (hb_next_client_id h)
                (hb_pending_responses h)).
Definition hb_l_connections : lens Hub (gmap N Connection) := mk_lens hb_connections
  (fun x h => mk_Hub (hb_listener h) (hb_resp h) (hb_box h) x (hb_next_client_id h) (hb_pending_responses h)).
Definition hb_l_next_client_id : lens Hub N := mk_lens hb_next_client_id
  (fun x h => mk_Hub (hb_listener h) (hb_resp h) (hb_box h) (hb_connections h) x (hb_pending_responses h)).
Definition hb_l_pending_responses : lens Hub (gmap N FbpMessage) := mk_lens hb_pending_responses
  (fun x h => mk_Hub (hb_listener h) (hb_resp h) (hb_box h) (hb_connections h) (hb_next_client_id h) x).

(** The time of an activity. *)
Definition activity : proc Hub (option Instant) :=
  if hk_clocked k then t ← now clock; mret (Some t) else mret None.

Definition put_connection (id : N) (cn : Connection) : proc Hub unit :=
  connections ← read hb_l_connections; write hb_l_connections (<[id := cn]> connections).
Definition with_sock (sock : Socket) (cn : Connection) : Connection :=
  mk_Connection (cn_last_active cn) sock.

(** One new connection, within the budget. *)
Definition accept_client : proc Hub unit :=
  b ← budget;
  if (0 <? b)%N then
    listener ← read hb_l_listener;
    match listener with
    | None => mret tt
    | Some listener =>
        let '(res, listener) := listener_accept listener in
        write hb_l_listener (Some listener);;
        match res with
        | Ok sock =>
            if so_nonblocking sock then
              client_id ← read hb_l_next_client_id;
              write hb_l_next_client_id ((client_id + 1) mod u32_modulus)%N;;
              active ← activity;
              put_connection client_id (mk_Connection active sock);;
              work 1;; charge 1
            else leave (hk_blocking_socket k)
        | Err _ => mret tt
        end
    end
  else mret tt.

(** One read from one client; the clients that are gone are collected. *)
Definition read_client (client_id : N) (remove : list N) : proc Hub (list N) :=
  connections ← read hb_l_connections;
  match connections !! client_id with
  | None => mret remove
  | Some cn =>
      let '(res, sock) := sock_read (hk_read_buffer k) (cn_sock cn) in
      put_connection client_id (with_sock sock cn);;
      match res with
      | Ok [] => mret (remove ++ [client_id])
      | Ok data =>
          active ← activity;
          put_connection client_id (mk_Connection active sock);;
          zoom hb_l_box (send_or_keep (hk_frame k client_id data));;
          work 1;; charge 1;; mret remove
      | Err WouldBlock => mret remove
      | Err _ => mret (remove ++ [client_id])
      end
  end.

(** The loop over the connections. *)
Fixpoint read_clients (ids : list N) (remove : list N) : proc Hub (list N) :=
  match ids with
  | [] => mret remove
  | client_id :: ids =>
      b ← budget;
      if (b =? 0)%N then mret remove
      else remove ← read_client client_id remove; read_clients ids remove
  end.

(** One packet of the inport RESP: "CLIENT_ID:response_data". *)
Definition route_response (remove : list N) : proc Hub (list N) :=
  b ← budget;
  if (0 <? b)%N then
    response_data ← pop hb_l_resp;
    match response_data with
    | None => mret remove
    | Some response_data =>
        let response_bytes := default [] (as_bytes response_data) in
        match split_frame response_bytes with
        | None => mret remove
        | Some (target_client_id, colon_pos) =>
            match hk_from k (S colon_pos) response_bytes with
            | None => panic
            | Some actual_response =>
                connections ← read hb_l_connections;
                match connections !! target_client_id with
                | None => mret remove
                | Some cn =>
                    let '(res, sock) := sock_write_all actual_response (cn_sock cn) in
                    put_connection target_client_id (with_sock sock cn);;
                    match res with
                    | Ok _ =>
                        work 1;; charge 1;;
                        active ← activity;
                        put_connection target_client_id (mk_Connection active sock);;
                        mret remove
                    | Err WouldBlock =>
                        responses ← read hb_l_pending_responses;
                        write hb_l_pending_responses
                          (<[target_client_id := from_bytes actual_response]> responses);;
                        work (hk_block_work k);; charge (hk_block_work k);;
                        mret remove
                    | Err _ => mret (remove ++ [target_client_id])
                    end
                end
            end
        end
    end
  else mret remove.

(** One answer that has to wait; the clients whose answer is done with and
    those that are gone are collected. *)
Definition retry_response (client_id : N) (response_data : FbpMessage) (lists : list N * list N) :
    proc Hub (list N * list N) :=
  let '(finished, remove) := lists in
  connections ← read hb_l_connections;
  match connections !! client_id with
  | None => mret (finished ++ [client_id], remove)
  | Some cn =>
      let '(res, sock) := sock_write_all (default [] (as_bytes response_data)) (cn_sock cn) in
      put_connection client_id (with_sock sock cn);;
      match res with
      | Ok _ =>
          work 1;; charge 1;;
          active ← activity;
          put_connection client_id (mk_Connection active sock);;
          mret (finished ++ [client_id], remove)
      | Err WouldBlock => mret lists
      | Err _ => mret (finished ++ [client_id], remove ++ [client_id])
      end
  end.

Fixpoint retry_responses (responses : list (N * FbpMessage)) (lists : list N * list N) :
    proc Hub (list N * list N) :=
  match responses with
  | [] => mret lists
  | (client_id, response_data) :: responses =>
      b ← budget;
      if (b =? 0)%N then mret lists
      else lists ← retry_response client_id response_data lists; retry_responses responses lists
  end.

(** The two loops that clean up. *)
Definition remove_all {V} (ids : list N) (m : gmap N V) : gmap N V := foldl (fun m id => delete id m) m ids.
Definition clean_up (finished remove : list N) : proc Hub unit :=
  responses ← read hb_l_pending_responses;
  write hb_l_pending_responses (remove_all remove (remove_all finished responses));;
  connections ← read hb_l_connections;
  write hb_l_connections (remove_all remove connections);;
  work (N.of_nat (length remove)).

(** What both servers do once they listen and have looked at their signals. *)
Definition serve : proc Hub unit :=
  zoom hb_l_box flush;;
  accept_client;;
  connections ← read hb_l_connections;
  remove ← read_clients (hash_iter connections).*1 [];
  remove ← route_response remove;
  responses ← read hb_l_pending_responses;
  lists ← retry_responses (hash_iter responses) ([], remove);
  clean_up lists.1 lists.2.

#[export] Instance keeps_activity : Keeps activity.
Proof. unfold activity. destruct (hk_clocked k); apply _. Qed.
#[export] Instance keeps_put_connection id cn : Keeps (put_connection id cn).
Proof. unfold put_connection. apply _. Qed.
#[export] Instance keeps_accept_client : Keeps accept_client.
Proof. unfold accept_client. apply _. Qed.
#[export] Instance keeps_read_client id remove : Keeps (read_client id remove).
Proof. unfold read_client. apply _. Qed.
#[export] Instance keeps_read_clients ids remove : Keeps (read_clients ids remove).
Proof. revert remove. induction ids; intros; simpl; apply _. Qed.
#[export] Instance keeps_route_response remove : Keeps (route_response remove).
Proof. unfold route_response. apply _. Qed.
#[export] Instance keeps_retry_response id m lists : Keeps (retry_response id m lists).
Proof. unfold retry_response. apply _. Qed.
#[export] Instance keeps_retry_responses l lists : Keeps (retry_responses l lists).
Proof. revert lists. induction l as [|[id m] l IH]; intros; simpl; apply _. Qed.
#[export] Instance keeps_serve : Keeps serve.
Proof. unfold serve, clean_up, flush. apply _. Qed.
End hub.

(** * TCPServer *)

Section tcp.
Context `{R : Rtrb} `{HI : HashIter}.
Variable clock : nat -> Instant.
(** [TcpListener::bind]. *)
Variable tcp_bind : string -> result Listener ErrorKind.

Definition READ_BUFFER : N := 4096.

(** Frames are texts; a position behind the end would unwind. *)
Definition tcp_frame (client_id : N) (data : list byte) : FbpMessage :=
  from_text (String.string_of_list_byte (frame_bytes client_id data)).
Definition slice_from (n : nat) (bs : list byte) : option (list byte) :=
  if (n <=? length bs)%nat then Some (drop n bs) else None.
Definition tcp_kind : HubKind := mk_HubKind READ_BUFFER tcp_frame true slice_from 1 Unwind.

Record TCPServerComponent : Type := mk_TCPServerComponent {
  ts_conf : ring;
  ts_resp : ring;
  ts_out : ProcessEdgeSink;
  ts_signals_in : sync_channel;
  ts_signals_out : sync_channel;
  ts_listen_addr : option string;
  ts_listener : option Listener;
  ts_connections : gmap N Connection;
  ts_next_client_id : N;
  ts_pending_responses : gmap N FbpMessage;
  ts_pending_outbound : list FbpMessage
}.

Definition new_tcp_server `{MultiMapLib ring} `{MultiMapLib ProcessEdgeSink}
    (inports : multimap ring) (outports : multimap ProcessEdgeSink)
    (signals_in signals_out : sync_channel) : outcome TCPServerComponent :=
  let* (conf, inports) := take_port "CONF" inports in
  let* (resp, inports) := take_port "RESP" inports in
  let* (out, outports) := take_port "OUT" outports in
  Done (mk_TCPServerComponent conf resp out signals_in signals_out None None ∅ 0 ∅ []).

Definition ts_l_conf : lens TCPServerComponent ring := mk_lens ts_conf
  (fun x c => mk_TCPServerComponent x (ts_resp c) (ts_out c) (ts_signals_in c) (ts_signals_out c)
                (ts_listen_addr c) (ts_listener c) (ts_connections c) (ts_next_client_id c)
                (ts_pending_responses c) (ts_pending_outbound c)).
Definition ts_l_signals : lens TCPServerComponent Signals := mk_lens
  (fun c => mk_Signals (ts_signals_in c) (ts_signals_out c))
  (fun x c => mk_TCPServerComponent (ts_conf c) (ts_resp c) (ts_out c) (sig_in x) (sig_out x)
                (ts_listen_addr c) (ts_listener c) (ts_connections c) (ts_next_client_id c)
                (ts_pending_responses c) (ts_pending_outbound c)).
Definition ts_l_listen_addr : lens TCPServerComponent (option string) := mk_lens ts_listen_addr
  (fun x c => mk_TCPServerComponent (ts_conf c) (ts_resp c) (ts_out c) (ts_signals_in c) (ts_signals_out c)
                x (ts_listener c) (ts_connections c) (ts_next_client_id c)
                (ts_pending_responses c) (ts_pending_outbound c)).
Definition ts_hub : lens TCPServerComponent Hub := mk_lens
  (fun c => mk_Hub (ts_listener c) (ts_resp c) (mk_Outbox (ts_out c) (ts_pending_outbound c))
              (ts_connections c) (ts_next_client_id c) (ts_pending_responses c))
  (fun x c => mk_TCPServerComponent (ts_conf c) (hb_resp x) (ob_out (hb_box x)) (ts_signals_in c)
                (ts_signals_out c) (ts_listen_addr c) (hb_listener x) (hb_connections x)
                (hb_next_client_id x) (hb_pending_responses x) (ob_pending (hb_box x))).

(** The address, and listening on it. *)
Definition tcp_listen : proc TCPServerComponent unit :=
  hub ← read ts_hub;
  match hb_listener hub with
  | Some _ => mret tt
  | None =>
      listen_addr_msg ← pop ts_l_conf;
      match listen_addr_msg with
      | None => return_ NoWork
      | Some listen_addr_msg =>
          match message_as_utf8 listen_addr_msg with
          | None => panic
          | Some listen_addr =>
              write ts_l_listen_addr (Some listen_addr);;
              match tcp_bind listen_addr with
              | Ok listener =>
                  if li_nonblocking listener then
                    zoom ts_hub (write hb_l_listener (Some listener));; work 1;; charge 1
                  else panic
              | Err _ => return_ NoWork
              end
          end
      end
  end.

(** The end of a call. *)
Definition tcp_result : proc TCPServerComponent ProcessResult :=
  hub ← read ts_hub;
  if ring_is_abandoned (hb_resp hub) && bool_decide (hb_pending_responses hub = ∅)
     && bool_decide (ob_pending (hb_box hub) = [])
  then return_ Finished
  else
    w ← work_units;
    if (0 <? w)%N then mret (DidWork w)
    else (if is_none (hb_listener hub) then mret tt else wake_poll clock);; mret NoWork.

Definition tcp_server_process : proc TCPServerComponent ProcessResult :=
  tcp_listen;;
  zoom ts_l_signals (poll message_as_utf8);;
  zoom ts_hub (serve clock tcp_kind);;
  tcp_result.

#[export] Instance keeps_tcp_server : Keeps tcp_server_process.
Proof. unfold tcp_server_process, tcp_listen, tcp_result. apply _. Qed.
Definition tcp_server_component := component_of tcp_server_process.
End tcp.

(** * UnixSocketServer *)

Section unix.
Context `{R : Rtrb} `{HI : HashIter}.
Variable clock : nat -> Instant.
(** Removing a file that is in the way, and [UnixListener::bind]. *)
Variable unix_bind : string -> result Listener ErrorKind.

Definition DEFAULT_READ_BUFFER_SIZE : N := 65536.

(** Frames are bytes; behind the end there is nothing. *)
Definition unix_frame (client_id : N) (data : list byte) : FbpMessage :=
  from_bytes (frame_bytes client_id data).
Definition get_from (n : nat) (bs : list byte) : option (list byte) := Some (default [] (slice_from n bs)).
Definition unix_kind : HubKind :=
  mk_HubKind DEFAULT_READ_BUFFER_SIZE unix_frame false get_from 0 (Return NoWork).

Record UnixSocketServerComponent : Type := mk_UnixSocketServerComponent {
  us_conf : ring;
  us_resp : ring;
  us_out : ProcessEdgeSink;
  us_signals_in : sync_channel;
  us_signals_out : sync_channel;
  us_listen_path : option string;
  us_listener : option Listener;
  us_connections : gmap N Connection;
  us_next_client_id : N;
  us_pending_outbound : list FbpMessage;
  us_pending_responses : gmap N FbpMessage
}.

Definition new_unix_server `{MultiMapLib ring} `{MultiMapLib ProcessEdgeSink}
    (inports : multimap ring) (outports : multimap ProcessEdgeSink)
    (signals_in signals_out : sync_channel) : outcome UnixSocketServerComponent :=
  let* (conf, inports) := take_port "CONF" inports in
  let* (resp, inports) := take_port "RESP" inports in
  let* (out, outports) := take_port "OUT" outports in
  Done (mk_UnixSocketServerComponent conf resp out signals_in signals_out None None ∅ 0 [] ∅).

Definition us_l_conf : lens UnixSocketServerComponent ring := mk_lens us_conf
  (fun x c => mk_UnixSocketServerComponent x (us_resp c) (us_out c) (us_signals_in c) (us_signals_out c)
                (us_listen_path c) (us_listener c) (us_connections c) (us_next_client_id c)
                (us_pending_outbound c) (us_pending_responses c)).
Definition us_l_signals : lens UnixSocketServerComponent Signals := mk_lens
  (fun c => mk_Signals (us_signals_in c) (us_signals_out c))
  (fun x c => mk_UnixSocketServerComponent (us_conf c) (us_resp c) (us_out c) (sig_in x) (sig_out x)
                (us_listen_path c) (us_listener c) (us_connections c) (us_next_client_id c)
                (us_pending_outbound c) (us_pending_responses c)).
Definition us_l_listen_path : lens UnixSocketServerComponent (option string) := mk_lens us_listen_path
  (fun x c => mk_UnixSocketServerComponent (us_conf c) (us_resp c) (us_out c) (us_signals_in c)
                (us_signals_out c) x (us_listener c) (us_connections c) (us_next_client_id c)
                (us_pending_outbound c) (us_pending_responses c)).
Definition us_hub : lens UnixSocketServerComponent Hub := mk_lens
  (fun c => mk_Hub (us_listener c) (us_resp c) (mk_Outbox (us_out c) (us_pending_outbound c))
              (us_connections c) (us_next_client_id c) (us_pending_responses c))
  (fun x c => mk_UnixSocketServerComponent (us_conf c) (hb_resp x) (ob_out (hb_box x)) (us_signals_in c)
                (us_signals_out c) (us_listen_path c) (hb_listener x) (hb_connections x)
                (hb_next_client_id x) (ob_pending (hb_box x)) (hb_pending_responses x)).

Definition unix_listen : proc UnixSocketServerComponent unit :=
  hub ← read us_hub;
  match hb_listener hub with
  | Some _ => mret tt
  | None =>
      config_msg ← pop us_l_conf;
      match config_msg with
      | None => return_ NoWork
      | Some config_msg =>
          let listen_path := default "" (message_as_utf8 config_msg) in
          match unix_bind listen_path with
          | Ok listener =>
              if li_nonblocking listener then
                zoom us_hub (write hb_l_listener (Some listener));;
                write us_l_listen_path (Some listen_path);;
                work 1
              else return_ NoWork
          | Err _ => return_ NoWork
          end
      end
  end.

(** The end of a call: this server never finishes by itself. *)
Definition unix_result : proc UnixSocketServerComponent ProcessResult :=
  w ← work_units;
  if (0 <? w)%N then mret (DidWork w)
  else
    hub ← read us_hub;
    (if is_none (hb_listener hub) then mret tt else wake_poll clock);; mret NoWork.

Definition unix_server_process : proc UnixSocketServerComponent ProcessResult :=
  unix_listen;;
  zoom us_l_signals (poll message_as_utf8);;
  zoom us_hub (serve clock unix_kind);;
  unix_result.

#[export] Instance keeps_unix_server : Keeps unix_server_process.
Proof. unfold unix_server_process, unix_listen, unix_result. apply _. Qed.
Definition unix_server_component := component_of unix_server_process.
End unix.
