(* ===== verification/ServersTheorems.v ===== *)
(** What is proved about the servers for many clients: along every run the
    frames on their outport say, read from their own bytes, what was read from
    the clients, in order; no client gets a byte that was meant for another one; a frame that
    comes back goes to the client it came from. *)
From S2P Require Import Prelude Api Scheduler Process Pipes PipesTheorems Sinks SinksTheorems Io Servers.
From Stdlib Require Strings.String.
From Stdlib Require Import NArith ZArith Lia Strings.Byte.
From stdpp Require Import base list strings gmap pretty.
Local Open Scope string_scope.
Local Open Scope list_scope.

(** * Answers *)

(** The answers among the packets [given] that are for client [id]. *)
Definition answer_to (given : list FbpMessage) (id : N) (p : list byte) : Prop :=
  exists m pos, m ∈ given /\ split_frame (default [] (as_bytes m)) = Some (id, pos) /\
    p = drop (S pos) (default [] (as_bytes m)).

(** [w] consists of such answers, or beginnings of them. *)
Definition answers (given : list FbpMessage) (id : N) (w : list byte) : Prop :=
  exists parts, w = concat parts /\
    Forall (fun part => exists p, answer_to given id p /\ part `prefix_of` p) parts.

Lemma answers_nil given id : answers given id [].
Proof. by exists []. Qed.

Lemma answers_snoc given id w p part :
  answers given id w -> answer_to given id p -> part `prefix_of` p -> answers given id (w ++ part).
Proof.
  intros (parts & -> & Hp) Ha Hpre. exists (parts ++ [part]). split; [by rewrite concat_app; simpl; rewrite app_nil_r|].
  apply Forall_app. split; [done|]. constructor; [by exists p|constructor].
Qed.

Lemma answer_to_more given given' id p : answer_to given id p -> answer_to (given ++ given') id p.
Proof. intros (m & pos & Hm & H). exists m, pos. split; [|done]. set_solver. Qed.

Lemma answers_more given given' id w : answers given id w -> answers (given ++ given') id w.
Proof.
  intros (parts & -> & Hp). exists parts. split; [done|]. eapply Forall_impl; [exact Hp|].
  intros part (p & Ha & ?). exists p. split; [by apply answer_to_more|done].
Qed.

(** * Reads

    A log of reads: the client and the bytes. *)
Abbreviation log := (list (N * list byte)).
Fixpoint read_from (id : N) (l : log) : list byte :=
  match l with
  | [] => []
  | (i, bs) :: l => (if decide (i = id) then bs else []) ++ read_from id l
  end.

Lemma read_from_app id l1 l2 : read_from id (l1 ++ l2) = read_from id l1 ++ read_from id l2.
Proof. induction l1 as [|[i bs] l1 IH]; [done|]. simpl. by rewrite IH, <- app_assoc. Qed.

Lemma read_from_one id bs : read_from id [(id, bs)] = bs.
Proof. simpl. rewrite decide_True by done. apply app_nil_r. Qed.

Lemma read_from_other id id' bs : id <> id' -> read_from id [(id', bs)] = [].
Proof. intros Hne. simpl. by rewrite decide_False. Qed.

Lemma read_from_none id l : (forall e, e ∈ l -> e.1 <> id) -> read_from id l = [].
Proof.
  intros H. induction l as [|[i bs] l IH]; [done|]. simpl.
  rewrite decide_False by (apply (H (i, bs)); set_solver). apply IH. set_solver.
Qed.

(** * Reading frames

    What a frame says: the number in front of the first colon, digit by digit,
    and the text behind it.  It is defined on the bytes of the packet alone. *)
Fixpoint frame_says (number : N) (bs : list byte) : option (N * list byte) :=
  match bs with
  | [] => None
  | b :: bs =>
      if decide (b = x3a) then Some (number, bs)
      else if byte_in 48 57 b then frame_says (10 * number + (Byte.to_N b - 48)) bs else None
  end.
(** TCPServer sends texts, UnixSocketServer bytes. *)
Definition tcp_says (m : FbpMessage) : option (N * list byte) := s ← as_text m; frame_says 0 (string_bytes s).
Definition unix_says (m : FbpMessage) : option (N * list byte) := bs ← as_bytes m; frame_says 0 bs.
(** What a client finds in a sequence of frames. *)
Definition found_by (says : FbpMessage -> option (N * list byte)) (id : N) (ms : list FbpMessage) : list byte :=
  read_from id (omap says ms).

Lemma frame_says_go x s rest :
  frame_says 0 (string_bytes (pretty_N_go x s) ++ rest) = frame_says x (string_bytes s ++ rest).
Proof.
  revert s. induction (N.lt_wf_0 x) as [x _ IH]. intros s.
  destruct (decide (x = 0%N)) as [->|Hnz]; [by rewrite pretty_N_go_0|].
  pose proof (N.div_mod x 10 ltac:(done)) as Hdm. pose proof (N.mod_lt x 10 ltac:(done)) as Hm.
  rewrite pretty_N_go_step by lia. set (q := (x `div` 10)%N) in *. set (r := (x `mod` 10)%N) in *.
  clearbody q r. rewrite IH by lia. clear IH. subst x.
  unfold string_bytes, String.list_byte_of_string. cbn [String.list_ascii_of_string map app frame_says].
  assert (r ∈ [0; 1; 2; 3; 4; 5; 6; 7; 8; 9]%N) as Hin by (rewrite !elem_of_cons; lia).
  rewrite !elem_of_cons, elem_of_nil in Hin. destruct_or? Hin; by subst r.
Qed.

Lemma frame_says_frame id data : frame_says 0 (frame_bytes id data) = Some (id, utf8_lossy data).
Proof.
  unfold frame_bytes, pretty, pretty_N. destruct (decide (id = 0)%N) as [->|Hnz]; [done|]. by rewrite frame_says_go.
Qed.

Lemma tcp_says_frame id data : tcp_says (tcp_frame id data) = Some (id, utf8_lossy data).
Proof.
  unfold tcp_says, tcp_frame, string_bytes. simpl. rewrite String.list_byte_of_string_of_list_byte. apply frame_says_frame.
Qed.

Lemma unix_says_frame id data : unix_says (unix_frame id data) = Some (id, utf8_lossy data).
Proof. apply frame_says_frame. Qed.

Lemma says_frames (says : FbpMessage -> option (N * list byte)) frame (l : log) :
  (forall id data, says (frame id data) = Some (id, utf8_lossy data)) ->
  map says (map (fun e => frame e.1 e.2) l) = map (fun e => Some (e.1, utf8_lossy e.2)) l.
Proof. intros H. rewrite map_map. apply map_ext. intros e. apply H. Qed.

(** Nothing is lost of what is UTF-8. *)
Lemma found_by_valid says id ms (l : log) :
  map says ms = map (fun e => Some (e.1, utf8_lossy e.2)) l -> Forall (fun e => e.1 = id -> utf8_valid e.2 = true) l ->
  found_by says id ms = read_from id l.
Proof.
  unfold found_by. intros Heq Hl. revert ms Heq. induction Hl as [|[i bs] l Hv _ IH]; intros [|m ms]; [done..|].
  simpl. intros [= -> Heq]. simpl in *. rewrite IH by done. destruct (decide (i = id)); [|done]. by rewrite utf8_lossy_valid by auto.
Qed.

Section hub.
Context `{R : Rtrb} `{HI : HashIter}.
Variable clock : nat -> Instant.
Variable k : HubKind.

(** * The state of a hub *)

Definition fresh_socket (a : result Socket ErrorKind) : Prop :=
  match a with Ok s => so_seen s = [] /\ so_written s = [] | Err _ => True end.
Definition fresh_listener (li : Listener) : Prop := Forall fresh_socket (li_accepts li).

(** [given] are the packets that have been sent to RESP so far. *)
Record hub_ok (given : list FbpMessage) (h : Hub) : Prop := mk_hub_ok {
  ho_ids : forall id cn, hb_connections h !! id = Some cn -> (id < hb_next_client_id h)%N;
  ho_fresh : forall li, hb_listener h = Some li -> fresh_listener li;
  ho_resp : forall m, m ∈ ring_items (hb_resp h) -> m ∈ given;
  ho_written : forall id cn, hb_connections h !! id = Some cn -> answers given id (so_written (cn_sock cn));
  ho_pending : forall id m, hb_pending_responses h !! id = Some m -> exists p, m = Bytes p /\ answer_to given id p
}.

Definition seen (h : Hub) (id : N) : list byte :=
  match hb_connections h !! id with Some cn => so_seen (cn_sock cn) | None => [] end.

(** What has been read since [h0] is [l]: it has been framed and offered to the
    outport. *)
Record moved (h0 : Hub) (l : log) (h : Hub) : Prop := mk_moved {
  mv_frames : sink_items (ob_out (hb_box h)) ++ ob_pending (hb_box h) =
    sink_items (ob_out (hb_box h0)) ++ ob_pending (hb_box h0) ++ map (fun e => hk_frame k e.1 e.2) l;
  mv_log : forall e, e ∈ l -> (e.1 < hb_next_client_id h)%N;
  mv_seen : forall id cn, hb_connections h !! id = Some cn ->
    so_seen (cn_sock cn) = seen h0 id ++ read_from id l;
  mv_old : forall id cn, hb_connections h !! id = Some cn ->
    is_Some (hb_connections h0 !! id) \/ (hb_next_client_id h0 <= id)%N;
  mv_next : (hb_next_client_id h0 <= hb_next_client_id h)%N
}.

Lemma moved_refl given h : hub_ok given h -> moved h [] h.
Proof.
  intros [Hid _ _ _ _]. split; try done; [by rewrite app_nil_r|set_solver| |].
  - intros id cn Hcn. unfold seen. by rewrite Hcn, app_nil_r.
  - intros id cn Hcn. left. by eexists.
Qed.

(** The state during a call that started with [h0]. *)
Definition serving given h0 l (f : frame Hub) : Prop := hub_ok given (fr_self f) /\ moved h0 l (fr_self f).

(** Nothing can be overtaken by what is sent next. *)
Definition orderly (f : frame Hub) : Prop :=
  in_order (hb_box (fr_self f)) \/ remaining_budget (fr_ctx f) = 0%N.

(** A connection is replaced by one from which [bs] has been read, and to which
    [part] has been written. *)
Lemma serving_put given h0 l f id cn cn' bs part h' :
  serving given h0 l f -> hb_connections (fr_self f) !! id = Some cn ->
  so_seen (cn_sock cn') = so_seen (cn_sock cn) ++ bs ->
  so_written (cn_sock cn') = so_written (cn_sock cn) ++ part ->
  (part = [] \/ exists p, answer_to given id p /\ part `prefix_of` p) ->
  hb_connections h' = <[id := cn']> (hb_connections (fr_self f)) ->
  hb_listener h' = hb_listener (fr_self f) -> hb_resp h' = hb_resp (fr_self f) ->
  hb_next_client_id h' = hb_next_client_id (fr_self f) ->
  hb_pending_responses h' = hb_pending_responses (fr_self f) ->
  (forall l', l' = (if bool_decide (bs = []) then l else l ++ [(id, bs)]) ->
   sink_items (ob_out (hb_box h')) ++ ob_pending (hb_box h') =
     sink_items (ob_out (hb_box h0)) ++ ob_pending (hb_box h0) ++ map (fun e => hk_frame k e.1 e.2) l' ->
   hub_ok given h' /\ moved h0 l' h').
Proof.
  intros [[Hid Hfr Hre Hwr Hpe] [Hf Hl Hs Ho Hn]] Hcn Hseen Hwritten Hpart Hc Hli Hr Hnx Hp l' Hl' Hbox.
  pose proof (Hid _ _ Hcn) as Hlt. split; split.
  - rewrite Hc, Hnx. intros i c. destruct (decide (i = id)) as [->|Hne]; [done|].
    rewrite lookup_insert_ne by done. apply Hid.
  - by rewrite Hli.
  - by rewrite Hr.
  - rewrite Hc. intros i c. destruct (decide (i = id)) as [->|Hne].
    + rewrite lookup_insert_eq. intros [= <-]. rewrite Hwritten. specialize (Hwr _ _ Hcn).
      destruct Hpart as [-> | (p & Ha & Hpre)]; [by rewrite app_nil_r|by eapply answers_snoc].
    + rewrite lookup_insert_ne by done. apply Hwr.
  - by rewrite Hp.
  - done.
  - rewrite Hnx, Hl'. destruct (bool_decide _); [done|]. intros e [He|He]%elem_of_app; [by apply Hl|].
    apply list_elem_of_singleton in He as ->. done.
  - rewrite Hc. intros i c. destruct (decide (i = id)) as [->|Hne].
    + rewrite lookup_insert_eq. intros [= <-]. rewrite Hseen, (Hs _ _ Hcn), Hl', <- app_assoc. f_equal.
      destruct (bool_decide_reflect (bs = [])) as [->|_]; [by rewrite app_nil_r|].
      by rewrite read_from_app, read_from_one.
    + rewrite lookup_insert_ne by done. intros Hi. rewrite (Hs _ _ Hi), Hl'. f_equal.
      destruct (bool_decide _); [done|]. by rewrite read_from_app, (read_from_other _ _ _ Hne), app_nil_r.
  - rewrite Hc. intros i c. destruct (decide (i = id)) as [->|Hne]; [intros _; by apply (Ho _ cn)|].
    rewrite lookup_insert_ne by done. apply Ho.
  - by rewrite Hnx.
Qed.

(** * The steps of a call *)

Lemma wp_activity (f : frame Hub) (Q : option Instant -> frame Hub -> Prop) E :
  (forall t n, Q t (mk_frame (fr_self f) (fr_ctx f) (fr_work f) (fr_effects f) n)) ->
  wp (activity clock k) Q E f.
Proof.
  intros HQ. unfold activity. destruct (hk_clocked k); wp_run; [apply HQ|]. destruct f. apply HQ.
Qed.

Section call.
Variable given : list FbpMessage.
Variable h0 : Hub.
Hypothesis Hh0 : hub_ok given h0.
Abbreviation busy := (serving given h0).

Lemma serving_accept f li a rest active :
  busy [] f -> hb_listener (fr_self f) = Some li -> li_accepts li = Ok a :: rest ->
  (hb_next_client_id (fr_self f) + 1 < u32_modulus)%N ->
  let h := fr_self f in let id := hb_next_client_id h in
  hub_ok given (mk_Hub (Some (mk_Listener rest (li_nonblocking li))) (hb_resp h) (hb_box h)
    (<[id := mk_Connection active a]> (hb_connections h)) ((id + 1) mod u32_modulus) (hb_pending_responses h)) /\
  moved h0 [] (mk_Hub (Some (mk_Listener rest (li_nonblocking li))) (hb_resp h) (hb_box h)
    (<[id := mk_Connection active a]> (hb_connections h)) ((id + 1) mod u32_modulus) (hb_pending_responses h)).
Proof.
  intros [[Hid Hfr Hre Hwr Hpe] [Hf Hl Hs Ho Hn]] Hli Hacc Hnx h id. fold h in Hid, Hfr, Hre, Hwr, Hpe, Hf, Hl, Hs, Ho, Hn.
  fold h id in Hnx, Hn. rewrite N.mod_small by done.
  specialize (Hfr li Hli). unfold fresh_listener in Hfr. rewrite Hacc in Hfr. apply Forall_cons in Hfr as [Hfs Hrest].
  simpl in Hfs. destruct Hfs as [Hsn Hwn].
  split; split; simpl; try done.
  - intros i c. destruct (decide (i = id)) as [->|Hne]; [lia|]. rewrite lookup_insert_ne by done.
    intros Hi%Hid. unfold id. lia.
  - by intros ? [= <-].
  - intros i c. destruct (decide (i = id)) as [->|Hne].
    + rewrite lookup_insert_eq. intros [= <-]. simpl. rewrite Hwn. apply answers_nil.
    + rewrite lookup_insert_ne by done. apply Hwr.
  - set_solver.
  - intros i c. destruct (decide (i = id)) as [->|Hne].
    + rewrite lookup_insert_eq. intros [= <-]. simpl. rewrite Hsn. unfold seen.
      destruct (hb_connections h0 !! id) as [cn|] eqn:Hc; [|done]. destruct Hh0 as [Hid0 _ _ _ _].
      apply Hid0 in Hc. lia.
    + rewrite lookup_insert_ne by done. apply Hs.
  - intros i c. destruct (decide (i = id)) as [->|Hne]; [by right|]. rewrite lookup_insert_ne by done. apply Ho.
  - lia.
Qed.

Lemma serving_listener f li rest :
  busy [] f -> hb_listener (fr_self f) = Some li -> (rest = li_accepts li \/ exists a, li_accepts li = a :: rest) ->
  forall f', fr_self f' = set hb_l_listener (Some (mk_Listener rest (li_nonblocking li))) (fr_self f) -> busy [] f'.
Proof.
  intros [[Hid Hfr Hre Hwr Hpe] [Hf Hl Hs Ho Hn]] Hli Hrest f' Hf'. unfold serving. rewrite Hf'.
  split; split; simpl; try done. intros ? [= <-]. specialize (Hfr li Hli). unfold fresh_listener in *. simpl.
  destruct Hrest as [-> | [a Ha]]; [done|]. rewrite Ha in Hfr. by inversion Hfr.
Qed.

Lemma wp_accept_client f (Q : unit -> frame Hub -> Prop) (E : exit -> frame Hub -> Prop) :
  busy [] f -> orderly f -> (hb_next_client_id (fr_self f) + 1 < u32_modulus)%N ->
  (forall f, busy [] f -> orderly f -> Q tt f) ->
  (forall f, busy [] f -> E (hk_blocking_socket k) f) ->
  wp (accept_client clock k) Q E f.
Proof.
  intros Hsv Hor Hnx HQ HE. unfold accept_client. wp_run.
  destruct (N.ltb_spec 0 (remaining_budget (fr_ctx f))) as [Hb|Hb]; [|wp_run; by apply HQ].
  assert (in_order (hb_box (fr_self f))) as Hin by (destruct Hor; [done|lia]).
  wp_run. destruct (hb_listener (fr_self f)) as [li|] eqn:Hli; [|wp_run; by apply HQ].
  unfold listener_accept. destruct (li_accepts li) as [|a rest] eqn:Hacc; wp_run.
  - apply HQ; [|by left]. destruct li as [acc nb]. simpl in Hacc.
    eapply (serving_listener f (mk_Listener acc nb) acc); [done|done|by left|done].
  - destruct a as [sock|kind]; wp_run.
    + destruct (so_nonblocking sock); wp_run.
      * apply wp_activity. intros t n. wp_run. apply HQ; [|by left].
        split; simpl; by eapply serving_accept.
      * apply HE. eapply (serving_listener f li rest); [done|done|by right; eexists|done].
    + apply HQ; [|by left]. eapply (serving_listener f li rest); [done|done|by right; eexists|done].
Qed.

(** A read takes the next bytes; no bytes are the end or an error. *)
Lemma sock_read_seen n sock res sock' :
  sock_read n sock = (res, sock') ->
  so_seen sock' = so_seen sock ++ match res with Ok bs => bs | Err _ => [] end /\ so_written sock' = so_written sock.
Proof.
  unfold sock_read. destruct (so_reads sock) as [|[bs|kind] rest].
  - intros [= <- <-]. by rewrite app_nil_r.
  - destruct (_ <=? _)%N; intros [= <- <-]; done.
  - intros [= <- <-]. done.
Qed.

Lemma sock_write_all_written bs sock res sock' :
  sock_write_all bs sock = (res, sock') ->
  so_seen sock' = so_seen sock ++ [] /\ exists part, so_written sock' = so_written sock ++ part /\ part `prefix_of` bs.
Proof.
  unfold sock_write_all. rewrite app_nil_r. destruct (so_writes sock) as [|[|n kind] rest]; intros [= <- <-]; simpl.
  - split; [done|]. by exists bs.
  - split; [done|]. by exists bs.
  - split; [done|]. exists (take n bs). split; [done|apply prefix_take].
Qed.

(** The connection after a read without data, or after a write. *)
Lemma busy_put l f id cn cn' part f' :
  busy l f -> hb_connections (fr_self f) !! id = Some cn ->
  so_seen (cn_sock cn') = so_seen (cn_sock cn) ++ [] ->
  so_written (cn_sock cn') = so_written (cn_sock cn) ++ part ->
  (part = [] \/ exists p, answer_to given id p /\ part `prefix_of` p) ->
  fr_self f' = set hb_l_connections (<[id := cn']> (hb_connections (fr_self f))) (fr_self f) -> busy l f'.
Proof.
  intros Hb Hcn Hs Hw Hp Hf'. unfold serving. rewrite Hf'.
  eapply (serving_put given h0 l f id cn cn' [] part); try done; apply Hb.
Qed.

Lemma wp_read_client l f id remove (Q : list N -> frame Hub -> Prop) E :
  busy l f -> orderly f -> (0 < remaining_budget (fr_ctx f))%N ->
  (forall l f remove, busy l f -> orderly f -> Q remove f) ->
  wp (read_client clock k id remove) Q E f.
Proof.
  intros Hb Hor Hbu HQ. assert (in_order (hb_box (fr_self f))) as Hin by (destruct Hor; [done|lia]).
  unfold read_client. wp_run. destruct (hb_connections (fr_self f) !! id) as [cn|] eqn:Hcn; [|wp_run; by apply (HQ l)].
  destruct (sock_read _ _) as [res sock] eqn:Hread. apply sock_read_seen in Hread as [Hs Hw].
  rewrite <- (app_nil_r (so_written (cn_sock cn))) in Hw. unfold put_connection. wp_run.
  destruct res as [[|b bs]|kind].
  - wp_run. apply (HQ l); [|by left]. eapply (busy_put l f id cn (with_sock sock cn) []); try done; by left.
  - wp_run. apply wp_activity. intros t n. wp_run. rewrite insert_insert_eq. apply wp_zoom, wp_send_or_keep; simpl; [|done].
    intros o q es Hoq _ _ Hord. wp_run. apply (HQ (l ++ [(id, b :: bs)])); [|by left].
    eapply (serving_put given h0 l f id cn (mk_Connection t sock) (b :: bs) []); try done; [by left|].
    simpl. rewrite Hoq, map_app. simpl. destruct Hb as [_ [Hf _ _ _ _]]. by rewrite app_assoc, Hf, <- !app_assoc.
  - assert (busy l (with_self (set hb_l_connections (<[id := with_sock sock cn]> (hb_connections (fr_self f))) (fr_self f)) f))
      as Hb' by (eapply (busy_put l f id cn (with_sock sock cn) []); try done; by left).
    destruct kind; wp_run; apply (HQ l); try exact Hb'; by left.
Qed.

Lemma wp_read_clients ids : forall l f remove (Q : list N -> frame Hub -> Prop) E,
  busy l f -> orderly f -> (forall l f remove, busy l f -> Q remove f) ->
  wp (read_clients clock k ids remove) Q E f.
Proof.
  induction ids as [|id ids IH]; intros l f remove Q E Hb Hor HQ; simpl; wp_run; [by eapply HQ|].
  destruct (N.eqb_spec (remaining_budget (fr_ctx f)) 0); wp_run; [by eapply HQ|].
  eapply wp_read_client; [done|done|lia|]. intros l' f' remove' Hb' Hor'. by eapply IH.
Qed.

(** A position in the bytes unwinds for neither kind of server. *)
Hypothesis Hfrom : forall n bs, (n <= length bs)%nat -> hk_from k n bs = Some (drop n bs).
Hypothesis Hwork : (hk_block_work k <= 1)%N.

Lemma wp_route_response l f remove (Q : list N -> frame Hub -> Prop) E :
  busy l f -> (forall f remove, busy l f -> Q remove f) -> wp (route_response clock k remove) Q E f.
Proof.
  intros Hb HQ. unfold route_response. wp_run.
  destruct (N.ltb_spec 0 (remaining_budget (fr_ctx f))) as [Hbu|Hbu]; wp_run; [|by apply HQ].
  apply wp_pop; simpl.
  { intros _ r [Hr _ _]. wp_run. apply HQ. destruct Hb as [[Hid Hfr Hre Hwr Hpe] Hm].
    split; [split|by destruct Hm; split]; simpl; try done. by rewrite Hr, drop_0. }
  intros m rest r Hi [Hr _ _]. wp_run. rewrite Hi in Hr. simpl in Hr. rewrite drop_0 in Hr.
  assert (m ∈ given) as Hm by (destruct Hb as [[_ _ Hre _ _] _]; apply Hre; rewrite Hi; set_solver).
  assert (busy l (with_self (set hb_l_resp r (fr_self f)) f)) as Hb'.
  { destruct Hb as [[Hid Hfr Hre Hwr Hpe] Hmv]. split; [split|by destruct Hmv; split]; simpl; try done.
    rewrite Hr. intros x Hx. apply Hre. rewrite Hi. set_solver. }
  destruct (split_frame (default [] (as_bytes m))) as [[id pos]|] eqn:Hsp; [|wp_run; by apply HQ].
  assert (answer_to given id (drop (S pos) (default [] (as_bytes m)))) as Hans by (exists m, pos; done).
  destruct (split_frame_Some _ _ _ Hsp) as (ds & Hbs & _ & Hlen). rewrite Hfrom.
  2: { rewrite Hbs, length_app. simpl. lia. }
  set (p := drop (S pos) _) in *. wp_run.
  destruct (hb_connections (fr_self f) !! id) as [cn|] eqn:Hcn; [|wp_run; by apply HQ].
  destruct (sock_write_all _ _) as [res sock] eqn:Hwrite. apply sock_write_all_written in Hwrite as [Hs (part & Hw & Hpre)].
  unfold put_connection. wp_run. assert (part = [] \/ exists p, answer_to given id p /\ part `prefix_of` p) as Hpart by eauto.
  assert (busy l (with_self (set hb_l_connections (<[id := with_sock sock cn]> (hb_connections (fr_self f)))
    (set hb_l_resp r (fr_self f))) f)) as Hb2 by (by eapply (busy_put l (with_self (set hb_l_resp r (fr_self f)) f) id cn (with_sock sock cn) part)).
  destruct res as [[]|kind].
  - wp_run. apply wp_activity. intros t n. wp_run. rewrite insert_insert_eq. apply HQ.
    by eapply (busy_put l (with_self (set hb_l_resp r (fr_self f)) f) id cn (mk_Connection t sock) part).
  - destruct kind; wp_run; apply HQ; try exact Hb2. destruct Hb2 as [[Hid Hfr Hre Hwr Hpe] Hmv].
    split; [split|by destruct Hmv; split]; simpl in *; try done.
    intros i x. destruct (decide (i = id)) as [->|Hne].
    + rewrite lookup_insert_eq. intros [= <-]. by exists p.
    + rewrite lookup_insert_ne by done. apply Hpe.
Qed.

Definition waiting (e : N * FbpMessage) : Prop := exists p, e.2 = Bytes p /\ answer_to given e.1 p.

Lemma wp_retry_responses responses : forall l f lists (Q : list N * list N -> frame Hub -> Prop) E,
  Forall waiting responses -> busy l f -> (forall f lists, busy l f -> Q lists f) ->
  wp (retry_responses clock k responses lists) Q E f.
Proof.
  induction responses as [|[id m] responses IH]; intros l f [fi re] Q E Hwa Hb HQ; simpl; wp_run; [by apply HQ|].
  apply Forall_cons in Hwa as [(p & Hm & Hp) Hwa]. simpl in Hm, Hp. subst m.
  destruct (N.eqb_spec (remaining_budget (fr_ctx f)) 0) as [|Hbu]; wp_run; [by apply HQ|]. unfold retry_response. wp_run.
  destruct (hb_connections (fr_self f) !! id) as [cn|] eqn:Hcn; [|wp_run; by eapply IH].
  simpl. destruct (sock_write_all _ _) as [res sock] eqn:Hwrite.
  apply sock_write_all_written in Hwrite as [Hs (part & Hw & Hpre)].
  assert (part = [] \/ exists p, answer_to given id p /\ part `prefix_of` p) as Hpart by eauto.
  unfold put_connection. wp_run. destruct res as [[]|kind].
  - wp_run. apply wp_activity. intros t n. wp_run. rewrite insert_insert_eq.
    eapply IH; [done| |done]. by eapply (busy_put l f id cn (mk_Connection t sock) part).
  - assert (busy l (with_self (set hb_l_connections (<[id := with_sock sock cn]> (hb_connections (fr_self f)))
      (fr_self f)) f)) as Hb2 by (by eapply (busy_put l f id cn (with_sock sock cn) part)).
    destruct kind; wp_run; (eapply IH; [done|exact Hb2|done]).
Qed.

Lemma remove_all_lookup {V} ids (m : gmap N V) i x : remove_all ids m !! i = Some x -> m !! i = Some x.
Proof.
  unfold remove_all. revert m. induction ids as [|id ids IH]; intros m; [done|]. simpl.
  intros H%IH. by apply lookup_delete_Some in H as [_ ?].
Qed.

Lemma wp_clean_up l f finished remove (Q : unit -> frame Hub -> Prop) E :
  busy l f -> (forall f, busy l f -> Q tt f) -> wp (clean_up finished remove) Q E f.
Proof.
  intros [[Hid Hfr Hre Hwr Hpe] [Hf Hl Hs Ho Hn]] HQ. unfold clean_up. wp_run. apply HQ.
  split; split; simpl; try done.
  - intros i x H%remove_all_lookup. by eapply Hid.
  - intros i x H%remove_all_lookup. by eapply Hwr.
  - intros i x H%remove_all_lookup%remove_all_lookup. by eapply Hpe.
  - intros i x H%remove_all_lookup. by eapply Hs.
  - intros i x H%remove_all_lookup. by eapply Ho.
Qed.

(** What a call does, from the loops to the end. *)
Lemma wp_serve f (Q : unit -> frame Hub -> Prop) (E : exit -> frame Hub -> Prop) :
  fr_self f = h0 -> (hb_next_client_id h0 + 1 < u32_modulus)%N ->
  (forall l f, busy l f -> Q tt f) -> (forall f, busy [] f -> E (hk_blocking_socket k) f) ->
  wp (serve clock k) Q E f.
Proof.
  intros Hself Hnx HQ HE. unfold serve. apply wp_bind, wp_zoom, wp_flush; simpl. rewrite Hself.
  intros o es Hsent _. set (n := movable _ _ _). wp_run.
  pose proof (sent_room _ _ _ _ Hsent) as Hroom. rewrite length_take in Hroom. destruct Hsent as [Hi Hc _ _ _].
  match goal with |- wp _ _ _ ?g => set (f1 := g) end.
  assert (busy [] f1) as Hb1.
  { pose proof (moved_refl given h0 Hh0) as [Hf Hl Hs Ho Hn]. split.
    - destruct Hh0 as [Hid Hfr Hre Hwr Hpe]. by split.
    - split; simpl; try done. rewrite app_nil_r, Hi, <- app_assoc. by rewrite take_drop. }
  assert (orderly f1) as Ho1.
  { unfold orderly, in_order. simpl. destruct (decide (remaining_budget (fr_ctx f) - N.of_nat n = 0)%N); [by right|left].
    unfold n, movable in *. destruct (decide (length (ob_pending (hb_box h0)) <= room (ob_out (hb_box h0)))%nat).
    - left. apply drop_ge. lia.
    - right. rewrite Hroom. lia. }
  apply wp_accept_client; [done|done|done| |exact HE]. clear f1 Hb1 Ho1. intros f1 Hb1 Ho1. wp_run.
  eapply wp_read_clients; [done|done|]. clear f1 Hb1 Ho1. intros l f1 remove Hb1. wp_run.
  eapply (wp_route_response l); [done|]. clear f1 remove Hb1. intros f1 remove Hb1. wp_run.
  eapply (wp_retry_responses _ l); [|done|].
  { apply Forall_forall. intros [id m] Hin%hash_iter_elem. destruct Hb1 as [[_ _ _ _ Hpe] _]. by apply Hpe. }
  clear f1 remove Hb1. intros f1 lists Hb1. apply (wp_clean_up l); [done|]. intros f2 Hb2. by apply (HQ l).
Qed.
End call.
End hub.

(** * Runs of a server

    A server is a component around a hub.  [hs_serves] is what its [process]
    promises: whatever it does to the hub is the work of a call. *)
Section runs.
Context `{R : Rtrb} `{HI : HashIter}.

Class HubServer (C : Type) : Type := {
  hs_kind : HubKind;
  hs_hub : lens C Hub;
  hs_process : (nat -> Instant) -> proc C ProcessResult;
  hs_serves clock given c ctx f r :
    hub_ok given (get hs_hub c) -> (0 < remaining_budget ctx)%N ->
    (hb_next_client_id (get hs_hub c) + 1 < u32_modulus)%N ->
    call (hs_process clock) c ctx = Some (f, Some r) ->
    hub_ok given (get hs_hub (fr_self f)) /\ exists l, moved hs_kind (get hs_hub c) l (get hs_hub (fr_self f))
}.

Context {C : Type} `{HS : HubServer C}.

(** A server, the packets that its RESP has been sent, and those that its
    consumer has received. *)
Record HubRun : Type := mk_HubRun {
  hr_server : C;
  hr_given : list FbpMessage;
  hr_got : list FbpMessage
}.
Definition hr_hub (s : HubRun) : Hub := get hs_hub (hr_server s).

(** What happens to the hub outside of a call: a client sends or goes, a client
    comes, a packet arrives at RESP, its sender goes. *)
Inductive hub_event : Hub -> list FbpMessage -> Hub -> list FbpMessage -> Prop :=
| event_data h given id cn reads writes :
    hb_connections h !! id = Some cn ->
    hub_event h given
      (set hb_l_connections (<[id := mk_Connection (cn_last_active cn)
         (mk_Socket (so_reads (cn_sock cn) ++ reads) (so_writes (cn_sock cn) ++ writes) (so_seen (cn_sock cn))
            (so_written (cn_sock cn)) (so_nonblocking (cn_sock cn)))]> (hb_connections h)) h) given
| event_client h given li a :
    hb_listener h = Some li -> fresh_socket a ->
    hub_event h given (set hb_l_listener (Some (mk_Listener (li_accepts li ++ [a]) (li_nonblocking li))) h) given
| event_response h given m r :
    ring_push m (hb_resp h) = (Ok tt, r) -> hub_event h given (set hb_l_resp r h) (given ++ [m])
| event_closed h given :
    hub_event h given (set hb_l_resp (ring_drop_producer (hb_resp h)) h) given.

(** A server is called, as long as fewer than 2^32 clients have come; something
    happens to its hub; the consumer takes a packet; something else happens to
    the component (a signal, a configuration). *)
Inductive hub_step : HubRun -> HubRun -> Prop :=
| hub_called clock c given got ctx f r :
    (0 < remaining_budget ctx)%N -> (hb_next_client_id (get hs_hub c) + 1 < u32_modulus)%N ->
    call (hs_process clock) c ctx = Some (f, Some r) ->
    hub_step (mk_HubRun c given got) (mk_HubRun (fr_self f) given got)
| hub_happens c c' given given' got :
    hub_event (get hs_hub c) given (get hs_hub c') given' ->
    hub_step (mk_HubRun c given got) (mk_HubRun c' given' got)
| hub_taken c c' given got m r' :
    ring_pop (pes_sink (ob_out (hb_box (get hs_hub c)))) = (Some m, r') ->
    get hs_hub c' = set hb_l_box (mk_Outbox (set_sink r' (ob_out (hb_box (get hs_hub c))))
      (ob_pending (hb_box (get hs_hub c)))) (get hs_hub c) ->
    hub_step (mk_HubRun c given got) (mk_HubRun c' given (got ++ [m]))
| hub_other c c' given got :
    get hs_hub c' = get hs_hub c -> hub_step (mk_HubRun c given got) (mk_HubRun c' given got).

(** A server that has not been configured. *)
Definition hub_untouched (s : HubRun) : Prop :=
  let h := hr_hub s in
  hb_listener h = None /\ ring_items (hb_resp h) = [] /\ hb_connections h = ∅ /\
  hb_pending_responses h = ∅ /\ sink_items (ob_out (hb_box h)) = [] /\ ob_pending (hb_box h) = [] /\
  hr_given s = [] /\ hr_got s = [].

Record hub_inv (s : HubRun) (l : log) : Prop := mk_hub_inv {
  hi_ok : hub_ok (hr_given s) (hr_hub s);
  hi_frames : hr_got s ++ sink_items (ob_out (hb_box (hr_hub s))) ++ ob_pending (hb_box (hr_hub s)) =
    map (fun e => hk_frame hs_kind e.1 e.2) l;
  hi_log : forall e, e ∈ l -> (e.1 < hb_next_client_id (hr_hub s))%N;
  hi_seen : forall id cn, hb_connections (hr_hub s) !! id = Some cn -> so_seen (cn_sock cn) = read_from id l
}.

Lemma hub_called_inv clock c given got ctx f r l :
  hub_inv (mk_HubRun c given got) l -> (0 < remaining_budget ctx)%N ->
  (hb_next_client_id (get hs_hub c) + 1 < u32_modulus)%N -> call (hs_process clock) c ctx = Some (f, Some r) ->
  exists l', hub_inv (mk_HubRun (fr_self f) given got) (l ++ l').
Proof.
  intros [Hok Hf Hl Hs] Hb Hn Hcall. unfold hr_hub in *. simpl in *.
  destruct (hs_serves clock given c ctx f r Hok Hb Hn Hcall) as [Hok' (l' & [Mf Ml Ms Mo Mn])]. exists l'. split; unfold hr_hub in *; simpl in *; try done.
  - rewrite Mf, map_app, <- Hf. by rewrite <- !app_assoc.
  - intros e [He|He]%elem_of_app; [|by apply Ml]. apply Hl in He. unfold hr_hub in *. simpl. lia.
  - intros id cn Hcn. rewrite (Ms _ _ Hcn), read_from_app. f_equal. unfold seen.
    destruct (hb_connections (get hs_hub c) !! id) as [cn0|] eqn:Hcn0; [by apply Hs|].
    symmetry. apply read_from_none. intros e He%Hl <-. destruct (Mo _ _ Hcn) as [[? ?]|]; [congruence|lia].
Qed.

Lemma hub_event_inv h given h' given' :
  hub_event h given h' given' -> hub_ok given h ->
  hub_ok given' h' /\ hb_box h' = hb_box h /\ hb_next_client_id h' = hb_next_client_id h /\
  (forall id cn', hb_connections h' !! id = Some cn' ->
     exists cn, hb_connections h !! id = Some cn /\ so_seen (cn_sock cn') = so_seen (cn_sock cn)).
Proof.
  intros He [Hid Hfr Hre Hwr Hpe]. destruct He as [h given id cn reads writes Hcn|h given li a Hli Ha|h given m r Hp|h given];
    (split; [split|split_and!]; simpl; try done); try (intros; by eexists).
  - intros i c. destruct (decide (i = id)) as [->|Hne]; [intros _; by eapply Hid|].
    rewrite lookup_insert_ne by done. apply Hid.
  - intros i c. destruct (decide (i = id)) as [->|Hne].
    + rewrite lookup_insert_eq. intros [= <-]. simpl. by apply Hwr.
    + rewrite lookup_insert_ne by done. apply Hwr.
  - intros i c. destruct (decide (i = id)) as [->|Hne].
    + rewrite lookup_insert_eq. intros [= <-]. by exists cn.
    + rewrite lookup_insert_ne by done. intros; by eexists.
  - intros ? [= <-]. unfold fresh_listener. simpl. apply Forall_app. split; [by apply Hfr|]. by constructor.
  - intros x Hx. pose proof (ring_push_items m (hb_resp h)) as Hi. rewrite Hp in Hi. simpl in Hi.
    pose proof (ring_push_res m (hb_resp h)) as Hres. rewrite Hp in Hres. simpl in Hres.
    destruct (_ <? _)%nat; [|done]. rewrite Hi in Hx. set_solver.
  - intros i x H. by apply answers_more, (Hwr i).
  - intros i x H. destruct (Hpe i x H) as (p & Hm & Hp'). exists p. split; [done|]. by apply answer_to_more.
  - intros x. rewrite ring_drop_producer_items. apply Hre.
Qed.

Lemma hub_step_inv s s' l : hub_inv s l -> hub_step s s' -> exists l', hub_inv s' (l ++ l').
Proof.
  intros Hinv Hs. destruct Hs as [clock c given got ctx f r Hb Hn Hcall|c c' given given' got He|c c' given got m r' Hpop Hc'|c c' given got Hc'].
  - by eapply hub_called_inv.
  - exists []. rewrite app_nil_r. destruct Hinv as [Hok Hf Hl Hs]. unfold hr_hub in *. simpl in *.
    destruct (hub_event_inv _ _ _ _ He Hok) as (Hok' & Hbox & Hnx & Hcn). split; unfold hr_hub; simpl; try done.
    + by rewrite Hbox.
    + by rewrite Hnx.
    + intros id cn' H. destruct (Hcn _ _ H) as (cn & Hc & ->). by apply Hs.
  - exists []. rewrite app_nil_r. destruct Hinv as [Hok Hf Hl Hs]. unfold hr_hub in *. simpl in *.
    split; unfold hr_hub; simpl; rewrite ?Hc'; simpl; try done; [by destruct Hok; split|].
    pose proof (ring_pop_items (pes_sink (ob_out (hb_box (get hs_hub c))))) as Hi.
    pose proof (ring_pop_res (pes_sink (ob_out (hb_box (get hs_hub c))))) as Hr. rewrite Hpop in Hi, Hr. simpl in *.
    rewrite <- Hf. unfold sink_items. simpl. rewrite Hi.
    destruct (ring_items (pes_sink (ob_out (hb_box (get hs_hub c))))) as [|x rest]; [done|].
    simpl in *. injection Hr as <-. by rewrite <- app_assoc.
  - exists []. rewrite app_nil_r. destruct Hinv as [Hok Hf Hl Hs]. unfold hr_hub in *. simpl in *.
    by split; unfold hr_hub; simpl; rewrite ?Hc'.
Qed.

Lemma hub_untouched_inv s : hub_untouched s -> hub_inv s [].
Proof.
  unfold hub_untouched. intros (Hli & Hr & Hc & Hp & Ho & Hq & Hg & Hgot). split; [split|..].
  - rewrite Hc. intros id cn. by rewrite lookup_empty.
  - by rewrite Hli.
  - rewrite Hr. set_solver.
  - rewrite Hc. intros id cn. by rewrite lookup_empty.
  - rewrite Hp. intros id cn. by rewrite lookup_empty.
  - by rewrite Hgot, Ho, Hq.
  - set_solver.
  - rewrite Hc. intros id cn. by rewrite lookup_empty.
Qed.

Lemma hub_run_inv s0 s : hub_untouched s0 -> rtc hub_step s0 s -> exists l, hub_inv s l.
Proof.
  intros H0%hub_untouched_inv Hr. revert H0. generalize (@nil (N * list byte)) as l.
  induction Hr as [s|s1 s2 s3 Hs Hr IH]; intros l Hl; [by exists l|].
  destruct (hub_step_inv s1 s2 l Hl Hs) as [l' Hl']. by apply (IH (l ++ l')).
Qed.
End runs.

(** * The two servers *)
Section servers.
Context `{R : Rtrb} `{HI : HashIter}.
(** A new listener has clients that have not been served yet. *)
Variable bind_ : string -> result Listener ErrorKind.
Hypothesis bind_fresh : forall addr li, bind_ addr = Ok li -> fresh_listener li.

Lemma ts_hub_set h (c : TCPServerComponent) : get ts_hub (set ts_hub h c) = h.
Proof. by destruct h as [? ? [] ? ? ?]. Qed.
Lemma us_hub_set h (c : UnixSocketServerComponent) : get us_hub (set us_hub h c) = h.
Proof. by destruct h as [? ? [] ? ? ?]. Qed.

(** What is left of the hub when the server has looked for its address. *)
Definition listening (h0 h : Hub) : Prop :=
  h = h0 \/ exists li, h = set hb_l_listener (Some li) h0 /\ fresh_listener li.

Lemma listening_ok given k h0 h l h' :
  hub_ok given h0 -> listening h0 h ->
  hub_ok given h /\ hb_next_client_id h = hb_next_client_id h0 /\ (moved k h l h' -> moved k h0 l h').
Proof.
  intros Hok [-> | (li & -> & Hli)]; [done|]. destruct Hok as [Hid Hfr Hre Hwr Hpe].
  split_and!; [split; simpl; try done; by intros ? [= <-]|done|by intros [? ? ? ? ?]; split].
Qed.

(** The work of a call, seen from its beginning. *)
Definition served given k h0 h : Prop := hub_ok given h /\ exists l, moved k h0 l h.

Lemma listening_served given k h0 h : hub_ok given h0 -> listening h0 h -> served given k h0 h.
Proof.
  intros Hok Hl. destruct (listening_ok given k h0 h [] h Hok Hl) as (Hok' & _ & Hm). split; [done|].
  exists []. by apply Hm, (moved_refl k given).
Qed.

Lemma wp_serve_hub clock given k h0 (f : frame Hub) (Q : unit -> frame Hub -> Prop) (E : exit -> frame Hub -> Prop) :
  (forall n bs, (n <= length bs)%nat -> hk_from k n bs = Some (drop n bs)) -> (hk_block_work k <= 1)%N ->
  hub_ok given h0 -> listening h0 (fr_self f) -> (hb_next_client_id h0 + 1 < u32_modulus)%N ->
  (forall f, served given k h0 (fr_self f) -> Q tt f) ->
  (forall f, served given k h0 (fr_self f) -> E (hk_blocking_socket k) f) ->
  wp (serve clock k) Q E f.
Proof.
  intros Hfrom Hw Hok Hli Hnx HQ HE. destruct (listening_ok given k h0 (fr_self f) [] (fr_self f) Hok Hli) as (Hok' & Hn & _).
  apply (wp_serve clock k given (fr_self f)); [done..|by rewrite Hn| |].
  - intros l f' [Ho Hm]. apply HQ. split; [done|]. exists l.
    by destruct (listening_ok given k h0 (fr_self f) l (fr_self f') Hok Hli) as (_ & _ & H); apply H.
  - intros f' [Ho Hm]. apply HE. split; [done|]. exists [].
    by destruct (listening_ok given k h0 (fr_self f) [] (fr_self f') Hok Hli) as (_ & _ & H); apply H.
Qed.

Lemma slice_from_drop n bs : (n <= length bs)%nat -> slice_from n bs = Some (drop n bs).
Proof. intros H. unfold slice_from. by apply Nat.leb_le in H as ->. Qed.

(** How a call may end: it unwinds, or the hub has been served. *)
Definition call_end {C} (hub : lens C Hub) given k h0 (f : frame C) (r : option ProcessResult) : Prop :=
  is_Some r -> served given k h0 (get hub (fr_self f)).

(** A call that looks for its address, then at its signals, and then serves. *)
Lemma wp_server_call {C} (clock : nat -> Instant) (hub : lens C Hub) (signals : lens C Signals) (k : HubKind)
    (listen : proc C unit) (result_ : proc C ProcessResult) given (c : C) ctx :
  (forall h c, get hub (set hub h c) = h) -> (forall s c, get hub (set signals s c) = get hub c) ->
  (forall n bs, (n <= length bs)%nat -> hk_from k n bs = Some (drop n bs)) -> (hk_block_work k <= 1)%N ->
  hk_blocking_socket k <> Break ->
  (forall Q E, (forall f, listening (get hub c) (get hub (fr_self f)) -> Q tt f) ->
     (forall f, listening (get hub c) (get hub (fr_self f)) -> E (Return NoWork) f) ->
     (forall f, E Unwind f) -> wp listen Q E (mk_frame c ctx 0 [] 0)) ->
  (forall Q E f, (forall r f', fr_self f' = fr_self f -> Q r f') ->
     (forall f', fr_self f' = fr_self f -> E (Return Finished) f') -> wp result_ Q E f) ->
  hub_ok given (get hub c) -> (hb_next_client_id (get hub c) + 1 < u32_modulus)%N ->
  exists f r, call (listen;; zoom signals (poll message_as_utf8);; zoom hub (serve clock k);; result_) c ctx
    = Some (f, r) /\ call_end hub given k (get hub c) f r.
Proof.
  intros Hgs Hgsig Hfrom Hwork Hbr Hlisten Hresult Hok Hnx. apply wp_call. apply wp_bind, Hlisten.
  2: { intros f Hf _. by apply listening_served. }
  2: { by intros f []. }
  intros f Hli. apply wp_bind, wp_zoom, wp_poll; cbn [fr_self].
  2: { intros _ s _ _. cbn [fr_self]. rewrite Hgsig. by apply listening_served. }
  intros _ s _. apply wp_bind, wp_zoom. apply (wp_serve_hub clock given k (get hub c)); [done..| |done| |]; cbn [fr_self].
  { by rewrite Hgsig. }
  - intros g Hg. apply Hresult; intros; intros _; cbn [fr_self] in *; simplify_eq;
      match goal with H : fr_self _ = _ |- _ => rewrite H end; cbn [fr_self]; by rewrite Hgs.
  - intros g Hg. destruct (hk_blocking_socket k); [done|intros _; cbn [fr_self]; by rewrite Hgs|by intros []].
Qed.

Lemma tcp_serves clock given (c : TCPServerComponent) ctx :
  hub_ok given (get ts_hub c) -> (0 < remaining_budget ctx)%N ->
  (hb_next_client_id (get ts_hub c) + 1 < u32_modulus)%N ->
  exists f r, call (tcp_server_process clock bind_) c ctx = Some (f, r) /\
    call_end ts_hub given tcp_kind (get ts_hub c) f r.
Proof.
  intros Hok Hb Hnx. apply (wp_server_call clock); [apply ts_hub_set|done|apply slice_from_drop|done|done| | |done|done].
  - intros Q E HQ HE HU. unfold tcp_listen. apply wp_bind, wp_read. destruct (hb_listener _); [wp_run; apply HQ; by left|].
    apply wp_bind, wp_pop; [intros _ r _; wp_run; apply HE; by left|].
    intros m rest r _ _. destruct (message_as_utf8 m) as [addr|]; [|wp_run; apply HU].
    apply wp_bind, wp_write. destruct (bind_ addr) as [li|kind] eqn:Hbind; [|wp_run; apply HE; by left].
    destruct (li_nonblocking li); [|wp_run; apply HU]. apply wp_bind, wp_zoom, wp_write.
    apply wp_bind, wp_work. apply wp_charge; [simpl; lia|]. apply HQ. right. exists li.
    split; [done|by eapply bind_fresh].
  - intros Q E f HQ HE. unfold tcp_result. wp_run. destruct (_ && _); wp_run; [by apply HE|].
    destruct (_ <? _)%N; wp_run; [by apply HQ|]. destruct (is_none _); wp_run; [by apply HQ|].
    apply wp_wake_poll. wp_run. by apply HQ.
Qed.

Lemma unix_serves clock given (c : UnixSocketServerComponent) ctx :
  hub_ok given (get us_hub c) -> (hb_next_client_id (get us_hub c) + 1 < u32_modulus)%N ->
  exists f r, call (unix_server_process clock bind_) c ctx = Some (f, r) /\
    call_end us_hub given unix_kind (get us_hub c) f r.
Proof.
  intros Hok Hnx. apply (wp_server_call clock); [apply us_hub_set|done| |done|done| | |done|done].
  - intros n bs H. unfold unix_kind, get_from. simpl. by rewrite slice_from_drop.
  - intros Q E HQ HE _. unfold unix_listen. apply wp_bind, wp_read. destruct (hb_listener _); [wp_run; apply HQ; by left|].
    apply wp_bind, wp_pop; [intros _ r _; wp_run; apply HE; by left|]. intros m rest r _ _. simpl.
    destruct (bind_ _) as [li|kind] eqn:Hbind; [|wp_run; apply HE; by left].
    destruct (li_nonblocking li); [|wp_run; apply HE; by left]. apply wp_bind, wp_zoom. wp_run. apply HQ. right.
    exists li. split; [done|by eapply bind_fresh].
  - intros Q E f HQ HE. unfold unix_result. wp_run. destruct (_ <? _)%N; wp_run; [by apply HQ|].
    destruct (is_none _); wp_run; [by apply HQ|]. apply wp_wake_poll. wp_run. by apply HQ.
Qed.
#[export, program] Instance tcp_hub_server : HubServer TCPServerComponent := {|
  hs_kind := tcp_kind; hs_hub := ts_hub; hs_process clock := tcp_server_process clock bind_
|}.
Next Obligation.
  intros clock given c ctx f r Hok Hb Hnx Hcall. destruct (tcp_serves clock given c ctx Hok Hb Hnx) as (f' & r' & Hcall' & Hend).
  rewrite Hcall in Hcall'. injection Hcall' as <- <-. by apply Hend.
Qed.

#[export, program] Instance unix_hub_server : HubServer UnixSocketServerComponent := {|
  hs_kind := unix_kind; hs_hub := us_hub; hs_process clock := unix_server_process clock bind_
|}.
Next Obligation.
  intros clock given c ctx f r Hok _ Hnx Hcall. destruct (unix_serves clock given c ctx Hok Hnx) as (f' & r' & Hcall' & Hend).
  rewrite Hcall in Hcall'. injection Hcall' as <- <-. by apply Hend.
Qed.

(** C19: whatever the order in which TCPServer or UnixSocketServer is called,
    clients come, send and go, answers arrive and packets are taken, and
    whatever the network does: the packets that have been received from the
    outport, those behind it and those that wait in the component each say, read
    from their own bytes, the number of a client and, decoded lossily, the bytes
    of one read from it, in the order of the reads; the reads that bear the number
    of a connected client are, one behind the other, all that has been read from
    it; and if each of these is UTF-8, the texts of the frames with its number are
    these bytes, once and in order. *)
Theorem servers_frame_in_order :
  (forall s0 s : HubRun (C := TCPServerComponent), hub_untouched s0 -> rtc hub_step s0 s -> exists l,
     let sent := hr_got s ++ sink_items (ts_out (hr_server s)) ++ ts_pending_outbound (hr_server s) in
     map tcp_says sent = map (fun e => Some (e.1, utf8_lossy e.2)) l /\
     forall id cn, ts_connections (hr_server s) !! id = Some cn -> so_seen (cn_sock cn) = read_from id l /\
       (Forall (fun e => e.1 = id -> utf8_valid e.2 = true) l -> found_by tcp_says id sent = so_seen (cn_sock cn))) /\
  (forall s0 s : HubRun (C := UnixSocketServerComponent), hub_untouched s0 -> rtc hub_step s0 s -> exists l,
     let sent := hr_got s ++ sink_items (us_out (hr_server s)) ++ us_pending_outbound (hr_server s) in
     map unix_says sent = map (fun e => Some (e.1, utf8_lossy e.2)) l /\
     forall id cn, us_connections (hr_server s) !! id = Some cn -> so_seen (cn_sock cn) = read_from id l /\
       (Forall (fun e => e.1 = id -> utf8_valid e.2 = true) l -> found_by unix_says id sent = so_seen (cn_sock cn))).
Proof.
  split; intros s0 s H0 Hr; destruct (hub_run_inv s0 s H0 Hr) as [l [_ Hf _ Hs]]; exists l.
  - pose proof (eq_trans (f_equal (map tcp_says) Hf) (says_frames _ _ l tcp_says_frame)) as Hm. split; [exact Hm|].
    intros id cn Hcn. rewrite (Hs id cn Hcn). split; [done|]. by apply found_by_valid.
  - pose proof (eq_trans (f_equal (map unix_says) Hf) (says_frames _ _ l unix_says_frame)) as Hm. split; [exact Hm|].
    intros id cn Hcn. rewrite (Hs id cn Hcn). split; [done|]. by apply found_by_valid.
Qed.

(** C20: whatever happens to TCPServer or UnixSocketServer, what has been written
    to a client consists of answers whose frame names this client, and of
    beginnings of such answers (of which a write has failed): no client is sent
    a byte of an answer to another one, although the numbers of clients that
    are gone come back in late answers. *)
Theorem servers_answer_only_the_addressee :
  (forall s0 s : HubRun (C := TCPServerComponent), hub_untouched s0 -> rtc hub_step s0 s ->
     forall id cn, ts_connections (hr_server s) !! id = Some cn ->
     (id < ts_next_client_id (hr_server s))%N /\ answers (hr_given s) id (so_written (cn_sock cn))) /\
  (forall s0 s : HubRun (C := UnixSocketServerComponent), hub_untouched s0 -> rtc hub_step s0 s ->
     forall id cn, us_connections (hr_server s) !! id = Some cn ->
     (id < us_next_client_id (hr_server s))%N /\ answers (hr_given s) id (so_written (cn_sock cn))).
Proof.
  split; intros s0 s H0 Hr id cn Hcn; destruct (hub_run_inv s0 s H0 Hr) as [l [[Hid _ _ Hwr _] _ _ _]];
    (split; [by eapply Hid|by eapply Hwr]).
Qed.
End servers.

(** ** Frames that come back *)

(** A frame of UnixSocketServer that is sent to RESP as it is goes back to
    the client it came from, with the bytes that the client sent when they are
    UTF-8; a frame of TCPServer names no client when it is sent to RESP, because
    it is a text. *)
Theorem frames_come_back id data :
  (id < u32_modulus)%N -> utf8_valid data = true ->
  (exists pos, split_frame (default [] (as_bytes (unix_frame id data))) = Some (id, pos) /\
     hk_from unix_kind (S pos) (default [] (as_bytes (unix_frame id data))) = Some data) /\
  split_frame (default [] (as_bytes (tcp_frame id data))) = None.
Proof.
  intros Hid Hdata. split; [|done]. simpl. eexists. split; [by apply split_frame_bytes|].
  unfold get_from. rewrite slice_from_drop.
  - simpl. do 2 f_equal. unfold frame_bytes. rewrite utf8_lossy_valid by done.
    rewrite drop_app_ge by lia.
    by replace (S _ - _)%nat with 1%nat by lia.
  - unfold frame_bytes. rewrite length_app. simpl. lia.
Qed.

(** ** Concrete runs *)
#[local] Existing Instance list_rtrb.
#[local] Existing Instance sorted_hash_iter.

Definition demo_socket (reads : list ReadAnswer) (writes : list WriteAnswer) : Socket :=
  mk_Socket reads writes [] [] true.
(** Two clients wait; the first one has sent "hi", the second one bytes that are
    not UTF-8. *)
Definition demo_bind (addr : string) : result Listener ErrorKind :=
  if String.eqb addr "nowhere" then Err PermissionDenied
  else Ok (mk_Listener [Ok (demo_socket [ReadBytes [x68; x69]] []); Ok (demo_socket [ReadBytes [xff]] [])] true).
Definition demo_time (n : nat) : Instant := N.of_nat n.

Lemma demo_bind_fresh addr li : demo_bind addr = Ok li -> fresh_listener li.
Proof. unfold demo_bind. destruct (String.eqb _ _); [done|]. intros [= <-]. by repeat constructor. Defined.

Definition demo_tcp : TCPServerComponent :=
  mk_TCPServerComponent (demo_ring true [Text "localhost:1234"]) (demo_ring false []) (demo_out 1) demo_channel
    demo_channel None None ∅ 0 ∅ [].
#[local] Instance demo_hub : HubServer TCPServerComponent := tcp_hub_server demo_bind demo_bind_fresh.

Lemma demo_tcp_untouched : hub_untouched (mk_HubRun demo_tcp [] []).
Proof. by split_and!. Defined.

Lemma demo_answer (c : TCPServerComponent) given got m r :
  ring_push m (ts_resp c) = (Ok tt, r) ->
  hub_step (mk_HubRun c given got) (mk_HubRun (set ts_hub (set hb_l_resp r (get ts_hub c)) c) (given ++ [m]) got).
Proof. intros Hp. apply (hub_happens c (set ts_hub (set hb_l_resp r (get ts_hub c)) c)). by apply (event_response (get ts_hub c)). Defined.

(** Both clients have come and have been read from, although the outport has
    room for one packet; an answer for the first one has been delivered. *)
Lemma demo_tcp_run :
  exists s, rtc hub_step (mk_HubRun demo_tcp [] []) s /\
    sink_items (ts_out (hr_server s)) = [Text "0:hi"] /\ length (ts_pending_outbound (hr_server s)) = 1%nat /\
    hr_given s = [Bytes [x30; x3a; x79; x65; x73]] /\
    (exists cn, ts_connections (hr_server s) !! 0%N = Some cn /\ so_written (cn_sock cn) = [x79; x65; x73]).
Proof.
  eexists. split.
  - eapply rtc_l; [eapply (hub_called demo_time demo_tcp [] [] (demo_context Normal 8)); [reflexivity|reflexivity|vm_compute; reflexivity]|].
    eapply rtc_l; [eapply (demo_answer _ _ _ (Bytes [x30; x3a; x79; x65; x73])); vm_compute; reflexivity|].
    eapply rtc_l; [eapply (hub_called demo_time _ _ _ (demo_context Normal 8)); [reflexivity|reflexivity|vm_compute; reflexivity]|].
    apply rtc_refl.
  - split_and!; [vm_compute; reflexivity..|]. eexists. split; vm_compute; reflexivity.
Defined.

Lemma servers_frame_in_order_witness :
  exists s : HubRun (C := TCPServerComponent), rtc hub_step (mk_HubRun demo_tcp [] []) s /\
    exists l cn, ts_connections (hr_server s) !! 0%N = Some cn /\ so_seen (cn_sock cn) = read_from 0 l /\
    map tcp_says (hr_got s ++ sink_items (ts_out (hr_server s)) ++ ts_pending_outbound (hr_server s)) =
      map (fun e => Some (e.1, utf8_lossy e.2)) l.
Proof.
  destruct demo_tcp_run as (s & Hr & _ & _ & _ & cn & Hcn & _). exists s. split; [exact Hr|].
  destruct (servers_frame_in_order demo_bind demo_bind_fresh) as [H _].
  destruct (H (mk_HubRun demo_tcp [] []) s demo_tcp_untouched Hr) as (l & Hf & Hs).
  exists l, cn. split; [exact Hcn|]. split; [exact (proj1 (Hs _ _ Hcn))|exact Hf].
Defined.

Lemma servers_answer_only_the_addressee_witness :
  exists s : HubRun (C := TCPServerComponent), rtc hub_step (mk_HubRun demo_tcp [] []) s /\
    answers [Bytes [x30; x3a; x79; x65; x73]] 0 [x79; x65; x73].
Proof.
  destruct demo_tcp_run as (s & Hr & _ & _ & Hg & cn & Hcn & Hw). exists s. split; [exact Hr|].
  destruct (servers_answer_only_the_addressee demo_bind demo_bind_fresh) as [H _].
  destruct (H (mk_HubRun demo_tcp [] []) s demo_tcp_untouched Hr 0%N cn Hcn) as [_ Ha].
  rewrite Hg, Hw in Ha. exact Ha.
Defined.

Lemma frames_come_back_witness :
  split_frame (default [] (as_bytes (unix_frame 7 [x68; x69]))) = Some (7%N, 1%nat) /\
  split_frame (default [] (as_bytes (tcp_frame 7 [x68; x69]))) = None.
Proof.
  destruct (frames_come_back 7 [x68; x69]) as [(pos & Hp & _) Ht]; [reflexivity|reflexivity|].
  split; [|exact Ht]. rewrite Hp. vm_compute in Hp. injection Hp as <-. reflexivity.
Defined.

(** An answer that has to wait is replaced by the next answer to the same
    client: the client gets the second one only. *)
Definition blocked_tcp : TCPServerComponent :=
  mk_TCPServerComponent (demo_ring true []) (demo_ring false [Bytes [x30; x3a; x61]; Bytes [x30; x3a; x62]]) (demo_out 8)
    demo_channel demo_channel (Some "localhost:1234") (Some (mk_Listener [] true))
    {[0%N := mk_Connection None (demo_socket [] [WriteError 0 WouldBlock; WriteError 0 WouldBlock])]} 1 ∅ [].
(** Calls with some budgets; what client 0 has been sent, and whether anything
    is left to be sent. *)
Definition tcp_calls (budgets : list N) (c : TCPServerComponent) : option (option (list byte) * bool) :=
  c ← foldl (fun c b => c ← c; p ← call (tcp_server_process demo_time demo_bind) c (demo_context Normal b);
                        match p with (f, Some _) => Some (fr_self f) | _ => None end) (Some c) budgets;
  Some ((fun cn => so_written (cn_sock cn)) <$> ts_connections c !! 0%N,
        bool_decide (ts_pending_responses c = ∅) && bool_decide (ring_items (ts_resp c) = [])).
Example tcp_answer_lost : tcp_calls [1; 1; 8]%N blocked_tcp = Some (Some [x62], true).
Proof. vm_compute. reflexivity. Qed.

(** A partial write that is repeated sends its beginning twice. *)
Definition slow_tcp : TCPServerComponent :=
  set ts_hub (mk_Hub (Some (mk_Listener [] true)) (demo_ring false [Bytes [x30; x3a; x61; x62]])
    (mk_Outbox (demo_out 8) []) {[0%N := mk_Connection None (demo_socket [] [WriteError 1 WouldBlock])]} 1 ∅) blocked_tcp.
Example tcp_answer_repeated : tcp_calls [8%N] slow_tcp = Some (Some [x61; x61; x62], true).
Proof. vm_compute. reflexivity. Qed.
