(* ===== verification/Retry.v ===== *)
(** Retries with exponential backoff (ADR-017) of [src/component_api/src/lib.rs]:
    the configuration, the next retry, and the delay with jitter, in the binary64
    arithmetic of the source. *)
From S2P Require Import Prelude Api.
From Stdlib Require Import NArith ZArith Lia Floats.SpecFloat.
From stdpp Require Import base list strings.
Local Open Scope Z_scope.

(** * [f64]

    Binary64 is the arithmetic of [SpecFloat] with 53 bits and exponents below
    1024, rounding to nearest even. *)
Definition f64 : Type := spec_float.
Definition f64_mul (x y : f64) : f64 := SFmul 53 1024 x y.
Definition f64_add (x y : f64) : f64 := SFadd 53 1024 x y.
Definition f64_sub (x y : f64) : f64 := SFsub 53 1024 x y.
Definition f64_div (x y : f64) : f64 := SFdiv 53 1024 x y.
(** [n as f64]. *)
Definition f64_of (n : Z) : f64 := binary_normalize 53 1024 n 0 false.
(** A quarter. *)
Definition f64_0_25 : f64 := binary_normalize 53 1024 1 (-2) false.

Definition u64_max : Z := 18446744073709551615.
(** [x as u64]: towards zero, and saturating; what is not a number is 0. *)
Definition f64_as_u64 (x : f64) : Z :=
  match x with
  | S754_finite false m e => Z.min (Z.shiftl (Z.pos m) e) u64_max
  | S754_infinity false => u64_max
  | _ => 0
  end.

(** [f64::powi]: repeated squaring, the sign of the exponent by a reciprocal. *)
Fixpoint powi_loop (fuel : nat) (a r : f64) (b : Z) : f64 :=
  match fuel with
  | O => r
  | S fuel =>
      let r := if Z.odd b then f64_mul r a else r in
      let b := Z.quot b 2 in
      if b =? 0 then r else powi_loop fuel (f64_mul a a) r b
  end.
Definition powi (a : f64) (n : Z) : f64 :=
  let r := powi_loop 32 a (f64_of 1) n in
  if n <? 0 then f64_div (f64_of 1) r else r.

(** * The configuration and the next retry *)

Record RetryConfig : Type := mk_RetryConfig {
  rc_max_retries : N;
  rc_initial_delay : Duration;
  rc_backoff_multiplier : f64;
  rc_max_delay : Duration
}.

Definition millis (d : Duration) : Z := Z.of_N d / 1000000.
Definition from_millis (n : Z) : Duration := Z.to_N (n * 1000000).

Definition default_retry_config : RetryConfig :=
  mk_RetryConfig 3 (from_millis 1000) (f64_of 2) (from_millis 30000).

(** [attempt.saturating_sub(1) as i32]. *)
Definition retry_exponent (attempt : N) : Z := i32_of_i64 (Z.of_N (attempt - 1)).

(** The delay of a retry: the initial one, multiplied once per earlier attempt
    and limited. *)
Definition retry_delay (attempt : N) (config : RetryConfig) : Duration :=
  let delay := f64_mul (f64_of (millis (rc_initial_delay config)))
                 (powi (rc_backoff_multiplier config) (retry_exponent attempt)) in
  N.min (from_millis (f64_as_u64 delay)) (rc_max_delay config).

Definition calculate_next_retry (config : RetryConfig) (now : Instant) (s : RetryState) : RetryState :=
  let attempt := ((rs_attempt s + 1) mod u32_modulus)%N in
  mk_RetryState attempt (now + retry_delay attempt config) (rs_last_error_type s).

(** [calculate_backoff_delay] at [epoch] milliseconds since 1970: the delay
    times a factor from the last digits of the clock, at least 100 ms. *)
Definition backoff_factor (epoch : N) : f64 :=
  f64_add (f64_of 1) (f64_sub (f64_div (f64_of (Z.of_N (epoch mod 50))) (f64_of 100)) f64_0_25).
Definition calculate_backoff_delay (attempt : N) (config : RetryConfig) (epoch : N) : Duration :=
  let delay := retry_delay attempt config in
  from_millis (Z.max (f64_as_u64 (f64_mul (f64_of (millis delay)) (backoff_factor epoch))) 100).

(** * The delays of the default configuration *)

(** In milliseconds: doubled up to half a minute. *)
Definition doubled (n : N) : Z := if (n <? 5)%N then 1000 * 2 ^ Z.of_N n else 30000.

(** The loop once its base is infinite. *)
Definition positive (x : f64) : bool :=
  match x with S754_finite false _ _ | S754_infinity false => true | _ => false end.

Lemma powi_loop_infinite fuel r b :
  positive r = true -> 0 < b < 2 ^ Z.of_nat fuel ->
  powi_loop fuel (S754_infinity false) r b = S754_infinity false.
Proof.
  revert r b. induction fuel as [|fuel IH]; intros r b Hr Hb; [simpl in Hb; lia|].
  cbn [powi_loop]. change (f64_mul (S754_infinity false) (S754_infinity false)) with (S754_infinity false).
  rewrite Z.quot_div_nonneg by lia. pose proof (Z.div_mod b 2 ltac:(done)) as Hdm.
  pose proof (Z.mod_pos_bound b 2 ltac:(done)) as Hm.
  assert (f64_mul r (S754_infinity false) = S754_infinity false) as Hri by (by destruct r as [| [] | | [] ]).
  destruct (Z.eqb_spec (b / 2) 0) as [Hz|Hz].
  - assert (b = 1) as -> by lia. simpl. done.
  - apply IH; [|split; [lia|]].
    + destruct (Z.odd b); [by rewrite Hri|done].
    + rewrite Nat2Z.inj_succ, Z.pow_succ_r in Hb by lia. apply Z.div_lt_upper_bound; lia.
Qed.

(** The first [k] rounds of the loop. *)
Fixpoint rounds (k : nat) (a r : f64) (b : Z) : f64 * f64 :=
  match k with
  | O => (a, r)
  | S k => rounds k (f64_mul a a) (if Z.odd b then f64_mul r a else r) (b / 2)
  end.

Lemma powi_loop_rounds k fuel a r b :
  2 ^ Z.of_nat k <= b ->
  powi_loop (k + fuel) a r b = powi_loop fuel (rounds k a r b).1 (rounds k a r b).2 (b / 2 ^ Z.of_nat k).
Proof.
  revert a r b. induction k as [|k IH]; intros a r b Hb; [simpl; by rewrite Z.div_1_r|].
  rewrite Nat2Z.inj_succ, Z.pow_succ_r in Hb |- * by lia. cbn [powi_loop rounds plus].
  pose proof (Z.pow_pos_nonneg 2 (Z.of_nat k) ltac:(done) ltac:(lia)) as Hp.
  assert (2 ^ Z.of_nat k <= b / 2) as Hb2 by (apply Z.div_le_lower_bound; lia).
  rewrite Z.quot_div_nonneg by lia. destruct (Z.eqb_spec (b / 2) 0); [lia|].
  rewrite IH by done. by rewrite Z.div_div by lia.
Qed.

Lemma rounds_mod k a r b : 0 <= b -> rounds k a r b = rounds k a r (b mod 2 ^ Z.of_nat k).
Proof.
  revert a r b. induction k as [|k IH]; intros a r b Hb; [done|]. cbn [rounds].
  rewrite Nat2Z.inj_succ. rewrite (IH _ _ (b / 2)) by (apply Z.div_pos; lia).
  rewrite (IH _ _ (b mod _ / 2)).
  2: { apply Z.div_pos; [|lia]. apply Z.mod_pos_bound. apply Z.pow_pos_nonneg; lia. }
  f_equal.
  - rewrite <- !Z.bit0_odd. by rewrite Z.mod_pow2_bits_low by lia.
  - apply Z.bits_inj'. intros i Hi. destruct (Z.lt_ge_cases i (Z.of_nat k)) as [Hk|Hk].
    + rewrite !Z.mod_pow2_bits_low by lia. rewrite !Z.div2_bits by lia. by rewrite Z.mod_pow2_bits_low by lia.
    + by rewrite !Z.mod_pow2_bits_high by lia.
Qed.

(** All numbers below [n]. *)
Fixpoint up_to (n : nat) : list N := match n with O => [] | S n => N.of_nat n :: up_to n end.
Lemma up_to_elem n m : (m < N.of_nat n)%N -> m ∈ up_to n.
Proof.
  induction n as [|n IH]; intros Hm; [lia|]. simpl. destruct (decide (m = N.of_nat n)) as [->|Hne]; [apply list_elem_of_here|].
  apply list_elem_of_further, IH. lia.
Qed.

(** A test of all numbers below a bound. *)
Lemma test_below (P : N -> bool) n : forallb P (up_to n) = true -> forall m, (m < N.of_nat n)%N -> P m = true.
Proof. intros H m Hm. rewrite forallb_forall in H. by apply H, list_elem_of_In, up_to_elem. Qed.

Definition f64_infinite (x : f64) : bool := match x with S754_infinity false => true | _ => false end.

Lemma powi_2_infinite n : 1024 <= n < 2147483648 -> powi (f64_of 2) n = S754_infinity false.
Proof.
  intros Hn. unfold powi. change 32%nat with (10 + 22)%nat. rewrite powi_loop_rounds by (simpl; lia).
  assert (let p := rounds 10 (f64_of 2) (f64_of 1) n in p.1 = S754_infinity false /\ positive p.2 = true) as [-> Hr].
  { rewrite rounds_mod by lia. pose proof (Z.mod_pos_bound n (2 ^ Z.of_nat 10) ltac:(done)) as Hm.
    set (low := n mod 2 ^ Z.of_nat 10) in *. clearbody low.
    assert ((let p := rounds 10 (f64_of 2) (f64_of 1) (Z.of_N (Z.to_N low)) in
             f64_infinite p.1 && positive p.2) = true) as H.
    { apply (test_below (fun m => let p := rounds 10 (f64_of 2) (f64_of 1) (Z.of_N m) in
        f64_infinite p.1 && positive p.2) 1024); [vm_compute; reflexivity|]. simpl in Hm. lia. }
    rewrite Z2N.id in H by lia. apply andb_true_iff in H as [H1 H2]. split; [|done].
    by destruct (rounds _ _ _ _).1 as [| [] | | ]. }
  rewrite powi_loop_infinite; [|done|].
  - destruct (Z.ltb_spec n 0); [lia|done].
  - change (2 ^ Z.of_nat 10) with 1024. change (2 ^ Z.of_nat 22) with 4194304.
    pose proof (Z.div_mod n 1024 ltac:(done)). pose proof (Z.mod_pos_bound n 1024 ltac:(done)). lia.
Qed.

(** The delays of the default configuration, for all numbers of attempts that
    an [i32] can hold. *)
Lemma default_retry_delay attempt :
  (attempt <= 2147483648)%N -> retry_delay attempt default_retry_config = from_millis (doubled (attempt - 1)).
Proof.
  intros Ha. destruct (N.lt_ge_cases (attempt - 1) 1024) as [Hlt|Hge].
  - assert ((retry_delay (attempt - 1 + 1) default_retry_config =? from_millis (doubled (attempt - 1)))%N = true) as H.
    { apply (test_below (fun n => (retry_delay (n + 1) default_retry_config =? from_millis (doubled n))%N) 1024);
        [vm_compute; reflexivity|lia]. }
    apply N.eqb_eq in H. rewrite <- H. unfold retry_delay, retry_exponent. by rewrite N.add_sub.
  - unfold retry_delay, retry_exponent. rewrite i32_of_i64_id by lia.
    change (rc_backoff_multiplier default_retry_config) with (f64_of 2). rewrite powi_2_infinite by lia.
    unfold doubled. destruct (N.ltb_spec (attempt - 1) 5); [lia|]. vm_compute. reflexivity.
Qed.

Lemma doubled_min n : doubled n = doubled (N.min n 5).
Proof. unfold doubled. destruct (N.ltb_spec n 5), (N.ltb_spec (N.min n 5) 5); try lia. f_equal. f_equal. lia. Qed.

Lemma doubled_range n : 1000 <= doubled n <= 30000.
Proof.
  assert ((1000 <=? doubled (N.min n 5)) && (doubled (N.min n 5) <=? 30000) = true) as H.
  { apply (test_below (fun n => (1000 <=? doubled n) && (doubled n <=? 30000)) 6); [vm_compute; reflexivity|lia]. }
  rewrite <- doubled_min in H. apply andb_true_iff in H as [H1%Z.leb_le H2%Z.leb_le]. lia.
Qed.

Lemma millis_from n : 0 <= n -> millis (from_millis n) = n.
Proof. intros Hn. unfold millis, from_millis. rewrite Z2N.id by lia. by rewrite Z.div_mul. Qed.

(** A delay of [d] milliseconds with the jitter of [e] milliseconds past a
    twentieth of a second. *)
Definition jittered (d : Z) (e : N) : Z := Z.max (f64_as_u64 (f64_mul (f64_of d) (backoff_factor e))) 100.

Lemma jittered_bounds n e :
  (e < 50)%N -> 3 * doubled n <= 4 * jittered (doubled n) e /\ 4 * jittered (doubled n) e < 5 * doubled n.
Proof.
  intros He. rewrite (doubled_min n). assert (N.min n 5 < 6)%N as Hn by lia. revert Hn. generalize (N.min n 5) as i. intros i Hi.
  assert (forallb (fun e => (3 * doubled i <=? 4 * jittered (doubled i) e) && (4 * jittered (doubled i) e <? 5 * doubled i))
    (up_to 50) = true) as H.
  { apply (test_below (fun i => forallb (fun e => (3 * doubled i <=? 4 * jittered (doubled i) e) &&
      (4 * jittered (doubled i) e <? 5 * doubled i)) (up_to 50)) 6); [vm_compute; reflexivity|lia]. }
  pose proof (test_below _ 50 H e ltac:(lia)) as Hie.
  apply andb_true_iff in Hie as [H1%Z.leb_le H2%Z.ltb_lt]. lia.
Qed.

(** C26: with the default configuration the delay before the n-th retry is
    1 s * 2^(n-1), at most 30 s, and the delay with jitter stays within a quarter
    of that; so it can exceed the configured maximum, by less than a quarter. *)
Theorem backoff_bounds attempt epoch :
  (attempt <= 2147483648)%N ->
  let d := doubled (attempt - 1) in
  let w := millis (calculate_backoff_delay attempt default_retry_config epoch) in
  millis (retry_delay attempt default_retry_config) = d /\ 1000 <= d <= 30000 /\
  3 * d <= 4 * w /\ 4 * w < 5 * d.
Proof.
  intros Ha d w. pose proof (doubled_range (attempt - 1)) as Hd. fold d in Hd.
  assert (w = jittered d (epoch mod 50)) as ->.
  { unfold w, calculate_backoff_delay, jittered. rewrite default_retry_delay by done. fold d.
    rewrite millis_from by lia. rewrite (millis_from d) by lia. unfold backoff_factor.
    by rewrite N.Div0.mod_mod. }
  split; [|split; [done|]].
  - rewrite default_retry_delay by done. by rewrite millis_from by lia.
  - apply jittered_bounds. apply N.mod_lt. done.
Qed.

(** The sixth retry waits longer than the maximum. *)
Lemma backoff_bounds_witness :
  let w := millis (calculate_backoff_delay 6 default_retry_config 49) in w = 37200 /\ 4 * w < 5 * doubled 5.
Proof.
  intros w. split; [vm_compute; reflexivity|].
  destruct (backoff_bounds 6 49) as (_ & _ & _ & H); [discriminate|exact H].
Defined.
