(* ===== verification/Clients.v ===== *)
(** The clients: [TCPClient], [WSClient] and [UnixSocketClient], their states,
    [new] and [process], and the thread that connects for them.

    TCPClient and WSClient go through the same states in the same way; they are
    one definition over a [ClientKind], which holds what differs: the address
    that a configuration stands for, which errors are worth a retry, and what is
    kept of a connection.  UnixSocketClient does not retry; it shares what a
    connected client does. *)
From S2P Require Import Prelude Api Scheduler Process Pipes Sinks Io Retry.
From Stdlib Require Strings.String.
From Stdlib Require Import NArith ZArith Lia Strings.Byte.
From stdpp Require Import base list strings gmap pretty.
Local Open Scope string_scope.
Local Open Scope list_scope.
Local Open Scope flowd_scope.

(** * Connected clients *)

Section connected.
Context `{R : Rtrb} {C : Type}.
Variable clock : nat -> Instant.
(** Whether the calling thread is inside of a tokio runtime: [tokio::spawn]
    panics if it is not. *)
Variable in_runtime : bool.
Variable inn : lens C ring.
Variable box : lens C Outbox.

(** The packets of the inport, one by one. *)
Fixpoint collect_fuel (fuel : nat) (pending_messages : list FbpMessage) : proc C (list FbpMessage) :=
  match fuel with
  | O => fun _ => None
  | S fuel =>
      b ← budget;
      e ← is_empty inn;
      if (0 <? b)%N && negb e then
        chunk ← read_chunk inn 1;
        match chunk with
        | None => panic
        | Some ips =>
            work (N.of_nat (length ips));; charge (N.of_nat (length ips));;
            collect_fuel fuel (pending_messages ++ ips)
        end
      else mret pending_messages
  end.
Definition collect (pending_messages : list FbpMessage) : proc C (list FbpMessage) :=
  r ← read inn; collect_fuel (S (ring_slots r)) pending_messages.

(** [tokio::spawn] of a task that logs the messages which it "would send", and
    wakes the scheduler. *)
Definition tokio_spawn (messages : list FbpMessage) : proc C unit :=
  if in_runtime then mret tt else panic.
Definition send_messages (pending_messages : list FbpMessage) : proc C (list FbpMessage) :=
  b ← budget;
  if negb (bool_decide (pending_messages = [])) && (0 <? b)%N then
    tokio_spawn pending_messages;; work 1;; charge 1;; mret []
  else mret pending_messages.

(** What a connected client does, up to the check of its inport. *)
Definition exchange (pending_messages : list FbpMessage) : proc C (list FbpMessage) :=
  pending_messages ← collect pending_messages;
  pending_messages ← send_messages pending_messages;
  zoom box flush;;
  mret pending_messages.

Definition connected_result : proc C ProcessResult :=
  w ← work_units;
  if (0 <? w)%N then mret (DidWork w) else wake_poll clock;; mret NoWork.

#[export] Instance keeps_collect_fuel fuel pending : Keeps (collect_fuel fuel pending).
Proof. revert pending. induction fuel as [|fuel IH]; intros pending; [done|]. simpl. apply _. Qed.
#[export] Instance keeps_exchange pending : Keeps (exchange pending).
Proof. unfold exchange, collect, send_messages, tokio_spawn, flush. destruct in_runtime; apply _. Qed.
#[export] Instance keeps_connected_result : Keeps connected_result.
Proof. unfold connected_result. apply _. Qed.
End connected.

(** * The thread that connects *)

(** [while let Ok(addr) = cmd_rx.recv()]: one connection after the other, whose
    result is lost when nobody has taken the previous ones.  [None]: it waits, or
    has ended. *)
Definition connect_turn {Addr T : Type} (connect : Addr -> T) (w : mpsc Addr * mpsc T) :
    option (mpsc Addr * mpsc T) :=
  match mpsc_try_recv w.1 with
  | (Received addr, cmd) => Some (cmd, (mpsc_try_send (connect addr) w.2).2)
  | _ => None
  end.

(** * Clients that retry *)

Record ClientKind (Addr Stream Conn Fault : Type) : Type := mk_ClientKind {
  ck_address : string -> option Addr;
  ck_classify : Fault -> ErrorType;
  ck_keep : Stream -> Conn
}.
Arguments mk_ClientKind {Addr Stream Conn Fault}.
Arguments ck_address {Addr Stream Conn Fault}.
Arguments ck_classify {Addr Stream Conn Fault}.
Arguments ck_keep {Addr Stream Conn Fault}.

Section client.
Context `{R : Rtrb} {Addr Stream Conn Fault : Type}.
Variable clock : nat -> Instant.
Variable in_runtime : bool.
Variable k : ClientKind Addr Stream Conn Fault.

Inductive ClientState : Type :=
| WaitingForConfig
| Connecting (addr : Addr)
| RetryingConnection (addr : Addr) (retry_state : RetryState)
| Connected (client : Conn) (pending_messages : list FbpMessage)
| ClientFinished.

Record Client : Type := mk_Client {
  cl_conf : ring;
  cl_inn : ring;
  cl_out : ProcessEdgeSink;
  cl_signals_in : sync_channel;
  cl_signals_out : sync_channel;
  cl_state : ClientState;
  cl_scheduler_waker : option SchedulerWaker;
  cl_pending_received : list FbpMessage;
  cl_cmd_tx : mpsc Addr;
  cl_result_rx : mpsc (result Stream Fault);
  cl_retry_config : RetryConfig;
  cl_retry_state : RetryState
}.

Definition new_client `{MultiMapLib ring} `{MultiMapLib ProcessEdgeSink}
    (inports : multimap ring) (outports : multimap ProcessEdgeSink)
    (signals_in signals_out : sync_channel) (scheduler_waker : option SchedulerWaker) (now : Instant) :
    outcome Client :=
  let '(cmd, res) := create_io_channels Addr (result Stream Fault) in
  let* (conf, inports) := take_port "CONF" inports in
  let* (inn, inports) := take_port "IN" inports in
  let* (out, outports) := take_port "OUT" outports in
  Done (mk_Client conf inn out signals_in signals_out WaitingForConfig scheduler_waker [] cmd res
          default_retry_config (new_retry_state now)).

Definition cl_l_conf : lens Client ring := mk_lens cl_conf
  (fun x c => mk_Client x (cl_inn c) (cl_out c) (cl_signals_in c) (cl_signals_out c) (cl_state c)
     (cl_scheduler_waker c) (cl_pending_received c) (cl_cmd_tx c) (cl_result_rx c) (cl_retry_config c)
     (cl_retry_state c)).
Definition cl_l_inn : lens Client ring := mk_lens cl_inn
  (fun x c => mk_Client (cl_conf c) x (cl_out c) (cl_signals_in c) (cl_signals_out c) (cl_state c)
     (cl_scheduler_waker c) (cl_pending_received c) (cl_cmd_tx c) (cl_result_rx c) (cl_retry_config c)
     (cl_retry_state c)).
Definition cl_l_box : lens Client Outbox := mk_lens
  (fun c => mk_Outbox (cl_out c) (cl_pending_received c))
  (fun x c => mk_Client (cl_conf c) (cl_inn c) (ob_out x) (cl_signals_in c) (cl_signals_out c) (cl_state c)
     (cl_scheduler_waker c) (ob_pending x) (cl_cmd_tx c) (cl_result_rx c) (cl_retry_config c)
     (cl_retry_state c)).
Definition cl_l_signals : lens Client Signals := mk_lens
  (fun c => mk_Signals (cl_signals_in c) (cl_signals_out c))
  (fun x c => mk_Client (cl_conf c) (cl_inn c) (cl_out c) (sig_in x) (sig_out x) (cl_state c)
     (cl_scheduler_waker c) (cl_pending_received c) (cl_cmd_tx c) (cl_result_rx c) (cl_retry_config c)
     (cl_retry_state c)).
Definition cl_l_state : lens Client ClientState := mk_lens cl_state
  (fun x c => mk_Client (cl_conf c) (cl_inn c) (cl_out c) (cl_signals_in c) (cl_signals_out c) x
     (cl_scheduler_waker c) (cl_pending_received c) (cl_cmd_tx c) (cl_result_rx c) (cl_retry_config c)
     (cl_retry_state c)).
Definition cl_l_cmd_tx : lens Client (mpsc Addr) := mk_lens cl_cmd_tx
  (fun x c => mk_Client (cl_conf c) (cl_inn c) (cl_out c) (cl_signals_in c) (cl_signals_out c) (cl_state c)
     (cl_scheduler_waker c) (cl_pending_received c) x (cl_result_rx c) (cl_retry_config c)
     (cl_retry_state c)).
Definition cl_l_result_rx : lens Client (mpsc (result Stream Fault)) := mk_lens cl_result_rx
  (fun x c => mk_Client (cl_conf c) (cl_inn c) (cl_out c) (cl_signals_in c) (cl_signals_out c) (cl_state c)
     (cl_scheduler_waker c) (cl_pending_received c) (cl_cmd_tx c) x (cl_retry_config c)
     (cl_retry_state c)).
Definition cl_l_retry_config : lens Client RetryConfig := mk_lens cl_retry_config
  (fun x c => mk_Client (cl_conf c) (cl_inn c) (cl_out c) (cl_signals_in c) (cl_signals_out c) (cl_state c)
     (cl_scheduler_waker c) (cl_pending_received c) (cl_cmd_tx c) (cl_result_rx c) x
     (cl_retry_state c)).
Definition cl_l_retry_state : lens Client RetryState := mk_lens cl_retry_state
  (fun x c => mk_Client (cl_conf c) (cl_inn c) (cl_out c) (cl_signals_in c) (cl_signals_out c) (cl_state c)
     (cl_scheduler_waker c) (cl_pending_received c) (cl_cmd_tx c) (cl_result_rx c) (cl_retry_config c) x).

Definition close_down {A} : proc Client A := write cl_l_state ClientFinished;; return_ Finished.

(** A failed connection: [mem::take] leaves a new retry state behind. *)
Definition connection_failed (addr : Addr) (e : Fault) : proc Client unit :=
  match ck_classify k e with
  | Permanent => close_down
  | Transient =>
      retry_state ← read cl_l_retry_state;
      config ← read cl_l_retry_config;
      if should_retry retry_state Transient (rc_max_retries config) then
        t ← now clock;
        write cl_l_retry_state (new_retry_state t);;
        t ← now clock;
        let retry_state := calculate_next_retry config t retry_state in
        write cl_l_state (RetryingConnection addr
          (mk_RetryState (rs_attempt retry_state) (rs_next_retry_at retry_state) Transient));;
        return_ (DidWork 1)
      else close_down
  end.

Definition check_connection (addr : Addr) : proc Client unit :=
  res ← receive cl_l_result_rx;
  match res with
  | Received (Ok stream) => write cl_l_state (Connected (ck_keep k stream) []);; return_ (DidWork 1)
  | Received (Err e) => connection_failed addr e
  | _ => wake_poll clock;; return_ NoWork
  end.

(** The address to connect to, and the request to the thread; from here on the
    state is what these definitions leave: [Finished] if they do not write it. *)
Definition request_connection (url_msg : FbpMessage) : proc Client unit :=
  match message_as_utf8 url_msg with
  | None => panic
  | Some url_str =>
      match ck_address k url_str with
      | None => panic
      | Some addr =>
          r ← post cl_l_cmd_tx addr;
          match r with
          | Posted => write cl_l_state (Connecting addr);; return_ (DidWork 1)
          | PostFull => write cl_l_state WaitingForConfig;; return_ NoWork
          | PostDisconnected => close_down
          end
      end
  end.

Definition waiting_for_config : proc Client ProcessResult :=
  url_msg ← pop cl_l_conf;
  match url_msg with
  | Some url_msg => request_connection url_msg
  | None => mret tt
  end;;
  res ← receive cl_l_result_rx;
  match res with
  | Received (Ok stream) => write cl_l_state (Connected (ck_keep k stream) []);; return_ (DidWork 1)
  | Received (Err _) => close_down
  | RecvEmpty => mret tt
  | RecvDisconnected => close_down
  end;;
  b ← budget;
  if (b =? 0)%N then return_ NoWork else charge 1;; return_ NoWork.

Definition retrying_connection (addr : Addr) (retry_state : RetryState) : proc Client ProcessResult :=
  t ← now clock;
  if is_ready_to_retry retry_state t then
    r ← post cl_l_cmd_tx addr;
    match r with
    | Posted => write cl_l_state (Connecting addr);; return_ (DidWork 1)
    | PostFull =>
        wake_poll clock;; write cl_l_state (RetryingConnection addr retry_state);; return_ NoWork
    | PostDisconnected => close_down
    end
  else
    wake_at_ (rs_next_retry_at retry_state);;
    write cl_l_state (RetryingConnection addr retry_state);; return_ NoWork.

Definition connected (client : Conn) (pending_messages : list FbpMessage) : proc Client ProcessResult :=
  pending_messages ← exchange in_runtime cl_l_inn cl_l_box pending_messages;
  abandoned ← is_abandoned cl_l_inn;
  if (abandoned : bool) then close_down
  else
    write cl_l_state (Connected client pending_messages);;
    connected_result clock.

(** [mem::replace(&mut self.state, Finished)], and what the old state asks for. *)
Definition step_client : proc Client ProcessResult :=
  state ← read cl_l_state;
  write cl_l_state ClientFinished;;
  match state with
  | WaitingForConfig => waiting_for_config
  | Connecting _ => close_down
  | RetryingConnection addr retry_state => retrying_connection addr retry_state
  | Connected client pending_messages => connected client pending_messages
  | ClientFinished => mret Finished
  end.

Definition client_process : proc Client ProcessResult :=
  stop_signal message_as_utf8 cl_l_signals (write cl_l_state ClientFinished);;
  state ← read cl_l_state;
  match state with
  | Connecting addr => check_connection addr
  | _ => mret tt
  end;;
  step_client.

#[export] Instance keeps_client : Keeps client_process.
Proof.
  unfold client_process, step_client, check_connection, connection_failed, waiting_for_config, request_connection,
    retrying_connection, connected, close_down, stop_signal. apply _.
Qed.
Definition client_component := component_of client_process.
End client.
Arguments ClientState Addr Conn : clear implicits.
Arguments Client {R} Addr Stream Conn Fault.

(** * TCPClient *)

(** What the crate url finds in a URL. *)
Record Url : Type := mk_Url {
  url_host_str : option string;
  url_port : option N;
  url_path : string;
  url_query_pairs : list (string * string)
}.

Definition classify_tcp_error (kind : ErrorKind) : ErrorType :=
  match kind with
  | TimedOut | Interrupted | WouldBlock => Transient
  | ConnectionRefused | ConnectionReset | ConnectionAborted => Transient
  | NetworkUnreachable | HostUnreachable => Transient
  | NotFound | PermissionDenied | InvalidInput => Permanent
  | _ => Transient
  end.

Section tcp.
Context `{R : Rtrb} {SocketAddr TcpStream : Type}.
Variable url_parse : string -> option Url.
(** [SocketAddr::parse_ascii]. *)
Variable parse_socket_addr : string -> option SocketAddr.

Definition tcp_address (url_str : string) : option SocketAddr :=
  url ← url_parse url_str;
  host ← url_host_str url;
  port ← url_port url;
  parse_socket_addr (host +:+ ":" +:+ pretty port).

(** The connected state has no place for the stream: it is dropped, and the
    connection closed. *)
Definition tcp_client_kind : ClientKind SocketAddr TcpStream () ErrorKind :=
  mk_ClientKind tcp_address classify_tcp_error (fun _ => tt).
Definition TCPClientComponent : Type := Client SocketAddr TcpStream () ErrorKind.
Definition tcp_client_process (clock : nat -> Instant) (in_runtime : bool) : proc TCPClientComponent ProcessResult :=
  client_process clock in_runtime tcp_client_kind.
End tcp.

(** * WSClient *)

(** The errors of the crate tungstenite that are told apart; an answer over HTTP
    by whether its status is that of a server error. *)
Inductive WsError : Type :=
| WsIo (kind : ErrorKind)
| WsHttp (is_server_error : bool)
| WsTls
| WsProtocol
| WsCapacity
| WsUrl
| WsConnectionClosed
| WsAlreadyClosed
| WsUtf8
| WsOther.

Definition classify_ws_error (error : WsError) : ErrorType :=
  match error with
  | WsIo _ => Transient
  | WsHttp is_server_error => if is_server_error then Transient else Permanent
  | WsTls => Transient
  | WsProtocol => Permanent
  | WsCapacity | WsUrl => Permanent
  | WsConnectionClosed | WsAlreadyClosed => Transient
  | WsUtf8 => Permanent
  | WsOther => Transient
  end.

Section ws.
Context `{R : Rtrb} {WebSocket : Type}.

Definition ws_client_kind : ClientKind string WebSocket WebSocket WsError :=
  mk_ClientKind Some classify_ws_error id.
Definition WSClientComponent : Type := Client string WebSocket WebSocket WsError.
Definition ws_client_process (clock : nat -> Instant) (in_runtime : bool) : proc WSClientComponent ProcessResult :=
  client_process clock in_runtime ws_client_kind.
End ws.

(** * UnixSocketClient *)

Inductive SocketType : Type := Datagram | Stream | SeqPacket.

(** The thread's [connect]: only one type of sockets is there. *)
Definition unix_connect {UnixSocketAddr Conn : Type} (connect_unix_addr : UnixSocketAddr -> result Conn ErrorKind)
    (request : UnixSocketAddr * SocketType) : result Conn ErrorKind :=
  match request.2 with
  | SeqPacket => connect_unix_addr request.1
  | Stream => Err Other
  | Datagram => Err Other
  end.

Section unix.
Context `{R : Rtrb} {UnixSocketAddr Conn : Type}.
Variable clock : nat -> Instant.
Variable in_runtime : bool.
Variable url_parse : string -> option Url.
(** [UnixSocketAddr::from_abstract] and [from_path] of the crate uds. *)
Variable from_abstract : string -> option UnixSocketAddr.
Variable from_path : string -> option UnixSocketAddr.

Inductive UnixSocketClientState : Type :=
| UnixWaitingForConfig
| UnixConnecting
| UnixConnected (client : Conn) (pending_messages : list FbpMessage)
| UnixFinished.

Record UnixSocketClientComponent : Type := mk_UnixSocketClientComponent {
  uc_conf : ring;
  uc_inn : ring;
  uc_out : ProcessEdgeSink;
  uc_signals_in : sync_channel;
  uc_signals_out : sync_channel;
  uc_state : UnixSocketClientState;
  uc_scheduler_waker : option SchedulerWaker;
  uc_read_timeout : Duration;
  uc_pending_outbound : list FbpMessage;
  uc_cmd_tx : mpsc (UnixSocketAddr * SocketType);
  uc_result_rx : mpsc (result Conn ErrorKind)
}.

Definition DEFAULT_READ_TIMEOUT : Duration := from_millis 500.

Definition new_unix_client `{MultiMapLib ring} `{MultiMapLib ProcessEdgeSink}
    (inports : multimap ring) (outports : multimap ProcessEdgeSink)
    (signals_in signals_out : sync_channel) (scheduler_waker : option SchedulerWaker) :
    outcome UnixSocketClientComponent :=
  let '(cmd, res) := create_io_channels (UnixSocketAddr * SocketType) (result Conn ErrorKind) in
  let* (conf, inports) := take_port "CONF" inports in
  let* (inn, inports) := take_port "IN" inports in
  let* (out, outports) := take_port "OUT" outports in
  Done (mk_UnixSocketClientComponent conf inn out signals_in signals_out UnixWaitingForConfig scheduler_waker
          DEFAULT_READ_TIMEOUT [] cmd res).

Definition uc_l_conf : lens UnixSocketClientComponent ring := mk_lens uc_conf
  (fun x c => mk_UnixSocketClientComponent x (uc_inn c) (uc_out c) (uc_signals_in c) (uc_signals_out c) (uc_state c)
     (uc_scheduler_waker c) (uc_read_timeout c) (uc_pending_outbound c) (uc_cmd_tx c) (uc_result_rx c)).
Definition uc_l_inn : lens UnixSocketClientComponent ring := mk_lens uc_inn
  (fun x c => mk_UnixSocketClientComponent (uc_conf c) x (uc_out c) (uc_signals_in c) (uc_signals_out c) (uc_state c)
     (uc_scheduler_waker c) (uc_read_timeout c) (uc_pending_outbound c) (uc_cmd_tx c) (uc_result_rx c)).
Definition uc_l_box : lens UnixSocketClientComponent Outbox := mk_lens
  (fun c => mk_Outbox (uc_out c) (uc_pending_outbound c))
  (fun x c => mk_UnixSocketClientComponent (uc_conf c) (uc_inn c) (ob_out x) (uc_signals_in c) (uc_signals_out c)
     (uc_state c) (uc_scheduler_waker c) (uc_read_timeout c) (ob_pending x) (uc_cmd_tx c) (uc_result_rx c)).
Definition uc_l_signals : lens UnixSocketClientComponent Signals := mk_lens
  (fun c => mk_Signals (uc_signals_in c) (uc_signals_out c))
  (fun x c => mk_UnixSocketClientComponent (uc_conf c) (uc_inn c) (uc_out c) (sig_in x) (sig_out x) (uc_state c)
     (uc_scheduler_waker c) (uc_read_timeout c) (uc_pending_outbound c) (uc_cmd_tx c) (uc_result_rx c)).
Definition uc_l_state : lens UnixSocketClientComponent UnixSocketClientState := mk_lens uc_state
  (fun x c => mk_UnixSocketClientComponent (uc_conf c) (uc_inn c) (uc_out c) (uc_signals_in c) (uc_signals_out c) x
     (uc_scheduler_waker c) (uc_read_timeout c) (uc_pending_outbound c) (uc_cmd_tx c) (uc_result_rx c)).
Definition uc_l_read_timeout : lens UnixSocketClientComponent Duration := mk_lens uc_read_timeout
  (fun x c => mk_UnixSocketClientComponent (uc_conf c) (uc_inn c) (uc_out c) (uc_signals_in c) (uc_signals_out c)
     (uc_state c) (uc_scheduler_waker c) x (uc_pending_outbound c) (uc_cmd_tx c) (uc_result_rx c)).
Definition uc_l_cmd_tx : lens UnixSocketClientComponent (mpsc (UnixSocketAddr * SocketType)) := mk_lens uc_cmd_tx
  (fun x c => mk_UnixSocketClientComponent (uc_conf c) (uc_inn c) (uc_out c) (uc_signals_in c) (uc_signals_out c)
     (uc_state c) (uc_scheduler_waker c) (uc_read_timeout c) (uc_pending_outbound c) x (uc_result_rx c)).
Definition uc_l_result_rx : lens UnixSocketClientComponent (mpsc (result Conn ErrorKind)) := mk_lens uc_result_rx
  (fun x c => mk_UnixSocketClientComponent (uc_conf c) (uc_inn c) (uc_out c) (uc_signals_in c) (uc_signals_out c)
     (uc_state c) (uc_scheduler_waker c) (uc_read_timeout c) (uc_pending_outbound c) (uc_cmd_tx c) x).

(** The value of a key in the query of a URL. *)
Definition query_value (key : string) (url : Url) : option string :=
  snd <$> List.find (fun kv => String.eqb kv.1 key) (url_query_pairs url).

(** The request that a URL stands for: an unwinding, no work, or the address,
    the type and the timeout. *)
Definition unix_request (url : Url) : outcome (option ((UnixSocketAddr * SocketType) * Duration)) :=
  let address_is_abstract := negb (is_none (url_host_str url)) in
  let address_str := default (url_path url) (url_host_str url) in
  if negb address_is_abstract && (String.eqb address_str "" || String.eqb address_str "/") then Done None
  else
    let socket_type :=
      match query_value "socket_type" url with
      | Some "seqpacket" => Some SeqPacket
      | Some "stream" => Some Stream
      | Some "dgram" | Some "datagram" => Some Datagram
      | _ => None
      end in
    match socket_type with
    | None => Done None
    | Some socket_type =>
        let* socket_address := expect ((if address_is_abstract then from_abstract else from_path) address_str) in
        let timeout := value ← query_value "rtimeout" url; parse_u64 (string_bytes value) in
        let read_timeout :=
          match timeout with Some ms => from_millis (Z.of_N ms) | None => DEFAULT_READ_TIMEOUT end in
        Done (Some ((socket_address, socket_type), read_timeout))
    end.

Definition unix_close_down {A} : proc UnixSocketClientComponent A :=
  write uc_l_state UnixFinished;; return_ Finished.

Definition unix_check_connection : proc UnixSocketClientComponent unit :=
  res ← receive uc_l_result_rx;
  match res with
  | Received (Ok client) => write uc_l_state (UnixConnected client []);; return_ (DidWork 1)
  | Received (Err _) => unix_close_down
  | _ => wake_poll clock;; return_ NoWork
  end.

Definition unix_waiting : proc UnixSocketClientComponent ProcessResult :=
  url_msg ← pop uc_l_conf;
  match url_msg with
  | None =>
      b ← budget;
      if (b =? 0)%N then return_ NoWork else charge 1;; return_ NoWork
  | Some url_msg =>
      match url_parse (default "" (message_as_utf8 url_msg)) with
      | None => panic
      | Some url =>
          match unix_request url with
          | Panicked => panic
          | Done None => return_ NoWork
          | Done (Some (request, read_timeout)) =>
              write uc_l_read_timeout read_timeout;;
              r ← post uc_l_cmd_tx request;
              match r with
              | Posted => write uc_l_state UnixConnecting;; return_ (DidWork 1)
              | PostFull => write uc_l_state UnixWaitingForConfig;; return_ NoWork
              | PostDisconnected => unix_close_down
              end
          end
      end
  end.

Definition unix_connected (client : Conn) (pending_messages : list FbpMessage) :
    proc UnixSocketClientComponent ProcessResult :=
  pending_messages ← exchange in_runtime uc_l_inn uc_l_box pending_messages;
  abandoned ← is_abandoned uc_l_inn;
  box ← read uc_l_box;
  if abandoned && bool_decide (ob_pending box = []) then unix_close_down
  else
    write uc_l_state (UnixConnected client pending_messages);;
    connected_result clock.

Definition unix_client_process : proc UnixSocketClientComponent ProcessResult :=
  stop_signal message_as_utf8 uc_l_signals (write uc_l_state UnixFinished);;
  state ← read uc_l_state;
  match state with
  | UnixConnecting => unix_check_connection
  | _ => mret tt
  end;;
  state ← read uc_l_state;
  write uc_l_state UnixFinished;;
  match state with
  | UnixWaitingForConfig => unix_waiting
  | UnixConnecting => unix_close_down
  | UnixConnected client pending_messages => unix_connected client pending_messages
  | UnixFinished => mret Finished
  end.

#[export] Instance keeps_unix_client : Keeps unix_client_process.
Proof.
  unfold unix_client_process, unix_check_connection, unix_waiting, unix_connected, unix_close_down, stop_signal. apply _.
Qed.
Definition unix_client_component := component_of unix_client_process.
End unix.
