(* ===== verification/ClientsTheorems.v ===== *)
(** What is proved about the clients: TCPClient and WSClient never send nor
    output anything and retry forever; a packet for a connected client makes it
    unwind; a client that is called before its configuration has arrived gives
    up. *)
From S2P Require Import Prelude Api Scheduler Process Pipes PipesTheorems Sinks SinksTheorems Io Retry Clients.
From Stdlib Require Strings.String.
From Stdlib Require Import NArith ZArith Lia Strings.Byte.
From stdpp Require Import base list strings gmap.
Local Open Scope string_scope.
Local Open Scope list_scope.

(** * Connected clients *)

Section connected.
Context `{R : Rtrb} {C : Type}.
Variable in_runtime : bool.
Variable inn : lens C ring.
Variable box : lens C Outbox.
Hypothesis inn_get : forall v c, get inn (set inn v c) = v.
Hypothesis inn_set : forall v v' c, set inn v (set inn v' c) = set inn v c.
Hypothesis inn_same : forall c, set inn (get inn c) c = c.
Hypothesis box_inn : forall v c, get box (set inn v c) = get box c.

(** The frame after [j] packets have been taken. *)
Definition collected (j : nat) (r : ring) (f : frame C) : frame C :=
  mk_frame (set inn r (fr_self f))
    (set_remaining_budget (remaining_budget (fr_ctx f) - N.of_nat j) (fr_ctx f))
    (fr_work f + N.of_nat j) (fr_effects f) (fr_reads f).

Lemma collected_0 f : collected 0 (get inn (fr_self f)) f = f.
Proof.
  unfold collected. rewrite inn_same, N.sub_0_r, N.add_0_r, set_remaining_budget_id. by destruct f.
Qed.

(** How many packets a connected client takes: all, within the budget. *)
Definition takes (f : frame C) : nat :=
  chunk_size (remaining_budget (fr_ctx f)) (ring_items (get inn (fr_self f))).
Definition taken_items (f : frame C) : list FbpMessage := take (takes f) (ring_items (get inn (fr_self f))).

Lemma wp_collect_fuel fuel : forall f pending (Q : list FbpMessage -> frame C -> Prop) E,
  (length (ring_items (get inn (fr_self f))) < fuel)%nat ->
  (forall r, taken (takes f) (get inn (fr_self f)) r -> Q (pending ++ taken_items f) (collected (takes f) r f)) ->
  wp (collect_fuel inn fuel pending) Q E f.
Proof.
  induction fuel as [|fuel IH]; intros f pending Q E Hfuel HQ; [lia|]. cbn [collect_fuel]. apply wp_bind, wp_budget, wp_bind, wp_is_empty.
  assert (takes f = 0%nat -> wp (mret pending : proc C (list FbpMessage)) Q E f) as Hnone.
  { intros H0. wp_run. specialize (HQ (get inn (fr_self f))). unfold taken_items in HQ.
    rewrite H0, collected_0, app_nil_r in HQ. apply HQ, taken_0. }
  destruct (N.ltb_spec 0 (remaining_budget (fr_ctx f))) as [Hb|Hb]; cbn [andb].
  2: { apply Hnone. unfold takes, chunk_size. lia. }
  destruct (ring_items (get inn (fr_self f))) as [|m ms] eqn:Hi; cbn [negb].
  { apply Hnone. unfold takes, chunk_size. rewrite Hi. simpl. lia. }
  apply wp_bind, wp_read_chunk; [rewrite Hi; simpl; lia|]. intros r Hr. rewrite Hi. cbn [take length]. wp_run.
  pose proof Hr as [Hr' _ _]. rewrite Hi in Hr'. simpl in Hr'. rewrite drop_0 in Hr'. simpl in Hfuel.
  set (g := mk_frame _ _ _ _ _).
  assert (takes f = S (takes g)) as Hj by (unfold takes, chunk_size; simpl; rewrite inn_get, Hr', Hi; simpl; lia).
  assert (taken_items f = m :: taken_items g) as Ht.
  { unfold taken_items. rewrite Hj. unfold g at 2. simpl. by rewrite inn_get, Hr', Hi. }
  apply IH; [unfold g; simpl; rewrite inn_get, Hr'; lia|]. intros r2 Hr2.
  replace (collected (takes g) r2 g) with (collected (takes f) r2 f).
  - rewrite <- app_assoc. rewrite Ht in HQ. apply HQ. rewrite Hj. change (S (takes g)) with (1 + takes g)%nat.
    eapply taken_add; [exact Hr|]. unfold g at 2 in Hr2. simpl in Hr2. by rewrite inn_get in Hr2.
  - unfold collected. rewrite Hj. unfold g. simpl. rewrite inn_set, set_remaining_budget_twice. f_equal; [f_equal|]; lia.
Qed.

(** What a connected client does when nothing waits for the outport, which is
    always the case: it takes packets; if there is budget left for it, it hands
    what it has over to tokio. *)
Lemma wp_exchange f pending (Q : list FbpMessage -> frame C -> Prop) (E : exit -> frame C -> Prop) :
  ob_pending (get box (fr_self f)) = [] ->
  (forall r o f' kept, taken (takes f) (get inn (fr_self f)) r ->
     sink_items o = sink_items (ob_out (get box (fr_self f))) ->
     fr_self f' = set box (mk_Outbox o []) (set inn r (fr_self f)) ->
     kept = pending ++ taken_items f \/ kept = [] /\ in_runtime = true -> Q kept f') ->
  (forall r f', taken (takes f) (get inn (fr_self f)) r -> fr_self f' = set inn r (fr_self f) ->
     in_runtime = false -> pending ++ taken_items f <> [] -> E Unwind f') ->
  wp (exchange in_runtime inn box pending)
    (fun kept f' => Q kept f' /\
       (in_runtime = false -> pending ++ taken_items f <> [] -> (remaining_budget (fr_ctx f) <= N.of_nat (takes f))%N))
    E f.
Proof.
  intros Hp HQ HE. unfold exchange, collect. apply wp_bind, wp_bind, wp_read, wp_collect_fuel; [rewrite ring_slots_spec; lia|].
  intros r Hr. set (all := pending ++ taken_items f) in *. set (b := remaining_budget (fr_ctx f)) in *.
  assert (forall g kept P, fr_self g = set inn r (fr_self f) -> kept = all \/ kept = [] /\ in_runtime = true -> P ->
    wp (zoom box flush;; mret kept : proc C (list FbpMessage)) (fun kept f' => Q kept f' /\ P) E g) as Hflush.
  { intros g kept P Hg Hk HP. apply wp_bind, wp_zoom, wp_flush. cbn [fr_self]. rewrite Hg, box_inn, Hp.
    intros o es [Hs _ _ _ _] _. rewrite take_nil, app_nil_r in Hs. wp_run. split; [|done].
    eapply HQ; [done|exact Hs| |done]. simpl. by rewrite Hp, drop_nil. }
  apply wp_bind. unfold send_messages. apply wp_bind, wp_budget. cbn [collected fr_ctx remaining_budget set_remaining_budget]. fold b.
  destruct (bool_decide_reflect (all = [])) as [He|Hne]; cbn [negb andb].
  { apply wp_ret, Hflush; [done|by left|done]. }
  destruct (N.ltb_spec 0 (b - N.of_nat (takes f))) as [Hb|Hb].
  2: { apply wp_ret, Hflush; [done|by left|]. intros _ _. lia. }
  unfold tokio_spawn. destruct in_runtime eqn:Hrt.
  - apply wp_bind, wp_ret, wp_bind, wp_work, wp_bind, wp_charge; [simpl; lia|]. apply wp_ret, Hflush; [done|by right|done].
  - apply wp_bind, wp_leave. by eapply HE.
Qed.
End connected.

(** * Clients that retry *)

Section client.
Context `{R : Rtrb} {Addr Stream Conn Fault : Type}.
Variable in_runtime : bool.
Variable k : ClientKind Addr Stream Conn Fault.
(** What connecting answers. *)
Variable connect : Addr -> result Stream Fault.
Abbreviation Client := (Client Addr Stream Conn Fault).
Implicit Types (c : Client) (f : frame Client).

(** The attempts that a state remembers: one at most. *)
Definition client_ok c : Prop :=
  rs_attempt (cl_retry_state c) = 0%N /\ cl_retry_config c = default_retry_config /\
  (forall addr rs, cl_state c = RetryingConnection addr rs -> rs_attempt rs = 1%N) /\
  cl_pending_received c = [].

(** What a call leaves: the state is as it should be, and nothing has been sent. *)
Definition client_called c0 f : Prop :=
  client_ok (fr_self f) /\ sink_items (cl_out (fr_self f)) = sink_items (cl_out c0).

Lemma wp_check_connection (clock : nat -> Instant) c0 f addr (Q : unit -> frame Client -> Prop) E :
  client_called c0 f -> (forall r f, client_called c0 f -> E (Return r) f) ->
  wp (check_connection clock k addr) Q E f.
Proof.
  intros [(Ha & Hc & Hs & Hp) Ho] HE. unfold check_connection. apply wp_bind, wp_receive.
  destruct (mpsc_try_recv _) as [[[stream|e]| |] ch]; simpl; wp_run.
  - by apply HE.
  - unfold connection_failed. destruct (ck_classify k e); [|unfold close_down; wp_run; by apply HE].
    wp_run. rewrite Hc. unfold should_retry. rewrite Ha. simpl. wp_run. apply HE. split; [|done].
    split_and!; try done. simpl. intros addr' rs [= <- <-]. rewrite ?Ha. reflexivity.
  - apply wp_wake_poll. wp_run. by apply HE.
  - apply wp_wake_poll. wp_run. by apply HE.
Qed.

Lemma wp_waiting_for_config c0 f (Q : ProcessResult -> frame Client -> Prop) (E : exit -> frame Client -> Prop) :
  client_called c0 f -> cl_state (fr_self f) = ClientFinished ->
  (forall e f, client_called c0 f -> e <> Break -> E e f) ->
  wp (waiting_for_config k) Q E f.
Proof.
  intros [(Ha & Hc & Hs & Hp) Ho] Hst HE. unfold waiting_for_config.
  assert (forall r, client_called c0 (with_self (set cl_l_conf r (fr_self f)) f)) as Hr by (by intros; split).
  apply wp_bind, wp_pop; simpl.
  - intros _ r _. wp_run. apply wp_receive.
    destruct (mpsc_try_recv _) as [[[stream|e]| |] ch]; simpl; unfold close_down; wp_run.
    + by apply HE.
    + by apply HE.
    + destruct (N.eqb_spec (remaining_budget (fr_ctx f)) 0); wp_run; by apply HE.
    + by apply HE.
  - intros m rest r _ _. wp_run. unfold request_connection.
    destruct (message_as_utf8 m) as [url|]; wp_run; [|by apply HE].
    destruct (ck_address k url) as [addr|]; wp_run; [|by apply HE]. apply wp_post.
    destruct (mpsc_try_send _ _) as [[] ch]; simpl; unfold close_down; wp_run; by apply HE.
Qed.

Lemma wp_retrying_connection (clock : nat -> Instant) c0 f addr rs (Q : ProcessResult -> frame Client -> Prop) (E : exit -> frame Client -> Prop) :
  client_called c0 f -> rs_attempt rs = 1%N -> (forall e f, client_called c0 f -> e <> Break -> E e f) ->
  wp (retrying_connection clock addr rs) Q E f.
Proof.
  intros [(Ha & Hc & Hs & Hp) Ho] Hrs HE. unfold retrying_connection. wp_run.
  destruct (is_ready_to_retry _ _); wp_run.
  - apply wp_post. destruct (mpsc_try_send _ _) as [[] ch]; simpl; unfold close_down; wp_run.
    + by apply HE.
    + apply wp_wake_poll. wp_run. apply HE; [|done]. split; [|done]. split_and!; try done. by intros ? ? [= <- <-].
    + by apply HE.
  - apply HE; [|done]. split; [|done]. split_and!; try done. by intros ? ? [= <- <-].
Qed.

Lemma wp_connected (clock : nat -> Instant) c0 f client pending (Q : ProcessResult -> frame Client -> Prop) (E : exit -> frame Client -> Prop) :
  client_called c0 f -> (forall r f, client_called c0 f -> Q r f) ->
  cl_state (fr_self f) = ClientFinished ->
  (forall e f, client_called c0 f -> e <> Break -> E e f) ->
  wp (connected clock in_runtime client pending) Q E f.
Proof.
  intros [(Ha & Hc & Hs & Hp) Ho] HQ Hst HE. unfold connected. apply wp_bind. eapply wp_conseq.
  - apply (wp_exchange in_runtime cl_l_inn cl_l_box) with
      (Q := fun _ f' => client_called c0 f' /\ cl_state (fr_self f') = ClientFinished) (E := E);
      [done|done|by intros []|done|exact Hp| |].
    + intros r o f' kept _ Ho' Hf' _. rewrite Hf'. split; [|done]. split; rewrite Hf'; simpl; [by split_and!|].
      rewrite Ho'. exact Ho.
    + intros r f' _ Hf' _ _. apply HE; [|done]. split; rewrite Hf'; [by split_and!|done].
  - intros kept f' [[[[Ha' [Hc' [Hs' Hp']]] Ho'] Hst'] _]. apply wp_bind, wp_is_abandoned.
    destruct (ring_is_abandoned _); [unfold close_down; wp_run; by apply HE|]. wp_run.
    unfold connected_result. wp_run. destruct (_ <? _)%N; wp_run; [by apply HQ|].
    apply wp_wake_poll. wp_run. by apply HQ.
  - done.
Qed.

Lemma client_call (clock : nat -> Instant) c ctx :
  client_ok c -> exists f r, call (client_process clock in_runtime k) c ctx = Some (f, r) /\ client_called c f.
Proof.
  intros Hok. apply wp_call. unfold client_process. apply wp_bind, wp_stop_signal; cbn [fr_self].
  2: { intros _ [sin sout] _. wp_run. split; [destruct Hok as (? & ? & ? & ?); by split_and!|done]. }
  intros _ [sin sout] _. apply wp_bind, wp_read. set (f := with_self _ _).
  assert (client_called c f) as Hf by (by split). clearbody f.
  assert (forall e g, client_called c g -> e <> Break ->
    match e with Break => False | Return r => client_called c g | Unwind => client_called c g end) as HE by (by intros []).
  apply wp_bind. assert (forall g, client_called c g ->
    wp (step_client clock in_runtime k) (fun _ g => client_called c g)
      (fun e g => match e with Break => False | Return r => client_called c g | Unwind => client_called c g end) g) as Hstep.
  { clear f Hf. intros f Hf. unfold step_client. apply wp_bind, wp_read, wp_bind, wp_write.
    set (g := with_self _ _). assert (client_called c g) as Hg by (destruct Hf as [(? & ? & ? & ?) ?]; split; [split_and!|]; done).
    assert (cl_state (fr_self g) = ClientFinished) as Hst by done.
    destruct (get cl_l_state (fr_self f)) as [|addr|addr rs|client pending|] eqn:Hs.
    - by apply (wp_waiting_for_config c).
    - unfold close_down. wp_run. done.
    - apply (wp_retrying_connection clock c); [done| |done]. destruct Hf as [(_ & _ & H & _) _]. by apply (H addr).
    - by apply (wp_connected clock c).
    - by wp_run. }
  destruct (get cl_l_state (fr_self f)) as [|addr|addr rs|client pending|]; try (apply wp_ret; by apply Hstep).
  eapply (wp_check_connection clock c); [done|]. intros r g Hg. by apply (HE (Return r)).
Qed.

(** ** Runs

    A client and its thread, and what has been received from its outport. *)
Record ClientRun : Type := mk_ClientRun {
  cr_client : Client;
  cr_got : list FbpMessage
}.

Inductive client_step : ClientRun -> ClientRun -> Prop :=
| client_called_ times c got ctx f r :
    call (client_process times in_runtime k) c ctx = Some (f, Some r) ->
    client_step (mk_ClientRun c got) (mk_ClientRun (fr_self f) got)
| client_connects c got cmd res :
    connect_turn connect (cl_cmd_tx c, cl_result_rx c) = Some (cmd, res) ->
    client_step (mk_ClientRun c got) (mk_ClientRun (set cl_l_cmd_tx cmd (set cl_l_result_rx res c)) got)
| client_configured c got m r :
    ring_push m (cl_conf c) = (Ok tt, r) -> client_step (mk_ClientRun c got) (mk_ClientRun (set cl_l_conf r c) got)
| client_fed c got m r :
    ring_push m (cl_inn c) = (Ok tt, r) -> client_step (mk_ClientRun c got) (mk_ClientRun (set cl_l_inn r c) got)
| client_closed c got :
    client_step (mk_ClientRun c got) (mk_ClientRun (set cl_l_inn (ring_drop_producer (cl_inn c)) c) got)
| client_signalled c got m sin :
    try_send m (cl_signals_in c) = (Ok tt, sin) ->
    client_step (mk_ClientRun c got) (mk_ClientRun (set cl_l_signals (mk_Signals sin (cl_signals_out c)) c) got)
| client_taken c got m r :
    ring_pop (pes_sink (cl_out c)) = (Some m, r) ->
    client_step (mk_ClientRun c got)
      (mk_ClientRun (set cl_l_box (mk_Outbox (set_sink r (cl_out c)) (cl_pending_received c)) c) (got ++ [m])).

(** A client as [new] makes it. *)
Definition client_untouched (s : ClientRun) : Prop :=
  let c := cr_client s in
  cl_state c = WaitingForConfig /\ cl_pending_received c = [] /\ cl_retry_config c = default_retry_config /\
  rs_attempt (cl_retry_state c) = 0%N /\ sink_items (cl_out c) = [] /\ cr_got s = [].

Definition client_inv (s : ClientRun) : Prop :=
  client_ok (cr_client s) /\ sink_items (cl_out (cr_client s)) = [] /\ cr_got s = [].

Lemma client_run_inv s0 s : client_untouched s0 -> rtc client_step s0 s -> client_inv s.
Proof.
  intros (Hs & Hp & Hc & Ha & Ho & Hg) Hr.
  assert (client_inv s0) as Hinv by (split; [split_and!; try done; intros ? ?; congruence|done]). clear Hs Hp Hc Ha Ho Hg.
  induction Hr as [s|s1 s2 s3 Hs Hr IH]; [done|]. apply IH. clear IH Hr. destruct Hinv as (Hok & Ho & Hg).
  destruct Hs as [times c got ctx f r Hcall|c got cmd res Hturn|c got m r Hp|c got m r Hp|c got|c got m sin Hs|c got m r Hpop];
    simpl in *; try done.
  - destruct (client_call times c ctx Hok) as (f' & r' & Hcall' & [Hok' Ho']). rewrite Hcall in Hcall'. injection Hcall' as <- <-.
    split; [done|]. simpl. by rewrite Ho'.
  - pose proof (ring_pop_res (pes_sink (cl_out c))) as Hr. rewrite Hpop in Hr. simpl in Hr.
    unfold sink_items in Ho. by rewrite Ho in Hr.
Qed.

(** TCPClient and WSClient never output anything, whatever is sent to them,
    whatever they are connected to and however long they run: nothing ever
    fills the queue of received packets. *)
Theorem client_outputs_nothing s0 s :
  client_untouched s0 -> rtc client_step s0 s ->
  cr_got s = [] /\ sink_items (cl_out (cr_client s)) = [] /\ cl_pending_received (cr_client s) = [].
Proof.
  intros H0 Hr. destruct (client_run_inv s0 s H0 Hr) as ((_ & _ & _ & Hp) & Ho & Hg). done.
Qed.

(** Whatever the number of connections that have failed, TCPClient and
    WSClient answer a failure that may pass with another attempt after one
    second: the attempt that is counted is dropped with the state that counts
    it, so that the limit of three retries is never reached and the delay never
    grows. *)
Theorem client_retries_forever (clock : nat -> Instant) ctx s0 s addr e rest :
  client_untouched s0 -> rtc client_step s0 s ->
  ~ stop_next message_as_utf8 (get cl_l_signals (cr_client s)) ->
  cl_state (cr_client s) = Connecting addr ->
  mp_items (cl_result_rx (cr_client s)) = Err e :: rest -> ck_classify k e = Transient ->
  exists f n, call (client_process clock in_runtime k) (cr_client s) ctx = Some (f, Some (DidWork 1)) /\
    cl_state (fr_self f) =
      RetryingConnection addr (mk_RetryState 1 (clock n + from_millis 1000) Transient).
Proof.
  intros H0 Hr Hns Hst Hres He. destruct (client_run_inv s0 s H0 Hr) as ((Ha & Hc & _) & _ & _). clear s0 H0 Hr.
  destruct s as [c got]. simpl in *. assert (exists f r, call (client_process clock in_runtime k) c ctx = Some (f, Some r) /\
    (r = DidWork 1 /\ exists n, cl_state (fr_self f) = RetryingConnection addr
       (mk_RetryState 1 (clock n + from_millis 1000) Transient))) as (f & r & Hcall & -> & n & Hn); [|by exists f, n].
  apply wp_returns. unfold client_process. apply wp_bind, wp_stop_signal; cbn [fr_self]; [|done].
  intros _ [sin sout] _. apply wp_bind, wp_read. simpl. rewrite Hst. apply wp_bind. unfold check_connection.
  apply wp_bind, wp_receive. unfold mpsc_try_recv. simpl. rewrite Hres. simpl. unfold connection_failed. rewrite He.
  apply wp_bind, wp_read, wp_bind, wp_read. simpl. rewrite Hc. unfold should_retry. rewrite Ha. simpl. wp_run.
  split; [done|]. eexists. rewrite ?Ha. reflexivity.
Qed.

(** A packet for a connected client makes it unwind: tasks are given to
    tokio on a thread that is in no tokio runtime.  The packets that it has taken
    are lost with it. *)
Theorem connected_client_unwinds (clock : nat -> Instant) c client pending ctx :
  in_runtime = false -> cl_state c = Connected client pending -> cl_pending_received c = [] ->
  ~ stop_next message_as_utf8 (get cl_l_signals c) ->
  pending ++ ring_items (cl_inn c) <> [] -> (N.of_nat (length (ring_items (cl_inn c))) < remaining_budget ctx)%N ->
  exists f, call (client_process clock in_runtime k) c ctx = Some (f, None) /\
    cl_state (fr_self f) = ClientFinished /\ ring_items (cl_inn (fr_self f)) = [] /\
    sink_items (cl_out (fr_self f)) = sink_items (cl_out c).
Proof.
  intros Hrt Hst Hp Hns Hne Hb.
  assert (exists f r, call (client_process clock in_runtime k) c ctx = Some (f, r) /\
    (r = None /\ cl_state (fr_self f) = ClientFinished /\ ring_items (cl_inn (fr_self f)) = [] /\
     sink_items (cl_out (fr_self f)) = sink_items (cl_out c))) as (f & r & Hcall & -> & H); [|by exists f].
  apply wp_call. unfold client_process. apply wp_bind, wp_stop_signal; cbn [fr_self]; [|done].
  intros _ [sin sout] _. apply wp_bind, wp_read. simpl. rewrite Hst. apply wp_bind, wp_ret. unfold step_client.
  apply wp_bind, wp_read, wp_bind, wp_write. simpl. rewrite ?Hst. unfold connected. apply wp_bind.
  set (f := mk_frame _ _ _ _ _). assert (takes cl_l_inn f = length (ring_items (cl_inn c))) as Ht
    by (unfold takes, chunk_size; simpl; lia).
  eapply wp_conseq; [apply (wp_exchange in_runtime cl_l_inn cl_l_box) with (Q := fun _ _ => True)
    (E := fun e g => e = Unwind /\ cl_state (fr_self g) = ClientFinished /\ ring_items (cl_inn (fr_self g)) = [] /\
      sink_items (cl_out (fr_self g)) = sink_items (cl_out c));
    [done|done|by intros []|done|exact Hp|done|]| |].
  - intros r g [Hr _ _] Hg _ _. rewrite Hg. rewrite Ht in Hr. split_and!; [done..| |done]. simpl. rewrite Hr. apply drop_all.
  - intros kept g [_ Hle]. exfalso. specialize (Hle Hrt). rewrite Ht in Hle. unfold taken_items in Hle. rewrite Ht in Hle.
    simpl in Hle. rewrite firstn_all in Hle. specialize (Hle Hne). lia.
  - by intros e g (-> & H).
Qed.

(** A client that is called before its configuration has arrived does not
    wait for it: it takes its state for done with, and finishes with the next
    call. *)
Theorem unconfigured_client_finishes (clock : nat -> Instant) c ctx ctx' :
  cl_state c = WaitingForConfig -> ring_items (cl_conf c) = [] ->
  mp_items (cl_result_rx c) = [] -> mp_tx_alive (cl_result_rx c) = true ->
  ~ stop_next message_as_utf8 (get cl_l_signals c) ->
  exists f f', call (client_process clock in_runtime k) c ctx = Some (f, Some NoWork) /\
    call (client_process clock in_runtime k) (fr_self f) ctx' = Some (f', Some Finished).
Proof.
  intros Hst Hconf Hres Htx Hns.
  assert (exists f r, call (client_process clock in_runtime k) c ctx = Some (f, r) /\
    (r = Some NoWork /\ cl_state (fr_self f) = ClientFinished)) as (f & r & Hcall & -> & Hf).
  { apply wp_call. unfold client_process. apply wp_bind, wp_stop_signal; cbn [fr_self]; [|done].
    intros _ [sin sout] _. apply wp_bind, wp_read. simpl. rewrite Hst. apply wp_bind, wp_ret. unfold step_client.
    apply wp_bind, wp_read, wp_bind, wp_write. simpl. rewrite ?Hst. unfold waiting_for_config.
    apply wp_bind, wp_pop; simpl; [|by rewrite Hconf]. intros _ r _. wp_run. apply wp_receive. unfold mpsc_try_recv. simpl.
    rewrite Hres, Htx. simpl. wp_run. destruct (N.eqb_spec (remaining_budget ctx) 0); by wp_run. }
  exists f. assert (exists f' r, call (client_process clock in_runtime k) (fr_self f) ctx' = Some (f', r) /\ r = Some Finished)
    as (f' & r & Hcall' & ->); [|by exists f'].
  apply wp_call. unfold client_process. apply wp_bind, wp_stop_signal; cbn [fr_self].
  - intros _ [sin sout] _. apply wp_bind, wp_read. simpl. rewrite Hf. apply wp_bind, wp_ret. unfold step_client.
    apply wp_bind, wp_read, wp_bind, wp_write. simpl. rewrite ?Hf. by wp_run.
  - intros _ [sin sout] _. by wp_run.
Qed.
End client.

(** ** Concrete runs *)
#[local] Existing Instance list_rtrb.

(** A TCPClient whose connections are refused. *)
Definition demo_url (url : string) : option Url := Some (mk_Url (Some "127.0.0.1") (Some 8080%N) "" []).
Definition refused (addr : string) : result () ErrorKind := Err ConnectionRefused.
Definition demo_kind : ClientKind string () () ErrorKind := tcp_client_kind demo_url Some.
Definition demo_client (state : ClientState string ()) (inn : list FbpMessage) : Client string () () ErrorKind :=
  mk_Client (demo_ring true [Text "tcp://127.0.0.1:8080"]) (demo_ring false inn) (demo_out 8) demo_channel demo_channel
    state None [] (mpsc_sync_channel 8) (mpsc_sync_channel 8) default_retry_config (new_retry_state 0).
Definition slow_clock (n : nat) : Instant := (N.of_nat n * 1500000000)%N.
Definition later_clock (n : nat) : Instant := slow_clock (n + 10).

(** The connection has been refused, retried, and refused again. *)
Lemma demo_client_run :
  exists s, rtc (client_step false demo_kind refused) (mk_ClientRun (demo_client WaitingForConfig []) []) s /\
    cl_state (cr_client s) = Connecting "127.0.0.1:8080" /\
    mp_items (cl_result_rx (cr_client s)) = [Err ConnectionRefused] /\
    sc_items (cl_signals_in (cr_client s)) = [].
Proof.
  eexists. split.
  - eapply rtc_l; [eapply (client_called_ _ _ _ slow_clock _ _ (demo_context Normal 8)); vm_compute; reflexivity|].
    eapply rtc_l; [eapply client_connects; vm_compute; reflexivity|].
    eapply rtc_l; [eapply (client_called_ _ _ _ slow_clock _ _ (demo_context Normal 8)); vm_compute; reflexivity|].
    eapply rtc_l; [eapply (client_called_ _ _ _ later_clock _ _ (demo_context Normal 8)); vm_compute; reflexivity|].
    eapply rtc_l; [eapply client_connects; vm_compute; reflexivity|]. apply rtc_refl.
  - split_and!; vm_compute; reflexivity.
Defined.

Lemma demo_client_untouched : client_untouched (mk_ClientRun (demo_client WaitingForConfig []) []).
Proof. by split_and!. Defined.

Lemma client_outputs_nothing_witness :
  exists s, rtc (client_step false demo_kind refused) (mk_ClientRun (demo_client WaitingForConfig []) []) s /\
    sink_items (cl_out (cr_client s)) = [].
Proof.
  destruct demo_client_run as (s & Hr & _). exists s. split; [exact Hr|].
  exact (proj1 (proj2 (client_outputs_nothing false demo_kind refused _ s demo_client_untouched Hr))).
Defined.

Lemma client_retries_forever_witness :
  exists s, rtc (client_step false demo_kind refused) (mk_ClientRun (demo_client WaitingForConfig []) []) s /\
    exists f n, call (client_process slow_clock false demo_kind) (cr_client s) (demo_context Normal 8) =
      Some (f, Some (DidWork 1)) /\
    cl_state (fr_self f) = RetryingConnection "127.0.0.1:8080" (mk_RetryState 1 (slow_clock n + from_millis 1000) Transient).
Proof.
  destruct demo_client_run as (s & Hr & Hst & Hres & Hsig). exists s. split; [exact Hr|].
  apply (client_retries_forever false demo_kind refused slow_clock (demo_context Normal 8) _ s _ ConnectionRefused []
    demo_client_untouched Hr); [|exact Hst|exact Hres|reflexivity].
  intros (m & Hm & _). simpl in Hm. rewrite Hsig in Hm. discriminate.
Defined.

Lemma connected_client_unwinds_witness :
  exists f, call (client_process slow_clock false demo_kind) (demo_client (Connected () []) [Text "hello"])
      (demo_context Normal 8) = Some (f, None) /\ ring_items (cl_inn (fr_self f)) = [].
Proof.
  destruct (connected_client_unwinds false demo_kind slow_clock (demo_client (Connected () []) [Text "hello"]) () []
    (demo_context Normal 8)) as (f & Hcall & _ & Hi & _);
    [reflexivity|reflexivity|reflexivity|by intros (m & ? & _)|discriminate|reflexivity|].
  exists f. split; [exact Hcall|exact Hi].
Defined.

Lemma unconfigured_client_finishes_witness :
  exists f f', call (client_process slow_clock false demo_kind)
      (set cl_l_conf (demo_ring false []) (demo_client WaitingForConfig [])) (demo_context Normal 8) = Some (f, Some NoWork) /\
    call (client_process slow_clock false demo_kind) (fr_self f) (demo_context Normal 8) = Some (f', Some Finished).
Proof.
  apply (unconfigured_client_finishes false demo_kind slow_clock); [reflexivity..|by intros (m & ? & _)].
Defined.
