(* ===== verification/Sessions.v ===== *)
(** Components whose connections are sessions of a third-party crate:
    [WSServer] over tungstenite, [TLSClient] and [TLSServer] over rustls.

    A session is seen as what its peer, the network and the crate will answer to
    the next calls, together with what has been read from it and written to it
    so far. *)
From S2P Require Import Prelude Api Scheduler Process Pipes Sinks Io Servers Clients.
From Stdlib Require Strings.String.
From Stdlib Require Import NArith ZArith Lia Strings.Byte.
From stdpp Require Import base list strings gmap pretty.
Local Open Scope string_scope.
Local Open Scope list_scope.
Local Open Scope flowd_scope.

(** * WebSockets *)

(** What [read] finds: the data of a message of any kind, or an error. *)
Inductive WsRead : Type :=
| WsMessage (data : list byte)
| WsReadError (e : WsError).
(** What happens to a [write]: an error may come before or after the message has
    been queued. *)
Inductive WsWrite : Type :=
| WsWritten
| WsWriteError (queued : bool) (e : WsError).

Record WebSocket : Type := mk_WebSocket {
  wk_reads : list WsRead;
  wk_writes : list WsWrite;
  wk_flushes : list (result unit WsError);
  wk_seen : list (list byte);
  wk_written : list (list byte)
}.

(** Without anything to find, a read ends with its time-out. *)
Definition ws_read (ws : WebSocket) : result (list byte) WsError * WebSocket :=
  let seen rest data :=
    mk_WebSocket rest (wk_writes ws) (wk_flushes ws) (wk_seen ws ++ data) (wk_written ws) in
  match wk_reads ws with
  | [] => (Err (WsIo WouldBlock), ws)
  | WsMessage data :: rest => (Ok data, seen rest [data])
  | WsReadError e :: rest => (Err e, seen rest [])
  end.

(** [write(Message::Binary(bs))] and [flush()]. *)
Definition ws_write (bs : list byte) (ws : WebSocket) : result unit WsError * WebSocket :=
  let wrote rest part :=
    mk_WebSocket (wk_reads ws) rest (wk_flushes ws) (wk_seen ws) (wk_written ws ++ part) in
  match wk_writes ws with
  | WsWriteError queued e :: rest => (Err e, wrote rest (if queued then [bs] else []))
  | answers => (Ok tt, wrote (tail answers) [bs])
  end.
Definition ws_flush (ws : WebSocket) : result unit WsError * WebSocket :=
  match wk_flushes ws with
  | [] => (Ok tt, ws)
  | a :: rest => (a, mk_WebSocket (wk_reads ws) (wk_writes ws) rest (wk_seen ws) (wk_written ws))
  end.

(** [accept] of the listener, and the upgrade. *)
Inductive WsAccept : Type :=
| WsUpgraded (ws : WebSocket)
| WsNotUpgraded (e : WsError)
| WsAcceptError (kind : ErrorKind).
Record WsListener : Type := mk_WsListener {
  wl_accepts : list WsAccept;
  wl_nonblocking : bool
}.
Definition ws_accept (li : WsListener) : WsAccept * WsListener :=
  match wl_accepts li with
  | [] => (WsAcceptError WouldBlock, li)
  | a :: rest => (a, mk_WsListener rest (wl_nonblocking li))
  end.

(** A packet that is kept when there is no room; the answer tells whether it was
    sent. *)
Definition offer_packet `{R : Rtrb} (m : FbpMessage) : proc Outbox bool :=
  r ← send l_ob_out m;
  match r with
  | Ok _ => mret true
  | Err returned => p ← read l_ob_pending; write l_ob_pending (p ++ [returned]);; mret false
  end.
#[export] Instance keeps_offer_packet `{R : Rtrb} m : Keeps (offer_packet m).
Proof. unfold offer_packet. apply _. Qed.

(** * WSServer *)

Section ws_server.
Context `{R : Rtrb} `{HI : HashIter}.
Variable clock : nat -> Instant.
(** [TcpListener::bind]. *)
Variable ws_bind : string -> result WsListener ErrorKind.

Record Listening : Type := mk_Listening {
  ln_listener : WsListener;
  ln_connections : gmap N WebSocket;
  ln_next_connection_id : N
}.
Inductive WSServerState : Type :=
| WSServerWaiting
| WSServerListening (l : Listening)
| WSServerFinished.

Record WSServerComponent : Type := mk_WSServerComponent {
  wv_conf : ring;
  wv_resp : ring;
  wv_out : ProcessEdgeSink;
  wv_signals_in : sync_channel;
  wv_signals_out : sync_channel;
  wv_state : WSServerState;
  wv_pending_outbound : list FbpMessage
}.

Definition new_ws_server `{MultiMapLib ring} `{MultiMapLib ProcessEdgeSink}
    (inports : multimap ring) (outports : multimap ProcessEdgeSink)
    (signals_in signals_out : sync_channel) : outcome WSServerComponent :=
  let* (conf, inports) := take_port "CONF" inports in
  let* (resp, inports) := take_port "RESP" inports in
  let* (out, outports) := take_port "OUT" outports in
  Done (mk_WSServerComponent conf resp out signals_in signals_out WSServerWaiting []).

Definition wv_l_conf : lens WSServerComponent ring := mk_lens wv_conf
  (fun x c => mk_WSServerComponent x (wv_resp c) (wv_out c) (wv_signals_in c) (wv_signals_out c) (wv_state c)
                (wv_pending_outbound c)).
Definition wv_l_resp : lens WSServerComponent ring := mk_lens wv_resp
  (fun x c => mk_WSServerComponent (wv_conf c) x (wv_out c) (wv_signals_in c) (wv_signals_out c) (wv_state c)
                (wv_pending_outbound c)).
Definition wv_l_box : lens WSServerComponent Outbox := mk_lens
  (fun c => mk_Outbox (wv_out c) (wv_pending_outbound c))
  (fun x c => mk_WSServerComponent (wv_conf c) (wv_resp c) (ob_out x) (wv_signals_in c) (wv_signals_out c)
                (wv_state c) (ob_pending x)).
Definition wv_l_signals : lens WSServerComponent Signals := mk_lens
  (fun c => mk_Signals (wv_signals_in c) (wv_signals_out c))
  (fun x c => mk_WSServerComponent (wv_conf c) (wv_resp c) (wv_out c) (sig_in x) (sig_out x) (wv_state c)
                (wv_pending_outbound c)).
Definition wv_l_state : lens WSServerComponent WSServerState := mk_lens wv_state
  (fun x c => mk_WSServerComponent (wv_conf c) (wv_resp c) (wv_out c) (wv_signals_in c) (wv_signals_out c) x
                (wv_pending_outbound c)).

(** One new connection, within the budget.  The fields of the state are handed
    on from step to step. *)
Definition accept_ws (l : Listening) : proc WSServerComponent Listening :=
  b ← budget;
  if (0 <? b)%N then
    let '(res, listener) := ws_accept (ln_listener l) in
    let id := ln_next_connection_id l in
    let l := mk_Listening listener (ln_connections l) id in
    write wv_l_state (WSServerListening l);;
    match res with
    | WsUpgraded ws =>
        let l := mk_Listening listener (<[id := ws]> (ln_connections l)) ((id + 1) mod u32_modulus)%N in
        write wv_l_state (WSServerListening l);; work 1;; charge 1;; mret l
    | WsNotUpgraded _ => mret l
    | WsAcceptError WouldBlock => mret l
    | WsAcceptError _ => write wv_l_state WSServerFinished;; return_ Finished
    end
  else mret l.

Definition put_websocket (id : N) (ws : WebSocket) (l : Listening) : proc WSServerComponent Listening :=
  let l := mk_Listening (ln_listener l) (<[id := ws]> (ln_connections l)) (ln_next_connection_id l) in
  write wv_l_state (WSServerListening l);; mret l.

(** One read from one connection; the connections that are closed are
    collected, and a full outport ends the loop. *)
Definition read_websocket (conn_id : N) (l : Listening) (closed : list N) :
    proc WSServerComponent (bool * (Listening * list N)) :=
  match ln_connections l !! conn_id with
  | None => mret (true, (l, closed))
  | Some ws =>
      let '(res, ws) := ws_read ws in
      l ← put_websocket conn_id ws l;
      match res with
      | Ok data =>
          sent ← zoom wv_l_box (offer_packet (from_bytes data));
          if (sent : bool) then work 1;; charge 1;; mret (true, (l, closed)) else mret (false, (l, closed))
      | Err (WsIo WouldBlock) => mret (true, (l, closed))
      | Err (WsIo TimedOut) => mret (true, (l, closed))
      | Err _ => mret (true, (l, closed ++ [conn_id]))
      end
  end.

Fixpoint read_websockets (ids : list N) (l : Listening) (closed : list N) :
    proc WSServerComponent (Listening * list N) :=
  match ids with
  | [] => mret (l, closed)
  | id :: ids =>
      b ← budget;
      if (b =? 0)%N then mret (l, closed)
      else
        r ← read_websocket id l closed;
        if (r.1 : bool) then read_websockets ids r.2.1 r.2.2 else mret r.2
  end.

Definition remove_closed (closed : list N) (l : Listening) : proc WSServerComponent Listening :=
  let l := mk_Listening (ln_listener l) (remove_all closed (ln_connections l)) (ln_next_connection_id l) in
  write wv_l_state (WSServerListening l);; mret l.

(** An answer goes to the connection that the map yields first. *)
Definition answer_first (ip : FbpMessage) (l : Listening) : proc WSServerComponent unit :=
  match head (hash_iter (ln_connections l)) with
  | None => mret tt
  | Some (id, ws) =>
      let '(res, ws) := ws_write (default [] (as_bytes ip)) ws in
      l ← put_websocket id ws l;
      match res with
      | Err _ => mret tt
      | Ok _ =>
          let '(res, ws) := ws_flush ws in
          l ← put_websocket id ws l;
          match res with
          | Err _ => mret tt
          | Ok _ => work 1;; charge 1
          end
      end
  end.

Definition ws_listening (s : WSServerState) (l : Listening) : Listening :=
  match s with WSServerListening l => l | _ => l end.

Definition send_answers (l : Listening) : proc WSServerComponent unit :=
  while (fun f => S (ring_slots (wv_resp (fr_self f))))
    (fun f => negb (ring_is_empty (wv_resp (fr_self f))) && (0 <? remaining_budget (fr_ctx f))%N)
    (ip ← pop wv_l_resp;
     match ip with
     | Some ip => s ← read wv_l_state; answer_first ip (ws_listening s l)
     | None => break
     end).

Definition ws_serve (l : Listening) : proc WSServerComponent ProcessResult :=
  zoom wv_l_box flush;;
  l ← accept_ws l;
  r ← read_websockets (hash_iter (ln_connections l)).*1 l [];
  l ← remove_closed r.2 r.1;
  send_answers l;;
  abandoned ← is_abandoned wv_l_resp;
  if (abandoned : bool) then write wv_l_state WSServerFinished;; return_ Finished
  else connected_result clock.

(** The address to listen on. *)
Definition ws_configure : proc WSServerComponent ProcessResult :=
  config_msg ← pop wv_l_conf;
  match config_msg with
  | Some config_msg =>
      match message_as_utf8 config_msg with
      | None => panic
      | Some listen_addr =>
          match ws_bind listen_addr with
          | Err _ => panic
          | Ok listener =>
              if wl_nonblocking listener then
                write wv_l_state (WSServerListening (mk_Listening listener ∅ 1));; return_ (DidWork 1)
              else panic
          end
      end
  | None =>
      b ← budget;
      if (b =? 0)%N then return_ NoWork else charge 1;; return_ NoWork
  end.

Definition ws_server_process : proc WSServerComponent ProcessResult :=
  stop_signal message_as_utf8 wv_l_signals (write wv_l_state WSServerFinished);;
  state ← read wv_l_state;
  match state with
  | WSServerWaiting => ws_configure
  | WSServerListening l => ws_serve l
  | WSServerFinished => mret Finished
  end.

#[export] Instance keeps_read_websockets ids l closed : Keeps (read_websockets ids l closed).
Proof.
  revert l closed. induction ids as [|id ids IH]; intros l closed; [apply _|]. simpl.
  unfold read_websocket, put_websocket. apply _.
Qed.
#[export] Instance keeps_ws_server : Keeps ws_server_process.
Proof.
  unfold ws_server_process, ws_configure, ws_serve, accept_ws, remove_closed, send_answers, answer_first, put_websocket,
    flush, stop_signal. apply _.
Qed.
Definition ws_server_component := component_of ws_server_process.
End ws_server.

(** * TLS sessions

    A [ClientConnection] or [ServerConnection] of rustls with its socket. *)

(** [read_tls], with [process_new_packets] when there is something: the end, the
    bytes that the new packets decrypt to, packets that cannot be processed, or
    an error of the socket. *)
Inductive TlsRead : Type :=
| TlsEof
| TlsPackets (plain : list byte)
| TlsBadPackets
| TlsReadError (kind : ErrorKind).

(** [tl_buffer] is decrypted and has not been read; [tl_empty] is what the reader
    answers when nothing is: the end after a notice of the peer, or an error.  A
    write may take a part only. *)
Record TlsSession : Type := mk_TlsSession {
  tl_reads : list TlsRead;
  tl_buffer : list byte;
  tl_empty : result unit ErrorKind;
  tl_writes : list (result nat ErrorKind);
  tl_ios : list (result unit ErrorKind);
  tl_seen : list (list byte);
  tl_sent : list byte
}.

Definition tls_receive (s : TlsSession) : TlsRead * TlsSession :=
  let rest reads plain :=
    mk_TlsSession reads (tl_buffer s ++ plain) (tl_empty s) (tl_writes s) (tl_ios s) (tl_seen s) (tl_sent s) in
  match tl_reads s with
  | [] => (TlsReadError WouldBlock, s)
  | TlsPackets plain :: reads => (TlsPackets plain, rest reads plain)
  | a :: reads => (a, rest reads [])
  end.

(** [reader().read] into a buffer of [n] bytes. *)
Definition tls_read (n : N) (s : TlsSession) : result (list byte) ErrorKind * TlsSession :=
  let data := take (N.to_nat n) (tl_buffer s) in
  match data with
  | [] => (match tl_empty s with Ok _ => Ok [] | Err kind => Err kind end, s)
  | _ =>
      (Ok data, mk_TlsSession (tl_reads s) (drop (N.to_nat n) (tl_buffer s)) (tl_empty s) (tl_writes s) (tl_ios s)
                  (tl_seen s ++ [data]) (tl_sent s))
  end.

(** [writer().write(bs)] and [complete_io(sock)]. *)
Definition tls_write (bs : list byte) (s : TlsSession) : result nat ErrorKind * TlsSession :=
  let wrote rest part :=
    mk_TlsSession (tl_reads s) (tl_buffer s) (tl_empty s) rest (tl_ios s) (tl_seen s) (tl_sent s ++ part) in
  match tl_writes s with
  | [] => (Ok (length bs), wrote [] bs)
  | Ok n :: rest => (Ok (length (take n bs)), wrote rest (take n bs))
  | Err kind :: rest => (Err kind, wrote rest [])
  end.
Definition tls_complete_io (s : TlsSession) : result unit ErrorKind * TlsSession :=
  match tl_ios s with
  | [] => (Ok tt, s)
  | a :: rest =>
      (a, mk_TlsSession (tl_reads s) (tl_buffer s) (tl_empty s) (tl_writes s) rest (tl_seen s) (tl_sent s))
  end.

Definition TLS_READ_BUFFER : N := 65536.

(** * TLSClient *)

(** A connection under way: the URL that the thread was given, and the channel
    of its answer. *)
Record TlsConnect : Type := mk_TlsConnect {
  co_url : string;
  co_result : mpsc (result TlsSession string)
}.

(** What the thread does: the host and the port of the URL, the first address
    that the host resolves to, and connecting to it. *)
Section connect.
Context {SocketAddr : Type}.
Variable url_parse : string -> result Url string.
Variable to_socket_addrs : string -> result (list SocketAddr) string.
(** [TcpStream::connect_timeout], and a session for the name of the host. *)
Variable connect_session : SocketAddr -> string -> result TlsSession string.

Definition tls_connect (url_str : string) : result TlsSession string :=
  match url_parse url_str with
  | Err e => Err e
  | Ok url =>
      match url_host_str url with
      | None => Err "failed to parse host from URL"
      | Some host =>
          match url_port url with
          | None => Err "failed to parse port from URL"
          | Some port =>
              match to_socket_addrs (host +:+ ":" +:+ pretty port) with
              | Err e => Err e
              | Ok [] => Err "TLS server host resolved to no address"
              | Ok (socket_addr :: _) => connect_session socket_addr host
              end
          end
      end
  end.
Definition tls_connect_thread (co : TlsConnect) : TlsConnect :=
  mk_TlsConnect (co_url co) (drop_sender (mpsc_try_send (tls_connect (co_url co)) (co_result co)).2).
End connect.

Section tls_client.
Context `{R : Rtrb}.
Variable clock : nat -> Instant.

(** [conn] and [sock] are set and cleared together. *)
Record TLSClientComponent : Type := mk_TLSClientComponent {
  tc_conf : ring;
  tc_inn : ring;
  tc_out : ProcessEdgeSink;
  tc_signals_in : sync_channel;
  tc_signals_out : sync_channel;
  tc_session : option TlsSession;
  tc_pending_data : list FbpMessage;
  tc_pending_received : list FbpMessage;
  tc_connect_result : option TlsConnect;
  tc_scheduler_waker : option SchedulerWaker
}.

Definition new_tls_client `{MultiMapLib ring} `{MultiMapLib ProcessEdgeSink}
    (inports : multimap ring) (outports : multimap ProcessEdgeSink)
    (signals_in signals_out : sync_channel) (scheduler_waker : option SchedulerWaker) :
    outcome TLSClientComponent :=
  let* (conf, inports) := take_port "CONF" inports in
  let* (inn, inports) := take_port "IN" inports in
  let* (out, outports) := take_port "OUT" outports in
  Done (mk_TLSClientComponent conf inn out signals_in signals_out None [] [] None scheduler_waker).

Definition tc_l_conf : lens TLSClientComponent ring := mk_lens tc_conf
  (fun x c => mk_TLSClientComponent x (tc_inn c) (tc_out c) (tc_signals_in c) (tc_signals_out c) (tc_session c)
     (tc_pending_data c) (tc_pending_received c) (tc_connect_result c) (tc_scheduler_waker c)).
Definition tc_l_inn : lens TLSClientComponent ring := mk_lens tc_inn
  (fun x c => mk_TLSClientComponent (tc_conf c) x (tc_out c) (tc_signals_in c) (tc_signals_out c) (tc_session c)
     (tc_pending_data c) (tc_pending_received c) (tc_connect_result c) (tc_scheduler_waker c)).
Definition tc_l_box : lens TLSClientComponent Outbox := mk_lens
  (fun c => mk_Outbox (tc_out c) (tc_pending_received c))
  (fun x c => mk_TLSClientComponent (tc_conf c) (tc_inn c) (ob_out x) (tc_signals_in c) (tc_signals_out c)
     (tc_session c) (tc_pending_data c) (ob_pending x) (tc_connect_result c) (tc_scheduler_waker c)).
Definition tc_l_signals : lens TLSClientComponent Signals := mk_lens
  (fun c => mk_Signals (tc_signals_in c) (tc_signals_out c))
  (fun x c => mk_TLSClientComponent (tc_conf c) (tc_inn c) (tc_out c) (sig_in x) (sig_out x) (tc_session c)
     (tc_pending_data c) (tc_pending_received c) (tc_connect_result c) (tc_scheduler_waker c)).
Definition tc_l_session : lens TLSClientComponent (option TlsSession) := mk_lens tc_session
  (fun x c => mk_TLSClientComponent (tc_conf c) (tc_inn c) (tc_out c) (tc_signals_in c) (tc_signals_out c) x
     (tc_pending_data c) (tc_pending_received c) (tc_connect_result c) (tc_scheduler_waker c)).
Definition tc_l_pending_data : lens TLSClientComponent (list FbpMessage) := mk_lens tc_pending_data
  (fun x c => mk_TLSClientComponent (tc_conf c) (tc_inn c) (tc_out c) (tc_signals_in c) (tc_signals_out c)
     (tc_session c) x (tc_pending_received c) (tc_connect_result c) (tc_scheduler_waker c)).
Definition tc_l_connect_result : lens TLSClientComponent (option TlsConnect) := mk_lens tc_connect_result
  (fun x c => mk_TLSClientComponent (tc_conf c) (tc_inn c) (tc_out c) (tc_signals_in c) (tc_signals_out c)
     (tc_session c) (tc_pending_data c) (tc_pending_received c) x (tc_scheduler_waker c)).

(** The thread is started when there is a URL. *)
Definition start_connect : proc TLSClientComponent unit :=
  session ← read tc_l_session;
  connect_result ← read tc_l_connect_result;
  if is_none session && is_none connect_result then
    url_msg ← pop tc_l_conf;
    match url_msg with
    | None => return_ NoWork
    | Some url_msg =>
        match as_text url_msg with
        | None => panic
        | Some url_str => write tc_l_connect_result (Some (mk_TlsConnect url_str channel))
        end
    end
  else mret tt.

(** Without a connection the call ends here. *)
Definition check_connect : proc TLSClientComponent unit :=
  session ← read tc_l_session;
  match session with
  | Some _ => mret tt
  | None =>
      connect_result ← read tc_l_connect_result;
      match connect_result with
      | None => return_ NoWork
      | Some co =>
          let '(r, ch) := mpsc_try_recv (co_result co) in
          write tc_l_connect_result (Some (mk_TlsConnect (co_url co) ch));;
          match r with
          | Received (Ok session) => write tc_l_session (Some session);; write tc_l_connect_result None
          | Received (Err _) => write tc_l_connect_result None;; return_ NoWork
          | RecvEmpty => return_ NoWork
          | RecvDisconnected => write tc_l_connect_result None;; return_ NoWork
          end
      end
  end.

(** The payload of a packet is written and sent; an error drops the
    connection. *)
Inductive offer_result : Type := Offered | OfferBlocked | OfferLost | NoConnection.
Definition tls_offer (ip : FbpMessage) : proc TLSClientComponent offer_result :=
  session ← read tc_l_session;
  match session with
  | None => mret NoConnection
  | Some session =>
      let '(res, session) := tls_write (default [] (as_bytes ip)) session in
      write tc_l_session (Some session);;
      match res with
      | Err _ => write tc_l_session None;; mret OfferLost
      | Ok _ =>
          let '(res, session) := tls_complete_io session in
          write tc_l_session (Some session);;
          match res with
          | Ok _ => mret Offered
          | Err WouldBlock => mret OfferBlocked
          | Err _ => write tc_l_session None;; mret OfferLost
          end
      end
  end.

Definition send_pending_data : proc TLSClientComponent unit :=
  while (fun f => S (length (tc_pending_data (fr_self f))))
    (fun f => (0 <? remaining_budget (fr_ctx f))%N && negb (bool_decide (tc_pending_data (fr_self f) = [])))
    (p ← read tc_l_pending_data;
     match head p with
     | None => mret tt
     | Some pending_data =>
         r ← tls_offer pending_data;
         match r with
         | Offered => write tc_l_pending_data (tail p);; work 1;; charge 1
         | _ => break
         end
     end).

Definition keep_data (ip : FbpMessage) : proc TLSClientComponent unit :=
  p ← read tc_l_pending_data; write tc_l_pending_data (p ++ [ip]).

(** The loop over a chunk of [n] packets; it does not look at the budget.  What
    it does not reach stays in the ring. *)
Fixpoint send_chunk (n : nat) : proc TLSClientComponent unit :=
  match n with
  | O => mret tt
  | S n =>
      ip ← pop tc_l_inn;
      match ip with
      | None => mret tt
      | Some ip =>
          r ← tls_offer ip;
          match r with
          | Offered => work 1;; charge 1;; send_chunk n
          | OfferBlocked => keep_data ip;; work 1;; charge 1;; send_chunk n
          | OfferLost => keep_data ip
          | NoConnection => keep_data ip;; work 1;; charge 1;; send_chunk n
          end
      end
  end.

Definition send_data : proc TLSClientComponent unit :=
  while (fun f => S (ring_slots (tc_inn (fr_self f)))) (fun f => (0 <? remaining_budget (fr_ctx f))%N)
    (inn ← read tc_l_inn;
     match ring_slots inn with
     | O => break
     | n => send_chunk n
     end).

(** One packet of plain text per round. *)
Definition receive_data : proc TLSClientComponent unit :=
  while (fun f => S (match tc_session (fr_self f) with Some s => length (tl_reads s) | None => O end))
    (fun f => (0 <? remaining_budget (fr_ctx f))%N)
    (session ← read tc_l_session;
     match session with
     | None => break
     | Some session =>
         let '(res, session) := tls_receive session in
         write tc_l_session (Some session);;
         match res with
         | TlsEof => write tc_l_session None;; break
         | TlsBadPackets => write tc_l_session None;; break
         | TlsReadError WouldBlock => break
         | TlsReadError _ => write tc_l_session None;; break
         | TlsPackets _ =>
             let '(res, session) := tls_read TLS_READ_BUFFER session in
             write tc_l_session (Some session);;
             match res with
             | Ok [] => break
             | Ok data => zoom tc_l_box (send_or_keep (from_bytes data));; work 1;; charge 1
             | Err WouldBlock => break
             | Err _ => write tc_l_session None;; break
             end
         end
     end).

Definition tls_client_process : proc TLSClientComponent ProcessResult :=
  zoom tc_l_box flush;;
  start_connect;;
  check_connect;;
  zoom tc_l_signals (poll message_as_utf8);;
  send_pending_data;;
  send_data;;
  receive_data;;
  abandoned ← is_abandoned tc_l_inn;
  pending ← read tc_l_pending_data;
  box ← read tc_l_box;
  if (abandoned : bool) && bool_decide (pending = []) && bool_decide (ob_pending box = []) then return_ Finished
  else connected_result clock.

#[export] Instance keeps_send_chunk n : Keeps (send_chunk n).
Proof. induction n; simpl; [apply _|]. unfold tls_offer, keep_data. apply _. Qed.
#[export] Instance keeps_tls_client : Keeps tls_client_process.
Proof.
  unfold tls_client_process, start_connect, check_connect, send_pending_data, send_data, receive_data, tls_offer, flush.
  apply _.
Qed.
Definition tls_client_component := component_of tls_client_process.
End tls_client.

(** * TLSServer *)

(** [Writing] and [Closed] are never entered. *)
Inductive ConnectionState : Type :=
| PendingHandshake (handshake_result : mpsc (result TlsSession string))
| Active (session : TlsSession) (client_id : N)
| Writing (session : TlsSession) (client_id : N) (data : list byte)
| Closed.
Record TlsConnection : Type := mk_TlsConnection {
  tn_state : ConnectionState;
  tn_last_active : Instant
}.

(** The connections that wait to be accepted; [false]: the socket cannot be set
    up. *)
Record TlsListener : Type := mk_TlsListener {
  tk_accepts : list (result bool ErrorKind);
  tk_nonblocking : bool
}.
Definition tls_accept (li : TlsListener) : result bool ErrorKind * TlsListener :=
  match tk_accepts li with
  | [] => (Err WouldBlock, li)
  | a :: rest => (a, mk_TlsListener rest (tk_nonblocking li))
  end.

Definition HANDSHAKE_TIMEOUT : Duration := 30000000000.

Section tls_server.
Context `{R : Rtrb} `{HI : HashIter} {Certs Key ServerConfig : Type}.
Variable clock : nat -> Instant.
(** The crates rustls_pemfile and rustls, and [TcpListener::bind]. *)
Variable parse_certs : list byte -> option Certs.
Variable parse_key : list byte -> option Key.
Variable with_single_cert : Certs -> Key -> option ServerConfig.
Variable tls_bind : string -> result TlsListener ErrorKind.

(** What the loops of the server work on. *)
Record TlsHub : Type := mk_TlsHub {
  th_listener : option TlsListener;
  th_resp : ring;
  th_box : Outbox;
  th_connections : gmap N TlsConnection;
  th_next_client_id : N;
  th_pending_responses : list FbpMessage
}.
Definition th_l_listener : lens TlsHub (option TlsListener) := mk_lens th_listener
  (fun x h => mk_TlsHub x (th_resp h) (th_box h) (th_connections h) (th_next_client_id h) (th_pending_responses h)).
Definition th_l_resp : lens TlsHub ring := mk_lens th_resp
  (fun x h => mk_TlsHub (th_listener h) x (th_box h) (th_connections h) (th_next_client_id h)
                (th_pending_responses h)).
Definition th_l_box : lens TlsHub Outbox := mk_lens th_box
  (fun x h => mk_TlsHub (th_listener h) (th_resp h) x (th_connections h) (th_next_client_id h)
                (th_pending_responses h)).
Definition th_l_connections : lens TlsHub (gmap N TlsConnection) := mk_lens th_connections
  (fun x h => mk_TlsHub (th_listener h) (th_resp h) (th_box h) x (th_next_client_id h) (th_pending_responses h)).
Definition th_l_next_client_id : lens TlsHub N := mk_lens th_next_client_id
  (fun x h => mk_TlsHub (th_listener h) (th_resp h) (th_box h) (th_connections h) x (th_pending_responses h)).
Definition th_l_pending_responses : lens TlsHub (list FbpMessage) := mk_lens th_pending_responses
  (fun x h => mk_TlsHub (th_listener h) (th_resp h) (th_box h) (th_connections h) (th_next_client_id h) x).

Definition put_tls (id : N) (cn : TlsConnection) : proc TlsHub unit :=
  connections ← read th_l_connections; write th_l_connections (<[id := cn]> connections).

(** One new connection, within the budget; a thread does the handshake. *)
Definition accept_tls : proc TlsHub unit :=
  b ← budget;
  if (0 <? b)%N then
    listener ← read th_l_listener;
    match listener with
    | None => mret tt
    | Some listener =>
        let '(res, listener) := tls_accept listener in
        write th_l_listener (Some listener);;
        match res with
        | Ok settable =>
            if (settable : bool) then
              client_id ← read th_l_next_client_id;
              write th_l_next_client_id ((client_id + 1) mod u32_modulus)%N;;
              t ← now clock;
              put_tls client_id (mk_TlsConnection (PendingHandshake channel) t);;
              work 1;; charge 1
            else panic
        | Err _ => mret tt
        end
    end
  else mret tt.

(** A connection whose handshake is under way. *)
Definition check_handshake (client_id : N) (cn : TlsConnection) (ch : mpsc (result TlsSession string))
    (remove : list N) : proc TlsHub (list N) :=
  let '(r, ch) := mpsc_try_recv ch in
  put_tls client_id (mk_TlsConnection (PendingHandshake ch) (tn_last_active cn));;
  match r with
  | Received (Ok session) =>
      t ← now clock;
      put_tls client_id (mk_TlsConnection (Active session client_id) t);;
      work 1;; charge 1;; mret remove
  | Received (Err _) => mret (remove ++ [client_id])
  | RecvEmpty =>
      t ← now clock;
      if (HANDSHAKE_TIMEOUT <? t - tn_last_active cn)%N then mret (remove ++ [client_id]) else mret remove
  | RecvDisconnected => mret (remove ++ [client_id])
  end.

(** A connection over which data may come. *)
Definition read_active (key : N) (cn : TlsConnection) (session : TlsSession) (client_id : N) (remove : list N) :
    proc TlsHub (list N) :=
  let '(res, session) := tls_receive session in
  put_tls key (mk_TlsConnection (Active session client_id) (tn_last_active cn));;
  match res with
  | TlsEof => mret (remove ++ [client_id])
  | TlsBadPackets => mret (remove ++ [client_id])
  | TlsReadError WouldBlock => mret remove
  | TlsReadError _ => mret (remove ++ [client_id])
  | TlsPackets _ =>
      let '(res, session) := tls_read TLS_READ_BUFFER session in
      put_tls key (mk_TlsConnection (Active session client_id) (tn_last_active cn));;
      match res with
      | Ok [] => mret remove
      | Ok data =>
          sent ← zoom th_l_box (offer_packet (from_bytes data));
          (if (sent : bool) then
             t ← now clock; put_tls key (mk_TlsConnection (Active session client_id) t)
           else mret tt);;
          work 1;; charge 1;; mret remove
      | Err WouldBlock => mret remove
      | Err _ => mret (remove ++ [client_id])
      end
  end.

Definition serve_connection (client_id : N) (remove : list N) : proc TlsHub (list N) :=
  connections ← read th_l_connections;
  match connections !! client_id with
  | None => mret remove
  | Some cn =>
      match tn_state cn with
      | PendingHandshake ch => check_handshake client_id cn ch remove
      | Active session id => read_active client_id cn session id remove
      | Writing _ _ _ => mret remove
      | Closed => mret (remove ++ [client_id])
      end
  end.

Fixpoint serve_connections (ids : list N) (remove : list N) : proc TlsHub (list N) :=
  match ids with
  | [] => mret remove
  | client_id :: ids =>
      b ← budget;
      if (b =? 0)%N then mret remove
      else remove ← serve_connection client_id remove; serve_connections ids remove
  end.

Definition remove_connections (remove : list N) : proc TlsHub unit :=
  connections ← read th_l_connections;
  write th_l_connections (remove_all remove connections);;
  work (N.of_nat (length remove)).

(** The first active connection, in the order of the map. *)
Fixpoint first_active (l : list (N * TlsConnection)) : option (N * (TlsConnection * (TlsSession * N))) :=
  match l with
  | [] => None
  | (key, cn) :: l =>
      match tn_state cn with
      | Active session client_id => Some (key, (cn, (session, client_id)))
      | _ => first_active l
      end
  end.

(** One packet of RESP, whatever the budget. *)
Definition take_response : proc TlsHub unit :=
  response_data ← pop th_l_resp;
  match response_data with
  | Some m => p ← read th_l_pending_responses; write th_l_pending_responses (p ++ [m])
  | None => mret tt
  end.

(** The answer that waits longest goes to the first active connection; it is
    done with when it has been sent. *)
Definition send_response : proc TlsHub unit :=
  b ← budget;
  if (0 <? b)%N then
    p ← read th_l_pending_responses;
    match head p with
    | None => mret tt
    | Some response_data =>
        connections ← read th_l_connections;
        match first_active (hash_iter connections) with
        | None => mret tt
        | Some (key, (cn, (session, client_id))) =>
            let '(res, session) := tls_write (default [] (as_bytes response_data)) session in
            put_tls key (mk_TlsConnection (Active session client_id) (tn_last_active cn));;
            match res with
            | Err _ => mret tt
            | Ok _ =>
                let '(res, session) := tls_complete_io session in
                put_tls key (mk_TlsConnection (Active session client_id) (tn_last_active cn));;
                match res with
                | Err _ => mret tt
                | Ok _ =>
                    t ← now clock;
                    put_tls key (mk_TlsConnection (Active session client_id) t);;
                    work 1;; charge 1;;
                    write th_l_pending_responses (tail p)
                end
            end
        end
    end
  else mret tt.

Definition tls_serve : proc TlsHub unit :=
  accept_tls;;
  connections ← read th_l_connections;
  remove ← serve_connections (hash_iter connections).*1 [];
  remove_connections remove;;
  take_response;;
  send_response.

Record TLSServerComponent : Type := mk_TLSServerComponent {
  tv_conf : ring;
  tv_cert : ring;
  tv_key : ring;
  tv_resp : ring;
  tv_out : ProcessEdgeSink;
  tv_signals_in : sync_channel;
  tv_signals_out : sync_channel;
  tv_listen_addr : option string;
  tv_cert_data : option (list byte);
  tv_key_data : option (list byte);
  tv_server_config : option ServerConfig;
  tv_listener : option TlsListener;
  tv_connections : gmap N TlsConnection;
  tv_next_client_id : N;
  tv_pending_outbound : list FbpMessage;
  tv_pending_responses : list FbpMessage;
  tv_scheduler_waker : option SchedulerWaker
}.

Definition new_tls_server `{MultiMapLib ring} `{MultiMapLib ProcessEdgeSink}
    (inports : multimap ring) (outports : multimap ProcessEdgeSink)
    (signals_in signals_out : sync_channel) (scheduler_waker : option SchedulerWaker) :
    outcome TLSServerComponent :=
  let* (conf, inports) := take_port "CONF" inports in
  let* (cert, inports) := take_port "CERT" inports in
  let* (key, inports) := take_port "KEY" inports in
  let* (resp, inports) := take_port "RESP" inports in
  let* (out, outports) := take_port "OUT" outports in
  Done (mk_TLSServerComponent conf cert key resp out signals_in signals_out None None None None None ∅ 0 [] []
          scheduler_waker).

(** The inports for the configuration, and what has come of it. *)
Record TlsSetup : Type := mk_TlsSetup {
  tu_conf : ring;
  tu_cert : ring;
  tu_key : ring;
  tu_listen_addr : option string;
  tu_cert_data : option (list byte);
  tu_key_data : option (list byte);
  tu_server_config : option ServerConfig;
  tu_listener : option TlsListener
}.
Definition tu_l_conf : lens TlsSetup ring := mk_lens tu_conf
  (fun x u => mk_TlsSetup x (tu_cert u) (tu_key u) (tu_listen_addr u) (tu_cert_data u) (tu_key_data u)
                (tu_server_config u) (tu_listener u)).
Definition tu_l_cert : lens TlsSetup ring := mk_lens tu_cert
  (fun x u => mk_TlsSetup (tu_conf u) x (tu_key u) (tu_listen_addr u) (tu_cert_data u) (tu_key_data u)
                (tu_server_config u) (tu_listener u)).
Definition tu_l_key : lens TlsSetup ring := mk_lens tu_key
  (fun x u => mk_TlsSetup (tu_conf u) (tu_cert u) x (tu_listen_addr u) (tu_cert_data u) (tu_key_data u)
                (tu_server_config u) (tu_listener u)).
Definition tu_l_listen_addr : lens TlsSetup (option string) := mk_lens tu_listen_addr
  (fun x u => mk_TlsSetup (tu_conf u) (tu_cert u) (tu_key u) x (tu_cert_data u) (tu_key_data u)
                (tu_server_config u) (tu_listener u)).
Definition tu_l_cert_data : lens TlsSetup (option (list byte)) := mk_lens tu_cert_data
  (fun x u => mk_TlsSetup (tu_conf u) (tu_cert u) (tu_key u) (tu_listen_addr u) x (tu_key_data u)
                (tu_server_config u) (tu_listener u)).
Definition tu_l_key_data : lens TlsSetup (option (list byte)) := mk_lens tu_key_data
  (fun x u => mk_TlsSetup (tu_conf u) (tu_cert u) (tu_key u) (tu_listen_addr u) (tu_cert_data u) x
                (tu_server_config u) (tu_listener u)).
Definition tu_l_server_config : lens TlsSetup (option ServerConfig) := mk_lens tu_server_config
  (fun x u => mk_TlsSetup (tu_conf u) (tu_cert u) (tu_key u) (tu_listen_addr u) (tu_cert_data u) (tu_key_data u)
                x (tu_listener u)).
Definition tu_l_listener : lens TlsSetup (option TlsListener) := mk_lens tu_listener
  (fun x u => mk_TlsSetup (tu_conf u) (tu_cert u) (tu_key u) (tu_listen_addr u) (tu_cert_data u) (tu_key_data u)
                (tu_server_config u) x).

Definition tv_l_setup : lens TLSServerComponent TlsSetup := mk_lens
  (fun c => mk_TlsSetup (tv_conf c) (tv_cert c) (tv_key c) (tv_listen_addr c) (tv_cert_data c) (tv_key_data c)
              (tv_server_config c) (tv_listener c))
  (fun u c => mk_TLSServerComponent (tu_conf u) (tu_cert u) (tu_key u) (tv_resp c) (tv_out c) (tv_signals_in c)
                (tv_signals_out c) (tu_listen_addr u) (tu_cert_data u) (tu_key_data u) (tu_server_config u)
                (tu_listener u) (tv_connections c) (tv_next_client_id c) (tv_pending_outbound c)
                (tv_pending_responses c) (tv_scheduler_waker c)).
Definition tv_l_signals : lens TLSServerComponent Signals := mk_lens
  (fun c => mk_Signals (tv_signals_in c) (tv_signals_out c))
  (fun s c => mk_TLSServerComponent (tv_conf c) (tv_cert c) (tv_key c) (tv_resp c) (tv_out c) (sig_in s)
                (sig_out s) (tv_listen_addr c) (tv_cert_data c) (tv_key_data c) (tv_server_config c)
                (tv_listener c) (tv_connections c) (tv_next_client_id c) (tv_pending_outbound c)
                (tv_pending_responses c) (tv_scheduler_waker c)).
Definition tv_hub : lens TLSServerComponent TlsHub := mk_lens
  (fun c => mk_TlsHub (tv_listener c) (tv_resp c) (mk_Outbox (tv_out c) (tv_pending_outbound c)) (tv_connections c)
              (tv_next_client_id c) (tv_pending_responses c))
  (fun h c => mk_TLSServerComponent (tv_conf c) (tv_cert c) (tv_key c) (th_resp h) (ob_out (th_box h))
                (tv_signals_in c) (tv_signals_out c) (tv_listen_addr c) (tv_cert_data c) (tv_key_data c)
                (tv_server_config c) (th_listener h) (th_connections h) (th_next_client_id h)
                (ob_pending (th_box h)) (th_pending_responses h) (tv_scheduler_waker c)).

(** The three parts of the configuration as they come. *)
Definition read_setup : proc TlsSetup unit :=
  listen_addr_msg ← pop tu_l_conf;
  match listen_addr_msg with
  | Some m =>
      match as_text m with
      | None => panic
      | Some listen_addr => write tu_l_listen_addr (Some listen_addr)
      end
  | None => mret tt
  end;;
  cert_bytes ← pop tu_l_cert;
  match cert_bytes with
  | Some m => write tu_l_cert_data (Some (default [] (as_bytes m)))
  | None => mret tt
  end;;
  key_bytes ← pop tu_l_key;
  match key_bytes with
  | Some m => write tu_l_key_data (Some (default [] (as_bytes m)))
  | None => mret tt
  end.

(** The certificate, the configuration and the listener; [None] unwinds. *)
Definition make_config (cert_data key_data : list byte) : option ServerConfig :=
  certs ← parse_certs cert_data; private_key ← parse_key key_data; with_single_cert certs private_key.
Definition set_up (listen_addr : string) (cert_data key_data : list byte) : proc TlsSetup unit :=
  match make_config cert_data key_data with
  | None => panic
  | Some server_config =>
      write tu_l_server_config (Some server_config);;
      match tls_bind listen_addr with
      | Err _ => panic
      | Ok listener => if tk_nonblocking listener then write tu_l_listener (Some listener) else panic
      end
  end.

Definition complete_setup (u : TlsSetup) : option (string * (list byte * list byte)) :=
  match tu_listen_addr u, tu_cert_data u, tu_key_data u with
  | Some listen_addr, Some cert_data, Some key_data => Some (listen_addr, (cert_data, key_data))
  | _, _, _ => None
  end.
Definition tls_configure : proc TlsSetup unit :=
  server_config ← read tu_l_server_config;
  match server_config with
  | Some _ => mret tt
  | None =>
      read_setup;;
      u ← read (mk_lens id (fun x _ => x));
      match complete_setup u with
      | Some (listen_addr, (cert_data, key_data)) => set_up listen_addr cert_data key_data
      | None => return_ NoWork
      end
  end.

Definition tls_server_process : proc TLSServerComponent ProcessResult :=
  zoom tv_hub (zoom th_l_box flush);;
  zoom tv_l_setup tls_configure;;
  zoom tv_l_signals (poll message_as_utf8);;
  zoom tv_hub tls_serve;;
  w ← work_units;
  if (0 <? w)%N then mret (DidWork w)
  else
    hub ← read tv_hub;
    (if is_none (th_listener hub) then mret tt else wake_poll clock);; mret NoWork.

#[export] Instance keeps_serve_connections ids remove : Keeps (serve_connections ids remove).
Proof.
  revert remove. induction ids as [|id ids IH]; intros remove; [apply _|]. simpl.
  unfold serve_connection, check_handshake, read_active, put_tls. apply _.
Qed.
#[export] Instance keeps_tls_server : Keeps tls_server_process.
Proof.
  unfold tls_server_process, tls_configure, read_setup, set_up, tls_serve, accept_tls, remove_connections, take_response, send_response,
    put_tls, flush.
  apply _.
Qed.
Definition tls_server_component := component_of tls_server_process.
End tls_server.
