(* ===== verification/SessionsTheorems.v ===== *)
(** What is proved about the components over WebSockets and TLS: along every run
    what comes out of the servers is what was read from their clients, once and
    in order; what WSServer sends to its clients; what TLSClient carries in
    either direction. *)
From S2P Require Import Prelude Api Scheduler Process Pipes PipesTheorems Sinks SinksTheorems Io Servers ServersTheorems Clients ClientsTheorems Sessions.
From Stdlib Require Strings.String.
From Stdlib Require Import NArith ZArith Lia Strings.Byte.
From stdpp Require Import base list strings gmap relations.
Local Open Scope string_scope.
Local Open Scope list_scope.

(** * Reads, message by message *)

Fixpoint messages_from (id : N) (l : log) : list (list byte) :=
  match l with
  | [] => []
  | (i, m) :: l => if decide (i = id) then m :: messages_from id l else messages_from id l
  end.

Lemma messages_from_app id l1 l2 : messages_from id (l1 ++ l2) = messages_from id l1 ++ messages_from id l2.
Proof. induction l1 as [|[i m] l1 IH]; [done|]. simpl. destruct (decide _); simpl; by rewrite IH. Qed.

Lemma messages_from_none id l : (forall e, e ∈ l -> e.1 <> id) -> messages_from id l = [].
Proof.
  intros H. induction l as [|[i m] l IH]; [done|]. simpl.
  rewrite decide_False by (apply (H (i, m)); set_solver). apply IH. set_solver.
Qed.

(** The packets for the entries of a log. *)
Definition relayed_packets (l : log) : list FbpMessage := map (fun e => from_bytes e.2) l.

(** * Servers that relay

    A server as its clients and its consumer see it: the packets that it has
    output or is about to, what it has read from the clients that are connected,
    and the number of the next one. *)
Record Gateway : Type := mk_Gateway {
  gw_items : list FbpMessage;
  gw_seen : gmap N (list (list byte));
  gw_next : N
}.

(** Since [g0] the messages of [l] have been read and offered to the outport. *)
Record relayed (g0 : Gateway) (l : log) (g : Gateway) : Prop := mk_relayed {
  rl_items : gw_items g = gw_items g0 ++ relayed_packets l;
  rl_log : forall e, e ∈ l -> (e.1 < gw_next g)%N;
  rl_seen : forall id ms, gw_seen g !! id = Some ms -> ms = default [] (gw_seen g0 !! id) ++ messages_from id l;
  rl_old : forall id, is_Some (gw_seen g !! id) -> is_Some (gw_seen g0 !! id) \/ (gw_next g0 <= id)%N;
  rl_ids : forall id, is_Some (gw_seen g !! id) -> (id < gw_next g)%N;
  rl_next : (gw_next g0 <= gw_next g)%N
}.

Definition numbered (g : Gateway) : Prop := forall id, is_Some (gw_seen g !! id) -> (id < gw_next g)%N.

Lemma relayed_refl g : numbered g -> relayed g [] g.
Proof.
  intros H. split; try done.
  - by rewrite app_nil_r.
  - set_solver.
  - intros id ms ->. by rewrite app_nil_r.
  - intros id Hid. by left.
Qed.

(** Connections may go, and nothing else has happened. *)
Lemma relayed_less g0 l g g' :
  relayed g0 l g -> gw_items g' = gw_items g ->
  (forall id ms, gw_seen g' !! id = Some ms -> gw_seen g !! id = Some ms) -> (gw_next g <= gw_next g')%N ->
  relayed g0 l g'.
Proof.
  intros [Hi Hl Hs Ho Hid Hn] Hi' Hs' Hn'. split; [by rewrite Hi'|..].
  - intros e He%Hl. lia.
  - intros id ms H%Hs'. by apply Hs.
  - intros id [ms H%Hs']. apply Ho. by eexists.
  - intros id [ms H%Hs']. assert (id < gw_next g)%N by (apply Hid; by eexists). lia.
  - lia.
Qed.

(** A message has been read. *)
Lemma relayed_read g0 l g g' id ms data :
  relayed g0 l g -> gw_seen g !! id = Some ms -> gw_items g' = gw_items g ++ [from_bytes data] ->
  gw_seen g' = <[id := ms ++ [data]]> (gw_seen g) -> gw_next g' = gw_next g -> relayed g0 (l ++ [(id, data)]) g'.
Proof.
  intros [Hi Hl Hs Ho Hid Hn] Hms Hi' Hs' Hn'. assert (id < gw_next g)%N as Hlt by (apply Hid; by eexists). split.
  - unfold relayed_packets in *. rewrite Hi', Hi, map_app, <- app_assoc. done.
  - rewrite Hn'. intros e [He|He]%elem_of_app; [by apply Hl|]. by apply list_elem_of_singleton in He as ->.
  - rewrite Hs'. intros i x. rewrite messages_from_app, app_assoc. simpl. destruct (decide (id = i)) as [<-|Hne].
    + rewrite lookup_insert_eq. intros [= <-]. by rewrite (Hs _ _ Hms).
    + rewrite lookup_insert_ne by done. rewrite app_nil_r. apply Hs.
  - rewrite Hs'. intros i. destruct (decide (id = i)) as [<-|Hne]; [intros _; apply Ho; by eexists|].
    rewrite lookup_insert_ne by done. apply Ho.
  - rewrite Hs', Hn'. intros i. destruct (decide (id = i)) as [<-|Hne]; [done|].
    rewrite lookup_insert_ne by done. apply Hid.
  - by rewrite Hn'.
Qed.

(** A client has come. *)
Lemma relayed_accept g0 l g g' :
  numbered g0 -> relayed g0 l g -> gw_items g' = gw_items g -> gw_seen g' = <[gw_next g := []]> (gw_seen g) ->
  gw_next g' = (gw_next g + 1)%N -> relayed g0 l g'.
Proof.
  intros H0 [Hi Hl Hs Ho Hid Hn] Hi' Hs' Hn'. split; [by rewrite Hi'|..].
  - intros e He%Hl. lia.
  - rewrite Hs'. intros i x. destruct (decide (gw_next g = i)) as [<-|Hne].
    + rewrite lookup_insert_eq. intros [= <-]. rewrite messages_from_none, app_nil_r by (intros e He%Hl; lia).
      destruct (gw_seen g0 !! gw_next g) as [ms|] eqn:Hg; [|done].
      assert (gw_next g < gw_next g0)%N by (apply H0; by eexists). lia.
    + rewrite lookup_insert_ne by done. apply Hs.
  - rewrite Hs'. intros i. destruct (decide (gw_next g = i)) as [<-|Hne]; [by right|].
    rewrite lookup_insert_ne by done. apply Ho.
  - rewrite Hs', Hn'. intros i. destruct (decide (gw_next g = i)) as [<-|Hne]; [lia|].
    rewrite lookup_insert_ne by done. intros Hlt%Hid. lia.
  - lia.
Qed.

(** ** Sending without overtaking *)
Section outbox.
Context `{R : Rtrb}.

Definition box_items (b : Outbox) : list FbpMessage := sink_items (ob_out b) ++ ob_pending b.

(** Nothing can be overtaken by what is sent within the budget. *)
Definition orderly (b : Outbox) (ctx : NodeContext) : Prop := in_order b \/ remaining_budget ctx = 0%N.

Lemma wp_flush_orderly (f : frame Outbox) (Q : unit -> frame Outbox -> Prop) E :
  (forall b ctx w es, box_items b = box_items (fr_self f) -> orderly b ctx ->
     Q tt (mk_frame b ctx w es (fr_reads f))) -> wp flush Q E f.
Proof.
  intros HQ. apply wp_flush. cbv zeta. intros o es Hsent _. unfold flushed. apply HQ.
  - unfold box_items. simpl. destruct Hsent as [-> _ _ _ _]. by rewrite <- app_assoc, take_drop.
  - set (n := movable _ _ _) in *. pose proof (sent_room _ _ _ _ Hsent) as Hroom. rewrite length_take in Hroom.
    unfold orderly, in_order. simpl. destruct (decide (remaining_budget (fr_ctx f) - N.of_nat n = 0)%N); [by right|left].
    unfold n, movable in *. destruct (decide (length (ob_pending (fr_self f)) <= room (ob_out (fr_self f)))%nat).
    + left. apply drop_ge. lia.
    + right. rewrite Hroom. lia.
Qed.

Lemma wp_offer_packet m (f : frame Outbox) (Q : bool -> frame Outbox -> Prop) E :
  (forall sent b es, box_items b = box_items (fr_self f) ++ [m] -> in_order b ->
     Q sent (mk_frame b (fr_ctx f) (fr_work f) (fr_effects f ++ es) (fr_reads f))) ->
  in_order (fr_self f) -> wp (offer_packet m) Q E f.
Proof.
  intros HQ Hp. unfold offer_packet, box_items in *. apply wp_bind, wp_send; simpl.
  - intros Hroom o es [Hs Hc _ _ _] _. wp_run. destruct Hp as [Hp|]; [|lia].
    apply HQ; simpl; [by rewrite Hs, Hp, <- !app_assoc|by left].
  - intros Hroom o [Hs Hc _ _ _]. wp_run. rewrite <- (app_nil_r (fr_effects f)).
    apply HQ; simpl; [by rewrite Hs, app_nil_r, <- app_assoc|]. right. unfold room in *. simpl. by rewrite Hc, Hs, app_nil_r.
Qed.
End outbox.

(** ** Runs

    What the run of such a server needs to know of it: how it is seen, where its
    outport is, a property that its calls and the events around it preserve, and
    that all that a call does is to relay.  [gs_room] says that the numbers for
    clients suffice for one more call. *)
Section runs.
Context `{R : Rtrb}.

Class GatewayServer (C : Type) : Type := {
  gs_view : C -> Gateway;
  gs_box : lens C Outbox;
  gs_ok : list FbpMessage -> C -> Prop;
  gs_room : C -> Prop;
  gs_process : (nat -> Instant) -> proc C ProcessResult;
  gs_event : C -> list FbpMessage -> C -> list FbpMessage -> Prop;
  gs_items c : gw_items (gs_view c) = box_items (get gs_box c);
  gs_numbered given c : gs_ok given c -> numbered (gs_view c);
  gs_taken given c b : gs_ok given c ->
    gs_ok given (set gs_box b c) /\
    gs_view (set gs_box b c) = mk_Gateway (box_items b) (gw_seen (gs_view c)) (gw_next (gs_view c));
  gs_called clock given c ctx f r :
    gs_ok given c -> gs_room c -> call (gs_process clock) c ctx = Some (f, Some r) ->
    gs_ok given (fr_self f) /\ exists l, relayed (gs_view c) l (gs_view (fr_self f));
  gs_happens c given c' given' :
    gs_event c given c' given' -> gs_ok given c -> gs_ok given' c' /\ gs_view c' = gs_view c
}.

Context {C : Type} `{GS : GatewayServer C}.

(** A server, the packets that its RESP has been sent, and what its consumer has
    received. *)
Record GatewayRun : Type := mk_GatewayRun {
  gr_server : C;
  gr_given : list FbpMessage;
  gr_got : list FbpMessage
}.

Inductive gateway_step : GatewayRun -> GatewayRun -> Prop :=
| gateway_called clock c given got ctx f r :
    gs_room c -> call (gs_process clock) c ctx = Some (f, Some r) ->
    gateway_step (mk_GatewayRun c given got) (mk_GatewayRun (fr_self f) given got)
| gateway_happens c c' given given' got :
    gs_event c given c' given' -> gateway_step (mk_GatewayRun c given got) (mk_GatewayRun c' given' got)
| gateway_taken c given got m r :
    ring_pop (pes_sink (ob_out (get gs_box c))) = (Some m, r) ->
    gateway_step (mk_GatewayRun c given got)
      (mk_GatewayRun (set gs_box (mk_Outbox (set_sink r (ob_out (get gs_box c))) (ob_pending (get gs_box c))) c)
         given (got ++ [m])).

(** Nothing has happened yet. *)
Definition gateway_untouched (s : GatewayRun) : Prop :=
  gs_ok [] (gr_server s) /\ gw_seen (gs_view (gr_server s)) = ∅ /\ box_items (get gs_box (gr_server s)) = [] /\
  gr_given s = [] /\ gr_got s = [].

Record gateway_inv (s : GatewayRun) (l : log) : Prop := mk_gateway_inv {
  gi_ok : gs_ok (gr_given s) (gr_server s);
  gi_items : gr_got s ++ box_items (get gs_box (gr_server s)) = relayed_packets l;
  gi_log : forall e, e ∈ l -> (e.1 < gw_next (gs_view (gr_server s)))%N;
  gi_seen : forall id ms, gw_seen (gs_view (gr_server s)) !! id = Some ms -> ms = messages_from id l
}.

Lemma gateway_called_inv clock c given got ctx f r l :
  gateway_inv (mk_GatewayRun c given got) l -> gs_room c -> call (gs_process clock) c ctx = Some (f, Some r) ->
  exists l', gateway_inv (mk_GatewayRun (fr_self f) given got) (l ++ l').
Proof.
  intros [Hok Hi Hl Hs] Hroom Hcall. simpl in *.
  destruct (gs_called clock given c ctx f r Hok Hroom Hcall) as (Hok' & l' & [Ri Rl Rs Ro _ Rn]). rewrite !gs_items in Ri.
  exists l'. split; simpl; [done|..].
  - unfold relayed_packets in *. by rewrite Ri, map_app, app_assoc, Hi.
  - intros e [He%Hl|He]%elem_of_app; [lia|by apply Rl].
  - intros id ms Hms. rewrite (Rs _ _ Hms), messages_from_app. f_equal.
    destruct (gw_seen (gs_view c) !! id) as [ms0|] eqn:Hid; simpl; [by apply Hs|].
    symmetry. apply messages_from_none. intros e He%Hl <-. destruct (Ro e.1) as [[]|]; [by eexists|congruence|lia].
Qed.

Lemma gateway_step_inv s s' l : gateway_inv s l -> gateway_step s s' -> exists l', gateway_inv s' (l ++ l').
Proof.
  intros Hinv Hs. destruct Hs as [clock c given got ctx f r Hroom Hcall|c c' given given' got He|c given got m r Hpop].
  - by eapply gateway_called_inv.
  - exists []. rewrite app_nil_r. destruct Hinv as [Hok Hi Hl Hs]. simpl in *.
    destruct (gs_happens _ _ _ _ He Hok) as [Hok' Hv]. rewrite <- gs_items in Hi.
    split; simpl; rewrite <- ?gs_items, ?Hv; done.
  - exists []. rewrite app_nil_r. destruct Hinv as [Hok Hi Hl Hs]. simpl in *.
    set (b := mk_Outbox _ _). destruct (gs_taken given c b Hok) as [Hok' Hv].
    split; simpl; [done|rewrite <- gs_items|..]; rewrite Hv; try done. simpl.
    pose proof (ring_pop_items (pes_sink (ob_out (get gs_box c)))) as Hpi.
    pose proof (ring_pop_res (pes_sink (ob_out (get gs_box c)))) as Hpr. rewrite Hpop in Hpi, Hpr. simpl in *.
    rewrite <- Hi. unfold box_items, sink_items. simpl. rewrite Hpi.
    destruct (ring_items (pes_sink (ob_out (get gs_box c)))) as [|x rest]; [done|].
    simpl in *. injection Hpr as <-. by rewrite <- app_assoc.
Qed.

Lemma gateway_run_inv s0 s : gateway_untouched s0 -> rtc gateway_step s0 s -> exists l, gateway_inv s l.
Proof.
  intros (Hok & Hs & Hb & Hg & Hgot) Hr. assert (gateway_inv s0 []) as H0.
  { split; [by rewrite Hg|by rewrite Hgot, Hb|set_solver|]. rewrite Hs. intros id ms. by rewrite lookup_empty. }
  clear Hok Hs Hb Hg Hgot. revert H0. generalize (@nil (N * list byte)) as l.
  induction Hr as [s|s1 s2 s3 Hs Hr IH]; intros l Hl; [by exists l|].
  destruct (gateway_step_inv s1 s2 l Hl Hs) as [l' Hl']. by apply (IH (l ++ l')).
Qed.
End runs.

(** ** Programs that do not touch the context

    They fall through with the context as it was, return without work, or
    unwind. *)
Class Quiet {C A} (m : proc C A) : Prop :=
  quiet f : wp m (fun _ f' => fr_ctx f' = fr_ctx f) (fun e f' => e = Return NoWork \/ e = Unwind) f.
#[export] Hint Extern 1 (Quiet (match ?x with _ => _ end)) => destruct x : typeclass_instances.

Section quiet.
Context `{R : Rtrb} {C : Type}.
#[export] Instance quiet_ret {A} (a : A) : Quiet (mret a : proc C A).
Proof. done. Qed.
#[export] Instance quiet_panic {A} : Quiet (panic : proc C A).
Proof. by right. Qed.
#[export] Instance quiet_no_work {A} : Quiet (return_ NoWork : proc C A).
Proof. by left. Qed.
#[export] Instance quiet_read {F} (l : lens C F) : Quiet (read l).
Proof. done. Qed.
#[export] Instance quiet_write {F} (l : lens C F) v : Quiet (write l v).
Proof. done. Qed.
#[export] Instance quiet_pop (l : lens C ring) : Quiet (pop l).
Proof. done. Qed.
#[export] Instance quiet_bind {A B} (m : proc C A) (k : A -> proc C B) :
  Quiet m -> (forall a, Quiet (k a)) -> Quiet (m ≫= k).
Proof.
  intros Hm Hk f. apply wp_bind. eapply wp_conseq; [apply Hm| |done]. intros a f' Hf'.
  eapply wp_conseq; [apply Hk| |done]. intros b g Hg. simpl in *. congruence.
Qed.
End quiet.

(** * WSServer *)
Section ws_server.
Context `{R : Rtrb} `{HI : HashIter}.
(** The clients of a new listener have not been served yet. *)
Variable ws_bind : string -> result WsListener ErrorKind.
Definition fresh_accept (a : WsAccept) : Prop :=
  match a with WsUpgraded ws => wk_seen ws = [] /\ wk_written ws = [] | _ => True end.
Hypothesis bind_fresh : forall addr li, ws_bind addr = Ok li -> Forall fresh_accept (wl_accepts li).

Definition ws_connections (c : WSServerComponent) : gmap N WebSocket :=
  match wv_state c with WSServerListening l => ln_connections l | _ => ∅ end.
(** A server that has finished has no number for a client left. *)
Definition ws_view (c : WSServerComponent) : Gateway :=
  mk_Gateway (box_items (get wv_l_box c)) (wk_seen <$> ws_connections c)
    (match wv_state c with
     | WSServerWaiting => 1
     | WSServerListening l => ln_next_connection_id l
     | WSServerFinished => u32_modulus
     end)%N.

(** [taken] are the packets of RESP that have been taken: every client has been
    sent some of them, in order. *)
Record ws_answered (given taken : list FbpMessage) (c : WSServerComponent) : Prop := mk_ws_answered {
  wo_fresh : forall l, wv_state c = WSServerListening l -> Forall fresh_accept (wl_accepts (ln_listener l));
  wo_ids : forall id, is_Some (ws_connections c !! id) -> (id < gw_next (ws_view c))%N;
  wo_next : (gw_next (ws_view c) <= u32_modulus)%N;
  wo_taken : given = taken ++ ring_items (wv_resp c);
  wo_written : forall id ws, ws_connections c !! id = Some ws -> wk_written ws `sublist_of` map packet_bytes taken
}.
Definition ws_ok (given : list FbpMessage) (c : WSServerComponent) : Prop := exists taken, ws_answered given taken c.
Definition ws_room (c : WSServerComponent) : Prop :=
  forall l, wv_state c = WSServerListening l -> (ln_next_connection_id l + 1 < u32_modulus)%N.

(** What happens around a server: a client sends or goes, a client comes, a
    packet arrives at RESP, its sender goes, the address comes, a signal. *)
Inductive ws_event : WSServerComponent -> list FbpMessage -> WSServerComponent -> list FbpMessage -> Prop :=
| ws_event_data c given l id ws reads writes flushes :
    wv_state c = WSServerListening l -> ln_connections l !! id = Some ws ->
    ws_event c given
      (set wv_l_state (WSServerListening (mk_Listening (ln_listener l)
         (<[id := mk_WebSocket (wk_reads ws ++ reads) (wk_writes ws ++ writes) (wk_flushes ws ++ flushes)
                    (wk_seen ws) (wk_written ws)]> (ln_connections l)) (ln_next_connection_id l))) c) given
| ws_event_client c given l a :
    wv_state c = WSServerListening l -> fresh_accept a ->
    ws_event c given
      (set wv_l_state (WSServerListening (mk_Listening
         (mk_WsListener (wl_accepts (ln_listener l) ++ [a]) (wl_nonblocking (ln_listener l)))
         (ln_connections l) (ln_next_connection_id l))) c) given
| ws_event_response c given m r :
    ring_push m (wv_resp c) = (Ok tt, r) -> ws_event c given (set wv_l_resp r c) (given ++ [m])
| ws_event_closed c given : ws_event c given (set wv_l_resp (ring_drop_producer (wv_resp c)) c) given
| ws_event_address c given m r :
    ring_push m (wv_conf c) = (Ok tt, r) -> ws_event c given (set wv_l_conf r c) given
| ws_event_signal c given m sin :
    try_send m (wv_signals_in c) = (Ok tt, sin) ->
    ws_event c given (set wv_l_signals (mk_Signals sin (wv_signals_out c)) c) given.

(** A new state whose connections are those of the old one. *)
Lemma ws_answered_state given taken c l l' :
  ws_answered given taken c -> wv_state c = WSServerListening l ->
  Forall fresh_accept (wl_accepts (ln_listener l')) -> (ln_next_connection_id l' <= u32_modulus)%N ->
  (forall id ws, ln_connections l' !! id = Some ws -> (id < ln_next_connection_id l')%N /\
     (wk_written ws = [] \/ exists ws0, ln_connections l !! id = Some ws0 /\ wk_written ws = wk_written ws0)) ->
  ws_answered given taken (set wv_l_state (WSServerListening l') c).
Proof.
  intros [Hf Hid Hn Ht Hw] Hl Hf' Hn' Hc. unfold ws_view, ws_connections in *. rewrite Hl in *. simpl in *.
  split; unfold ws_view, ws_connections; simpl; try done.
  - by intros ? [= <-].
  - intros id [ws Hws]. by apply (Hc id ws).
  - intros id ws Hws. destruct (Hc id ws Hws) as [_ [-> | (ws0 & H0 & ->)]]; [apply sublist_nil_l|by eapply Hw].
Qed.

Lemma ws_put_view c l id ws ws' :
  wv_state c = WSServerListening l -> ln_connections l !! id = Some ws ->
  ws_view (set wv_l_state (WSServerListening
     (mk_Listening (ln_listener l) (<[id := ws']> (ln_connections l)) (ln_next_connection_id l))) c) =
  mk_Gateway (gw_items (ws_view c)) (<[id := wk_seen ws']> (gw_seen (ws_view c))) (gw_next (ws_view c)).
Proof. intros Hl Hws. unfold ws_view, ws_connections. rewrite Hl. simpl. by rewrite fmap_insert. Qed.

Lemma ws_put_same c l id ws ws' :
  wv_state c = WSServerListening l -> ln_connections l !! id = Some ws -> wk_seen ws' = wk_seen ws ->
  ws_view (set wv_l_state (WSServerListening
     (mk_Listening (ln_listener l) (<[id := ws']> (ln_connections l)) (ln_next_connection_id l))) c) = ws_view c.
Proof.
  intros Hl Hws Hs. rewrite (ws_put_view c l id ws ws' Hl Hws). destruct (ws_view c) eqn:Hv. simpl. f_equal.
  rewrite insert_id; [done|]. apply (f_equal gw_seen) in Hv. simpl in Hv. subst gw_seen0. unfold ws_connections.
  rewrite Hl, lookup_fmap, Hws, Hs. done.
Qed.

(** ** A call *)
Section call.
Variable given : list FbpMessage.
Variable c0 : WSServerComponent.
Hypothesis H0 : numbered (ws_view c0).

(** During a call, and at its end. *)
Definition ws_at (lg : log) (l : Listening) (f : frame WSServerComponent) : Prop :=
  wv_state (fr_self f) = WSServerListening l /\ relayed (ws_view c0) lg (ws_view (fr_self f)) /\ ws_ok given (fr_self f).
Definition ws_done (f : frame WSServerComponent) : Prop :=
  ws_ok given (fr_self f) /\ exists lg, relayed (ws_view c0) lg (ws_view (fr_self f)).
Definition ws_orderly (f : frame WSServerComponent) : Prop := orderly (get wv_l_box (fr_self f)) (fr_ctx f).

Lemma ws_at_done lg l f : ws_at lg l f -> ws_done f.
Proof. intros (_ & Hr & Hok). split; [done|by exists lg]. Qed.

(** The end of a server. *)
Lemma ws_finished lg l f f' : ws_at lg l f -> fr_self f' = set wv_l_state WSServerFinished (fr_self f) -> ws_done f'.
Proof.
  intros (Hl & Hr & taken & [Hf Hid Hn Ht Hw]) Hf'. unfold ws_done. rewrite Hf'. split.
  - exists taken. split; unfold ws_view, ws_connections; simpl; try done. intros id [x Hx]. by rewrite lookup_empty in Hx.
  - exists lg. eapply relayed_less; [done|done| |exact Hn]. unfold ws_view, ws_connections. simpl.
    intros id ms. by rewrite lookup_fmap, lookup_empty.
Qed.

(** The listener has been asked. *)
Lemma ws_at_listener lg l f f' li rest :
  ws_at lg l f -> li = mk_WsListener rest (wl_nonblocking (ln_listener l)) ->
  Forall fresh_accept rest ->
  let l' := mk_Listening li (ln_connections l) (ln_next_connection_id l) in
  fr_self f' = set wv_l_state (WSServerListening l') (fr_self f) -> ws_at lg l' f'.
Proof.
  intros (Hl & Hr & taken & Hok) -> Hfr l' Hf'. unfold ws_at. rewrite Hf'. pose proof Hok as [_ Hid Hn _ _].
  unfold ws_view, ws_connections in Hid, Hn. rewrite Hl in Hid, Hn. simpl in Hid, Hn. split_and!; [done|..].
  - eapply relayed_less; [exact Hr|done|..]; unfold ws_view, ws_connections; by rewrite Hl.
  - exists taken. apply (ws_answered_state given taken (fr_self f) l l' Hok Hl Hfr Hn).
    intros id ws Hws. split; [apply Hid; by eexists|]. right. by exists ws.
Qed.

Lemma wp_accept_ws l f (Q : Listening -> frame WSServerComponent -> Prop) (E : exit -> frame WSServerComponent -> Prop) :
  ws_at [] l f -> ws_orderly f -> (ln_next_connection_id l + 1 < u32_modulus)%N ->
  (forall l f, ws_at [] l f -> ws_orderly f -> Q l f) -> (forall f, ws_done f -> E (Return Finished) f) ->
  wp (accept_ws l) Q E f.
Proof.
  intros Hat Hor Hnx HQ HE. unfold accept_ws. wp_run.
  destruct (N.ltb_spec 0 (remaining_budget (fr_ctx f))) as [Hb|Hb]; [|wp_run; by apply HQ].
  unfold ws_orderly, orderly in Hor. destruct Hor as [Hor|]; [|lia].
  assert (Forall fresh_accept (wl_accepts (ln_listener l))) as Hfr by (destruct Hat as (Hl & _ & ? & [Hf _ _ _ _]); by apply Hf).
  unfold ws_accept. destruct (wl_accepts (ln_listener l)) as [|a rest] eqn:Hacc; wp_run.
  - apply HQ; [|by left]. eapply (ws_at_listener [] l f _ _ []); [done| |done|done].
    destruct (ln_listener l). simpl in *. by subst.
  - apply Forall_cons in Hfr as [Ha Hrest].
    match goal with |- wp _ _ _ ?g => assert (ws_at [] (mk_Listening (mk_WsListener rest (wl_nonblocking (ln_listener l)))
      (ln_connections l) (ln_next_connection_id l)) g) as Hat' by (by eapply (ws_at_listener [] l f)) end.
    destruct a as [ws|e|kind].
    + wp_run. apply HQ; [|by left]. destruct Hat as (Hl & Hr & taken & Hok). pose proof Hok as [_ Hid Hn _ _].
      unfold ws_view, ws_connections in Hid, Hn. rewrite Hl in Hid, Hn. simpl in Ha, Hid, Hn. destruct Ha as [Hsn Hwn].
      rewrite N.mod_small by done. split_and!; [done|..].
      * eapply (relayed_accept _ [] (ws_view (fr_self f))); [done|done|done|..];
          unfold ws_view, ws_connections; rewrite Hl; simpl; [by rewrite fmap_insert, Hsn|done].
      * exists taken. apply (ws_answered_state given taken (fr_self f) l _ Hok Hl); simpl; [done|lia|].
        intros id w. destruct (decide (id = ln_next_connection_id l)) as [->|Hne].
        -- rewrite lookup_insert_eq. intros [= <-]. split; [lia|]. by left.
        -- rewrite lookup_insert_ne by done. intros Hw. split; [|by right; exists w].
           assert (id < ln_next_connection_id l)%N by (apply Hid; by eexists). lia.
    + wp_run. apply HQ; [done|by left].
    + destruct kind; wp_run; try (apply HE; by eapply ws_finished). apply HQ; [done|by left].
Qed.

(** A connection is put back as it was read. *)
Lemma ws_at_put lg l f f' id ws ws' :
  ws_at lg l f -> ln_connections l !! id = Some ws -> wk_seen ws' = wk_seen ws -> wk_written ws' = wk_written ws ->
  let l' := mk_Listening (ln_listener l) (<[id := ws']> (ln_connections l)) (ln_next_connection_id l) in
  fr_self f' = set wv_l_state (WSServerListening l') (fr_self f) -> ws_at lg l' f'.
Proof.
  intros (Hl & Hr & taken & Hok) Hws Hs Hw l' Hf'. unfold ws_at. rewrite Hf'. pose proof Hok as [Hf Hid Hn _ _].
  split_and!; [done|unfold l'; by rewrite (ws_put_same _ l id ws ws' Hl Hws Hs)|]. exists taken.
  unfold ws_view, ws_connections in Hid, Hn. rewrite Hl in Hid, Hn. simpl in Hid, Hn.
  apply (ws_answered_state given taken (fr_self f) l l' Hok Hl); simpl; [by apply Hf|done|].
  intros i x. destruct (decide (i = id)) as [->|Hne].
  - rewrite lookup_insert_eq. intros [= <-]. split; [apply Hid; by eexists|]. right. by exists ws.
  - rewrite lookup_insert_ne by done. intros Hx. split; [apply Hid; by eexists|]. right. by exists x.
Qed.

(** A message has been read and offered. *)
Lemma ws_at_read lg l f f' id ws ws' data b :
  ws_at lg l f -> ln_connections l !! id = Some ws -> wk_seen ws' = wk_seen ws ++ [data] -> wk_written ws' = wk_written ws ->
  box_items b = box_items (get wv_l_box (fr_self f)) ++ [from_bytes data] ->
  let l' := mk_Listening (ln_listener l) (<[id := ws']> (ln_connections l)) (ln_next_connection_id l) in
  fr_self f' = set wv_l_box b (set wv_l_state (WSServerListening l') (fr_self f)) -> ws_at (lg ++ [(id, data)]) l' f'.
Proof.
  intros Hat Hws Hs Hw Hb l' Hf'. pose proof Hat as (Hl & Hr & _).
  set (ws0 := mk_WebSocket (wk_reads ws') (wk_writes ws') (wk_flushes ws') (wk_seen ws) (wk_written ws')).
  unfold ws_at. rewrite Hf'. split_and!; [done|..].
  - eapply (relayed_read _ lg (ws_view (fr_self f)) _ id (wk_seen ws) data Hr).
    + unfold ws_view, ws_connections. cbn [gw_seen]. by rewrite Hl, lookup_fmap, Hws.
    + unfold ws_view. simpl. destruct b. exact Hb.
    + unfold ws_view, ws_connections. rewrite Hl. simpl. by rewrite fmap_insert, Hs.
    + unfold ws_view. by rewrite Hl.
  - set (l0 := mk_Listening (ln_listener l) (<[id := ws0]> (ln_connections l)) (ln_next_connection_id l)).
    destruct (ws_at_put lg l f (with_self (set wv_l_state (WSServerListening l0) (fr_self f)) f) id ws ws0 Hat Hws)
      as (_ & _ & taken & [Af Ai An At Aw]); [done|exact Hw|done|].
    unfold ws_view, ws_connections in *. simpl in *. exists taken. split; unfold ws_view, ws_connections; simpl; try done.
    + intros ? [= <-]. by apply (Af l0).
    + intros i. destruct (decide (i = id)) as [->|Hne]; [intros _; apply Ai; by rewrite lookup_insert_eq|].
      rewrite lookup_insert_ne by done. intros Hi. apply Ai. by rewrite lookup_insert_ne.
    + intros i x. destruct (decide (i = id)) as [->|Hne].
      * rewrite lookup_insert_eq. intros [= <-]. apply (Aw id ws0). by rewrite lookup_insert_eq.
      * rewrite lookup_insert_ne by done. intros Hx. apply (Aw i x). by rewrite lookup_insert_ne.
Qed.

Lemma ws_read_cases ws res ws' :
  ws_read ws = (res, ws') ->
  wk_written ws' = wk_written ws /\
  match res with Ok data => wk_seen ws' = wk_seen ws ++ [data] | Err _ => wk_seen ws' = wk_seen ws end.
Proof.
  unfold ws_read. destruct (wk_reads ws) as [|[data|e] rest]; intros [= <- <-]; simpl; [done|done|].
  by rewrite app_nil_r.
Qed.

Lemma wp_read_websocket lg l id closed f (Q : bool * (Listening * list N) -> frame WSServerComponent -> Prop) E :
  ws_at lg l f -> ws_orderly f -> (0 < remaining_budget (fr_ctx f))%N ->
  (forall lg l f r, ws_at lg l f -> ws_orderly f -> Q (r, (l, closed)) f) ->
  (forall lg l f, ws_at lg l f -> ws_orderly f -> Q (true, (l, closed ++ [id])) f) ->
  wp (read_websocket id l closed) Q E f.
Proof.
  intros Hat Hor Hb HQ HQc. unfold ws_orderly, orderly in Hor. destruct Hor as [Hor|]; [|lia]. unfold read_websocket.
  destruct (ln_connections l !! id) as [ws|] eqn:Hws; [|wp_run; apply (HQ lg); [done|by left]].
  destruct (ws_read ws) as [res ws'] eqn:Hread. apply ws_read_cases in Hread as [Hw Hs].
  unfold put_websocket. wp_run. destruct res as [data|e].
  - apply wp_bind, wp_zoom, wp_offer_packet; simpl; [|done]. intros sent b es Hbi Hin. destruct sent; wp_run.
    + apply (HQ (lg ++ [(id, data)])); [by eapply (ws_at_read lg l f)|by left].
    + apply (HQ (lg ++ [(id, data)])); [by eapply (ws_at_read lg l f)|by left].
  - match goal with |- wp _ _ _ ?g =>
      assert (ws_at lg (mk_Listening (ln_listener l) (<[id := ws']> (ln_connections l)) (ln_next_connection_id l)) g)
        as Hat' by (by eapply (ws_at_put lg l f)) end.
    destruct e as [kind| | | | | | | | |]; try (wp_run; apply (HQc lg); [done|by left]).
    destruct kind; wp_run; (apply (HQ lg) || apply (HQc lg)); try done; by left.
Qed.

Lemma wp_read_websockets ids : forall lg l closed f (Q : Listening * list N -> frame WSServerComponent -> Prop) E,
  ws_at lg l f -> ws_orderly f -> (forall lg l f closed, ws_at lg l f -> Q (l, closed) f) ->
  wp (read_websockets ids l closed) Q E f.
Proof.
  induction ids as [|id ids IH]; intros lg l closed f Q E Hat Hor HQ; simpl; wp_run; [by eapply HQ|].
  destruct (N.eqb_spec (remaining_budget (fr_ctx f)) 0); wp_run; [by eapply HQ|].
  apply (wp_read_websocket lg); [done|done|lia|..].
  - intros lg' l' f' r Hat' Hor'. simpl. destruct r; [by eapply IH|wp_run; by eapply HQ].
  - intros lg' l' f' Hat' Hor'. simpl. by eapply IH.
Qed.

Lemma wp_remove_closed lg l closed f (Q : Listening -> frame WSServerComponent -> Prop) E :
  ws_at lg l f -> (forall l f, ws_at lg l f -> Q l f) -> wp (remove_closed closed l) Q E f.
Proof.
  intros (Hl & Hr & taken & Hok) HQ. unfold remove_closed. wp_run. pose proof Hok as [Hf Hid Hn _ _].
  unfold ws_view, ws_connections in Hid, Hn. rewrite Hl in Hid, Hn. simpl in Hid, Hn. apply HQ. split_and!; [done|..].
  - eapply relayed_less; [exact Hr|done|..]; unfold ws_view, ws_connections; simpl; rewrite Hl; [|done].
    intros i ms. rewrite !lookup_fmap. intros (ws & Hws & ->)%fmap_Some. by rewrite (remove_all_lookup _ _ _ _ Hws).
  - exists taken. apply (ws_answered_state given taken (fr_self f) l _ Hok Hl); simpl; [by apply Hf|done|].
    intros i ws Hws%remove_all_lookup. split; [apply Hid; by eexists|]. right. by exists ws.
Qed.

(** The packet that has been taken last may have been written to one client. *)
Lemma ws_written given' taken ip l f f' id ws ws' part :
  ws_answered given' (taken ++ [ip]) (fr_self f) -> wv_state (fr_self f) = WSServerListening l ->
  ln_connections l !! id = Some ws -> wk_written ws `sublist_of` map packet_bytes taken -> wk_seen ws' = wk_seen ws ->
  wk_written ws' = wk_written ws ++ part -> part = [] \/ part = [packet_bytes ip] ->
  let l' := mk_Listening (ln_listener l) (<[id := ws']> (ln_connections l)) (ln_next_connection_id l) in
  fr_self f' = set wv_l_state (WSServerListening l') (fr_self f) ->
  ws_answered given' (taken ++ [ip]) (fr_self f') /\ ws_view (fr_self f') = ws_view (fr_self f).
Proof.
  intros [Hf Hid Hn Ht Hw] Hl Hws Hsub Hs Hwr Hpart l' Hf'. rewrite Hf'. unfold l' at 2.
  split; [|by apply (ws_put_same _ l id ws)]. unfold ws_view, ws_connections in *. rewrite Hl in *.
  simpl in *. split; unfold ws_view, ws_connections; simpl; try done.
  - intros ? [= <-]. by apply (Hf l).
  - intros i. destruct (decide (i = id)) as [->|Hne]; [intros _; apply Hid; by eexists|]. rewrite lookup_insert_ne by done. apply Hid.
  - intros i x. destruct (decide (i = id)) as [->|Hne]; [|rewrite lookup_insert_ne by done; apply Hw].
    rewrite lookup_insert_eq. intros [= <-]. rewrite Hwr, map_app. destruct Hpart as [-> | ->].
    + rewrite app_nil_r. by apply sublist_inserts_r.
    + by apply sublist_app.
Qed.

Lemma wp_answer_first lg taken ip l f (Q : unit -> frame WSServerComponent -> Prop) E :
  wv_state (fr_self f) = WSServerListening l -> relayed (ws_view c0) lg (ws_view (fr_self f)) ->
  ws_answered given (taken ++ [ip]) (fr_self f) ->
  (forall id ws, ln_connections l !! id = Some ws -> wk_written ws `sublist_of` map packet_bytes taken) ->
  (0 < remaining_budget (fr_ctx f))%N ->
  (forall l f', ws_at lg l f' -> wv_resp (fr_self f') = wv_resp (fr_self f) -> Q tt f') ->
  wp (answer_first ip l) Q E f.
Proof.
  intros Hl Hr Hok Hsub Hb HQ. unfold answer_first.
  destruct (head (hash_iter (ln_connections l))) as [[id ws]|] eqn:Hhd.
  2: { wp_run. apply (HQ l); [|done]. split_and!; [done..|by eexists]. }
  assert (ln_connections l !! id = Some ws) as Hws.
  { apply hash_iter_elem. destruct (hash_iter (ln_connections l)); [done|]. injection Hhd as ->. by left. }
  destruct (ws_write _ ws) as [res ws1] eqn:Hwrite.
  assert (wk_seen ws1 = wk_seen ws /\ exists part, wk_written ws1 = wk_written ws ++ part /\
    (part = [] \/ part = [packet_bytes ip])) as (Hs1 & part & Hw1 & Hpart).
  { unfold ws_write in Hwrite. destruct (wk_writes ws) as [|[|[] e] rest]; injection Hwrite as <- <-; simpl;
      (split; [done|]; eexists; split; [done|auto]). }
  unfold put_websocket. wp_run.
  match goal with |- wp _ _ _ ?g => set (f1 := g) end.
  destruct (ws_written given taken ip l f f1 id ws ws1 part Hok Hl Hws (Hsub _ _ Hws) Hs1 Hw1 Hpart eq_refl) as [Hok1 Hv1].
  assert (ws_at lg (mk_Listening (ln_listener l) (<[id := ws1]> (ln_connections l)) (ln_next_connection_id l)) f1) as Hat1
    by (split_and!; [done|by rewrite Hv1|by eexists]).
  destruct res as [[]|e]; [|wp_run; by eapply HQ].
  destruct (ws_flush ws1) as [res ws2] eqn:Hflush. assert (wk_seen ws2 = wk_seen ws1 /\ wk_written ws2 = wk_written ws1) as [Hs2 Hw2].
  { unfold ws_flush in Hflush. destruct (wk_flushes ws1); by injection Hflush as <- <-. }
  wp_run. match goal with |- wp _ _ _ ?g => set (f2 := g) end.
  pose proof (ws_at_put lg _ f1 f2 id ws1 ws2 Hat1 (lookup_insert_eq _ _ _) Hs2 Hw2 eq_refl) as Hat2.
  destruct res; unfold f2 in *; wp_run; by eapply HQ.
Qed.

Lemma wp_send_answers lg l f (Q : unit -> frame WSServerComponent -> Prop) E :
  ws_at lg l f -> (forall l f, ws_at lg l f -> Q tt f) -> wp (send_answers l) Q E f.
Proof.
  intros Hat HQ. apply (wp_while (fun f => exists l, ws_at lg l f) (fun f => length (ring_items (wv_resp (fr_self f))))).
  - by exists l.
  - rewrite ring_slots_spec. lia.
  - intros f' [l' Hat'] _. by eapply HQ.
  - clear f Hat. intros f [l' Hat] Hc. apply andb_true_iff in Hc as [_ Hb%N.ltb_lt].
    apply wp_bind, wp_pop; simpl; [intros _ r [Hri _ _]|intros m rest r Hi [Hr _ _]].
    { wp_run. eapply (HQ l'). destruct Hat as (Hl & Hr & taken & [Hf Hid Hn Ht Hw]).
      split_and!; [done..|]. exists taken. split; simpl; try done. by rewrite Hri, drop_0. }
    destruct Hat as (Hl & Hrel & taken & [Hf Hid Hn Ht Hw]). rewrite Hi in Hr, Ht. simpl in Hr. rewrite drop_0 in Hr.
    assert (forall id ws, ln_connections l' !! id = Some ws -> wk_written ws `sublist_of` map packet_bytes taken) as Hsub.
    { unfold ws_connections in Hw. by rewrite Hl in Hw. }
    wp_run. assert (ws_listening (wv_state (fr_self f)) l = l') as -> by (by rewrite Hl).
    apply (wp_answer_first lg taken); simpl; try done.
    + split; simpl; try done.
      * by rewrite Hr, <- app_assoc.
      * intros id ws Hws. rewrite map_app. by apply sublist_inserts_r, (Hw id).
    + intros l2 f2 Hat2 Hr2. split; [by exists l2|]. rewrite Hr2, Hi, Hr. simpl. lia.
Qed.

Lemma wp_ws_serve (clock : nat -> Instant) l f (Q : ProcessResult -> frame WSServerComponent -> Prop)
    (E : exit -> frame WSServerComponent -> Prop) :
  ws_at [] l f -> (ln_next_connection_id l + 1 < u32_modulus)%N ->
  (forall r f, ws_done f -> Q r f) -> (forall f, ws_done f -> E (Return Finished) f) ->
  wp (ws_serve clock l) Q E f.
Proof.
  intros (Hl & Hr & Hok) Hnx HQ HE. unfold ws_serve. apply wp_bind, wp_zoom, wp_flush_orderly; simpl.
  intros b ctx w es Hb Hor. match goal with |- wp _ _ _ ?g => set (f1 := g) end.
  assert (ws_at [] l f1) as Hat1.
  { split_and!; [done|..].
    - eapply relayed_less; [exact Hr|exact Hb|done|done].
    - destruct Hok as (taken & [Hf Hid Hn Ht Hw]). exists taken. by split. }
  assert (ws_orderly f1) as Hor1 by (destruct b; exact Hor). clearbody f1. clear b ctx w es Hb Hor.
  apply wp_bind, wp_accept_ws; [done..| |exact HE]. clear f1 l Hat1 Hor1 Hl Hr Hok Hnx f. intros l f Hat Hor.
  apply wp_bind, (wp_read_websockets _ []); [done..|]. clear l f Hat Hor. intros lg l f closed Hat.
  apply wp_bind, (wp_remove_closed lg); [done|]. clear f Hat. intros l' f Hat.
  apply wp_bind, (wp_send_answers lg); [done|]. clear l l' f Hat. intros l f Hat.
  apply wp_bind, wp_is_abandoned. destruct (ring_is_abandoned _); unfold connected_result; wp_run.
  - apply HE. by eapply ws_finished.
  - destruct (_ <? _)%N; wp_run; [by eapply HQ, ws_at_done|]. apply wp_wake_poll. wp_run. eapply HQ, (ws_at_done lg l).
    destruct Hat as (Hl & Hr & Hok). by split_and!.
Qed.
End call.

Lemma ws_ok_numbered given c : ws_ok given c -> numbered (ws_view c).
Proof.
  intros (taken & [_ Hid _ _ _]) id [ms Hms]. apply Hid. unfold ws_view in Hms. simpl in Hms.
  rewrite lookup_fmap in Hms. apply fmap_Some in Hms as (ws & Hws & _). by eexists.
Qed.

(** A change of the ports leaves the connections as they are. *)
Lemma ws_ok_ports given given' c c' :
  wv_state c' = wv_state c -> (exists new, given' = given ++ new /\ ring_items (wv_resp c') = ring_items (wv_resp c) ++ new) ->
  ws_ok given c -> ws_ok given' c'.
Proof.
  intros Hs (new & -> & Hr) (taken & [Hf Hid Hn Ht Hw]). exists taken. unfold ws_view, ws_connections in *.
  split; unfold ws_view, ws_connections; rewrite ?Hs; try done. by rewrite Hr, Ht, app_assoc.
Qed.

Lemma ws_called clock given c ctx f r :
  ws_ok given c -> ws_room c -> call (ws_server_process clock ws_bind) c ctx = Some (f, Some r) ->
  ws_done given c f.
Proof.
  intros Hok Hroom Hcall. pose proof (ws_ok_numbered given c Hok) as H0.
  assert (exists f r, call (ws_server_process clock ws_bind) c ctx = Some (f, r) /\ (is_Some r -> ws_done given c f))
    as (f' & r' & Hcall' & Hd); [|rewrite Hcall in Hcall'; injection Hcall' as <- <-; by apply Hd].
  clear Hcall f r. apply wp_call. unfold ws_server_process. apply wp_bind, wp_stop_signal; cbn [fr_self].
  2: { intros _ [sin sout] _. wp_run. intros _. split.
       - destruct Hok as (taken & [Hf Hid Hn Ht Hw]). exists taken. split; unfold ws_view, ws_connections; simpl; try done.
         intros id [x Hx]. by rewrite lookup_empty in Hx.
       - exists []. apply (relayed_less _ [] _ _ (relayed_refl _ H0)); [done| |by destruct Hok as (? & [])].
         unfold ws_view, ws_connections. simpl. intros id ms. by rewrite lookup_fmap, lookup_empty. }
  intros _ [sin sout] _. apply wp_bind, wp_read. set (f := with_self _ _).
  assert (forall f' : frame WSServerComponent, wv_state (fr_self f') = wv_state c -> wv_resp (fr_self f') = wv_resp c ->
    get wv_l_box (fr_self f') = get wv_l_box c -> ws_done given c f') as Hd.
  { intros f' Hs' Hr' Hb'. split; [apply (ws_ok_ports given given c); [done|exists []; by rewrite Hr', !app_nil_r|done]|].
    exists []. apply (relayed_less _ [] _ _ (relayed_refl _ H0)); unfold ws_view, ws_connections; by rewrite Hs', ?Hb'. }
  change (get wv_l_state (fr_self f)) with (wv_state c). destruct (wv_state c) as [|l|] eqn:Hs.
  - unfold ws_configure. apply wp_bind, wp_pop.
    { intros _ r Hr. wp_run. destruct (_ =? _)%N eqn:Hb; wp_run; intros _; apply Hd; done. }
    intros m rest r _ _. destruct (message_as_utf8 m) as [addr|]; [|wp_run; by intros []].
    destruct (ws_bind addr) as [li|e] eqn:Hbind; [|wp_run; by intros []].
    destruct (wl_nonblocking li); wp_run; [|by intros []]. intros _. split.
    + destruct Hok as (taken & [Hf Hid Hn Ht Hw]). exists taken. split; unfold ws_view, ws_connections; simpl; try done.
      * intros ? [= <-]. by eapply bind_fresh.
      * intros id [x Hx]. by rewrite lookup_empty in Hx.
    + exists []. apply (relayed_less _ [] _ _ (relayed_refl _ H0)); unfold ws_view, ws_connections; simpl; [done| |by rewrite Hs].
      intros id ms. by rewrite lookup_fmap, lookup_empty.
  - apply (wp_ws_serve given c H0 clock l); [|by apply Hroom|by intros ? ? ?|by intros ? ?].
    split_and!; [done|by apply relayed_refl|]. by apply (Hd f).
  - wp_run. intros _. by apply Hd.
Qed.

Lemma ring_push_ok m r r' : ring_push m r = (Ok tt, r') -> ring_items r' = ring_items r ++ [m].
Proof.
  intros Hp. pose proof (ring_push_items m r) as Hi. pose proof (ring_push_res m r) as Hres. rewrite Hp in Hi, Hres.
  simpl in *. by destruct (_ <? _)%nat.
Qed.

Lemma ws_event_ok c given c' given' :
  ws_event c given c' given' -> ws_ok given c -> ws_ok given' c' /\ ws_view c' = ws_view c.
Proof.
  intros He Hok. destruct He as [c given l id ws reads writes flushes Hl Hws|c given l a Hl Ha|c given m r Hp|
    c given|c given m r Hp|c given m sin Hs].
  - pose proof (ws_put_same c l id ws (mk_WebSocket (wk_reads ws ++ reads) (wk_writes ws ++ writes)
      (wk_flushes ws ++ flushes) (wk_seen ws) (wk_written ws)) Hl Hws eq_refl) as Hv. split; [|exact Hv].
    destruct Hok as (taken & Hok). exists taken. pose proof Hok as [Hf Hid Hn _ _].
    unfold ws_view, ws_connections in Hid, Hn. rewrite Hl in Hid, Hn. simpl in Hid, Hn.
    apply (ws_answered_state given taken c l _ Hok Hl); simpl; [by apply Hf|done|]. intros i x.
    destruct (decide (i = id)) as [->|Hne].
    + rewrite lookup_insert_eq. intros [= <-]. split; [apply Hid; by eexists|]. right. by exists ws.
    + rewrite lookup_insert_ne by done. intros Hx. split; [apply Hid; by eexists|]. right. by exists x.
  - split; [|unfold ws_view, ws_connections; simpl; by rewrite Hl].
    destruct Hok as (taken & Hok). exists taken. pose proof Hok as [Hf Hid Hn _ _].
    unfold ws_view, ws_connections in Hid, Hn. rewrite Hl in Hid, Hn. simpl in Hid, Hn.
    apply (ws_answered_state given taken c l _ Hok Hl); simpl; [|done|].
    + apply Forall_app. split; [by apply Hf|]. by constructor.
    + intros i x Hx. split; [apply Hid; by eexists|]. right. by exists x.
  - split; [|done]. apply (ws_ok_ports given _ c); [done| |done]. exists [m]. split; [done|]. by apply ring_push_ok.
  - split; [|done]. apply (ws_ok_ports given _ c); [done| |done]. exists []. simpl. by rewrite !app_nil_r, ring_drop_producer_items.
  - split; [|done]. apply (ws_ok_ports given _ c); [done| |done]. exists []. by rewrite !app_nil_r.
  - split; [|done]. apply (ws_ok_ports given _ c); [done| |done]. exists []. by rewrite !app_nil_r.
Qed.

#[export, program] Instance ws_gateway : GatewayServer WSServerComponent := {|
  gs_view := ws_view; gs_box := wv_l_box; gs_ok := ws_ok; gs_room := ws_room;
  gs_process clock := ws_server_process clock ws_bind; gs_event := ws_event
|}.
Next Obligation. done. Qed.
Next Obligation. apply ws_ok_numbered. Qed.
Next Obligation.
  intros given c b Hok. split; [|by destruct b]. apply (ws_ok_ports given _ c); [done| |done]. exists []. by rewrite !app_nil_r.
Qed.
Next Obligation. intros clock given c ctx f r Hok Hroom Hcall. by eapply ws_called. Qed.
Next Obligation. apply ws_event_ok. Qed.

(** C21: whatever the order in which WSServer is called, clients come, send and
    go, answers arrive and packets are taken: what has been received and what is
    on its way are the messages that were read, in order, in which every
    connected client finds its own, once and in order, though nothing tells whose
    they are; and a client is sent some of the answers that were taken, in
    order. *)
Theorem ws_server_relays (s0 s : GatewayRun (C := WSServerComponent)) :
  gateway_untouched s0 -> rtc gateway_step s0 s -> exists l taken,
  gr_got s ++ sink_items (wv_out (gr_server s)) ++ wv_pending_outbound (gr_server s) = relayed_packets l /\
  gr_given s = taken ++ ring_items (wv_resp (gr_server s)) /\
  forall id ws, ws_connections (gr_server s) !! id = Some ws ->
    wk_seen ws = messages_from id l /\ wk_written ws `sublist_of` map packet_bytes taken.
Proof.
  intros H0 Hr. destruct (gateway_run_inv s0 s H0 Hr) as [l [(taken & [_ _ _ Ht Hw]) Hi _ Hs]].
  exists l, taken. split_and!; [exact Hi|exact Ht|]. intros id ws Hws. split; [|by apply (Hw id)].
  apply (Hs id). simpl. by rewrite lookup_fmap, Hws.
Qed.
End ws_server.

(** * TLSServer *)

(** [w] consists of beginnings of the packets [given]. *)
Definition pieces (given : list FbpMessage) (w : list byte) : Prop :=
  exists parts, w = concat parts /\ Forall (fun part => exists m, m ∈ given /\ part `prefix_of` packet_bytes m) parts.

Lemma pieces_nil given : pieces given [].
Proof. by exists []. Qed.

Lemma pieces_snoc given w m part :
  pieces given w -> m ∈ given -> part `prefix_of` packet_bytes m -> pieces given (w ++ part).
Proof.
  intros (parts & -> & Hp) Hm Hpre. exists (parts ++ [part]). split; [by rewrite concat_app; simpl; rewrite app_nil_r|].
  apply Forall_app. split; [done|]. constructor; [by exists m|constructor].
Qed.

Lemma pieces_more given new w : pieces given w -> pieces (given ++ new) w.
Proof.
  intros (parts & -> & Hp). exists parts. split; [done|]. eapply Forall_impl; [exact Hp|].
  intros part (m & Hm & Hpre). exists m. split; [set_solver|done].
Qed.

Definition session_of (st : ConnectionState) : option TlsSession :=
  match st with Active s _ => Some s | Writing s _ _ => Some s | _ => None end.
(** The session that a handshake yields has not been used. *)
Definition fresh_state (st : ConnectionState) : Prop :=
  match st with
  | PendingHandshake ch => forall s, Ok s ∈ mp_items ch -> tl_seen s = [] /\ tl_sent s = []
  | _ => True
  end.
Definition conn_seen (cn : TlsConnection) : list (list byte) :=
  match session_of (tn_state cn) with Some s => tl_seen s | None => [] end.

Lemma tls_receive_same s res s' : tls_receive s = (res, s') -> tl_seen s' = tl_seen s /\ tl_sent s' = tl_sent s.
Proof. unfold tls_receive. by destruct (tl_reads s) as [|[] ?]; intros [= <- <-]. Qed.

Lemma tls_read_seen n s res s' :
  tls_read n s = (res, s') -> tl_sent s' = tl_sent s /\
  match res with
  | Ok (b :: bs) => tl_seen s' = tl_seen s ++ [b :: bs]
  | _ => tl_seen s' = tl_seen s
  end.
Proof.
  unfold tls_read. destruct (take _ _) as [|b bs]; [|by intros [= <- <-]]. destruct (tl_empty s); by intros [= <- <-].
Qed.

Lemma tls_write_sent bs s res s' :
  tls_write bs s = (res, s') -> tl_seen s' = tl_seen s /\ exists part, tl_sent s' = tl_sent s ++ part /\ part `prefix_of` bs.
Proof.
  unfold tls_write. destruct (tl_writes s) as [|[n|kind] rest]; intros [= <- <-]; (split; [done|]); eexists;
    (split; [reflexivity|]); [done|apply prefix_take|apply prefix_nil].
Qed.

Lemma tls_complete_io_same s res s' : tls_complete_io s = (res, s') -> tl_seen s' = tl_seen s /\ tl_sent s' = tl_sent s.
Proof. unfold tls_complete_io. by destruct (tl_ios s) as [|? ?]; intros [= <- <-]. Qed.

Section tls_hub.
Context `{R : Rtrb} `{HI : HashIter}.

Definition th_view (h : TlsHub) : Gateway :=
  mk_Gateway (box_items (th_box h)) (conn_seen <$> th_connections h) (th_next_client_id h).

Record tls_ok (given : list FbpMessage) (h : TlsHub) : Prop := mk_tls_ok {
  to_ids : forall id, is_Some (th_connections h !! id) -> (id < th_next_client_id h)%N;
  to_fresh : forall id cn, th_connections h !! id = Some cn -> fresh_state (tn_state cn);
  to_resp : forall m, m ∈ ring_items (th_resp h) -> m ∈ given;
  to_pending : forall m, m ∈ th_pending_responses h -> m ∈ given;
  to_sent : forall id cn s, th_connections h !! id = Some cn -> session_of (tn_state cn) = Some s -> pieces given (tl_sent s)
}.

Lemma tls_numbered given h : tls_ok given h -> numbered (th_view h).
Proof.
  intros [Hid _ _ _ _] id [ms Hms]. unfold th_view in Hms. simpl in Hms. rewrite lookup_fmap in Hms.
  apply fmap_Some in Hms as (cn & Hcn & _). apply Hid. by eexists.
Qed.

(** A connection is new or replaced. *)
Lemma tls_ok_put given h h' id cn :
  tls_ok given h -> (id < th_next_client_id h')%N -> (th_next_client_id h <= th_next_client_id h')%N ->
  fresh_state (tn_state cn) -> (forall s, session_of (tn_state cn) = Some s -> pieces given (tl_sent s)) ->
  th_connections h' = <[id := cn]> (th_connections h) -> th_resp h' = th_resp h ->
  th_pending_responses h' = th_pending_responses h -> tls_ok given h'.
Proof.
  intros [Hid Hfr Hre Hpe Hse] Hlt Hn Hf Hs Hc Hr Hp. split; rewrite ?Hc, ?Hr, ?Hp; try done.
  - intros i. destruct (decide (i = id)) as [->|Hne]; [done|]. rewrite lookup_insert_ne by done. intros Hi%Hid. lia.
  - intros i x. destruct (decide (i = id)) as [->|Hne]; [rewrite lookup_insert_eq; by intros [= <-]|].
    rewrite lookup_insert_ne by done. apply Hfr.
  - intros i x s. destruct (decide (i = id)) as [->|Hne]; [rewrite lookup_insert_eq; intros [= <-]; apply Hs|].
    rewrite lookup_insert_ne by done. apply Hse.
Qed.

Section call.
Variable given : list FbpMessage.
Variable h0 : TlsHub.
Hypothesis H0 : numbered (th_view h0).

Definition tls_at (lg : log) (f : frame TlsHub) : Prop :=
  relayed (th_view h0) lg (th_view (fr_self f)) /\ tls_ok given (fr_self f).
Definition th_orderly (f : frame TlsHub) : Prop := orderly (th_box (fr_self f)) (fr_ctx f).

(** A connection is replaced by one from which nothing more has been read. *)
Lemma tls_at_put lg f f' id cn cn' :
  tls_at lg f -> th_connections (fr_self f) !! id = Some cn -> conn_seen cn' = conn_seen cn -> fresh_state (tn_state cn') ->
  (forall s, session_of (tn_state cn') = Some s -> pieces given (tl_sent s)) ->
  fr_self f' = set th_l_connections (<[id := cn']> (th_connections (fr_self f))) (fr_self f) -> tls_at lg f'.
Proof.
  intros [Hr Hok] Hcn Hs Hfs Hsent Hf'. unfold tls_at. rewrite Hf'. assert (id < th_next_client_id (fr_self f))%N by (apply Hok; by eexists). split.
  - eapply relayed_less; [exact Hr|done| |done]. unfold th_view. simpl. intros i ms.
    rewrite fmap_insert. destruct (decide (i = id)) as [->|Hne].
    + rewrite lookup_insert_eq, Hs. intros [= <-]. by rewrite lookup_fmap, Hcn.
    + by rewrite lookup_insert_ne.
  - by apply (tls_ok_put given (fr_self f) _ id cn').
Qed.

(** A chunk of data has been read and offered. *)
Lemma tls_at_read lg f f' id cn cn' data b :
  tls_at lg f -> th_connections (fr_self f) !! id = Some cn -> conn_seen cn' = conn_seen cn ++ [data] ->
  fresh_state (tn_state cn') -> (forall s, session_of (tn_state cn') = Some s -> pieces given (tl_sent s)) ->
  box_items b = box_items (th_box (fr_self f)) ++ [from_bytes data] ->
  fr_self f' = set th_l_box b (set th_l_connections (<[id := cn']> (th_connections (fr_self f))) (fr_self f)) ->
  tls_at (lg ++ [(id, data)]) f'.
Proof.
  intros [Hr Hok] Hcn Hs Hfs Hsent Hb Hf'. unfold tls_at. rewrite Hf'. assert (id < th_next_client_id (fr_self f))%N by (apply Hok; by eexists). split.
  - eapply (relayed_read _ lg (th_view (fr_self f)) _ id (conn_seen cn) data Hr); unfold th_view; simpl; try done.
    + by rewrite lookup_fmap, Hcn.
    + by rewrite fmap_insert, Hs.
  - by apply (tls_ok_put given (fr_self f) _ id cn').
Qed.

Lemma wp_accept_tls (clock : nat -> Instant) f (Q : unit -> frame TlsHub -> Prop) (E : exit -> frame TlsHub -> Prop) :
  tls_at [] f -> th_orderly f -> (th_next_client_id (fr_self f) + 1 < u32_modulus)%N ->
  (forall f, tls_at [] f -> th_orderly f -> Q tt f) -> (forall f, E Unwind f) -> wp (accept_tls clock) Q E f.
Proof.
  intros Hat Hor Hnx HQ HE. unfold accept_tls. wp_run.
  destruct (N.ltb_spec 0 (remaining_budget (fr_ctx f))) as [Hb|Hb]; [|wp_run; by apply HQ].
  assert (in_order (th_box (fr_self f))) as Hin by (destruct Hor; [done|lia]).
  wp_run. destruct (th_listener (fr_self f)) as [li|] eqn:Hli; [|wp_run; by apply HQ].
  destruct (tls_accept li) as [[[]|kind] li'] eqn:Hacc; wp_run; [|by apply HE|apply HQ; [|by left]].
  - destruct Hat as [Hr Hok]. unfold put_tls. wp_run. apply HQ; [|by left]. rewrite N.mod_small by done. split; simpl.
    + eapply (relayed_accept _ [] (th_view (fr_self f)) _ H0 Hr); unfold th_view; simpl; [done| |done].
      by rewrite fmap_insert.
    + apply (tls_ok_put given (fr_self f) _ (th_next_client_id (fr_self f))
        (mk_TlsConnection (PendingHandshake channel) (clock (fr_reads f))) Hok); simpl; try done; try lia.
      by intros s Hs%elem_of_nil.
  - destruct Hat as [Hr [Hid Hfr Hre Hpe Hse]]. by split; [|split].
Qed.

Lemma wp_check_handshake (clock : nat -> Instant) lg f id cn ch remove (Q : list N -> frame TlsHub -> Prop) E :
  tls_at lg f -> th_orderly f -> (0 < remaining_budget (fr_ctx f))%N -> th_connections (fr_self f) !! id = Some cn ->
  tn_state cn = PendingHandshake ch -> (forall lg f remove, tls_at lg f -> th_orderly f -> Q remove f) ->
  wp (check_handshake clock id cn ch remove) Q E f.
Proof.
  intros Hat Hor Hb Hcn Hst HQ. assert (in_order (th_box (fr_self f))) as Hin by (destruct Hor; [done|lia]).
  assert (fresh_state (PendingHandshake ch)) as Hfr by (destruct Hat as [_ [_ Hf _ _ _]]; rewrite <- Hst; by eapply Hf).
  assert (conn_seen cn = []) as Hseen by (unfold conn_seen; by rewrite Hst).
  unfold check_handshake, mpsc_try_recv, put_tls. destruct (mp_items ch) as [|a rest] eqn:Hch.
  - assert (forall f', fr_self f' = set th_l_connections (<[id := mk_TlsConnection (PendingHandshake ch) (tn_last_active cn)]>
      (th_connections (fr_self f))) (fr_self f) -> tls_at lg f') as Hat' by (intros f'; by eapply (tls_at_put lg f f' id cn)).
    destruct (mp_tx_alive ch); wp_run; [|apply (HQ lg); [by apply Hat'|by left]].
    destruct (_ <? _)%N; wp_run; (apply (HQ lg); [by apply Hat'|by left]).
  - assert (forall s, Ok s ∈ rest -> tl_seen s = [] /\ tl_sent s = []) as Hrest.
    { intros s Hs. apply (Hfr s). rewrite Hch. by right. }
    destruct a as [s|e]; wp_run.
    + rewrite insert_insert_eq. destruct (Hfr s) as [Hs1 Hs2]; [rewrite Hch; by left|].
      apply (HQ lg); [|by left]. eapply (tls_at_put lg f _ id cn (mk_TlsConnection (Active s id) _)); [done|done| |done| |done].
      * by rewrite Hseen.
      * intros ? [= <-]. rewrite Hs2. apply pieces_nil.
    + apply (HQ lg); [|by left].
      by eapply (tls_at_put lg f _ id cn (mk_TlsConnection (PendingHandshake (with_items rest ch)) (tn_last_active cn))).
Qed.

Lemma wp_read_active (clock : nat -> Instant) lg f key cn s id remove (Q : list N -> frame TlsHub -> Prop) E :
  tls_at lg f -> th_orderly f -> (0 < remaining_budget (fr_ctx f))%N -> th_connections (fr_self f) !! key = Some cn ->
  tn_state cn = Active s id -> (forall lg f remove, tls_at lg f -> th_orderly f -> Q remove f) ->
  wp (read_active clock key cn s id remove) Q E f.
Proof.
  intros Hat Hor Hb Hcn Hst HQ. assert (in_order (th_box (fr_self f))) as Hin by (destruct Hor; [done|lia]).
  assert (pieces given (tl_sent s)) as Hp by (destruct Hat as [_ [_ _ _ _ Hs]]; eapply Hs; [done|by rewrite Hst]).
  assert (conn_seen cn = tl_seen s) as Hseen by (unfold conn_seen; by rewrite Hst).
  unfold read_active, put_tls. destruct (tls_receive s) as [res s1] eqn:Hrec.
  apply tls_receive_same in Hrec as [Hs1 Hw1].
  assert (forall f' s' t, tl_seen s' = tl_seen s -> tl_sent s' = tl_sent s ->
    fr_self f' = set th_l_connections (<[key := mk_TlsConnection (Active s' id) t]> (th_connections (fr_self f))) (fr_self f) ->
    tls_at lg f') as Hsame.
  { intros f' s' t Hs' Hw' Hf'. eapply (tls_at_put lg f f' key cn (mk_TlsConnection (Active s' id) t)); [done|done| |done| |done].
    - by rewrite Hseen, <- Hs'.
    - intros ? [= <-]. by rewrite Hw'. }
  destruct res as [|plain| |kind]; wp_run; try (apply (HQ lg); [by eapply Hsame|by left]).
  2: { destruct kind; wp_run; (apply (HQ lg); [by eapply Hsame|by left]). }
  destruct (tls_read _ s1) as [res s2] eqn:Hread. apply tls_read_seen in Hread as [Hw2 Hs2]. wp_run. rewrite insert_insert_eq.
  destruct res as [[|b bs]|kind].
  - wp_run. apply (HQ lg); [|by left]. eapply (Hsame _ s2); [congruence|congruence|done].
  - apply wp_bind, wp_zoom, wp_offer_packet; simpl; [|done]. intros sent bx es Hbx Hin'.
    assert (forall f' t, fr_self f' = set th_l_box bx (set th_l_connections (<[key := mk_TlsConnection (Active s2 id) t]>
      (th_connections (fr_self f))) (fr_self f)) -> tls_at (lg ++ [(key, b :: bs)]) f') as Hmore.
    { intros f' t. eapply (tls_at_read lg f f' key cn (mk_TlsConnection (Active s2 id) t)); [done|done| |done| |done].
      - rewrite Hseen, <- Hs1. exact Hs2.
      - intros ? [= <-]. by rewrite Hw2, Hw1. }
    destruct sent; wp_run; rewrite ?insert_insert_eq; (eapply HQ; [by eapply Hmore|by left]).
  - destruct kind; wp_run; (apply (HQ lg); [|by left]); (eapply (Hsame _ s2); [congruence|congruence|done]).
Qed.

Lemma wp_serve_connections (clock : nat -> Instant) ids : forall lg f remove (Q : list N -> frame TlsHub -> Prop) E,
  tls_at lg f -> th_orderly f -> (forall lg f remove, tls_at lg f -> Q remove f) ->
  wp (serve_connections clock ids remove) Q E f.
Proof.
  induction ids as [|id ids IH]; intros lg f remove Q E Hat Hor HQ; simpl; wp_run; [by eapply HQ|].
  destruct (N.eqb_spec (remaining_budget (fr_ctx f)) 0); wp_run; [by eapply HQ|]. unfold serve_connection. wp_run.
  destruct (th_connections (fr_self f) !! id) as [cn|] eqn:Hcn; [|wp_run; by eapply IH].
  destruct (tn_state cn) as [ch|s cid|s cid data|] eqn:Hst; try (wp_run; by eapply IH).
  - eapply wp_check_handshake; [done|done|lia|done|done|]. intros lg' f' remove' Hat' Hor'. by eapply IH.
  - eapply wp_read_active; [done|done|lia|done|done|]. intros lg' f' remove' Hat' Hor'. by eapply IH.
Qed.

Lemma wp_remove_connections lg f remove (Q : unit -> frame TlsHub -> Prop) E :
  tls_at lg f -> (forall f, tls_at lg f -> Q tt f) -> wp (remove_connections remove) Q E f.
Proof.
  intros [Hr [Hid Hfr Hre Hpe Hse]] HQ. unfold remove_connections. wp_run. apply HQ. split.
  - eapply relayed_less; [exact Hr|done| |done]. unfold th_view. simpl. intros i ms. rewrite !lookup_fmap.
    intros (cn & Hcn & ->)%fmap_Some. by rewrite (remove_all_lookup _ _ _ _ Hcn).
  - split; simpl; try done.
    + intros i [x Hx%remove_all_lookup]. apply Hid. by eexists.
    + intros i x Hx%remove_all_lookup. by eapply Hfr.
    + intros i x s Hx%remove_all_lookup. by eapply Hse.
Qed.

Lemma first_active_elem l key cn s id :
  first_active l = Some (key, (cn, (s, id))) -> (key, cn) ∈ l /\ tn_state cn = Active s id.
Proof.
  induction l as [|[k0 c0] l IH]; [done|]. simpl. destruct (tn_state c0) as [ch|s0 i0|s0 i0 d0|] eqn:Hst.
  2: { intros [= <- <- <- <-]. split; [by left|done]. }
  all: intros [H ?]%IH; split; [by right|done].
Qed.

(** The packets that wait are those of RESP. *)
Lemma tls_at_waiting lg f f' r p :
  tls_at lg f -> (forall m, m ∈ ring_items r -> m ∈ given) -> (forall m, m ∈ p -> m ∈ given) ->
  fr_self f' = set th_l_pending_responses p (set th_l_resp r (fr_self f)) -> tls_at lg f'.
Proof. intros [Hr [Hid Hfr Hre Hpe Hse]] H1 H2 Hf'. unfold tls_at. rewrite Hf'. by split; [|split]. Qed.

Lemma wp_take_response lg f (Q : unit -> frame TlsHub -> Prop) E :
  tls_at lg f -> (forall f, tls_at lg f -> Q tt f) -> wp take_response Q E f.
Proof.
  intros Hat HQ. unfold take_response. pose proof Hat as [_ [_ _ Hre Hpe _]]. apply wp_bind, wp_pop; simpl.
  - intros _ r [Hr _ _]. wp_run. apply HQ.
    eapply (tls_at_waiting lg f _ r (th_pending_responses (fr_self f))); [done|by rewrite Hr, drop_0|done|done].
  - intros m rest r Hi [Hr _ _]. rewrite Hi in Hr, Hre. simpl in Hr. rewrite drop_0 in Hr. wp_run. apply HQ.
    eapply (tls_at_waiting lg f _ r (th_pending_responses (fr_self f) ++ [m])); [done| | |done].
    + rewrite Hr. intros x Hx. apply Hre. by right.
    + intros x [Hx|Hx]%elem_of_app; [by apply Hpe|]. apply list_elem_of_singleton in Hx as ->. apply Hre. by left.
Qed.

Lemma wp_send_response (clock : nat -> Instant) lg f (Q : unit -> frame TlsHub -> Prop) E :
  tls_at lg f -> (forall f, tls_at lg f -> Q tt f) -> wp (send_response clock) Q E f.
Proof.
  intros Hat HQ. unfold send_response. wp_run.
  destruct (N.ltb_spec 0 (remaining_budget (fr_ctx f))) as [Hb|Hb]; wp_run; [|by apply HQ].
  pose proof Hat as [_ [_ _ Hre Hpe Hse]].
  destruct (th_pending_responses (fr_self f)) as [|m p] eqn:Hp; simpl; [wp_run; by apply HQ|]. wp_run.
  destruct (first_active _) as [[key [cn [s id]]]|] eqn:Hfa; [|wp_run; by apply HQ].
  apply first_active_elem in Hfa as [Hcn%hash_iter_elem Hst].
  assert (pieces given (tl_sent s)) as Hps by (eapply Hse; [done|by rewrite Hst]).
  assert (conn_seen cn = tl_seen s) as Hseen by (unfold conn_seen; by rewrite Hst).
  destruct (tls_write _ s) as [res s1] eqn:Hwrite. apply tls_write_sent in Hwrite as [Hs1 (part & Hw1 & Hpre)].
  assert (pieces given (tl_sent s1)) as Hps1.
  { rewrite Hw1. apply (pieces_snoc given _ m); [done|apply Hpe; by left|done]. }
  assert (forall f' s' t, tl_seen s' = tl_seen s1 -> tl_sent s' = tl_sent s1 ->
    fr_self f' = set th_l_connections (<[key := mk_TlsConnection (Active s' id) t]> (th_connections (fr_self f))) (fr_self f) ->
    tls_at lg f') as Hsame.
  { intros f' s' t Hs' Hw' Hf'. eapply (tls_at_put lg f f' key cn (mk_TlsConnection (Active s' id) t)); [done|done| |done| |done].
    - by rewrite Hseen, <- Hs1.
    - intros ? [= <-]. by rewrite Hw'. }
  unfold put_tls. wp_run. destruct res as [n|kind]; [|wp_run; apply HQ; by eapply (Hsame _ s1)].
  destruct (tls_complete_io s1) as [res s2] eqn:Hio. apply tls_complete_io_same in Hio as [Hs2 Hw2]. wp_run.
  rewrite insert_insert_eq. destruct res as [[]|kind]; wp_run; [|apply HQ; by eapply (Hsame _ s2)].
  rewrite insert_insert_eq. apply HQ. match goal with |- tls_at _ ?g => set (f2 := g) end.
  eapply (tls_at_waiting lg (with_self (set th_l_connections (<[key := mk_TlsConnection (Active s2 id) (clock (fr_reads f))]>
    (th_connections (fr_self f))) (fr_self f)) f) f2 (th_resp (fr_self f)) p); [by eapply (Hsame _ s2)|done| |done].
  intros x Hx. apply Hpe. by right.
Qed.

Lemma wp_tls_serve (clock : nat -> Instant) f (Q : unit -> frame TlsHub -> Prop) (E : exit -> frame TlsHub -> Prop) :
  tls_at [] f -> th_orderly f -> (th_next_client_id (fr_self f) + 1 < u32_modulus)%N ->
  (forall lg f, tls_at lg f -> Q tt f) -> (forall f, E Unwind f) -> wp (tls_serve clock) Q E f.
Proof.
  intros Hat Hor Hnx HQ HE. unfold tls_serve. apply wp_bind, wp_accept_tls; [done..| |exact HE].
  clear f Hat Hor Hnx. intros f Hat Hor. wp_run. eapply wp_serve_connections; [done|done|]. clear f Hat Hor.
  intros lg f remove Hat. wp_run. eapply wp_remove_connections; [done|]. clear f Hat. intros f Hat. wp_run.
  eapply wp_take_response; [done|]. clear f Hat. intros f Hat. eapply wp_send_response; [done|]. by apply HQ.
Qed.
End call.
End tls_hub.

Section tls_server.
Context `{R : Rtrb} `{HI : HashIter} {Certs Key ServerConfig : Type}.
Variable parse_certs : list byte -> option Certs.
Variable parse_key : list byte -> option Key.
Variable with_single_cert : Certs -> Key -> option ServerConfig.
Variable tls_bind : string -> result TlsListener ErrorKind.
Abbreviation Server := (TLSServerComponent (ServerConfig := ServerConfig)).
Abbreviation server_process clock := (tls_server_process clock parse_certs parse_key with_single_cert tls_bind).

Definition tv_l_box : lens Server Outbox := mk_lens
  (fun c => th_box (get tv_hub c)) (fun b c => set tv_hub (set th_l_box b (get tv_hub c)) c).

(** What happens around a server: data and room come and go on a connection, the
    thread of a handshake answers, a client comes, a packet arrives at RESP, its
    sender goes, anything but the connections changes (a part of the
    configuration, a signal). *)
Inductive tls_event : Server -> list FbpMessage -> Server -> list FbpMessage -> Prop :=
| tls_event_data c given id cn s cid reads empty writes ios :
    tv_connections c !! id = Some cn -> tn_state cn = Active s cid ->
    tls_event c given (set tv_hub (set th_l_connections (<[id := mk_TlsConnection
      (Active (mk_TlsSession (tl_reads s ++ reads) (tl_buffer s) empty (tl_writes s ++ writes) (tl_ios s ++ ios)
         (tl_seen s) (tl_sent s)) cid) (tn_last_active cn)]> (tv_connections c)) (get tv_hub c)) c) given
| tls_event_handshake c given id cn ch a :
    tv_connections c !! id = Some cn -> tn_state cn = PendingHandshake ch -> mp_tx_alive ch = true ->
    (forall s, a = Ok s -> tl_seen s = [] /\ tl_sent s = []) ->
    tls_event c given (set tv_hub (set th_l_connections (<[id := mk_TlsConnection
      (PendingHandshake (drop_sender (mpsc_try_send a ch).2)) (tn_last_active cn)]> (tv_connections c)) (get tv_hub c)) c) given
| tls_event_response c given m r :
    ring_push m (tv_resp c) = (Ok tt, r) ->
    tls_event c given (set tv_hub (set th_l_resp r (get tv_hub c)) c) (given ++ [m])
| tls_event_closed c given :
    tls_event c given (set tv_hub (set th_l_resp (ring_drop_producer (tv_resp c)) (get tv_hub c)) c) given
| tls_event_client c given li a :
    tv_listener c = Some li ->
    tls_event c given (set tv_hub (set th_l_listener (Some (mk_TlsListener (tk_accepts li ++ [a]) (tk_nonblocking li)))
      (get tv_hub c)) c) given
| tls_event_other c c' given : get tv_hub c' = get tv_hub c -> tls_event c given c' given.

Lemma tv_hub_set h (c : Server) : get tv_hub (set tv_hub h c) = h.
Proof. by destruct h as [? ? [] ? ? ?]. Qed.

(** Another listener makes no difference. *)
Lemma tls_same_hub given h0 lg h h' :
  th_connections h' = th_connections h -> th_box h' = th_box h -> th_next_client_id h' = th_next_client_id h ->
  th_resp h' = th_resp h -> th_pending_responses h' = th_pending_responses h ->
  relayed (th_view h0) lg (th_view h) /\ tls_ok given h -> relayed (th_view h0) lg (th_view h') /\ tls_ok given h'.
Proof.
  intros Hc Hb Hn Hr Hp [Hrel [Hid Hfr Hre Hpe Hse]]. split.
  - unfold th_view in *. by rewrite Hc, Hb, Hn.
  - split; rewrite ?Hc, ?Hn, ?Hr, ?Hp; done.
Qed.

#[local] Instance quiet_tls_configure : Quiet (tls_configure parse_certs parse_key with_single_cert tls_bind).
Proof. unfold tls_configure, read_setup, set_up. apply _. Qed.

Lemma tls_called clock given (c : Server) ctx f r :
  tls_ok given (get tv_hub c) -> (tv_next_client_id c + 1 < u32_modulus)%N ->
  call (server_process clock) c ctx = Some (f, Some r) ->
  tls_ok given (get tv_hub (fr_self f)) /\
  exists lg, relayed (th_view (get tv_hub c)) lg (th_view (get tv_hub (fr_self f))).
Proof.
  intros Hok Hnx Hcall. pose proof (tls_numbered given _ Hok) as H0.
  set (done_ := fun c' : Server => tls_ok given (get tv_hub c') /\
    exists lg, relayed (th_view (get tv_hub c)) lg (th_view (get tv_hub c'))). change (done_ (fr_self f)).
  assert (exists f r, call (server_process clock) c ctx = Some (f, r) /\ (is_Some r -> done_ (fr_self f)))
    as (f' & r' & Hcall' & Hd); [|rewrite Hcall in Hcall'; injection Hcall' as <- <-; by apply Hd].
  clear Hcall f r. apply wp_call. unfold tls_server_process.
  assert (forall lg c', relayed (th_view (get tv_hub c)) lg (th_view (get tv_hub c')) /\ tls_ok given (get tv_hub c') -> done_ c')
    as Hdone by (intros lg c' [? ?]; split; [done|by exists lg]).
  apply wp_bind, wp_zoom, wp_zoom, wp_flush_orderly; cbn [fr_self fr_ctx]. intros [bo bp] ctx1 w es Hb Hor.
  set (h1 := set th_l_box (mk_Outbox bo bp) (get tv_hub c)).
  assert (relayed (th_view (get tv_hub c)) [] (th_view h1) /\ tls_ok given h1) as H1.
  { split; [|destruct Hok; by split]. by apply (relayed_less _ [] _ _ (relayed_refl _ H0)). }
  apply wp_bind, wp_zoom. eapply wp_conseq; [apply quiet| |].
  2: { intros e u [-> | ->]; cbn [fr_self]; [|by intros []]. intros _. apply (Hdone []).
       revert H1. apply (tls_same_hub given); done. }
  intros [] u Hctx. cbn [fr_ctx] in Hctx. apply wp_bind, wp_zoom, wp_poll; cbn [fr_self].
  2: { intros _ sg _ _. apply (Hdone []). revert H1. apply (tls_same_hub given); done. }
  intros _ sg _. apply wp_bind, wp_zoom. apply (wp_tls_serve given (get tv_hub c) H0); cbn [fr_self].
  - revert H1. apply (tls_same_hub given); done.
  - unfold th_orderly. cbn [fr_self fr_ctx with_self]. rewrite Hctx. exact Hor.
  - exact Hnx.
  - intros lg g Hat. unfold tls_at in Hat. rewrite <- (tv_hub_set (fr_self g)
      (set tv_l_signals sg (set tv_l_setup (fr_self u) (set tv_hub h1 c)))) in Hat. wp_run. destruct (_ <? _)%N; wp_run.
    + intros _. apply (Hdone lg). exact Hat.
    + destruct (is_none _); wp_run; [intros _; apply (Hdone lg); exact Hat|]. apply wp_wake_poll. wp_run.
      intros _. apply (Hdone lg). exact Hat.
  - by intros g [].
Qed.

Lemma tls_event_ok c given c' given' :
  tls_event c given c' given' -> tls_ok given (get tv_hub c) ->
  tls_ok given' (get tv_hub c') /\ th_view (get tv_hub c') = th_view (get tv_hub c).
Proof.
  intros He Hok. destruct He as [c given id cn s cid reads empty writes ios Hcn Hst|c given id cn ch a Hcn Hst Htx Ha|
    c given m r Hp|c given|c given li a Hli|c c' given Hc].
  - rewrite tv_hub_set. set (cn' := mk_TlsConnection _ _). split.
    + eapply (tls_ok_put given (get tv_hub c) _ id cn' Hok); simpl; try done.
      * apply (to_ids given _ Hok). by eexists.
      * intros ? [= <-]. apply (to_sent given _ Hok id cn s Hcn). by rewrite Hst.
    + unfold th_view. simpl. f_equal. rewrite fmap_insert, insert_id; [done|]. rewrite lookup_fmap, Hcn. simpl.
      unfold conn_seen. by rewrite Hst.
  - rewrite tv_hub_set. set (cn' := mk_TlsConnection _ _). split.
    + eapply (tls_ok_put given (get tv_hub c) _ id cn' Hok); simpl; try done; [apply (to_ids given _ Hok); by eexists|].
      intros s Hs. pose proof (to_fresh given _ Hok _ _ Hcn) as Hf. rewrite Hst in Hf. simpl in Hf. unfold mpsc_try_send in Hs.
      destruct (mp_rx_alive ch), (mpsc_full ch); simpl in Hs; try by apply Hf.
      apply elem_of_app in Hs as [Hs|Hs%list_elem_of_singleton]; [by apply Hf|by apply Ha].
    + unfold th_view. simpl. f_equal. rewrite fmap_insert, insert_id; [done|]. rewrite lookup_fmap, Hcn. simpl.
      unfold conn_seen. by rewrite Hst.
  - rewrite tv_hub_set. split; [|done]. apply ring_push_ok in Hp. destruct Hok as [Hid Hfr Hre Hpe Hse]. split; simpl in *; try done.
    + rewrite Hp. set_solver.
    + set_solver.
    + intros i x s Hx Hs. by eapply pieces_more, Hse.
  - rewrite tv_hub_set. split; [|done]. destruct Hok as [Hid Hfr Hre Hpe Hse]. split; simpl in *; try done.
    by rewrite ring_drop_producer_items.
  - rewrite tv_hub_set. split; [|done]. destruct Hok; by split.
  - by rewrite Hc.
Qed.

#[export, program] Instance tls_gateway : GatewayServer Server := {|
  gs_view c := th_view (get tv_hub c); gs_box := tv_l_box; gs_ok given c := tls_ok given (get tv_hub c);
  gs_room c := (tv_next_client_id c + 1 < u32_modulus)%N;
  gs_process clock := server_process clock; gs_event := tls_event
|}.
Next Obligation. done. Qed.
Next Obligation. intros given c. apply (tls_numbered given). Qed.
Next Obligation.
  intros given c b Hok. unfold tv_l_box. cbn [set get]. rewrite tv_hub_set. split; [destruct Hok; by split|destruct b; done].
Qed.
Next Obligation. intros clock given c ctx f r Hok Hroom Hcall. exact (tls_called clock given c ctx f r Hok Hroom Hcall). Qed.
Next Obligation. intros c given c' given'. apply tls_event_ok. Qed.

(** C22: whatever the order in which TLSServer is called, clients come, complete
    their handshakes, send and go, answers arrive and packets are taken: what has
    been received and what is on its way is the data that was read from the
    sessions, in order, in which every connected client finds its own, once and
    in order, though nothing tells whose it is; and what was sent to a client
    consists of beginnings of answers. *)
Theorem tls_server_relays (s0 s : GatewayRun (C := Server)) :
  gateway_untouched s0 -> rtc gateway_step s0 s -> exists l,
  gr_got s ++ sink_items (tv_out (gr_server s)) ++ tv_pending_outbound (gr_server s) = relayed_packets l /\
  forall id cn, tv_connections (gr_server s) !! id = Some cn ->
    conn_seen cn = messages_from id l /\
    forall ss, session_of (tn_state cn) = Some ss -> pieces (gr_given s) (tl_sent ss).
Proof.
  intros H0 Hr. destruct (gateway_run_inv s0 s H0 Hr) as [l [Hok Hi _ Hs]]. exists l. split; [exact Hi|].
  intros id cn Hcn. split; [apply (Hs id); simpl; by rewrite lookup_fmap, Hcn|].
  intros ss Hss. by eapply (to_sent (gr_given s) _ Hok).
Qed.
End tls_server.

(** ** Concrete runs *)
#[local] Existing Instance list_rtrb.
#[local] Existing Instance sorted_hash_iter.
Definition demo_gateway_clock (n : nat) : Instant := N.of_nat n.

(** Two clients wait; each has sent a message. *)
Definition demo_websocket (reads : list WsRead) : WebSocket := mk_WebSocket reads [] [] [] [].
Definition demo_ws_bind (addr : string) : result WsListener ErrorKind :=
  if String.eqb addr "nowhere" then Err PermissionDenied
  else Ok (mk_WsListener [WsUpgraded (demo_websocket [WsMessage [x68; x69]]);
                          WsUpgraded (demo_websocket [WsMessage [x79; x6f]])] true).
Lemma demo_ws_bind_fresh addr li : demo_ws_bind addr = Ok li -> Forall fresh_accept (wl_accepts li).
Proof. unfold demo_ws_bind. destruct (String.eqb _ _); [done|]. intros [= <-]. by repeat constructor. Defined.
#[local] Instance demo_ws_gateway : GatewayServer WSServerComponent := ws_gateway demo_ws_bind demo_ws_bind_fresh.

Definition demo_ws : WSServerComponent :=
  mk_WSServerComponent (demo_ring true [Text "localhost:9001"]) (demo_ring false []) (demo_out 1) demo_channel
    demo_channel WSServerWaiting [].
Lemma demo_ws_untouched : gateway_untouched (mk_GatewayRun demo_ws [] []).
Proof. split_and!; [|done..]. exists []. split; try done. by intros id [? ?]. Defined.

Lemma demo_ws_answer (c : WSServerComponent) given got m r :
  ring_push m (wv_resp c) = (Ok tt, r) ->
  gateway_step (mk_GatewayRun c given got) (mk_GatewayRun (set wv_l_resp r c) (given ++ [m]) got).
Proof. intros Hp. by apply (gateway_happens c), ws_event_response. Defined.

(** Both clients have come and have been read from, although the outport has
    room for one packet; the answer came before the second one. *)
Lemma demo_ws_run :
  exists s, rtc gateway_step (mk_GatewayRun demo_ws [] []) s /\
    sink_items (wv_out (gr_server s)) = [Bytes [x68; x69]] /\ wv_pending_outbound (gr_server s) = [Bytes [x79; x6f]] /\
    exists ws, ws_connections (gr_server s) !! 1%N = Some ws /\ wk_seen ws = [[x68; x69]] /\ wk_written ws = [[x61]].
Proof.
  eexists. split.
  - eapply rtc_l; [eapply (gateway_called demo_gateway_clock demo_ws [] [] (demo_context Normal 8)); [done|vm_compute; reflexivity]|].
    eapply rtc_l; [eapply (demo_ws_answer _ _ _ (Bytes [x61])); vm_compute; reflexivity|].
    eapply rtc_l; [eapply (gateway_called demo_gateway_clock _ _ [] (demo_context Normal 8)); [by intros l [= <-]|vm_compute; reflexivity]|].
    eapply rtc_l; [eapply (gateway_called demo_gateway_clock _ _ [] (demo_context Normal 8)); [by intros l [= <-]|vm_compute; reflexivity]|].
    apply rtc_refl.
  - split_and!; [vm_compute; reflexivity..|]. eexists. split_and!; vm_compute; reflexivity.
Defined.

Lemma ws_server_relays_witness :
  exists s : GatewayRun (C := WSServerComponent), rtc gateway_step (mk_GatewayRun demo_ws [] []) s /\ exists l taken ws,
    gr_got s ++ sink_items (wv_out (gr_server s)) ++ wv_pending_outbound (gr_server s) = relayed_packets l /\
    ws_connections (gr_server s) !! 1%N = Some ws /\ wk_seen ws = messages_from 1 l /\
    wk_written ws `sublist_of` map packet_bytes taken /\ wk_written ws = [[x61]].
Proof.
  destruct demo_ws_run as (s & Hr & _ & _ & ws & Hws & _ & Hw). exists s. split; [exact Hr|].
  destruct (ws_server_relays demo_ws_bind demo_ws_bind_fresh (mk_GatewayRun demo_ws [] []) s demo_ws_untouched Hr)
    as (l & taken & Hi & _ & Hs).
  exists l, taken, ws. destruct (Hs _ _ Hws) as [H1 H2]. split_and!; [exact Hi|exact Hws|exact H1|exact H2|exact Hw].
Defined.

(** A text is sent as an empty message, and an answer without a client is
    dropped. *)
Definition listening_ws (resp : list FbpMessage) (connections : gmap N WebSocket) : WSServerComponent :=
  mk_WSServerComponent (demo_ring true []) (demo_ring false resp) (demo_out 8) demo_channel demo_channel
    (WSServerListening (mk_Listening (mk_WsListener [] true) connections 2)) [].
Definition ws_answers (c : WSServerComponent) : option (list FbpMessage * option (list (list byte))) :=
  match call (ws_server_process demo_gateway_clock demo_ws_bind) c (demo_context Normal 8) with
  | Some (f, Some _) => Some (ring_items (wv_resp (fr_self f)), wk_written <$> ws_connections (fr_self f) !! 1%N)
  | _ => None
  end.
Example ws_text_answer_empty :
  ws_answers (listening_ws [Text "hello"] {[1%N := demo_websocket []]}) = Some ([], Some [[]]).
Proof. vm_compute. reflexivity. Qed.
Example ws_answer_dropped : ws_answers (listening_ws [Bytes [x61]] ∅) = Some ([], None).
Proof. vm_compute. reflexivity. Qed.

(** A TLS server whose certificate and key are whatever comes, with a client
    that waits. *)
Definition demo_tls_bind (addr : string) : result TlsListener ErrorKind := Ok (mk_TlsListener [Ok true] true).
Abbreviation DemoTls := (TLSServerComponent (ServerConfig := (list byte * list byte))).
Definition demo_tls_server : DemoTls :=
  mk_TLSServerComponent (demo_ring true [Text "localhost:8443"]) (demo_ring true [Bytes [x63]]) (demo_ring true [Bytes [x6b]])
    (demo_ring false []) (demo_out 1) demo_channel demo_channel None None None None None ∅ 0 [] [] None.
#[local] Instance demo_tls_gateway : GatewayServer DemoTls := tls_gateway Some Some (fun c k => Some (c, k)) demo_tls_bind.
Lemma demo_tls_untouched : gateway_untouched (mk_GatewayRun demo_tls_server [] []).
Proof. split_and!; [|done..]. split; try set_solver; try done. by intros id [? ?]. Defined.

Definition demo_tls_session (reads : list TlsRead) (ios : list (result unit ErrorKind)) : TlsSession :=
  mk_TlsSession reads [] (Err WouldBlock) [] ios [] [].
Lemma demo_tls_handshake (c : DemoTls) given got id cn ch s :
  tv_connections c !! id = Some cn -> tn_state cn = PendingHandshake ch -> mp_tx_alive ch = true ->
  tl_seen s = [] /\ tl_sent s = [] ->
  gateway_step (mk_GatewayRun c given got) (mk_GatewayRun (set tv_hub (set th_l_connections (<[id := mk_TlsConnection
      (PendingHandshake (drop_sender (mpsc_try_send (Ok s) ch).2)) (tn_last_active cn)]> (tv_connections c)) (get tv_hub c)) c)
    given got).
Proof.
  intros H1 H2 H3 H4. apply (gateway_happens c). eapply (tls_event_handshake c given id cn ch (Ok s)); [done..|].
  by intros ? [= <-].
Defined.
Lemma demo_tls_answer (c : DemoTls) given got m r :
  ring_push m (tv_resp c) = (Ok tt, r) ->
  gateway_step (mk_GatewayRun c given got) (mk_GatewayRun (set tv_hub (set th_l_resp r (get tv_hub c)) c) (given ++ [m]) got).
Proof. intros Hp. by apply (gateway_happens c), tls_event_response. Defined.

(** The client has come, its handshake is done, it has been read from and
    answered. *)
Lemma demo_tls_server_run :
  exists s, rtc gateway_step (mk_GatewayRun demo_tls_server [] []) s /\
    sink_items (tv_out (gr_server s)) = [Bytes [x68; x69]] /\ gr_given s = [Bytes [x61]] /\
    exists cn ss, tv_connections (gr_server s) !! 0%N = Some cn /\ session_of (tn_state cn) = Some ss /\ tl_sent ss = [x61].
Proof.
  eexists. split.
  - eapply rtc_l; [eapply (gateway_called demo_gateway_clock demo_tls_server [] [] (demo_context Normal 8)); [reflexivity|vm_compute; reflexivity]|].
    eapply rtc_l; [eapply (demo_tls_handshake _ _ _ 0%N _ _ (demo_tls_session [TlsPackets [x68; x69]] [])); [vm_compute; reflexivity..|by split]|].
    eapply rtc_l; [eapply (gateway_called demo_gateway_clock _ [] [] (demo_context Normal 8)); [reflexivity|vm_compute; reflexivity]|].
    eapply rtc_l; [eapply (demo_tls_answer _ _ _ (Bytes [x61])); vm_compute; reflexivity|].
    eapply rtc_l; [eapply (gateway_called demo_gateway_clock _ _ [] (demo_context Normal 8)); [reflexivity|vm_compute; reflexivity]|].
    apply rtc_refl.
  - split_and!; [vm_compute; reflexivity..|]. eexists _, _. split_and!; vm_compute; reflexivity.
Defined.

Lemma tls_server_relays_witness :
  exists s : GatewayRun (C := DemoTls), rtc gateway_step (mk_GatewayRun demo_tls_server [] []) s /\ exists l cn,
    gr_got s ++ sink_items (tv_out (gr_server s)) ++ tv_pending_outbound (gr_server s) = relayed_packets l /\
    tv_connections (gr_server s) !! 0%N = Some cn /\ conn_seen cn = messages_from 0 l /\ pieces [Bytes [x61]] [x61].
Proof.
  destruct demo_tls_server_run as (s & Hr & _ & Hg & cn & ss & Hcn & Hss & Hst). exists s. split; [exact Hr|].
  destruct (tls_server_relays Some Some (fun c k => Some (c, k)) demo_tls_bind (mk_GatewayRun demo_tls_server [] []) s
    demo_tls_untouched Hr) as (l & Hi & Hs).
  exists l, cn. destruct (Hs _ _ Hcn) as [H1 H2]. pose proof (H2 ss Hss) as H3. rewrite Hg, Hst in H3.
  split_and!; [exact Hi|exact Hcn|exact H1|exact H3].
Defined.

(** An answer whose sending would block has been written all the same, stays at
    the head and is written again. *)
Definition active_tls (s : TlsSession) (responses : list FbpMessage) : DemoTls :=
  set tv_hub (mk_TlsHub (Some (mk_TlsListener [] true)) (demo_ring false responses) (mk_Outbox (demo_out 8) [])
    {[0%N := mk_TlsConnection (Active s 0) 0]} 1 [])
    (set tv_l_setup (mk_TlsSetup (demo_ring true []) (demo_ring true []) (demo_ring true []) None None None (Some ([], []))
      None) demo_tls_server).
Definition tls_server_calls (budgets : list N) (c : DemoTls) : option DemoTls :=
  foldl (fun c b => c ← c;
    p ← call (tls_server_process demo_gateway_clock Some Some (fun c k => Some (c, k)) demo_tls_bind) c (demo_context Normal b);
    match p with (f, Some _) => Some (fr_self f) | _ => None end) (Some c) budgets.
Example tls_answer_repeated :
  (c ← tls_server_calls [8; 8]%N (active_tls (demo_tls_session [] [Err WouldBlock]) [Bytes [x61]]);
   cn ← tv_connections c !! 0%N; tl_sent <$> session_of (tn_state cn)) = Some [x61; x61].
Proof. vm_compute. reflexivity. Qed.
