(* ===== verification/TlsTheorems.v ===== *)
(** What is proved about TLSClient: along every run what it outputs is what was
    read from its connections, once and in order; and as long as no write fails,
    what it sends are the packets that it was given, once and in order. *)
From S2P Require Import Prelude Api Scheduler Process Pipes PipesTheorems Sinks SinksTheorems TimersTheorems Io Servers Clients ClientsTheorems Sessions SessionsTheorems.
From Stdlib Require Strings.String.
From Stdlib Require Import NArith ZArith Lia Strings.Byte.
From stdpp Require Import base list strings gmap relations.
Local Open Scope string_scope.
Local Open Scope list_scope.

Section tls_client.
Context `{R : Rtrb}.
(** Whether writes may fail. *)
Variable faulty : bool.

Definition faultless (s : TlsSession) : Prop := faulty = false -> tl_writes s = [] /\ tl_ios s = [].
Definition new_session (s : TlsSession) : Prop := tl_seen s = [] /\ tl_sent s = [] /\ faultless s.

(** [given] are the packets that IN has been sent, [before] those that had been
    taken when there was no session, [l] the data that has been read. *)
Record tls_client_ok (given before : list FbpMessage) (l : list (list byte)) (c : TLSClientComponent) : Prop := mk_tls_client_ok {
  tk_seen : forall s, tc_session c = Some s -> exists earlier, l = earlier ++ tl_seen s;
  tk_faultless : forall s, tc_session c = Some s -> faultless s;
  tk_given : faulty = false -> tc_pending_data c = [] /\ exists now_,
    given = before ++ now_ ++ ring_items (tc_inn c) /\
    forall s, tc_session c = Some s -> tl_sent s = concat (map packet_bytes now_);
  tk_connect : forall co s, tc_connect_result c = Some co -> Ok s ∈ mp_items (co_result co) -> new_session s
}.

(** Nothing has been taken since there was no session. *)
Definition waits (given before : list FbpMessage) (c : TLSClientComponent) : Prop :=
  faulty = false -> tc_session c = None -> given = before ++ ring_items (tc_inn c).

Section call.
Variable given before got : list FbpMessage.

Definition tc_at (f : frame TLSClientComponent) : Prop :=
  orderly (get tc_l_box (fr_self f)) (fr_ctx f) /\
  exists l, got ++ box_items (get tc_l_box (fr_self f)) = map from_bytes l /\ tls_client_ok given before l (fr_self f).

(** The session is gone. *)
Lemma tls_client_ok_lost l c c' :
  tls_client_ok given before l c -> tc_session c' = None -> tc_connect_result c' = tc_connect_result c ->
  tc_inn c' = tc_inn c -> (faulty = false -> tc_pending_data c' = tc_pending_data c) -> tls_client_ok given before l c'.
Proof.
  intros [Hs Hf Hg Hc] Hn Hc' Hi Hp. split; rewrite ?Hn, ?Hc'; try done.
  intros Hfa. destruct (Hg Hfa) as [Hpe (now_ & -> & _)]. split; [by rewrite Hp|]. exists now_.
  by rewrite Hi.
Qed.

(** What offering a packet does to the session. *)
Definition offered_to (ip : FbpMessage) (s0 s : option TlsSession) (r : offer_result) : Prop :=
  match s0 with
  | None => r = NoConnection /\ s = None
  | Some s0 =>
      match s with
      | None => r = OfferLost /\ faulty = true
      | Some s => tl_seen s = tl_seen s0 /\ faultless s /\ (r = Offered \/ r = OfferBlocked) /\
          (faulty = false -> r = Offered /\ tl_sent s = tl_sent s0 ++ packet_bytes ip)
      end
  end.

Lemma wp_tls_offer ip f (Q : offer_result -> frame TLSClientComponent -> Prop) E :
  (forall s, tc_session (fr_self f) = Some s -> faultless s) ->
  (forall r s, offered_to ip (tc_session (fr_self f)) s r -> Q r (with_self (set tc_l_session s (fr_self f)) f)) ->
  wp (tls_offer ip) Q E f.
Proof.
  intros Hf HQ. unfold tls_offer. wp_run. destruct (tc_session (fr_self f)) as [s|] eqn:Hs; wp_run.
  2: { replace f with (with_self (set tc_l_session None (fr_self f)) f); [by apply HQ|].
       destruct f as [[] ? ? ? ?]. simpl in *. by subst. }
  specialize (Hf s eq_refl). destruct (tls_write _ s) as [res s1] eqn:Hw. wp_run.
  assert (tl_seen s1 = tl_seen s /\ faultless s1 /\
    (faulty = false -> (exists n, res = Ok n) /\ tl_sent s1 = tl_sent s ++ packet_bytes ip)) as (Hs1 & Hf1 & Hw1).
  { unfold tls_write in Hw. unfold faultless in *. split_and!; [by destruct (tl_writes s) as [|[]]; injection Hw as <- <-|..];
      intros Hfa; destruct (Hf Hfa) as [Hws Hios]; rewrite Hws in Hw; injection Hw as <- <-; [done|].
    split; [by eexists|done]. }
  destruct res as [n|kind]; wp_run.
  2: { apply HQ. simpl. split; [done|]. destruct faulty; [done|]. by destruct (Hw1 eq_refl) as [[? ?] _]. }
  destruct (tls_complete_io s1) as [res s2] eqn:Hio. wp_run.
  assert (tl_seen s2 = tl_seen s1 /\ tl_sent s2 = tl_sent s1 /\ faultless s2 /\ (faulty = false -> res = Ok tt))
    as (Hs2 & Hw2 & Hf2 & Hr).
  { unfold tls_complete_io in Hio. unfold faultless in *. split_and!; try (by destruct (tl_ios s1); injection Hio as <- <-);
      intros Hfa; destruct (Hf1 Hfa) as [Hws Hios]; rewrite Hios in Hio; by injection Hio as <- <-. }
  destruct res as [[]|kind]; wp_run.
  - apply HQ. simpl. split_and!; [congruence|done|by left|]. intros Hfa. destruct (Hw1 Hfa) as [_ H]. split; [done|congruence].
  - assert (faulty = true) as Hfa by (destruct faulty; [done|by specialize (Hr eq_refl)]).
    destruct kind; wp_run; apply HQ; simpl; try done. split_and!; [congruence|done|by right|congruence].
Qed.

(** When writes may fail, only the data that has been read matters. *)
Lemma tls_client_ok_faulty l c c' :
  faulty = true -> tls_client_ok given before l c ->
  (forall s, tc_session c' = Some s -> exists s0, tc_session c = Some s0 /\ tl_seen s = tl_seen s0) ->
  tc_connect_result c' = tc_connect_result c -> tls_client_ok given before l c'.
Proof.
  intros Hfa [Hs Hf Hg Hc] Hs' Hc'. split; rewrite ?Hc'; try done; unfold faultless; try congruence.
  intros s (s0 & H0 & ->)%Hs'. by apply Hs.
Qed.

Lemma offered_seen ip s0 s r :
  offered_to ip s0 (Some s) r -> exists s1, s0 = Some s1 /\ tl_seen s = tl_seen s1.
Proof. destruct s0 as [s0|]; [|by intros [? ?]]. intros [H _]. by exists s0. Qed.

(** A packet that has been taken from the ring is offered, or kept. *)
Lemma tls_client_ok_offered l c c' ip rest r s res :
  tls_client_ok given before l c -> ring_items (tc_inn c) = ip :: rest -> ring_items r = rest ->
  (faulty = false -> is_Some (tc_session c)) -> offered_to ip (tc_session c) s res ->
  tc_session c' = s -> tc_inn c' = r -> tc_connect_result c' = tc_connect_result c ->
  (res = Offered -> tc_pending_data c' = tc_pending_data c) ->
  tls_client_ok given before l c' /\ (faulty = false -> is_Some (tc_session c')).
Proof.
  intros Hok Hi Hr Hsome Hoff Hs' Hi' Hc' Hp. destruct faulty eqn:Hfa.
  { split; [|done]. apply (tls_client_ok_faulty l c c' Hfa Hok); [|done]. intros s1 Hs1. rewrite Hs1 in Hs'. subst s.
    by eapply offered_seen. }
  destruct (Hsome eq_refl) as [s0 H0]. rewrite H0 in Hoff. destruct s as [s|]; [|by destruct Hoff as [_ ?]; congruence].
  destruct Hoff as (Hsn & Hfs & _ & Hoff). destruct (Hoff Hfa) as [-> Hst].
  destruct Hok as [Hs Hf Hg Hc]. split; [|by rewrite Hs'; eexists]. split; rewrite ?Hs', ?Hc'; try done.
  - intros ? [= <-]. rewrite Hsn. by apply Hs.
  - by intros ? [= <-].
  - intros _. destruct (Hg Hfa) as [Hpe (now_ & -> & Hsent)]. split; [by rewrite Hp|].
    exists (now_ ++ [ip]). split; [by rewrite Hi', Hr, Hi, <- app_assoc|]. intros ? [= <-].
    rewrite Hst, (Hsent s0 H0), map_app, concat_app. simpl. by rewrite app_nil_r.
Qed.

Definition tc_flow (l : list (list byte)) (f : frame TLSClientComponent) : Prop :=
  got ++ box_items (get tc_l_box (fr_self f)) = map from_bytes l /\ tls_client_ok given before l (fr_self f).
Definition tc_conn (f : frame TLSClientComponent) : Prop := faulty = false -> is_Some (tc_session (fr_self f)).
Definition tc_ring (f : frame TLSClientComponent) : nat := length (ring_items (tc_inn (fr_self f))).

Lemma wp_send_chunk n : forall l f (Q : unit -> frame TLSClientComponent -> Prop) E,
  tc_flow l f -> tc_conn f -> (n <= tc_ring f)%nat ->
  (forall f', tc_flow l f' -> tc_conn f' -> (tc_ring f' + Nat.min 1 n <= tc_ring f)%nat ->
     get tc_l_box (fr_self f') = get tc_l_box (fr_self f) -> Q tt f') ->
  wp (send_chunk n) Q E f.
Proof.
  induction n as [|n IH]; intros l f Q E Hfl Hco Hn HQ; [wp_run; apply HQ; [done..|lia|done]|]. simpl.
  apply wp_bind, wp_pop; [unfold tc_ring in Hn; simpl; intros Hi; rewrite Hi in Hn; simpl in Hn; lia|].
  intros ip rest r Hi [Hr _ _]. cbn [get tc_l_inn] in Hi, Hr. rewrite Hi in Hr. simpl in Hr. rewrite drop_0 in Hr.
  destruct Hfl as [Hfl Hok]. unfold tc_ring in Hn, HQ. rewrite Hi in Hn, HQ. simpl in Hn, HQ.
  apply wp_bind, wp_tls_offer; [exact (tk_faultless _ _ _ _ Hok)|]. simpl. intros res s Hoff.
  assert (forall f', tc_session (fr_self f') = s -> tc_inn (fr_self f') = r ->
    tc_connect_result (fr_self f') = tc_connect_result (fr_self f) -> get tc_l_box (fr_self f') = get tc_l_box (fr_self f) ->
    (res = Offered -> tc_pending_data (fr_self f') = tc_pending_data (fr_self f)) ->
    tc_flow l f' /\ tc_conn f') as Hnext.
  { intros f' H1 H2 H3 H4 H5. unfold tc_flow. rewrite H4. apply and_assoc. split; [done|].
    by apply (tls_client_ok_offered l (fr_self f) (fr_self f') ip rest r s res). }
  assert (forall f', tc_flow l f' /\ tc_conn f' -> tc_inn (fr_self f') = r ->
    get tc_l_box (fr_self f') = get tc_l_box (fr_self f) -> wp (send_chunk n) Q E f') as Hgo.
  { intros f' [H1 H2] H3 H4. apply (IH l); [done|done|unfold tc_ring; rewrite H3, Hr; lia|].
    intros f2 H5 H6 H7 H8. apply HQ; [done|done| |exact (eq_trans H8 H4)]. unfold tc_ring in *. rewrite H3, Hr in H7. lia. }
  unfold keep_data. destruct res; wp_wrap; try (apply Hgo; [by apply Hnext|done|done]).
  match goal with |- Q _ ?g => destruct (Hnext g) as [H1 H2]; [done..|] end.
  apply HQ; [done|done| |done]. unfold tc_ring. simpl. rewrite Hr. lia.
Qed.

(** The state between the phases of a call. *)
Definition tc_box_orderly (f : frame TLSClientComponent) : Prop := orderly (get tc_l_box (fr_self f)) (fr_ctx f).

Lemma wp_send_pending_data l f (Q : unit -> frame TLSClientComponent -> Prop) E :
  tc_flow l f -> tc_conn f -> tc_box_orderly f ->
  (forall f', tc_flow l f' -> tc_conn f' -> tc_box_orderly f' -> Q tt f') -> wp send_pending_data Q E f.
Proof.
  intros Hfl Hco Hor HQ. apply (wp_while (fun f => tc_flow l f /\ tc_conn f /\ tc_box_orderly f)
    (fun f => length (tc_pending_data (fr_self f)))); [done|lia|intros f' (? & ? & ?) _; by apply HQ|].
  clear f Hfl Hco Hor. intros f ([Hfl Hok] & Hco & Hor) [Hb%N.ltb_lt Hp%negb_true_iff%bool_decide_eq_false]%andb_true_iff.
  destruct Hor as [Hin|]; [|lia]. assert (faulty = true) as Hfa.
  { destruct faulty eqn:Hfa; [done|]. by destruct Hok as [_ _ Hg _]; destruct (Hg Hfa). }
  wp_run. destruct (tc_pending_data (fr_self f)) as [|ip p] eqn:Hpe; [done|]. simpl.
  apply wp_bind, wp_tls_offer; [exact (tk_faultless _ _ _ _ Hok)|]. intros r s Hoff.
  assert (forall f', tc_session (fr_self f') = s -> tc_connect_result (fr_self f') = tc_connect_result (fr_self f) ->
    get tc_l_box (fr_self f') = get tc_l_box (fr_self f) -> tc_flow l f' /\ tc_conn f' /\ tc_box_orderly f') as Hnext.
  { intros f' H1 H2 H3. unfold tc_flow, tc_box_orderly. rewrite H3. split_and!; [done| |unfold tc_conn; by rewrite Hfa|by left].
    apply (tls_client_ok_faulty l (fr_self f) _ Hfa Hok); [|done]. rewrite H1. intros s1 ->. by eapply offered_seen. }
  destruct r; wp_wrap; try (destruct (Hnext (with_self (set tc_l_session s (fr_self f)) f)) as (? & ? & ?); [done..|by apply HQ]).
  split; [by apply Hnext|]. simpl. rewrite ?Hpe. simpl. lia.
Qed.

Lemma wp_send_data l f (Q : unit -> frame TLSClientComponent -> Prop) E :
  tc_flow l f -> tc_conn f -> tc_box_orderly f ->
  (forall f', tc_flow l f' -> tc_box_orderly f' -> Q tt f') -> wp send_data Q E f.
Proof.
  intros Hfl Hco Hor HQ. apply (wp_while (fun f => tc_flow l f /\ tc_conn f /\ tc_box_orderly f) tc_ring);
    [done|unfold tc_ring; rewrite ring_slots_spec; lia|intros f' (? & ? & ?) _; by apply HQ|].
  clear f Hfl Hco Hor. intros f (Hfl & Hco & Hor) Hb%N.ltb_lt. destruct Hor as [Hin|]; [|lia]. wp_run.
  destruct (ring_slots (tc_inn (fr_self f))) as [|n] eqn:Hn; [wp_run; apply HQ; [done|by left]|].
  rewrite ring_slots_spec in Hn. apply (wp_send_chunk (S n) l); [done|done|unfold tc_ring; lia|].
  intros f' H1 H2 H3 H4. split; [split_and!; [done|done|]|lia]. left. by rewrite H4.
Qed.

(** A session that has been read from. *)
Record read_on (new : list (list byte)) (s s' : TlsSession) : Prop := mk_read_on {
  ro_seen : tl_seen s' = tl_seen s ++ new;
  ro_sent : tl_sent s' = tl_sent s;
  ro_writes : tl_writes s' = tl_writes s;
  ro_ios : tl_ios s' = tl_ios s
}.

Lemma read_on_trans new1 new2 s1 s2 s3 : read_on new1 s1 s2 -> read_on new2 s2 s3 -> read_on (new1 ++ new2) s1 s3.
Proof. intros [] []. split; try congruence. rewrite app_assoc. congruence. Qed.

Lemma tls_receive_on s res s' :
  tls_receive s = (res, s') -> read_on [] s s' /\
  forall plain, res = TlsPackets plain -> (length (tl_reads s') < length (tl_reads s))%nat.
Proof.
  unfold tls_receive. destruct (tl_reads s) as [|[] rest] eqn:Hrd; intros [= <- <-];
    (split; [split; by rewrite ?app_nil_r|]); intros p Hp; try done; simpl; lia.
Qed.

Lemma tls_read_on n s res s' :
  tls_read n s = (res, s') -> tl_reads s' = tl_reads s /\
  read_on (match res with Ok (b :: bs) => [b :: bs] | _ => [] end) s s'.
Proof.
  unfold tls_read. destruct (take _ _) as [|b bs]; intros [= <- <-].
  - destruct (tl_empty s); (split; [done|]); split; by rewrite ?app_nil_r.
  - done.
Qed.

Lemma tls_client_ok_kept l new c c' s s' :
  tls_client_ok given before l c -> tc_session c = Some s -> read_on new s s' -> tc_session c' = Some s' ->
  tc_connect_result c' = tc_connect_result c -> tc_inn c' = tc_inn c -> tc_pending_data c' = tc_pending_data c ->
  tls_client_ok given before (l ++ new) c'.
Proof.
  intros [Ks Kf Kg Kc] Hs [H5 H6 H7 H8] H1 H2 H3 H4. split; rewrite ?H1, ?H2; try done.
  - intros ? [= <-]. destruct (Ks s Hs) as [earlier ->]. exists earlier. by rewrite H5, app_assoc.
  - intros ? [= <-]. unfold faultless. rewrite H7, H8. by apply Kf.
  - intros Hfa. rewrite H3, H4. destruct (Kg Hfa) as [Hpe (now_ & Hg & Hst)]. split; [done|].
    exists now_. split; [done|]. intros ? [= <-]. rewrite H6. by apply Hst.
Qed.

Lemma wp_receive_data l f (Q : unit -> frame TLSClientComponent -> Prop) E :
  tc_flow l f -> tc_box_orderly f -> (forall l f', tc_flow l f' -> tc_box_orderly f' -> Q tt f') -> wp receive_data Q E f.
Proof.
  intros Hfl Hor HQ. apply (wp_while (fun f => exists l, tc_flow l f /\ tc_box_orderly f)
    (fun f => match tc_session (fr_self f) with Some s => length (tl_reads s) | None => O end));
    [by exists l|destruct (tc_session _); lia|intros f' (? & ? & ?) _; by eapply HQ|].
  clear l f Hfl Hor. intros f (l & [Hfl Hok] & Hor) Hb%N.ltb_lt. destruct Hor as [Hin|]; [|lia]. wp_run.
  destruct (tc_session (fr_self f)) as [s|] eqn:Hs; [|wp_run; apply (HQ l); [done|by left]].
  assert (forall f' o, tc_session (fr_self f') = o -> (o = None \/ exists s', o = Some s' /\ read_on [] s s') ->
    tc_connect_result (fr_self f') = tc_connect_result (fr_self f) -> tc_inn (fr_self f') = tc_inn (fr_self f) ->
    get tc_l_box (fr_self f') = get tc_l_box (fr_self f) -> tc_pending_data (fr_self f') = tc_pending_data (fr_self f) ->
    Q tt f') as Hsame.
  { intros f' o H1 Ho H2 H3 H4 H5. apply (HQ l); [|left; by rewrite H4]. split; [by rewrite H4|].
    destruct Ho as [-> | (s' & -> & Hon)]; [by apply (tls_client_ok_lost l (fr_self f))|].
    rewrite <- (app_nil_r l). by apply (tls_client_ok_kept l [] (fr_self f) _ s s'). }
  destruct (tls_receive s) as [res s1] eqn:Hrec. apply tls_receive_on in Hrec as [Hon Hlt]. wp_run.
  destruct res as [|plain| |kind]; [wp_run; (eapply Hsame; [done|by left|done..])| |wp_run; (eapply Hsame; [done|by left|done..])|].
  2: { destruct kind; wp_run; (eapply Hsame; [done| |done..]); (by left) || (right; by exists s1). }
  destruct (tls_read TLS_READ_BUFFER s1) as [res s2] eqn:Hread. apply tls_read_on in Hread as [Hrd Hon2].
  pose proof (read_on_trans _ _ _ _ _ Hon Hon2) as Hon3. simpl in Hon3. wp_run. destruct res as [[|b bs]|kind].
  - wp_run. eapply Hsame; [done| |done..]. right. by exists s2.
  - apply wp_bind, wp_zoom, wp_send_or_keep; simpl; [|done]. intros o q es Hoq _ _ Hin'. wp_wrap. split.
    + exists (l ++ [b :: bs]). split; [|by left]. split.
      * simpl. unfold box_items in *. simpl in *. by rewrite map_app, <- Hfl, <- app_assoc, Hoq, <- !app_assoc.
      * by eapply (tls_client_ok_kept l [b :: bs] (fr_self f) _ s s2).
    + rewrite Hrd. by eapply Hlt.
  - destruct kind; wp_run; (eapply Hsame; [done| |done..]); (by left) || (right; by exists s2).
Qed.

(** Only the connection under way has changed, or a connection has been made. *)
Lemma tls_client_ok_connect l c c' :
  tls_client_ok given before l c -> waits given before c -> tc_session c = None -> tc_inn c' = tc_inn c ->
  tc_pending_data c' = tc_pending_data c -> (forall s, tc_session c' = Some s -> new_session s) ->
  (forall co s, tc_connect_result c' = Some co -> Ok s ∈ mp_items (co_result co) -> new_session s) ->
  tls_client_ok given before l c'.
Proof.
  intros [Ks Kf Kg Kc] Hw Hn Hi Hp Hs Hc. split; try done.
  - intros s (-> & _)%Hs. exists l. by rewrite app_nil_r.
  - by intros s (_ & _ & ?)%Hs.
  - intros Hfa. destruct (Kg Hfa) as [Hpe _]. rewrite Hi, Hp. split; [done|].
    exists []. split; [by apply Hw|]. by intros s (_ & -> & _)%Hs.
Qed.

(** The frame after a step that may only have changed the connection. *)
Lemma tc_flow_connect l f f' :
  tc_flow l f -> waits given before (fr_self f) -> tc_session (fr_self f) = None -> tc_inn (fr_self f') = tc_inn (fr_self f) ->
  tc_pending_data (fr_self f') = tc_pending_data (fr_self f) -> get tc_l_box (fr_self f') = get tc_l_box (fr_self f) ->
  (forall s, tc_session (fr_self f') = Some s -> new_session s) ->
  (forall co s, tc_connect_result (fr_self f') = Some co -> Ok s ∈ mp_items (co_result co) -> new_session s) ->
  tc_flow l f' /\ waits given before (fr_self f').
Proof.
  intros [Hfl Hok] Hw H1 H2 H3 H4 H5 H6. split; [split; [by rewrite H4|by apply (tls_client_ok_connect l (fr_self f))]|].
  intros Hfa _. rewrite H2. by apply Hw.
Qed.

Lemma wp_start_connect l f (Q : unit -> frame TLSClientComponent -> Prop) (E : exit -> frame TLSClientComponent -> Prop) :
  tc_flow l f -> waits given before (fr_self f) -> tc_box_orderly f ->
  (forall f', tc_flow l f' -> waits given before (fr_self f') -> tc_box_orderly f' -> Q tt f') ->
  (forall f', tc_flow l f' /\ waits given before (fr_self f') -> E (Return NoWork) f') -> (forall f', E Unwind f') ->
  wp start_connect Q E f.
Proof.
  intros Hfl Hw Hor HQ HE HU. unfold start_connect. wp_run.
  destruct (is_none (tc_session (fr_self f)) && is_none (tc_connect_result (fr_self f))) eqn:Hn; wp_run; [|by apply HQ].
  apply andb_true_iff in Hn as [Hs Hco]. destruct (tc_session (fr_self f)) eqn:Hs'; [done|]. clear Hs.
  destruct (tc_connect_result (fr_self f)) eqn:Hco'; [done|].
  apply wp_pop; simpl; [intros _ r _|intros m rest r _ _]; wp_run.
  - apply HE. apply (tc_flow_connect l f); simpl; try done; intros; congruence.
  - destruct (as_text m) as [url|]; wp_run; [|apply HU].
    match goal with |- Q _ ?g => destruct (tc_flow_connect l f g) as [H1 H2]; simpl; try done; [intros; congruence| |by apply HQ] end.
    by intros ? ? [= <-] ?%elem_of_nil.
Qed.

Lemma wp_check_connect l f (Q : unit -> frame TLSClientComponent -> Prop) (E : exit -> frame TLSClientComponent -> Prop) :
  tc_flow l f -> waits given before (fr_self f) -> tc_box_orderly f ->
  (forall f', tc_flow l f' -> tc_conn f' -> tc_box_orderly f' -> Q tt f') ->
  (forall f', tc_flow l f' /\ waits given before (fr_self f') -> E (Return NoWork) f') -> wp check_connect Q E f.
Proof.
  intros Hfl Hw Hor HQ HE. unfold check_connect. wp_run.
  destruct (tc_session (fr_self f)) as [s|] eqn:Hs; wp_run.
  { apply HQ; [done| |done]. intros _. rewrite Hs. by eexists. }
  destruct (tc_connect_result (fr_self f)) as [co|] eqn:Hco; wp_run; [|by apply HE].
  assert (forall s, Ok s ∈ mp_items (co_result co) -> new_session s) as Hnew.
  { intros s Hin. destruct Hfl as [_ [_ _ _ Hc]]. by apply (Hc co). }
  unfold mpsc_try_recv. destruct (mp_items (co_result co)) as [|[s|e] rest] eqn:Hch.
  - destruct (mp_tx_alive (co_result co)); wp_run; apply HE; apply (tc_flow_connect l f); simpl; try done; try (intros; congruence).
    intros ? s [= <-]. simpl. rewrite Hch. by apply Hnew.
  - wp_run. apply HQ; [|intros _; by eexists|done]. apply (tc_flow_connect l f); simpl; try done.
    intros ? [= <-]. apply Hnew. by left.
  - wp_run. apply HE. apply (tc_flow_connect l f); simpl; try done. intros; congruence.
Qed.

Lemma tls_client_called clock l c ctx f r :
  got ++ box_items (get tc_l_box c) = map from_bytes l -> tls_client_ok given before l c -> waits given before c ->
  call (tls_client_process clock) c ctx = Some (f, Some r) -> exists l', tc_flow l' f.
Proof.
  intros Hfl Hok Hwa Hcall. assert (exists f r, call (tls_client_process clock) c ctx = Some (f, r) /\
    (is_Some r -> exists l', tc_flow l' f)) as (f' & r' & Hcall' & Hd);
    [|rewrite Hcall in Hcall'; injection Hcall' as <- <-; by apply Hd].
  clear Hcall f r. apply wp_call. unfold tls_client_process. apply wp_bind, wp_zoom, wp_flush_orderly; cbn [fr_self fr_ctx].
  intros [bo bp] ctx1 w es Hb Hor. match goal with |- wp _ _ _ ?g => set (f1 := g) end.
  assert (tc_flow l f1) as Hfl1.
  { split; [|destruct Hok; by split]. change (got ++ box_items (mk_Outbox bo bp) = map from_bytes l). by rewrite Hb. }
  assert (tc_box_orderly f1) as Hor1 by exact Hor. assert (waits given before (fr_self f1)) as Hwa1 by exact Hwa.
  clearbody f1. clear bo bp ctx1 w es Hb Hor Hfl Hok Hwa.
  apply wp_bind, (wp_start_connect l); [done..| |intros f' [H _] _; by exists l|by intros f' []].
  clear f1 Hfl1 Hor1 Hwa1. intros f Hfl Hwa Hor. apply wp_bind, (wp_check_connect l); [done..| |intros f' [H _] _; by exists l].
  clear f Hfl Hor Hwa. intros f Hfl Hco Hor. apply wp_bind, wp_zoom, wp_poll; cbn [fr_self].
  2: { intros _ sg _ _. exists l. destruct Hfl as [? []]. split; [done|by split]. }
  intros _ sg _. match goal with |- wp _ _ _ ?g => set (f1 := g) end.
  assert (tc_flow l f1) as Hfl1 by (destruct Hfl as [? []]; split; [done|by split]).
  assert (tc_conn f1) as Hco1 by exact Hco. assert (tc_box_orderly f1) as Hor1 by exact Hor.
  clearbody f1. clear f Hfl Hco Hor.
  apply wp_bind, (wp_send_pending_data l); [done..|]. clear f1 Hfl1 Hco1 Hor1. intros f Hfl Hco Hor.
  apply wp_bind, (wp_send_data l); [done..|]. clear f Hfl Hco Hor. intros f Hfl Hor.
  apply wp_bind, (wp_receive_data l); [done..|]. clear l f Hfl Hor. intros l f Hfl Hor.
  apply wp_bind, wp_is_abandoned. wp_run. destruct (_ && _); unfold connected_result; wp_run; [intros _; by exists l|].
  destruct (_ <? _)%N; wp_run; [intros _; by exists l|]. apply wp_wake_poll. wp_run. intros _. by exists l.
Qed.
End call.

(** Without a session, and as long as no connection has been made, nothing is
    taken from IN. *)
Definition unanswered c : Prop := forall co, tc_connect_result c = Some co -> mp_items (co_result co) = [].
Lemma tls_client_takes_nothing clock c ctx f r :
  tc_session c = None -> unanswered c -> call (tls_client_process clock) c ctx = Some (f, Some r) ->
  ring_items (tc_inn (fr_self f)) = ring_items (tc_inn c).
Proof.
  intros Hs Hu Hcall. assert (exists f r, call (tls_client_process clock) c ctx = Some (f, r) /\
    (is_Some r -> tc_inn (fr_self f) = tc_inn c)) as (f' & r' & Hcall' & Hd);
    [|rewrite Hcall in Hcall'; injection Hcall' as <- <-; by rewrite Hd].
  clear Hcall f r. apply wp_call. unfold tls_client_process. apply wp_bind, wp_zoom, wp_flush_orderly; cbn [fr_self fr_ctx].
  intros [bo bp] ctx1 w es _ _. match goal with |- wp _ _ _ ?g => set (f := g) end.
  assert (tc_session (fr_self f) = None /\ unanswered (fr_self f) /\ tc_inn (fr_self f) = tc_inn c) as (Hs1 & Hu1 & Hi1) by done.
  clearbody f. clear Hs Hu bo bp ctx1 w es. unfold start_connect. wp_run. rewrite Hs1. simpl.
  assert (forall f, tc_session (fr_self f) = None /\ unanswered (fr_self f) /\ tc_inn (fr_self f) = tc_inn c ->
    wp check_connect (fun _ _ => False) (fun e f => e = Return NoWork /\ tc_inn (fr_self f) = tc_inn c) f) as Hcheck.
  { clear. intros f (Hs & Hu & Hi). unfold check_connect. wp_run. rewrite Hs. wp_run.
    destruct (tc_connect_result (fr_self f)) as [co|] eqn:Hco; wp_run; [|done]. unfold mpsc_try_recv.
    rewrite (Hu co Hco). destruct (mp_tx_alive (co_result co)); by wp_run. }
  assert (forall f (p : unit -> proc TLSClientComponent ProcessResult) Q (E : exit -> frame TLSClientComponent -> Prop),
    tc_session (fr_self f) = None /\ unanswered (fr_self f) /\ tc_inn (fr_self f) = tc_inn c ->
    (forall f, tc_inn (fr_self f) = tc_inn c -> E (Return NoWork) f) -> wp (check_connect ≫= p) Q E f) as Hrest.
  { intros f1 p Q E Hf1 HE. apply wp_bind. eapply wp_conseq; [by apply Hcheck|done|]. intros e f' [-> Hi]. by apply HE. }
  destruct (tc_connect_result (fr_self f)) as [co|] eqn:Hco; simpl; [apply wp_ret, Hrest; [done|by intros f' Hf' _]|]. wp_run.
  apply wp_pop; simpl; [intros _ r _; wp_run; by intros _|intros m rest r _ _]. wp_run. destruct (as_text m) as [url|]; [|wp_run; by intros []].
  apply wp_write, Hrest; [|by intros f' Hf' _]. simpl. split_and!; [done| |done]. by intros ? [= <-].
Qed.

(** ** Runs

    A client, the packets that IN has been sent, those of them that had been
    taken after the last step that left it without a session, and what its
    consumer has received. *)
Record TlsRun : Type := mk_TlsRun {
  tr_client : TLSClientComponent;
  tr_given : list FbpMessage;
  tr_before : list FbpMessage;
  tr_got : list FbpMessage
}.

(** What has been taken is what is no longer at the inport. *)
Definition taken_before (given before : list FbpMessage) (c : TLSClientComponent) : list FbpMessage :=
  match tc_session c with
  | Some _ => before
  | None => take (length given - length (ring_items (tc_inn c))) given
  end.

(** The client is called; the network makes something of the connection; the
    thread answers; packets come and go. *)
Inductive tls_run_step : TlsRun -> TlsRun -> Prop :=
| tls_called_ clock c given before got ctx f r :
    call (tls_client_process clock) c ctx = Some (f, Some r) ->
    tls_run_step (mk_TlsRun c given before got) (mk_TlsRun (fr_self f) given (taken_before given before (fr_self f)) got)
| tls_network c given before got s s' :
    tc_session c = Some s -> tl_seen s' = tl_seen s -> tl_sent s' = tl_sent s -> faultless s' ->
    tls_run_step (mk_TlsRun c given before got) (mk_TlsRun (set tc_l_session (Some s') c) given before got)
| tls_answered c given before got co a :
    tc_connect_result c = Some co -> mp_tx_alive (co_result co) = true -> (forall s, a = Ok s -> new_session s) ->
    tls_run_step (mk_TlsRun c given before got)
      (mk_TlsRun (set tc_l_connect_result (Some (mk_TlsConnect (co_url co)
         (drop_sender (mpsc_try_send a (co_result co)).2))) c) given before got)
| tls_fed c given before got m r :
    ring_push m (tc_inn c) = (Ok tt, r) ->
    tls_run_step (mk_TlsRun c given before got) (mk_TlsRun (set tc_l_inn r c) (given ++ [m]) before got)
| tls_closed c given before got :
    tls_run_step (mk_TlsRun c given before got) (mk_TlsRun (set tc_l_inn (ring_drop_producer (tc_inn c)) c) given before got)
| tls_configured c given before got m r :
    ring_push m (tc_conf c) = (Ok tt, r) -> tls_run_step (mk_TlsRun c given before got) (mk_TlsRun (set tc_l_conf r c) given before got)
| tls_signalled c given before got m sin :
    try_send m (tc_signals_in c) = (Ok tt, sin) ->
    tls_run_step (mk_TlsRun c given before got) (mk_TlsRun (set tc_l_signals (mk_Signals sin (tc_signals_out c)) c) given before got)
| tls_taken c given before got m r :
    ring_pop (pes_sink (tc_out c)) = (Some m, r) ->
    tls_run_step (mk_TlsRun c given before got)
      (mk_TlsRun (set tc_l_box (mk_Outbox (set_sink r (tc_out c)) (tc_pending_received c)) c) given before (got ++ [m])).

(** A client as [new] makes it. *)
Definition tls_untouched (s : TlsRun) : Prop :=
  let c := tr_client s in
  tc_session c = None /\ tc_connect_result c = None /\ tc_pending_data c = [] /\ ring_items (tc_inn c) = [] /\
  box_items (get tc_l_box c) = [] /\ tr_given s = [] /\ tr_before s = [] /\ tr_got s = [].

Definition tls_run_inv (s : TlsRun) : Prop :=
  exists l, tr_got s ++ box_items (get tc_l_box (tr_client s)) = map from_bytes l /\
    tls_client_ok (tr_given s) (tr_before s) l (tr_client s) /\ waits (tr_given s) (tr_before s) (tr_client s).

(** The packets are counted anew when there is no session. *)
Lemma taken_before_ok given before l c :
  tls_client_ok given before l c ->
  tls_client_ok given (taken_before given before c) l c /\ waits given (taken_before given before c) c.
Proof.
  intros [Ks Kf Kg Kc]. unfold taken_before, waits. destruct (tc_session c) as [s|] eqn:Hs.
  { split; [split; rewrite ?Hs; done|done]. }
  assert (faulty = false -> given = take (length given - length (ring_items (tc_inn c))) given ++ ring_items (tc_inn c)) as Hg.
  { intros (_ & now_ & -> & _)%Kg. rewrite app_assoc, length_app, Nat.add_sub, take_app_length. done. }
  split; [|by intros Hfa _; apply Hg]. split; rewrite ?Hs; try done.
  intros Hfa. split; [by apply Kg|]. exists []. split; [by apply Hg|done].
Qed.

Lemma tls_run_step_inv s s' : tls_run_inv s -> tls_run_step s s' -> tls_run_inv s'.
Proof.
  intros (l & Hfl & Hok & Hw) Hs. destruct Hs as [clock c given before got ctx f r Hcall|c given before got s s' Hs H1 H2 H3|
    c given before got co a Hco Htx Ha|c given before got m r Hp|c given before got|c given before got m r Hp|
    c given before got m sin Hs|c given before got m r Hpop];
    simpl in Hfl, Hok, Hw; pose proof Hok as [Ks Kf Kg Kc].
  - destruct (tls_client_called given before got clock l c ctx f r Hfl Hok Hw Hcall) as (l' & Hfl' & Hok'). exists l'.
    split; [done|]. by apply taken_before_ok.
  - exists l. split; [done|]. split; [|intros ?; simpl; congruence]. split; simpl; try done.
    + intros ? [= <-]. rewrite H1. by apply Ks.
    + by intros ? [= <-].
    + intros Hfa. destruct (Kg Hfa) as [Hpe (now_ & Hg & Hst)]. split; [done|]. exists now_.
      split; [done|]. intros ? [= <-]. rewrite H2. by apply Hst.
  - exists l. split; [done|]. split; [|exact Hw]. split; simpl; try done. intros ? s [= <-]. simpl. unfold mpsc_try_send.
    destruct (mp_rx_alive (co_result co)), (mpsc_full (co_result co)); simpl; try by apply Kc.
    intros [Hs|Hs%list_elem_of_singleton]%elem_of_app; [by apply (Kc co)|by apply Ha].
  - exists l. split; [done|]. apply ring_push_ok in Hp. split.
    + split; simpl; try done. intros Hfa. destruct (Kg Hfa) as [Hpe (now_ & -> & Hst)]. split; [done|]. exists now_.
      by rewrite Hp, <- !app_assoc.
    + intros Hfa Hn. simpl. by rewrite Hp, app_assoc, <- (Hw Hfa Hn).
  - exists l. split; [done|]. split; [|intros ?; simpl; rewrite ring_drop_producer_items; by apply Hw].
    split; simpl; try done. by rewrite ring_drop_producer_items.
  - exists l. split; [done|]. split; [by split|exact Hw].
  - exists l. split; [done|]. split; [by split|exact Hw].
  - exists l. split; [|split; [by split|exact Hw]]. simpl. rewrite <- Hfl. unfold box_items, sink_items. simpl.
    pose proof (ring_pop_items (pes_sink (tc_out c))) as Hi. pose proof (ring_pop_res (pes_sink (tc_out c))) as Hr.
    rewrite Hpop in Hi, Hr. simpl in Hi, Hr. rewrite Hi. destruct (ring_items (pes_sink (tc_out c))); [done|].
    injection Hr as <-. by rewrite <- app_assoc.
Qed.

End tls_client.

(** ** Concrete runs *)
#[local] Existing Instance list_rtrb.

Definition demo_session (reads : list TlsRead) (ios : list (result unit ErrorKind)) : TlsSession :=
  mk_TlsSession reads [] (Err WouldBlock) [] ios [] [].
Definition demo_tls_client (inn : list FbpMessage) (session : option TlsSession) (pending : list FbpMessage) :
    TLSClientComponent :=
  mk_TLSClientComponent (demo_ring false [Text "tls://localhost:8443"]) (demo_ring false inn) (demo_out 8) demo_channel
    demo_channel session [] pending None None.
Definition demo_tls_clock (n : nat) : Instant := N.of_nat n.

(** The client has connected, sent a packet and received some data. *)
Lemma demo_tls_run :
  exists s, rtc (tls_run_step false) (mk_TlsRun (demo_tls_client [] None []) [] [] []) s /\
    tr_given s = [Bytes [x68; x69]] /\ sink_items (tc_out (tr_client s)) = [Bytes [x6f; x6b]] /\ tr_before s = [] /\
    (exists ss, tc_session (tr_client s) = Some ss /\ tl_sent ss = [x68; x69]).
Proof.
  eexists. split.
  - eapply rtc_l; [eapply (tls_called_ _ demo_tls_clock _ _ _ _ (demo_context Normal 8)); vm_compute; reflexivity|].
    eapply rtc_l; [eapply (tls_answered _ _ _ _ _ _ (Ok (demo_session [TlsPackets [x6f; x6b]] []))); [reflexivity|reflexivity|]|].
    { intros s [= <-]. split_and!; [done|done|by intros _]. }
    eapply rtc_l; [eapply (tls_fed _ _ _ _ _ (Bytes [x68; x69])); vm_compute; reflexivity|].
    eapply rtc_l; [eapply (tls_called_ _ demo_tls_clock _ _ _ _ (demo_context Normal 8)); vm_compute; reflexivity|].
    apply rtc_refl.
  - split_and!; [vm_compute; reflexivity..|]. eexists. split; vm_compute; reflexivity.
Defined.


(** A packet whose sending would block has been written all the same, and is
    written again. *)
Definition tls_calls (budgets : list N) (c : TLSClientComponent) : option TLSClientComponent :=
  foldl (fun c b => c ← c; p ← call (tls_client_process demo_tls_clock) c (demo_context Normal b);
                    match p with (f, Some _) => Some (fr_self f) | _ => None end) (Some c) budgets.
Example tls_packet_repeated :
  (tl_sent <$> (tls_calls [8; 8]%N (demo_tls_client [Bytes [x61]] (Some (demo_session [] [Err WouldBlock])) []) ≫= tc_session))
  = Some [x61; x61].
Proof. vm_compute. reflexivity. Qed.

(** A call whose budget goes into what has been received finishes although a
    packet of a producer that is gone waits at the inport. *)
Definition last_packet : TLSClientComponent :=
  set tc_l_inn (demo_ring true [Bytes [x61]]) (demo_tls_client [] (Some (demo_session [] [])) [Bytes [x62]]).
Example tls_client_strands :
  match call (tls_client_process demo_tls_clock) last_packet (demo_context Normal 1) with
  | Some (f, r) => r = Some Finished /\ ring_items (tc_inn (fr_self f)) = [Bytes [x61]]
  | None => False
  end.
Proof. vm_compute. split; reflexivity. Qed.
