(* ===== verification/Codecs.v ===== *)
(** The components that compress and decompress: [XzCompress], [XzDecompress],
    [BrotliCompress] and [BrotliDecompress].

    The crates xz and brotli are arguments. *)
From S2P Require Import Prelude Api Scheduler Process Pipes.
From Stdlib Require Strings.String.
From Stdlib Require Import NArith ZArith Lia Strings.Byte.
From stdpp Require Import base list strings gmap.
Local Open Scope string_scope.
Local Open Scope list_scope.
Local Open Scope flowd_scope.

(** * Encoders and decoders

    One is made for every packet and used for one [write], which takes a
    beginning of what it is given, and for [finish] (xz), or [flush] and
    dropping it (brotli): what is then in the buffer behind it.  [None]: an
    error, which unwinds. *)
Record Codec : Type := mk_Codec {
  cd_write : list byte -> option nat;
  cd_finish : list byte -> option (list byte)
}.

Definition code_bytes (codec : Codec) (bs : list byte) : option (list byte) :=
  n ← cd_write codec bs; cd_finish codec (take n bs).
Definition code (codec : Codec) (ip : FbpMessage) : option FbpMessage :=
  from_bytes <$> code_bytes codec (packet_bytes ip).

Section codecs.
Context `{R : Rtrb}.
Variable codec : Codec.

(** * XzCompress, XzDecompress *)
Record XzCompressComponent : Type := mk_XzCompressComponent {
  xc_inn : ring;
  xc_out : ProcessEdgeSink;
  xc_signals_in : sync_channel;
  xc_signals_out : sync_channel;
  xc_pending_packets : list FbpMessage
}.
Definition new_xz_compress `{MultiMapLib ring} `{MultiMapLib ProcessEdgeSink}
    (inports : multimap ring) (outports : multimap ProcessEdgeSink)
    (signals_in signals_out : sync_channel) : outcome XzCompressComponent :=
  let* (inn, inports) := take_port "IN" inports in
  let* (out, outports) := take_port "OUT" outports in
  Done (mk_XzCompressComponent inn out signals_in signals_out []).
Definition xc_pipe : lens XzCompressComponent Pipe := mk_lens
  (fun c => mk_Pipe (xc_inn c) (mk_Signals (xc_signals_in c) (xc_signals_out c))
              (mk_Outbox (xc_out c) (xc_pending_packets c)))
  (fun p _ => mk_XzCompressComponent (p_in p) (ob_out (p_box p)) (sig_in (p_sig p)) (sig_out (p_sig p))
                (ob_pending (p_box p))).
Definition xz_compress_process : proc XzCompressComponent ProcessResult :=
  zoom xc_pipe (keeping_pipe true message_as_utf8 (code codec)).

Record XzDecompressComponent : Type := mk_XzDecompressComponent {
  xd_inn : ring;
  xd_out : ProcessEdgeSink;
  xd_signals_in : sync_channel;
  xd_signals_out : sync_channel;
  xd_pending_packets : list FbpMessage
}.
Definition new_xz_decompress `{MultiMapLib ring} `{MultiMapLib ProcessEdgeSink}
    (inports : multimap ring) (outports : multimap ProcessEdgeSink)
    (signals_in signals_out : sync_channel) : outcome XzDecompressComponent :=
  let* (inn, inports) := take_port "IN" inports in
  let* (out, outports) := take_port "OUT" outports in
  Done (mk_XzDecompressComponent inn out signals_in signals_out []).
Definition xd_pipe : lens XzDecompressComponent Pipe := mk_lens
  (fun c => mk_Pipe (xd_inn c) (mk_Signals (xd_signals_in c) (xd_signals_out c))
              (mk_Outbox (xd_out c) (xd_pending_packets c)))
  (fun p _ => mk_XzDecompressComponent (p_in p) (ob_out (p_box p)) (sig_in (p_sig p)) (sig_out (p_sig p))
                (ob_pending (p_box p))).
Definition xz_decompress_process : proc XzDecompressComponent ProcessResult :=
  zoom xd_pipe (keeping_pipe true message_as_utf8 (code codec)).

(** * BrotliCompress, BrotliDecompress: they do not wait for what is pending *)
Record BrotliCompressComponent : Type := mk_BrotliCompressComponent {
  bc_inn : ring;
  bc_out : ProcessEdgeSink;
  bc_signals_in : sync_channel;
  bc_signals_out : sync_channel;
  bc_pending_packets : list FbpMessage
}.
Definition new_brotli_compress `{MultiMapLib ring} `{MultiMapLib ProcessEdgeSink}
    (inports : multimap ring) (outports : multimap ProcessEdgeSink)
    (signals_in signals_out : sync_channel) : outcome BrotliCompressComponent :=
  let* (inn, inports) := take_port "IN" inports in
  let* (out, outports) := take_port "OUT" outports in
  Done (mk_BrotliCompressComponent inn out signals_in signals_out []).
Definition bc_pipe : lens BrotliCompressComponent Pipe := mk_lens
  (fun c => mk_Pipe (bc_inn c) (mk_Signals (bc_signals_in c) (bc_signals_out c))
              (mk_Outbox (bc_out c) (bc_pending_packets c)))
  (fun p _ => mk_BrotliCompressComponent (p_in p) (ob_out (p_box p)) (sig_in (p_sig p)) (sig_out (p_sig p))
                (ob_pending (p_box p))).
Definition brotli_compress_process : proc BrotliCompressComponent ProcessResult :=
  zoom bc_pipe (keeping_pipe false message_as_utf8 (code codec)).

Record BrotliDecompressComponent : Type := mk_BrotliDecompressComponent {
  bd_inn : ring;
  bd_out : ProcessEdgeSink;
  bd_signals_in : sync_channel;
  bd_signals_out : sync_channel;
  bd_pending_packets : list FbpMessage
}.
Definition new_brotli_decompress `{MultiMapLib ring} `{MultiMapLib ProcessEdgeSink}
    (inports : multimap ring) (outports : multimap ProcessEdgeSink)
    (signals_in signals_out : sync_channel) : outcome BrotliDecompressComponent :=
  let* (inn, inports) := take_port "IN" inports in
  let* (out, outports) := take_port "OUT" outports in
  Done (mk_BrotliDecompressComponent inn out signals_in signals_out []).
Definition bd_pipe : lens BrotliDecompressComponent Pipe := mk_lens
  (fun c => mk_Pipe (bd_inn c) (mk_Signals (bd_signals_in c) (bd_signals_out c))
              (mk_Outbox (bd_out c) (bd_pending_packets c)))
  (fun p _ => mk_BrotliDecompressComponent (p_in p) (ob_out (p_box p)) (sig_in (p_sig p)) (sig_out (p_sig p))
                (ob_pending (p_box p))).
Definition brotli_decompress_process : proc BrotliDecompressComponent ProcessResult :=
  zoom bd_pipe (keeping_pipe false message_as_utf8 (code codec)).

#[export] Instance keeps_keeping_pipe patient decode transform : Keeps (keeping_pipe patient decode transform).
Proof. unfold keeping_pipe, flush, buffering. apply _. Qed.
#[export] Instance keeps_xz_compress : Keeps xz_compress_process := _.
#[export] Instance keeps_xz_decompress : Keeps xz_decompress_process := _.
#[export] Instance keeps_brotli_compress : Keeps brotli_compress_process := _.
#[export] Instance keeps_brotli_decompress : Keeps brotli_decompress_process := _.

Definition xz_compress_component := component_of xz_compress_process.
Definition xz_decompress_component := component_of xz_decompress_process.
Definition brotli_compress_component := component_of brotli_compress_process.
Definition brotli_decompress_component := component_of brotli_decompress_process.
End codecs.
