(* ===== verification/CodecsTheorems.v ===== *)
(** What is proved about the components that compress and decompress: behind
    one another they restore what went in. *)
From S2P Require Import Prelude Api Scheduler Process Pipes PipesTheorems Chain Conveyors ChainTheorems Codecs.
From Stdlib Require Strings.String.
From Stdlib Require Import NArith ZArith Lia Strings.Byte.
From stdpp Require Import base list strings gmap.
Local Open Scope string_scope.
Local Open Scope list_scope.
Local Open Scope flowd_scope.

Section codecs.
Context `{R : Rtrb}.
Variables enc dec : Codec.

(** What the formats promise: decoding what the encoder has finished gives back
    the bytes that the encoder was written. *)
Hypothesis dec_restores : forall bs z, cd_finish enc bs = Some z -> cd_finish dec z = Some bs.

(** How much of a packet the one [write] of the encoder takes: its result is
    thrown away, and the rest of the packet with it. *)
Definition accepted (m : FbpMessage) : nat := default 0%nat (cd_write enc (packet_bytes m)).

(** What a packet is after both. *)
Definition restored (m : FbpMessage) : FbpMessage := from_bytes (take (accepted m) (packet_bytes m)).

(** Neither codec reports an error for the packet, and the [write] of the
    decoder takes all of the compressed bytes. *)
Definition codes (m : FbpMessage) : Prop :=
  exists n z, cd_write enc (packet_bytes m) = Some n /\ cd_finish enc (take n (packet_bytes m)) = Some z /\
    exists k, cd_write dec z = Some k /\ (length z <= k)%nat.

Lemma code_code m :
  codes m -> exists m', code enc m = Some m' /\ code dec m' = Some (restored m).
Proof.
  intros (n & z & Hn & Hz & k & Hk & Hlen). unfold code, code_bytes, restored, accepted. rewrite Hn. simpl.
  rewrite Hz. simpl. eexists. split; [done|]. unfold packet_bytes at 1 2. simpl. rewrite Hk. simpl.
  by rewrite take_ge, (dec_restores _ _ Hz) by done.
Qed.

(** A compressing stage and a decompressing one. *)
Definition codec_stages (patient1 patient2 : bool) : list StageKind :=
  [Keeping patient1 message_as_utf8 (code enc); Keeping patient2 message_as_utf8 (code dec)].

Lemma codec_transforms p1 p2 ss : map sg_kind ss = codec_stages p1 p2 -> map sg_transform ss = [code enc; code dec].
Proof.
  intros H. change sg_transform with (fun s => stage_transform (sg_kind s)).
  by rewrite <- (map_map sg_kind stage_transform), H.
Qed.

Lemma codec_through m :
  codes m -> through [code enc; code dec] m = restored m /\ passes [code enc; code dec] m.
Proof.
  intros (m' & H1 & H2)%code_code. unfold through. simpl. rewrite H1. simpl. rewrite H2. split; [done|].
  exists m'. split; [done|]. by exists (restored m).
Qed.

(** C14: a compressing component and a decompressing one behind it (xz or brotli,
    however they are called, whatever the sizes of their rings) deliver, of
    every packet that was sent, once and in order, exactly the bytes that the
    one [write] of the encoder has taken, which is the whole packet if it took
    all, provided that the codecs report no error and the [write] of the
    decoder takes what it is given; and as long as no end is gone and nothing is
    told to stop, they can deliver all of it, whatever positive budgets they
    are given.  (Of a text nothing is left: it has no bytes.) *)
Theorem codec_chain_roundtrip p1 p2 c0 c :
  untouched c0 -> rtc chain_step c0 c -> map sg_kind (ch_stages c) = codec_stages p1 p2 ->
  (forall m, m ∈ ch_fed c -> codes m) ->
  (exists later, map restored (ch_fed c) = ch_got c ++ later) /\
  (forall m, m ∈ ch_fed c -> restored m = from_bytes (packet_bytes m) <-> (length (packet_bytes m) <= accepted m)%nat) /\
  (forall ctxs, (forall n, (0 < remaining_budget (ctxs n))%N) ->
   Forall (fun s => sg_finished s = false /\ no_stop message_as_utf8 (sg_signals s)) (ch_stages c) ->
   Forall (fun r => ring_is_abandoned r = false) (ch_rings c) ->
   exists n c', chain_turns n ctxs c c' /\ ch_fed c' = ch_fed c /\ ch_got c' = map restored (ch_fed c)).
Proof.
  intros H0 Hr Hk Hrec. pose proof (reachable_conserving c0 c H0 Hr) as Hc.
  pose proof (codec_transforms p1 p2 _ Hk) as Ht.
  assert (map (through (map sg_transform (ch_stages c))) (ch_fed c) = map restored (ch_fed c)) as Hthrough.
  { rewrite Ht. apply map_ext_in. intros m Hm%list_elem_of_In. by apply codec_through, Hrec. }
  split; [exists (flight (ch_rings c) (ch_stages c)); by rewrite (cv_packets c Hc)|]. split.
  { intros m _. unfold restored, from_bytes. split; [|by intros; rewrite take_ge].
    intros [= Htake]. apply (f_equal length) in Htake. rewrite length_take in Htake. lia. }
  intros ctxs Hb Hst Hri. destruct (open_stage_drains ctxs c Hb Hc) as (n & c' & _ & Hs & Hf & _ & Hg).
  - split; [|rewrite Ht; apply Forall_forall; intros m Hm; by apply codec_through, Hrec|done].
    clear -Hst Hk. destruct (ch_stages c) as [|s1 [|s2 []]]; try done. injection Hk as H1 H2.
    inversion Hst as [|? ? Hs1 Hst']; subst. inversion Hst' as [|? ? Hs2 _]; subst.
    by repeat constructor; rewrite ?H1, ?H2; simpl; apply Hs1 || apply Hs2.
  - exists n, c'. split_and!; [done|done|by rewrite Hg].
Qed.
End codecs.

(** ** Concrete runs *)
#[local] Existing Instance list_rtrb.

(** A format that puts a mark in front, of which a [write] takes two bytes at
    most, and a decoder that takes the mark off. *)
Definition demo_enc : Codec := mk_Codec (fun bs => Some (Nat.min 2 (length bs))) (fun bs => Some (x21 :: bs)).
Definition demo_dec : Codec := mk_Codec (fun bs => Some (length bs))
  (fun bs => match bs with x21 :: bs => Some bs | _ => None end).
Lemma demo_restores bs z : cd_finish demo_enc bs = Some z -> cd_finish demo_dec z = Some bs.
Proof. by intros [= <-]. Qed.
Lemma demo_codes m : codes demo_enc demo_dec m.
Proof. eexists _, _. split; [reflexivity|]. split; [reflexivity|]. eexists. by split. Qed.

Definition demo_codec_stage (k : StageKind) : Stage :=
  mk_Stage k (mk_Signals demo_channel demo_channel) (demo_out 1) [] false.
Definition demo_codec_chain : Chain :=
  mk_Chain [ring_new 2; ring_new 1; ring_new 1] (map demo_codec_stage (codec_stages demo_enc demo_dec true false)) [] [].

(** Two packets have been sent, compressed, and one of them decompressed. *)
Lemma demo_codec_run :
  exists c, rtc chain_step demo_codec_chain c /\ ch_fed c = [Bytes [x61]; Bytes [x62; x63; x64]] /\ ch_got c = [Bytes [x61]] /\
    map sg_kind (ch_stages c) = codec_stages demo_enc demo_dec true false /\
    Forall (fun s => sg_finished s = false /\ no_stop message_as_utf8 (sg_signals s)) (ch_stages c) /\
    Forall (fun r => ring_is_abandoned r = false) (ch_rings c).
Proof.
  eexists. split.
  - eapply rtc_l; [by eapply (chain_feed demo_codec_chain _ (Bytes [x61]))|].
    eapply rtc_l; [by eapply (chain_feed _ _ (Bytes [x62; x63; x64]))|].
    eapply rtc_l; [eapply (chain_run 0%nat (demo_context Normal 8)); [reflexivity..|vm_compute; reflexivity]|].
    eapply rtc_l; [eapply (chain_run 1%nat (demo_context Normal 8)); [reflexivity..|vm_compute; reflexivity]|].
    eapply rtc_l; [eapply chain_take; [reflexivity|vm_compute; reflexivity]|]. apply rtc_refl.
  - split_and!; [reflexivity..| |]; repeat constructor; simpl; set_solver.
Defined.

Lemma codec_chain_roundtrip_witness :
  exists c n c', rtc chain_step demo_codec_chain c /\ ch_got c = [Bytes [x61]] /\
    chain_turns n (fun _ => demo_context Normal 1) c c' /\ ch_got c' = [Bytes [x61]; Bytes [x62; x63]].
Proof.
  destruct demo_codec_run as (c & Hr & Hf & Hg & Hk & Hst & Hri).
  destruct (codec_chain_roundtrip demo_enc demo_dec demo_restores true false demo_codec_chain c)
    as (_ & _ & Hd).
  - split; try done; repeat constructor.
  - exact Hr.
  - exact Hk.
  - intros m _. apply demo_codes.
  - destruct (Hd (fun _ => demo_context Normal 1) (fun n => eq_refl) Hst Hri) as (n & c' & Hr' & _ & Hg').
    exists c, n, c'. split_and!; [exact Hr|exact Hg|exact Hr'|]. rewrite Hg', Hf. reflexivity.
Defined.

(** A text is compressed as if it were empty. *)
Example codec_text_lost : code demo_enc (Text "hello") = Some (Bytes [x21]).
Proof. reflexivity. Qed.

(** With its producer gone BrotliCompress finishes although a compressed packet
    waits for room; XzCompress does not. *)
Definition full_compress : Pipe :=
  mk_Pipe (demo_ring true [Bytes [x61]]) (mk_Signals demo_channel demo_channel) (mk_Outbox (demo_out 0) []).
Example brotli_finishes_pending :
  match call (brotli_compress_process demo_enc) (set bc_pipe full_compress (mk_BrotliCompressComponent
      (demo_ring true []) (demo_out 0) demo_channel demo_channel [])) (demo_context Normal 8) with
  | Some (f, r) => r = Some Finished /\ bc_pending_packets (fr_self f) = [Bytes [x21; x61]]
  | None => False
  end.
Proof. vm_compute. split; reflexivity. Qed.
Example xz_waits_for_pending :
  match call (xz_compress_process demo_enc) (set xc_pipe full_compress (mk_XzCompressComponent
      (demo_ring true []) (demo_out 0) demo_channel demo_channel [])) (demo_context Normal 8) with
  | Some (f, r) => r = Some (DidWork 1) /\ xc_pending_packets (fr_self f) = [Bytes [x21; x61]]
  | None => False
  end.
Proof. vm_compute. split; reflexivity. Qed.
