(* ===== verification/Filters.v ===== *)
(** The components that apply a function of a third-party crate to packets and
    do not keep what the outport rejects: [Hasher], [LibComponent], [JSONQuery]
    and [HTMLQuery].

    The crates twox_hash, libloading, jaq, serde_json, html and xpath are
    arguments. *)
From S2P Require Import Prelude Api Scheduler Process Pipes Relays.
From Stdlib Require Strings.String.
From Stdlib Require Import NArith ZArith Lia Strings.Byte Strings.Ascii.
From stdpp Require Import base list strings gmap pretty.
Local Open Scope string_scope.
Local Open Scope list_scope.
Local Open Scope flowd_scope.

(** * Hasher *)

Definition hex_digit (d : N) : ascii :=
  Ascii.ascii_of_N (if (d <? 10)%N then 48 + d else 87 + d).
(** [width] digits of a number, the last ones. *)
Fixpoint hex_digits (width : nat) (n : N) : string :=
  match width with
  | O => EmptyString
  | S width => hex_digits width (n / 16) +:+ String (hex_digit (n mod 16)) EmptyString
  end.
(** The format 016x of a number of 64 bits. *)
Definition hex16 (n : N) : string := hex_digits 16 n.

Section hasher.
Context `{R : Rtrb}.
(** The hash of what has been written to a hasher; [seed] is drawn in every
    call. *)
Variable xxhash64 : N -> list byte -> N.
Variable seed : N.

Record HasherComponent : Type := mk_HasherComponent {
  ha_inn : ring;
  ha_out : ProcessEdgeSink;
  ha_signals_in : sync_channel;
  ha_signals_out : sync_channel
}.

Definition new_hasher `{MultiMapLib ring} `{MultiMapLib ProcessEdgeSink}
    (inports : multimap ring) (outports : multimap ProcessEdgeSink)
    (signals_in signals_out : sync_channel) : outcome HasherComponent :=
  let* (inn, inports) := take_port "IN" inports in
  let* (out, outports) := take_port "OUT" outports in
  Done (mk_HasherComponent inn out signals_in signals_out).

Definition ha_signals : lens HasherComponent Signals := mk_lens
  (fun c => mk_Signals (ha_signals_in c) (ha_signals_out c))
  (fun s c => mk_HasherComponent (ha_inn c) (ha_out c) (sig_in s) (sig_out s)).
Definition ha_tube : lens HasherComponent Tube := mk_lens
  (fun c => mk_Tube (ha_inn c) (ha_out c))
  (fun t c => mk_HasherComponent (tb_in t) (tb_out t) (ha_signals_in c) (ha_signals_out c)).

(** The packet for what has been written so far. *)
Definition hash_message (written : list byte) : FbpMessage := from_str (hex16 (xxhash64 seed written)).

(** The loop; the hasher of the call is not reset between the packets. *)
Fixpoint hash_packets (fuel : nat) (written : list byte) : proc Tube unit :=
  match fuel with
  | O => mret tt
  | S fuel =>
      b ← budget;
      if (0 <? b)%N then
        ip ← pop l_tb_in;
        match ip with
        | Some ip =>
            let written := written ++ packet_bytes ip in
            r ← send l_tb_out (hash_message written);
            match r with
            | Ok _ => work 1;; charge 1;; hash_packets fuel written
            | Err _ => mret tt
            end
        | None => mret tt
        end
      else mret tt
  end.

Definition hasher_process : proc HasherComponent ProcessResult :=
  zoom ha_signals (poll message_as_utf8);;
  zoom ha_tube
    (inn ← read l_tb_in;
     hash_packets (S (ring_slots inn)) [];;
     relay_result).

#[export] Instance keeps_hash_packets fuel written : Keeps (hash_packets fuel written).
Proof. revert written. induction fuel as [|fuel IH]; intros written; simpl; apply _. Qed.
#[export] Instance keeps_hasher : Keeps hasher_process.
Proof. unfold hasher_process, relay_result. apply _. Qed.
Definition hasher_component := component_of hasher_process.
End hasher.

(** * LibComponent *)

Section libcomponent.
Context `{R : Rtrb} {Lib : Type}.
(** The library and its function "process", which is given a string that ends
    with a zero byte and answers with a u32. *)
Variable library_new : string -> option Lib.
Variable library_get : Lib -> string -> option (list byte -> N).

Record LibComponent : Type := mk_LibComponent {
  lc_inn : ring;
  lc_out : ProcessEdgeSink;
  lc_signals_in : sync_channel;
  lc_signals_out : sync_channel;
  lc_lib : Lib
}.

Definition new_lib_component `{MultiMapLib ring} `{MultiMapLib ProcessEdgeSink}
    (inports : multimap ring) (outports : multimap ProcessEdgeSink)
    (signals_in signals_out : sync_channel) : outcome LibComponent :=
  let* lib := expect (library_new "wordcounter") in
  let* _func := expect (library_get lib "process") in
  let* (inn, inports) := take_port "IN" inports in
  let* (out, outports) := take_port "OUT" outports in
  Done (mk_LibComponent inn out signals_in signals_out lib).

Definition lc_signals : lens LibComponent Signals := mk_lens
  (fun c => mk_Signals (lc_signals_in c) (lc_signals_out c))
  (fun s c => mk_LibComponent (lc_inn c) (lc_out c) (sig_in s) (sig_out s) (lc_lib c)).
Definition lc_tube : lens LibComponent Tube := mk_lens
  (fun c => mk_Tube (lc_inn c) (lc_out c))
  (fun t c => mk_LibComponent (tb_in t) (tb_out t) (lc_signals_in c) (lc_signals_out c) (lc_lib c)).
Definition lc_l_lib : lens LibComponent Lib := mk_lens lc_lib
  (fun x c => mk_LibComponent (lc_inn c) (lc_out c) (lc_signals_in c) (lc_signals_out c) x).

Definition lib_message (fn_process : list byte -> N) (ip : FbpMessage) : FbpMessage :=
  from_bytes (string_bytes (pretty (fn_process (packet_bytes ip ++ [x00])))).

(** A full outport ends the component. *)
Definition lib_packets (fn_process : option (list byte -> N)) : proc Tube unit :=
  while (fun f => S (ring_slots (tb_in (fr_self f)))) (fun f => (0 <? remaining_budget (fr_ctx f))%N)
    (ip ← pop l_tb_in;
     match ip with
     | Some ip =>
         match fn_process with
         | None => panic
         | Some fn_process =>
             r ← send l_tb_out (lib_message fn_process ip);
             match r with
             | Err _ => return_ Finished
             | Ok _ => work 1;; charge 1
             end
         end
     | None => break
     end).

Definition lib_result : proc Tube ProcessResult :=
  abandoned ← is_abandoned l_tb_in;
  if (abandoned : bool) then return_ Finished
  else
    inn ← read l_tb_in;
    (if (0 <? ring_slots inn)%nat then emit [EffContextReady] else mret tt);;
    w ← work_units; mret (result_of_work w).

Definition lib_component_process : proc LibComponent ProcessResult :=
  zoom lc_signals (poll message_as_utf8);;
  lib ← read lc_l_lib;
  zoom lc_tube (lib_packets (library_get lib "process");; lib_result).

#[export] Instance keeps_lib_component : Keeps lib_component_process.
Proof. unfold lib_component_process, lib_packets, lib_result. apply _. Qed.
Definition lib_component := component_of lib_component_process.
End libcomponent.

(** * JSONQuery and HTMLQuery *)

Section queries.
Context `{R : Rtrb}.

(** The values that a packet yields, each with its text or an error, which is
    only logged.  A rejected value ends the loop over them, and the budget is
    not looked at in it. *)
Fixpoint send_values (vs : list (option (list byte))) : proc Tube unit :=
  match vs with
  | [] => mret tt
  | Some bytes :: vs =>
      r ← send l_tb_out (from_bytes bytes);
      match r with
      | Ok _ => work 1;; charge 1;; send_values vs
      | Err _ => mret tt
      end
  | None :: vs => send_values vs
  end.

(** The loop tests for a used-up budget again after a packet, where its
    condition tests it next. *)
Definition query_packets (values : FbpMessage -> list (option (list byte))) : proc Tube unit :=
  while (fun f => S (ring_slots (tb_in (fr_self f))))
    (fun f => (0 <? remaining_budget (fr_ctx f))%N && negb (ring_is_empty (tb_in (fr_self f))))
    (ip ← pop l_tb_in;
     match ip with
     | Some ip => send_values (values ip)
     | None => break
     end).

#[export] Instance keeps_send_values vs : Keeps (send_values vs).
Proof. induction vs as [|[]]; simpl; apply _. Qed.

Section json.
Context {Json Filter Val : Type}.
(** Parsing and compiling a filter ([None]: errors), its values, of which there
    are finitely many, and their text. *)
Variable compile : string -> option Filter.
Variable from_slice : list byte -> option Json.
Variable run : Filter -> Json -> list (option Val).
Variable display : Val -> list byte.

Record JSONQueryComponent : Type := mk_JSONQueryComponent {
  jq_conf : ring;
  jq_inn : ring;
  jq_out : ProcessEdgeSink;
  jq_signals_in : sync_channel;
  jq_signals_out : sync_channel;
  jq_query : option Filter
}.

Definition new_json_query `{MultiMapLib ring} `{MultiMapLib ProcessEdgeSink}
    (inports : multimap ring) (outports : multimap ProcessEdgeSink)
    (signals_in signals_out : sync_channel) : outcome JSONQueryComponent :=
  let* (conf, inports) := take_port "QUERY" inports in
  let* (inn, inports) := take_port "IN" inports in
  let* (out, outports) := take_port "OUT" outports in
  Done (mk_JSONQueryComponent conf inn out signals_in signals_out None).

Definition jq_signals : lens JSONQueryComponent Signals := mk_lens
  (fun c => mk_Signals (jq_signals_in c) (jq_signals_out c))
  (fun s c => mk_JSONQueryComponent (jq_conf c) (jq_inn c) (jq_out c) (sig_in s) (sig_out s) (jq_query c)).
Definition jq_tube : lens JSONQueryComponent Tube := mk_lens
  (fun c => mk_Tube (jq_inn c) (jq_out c))
  (fun t c => mk_JSONQueryComponent (jq_conf c) (tb_in t) (tb_out t) (jq_signals_in c) (jq_signals_out c)
                (jq_query c)).
Definition jq_l_conf : lens JSONQueryComponent ring := mk_lens jq_conf
  (fun x c => mk_JSONQueryComponent x (jq_inn c) (jq_out c) (jq_signals_in c) (jq_signals_out c) (jq_query c)).
Definition jq_l_query : lens JSONQueryComponent (option Filter) := mk_lens jq_query
  (fun x c => mk_JSONQueryComponent (jq_conf c) (jq_inn c) (jq_out c) (jq_signals_in c) (jq_signals_out c) x).

(** A packet that is not JSON yields nothing. *)
Definition json_values (filter : Filter) (ip : FbpMessage) : list (option (list byte)) :=
  match from_slice (packet_bytes ip) with
  | Some input => map (fun v => display <$> v) (run filter input)
  | None => []
  end.

Definition json_query_process : proc JSONQueryComponent ProcessResult :=
  zoom jq_signals (poll as_text);;
  configured jq_l_conf jq_l_query compile;;
  query ← read jq_l_query;
  match query with
  | Some filter => zoom jq_tube (query_packets (json_values filter);; relay_result)
  | None => panic
  end.

#[export] Instance keeps_json_query : Keeps json_query_process.
Proof. unfold json_query_process, configured, query_packets, relay_result. apply _. Qed.
Definition json_query_component := component_of json_query_process.
End json.

Section html.
Context {Query Document Item : Type}.
Variable xpath_parse : string -> option Query.
Variable html_parse : string -> option Document.
Variable xpath_apply : Query -> Document -> option (list Item).
Variable item_bytes : Item -> list byte.

Record HTMLQueryComponent : Type := mk_HTMLQueryComponent {
  hq_conf : ring;
  hq_inn : ring;
  hq_out : ProcessEdgeSink;
  hq_signals_in : sync_channel;
  hq_signals_out : sync_channel;
  hq_query : option Query
}.

Definition new_html_query `{MultiMapLib ring} `{MultiMapLib ProcessEdgeSink}
    (inports : multimap ring) (outports : multimap ProcessEdgeSink)
    (signals_in signals_out : sync_channel) : outcome HTMLQueryComponent :=
  let* (conf, inports) := take_port "QUERY" inports in
  let* (inn, inports) := take_port "IN" inports in
  let* (out, outports) := take_port "OUT" outports in
  Done (mk_HTMLQueryComponent conf inn out signals_in signals_out None).

Definition hq_signals : lens HTMLQueryComponent Signals := mk_lens
  (fun c => mk_Signals (hq_signals_in c) (hq_signals_out c))
  (fun s c => mk_HTMLQueryComponent (hq_conf c) (hq_inn c) (hq_out c) (sig_in s) (sig_out s) (hq_query c)).
Definition hq_tube : lens HTMLQueryComponent Tube := mk_lens
  (fun c => mk_Tube (hq_inn c) (hq_out c))
  (fun t c => mk_HTMLQueryComponent (hq_conf c) (tb_in t) (tb_out t) (hq_signals_in c) (hq_signals_out c)
                (hq_query c)).
Definition hq_l_conf : lens HTMLQueryComponent ring := mk_lens hq_conf
  (fun x c => mk_HTMLQueryComponent x (hq_inn c) (hq_out c) (hq_signals_in c) (hq_signals_out c) (hq_query c)).
Definition hq_l_query : lens HTMLQueryComponent (option Query) := mk_lens hq_query
  (fun x c => mk_HTMLQueryComponent (hq_conf c) (hq_inn c) (hq_out c) (hq_signals_in c) (hq_signals_out c) x).

Definition html_values (query : Query) (ip : FbpMessage) : list (option (list byte)) :=
  match html_parse (default "" (as_text ip)) with
  | Some document => map (fun item => Some (item_bytes item)) (default [] (xpath_apply query document))
  | None => []
  end.

Definition html_query_process : proc HTMLQueryComponent ProcessResult :=
  zoom hq_signals (poll message_as_utf8);;
  configured hq_l_conf hq_l_query xpath_parse;;
  query ← read hq_l_query;
  match query with
  | Some query => zoom hq_tube (query_packets (html_values query);; relay_result)
  | None => panic
  end.

#[export] Instance keeps_html_query : Keeps html_query_process.
Proof. unfold html_query_process, configured, query_packets, relay_result. apply _. Qed.
Definition html_query_component := component_of html_query_process.
End html.
End queries.
