(* ===== verification/FiltersTheorems.v ===== *)
(** What one call of [process] does, for the components of [Filters]. *)
From S2P Require Import Prelude Api Scheduler Process Pipes Relays RelaysTheorems Filters.
From Stdlib Require Strings.String.
From Stdlib Require Import NArith ZArith Lia Strings.Byte Strings.Ascii.
From stdpp Require Import base list strings gmap pretty.
Local Open Scope string_scope.
Local Open Scope list_scope.
Local Open Scope flowd_scope.

(** ** Hexadecimal numbers *)

Definition hex_value (c : ascii) : N :=
  let n := Ascii.N_of_ascii c in if (n <? 97)%N then (n - 48)%N else (n - 87)%N.
Fixpoint parse_hex (acc : N) (s : string) : N :=
  match s with
  | EmptyString => acc
  | String c s => parse_hex (16 * acc + hex_value c)%N s
  end.

Lemma hex_value_digit d : (d < 16)%N -> hex_value (hex_digit d) = d.
Proof.
  intros Hd. unfold hex_value, hex_digit. cbv zeta. destruct (N.ltb_spec d 10); rewrite Ascii.N_ascii_embedding by lia.
  - destruct (N.ltb_spec (48 + d) 97); lia.
  - destruct (N.ltb_spec (87 + d) 97); lia.
Qed.

Lemma parse_hex_app acc s t : parse_hex acc (s +:+ t) = parse_hex (parse_hex acc s) t.
Proof. revert acc. induction s as [|c s IH]; intros acc; [done|]. simpl. apply IH. Qed.

Lemma parse_hex_digits width n : parse_hex 0 (hex_digits width n) = (n mod 16 ^ N.of_nat width)%N.
Proof.
  revert n. induction width as [|width IH]; intros n; cbn [hex_digits parse_hex]; [by rewrite N.mod_1_r|].
  assert (n mod 16 < 16)%N by (apply N.mod_lt; lia).
  rewrite parse_hex_app, IH. cbn [parse_hex]. rewrite hex_value_digit by done.
  rewrite Nat2N.inj_succ.
  rewrite N.pow_succ_r', N.Div0.mod_mul_r. lia.
Qed.

Lemma str_length_app s t : String.length (s +:+ t) = (String.length s + String.length t)%nat.
Proof. induction s as [|c s IH]; [done|]. simpl. by rewrite IH. Qed.

(** The text of a hash has 16 digits, which give the number back. *)
Theorem hex16_roundtrip n :
  (n < 2 ^ 64)%N -> String.length (hex16 n) = 16%nat /\ parse_hex 0 (hex16 n) = n.
Proof.
  intros Hn. split.
  - unfold hex16. generalize 16%nat. clear Hn. intros w. revert n. induction w as [|w IH]; intros n; [done|]. simpl.
    rewrite str_length_app, IH. simpl. lia.
  - unfold hex16. rewrite parse_hex_digits. by apply N.mod_small.
Qed.

Section filters.
Context `{R : Rtrb}.

(** ** Hasher *)
Section hasher.
Variable xxhash64 : N -> list byte -> N.
Variable seed : N.

(** The packet for each packet, with what has been written before. *)
Fixpoint running_hashes (written : list byte) (items : list FbpMessage) : list FbpMessage :=
  match items with
  | [] => []
  | ip :: items =>
      hash_message xxhash64 seed (written ++ packet_bytes ip) :: running_hashes (written ++ packet_bytes ip) items
  end.

Lemma wp_hash_packets fuel : forall written (Q : unit -> frame Tube -> Prop) E f,
  let items := ring_items (tb_in (fr_self f)) in
  let b := remaining_budget (fr_ctx f) in
  let n := movable b (tb_out (fr_self f)) (length items) in
  (length items < fuel)%nat ->
  (forall r o es, taken (intake b (tb_out (fr_self f)) 0 (length items)) (tb_in (fr_self f)) r ->
     sent (take n (running_hashes written items)) (tb_out (fr_self f)) o es -> Q tt (relayed n r o es f)) ->
  wp (hash_packets xxhash64 seed fuel written) Q E f.
Proof.
  induction fuel as [|fuel IH]; intros written Q E f items b n Hf HQ; [lia|]. simpl.
  assert (forall r, n = 0%nat -> intake b (tb_out (fr_self f)) 0 (length items) = 0%nat -> taken 0 (tb_in (fr_self f)) r ->
    Q tt (with_self (mk_Tube r (tb_out (fr_self f))) f)) as Hend.
  { intros r Hn Hi Hr. rewrite Hn, Hi in HQ. specialize (HQ r (tb_out (fr_self f)) [] Hr (sent_nil _)).
    unfold relayed in HQ. by rewrite N.sub_0_r, N.add_0_r, app_nil_r, set_remaining_budget_id in HQ. }
  wp_run. fold b. destruct (N.ltb_spec 0 b) as [Hb|Hb]; wp_run.
  2: { assert (with_self (mk_Tube (tb_in (fr_self f)) (tb_out (fr_self f))) f = f) as <- by (by destruct f as [[]]).
       apply Hend; [unfold n; movable_lia| |apply taken_0]. unfold intake. destruct (N.ltb_spec (N.of_nat (movable b (tb_out (fr_self f)) (0 + length items))) b); movable_lia. }
  apply wp_pop; simpl.
  - intros Hempty r Hr. fold items in Hempty. wp_run. apply (Hend r); [unfold n|unfold intake|done];
      rewrite Hempty; simpl; [movable_lia|]. destruct (_ <? _)%N; [lia|movable_lia].
  - intros ip rest r Hi Hr. fold items in Hi. wp_run. apply wp_send; simpl.
    + intros Hroom o es Hs _. wp_run. apply IH; cbn [fr_self fr_ctx tb_in tb_out].
      { destruct Hr as [-> _ _]. fold items. rewrite Hi. simpl. rewrite drop_0. rewrite Hi in Hf. simpl in Hf. lia. }
      pose proof (sent_room _ _ _ _ Hs) as Ho. simpl in Ho.
      assert (ring_items r = rest) as Hrest by (destruct Hr as [-> _ _]; fold items; rewrite Hi; simpl; apply drop_0).
      rewrite Hrest. change (remaining_budget (set_remaining_budget _ _)) with (b - 1)%N. set (n1 := movable (b - 1) o (length rest)).
      assert (n = S n1) as Hn by (unfold n, n1; rewrite Hi; simpl; movable_lia).
      assert (intake b (tb_out (fr_self f)) 0 (length items) = S (intake (b - 1) o 0 (length rest))) as Hin.
      { unfold intake. rewrite !Nat.add_0_l. fold n1. change (movable b (tb_out (fr_self f)) (length items)) with n.
        rewrite Hn, Hi. simpl length. destruct (N.ltb_spec (N.of_nat (S n1)) b), (N.ltb_spec (N.of_nat n1) (b - 1)); lia. }
      intros r' o' es' Hr' Hs'. replace (relayed _ _ _ _ _) with (relayed n r' o' (es ++ es') f).
      * apply HQ; [rewrite Hin; by apply (taken_add 1 _ _ r)|]. rewrite Hn, Hi. simpl.
        by apply (sent_app [_] _ _ o).
      * unfold relayed. simpl. rewrite Hn, <- app_assoc, set_remaining_budget_twice. f_equal; [f_equal; unfold b|]; lia.
    + intros Hfull o Hs. wp_run.
      assert (n = 0%nat) as Hn by (unfold n; movable_lia).
      assert (intake b (tb_out (fr_self f)) 0 (length items) = 1%nat) as Hin.
      { unfold intake. rewrite Nat.add_0_l. change (movable b (tb_out (fr_self f)) (length items)) with n.
        rewrite Hn, Hi. simpl. rewrite (proj2 (N.ltb_lt _ _)) by lia. done. }
      specialize (HQ r o []). rewrite Hin, Hn in HQ. unfold relayed in HQ.
      rewrite N.sub_0_r, N.add_0_r, app_nil_r, set_remaining_budget_id in HQ. by apply HQ.
Qed.

(** The i-th packet that a call of Hasher sends is the hash of all bytes of the
    packets that it has taken so far, not of the i-th packet alone; as many are
    sent as budget, room and input allow, and the packet that finds the outport
    full is lost. *)
Theorem hasher_process_spec (c : HasherComponent) (ctx : NodeContext) :
  let items := ring_items (ha_inn c) in
  let b := remaining_budget ctx in
  let n := movable b (ha_out c) (length items) in
  exists f r, call (hasher_process xxhash64 seed) c ctx = Some (f, Some r) /\
    let c' := fr_self f in
    (~ stop_next message_as_utf8 (get ha_signals c) ->
       sink_items (ha_out c') = sink_items (ha_out c) ++ take n (running_hashes [] items) /\
       ring_items (ha_inn c') = drop (intake b (ha_out c) 0 (length items)) items /\
       remaining_budget (fr_ctx f) = (b - N.of_nat n)%N /\
       r = (if ring_is_abandoned (ha_inn c) then Finished else result_of_work (N.of_nat n))) /\
    (stop_next message_as_utf8 (get ha_signals c) ->
       r = Finished /\ ha_inn c' = ha_inn c /\ ha_out c' = ha_out c).
Proof.
  intros items b n. apply wp_returns. unfold hasher_process. apply wp_bind, wp_zoom, wp_poll; cbn [fr_self].
  - intros Hns s Hs. apply wp_zoom, wp_bind, wp_read, wp_bind, wp_hash_packets; cbn [fr_self fr_ctx tb_in tb_out ha_tube get].
    { simpl. rewrite ring_slots_spec. lia. }
    intros r o es [Hi _ Ha] [Ho _ _ _]. simpl in Hi, Ho, Ha. unfold relay_result. wp_run.
    apply wp_is_abandoned. simpl. rewrite Ha. fold b items n.
    destruct (ring_is_abandoned (ha_inn c)); wp_run; (split; [|done]); intros _; by split_and!.
  - intros Hstop s Hs. by split.
Qed.
End hasher.

(** ** LibComponent *)
Section libcomponent.
Variable fn_process : list byte -> N.

Lemma wp_lib_packets (Q : unit -> frame Tube -> Prop) (E : exit -> frame Tube -> Prop) f :
  let items := ring_items (tb_in (fr_self f)) in
  let b := remaining_budget (fr_ctx f) in
  let n := movable b (tb_out (fr_self f)) (length items) in
  let j := intake b (tb_out (fr_self f)) 0 (length items) in
  (forall r o es, taken j (tb_in (fr_self f)) r -> sent (map (lib_message fn_process) (take n items)) (tb_out (fr_self f)) o es ->
     if (n <? j)%nat then E (Return Finished) (relayed n r o es f) else Q tt (relayed n r o es f)) ->
  wp (lib_packets (Some fn_process)) Q E f.
Proof.
  intros items b n j HQ. set (out := tb_out (fr_self f)) in *.
  assert (forall k r o es, (k <= length items)%nat -> (k <= room out)%nat -> (N.of_nat k <= b)%N ->
    (k = length items \/ N.of_nat k = b) -> taken k (tb_in (fr_self f)) r ->
    sent (map (lib_message fn_process) (take k items)) out o es -> Q tt (relayed k r o es f)) as Hend.
  { intros k r o es H1 H2 H3 H4 Ht Hs. assert (k = n) as -> by (unfold n; movable_lia).
    assert (j = n) as Hj by (unfold j, intake; rewrite Nat.add_0_l, Nat.sub_0_r; cbv zeta; fold n; destruct (N.ltb_spec (N.of_nat n) b); lia).
    specialize (HQ r o es). rewrite Hj, Nat.ltb_irrefl in HQ. by apply HQ. }
  apply (wp_while (fun h => exists k r o es, h = relayed k r o es f
    /\ (k <= length items)%nat /\ (k <= room out)%nat /\ (N.of_nat k <= b)%N
    /\ taken k (tb_in (fr_self f)) r /\ sent (map (lib_message fn_process) (take k items)) out o es)
    (fun h => length (ring_items (tb_in (fr_self h))))).
  - exists 0%nat, (tb_in (fr_self f)), out, []. split_and!; try lia; [|apply taken_0|apply sent_nil].
    destruct f as [[r o] c w es rd]. unfold relayed; simpl.
    by rewrite N.sub_0_r, N.add_0_r, app_nil_r, set_remaining_budget_id.
  - rewrite ring_slots_spec. lia.
  - intros h (k & r & o & es & -> & H1 & H2 & H3 & Ht & Hs) Hc%N.ltb_ge. simpl in Hc. fold b in Hc. apply Hend; try done. lia.
  - intros h (k & r & o & es & -> & H1 & H2 & H3 & Ht & Hs) Hb%N.ltb_lt. simpl in Hb. fold b in Hb.
    wp_run. apply wp_pop; simpl.
    + intros Hempty r' Hr'. wp_run. apply Hend; try done.
      * left. destruct Ht as [Ht _ _]. rewrite Hempty in Ht. symmetry in Ht.
        apply (f_equal length) in Ht. rewrite length_drop in Ht. fold items in Ht. simpl in Ht. lia.
      * rewrite <- (Nat.add_0_r k). by eapply taken_add.
    + intros i rest r' Hi Hr'. pose proof Ht as [Hti _ _]. rewrite Hi in Hti. symmetry in Hti.
      apply drop_cons in Hti as [Hik _]. fold items in Hik. apply lookup_lt_Some in Hik as Hlt.
      assert (taken (S k) (tb_in (fr_self f)) r') as Ht' by (rewrite <- Nat.add_1_r; by eapply taken_add).
      pose proof (sent_room _ _ _ _ Hs) as Hroom. rewrite length_map, length_take in Hroom.
      wp_run. apply wp_send; simpl.
      * intros Hfree o' es' Hs' _. wp_run. split.
        -- exists (S k), r', o', (es ++ es'). split_and!; try lia; [|done|].
           ++ unfold relayed; simpl. rewrite <- app_assoc, set_remaining_budget_twice. f_equal; [f_equal|]; lia.
           ++ rewrite (take_S_r _ _ _ Hik), map_app. by eapply sent_app.
        -- destruct Hr' as [-> _ _]. rewrite Hi. simpl. rewrite drop_0. lia.
      * intros Hfull o' Hs'. wp_run. assert (k = n) as -> by (unfold n; movable_lia).
        assert (j = S n) as Hj by (unfold j, intake; rewrite Nat.add_0_l, Nat.sub_0_r; cbv zeta; fold n;
          rewrite (proj2 (N.ltb_lt _ _)); lia).
        specialize (HQ r' o' es). rewrite Hj, (proj2 (Nat.ltb_lt _ _)) in HQ by lia. apply HQ; [done|].
        rewrite <- (app_nil_r (map _ _)), <- (app_nil_r es). by eapply sent_app.
Qed.

(** A call of LibComponent sends the answers of the library to the packets it
    takes, in order.  When the outport is full it loses a packet and finishes;
    otherwise it asks to be called again when anything is left. *)
Theorem lib_component_process_spec {Lib} (library_get : Lib -> string -> option (list byte -> N))
    (c : LibComponent) (ctx : NodeContext) :
  library_get (lc_lib c) "process" = Some fn_process ->
  let items := ring_items (lc_inn c) in
  let b := remaining_budget ctx in
  let n := movable b (lc_out c) (length items) in
  let j := intake b (lc_out c) 0 (length items) in
  ~ stop_next message_as_utf8 (get lc_signals c) ->
  exists f r, call (lib_component_process library_get) c ctx = Some (f, Some r) /\
    let c' := fr_self f in
    sink_items (lc_out c') = sink_items (lc_out c) ++ map (lib_message fn_process) (take n items) /\
    ring_items (lc_inn c') = drop j items /\
    r = (if (n <? j)%nat || ring_is_abandoned (lc_inn c) then Finished else result_of_work (N.of_nat n)) /\
    (r <> Finished -> (j < length items)%nat -> EffContextReady ∈ fr_effects f).
Proof.
  intros Hget items b n j Hns. apply wp_returns. unfold lib_component_process. apply wp_bind, wp_zoom, wp_poll; cbn [fr_self].
  2: { by intros Hstop. }
  intros _ s _. wp_run. apply wp_zoom. rewrite Hget. apply wp_bind, wp_lib_packets. cbn [fr_self fr_ctx tb_in tb_out lc_tube get].
  change (tb_in _) with (lc_inn c). change (tb_out _) with (lc_out c). intros r o es [Hi _ Ha] [Ho _ _ _]. simpl in Hi, Ho, Ha. simpl.
  fold items b in Hi, Ho |- *. fold n j in Hi, Ho |- *.
  destruct (n <? j)%nat eqn:Hnj; simpl.
  - by split_and!.
  - unfold lib_result. wp_run. apply wp_is_abandoned. simpl. rewrite Ha.
    destruct (ring_is_abandoned (lc_inn c)); wp_run; [by split_and!|]. rewrite ring_slots_spec, Hi, length_drop.
    destruct (Nat.ltb_spec 0 (length items - j)); wp_run; (split_and!; [done..|]); intros _ Hj; [|lia].
    set_solver.
Qed.
End libcomponent.

(** ** JSONQuery and HTMLQuery *)

(** The texts of the values that are no errors. *)
Definition texts (vs : list (option (list byte))) : list (list byte) := omap id vs.

Lemma wp_send_values vs : forall (Q : unit -> frame Tube -> Prop) E f,
  (forall part o es ctx, part `prefix_of` texts vs -> ((0 < room o)%nat -> part = texts vs) ->
     sent (map from_bytes part) (tb_out (fr_self f)) o es ->
     Q tt (mk_frame (mk_Tube (tb_in (fr_self f)) o) ctx (fr_work f + N.of_nat (length part)) (fr_effects f ++ es)
             (fr_reads f))) ->
  wp (send_values vs) Q E f.
Proof.
  induction vs as [|[bytes|] vs IH]; intros Q E f HQ; simpl.
  - wp_run. specialize (HQ [] (tb_out (fr_self f)) [] (fr_ctx f) (prefix_nil _) (fun _ => eq_refl) (sent_nil _)).
    simpl in HQ. rewrite N.add_0_r, app_nil_r in HQ. by destruct f as [[]].
  - apply wp_bind, wp_send; simpl.
    + intros Hroom o es Hs _. apply wp_bind, wp_work, wp_bind. unfold charge, wp. apply IH.
      intros part o' es' ctx Hp Hfull Hs'. simpl in *.
      replace (fr_work f + 1 + N.of_nat (length part))%N with (fr_work f + N.of_nat (length (bytes :: part)))%N by (simpl; lia).
      rewrite <- app_assoc. apply HQ; [by apply prefix_cons|intros Hr; by rewrite Hfull|]. simpl. by apply (sent_app [_] _ _ o).
    + intros Hroom o Hs. wp_run. pose proof (sent_room _ _ _ _ Hs) as Ho. simpl in Ho.
      specialize (HQ [] o [] (fr_ctx f) (prefix_nil _)). simpl in HQ. rewrite N.add_0_r, app_nil_r in HQ.
      apply HQ; [lia|done].
  - by apply IH.
Qed.

(** What a call has made of the first [k] packets. *)
Record queried (values : FbpMessage -> list (option (list byte))) (t : Tube) (k : nat) (parts : list (list (list byte)))
    (t' : Tube) (es : list Effect) : Prop := mk_queried {
  qu_packets : (k <= length (ring_items (tb_in t)))%nat;
  qu_taken : taken k (tb_in t) (tb_in t');
  qu_parts : Forall2 (fun part ip => part `prefix_of` texts (values ip)) parts (take k (ring_items (tb_in t)));
  qu_room : (0 < room (tb_out t'))%nat -> parts = map (fun ip => texts (values ip)) (take k (ring_items (tb_in t)));
  qu_sent : sent (map from_bytes (concat parts)) (tb_out t) (tb_out t') es
}.

Lemma queried_S values t k parts t1 es i rest r part o es' :
  queried values t k parts t1 es -> ring_items (tb_in t1) = i :: rest -> taken 1 (tb_in t1) r ->
  part `prefix_of` texts (values i) -> ((0 < room o)%nat -> part = texts (values i)) ->
  sent (map from_bytes part) (tb_out t1) o es' ->
  queried values t (S k) (parts ++ [part]) (mk_Tube r o) (es ++ es').
Proof.
  intros [Hk Ht Hp Hr Hs] Hi Hr' Hpart Hfull Hs'. pose proof Ht as [Hti _ _]. rewrite Hi in Hti. symmetry in Hti.
  apply drop_cons in Hti as [Hik _]. apply lookup_lt_Some in Hik as Hlt. pose proof (sent_room _ _ _ _ Hs') as Hro.
  split; simpl; [lia|rewrite <- Nat.add_1_r; by eapply taken_add| | |].
  - rewrite (take_S_r _ _ _ Hik). apply Forall2_app; [done|by constructor].
  - intros Hfree. rewrite (take_S_r _ _ _ Hik), map_app. simpl. rewrite Hr, Hfull by lia. done.
  - rewrite concat_app, map_app. simpl. rewrite app_nil_r. by eapply sent_app.
Qed.

Lemma wp_query_packets values (Q : unit -> frame Tube -> Prop) E f :
  (forall k parts t es ctx, queried values (fr_self f) k parts t es ->
     (k = length (ring_items (tb_in (fr_self f))) \/ remaining_budget ctx = 0%N) ->
     Q tt (mk_frame t ctx (fr_work f + N.of_nat (length (concat parts))) (fr_effects f ++ es) (fr_reads f))) ->
  wp (query_packets values) Q E f.
Proof.
  intros HQ. apply (wp_while (fun h => exists k parts t es ctx, queried values (fr_self f) k parts t es /\
      h = mk_frame t ctx (fr_work f + N.of_nat (length (concat parts))) (fr_effects f ++ es) (fr_reads f))
    (fun h => length (ring_items (tb_in (fr_self h))))).
  - exists 0%nat, [], (fr_self f), [], (fr_ctx f). split; [split; [lia|apply taken_0|constructor|done|apply sent_nil]|].
    destruct f. simpl. by rewrite N.add_0_r, app_nil_r.
  - rewrite ring_slots_spec. lia.
  - intros h (k & parts & t & es & ctx & Hq & ->) Hc. apply (HQ k); [done|]. simpl in Hc.
    apply andb_false_iff in Hc as [Hc%N.ltb_ge|Hc%negb_false_iff]; [right; lia|left].
    rewrite ring_is_empty_spec in Hc. apply Nat.eqb_eq in Hc. destruct Hq as [Hk [Ht _ _] _ _ _].
    rewrite Ht, length_drop in Hc. lia.
  - intros h (k & parts & t & es & ctx & Hq & ->) Hc. simpl in Hc. apply andb_true_iff in Hc as [_ Hc%negb_true_iff].
    rewrite ring_is_empty_spec in Hc. apply wp_bind, wp_pop; simpl.
    { intros Hempty. by rewrite Hempty in Hc. }
    intros i rest r Hi Hr. apply wp_send_values. simpl. intros part o es' ctx' Hpart Hfull Hs'. split.
    + exists (S k), (parts ++ [part]), (mk_Tube r o), (es ++ es'), ctx'. split; [by eapply queried_S|].
      rewrite concat_app, length_app, app_assoc. simpl. rewrite app_nil_r. f_equal. lia.
    + destruct Hr as [-> _ _]. rewrite Hi. simpl. rewrite drop_0. lia.
Qed.

(** The end of such a call. *)
Definition query_run (values : FbpMessage -> list (option (list byte))) (t t' : Tube) (f : N) (r : ProcessResult) : Prop :=
  exists k parts es, queried values t k parts t' es /\ (k = length (ring_items (tb_in t)) \/ f = 0%N) /\
    r = (if ring_is_abandoned (tb_in t) then Finished else result_of_work (N.of_nat (length (concat parts)))).

Lemma wp_query values (Q : ProcessResult -> frame Tube -> Prop) (E : exit -> frame Tube -> Prop) f :
  fr_work f = 0%N ->
  (forall r f', query_run values (fr_self f) (fr_self f') (remaining_budget (fr_ctx f')) r -> Q r f') ->
  (forall f', query_run values (fr_self f) (fr_self f') (remaining_budget (fr_ctx f')) Finished -> E (Return Finished) f') ->
  wp (query_packets values;; relay_result) Q E f.
Proof.
  intros Hw HQ HE. apply wp_bind, wp_query_packets. intros k parts t es ctx Hq Hk. unfold relay_result.
  apply wp_bind, wp_is_abandoned. pose proof Hq as [_ [_ _ Ha] _ _ _]. simpl. rewrite Ha, Hw.
  assert (forall r, r = (if ring_is_abandoned (tb_in (fr_self f)) then Finished
    else result_of_work (N.of_nat (length (concat parts)))) -> query_run values (fr_self f) t (remaining_budget ctx) r) as Hrun.
  { intros r ->. by exists k, parts, es. }
  destruct (ring_is_abandoned (tb_in (fr_self f))); wp_run; [by apply HE, Hrun|]. rewrite N.add_0_l. by apply HQ, Hrun.
Qed.

(** A configured JSONQuery takes packets until the budget is used up or none is
    left, and sends for each of them the texts of its values in order: all of
    them as long as there is room, a part or nothing after that, when it goes on
    taking packets all the same. *)
Theorem json_query_process_spec {Json Filter Val} (compile : string -> option Filter)
    (from_slice : list byte -> option Json) (run : Filter -> Json -> list (option Val)) (display : Val -> list byte)
    (c : JSONQueryComponent) (ctx : NodeContext) filter :
  jq_query c = Some filter -> ~ stop_next as_text (get jq_signals c) ->
  exists f r, call (json_query_process compile from_slice run display) c ctx = Some (f, Some r) /\
    query_run (json_values from_slice run display filter) (get jq_tube c) (get jq_tube (fr_self f))
      (remaining_budget (fr_ctx f)) r.
Proof.
  intros Hq Hns. apply wp_returns. unfold json_query_process, configured. apply wp_bind, wp_zoom, wp_poll; [|done].
  intros _ s _. simpl. wp_run. rewrite Hq. wp_run. apply wp_zoom, wp_query; [done| |].
  - intros r f Hrun. destruct f as [[]]. exact Hrun.
  - intros f Hrun. destruct f as [[]]. exact Hrun.
Qed.

(** The same for HTMLQuery. *)
Theorem html_query_process_spec {Query Document Item} (xpath_parse : string -> option Query)
    (html_parse : string -> option Document) (xpath_apply : Query -> Document -> option (list Item))
    (item_bytes : Item -> list byte) (c : HTMLQueryComponent) (ctx : NodeContext) query :
  hq_query c = Some query -> ~ stop_next message_as_utf8 (get hq_signals c) ->
  exists f r, call (html_query_process xpath_parse html_parse xpath_apply item_bytes) c ctx = Some (f, Some r) /\
    query_run (html_values html_parse xpath_apply item_bytes query) (get hq_tube c) (get hq_tube (fr_self f))
      (remaining_budget (fr_ctx f)) r.
Proof.
  intros Hq Hns. apply wp_returns. unfold html_query_process, configured. apply wp_bind, wp_zoom, wp_poll; [|done].
  intros _ s _. simpl. wp_run. rewrite Hq. wp_run. apply wp_zoom, wp_query; [done| |].
  - intros r f Hrun. destruct f as [[]]. exact Hrun.
  - intros f Hrun. destruct f as [[]]. exact Hrun.
Qed.
End filters.

(** ** Concrete runs *)
#[local] Existing Instance list_rtrb.

(** A hash that adds up the bytes. *)
Definition demo_hash (seed : N) (bs : list byte) : N := fold_left (fun n b => n + Byte.to_N b)%N bs seed.
Definition demo_hasher (items : list FbpMessage) : HasherComponent :=
  mk_HasherComponent (demo_ring false items) (demo_out 8) demo_channel demo_channel.
(** Equal packets in one call have different hashes; a text counts as empty. *)
Example hasher_accumulates :
  (p ← call (hasher_process demo_hash 0) (demo_hasher [Bytes [x01]; Bytes [x01]; Text "a"]) (demo_context Normal 8);
   Some (sink_items (ha_out (fr_self p.1)))) =
  Some [Text "0000000000000001"; Text "0000000000000002"; Text "0000000000000002"].
Proof. vm_compute. reflexivity. Qed.

(** A library that counts bytes; a full outport ends the component with
    packets left. *)
Definition demo_lib (cap : nat) : LibComponent :=
  mk_LibComponent (demo_ring false [Bytes [x61]; Bytes []; Bytes [x62]]) (demo_out cap) demo_channel demo_channel tt.
Definition demo_library (_ : unit) (name : string) : option (list byte -> N) :=
  if String.eqb name "process" then Some (fun bs => N.of_nat (length bs)) else None.
Example lib_component_ends :
  match call (lib_component_process demo_library) (demo_lib 1) (demo_context Normal 8) with
  | Some (f, r) => r = Some Finished /\ sink_items (lc_out (fr_self f)) = [Bytes [x32]] /\
      ring_items (lc_inn (fr_self f)) = [Bytes [x62]]
  | None => False
  end.
Proof. vm_compute. by split_and!. Qed.

Lemma lib_component_process_spec_witness :
  exists f r, call (lib_component_process demo_library) (demo_lib 2) (demo_context Normal 2) = Some (f, Some r) /\
    sink_items (lc_out (fr_self f)) = [Bytes [x32]; Bytes [x31]] /\ r = DidWork 2 /\ EffContextReady ∈ fr_effects f.
Proof.
  destruct (lib_component_process_spec (fun bs => N.of_nat (length bs)) demo_library (demo_lib 2) (demo_context Normal 2))
    as (f & r & Hcall & Ho & _ & Hr & He).
  - reflexivity.
  - intros (m & Hm & _). discriminate Hm.
  - exists f, r. split; [exact Hcall|]. split; [exact Ho|]. split; [exact Hr|].
    apply He; [rewrite Hr; discriminate|vm_compute; lia].
Defined.

(** A query that yields every byte of a packet as a value. *)
Definition demo_query_process : proc (JSONQueryComponent (Filter := unit)) ProcessResult :=
  json_query_process (fun _ => Some tt) Some (fun _ bs => map Some bs) (fun b => [b]).
Definition demo_json (cap : nat) (items : list FbpMessage) : JSONQueryComponent :=
  mk_JSONQueryComponent (demo_ring true []) (demo_ring false items) (demo_out cap) demo_channel demo_channel (Some tt).
Lemma json_query_process_spec_witness :
  exists f r, call demo_query_process (demo_json 8 [Bytes [x61; x62]; Bytes [x63]]) (demo_context Normal 8) = Some (f, Some r) /\
    query_run (fun ip => json_values Some (fun _ bs => map Some bs) (fun b => [b]) tt ip)
      (get jq_tube (demo_json 8 [Bytes [x61; x62]; Bytes [x63]])) (get jq_tube (fr_self f)) (remaining_budget (fr_ctx f)) r.
Proof.
  apply (json_query_process_spec (fun _ => Some tt) Some (fun _ bs => map Some bs) (fun b => [b])
    (demo_json 8 [Bytes [x61; x62]; Bytes [x63]]) (demo_context Normal 8) tt); [reflexivity|].
  intros (m & Hm & _). discriminate Hm.
Defined.

(** With a full outport every packet of the inport is taken and dropped, within
    one call. *)
Example query_drops_everything :
  match call demo_query_process (demo_json 1 [Bytes [x61; x62]; Bytes [x63]; Bytes [x64]]) (demo_context Normal 8) with
  | Some (f, r) => r = Some (DidWork 1) /\ ring_items (jq_inn (fr_self f)) = [] /\
      sink_items (jq_out (fr_self f)) = [Bytes [x61]]
  | None => False
  end.
Proof. vm_compute. by split_and!. Qed.
(** More values than budget: it wraps around. *)
Example query_budget_wraps :
  (p ← call demo_query_process (demo_json 8 [Bytes [x61; x62]]) (demo_context Normal 1);
   Some (remaining_budget (fr_ctx p.1))) = Some 4294967295%N.
Proof. vm_compute. reflexivity. Qed.
