(* ===== verification/Cmd.v ===== *)
(** [Cmd]: a sub-process per packet, whose lines of output become packets.

    Splitting a command line (crate shell_words), the options (crate lexopt) and
    starting a process are arguments; the process and the two threads at its
    pipes are what happens between calls. *)
From S2P Require Import Prelude Api Scheduler Process Pipes Io.
From Stdlib Require Strings.String.
From Stdlib Require Import NArith ZArith Lia Strings.Byte.
From stdpp Require Import base list strings gmap.
Local Open Scope string_scope.
Local Open Scope list_scope.
Local Open Scope flowd_scope.

(** A process with the bytes that the thread at its stdin writes; [ch_polls] is
    what [try_wait] will answer, [true] for an exit, and without an answer the
    process runs. *)
Record Child : Type := mk_Child {
  ch_program : string;
  ch_args : list string;
  ch_stdin : list byte;
  ch_polls : list (result bool ErrorKind);
  ch_killed : bool
}.
Definition try_wait (ch : Child) : result bool ErrorKind * Child :=
  match ch_polls ch with
  | [] => (Ok false, ch)
  | a :: rest => (a, mk_Child (ch_program ch) (ch_args ch) (ch_stdin ch) rest (ch_killed ch))
  end.
(** [kill] and [wait], whose answers are ignored. *)
Definition kill_and_wait (ch : Child) : Child :=
  mk_Child (ch_program ch) (ch_args ch) (ch_stdin ch) (ch_polls ch) true.

(** The handles of the threads are there or have been taken. *)
Record RunningProcess : Type := mk_RunningProcess {
  rn_child : Child;
  rn_stdin_thread : bool;
  rn_stdout_rx : mpsc (list byte);
  rn_stdout_thread : bool
}.
Inductive SubprocessState : Type :=
| CmdIdle
| CmdRunning (p : RunningProcess)
| CmdCompleted.

Inductive CmdMode : Type := ModeOne | ModeEach.

(** An option as the parser yields it: long, with its value if there is one, or
    something else. *)
Inductive CmdArg : Type :=
| LongArg (name : string) (value : option string)
| OtherArg.

Record CmdConfig : Type := mk_CmdConfig { cg_mode : CmdMode; cg_retry : bool }.
(** [None] unwinds. *)
Definition apply_arg (arg : CmdArg) (cg : CmdConfig) : option CmdConfig :=
  match arg with
  | LongArg name value =>
      if String.eqb name "retry" then
        v ← value; retry ← parse_bool v; Some (mk_CmdConfig (cg_mode cg) retry)
      else if String.eqb name "mode" then
        v ← value;
        if String.eqb v "one" then Some (mk_CmdConfig ModeOne (cg_retry cg))
        else if String.eqb v "each" then Some (mk_CmdConfig ModeEach (cg_retry cg))
        else None
      else None
  | OtherArg => None
  end.
(** What [parser.next()] yields, one after the other; [None] is an error. *)
Fixpoint apply_args (args : list (option CmdArg)) (cg : CmdConfig) : option CmdConfig :=
  match args with
  | [] => Some cg
  | arg :: args => arg ← arg; cg ← apply_arg arg cg; apply_args args cg
  end.

(** A line as a packet. *)
Definition line_message (line : list byte) : FbpMessage :=
  match from_utf8 line with Some text => from_text text | None => from_bytes line end.

Definition CHILD_POLL_INTERVAL : Duration := 10000000.

Section cmd.
Context `{R : Rtrb}.
Variable clock : nat -> Instant.
Variable shell_words_split : string -> option (list string).
Variable lexopt_args : string -> list (option CmdArg).
Variable spawn : string -> list string -> bool.

Record CmdComponent : Type := mk_CmdComponent {
  cm_inn : ring;
  cm_cmd : ring;
  cm_conf : ring;
  cm_out : ProcessEdgeSink;
  cm_signals_in : sync_channel;
  cm_signals_out : sync_channel;
  cm_cmd_program : option string;
  cm_cmd_args : list string;
  cm_config : CmdConfig;
  cm_config_loaded : bool;
  cm_state : SubprocessState;
  cm_scheduler_waker : option SchedulerWaker
}.

Definition new_cmd `{MultiMapLib ring} `{MultiMapLib ProcessEdgeSink}
    (inports : multimap ring) (outports : multimap ProcessEdgeSink)
    (signals_in signals_out : sync_channel) (scheduler_waker : option SchedulerWaker) : outcome CmdComponent :=
  let* (inn, inports) := take_port "IN" inports in
  let* (cmd, inports) := take_port "CMD" inports in
  let* (conf, inports) := take_port "CONF" inports in
  let* (out, outports) := take_port "OUT" outports in
  Done (mk_CmdComponent inn cmd conf out signals_in signals_out None [] (mk_CmdConfig ModeEach false) false CmdIdle
          scheduler_waker).

Definition cm_l_inn : lens CmdComponent ring := mk_lens cm_inn
  (fun x c => mk_CmdComponent x (cm_cmd c) (cm_conf c) (cm_out c) (cm_signals_in c) (cm_signals_out c)
     (cm_cmd_program c) (cm_cmd_args c) (cm_config c) (cm_config_loaded c) (cm_state c) (cm_scheduler_waker c)).
Definition cm_l_cmd : lens CmdComponent ring := mk_lens cm_cmd
  (fun x c => mk_CmdComponent (cm_inn c) x (cm_conf c) (cm_out c) (cm_signals_in c) (cm_signals_out c)
     (cm_cmd_program c) (cm_cmd_args c) (cm_config c) (cm_config_loaded c) (cm_state c) (cm_scheduler_waker c)).
Definition cm_l_conf : lens CmdComponent ring := mk_lens cm_conf
  (fun x c => mk_CmdComponent (cm_inn c) (cm_cmd c) x (cm_out c) (cm_signals_in c) (cm_signals_out c)
     (cm_cmd_program c) (cm_cmd_args c) (cm_config c) (cm_config_loaded c) (cm_state c) (cm_scheduler_waker c)).
Definition cm_l_out : lens CmdComponent ProcessEdgeSink := mk_lens cm_out
  (fun x c => mk_CmdComponent (cm_inn c) (cm_cmd c) (cm_conf c) x (cm_signals_in c) (cm_signals_out c)
     (cm_cmd_program c) (cm_cmd_args c) (cm_config c) (cm_config_loaded c) (cm_state c) (cm_scheduler_waker c)).
Definition cm_l_signals : lens CmdComponent Signals := mk_lens
  (fun c => mk_Signals (cm_signals_in c) (cm_signals_out c))
  (fun x c => mk_CmdComponent (cm_inn c) (cm_cmd c) (cm_conf c) (cm_out c) (sig_in x) (sig_out x)
     (cm_cmd_program c) (cm_cmd_args c) (cm_config c) (cm_config_loaded c) (cm_state c) (cm_scheduler_waker c)).
Definition cm_l_command : lens CmdComponent (option string * list string) := mk_lens
  (fun c => (cm_cmd_program c, cm_cmd_args c))
  (fun x c => mk_CmdComponent (cm_inn c) (cm_cmd c) (cm_conf c) (cm_out c) (cm_signals_in c) (cm_signals_out c)
     x.1 x.2 (cm_config c) (cm_config_loaded c) (cm_state c) (cm_scheduler_waker c)).
Definition cm_l_config : lens CmdComponent CmdConfig := mk_lens cm_config
  (fun x c => mk_CmdComponent (cm_inn c) (cm_cmd c) (cm_conf c) (cm_out c) (cm_signals_in c) (cm_signals_out c)
     (cm_cmd_program c) (cm_cmd_args c) x (cm_config_loaded c) (cm_state c) (cm_scheduler_waker c)).
Definition cm_l_config_loaded : lens CmdComponent bool := mk_lens cm_config_loaded
  (fun x c => mk_CmdComponent (cm_inn c) (cm_cmd c) (cm_conf c) (cm_out c) (cm_signals_in c) (cm_signals_out c)
     (cm_cmd_program c) (cm_cmd_args c) (cm_config c) x (cm_state c) (cm_scheduler_waker c)).
Definition cm_l_state : lens CmdComponent SubprocessState := mk_lens cm_state
  (fun x c => mk_CmdComponent (cm_inn c) (cm_cmd c) (cm_conf c) (cm_out c) (cm_signals_in c) (cm_signals_out c)
     (cm_cmd_program c) (cm_cmd_args c) (cm_config c) (cm_config_loaded c) x (cm_scheduler_waker c)).
Definition cm_l_waker : lens CmdComponent (option SchedulerWaker) := mk_lens cm_scheduler_waker
  (fun x c => mk_CmdComponent (cm_inn c) (cm_cmd c) (cm_conf c) (cm_out c) (cm_signals_in c) (cm_signals_out c)
     (cm_cmd_program c) (cm_cmd_args c) (cm_config c) (cm_config_loaded c) (cm_state c) x).

(** The command line: the first word is the program. *)
Definition load_command : proc CmdComponent unit :=
  cmd_ip ← pop cm_l_cmd;
  match cmd_ip with
  | None => return_ NoWork
  | Some cmd_ip =>
      match as_text cmd_ip ≫= shell_words_split with
      | Some (program :: args) => write cm_l_command (Some program, args)
      | _ => panic
      end
  end.
(** Both packets are needed in one call: without CONF the next call takes
    another one from CMD. *)
Definition load_config : proc CmdComponent unit :=
  loaded ← read cm_l_config_loaded;
  if (loaded : bool) then mret tt
  else
    load_command;;
    conf_ip ← pop cm_l_conf;
    match conf_ip with
    | None => return_ NoWork
    | Some conf_ip =>
        cg ← read cm_l_config;
        match as_text conf_ip ≫= fun conf_text => apply_args (lexopt_args conf_text) cg with
        | Some cg => write cm_l_config cg;; write cm_l_config_loaded true
        | None => panic
        end
    end.

(** A signal "stop" kills the process; its threads are handed to other threads
    to be joined. *)
Definition stop_process (s : SubprocessState) : SubprocessState :=
  match s with
  | CmdRunning p => CmdRunning (mk_RunningProcess (kill_and_wait (rn_child p)) false (rn_stdout_rx p) false)
  | s => s
  end.
Definition check_signals : proc CmdComponent unit :=
  stop ← zoom cm_l_signals (signal_stop message_as_utf8);
  if (stop : bool) then
    s ← read cm_l_state; write cm_l_state (stop_process s);; return_ Finished
  else mret tt.

Definition wake_scheduler_ : proc CmdComponent unit :=
  waker ← read cm_l_waker; emit (wake_scheduler waker).

(** One packet, one process. *)
Definition run_command : proc CmdComponent unit :=
  b ← budget;
  if (0 <? b)%N then
    ip ← pop cm_l_inn;
    match ip with
    | None => mret tt
    | Some ip =>
        cg ← read cm_l_config;
        match cg_mode cg with
        | ModeOne => panic
        | ModeEach =>
            command ← read cm_l_command;
            match command.1 with
            | None => panic
            | Some program =>
                if spawn program command.2 then
                  write cm_l_state (CmdRunning (mk_RunningProcess
                    (mk_Child program command.2 (packet_bytes ip) [] false) true channel true));;
                  charge 1;; return_ (DidWork 1)
                else panic
            end
        end
    end
  else mret tt.

(** One line of output; a line that finds no room is gone. *)
Definition forward_line (p : RunningProcess) : proc CmdComponent RunningProcess :=
  b ← budget;
  if (0 <? b)%N then
    let '(r, rx) := mpsc_try_recv (rn_stdout_rx p) in
    let p := mk_RunningProcess (rn_child p) (rn_stdin_thread p) rx (rn_stdout_thread p) in
    write cm_l_state (CmdRunning p);;
    match r with
    | Received line =>
        r ← send cm_l_out (line_message line);
        match r with
        | Ok _ => work 1;; charge 1;; mret p
        | Err _ => mret p
        end
    | RecvEmpty => mret p
    | RecvDisconnected => mret p
    end
  else mret p.

(** When the process has exited its threads are joined or handed to others to
    be joined, and with the state goes the channel. *)
Definition check_exit (p : RunningProcess) : proc CmdComponent unit :=
  let '(r, child) := try_wait (rn_child p) in
  write cm_l_state (CmdRunning (mk_RunningProcess child (rn_stdin_thread p) (rn_stdout_rx p) (rn_stdout_thread p)));;
  match r with
  | Err _ => panic
  | Ok exited => if (exited : bool) then write cm_l_state CmdCompleted;; wake_scheduler_ else mret tt
  end.

Definition watch_process (p : RunningProcess) : proc CmdComponent unit :=
  p ← forward_line p;
  check_exit p;;
  w ← work_units;
  if (0 <? w)%N then return_ (DidWork w)
  else t ← now clock; wake_at_ (t + CHILD_POLL_INTERVAL)%N.

Definition cmd_process : proc CmdComponent ProcessResult :=
  load_config;;
  check_signals;;
  state ← read cm_l_state;
  match state with
  | CmdIdle => run_command
  | CmdRunning p => watch_process p
  | CmdCompleted => write cm_l_state CmdIdle;; wake_scheduler_
  end;;
  abandoned ← is_abandoned cm_l_inn;
  if (abandoned : bool) then return_ Finished else mret NoWork.

#[export] Instance keeps_cmd : Keeps cmd_process.
Proof.
  unfold cmd_process, load_config, load_command, check_signals, run_command, watch_process, forward_line, check_exit,
    wake_scheduler_.
  apply _.
Qed.
Definition cmd_component := component_of cmd_process.
End cmd.
