(* ===== verification/CmdTheorems.v ===== *)
(** What is proved about [Cmd]: along every run its packets are lines that its
    processes have printed, in order; and when its producer is gone it finishes
    with the first call that has nothing to send, whatever is left. *)
From S2P Require Import Prelude Api Scheduler Process Pipes Io Cmd.
From Stdlib Require Strings.String.
From Stdlib Require Import NArith ZArith Lia Strings.Byte.
From stdpp Require Import base list strings gmap relations.
Local Open Scope string_scope.
Local Open Scope list_scope.

Section cmd.
Context `{R : Rtrb}.
Variable shell_words_split : string -> option (list string).
Variable lexopt_args : string -> list (option CmdArg).
Variable spawn : string -> list string -> bool.
Abbreviation process clock := (cmd_process clock shell_words_split lexopt_args spawn).

(** The lines of the present process that have not been read. *)
Definition waiting_lines (s : SubprocessState) : list (list byte) :=
  match s with CmdRunning p => mp_items (rn_stdout_rx p) | _ => [] end.

(** Of the lines that were [printed], those before the waiting ones have been
    sent or dropped. *)
Definition cmd_ok (printed : list (list byte)) (got : list FbpMessage) (c : CmdComponent) : Prop :=
  exists gone, printed = gone ++ waiting_lines (cm_state c) /\
    got ++ sink_items (cm_out c) `sublist_of` map line_message gone.

(** The waiting lines may be dropped, and nothing else matters. *)
Lemma cmd_ok_less printed got c c' :
  (waiting_lines (cm_state c') = waiting_lines (cm_state c) \/ waiting_lines (cm_state c') = []) ->
  cm_out c' = cm_out c -> cmd_ok printed got c -> cmd_ok printed got c'.
Proof.
  intros Hw Ho (gone & -> & Hs). unfold cmd_ok. rewrite Ho. destruct Hw as [-> | ->]; [by exists gone|].
  exists (gone ++ waiting_lines (cm_state c)). rewrite app_nil_r, map_app. split; [done|]. by apply sublist_inserts_r.
Qed.

(** One line has been read, and sent or not. *)
Lemma cmd_ok_line printed got c c' line rest part :
  cmd_ok printed got c -> waiting_lines (cm_state c) = line :: rest -> waiting_lines (cm_state c') = rest ->
  (part = [] \/ part = [line_message line]) -> sink_items (cm_out c') = sink_items (cm_out c) ++ part ->
  cmd_ok printed got c'.
Proof.
  intros (gone & -> & Hs) Hw Hw' Hp Ho. exists (gone ++ [line]). rewrite Hw, Hw', <- app_assoc. split; [done|].
  rewrite Ho, map_app, app_assoc. apply sublist_app; [done|]. destruct Hp as [-> | ->]; [apply sublist_nil_l|done].
Qed.

(** ** Calls *)
Section call.
Variable clock : nat -> Instant.
Variable printed : list (list byte).
Variable got : list FbpMessage.
Abbreviation ok f := (cmd_ok printed got (fr_self f)).

Lemma wp_forward_line p f (Q : RunningProcess -> frame CmdComponent -> Prop) E :
  ok f -> cm_state (fr_self f) = CmdRunning p ->
  (forall p f', ok f' -> cm_state (fr_self f') = CmdRunning p -> Q p f') -> wp (forward_line p) Q E f.
Proof.
  intros Hok Hst HQ. unfold forward_line. apply wp_bind, wp_budget.
  destruct (N.ltb_spec 0 (remaining_budget (fr_ctx f))) as [Hb|_]; [|wp_run; by apply HQ].
  assert (waiting_lines (cm_state (fr_self f)) = mp_items (rn_stdout_rx p)) as Hw by (by rewrite Hst).
  unfold mpsc_try_recv. destruct (mp_items (rn_stdout_rx p)) as [|line rest] eqn:Hi.
  - wp_run. destruct (mp_tx_alive _); wp_run; (apply HQ; [|done]);
      (apply (cmd_ok_less _ _ (fr_self f)); simpl; [left; by rewrite Hi, Hw|done|exact Hok]).
  - wp_run. apply wp_send; simpl.
    + intros _ o es [Ho _ _ _ _] _. wp_run. apply HQ; [|done].
      by apply (cmd_ok_line _ _ (fr_self f) _ line rest [line_message line] Hok Hw); [|right|].
    + intros _ o [Ho _ _ _ _]. wp_run. apply HQ; [|done].
      by apply (cmd_ok_line _ _ (fr_self f) _ line rest [] Hok Hw); [|left|].
Qed.

Lemma wp_cmd_process f (Q : ProcessResult -> frame CmdComponent -> Prop) (E : exit -> frame CmdComponent -> Prop) :
  ok f -> (forall r f', ok f' -> Q r f') -> (forall r f', ok f' -> E (Return r) f') -> (forall f', E Unwind f') ->
  wp (process clock) Q E f.
Proof.
  intros Hok HQ HE HU. unfold cmd_process. apply wp_bind.
  assert (forall f (Q' : unit -> frame CmdComponent -> Prop), ok f -> (forall f', ok f' -> Q' tt f') ->
    wp (load_config shell_words_split lexopt_args) Q' E f) as Hload.
  { clear f Hok. intros f Q' Hok HQ'. unfold load_config, load_command. wp_run.
    destruct (cm_config_loaded _); [wp_run; by apply HQ'|]. apply wp_bind, wp_bind, wp_pop; simpl.
    - intros _ r _. wp_run. apply HE. by apply (cmd_ok_less _ _ (fr_self f)); [left|..].
    - intros m rest r _ _. destruct (as_text m ≫= shell_words_split) as [[|program args]|]; [wp_run; apply HU| |wp_run; apply HU].
      wp_run. apply wp_pop; simpl.
      + intros _ r' _. wp_run. apply HE. by apply (cmd_ok_less _ _ (fr_self f)); [left|..].
      + intros m' rest' r' _ _. wp_run. destruct (as_text m' ≫= _); [|wp_run; apply HU]. wp_run. apply HQ'.
        by apply (cmd_ok_less _ _ (fr_self f)); [left|..]. }
  apply Hload; [done|]. clear f Hok. intros f Hok. unfold check_signals. apply wp_bind, wp_bind, wp_zoom, wp_signal_stop.
  2: { intros _ s _. wp_run. apply HE. apply (cmd_ok_less _ _ (fr_self f)); [left|done|done]. simpl. by destruct (cm_state (fr_self f)). }
  intros _ s _. simpl. match goal with |- wp _ _ _ ?g => set (f1 := g) end.
  assert (ok f1) as Hok1 by (by apply (cmd_ok_less _ _ (fr_self f)); [left|..]).
  clearbody f1. clear f Hok s. rename f1 into f, Hok1 into Hok.
  assert (forall f, ok f -> wp (abandoned ← is_abandoned cm_l_inn;
    if (abandoned : bool) then return_ Finished else mret NoWork) Q E f) as Hend.
  { clear f Hok. intros f Hok. apply wp_bind, wp_is_abandoned. destruct (ring_is_abandoned _); wp_run; [by apply HE|by apply HQ]. }
  wp_run. destruct (cm_state (fr_self f)) as [|p|] eqn:Hst.
  - unfold run_command. wp_run. destruct (0 <? _)%N eqn:Hb; wp_run; [|by apply Hend].
    apply wp_pop; simpl.
    + intros _ r _. wp_run. apply Hend. by apply (cmd_ok_less _ _ (fr_self f)); [left|..].
    + intros m rest r _ _. wp_run. destruct (cg_mode _); [wp_run; apply HU|]. wp_run.
      destruct (cm_cmd_program _) as [program|]; [|wp_run; apply HU]. destruct (spawn _ _); [|wp_run; apply HU].
      apply N.ltb_lt in Hb. wp_run. apply HE. by apply (cmd_ok_less _ _ (fr_self f)); [right|..].
  - unfold watch_process. apply wp_bind, wp_bind, wp_forward_line; [done..|]. clear f Hok Hst p. intros p f Hok Hst.
    unfold check_exit, wake_scheduler_. destruct (try_wait (rn_child p)) as [r child]. wp_run. destruct r as [[]|kind]; wp_run; [| |apply HU].
    all: destruct (0 <? fr_work f)%N; wp_run; [apply HE|apply Hend]; apply (cmd_ok_less _ _ (fr_self f)); try done.
    all: simpl; try (by right); left; by rewrite Hst.
  - unfold wake_scheduler_. wp_run. apply Hend. by apply (cmd_ok_less _ _ (fr_self f)); [right|..].
Qed.
End call.

(** ** Runs *)

(** The component, the lines that its processes have printed, and what its
    consumer has received. *)
Record CmdRun : Type := mk_CmdRun {
  mr_cmd : CmdComponent;
  mr_printed : list (list byte);
  mr_got : list FbpMessage
}.

(** What leaves the outport and the waiting lines as they are: packets and
    signals arrive, a producer goes, a process exits, its stdout is closed. *)
Definition elsewhere (c c' : CmdComponent) : Prop :=
  cm_out c' = cm_out c /\ waiting_lines (cm_state c') = waiting_lines (cm_state c).

Inductive cmd_step : CmdRun -> CmdRun -> Prop :=
| cmd_called clock c printed got ctx f r :
    call (process clock) c ctx = Some (f, Some r) ->
    cmd_step (mk_CmdRun c printed got) (mk_CmdRun (fr_self f) printed got)
| cmd_printed c printed got p line rx :
    cm_state c = CmdRunning p -> mpsc_try_send line (rn_stdout_rx p) = (Posted, rx) ->
    cmd_step (mk_CmdRun c printed got)
      (mk_CmdRun (set cm_l_state (CmdRunning (mk_RunningProcess (rn_child p) (rn_stdin_thread p) rx (rn_stdout_thread p))) c)
         (printed ++ [line]) got)
| cmd_elsewhere c c' printed got : elsewhere c c' -> cmd_step (mk_CmdRun c printed got) (mk_CmdRun c' printed got)
| cmd_taken c printed got m r :
    ring_pop (pes_sink (cm_out c)) = (Some m, r) ->
    cmd_step (mk_CmdRun c printed got) (mk_CmdRun (set cm_l_out (set_sink r (cm_out c)) c) printed (got ++ [m])).

Lemma cmd_step_ok s s' :
  cmd_ok (mr_printed s) (mr_got s) (mr_cmd s) -> cmd_step s s' -> cmd_ok (mr_printed s') (mr_got s') (mr_cmd s').
Proof.
  intros Hok Hs. destruct Hs as [clock c printed got ctx f r Hcall|c printed got p line rx Hst Hsend|c c' printed got [Ho Hw]|
    c printed got m r Hpop]; simpl in *.
  - destruct (wp_call (process clock) c ctx (fun f r => is_Some r -> cmd_ok printed got (fr_self f))) as (f' & r' & Hc & H);
      [|rewrite Hcall in Hc; injection Hc as <- <-; by apply H].
    apply (wp_cmd_process clock printed got); [done|by intros ? ? ? ?|by intros ? ? ? ?|by intros ? [? ?]].
  - destruct Hok as (gone & Hp & Hs). rewrite Hst in Hp. simpl in Hp. exists gone. split; [|done]. simpl.
    unfold mpsc_try_send in Hsend. destruct (negb _); [done|]. destruct (mpsc_full _); [done|]. injection Hsend as <-.
    simpl. by rewrite Hp, app_assoc.
  - by apply (cmd_ok_less _ _ c); [left|..].
  - destruct Hok as (gone & Hp & Hs). exists gone. split; [done|]. simpl. unfold sink_items in *. simpl.
    pose proof (ring_pop_items (pes_sink (cm_out c))) as Hpi. pose proof (ring_pop_res (pes_sink (cm_out c))) as Hpr.
    rewrite Hpop in Hpi, Hpr. simpl in *. rewrite Hpi. destruct (ring_items (pes_sink (cm_out c))) as [|x rest]; [done|].
    simpl in Hpr. injection Hpr as ->. by rewrite <- app_assoc.
Qed.

(** Along every run of Cmd, however it is called and whatever its processes
    print and when they exit: what has been received from it and what is on its
    way are lines that its processes have printed, each at most once and in
    order, as texts where they are UTF-8. *)
Theorem cmd_output_in_order s0 s :
  mr_printed s0 = [] -> mr_got s0 = [] -> sink_items (cm_out (mr_cmd s0)) = [] -> cm_state (mr_cmd s0) = CmdIdle ->
  rtc cmd_step s0 s ->
  mr_got s ++ sink_items (cm_out (mr_cmd s)) `sublist_of` map line_message (mr_printed s).
Proof.
  intros Hp Hg Ho Hst Hr. assert (cmd_ok (mr_printed s) (mr_got s) (mr_cmd s)) as (gone & -> & Hs).
  { assert (cmd_ok (mr_printed s0) (mr_got s0) (mr_cmd s0)) as H0.
    { exists []. rewrite Hp, Hg, Ho, Hst. done. }
    clear -H0 Hr. induction Hr; [done|]. eauto using cmd_step_ok. }
  rewrite map_app. by apply sublist_inserts_r.
Qed.

(** Once the producer of its inport is gone, a configured Cmd that is not
    told to stop finishes with the first call that has no line to read, although
    its process runs and has not printed anything yet; and it finishes with the
    call after the exit of a process, although packets are left at the
    inport. *)
Theorem cmd_ends_with_its_input clock (c : CmdComponent) ctx :
  cm_config_loaded c = true -> ring_is_abandoned (cm_inn c) = true ->
  ~ stop_next message_as_utf8 (get cm_l_signals c) ->
  (forall p, cm_state c = CmdRunning p -> mp_items (rn_stdout_rx p) = [] ->
     (forall kind, (try_wait (rn_child p)).1 <> Err kind) ->
     exists f, call (process clock) c ctx = Some (f, Some Finished) /\ cm_inn (fr_self f) = cm_inn c /\ cm_out (fr_self f) = cm_out c) /\
  (cm_state c = CmdCompleted ->
     exists f, call (process clock) c ctx = Some (f, Some Finished) /\ cm_inn (fr_self f) = cm_inn c /\ cm_out (fr_self f) = cm_out c).
Proof.
  intros Hl Ha Hns.
  assert (forall P : frame CmdComponent -> Prop, (forall sin sout (Q : ProcessResult -> frame CmdComponent -> Prop) E,
      (forall f, P f -> E (Return Finished) f) ->
      wp (match cm_state c with CmdIdle => run_command spawn | CmdRunning p => watch_process clock p
          | CmdCompleted => write cm_l_state CmdIdle;; wake_scheduler_ end;;
          abandoned ← is_abandoned cm_l_inn; if (abandoned : bool) then return_ Finished else mret NoWork) Q E
        (mk_frame (set cm_l_signals (mk_Signals sin sout) c) ctx 0 [] 0)) ->
      exists f, call (process clock) c ctx = Some (f, Some Finished) /\ P f) as Hcall.
  { intros P HP. destruct (wp_call (process clock) c ctx (fun f r => r = Some Finished /\ P f)) as (f & r & Hc & -> & HPf);
      [|by exists f]. unfold cmd_process, load_config, check_signals. wp_run. rewrite Hl. wp_run.
    apply wp_zoom, wp_signal_stop; [|by intros Hstop]. intros _ [sin sout] _. apply wp_ret, wp_bind, wp_read. apply (HP sin sout). by intros f ?. }
  split.
  - intros p Hst Hi Hpoll. apply Hcall. intros sin sout Q E HE. rewrite Hst. unfold watch_process, forward_line, check_exit.
    unfold mpsc_try_recv. wp_run. destruct (0 <? _)%N; rewrite ?Hi; wp_run.
    + destruct (mp_tx_alive _); wp_run; destruct (try_wait (rn_child p)) as [[[]|kind] child] eqn:Hw;
        try (by destruct (Hpoll kind)); unfold wake_scheduler_; wp_run; apply wp_is_abandoned; simpl; rewrite Ha; wp_run; by apply HE.
    + destruct (try_wait (rn_child p)) as [[[]|kind] child] eqn:Hw; try (by destruct (Hpoll kind));
        unfold wake_scheduler_; wp_run; apply wp_is_abandoned; simpl; rewrite Ha; wp_run; by apply HE.
  - intros Hst. apply Hcall. intros sin sout Q E HE. rewrite Hst. unfold wake_scheduler_. wp_run.
    apply wp_is_abandoned. simpl. rewrite Ha. wp_run. by apply HE.
Qed.
End cmd.

(** ** Concrete runs *)
#[local] Existing Instance list_rtrb.

Definition demo_clock (n : nat) : Instant := N.of_nat n.
Definition demo_split (line : string) : option (list string) := Some [line].
Definition demo_args (conf : string) : list (option CmdArg) :=
  if String.eqb conf "" then [] else [Some (LongArg "mode" (Some conf))].
Definition demo_cmd_process : proc CmdComponent ProcessResult :=
  cmd_process demo_clock demo_split demo_args (fun _ _ => true).
Definition demo_cmd (abandoned : bool) (items : list FbpMessage) (cmd conf : list FbpMessage) (s : SubprocessState) : CmdComponent :=
  mk_CmdComponent (demo_ring abandoned items) (demo_ring false cmd) (demo_ring false conf) (demo_out 8) demo_channel demo_channel
    (Some "cat") [] (mk_CmdConfig ModeEach false) (bool_decide (cmd = [])) s None.

(** A process has been started, has printed two lines, and one has been read. *)
Lemma demo_cmd_run :
  exists s, rtc (cmd_step demo_split demo_args (fun _ _ => true))
      (mk_CmdRun (demo_cmd false [Bytes [x61]] [Text "cat"] [Text "each"] CmdIdle) [] []) s /\
    mr_printed s = [[x61]; [x62]] /\ sink_items (cm_out (mr_cmd s)) = [Text "a"].
Proof.
  eexists. split.
  - eapply rtc_l; [eapply (cmd_called _ _ _ demo_clock _ [] [] (demo_context Normal 8)); vm_compute; reflexivity|].
    eapply rtc_l; [eapply (cmd_printed _ _ _ _ [] [] _ [x61]); [reflexivity|vm_compute; reflexivity]|].
    eapply rtc_l; [eapply (cmd_printed _ _ _ _ _ [] _ [x62]); [reflexivity|vm_compute; reflexivity]|].
    eapply rtc_l; [eapply (cmd_called _ _ _ demo_clock _ _ [] (demo_context Normal 8)); vm_compute; reflexivity|].
    apply rtc_refl.
  - split; vm_compute; reflexivity.
Defined.

Lemma cmd_output_in_order_witness :
  exists s, mr_printed s = [[x61]; [x62]] /\ sink_items (cm_out (mr_cmd s)) = [Text "a"] /\
    mr_got s ++ sink_items (cm_out (mr_cmd s)) `sublist_of` map line_message (mr_printed s).
Proof.
  destruct demo_cmd_run as (s & Hr & Hp & Ho). exists s. split; [exact Hp|]. split; [exact Ho|].
  exact (cmd_output_in_order demo_split demo_args (fun _ _ => true)
    (mk_CmdRun (demo_cmd false [Bytes [x61]] [Text "cat"] [Text "each"] CmdIdle) [] []) s eq_refl eq_refl eq_refl eq_refl Hr).
Defined.

(** A process that is running; its producer is gone, and a packet is left. *)
Definition busy_cmd (lines : list (list byte)) (polls : list (result bool ErrorKind)) : SubprocessState :=
  CmdRunning (mk_RunningProcess (mk_Child "cat" [] [] polls false) true (with_items lines channel) true).
Lemma cmd_ends_with_its_input_witness :
  exists f, call demo_cmd_process (demo_cmd true [Bytes [x62]] [] [] (busy_cmd [] [])) (demo_context Normal 8) = Some (f, Some Finished) /\
    ring_items (cm_inn (fr_self f)) = [Bytes [x62]].
Proof.
  destruct (cmd_ends_with_its_input demo_split demo_args (fun _ _ => true) demo_clock
    (demo_cmd true [Bytes [x62]] [] [] (busy_cmd [] [])) (demo_context Normal 8)) as [H _].
  - reflexivity.
  - reflexivity.
  - intros (m & Hm & _). discriminate Hm.
  - destruct (H (mk_RunningProcess (mk_Child "cat" [] [] [] false) true channel true)) as (f & Hcall & Hi & _).
    + reflexivity.
    + reflexivity.
    + intros kind. discriminate.
    + exists f. split; [exact Hcall|]. rewrite Hi. reflexivity.
Defined.

(** The packets sent and the lines left after some calls. *)
Definition cmd_calls (budgets : list N) (c : CmdComponent) : option CmdComponent :=
  foldl (fun c b => c ← c; p ← call demo_cmd_process c (demo_context Normal b);
                    match p with (f, Some _) => Some (fr_self f) | _ => None end) (Some c) budgets.
(** One line is read in the call in which the process is found to have exited;
    the others are dropped. *)
Example cmd_drops_output :
  (c ← cmd_calls [8; 8; 8]%N (demo_cmd false [] [] [] (busy_cmd [[x61]; [x62]; [x63]] [Ok true]));
   Some (sink_items (cm_out c), waiting_lines (cm_state c))) = Some ([Text "a"], []).
Proof. vm_compute. reflexivity. Qed.
(** A command line that comes before the options is forgotten: when they have
    come another one is waited for. *)
Example cmd_waits_for_another :
  (c ← cmd_calls [8; 8]%N (demo_cmd false [] [Text "cat"] [] CmdIdle);
   c ← cmd_calls [8; 8]%N (set cm_l_conf (demo_ring false [Text "each"]) c);
   Some (cm_config_loaded c)) = Some false.
Proof. vm_compute. reflexivity. Qed.
