(* ===== verification/Http.v ===== *)
(** The messages of [src/components/http/src/http.rs]: requests, responses, routes,
    the configuration, the printing of responses, and the incremental parser of
    requests.

    The parser is one iteration of its loop, [parse_step], and the loop, which
    need not end: [parse_loop] is given fuel.  The case mappings of the standard
    library are an interface, [CaseMapping], of which only the effect on ASCII
    text is known. *)
From S2P Require Import Prelude Api Pipes Relays Io Filters.
From Stdlib Require Strings.String.
From Stdlib Require Import NArith ZArith Lia Strings.Byte Strings.Ascii.
From stdpp Require Import base list strings gmap pretty sorting.
Local Open Scope string_scope.
Local Open Scope list_scope.
Local Open Scope flowd_scope.

(** * Text operations of the standard library *)

(** [str::to_uppercase] and [str::to_lowercase], which follow the tables of
    Unicode. *)
Definition is_ascii_text (s : string) : Prop := Forall Io.ascii (string_bytes s).
Class CaseMapping : Type := {
  to_uppercase : string -> string;
  to_lowercase : string -> string;
  to_uppercase_ascii s : is_ascii_text s -> to_uppercase s = to_ascii_uppercase s;
  to_lowercase_ascii s : is_ascii_text s -> to_lowercase s = to_ascii_lowercase s
}.
Definition ascii_case_mapping : CaseMapping := {|
  to_uppercase := to_ascii_uppercase;
  to_lowercase := to_ascii_lowercase;
  to_uppercase_ascii _ _ := eq_refl;
  to_lowercase_ascii _ _ := eq_refl
|}.

(** [s.split_once(c)]; [s.find(c)] with the two slices around the position. *)
Fixpoint str_split_once (c : ascii) (s : string) : option (string * string) :=
  match s with
  | EmptyString => None
  | String a r =>
      if Ascii.eqb a c then Some (EmptyString, r)
      else match str_split_once c r with
           | Some (before, after) => Some (String a before, after)
           | None => None
           end
  end.

(** [s.split_whitespace()], on the bytes of the text; [word] is the word under
    way. *)
Definition end_word (word : list byte) (words : list (list byte)) : list (list byte) :=
  match word with [] => words | _ => word :: words end.
Fixpoint words_from (word bs : list byte) : list (list byte) :=
  match bs with
  | [] => end_word word []
  | a :: r1 =>
      if ws1 a then end_word word (words_from [] r1) else
      match r1 with
      | [] => words_from (word ++ [a]) r1
      | b :: r2 =>
          if ws2 a b then end_word word (words_from [] r2) else
          match r2 with
          | [] => words_from (word ++ [a]) r1
          | c :: r3 =>
              if ws3 a b c then end_word word (words_from [] r3) else words_from (word ++ [a]) r1
          end
      end
  end.
Definition split_whitespace (s : string) : list string :=
  map String.string_of_list_byte (words_from [] (string_bytes s)).

(** [usize::from_str_radix(s, 16)], as [parse_uint] for the other radix. *)
Definition parse_hex_digit (b : byte) : option N :=
  if byte_in 48 57 b then Some (Byte.to_N b - 48)%N
  else if byte_in 65 70 b then Some (Byte.to_N b - 55)%N
  else if byte_in 97 102 b then Some (Byte.to_N b - 87)%N else None.
Fixpoint parse_radix16 (acc : N) (bs : list byte) : option N :=
  match bs with
  | [] => Some acc
  | b :: rest =>
      match parse_hex_digit b with
      | None => None
      | Some d =>
          if (acc * 16 <? u64_modulus)%N && (acc * 16 + d <? u64_modulus)%N
          then parse_radix16 (acc * 16 + d) rest else None
      end
  end.
Definition parse_usize_hex (bs : list byte) : option N :=
  match bs with
  | [] => None
  | b :: rest =>
      if bool_decide (b = x2b) then match rest with [] => None | _ => parse_radix16 0 rest end
      else parse_radix16 0 bs
  end.

(** The format x of a number: its digits, without leading zeros. *)
Fixpoint strip_zeros (s : string) : string :=
  match s with
  | EmptyString => "0"
  | String c EmptyString => s
  | String c r => if Ascii.eqb c "0" then strip_zeros r else s
  end.
Definition lower_hex (n : N) : string := strip_zeros (hex16 n).

Definition crlf : list byte := [x0d; x0a].
Definition bytes_of (s : string) : list byte := string_bytes s.

(** * Requests and responses *)

Record HttpRequest : Type := mk_HttpRequest {
  method : string;
  path : string;
  query_params : gmap string string;
  path_params : gmap string string;
  version : string;
  req_headers : gmap string string;
  req_body : list byte
}.
Definition set_path_params (p : gmap string string) (r : HttpRequest) : HttpRequest :=
  mk_HttpRequest (method r) (path r) (query_params r) p (version r) (req_headers r) (req_body r).
Definition set_req_headers (h : gmap string string) (r : HttpRequest) : HttpRequest :=
  mk_HttpRequest (method r) (path r) (query_params r) (path_params r) (version r) h (req_body r).
Definition set_req_body (b : list byte) (r : HttpRequest) : HttpRequest :=
  mk_HttpRequest (method r) (path r) (query_params r) (path_params r) (version r) (req_headers r) b.

Record HttpResponse : Type := mk_HttpResponse {
  status_code : N;
  status_text : string;
  resp_headers : gmap string string;
  resp_body : list byte
}.

(** [buffer.windows(2).position(|w| w == b"\r\n")]. *)
Fixpoint find_crlf (buffer : list byte) : option nat :=
  match buffer with
  | a :: rest =>
      match rest with
      | b :: _ =>
          if bool_decide (a = x0d) && bool_decide (b = x0a) then Some 0%nat else S <$> find_crlf rest
      | [] => None
      end
  | [] => None
  end.

Section text.
Context `{CM : CaseMapping}.

Definition parse_header_line (line : string) : option (string * string) :=
  match str_split_once ":" line with
  | Some (key, value) => Some (to_lowercase (str_trim key), str_trim value)
  | None => None
  end.

Definition parse_chunk_size (hex_str : string) : option N := parse_usize_hex (string_bytes (str_trim hex_str)).

(** [part.starts_with('{') && part.ends_with('}')], and the name between. *)
Definition param_name (part : string) : option string :=
  if String.prefix "{" part && bool_decide (String.get (String.length part - 1) part = Some "}"%char)
  then Some (String.substring 1 (String.length part - 2) part) else None.

Fixpoint match_parts (parts : list (string * string)) (params : gmap string string) :
    option (gmap string string) :=
  match parts with
  | [] => Some params
  | (req_part, route_part) :: parts =>
      match param_name route_part with
      | Some name => match_parts parts (<[name := req_part]> params)
      | None => if String.eqb req_part route_part then match_parts parts params else None
      end
  end.
Definition match_route_with_params (request_path route_pattern : string) : option (gmap string string) :=
  let request_parts := str_split "/" request_path in
  let route_parts := str_split "/" route_pattern in
  if bool_decide (length request_parts = length route_parts)
  then match_parts (combine request_parts route_parts) ∅ else None.

(** [sort] of strings, by their bytes. *)
Definition str_le (a b : string) : Prop := String.leb a b = true.
#[export] Instance str_le_dec a b : Decision (str_le a b).
Proof. unfold str_le. apply _. Defined.
Definition encode_map_line `{HI : HashIter} (m : gmap string string) : string :=
  let pairs := map (fun kv => kv.1 +:+ "=" +:+ kv.2) (hash_iter m) in
  String.concat "&" (merge_sort str_le pairs).

Definition linefeed_byte : list byte := [x0a].
Definition encode_request_for_req_port `{HI : HashIter} (request : HttpRequest) : list byte :=
  string_bytes "METHOD=" ++ string_bytes (method request) ++ linefeed_byte
  ++ string_bytes "PATH=" ++ string_bytes (path request) ++ linefeed_byte
  ++ string_bytes "VERSION=" ++ string_bytes (version request) ++ linefeed_byte
  ++ string_bytes "QUERY=" ++ string_bytes (encode_map_line (query_params request)) ++ linefeed_byte
  ++ string_bytes "PATH_PARAMS=" ++ string_bytes (encode_map_line (path_params request)) ++ linefeed_byte
  ++ string_bytes "BODY=" ++ utf8_lossy (req_body request) ++ linefeed_byte.

(** The address, and the time-out of the last pair that gives one. *)
Definition conf_pair (timeout : option Duration) (pair : string) : option Duration :=
  match str_split_once "=" pair with
  | None => timeout
  | Some (key, value) =>
      if eq_ignore_ascii_case (str_trim key) "keep_alive_timeout_ms" then
        match parse_u64 (string_bytes (str_trim value)) with
        | Some ms => if (0 <? ms)%N then Some (ms * 1000000)%N else timeout
        | None => timeout
        end
      else timeout
  end.
Definition parse_http_server_conf (conf : string) : string * option Duration :=
  match str_split_once "?" conf with
  | Some (addr, query) => (str_trim addr, foldl conf_pair None (str_split "&" query))
  | None => (str_trim conf, None)
  end.

Record RouteConfig : Type := mk_RouteConfig { rt_method : string; rt_path : string }.

(** The routes of a configuration packet: "METHOD path" or "path". *)
Definition parse_route (route_spec : string) : RouteConfig :=
  match split_whitespace (str_trim route_spec) with
  | [m; p] => mk_RouteConfig (to_uppercase m) p
  | _ => mk_RouteConfig "GET" (str_trim route_spec)
  end.
Definition parse_routes (routes_str : string) : list RouteConfig := map parse_route (str_split "," routes_str).

(** The first route for a request, with the parameters of its path. *)
Fixpoint find_route (i : nat) (routes : list RouteConfig) (request : HttpRequest) :
    option (nat * gmap string string) :=
  match routes with
  | [] => None
  | route :: routes =>
      if String.eqb (method request) (rt_method route) then
        if String.eqb (path request) (rt_path route) then Some (i, ∅)
        else match match_route_with_params (path request) (rt_path route) with
             | Some params => Some (i, params)
             | None => find_route (S i) routes request
             end
      else find_route (S i) routes request
  end.
End text.

(** * Printing responses *)

Definition get_status_text (code : N) : string :=
  match code with
  | 100 => "Continue" | 101 => "Switching Protocols" | 102 => "Processing"
  | 200 => "OK" | 201 => "Created" | 202 => "Accepted" | 203 => "Non-Authoritative Information"
  | 204 => "No Content" | 205 => "Reset Content" | 206 => "Partial Content" | 207 => "Multi-Status"
  | 208 => "Already Reported" | 226 => "IM Used"
  | 300 => "Multiple Choices" | 301 => "Moved Permanently" | 302 => "Found" | 303 => "See Other"
  | 304 => "Not Modified" | 305 => "Use Proxy" | 307 => "Temporary Redirect" | 308 => "Permanent Redirect"
  | 400 => "Bad Request" | 401 => "Unauthorized" | 402 => "Payment Required" | 403 => "Forbidden"
  | 404 => "Not Found" | 405 => "Method Not Allowed" | 406 => "Not Acceptable"
  | 407 => "Proxy Authentication Required" | 408 => "Request Timeout" | 409 => "Conflict" | 410 => "Gone"
  | 411 => "Length Required" | 412 => "Precondition Failed" | 413 => "Payload Too Large"
  | 414 => "URI Too Long" | 415 => "Unsupported Media Type" | 416 => "Range Not Satisfiable"
  | 417 => "Expectation Failed" | 418 => "I'm a teapot" | 421 => "Misdirected Request"
  | 422 => "Unprocessable Entity" | 423 => "Locked" | 424 => "Failed Dependency" | 425 => "Too Early"
  | 426 => "Upgrade Required" | 428 => "Precondition Required" | 429 => "Too Many Requests"
  | 431 => "Request Header Fields Too Large" | 451 => "Unavailable For Legal Reasons"
  | 500 => "Internal Server Error" | 501 => "Not Implemented" | 502 => "Bad Gateway"
  | 503 => "Service Unavailable" | 504 => "Gateway Timeout" | 505 => "HTTP Version Not Supported"
  | 506 => "Variant Also Negotiates" | 507 => "Insufficient Storage" | 508 => "Loop Detected"
  | 510 => "Not Extended" | 511 => "Network Authentication Required"
  | _ => "Unknown Status"
  end%N.

(** [body.chunks(n)], for [n] above zero: every round takes [n] bytes. *)
Fixpoint chunks_of (fuel n : nat) (bs : list byte) : list (list byte) :=
  match fuel with
  | O => []
  | S fuel => match bs with [] => [] | _ => take n bs :: chunks_of fuel n (drop n bs) end
  end.
Definition body_chunks (n : nat) (bs : list byte) : list (list byte) := chunks_of (length bs) n bs.

Definition CHUNK_SIZE : nat := 4096.
Definition encode_chunk (chunk : list byte) : list byte :=
  string_bytes (lower_hex (N.of_nat (length chunk))) ++ crlf ++ chunk ++ crlf.
Definition last_chunk : list byte := string_bytes "0" ++ crlf ++ crlf.
Definition encode_chunked (body : list byte) : list byte :=
  concat (map encode_chunk (body_chunks CHUNK_SIZE body)) ++ last_chunk.

Section responses.
Context `{CM : CaseMapping} `{HI : HashIter}.

Definition has_header (name : string) (response : HttpResponse) : bool :=
  existsb (fun kv => eq_ignore_ascii_case kv.1 name) (hash_iter (resp_headers response)).
Definition header_line (name value : string) : list byte :=
  string_bytes name ++ string_bytes ": " ++ string_bytes value ++ crlf.

Definition use_chunked (response : HttpResponse) : bool :=
  (8192 <? N.of_nat (length (resp_body response)))%N
  || bool_decide (to_lowercase <$> resp_headers response !! "transfer-encoding" = Some "chunked").

(** [date] is the formatted time; before 1970 there is none, and none is asked
    for if the response brings one. *)
Definition response_head (date : option string) (response : HttpResponse) : list byte :=
  string_bytes "HTTP/1.1 " ++ string_bytes (pretty (status_code response)) ++ string_bytes " "
  ++ string_bytes (status_text response) ++ crlf
  ++ (if has_header "date" response then []
      else match date with Some formatted => header_line "Date" formatted | None => [] end)
  ++ (if has_header "connection" response then [] else header_line "Connection" "close")
  ++ (if use_chunked response then
        match resp_headers response !! "transfer-encoding" with
        | Some _ => []
        | None => header_line "Transfer-Encoding" "chunked"
        end
      else if has_header "content-length" response then []
      else header_line "Content-Length" (pretty (length (resp_body response))))
  ++ header_line "Server" "flowd/0.5"
  ++ concat (map (fun kv => header_line kv.1 kv.2) (hash_iter (resp_headers response)))
  ++ crlf.
Definition format_response (date : option string) (response : HttpResponse) : list byte :=
  response_head date response
  ++ (if use_chunked response then encode_chunked (resp_body response) else resp_body response).
End responses.

(** * The parser *)

(** [HttpParseState]; [ParseComplete] is [Complete], which nothing constructs. *)
Inductive HttpParseState : Type :=
| RequestLine
| Headers (headers : gmap string string)
| Body (content_length received : N) (buffer : list byte)
| ChunkedBody (chunks : list (list byte)) (chunk_size : option N) (buffer : list byte)
| Trailers (headers : gmap string string) (chunks : list (list byte))
| ParseComplete (request : HttpRequest).

(** The fields of [ConnectionState::ReadingRequest]. *)
Record Reading : Type := mk_Reading {
  rd_state : HttpParseState;
  rd_buffer : list byte;
  rd_request : option HttpRequest
}.
Definition fresh_reading : Reading := mk_Reading RequestLine [] None.

(** How an iteration of the parsing loop ends: with the next one, or with the
    end of the loop.  [Finish] is [parsing_complete], with the response to an
    error if there was one. *)
Inductive parse_round : Type :=
| Again (rd : Reading)
| NeedMore (rd : Reading)
| Finish (response : option HttpResponse) (rd : Reading).

Definition error_response (code : N) (text body : string) : HttpResponse :=
  mk_HttpResponse code text ∅ (string_bytes body).
Definition bad_request (body : string) : option HttpResponse := Some (error_response 400 "Bad Request" body).

Section parser.
Context `{CM : CaseMapping}.

(** The query of a request target. *)
Definition query_pair (query_params : gmap string string) (pair : string) : gmap string string :=
  match str_split_once "=" pair with
  | Some (key, value) => <[key := value]> query_params
  | None => if String.eqb pair "" then query_params else <[pair := ""]> query_params
  end.
Definition parse_target (target : string) : string * gmap string string :=
  match str_split_once "?" target with
  | Some (path, query) => (path, foldl query_pair ∅ (str_split "&" query))
  | None => (target, ∅)
  end.

Definition parse_request_line (rd : Reading) : parse_round :=
  match find_crlf (rd_buffer rd) with
  | None => NeedMore rd
  | Some line_end =>
      match from_utf8 (take line_end (rd_buffer rd)) with
      | None => Finish (bad_request "Invalid UTF-8 in request line") rd
      | Some line_str =>
          match split_whitespace line_str with
          | [m; target; v] =>
              let '(p, query) := parse_target target in
              let v := to_uppercase v in
              if String.prefix "HTTP/1." v then
                Again (mk_Reading (Headers ∅) (drop (line_end + 2) (rd_buffer rd))
                         (Some (mk_HttpRequest (to_uppercase m) p query ∅ v ∅ [])))
              else
                Finish (Some (error_response 505 "HTTP Version Not Supported"
                                "Only HTTP/1.0 and HTTP/1.1 are supported")) rd
          | _ => Finish (bad_request "Invalid request line format") rd
          end
      end
  end.

(** The empty line behind the headers. *)
Definition end_of_headers (headers : gmap string string) (buffer : list byte) (request : option HttpRequest) :
    parse_round :=
  match request with
  | None => Again (mk_Reading (Headers headers) buffer None)
  | Some req =>
      let request := Some (set_req_headers headers req) in
      if bool_decide (to_lowercase <$> headers !! "transfer-encoding" = Some "chunked") then
        Again (mk_Reading (ChunkedBody [] None []) buffer request)
      else
        match headers !! "content-length" with
        | Some cl_str =>
            match parse_u64 (string_bytes cl_str) with
            | Some cl =>
                if (0 <? cl)%N then Again (mk_Reading (Body cl 0 []) buffer request)
                else Finish None (mk_Reading (Headers headers) buffer request)
            | None =>
                Finish (bad_request "Invalid Content-Length header") (mk_Reading (Headers headers) buffer request)
            end
        | None => Finish None (mk_Reading (Headers headers) buffer request)
        end
  end.

(** The loop over the header lines: every round takes the two bytes of a line
    end, so that the length of the buffer is enough fuel. *)
Fixpoint parse_headers (fuel : nat) (headers : gmap string string) (buffer : list byte)
    (request : option HttpRequest) : parse_round :=
  match fuel with
  | O => Again (mk_Reading (Headers headers) buffer request)
  | S fuel =>
      match find_crlf buffer with
      | None => Again (mk_Reading (Headers headers) buffer request)
      | Some O => end_of_headers headers (drop 2 buffer) request
      | Some line_end =>
          let rd := mk_Reading (Headers headers) buffer request in
          match from_utf8 (take line_end buffer) with
          | None => Finish (bad_request "Invalid UTF-8 in header line") rd
          | Some line_str =>
              match parse_header_line line_str with
              | Some (key, value) =>
                  parse_headers fuel (<[key := value]> headers) (drop (line_end + 2) buffer) request
              | None => Finish (bad_request "Invalid header line format") rd
              end
          end
      end
  end.

Definition parse_body (content_length received : N) (body_buffer : list byte) (buffer : list byte)
    (request : option HttpRequest) : parse_round :=
  let remaining := (content_length - received)%N in
  let to_read := N.min remaining (N.of_nat (length buffer)) in
  if (0 <? to_read)%N then
    let body_buffer := body_buffer ++ take (N.to_nat to_read) buffer in
    let buffer := drop (N.to_nat to_read) buffer in
    let received := (received + to_read)%N in
    if (content_length <=? received)%N then
      Finish None (mk_Reading (Body content_length received body_buffer) buffer (set_req_body body_buffer <$> request))
    else NeedMore (mk_Reading (Body content_length received body_buffer) buffer request)
  else NeedMore (mk_Reading (Body content_length received body_buffer) buffer request).

(** A chunk whose size is known; the inner loop ends in every case. *)
Definition parse_chunk (chunks : list (list byte)) (size : N) (chunk_buffer buffer : list byte)
    (request : option HttpRequest) : parse_round :=
  if (size =? 0)%N then Again (mk_Reading (Trailers ∅ chunks) buffer request)
  else
    let to_read := N.to_nat (N.min size (N.of_nat (length buffer))) in
    if (0 <? to_read)%nat then
      let chunk_buffer := chunk_buffer ++ take to_read buffer in
      let buffer := drop to_read buffer in
      if (size <=? N.of_nat (length chunk_buffer))%N then
        let buffer := if bool_decide (take 2 buffer = crlf) then drop 2 buffer else buffer in
        Again (mk_Reading (ChunkedBody (chunks ++ [chunk_buffer]) None []) buffer request)
      else Again (mk_Reading (ChunkedBody chunks (Some size) chunk_buffer) buffer request)
    else Again (mk_Reading (ChunkedBody chunks (Some size) chunk_buffer) buffer request).

(** The inner loop: at most one size is read, and then its chunk. *)
Definition parse_chunked (chunks : list (list byte)) (chunk_size : option N) (chunk_buffer buffer : list byte)
    (request : option HttpRequest) : parse_round :=
  match chunk_size with
  | Some size => parse_chunk chunks size chunk_buffer buffer request
  | None =>
      let rd := mk_Reading (ChunkedBody chunks None chunk_buffer) buffer request in
      match find_crlf buffer with
      | None => Again rd
      | Some line_end =>
          match from_utf8 (take line_end buffer) with
          | None => Finish (bad_request "Invalid UTF-8 in chunk size") rd
          | Some size_line =>
              match parse_chunk_size size_line with
              | Some size => parse_chunk chunks size chunk_buffer (drop (line_end + 2) buffer) request
              | None => Finish (bad_request "Invalid chunk size") rd
              end
          end
      end
  end.

(** One iteration of the loop. *)
Definition parse_step (rd : Reading) : parse_round :=
  match rd_state rd with
  | RequestLine => parse_request_line rd
  | Headers headers => parse_headers (length (rd_buffer rd)) headers (rd_buffer rd) (rd_request rd)
  | Body content_length received buffer =>
      parse_body content_length received buffer (rd_buffer rd) (rd_request rd)
  | ChunkedBody chunks chunk_size buffer =>
      parse_chunked chunks chunk_size buffer (rd_buffer rd) (rd_request rd)
  | Trailers headers chunks =>
      Finish None (mk_Reading (rd_state rd) (rd_buffer rd) (set_req_body (concat chunks) <$> rd_request rd))
  | ParseComplete _ => Finish None rd
  end.

(** [while !parsing_complete && context.remaining_budget > 0], which is entered
    with a budget that the loop does not use. *)
Fixpoint parse_loop (fuel : nat) (rd : Reading) : option parse_round :=
  match fuel with
  | O => None
  | S fuel =>
      match parse_step rd with
      | Again rd => parse_loop fuel rd
      | r => Some r
      end
  end.
End parser.
