(* ===== verification/HttpTheorems.v ===== *)
(** What is proved about the messages of HTTP: a request that is printed as the
    standard has it is read back, the server's chunked encoding is the inverse of
    its parser, routes, and the requests at which the parser never ends. *)
From S2P Require Import Prelude Api Pipes PipesTheorems Relays RelaysTheorems Io Filters FiltersTheorems Http.
From Stdlib Require Strings.String.
From Stdlib Require Import NArith ZArith Lia ZifyBool Strings.Byte Strings.Ascii.
From stdpp Require Import base list strings gmap pretty sorting.
Local Open Scope string_scope.
Local Open Scope list_scope.

(** * Text *)

(** A visible character of ASCII. *)
Definition graphic (b : byte) : Prop := byte_in 33 126 b = true.
(** A token: visible characters, and at least one. *)
Definition token (s : string) : Prop := s <> "" /\ Forall graphic (string_bytes s).

Lemma graphic_ascii bs : Forall graphic bs -> Forall Io.ascii bs.
Proof. intros H. eapply Forall_impl; [exact H|]. unfold graphic, Io.ascii, byte_in. lia. Qed.

Lemma graphic_not b c : byte_in 33 126 c = false -> graphic b -> b <> c.
Proof. intros Hc Hb ->. unfold graphic in Hb. congruence. Qed.

Lemma not_in_graphic c bs : byte_in 33 126 c = false -> Forall graphic bs -> c ∉ bs.
Proof. intros Hc Hbs Hin. rewrite Forall_forall in Hbs. by apply (graphic_not c c Hc (Hbs c Hin)). Qed.

Lemma utf8_valid_ascii bs : Forall Io.ascii bs -> utf8_valid bs = true.
Proof. induction 1 as [|b bs Hb _ IH]; [done|]. cbn [utf8_valid]. unfold Io.ascii in Hb. by rewrite Hb. Qed.

Lemma string_of_bytes s : String.string_of_list_byte (string_bytes s) = s.
Proof. apply String.string_of_list_byte_of_string. Qed.

Lemma bytes_of_string bs : string_bytes (String.string_of_list_byte bs) = bs.
Proof. apply String.list_byte_of_string_of_list_byte. Qed.

Lemma from_utf8_ascii bs : Forall Io.ascii bs -> from_utf8 bs = Some (String.string_of_list_byte bs).
Proof. intros H. unfold from_utf8. by rewrite utf8_valid_ascii. Qed.

Lemma string_bytes_app s t : string_bytes (s +:+ t) = string_bytes s ++ string_bytes t.
Proof.
  unfold string_bytes, String.list_byte_of_string. rewrite <- map_app. f_equal.
  induction s as [|c s IH]; [done|]. simpl. by rewrite IH.
Qed.

Lemma string_bytes_cons c s : string_bytes (String c s) = byte_of_ascii c :: string_bytes s.
Proof. done. Qed.

Lemma string_bytes_nil s : string_bytes s = [] -> s = "".
Proof. by destruct s. Qed.

(** A graphic character starts no white space and ends none. *)
Lemma graphic_ws a b c : graphic a ->
  ws1 a = false /\ ws2 a b = false /\ ws3 a b c = false /\ ws2 b a = false /\ ws3 c b a = false.
Proof. unfold graphic, ws1, ws2, ws3, byte_in. intros Ha. split_and!; lia. Qed.

Lemma words_from_graphic word t rest :
  Forall graphic t -> words_from word (t ++ rest) = words_from (word ++ t) rest.
Proof.
  intros Ht. revert word. induction Ht as [|a t Ha _ IH]; intros word; [by rewrite app_nil_r|].
  cbn [app words_from]. destruct (graphic_ws a a a Ha) as (-> & _).
  replace (word ++ a :: t) with ((word ++ [a]) ++ t) by (by rewrite <- app_assoc). rewrite <- IH.
  destruct (t ++ rest) as [|b r2] eqn:Hr; [done|]. destruct (graphic_ws a b b Ha) as (_ & -> & _).
  destruct r2 as [|c r3]; [done|]. by destruct (graphic_ws a b c Ha) as (_ & _ & -> & _).
Qed.

Lemma words_space word rest : words_from word (x20 :: rest) = end_word word (words_from [] rest).
Proof. done. Qed.

Definition space : list byte := [x20].

Lemma split_three a b c :
  token a -> token b -> token c ->
  split_whitespace (String.string_of_list_byte (string_bytes a ++ space ++ string_bytes b ++ space ++ string_bytes c)) =
    [a; b; c].
Proof.
  intros [Ha0 Ha] [Hb0 Hb] [Hc0 Hc]. unfold split_whitespace. rewrite bytes_of_string.
  rewrite words_from_graphic by done. cbn [space app]. rewrite words_space, words_from_graphic by done.
  rewrite words_space. rewrite <- (app_nil_r (string_bytes c)) at 1. rewrite words_from_graphic by done. simpl.
  assert (forall s l, s <> "" -> end_word (string_bytes s) l = string_bytes s :: l) as Hend.
  { intros s l Hs. destruct (string_bytes s) eqn:He; [by apply string_bytes_nil in He|done]. }
  by rewrite !Hend, !map_cons, !string_of_bytes.
Qed.

(** Trimming. *)
Lemma strip_graphic w2 w3 a r :
  graphic a -> (forall b, w2 a b = false) -> (forall b c, w3 a b c = false) -> strip w2 w3 (a :: r) = a :: r.
Proof.
  intros Ha H2 H3. cbn [strip]. destruct (graphic_ws a a a Ha) as (-> & _). destruct r as [|b [|c r]]; [done|..].
  - by rewrite H2.
  - by rewrite H2, H3.
Qed.

(** Text that starts and ends with visible characters. *)
Definition tight (bs : list byte) : Prop := (forall a, head bs = Some a -> graphic a) /\ (forall a, last bs = Some a -> graphic a).

Lemma trim_start_tight bs : tight bs -> trim_start bs = bs.
Proof.
  intros [H _]. destruct bs as [|a r]; [done|]. assert (graphic a) as Ha by (by apply H).
  apply strip_graphic; [done|intros b; apply (graphic_ws a b b Ha)|intros b c; apply (graphic_ws a b c Ha)].
Qed.

Lemma trim_end_tight bs : tight bs -> trim_end bs = bs.
Proof.
  intros [_ H]. unfold trim_end. destruct (rev bs) as [|a r] eqn:Hr.
  - apply (f_equal (@rev byte)) in Hr. rewrite rev_involutive in Hr. by rewrite Hr.
  - assert (bs = rev r ++ [a]) as ->.
    { apply (f_equal (@rev byte)) in Hr. by rewrite rev_involutive in Hr. }
    assert (graphic a) as Ha by (apply H; by rewrite last_snoc).
    rewrite strip_graphic; [done|done|intros b; apply (graphic_ws a b b Ha)|intros b c; apply (graphic_ws a b c Ha)].
Qed.

Lemma str_trim_tight s : tight (string_bytes s) -> str_trim s = s.
Proof. intros H. unfold str_trim. by rewrite trim_start_tight, trim_end_tight, string_of_bytes. Qed.

Lemma str_trim_space s : tight (string_bytes s) -> str_trim (String " " s) = s.
Proof.
  intros H. unfold str_trim. rewrite string_bytes_cons.
  replace (trim_start (byte_of_ascii " " :: string_bytes s)) with (trim_start (string_bytes s)) by done.
  by rewrite trim_start_tight, trim_end_tight, string_of_bytes.
Qed.

Lemma graphic_tight bs : Forall graphic bs -> tight bs.
Proof.
  intros H. rewrite Forall_forall in H. split; intros a Ha; apply H.
  - destruct bs; [done|]. injection Ha as ->. by left.
  - by apply last_Some_elem_of.
Qed.

(** Splitting. *)
Lemma str_split_once_app c k v : string_has c k = false -> str_split_once c (k +:+ String c v) = Some (k, v).
Proof.
  induction k as [|a k IH]; simpl; [by rewrite Ascii.eqb_refl|].
  destruct (Ascii.eqb a c); [done|]. intros Hk. fold (k +:+ String c v)%string.
  change (String.append k (String c v)) with (k +:+ String c v). by rewrite IH.
Qed.

(** The first line end. *)
Lemma find_crlf_app l rest : x0d ∉ l -> find_crlf (l ++ crlf ++ rest) = Some (length l).
Proof.
  induction l as [|a l IH]; intros Hl; [done|]. apply not_elem_of_cons in Hl as [Ha Hl].
  specialize (IH Hl). simpl. destruct (l ++ x0d :: x0a :: rest) as [|b r] eqn:Hr; [by destruct l|].
  rewrite bool_decide_eq_false_2 by done. simpl. unfold crlf in IH. simpl in IH. rewrite Hr in IH. simpl in IH. by rewrite IH.
Qed.

(** * The header lines *)
(** A field: the name is a token without a colon, and the value, which may be
    empty, has no white space at its ends. *)
Definition field_ok (kv : string * string) : Prop :=
  token kv.1 /\ string_has ":" kv.1 = false /\
  Forall (fun b => byte_in 32 126 b = true) (string_bytes kv.2) /\ tight (string_bytes kv.2).

Lemma field_ok_graphic k v : token k -> string_has ":" k = false -> Forall graphic (string_bytes v) -> field_ok (k, v).
Proof.
  intros Hk Hc Hv. split_and!; simpl; [done..| |by apply graphic_tight].
  eapply Forall_impl; [exact Hv|]. unfold graphic, byte_in. lia.
Qed.

Ltac solve_token := split; [discriminate|repeat constructor].
Ltac solve_field := apply field_ok_graphic; [solve_token|reflexivity|repeat constructor].

Section parser.
Context `{CM : CaseMapping}.

Definition add_field (headers : gmap string string) (kv : string * string) : gmap string string :=
  <[to_ascii_lowercase kv.1 := kv.2]> headers.

Definition field_text (kv : string * string) : string := kv.1 +:+ String ":" (String " " kv.2).

Lemma header_line_text kv : header_line kv.1 kv.2 = string_bytes (field_text kv) ++ crlf.
Proof. unfold header_line, field_text. by rewrite string_bytes_app, !string_bytes_cons, <- !app_assoc. Qed.

Lemma parse_field kv : field_ok kv -> parse_header_line (field_text kv) = Some (to_ascii_lowercase kv.1, kv.2).
Proof.
  intros ([_ Hg] & Hc & _ & Ht). unfold parse_header_line, field_text. rewrite str_split_once_app by done.
  rewrite str_trim_space by done. rewrite str_trim_tight by (by apply graphic_tight).
  by rewrite to_lowercase_ascii by (by apply graphic_ascii).
Qed.

(** The bytes of a field are printable ASCII. *)
Lemma field_bytes kv : field_ok kv -> Forall (fun b => byte_in 32 126 b = true) (string_bytes (field_text kv)).
Proof.
  intros ([_ Hg] & _ & Hv & _). unfold field_text. rewrite string_bytes_app, !string_bytes_cons.
  apply Forall_app. split; [|repeat constructor; done]. eapply Forall_impl; [exact Hg|].
  unfold graphic, byte_in. lia.
Qed.

Lemma printable_ascii bs : Forall (fun b => byte_in 32 126 b = true) bs -> Forall Io.ascii bs /\ x0d ∉ bs.
Proof.
  intros H. split; [eapply Forall_impl; [exact H|]; unfold Io.ascii, byte_in; lia|].
  intros Hin. rewrite Forall_forall in H. by apply H in Hin.
Qed.

Lemma parse_headers_line fuel headers kv rest request :
  field_ok kv ->
  parse_headers (S fuel) headers (header_line kv.1 kv.2 ++ rest) request =
    parse_headers fuel (add_field headers kv) rest request.
Proof.
  intros Hf. destruct (printable_ascii _ (field_bytes kv Hf)) as [Ha Hr].
  rewrite header_line_text, <- app_assoc. cbn [parse_headers]. rewrite find_crlf_app by done.
  destruct (length (string_bytes (field_text kv))) as [|n] eqn:Hn.
  { apply nil_length_inv, string_bytes_nil in Hn. destruct Hf as ([Hk _] & _). unfold field_text in Hn. by destruct (kv.1). }
  rewrite <- Hn, take_app_length, from_utf8_ascii, string_of_bytes, parse_field by done.
  f_equal. rewrite <- drop_drop, drop_app_length. done.
Qed.

Lemma parse_headers_lines fuel headers fields rest request :
  Forall field_ok fields -> (length fields < fuel)%nat ->
  parse_headers fuel headers (concat (map (fun kv => header_line kv.1 kv.2) fields) ++ crlf ++ rest) request =
    end_of_headers (foldl add_field headers fields) rest request.
Proof.
  intros Hf. revert fuel headers. induction Hf as [|kv fields Hkv _ IH]; intros fuel headers Hfuel.
  - destruct fuel as [|fuel]; [simpl in Hfuel; lia|]. done.
  - destruct fuel as [|fuel]; [simpl in Hfuel; lia|]. simpl map. simpl concat. rewrite <- app_assoc, parse_headers_line by done.
    apply IH. simpl in Hfuel. lia.
Qed.

(** A partial line leaves the loop with the headers so far. *)
Lemma parse_headers_partial fuel headers fields tail request :
  Forall field_ok fields -> (length fields <= fuel)%nat -> find_crlf tail = None ->
  parse_headers fuel headers (concat (map (fun kv => header_line kv.1 kv.2) fields) ++ tail) request =
    Again (mk_Reading (Headers (foldl add_field headers fields)) tail request).
Proof.
  intros Hf. revert fuel headers. induction Hf as [|kv fields Hkv _ IH]; intros fuel headers Hfuel Ht.
  - destruct fuel as [|fuel]; simpl; [done|]. by rewrite Ht.
  - destruct fuel as [|fuel]; [simpl in Hfuel; lia|]. simpl map. simpl concat. rewrite <- app_assoc, parse_headers_line by done.
    apply IH; [|done]. simpl in Hfuel. lia.
Qed.

(** Every line has its two bytes for the end. *)
Lemma header_lines_length fields :
  (length fields <= length (concat (map (fun kv => header_line kv.1 kv.2) fields)))%nat.
Proof.
  induction fields as [|kv fields IH]; [done|]. simpl. rewrite header_line_text, !length_app.
  change (length crlf) with 2%nat. lia.
Qed.

(** * The request line *)

Definition request_line (m target v : string) : list byte :=
  string_bytes m ++ space ++ string_bytes target ++ space ++ string_bytes v.

Lemma parse_request_line_spec m target v rest :
  token m -> token target -> token v -> String.prefix "HTTP/1." (to_ascii_uppercase v) = true ->
  parse_step (mk_Reading RequestLine (request_line m target v ++ crlf ++ rest) None) =
    Again (mk_Reading (Headers ∅) rest
      (Some (mk_HttpRequest (to_ascii_uppercase m) (parse_target target).1 (parse_target target).2 ∅
               (to_ascii_uppercase v) ∅ []))).
Proof.
  intros Hm Ht Hv Hp. unfold parse_step, parse_request_line. cbn [rd_state rd_buffer rd_request].
  pose proof (proj2 Hm) as Gm. pose proof (proj2 Ht) as Gt. pose proof (proj2 Hv) as Gv.
  assert (Forall (fun b => byte_in 32 126 b = true) (request_line m target v)) as Hb.
  { assert (forall s, Forall graphic (string_bytes s) -> Forall (fun b => byte_in 32 126 b = true) (string_bytes s)) as Hi.
    { intros s Hs. eapply Forall_impl; [exact Hs|]. unfold graphic, byte_in. lia. }
    unfold request_line, space. rewrite !Forall_app. split_and!; auto; by repeat constructor. }
  destruct (printable_ascii _ Hb) as [Ha Hr]. rewrite find_crlf_app by done.
  rewrite take_app_length, from_utf8_ascii by done. unfold request_line at 1. rewrite split_three by done.
  destruct (parse_target target) as [p q]. rewrite !to_uppercase_ascii by (by apply graphic_ascii).
  rewrite Hp. rewrite <- drop_drop, drop_app_length. done.
Qed.

(** * Fuel *)

Lemma parse_loop_more fuel fuel' rd r : parse_loop fuel rd = Some r -> (fuel <= fuel')%nat -> parse_loop fuel' rd = Some r.
Proof.
  revert fuel' rd. induction fuel as [|fuel IH]; intros fuel' rd; [done|]. intros H Hle.
  destruct fuel' as [|fuel']; [lia|]. simpl in *. destruct (parse_step rd); [|done..]. apply IH; [done|lia].
Qed.

Lemma parse_loop_again fuel rd rd' : parse_step rd = Again rd' -> parse_loop (S fuel) rd = parse_loop fuel rd'.
Proof. intros H. simpl. by rewrite H. Qed.

(** * Chunks *)

Lemma hex_digit_graphic d : (d < 16)%N -> graphic (byte_of_ascii (hex_digit d)) /\
  parse_hex_digit (byte_of_ascii (hex_digit d)) = Some d /\ byte_of_ascii (hex_digit d) <> x2b.
Proof.
  intros Hd. assert (d ∈ [0; 1; 2; 3; 4; 5; 6; 7; 8; 9; 10; 11; 12; 13; 14; 15]%N) as Hin by (rewrite !elem_of_cons; lia).
  revert Hin. rewrite !elem_of_cons, elem_of_nil. intros Hin. by destruct_or!; subst.
Qed.

(** A text of hexadecimal digits, and its value. *)
Inductive hex_text : string -> Prop :=
| hex_nil : hex_text ""
| hex_cons d s : (d < 16)%N -> hex_text s -> hex_text (String (hex_digit d) s).

Lemma hex_text_app s t : hex_text s -> hex_text t -> hex_text (s +:+ t).
Proof. induction 1 as [|d s Hd _ IH]; [done|]. intros Ht. by constructor; [|apply IH]. Qed.

Lemma hex_digits_text width n : hex_text (hex_digits width n).
Proof.
  revert n. induction width as [|width IH]; intros n; simpl; [constructor|]. apply hex_text_app; [apply IH|].
  constructor; [|constructor]. by apply N.mod_lt.
Qed.

Lemma strip_zeros_text s : s <> "" -> hex_text s ->
  hex_text (strip_zeros s) /\ strip_zeros s <> "" /\ parse_hex 0 (strip_zeros s) = parse_hex 0 s.
Proof.
  intros Hs Ht. induction Ht as [|d s Hd Ht IH]; [done|]. simpl.
  destruct s as [|c r]; [split_and!; [by repeat constructor|done..]|].
  destruct (Ascii.eqb_spec (hex_digit d) "0") as [Hz|Hz].
  - destruct IH as (H1 & H2 & H3); [done|]. split_and!; try done. rewrite H3. by rewrite Hz.
  - split_and!; [by constructor|done..].
Qed.

(** The parser, unless it overflows. *)
Lemma parse_hex_mono acc s : hex_text s -> (acc <= parse_hex acc s)%N.
Proof.
  intros Ht. revert acc. induction Ht as [|d s Hd Ht IH]; intros acc; simpl; [lia|].
  rewrite hex_value_digit by done. etrans; [|apply IH]. lia.
Qed.

Lemma parse_radix16_spec acc s :
  hex_text s -> (parse_hex acc s < u64_modulus)%N -> parse_radix16 acc (string_bytes s) = Some (parse_hex acc s).
Proof.
  intros Ht. revert acc. induction Ht as [|d s Hd Ht IH]; intros acc Hlt; [done|].
  rewrite string_bytes_cons. cbn [parse_radix16 parse_hex] in *.
  destruct (hex_digit_graphic d Hd) as (_ & -> & _). rewrite hex_value_digit in * by done.
  pose proof (parse_hex_mono (16 * acc + d) s Ht).
  replace (_ && _) with true by lia. rewrite N.mul_comm. by apply IH.
Qed.

Lemma hex_text_graphic s : hex_text s -> Forall graphic (string_bytes s).
Proof. induction 1 as [|d s Hd _ IH]; [constructor|]. constructor; [by apply hex_digit_graphic|exact IH]. Qed.

(** The size that the server prints is the one it reads. *)
Lemma chunk_size_roundtrip n :
  (n < u64_modulus)%N -> parse_chunk_size (lower_hex n) = Some n /\ Forall graphic (string_bytes (lower_hex n)).
Proof.
  intros Hn. destruct (strip_zeros_text (hex16 n)) as (Ht & Hne & Hv).
  { intros H. destruct (hex16_roundtrip n) as [Hl _]; [exact Hn|]. by rewrite H in Hl. }
  { apply hex_digits_text. }
  pose proof (hex_text_graphic _ Ht) as Hg. split; [|exact Hg]. unfold parse_chunk_size.
  rewrite str_trim_tight by (by apply graphic_tight). destruct (hex16_roundtrip n Hn) as [_ Hval]. rewrite Hval in Hv.
  unfold lower_hex in *. destruct Ht as [|d s Hd Ht]; [done|].
  pose proof (parse_radix16_spec 0 (String (hex_digit d) s) (hex_cons d s Hd Ht)) as Hp. rewrite Hv in Hp.
  rewrite string_bytes_cons in *. unfold parse_usize_hex.
  rewrite bool_decide_eq_false_2 by (by apply hex_digit_graphic). by apply Hp.
Qed.

(** One chunk is one round. *)
Lemma parse_step_chunk chunks chunk rest request :
  chunk <> [] -> (N.of_nat (length chunk) < u64_modulus)%N ->
  parse_step (mk_Reading (ChunkedBody chunks None []) (encode_chunk chunk ++ rest) request) =
    Again (mk_Reading (ChunkedBody (chunks ++ [chunk]) None []) rest request).
Proof.
  intros Hne Hlen. destruct (chunk_size_roundtrip _ Hlen) as [Hs Hg]. unfold parse_step, parse_chunked, encode_chunk.
  cbn [rd_state rd_buffer rd_request]. rewrite <- !app_assoc.
  rewrite find_crlf_app by (by apply not_in_graphic). rewrite take_app_length.
  rewrite from_utf8_ascii, string_of_bytes, Hs by (by apply graphic_ascii).
  rewrite <- drop_drop, drop_app_length. change (drop 2 (crlf ++ chunk ++ crlf ++ rest)) with (chunk ++ crlf ++ rest).
  unfold parse_chunk. destruct chunk as [|b chunk]; [done|]. set (ch := b :: chunk) in *.
  assert (0 < length ch)%nat as Hpos by (simpl; lia). clearbody ch.
  destruct (N.eqb_spec (N.of_nat (length ch)) 0) as [|_]; [lia|].
  assert (N.to_nat (N.of_nat (length ch) `min` N.of_nat (length (ch ++ crlf ++ rest))) = length ch) as ->
    by (rewrite length_app; lia).
  destruct (Nat.ltb_spec 0 (length ch)) as [_|]; [|lia]. rewrite take_app_length, drop_app_length. cbn [app].
  rewrite N.leb_refl. done.
Qed.

Lemma body_chunks_spec n body :
  (0 < n)%nat -> concat (body_chunks n body) = body /\
    Forall (fun c => c <> [] /\ (length c <= n)%nat) (body_chunks n body) /\ (length (body_chunks n body) <= length body)%nat.
Proof.
  intros Hn. unfold body_chunks. assert (forall fuel bs, (length bs <= fuel)%nat ->
    concat (chunks_of fuel n bs) = bs /\ Forall (fun c => c <> [] /\ (length c <= n)%nat) (chunks_of fuel n bs) /\
    (length (chunks_of fuel n bs) <= length bs)%nat) as H; [|by apply H].
  induction fuel as [|fuel IH]; intros bs Hbs; [by destruct bs; simpl in Hbs; [split_and!|lia]|].
  cbn [chunks_of]. destruct bs as [|b bs]; [done|]. set (l := b :: bs) in *.
  assert (0 < length l)%nat as Hl by (simpl; lia).
  destruct (IH (drop n l)) as (H1 & H2 & H3); [rewrite length_drop; lia|]. rewrite length_drop in H3. split_and!.
  - simpl. by rewrite H1, take_drop.
  - constructor; [|done]. split; [|rewrite length_take; lia]. intros H%(f_equal length). rewrite length_take in H. simpl in H. lia.
  - simpl. simpl in Hl, H3. lia.
Qed.

Lemma parse_step_last chunks rest request :
  parse_step (mk_Reading (ChunkedBody chunks None []) (last_chunk ++ rest) request) =
    Again (mk_Reading (Trailers ∅ chunks) (crlf ++ rest) request).
Proof.
  unfold parse_step, parse_chunked. cbn [rd_state rd_buffer rd_request].
  change (last_chunk ++ rest) with ([x30] ++ crlf ++ crlf ++ rest). rewrite find_crlf_app by (by apply not_in_graphic; repeat constructor).
  rewrite take_app_length. change (from_utf8 [x30]) with (Some "0"). change (parse_chunk_size "0") with (Some 0%N).
  unfold parse_chunk. rewrite <- drop_drop, drop_app_length. done.
Qed.

(** All chunks, and the last one, which is empty; what follows it is left. *)
Lemma parse_loop_chunks cs chunks rest request :
  Forall (fun c : list byte => c <> [] /\ (N.of_nat (length c) < u64_modulus)%N) cs ->
  parse_loop (length cs + 2)
    (mk_Reading (ChunkedBody chunks None []) (concat (map encode_chunk cs) ++ last_chunk ++ rest) request) =
  Some (Finish None (mk_Reading (Trailers ∅ (chunks ++ cs)) (crlf ++ rest)
          (set_req_body (concat (chunks ++ cs)) <$> request))).
Proof.
  intros Hcs. revert chunks. induction Hcs as [|c cs [Hc Hl] _ IH]; intros chunks.
  - rewrite (app_nil_r chunks). change (concat (map encode_chunk [])) with (@nil byte). rewrite app_nil_l.
    change (length [] + 2)%nat with 2%nat.
    by erewrite parse_loop_again by apply parse_step_last.
  - change (concat (map encode_chunk (c :: cs))) with (encode_chunk c ++ concat (map encode_chunk cs)).
    rewrite <- (app_assoc (encode_chunk c)). cbn [length Nat.add].
    rewrite (parse_loop_again _ _ _ (parse_step_chunk _ _ _ _ Hc Hl)), IH. by rewrite <- (app_assoc chunks).
Qed.

(** * Whole requests *)

Inductive framing : Type :=
| NoBody
| Sized (body : list byte)
| Chunked (body : list byte).
Definition framed_body (f : framing) : list byte :=
  match f with NoBody => [] | Sized body | Chunked body => body end.
Definition framing_fields (f : framing) : list (string * string) :=
  match f with
  | NoBody => []
  | Sized body => [("Content-Length", pretty (length body))]
  | Chunked _ => [("Transfer-Encoding", "chunked")]
  end.
Definition framing_bytes (f : framing) : list byte :=
  match f with NoBody => [] | Sized body => body | Chunked body => encode_chunked body end.

(** A target as a client prints it: a path, and pairs of a query, of which one
    may have no value. *)
Definition print_pair (kv : string * option string) : string :=
  match kv.2 with Some value => kv.1 +:+ String "=" value | None => kv.1 end.
Definition print_target (path : string) (query : list (string * option string)) : string :=
  match query with [] => path | _ => path +:+ String "?" (str_join "&" (map print_pair query)) end.
(** A later pair with the same key counts. *)
Definition query_of (query : list (string * option string)) : gmap string string :=
  foldl (fun q kv => <[kv.1 := default "" kv.2]> q) ∅ query.
Definition pair_ok (kv : string * option string) : Prop :=
  string_has "=" kv.1 = false /\ str_has "&" (print_pair kv) = false /\ (kv.2 = None -> kv.1 <> "").

Lemma str_split_once_none c s : string_has c s = false -> str_split_once c s = None.
Proof. induction s as [|a s IH]; simpl; [done|]. destruct (Ascii.eqb a c); [done|]. intros Hs. by rewrite IH. Qed.

Lemma str_split_join c parts :
  parts <> [] -> Forall (fun part => str_has c part = false) parts -> str_split c (str_join c parts) = parts.
Proof.
  induction parts as [|part parts IH]; [done|]. intros _ [Hp Hps]%Forall_cons.
  destruct parts as [|part2 parts]; [by apply str_split_part|]. rewrite str_join_cons, str_split_app by done. by rewrite IH.
Qed.

Lemma query_pair_print q kv : pair_ok kv -> query_pair q (print_pair kv) = <[kv.1 := default "" kv.2]> q.
Proof.
  destruct kv as [k [v|]]; intros (Hk & _ & Hne); unfold query_pair, print_pair; simpl in *.
  - by rewrite str_split_once_app.
  - rewrite str_split_once_none by done. destruct (String.eqb_spec k "") as [->|_]; [by destruct (Hne eq_refl)|done].
Qed.

Lemma parse_print_target path query :
  string_has "?" path = false -> Forall pair_ok query -> parse_target (print_target path query) = (path, query_of query).
Proof.
  intros Hpath Hq. unfold parse_target, print_target, query_of. destruct query as [|kv query].
  { by rewrite str_split_once_none. }
  rewrite str_split_once_app by done. f_equal. rewrite str_split_join; [|done|].
  - generalize (∅ : gmap string string). induction Hq as [|x l Hx _ IH]; intros q; [done|]. simpl.
    rewrite query_pair_print by done. apply IH.
  - apply Forall_map. eapply Forall_impl; [exact Hq|]. by intros x (_ & ? & _).
Qed.

(** A request as a client prints it. *)
Record message : Type := mk_message {
  ms_method : string;
  ms_path : string;
  ms_query : list (string * option string);
  ms_version : string;
  ms_fields : list (string * string);
  ms_framing : framing
}.
Definition all_fields (m : message) : list (string * string) := ms_fields m ++ framing_fields (ms_framing m).
Definition print_message (m : message) : list byte :=
  request_line (ms_method m) (print_target (ms_path m) (ms_query m)) (ms_version m) ++ crlf
  ++ concat (map (fun kv => header_line kv.1 kv.2) (all_fields m)) ++ crlf ++ framing_bytes (ms_framing m).

Record message_ok (m : message) : Prop := mk_message_ok {
  mo_method : token (ms_method m);
  mo_target : token (print_target (ms_path m) (ms_query m));
  mo_path : string_has "?" (ms_path m) = false;
  mo_query : Forall pair_ok (ms_query m);
  mo_version : token (ms_version m);
  mo_version_1 : String.prefix "HTTP/1." (to_ascii_uppercase (ms_version m)) = true;
  mo_fields : Forall field_ok (ms_fields m);
  mo_framing : Forall (fun kv => to_ascii_lowercase kv.1 <> "content-length" /\
                              to_ascii_lowercase kv.1 <> "transfer-encoding") (ms_fields m);
  mo_length : (N.of_nat (length (framed_body (ms_framing m))) < u64_modulus)%N
}.

(** What the server makes of it. *)
Definition message_request (m : message) : HttpRequest :=
  mk_HttpRequest (to_ascii_uppercase (ms_method m)) (ms_path m) (query_of (ms_query m)) ∅
    (to_ascii_uppercase (ms_version m)) (foldl add_field ∅ (all_fields m)) (framed_body (ms_framing m)).

Lemma parse_digits_graphic m acc bs n : parse_digits m acc bs = Some n -> Forall graphic bs.
Proof.
  revert acc. induction bs as [|b bs IH]; intros acc; simpl; [by constructor|].
  unfold parse_digit. destruct (byte_in 48 57 b) eqn:Hb; [|done]. destruct (_ && _); [|done].
  intros H%IH. constructor; [|done]. unfold graphic, byte_in in *. lia.
Qed.

Lemma pretty_graphic (n : N) : Forall graphic (string_bytes (pretty n)).
Proof.
  pose proof (parse_uint_pretty (n + 1) n ltac:(lia)) as H. unfold parse_uint in H.
  destruct (string_bytes (pretty n)) as [|b bs]; [done|]. destruct (bool_decide_reflect (b = x2b)) as [->|_].
  - constructor; [done|]. destruct bs; [done|]. by eapply parse_digits_graphic.
  - by eapply parse_digits_graphic.
Qed.

Lemma framing_fields_ok f : Forall field_ok (framing_fields f).
Proof.
  destruct f; simpl; [constructor|..]; (constructor; [|constructor]); [|solve_field].
  apply field_ok_graphic; [solve_token|done|apply pretty_graphic].
Qed.

Lemma add_fields_other headers fields k :
  Forall (fun kv => to_ascii_lowercase kv.1 <> k) fields -> foldl add_field headers fields !! k = headers !! k.
Proof.
  intros H. revert headers. induction H as [|kv fields Hkv _ IH]; intros headers; [done|]. simpl. rewrite IH.
  unfold add_field. by rewrite lookup_insert_ne.
Qed.

Lemma add_fields_agree headers headers' fields k :
  headers !! k = headers' !! k -> foldl add_field headers fields !! k = foldl add_field headers' fields !! k.
Proof.
  revert headers headers'. induction fields as [|kv fields IH]; intros headers headers' H; [done|]. simpl. apply IH.
  unfold add_field. by rewrite !lookup_insert, H.
Qed.

(** What the headers say about the body. *)
Lemma framing_headers m k :
  message_ok m -> k = "content-length" \/ k = "transfer-encoding" ->
  foldl add_field ∅ (all_fields m) !! k = foldl add_field ∅ (framing_fields (ms_framing m)) !! k.
Proof.
  intros Hm Hk. unfold all_fields. rewrite foldl_app. apply add_fields_agree.
  rewrite add_fields_other; [done|]. eapply Forall_impl; [exact (mo_framing m Hm)|].
  intros kv [? ?]. by destruct Hk as [-> | ->].
Qed.

(** The headers announce a body. *)
Definition announces (headers : gmap string string) (f : framing) : Prop :=
  headers !! "transfer-encoding" = match f with Chunked _ => Some "chunked" | _ => None end /\
  headers !! "content-length" = match f with Sized body => Some (pretty (length body)) | _ => None end /\
  (N.of_nat (length (framed_body f)) < u64_modulus)%N.

Lemma message_announces m : message_ok m -> announces (foldl add_field ∅ (all_fields m)) (ms_framing m).
Proof.
  intros Hm. split_and!; [| |exact (mo_length m Hm)].
  - rewrite (framing_headers m "transfer-encoding" Hm (or_intror eq_refl)). by destruct (ms_framing m).
  - rewrite (framing_headers m "content-length" Hm (or_introl eq_refl)). by destruct (ms_framing m).
Qed.

(** Behind the headers. *)
Lemma parse_framing headers f req rest :
  announces headers f -> req_body req = [] -> exists st n, (n <= length (framed_body f) + 3)%nat /\
  match end_of_headers headers (framing_bytes f ++ rest) (Some req) with
  | Again rd => parse_loop n rd
  | r => Some r
  end = Some (Finish None (mk_Reading st (match f with Chunked _ => crlf ++ rest | _ => rest end)
                (Some (set_req_body (framed_body f) (set_req_headers headers req))))).
Proof.
  intros (Hte & Hcl & Hlen) Hreq. unfold end_of_headers. rewrite Hcl, Hte.
  destruct req as [me pa qu pp ve he bo]. simpl in Hreq. subst bo. destruct f as [|body|body]; simpl in *.
  - exists (Headers headers), 0%nat. split; [lia|done].
  - unfold parse_u64. change (pretty (length body)) with (pretty (N.of_nat (length body))).
    rewrite (parse_uint_pretty u64_modulus) by done. destruct (N.ltb_spec 0 (N.of_nat (length body))) as [Hb|Hb].
    + exists (Body (N.of_nat (length body)) (N.of_nat (length body)) body), 1%nat. split; [lia|].
      unfold parse_loop, parse_step, parse_body. cbn [rd_state rd_buffer rd_request].
      assert (N.min (N.of_nat (length body) - 0) (N.of_nat (length (body ++ rest))) = N.of_nat (length body)) as ->
        by (rewrite length_app; lia).
      destruct (N.ltb_spec 0 (N.of_nat (length body))) as [_|]; [|lia]. rewrite Nat2N.id, N.add_0_l, N.leb_refl.
      by rewrite take_app_length, drop_app_length.
    + destruct body; [|simpl in Hb; lia]. exists (Headers headers), 0%nat. split; [lia|done].
  - destruct (body_chunks_spec CHUNK_SIZE body) as (Hc & Hf & Hn); [unfold CHUNK_SIZE; lia|].
    exists (Trailers ∅ (body_chunks CHUNK_SIZE body)), (length (body_chunks CHUNK_SIZE body) + 2)%nat. split; [lia|].
    rewrite to_lowercase_ascii by (unfold is_ascii_text; by repeat constructor).
    rewrite bool_decide_eq_true_2 by done. unfold encode_chunked.
    rewrite <- (app_assoc (concat _)), parse_loop_chunks; [by rewrite app_nil_l, Hc|].
    eapply Forall_impl; [exact Hf|]. intros c [Hne Hl]. split; [done|]. unfold CHUNK_SIZE, u64_modulus in *. lia.
Qed.

(** From the first header line on. *)
Lemma parse_fields fields f req rest fuel :
  Forall field_ok fields -> announces (foldl add_field ∅ fields) f -> req_body req = [] ->
  (length (framed_body f) + 4 <= fuel)%nat ->
  exists st, parse_loop fuel (mk_Reading (Headers ∅)
      (concat (map (fun kv => header_line kv.1 kv.2) fields) ++ crlf ++ framing_bytes f ++ rest) (Some req)) =
    Some (Finish None (mk_Reading st (match f with Chunked _ => crlf ++ rest | _ => rest end)
            (Some (set_req_body (framed_body f) (set_req_headers (foldl add_field ∅ fields) req))))).
Proof.
  intros Hf Ha Hreq Hfuel. destruct (parse_framing _ f req rest Ha Hreq) as (st & n & Hn & H). exists st.
  apply (parse_loop_more (S n)); [|lia]. cbn [parse_loop]. unfold parse_step. cbn [rd_state rd_buffer rd_request].
  rewrite parse_headers_lines; [exact H|done|]. rewrite !length_app. pose proof (header_lines_length fields).
  change (length crlf) with 2%nat. lia.
Qed.

(** C28: a well-formed request that is there in one read is read back: the server
    parses what a client prints to that request, with the method and the version
    in upper case, the path and the pairs of the query that were printed into the
    target, the fields under their names in lower case, and the body, whether its
    length is given or it is chunked.  It stops behind the request, except that of
    a chunked one it leaves the last line end, in front of what follows. *)
Theorem http_request_roundtrip m rest fuel :
  message_ok m -> (length (framed_body (ms_framing m)) + 5 <= fuel)%nat ->
  exists st, parse_loop fuel (mk_Reading RequestLine (print_message m ++ rest) None) =
    Some (Finish None (mk_Reading st (match ms_framing m with Chunked _ => crlf ++ rest | _ => rest end)
            (Some (message_request m)))).
Proof.
  intros Hm Hfuel. destruct fuel as [|fuel]; [lia|]. unfold print_message. rewrite <- (app_assoc (request_line _ _ _)).
  rewrite <- (app_assoc crlf), <- (app_assoc (concat _)), <- (app_assoc crlf).
  rewrite (parse_loop_again _ _ _ (parse_request_line_spec _ _ _ _ (mo_method m Hm) (mo_target m Hm) (mo_version m Hm)
    (mo_version_1 m Hm))). rewrite (parse_print_target _ _ (mo_path m Hm) (mo_query m Hm)).
  apply (parse_fields (all_fields m) (ms_framing m) (mk_HttpRequest _ _ _ _ _ _ _) rest fuel);
    [|by apply message_announces|done|lia].
  apply Forall_app. split; [exact (mo_fields m Hm)|apply framing_fields_ok].
Qed.

(** * Requests that do not end *)

Lemma stuck fuel rd : parse_step rd = Again rd -> parse_loop fuel rd = None.
Proof. intros H. induction fuel as [|fuel IH]; [done|]. simpl. by rewrite H. Qed.

Lemma parse_step_headers_stuck headers tail request :
  find_crlf tail = None -> parse_step (mk_Reading (Headers headers) tail request) =
    Again (mk_Reading (Headers headers) tail request).
Proof. intros H. unfold parse_step. simpl. destruct tail; [done|]. cbn [length parse_headers]. by rewrite H. Qed.

(** Of a chunk, a part. *)
Lemma parse_step_part chunks size part request :
  (0 < size)%N -> parse_step (mk_Reading (ChunkedBody chunks (Some size) part) [] request) =
    Again (mk_Reading (ChunkedBody chunks (Some size) part) [] request).
Proof.
  intros Hs. unfold parse_step, parse_chunked, parse_chunk. cbn [rd_state rd_buffer rd_request].
  destruct (N.eqb_spec size 0) as [|_]; [lia|]. simpl. by rewrite N.min_0_r.
Qed.

Lemma parse_step_size chunks size part request :
  (N.of_nat (length part) < size)%N -> (size < u64_modulus)%N ->
  parse_step (mk_Reading (ChunkedBody chunks None []) (string_bytes (lower_hex size) ++ crlf ++ part) request) =
    Again (mk_Reading (ChunkedBody chunks (Some size) part) [] request).
Proof.
  intros Hp Hs. destruct (chunk_size_roundtrip _ Hs) as [Hsz Hg]. unfold parse_step, parse_chunked.
  cbn [rd_state rd_buffer rd_request]. rewrite find_crlf_app by (by apply not_in_graphic). rewrite take_app_length.
  rewrite from_utf8_ascii, string_of_bytes, Hsz by (by apply graphic_ascii).
  rewrite <- drop_drop, drop_app_length. change (drop 2 (crlf ++ part)) with part. unfold parse_chunk.
  destruct (N.eqb_spec size 0) as [|_]; [lia|]. rewrite N.min_r by lia. rewrite Nat2N.id.
  destruct (Nat.ltb_spec 0 (length part)) as [|Hz].
  - cbn [app]. rewrite firstn_all, drop_all. destruct (N.leb_spec size (N.of_nat (length part))); [lia|done].
  - by destruct part; [|simpl in Hz; lia].
Qed.

(** C29: once the request line with its line end is there but the head is not
    complete, the parser never ends: when the bytes at hand end within the header
    lines, wherever behind the request line that is, or within a chunk or the line
    of its size, no number of rounds suffices, since the rounds neither take
    anything nor leave the loop. *)
Theorem http_split_request_hangs fuel :
  (forall m target v fields tail,
     token m -> token target -> token v -> String.prefix "HTTP/1." (to_ascii_uppercase v) = true ->
     Forall field_ok fields -> find_crlf tail = None ->
     parse_loop fuel (mk_Reading RequestLine
       (request_line m target v ++ crlf ++ concat (map (fun kv => header_line kv.1 kv.2) fields) ++ tail) None) = None) /\
  (forall chunks tail request, find_crlf tail = None ->
     parse_loop fuel (mk_Reading (ChunkedBody chunks None []) tail request) = None) /\
  (forall chunks size part request, (N.of_nat (length part) < size)%N -> (size < u64_modulus)%N ->
     parse_loop fuel (mk_Reading (ChunkedBody chunks None []) (string_bytes (lower_hex size) ++ crlf ++ part) request)
       = None).
Proof.
  split_and!.
  - intros m target v fields tail Hm Ht Hv Hp Hf Htail. destruct fuel as [|fuel']; [done|].
    rewrite (parse_loop_again _ _ _ (parse_request_line_spec _ _ _ _ Hm Ht Hv Hp)). destruct fuel' as [|fuel']; [done|].
    erewrite parse_loop_again; [apply stuck, parse_step_headers_stuck, Htail|]. unfold parse_step. simpl.
    apply parse_headers_partial; [done| |done]. rewrite length_app. pose proof (header_lines_length fields). lia.
  - intros chunks tail request Ht. apply stuck. unfold parse_step, parse_chunked. simpl. by rewrite Ht.
  - intros chunks size part request Hp Hs. destruct fuel as [|fuel']; [done|].
    rewrite (parse_loop_again _ _ _ (parse_step_size _ _ _ _ Hp Hs)). apply stuck, parse_step_part. lia.
Qed.
End parser.

(** * Responses *)
Section responses.
Context `{CM : CaseMapping} `{HI : HashIter}.

(** The fields that the server adds to a response without headers. *)
Definition response_framing (r : HttpResponse) : framing :=
  if use_chunked r then Chunked (resp_body r) else Sized (resp_body r).
Definition response_fields (date : option string) (r : HttpResponse) : list (string * string) :=
  match date with Some formatted => [("Date", formatted)] | None => [] end
  ++ [("Connection", "close")] ++ framing_fields (response_framing r) ++ [("Server", "flowd/0.5")].

Lemma format_response_fields date r :
  resp_headers r = ∅ ->
  format_response date r = (string_bytes "HTTP/1.1 " ++ string_bytes (pretty (status_code r)) ++ string_bytes " "
    ++ string_bytes (status_text r)) ++ crlf
    ++ concat (map (fun kv => header_line kv.1 kv.2) (response_fields date r)) ++ crlf ++ framing_bytes (response_framing r).
Proof.
  intros Hh. unfold format_response, response_head, has_header, response_fields, response_framing. rewrite Hh, lookup_empty.
  assert (hash_iter (∅ : gmap string string) = []) as ->.
  { apply Permutation_nil_r. by rewrite hash_iter_perm, map_to_list_empty. }
  cbn [existsb map concat]. destruct (use_chunked r), date;
    cbn [map concat framing_fields fst snd framing_bytes app]; unfold header_line; by rewrite <- !app_assoc.
Qed.

Lemma response_fields_ok date r :
  (forall formatted, date = Some formatted -> field_ok ("Date", formatted)) -> Forall field_ok (response_fields date r).
Proof.
  intros Hd. unfold response_fields. rewrite !Forall_app. split_and!; [|..|apply framing_fields_ok|].
  - destruct date as [d|]; [|constructor]. constructor; [by apply Hd|constructor].
  - constructor; [solve_field|constructor].
  - constructor; [solve_field|constructor].
Qed.

Lemma response_announces date r :
  (N.of_nat (length (resp_body r)) < u64_modulus)%N ->
  announces (foldl add_field ∅ (response_fields date r)) (response_framing r).
Proof.
  intros Hl. unfold announces, response_fields. destruct (response_framing r) as [|body|body] eqn:Hf;
    unfold response_framing in Hf; destruct (use_chunked r); try done; injection Hf as <-; destruct date;
    split_and!; simpl; unfold add_field; cbn [fst snd]; try done; by simplify_map_eq.
Qed.

(** C30: what the server prints as a response without headers of its own (and it
    makes no others) is a status line and fields that its own parser takes apart,
    and they announce exactly the body: read back from behind the status line,
    whatever the request and whether or not the body is long enough to be chunked,
    the fields are the date, the end of the connection, the framing and the name
    of the server, as printed and no others, and the body is that of the
    response; of a chunked one its last line end is left. *)
Theorem http_response_roundtrip date r req fuel :
  resp_headers r = ∅ -> (forall formatted, date = Some formatted -> field_ok ("Date", formatted)) ->
  (N.of_nat (length (resp_body r)) < u64_modulus)%N -> req_body req = [] -> (length (resp_body r) + 4 <= fuel)%nat ->
  exists head st,
    format_response date r = (string_bytes "HTTP/1.1 " ++ string_bytes (pretty (status_code r)) ++ string_bytes " "
      ++ string_bytes (status_text r)) ++ crlf ++ head /\
    parse_loop fuel (mk_Reading (Headers ∅) head (Some req)) =
      Some (Finish None (mk_Reading st (if use_chunked r then crlf else [])
        (Some (set_req_body (resp_body r) (set_req_headers (foldl add_field ∅ (response_fields date r)) req))))).
Proof.
  intros Hh Hd Hl Hreq Hfuel. assert (framed_body (response_framing r) = resp_body r) as Hb
    by (unfold response_framing; by destruct (use_chunked r)).
  destruct (parse_fields (response_fields date r) (response_framing r) req [] fuel) as (st & H);
    [by apply response_fields_ok|by apply response_announces|done|by rewrite Hb|].
  rewrite app_nil_r, Hb in H. do 2 eexists. split; [by apply format_response_fields|]. rewrite H. do 3 f_equal.
  unfold response_framing. by destruct (use_chunked r).
Qed.
End responses.

(** * Routes *)

(** The segments of a path and of a pattern, and the parameters before and
    after them. *)
Inductive segments_match : list string -> list string -> gmap string string -> gmap string string -> Prop :=
| sm_nil params : segments_match [] [] params params
| sm_param seg seg' name segs segs' params params' :
    param_name seg' = Some name -> segments_match segs segs' (<[name := seg]> params) params' ->
    segments_match (seg :: segs) (seg' :: segs') params params'
| sm_static seg segs segs' params params' :
    param_name seg = None -> segments_match segs segs' params params' ->
    segments_match (seg :: segs) (seg :: segs') params params'.

(** A route is for a request: the methods are the same, and the path is the one
    of the route, without parameters, or matches its segments. *)
Definition route_matches (request : HttpRequest) (route : RouteConfig) (params : gmap string string) : Prop :=
  method request = rt_method route /\
  ((path request = rt_path route /\ params = ∅) \/
   (path request <> rt_path route /\
    segments_match (str_split "/" (path request)) (str_split "/" (rt_path route)) ∅ params)).

Lemma match_parts_spec segs segs' params params' :
  length segs = length segs' -> match_parts (combine segs segs') params = Some params' <->
  segments_match segs segs' params params'.
Proof.
  revert segs' params. induction segs as [|seg segs IH]; intros [|seg' segs'] params Hl; try done; simpl.
  - split; [intros [= ->]; constructor|by inversion 1].
  - injection Hl as Hl. destruct (param_name seg') as [name|] eqn:Hn.
    + rewrite (IH _ _ Hl). split; [by eapply sm_param|]. inversion 1; subst; congruence.
    + destruct (String.eqb_spec seg seg') as [->|Hne]; [rewrite (IH _ _ Hl)|].
      * split; [by apply sm_static|]. inversion 1; subst; congruence.
      * split; [done|]. inversion 1; subst; congruence.
Qed.

Lemma segments_length segs segs' params params' :
  segments_match segs segs' params params' -> length segs = length segs'.
Proof. induction 1; simpl; congruence. Qed.

Lemma match_route_spec p q params :
  match_route_with_params p q = Some params <-> segments_match (str_split "/" p) (str_split "/" q) ∅ params.
Proof.
  unfold match_route_with_params. case_bool_decide as Hl; [by apply match_parts_spec|].
  split; [done|]. by intros ?%segments_length.
Qed.

(** One route, as the loop tries it. *)
Definition try_route (request : HttpRequest) (route : RouteConfig) : option (gmap string string) :=
  if String.eqb (method request) (rt_method route) then
    if String.eqb (path request) (rt_path route) then Some ∅
    else match_route_with_params (path request) (rt_path route)
  else None.

Lemma try_route_spec request route params : try_route request route = Some params <-> route_matches request route params.
Proof.
  unfold try_route, route_matches. destruct (String.eqb_spec (method request) (rt_method route)); [|naive_solver].
  destruct (String.eqb_spec (path request) (rt_path route)); [naive_solver|]. rewrite match_route_spec. naive_solver.
Qed.

Lemma find_route_cons i route routes request :
  find_route i (route :: routes) request =
    match try_route request route with Some params => Some (i, params) | None => find_route (S i) routes request end.
Proof. simpl. unfold try_route. by repeat destruct (String.eqb _ _). Qed.

(** A request goes to the first route that is for it, with the parameters
    that the segments of its path give, and to none exactly if no route is. *)
Theorem http_routes_first_match routes request :
  match find_route 0 routes request with
  | Some (i, params) =>
      (exists route, routes !! i = Some route /\ route_matches request route params) /\
      forall j route params', (j < i)%nat -> routes !! j = Some route -> ~ route_matches request route params'
  | None => forall route params, route ∈ routes -> ~ route_matches request route params
  end.
Proof.
  assert (forall n, match find_route n routes request with
    | Some (i, params) => (n <= i)%nat /\
        (exists route, routes !! (i - n)%nat = Some route /\ route_matches request route params) /\
        forall j route params', (j < i - n)%nat -> routes !! j = Some route -> ~ route_matches request route params'
    | None => forall route params, route ∈ routes -> ~ route_matches request route params
    end) as H.
  { induction routes as [|route routes IH]; intros n; [intros ? ? []%elem_of_nil|]. rewrite find_route_cons.
    destruct (try_route request route) as [params|] eqn:Ht.
    - split; [lia|]. rewrite Nat.sub_diag. split; [exists route; split; [done|by apply try_route_spec]|lia].
    - assert (forall p, ~ route_matches request route p) as Hno by (intros p Hp%try_route_spec; congruence).
      specialize (IH (S n)). destruct (find_route (S n) routes request) as [[i params]|].
      + destruct IH as (Hle & (r & Hr & Hm) & Hbefore). split; [lia|]. replace (i - n)%nat with (S (i - S n)) by lia. split.
        * by exists r.
        * intros [|j] r' p Hj Hl; [by simplify_eq/=|]. apply (Hbefore j); [lia|done].
      + intros r p [->|Hin]%elem_of_cons; [done|by apply IH]. }
  specialize (H 0%nat). destruct (find_route 0 routes request) as [[i params]|]; [|done].
  destruct H as (_ & H). by rewrite Nat.sub_0_r in H.
Qed.

(** * The envelope of a request *)

#[export] Instance str_le_total : Total str_le.
Proof. intros a b. apply String.leb_total. Qed.
#[export] Instance str_le_antisymm : AntiSymm eq str_le.
Proof. intros a b. apply String.leb_antisym. Qed.

Lemma str_le_cons a s b t : str_le (String a s) (String b t) <->
  (Ascii.N_of_ascii a < Ascii.N_of_ascii b)%N \/ (a = b /\ str_le s t).
Proof.
  unfold str_le, String.leb. cbn [String.compare]. unfold Ascii.compare.
  destruct (N.compare_spec (Ascii.N_of_ascii a) (Ascii.N_of_ascii b)) as [He|Hl|Hg].
  - apply (f_equal Ascii.ascii_of_N) in He. rewrite !Ascii.ascii_N_embedding in He. subst. split; [by right|].
    intros [?|[_ ?]]; [lia|done].
  - split; [by left|done].
  - split; [done|]. intros [?|[-> _]]; lia.
Qed.

#[export] Instance str_le_transitive : Transitive str_le.
Proof.
  intros x. induction x as [|a x IH]; intros [|b y] [|c z]; try done.
  rewrite !str_le_cons. intros [Hab|[-> Hxy]] [Hbc|[-> Hyz]]; [left; lia|by left|by left|right]. split; [done|by eapply IH].
Qed.

(** The lines of the envelope do not depend on the order in which a map is
    traversed. *)
Lemma encode_map_line_canonical (HI1 HI2 : HashIter) (m : gmap string string) :
  encode_map_line (HI := HI1) m = encode_map_line (HI := HI2) m.
Proof.
  unfold encode_map_line. f_equal. apply (Sorted_unique str_le); [apply Sorted_merge_sort; apply _..|].
  rewrite !merge_sort_Permutation, !hash_iter_perm. done.
Qed.

(** * Concrete messages *)
#[local] Existing Instance ascii_case_mapping.
#[local] Existing Instance sorted_hash_iter.

Definition demo_message : message :=
  mk_message "get" "/users/7" [("a", Some "1"); ("b", None)] "http/1.1" [("Host", "example.org"); ("X-Empty", "")] (Chunked [x68; x69]).

Lemma demo_message_ok : message_ok demo_message.
Proof.
  split; try solve_token; try reflexivity; (constructor; [|constructor; [|constructor]]); try solve_field;
    by split.
Defined.

(** The line end behind the last chunk and the next request are left. *)
Lemma http_request_roundtrip_witness :
  message_ok demo_message /\
  exists st, parse_loop 7 (mk_Reading RequestLine (print_message demo_message ++ [x58]) None) =
    Some (Finish None (mk_Reading st (crlf ++ [x58]) (Some (message_request demo_message)))) /\
  query_params (message_request demo_message) = {["a" := "1"; "b" := ""]} /\
  req_headers (message_request demo_message) !! "host" = Some "example.org" /\
  req_body (message_request demo_message) = [x68; x69].
Proof.
  split; [exact demo_message_ok|].
  destruct (http_request_roundtrip demo_message [x58] 7 demo_message_ok) as [st Hst]; [simpl; lia|].
  exists st. split; [exact Hst|]. split_and!; vm_compute; reflexivity.
Defined.

Lemma http_split_request_hangs_witness :
  parse_loop 1000 (mk_Reading RequestLine
    (request_line "GET" "/" "HTTP/1.1" ++ crlf ++ header_line "Host" "example.org" ++ string_bytes "Accept: ") None) = None /\
  parse_loop 1000 (mk_Reading (ChunkedBody [] None []) (string_bytes "2" ++ crlf ++ [x68]) None) = None.
Proof.
  destruct (http_split_request_hangs 1000) as (H1 & _ & H3). split.
  - apply (H1 "GET" "/" "HTTP/1.1" [("Host", "example.org")] (string_bytes "Accept: "));
      [solve_token..|reflexivity|constructor; [solve_field|constructor]|reflexivity].
  - apply (H3 [] 2%N [x68] None); [done|done].
Defined.

Lemma http_response_roundtrip_witness :
  exists head st,
    format_response (Some "Mon, 01 Jan 2024 00:00:00 +0000") (error_response 404 "Not Found" "Route not found") =
      string_bytes "HTTP/1.1 404 Not Found" ++ crlf ++ head /\
    parse_loop 30 (mk_Reading (Headers ∅) head (Some (message_request (mk_message "GET" "/" [] "HTTP/1.1" [] NoBody)))) =
      Some (Finish None (mk_Reading st [] (Some (set_req_body (string_bytes "Route not found")
        (set_req_headers (foldl add_field ∅ [("Date", "Mon, 01 Jan 2024 00:00:00 +0000"); ("Connection", "close");
           ("Content-Length", "15"); ("Server", "flowd/0.5")])
           (message_request (mk_message "GET" "/" [] "HTTP/1.1" [] NoBody))))))).
Proof.
  apply (http_response_roundtrip (Some "Mon, 01 Jan 2024 00:00:00 +0000") (error_response 404 "Not Found" "Route not found")
    (message_request (mk_message "GET" "/" [] "HTTP/1.1" [] NoBody)) 30); [reflexivity| |reflexivity|reflexivity|simpl; lia].
  intros d [= <-]. split_and!; [solve_token|reflexivity|repeat constructor|]. split; by intros a [= <-].
Defined.

(** A header section that is read in two parts: here, only its last byte is
    missing. *)
Example http_last_byte_missing fuel :
  parse_loop fuel (mk_Reading RequestLine
    (request_line "GET" "/" "HTTP/1.1" ++ crlf ++ header_line "Host" "example.org" ++ [x0d]) None) = None.
Proof.
  do 2 (destruct fuel as [|fuel]; [reflexivity|]). apply (stuck fuel). reflexivity.
Qed.

(** The texts of the status codes that the server answers with are those of its
    table. *)
Example http_status_texts :
  get_status_text 200 = "OK" /\ get_status_text 400 = "Bad Request" /\ get_status_text 404 = "Not Found" /\
  get_status_text 505 = "HTTP Version Not Supported".
Proof. by split_and!. Qed.
