(* ===== verification/Brokers.v ===== *)
(** The components for message brokers: [MQTTPublisher] and [MQTTSubscriber] of
    [src/components/mqtt/src/mqtt.rs], [RedisPublisher] and [RedisSubscriber] of
    [src/components/redis/src/redis.rs].

    The publishers go through the same states in the same way; they are one
    definition over a [PublisherKind], which holds what differs: the topic that a
    configuration names and which errors are worth a retry.  The tasks that the
    subscribers start are seen from outside: what they put into their channel. *)
From S2P Require Import Prelude Api Scheduler Process Pipes Sinks Routers Io Retry Clients.
From Stdlib Require Strings.String.
From Stdlib Require Import NArith ZArith Lia Strings.Byte Strings.Ascii.
From stdpp Require Import base list strings gmap.
Local Open Scope string_scope.
Local Open Scope list_scope.
Local Open Scope flowd_scope.

(** * Publishers *)

(** The topic of a configuration: an unwinding; none, which finishes; or the
    topic. *)
Record PublisherKind : Type := mk_PublisherKind {
  pk_topic : string -> option (option string);
  pk_classify : string -> ErrorType
}.

Section publisher.
Context `{R : Rtrb} {Conn : Type}.
Variable clock : nat -> Instant.
(** As in [Clients.connected]. *)
Variable in_runtime : bool.
Variable k : PublisherKind.

(** A URL and the topic (or channel) in it.  MQTTPublisher drops the URL once it
    is connected. *)
Definition Target : Type := string * string.

Inductive PublisherState : Type :=
| PubWaitingForConfig
| PubConnecting (target : Target)
| PubRetryingConnection (target : Target) (retry_state : RetryState)
| PubConnected (target : Target) (connection : Conn) (pending_messages : list FbpMessage)
| PubFinished.

Record Publisher : Type := mk_Publisher {
  pb_conf : ring;
  pb_inn : ring;
  pb_signals_in : sync_channel;
  pb_signals_out : sync_channel;
  pb_state : PublisherState;
  pb_cmd_tx : mpsc Target;
  pb_result_rx : mpsc (result Conn string);
  pb_retry_config : RetryConfig;
  pb_retry_state : RetryState
}.

Definition new_publisher `{MultiMapLib ring} (inports : multimap ring) (signals_in signals_out : sync_channel)
    (now : Instant) : outcome Publisher :=
  let '(cmd, res) := create_io_channels Target (result Conn string) in
  let* (conf, inports) := take_port "CONF" inports in
  let* (inn, inports) := take_port "IN" inports in
  Done (mk_Publisher conf inn signals_in signals_out PubWaitingForConfig cmd res default_retry_config
          (new_retry_state now)).

Definition pb_l_conf : lens Publisher ring := mk_lens pb_conf
  (fun x c => mk_Publisher x (pb_inn c) (pb_signals_in c) (pb_signals_out c) (pb_state c) (pb_cmd_tx c)
     (pb_result_rx c) (pb_retry_config c) (pb_retry_state c)).
Definition pb_l_inn : lens Publisher ring := mk_lens pb_inn
  (fun x c => mk_Publisher (pb_conf c) x (pb_signals_in c) (pb_signals_out c) (pb_state c) (pb_cmd_tx c)
     (pb_result_rx c) (pb_retry_config c) (pb_retry_state c)).
Definition pb_l_signals : lens Publisher Signals := mk_lens
  (fun c => mk_Signals (pb_signals_in c) (pb_signals_out c))
  (fun x c => mk_Publisher (pb_conf c) (pb_inn c) (sig_in x) (sig_out x) (pb_state c) (pb_cmd_tx c)
     (pb_result_rx c) (pb_retry_config c) (pb_retry_state c)).
Definition pb_l_state : lens Publisher PublisherState := mk_lens pb_state
  (fun x c => mk_Publisher (pb_conf c) (pb_inn c) (pb_signals_in c) (pb_signals_out c) x (pb_cmd_tx c)
     (pb_result_rx c) (pb_retry_config c) (pb_retry_state c)).
Definition pb_l_cmd_tx : lens Publisher (mpsc Target) := mk_lens pb_cmd_tx
  (fun x c => mk_Publisher (pb_conf c) (pb_inn c) (pb_signals_in c) (pb_signals_out c) (pb_state c) x
     (pb_result_rx c) (pb_retry_config c) (pb_retry_state c)).
Definition pb_l_result_rx : lens Publisher (mpsc (result Conn string)) := mk_lens pb_result_rx
  (fun x c => mk_Publisher (pb_conf c) (pb_inn c) (pb_signals_in c) (pb_signals_out c) (pb_state c) (pb_cmd_tx c) x
     (pb_retry_config c) (pb_retry_state c)).
Definition pb_l_retry_config : lens Publisher RetryConfig := mk_lens pb_retry_config
  (fun x c => mk_Publisher (pb_conf c) (pb_inn c) (pb_signals_in c) (pb_signals_out c) (pb_state c) (pb_cmd_tx c)
     (pb_result_rx c) x (pb_retry_state c)).
Definition pb_l_retry_state : lens Publisher RetryState := mk_lens pb_retry_state
  (fun x c => mk_Publisher (pb_conf c) (pb_inn c) (pb_signals_in c) (pb_signals_out c) (pb_state c) (pb_cmd_tx c)
     (pb_result_rx c) (pb_retry_config c) x).

Definition pub_close_down {A} : proc Publisher A := write pb_l_state PubFinished;; return_ Finished.

Definition pub_connection_failed (target : Target) (e : string) : proc Publisher unit :=
  match pk_classify k e with
  | Permanent => pub_close_down
  | Transient =>
      retry_state ← read pb_l_retry_state;
      config ← read pb_l_retry_config;
      if should_retry retry_state Transient (rc_max_retries config) then
        t ← now clock;
        write pb_l_retry_state (new_retry_state t);;
        t ← now clock;
        let retry_state := calculate_next_retry config t retry_state in
        write pb_l_state (PubRetryingConnection target
          (mk_RetryState (rs_attempt retry_state) (rs_next_retry_at retry_state) Transient));;
        return_ (DidWork 1)
      else pub_close_down
  end.

(** The result of connecting; in any other state nothing is looked at. *)
Definition pub_check_connection (target : Target) : proc Publisher unit :=
  write pb_l_state PubFinished;;
  res ← receive pb_l_result_rx;
  match res with
  | Received (Ok connection) => write pb_l_state (PubConnected target connection []);; return_ (DidWork 1)
  | Received (Err e) => pub_connection_failed target e
  | _ => write pb_l_state (PubConnecting target);; wake_poll clock;; return_ NoWork
  end.

Definition pub_request_connection (url_msg : FbpMessage) : proc Publisher ProcessResult :=
  match as_text url_msg with
  | None => panic
  | Some url_str =>
      match pk_topic k url_str with
      | None => panic
      | Some None => pub_close_down
      | Some (Some topic) =>
          r ← post pb_l_cmd_tx (url_str, topic);
          match r with
          | Posted => write pb_l_state (PubConnecting (url_str, topic));; return_ (DidWork 1)
          | PostFull => write pb_l_state PubWaitingForConfig;; return_ NoWork
          | PostDisconnected => pub_close_down
          end
      end
  end.

(** Without a configuration the state stays what [mem::replace] has left. *)
Definition pub_waiting_for_config : proc Publisher ProcessResult :=
  url_msg ← pop pb_l_conf;
  match url_msg with
  | Some url_msg => pub_request_connection url_msg
  | None =>
      b ← budget;
      if (b =? 0)%N then return_ NoWork else charge 1;; return_ NoWork
  end.

Definition pub_retrying_connection (target : Target) (retry_state : RetryState) : proc Publisher ProcessResult :=
  t ← now clock;
  if is_ready_to_retry retry_state t then
    r ← post pb_l_cmd_tx target;
    match r with
    | Posted => write pb_l_state (PubConnecting target);; return_ (DidWork 1)
    | PostFull =>
        wake_poll clock;; write pb_l_state (PubRetryingConnection target retry_state);; return_ NoWork
    | PostDisconnected => pub_close_down
    end
  else
    wake_at_ (rs_next_retry_at retry_state);;
    write pb_l_state (PubRetryingConnection target retry_state);; return_ NoWork.

Definition pub_connected (target : Target) (connection : Conn) (pending_messages : list FbpMessage) :
    proc Publisher ProcessResult :=
  pending_messages ← collect pb_l_inn pending_messages;
  pending_messages ← send_messages in_runtime pending_messages;
  abandoned ← is_abandoned pb_l_inn;
  if (abandoned : bool) then pub_close_down
  else
    write pb_l_state (PubConnected target connection pending_messages);;
    connected_result clock.

(** [mem::replace(&mut self.state, Finished)], and what the old state asks for. *)
Definition step_publisher : proc Publisher ProcessResult :=
  state ← read pb_l_state;
  write pb_l_state PubFinished;;
  match state with
  | PubWaitingForConfig => pub_waiting_for_config
  | PubConnecting _ => pub_close_down
  | PubRetryingConnection target retry_state => pub_retrying_connection target retry_state
  | PubConnected target connection pending_messages => pub_connected target connection pending_messages
  | PubFinished => mret Finished
  end.

Definition publisher_process : proc Publisher ProcessResult :=
  stop_signal message_as_utf8 pb_l_signals (write pb_l_state PubFinished);;
  state ← read pb_l_state;
  match state with
  | PubConnecting target => pub_check_connection target
  | _ => mret tt
  end;;
  step_publisher.

#[export] Instance keeps_publisher : Keeps publisher_process.
Proof.
  unfold publisher_process, step_publisher, pub_check_connection, pub_connection_failed, pub_waiting_for_config,
    pub_request_connection, pub_retrying_connection, pub_connected, pub_close_down, stop_signal, collect,
    send_messages, tokio_spawn. destruct in_runtime; apply _.
Qed.
Definition publisher_component := component_of publisher_process.
End publisher.
Arguments PublisherState Conn : clear implicits.
Arguments Publisher {R} Conn.

(** ** MQTTPublisher *)

Fixpoint trim_start_char (c : Ascii.ascii) (s : string) : string :=
  match s with
  | String.String a rest => if Ascii.eqb a c then trim_start_char c rest else s
  | EmptyString => s
  end.

Definition classify_mqtt_error (error : string) : ErrorType :=
  if str_contains "invalid" error || str_contains "malformed" error || str_contains "unauthorized" error
  then Permanent else Transient.

Section mqtt.
Context `{R : Rtrb} {Conn : Type}.
Variable url_parse : string -> option Url.
(** [MqttOptions::parse_url] and [Client::new]; [None] when one of them panics. *)
Variable mqtt_client_new : string -> option Conn.

Definition mqtt_topic (url_str : string) : option (option string) :=
  url ← url_parse url_str;
  let topic := url_path url in
  Some (if String.eqb topic "" || String.eqb topic "/" then None else Some (trim_start_char "/" topic)).

Definition mqtt_connect (url : string) : result Conn string :=
  match mqtt_client_new url with
  | Some client => Ok client
  | None => Err "Failed to create MQTT client"
  end.
Definition async_mqtt_worker : mpsc Target * mpsc (result Conn string) ->
    option (mpsc Target * mpsc (result Conn string)) :=
  connect_turn (fun target : Target => mqtt_connect target.1).

Definition mqtt_publisher_kind : PublisherKind := mk_PublisherKind mqtt_topic classify_mqtt_error.
Definition MQTTPublisherComponent : Type := Publisher Conn.
Definition mqtt_publisher_process (clock : nat -> Instant) (in_runtime : bool) :
    proc MQTTPublisherComponent ProcessResult :=
  publisher_process clock in_runtime mqtt_publisher_kind.
End mqtt.

(** ** RedisPublisher *)

Definition classify_redis_error (error : string) : ErrorType :=
  if str_contains "invalid" error || str_contains "auth" error || str_contains "unauthorized" error
  then Permanent else Transient.

Section redis.
Context `{R : Rtrb} {Conn : Type}.
Variable url_parse : string -> option Url.
(** [redis_async::client::connect], with the error as it is displayed. *)
Variable redis_client_connect : string -> result Conn string.

Definition redis_channel (url_str : string) : option (option string) :=
  url ← url_parse url_str; channel ← query_value "channel" url; Some (Some channel).

Definition redis_connect (url : string) : result Conn string :=
  match redis_client_connect url with
  | Ok connection => Ok connection
  | Err e => Err ("Failed to connect: " +:+ e)
  end.
Definition async_redis_worker : mpsc Target * mpsc (result Conn string) ->
    option (mpsc Target * mpsc (result Conn string)) :=
  connect_turn (fun target : Target => redis_connect target.1).

Definition redis_publisher_kind : PublisherKind := mk_PublisherKind redis_channel classify_redis_error.
Definition RedisPublisherComponent : Type := Publisher Conn.
Definition redis_publisher_process (clock : nat -> Instant) (in_runtime : bool) :
    proc RedisPublisherComponent ProcessResult :=
  publisher_process clock in_runtime redis_publisher_kind.
End redis.

(** * Subscribers *)

(** A task that puts one thing into its channel and ends. *)
Definition task_answers {T} (t : T) (ch : mpsc T) : mpsc T := drop_sender (mpsc_try_send t ch).2.

Section subscribers.
Context `{R : Rtrb} {Conn : Type}.
Variable clock : nat -> Instant.
Variable in_runtime : bool.
Variable url_parse : string -> option Url.

(** [tokio::spawn]. *)
Definition spawn_task {C} : proc C unit := if in_runtime then mret tt else panic.

(** The packet for OUT of a message; one that finds no room is lost. *)
Definition deliver_message {C} (out : lens C ProcessEdgeSink) (data : list byte) : proc C ProcessResult :=
  r ← send out (from_bytes data);
  match r with Ok _ => return_ (DidWork 1) | Err _ => return_ NoWork end.

(** ** RedisSubscriber *)

Inductive RedisSubscriberState : Type :=
| RsWaitingForConfig
| RsListening (channel : string) (message_rx : mpsc (result (list byte) string))
| RsFinished.

Record RedisSubscriberComponent : Type := mk_RedisSubscriberComponent {
  rsb_conf : ring;
  rsb_out : ProcessEdgeSink;
  rsb_signals_in : sync_channel;
  rsb_signals_out : sync_channel;
  rsb_state : RedisSubscriberState
}.

Definition new_redis_subscriber `{MultiMapLib ring} `{MultiMapLib ProcessEdgeSink} (inports : multimap ring)
    (outports : multimap ProcessEdgeSink) (signals_in signals_out : sync_channel) : outcome RedisSubscriberComponent :=
  let* (conf, inports) := take_port "CONF" inports in
  let* (out, outports) := take_port "OUT" outports in
  Done (mk_RedisSubscriberComponent conf out signals_in signals_out RsWaitingForConfig).

Definition rsb_l_conf : lens RedisSubscriberComponent ring := mk_lens rsb_conf
  (fun x c => mk_RedisSubscriberComponent x (rsb_out c) (rsb_signals_in c) (rsb_signals_out c) (rsb_state c)).
Definition rsb_l_out : lens RedisSubscriberComponent ProcessEdgeSink := mk_lens rsb_out
  (fun x c => mk_RedisSubscriberComponent (rsb_conf c) x (rsb_signals_in c) (rsb_signals_out c) (rsb_state c)).
Definition rsb_l_signals : lens RedisSubscriberComponent Signals := mk_lens
  (fun c => mk_Signals (rsb_signals_in c) (rsb_signals_out c))
  (fun x c => mk_RedisSubscriberComponent (rsb_conf c) (rsb_out c) (sig_in x) (sig_out x) (rsb_state c)).
Definition rsb_l_state : lens RedisSubscriberComponent RedisSubscriberState := mk_lens rsb_state
  (fun x c => mk_RedisSubscriberComponent (rsb_conf c) (rsb_out c) (rsb_signals_in c) (rsb_signals_out c) x).

(** What the task puts into the channel. *)
Definition redis_listen (connected : result Conn string) : result (list byte) string :=
  match connected with
  | Ok _ => Ok []
  | Err e => Err ("Failed to connect: " +:+ e)
  end.

Definition redis_configure (url_msg : FbpMessage) : proc RedisSubscriberComponent ProcessResult :=
  match as_text url_msg with
  | None => panic
  | Some url_str =>
      match url_parse url_str ≫= query_value "channel" with
      | None => panic
      | Some name => spawn_task;; write rsb_l_state (RsListening name channel);; return_ (DidWork 1)
      end
  end.

Definition redis_subscriber_process : proc RedisSubscriberComponent ProcessResult :=
  stop_signal message_as_utf8 rsb_l_signals (write rsb_l_state RsFinished);;
  state ← read rsb_l_state;
  match state with
  | RsWaitingForConfig =>
      url_msg ← pop rsb_l_conf;
      match url_msg with
      | Some url_msg => redis_configure url_msg
      | None =>
          b ← budget;
          if (b =? 0)%N then return_ NoWork else charge 1;; return_ NoWork
      end
  | RsListening name message_rx =>
      let '(res, message_rx) := mpsc_try_recv message_rx in
      write rsb_l_state (RsListening name message_rx);;
      match res with
      | Received (Ok message_data) => deliver_message rsb_l_out message_data
      | Received (Err _) => write rsb_l_state RsFinished;; return_ Finished
      | _ => wake_poll clock;; return_ NoWork
      end
  | RsFinished => mret Finished
  end.

(** ** MQTTSubscriber *)

Inductive MQTTSubscriberState : Type :=
| MsWaitingForConfig
| MsConnecting (url topic : string) (result_rx : mpsc (result Conn string))
| MsListening (client : Conn) (topic : string) (message_rx : mpsc (result (list byte) string))
| MsFinished.

Record MQTTSubscriberComponent : Type := mk_MQTTSubscriberComponent {
  msb_conf : ring;
  msb_out : ProcessEdgeSink;
  msb_signals_in : sync_channel;
  msb_signals_out : sync_channel;
  msb_state : MQTTSubscriberState
}.

Definition new_mqtt_subscriber `{MultiMapLib ring} `{MultiMapLib ProcessEdgeSink} (inports : multimap ring)
    (outports : multimap ProcessEdgeSink) (signals_in signals_out : sync_channel) : outcome MQTTSubscriberComponent :=
  let* (conf, inports) := take_port "CONF" inports in
  let* (out, outports) := take_port "OUT" outports in
  Done (mk_MQTTSubscriberComponent conf out signals_in signals_out MsWaitingForConfig).

Definition msb_l_conf : lens MQTTSubscriberComponent ring := mk_lens msb_conf
  (fun x c => mk_MQTTSubscriberComponent x (msb_out c) (msb_signals_in c) (msb_signals_out c) (msb_state c)).
Definition msb_l_out : lens MQTTSubscriberComponent ProcessEdgeSink := mk_lens msb_out
  (fun x c => mk_MQTTSubscriberComponent (msb_conf c) x (msb_signals_in c) (msb_signals_out c) (msb_state c)).
Definition msb_l_signals : lens MQTTSubscriberComponent Signals := mk_lens
  (fun c => mk_Signals (msb_signals_in c) (msb_signals_out c))
  (fun x c => mk_MQTTSubscriberComponent (msb_conf c) (msb_out c) (sig_in x) (sig_out x) (msb_state c)).
Definition msb_l_state : lens MQTTSubscriberComponent MQTTSubscriberState := mk_lens msb_state
  (fun x c => mk_MQTTSubscriberComponent (msb_conf c) (msb_out c) (msb_signals_in c) (msb_signals_out c) x).

(** What the task of a subscription puts into its channel: it subscribes to
    nothing. *)
Definition mqtt_listen : result (list byte) string := Ok [].

Definition mqtt_close_down {A} : proc MQTTSubscriberComponent A := write msb_l_state MsFinished;; return_ Finished.

Definition mqtt_check_connection (url topic : string) (result_rx : mpsc (result Conn string)) :
    proc MQTTSubscriberComponent unit :=
  write msb_l_state MsFinished;;
  let '(res, result_rx) := mpsc_try_recv result_rx in
  match res with
  | Received (Ok client) => spawn_task;; write msb_l_state (MsListening client topic channel);; return_ (DidWork 1)
  | Received (Err _) => mqtt_close_down
  | _ => write msb_l_state (MsConnecting url topic result_rx);; wake_poll clock;; return_ NoWork
  end.

Definition mqtt_configure (url_msg : FbpMessage) : proc MQTTSubscriberComponent ProcessResult :=
  match as_text url_msg with
  | None => panic
  | Some url_str =>
      match mqtt_topic url_parse url_str with
      | None => panic
      | Some None => mqtt_close_down
      | Some (Some topic) =>
          spawn_task;; write msb_l_state (MsConnecting url_str topic channel);; return_ (DidWork 1)
      end
  end.

(** The state is replaced by [Finished] here too; what listens does not put it
    back, so that its channel is gone after one look at it. *)
Definition step_mqtt_subscriber : proc MQTTSubscriberComponent ProcessResult :=
  state ← read msb_l_state;
  write msb_l_state MsFinished;;
  match state with
  | MsWaitingForConfig =>
      url_msg ← pop msb_l_conf;
      match url_msg with
      | Some url_msg => mqtt_configure url_msg
      | None =>
          b ← budget;
          if (b =? 0)%N then return_ NoWork else charge 1;; return_ NoWork
      end
  | MsConnecting _ _ _ => mqtt_close_down
  | MsListening _ topic message_rx =>
      match (mpsc_try_recv message_rx).1 with
      | Received (Ok message_data) => deliver_message msb_l_out message_data
      | Received (Err _) => mqtt_close_down
      | _ => wake_poll clock;; return_ NoWork
      end
  | MsFinished => mret Finished
  end.

Definition mqtt_subscriber_process : proc MQTTSubscriberComponent ProcessResult :=
  stop_signal message_as_utf8 msb_l_signals (write msb_l_state MsFinished);;
  state ← read msb_l_state;
  match state with
  | MsConnecting url topic result_rx => mqtt_check_connection url topic result_rx
  | _ => mret tt
  end;;
  step_mqtt_subscriber.

#[export] Instance keeps_redis_subscriber : Keeps redis_subscriber_process.
Proof.
  unfold redis_subscriber_process, redis_configure, deliver_message, spawn_task, stop_signal. destruct in_runtime; apply _.
Qed.
#[export] Instance keeps_mqtt_subscriber : Keeps mqtt_subscriber_process.
Proof.
  unfold mqtt_subscriber_process, step_mqtt_subscriber, mqtt_check_connection, mqtt_configure, mqtt_close_down,
    deliver_message, spawn_task, stop_signal. destruct in_runtime; apply _.
Qed.
Definition redis_subscriber_component := component_of redis_subscriber_process.
Definition mqtt_subscriber_component := component_of mqtt_subscriber_process.
End subscribers.
