(* ===== verification/BrokersTheorems.v ===== *)
(** What is proved about the components for message brokers: the publishers
    try to connect forever, and the subscribers never deliver a message. *)
From S2P Require Import Prelude Api Scheduler Process Pipes PipesTheorems Sinks SinksTheorems Io Retry Clients ClientsTheorems Brokers.
From Stdlib Require Strings.String.
From Stdlib Require Import NArith ZArith Lia Strings.Byte.
From stdpp Require Import base list strings gmap.
Local Open Scope string_scope.
Local Open Scope list_scope.
Local Open Scope flowd_scope.

(** * Publishers *)

Section publisher.
Context `{R : Rtrb} {Conn : Type}.
Variable in_runtime : bool.
Variable k : PublisherKind.
(** What connecting answers. *)
Variable connect : Target -> result Conn string.
Abbreviation Publisher := (Publisher Conn).
Implicit Types (c : Publisher) (f : frame Publisher).

(** As for the clients: the attempt that a state remembers is the first one. *)
Definition pub_ok c : Prop :=
  rs_attempt (pb_retry_state c) = 0%N /\ pb_retry_config c = default_retry_config /\
  (forall target rs, pb_state c = PubRetryingConnection target rs -> rs_attempt rs = 1%N) /\
  Forall (fun r => forall e, r = Err e -> exists target, connect target = Err e) (mp_items (pb_result_rx c)).

Lemma pub_ok_state s c :
  pub_ok c -> (forall target rs, s = PubRetryingConnection target rs -> rs_attempt rs = 1%N) ->
  pub_ok (set pb_l_state s c).
Proof. intros (Ha & Hc & _ & Hr) Hs. by split_and!. Qed.

Lemma pub_ok_cmd cmd c : pub_ok c -> pub_ok (set pb_l_cmd_tx cmd c).
Proof. done. Qed.

Lemma pub_ok_received c :
  pub_ok c -> pub_ok (set pb_l_result_rx (mpsc_try_recv (pb_result_rx c)).2 c).
Proof.
  intros (Ha & Hc & Hs & Hr). split_and!; try done. unfold mpsc_try_recv. simpl.
  destruct (mp_items (pb_result_rx c)) as [|r rest] eqn:Hi; simpl; [by rewrite Hi|by apply Forall_cons in Hr as [_ ?]].
Qed.

Ltac keep_ok := first [done|apply pub_ok_state; [|by intros; simplify_eq]|apply pub_ok_cmd]; try done.

(** A failed connection, whatever has failed before. *)
Lemma wp_pub_connection_failed (clock : nat -> Instant) f target e (Q : unit -> frame Publisher -> Prop) E :
  pub_ok (fr_self f) ->
  (pk_classify k e = Permanent -> forall f', pub_ok (fr_self f') -> E (Return Finished) f') ->
  (pk_classify k e = Transient -> forall f' n, pub_ok (fr_self f') ->
     pb_state (fr_self f') = PubRetryingConnection target (mk_RetryState 1 (clock n + from_millis 1000) Transient) ->
     E (Return (DidWork 1)) f') ->
  wp (pub_connection_failed clock k target e) Q E f.
Proof.
  intros Hok HP HT. unfold pub_connection_failed. destruct (pk_classify k e).
  - wp_run. destruct Hok as (Ha & Hc & Hs & Hr). rewrite Hc. unfold should_retry. rewrite Ha. simpl. wp_run.
    eapply (HT eq_refl); [|simpl; rewrite ?Ha; reflexivity]. split_and!; try done. simpl. intros target' rs [= _ <-].
    by rewrite ?Ha.
  - unfold pub_close_down. wp_run. apply HP; [done|]. keep_ok.
Qed.

Lemma wp_pub_check_connection (clock : nat -> Instant) f target (Q : unit -> frame Publisher -> Prop) E :
  pub_ok (fr_self f) -> (forall r f', pub_ok (fr_self f') -> E (Return r) f') ->
  wp (pub_check_connection clock k target) Q E f.
Proof.
  intros Hok HE. unfold pub_check_connection. apply wp_bind, wp_write, wp_bind, wp_receive. simpl.
  pose proof (pub_ok_received _ Hok) as Hrec. destruct (mpsc_try_recv _) as [res ch]. simpl in *.
  assert (forall s, (forall t rs, s = PubRetryingConnection t rs -> rs_attempt rs = 1%N) ->
    pub_ok (set pb_l_state s (set pb_l_result_rx ch (fr_self f)))) as Hst by (intros; by apply pub_ok_state).
  destruct res as [[stream|e]| |].
  - wp_run. apply HE. by apply Hst.
  - apply wp_pub_connection_failed; [by apply Hst|by intros; apply HE|by intros; apply HE].
  - wp_run. apply wp_wake_poll. wp_run. apply HE. by apply Hst.
  - wp_run. apply wp_wake_poll. wp_run. apply HE. by apply Hst.
Qed.

Lemma wp_pub_waiting f (Q : ProcessResult -> frame Publisher -> Prop) E :
  pub_ok (fr_self f) -> (forall e f', pub_ok (fr_self f') -> e <> Break -> E e f') ->
  wp (pub_waiting_for_config k) Q E f.
Proof.
  intros Hok HE. unfold pub_waiting_for_config. apply wp_bind, wp_pop.
  - intros _ r _. wp_run. destruct (N.eqb_spec (remaining_budget (fr_ctx f)) 0); wp_run; by apply HE.
  - intros m rest r _ _. unfold pub_request_connection. destruct (as_text m); wp_run; [|by apply HE].
    destruct (pk_topic k _) as [[topic|]|]; wp_run; [|unfold pub_close_down; wp_run; apply HE; [keep_ok|done]|by apply HE].
    apply wp_post. destruct (mpsc_try_send _ _) as [[] ch]; simpl; unfold pub_close_down; wp_run; apply HE; try done.
    all: destruct Hok as (?&?&?&?); split_and!; done.
Qed.

Lemma wp_pub_retrying (clock : nat -> Instant) f target rs (Q : ProcessResult -> frame Publisher -> Prop) E :
  pub_ok (fr_self f) -> rs_attempt rs = 1%N -> (forall e f', pub_ok (fr_self f') -> e <> Break -> E e f') ->
  wp (pub_retrying_connection clock target rs) Q E f.
Proof.
  intros (Ha & Hc & Hs & Hr) Hrs HE. unfold pub_retrying_connection. wp_run. destruct (is_ready_to_retry _ _); wp_run.
  - apply wp_post. destruct (mpsc_try_send _ _) as [[] ch]; simpl; unfold pub_close_down; wp_run; try apply wp_wake_poll;
      wp_run; apply HE; try done; split_and!; try done; by intros ? ? [= <- <-].
  - apply HE; [|done]. split_and!; try done. by intros ? ? [= <- <-].
Qed.

Lemma wp_pub_connected (clock : nat -> Instant) f target connection pending
    (Q : ProcessResult -> frame Publisher -> Prop) (E : exit -> frame Publisher -> Prop) :
  pub_ok (fr_self f) -> pb_state (fr_self f) = PubFinished -> (forall r f', pub_ok (fr_self f') -> Q r f') ->
  (forall e f', pub_ok (fr_self f') -> e <> Break -> E e f') ->
  wp (pub_connected clock in_runtime target connection pending) Q E f.
Proof.
  intros Hok Hst HQ HE. unfold pub_connected, collect. apply wp_bind, wp_bind, wp_read.
  apply (wp_collect_fuel pb_l_inn); [done|done|by intros []|rewrite ring_slots_spec; lia|].
  intros r _. set (g := collected _ _ _ _). assert (pub_ok (fr_self g) /\ pb_state (fr_self g) = PubFinished) as [Hg Hgs] by done.
  clearbody g. assert (forall kept h, pub_ok (fr_self h) ->
    wp (abandoned ← is_abandoned pb_l_inn;
        if (abandoned : bool) then pub_close_down
        else write pb_l_state (PubConnected target connection kept);; connected_result clock) Q E h) as Hrest.
  { intros kept h Hh. apply wp_bind, wp_is_abandoned. destruct (ring_is_abandoned _).
    - unfold pub_close_down. wp_run. apply HE; [|done]. keep_ok.
    - wp_run. unfold connected_result. wp_run. destruct (_ <? _)%N; wp_run; [|apply wp_wake_poll; wp_run];
        apply HQ; destruct Hh as (?&?&?&?); split_and!; done. }
  apply wp_bind. unfold send_messages. apply wp_bind, wp_budget.
  destruct (negb _ && _) eqn:Hb; [|apply wp_ret; by apply Hrest]. apply andb_true_iff in Hb as [_ Hb%N.ltb_lt].
  unfold tokio_spawn. destruct in_runtime.
  - apply wp_bind, wp_ret, wp_bind, wp_work, wp_bind, wp_charge; [simpl; lia|]. apply wp_ret. by apply Hrest.
  - apply wp_bind, wp_leave. by apply HE.
Qed.

Lemma publisher_call (clock : nat -> Instant) c ctx :
  pub_ok c -> exists f r, call (publisher_process clock in_runtime k) c ctx = Some (f, r) /\ pub_ok (fr_self f).
Proof.
  intros Hok. apply wp_call. unfold publisher_process. apply wp_bind, wp_stop_signal; cbn [fr_self].
  2: { intros _ [sin sout] _. wp_run. destruct Hok as (?&?&?&?); by split_and!. }
  intros _ [sin sout] _. apply wp_bind, wp_read. set (f := with_self _ _).
  assert (pub_ok (fr_self f)) as Hf by done. clearbody f. clear Hok c ctx.
  assert (forall g, pub_ok (fr_self g) -> wp (step_publisher clock in_runtime k) (fun _ g => pub_ok (fr_self g))
    (fun e g => match e with Break => False | _ => pub_ok (fr_self g) end) g) as Hstep.
  { clear f Hf. intros f Hf. unfold step_publisher. apply wp_bind, wp_read, wp_bind, wp_write.
    assert (pub_ok (set pb_l_state PubFinished (fr_self f))) as Hg by keep_ok.
    destruct (get pb_l_state (fr_self f)) as [|target|target rs|target conn pending|] eqn:Hs.
    - apply wp_pub_waiting; [done|by intros []].
    - unfold pub_close_down. wp_run. done.
    - apply wp_pub_retrying; [done| |by intros []]. destruct Hf as (_ & _ & H & _). by apply (H target).
    - apply wp_pub_connected; [done|done|done|by intros []].
    - by wp_run. }
  apply wp_bind. destruct (get pb_l_state (fr_self f)); try (apply wp_ret; by apply Hstep).
  by apply wp_pub_check_connection.
Qed.

(** ** Runs: a publisher, its thread, and what comes to its ports. *)
Inductive publisher_step : Publisher -> Publisher -> Prop :=
| publisher_called clock c ctx f r :
    call (publisher_process clock in_runtime k) c ctx = Some (f, Some r) -> publisher_step c (fr_self f)
| publisher_connects c cmd res :
    connect_turn connect (pb_cmd_tx c, pb_result_rx c) = Some (cmd, res) ->
    publisher_step c (set pb_l_cmd_tx cmd (set pb_l_result_rx res c))
| publisher_configured c m r : ring_push m (pb_conf c) = (Ok tt, r) -> publisher_step c (set pb_l_conf r c)
| publisher_fed c m r : ring_push m (pb_inn c) = (Ok tt, r) -> publisher_step c (set pb_l_inn r c)
| publisher_closed c : publisher_step c (set pb_l_inn (ring_drop_producer (pb_inn c)) c)
| publisher_signalled c m sin :
    try_send m (pb_signals_in c) = (Ok tt, sin) ->
    publisher_step c (set pb_l_signals (mk_Signals sin (pb_signals_out c)) c).

(** A publisher as [new] makes it. *)
Definition publisher_untouched c : Prop :=
  pb_state c = PubWaitingForConfig /\ pb_retry_config c = default_retry_config /\
  rs_attempt (pb_retry_state c) = 0%N /\ mp_items (pb_result_rx c) = [].

Lemma publisher_run_ok c0 c : publisher_untouched c0 -> rtc publisher_step c0 c -> pub_ok c.
Proof.
  intros (Hs & Hc & Ha & Hi) Hr.
  assert (pub_ok c0) as Hok by (split_and!; [done|done|intros; congruence|by rewrite Hi]). clear Hs Hc Ha Hi.
  induction Hr as [c|c1 c2 c3 Hs Hr IH]; [done|]. apply IH. clear IH Hr.
  destruct Hs as [clock c ctx f r Hcall|c cmd res Hturn|c m r Hp|c m r Hp|c|c m sin Hs]; try done.
  - destruct (publisher_call clock c ctx Hok) as (f' & r' & Hcall' & Hok'). rewrite Hcall in Hcall'. by injection Hcall' as <- <-.
  - destruct Hok as (Ha & Hc & Hst & Hi). unfold connect_turn in Hturn. simpl in Hturn.
    destruct (mpsc_try_recv (pb_cmd_tx c)) as [[target| |] cmd']; simplify_eq. split_and!; try done.
    unfold mpsc_try_send. simpl. destruct (negb _); [done|]. destruct (mpsc_full _); [done|]. simpl.
    apply Forall_app. split; [done|]. constructor; [|done]. intros e He. by exists target.
Qed.

(** C35: a publisher whose connections fail in ways that may pass never gives up
    and never waits longer: whatever the number of connections that have failed,
    a failure is answered with another attempt after exactly one second, because
    the state that counts the attempts is taken away with the attempt; every
    waiting publisher counts one attempt; and when its second is over, the
    next call asks the thread, if its channel takes the request, for the same
    connection again and waits for it.  Every failure to make an MQTT client is
    taken for one that may pass, that of a URL which is not one included. *)
Theorem publishers_retry_forever (clock : nat -> Instant) ctx c0 c :
  (forall target e, connect target = Err e -> pk_classify k e = Transient) ->
  publisher_untouched c0 -> rtc publisher_step c0 c ->
  ~ stop_next message_as_utf8 (get pb_l_signals c) ->
  (forall target e rest, pb_state c = PubConnecting target -> mp_items (pb_result_rx c) = Err e :: rest ->
   exists f n, call (publisher_process clock in_runtime k) c ctx = Some (f, Some (DidWork 1)) /\
     pb_state (fr_self f) = PubRetryingConnection target (mk_RetryState 1 (clock n + from_millis 1000) Transient)) /\
  (forall target rs, pb_state c = PubRetryingConnection target rs -> rs_attempt rs = 1%N /\
   ((rs_next_retry_at rs <= clock 0%nat)%N -> mp_rx_alive (pb_cmd_tx c) = true -> mpsc_full (pb_cmd_tx c) = false ->
    exists f, call (publisher_process clock in_runtime k) c ctx = Some (f, Some (DidWork 1)) /\
      pb_state (fr_self f) = PubConnecting target /\ mp_items (pb_cmd_tx (fr_self f)) = mp_items (pb_cmd_tx c) ++ [target])).
Proof.
  intros Hk H0 Hr Hns. pose proof (publisher_run_ok c0 c H0 Hr) as Hok. clear H0 Hr. split.
  - intros target e rest Hst Hres. assert (pk_classify k e = Transient) as He.
    { destruct Hok as (_ & _ & _ & Hi). rewrite Hres in Hi. apply Forall_cons in Hi as [Hi _].
      destruct (Hi e eq_refl) as [t Ht]. by eapply Hk. }
    assert (exists f r, call (publisher_process clock in_runtime k) c ctx = Some (f, Some r) /\
      (r = DidWork 1 /\ exists n, pb_state (fr_self f) = PubRetryingConnection target
         (mk_RetryState 1 (clock n + from_millis 1000) Transient))) as (f & r & Hcall & -> & n & Hn); [|by exists f, n].
    apply wp_returns. unfold publisher_process. apply wp_bind, wp_stop_signal; cbn [fr_self]; [|done].
    intros _ [sin sout] _. apply wp_bind, wp_read. simpl. rewrite Hst. apply wp_bind. unfold pub_check_connection.
    apply wp_bind, wp_write, wp_bind, wp_receive. pose proof (pub_ok_received _ Hok) as Hrec.
    unfold mpsc_try_recv in *. simpl in *. rewrite Hres in *. simpl in *.
    apply wp_pub_connection_failed; [|congruence|by intros _ f n _ Hf; split; [|exists n]].
    destruct Hrec as (?&?&?&?). by split_and!.
  - intros target rs Hst. split; [destruct Hok as (_ & _ & Hok & _); by apply (Hok target)|]. intros Hready Hrx Hfull.
    assert (exists f r, call (publisher_process clock in_runtime k) c ctx = Some (f, Some r) /\
      (r = DidWork 1 /\ pb_state (fr_self f) = PubConnecting target /\
       mp_items (pb_cmd_tx (fr_self f)) = mp_items (pb_cmd_tx c) ++ [target])) as (f & r & Hcall & -> & Hf); [|by exists f].
    apply wp_returns. unfold publisher_process. apply wp_bind, wp_stop_signal; cbn [fr_self]; [|done].
    intros _ [sin sout] _. apply wp_bind, wp_read. simpl. rewrite Hst. apply wp_bind, wp_ret. unfold step_publisher.
    apply wp_bind, wp_read, wp_bind, wp_write. simpl. unfold pub_retrying_connection. wp_run.
    unfold is_ready_to_retry. apply N.leb_le in Hready. rewrite Hready. apply wp_bind, wp_post. unfold mpsc_try_send. simpl.
    rewrite Hrx, Hfull. simpl. wp_run. done.
Qed.
End publisher.

Lemma mqtt_failures_pass {Conn} (client_new : string -> option Conn) target e :
  mqtt_connect client_new target = Err e -> classify_mqtt_error e = Transient.
Proof. unfold mqtt_connect. destruct (client_new target); [done|]. by intros [= <-]. Qed.

(** * Subscribers *)

Section subscribers.
Context `{R : Rtrb} {Conn : Type}.
Variable in_runtime : bool.
Variable url_parse : string -> option Url.

(** Nothing, or one empty packet. *)
Definition at_most_empty (ms : list FbpMessage) : Prop := ms = [] \/ ms = [Bytes []].

Lemma at_most_empty_send ms1 ms2 o o' es :
  ms1 ++ sink_items o = [] -> sent ms2 o o' es -> at_most_empty ms2 -> at_most_empty (ms1 ++ sink_items o').
Proof. intros H [Hi _ _ _ _] H2. apply app_nil in H as [-> H]. by rewrite Hi, H. Qed.

Lemma wp_output_message {C} (out : lens C ProcessEdgeSink) data (f : frame C) (Q : ProcessResult -> frame C -> Prop) E :
  (forall ms o es r f', sent ms (get out (fr_self f)) o es -> ms = [] \/ ms = [Bytes data] -> fr_self f' = set out o (fr_self f) ->
     E (Return r) f') ->
  wp (deliver_message out data) Q E f.
Proof.
  intros HE. unfold deliver_message. apply wp_bind, wp_send.
  - intros _ o es Hs _. wp_run. eapply HE; [exact Hs|by right|done].
  - intros _ o Hs. wp_run. eapply HE; [exact Hs|by left|done].
Qed.

(** Taking a packet from an outport leaves what was sent. *)
Lemma sink_taken o got m r :
  ring_pop (pes_sink o) = (Some m, r) -> (got ++ [m]) ++ sink_items (set_sink r o) = got ++ sink_items o.
Proof.
  intros Hp. pose proof (ring_pop_res (pes_sink o)) as Hres. pose proof (ring_pop_items (pes_sink o)) as Hi.
  rewrite Hp in Hres, Hi. simpl in *. unfold sink_items. simpl. rewrite Hi, <- app_assoc. f_equal.
  destruct (ring_items (pes_sink o)); [done|]. simpl in *. by injection Hres as ->.
Qed.

(** ** RedisSubscriber *)

Record RedisRun : Type := mk_RedisRun { rr_subscriber : RedisSubscriberComponent; rr_got : list FbpMessage }.

Inductive redis_step : RedisRun -> RedisRun -> Prop :=
| redis_called clock c got ctx f r :
    call (redis_subscriber_process clock in_runtime url_parse) c ctx = Some (f, Some r) ->
    redis_step (mk_RedisRun c got) (mk_RedisRun (fr_self f) got)
| redis_task c got name ch (connected : result Conn string) :
    rsb_state c = RsListening name ch -> mp_tx_alive ch = true ->
    redis_step (mk_RedisRun c got)
      (mk_RedisRun (set rsb_l_state (RsListening name (task_answers (redis_listen connected) ch)) c) got)
| redis_configured c got m r :
    ring_push m (rsb_conf c) = (Ok tt, r) -> redis_step (mk_RedisRun c got) (mk_RedisRun (set rsb_l_conf r c) got)
| redis_signalled c got m sin :
    try_send m (rsb_signals_in c) = (Ok tt, sin) ->
    redis_step (mk_RedisRun c got) (mk_RedisRun (set rsb_l_signals (mk_Signals sin (rsb_signals_out c)) c) got)
| redis_taken c got m r :
    ring_pop (pes_sink (rsb_out c)) = (Some m, r) ->
    redis_step (mk_RedisRun c got) (mk_RedisRun (set rsb_l_out (set_sink r (rsb_out c)) c) (got ++ [m])).

(** What may have been sent, and what is in the channel. *)
Definition answers_ok (ch : mpsc (result (list byte) string)) (sent_so_far : list FbpMessage) : Prop :=
  (mp_items ch = [] /\ (mp_tx_alive ch = true -> sent_so_far = [])) \/
  (mp_tx_alive ch = false /\ sent_so_far = [] /\ exists r, mp_items ch = [r] /\ forall d, r = Ok d -> d = []).
Definition redis_ok (c : RedisSubscriberComponent) (sent_so_far : list FbpMessage) : Prop :=
  at_most_empty sent_so_far /\
  match rsb_state c with
  | RsWaitingForConfig => sent_so_far = []
  | RsListening _ ch => answers_ok ch sent_so_far
  | RsFinished => True
  end.

Lemma answers_ok_task r (ch : mpsc (result (list byte) string)) ms :
  answers_ok ch ms -> mp_tx_alive ch = true -> (forall d, r = Ok d -> d = []) -> answers_ok (task_answers r ch) ms.
Proof.
  intros [[Hi Hm]|(Hd & _)] Ha Hr; [|congruence]. unfold task_answers, mpsc_try_send. specialize (Hm Ha).
  destruct (negb _); simpl; [by left|]. destruct (mpsc_full _); simpl; [by left|]. right. rewrite Hi. eauto.
Qed.

Lemma redis_call (clock : nat -> Instant) c ctx got :
  redis_ok c (got ++ sink_items (rsb_out c)) ->
  exists f r, call (redis_subscriber_process clock in_runtime url_parse) c ctx = Some (f, r) /\
    (is_Some r -> redis_ok (fr_self f) (got ++ sink_items (rsb_out (fr_self f)))).
Proof.
  intros [Hm Hok]. apply wp_call. unfold redis_subscriber_process. apply wp_bind, wp_stop_signal; cbn [fr_self].
  2: { intros _ [sin sout] _. wp_run. by intros _. }
  intros _ [sin sout] _. apply wp_bind, wp_read. simpl. destruct (rsb_state c) as [|name ch|] eqn:Hst.
  - apply wp_bind, wp_pop; simpl.
    + intros _ r _. wp_run. destruct (N.eqb_spec (remaining_budget ctx) 0); wp_run; intros _; split; simpl; by rewrite ?Hst.
    + intros m rest r _ _. unfold redis_configure. destruct (as_text m); wp_run; [|by intros [? ?]].
      destruct (_ ≫= _) as [name|]; wp_run; [|by intros [? ?]]. unfold spawn_task. destruct in_runtime; wp_run; [|by intros [? ?]].
      intros _. split; [done|]. left. done.
  - unfold mpsc_try_recv. destruct Hok as [[Hi Ha]|(Hd & Hs & r & Hi & Hr)]; rewrite Hi; simpl.
    + apply wp_bind, wp_write. assert (redis_ok (set rsb_l_state (RsListening name ch) (fr_self (with_self (set rsb_l_signals (mk_Signals sin sout) c) (mk_frame c ctx 0 [] 0)))) (got ++ sink_items (rsb_out c))) as H
        by (split; [done|by left]).
      destruct (mp_tx_alive ch); wp_run; apply wp_wake_poll; wp_run; by intros _.
    + apply wp_bind, wp_write. simpl. destruct r as [d|e]; [|wp_run; intros _; by split].
      rewrite (Hr d eq_refl). apply wp_output_message. simpl. intros ms o es r f' Hsent Hms Hf'. rewrite Hf'. intros _.
      pose proof (at_most_empty_send got ms _ o es Hs Hsent Hms) as Hat. split; [done|]. simpl. left. split; [done|].
      simpl. congruence.
  - wp_run. intros _. split; [done|]. simpl. by rewrite ?Hst.
Qed.

Definition redis_untouched (s : RedisRun) : Prop :=
  rsb_state (rr_subscriber s) = RsWaitingForConfig /\ rr_got s = [] /\ sink_items (rsb_out (rr_subscriber s)) = [].

Lemma redis_run_ok s0 s :
  redis_untouched s0 -> rtc redis_step s0 s -> redis_ok (rr_subscriber s) (rr_got s ++ sink_items (rsb_out (rr_subscriber s))).
Proof.
  intros (Hst & Hg & Ho) Hr.
  assert (redis_ok (rr_subscriber s0) (rr_got s0 ++ sink_items (rsb_out (rr_subscriber s0)))) as Hok
    by (rewrite Hg, Ho; split; [by left|by rewrite Hst]). clear Hst Hg Ho.
  induction Hr as [s|s1 s2 s3 Hs Hr IH]; [done|]. apply IH. clear IH Hr.
  destruct Hs as [clock c got ctx f r Hcall|c got name ch conn Hst Ha|c got m r Hp|c got m sin Hs|c got m r Hp]; simpl in *; try done.
  - destruct (redis_call clock c ctx got Hok) as (f' & r' & Hcall' & H). rewrite Hcall in Hcall'. injection Hcall' as <- <-.
    by apply H.
  - destruct Hok as [Hm Hok]. split; [done|]. simpl. rewrite Hst in Hok. apply answers_ok_task; [done|done|].
    unfold redis_listen. destruct conn; [by intros d [= <-]|done].
  - rewrite (sink_taken _ _ _ _ Hp). exact Hok.
Qed.

(** ** MQTTSubscriber *)

Record MqttRun : Type := mk_MqttRun { mr_subscriber : MQTTSubscriberComponent (Conn := Conn); mr_got : list FbpMessage }.

Inductive mqtt_step : MqttRun -> MqttRun -> Prop :=
| mqtt_called clock c got ctx f r :
    call (mqtt_subscriber_process clock in_runtime url_parse) c ctx = Some (f, Some r) ->
    mqtt_step (mk_MqttRun c got) (mk_MqttRun (fr_self f) got)
| mqtt_connection_task c got url topic ch connected :
    msb_state c = MsConnecting url topic ch -> mp_tx_alive ch = true ->
    mqtt_step (mk_MqttRun c got)
      (mk_MqttRun (set msb_l_state (MsConnecting url topic (task_answers connected ch)) c) got)
| mqtt_subscription_task c got client topic ch :
    msb_state c = MsListening client topic ch -> mp_tx_alive ch = true ->
    mqtt_step (mk_MqttRun c got)
      (mk_MqttRun (set msb_l_state (MsListening client topic (task_answers mqtt_listen ch)) c) got)
| mqtt_configured c got m r :
    ring_push m (msb_conf c) = (Ok tt, r) -> mqtt_step (mk_MqttRun c got) (mk_MqttRun (set msb_l_conf r c) got)
| mqtt_signalled c got m sin :
    try_send m (msb_signals_in c) = (Ok tt, sin) ->
    mqtt_step (mk_MqttRun c got) (mk_MqttRun (set msb_l_signals (mk_Signals sin (msb_signals_out c)) c) got)
| mqtt_taken c got m r :
    ring_pop (pes_sink (msb_out c)) = (Some m, r) ->
    mqtt_step (mk_MqttRun c got) (mk_MqttRun (set msb_l_out (set_sink r (msb_out c)) c) (got ++ [m])).

Definition mqtt_ok (c : MQTTSubscriberComponent (Conn := Conn)) (sent_so_far : list FbpMessage) : Prop :=
  at_most_empty sent_so_far /\
  match msb_state c with
  | MsListening _ _ ch => sent_so_far = [] /\ answers_ok ch []
  | MsFinished => True
  | _ => sent_so_far = []
  end.

Lemma wp_mqtt_check (clock : nat -> Instant) url topic ch f got (Q : unit -> frame MQTTSubscriberComponent -> Prop) E :
  got ++ sink_items (msb_out (fr_self f)) = [] ->
  (forall e f', e <> Break -> (e <> Unwind -> mqtt_ok (fr_self f') (got ++ sink_items (msb_out (fr_self f')))) -> E e f') ->
  wp (mqtt_check_connection clock in_runtime url topic ch) Q E f.
Proof.
  intros Hm HE. unfold mqtt_check_connection, mqtt_close_down, spawn_task. apply wp_bind, wp_write.
  assert (at_most_empty (got ++ sink_items (msb_out (fr_self f)))) as Hat by (by left).
  destruct (mpsc_try_recv ch) as [[[client|e]| |] ch'].
  - destruct in_runtime; wp_run; apply HE; [done| |done|done]. intros _. split; [done|]. split; [done|by left].
  - wp_run. apply HE; [done|]. intros _. by split.
  - wp_run. apply wp_wake_poll. wp_run. apply HE; [done|]. intros _. by split.
  - wp_run. apply wp_wake_poll. wp_run. apply HE; [done|]. intros _. by split.
Qed.

Lemma wp_step_mqtt (clock : nat -> Instant) f got (Q : ProcessResult -> frame MQTTSubscriberComponent -> Prop) E :
  mqtt_ok (fr_self f) (got ++ sink_items (msb_out (fr_self f))) ->
  (forall r f', mqtt_ok (fr_self f') (got ++ sink_items (msb_out (fr_self f'))) -> Q r f') ->
  (forall e f', e <> Break -> (e <> Unwind -> mqtt_ok (fr_self f') (got ++ sink_items (msb_out (fr_self f')))) -> E e f') ->
  wp (step_mqtt_subscriber clock in_runtime url_parse) Q E f.
Proof.
  intros [Hm Hok] HQ HE. unfold step_mqtt_subscriber. apply wp_bind, wp_read, wp_bind, wp_write. simpl.
  destruct (msb_state (fr_self f)) as [|url topic ch|client topic ch|] eqn:Hst.
  - apply wp_bind, wp_pop; simpl.
    + intros _ r _. wp_run. destruct (N.eqb_spec (remaining_budget (fr_ctx f)) 0); wp_run; apply HE; done.
    + intros m rest r _ _. unfold mqtt_configure, mqtt_close_down, spawn_task. destruct (as_text m); wp_run; [|by apply HE].
      destruct (mqtt_topic _ _) as [[topic|]|]; wp_run; [destruct in_runtime; wp_run|..]; by apply HE.
  - unfold mqtt_close_down. wp_run. by apply HE.
  - destruct Hok as [Hs [[Hi Ha]|(Hd & _ & r & Hi & Hr)]]; unfold mpsc_try_recv; rewrite Hi; simpl.
    + destruct (mp_tx_alive ch); wp_run; apply wp_wake_poll; wp_run; by apply HE.
    + destruct r as [d|e]; [|unfold mqtt_close_down; wp_run; by apply HE]. rewrite (Hr d eq_refl). apply wp_output_message.
      simpl. intros ms o es r f' Hsent Hms Hf'. apply HE; [done|]. intros _. rewrite Hf'. split; [|done].
      by eapply at_most_empty_send.
  - wp_run. by apply HQ.
Qed.

Lemma mqtt_call (clock : nat -> Instant) c ctx got :
  mqtt_ok c (got ++ sink_items (msb_out c)) ->
  exists f r, call (mqtt_subscriber_process clock in_runtime url_parse) c ctx = Some (f, r) /\
    (is_Some r -> mqtt_ok (fr_self f) (got ++ sink_items (msb_out (fr_self f)))).
Proof.
  intros Hok. apply wp_call. unfold mqtt_subscriber_process. apply wp_bind, wp_stop_signal; cbn [fr_self].
  2: { intros _ [sin sout] _. wp_run. intros _. by split; [apply Hok|]. }
  intros _ [sin sout] _. apply wp_bind, wp_read. set (f := with_self _ _).
  assert (mqtt_ok (fr_self f) (got ++ sink_items (msb_out (fr_self f)))) as Hf by done. clearbody f. clear Hok.
  set (P f := mqtt_ok (fr_self f) (got ++ sink_items (msb_out (fr_self f)))) in *.
  match goal with |- wp _ ?Q ?E _ => set (QR := Q); set (ER := E) end.
  assert (forall e f', e <> Break -> (e <> Unwind -> P f') -> ER e f') as HE
    by (intros [|r|] f' Hb H; [done|intros _; by apply H|by intros [? ?]]).
  assert (forall g, P g -> wp (step_mqtt_subscriber clock in_runtime url_parse) QR ER g) as Hstep
    by (intros g Hg; apply (wp_step_mqtt clock g got); [done|by intros r f' H _|done]).
  apply wp_bind. destruct (get msb_l_state (fr_self f)) as [|url topic ch| |] eqn:Hst; try (apply wp_ret; by apply Hstep).
  apply (wp_mqtt_check clock url topic ch f got); [|done]. destruct Hf as [_ Hf]. simpl in Hst. by rewrite Hst in Hf.
Qed.

Definition mqtt_untouched (s : MqttRun) : Prop :=
  msb_state (mr_subscriber s) = MsWaitingForConfig /\ mr_got s = [] /\ sink_items (msb_out (mr_subscriber s)) = [].

Lemma mqtt_run_ok s0 s :
  mqtt_untouched s0 -> rtc mqtt_step s0 s -> mqtt_ok (mr_subscriber s) (mr_got s ++ sink_items (msb_out (mr_subscriber s))).
Proof.
  intros (Hst & Hg & Ho) Hr.
  assert (mqtt_ok (mr_subscriber s0) (mr_got s0 ++ sink_items (msb_out (mr_subscriber s0)))) as Hok
    by (rewrite Hg, Ho; split; [by left|by rewrite Hst]). clear Hst Hg Ho.
  induction Hr as [s|s1 s2 s3 Hs Hr IH]; [done|]. apply IH. clear IH Hr.
  destruct Hs as [clock c got ctx f r Hcall|c got url topic ch conn Hst Ha|c got client topic ch Hst Ha|c got m r Hp|c got m sin Hs|c got m r Hp];
    simpl in *; try done.
  - destruct (mqtt_call clock c ctx got Hok) as (f' & r' & Hcall' & H). rewrite Hcall in Hcall'. injection Hcall' as <- <-.
    by apply H.
  - destruct Hok as [Hm Hok]. rewrite Hst in Hok. by split.
  - destruct Hok as [Hm Hok]. rewrite Hst in Hok. destruct Hok as [Hs Hok]. split; [done|]. split; [done|].
    apply answers_ok_task; [done|done|]. by intros d [= <-].
  - rewrite (sink_taken _ _ _ _ Hp). exact Hok.
Qed.

(** The subscribers never deliver a message.  However often they are called,
    whatever they are configured with and whatever their tasks answer: all that
    RedisSubscriber and MQTTSubscriber ever send is at most one packet, the empty
    one that stands for a connection or a subscription that was made. *)
Theorem subscribers_deliver_nothing :
  (forall s0 s, redis_untouched s0 -> rtc redis_step s0 s ->
     at_most_empty (rr_got s ++ sink_items (rsb_out (rr_subscriber s)))) /\
  (forall s0 s, mqtt_untouched s0 -> rtc mqtt_step s0 s ->
     at_most_empty (mr_got s ++ sink_items (msb_out (mr_subscriber s)))).
Proof.
  split; intros s0 s H0 Hr.
  - by destruct (redis_run_ok s0 s H0 Hr).
  - by destruct (mqtt_run_ok s0 s H0 Hr).
Qed.
End subscribers.

(** * Runs *)
#[local] Existing Instance list_rtrb.

(** An MQTT client cannot be made of what is no URL of the kind that the crate
    reads. *)
Definition demo_broker_url (url : string) : option Url := Some (mk_Url (Some "h") None "/news" [("channel", "news")]).
Definition demo_publisher (state : PublisherState ()) : Publisher () :=
  mk_Publisher (demo_ring false [Text "x"]) (demo_ring false []) demo_channel demo_channel state
    (mpsc_sync_channel 10) (mpsc_sync_channel 100) default_retry_config (new_retry_state 0).
Definition late_clock (n : nat) : Instant := (slow_clock n + from_millis 5000)%N.
Abbreviation demo_publisher_step :=
  (publisher_step (Conn := ()) false (mqtt_publisher_kind demo_broker_url) (fun target => mqtt_connect (fun _ => None) target.1)).

(** The connection fails; a second later, it is asked for again. *)
Lemma publishers_retry_forever_witness :
  exists c1 c2, rtc demo_publisher_step (demo_publisher PubWaitingForConfig) c1 /\
    rtc demo_publisher_step (demo_publisher PubWaitingForConfig) c2 /\
    (exists f n, call (publisher_process slow_clock false (mqtt_publisher_kind demo_broker_url)) c1 (demo_context Normal 8) =
      Some (f, Some (DidWork 1)) /\
     pb_state (fr_self f) = PubRetryingConnection ("x", "news") (mk_RetryState 1 (slow_clock n + from_millis 1000) Transient)) /\
    (exists f, call (publisher_process late_clock false (mqtt_publisher_kind demo_broker_url)) c2 (demo_context Normal 8) =
      Some (f, Some (DidWork 1)) /\
     pb_state (fr_self f) = PubConnecting ("x", "news") /\
     mp_items (pb_cmd_tx (fr_self f)) = mp_items (pb_cmd_tx c2) ++ [("x", "news")]).
Proof.
  assert (exists c1 c2 rs rest, rtc demo_publisher_step (demo_publisher PubWaitingForConfig) c1 /\
    rtc demo_publisher_step (demo_publisher PubWaitingForConfig) c2 /\
    sc_items (pb_signals_in c1) = [] /\ sc_items (pb_signals_in c2) = [] /\
    pb_state c1 = PubConnecting ("x", "news") /\ mp_items (pb_result_rx c1) = Err "Failed to create MQTT client" :: rest /\
    pb_state c2 = PubRetryingConnection ("x", "news") rs /\ (rs_next_retry_at rs <=? late_clock 0)%N = true /\
    mp_rx_alive (pb_cmd_tx c2) = true /\ mpsc_full (pb_cmd_tx c2) = false)
    as (c1 & c2 & rs & rest & Hr1 & Hr2 & Hsig1 & Hsig2 & Hst1 & Hres & Hst2 & Hready & Hrx & Hfull).
  { eexists _, _, _, _. split; [|split].
    - eapply rtc_l; [eapply (publisher_called _ _ _ slow_clock _ (demo_context Normal 8)); vm_compute; reflexivity|].
      eapply rtc_l; [eapply publisher_connects; vm_compute; reflexivity|]. apply rtc_refl.
    - eapply rtc_l; [eapply (publisher_called _ _ _ slow_clock _ (demo_context Normal 8)); vm_compute; reflexivity|].
      eapply rtc_l; [eapply publisher_connects; vm_compute; reflexivity|].
      eapply rtc_l; [eapply (publisher_called _ _ _ slow_clock _ (demo_context Normal 8)); vm_compute; reflexivity|]. apply rtc_refl.
    - repeat (refine (conj _ _); [vm_compute; reflexivity|]). vm_compute. reflexivity. }
  exists c1, c2. split; [exact Hr1|]. split; [exact Hr2|]. split.
  - destruct (publishers_retry_forever false (mqtt_publisher_kind demo_broker_url) (fun target => mqtt_connect (fun _ => None) target.1)
      slow_clock (demo_context Normal 8) (demo_publisher PubWaitingForConfig) c1) as [H _];
      [intros target e; apply mqtt_failures_pass|by split_and!|exact Hr1| |].
    { unfold stop_next. simpl. rewrite Hsig1. simpl. intros (m & Hm & _). discriminate Hm. }
    exact (H ("x", "news") "Failed to create MQTT client" rest Hst1 Hres).
  - destruct (publishers_retry_forever false (mqtt_publisher_kind demo_broker_url) (fun target => mqtt_connect (fun _ => None) target.1)
      late_clock (demo_context Normal 8) (demo_publisher PubWaitingForConfig) c2) as [_ H];
      [intros target e; apply mqtt_failures_pass|by split_and!|exact Hr2| |].
    { unfold stop_next. simpl. rewrite Hsig2. simpl. intros (m & Hm & _). discriminate Hm. }
    destruct (H ("x", "news") rs Hst2) as [_ Hagain]. exact (Hagain (proj1 (N.leb_le _ _) Hready) Hrx Hfull).
Defined.

(** What RedisSubscriber sends is the packet for its connection. *)
Definition demo_redis_run : RedisRun :=
  mk_RedisRun (mk_RedisSubscriberComponent (demo_ring false [Text "x"]) (demo_out 4) demo_channel demo_channel
    RsWaitingForConfig) [].
Lemma subscribers_deliver_nothing_witness :
  exists s, rtc (redis_step (Conn := ()) true demo_broker_url) demo_redis_run s /\
    sink_items (rsb_out (rr_subscriber s)) = [Bytes []] /\ at_most_empty (rr_got s ++ sink_items (rsb_out (rr_subscriber s))).
Proof.
  assert (exists s, rtc (redis_step (Conn := ()) true demo_broker_url) demo_redis_run s /\
    sink_items (rsb_out (rr_subscriber s)) = [Bytes []]) as (s & Hr & Hs).
  { eexists. split.
    - eapply rtc_l; [eapply (redis_called _ _ slow_clock _ _ (demo_context Normal 8)); vm_compute; reflexivity|].
      eapply rtc_l; [eapply (redis_task _ _ _ _ _ _ (Ok tt)); vm_compute; reflexivity|].
      eapply rtc_l; [eapply (redis_called _ _ slow_clock _ _ (demo_context Normal 8)); vm_compute; reflexivity|]. apply rtc_refl.
    - vm_compute. reflexivity. }
  exists s. split; [exact Hr|]. split; [exact Hs|].
  apply (proj1 (subscribers_deliver_nothing (Conn := ()) true demo_broker_url)) with (s0 := demo_redis_run); [by split_and!|exact Hr].
Defined.
