(* ===== verification/Agents.v ===== *)
(** The components that leave their work to a thread of their own and talk to it
    over two bounded channels: the thread, a send that may block, and the chat
    components [OpenAIChat] ([src/components/openai/src/openai.rs]),
    [TelegramBot] ([src/components/telegram/src/telegram.rs]) and [MatrixClient]
    ([src/components/matrix/src/matrix.rs]).

    A command is sent with [send], which blocks while the channel is full.  What
    the thread and others do meanwhile is an argument, a list of moves; a call
    that still waits at its end has not returned.  A move may be the result of
    another task ([Arrives]), also while the thread itself blocks: that is so for
    [TelegramBot], whose runtime is multi-threaded; the runtimes of [OpenAIChat]
    and [MatrixClient] have the one thread, so that for them the moves include
    some that do not happen.  The chat components go
    through the same states in the same way and are one definition over a
    [ChatKind]. *)
From S2P Require Import Prelude Api Scheduler Process Pipes Sinks Io Clients.
From Stdlib Require Strings.String.
From Stdlib Require Import NArith ZArith Lia Strings.Byte Strings.Ascii.
From stdpp Require Import base list strings gmap pretty.
Local Open Scope string_scope.
Local Open Scope list_scope.
Local Open Scope flowd_scope.

(** * The thread *)

(** What the thread does with a command, given what the outside answers: its
    state, or its end, and the results that it sends. *)
Class AgentThread (W Cmd Res Ext : Type) : Type := handle : Ext -> Cmd -> W -> option W * list Res.

(** [ag_sending] is what a blocking send of the thread still holds.  [ag_done] and
    [ag_made] record the commands that the thread has taken and the results that
    have reached the channel; nothing reads them. *)
Record Agent (W Cmd Res : Type) : Type := mk_Agent {
  ag_cmd : mpsc Cmd;
  ag_res : mpsc Res;
  ag_worker : option W;
  ag_sending : list Res;
  ag_done : list Cmd;
  ag_made : list Res
}.
Arguments mk_Agent {W Cmd Res}.
Arguments ag_cmd {W Cmd Res}.
Arguments ag_res {W Cmd Res}.
Arguments ag_worker {W Cmd Res}.
Arguments ag_sending {W Cmd Res}.
Arguments ag_done {W Cmd Res}.
Arguments ag_made {W Cmd Res}.

(** A step of the thread, with what the outside answers if it handles a command;
    or a result of another task, which waits as long as there is no room. *)
Inductive AgentMove (Ext Res : Type) : Type :=
| Turn (answer : Ext)
| Arrives (r : Res).
Arguments Turn {Ext Res}.
Arguments Arrives {Ext Res}.

Section agent.
Context {W Cmd Res Ext : Type} `{T : !AgentThread W Cmd Res Ext}.
Abbreviation Agent := (Agent W Cmd Res).
Implicit Types (a : Agent).

Definition new_agent (w : W) : Agent :=
  let '(cmd, res) := create_io_channels Cmd Res in mk_Agent cmd res (Some w) [] [] [].

(** [result_tx.send(r)], as far as it gets: one result more in the channel. *)
Definition put_result (r : Res) (sending : list Res) a : Agent :=
  match mpsc_try_send r (ag_res a) with
  | (Posted, res) => mk_Agent (ag_cmd a) res (ag_worker a) sending (ag_done a) (ag_made a ++ [r])
  | _ => a
  end.

(** A thread that ends lets go of its channels. *)
Definition take_command (answer : Ext) a : Agent :=
  match ag_worker a, mpsc_try_recv (ag_cmd a) with
  | Some w, (Received c, cmd) =>
      let '(w, rs) := handle answer c w in
      mk_Agent (if is_none w then drop_receiver cmd else cmd) (ag_res a) w rs (ag_done a ++ [c]) (ag_made a)
  | _, _ => a
  end.

Definition agent_move (m : AgentMove Ext Res) a : Agent :=
  match m with
  | Turn answer =>
      match ag_sending a with
      | r :: rest => put_result r rest a
      | [] => take_command answer a
      end
  | Arrives r => put_result r (ag_sending a) a
  end.

(** [cmd_tx.send(c)]: whether it was sent, once there is room. *)
Fixpoint agent_send (moves : list (AgentMove Ext Res)) (c : Cmd) a : option (bool * Agent) :=
  match mpsc_try_send c (ag_cmd a) with
  | (Posted, cmd) => Some (true, mk_Agent cmd (ag_res a) (ag_worker a) (ag_sending a) (ag_done a) (ag_made a))
  | (PostDisconnected, _) => Some (false, a)
  | (PostFull, _) =>
      match moves with
      | [] => None
      | m :: moves => agent_send moves c (agent_move m a)
      end
  end.

Definition agent_recv a : received Res * Agent :=
  let '(r, res) := mpsc_try_recv (ag_res a) in
  (r, mk_Agent (ag_cmd a) res (ag_worker a) (ag_sending a) (ag_done a) (ag_made a)).

(** The two operations of the component on its ends of the channels. *)
Definition command {C} (l : lens C Agent) (moves : list (AgentMove Ext Res)) (c : Cmd) : proc C bool := fun f =>
  match agent_send moves c (get l (fr_self f)) with
  | Some (sent, a) => Some (with_self (set l a (fr_self f)) f, inl sent)
  | None => None
  end.
Definition result_of {C} (l : lens C Agent) : proc C (received Res) := fun f =>
  let '(r, a) := agent_recv (get l (fr_self f)) in Some (with_self (set l a (fr_self f)) f, inl r).
End agent.

(** * Chat components *)

(** What a configuration leads to (the configuration, its command and, if the
    component waits for an initial prompt, what makes the command of that), what a
    result is for the outside (nothing, or commands and a packet), the command of a
    packet, and the commands of "stop".  [None] is an unwinding. *)
Record ChatKind (Config Cmd Res : Type) : Type := mk_ChatKind {
  ck_configure : string -> option (Config * Cmd * option (string -> Cmd));
  ck_deliver : Res -> option (list Cmd * FbpMessage);
  ck_command : FbpMessage -> option Cmd;
  ck_shutdown : list Cmd
}.
Arguments mk_ChatKind {Config Cmd Res}.
Arguments ck_configure {Config Cmd Res}.
Arguments ck_deliver {Config Cmd Res}.
Arguments ck_command {Config Cmd Res}.
Arguments ck_shutdown {Config Cmd Res}.

(** [message_to_utf8_text]. *)
Definition message_to_utf8_text (msg : FbpMessage) : option string :=
  match as_text msg with
  | Some text => Some text
  | None => as_bytes msg ≫= from_utf8
  end.

Section chat.
Context `{R : Rtrb} {Config W Cmd Res Ext : Type} `{T : !AgentThread W Cmd Res Ext}.
Variable k : ChatKind Config Cmd Res.
(** What the thread and others do while the i-th command of the call waits. *)
Variable meanwhile : nat -> list (AgentMove Ext Res).

Inductive ChatState : Type :=
| ChatWaitingForConfig
| ChatWaitingForInitialPrompt (prompt : string -> Cmd)
| ChatActive
| ChatFinished.

Record Chat : Type := mk_Chat {
  ch_conf : ring;
  ch_inn : ring;
  ch_out : ProcessEdgeSink;
  ch_signals_in : sync_channel;
  ch_signals_out : sync_channel;
  ch_state : ChatState;
  ch_config : option Config;
  ch_agent : Agent W Cmd Res
}.

Definition new_chat `{MultiMapLib ring} `{MultiMapLib ProcessEdgeSink} (w : W) (inports : multimap ring)
    (outports : multimap ProcessEdgeSink) (signals_in signals_out : sync_channel) : outcome Chat :=
  let* (conf, inports) := take_port "CONF" inports in
  let* (inn, inports) := take_port "IN" inports in
  let* (out, outports) := take_port "OUT" outports in
  Done (mk_Chat conf inn out signals_in signals_out ChatWaitingForConfig None (new_agent w)).

Definition ch_l_conf : lens Chat ring := mk_lens ch_conf
  (fun x c => mk_Chat x (ch_inn c) (ch_out c) (ch_signals_in c) (ch_signals_out c) (ch_state c) (ch_config c)
     (ch_agent c)).
Definition ch_l_inn : lens Chat ring := mk_lens ch_inn
  (fun x c => mk_Chat (ch_conf c) x (ch_out c) (ch_signals_in c) (ch_signals_out c) (ch_state c) (ch_config c)
     (ch_agent c)).
Definition ch_l_out : lens Chat ProcessEdgeSink := mk_lens ch_out
  (fun x c => mk_Chat (ch_conf c) (ch_inn c) x (ch_signals_in c) (ch_signals_out c) (ch_state c) (ch_config c)
     (ch_agent c)).
Definition ch_l_signals : lens Chat Signals := mk_lens
  (fun c => mk_Signals (ch_signals_in c) (ch_signals_out c))
  (fun x c => mk_Chat (ch_conf c) (ch_inn c) (ch_out c) (sig_in x) (sig_out x) (ch_state c) (ch_config c)
     (ch_agent c)).
Definition ch_l_state : lens Chat ChatState := mk_lens ch_state
  (fun x c => mk_Chat (ch_conf c) (ch_inn c) (ch_out c) (ch_signals_in c) (ch_signals_out c) x (ch_config c)
     (ch_agent c)).
Definition ch_l_config : lens Chat (option Config) := mk_lens ch_config
  (fun x c => mk_Chat (ch_conf c) (ch_inn c) (ch_out c) (ch_signals_in c) (ch_signals_out c) (ch_state c) x
     (ch_agent c)).
Definition ch_l_agent : lens Chat (Agent W Cmd Res) := mk_lens ch_agent
  (fun x c => mk_Chat (ch_conf c) (ch_inn c) (ch_out c) (ch_signals_in c) (ch_signals_out c) (ch_state c)
     (ch_config c) x).

(** [let _ = self.cmd_sender.send(c)]. *)
Definition tell (i : nat) (c : Cmd) : proc Chat unit := command ch_l_agent (meanwhile i) c;; mret tt.
Fixpoint tell_all (i : nat) (cs : list Cmd) : proc Chat unit :=
  match cs with [] => mret tt | c :: cs => tell i c;; tell_all (S i) cs end.

(** A command that cannot be sent any more finishes the component; its state
    stays. *)
Definition must_tell (i : nat) (c : Cmd) : proc Chat unit :=
  sent ← command ch_l_agent (meanwhile i) c;
  if (sent : bool) then mret tt else return_ Finished.

Definition chat_configure : proc Chat ProcessResult :=
  conf_vec ← pop ch_l_conf;
  match conf_vec with
  | None => mret NoWork
  | Some conf_vec =>
      match as_text conf_vec ≫= ck_configure k with
      | None => panic
      | Some (config, c, prompt) =>
          write ch_l_config (Some config);;
          must_tell 0 c;;
          write ch_l_state (match prompt with Some prompt => ChatWaitingForInitialPrompt prompt | None => ChatActive end);;
          mret (DidWork 1)
      end
  end.

Definition chat_prompt (prompt : string -> Cmd) : proc Chat ProcessResult :=
  prompt_msg ← pop ch_l_inn;
  match prompt_msg with
  | Some prompt_msg =>
      match message_to_utf8_text prompt_msg with
      | None => return_ Finished
      | Some prompt_str =>
          must_tell 0 (prompt prompt_str);; write ch_l_state ChatActive;; mret (DidWork 1)
      end
  | None =>
      abandoned ← is_abandoned ch_l_inn;
      if (abandoned : bool) then write ch_l_state ChatFinished;; mret Finished else mret NoWork
  end.

(** One result of the thread. *)
Definition chat_deliver (r : Res) : proc Chat unit :=
  match ck_deliver k r with
  | None => mret tt
  | Some (cs, m) =>
      tell_all 0 cs;;
      res ← send ch_l_out m;
      match res with Ok _ => mret tt | Err _ => return_ Finished end
  end;;
  work 1;; charge 1.

Definition chat_receive : proc Chat unit :=
  b ← budget;
  if (0 <? b)%N then
    r ← result_of ch_l_agent;
    match r with
    | Received r => chat_deliver r
    | _ => mret tt
    end
  else mret tt.

(** One packet for the thread.  By now at most one result has been delivered,
    with the commands 0, 1, ... of the call. *)
Definition chat_forward (i : nat) : proc Chat unit :=
  b ← budget;
  if (0 <? b)%N then
    msg ← pop ch_l_inn;
    match msg with
    | None => mret tt
    | Some msg =>
        match ck_command k msg with
        | None => panic
        | Some c => must_tell i c;; work 1;; charge 1
        end
    end
  else mret tt.

Definition chat_active : proc Chat ProcessResult :=
  chat_receive;;
  chat_forward 1;;
  inn ← read ch_l_inn;
  (if (0 <? ring_slots inn)%nat then emit [EffContextReady] else mret tt);;
  w ← work_units;
  mret (if (0 <? w)%N then DidWork w else NoWork).

Definition chat_process : proc Chat ProcessResult :=
  stop_signal message_as_utf8 ch_l_signals (tell_all 0 (ck_shutdown k);; write ch_l_state ChatFinished);;
  state ← read ch_l_state;
  match state with
  | ChatWaitingForConfig => chat_configure
  | ChatWaitingForInitialPrompt prompt => chat_prompt prompt
  | ChatActive => chat_active
  | ChatFinished => mret Finished
  end.
End chat.
Arguments ChatState Cmd : clear implicits.
Arguments Chat {R} Config W Cmd Res.

(** [str::strip_prefix('/')] and [str::trim_end_matches('/')]. *)
Definition strip_slash (s : string) : option string :=
  match s with
  | String.String a rest => if Ascii.eqb a "/" then Some rest else None
  | EmptyString => None
  end.
Fixpoint trim_end_slashes (s : string) : string :=
  match s with
  | EmptyString => EmptyString
  | String.String a rest =>
      let rest := trim_end_slashes rest in
      if Ascii.eqb a "/" && String.eqb rest "" then EmptyString else String.String a rest
  end.

(** What else the crate url finds in a URL. *)
Record FullUrl : Type := mk_FullUrl {
  url_of :> Url;
  url_scheme : string;
  url_username : string;
  url_password : option string
}.

(** ** OpenAIChat *)

Record OpenAIConfig : Type := mk_OpenAIConfig {
  oc_api_key : string;
  oc_base_url : option string;
  oc_model : string;
  oc_context : bool
}.
Inductive OpenAICommand : Type :=
| SetConfig (config : OpenAIConfig)
| SetInitialPrompt (prompt : string)
| ChatCompletion (msg : FbpMessage).
Inductive OpenAIResult : Type :=
| ChatResponse (content : string)
| OpenAIFailed (message : string).

Section openai.
(** The calls of tools of the crate openai_oxide. *)
Context `{R : Rtrb} {ToolCalls : Type}.
Variable url_parse : string -> option FullUrl.
(** The text of a [Utf8Error], and of an error that is none of the API's. *)
Variable utf8_error : list byte -> string.

Inductive ChatCompletionMessageParam : Type :=
| System (content : string)
| User (content : string)
| Assistant (content : option string) (tool_calls : ToolCalls) (refusal : option string).

(** A message of the model; an error as the crate tells them apart. *)
Record AiMessage : Type := mk_AiMessage {
  ai_content : option string;
  ai_tool_calls : ToolCalls;
  ai_refusal : option string
}.
Inductive OpenAIError : Type :=
| ApiError (status : N) (message : string) (type_ code request_id : option string)
| OtherOpenAIError (display : string).
Inductive OpenAIAnswer : Type :=
| ChatAnswered (choices : list AiMessage)
| ChatFailed (err : OpenAIError)
| ChatTimedOut.

Definition format_openai_error (err : OpenAIError) : string :=
  match err with
  | ApiError status message type_ code request_id =>
      let message := if String.eqb (str_trim message) "" then "<empty response body>" else message in
      let detail name (v : option string) :=
        match v with Some v => if String.eqb v "" then [] else [name +:+ "=" +:+ v] | None => [] end in
      let details := ["status=" +:+ pretty status] ++ detail "type" type_ ++ detail "code" code
        ++ detail "request_id" request_id in
      "OpenAI API error (" +:+ String.concat ", " details +:+ ") : " +:+ message
  | OtherOpenAIError display => "OpenAI API error: " +:+ display
  end.

Definition normalize_base_url (url : FullUrl) : option string :=
  match url_host_str url with
  | None => None
  | Some host =>
      if String.eqb host "default" then None
      else
        let host := match url_port url with Some port => host +:+ ":" +:+ pretty port | None => host end in
        let raw_path := trim_end_slashes (url_path url) in
        let path := if String.eqb raw_path "" then "/v1" else raw_path in
        Some (url_scheme url +:+ "://" +:+ host +:+ path)
  end.

Definition openai_configure (url_str : string) :
    option (OpenAIConfig * OpenAICommand * option (string -> OpenAICommand)) :=
  url_parse url_str ≫= fun url : FullUrl =>
  api_key ← query_value "apikey" url;
  let model := default "gpt-3.5-turbo" (query_value "model" url) in
  let context_enabled := default false (query_value "context" url ≫= parse_bool) in
  let initialprompt := default false (query_value "initialprompt" url ≫= parse_bool) in
  let config := mk_OpenAIConfig api_key (normalize_base_url url) model context_enabled in
  Some (config, SetConfig config, if (initialprompt : bool) then Some SetInitialPrompt else None).

Definition openai_deliver (r : OpenAIResult) : option (list OpenAICommand * FbpMessage) :=
  match r with
  | ChatResponse response => Some ([], Text response)
  | OpenAIFailed _ => None
  end.
Definition openai_kind : ChatKind OpenAIConfig OpenAICommand OpenAIResult :=
  mk_ChatKind openai_configure openai_deliver (fun msg => Some (ChatCompletion msg)) [].

(** The thread: its client is there exactly when its configuration is.
    [ow_requests] records the requests: the model and the messages. *)
Record OpenAIThread : Type := mk_OpenAIThread {
  ow_config : option OpenAIConfig;
  ow_messages : list ChatCompletionMessageParam;
  ow_requests : list (string * list ChatCompletionMessageParam)
}.

Definition utf8_text_error (msg : FbpMessage) : string :=
  match as_bytes msg with
  | Some bytes => "message bytes are not valid UTF-8: " +:+ utf8_error bytes
  | None => "message must be text or UTF-8 bytes"
  end.

(** A request, with the answer to it.  No choice and no content unwind. *)
Definition complete_chat (cfg : OpenAIConfig) (content : string) (answer : OpenAIAnswer) (w : OpenAIThread) :
    option OpenAIThread * list OpenAIResult :=
  let messages := if oc_context cfg then ow_messages w ++ [User content] else ow_messages w in
  let request_messages := if oc_context cfg then messages else [User content] in
  let requests := ow_requests w ++ [(oc_model cfg, request_messages)] in
  match answer with
  | ChatAnswered [] => (None, [])
  | ChatAnswered (ai_message :: _) =>
      let messages :=
        if oc_context cfg
        then messages ++ [Assistant (ai_content ai_message) (ai_tool_calls ai_message) (ai_refusal ai_message)]
        else messages in
      match ai_content ai_message with
      | Some content => (Some (mk_OpenAIThread (ow_config w) messages requests), [ChatResponse content])
      | None => (None, [])
      end
  | ChatFailed err => (Some (mk_OpenAIThread (ow_config w) messages requests), [OpenAIFailed (format_openai_error err)])
  | ChatTimedOut =>
      (Some (mk_OpenAIThread (ow_config w) messages requests), [OpenAIFailed "OpenAI request timed out after 30s"])
  end.

#[export] Instance async_openai_main : AgentThread OpenAIThread OpenAICommand OpenAIResult OpenAIAnswer :=
  fun answer cmd w =>
    match cmd with
    | SetConfig new_config => (Some (mk_OpenAIThread (Some new_config) (ow_messages w) (ow_requests w)), [])
    | SetInitialPrompt prompt =>
        (Some (mk_OpenAIThread (ow_config w) (ow_messages w ++ [System prompt]) (ow_requests w)), [])
    | ChatCompletion msg =>
        match ow_config w with
        | None => (Some w, [OpenAIFailed "OpenAI not configured"])
        | Some cfg =>
            match message_to_utf8_text msg with
            | None =>
                (Some w, [OpenAIFailed ("invalid message payload for OpenAI chat completion: " +:+ utf8_text_error msg)])
            | Some content => complete_chat cfg content answer w
            end
        end
    end.

Definition OpenAIChatComponent : Type := Chat OpenAIConfig OpenAIThread OpenAICommand OpenAIResult.
Definition openai_process (meanwhile : nat -> list (AgentMove OpenAIAnswer OpenAIResult)) :
    proc OpenAIChatComponent ProcessResult := chat_process openai_kind meanwhile.
End openai.
Arguments ChatCompletionMessageParam ToolCalls : clear implicits.
Arguments OpenAIThread ToolCalls : clear implicits.
Arguments OpenAIAnswer ToolCalls : clear implicits.

(** ** TelegramBot *)

Inductive TelegramBotCommand : Type :=
| InitBot (token : string)
| TgSendMessage (text : string)
| SetChatId (chat_id : Z)
| TgShutdown.
Inductive TelegramBotResult : Type :=
| BotInitialized
| TgMessageReceived (msg_bytes : list byte) (chat_id : Z)
| TgMessageSent
| TgFailed (message : string).

(** What sending a message to the service leads to. *)
Inductive SendAnswer : Type := SendOk | SendErr (err : string) | SendTimedOut.

(** [tw_sent] records the messages that the service was asked to send. *)
Record TelegramThread : Type := mk_TelegramThread {
  tw_bot : option string;
  tw_chat_id : Z;
  tw_sent : list (Z * string)
}.

Definition telegram_send (answer : SendAnswer) (text : string) (w : TelegramThread) :
    option TelegramThread * list TelegramBotResult :=
  let w' := mk_TelegramThread (tw_bot w) (tw_chat_id w) (tw_sent w ++ [(tw_chat_id w, text)]) in
  match answer with
  | SendOk => (Some w', [TgMessageSent])
  | SendErr err => (Some w', [TgFailed ("Send failed: " +:+ err)])
  | SendTimedOut => (Some w', [TgFailed "Send timed out after 10s"])
  end.

#[export] Instance async_telegram_main : AgentThread TelegramThread TelegramBotCommand TelegramBotResult SendAnswer :=
  fun answer cmd w =>
    match cmd with
    | InitBot token => (Some (mk_TelegramThread (Some token) (tw_chat_id w) (tw_sent w)), [BotInitialized])
    | TgSendMessage text =>
        if is_none (tw_bot w) then (Some w, [TgFailed "Bot not initialized"])
        else if (tw_chat_id w =? 0)%Z then (Some w, [TgFailed "No chat ID set"])
        else telegram_send answer text w
    | SetChatId chat_id => (Some (mk_TelegramThread (tw_bot w) chat_id (tw_sent w)), [])
    | TgShutdown => (None, [])
    end.

Definition telegram_configure (token : string) :
    option (string * TelegramBotCommand * option (string -> TelegramBotCommand)) := Some (token, InitBot token, None).
Definition telegram_deliver (r : TelegramBotResult) : option (list TelegramBotCommand * FbpMessage) :=
  match r with
  | TgMessageReceived msg_bytes chat_id => Some ([SetChatId chat_id], from_bytes msg_bytes)
  | _ => None
  end.
Definition telegram_kind : ChatKind string TelegramBotCommand TelegramBotResult :=
  mk_ChatKind telegram_configure telegram_deliver (fun msg => TgSendMessage <$> as_text msg) [TgShutdown].

Definition TelegramBotComponent `{R : Rtrb} : Type := Chat string TelegramThread TelegramBotCommand TelegramBotResult.
Definition telegram_process `{R : Rtrb} (meanwhile : nat -> list (AgentMove SendAnswer TelegramBotResult)) :
    proc TelegramBotComponent ProcessResult := chat_process telegram_kind meanwhile.

(** ** MatrixClient *)

Record MatrixClientConfig : Type := mk_MatrixClientConfig {
  mc_homeserver : string;
  mc_username : string;
  mc_password : string;
  mc_room_name : option string
}.
Inductive MatrixClientCommand : Type :=
| InitClient (config : MatrixClientConfig)
| MxSendMessage (msg_bytes : list byte)
| MxShutdown.
Inductive MatrixClientResult : Type :=
| ClientInitialized
| MxMessageReceived (msg_bytes : list byte)
| MxMessageSent
| MxFailed (message : string).

(** What the server answers to the steps of an initialisation, of which those
    are looked at that are reached ([mx_build] fails without a text when it takes
    too long), and to a message. *)
Record MatrixAnswer : Type := mk_MatrixAnswer {
  mx_build : result () (option string);
  mx_login : result () string;
  mx_user_id : option string;
  mx_join : result string string;
  mx_sync : result () string;
  mx_has_room : bool;
  mx_send : SendAnswer
}.

Section matrix.
Context `{R : Rtrb}.
Variable url_parse : string -> option FullUrl.
(** [RoomId::parse], which is unwrapped. *)
Variable room_id_ok : string -> bool.

(** [mw_sent] records the messages for the room. *)
Record MatrixThread : Type := mk_MatrixThread {
  mw_client : bool;
  mw_room_id : option string;
  mw_user_id : option string;
  mw_sent : list (string * string)
}.

(** The last step of an initialisation. *)
Definition matrix_sync (answer : MatrixAnswer) (w : MatrixThread) : option MatrixThread * list MatrixClientResult :=
  match mx_sync answer with
  | Err e => (Some w, [MxFailed ("Initial sync failed: " +:+ e)])
  | Ok _ => (Some (mk_MatrixThread true (mw_room_id w) (mw_user_id w) (mw_sent w)), [ClientInitialized])
  end.
Definition matrix_join (config : MatrixClientConfig) (answer : MatrixAnswer) (w : MatrixThread) :
    option MatrixThread * list MatrixClientResult :=
  match mc_room_name config with
  | None => matrix_sync answer w
  | Some room_name =>
      if room_id_ok room_name then
        match mx_join answer with
        | Ok room_id => matrix_sync answer (mk_MatrixThread (mw_client w) (Some room_id) (mw_user_id w) (mw_sent w))
        | Err e => (Some w, [MxFailed ("Failed to join room: " +:+ e)])
        end
      else (None, [])
  end.
Definition matrix_init (config : MatrixClientConfig) (answer : MatrixAnswer) (w : MatrixThread) :
    option MatrixThread * list MatrixClientResult :=
  match mx_build answer with
  | Err (Some e) => (Some w, [MxFailed ("Client init failed: " +:+ e)])
  | Err None => (Some w, [MxFailed "Client init timed out"])
  | Ok _ =>
      match mx_login answer with
      | Err e => (Some w, [MxFailed ("Login failed: " +:+ e)])
      | Ok _ =>
          match mx_user_id answer with
          | None => (Some w, [MxFailed "Failed to get user ID"])
          | Some user_id =>
              matrix_join config answer (mk_MatrixThread (mw_client w) (mw_room_id w) (Some user_id) (mw_sent w))
          end
      end
  end.

Definition matrix_send (answer : MatrixAnswer) (msg_bytes : list byte) (w : MatrixThread) :
    option MatrixThread * list MatrixClientResult :=
  match mw_client w, mw_room_id w with
  | true, Some room_id =>
      match from_utf8 msg_bytes with
      | None => (None, [])
      | Some text =>
          if mx_has_room answer then
            let w' := mk_MatrixThread (mw_client w) (mw_room_id w) (mw_user_id w) (mw_sent w ++ [(room_id, text)]) in
            match mx_send answer with
            | SendOk => (Some w', [MxMessageSent])
            | SendErr err => (Some w', [MxFailed ("Send failed: " +:+ err)])
            | SendTimedOut => (Some w', [MxFailed "Send timed out after 10s"])
            end
          else (Some w, [MxFailed "Room not found"])
      end
  | _, _ => (Some w, [MxFailed "Client not initialized or no room set"])
  end.

#[export] Instance async_matrix_main : AgentThread MatrixThread MatrixClientCommand MatrixClientResult MatrixAnswer :=
  fun answer cmd w =>
    match cmd with
    | InitClient config => matrix_init config answer w
    | MxSendMessage msg_bytes => matrix_send answer msg_bytes w
    | MxShutdown => (None, [])
    end.

Definition matrix_configure (url_str : string) :
    option (MatrixClientConfig * MatrixClientCommand * option (string -> MatrixClientCommand)) :=
  url_parse url_str ≫= fun url : FullUrl =>
  homeserver ← url_host_str url;
  password ← url_password url;
  room_name ← (if String.eqb (url_path url) "" then Some None else Some <$> strip_slash (url_path url));
  let config := mk_MatrixClientConfig homeserver (url_username url) password room_name in
  Some (config, InitClient config, None).

Definition matrix_deliver (r : MatrixClientResult) : option (list MatrixClientCommand * FbpMessage) :=
  match r with
  | MxMessageReceived msg_bytes => Some ([], from_bytes msg_bytes)
  | _ => None
  end.
Definition matrix_kind : ChatKind MatrixClientConfig MatrixClientCommand MatrixClientResult :=
  mk_ChatKind matrix_configure matrix_deliver (fun msg => Some (MxSendMessage (packet_bytes msg))) [MxShutdown].

Definition MatrixClientComponent : Type :=
  Chat MatrixClientConfig MatrixThread MatrixClientCommand MatrixClientResult.
Definition matrix_process (meanwhile : nat -> list (AgentMove MatrixAnswer MatrixClientResult)) :
    proc MatrixClientComponent ProcessResult := chat_process matrix_kind meanwhile.
End matrix.
