(* ===== verification/AgentsTheorems.v ===== *)
(** What is proved about the components with a thread of their own: what the
    chat components pass on, in which order; when a call can block for ever. *)
From S2P Require Import Prelude Api Scheduler Process Pipes PipesTheorems Sinks SinksTheorems Io Clients Agents.
From Stdlib Require Strings.String.
From Stdlib Require Import NArith ZArith Lia Strings.Byte.
From stdpp Require Import base list strings gmap.
Local Open Scope string_scope.
Local Open Scope list_scope.
Local Open Scope flowd_scope.

(** * The thread *)

Section agent.
Context {W Cmd Res Ext : Type} `{T : !AgentThread W Cmd Res Ext}.
Abbreviation Agent := (Agent W Cmd Res).
Implicit Types (a : Agent).

(** The commands that have reached the thread or its channel. *)
Definition asked a : list Cmd := ag_done a ++ mp_items (ag_cmd a).
Definition alive a : Prop := mp_rx_alive (ag_cmd a) = true.

(** What moves, sends and receiving keep. *)
Record agent_closed (P : Agent -> Prop) : Prop := mk_agent_closed {
  closed_move : forall m a, P a -> P (agent_move m a);
  closed_send : forall c cmd a, mpsc_try_send c (ag_cmd a) = (Posted, cmd) -> P a ->
    P (mk_Agent cmd (ag_res a) (ag_worker a) (ag_sending a) (ag_done a) (ag_made a));
  closed_recv : forall a, P a -> P (agent_recv a).2
}.

(** [a'] comes after [a], and [cs] has been sent in between: all of it, unless the
    thread has ended. *)
Record told (cs : list Cmd) a a' : Prop := mk_told {
  told_asked : exists rest, asked a ++ cs = asked a' ++ rest /\ (alive a' -> rest = []);
  told_dead : ~ alive a -> asked a' = asked a;
  told_alive : alive a' -> alive a;
  told_made : exists l, ag_made a' = ag_made a ++ l /\ mp_items (ag_res a') = mp_items (ag_res a) ++ l;
  told_keeps : forall P, agent_closed P -> P a -> P a'
}.

Lemma told_refl a : told [] a a.
Proof. split; [exists []; by rewrite !app_nil_r|done|done|exists []; by rewrite !app_nil_r|done]. Qed.

Lemma told_app cs1 cs2 a1 a2 a3 : told cs1 a1 a2 -> told cs2 a2 a3 -> told (cs1 ++ cs2) a1 a3.
Proof.
  intros [(r1 & E1 & L1) D1 A1 (l1 & M1 & I1) K1] [(r2 & E2 & L2) D2 A2 (l2 & M2 & I2) K2]. split.
  - destruct (decide (mp_rx_alive (ag_cmd a2) = true)) as [H|H].
    + rewrite (L1 H), app_nil_r in E1. exists r2. by rewrite app_assoc, E1.
    + exists (r1 ++ cs2). rewrite app_assoc, E1, <- app_assoc, (D2 H). split; [done|]. intros H3. by apply A2 in H3.
  - intros H. rewrite D2; [by apply D1|]. by intros H2%A1.
  - by intros H%A2%A1.
  - exists (l1 ++ l2). by rewrite M2, I2, M1, I1, !app_assoc.
  - intros P HP H. by apply K2, K1.
Qed.

Lemma told_put r sending a : let a' := put_result r sending a in
  asked a' = asked a /\ (alive a' -> alive a) /\
  exists l, ag_made a' = ag_made a ++ l /\ mp_items (ag_res a') = mp_items (ag_res a) ++ l.
Proof.
  unfold put_result, mpsc_try_send. destruct (negb _); [|destruct (mpsc_full _)].
  1, 2: split_and!; [done..|exists []; by rewrite !app_nil_r]. split_and!; [done..|by exists [r]].
Qed.

Lemma told_take answer a : let a' := take_command answer a in
  asked a' = asked a /\ (alive a' -> alive a) /\ ag_made a' = ag_made a /\ ag_res a' = ag_res a.
Proof.
  unfold take_command, mpsc_try_recv. destruct (ag_worker a) as [w|]; [|done].
  destruct (mp_items (ag_cmd a)) as [|c items] eqn:Hi; [by destruct (mp_tx_alive _)|].
  destruct (handle answer c w) as [w' rs]. unfold asked, alive. simpl. rewrite Hi, <- app_assoc. by destruct (is_none w').
Qed.

Lemma told_move m a : told [] a (agent_move m a).
Proof.
  assert (let a' := agent_move m a in asked a' = asked a /\ (alive a' -> alive a) /\
    exists l, ag_made a' = ag_made a ++ l /\ mp_items (ag_res a') = mp_items (ag_res a) ++ l) as (Hk & Ha & Hm).
  { destruct m as [answer|r]; [|apply told_put]. simpl. destruct (ag_sending a) as [|r rest]; [|apply told_put].
    destruct (told_take answer a) as (H1 & H2 & H3 & H4). split_and!; [done..|]. exists []. by rewrite H3, H4, !app_nil_r. }
  split; [|done|done|done|intros P [HP _ _]; apply HP]. exists []. by rewrite !app_nil_r, Hk.
Qed.

Lemma told_post c a cmd : mpsc_try_send c (ag_cmd a) = (Posted, cmd) ->
  told [c] a (mk_Agent cmd (ag_res a) (ag_worker a) (ag_sending a) (ag_done a) (ag_made a)).
Proof.
  intros Hs. split; [exists []| | |exists []; by rewrite !app_nil_r|intros P HP; by apply (closed_send _ HP c)];
    unfold mpsc_try_send in Hs; destruct (mp_rx_alive (ag_cmd a)) eqn:Ha; simpl in Hs; try done;
    destruct (mpsc_full _); simplify_eq; unfold asked, alive; simpl; by rewrite ?app_nil_r, ?app_assoc.
Qed.

Lemma told_send moves c a : match agent_send moves c a with
  | Some (sent, a') => told [c] a a' /\ (sent = false -> ~ alive a')
  | None => True
  end.
Proof.
  revert a. induction moves as [|m moves IH]; intros a; simpl; destruct (mpsc_try_send c (ag_cmd a)) as [[] cmd] eqn:Hs; try done.
  1, 3: split; [by apply told_post|done].
  2: { specialize (IH (agent_move m a)). destruct (agent_send moves c _) as [[sent a']|]; [|done].
       destruct IH as [IH Hf]. split; [|done]. by eapply (told_app []); [apply told_move|]. }
  all: unfold mpsc_try_send in Hs; destruct (mp_rx_alive (ag_cmd a)) eqn:Ha; simpl in Hs; [by destruct (mpsc_full _)|];
    split; [|unfold alive; congruence]; split; [exists [c]; split; [done|unfold alive; congruence]|done..| |done];
    exists []; by rewrite !app_nil_r.
Qed.

(** A send that the other side cannot make room for: the thread waits with a
    result for room, too. *)
Definition stuck a : Prop :=
  alive a /\ mpsc_full (ag_cmd a) = true /\ ag_sending a <> [] /\ mp_rx_alive (ag_res a) = true /\
  mpsc_full (ag_res a) = true.

Lemma stuck_move m a : stuck a -> agent_move m a = a.
Proof.
  intros (_ & _ & Hs & Hr & Hf). unfold agent_move, put_result, mpsc_try_send. rewrite Hr, Hf. simpl.
  by destruct m, (ag_sending a).
Qed.

Lemma stuck_send moves c a : stuck a -> agent_send moves c a = None.
Proof.
  intros Hs. induction moves as [|m moves IH]; simpl; unfold mpsc_try_send; destruct Hs as (Ha & Hc & Hs & Hr & Hf);
    unfold alive in Ha; rewrite Ha, Hc; simpl; [done|]. by rewrite stuck_move.
Qed.

Section operations.
Context {C : Type}.
Variable l : lens C Agent.

Lemma wlp_command moves c f (Q : bool -> frame C -> Prop) E :
  (forall sent a, told [c] (get l (fr_self f)) a -> (sent = false -> ~ alive a) ->
     Q sent (with_self (set l a (fr_self f)) f)) ->
  wlp (command l moves c) Q E f.
Proof.
  intros HQ. unfold wlp, wp, command. pose proof (told_send moves c (get l (fr_self f))) as H.
  destruct (agent_send moves c _) as [[sent a]|]; [right|by left]. destruct H. by apply HQ.
Qed.

(** Receiving a result. *)
Lemma wp_result_of f (Q : received Res -> frame C -> Prop) E :
  (forall r a, asked a = asked (get l (fr_self f)) -> (alive a <-> alive (get l (fr_self f))) ->
     ag_made a = ag_made (get l (fr_self f)) -> (forall P, agent_closed P -> P (get l (fr_self f)) -> P a) ->
     (match r with Received r => [r] | _ => [] end) ++ mp_items (ag_res a) = mp_items (ag_res (get l (fr_self f))) ->
     Q r (with_self (set l a (fr_self f)) f)) ->
  wp (result_of l) Q E f.
Proof.
  intros HQ. set (a := get l (fr_self f)) in *. unfold wp, result_of. fold a.
  assert (forall P, agent_closed P -> P a -> P (agent_recv a).2) as Hk by (intros P HP; apply (closed_recv _ HP)).
  unfold agent_recv, mpsc_try_recv in *. destruct (mp_items (ag_res a)) as [|r items] eqn:Hi; simpl.
  - simpl in Hk. destruct (mp_tx_alive _); apply HQ; try done; simpl; by rewrite ?Hi.
  - simpl in Hk. by apply HQ.
Qed.
End operations.
End agent.

(** * Chat components *)

Section chat.
Context `{R : Rtrb} {Config W Cmd Res Ext : Type} `{T : !AgentThread W Cmd Res Ext}.
Variable k : ChatKind Config Cmd Res.
Abbreviation Chat := (Chat Config W Cmd Res).
Implicit Types (c : Chat) (f : frame Chat).

(** What is to be kept of the thread, besides. *)
Variable P : Agent W Cmd Res -> Prop.
Hypothesis P_closed : agent_closed P.

(** What an active component has done: it has passed a packet to its thread, or
    a result of the thread to the outside. *)
Definition event : Type := FbpMessage + Res.
Definition event_packet (e : event) : option FbpMessage := match e with inl m => Some m | inr _ => None end.
Definition event_result (e : event) : option Res := match e with inl _ => None | inr r => Some r end.
Definition event_commands (e : event) : list Cmd :=
  match e with
  | inl m => option_list (ck_command k m)
  | inr r => match ck_deliver k r with Some (cs, _) => cs | None => [] end
  end.
Definition event_output (e : event) : option FbpMessage :=
  match e with inl _ => None | inr r => snd <$> ck_deliver k r end.

(** What came before: the prompt, and the commands for the configuration and
    the prompt. *)
Definition started (st : ChatState Cmd) (prompts : list FbpMessage) (initial : list Cmd) (events : list event) : Prop :=
  match st with
  | ChatWaitingForConfig => prompts = [] /\ initial = [] /\ events = []
  | ChatWaitingForInitialPrompt prompt =>
      (exists url config cmd, ck_configure k url = Some (config, cmd, Some prompt) /\ initial = [cmd]) /\
      prompts = [] /\ events = []
  | ChatActive =>
      exists url config cmd prompt, ck_configure k url = Some (config, cmd, prompt) /\
        match prompt with
        | None => initial = [cmd] /\ prompts = []
        | Some prompt => exists m text, message_to_utf8_text m = Some text /\ initial = [cmd; prompt text] /\ prompts = [m]
        end
  | ChatFinished => False
  end.

(** [given] has come to IN, [got] has been taken from OUT. *)
Record chat_inv (given got : list FbpMessage) (prompts : list FbpMessage) (initial : list Cmd) (events : list event) c :
    Prop := mk_chat_inv {
  ci_started : started (ch_state c) prompts initial events;
  ci_packets : prompts ++ omap event_packet events ++ ring_items (ch_inn c) = given;
  ci_asked : exists rest, initial ++ concat (map event_commands events) = asked (ch_agent c) ++ rest /\
    (alive (ch_agent c) -> rest = []);
  ci_results : omap event_result events ++ mp_items (ag_res (ch_agent c)) = ag_made (ch_agent c);
  ci_outputs : got ++ sink_items (ch_out c) = omap event_output events;
  ci_keeps : P (ch_agent c)
}.
Definition chat_ok (given got : list FbpMessage) c : Prop :=
  exists prompts initial events, chat_inv given got prompts initial events c.

Lemma asked_told before cs (a1 a2 : Agent W Cmd Res) :
  (exists rest, before = asked a1 ++ rest /\ (alive a1 -> rest = [])) -> told cs a1 a2 ->
  exists rest, before ++ cs = asked a2 ++ rest /\ (alive a2 -> rest = []).
Proof.
  intros (rest & -> & Hrest) [(r & E & L) D A _ _]. destruct (decide (mp_rx_alive (ag_cmd a1) = true)) as [H|H].
  - rewrite (Hrest H), app_nil_r. by exists r.
  - exists (rest ++ cs). rewrite <- app_assoc, (D H). split; [done|]. by intros H2%A.
Qed.

Lemma option_list_omap {A B} (g : A -> option B) x : option_list (g x) = omap g [x].
Proof. simpl. by destruct (g x). Qed.

(** An event more. *)
Lemma chat_inv_event given got prompts initial events e c c' a :
  chat_inv given got prompts initial events c -> ch_state c = ChatActive -> ch_state c' = ChatActive ->
  option_list (event_packet e) ++ ring_items (ch_inn c') = ring_items (ch_inn c) ->
  asked a = asked (ch_agent c) -> (alive a <-> alive (ch_agent c)) -> ag_made a = ag_made (ch_agent c) -> P a ->
  option_list (event_result e) ++ mp_items (ag_res a) = mp_items (ag_res (ch_agent c)) ->
  told (event_commands e) a (ch_agent c') ->
  sink_items (ch_out c') = sink_items (ch_out c) ++ option_list (event_output e) ->
  chat_inv given got prompts initial (events ++ [e]) c'.
Proof.
  intros [Hs Hp Ha Hr Ho _] Hst Hst' Hin Hak Hal Hmd HPa Hit Ht Hout. rewrite !option_list_omap in *. split.
  - by rewrite Hst' in *; rewrite Hst in Hs.
  - rewrite omap_app, <- Hp, <- Hin, <- !app_assoc. done.
  - rewrite map_app, concat_app, app_assoc. simpl. rewrite app_nil_r. eapply asked_told; [|exact Ht].
    rewrite Hak. destruct Ha as (rest & E & L). exists rest. split; [done|]. by intros H%Hal%L.
  - destruct (told_made _ _ _ Ht) as (l & Hm & Hi). rewrite omap_app, Hm, Hi, Hmd, <- Hr, <- Hit, <- !app_assoc. done.
  - by rewrite omap_app, Hout, <- Ho, <- !app_assoc.
  - by apply (told_keeps _ _ _ Ht).
Qed.

Section calls.
Variable meanwhile : nat -> list (AgentMove Ext Res).
Variable given got : list FbpMessage.
Abbreviation ok f := (chat_ok given got (fr_self f)).

Lemma wlp_tell_all cs : forall i f (Q : unit -> frame Chat -> Prop) E,
  (forall a, told cs (ch_agent (fr_self f)) a -> Q tt (with_self (set ch_l_agent a (fr_self f)) f)) ->
  wlp (tell_all meanwhile i cs) Q E f.
Proof.
  induction cs as [|c cs IH]; intros i f Q E HQ.
  - apply wlp_wp, wp_ret. specialize (HQ _ (told_refl _)). destruct f as [[] ? ? ? ?]. exact HQ.
  - cbn [tell_all]. unfold tell. apply wlp_bind, wlp_bind, wlp_command. intros sent a Ha _. apply wlp_wp, wp_ret.
    apply IH. intros a2 Ha2. apply HQ. by apply (told_app [c] cs _ a).
Qed.

Lemma wlp_must_tell i cmd f (Q : unit -> frame Chat -> Prop) (E : exit -> frame Chat -> Prop) :
  (forall a, told [cmd] (ch_agent (fr_self f)) a -> Q tt (with_self (set ch_l_agent a (fr_self f)) f)) ->
  (forall f', E (Return Finished) f') -> wlp (must_tell meanwhile i cmd) Q E f.
Proof.
  intros HQ HE. unfold must_tell. apply wlp_bind, wlp_command. intros [] a Ha _; apply wlp_wp; [apply wp_ret|apply wp_leave].
  - by apply HQ.
  - apply HE.
Qed.

Lemma wlp_chat_receive f (Q : unit -> frame Chat -> Prop) (E : exit -> frame Chat -> Prop) :
  ok f -> ch_state (fr_self f) = ChatActive -> (forall f', ok f' -> ch_state (fr_self f') = ChatActive -> Q tt f') ->
  (forall f', E (Return Finished) f') -> wlp (chat_receive k meanwhile) Q E f.
Proof.
  intros (ps & cs & es & Hi) Hst HQ HE. unfold chat_receive. apply wlp_bind_wp, wp_budget.
  destruct (N.ltb_spec 0 (remaining_budget (fr_ctx f))) as [Hb|_]; [|apply wlp_wp, wp_ret, HQ; [by exists ps, cs, es|done]].
  apply wlp_bind_wp, wp_result_of. intros r a Hak Hal Hmd Hka Hit. simpl in Hak, Hal, Hmd, Hka, Hit.
  assert (P a) as HPa by (apply Hka; [done|apply Hi]).
  destruct r as [r| |].
  2, 3: apply wlp_wp, wp_ret, HQ; [|done]; exists ps, cs, es; destruct Hi as [Hs Hp (rest & Ha & Hl) Hr Ho _];
    split; simpl; [done|done|exists rest; rewrite Hak; split; [done|by intros H%Hal%Hl]|by rewrite Hmd, <- Hr, <- Hit|done|done].
  unfold chat_deliver. apply wlp_bind.
  assert (forall g a' o, ch_state (fr_self g) = ChatActive -> ch_inn (fr_self g) = ch_inn (fr_self f) ->
    ch_agent (fr_self g) = a' -> told (event_commands (inr r)) a a' -> ch_out (fr_self g) = o ->
    sink_items o = sink_items (ch_out (fr_self f)) ++ option_list (event_output (inr r)) ->
    wlp (work 1;; charge 1) Q E g) as Hev.
  { intros g a' o Hg1 Hg2 Hg3 Ht Hg4 Ho. apply wlp_bind_wp, wp_work, wlp_wp, wp_charge_any. intros ctx. apply HQ; [|done].
    exists ps, cs, (es ++ [inr r]). eapply (chat_inv_event _ _ _ _ _ (inr r) (fr_self f) _ a); simpl; try done.
    - by rewrite Hg2.
    - by rewrite Hg3.
    - by rewrite Hg4. }
  destruct (ck_deliver k r) as [[cs' m]|] eqn:Hd.
  - apply wlp_bind, wlp_tell_all. intros a' Ht. apply wlp_bind_wp, wp_send; simpl.
    + intros _ o eff Hsent _. apply wlp_wp, wp_ret. eapply (Hev _ a' o); simpl; rewrite ?Hd; try done. apply (sent_items _ _ _ _ Hsent).
    + intros _ o _. apply wlp_wp, wp_leave, HE.
  - apply wlp_wp, wp_ret. eapply Hev; simpl; rewrite ?Hd; try done; [apply told_refl|by rewrite app_nil_r].
Qed.

Lemma wlp_chat_forward i f (Q : unit -> frame Chat -> Prop) (E : exit -> frame Chat -> Prop) :
  ok f -> ch_state (fr_self f) = ChatActive -> (forall f', ok f' -> ch_state (fr_self f') = ChatActive -> Q tt f') ->
  (forall f', E (Return Finished) f') -> (forall f', E Unwind f') -> wlp (chat_forward k meanwhile i) Q E f.
Proof.
  intros (ps & cs & es & Hi) Hst HQ HE HU. unfold chat_forward. apply wlp_bind_wp, wp_budget.
  destruct (N.ltb_spec 0 (remaining_budget (fr_ctx f))) as [Hb|_]; [|apply wlp_wp, wp_ret, HQ; [by exists ps, cs, es|done]].
  apply wlp_bind_wp, wp_pop; simpl.
  - intros H0 r [Hr _ _]. apply wlp_wp, wp_ret, HQ; [|done]. exists ps, cs, es. destruct Hi as [Hs Hp Ha Hre Ho HP].
    split; simpl; [done| |done..]. rewrite Hr. by rewrite H0 in *.
  - intros m rest r Hm [Hr _ _]. destruct (ck_command k m) as [cmd|] eqn:Hc; [|apply wlp_wp, wp_leave, HU].
    apply wlp_bind, wlp_must_tell; [|done]. intros a Ha. apply wlp_bind_wp, wp_work, wlp_wp, wp_charge_any. intros ctx.
    apply HQ; [|done]. exists ps, cs, (es ++ [inl m]).
    eapply (chat_inv_event _ _ _ _ _ (inl m) (fr_self f) _ (ch_agent (fr_self f))); simpl; try done.
    + by rewrite Hr, Hm.
    + apply Hi.
    + by rewrite Hc.
    + by rewrite app_nil_r.
Qed.

Lemma wlp_chat_configure f (Q : ProcessResult -> frame Chat -> Prop) (E : exit -> frame Chat -> Prop) :
  ok f -> ch_state (fr_self f) = ChatWaitingForConfig -> (forall r f', ok f' -> Q r f') ->
  (forall f', E (Return Finished) f') -> (forall f', E Unwind f') -> wlp (chat_configure k meanwhile) Q E f.
Proof.
  intros (ps & cs & es & [Hs Hp Ha Hr Ho HP]) Hst HQ HE HU. rewrite Hst in Hs. destruct Hs as (-> & -> & ->).
  unfold chat_configure. apply wlp_bind_wp, wp_pop; simpl.
  - intros _ r _. apply wlp_wp, wp_ret, HQ. exists [], [], []. split; try done. simpl. by rewrite Hst.
  - intros m rest r _ _. destruct (as_text m ≫= ck_configure k) as [[[config cmd] prompt]|] eqn:Hc; [|apply wlp_wp, wp_leave, HU].
    apply bind_Some in Hc as (url & _ & Hc). apply wlp_bind_wp, wp_write, wlp_bind, wlp_must_tell; [|done].
    intros a Ht. simpl in Ht. apply wlp_wp. wp_run. apply HQ. exists [], [cmd], []. split; simpl; try done.
    + destruct prompt as [prompt|]; simpl; [by split_and!; [do 3 eexists|..]|]. by exists url, config, cmd, None.
    + eapply (asked_told []); [|exact Ht]. exact Ha.
    + destruct (told_made _ _ _ Ht) as (l & -> & ->). by rewrite <- Hr.
    + by apply (told_keeps _ _ _ Ht).
Qed.

Lemma wlp_chat_prompt prompt f (Q : ProcessResult -> frame Chat -> Prop) (E : exit -> frame Chat -> Prop) :
  ok f -> ch_state (fr_self f) = ChatWaitingForInitialPrompt prompt ->
  (forall r f', r = Finished \/ ok f' -> Q r f') ->
  (forall f', E (Return Finished) f') -> wlp (chat_prompt meanwhile prompt) Q E f.
Proof.
  intros (ps & cs & es & [Hs Hp Ha Hr Ho HP]) Hst HQ HE. rewrite Hst in Hs.
  destruct Hs as ((url & config & cmd & Hc & ->) & -> & ->). unfold chat_prompt. apply wlp_bind_wp, wp_pop; simpl.
  - intros H0 r [Hr' _ _]. apply wlp_bind_wp, wp_is_abandoned. apply wlp_wp. destruct (ring_is_abandoned _); wp_run; apply HQ; [by left|].
    right. exists [], [cmd], []. split; simpl; try done.
    + rewrite Hst. by split_and!; [do 3 eexists|..].
    + by rewrite Hr', drop_0.
  - intros m rest r Hm [Hr' _ _]. destruct (message_to_utf8_text m) as [text|] eqn:Ht; [|apply wlp_wp, wp_leave, HE].
    apply wlp_bind, wlp_must_tell; [|done]. intros a Htold. simpl in Htold. apply wlp_wp. wp_run. apply HQ. right.
    exists [m], [cmd; prompt text], []. split; simpl; try done.
    + exists url, config, cmd, (Some prompt). split; [done|]. by exists m, text.
    + rewrite Hr', <- Hp, Hm. done.
    + by eapply (asked_told [cmd]).
    + destruct (told_made _ _ _ Htold) as (l & -> & ->). by rewrite <- Hr.
    + by apply (told_keeps _ _ _ Htold).
Qed.

Lemma wlp_chat_active f (Q : ProcessResult -> frame Chat -> Prop) (E : exit -> frame Chat -> Prop) :
  ok f -> ch_state (fr_self f) = ChatActive -> (forall r f', ok f' -> Q r f') ->
  (forall f', E (Return Finished) f') -> (forall f', E Unwind f') -> wlp (chat_active k meanwhile) Q E f.
Proof.
  intros Hok Hst HQ HE HU. unfold chat_active. apply wlp_bind, wlp_chat_receive; [done|done| |done]. intros f1 Hok1 Hst1.
  apply wlp_bind, wlp_chat_forward; [done|done| |done|done]. intros f2 Hok2 _. apply wlp_wp. apply wp_bind, wp_read, wp_bind.
  destruct (_ <? _)%nat; wp_run; by apply HQ.
Qed.

(** A call that returns and does not finish the component. *)
Lemma chat_call c ctx f r :
  chat_ok given got c -> call (chat_process k meanwhile) c ctx = Some (f, Some r) -> r <> Finished ->
  chat_ok given got (fr_self f).
Proof.
  intros Hok. refine (wlp_call _ c ctx (fun f r => match r with Some r => r <> Finished -> ok f | None => True end) f (Some r) _).
  unfold chat_process. apply wlp_bind. unfold stop_signal. apply wlp_bind_wp, wp_zoom, wp_signal_stop; cbn [fr_self get set].
  2: { intros _ sg _. apply wlp_bind, wlp_bind, wlp_tell_all. intros a _. wlp_run. intros H. by destruct H. }
  intros _ sg _. apply wlp_wp, wp_ret. apply wlp_bind_wp, wp_read. set (g := mk_frame _ _ _ _ _).
  assert (ok g) as Hg by (destruct Hok as (ps & cs & es & []); by exists ps, cs, es). clearbody g. clear Hok c ctx.
  destruct (get ch_l_state (fr_self g)) as [|prompt| |] eqn:Hst.
  - apply wlp_chat_configure; [done|done|done|done|done].
  - apply (wlp_chat_prompt prompt); [done|done| |done]. by intros r' f' [->|H].
  - apply wlp_chat_active; [done|done|done|done|done].
  - apply wlp_wp, wp_ret. done.
Qed.
End calls.

(** ** Runs

    A component that has not finished: calls, moves of its thread and of others,
    packets for its ports, and packets taken from OUT. *)
Record ChatRun : Type := mk_ChatRun { cn_chat : Chat; cn_given : list FbpMessage; cn_got : list FbpMessage }.

Inductive chat_step : ChatRun -> ChatRun -> Prop :=
| chat_called meanwhile c given got ctx f r :
    call (chat_process k meanwhile) c ctx = Some (f, Some r) -> r <> Finished ->
    chat_step (mk_ChatRun c given got) (mk_ChatRun (fr_self f) given got)
| chat_moves (m : AgentMove Ext Res) c given got :
    chat_step (mk_ChatRun c given got) (mk_ChatRun (set ch_l_agent (agent_move m (ch_agent c)) c) given got)
| chat_configured c given got m r :
    ring_push m (ch_conf c) = (Ok tt, r) -> chat_step (mk_ChatRun c given got) (mk_ChatRun (set ch_l_conf r c) given got)
| chat_given c given got m r :
    ring_push m (ch_inn c) = (Ok tt, r) ->
    chat_step (mk_ChatRun c given got) (mk_ChatRun (set ch_l_inn r c) (given ++ [m]) got)
| chat_closed c given got :
    chat_step (mk_ChatRun c given got) (mk_ChatRun (set ch_l_inn (ring_drop_producer (ch_inn c)) c) given got)
| chat_signalled c given got m sin :
    try_send m (ch_signals_in c) = (Ok tt, sin) ->
    chat_step (mk_ChatRun c given got) (mk_ChatRun (set ch_l_signals (mk_Signals sin (ch_signals_out c)) c) given got)
| chat_got c given got m r :
    ring_pop (pes_sink (ch_out c)) = (Some m, r) ->
    chat_step (mk_ChatRun c given got) (mk_ChatRun (set ch_l_out (set_sink r (ch_out c)) c) given (got ++ [m])).

(** A component as [new] makes it. *)
Definition chat_untouched (s : ChatRun) : Prop :=
  let c := cn_chat s in
  ch_state c = ChatWaitingForConfig /\ ring_items (ch_inn c) = cn_given s /\ cn_got s = [] /\ sink_items (ch_out c) = [] /\
  asked (ch_agent c) = [] /\ ag_made (ch_agent c) = [] /\ mp_items (ag_res (ch_agent c)) = [].

Lemma chat_run_ok s0 s :
  chat_untouched s0 -> P (ch_agent (cn_chat s0)) -> rtc chat_step s0 s -> chat_ok (cn_given s) (cn_got s) (cn_chat s).
Proof.
  intros (Hst & Hi & Hg & Ho & Ha & Hm & Hr) HP Hrun.
  assert (chat_ok (cn_given s0) (cn_got s0) (cn_chat s0)) as Hok.
  { exists [], [], []. split; simpl; [by rewrite Hst|done|exists []; by rewrite Ha|by rewrite Hm, Hr|by rewrite Hg, Ho|done]. }
  clear Hst Hi Hg Ho Ha Hm Hr HP. induction Hrun as [s|s1 s2 s3 Hs _ IH]; [done|]. apply IH. clear IH.
  destruct Hs as [meanwhile c given got ctx f r Hcall Hr|m c given got|c given got m r Hp|c given got m r Hp|c given got|c given got m sin Hp|c given got m r Hp];
    simpl in *; [by eapply chat_call| |..]; destruct Hok as (ps & cs & es & [Hs Hi Ha Hre Ho HP]); exists ps, cs, es; split; simpl; try done.
  - destruct (asked_told _ [] _ _ Ha (told_move m (ch_agent c))) as (rest & E & L). rewrite app_nil_r in E. by exists rest.
  - destruct (told_made _ _ _ (told_move m (ch_agent c))) as (l & -> & ->). by rewrite app_assoc, Hre.
  - by apply P_closed.
  - pose proof (ring_push_items m (ch_inn c)) as H. rewrite Hp in H. simpl in H.
    pose proof (ring_push_res m (ch_inn c)) as Hres. rewrite Hp in Hres. simpl in Hres. destruct (_ <? _)%nat; [|done].
    by rewrite H, !app_assoc, <- (app_assoc ps), Hi.
  - by rewrite ring_drop_producer_items.
  - rewrite <- Ho. pose proof (ring_pop_res (pes_sink (ch_out c))) as Hres. pose proof (ring_pop_items (pes_sink (ch_out c))) as Hit.
    rewrite Hp in Hres, Hit. simpl in *. unfold sink_items. simpl. rewrite Hit, <- app_assoc. f_equal.
    destruct (ring_items (pes_sink _)); [done|]. simpl in *. by injection Hres as ->.
Qed.

End chat.

Section passes_on.
Context `{R : Rtrb} {Config W Cmd Res Ext : Type} `{T : !AgentThread W Cmd Res Ext}.
Variable k : ChatKind Config Cmd Res.

(** C31: what a chat component passes on.  Along every run in which it has not
    finished (with any moves of its thread and of other tasks, also while a send
    waits), there is a list of what it has done with packets and results such
    that: the packets from IN are the prompt, if one was configured, those in the
    list, and those that wait, in order; the commands for the thread are that of
    the configuration, that of the prompt and those of the list, in order and
    each once, as long as the thread lives, and none but these after; the results
    of the thread are those in the list and those that wait, in order; and what
    was sent on OUT is what the results in the list stand for, in order. *)
Theorem chat_passes_on s0 s :
  chat_untouched s0 -> rtc (chat_step k) s0 s ->
  exists prompts initial (events : list (event (Res := Res))),
    let c := cn_chat s in
    started k (ch_state c) prompts initial events /\
    cn_given s = prompts ++ omap event_packet events ++ ring_items (ch_inn c) /\
    (exists rest, initial ++ concat (map (event_commands k) events) = asked (ch_agent c) ++ rest /\
       (alive (ch_agent c) -> rest = [])) /\
    ag_made (ch_agent c) = omap event_result events ++ mp_items (ag_res (ch_agent c)) /\
    cn_got s ++ sink_items (ch_out c) = omap (event_output k) events.
Proof.
  intros H0 Hr. destruct (chat_run_ok k (fun _ => True)) with (s0 := s0) (s := s) as (prompts & initial & events & []);
    [by split|done|done|done|].
  exists prompts, initial, events. by split_and!.
Qed.
End passes_on.

(** * When a call returns *)

(** A part that ends, before one that does not; a part that does not. *)
Lemma none_bind {C A B} (m : proc C A) (g : A -> proc C B) f :
  wp m (fun a f' => g a f' = None) (fun _ _ => False) f -> (m ≫= g) f = None.
Proof. unfold wp, mbind, proc_bind. by destruct (m f) as [[f' [a|e]]|]. Qed.
Lemma none_bind_l {C A B} (m : proc C A) (g : A -> proc C B) f : m f = None -> (m ≫= g) f = None.
Proof. unfold mbind, proc_bind. by intros ->. Qed.

Section returns.
Context `{R : Rtrb} {Config W Cmd Res Ext : Type} `{T : !AgentThread W Cmd Res Ext}.
Variable k : ChatKind Config Cmd Res.
Abbreviation Chat := (Chat Config W Cmd Res).
Abbreviation Agent := (Agent W Cmd Res).
Implicit Types (c : Chat) (f : frame Chat) (a : Agent).

(** ** Blocking for ever

    Both channels are full and the thread waits with a result; the call takes a
    result out, and a result of another task comes in before the one of the
    thread. *)
Lemma stuck_forward a r rest res0 moves cmd :
  alive a -> mpsc_full (ag_cmd a) = true -> ag_sending a <> [] -> mp_rx_alive (ag_res a) = true ->
  mpsc_full (ag_res a) = true -> mp_items (ag_res a) = res0 :: rest ->
  agent_send (Arrives r :: moves) cmd (agent_recv a).2 = None.
Proof.
  intros Ha Hc Hs Hr Hf Hi. unfold agent_recv, mpsc_try_recv. rewrite Hi. simpl. set (a' := mk_Agent _ _ _ _ _ _).
  unfold mpsc_try_send at 1. unfold a' at 1 2. simpl. unfold alive in Ha. rewrite Ha, Hc. simpl.
  apply stuck_send. unfold put_result, mpsc_try_send, a', mpsc_full in *. simpl. rewrite Hr. simpl.
  destruct (mp_bound (ag_res a)) as [n|] eqn:Hn; [|done]. rewrite Hi in Hf. simpl in Hf. apply Nat.leb_le in Hf.
  assert (forall l : list Res, (n <=? length (l ++ [r]))%nat = (n <=? S (length l))%nat) as Hl
    by (intros; by rewrite length_app, Nat.add_1_r).
  destruct (Nat.leb_spec n (length rest)) as [H|H].
  - split_and!; try done. unfold mpsc_full. simpl. rewrite Hn. by apply Nat.leb_le.
  - split_and!; try done. unfold mpsc_full. simpl. rewrite Hn, Hl. by apply Nat.leb_le.
Qed.

(** C32: a chat component can block the scheduler for ever.  Both channels are
    bounded and both sides send with a send that blocks: when the two channels
    are full and the thread waits with a result, a call that passes a packet on
    takes one result out; if the result of another task gets its place, the call
    never returns, whatever the thread and others do from then on.  Other tasks
    run while the thread blocks where its runtime is multi-threaded, which is that
    of TelegramBot. *)
Theorem chat_blocks meanwhile c ctx r res0 rest packet cmd :
  ch_state c = ChatActive -> ~ stop_next message_as_utf8 (get ch_l_signals c) -> (2 <= remaining_budget ctx)%N ->
  head (ring_items (ch_inn c)) = Some packet -> ck_command k packet = Some cmd ->
  (forall cs m, ck_deliver k res0 = Some (cs, m) -> cs = [] /\ (0 < room (ch_out c))%nat) ->
  mp_items (ag_res (ch_agent c)) = res0 :: rest -> mpsc_full (ag_res (ch_agent c)) = true ->
  mp_rx_alive (ag_res (ch_agent c)) = true -> ag_sending (ch_agent c) <> [] ->
  alive (ch_agent c) -> mpsc_full (ag_cmd (ch_agent c)) = true ->
  (exists moves, meanwhile 1%nat = Arrives r :: moves) ->
  call (chat_process k meanwhile) c ctx = None.
Proof.
  intros Hst Hns Hb Hin Hcmd Hd Hres Hrf Hra Hs Ha Hcf [moves Hm].
  unfold call. replace (chat_process k meanwhile (mk_frame c ctx 0 [] 0)) with (@None (frame Chat * (ProcessResult + exit))); [done|].
  symmetry. unfold chat_process. apply none_bind, wp_stop_signal; cbn [fr_self]; [|done].
  intros _ sg _. apply none_bind, wp_read. simpl. rewrite Hst. unfold chat_active.
  assert (forall f, ring_items (ch_inn (fr_self f)) = ring_items (ch_inn c) -> (1 <= remaining_budget (fr_ctx f))%N ->
    ch_agent (fr_self f) = (agent_recv (ch_agent c)).2 -> chat_forward k meanwhile 1 f = None) as Hfwd.
  { intros f Hi Hbf Hag. rewrite <- Hi in Hin. unfold chat_forward. apply none_bind, wp_budget.
    destruct (N.ltb_spec 0 (remaining_budget (fr_ctx f))) as [_|]; [|lia]. apply none_bind, wp_pop; simpl.
    - intros H. by rewrite H in Hin.
    - intros m rest' ring H _. rewrite H in Hin. simpl in Hin. injection Hin as ->. rewrite Hcmd. apply none_bind_l.
      unfold must_tell. apply none_bind_l. unfold command. simpl. rewrite Hag, Hm. by erewrite stuck_forward. }
  apply none_bind. unfold chat_receive. apply wp_bind, wp_budget. simpl.
  destruct (N.ltb_spec 0 (remaining_budget ctx)) as [_|]; [|lia]. apply wp_bind. unfold wp, result_of. simpl.
  unfold agent_recv, mpsc_try_recv in *. rewrite Hres in *. simpl in *. fold (wp (chat_deliver k meanwhile res0)).
  match goal with |- match chat_deliver _ _ _ ?f with _ => _ end => set (g := f) end.
  change (wp (chat_deliver k meanwhile res0) (fun _ f' => (chat_forward k meanwhile 1;;
    inn ← read ch_l_inn;
    (if (0 <? ring_slots inn)%nat then emit [EffContextReady] else mret tt);;
    w ← work_units; mret (if (0 <? w)%N then DidWork w else NoWork)) f' = None) (fun _ _ => False) g).
  unfold chat_deliver. apply wp_bind. destruct (ck_deliver k res0) as [[cs m]|].
  - destruct (Hd cs m eq_refl) as [-> Hroom]. simpl. apply wp_bind, wp_ret, wp_bind, wp_send; simpl; [|lia].
    intros _ o es _ _. wp_run. apply none_bind_l, Hfwd; simpl; [done|lia|done].
  - wp_run. apply none_bind_l, Hfwd; simpl; [done|lia|done].
Qed.

(** ** Returning

    A thread that answers a command with one result at most, and no other task:
    two turns of it always make room. *)
Record agent_wf a : Prop := mk_agent_wf {
  wf_alive : alive a <-> is_Some (ag_worker a);
  wf_cmd : mp_bound (ag_cmd a) = Some DEFAULT_MAX_INFLIGHT /\ (length (mp_items (ag_cmd a)) <= DEFAULT_MAX_INFLIGHT)%nat;
  wf_res : mp_bound (ag_res a) = Some DEFAULT_MAX_PENDING /\ mp_rx_alive (ag_res a) = true;
  wf_res_length : (length (mp_items (ag_res a)) <= DEFAULT_MAX_PENDING)%nat;
  wf_sending : (length (ag_sending a) <= 1)%nat
}.
Hypothesis one_result : forall answer cmd w, (length (handle answer cmd w).2 <= 1)%nat.

Lemma put_result_room r sending a :
  mp_bound (ag_res a) = Some DEFAULT_MAX_PENDING -> mp_rx_alive (ag_res a) = true ->
  put_result r sending a = (if (DEFAULT_MAX_PENDING <=? length (mp_items (ag_res a)))%nat then a else
    mk_Agent (ag_cmd a) (with_items (mp_items (ag_res a) ++ [r]) (ag_res a)) (ag_worker a) sending (ag_done a) (ag_made a ++ [r])).
Proof. intros Hb Ha. unfold put_result, mpsc_try_send, mpsc_full. rewrite Ha, Hb. cbn [negb]. set (b := Nat.leb _ _). by destruct b. Qed.

Lemma wf_put r sending a : agent_wf a -> (length sending <= 1)%nat -> agent_wf (put_result r sending a).
Proof.
  intros Hwf Hs. pose proof Hwf as [Ha Hc [Hb Hr] Hl _]. rewrite put_result_room by done.
  destruct (Nat.leb_spec DEFAULT_MAX_PENDING (length (mp_items (ag_res a)))); [done|].
  split; simpl; [done..| |done]. rewrite length_app. simpl. lia.
Qed.

Lemma wf_take answer a : agent_wf a -> ag_sending a = [] -> agent_wf (take_command answer a).
Proof.
  intros Hwf Hs. unfold take_command, mpsc_try_recv. destruct (ag_worker a) as [w|] eqn:Hw; [|done].
  destruct (mp_items (ag_cmd a)) as [|cmd items] eqn:Hi; [by destruct (mp_tx_alive _)|].
  pose proof (one_result answer cmd w) as H1. destruct (handle answer cmd w) as [w' rs]. simpl in H1.
  destruct Hwf as [Ha [Hc Hcl] Hr Hl _]. rewrite Hi in Hcl. simpl in Hcl.
  split; simpl; try done; [|destruct (is_none w'); (split; [done|simpl; lia])].
  unfold alive in *. rewrite Hw in Ha. simpl. destruct w'; simpl; [|split; [done|by intros [? ?]]]. split; [by eexists|].
  intros _. by apply Ha.
Qed.

Lemma agent_wf_closed : agent_closed agent_wf.
Proof.
  split.
  - intros [answer|r] a Hwf; simpl; [|by apply wf_put; [|apply Hwf]]. pose proof (wf_sending _ Hwf) as Hs.
    destruct (ag_sending a) as [|r rest] eqn:He; [by apply wf_take|]. apply wf_put; [done|]. simpl in Hs. lia.
  - intros cmd q a Hq [Ha Hc Hr Hl Hs]. unfold mpsc_try_send in Hq.
    destruct Hc as [Hcb Hcl]. unfold mpsc_full in Hq. rewrite Hcb in Hq.
    destruct (mp_rx_alive (ag_cmd a)) eqn:Hal; cbn [negb] in Hq; [|done].
    destruct (Nat.leb_spec DEFAULT_MAX_INFLIGHT (length (mp_items (ag_cmd a)))); simplify_eq.
    split; [exact Ha|split; [exact Hcb|]|done..]. simpl. rewrite length_app. simpl. lia.
  - intros a [Ha Hc [Hb Hr] Hl Hs]. unfold agent_recv, mpsc_try_recv. destruct (mp_items (ag_res a)) as [|r items] eqn:Hi; simpl.
    + split; try done; simpl; by rewrite Hi.
    + split; try done. simpl in *. lia.
Qed.

Lemma new_agent_wf w : agent_wf (new_agent w).
Proof.
  split.
  - split; [by eexists|done].
  - split; [done|apply Nat.le_0_l].
  - done.
  - apply Nat.le_0_l.
  - apply Nat.le_0_l.
Qed.

Lemma full_cmd a : agent_wf a -> mpsc_full (ag_cmd a) = (DEFAULT_MAX_INFLIGHT <=? length (mp_items (ag_cmd a)))%nat.
Proof. intros Hwf. unfold mpsc_full. by rewrite (proj1 (wf_cmd _ Hwf)). Qed.

(** With room, or without a thread, a send does not wait. *)
Lemma send_now moves cmd a :
  agent_wf a -> ~ alive a \/ (length (mp_items (ag_cmd a)) < DEFAULT_MAX_INFLIGHT)%nat -> is_Some (agent_send moves cmd a).
Proof.
  intros Hwf Hl. assert (forall B (x y z : B), exists b, (if negb (mp_rx_alive (ag_cmd a)) then x
    else if mpsc_full (ag_cmd a) then y else z) = b /\ (b = x \/ b = z)) as Hs.
  { intros B x y z. eexists. split; [done|]. destruct Hl as [Hl|Hl].
    - left. unfold alive in Hl. by destruct (mp_rx_alive _).
    - destruct (negb _); [by left|right]. rewrite full_cmd by done. by destruct (Nat.leb_spec DEFAULT_MAX_INFLIGHT (length (mp_items (ag_cmd a)))); [lia|]. }
  destruct moves; simpl; unfold mpsc_try_send;
    destruct (Hs _ (PostDisconnected, ag_cmd a) (PostFull, ag_cmd a) (Posted, with_items (mp_items (ag_cmd a) ++ [cmd]) (ag_cmd a)))
      as (b & -> & [->| ->]); by eexists.
Qed.

(** The thread takes a command off a full channel. *)
Lemma send_taken answer moves cmd a : agent_wf a -> ag_sending a = [] -> is_Some (agent_send moves cmd (take_command answer a)).
Proof.
  intros Hwf Hs. apply send_now; [by apply wf_take|]. pose proof (proj2 (wf_cmd _ Hwf)) as Hl.
  unfold take_command, mpsc_try_recv. destruct (ag_worker a) as [w|] eqn:Hw.
  - destruct (mp_items (ag_cmd a)) as [|c items] eqn:Hi.
    + right. destruct (mp_tx_alive _); simpl; rewrite Hi; simpl; unfold DEFAULT_MAX_INFLIGHT; lia.
    + right. destruct (handle answer c w) as [w' rs]. simpl in *. destruct (is_none w'); simpl; lia.
  - left. rewrite (wf_alive _ Hwf), Hw. by intros [? ?].
Qed.

Lemma send_moved m moves cmd a :
  is_Some (agent_send moves cmd (agent_move m a)) -> is_Some (agent_send (m :: moves) cmd a).
Proof. intros H. cbn [agent_send]. by destruct (mpsc_try_send cmd (ag_cmd a)) as [[] q]; [eexists| |eexists]. Qed.

Lemma send_in_two e1 e2 moves cmd a :
  agent_wf a -> (length (mp_items (ag_res a)) < DEFAULT_MAX_PENDING)%nat ->
  is_Some (agent_send (Turn e1 :: Turn e2 :: moves) cmd a).
Proof.
  intros Hwf Hr. apply send_moved. pose proof (wf_sending _ Hwf) as Hs. cbn [agent_move].
  destruct (ag_sending a) as [|r rest] eqn:He; [by apply send_taken|].
  assert (rest = []) as -> by (destruct rest; [done|simpl in Hs; lia]).
  assert (ag_sending (put_result r [] a) = []) as He'.
  { rewrite put_result_room by apply (wf_res _ Hwf).
    by destruct (Nat.leb_spec DEFAULT_MAX_PENDING (length (mp_items (ag_res a)))); [lia|]. }
  apply send_moved. cbn [agent_move]. rewrite He'. apply send_taken; [|done]. apply wf_put; [done|simpl; lia].
Qed.

Section calls.
Variable meanwhile : nat -> list (AgentMove Ext Res).
Hypothesis no_commands : forall r cs m, ck_deliver k r = Some (cs, m) -> cs = [].
Hypothesis no_shutdown : ck_shutdown k = [].
Hypothesis two_turns : exists e1 e2 moves, meanwhile 1%nat = Turn e1 :: Turn e2 :: moves.
(** The code ends and does not leave a loop that is not there. *)
Abbreviation ends m f := (wp m (fun _ _ => True) (fun e _ => e <> Break) f).

Lemma ends_must_tell i cmd f :
  is_Some (agent_send (meanwhile i) cmd (ch_agent (fr_self f))) ->
  wp (must_tell meanwhile i cmd : proc Chat unit) (fun _ _ => True) (fun e _ => e <> Break) f.
Proof.
  intros [[sent x] Hs]. unfold must_tell. apply wp_bind. unfold wp, command. simpl. rewrite Hs. by destruct sent.
Qed.

Lemma ends_must_tell_bind {A} i cmd (g : unit -> proc Chat A) f :
  is_Some (agent_send (meanwhile i) cmd (ch_agent (fr_self f))) -> (forall f, ends (g tt) f) ->
  ends (must_tell meanwhile i cmd ≫= g) f.
Proof.
  intros Hs Hg. apply wp_bind. eapply wp_conseq; [by apply ends_must_tell| |done]. intros [] f' _. apply Hg.
Qed.

(** Where a result has been taken out, or none was there. *)
Lemma wp_chat_receive_room f (Q : unit -> frame Chat -> Prop) (E : exit -> frame Chat -> Prop) :
  agent_wf (ch_agent (fr_self f)) ->
  (forall f', agent_wf (ch_agent (fr_self f')) ->
     (0 < remaining_budget (fr_ctx f'))%N -> (length (mp_items (ag_res (ch_agent (fr_self f')))) < DEFAULT_MAX_PENDING)%nat -> Q tt f') ->
  (forall f', remaining_budget (fr_ctx f') = 0%N -> Q tt f') -> (forall e f', e <> Break -> E e f') ->
  wp (chat_receive k meanwhile) Q E f.
Proof.
  intros Hwf HQ H0 HE. unfold chat_receive. apply wp_bind, wp_budget.
  destruct (N.ltb_spec 0 (remaining_budget (fr_ctx f))) as [Hb|Hb]; [|apply wp_ret, H0; lia]. apply wp_bind. unfold wp, result_of.
  pose proof (closed_recv _ agent_wf_closed _ Hwf) as Hwf'. unfold agent_recv, mpsc_try_recv in *. simpl.
  destruct (mp_items (ag_res (ch_agent (fr_self f)))) as [|r items] eqn:Hi.
  { assert (length (mp_items (ag_res (ch_agent (fr_self f)))) < DEFAULT_MAX_PENDING)%nat
      by (rewrite Hi; unfold DEFAULT_MAX_PENDING; simpl; lia).
    destruct (mp_tx_alive _); simpl in *; by apply HQ. }
  simpl in Hwf'. simpl. set (g := mk_frame _ _ _ _ _).
  assert (forall h, ch_agent (fr_self h) = ch_agent (fr_self g) -> fr_ctx h = fr_ctx f -> wp (work 1;; charge 1) Q E h) as Hend.
  { intros h Ha Hc. apply wp_bind, wp_work, wp_charge; [simpl; rewrite Hc; lia|].
    assert (Q tt (with_ctx (set_remaining_budget (remaining_budget (fr_ctx h) - 1)%N (fr_ctx h))
      (mk_frame (fr_self h) (fr_ctx h) (fr_work h + 1)%N (fr_effects h) (fr_reads h)))) as H; [|exact H].
    destruct (decide (remaining_budget (fr_ctx h) = 1%N)); [apply H0; simpl; lia|]. apply HQ; simpl.
    - by rewrite Ha.
    - rewrite Hc in *. lia.
    - rewrite Ha. unfold g. simpl. pose proof (wf_res_length _ Hwf) as Hl. rewrite Hi in Hl. simpl in Hl. lia. }
  change (wp (chat_deliver k meanwhile r) Q E g). unfold chat_deliver. apply wp_bind.
  destruct (ck_deliver k r) as [[cs m]|] eqn:Hd; [|by apply wp_ret, Hend].
  rewrite (no_commands _ _ _ Hd). apply wp_bind, wp_ret, wp_bind, wp_send; simpl.
  - intros _ o es _ _. by apply wp_ret, Hend.
  - intros _ o _. apply wp_leave. by apply HE.
Qed.

Lemma ends_chat_forward f :
  (0 < remaining_budget (fr_ctx f))%N -> agent_wf (ch_agent (fr_self f)) ->
  (length (mp_items (ag_res (ch_agent (fr_self f)))) < DEFAULT_MAX_PENDING)%nat -> ends (chat_forward k meanwhile 1) f.
Proof.
  intros Hb Hwf Hr. unfold chat_forward. apply wp_bind, wp_budget. destruct (N.ltb_spec 0 (remaining_budget (fr_ctx f))); [|lia].
  apply wp_bind, wp_pop; [intros; by apply wp_ret|]. intros m rest r _ _. destruct (ck_command k m) as [cmd|]; [|by apply wp_leave].
  apply ends_must_tell_bind; [|intros f'; apply wp_bind, wp_work; by apply wp_charge_any].
  destruct two_turns as (e1 & e2 & moves & ->). by apply send_in_two.
Qed.

Lemma ends_chat_active f : agent_wf (ch_agent (fr_self f)) -> ends (chat_active k meanwhile) f.
Proof.
  intros Hwf. unfold chat_active.
  assert (forall f', ends (inn ← read ch_l_inn;
    (if (0 <? ring_slots inn)%nat then emit [EffContextReady] else mret tt);;
    w ← work_units; mret (if (0 <? w)%N then DidWork w else NoWork)) f') as Hend.
  { intros f'. apply wp_bind, wp_read, wp_bind. destruct (_ <? _)%nat; by wp_run. }
  apply wp_bind, wp_chat_receive_room; [done| | |done].
  - intros f1 Hwf1 Hb Hr. apply wp_bind. eapply wp_conseq; [by apply ends_chat_forward| |done]. intros [] f2 _. apply Hend.
  - intros f1 H0. unfold chat_forward. apply wp_bind, wp_bind, wp_budget. rewrite H0. apply wp_ret, Hend.
Qed.

Lemma chat_call_returns given got c ctx :
  chat_ok k agent_wf given got c -> is_Some (call (chat_process k meanwhile) c ctx).
Proof.
  intros (ps & cs & es & [Hs _ (rest & Ha & _) _ _ Hwf]).
  assert (length (cs ++ concat (map (event_commands k) es)) <= 1 ->
    (length (mp_items (ag_cmd (ch_agent c))) < DEFAULT_MAX_INFLIGHT))%nat as Hroom.
  { rewrite Ha. unfold asked. rewrite !length_app. unfold DEFAULT_MAX_INFLIGHT. lia. }
  assert (exists f r, call (chat_process k meanwhile) c ctx = Some (f, r) /\ True) as (f & r & -> & _); [|by eexists].
  apply wp_call. eapply wp_conseq with (Q := fun _ _ => True) (E := fun e _ => e <> Break); [|done|by intros []].
  unfold chat_process. rewrite no_shutdown. apply wp_bind, wp_stop_signal; cbn [fr_self]; [|intros _ sg _; by wp_run].
  intros _ sg _. apply wp_bind, wp_read. simpl. destruct (ch_state c) as [|prompt| |].
  - destruct Hs as (_ & -> & ->). unfold chat_configure. apply wp_bind, wp_pop; [intros; by apply wp_ret|]. intros m rest' r _ _.
    destruct (_ ≫= _) as [[[config cmd] prompt]|]; [|by apply wp_leave]. apply wp_bind, wp_write, ends_must_tell_bind; [|intros; by wp_run].
    apply send_now; [done|]. right. apply Hroom. simpl. lia.
  - destruct Hs as ((url & config & cmd & _ & ->) & _ & ->). unfold chat_prompt. apply wp_bind, wp_pop.
    + intros. apply wp_bind, wp_is_abandoned. destruct (ring_is_abandoned _); by wp_run.
    + intros m rest' r _ _. destruct (message_to_utf8_text m); [|by apply wp_leave]. apply ends_must_tell_bind; [|intros; by wp_run].
      apply send_now; [done|]. right. apply Hroom. simpl. lia.
  - by apply ends_chat_active.
  - by apply wp_ret.
Qed.
End calls.
End returns.

(** * OpenAIChat *)

Section openai.
Context `{R : Rtrb} {ToolCalls : Type}.
Variable url_parse : string -> option FullUrl.
Variable utf8_error : list byte -> string.
Abbreviation thread := (OpenAIThread ToolCalls).
#[local] Instance openai_main : AgentThread thread OpenAICommand OpenAIResult (OpenAIAnswer ToolCalls) :=
  async_openai_main utf8_error.

Lemma openai_one_result answer cmd (w : thread) : (length (handle answer cmd w).2 <= 1)%nat.
Proof.
  unfold handle, openai_main, async_openai_main. destruct cmd as [config|prompt|msg]; simpl; [lia..|].
  destruct (ow_config w) as [cfg|]; simpl; [|lia]. destruct (message_to_utf8_text msg); simpl; [|lia].
  unfold complete_chat. destruct answer as [[|m choices]|err|]; simpl; [lia| |lia..]. by destruct (ai_content m); simpl; lia.
Qed.

(** C33: no call of OpenAIChat blocks for ever: along every run, whatever waits
    in the channels, a call returns as soon as the thread takes two more turns,
    one to get rid of its result and one to take a command. *)
Theorem openai_calls_return s0 s meanwhile ctx :
  chat_untouched s0 -> ch_agent (cn_chat s0) = new_agent (mk_OpenAIThread None [] []) ->
  rtc (chat_step (openai_kind url_parse)) s0 s ->
  (exists e1 e2 moves, meanwhile 1%nat = Turn e1 :: Turn e2 :: moves) ->
  is_Some (call (openai_process url_parse utf8_error meanwhile) (cn_chat s) ctx).
Proof.
  intros H0 Hnew Hr Hm. eapply chat_call_returns; [apply openai_one_result|by intros [] cs m [= <- _]|done|exact Hm|].
  eapply chat_run_ok; [apply agent_wf_closed, openai_one_result|done| |exact Hr].
  rewrite Hnew. apply new_agent_wf.
Qed.

(** ** The conversation *)

(** The thread over a list of commands and answers, as long as it does not end:
    its state, and the results that it has sent. *)
Fixpoint converse (l : list (OpenAICommand * OpenAIAnswer ToolCalls)) (w : thread) : option (thread * list OpenAIResult) :=
  match l with
  | [] => Some (w, [])
  | (cmd, answer) :: l =>
      match handle answer cmd w with
      | (Some w', results) => p ← converse l w'; Some (p.1, results ++ p.2)
      | (None, _) => None
      end
  end.

(** What a command and its answer add to the conversation: the initial prompt, or
    the message of the user and the first choice of the model. *)
Definition question (x : OpenAICommand * OpenAIAnswer ToolCalls) : option string :=
  match x.1 with ChatCompletion msg => message_to_utf8_text msg | _ => None end.
Definition choice (x : OpenAICommand * OpenAIAnswer ToolCalls) : option (@AiMessage ToolCalls) :=
  match question x, x.2 with Some _, ChatAnswered (m :: _) => Some m | _, _ => None end.
Definition said (x : OpenAICommand * OpenAIAnswer ToolCalls) : list (ChatCompletionMessageParam ToolCalls) :=
  match x.1 with
  | SetInitialPrompt prompt => [System prompt]
  | _ =>
      match question x with Some content => [User content] | None => [] end ++
      match choice x with Some m => [Assistant (ai_content m) (ai_tool_calls m) (ai_refusal m)] | None => [] end
  end.
Definition response_of (r : OpenAIResult) : option string := match r with ChatResponse s => Some s | _ => None end.

Record conversing (cfg : OpenAIConfig) (l : list (OpenAICommand * OpenAIAnswer ToolCalls)) (w : thread) (results : list OpenAIResult) :
    Prop := mk_conversing {
  cv_config : ow_config w = Some cfg;
  cv_remembers : oc_context cfg = true -> ow_messages w = concat (map said l);
  cv_count : length (ow_requests w) = length (omap question l);
  cv_asks : forall l1 x l2 content, l = l1 ++ x :: l2 -> question x = Some content ->
    ow_requests w !! length (omap question l1) =
      Some (oc_model cfg, (if oc_context cfg then concat (map said l1) else []) ++ [User content]);
  cv_results : map Some (omap response_of results) = map ai_content (omap choice l)
}.

Lemma converse_snoc l x w :
  converse (l ++ [x]) w = (p ← converse l w;
    match handle x.2 x.1 p.1 with (Some w', results) => Some (w', p.2 ++ results) | (None, _) => None end).
Proof.
  revert w. induction l as [|[cmd answer] l IH]; intros w; simpl.
  - destruct x as [cmd answer]. simpl. destruct (handle answer cmd w) as [[w'|] results]; [|done]. simpl. by rewrite app_nil_r.
  - destruct (handle answer cmd w) as [[w'|] results]; [|done]. rewrite IH. destruct (converse l w') as [[w2 r2]|]; [|done]. simpl.
    destruct (handle x.2 x.1 w2) as [[w3|] r3]; [|done]. simpl. by rewrite <- app_assoc.
Qed.

(** A command that asks nothing. *)
Lemma conversing_quiet cfg l x w results w' more :
  conversing cfg l w results -> question x = None -> choice x = None -> ow_config w' = ow_config w ->
  (oc_context cfg = true -> ow_messages w' = ow_messages w ++ said x) -> ow_requests w' = ow_requests w ->
  omap response_of more = [] -> conversing cfg (l ++ [x]) w' (results ++ more).
Proof.
  intros [H1 H2 H3 H4 H5] Hq Hc Hcfg Hm Hr Hmore. split; rewrite ?Hcfg, ?Hr; try done.
  - intros Hctx. by rewrite Hm, H2, map_app, concat_app; simpl; rewrite ?app_nil_r.
  - rewrite omap_app. simpl. by rewrite Hq, app_nil_r.
  - intros l1 y l2 content Hl Hy. destruct l2 as [|z l2 _] using rev_ind.
    { apply app_inj_2 in Hl as [_ [= ->]]; [congruence|done]. }
    rewrite (app_comm_cons l2 [z] y), app_assoc in Hl. apply app_inj_2 in Hl as [-> _]; [|done]. by eapply H4.
  - rewrite !omap_app, !map_app, Hmore, H5. simpl. by rewrite Hc.
Qed.

(** A question. *)
Lemma conversing_asked cfg l x w results w' more content :
  conversing cfg l w results -> question x = Some content -> ow_config w' = ow_config w ->
  (oc_context cfg = true -> ow_messages w' = ow_messages w ++ said x) ->
  ow_requests w' = ow_requests w ++ [(oc_model cfg, (if oc_context cfg then ow_messages w else []) ++ [User content])] ->
  map Some (omap response_of more) = map ai_content (omap choice [x]) -> conversing cfg (l ++ [x]) w' (results ++ more).
Proof.
  intros [H1 H2 H3 H4 H5] Hq Hcfg Hm Hr Hmore. split; rewrite ?Hcfg, ?Hr; try done.
  - intros Hctx. by rewrite Hm, H2, map_app, concat_app; simpl; rewrite ?app_nil_r.
  - rewrite omap_app, !length_app, H3. simpl. by rewrite Hq.
  - intros l1 y l2 content' Hl Hy. destruct l2 as [|z l2 _] using rev_ind.
    + apply app_inj_2 in Hl as [-> [= ->]]; [|done]. assert (content' = content) as -> by congruence.
      rewrite lookup_app_r, <- H3, Nat.sub_diag by lia. simpl. destruct (oc_context cfg) eqn:Hctx; [|done]. by rewrite H2.
    + rewrite (app_comm_cons l2 [z] y), app_assoc in Hl. apply app_inj_2 in Hl as [-> _]; [|done].
      apply lookup_app_l_Some. by eapply H4.
  - rewrite !omap_app, !map_app, Hmore, H5. done.
Qed.

Lemma conversing_handle cfg l cmd answer w results w' more :
  (forall config, cmd <> SetConfig config) -> conversing cfg l w results -> handle answer cmd w = (Some w', more) ->
  conversing cfg (l ++ [(cmd, answer)]) w' (results ++ more).
Proof.
  intros Hcmd Hw. unfold handle, openai_main, async_openai_main. destruct cmd as [config|prompt|msg].
  - by destruct (Hcmd config).
  - intros [= <- <-]. by apply (conversing_quiet cfg l _ w results).
  - rewrite (cv_config _ _ _ _ Hw). destruct (message_to_utf8_text msg) as [content|] eqn:Hmsg.
    2: { intros [= <- <-]. assert (question (ChatCompletion msg, answer) = None) as Hq by done.
      assert (choice (ChatCompletion msg, answer) = None) as Hc by (unfold choice; by rewrite Hq).
      apply (conversing_quiet cfg l _ w results); try done. intros _. unfold said. rewrite Hq, Hc. simpl. by rewrite app_nil_r. }
    assert (question (ChatCompletion msg, answer) = Some content) as Hq by done. unfold complete_chat. intros Heq.
    eapply (conversing_asked cfg l _ w results); [done|exact Hq|..];
      destruct answer as [[|m choices]|err|]; try destruct (ai_content m) as [s|] eqn:Hs; try done; injection Heq as <- <-;
      unfold said, choice; simpl; rewrite ?Hq, ?Hmsg; simpl; rewrite ?Hs; try done; try (by intros ->; rewrite <- app_assoc || done);
      by destruct (oc_context cfg).
Qed.

(** C34: the conversation of OpenAIChat's thread, from its configuration on.  For
    every message of a user that is a text there is one request, in their order
    and with no others; the request ends with that text; with a context it
    begins with all that was said before, in order: the initial prompt, the
    messages of the user and, for each that was answered, the first choice of the
    model; without one, it is the text alone (the initial prompt is left out,
    too).  And the responses that are sent on are the contents of these choices,
    in order. *)
Theorem openai_conversation cfg l w results :
  (forall cmd config, cmd ∈ l.*1 -> cmd <> SetConfig config) ->
  converse l (mk_OpenAIThread (Some cfg) [] []) = Some (w, results) ->
  length (ow_requests w) = length (omap question l) /\
  (forall l1 x l2 content, l = l1 ++ x :: l2 -> question x = Some content ->
     ow_requests w !! length (omap question l1) =
       Some (oc_model cfg, (if oc_context cfg then concat (map said l1) else []) ++ [User content])) /\
  map Some (omap response_of results) = map ai_content (omap choice l).
Proof.
  intros Hl Hw. assert (conversing cfg l w results) as []; [|done]. revert w results Hw.
  induction l as [|[cmd answer] l IH] using rev_ind; intros w results Hw.
  - injection Hw as <- <-. split; simpl; try done. by intros [].
  - rewrite converse_snoc in Hw. simpl in Hw. destruct (converse l _) as [[w1 r1]|]; [|done]. simpl in Hw.
    destruct (handle answer cmd w1) as [[w2|] r2] eqn:Hh; [|done]. injection Hw as <- <-.
    rewrite fmap_app in Hl. eapply conversing_handle; [|apply IH; [|done]|exact Hh].
    + intros config. apply Hl. apply elem_of_app. right. by left.
    + intros c config Hc. apply Hl. apply elem_of_app. by left.
Qed.
End openai.

(** * Runs *)

(** A run, step by step. *)
Section demo.
Context `{R : Rtrb} {Config W Cmd Res Ext : Type} `{T : !AgentThread W Cmd Res Ext}.
Variable k : ChatKind Config Cmd Res.
Inductive DemoStep : Type := Calls | Moves (m : AgentMove Ext Res) | Gives (m : FbpMessage) | Gets.
Definition demo_step (d : DemoStep) (s : ChatRun) : option (ChatRun (Config := Config) (W := W) (Cmd := Cmd) (Res := Res)) :=
  let '(mk_ChatRun c given got) := s in
  match d with
  | Calls =>
      match call (chat_process k (fun _ => [])) c (demo_context Normal 8) with
      | Some (f, Some (DidWork _)) => Some (mk_ChatRun (fr_self f) given got)
      | _ => None
      end
  | Moves m => Some (mk_ChatRun (set ch_l_agent (agent_move m (ch_agent c)) c) given got)
  | Gives m =>
      match ring_push m (ch_inn c) with
      | (Ok tt, r) => Some (mk_ChatRun (set ch_l_inn r c) (given ++ [m]) got)
      | _ => None
      end
  | Gets =>
      match ring_pop (pes_sink (ch_out c)) with
      | (Some m, r) => Some (mk_ChatRun (set ch_l_out (set_sink r (ch_out c)) c) given (got ++ [m]))
      | _ => None
      end
  end.
Fixpoint demo_steps (l : list DemoStep) (s : ChatRun) : option ChatRun :=
  match l with
  | [] => Some s
  | d :: l => match demo_step d s with Some s => demo_steps l s | None => None end
  end.
Lemma demo_steps_run l s s' : demo_steps l s = Some s' -> rtc (chat_step k) s s'.
Proof.
  revert s. induction l as [|d l IH]; intros s; simpl; [intros [= ->]; apply rtc_refl|].
  destruct (demo_step d s) as [s1|] eqn:H1; [|done]. intros H. eapply rtc_l; [|by apply IH]. clear IH H.
  destruct s as [c given got], d as [|m|m|]; simpl in H1.
  - destruct (call _ _ _) as [[f [[n| | ]|]]|] eqn:Hc; simplify_eq. by eapply chat_called.
  - injection H1 as <-. apply chat_moves.
  - destruct (ring_push m (ch_inn c)) as [[[]|] r] eqn:Hp; simplify_eq. by apply chat_given.
  - destruct (ring_pop _) as [[m|] r] eqn:Hp; simplify_eq. by apply chat_got.
Qed.
End demo.

#[local] Existing Instance list_rtrb.

Definition demo_chat {Config W Cmd Res} (conf : list FbpMessage) (agent : Agent W Cmd Res) : Chat Config W Cmd Res :=
  mk_Chat (demo_ring false conf) (demo_ring false []) (demo_out 4) demo_channel demo_channel
    ChatWaitingForConfig None agent.
Definition demo_telegram : ChatRun (Config := string) (W := TelegramThread) (Cmd := TelegramBotCommand) (Res := TelegramBotResult) :=
  mk_ChatRun (demo_chat [Text "token"] (new_agent (mk_TelegramThread None 0 []))) [] [].

(** A message comes in over Telegram and one is sent back, to where it came
    from. *)
Lemma demo_telegram_run : exists s, rtc (chat_step (Ext := SendAnswer) telegram_kind) demo_telegram s /\
  sink_items (ch_out (cn_chat s)) = [from_bytes [x61]] /\
  ag_done (ch_agent (cn_chat s)) = [InitBot "token"; SetChatId 7; TgSendMessage "b"] /\
  (tw_sent <$> ag_worker (ch_agent (cn_chat s))) = Some [(7%Z, "b")] /\ cn_given s = [Text "b"].
Proof.
  eexists. split.
  - apply (demo_steps_run telegram_kind (Ext := SendAnswer)
      [Calls; Moves (Turn SendOk); Moves (Turn SendOk); Moves (Arrives (TgMessageReceived [x61] 7));
       Calls; Calls; Gives (Text "b"); Calls; Moves (Turn SendOk); Moves (Turn SendOk)]). vm_compute. reflexivity.
  - split_and!; vm_compute; reflexivity.
Qed.

Lemma chat_passes_on_witness :
  exists s, rtc (chat_step (Ext := SendAnswer) telegram_kind) demo_telegram s /\
    sink_items (ch_out (cn_chat s)) = [from_bytes [x61]] /\
    ag_done (ch_agent (cn_chat s)) = [InitBot "token"; SetChatId 7; TgSendMessage "b"] /\
    exists prompts initial (events : list (event (Res := TelegramBotResult))),
      started telegram_kind (ch_state (cn_chat s)) prompts initial events /\
      [Text "b"] = prompts ++ omap event_packet events ++ ring_items (ch_inn (cn_chat s)).
Proof.
  destruct demo_telegram_run as (s & Hr & Hs & Hd & _ & Hg).
  exists s. split_and!; [exact Hr|exact Hs|exact Hd|].
  destruct (chat_passes_on telegram_kind demo_telegram s) as (ps & cs & es & H1 & H2 & _); [by split_and!|exact Hr|].
  exists ps, cs, es. split; [exact H1|]. rewrite <- Hg. exact H2.
Defined.

(** A TelegramBot in a busy chat: the results fill their channel while the thread
    wants to say that a message could not be sent, and the packets from IN and the
    commands that go with messages fill that of the commands.  The messages arrive
    in tasks of a multi-threaded runtime, which go on while the thread blocks. *)
Definition demo_received : TelegramBotResult := TgMessageReceived [x61] 7.
Definition demo_busy (s : ChatRun (Config := string) (W := TelegramThread)) : Prop :=
  let c := cn_chat s in
  ch_state c = ChatActive /\ sc_items (ch_signals_in c) = [] /\ ring_items (ch_inn c) = [Text "x"] /\ room (ch_out c) = 4%nat /\
  ch_agent c = mk_Agent (mk_mpsc (concat (repeat [SetChatId 7; TgSendMessage "x"] 5)) (Some 10) true true)
    (mk_mpsc (TgFailed "No chat ID set" :: repeat demo_received 99) (Some 100) true true)
    (Some (mk_TelegramThread (Some "token") 0 [])) [TgFailed "No chat ID set"]
    [InitBot "token"; TgSendMessage "x"; TgSendMessage "x"] (ag_made (ch_agent c)).
Definition demo_busy_steps : list (DemoStep (Res := TelegramBotResult) (Ext := SendAnswer)) :=
  let says := [Gives (Text "x"); Calls] in
  let turns := [Moves (Turn SendOk); Moves (Turn SendOk)] in
  [Calls] ++ says ++ says ++ turns ++ repeat (Moves (Arrives demo_received)) 5 ++ turns ++
  repeat (Moves (Arrives demo_received)) 93 ++ [Moves (Turn SendOk); Calls; Moves (Arrives demo_received)] ++
  concat (repeat (says ++ [Gets; Moves (Arrives demo_received)]) 5) ++ [Gives (Text "x")].
Lemma demo_busy_run : exists s, rtc (chat_step telegram_kind) demo_telegram s /\ demo_busy s.
Proof.
  assert (exists s, demo_steps telegram_kind demo_busy_steps demo_telegram = Some s /\ demo_busy s) as (s & Hr & Hs).
  { eexists. split; [vm_compute; reflexivity|]. unfold demo_busy. cbn zeta. split_and!; vm_compute; reflexivity. }
  exists s. split; [|exact Hs]. exact (demo_steps_run telegram_kind demo_busy_steps demo_telegram s Hr).
Qed.

Lemma chat_blocks_witness :
  exists s, rtc (chat_step telegram_kind) demo_telegram s /\
    call (telegram_process (fun _ => [Arrives demo_received])) (cn_chat s) (demo_context Normal 8) = None.
Proof.
  destruct demo_busy_run as (s & Hr & Hst & Hsig & Hin & Hroom & Ha). exists s. split; [exact Hr|].
  apply (chat_blocks telegram_kind (fun _ => [Arrives demo_received]) (cn_chat s) (demo_context Normal 8)
    demo_received (TgFailed "No chat ID set") (repeat demo_received 99) (Text "x") (TgSendMessage "x")).
  - exact Hst.
  - unfold stop_next. simpl. rewrite Hsig. intros (m & Hm & _). discriminate Hm.
  - vm_compute. discriminate.
  - by rewrite Hin.
  - reflexivity.
  - intros cs m [=].
  - by rewrite Ha.
  - by rewrite Ha.
  - by rewrite Ha.
  - by rewrite Ha.
  - unfold alive. by rewrite Ha.
  - by rewrite Ha.
  - by exists [].
Defined.

(** OpenAIChat with an initial prompt and a context. *)
Definition demo_openai_url (url : string) : option FullUrl :=
  Some (mk_FullUrl (mk_Url (Some "default") None "" [("apikey", "k"); ("context", "true"); ("initialprompt", "true")]) "openai" "" None).
Definition demo_openai_main : AgentThread (OpenAIThread ()) OpenAICommand OpenAIResult (OpenAIAnswer ()) :=
  async_openai_main (fun _ => "").
#[local] Existing Instance demo_openai_main.
Definition demo_openai_answer (content : string) : OpenAIAnswer () := ChatAnswered [mk_AiMessage (Some content) tt None].
Definition demo_openai : ChatRun (Config := OpenAIConfig) (W := OpenAIThread ()) (Cmd := OpenAICommand) (Res := OpenAIResult) :=
  mk_ChatRun (demo_chat [Text "url"] (new_agent (mk_OpenAIThread None [] []))) [] [].
Definition demo_openai_steps : list (DemoStep (Res := OpenAIResult) (Ext := OpenAIAnswer ())) :=
  [Calls; Gives (Text "be kind"); Calls] ++ concat (repeat [Gives (Text "hello"); Calls] 8) ++ [Gives (Text "more")].

(** The channel of commands is full, and another packet waits. *)
Lemma openai_calls_return_witness :
  exists s, rtc (chat_step (openai_kind demo_openai_url)) demo_openai s /\
    length (mp_items (ag_cmd (ch_agent (cn_chat s)))) = 10%nat /\ ring_items (ch_inn (cn_chat s)) = [Text "more"] /\
    is_Some (call (openai_process demo_openai_url (fun _ => "") (fun _ => [Turn ChatTimedOut; Turn ChatTimedOut])) (cn_chat s)
      (demo_context Normal 8)).
Proof.
  assert (exists s, demo_steps (openai_kind demo_openai_url) demo_openai_steps demo_openai = Some s /\
    length (mp_items (ag_cmd (ch_agent (cn_chat s)))) = 10%nat /\ ring_items (ch_inn (cn_chat s)) = [Text "more"])
    as (s & Hr & Hc & Hi).
  { eexists. split; [vm_compute; reflexivity|]. split; vm_compute; reflexivity. }
  apply demo_steps_run in Hr. exists s. split_and!; [exact Hr|exact Hc|exact Hi|].
  apply (openai_calls_return demo_openai_url (fun _ => "") demo_openai s); [by split_and!|reflexivity|exact Hr|].
  exists ChatTimedOut, ChatTimedOut, []. reflexivity.
Defined.

Definition demo_conversation : list (OpenAICommand * OpenAIAnswer ()) :=
  [(SetInitialPrompt "p", ChatTimedOut); (ChatCompletion (Text "a"), demo_openai_answer "b");
   (ChatCompletion (Text "c"), ChatTimedOut); (ChatCompletion (Text "d"), demo_openai_answer "e")].
Lemma openai_conversation_witness :
  exists w results, converse (fun _ => "") demo_conversation (mk_OpenAIThread (Some (mk_OpenAIConfig "k" None "m" true)) [] []) =
      Some (w, results) /\
    map snd (ow_requests w) =
      [[System "p"; User "a"]; [System "p"; User "a"; Assistant (Some "b") tt None; User "c"];
       [System "p"; User "a"; Assistant (Some "b") tt None; User "c"; User "d"]] /\
    omap response_of results = ["b"; "e"] /\
    ow_requests w !! 2%nat =
      Some ("m", concat (map said (take 3 demo_conversation)) ++ [User "d"]).
Proof.
  assert (exists w results, converse (fun _ => "") demo_conversation
    (mk_OpenAIThread (Some (mk_OpenAIConfig "k" None "m" true)) [] []) = Some (w, results) /\ map snd (ow_requests w) =
      [[System "p"; User "a"]; [System "p"; User "a"; Assistant (Some "b") tt None; User "c"];
       [System "p"; User "a"; Assistant (Some "b") tt None; User "c"; User "d"]] /\ omap response_of results = ["b"; "e"])
    as (w & results & Hw & Hq & Ho) by (eexists _, _; split_and!; vm_compute; reflexivity).
  exists w, results. split; [exact Hw|]. split; [exact Hq|]. split; [exact Ho|].
  destruct (openai_conversation (fun _ => "") (mk_OpenAIConfig "k" None "m" true) demo_conversation w results) as (_ & H & _);
    [|exact Hw|].
  - intros cmd config Hin. simpl in Hin. set_solver.
  - exact (H (take 3 demo_conversation) (ChatCompletion (Text "d"), demo_openai_answer "e") [] "d" eq_refl eq_refl).
Defined.
