(* ===== verification/Mail.v ===== *)
(** The IMAP components of [src/components/imap/src/imap.rs]: [IMAPAppend],
    [IMAPMoveCopy] and [IMAPDelete], which hand operations to a thread and wait
    until all are done, and [IMAPFetchIdle] and [IMAPFetch], which let a thread
    poll a mailbox; with their threads.

    The three that hand operations on have the same states, commands, results and
    thread; they are one definition over a [MailKind].  Their channels have no
    bound, so that no command waits.  What the server answers to an operation is
    an argument of each step of a thread. *)
From S2P Require Import Prelude Api Scheduler Process Pipes Sinks Relays Io Clients Brokers Agents.
From Stdlib Require Strings.String.
From Stdlib Require Import NArith ZArith Lia Strings.Byte Strings.Ascii.
From stdpp Require Import base list strings gmap pretty sorting.
Local Open Scope string_scope.
Local Open Scope list_scope.
Local Open Scope flowd_scope.

(** * The session *)

(** What [login_and_connect] takes from a URL. *)
Record ImapTarget : Type := mk_ImapTarget {
  it_host : string;
  it_port : N;
  it_user : string;
  it_password : string;
  it_mailbox : string
}.

(** The operations on a server.  A store sets the flag Deleted. *)
Inductive ImapOp : Type :=
| OpLogin (target : ImapTarget)
| OpAppend (mailbox : string) (bytes : list byte)
| OpCopy (uid mailbox : string)
| OpStoreDeleted (uids : string)
| OpExpunge
| OpLogout
| OpSearchUnseen
| OpFetchBody (uids : string)
| OpIdle.

(** What the server answers to those that answer with success or failure. *)
Abbreviation ImapAnswer := (ImapOp -> result () string).

(** Operations one after the other; the first that fails ends them.  What has
    been asked is recorded. *)
Definition imap (A : Type) : Type := list ImapOp -> result A string * list ImapOp.
Definition imap_ret {A} (a : A) : imap A := fun log => (Ok a, log).
Definition imap_fail {A} (e : string) : imap A := fun log => (Err e, log).
Definition imap_op {A} (answer : result A string) (o : ImapOp) : imap A := fun log => (answer, log ++ [o]).
Definition imap_bind {A B} (m : imap A) (k : A -> imap B) : imap B := fun log =>
  match m log with
  | (Ok a, log) => k a log
  | (Err e, log) => (Err e, log)
  end.
Notation "'ask' x := m 'in' k" := (imap_bind m (fun x => k)) (at level 10, x pattern at level 0, m at level 200, k at level 200) : flowd_scope.

Fixpoint imap_all (answer : ImapAnswer) (ops : list ImapOp) : imap () :=
  match ops with
  | [] => imap_ret tt
  | o :: ops => ask _ := imap_op (answer o) o in imap_all answer ops
  end.

Section login.
(** The crate url, with its error as it is displayed. *)
Variable url_parse : string -> result FullUrl string.

Definition login_target (url : string) : result ImapTarget string :=
  match url_parse url with
  | Err e => Err e
  | Ok u =>
      if negb (String.eqb (url_scheme u) "imaps") then Err "only imaps:// protocol is supported"
      else
        match url_password u, url_host_str u with
        | None, _ => Err "no password given in connection URL"
        | Some _, None => Err "no host given in connection URL"
        | Some password, Some host =>
            let mailbox := url_path u in
            if String.eqb mailbox "" || String.eqb mailbox "/" then Err "no mailbox given in connection URL path"
            else Ok (mk_ImapTarget host (default 993%N (url_port u)) (str_replace "%40" "@" (url_username u)) password
                   (trim_start_char "/" mailbox))
        end
  end.

(** The connection, TLS, the greeting, the login and the selection of the mailbox
    are one operation. *)
Definition login_and_connect (answer : ImapAnswer) (url : string) : imap string :=
  match login_target url with
  | Err e => imap_fail e
  | Ok target => ask _ := imap_op (answer (OpLogin target)) (OpLogin target) in imap_ret (it_mailbox target)
  end.
End login.

(** [close], whose result is not looked at. *)
Definition close_session (log : list ImapOp) : list ImapOp := log ++ [OpExpunge; OpLogout].

(** * Handing operations on *)

Inductive MailCommand (Op : Type) : Type :=
| MailConnect (url : string)
| MailOp (op : Op)
| MailShutdown.
Arguments MailConnect {Op}.
Arguments MailOp {Op}.
Arguments MailShutdown {Op}.
Inductive MailResult : Type :=
| MailConnected
| MailDone
| MailFailed (message : string)
| MailStopped.

(** What a configuration says about the operations, at first and later; the
    operation of a packet ([None]: the packet is dropped); what it asks of the
    server; and what it says without a session. *)
Record MailKind (Conf Op : Type) : Type := mk_MailKind {
  mk_initial : Conf;
  mk_configure : string -> Conf;
  mk_operation : Conf -> FbpMessage -> option Op;
  mk_server_ops : string -> Op -> list ImapOp;
  mk_not_connected : string
}.
Arguments mk_MailKind {Conf Op}.
Arguments mk_initial {Conf Op}.
Arguments mk_configure {Conf Op}.
Arguments mk_operation {Conf Op}.
Arguments mk_server_ops {Conf Op}.
Arguments mk_not_connected {Conf Op}.

(** The mailbox of the session, if there is one. *)
Record MailThread : Type := mk_MailThread {
  mt_session : option string;
  mt_log : list ImapOp
}.

Section mail.
Context `{R : Rtrb} {Conf Op : Type}.
Variable url_parse : string -> result FullUrl string.
Variable k : MailKind Conf Op.

Definition result_or_failure {A} (r : result A string) (done : MailResult) : MailResult :=
  match r with Ok _ => done | Err e => MailFailed e end.

Definition mail_worker_loop : AgentThread MailThread (MailCommand Op) MailResult ImapAnswer :=
  fun answer cmd w =>
    match cmd with
    | MailConnect url =>
        match login_and_connect url_parse answer url (mt_log w) with
        | (Ok mailbox, log) => (Some (mk_MailThread (Some mailbox) log), [MailConnected])
        | (Err e, log) => (Some (mk_MailThread (mt_session w) log), [MailFailed e])
        end
    | MailOp op =>
        match mt_session w with
        | Some mailbox =>
            let '(r, log) := imap_all answer (mk_server_ops k mailbox op) (mt_log w) in
            (Some (mk_MailThread (mt_session w) log), [result_or_failure r MailDone])
        | None => (Some w, [MailFailed (mk_not_connected k)])
        end
    | MailShutdown => (None, [MailStopped])
    end.
#[local] Existing Instance mail_worker_loop.

Inductive MailState : Type := MailWaitingForConfig | MailConnecting | MailActive | MailFinished.

(** [ms_inflight] counts what has been sent and not answered, which is all in
    memory: it stays far below the limit of its type. *)
Record MailSender : Type := mk_MailSender {
  ms_conf : ring;
  ms_inn : ring;
  ms_signals_in : sync_channel;
  ms_signals_out : sync_channel;
  ms_state : MailState;
  ms_agent : Agent MailThread (MailCommand Op) MailResult;
  ms_pending_input : list FbpMessage;
  ms_inflight : N;
  ms_mode : Conf
}.

Definition new_mail_sender `{MultiMapLib ring} (inports : multimap ring) (signals_in signals_out : sync_channel) :
    outcome MailSender :=
  let* (conf, inports) := take_port "CONF" inports in
  let* (inn, inports) := take_port "IN" inports in
  Done (mk_MailSender conf inn signals_in signals_out MailWaitingForConfig
          (mk_Agent channel channel (Some (mk_MailThread None [])) [] [] []) [] 0 (mk_initial k)).

Definition ms_l_conf : lens MailSender ring := mk_lens ms_conf
  (fun x c => mk_MailSender x (ms_inn c) (ms_signals_in c) (ms_signals_out c) (ms_state c) (ms_agent c)
     (ms_pending_input c) (ms_inflight c) (ms_mode c)).
Definition ms_l_inn : lens MailSender ring := mk_lens ms_inn
  (fun x c => mk_MailSender (ms_conf c) x (ms_signals_in c) (ms_signals_out c) (ms_state c) (ms_agent c)
     (ms_pending_input c) (ms_inflight c) (ms_mode c)).
Definition ms_l_signals : lens MailSender Signals := mk_lens
  (fun c => mk_Signals (ms_signals_in c) (ms_signals_out c))
  (fun x c => mk_MailSender (ms_conf c) (ms_inn c) (sig_in x) (sig_out x) (ms_state c) (ms_agent c)
     (ms_pending_input c) (ms_inflight c) (ms_mode c)).
Definition ms_l_state : lens MailSender MailState := mk_lens ms_state
  (fun x c => mk_MailSender (ms_conf c) (ms_inn c) (ms_signals_in c) (ms_signals_out c) x (ms_agent c)
     (ms_pending_input c) (ms_inflight c) (ms_mode c)).
Definition ms_l_agent : lens MailSender (Agent MailThread (MailCommand Op) MailResult) := mk_lens ms_agent
  (fun x c => mk_MailSender (ms_conf c) (ms_inn c) (ms_signals_in c) (ms_signals_out c) (ms_state c) x
     (ms_pending_input c) (ms_inflight c) (ms_mode c)).
Definition ms_l_pending_input : lens MailSender (list FbpMessage) := mk_lens ms_pending_input
  (fun x c => mk_MailSender (ms_conf c) (ms_inn c) (ms_signals_in c) (ms_signals_out c) (ms_state c) (ms_agent c)
     x (ms_inflight c) (ms_mode c)).
Definition ms_l_inflight : lens MailSender N := mk_lens ms_inflight
  (fun x c => mk_MailSender (ms_conf c) (ms_inn c) (ms_signals_in c) (ms_signals_out c) (ms_state c) (ms_agent c)
     (ms_pending_input c) x (ms_mode c)).
Definition ms_l_mode : lens MailSender Conf := mk_lens ms_mode
  (fun x c => mk_MailSender (ms_conf c) (ms_inn c) (ms_signals_in c) (ms_signals_out c) (ms_state c) (ms_agent c)
     (ms_pending_input c) (ms_inflight c) x).

Definition mail_finish {A} : proc MailSender A := write ms_l_state MailFinished;; return_ Finished.
(** [self.cmd_tx.send(c)]: the channel has no bound. *)
Definition mail_command (c : MailCommand Op) : proc MailSender bool := command ms_l_agent [] c.

(** [while let Ok(result) = self.result_rx.try_recv()], with one round more than
    there are results. *)
Fixpoint mail_results_fuel (fuel : nat) : proc MailSender unit :=
  match fuel with
  | O => fun _ => None
  | S fuel =>
      r ← result_of ms_l_agent;
      match r with
      | Received MailConnected => write ms_l_state MailActive;; work 1;; mail_results_fuel fuel
      | Received MailDone =>
          n ← read ms_l_inflight; write ms_l_inflight (n - 1)%N;; work 1;; mail_results_fuel fuel
      | Received (MailFailed _) | Received MailStopped => mail_finish
      | _ => mret tt
      end
  end.
Definition mail_results : proc MailSender unit :=
  a ← read ms_l_agent; mail_results_fuel (S (length (mp_items (ag_res a)))).

Definition mail_wait_for_config : proc MailSender unit :=
  conf_msg ← pop ms_l_conf;
  match conf_msg with
  | None => mret tt
  | Some conf_msg =>
      match as_text conf_msg with
      | None => panic
      | Some url =>
          write ms_l_mode (mk_configure k url);;
          sent ← mail_command (MailConnect url);
          if (sent : bool) then write ms_l_state MailConnecting;; work 1 else mail_finish
      end
  end.

(** [while context.remaining_budget > 0] over the pending packets. *)
Fixpoint send_operations (pending : list FbpMessage) : proc MailSender unit :=
  match pending with
  | [] => mret tt
  | packet :: rest =>
      b ← budget;
      if (0 <? b)%N then
        mode ← read ms_l_mode;
        match mk_operation k mode packet with
        | None => write ms_l_pending_input rest;; send_operations rest
        | Some op =>
            sent ← mail_command (MailOp op);
            if (sent : bool) then
              write ms_l_pending_input rest;;
              n ← read ms_l_inflight; write ms_l_inflight (n + 1)%N;;
              charge 1;; work 1;; send_operations rest
            else mail_finish
        end
      else mret tt
  end.

Definition take_input : proc MailSender unit :=
  inn ← read ms_l_inn;
  chunk ← read_chunk ms_l_inn (ring_slots inn);
  match chunk with
  | Some chunk => p ← read ms_l_pending_input; write ms_l_pending_input (p ++ chunk)
  | None => mret tt
  end.

Definition mail_active : proc MailSender unit :=
  take_input;;
  pending ← read ms_l_pending_input;
  send_operations pending;;
  pending ← read ms_l_pending_input;
  abandoned ← is_abandoned ms_l_inn;
  inflight ← read ms_l_inflight;
  if bool_decide (pending = []) && abandoned && (inflight =? 0)%N then mail_command MailShutdown;; mail_finish
  else if bool_decide (pending = []) then mret tt
  else emit [EffContextReady].

Definition mail_process : proc MailSender ProcessResult :=
  stop_signal message_as_utf8 ms_l_signals (mail_command MailShutdown;; write ms_l_state MailFinished);;
  mail_results;;
  state ← read ms_l_state;
  match state with
  | MailWaitingForConfig => mail_wait_for_config
  | MailConnecting => mret tt
  | MailActive => mail_active
  | MailFinished => return_ Finished
  end;;
  w ← work_units;
  mret (if (0 <? w)%N then DidWork w else NoWork).
End mail.
Arguments MailSender {R} Conf Op.

Section json.
(** [serde_json]: parsing a text, and [get] and [as_str] of a value. *)
Context {Json : Type}.
Variable json_from_str : string -> option Json.
Variable json_get : string -> Json -> option Json.
Variable json_as_str : Json -> option string.
Definition json_text_field (key : string) (json_val : Json) : option string := json_get key json_val ≫= json_as_str.

(** ** IMAPAppend *)
Definition imap_append_kind : MailKind () FbpMessage :=
  mk_MailKind tt (fun _ => tt) (fun _ packet => Some packet)
    (fun mailbox packet => [OpAppend mailbox (packet_bytes packet)]) "append requested before connection".

(** ** IMAPMoveCopy *)
Record MoveCopyOp : Type := mk_MoveCopyOp { mv_uid : string; mv_mailbox : string; mv_copy : bool }.

Definition movecopy_mode (url_parse : string -> result FullUrl string) (conf_text : string) : bool :=
  match url_parse conf_text with
  | Ok url => default false (query_value "copy" url ≫= parse_bool)
  | Err _ => false
  end.

Definition movecopy_operation (copy_mode : bool) (packet : FbpMessage) : option MoveCopyOp :=
  json_str ← as_text packet;
  json_val ← json_from_str json_str;
  uid ← json_text_field "uid" json_val;
  mailbox ← json_text_field "mailbox" json_val;
  Some (mk_MoveCopyOp uid mailbox copy_mode).

Definition movecopy_server_ops (op : MoveCopyOp) : list ImapOp :=
  if mv_copy op then [OpCopy (mv_uid op) (mv_mailbox op); OpStoreDeleted (mv_uid op)]
  else [OpCopy (mv_uid op) (mv_mailbox op); OpStoreDeleted (mv_uid op)].

Definition imap_movecopy_kind (url_parse : string -> result FullUrl string) : MailKind bool MoveCopyOp :=
  mk_MailKind false (movecopy_mode url_parse) movecopy_operation (fun _ => movecopy_server_ops)
    "movecopy requested before connection".

(** ** IMAPDelete *)
Definition delete_operation (packet : FbpMessage) : option string :=
  json_str ← as_text packet;
  Some (match json_from_str json_str with
        | Some json_val => default json_str (json_text_field "uid" json_val)
        | None => json_str
        end).
Definition imap_delete_kind : MailKind () string :=
  mk_MailKind tt (fun _ => tt) (fun _ => delete_operation) (fun _ uid => [OpStoreDeleted uid; OpExpunge])
    "delete requested before connection".
End json.

(** * Fetching *)

Inductive FetchCommand (Conf : Type) : Type :=
| FetchConnect (config : Conf)
| FetchPoll
| FetchShutdown.
Arguments FetchConnect {Conf}.
Arguments FetchPoll {Conf}.
Arguments FetchShutdown {Conf}.
Inductive FetchResult (M : Type) : Type :=
| FetchConnected
| FetchMessages (messages : list M)
| FetchIdleTimeout
| FetchFailed (message : string)
| FetchStopped.
Arguments FetchConnected {M}.
Arguments FetchMessages {M}.
Arguments FetchIdleTimeout {M}.
Arguments FetchFailed {M}.
Arguments FetchStopped {M}.

Inductive WaitOutcome : Type := MailboxChanged | TimedOut.

(** What the server answers: to a search the numbers of messages, in any order,
    to a fetch what it has of each. *)
Record FetchAnswer : Type := mk_FetchAnswer {
  fa_op : ImapAnswer;
  fa_idle : result WaitOutcome string;
  fa_search : result (list N) string;
  fa_fetch : result (list (option N * option (list byte))) string
}.

Definition fetch_unseen_messages_configurable (answer : FetchAnswer) (delete : bool) : imap (list (string * list byte)) :=
  ask uids_set := imap_op (fa_search answer) OpSearchUnseen in
  match uids_set with
  | [] => imap_ret []
  | _ =>
      let uid_set := String.concat "," (map pretty (merge_sort N.le uids_set)) in
      ask messages := imap_op (fa_fetch answer) (OpFetchBody uid_set) in
      let out := omap (fun message : option N * option (list byte) =>
        match message.1, message.2 with
        | Some uid, Some body => Some (pretty uid, body)
        | _, _ => None
        end) messages in
      if delete then ask _ := imap_op (fa_op answer (OpStoreDeleted uid_set)) (OpStoreDeleted uid_set) in imap_ret out
      else imap_ret out
  end.
Definition fetch_unseen_messages_no_delete (answer : FetchAnswer) : imap (list (string * list byte)) :=
  fetch_unseen_messages_configurable answer false.

(** The URL of a configuration, how unseen messages are fetched, what is kept of
    one, and the bytes that are sent for it. *)
Record FetchKind (Conf M : Type) : Type := mk_FetchKind {
  fk_url : Conf -> string;
  fk_fetch : Conf -> FetchAnswer -> imap (list (string * list byte));
  fk_message : Conf -> string * list byte -> M;
  fk_bytes : M -> list byte
}.
Arguments mk_FetchKind {Conf M}.
Arguments fk_url {Conf M}.
Arguments fk_fetch {Conf M}.
Arguments fk_message {Conf M}.
Arguments fk_bytes {Conf M}.

(** The configuration of the session, if there is one. *)
Record FetchThread (Conf : Type) : Type := mk_FetchThread { ft_session : option Conf; ft_log : list ImapOp }.
Arguments mk_FetchThread {Conf}.
Arguments ft_session {Conf}.
Arguments ft_log {Conf}.

Section fetch.
Context `{R : Rtrb} {Conf M : Type}.
Variable url_parse : string -> result FullUrl string.
Variable k : FetchKind Conf M.

Definition fetch_messages (config : Conf) (messages : list (string * list byte)) : list M := map (fk_message k config) messages.

(** Unseen messages are fetched once after the login, and whenever the mailbox has
    changed. *)
Definition fetch_connected (answer : FetchAnswer) (config : Conf) (log : list ImapOp) :
    option (FetchThread Conf) * list (FetchResult M) :=
  let '(r, log) := fk_fetch k config answer log in
  let initial := match r with Ok messages => fetch_messages config messages | Err _ => [] end in
  (Some (mk_FetchThread (Some config) log),
   (match initial with [] => [] | _ => [FetchMessages initial] end) ++ [FetchConnected]).
Definition fetch_poll (answer : FetchAnswer) (config : Conf) : imap (FetchResult M) :=
  ask outcome := imap_op (fa_idle answer) OpIdle in
  match outcome with
  | MailboxChanged => ask messages := fk_fetch k config answer in imap_ret (FetchMessages (fetch_messages config messages))
  | TimedOut => imap_ret FetchIdleTimeout
  end.
Definition fetch_worker_loop : AgentThread (FetchThread Conf) (FetchCommand Conf) (FetchResult M) FetchAnswer :=
  fun answer cmd w =>
    match cmd with
    | FetchConnect config =>
        match login_and_connect url_parse (fa_op answer) (fk_url k config) (ft_log w) with
        | (Ok _, log) => fetch_connected answer config log
        | (Err e, log) => (Some (mk_FetchThread (ft_session w) log), [FetchFailed e])
        end
    | FetchPoll =>
        match ft_session w with
        | Some config =>
            let '(r, log) := fetch_poll answer config (ft_log w) in
            (Some (mk_FetchThread (ft_session w) log), [match r with Ok r => r | Err e => FetchFailed e end])
        | None => (Some w, [FetchFailed "poll requested before connection"])
        end
    | FetchShutdown => (None, [FetchStopped])
    end.
#[local] Existing Instance fetch_worker_loop.

Inductive FetchState : Type := FetchWaitingForConfig | FetchConnecting | FetchActive | FetchFinished.

Record Fetcher : Type := mk_Fetcher {
  fe_conf : ring;
  fe_out : ProcessEdgeSink;
  fe_signals_in : sync_channel;
  fe_signals_out : sync_channel;
  fe_state : FetchState;
  fe_agent : Agent (FetchThread Conf) (FetchCommand Conf) (FetchResult M);
  fe_pending_messages : list (list byte);
  fe_poll_inflight : bool
}.

Definition new_fetcher `{MultiMapLib ring} `{MultiMapLib ProcessEdgeSink} (inports : multimap ring)
    (outports : multimap ProcessEdgeSink) (signals_in signals_out : sync_channel) : outcome Fetcher :=
  let* (conf, inports) := take_port "CONF" inports in
  let* (out, outports) := take_port "OUT" outports in
  Done (mk_Fetcher conf out signals_in signals_out FetchWaitingForConfig
          (mk_Agent channel channel (Some (mk_FetchThread None [])) [] [] []) [] false).

Definition fe_l_conf : lens Fetcher ring := mk_lens fe_conf
  (fun x c => mk_Fetcher x (fe_out c) (fe_signals_in c) (fe_signals_out c) (fe_state c) (fe_agent c)
     (fe_pending_messages c) (fe_poll_inflight c)).
Definition fe_l_out : lens Fetcher ProcessEdgeSink := mk_lens fe_out
  (fun x c => mk_Fetcher (fe_conf c) x (fe_signals_in c) (fe_signals_out c) (fe_state c) (fe_agent c)
     (fe_pending_messages c) (fe_poll_inflight c)).
Definition fe_l_signals : lens Fetcher Signals := mk_lens
  (fun c => mk_Signals (fe_signals_in c) (fe_signals_out c))
  (fun x c => mk_Fetcher (fe_conf c) (fe_out c) (sig_in x) (sig_out x) (fe_state c) (fe_agent c)
     (fe_pending_messages c) (fe_poll_inflight c)).
Definition fe_l_state : lens Fetcher FetchState := mk_lens fe_state
  (fun x c => mk_Fetcher (fe_conf c) (fe_out c) (fe_signals_in c) (fe_signals_out c) x (fe_agent c)
     (fe_pending_messages c) (fe_poll_inflight c)).
Definition fe_l_agent : lens Fetcher (Agent (FetchThread Conf) (FetchCommand Conf) (FetchResult M)) := mk_lens fe_agent
  (fun x c => mk_Fetcher (fe_conf c) (fe_out c) (fe_signals_in c) (fe_signals_out c) (fe_state c) x
     (fe_pending_messages c) (fe_poll_inflight c)).
Definition fe_l_pending_messages : lens Fetcher (list (list byte)) := mk_lens fe_pending_messages
  (fun x c => mk_Fetcher (fe_conf c) (fe_out c) (fe_signals_in c) (fe_signals_out c) (fe_state c) (fe_agent c)
     x (fe_poll_inflight c)).
Definition fe_l_poll_inflight : lens Fetcher bool := mk_lens fe_poll_inflight
  (fun x c => mk_Fetcher (fe_conf c) (fe_out c) (fe_signals_in c) (fe_signals_out c) (fe_state c) (fe_agent c)
     (fe_pending_messages c) x).

Definition fetch_finish {A} : proc Fetcher A := write fe_l_state FetchFinished;; return_ Finished.
Definition fetch_command (c : FetchCommand Conf) : proc Fetcher bool := command fe_l_agent [] c.

(** As [mail_results_fuel]. *)
Fixpoint fetch_results_fuel (fuel : nat) : proc Fetcher unit :=
  match fuel with
  | O => fun _ => None
  | S fuel =>
      r ← result_of fe_l_agent;
      match r with
      | Received FetchConnected =>
          write fe_l_state FetchActive;; write fe_l_poll_inflight false;; work 1;; fetch_results_fuel fuel
      | Received (FetchMessages messages) =>
          p ← read fe_l_pending_messages; write fe_l_pending_messages (p ++ map (fk_bytes k) messages);;
          write fe_l_poll_inflight false;; work 1;; fetch_results_fuel fuel
      | Received FetchIdleTimeout => write fe_l_poll_inflight false;; work 1;; fetch_results_fuel fuel
      | Received (FetchFailed _) | Received FetchStopped => fetch_finish
      | _ => mret tt
      end
  end.
Definition fetch_results : proc Fetcher unit :=
  a ← read fe_l_agent; fetch_results_fuel (S (length (mp_items (ag_res a)))).

Fixpoint output_messages (pending : list (list byte)) : proc Fetcher unit :=
  match pending with
  | [] => mret tt
  | msg :: rest =>
      b ← budget;
      if (0 <? b)%N then
        res ← send fe_l_out (from_bytes msg);
        match res with
        | Ok _ => write fe_l_pending_messages rest;; charge 1;; work 1;; output_messages rest
        | Err _ => mret tt
        end
      else mret tt
  end.
Definition fetch_output : proc Fetcher unit := pending ← read fe_l_pending_messages; output_messages pending.

Definition fetch_check_signals : proc Fetcher unit :=
  stop_signal message_as_utf8 fe_l_signals (fetch_command FetchShutdown;; write fe_l_state FetchFinished).
Definition fetch_connect (config : Conf) : proc Fetcher unit :=
  sent ← fetch_command (FetchConnect config);
  if (sent : bool) then write fe_l_state FetchConnecting else fetch_finish.
Definition fetch_poll_again : proc Fetcher unit :=
  sent ← fetch_command FetchPoll;
  if (sent : bool) then write fe_l_poll_inflight true;; work 1 else fetch_finish.
Definition fetch_end : proc Fetcher ProcessResult :=
  pending ← read fe_l_pending_messages;
  (if bool_decide (pending = []) then mret tt else emit [EffContextReady]);;
  w ← work_units;
  mret (if (0 <? w)%N then DidWork w else NoWork).
End fetch.
Arguments Fetcher {R} Conf M.

(** ** IMAPFetchIdle *)
Record FetchConfig : Type := mk_FetchConfig {
  fg_url : string;
  fg_delete : bool;
  fg_include_full : bool;
  fg_include_uid : bool
}.

(** The tokens of the parameter retrieve. *)
Fixpoint retrieve_tokens (tokens : list string) (full uid : bool) : result (bool * bool) string :=
  match tokens with
  | [] => Ok (full, uid)
  | token :: tokens =>
      let token := to_ascii_lowercase (str_trim token) in
      if String.eqb token "full" then retrieve_tokens tokens true uid
      else if String.eqb token "uid" then retrieve_tokens tokens full true
      else if String.eqb token "" then retrieve_tokens tokens full uid
      else Err ("invalid retrieve token '" +:+ token +:+ "', expected full and/or uid")
  end.
Fixpoint fetch_parameters (pairs : list (string * string)) (config : FetchConfig) : result FetchConfig string :=
  match pairs with
  | [] => Ok config
  | (key, value) :: pairs =>
      if eq_ignore_ascii_case key "delete" then
        match parse_bool value with
        | Some delete =>
            fetch_parameters pairs (mk_FetchConfig (fg_url config) delete (fg_include_full config) (fg_include_uid config))
        | None => Err ("invalid delete value '" +:+ value +:+ "', expected true or false")
        end
      else if eq_ignore_ascii_case key "retrieve" then
        match retrieve_tokens (str_split "," value) false false with
        | Err e => Err e
        | Ok (false, false) => Err "retrieve must include at least one of full or uid"
        | Ok (full, uid) => fetch_parameters pairs (mk_FetchConfig (fg_url config) (fg_delete config) full uid)
        end
      else fetch_parameters pairs config
  end.

Definition json_quote : string := String.String (Ascii.ascii_of_nat 34) EmptyString.

Section idle.
Context `{R : Rtrb}.
Variable url_parse : string -> result FullUrl string.
(** [serde_json]: the object with a uid and a body, as text; [None] if that fails. *)
Variable message_json : string * list byte -> option string.

Definition parse_fetch_config (conf_url : string) : result FetchConfig string :=
  match url_parse conf_url with
  | Err e => Err e
  | Ok parsed => fetch_parameters (url_query_pairs parsed) (mk_FetchConfig conf_url false true false)
  end.

Definition unserializable : string :=
  "{" +:+ json_quote +:+ "error" +:+ json_quote +:+ ":" +:+ json_quote +:+ "failed to serialize fetched message" +:+ json_quote +:+ "," +:+ json_quote +:+ "uid" +:+ json_quote +:+ ":"
    +:+ json_quote +:+ json_quote +:+ "," +:+ json_quote +:+ "body" +:+ json_quote +:+ ":[]}".
Definition encode_fetch_output (config : FetchConfig) (message : string * list byte) : list byte :=
  match fg_include_full config, fg_include_uid config with
  | true, false => message.2
  | false, true => string_bytes message.1
  | true, true => string_bytes (default unserializable (message_json message))
  | false, false => []
  end.
Definition imap_fetch_idle_kind : FetchKind FetchConfig (list byte) :=
  mk_FetchKind fg_url (fun config answer => fetch_unseen_messages_configurable answer (fg_delete config)) encode_fetch_output id.

Abbreviation IMAPFetchIdleComponent := (Fetcher FetchConfig (list byte)).
Definition idle_wait_for_config : proc IMAPFetchIdleComponent unit :=
  url_vec ← pop fe_l_conf;
  match url_vec with
  | None => mret tt
  | Some url_vec =>
      match as_text url_vec with
      | None => panic
      | Some url =>
          match parse_fetch_config url with
          | Ok config => fetch_connect url_parse imap_fetch_idle_kind config;; write fe_l_poll_inflight true;; work 1
          | Err _ => fetch_finish
          end
      end
  end.
Definition imap_fetch_idle_process : proc IMAPFetchIdleComponent ProcessResult :=
  fetch_check_signals url_parse imap_fetch_idle_kind;;
  fetch_results imap_fetch_idle_kind;;
  fetch_output;;
  state ← read fe_l_state;
  match state with
  | FetchWaitingForConfig => idle_wait_for_config
  | FetchConnecting => mret tt
  | FetchActive =>
      poll_inflight ← read fe_l_poll_inflight;
      if (poll_inflight : bool) then mret tt else fetch_poll_again url_parse imap_fetch_idle_kind
  | FetchFinished => return_ Finished
  end;;
  fetch_end.

(** ** IMAPFetch

    The configuration is the URL, and the messages are made texts when they are
    taken from the channel. *)
Definition imap_fetch_kind : FetchKind string (string * list byte) :=
  mk_FetchKind id (fun _ => fetch_unseen_messages_no_delete) (fun _ message => message)
    (fun message => string_bytes (default ("{" +:+ json_quote +:+ "error" +:+ json_quote +:+ ": " +:+ json_quote +:+ "failed to serialize message" +:+ json_quote +:+ "}")
       (message_json message))).

Abbreviation IMAPFetchComponent := (Fetcher string (string * list byte)).
Definition fetch_wait_for_config : proc IMAPFetchComponent unit :=
  conf_msg ← pop fe_l_conf;
  match conf_msg with
  | None => return_ NoWork
  | Some conf_msg =>
      match as_text conf_msg with
      | None => panic
      | Some conf_text => fetch_connect url_parse imap_fetch_kind conf_text;; work 1
      end
  end.
Definition imap_fetch_process : proc IMAPFetchComponent ProcessResult :=
  fetch_check_signals url_parse imap_fetch_kind;;
  fetch_results imap_fetch_kind;;
  fetch_output;;
  state ← read fe_l_state;
  match state with
  | FetchWaitingForConfig => fetch_wait_for_config
  | FetchConnecting => return_ NoWork
  | FetchActive =>
      poll_inflight ← read fe_l_poll_inflight;
      pending ← read fe_l_pending_messages;
      if negb poll_inflight && bool_decide (pending = []) then fetch_poll_again url_parse imap_fetch_kind else mret tt
  | FetchFinished => return_ Finished
  end;;
  fetch_end.
End idle.
