(* ===== verification/MailTheorems.v ===== *)
(** What is proved about the IMAP components: those that hand operations on end
    when all of them are done, and those that fetch send what was fetched, in
    order, with one poll at a time. *)
From S2P Require Import Prelude Api Scheduler Process Pipes PipesTheorems Sinks SinksTheorems Io Clients Brokers BrokersTheorems Agents AgentsTheorems Mail.
From Stdlib Require Strings.String.
From Stdlib Require Import NArith ZArith Lia Strings.Byte.
From stdpp Require Import base list strings gmap sorting pretty.
Local Open Scope string_scope.
Local Open Scope list_scope.
Local Open Scope flowd_scope.

(** * Channels without a bound *)

Section unbounded.
Context {W Cmd Res Ext C : Type} `{T : !AgentThread W Cmd Res Ext}.
Abbreviation Agent := (Agent W Cmd Res).
Implicit Types (a : Agent).
Variable l : lens C Agent.

(** Both ends are there, and nothing waits. *)
Record open_agent a : Prop := mk_open_agent {
  oa_cmd : mp_bound (ag_cmd a) = None;
  oa_alive : mp_rx_alive (ag_cmd a) = true;
  oa_res : mp_bound (ag_res a) = None;
  oa_res_alive : mp_rx_alive (ag_res a) = true;
  oa_tx_alive : mp_tx_alive (ag_res a) = true
}.
Definition with_command (c : Cmd) a : Agent :=
  mk_Agent (with_items (mp_items (ag_cmd a) ++ [c]) (ag_cmd a)) (ag_res a) (ag_worker a) (ag_sending a) (ag_done a) (ag_made a).

Lemma wp_command_open c f (Q : bool -> frame C -> Prop) E :
  open_agent (get l (fr_self f)) -> Q true (with_self (set l (with_command c (get l (fr_self f))) (fr_self f)) f) ->
  wp (command l [] c) Q E f.
Proof.
  intros [Hb Ha _ _ _] HQ. unfold wp, command. cbn [agent_send]. unfold mpsc_try_send, mpsc_full. by rewrite Ha, Hb.
Qed.

Lemma open_with_command c a : open_agent a -> open_agent (with_command c a).
Proof. by intros []. Qed.
Lemma asked_with_command c a : asked (with_command c a) = asked a ++ [c].
Proof. unfold asked. simpl. by rewrite app_assoc. Qed.

Definition with_results (rs : list Res) a : Agent :=
  mk_Agent (ag_cmd a) (with_items rs (ag_res a)) (ag_worker a) (ag_sending a) (ag_done a) (ag_made a).
Lemma wp_result_open f (Q : received Res -> frame C -> Prop) E :
  (forall r rest, mp_items (ag_res (get l (fr_self f))) = r :: rest ->
     Q (Received r) (with_self (set l (with_results rest (get l (fr_self f))) (fr_self f)) f)) ->
  (mp_items (ag_res (get l (fr_self f))) = [] -> forall r, (forall x, r <> Received x) ->
     Q r (with_self (set l (with_results [] (get l (fr_self f))) (fr_self f)) f)) ->
  wp (result_of l) Q E f.
Proof.
  intros HQ H0. set (a := get l (fr_self f)) in *. unfold wp, result_of. fold a. unfold agent_recv, mpsc_try_recv.
  destruct (mp_items (ag_res a)) as [|r rest] eqn:Hi; simpl; [|by apply HQ].
  assert (mk_Agent (ag_cmd a) (ag_res a) (ag_worker a) (ag_sending a) (ag_done a) (ag_made a) = with_results [] a) as ->.
  { unfold with_results. f_equal. unfold with_items. rewrite <- Hi. by destruct (ag_res a). }
  destruct (mp_tx_alive (ag_res a)); by apply H0.
Qed.

(** A turn. *)
Lemma open_turn answer a : open_agent a -> agent_move (Turn answer) a =
  match ag_sending a with
  | r :: rest => mk_Agent (ag_cmd a) (with_items (mp_items (ag_res a) ++ [r]) (ag_res a)) (ag_worker a) rest (ag_done a) (ag_made a ++ [r])
  | [] =>
      match ag_worker a, mp_items (ag_cmd a) with
      | Some w, c :: items =>
          mk_Agent (let cmd := with_items items (ag_cmd a) in if is_none (handle answer c w).1 then drop_receiver cmd else cmd)
            (ag_res a) (handle answer c w).1 (handle answer c w).2 (ag_done a ++ [c]) (ag_made a)
      | _, _ => a
      end
  end.
Proof.
  intros [_ _ Hb Ha _]. unfold agent_move. destruct (ag_sending a) as [|r rest].
  - unfold take_command, mpsc_try_recv. destruct (ag_worker a) as [w|]; [|done].
    destruct (mp_items (ag_cmd a)) as [|c items]; [by destruct (mp_tx_alive _)|]. by destruct (handle answer c w).
  - unfold put_result, mpsc_try_send, mpsc_full. by rewrite Ha, Hb.
Qed.
End unbounded.

(** * Handing operations on *)

Section mail.
Context `{R : Rtrb} {Conf Op : Type}.
Variable url_parse : string -> result FullUrl string.
Variable k : MailKind Conf Op.
#[local] Instance mail_main : AgentThread MailThread (MailCommand Op) MailResult ImapAnswer := mail_worker_loop url_parse k.
Abbreviation MailSender := (MailSender Conf Op).
Abbreviation MailAgent := (Agent MailThread (MailCommand Op) MailResult).
Implicit Types (c : MailSender) (f : frame MailSender) (a : MailAgent).

Definition failing (r : MailResult) : Prop := match r with MailFailed _ | MailStopped => True | _ => False end.

(** The results of the thread: one for every command that it has taken. *)
Definition results_ok (rs : list MailResult) : Prop :=
  match rs with
  | [] => True
  | r :: rs => (r = MailConnected \/ failing r) /\ Forall (fun r => r = MailDone \/ failing r) rs
  end.

(** What the thread has asked of the server, when nothing has failed. *)
Definition log_of (url : string) (ops : list Op) : option MailThread :=
  match login_target url_parse url with
  | Ok target =>
      Some (mk_MailThread (Some (it_mailbox target))
        (OpLogin target :: concat (map (mk_server_ops k (it_mailbox target)) ops)))
  | Err _ => None
  end.
Definition mail_thread_after (cmds : list (MailCommand Op)) (w : MailThread) : Prop :=
  match cmds with
  | [] => w = mk_MailThread None []
  | MailConnect url :: cmds => exists ops, cmds = map MailOp ops /\ log_of url ops = Some w
  | _ => False
  end.

(** The shape of the commands before a shutdown. *)
Definition commands_ok (cmds : list (MailCommand Op)) : Prop :=
  cmds = [] \/ exists url ops, cmds = MailConnect url :: map MailOp ops.

Record served a : Prop := mk_served {
  sv_open : open_agent a;
  sv_commands : commands_ok (asked a);
  sv_results : results_ok (ag_made a ++ ag_sending a);
  sv_one_each : length (ag_made a ++ ag_sending a) = length (ag_done a);
  sv_worker : exists w, ag_worker a = Some w /\
    (Forall (fun r => ~ failing r) (ag_made a ++ ag_sending a) -> mail_thread_after (ag_done a) w)
}.

Lemma imap_all_spec answer ops log r log' :
  imap_all answer ops log = (r, log') -> match r with Ok _ => log' = log ++ ops | Err _ => True end.
Proof.
  revert log. induction ops as [|o ops IH]; intros log; simpl.
  - intros [= <- <-]. by rewrite app_nil_r.
  - unfold imap_bind, imap_op. destruct (answer o) as [[]|e]; [|by intros [= <- <-]]. intros H%IH.
    destruct r; [|done]. by rewrite H, <- app_assoc.
Qed.

Lemma mail_ops_inj (ops1 ops2 : list Op) : map MailOp ops1 = map MailOp ops2 -> ops1 = ops2.
Proof.
  revert ops2. induction ops1 as [|op ops1 IH]; intros [|op2 ops2]; try done. simpl. intros [= -> H]. by rewrite (IH _ H).
Qed.

(** One command, after those that the thread has taken. *)
Lemma handle_spec answer cmd done w :
  commands_ok (done ++ [cmd]) ->
  exists w' r, handle answer cmd w = (Some w', [r]) /\
    (match done with [] => r = MailConnected | _ => r = MailDone end \/ failing r) /\
    (~ failing r -> mail_thread_after done w -> mail_thread_after (done ++ [cmd]) w').
Proof.
  intros [Hc|(url & ops & Hc)]; [by destruct done|]. unfold handle, mail_main, mail_worker_loop.
  destruct done as [|c0 done].
  - injection Hc as -> Hops. symmetry in Hops. apply map_eq_nil in Hops as ->. unfold login_and_connect.
    destruct (login_target url_parse url) as [target|e] eqn:Ht.
    + unfold imap_bind, imap_op, imap_ret. destruct (answer (OpLogin target)) as [[]|e].
      * eexists _, _. split; [done|]. split; [by left|]. intros _ ->. exists []. unfold log_of. by rewrite Ht.
      * eexists _, _. split; [done|]. split; [by right|]. by intros [].
    + eexists _, _. split; [done|]. split; [by right|]. by intros [].
  - injection Hc as -> Hops. symmetry in Hops. apply map_eq_app in Hops as (ops1 & ops2 & -> & <- & Hops).
    destruct ops2 as [|op [|]]; try done. injection Hops as <-. destruct (mt_session w) as [mailbox|] eqn:Hs.
    + destruct (imap_all answer (mk_server_ops k mailbox op) (mt_log w)) as [r log] eqn:Ha. apply imap_all_spec in Ha.
      eexists _, _. split; [done|]. destruct r as [[]|e]; simpl; [|split; [by right|by intros []]]. split; [by left|].
      intros _ (ops & Hops & Hlog). apply mail_ops_inj in Hops as <-.
      exists (ops1 ++ [op]). split; [by rewrite map_app|]. unfold log_of in *. destruct (login_target url_parse url); [|done].
      injection Hlog as <-. simpl in *. injection Hs as <-.
      rewrite Ha, map_app, concat_app. simpl. by rewrite app_nil_r.
    + eexists _, _. split; [done|]. split; [by right|]. by intros [].
Qed.

Lemma served_turn answer a : served a -> served (agent_move (Turn answer) a) /\ asked (agent_move (Turn answer) a) = asked a.
Proof.
  intros [Ho Hc Hr H1 (w & Hw & Hlog)]. pose proof Ho as [Hb Ha Hrb Hra Htx]. rewrite open_turn by done.
  destruct (ag_sending a) as [|r rest] eqn:Hsend.
  - rewrite Hw. destruct (mp_items (ag_cmd a)) as [|cmd items] eqn:Hi.
    + split; [|done]. split; try done; rewrite ?Hsend; try done. by exists w.
    + unfold asked in *. rewrite Hi in *. assert (commands_ok (ag_done a ++ [cmd])) as Hc'.
      { destruct Hc as [Hc|(url & ops & Hc)]; [by destruct (ag_done a)|]. right. exists url. destruct (ag_done a) as [|c0 done].
        - injection Hc as -> _. by exists [].
        - injection Hc as -> Hops. symmetry in Hops. apply map_eq_app in Hops as (ops1 & ops2 & -> & <- & Hops).
          destruct ops2 as [|op ops2]; [done|]. injection Hops as <- _. exists (ops1 ++ [op]). simpl. by rewrite map_app. }
      destruct (handle_spec answer cmd (ag_done a) w Hc') as (w' & r & Hh & Hres & Hafter). rewrite Hh. simpl.
      split; [|by rewrite <- app_assoc]. rewrite app_nil_r in *. split; simpl.
      * by split.
      * unfold asked. simpl. by rewrite <- app_assoc.
      * destruct (ag_made a) as [|r0 made]; simpl in *.
        -- symmetry in H1. apply nil_length_inv in H1. rewrite H1 in Hres. split; [done|constructor].
        -- destruct Hr as [Hr0 Hr]. split; [done|]. apply Forall_app. split; [done|]. constructor; [|done].
           by destruct (ag_done a).
      * rewrite !length_app, H1. done.
      * exists w'. split; [done|]. intros [Hf Hf']%Forall_app. apply Hafter; [by inversion Hf'|by apply Hlog].
  - split; [|done]. split; simpl; [by split|done|by rewrite <- app_assoc|by rewrite <- app_assoc|].
    exists w. split; [done|]. by rewrite <- app_assoc.
Qed.

(** ** Calls

    [taken]: the packets whose operations have been handed over; [received]: the
    results that have been taken from the channel. *)
Record handing (given : list FbpMessage) (url : string) (taken : list FbpMessage) (received : list MailResult) c : Prop := mk_handing {
  hd_mode : ms_mode c = mk_configure k url;
  hd_given : given = taken ++ ms_pending_input c ++ ring_items (ms_inn c);
  hd_asked : asked (ms_agent c) = MailConnect url :: map MailOp (omap (mk_operation k (ms_mode c)) taken);
  hd_received : ag_made (ms_agent c) = received ++ mp_items (ag_res (ms_agent c));
  hd_served : served (ms_agent c);
  hd_state :
    match ms_state c with
    | MailConnecting => received = [] /\ taken = [] /\ ms_inflight c = 0%N
    | MailActive => exists m, received = MailConnected :: repeat MailDone m /\
        (N.of_nat m + ms_inflight c)%N = N.of_nat (length (omap (mk_operation k (ms_mode c)) taken))
    | _ => False
    end
}.
Record waiting (given : list FbpMessage) c : Prop := mk_waiting {
  wt_state : ms_state c = MailWaitingForConfig;
  wt_given : given = ms_pending_input c ++ ring_items (ms_inn c);
  wt_asked : asked (ms_agent c) = [];
  wt_made : ag_made (ms_agent c) = [];
  wt_results : mp_items (ag_res (ms_agent c)) = [];
  wt_inflight : ms_inflight c = 0%N;
  wt_served : served (ms_agent c)
}.
Definition mail_ok (given : list FbpMessage) c : Prop :=
  waiting given c \/ exists url taken received, handing given url taken received c.

(** All packets have been taken, and the server has done everything for all of
    them, in order. *)
Definition all_done (given : list FbpMessage) c : Prop :=
  ring_items (ms_inn c) = [] /\
  exists url w, log_of url (omap (mk_operation k (mk_configure k url)) given) = Some w /\
    ag_worker (ms_agent c) = Some w.

Section calls.
Variable given : list FbpMessage.
Abbreviation ok f := (mail_ok given (fr_self f)).

(** What a turn of the component does with the agent. *)
Lemma served_command cmd a : served a -> commands_ok (asked a ++ [cmd]) -> served (with_command cmd a).
Proof.
  intros [Ho _ Hr H1 Hw] Hc. split; simpl; [by apply open_with_command|by rewrite asked_with_command|done..].
Qed.
Lemma served_results rs a : served a -> served (with_results rs a).
Proof. intros [[] Hc Hr H1 Hw]. by split. Qed.

(** The result at the head is one of those that a thread can give now. *)
Lemma next_result url taken received r rest c :
  handing given url taken received c -> mp_items (ag_res (ms_agent c)) = r :: rest ->
  failing r \/ (r = MailConnected /\ ms_state c = MailConnecting) \/
  (r = MailDone /\ ms_state c = MailActive /\ (0 < ms_inflight c)%N).
Proof.
  intros [_ _ Hk Hrec Hsv Hst] Hi. destruct Hsv as [_ _ Hr H1 _]. rewrite Hrec, Hi in Hr, H1.
  assert (length (ag_done (ms_agent c)) <= length (asked (ms_agent c)))%nat as Hle by (unfold asked; rewrite length_app; lia).
  rewrite Hk in Hle. simpl in Hle. rewrite length_map in Hle. rewrite !length_app in H1. simpl in H1.
  destruct (ms_state c); [done| | |done].
  - destruct Hst as (-> & _). destruct Hr as [[->|Hr] _]; [by right; left|by left].
  - destruct Hst as (m & -> & Hm). simpl in Hr, H1. destruct Hr as [_ Hr]. rewrite <- app_assoc in Hr.
    apply Forall_app in Hr as [_ Hr]. inversion Hr as [|? ? [->|Hf] _]; subst; [right; right|by left].
    rewrite repeat_length in H1. split_and!; [done..|lia].
Qed.

Lemma wp_mail_results_fuel fuel : forall f (Q : unit -> frame MailSender -> Prop) (E : exit -> frame MailSender -> Prop),
  ok f -> (length (mp_items (ag_res (ms_agent (fr_self f)))) < fuel)%nat ->
  (forall f', ok f' -> mp_items (ag_res (ms_agent (fr_self f'))) = [] -> Q tt f') ->
  (Exists failing (mp_items (ag_res (ms_agent (fr_self f)))) -> forall f', E (Return Finished) f') ->
  wp (mail_results_fuel fuel) Q E f.
Proof.
  induction fuel as [|fuel IH]; intros f Q E Hok Hlen HQ HE; [lia|]. cbn [mail_results_fuel]. apply wp_bind, wp_result_open; simpl.
  - intros r rest Hi. rewrite Hi in Hlen, HE. simpl in Hlen.
    destruct Hok as [[_ _ _ _ H0 _ _]|(url & taken & received & Hh)]; [by rewrite H0 in Hi|].
    destruct (next_result _ _ _ _ _ _ Hh Hi) as [Hf|[[-> Hst]|(-> & Hst & Hpos)]].
    + assert (forall f', E (Return Finished) f') as HE' by (intros f'; apply HE; by constructor).
      unfold mail_finish. destruct r; try done; wp_run; apply HE'.
    + wp_run. apply IH; simpl; [|lia|exact HQ|intros H; apply HE; by right].
      right. exists url, taken, (received ++ [MailConnected]). destruct Hh as [H1 H2 H3 H4 H5 H6]. rewrite Hst in H6.
        split; simpl; [done|done|done|by rewrite H4, Hi, <- app_assoc|by apply served_results|].
        destruct H6 as (-> & -> & ->). by exists 0%nat.
    + wp_run. apply IH; simpl; [|lia|exact HQ|intros H; apply HE; by right].
      right. exists url, taken, (received ++ [MailDone]). destruct Hh as [H1 H2 H3 H4 H5 H6]. rewrite Hst in H6.
        split; simpl; [done|done|done|by rewrite H4, Hi, <- app_assoc|by apply served_results|].
        rewrite Hst. destruct H6 as (m & -> & Hm). exists (S m). split; [|lia].
        by rewrite <- app_comm_cons, <- repeat_cons.
  - intros H0 r Hr. assert (ok (with_self (set ms_l_agent (with_results [] (ms_agent (fr_self f))) (fr_self f)) f)) as Hok'.
    { destruct Hok as [[]|(url & taken & received & [])]; [left|right; exists url, taken, received];
        split; simpl; try done; [by apply served_results|by rewrite H0 in *|by apply served_results]. }
    destruct r; [by destruct (Hr t)|..]; wp_run; by apply HQ.
Qed.

Lemma wp_mail_wait_for_config f (Q : unit -> frame MailSender -> Prop) (E : exit -> frame MailSender -> Prop) :
  waiting given (fr_self f) -> (forall f', ok f' -> Q tt f') -> (forall f', E Unwind f') ->
  wp (mail_wait_for_config url_parse k) Q E f.
Proof.
  intros Hw HQ HU. unfold mail_wait_for_config. apply wp_bind, wp_pop; simpl.
  - intros _ r [Hr _ _]. apply wp_ret, HQ. left. destruct Hw. by split.
  - intros m rest r _ _. destruct (as_text m) as [url|]; [|by apply wp_leave]. apply wp_bind, wp_write, wp_bind.
    unfold mail_command. destruct Hw as [Hst Hg Ha Hm Hi H0 Hsv].
    apply wp_command_open; simpl; [apply Hsv|]. wp_run. apply HQ. right. exists url, [], []. split; simpl; try done.
    + by rewrite asked_with_command, Ha.
    + by rewrite Hm, Hi.
    + apply served_command; [done|]. rewrite Ha. right. by exists url, [].
Qed.

Lemma wp_send_operations url pending : forall taken received f (Q : unit -> frame MailSender -> Prop) E,
  handing given url taken received (fr_self f) -> ms_state (fr_self f) = MailActive ->
  ms_pending_input (fr_self f) = pending ->
  (forall taken f', handing given url taken received (fr_self f') -> ms_state (fr_self f') = MailActive ->
     ring_items (ms_inn (fr_self f')) = ring_items (ms_inn (fr_self f)) -> Q tt f') ->
  wp (send_operations url_parse k pending) Q E f.
Proof.
  induction pending as [|packet rest IH]; intros taken received f Q E Hh Hst Hp HQ; cbn [send_operations].
  - apply wp_ret. by apply (HQ taken).
  - apply wp_bind, wp_budget. destruct (N.ltb_spec 0 (remaining_budget (fr_ctx f))) as [Hb|_]; [|apply wp_ret; by apply (HQ taken)].
    apply wp_bind, wp_read. simpl. pose proof Hh as [H1 H2 H3 H4 H5 H6]. rewrite Hst in H6. destruct H6 as (m & Hrec & Hm).
    assert (given = (taken ++ [packet]) ++ rest ++ ring_items (ms_inn (fr_self f))) as Hg by (by rewrite H2, Hp, <- app_assoc).
    destruct (mk_operation k (ms_mode (fr_self f)) packet) as [op|] eqn:Hop.
    + unfold mail_command. apply wp_bind, wp_command_open; simpl; [apply H5|]. wp_run.
      apply (IH (taken ++ [packet]) received); simpl; [|done|done|intros; by eapply HQ].
      split; simpl; try done.
      * rewrite asked_with_command, H3, omap_app, map_app. simpl. by rewrite Hop.
      * apply served_command; [done|]. rewrite H3. right. eexists url, (_ ++ [op]). by rewrite map_app.
      * rewrite Hst. exists m. split; [done|]. rewrite omap_app, length_app. simpl. rewrite Hop. simpl. lia.
    + apply wp_bind, wp_write. apply (IH (taken ++ [packet]) received); simpl; [|done|done|intros; by eapply HQ].
      assert (omap (mk_operation k (ms_mode (fr_self f))) (taken ++ [packet]) = omap (mk_operation k (ms_mode (fr_self f))) taken) as Ho
        by (rewrite omap_app; simpl; by rewrite Hop, app_nil_r).
      split; simpl; rewrite ?Ho; try done. rewrite Hst. by exists m.
Qed.

(** All results have come, and all are good. *)
Lemma handing_complete url taken received c :
  handing given url taken received c -> ms_state c = MailActive -> ms_inflight c = 0%N ->
  ms_pending_input c = [] -> ring_items (ms_inn c) = [] -> all_done given c.
Proof.
  intros [H1 H2 H3 H4 [Hop Hc Hr Hone (w & Hw & Hlog)] H6] Hst H0 Hp Hi. rewrite Hst in H6. destruct H6 as (m & Hrec & Hm).
  rewrite Hp, Hi, !app_nil_r in H2. subst taken. split; [done|]. exists url, w. split; [|done].
  rewrite H0, N.add_0_r in Hm. apply Nat2N.inj in Hm. rewrite H4, Hrec in Hone, Hlog.
  assert (length (asked (ms_agent c)) = S m) as Hlen by (rewrite H3; simpl; by rewrite length_map, Hm).
  unfold asked in Hlen, H3. rewrite length_app in Hlen. rewrite !length_app in Hone. simpl in Hone. rewrite repeat_length in Hone.
  assert (mp_items (ag_cmd (ms_agent c)) = []) as Hq by (apply nil_length_inv; lia).
  assert (mp_items (ag_res (ms_agent c)) = [] /\ ag_sending (ms_agent c) = []) as [Hr0 Hs0] by (split; apply nil_length_inv; lia).
  rewrite Hq, app_nil_r in H3. rewrite Hr0, Hs0, !app_nil_r, H3 in Hlog. destruct Hlog as (ops & Hops & Hw').
  - constructor; [by intros []|]. apply List.Forall_forall. intros r ->%repeat_spec. by intros [].
  - apply mail_ops_inj in Hops as <-. by rewrite <- H1.
Qed.

Lemma wp_mail_active f (Q : unit -> frame MailSender -> Prop) (E : exit -> frame MailSender -> Prop) :
  ok f -> ms_state (fr_self f) = MailActive -> (forall f', ok f' -> Q tt f') ->
  (forall f', all_done given (fr_self f') -> E (Return Finished) f') -> wp (mail_active url_parse k) Q E f.
Proof.
  intros [[Hst' _ _ _ _ _ _]|(url & taken & received & Hh)] Hst HQ HE; [congruence|]. unfold mail_active, take_input.
  apply wp_bind, wp_bind, wp_read. simpl. rewrite ring_slots_spec. apply wp_bind, wp_read_chunk; simpl; [lia|]. intros r [Hr _ _].
  rewrite drop_all in Hr. rewrite firstn_all. apply wp_bind, wp_read, wp_write. simpl. apply wp_bind, wp_read. simpl.
  apply wp_bind. eapply (wp_send_operations url _ taken received); simpl; [|done|done|].
  { destruct Hh as [H1 H2 H3 H4 H5 H6]. split; simpl; try done. by rewrite Hr, app_nil_r, H2. }
  clear taken Hh. intros taken f' Hh Hst' Hi. rewrite Hr in Hi. apply wp_bind, wp_read, wp_bind, wp_is_abandoned, wp_bind, wp_read. simpl.
  assert (ok f') as Hok' by (right; by exists url, taken, received).
  destruct (bool_decide_reflect (ms_pending_input (fr_self f') = [])) as [Hp|Hp]; simpl; [|wp_run; by apply HQ].
  destruct (ring_is_abandoned _); simpl; [|wp_run; by apply HQ].
  destruct (N.eqb_spec (ms_inflight (fr_self f')) 0) as [H0|H0]; [|wp_run; by apply HQ].
  unfold mail_command. apply wp_bind, wp_command_open; simpl; [apply Hh|]. unfold mail_finish. wp_run. apply HE.
  exact (handing_complete url taken received (fr_self f') Hh Hst' H0 Hp Hi).
Qed.

(** A call: it ends, and if it finishes, the component was told to stop, an
    operation has failed, or everything is done. *)
Lemma mail_call c ctx : mail_ok given c ->
  exists f r, call (mail_process url_parse k) c ctx = Some (f, r) /\
    match r with
    | Some Finished => stop_next message_as_utf8 (get ms_l_signals c) \/ Exists failing (mp_items (ag_res (ms_agent c))) \/
        all_done given (fr_self f)
    | Some _ => ok f
    | None => True
    end.
Proof.
  intros Hok. apply wp_call. unfold mail_process. apply wp_bind, wp_stop_signal; cbn [fr_self].
  2: { intros Hs sg _. unfold mail_command. apply wp_bind, wp_command_open; simpl; [|wp_run; by left].
       destruct Hok as [[]|(url & taken & received & [])]; by apply sv_open. }
  intros _ sg _. apply wp_bind. unfold mail_results. apply wp_bind, wp_read. cbn [fr_self with_self get ms_l_agent].
  assert (ok (with_self (set ms_l_signals sg c) (mk_frame c ctx 0 [] 0))) as Hok'
    by (destruct Hok as [[]|(url & taken & received & [])]; [left|right; exists url, taken, received]; by split).
  apply wp_mail_results_fuel; [exact Hok'|apply Nat.lt_succ_diag_r| |intros H f'; by right; left].
  intros f Hf _. assert (forall f', ok f' -> wp (w ← work_units; mret (if (0 <? w)%N then DidWork w else NoWork))
    (fun r f' => match r with
      | Finished => stop_next message_as_utf8 (get ms_l_signals c) \/ Exists failing (mp_items (ag_res (ms_agent c))) \/ all_done given (fr_self f')
      | _ => ok f' end) (fun e f' => match e with
      | Return Finished => stop_next message_as_utf8 (get ms_l_signals c) \/ Exists failing (mp_items (ag_res (ms_agent c))) \/ all_done given (fr_self f')
      | Return _ => ok f' | Break => False | Unwind => True end) f') as Hend.
  { intros f' Hf'. apply wp_bind, wp_work_units. by destruct (0 <? fr_work f')%N. }
  apply wp_bind, wp_read. simpl. apply wp_bind. destruct (ms_state (fr_self f)) eqn:Hst.
  - destruct Hf as [Hw|(url & taken & received & [])]; [|by rewrite Hst in *]. apply wp_mail_wait_for_config; [done|exact Hend|done].
  - by apply wp_ret, Hend.
  - apply wp_mail_active; [done|done|exact Hend|]. intros f' Hf'. by right; right.
  - destruct Hf as [[]|(url & taken & received & [])]; [congruence|by rewrite Hst in *].
Qed.
End calls.

(** ** Runs

    A component that has not finished: calls, turns of its thread, packets for its
    ports, the end of their producer, and signals. *)
Record MailRun : Type := mk_MailRun { mn_sender : MailSender; mn_given : list FbpMessage }.

Inductive mail_step : MailRun -> MailRun -> Prop :=
| mail_called c given ctx f r :
    call (mail_process url_parse k) c ctx = Some (f, Some r) -> r <> Finished ->
    mail_step (mk_MailRun c given) (mk_MailRun (fr_self f) given)
| mail_turns answer c given :
    mail_step (mk_MailRun c given) (mk_MailRun (set ms_l_agent (agent_move (Turn answer) (ms_agent c)) c) given)
| mail_configured c given m r :
    ring_push m (ms_conf c) = (Ok tt, r) -> mail_step (mk_MailRun c given) (mk_MailRun (set ms_l_conf r c) given)
| mail_given c given m r :
    ring_push m (ms_inn c) = (Ok tt, r) -> mail_step (mk_MailRun c given) (mk_MailRun (set ms_l_inn r c) (given ++ [m]))
| mail_closed c given :
    mail_step (mk_MailRun c given) (mk_MailRun (set ms_l_inn (ring_drop_producer (ms_inn c)) c) given)
| mail_signalled c given m sin :
    try_send m (ms_signals_in c) = (Ok tt, sin) ->
    mail_step (mk_MailRun c given) (mk_MailRun (set ms_l_signals (mk_Signals sin (ms_signals_out c)) c) given).

(** A component as [new] makes it. *)
Definition mail_untouched (s : MailRun) : Prop :=
  let c := mn_sender s in
  ms_state c = MailWaitingForConfig /\ ms_pending_input c = [] /\ ms_inflight c = 0%N /\ ring_items (ms_inn c) = mn_given s /\
  ms_agent c = mk_Agent channel channel (Some (mk_MailThread None [])) [] [] [].

Lemma served_new : served (mk_Agent channel channel (Some (mk_MailThread None [])) [] [] []).
Proof. split; simpl; [by split|by left|done|done|by eexists]. Qed.

Lemma mail_turn_ok given answer c : mail_ok given c -> mail_ok given (set ms_l_agent (agent_move (Turn answer) (ms_agent c)) c).
Proof.
  assert (forall a, exists l, ag_made (agent_move (Turn answer) a) = ag_made a ++ l /\
    mp_items (ag_res (agent_move (Turn answer) a)) = mp_items (ag_res a) ++ l) as Hmade
    by (intros a; apply (told_made _ _ _ (told_move (Turn answer) a))).
  intros [[Hst Hg Ha Hm Hi H0 Hsv]|(url & taken & received & [H1 H2 H3 H4 H5 H6])].
  - left. destruct (served_turn answer _ Hsv) as [Hsv' Ha']. destruct (Hmade (ms_agent c)) as (l & Hm' & Hi').
    set (a' := agent_move (Turn answer) (ms_agent c)) in *. clearbody a'. clear Hmade.
    split; simpl; try done; [by rewrite Ha'| |]; [rewrite Hm', Hm|rewrite Hi', Hi];
      destruct Hsv' as [_ _ _ Hone _]; rewrite Ha in Ha'; unfold asked in Ha';
      apply app_eq_nil in Ha' as [Hd _]; rewrite Hd, Hm', Hm in Hone; by destruct l.
  - right. exists url, taken, received. destruct (served_turn answer _ H5) as [Hsv' Ha'].
    destruct (Hmade (ms_agent c)) as (l & Hm' & Hi').
    set (a' := agent_move (Turn answer) (ms_agent c)) in *. clearbody a'. clear Hmade.
    split; simpl; try done; [by rewrite Ha'|].
    by rewrite Hm', Hi', H4, app_assoc.
Qed.

Lemma mail_run_ok s0 s : mail_untouched s0 -> rtc mail_step s0 s -> mail_ok (mn_given s) (mn_sender s).
Proof.
  intros (Hst & Hp & H0 & Hg & Ha) Hrun. assert (mail_ok (mn_given s0) (mn_sender s0)) as Hok.
  { left. split; rewrite ?Ha; [done|by rewrite Hp|done..|apply served_new]. }
  clear Hst Hp H0 Hg Ha. induction Hrun as [s|s1 s2 s3 Hs _ IH]; [done|]. apply IH. clear IH.
  destruct Hs as [c given ctx f r Hcall Hr|answer c given|c given m r Hp|c given m r Hp|c given|c given m sin Hp]; simpl in *.
  - destruct (mail_call given c ctx Hok) as (f' & r' & Hcall' & H). rewrite Hcall in Hcall'. injection Hcall' as <- <-.
    by destruct r.
  - by apply mail_turn_ok.
  - destruct Hok as [[]|(url & taken & received & [])]; [left|right; exists url, taken, received]; by split.
  - pose proof (ring_push_items m (ms_inn c)) as H. rewrite Hp in H. simpl in H.
    pose proof (ring_push_res m (ms_inn c)) as Hres. rewrite Hp in Hres. simpl in Hres. destruct (_ <? _)%nat; [|done].
    destruct Hok as [[]|(url & taken & received & [])]; [left|right; exists url, taken, received];
      split; simpl; try done; subst given; by rewrite H, <- ?app_assoc.
  - destruct Hok as [[]|(url & taken & received & [])]; [left|right; exists url, taken, received];
      split; simpl; rewrite ?ring_drop_producer_items; done.
  - destruct Hok as [[]|(url & taken & received & [])]; [left|right; exists url, taken, received]; by split.
Qed.
End mail.

Section ends.
Context `{R : Rtrb} {Conf Op : Type}.
Variable url_parse : string -> result FullUrl string.
Variable k : MailKind Conf Op.

(** C37: IMAPAppend, IMAPMoveCopy and IMAPDelete end when everything is done.
    Along every run, every call returns or unwinds; if it finishes the component,
    although no "stop" was waiting and the thread has not reported a failure, all
    packets that ever came have been taken, and the server has done all that they
    ask for, in order and with success, after the login. *)
Theorem imap_ends_when_done s0 s ctx :
  mail_untouched s0 -> rtc (mail_step url_parse k) s0 s ->
  exists f r, call (mail_process url_parse k) (mn_sender s) ctx = Some (f, r) /\
    (r = Some Finished -> ~ stop_next message_as_utf8 (get ms_l_signals (mn_sender s)) ->
     Forall (fun r => ~ failing r) (mp_items (ag_res (ms_agent (mn_sender s)))) ->
     ring_items (ms_inn (fr_self f)) = [] /\
     exists url w, ag_worker (ms_agent (fr_self f)) = Some w /\
       log_of url_parse k url (omap (mk_operation k (mk_configure k url)) (mn_given s)) = Some w).
Proof.
  intros H0 Hr. destruct (mail_call url_parse k (mn_given s) (mn_sender s) ctx) as (f & r & Hcall & H);
    [by apply (mail_run_ok url_parse k s0)|].
  exists f, r. split; [exact Hcall|]. intros -> Hs Hf. destruct H as [H|[H|(Hi & url & w & Hl & Hw)]]; [done| |].
  - apply Exists_exists in H as (x & Hx & Hfx). rewrite Forall_forall in Hf. by destruct (Hf x Hx).
  - split; [done|]. by exists url, w.
Qed.
End ends.

(** Copying a message deletes it from where it was, as moving does. *)
Lemma copy_is_move uid mailbox :
  movecopy_server_ops (mk_MoveCopyOp uid mailbox true) = movecopy_server_ops (mk_MoveCopyOp uid mailbox false).
Proof. done. Qed.

(** * Fetching *)

Section fetch.
Context `{R : Rtrb} {Conf M : Type}.
Variable url_parse : string -> result FullUrl string.
Variable k : FetchKind Conf M.
#[local] Instance fetch_main : AgentThread (FetchThread Conf) (FetchCommand Conf) (FetchResult M) FetchAnswer :=
  fetch_worker_loop url_parse k.
Abbreviation Fetcher := (Fetcher Conf M).
Abbreviation FetchAgent := (Agent (FetchThread Conf) (FetchCommand Conf) (FetchResult M)).
Implicit Types (c : Fetcher) (f : frame Fetcher) (a : FetchAgent).

Definition messages_of (r : FetchResult M) : list M := match r with FetchMessages ms => ms | _ => [] end.
Definition packets_of (rs : list (FetchResult M)) : list FbpMessage :=
  map (fun m => from_bytes (fk_bytes k m)) (concat (map messages_of rs)).

(** What is under way: nothing; a login, with what the thread says then; or a
    poll, with its one result. *)
Definition quiet a : Prop := mp_items (ag_cmd a) = [] /\ mp_items (ag_res a) ++ ag_sending a = [].
Definition polling a : Prop :=
  (mp_items (ag_cmd a) = [FetchPoll] /\ mp_items (ag_res a) ++ ag_sending a = []) \/
  (mp_items (ag_cmd a) = [] /\ exists r, mp_items (ag_res a) ++ ag_sending a = [r] /\ r <> FetchConnected).
Definition connecting a : Prop :=
  (exists config, mp_items (ag_cmd a) = [FetchConnect config] /\ mp_items (ag_res a) ++ ag_sending a = []) \/
  (mp_items (ag_cmd a) = [] /\ let rs := mp_items (ag_res a) ++ ag_sending a in
     (exists ms, rs = [FetchMessages ms; FetchConnected]) \/ rs = [FetchConnected] \/ exists e, rs = [FetchFailed e]).
Definition under_way (st : FetchState) (poll_inflight : bool) a : Prop :=
  match st with
  | FetchWaitingForConfig => quiet a
  | FetchConnecting => connecting a
  | FetchActive => if poll_inflight then polling a else quiet a
  | FetchFinished => False
  end.

(** What only the thread's turns change. *)
Definition told_by a := (ag_worker a, ag_sending a, ag_done a, ag_made a).

(** [got] has been taken from OUT; [received] are the results that have been taken
    from the channel; the thread has not moved since [t]. *)
Record fetch_inv t (got : list FbpMessage) (received : list (FetchResult M)) c : Prop := mk_fetch_inv {
  fi_open : open_agent (fe_agent c);
  fi_worker : exists w, ag_worker (fe_agent c) = Some w;
  fi_received : ag_made (fe_agent c) = received ++ mp_items (ag_res (fe_agent c));
  fi_flow : got ++ sink_items (fe_out c) ++ map from_bytes (fe_pending_messages c) = packets_of received;
  fi_under_way : under_way (fe_state c) (fe_poll_inflight c) (fe_agent c);
  fi_told : told_by (fe_agent c) = t
}.
Definition fetch_ok t (got : list FbpMessage) c : Prop := exists received, fetch_inv t got received c.

Lemma packets_of_app rs1 rs2 : packets_of (rs1 ++ rs2) = packets_of rs1 ++ packets_of rs2.
Proof. unfold packets_of. by rewrite map_app, concat_app, map_app. Qed.

(** What the thread says to a poll and to a login. *)
Lemma handle_poll answer w : exists w' r, handle answer FetchPoll w = (Some w', [r]) /\ r <> FetchConnected.
Proof.
  unfold handle, fetch_main, fetch_worker_loop. destruct (ft_session w) as [config|]; [|by eexists _, _].
  unfold fetch_poll, imap_bind, imap_op, imap_ret. destruct (fa_idle answer) as [[]|e]; [|by eexists _, _..].
  destruct (fk_fetch k config answer _) as [[ms|e] log]; by eexists _, _.
Qed.
Lemma handle_connect answer config w : exists w' rs, handle answer (FetchConnect config) w = (Some w', rs) /\
  ((exists ms, rs = [FetchMessages ms; FetchConnected]) \/ rs = [FetchConnected] \/ exists e, rs = [FetchFailed e]).
Proof.
  unfold handle, fetch_main, fetch_worker_loop. destruct (login_and_connect _ _ _ _) as [[mailbox|e] log].
  - unfold fetch_connected. destruct (fk_fetch k config answer log) as [r log'].
    destruct (match r with Ok _ => _ | Err _ => _ end) as [|m ms]; eexists _, _; (split; [done|]); [by right; left|left; by eexists].
  - eexists _, _. split; [done|]. right. right. by eexists.
Qed.

Lemma turn_under_way answer a st inflight :
  open_agent a -> (exists w, ag_worker a = Some w) -> under_way st inflight a ->
  let a' := agent_move (Turn answer) a in
  open_agent a' /\ (exists w, ag_worker a' = Some w) /\ under_way st inflight a'.
Proof.
  intros Ho (w & Hw) Hu. cbn zeta. rewrite open_turn by done. pose proof Ho as [Hb Ha Hrb Hra Htx].
  destruct (ag_sending a) as [|r rest] eqn:Hs.
  - rewrite Hw. destruct (mp_items (ag_cmd a)) as [|cmd items] eqn:Hi; [by split_and!; [|eexists|]|].
    assert (mp_items (ag_res a) = []) as Hr0.
    { destruct st; simpl in Hu; [by destruct Hu as [Hu _]; rewrite Hi in Hu| | |done].
      - destruct Hu as [(config & _ & Hu)|[Hu _]]; [by apply app_eq_nil in Hu as [? _]|by rewrite Hi in Hu].
      - destruct inflight; [|by destruct Hu as [Hu _]; rewrite Hi in Hu].
        destruct Hu as [(_ & Hu)|[Hu _]]; [by apply app_eq_nil in Hu as [? _]|by rewrite Hi in Hu]. }
    destruct st; simpl in Hu; [by destruct Hu as [Hu _]; rewrite Hi in Hu| | |done].
    + destruct Hu as [(config & Hu & _)|[Hu _]]; [|by rewrite Hi in Hu]. rewrite Hi in Hu. injection Hu as -> ->.
      destruct (handle_connect answer config w) as (w' & rs & -> & Hrs). simpl. split_and!; [by split|by eexists|]. right.
      split; [done|]. simpl. by rewrite Hr0.
    + destruct inflight; [|by destruct Hu as [Hu _]; rewrite Hi in Hu].
      destruct Hu as [(Hu & _)|[Hu _]]; [|by rewrite Hi in Hu]. rewrite Hi in Hu. injection Hu as -> ->.
      destruct (handle_poll answer w) as (w' & r & -> & Hr). simpl. split_and!; [by split|by eexists|]. right.
      split; [done|]. exists r. simpl. by rewrite Hr0.
  - split_and!; [by split|by eexists|]. destruct st; simpl in *; unfold quiet, connecting, polling in *; simpl;
      rewrite <- ?app_assoc; simpl; try destruct inflight; try done; by rewrite Hs in Hu.
Qed.

Section calls.
Variable t : option (FetchThread Conf) * list (FetchResult M) * list (FetchCommand Conf) * list (FetchResult M).
Variable got : list FbpMessage.
Abbreviation ok f := (fetch_ok t got (fr_self f)).

(** The next result, and what is under way after it. *)
Lemma under_way_received st inflight a r rest :
  under_way st inflight a -> mp_items (ag_res a) = r :: rest ->
  match r with
  | FetchConnected => under_way FetchActive false (with_results rest a)
  | FetchMessages _ | FetchIdleTimeout => under_way st false (with_results rest a)
  | _ => True
  end.
Proof.
  intros Hu Hi. destruct st; simpl in Hu.
  - destruct Hu as [_ Hu]. by rewrite Hi in Hu.
  - unfold connecting in Hu. rewrite Hi in Hu. destruct Hu as [(config & _ & Hu)|[Hc Hu]]; [done|]. simpl in Hu.
    destruct Hu as [(ms & Hu)|[Hu|(e & Hu)]]; injection Hu as -> Hu; [|by split|done].
    right. split; [done|]. right. by left.
  - destruct inflight; [|by destruct Hu as [_ Hu]; rewrite Hi in Hu]. unfold polling in Hu. rewrite Hi in Hu.
    destruct Hu as [[_ Hu]|[Hc (r' & Hu & Hr)]]; [done|]. injection Hu as -> Hu. destruct r'; try done.
  - done.
Qed.

Lemma wp_fetch_results_fuel fuel : forall f (Q : unit -> frame Fetcher -> Prop) (E : exit -> frame Fetcher -> Prop),
  ok f -> (length (mp_items (ag_res (fe_agent (fr_self f)))) < fuel)%nat ->
  (forall f', ok f' -> Q tt f') -> (forall f', E (Return Finished) f') -> wp (fetch_results_fuel k fuel) Q E f.
Proof.
  induction fuel as [|fuel IH]; intros f Q E (received & [Ho Hw Hr Hf Hu Htold]) Hlen HQ HE; [lia|]. cbn [fetch_results_fuel].
  apply wp_bind, wp_result_open; simpl.
  - intros r rest Hi. pose proof (under_way_received _ _ _ _ _ Hu Hi) as Hu'. rewrite Hi in Hlen. simpl in Hlen.
    assert (open_agent (with_results rest (fe_agent (fr_self f)))) as Ho' by (by destruct Ho).
    assert (forall g, fe_out (fr_self g) = fe_out (fr_self f) -> fe_agent (fr_self g) = with_results rest (fe_agent (fr_self f)) ->
      map from_bytes (fe_pending_messages (fr_self g)) = map from_bytes (fe_pending_messages (fr_self f)) ++ packets_of [r] ->
      under_way (fe_state (fr_self g)) (fe_poll_inflight (fr_self g)) (with_results rest (fe_agent (fr_self f))) ->
      wp (work 1;; fetch_results_fuel k fuel) Q E g) as Hgo.
    { intros g Hg1 Hg2 Hg3 Hg4. wp_run. apply IH; simpl; [|rewrite Hg2; simpl; lia|done|done]. exists (received ++ [r]).
      split; simpl; rewrite ?Hg1, ?Hg2, ?Hg3; simpl; try done.
      - by rewrite Hr, Hi, <- app_assoc.
      - by rewrite packets_of_app, <- Hf, <- !app_assoc. }
    destruct r as [|ms| |e|]; unfold fetch_finish.
    + apply wp_bind, wp_write, wp_bind, wp_write, Hgo; simpl; [done|done|by rewrite app_nil_r|done].
    + apply wp_bind, wp_read, wp_bind, wp_write, wp_bind, wp_write, Hgo; simpl; [done|done| |done].
      unfold packets_of. simpl. by rewrite app_nil_r, map_app, map_map.
    + apply wp_bind, wp_write, Hgo; simpl; [done|done|by rewrite app_nil_r|done].
    + wp_run. apply HE.
    + wp_run. apply HE.
  - intros H0 r Hr0. assert (with_results [] (fe_agent (fr_self f)) = fe_agent (fr_self f)) as Hsame.
    { unfold with_results. destruct (fe_agent (fr_self f)) as [cmd res w snd dn md]. simpl in *. f_equal. unfold with_items. rewrite <- H0. by destruct res. }
    rewrite Hsame. destruct r; [by destruct (Hr0 t0)|..]; wp_run; apply HQ; exists received; by split.
Qed.

Lemma wp_output_messages pending : forall f (Q : unit -> frame Fetcher -> Prop) E,
  ok f -> fe_pending_messages (fr_self f) = pending -> (forall f', ok f' -> Q tt f') -> wp (output_messages pending) Q E f.
Proof.
  induction pending as [|msg rest IH]; intros f Q E Hok Hp HQ; cbn [output_messages]; [by apply wp_ret, HQ|].
  apply wp_bind, wp_budget. destruct (N.ltb_spec 0 (remaining_budget (fr_ctx f))) as [Hb|_]; [|by apply wp_ret, HQ].
  destruct Hok as (received & [Ho Hw Hr Hf Hu Htold]). apply wp_bind, wp_send; simpl.
  - intros _ o es Hs _. wp_run. apply IH; simpl; [|done|done]. exists received. split; simpl; try done.
    rewrite (sent_items _ _ _ _ Hs), <- Hf, Hp. by rewrite <- app_assoc.
  - intros _ o Hs. apply wp_ret, HQ. exists received. split; simpl; try done. by rewrite (sent_items _ _ _ _ Hs), app_nil_r.
Qed.

(** A command, when nothing is under way. *)
Lemma wp_fetch_command cmd f (Q : bool -> frame Fetcher -> Prop) E :
  ok f -> Q true (with_self (set fe_l_agent (with_command cmd (fe_agent (fr_self f))) (fr_self f)) f) ->
  wp (fetch_command url_parse k cmd) Q E f.
Proof. intros (received & [Ho Hw Hr Hf Hu Htold]) HQ. by apply wp_command_open. Qed.

Lemma wp_fetch_check_signals f (Q : unit -> frame Fetcher -> Prop) (E : exit -> frame Fetcher -> Prop) :
  ok f -> (forall f', ok f' -> Q tt f') -> (forall f', E (Return Finished) f') -> wp (fetch_check_signals url_parse k) Q E f.
Proof.
  intros Hok HQ HE. unfold fetch_check_signals. apply wp_stop_signal; simpl.
  - intros _ sg _. apply HQ. destruct Hok as (received & []). by exists received.
  - intros _ sg _. apply wp_bind, wp_fetch_command; [destruct Hok as (received & []); by exists received|]. wp_run. apply HE.
Qed.

Lemma wp_fetch_connect config f (Q : unit -> frame Fetcher -> Prop) E :
  ok f -> fe_state (fr_self f) = FetchWaitingForConfig ->
  (forall f', (forall b, ok (with_self (set fe_l_poll_inflight b (fr_self f')) f')) -> ok f' -> Q tt f') ->
  wp (fetch_connect url_parse k config) Q E f.
Proof.
  intros Hok Hst HQ. unfold fetch_connect. apply wp_bind, wp_fetch_command; [done|]. wp_run.
  destruct Hok as (received & [Ho Hw Hr Hf Hu Htold]). rewrite Hst in Hu. destruct Hu as [Hc Hq].
  assert (connecting (with_command (FetchConnect config) (fe_agent (fr_self f)))) as Hcon
    by (left; exists config; split; [simpl; by rewrite Hc|done]).
  pose proof (open_with_command (FetchConnect config) _ Ho) as Ho'.
  apply HQ; [intros b|]; exists received; by split.
Qed.

Lemma wp_fetch_poll_again f (Q : unit -> frame Fetcher -> Prop) E :
  ok f -> fe_state (fr_self f) = FetchActive -> fe_poll_inflight (fr_self f) = false ->
  (forall f', ok f' -> Q tt f') -> wp (fetch_poll_again url_parse k) Q E f.
Proof.
  intros Hok Hst Hp HQ. unfold fetch_poll_again. apply wp_bind, wp_fetch_command; [done|]. wp_run. apply HQ.
  destruct Hok as (received & [Ho Hw Hr Hf Hu Htold]). rewrite Hst, Hp in Hu. destruct Hu as [Hc Hq].
  pose proof (open_with_command FetchPoll _ Ho) as Ho'. exists received. split; simpl; try done. rewrite Hst. left. split; [simpl; by rewrite Hc|done].
Qed.

(** The end of a call. *)
Definition fetch_returns (r : ProcessResult) f : Prop := r = Finished \/ ok f.
Lemma wp_fetch_end f (E : exit -> frame Fetcher -> Prop) : ok f -> wp fetch_end fetch_returns E f.
Proof.
  intros Hok. unfold fetch_end. apply wp_bind, wp_read, wp_bind.
  destruct (bool_decide _); wp_run; right; destruct Hok as (received & []); by exists received.
Qed.
End calls.

(** ** What the server has answered *)

(** The messages that an answer to a fetch has with their number and their body,
    provided that the search has found some and that nothing failed. *)
Definition unread (delete : bool) (answer : FetchAnswer) : list (string * list byte) :=
  match fa_search answer, fa_fetch answer with
  | Ok ((_ :: _) as uids), Ok messages =>
      match (if delete then fa_op answer (OpStoreDeleted (String.concat "," (map pretty (merge_sort N.le uids)))) else Ok tt) with
      | Ok _ => omap (fun message => uid ← message.1; body ← message.2; Some (pretty uid, body)) messages
      | Err _ => []
      end
  | _, _ => []
  end.
(** The configurations that have messages marked as deleted. *)
Variable delete : Conf -> bool.
Hypothesis fetches : forall config answer log,
  match (fk_fetch k config answer log).1 with Ok ms => ms | Err _ => [] end = unread (delete config) answer.

Definition logged_in (config : Conf) (answer : FetchAnswer) : bool :=
  match (login_and_connect url_parse (fa_op answer) (fk_url k config) []).1 with Ok _ => true | Err _ => false end.
(** What one command and its answer add: the messages after a login and whenever
    the mailbox has changed, each as its configuration wants it. *)
Definition heard (acc : option Conf * list M) (x : FetchCommand Conf * FetchAnswer) : option Conf * list M :=
  let found config := map (fk_message k config) (unread (delete config) x.2) in
  match x.1, acc.1, fa_idle x.2 with
  | FetchConnect config, _, _ => if logged_in config x.2 then (Some config, acc.2 ++ found config) else acc
  | FetchPoll, Some config, Ok MailboxChanged => (acc.1, acc.2 ++ found config)
  | _, _, _ => acc
  end.
Definition found (l : list (FetchCommand Conf * FetchAnswer)) : option Conf * list M := foldl heard (None, []) l.

Lemma login_log answer url log log' :
  match (login_and_connect url_parse answer url log).1 with Ok _ => true | Err _ => false end =
  match (login_and_connect url_parse answer url log').1 with Ok _ => true | Err _ => false end.
Proof. unfold login_and_connect, imap_bind, imap_op, imap_ret, imap_fail. by repeat case_match; simplify_eq/=. Qed.

Lemma handle_heard answer cmd w w' rs ms :
  handle answer cmd w = (w', rs) ->
  let new := heard (ft_session w, ms) (cmd, answer) in
  (forall w', handle answer cmd w = (Some w', rs) -> ft_session w' = new.1) /\ new.2 = ms ++ concat (map messages_of rs).
Proof.
  unfold handle, fetch_main, fetch_worker_loop, heard, logged_in. destruct cmd as [config| |]; simpl.
  - pose proof (login_log (fa_op answer) (fk_url k config) (ft_log w) []) as Hlog.
    destruct (login_and_connect url_parse (fa_op answer) (fk_url k config) (ft_log w)) as [[mailbox|e] log]; simpl in Hlog; rewrite <- Hlog; simpl.
    + unfold fetch_connected. pose proof (fetches config answer log) as Hf. destruct (fk_fetch k config answer log) as [r log']. simpl in Hf.
      unfold fetch_messages. replace (match r with Ok messages => map (fk_message k config) messages | Err _ => [] end)
        with (map (fk_message k config) (unread (delete config) answer)) by (rewrite <- Hf; by destruct r).
      intros [= <- <-]. split; [by intros ? [= <-]|]. f_equal.
      destruct (map (fk_message k config) (unread (delete config) answer)); simpl; by rewrite ?app_nil_r.
    + intros [= <- <-]. split; [by intros ? [= <-]|]. by rewrite app_nil_r.
  - destruct (ft_session w) as [config|] eqn:Hw; simpl.
    2: { intros [= <- <-]. split; [by intros ? [= <-]|by rewrite app_nil_r]. }
    unfold fetch_poll, imap_bind, imap_op, imap_ret. destruct (fa_idle answer) as [[]|e]; simpl;
      try (intros [= <- <-]; split; [by intros ? [= <-]|by rewrite app_nil_r]).
    pose proof (fetches config answer (ft_log w ++ [OpIdle])) as Hf.
    destruct (fk_fetch k config answer _) as [[ms'|e] log]; simpl in Hf; intros [= <- <-]; (split; [by intros ? [= <-]|]);
      rewrite <- Hf; simpl; by rewrite ?app_nil_r.
  - intros [= <- <-]. split; [done|]. by rewrite app_nil_r.
Qed.

(** What the thread has said, and is saying, is what was found. *)
Definition answered (l : list (FetchCommand Conf * FetchAnswer)) a : Prop :=
  (forall w, ag_worker a = Some w -> ft_session w = (found l).1) /\
  concat (map messages_of (ag_made a ++ ag_sending a)) = (found l).2.
(** The command that a turn handles, if it handles one. *)
Definition handled (answer : FetchAnswer) a : list (FetchCommand Conf * FetchAnswer) :=
  match ag_sending a, ag_worker a, mp_items (ag_cmd a) with [], Some _, cmd :: _ => [(cmd, answer)] | _, _, _ => [] end.

Lemma answered_told l a a' : told_by a' = told_by a -> answered l a -> answered l a'.
Proof. intros [= H1 H2 H3 H4] [H5 H6]. split; by rewrite ?H1, ?H2, ?H4. Qed.

Lemma answered_turn l answer a :
  open_agent a -> answered l a -> answered (l ++ handled answer a) (agent_move (Turn answer) a).
Proof.
  intros Ho Hans. pose proof Hans as [Hw Hm]. rewrite open_turn by done. unfold handled. destruct (ag_sending a) as [|r rest] eqn:Hs.
  - destruct (ag_worker a) as [w|] eqn:Hwa; [|by rewrite app_nil_r].
    destruct (mp_items (ag_cmd a)) as [|cmd items]; [by rewrite app_nil_r|].
    destruct (handle answer cmd w) as [w' rs] eqn:Hh. rewrite ?Hs, app_nil_r in Hm.
    destruct (handle_heard answer cmd w w' rs (found l).2 Hh) as [H1 H2].
    assert (heard (ft_session w, (found l).2) (cmd, answer) = found (l ++ [(cmd, answer)])) as Hf.
    { unfold found. rewrite foldl_snoc. f_equal. rewrite (Hw w eq_refl). unfold found. by destruct (foldl heard _ l). }
    unfold answered. rewrite <- Hf. split; simpl.
    + intros w2 ->. by apply H1.
    + by rewrite map_app, concat_app, Hm, H2.
  - rewrite app_nil_r. split; simpl; [exact Hw|]. by rewrite <- Hm, ?Hs, <- app_assoc.
Qed.

(** ** Runs

    A component, what has been taken from its outport, and what the server has
    answered to the commands that the thread has handled. *)
Variable process : proc Fetcher ProcessResult.
Record FetchRun : Type := mk_FetchRun {
  fn_fetcher : Fetcher;
  fn_got : list FbpMessage;
  fn_answers : list (FetchCommand Conf * FetchAnswer)
}.

Inductive fetch_step : FetchRun -> FetchRun -> Prop :=
| fetch_called c got l ctx f r :
    call process c ctx = Some (f, Some r) -> r <> Finished -> fetch_step (mk_FetchRun c got l) (mk_FetchRun (fr_self f) got l)
| fetch_turns answer c got l :
    fetch_step (mk_FetchRun c got l)
      (mk_FetchRun (set fe_l_agent (agent_move (Turn answer) (fe_agent c)) c) got (l ++ handled answer (fe_agent c)))
| fetch_configured c got l m r :
    ring_push m (fe_conf c) = (Ok tt, r) -> fetch_step (mk_FetchRun c got l) (mk_FetchRun (set fe_l_conf r c) got l)
| fetch_signalled c got l m sin :
    try_send m (fe_signals_in c) = (Ok tt, sin) ->
    fetch_step (mk_FetchRun c got l) (mk_FetchRun (set fe_l_signals (mk_Signals sin (fe_signals_out c)) c) got l)
| fetch_got c got l m r :
    ring_pop (pes_sink (fe_out c)) = (Some m, r) ->
    fetch_step (mk_FetchRun c got l) (mk_FetchRun (set fe_l_out (set_sink r (fe_out c)) c) (got ++ [m]) l).

Definition fetch_untouched (s : FetchRun) : Prop :=
  let c := fn_fetcher s in
  fe_state c = FetchWaitingForConfig /\ fe_pending_messages c = [] /\ fn_got s = [] /\ sink_items (fe_out c) = [] /\
  fe_agent c = mk_Agent channel channel (Some (mk_FetchThread None [])) [] [] [] /\ fn_answers s = [].

(** Every call ends and keeps what is known, unless it finishes or unwinds. *)
Definition fetch_calls : Prop := forall t got c ctx, fetch_ok t got c ->
  exists f r, call process c ctx = Some (f, r) /\ match r with Some r => fetch_returns t got r f | None => True end.
Hypothesis calls : fetch_calls.

Definition fetch_run_inv (s : FetchRun) : Prop :=
  (exists t, fetch_ok t (fn_got s) (fn_fetcher s)) /\ answered (fn_answers s) (fe_agent (fn_fetcher s)).

Lemma fetch_turn_ok answer t got c : fetch_ok t got c ->
  open_agent (fe_agent c) /\ exists t', fetch_ok t' got (set fe_l_agent (agent_move (Turn answer) (fe_agent c)) c).
Proof.
  intros (received & [Ho Hw Hr Hf Hu _]). split; [done|]. destruct (turn_under_way answer _ _ _ Ho Hw Hu) as (Ho' & Hw' & Hu').
  destruct (told_made _ _ _ (told_move (Turn answer) (fe_agent c))) as (l & Hm & Hi).
  set (a' := agent_move (Turn answer) (fe_agent c)) in *. exists (told_by a'). clearbody a'. exists received.
  split; simpl; try done. by rewrite Hm, Hi, Hr, app_assoc.
Qed.

Lemma fetch_run_ok s0 s : fetch_untouched s0 -> rtc fetch_step s0 s -> fetch_run_inv s.
Proof.
  intros (Hst & Hp & Hg & Ho & Ha & Hl) Hrun. assert (fetch_run_inv s0) as Hok.
  { split.
    - eexists _, []. rewrite Hg. split; rewrite ?Ha, ?Ho, ?Hp, ?Hst; [by split|by eexists|done..].
    - rewrite Ha, Hl. split; [by intros w [= <-]|done]. }
  clear Hst Hp Hg Ho Ha Hl. induction Hrun as [s|s1 s2 s3 Hs _ IH]; [done|]. apply IH. clear IH. destruct Hok as [[t Hok] Hl0].
  destruct Hs as [c got l ctx f r Hcall Hr|answer c got l|c got l m r Hp|c got l m sin Hp|c got l m r Hp]; simpl in *.
  - destruct (calls t got c ctx Hok) as (f' & r' & Hcall' & H). rewrite Hcall in Hcall'. injection Hcall' as <- <-.
    destruct H as [|H]; [done|]. split; [by exists t|]. simpl. eapply answered_told; [|exact Hl0].
    destruct H as (r1 & H1), Hok as (r2 & H2). exact (eq_trans (fi_told _ _ _ _ H1) (eq_sym (fi_told _ _ _ _ H2))).
  - destruct (fetch_turn_ok answer t got c Hok) as [Hop Hok']. split; [done|]. by apply answered_turn.
  - split; [|done]. exists t. destruct Hok as (received & []). by exists received.
  - split; [|done]. exists t. destruct Hok as (received & []). by exists received.
  - split; [|done]. exists t. destruct Hok as (received & [Ho Hw Hr Hf Hu Ht]). exists received.
    split; simpl; try done. rewrite <- Hf, !app_assoc. f_equal. by rewrite (sink_taken _ got _ _ Hp).
Qed.

(** All that was found reaches OUT in order, and there is at most one command
    under way: while one waits, all results have been taken. *)
Definition fetch_delivers (s : FetchRun) : Prop :=
  let c := fn_fetcher s in
  fn_got s ++ sink_items (fe_out c) ++ map from_bytes (fe_pending_messages c) ++ packets_of (mp_items (ag_res (fe_agent c))) ++
      packets_of (ag_sending (fe_agent c)) =
    map (fun m => from_bytes (fk_bytes k m)) (found (fn_answers s)).2 /\
  (mp_items (ag_cmd (fe_agent c)) = [] \/
   exists cmd, mp_items (ag_cmd (fe_agent c)) = [cmd] /\ mp_items (ag_res (fe_agent c)) ++ ag_sending (fe_agent c) = []).

Lemma fetch_ok_delivers s : fetch_run_inv s -> fetch_delivers s.
Proof.
  intros [(t & received & [Ho Hw Hr Hf Hu _]) [_ Ha]]. split.
  - rewrite <- Ha, Hr. change (map (fun m => from_bytes (fk_bytes k m)) (concat (map messages_of ?l))) with (packets_of l).
    rewrite !packets_of_app, <- Hf. by rewrite <- !app_assoc.
  - destruct (fe_state (fn_fetcher s)); simpl in Hu.
    + left. apply Hu.
    + destruct Hu as [(config & Hu & Hr0)|[Hu _]]; [right; by eexists|by left].
    + destruct (fe_poll_inflight (fn_fetcher s)); [|left; apply Hu].
      destruct Hu as [(Hu & Hr0)|[Hu _]]; [right; by eexists|by left].
    + done.
Qed.
End fetch.

Section processes.
Context `{R : Rtrb}.
Variable url_parse : string -> result FullUrl string.
Variable message_json : string * list byte -> option string.
Abbreviation idle_kind := (imap_fetch_idle_kind message_json).
Abbreviation fetch_kind := (imap_fetch_kind message_json).

Lemma start_results {Conf M} (k : FetchKind Conf M) t got (f : frame (Fetcher Conf M)) (Q : unit -> frame (Fetcher Conf M) -> Prop)
    (E : exit -> frame (Fetcher Conf M) -> Prop) :
  fetch_ok k t got (fr_self f) -> (forall f', fetch_ok k t got (fr_self f') -> Q tt f') -> (forall f', E (Return Finished) f') ->
  wp (fetch_results k) Q E f.
Proof.
  intros Hok HQ HE. unfold fetch_results. apply wp_bind, wp_read. by apply (wp_fetch_results_fuel k t got); [|apply Nat.lt_succ_diag_r|..].
Qed.

Lemma idle_calls : fetch_calls idle_kind (imap_fetch_idle_process url_parse message_json).
Proof.
  intros t got c ctx Hok. apply wp_call. unfold imap_fetch_idle_process.
  apply wp_bind, (wp_fetch_check_signals url_parse idle_kind t got); [done| |by left]. intros f1 H1.
  apply wp_bind, (start_results idle_kind t got); [done| |by left]. intros f2 H2.
  apply wp_bind. unfold fetch_output. apply wp_bind, wp_read, (wp_output_messages idle_kind t got); [done|done|]. intros f3 H3.
  apply wp_bind, wp_read. simpl. apply wp_bind.
  destruct (fe_state (fr_self f3)) eqn:Hst; [| | |by apply wp_leave; left].
  - unfold idle_wait_for_config. apply wp_bind, wp_pop; simpl.
    + intros _ r _. apply wp_ret, wp_fetch_end. destruct H3 as (received & []). by exists received.
    + intros m rest r _ _. destruct (as_text m) as [url|]; [|by apply wp_leave].
      destruct (parse_fetch_config url_parse url) as [config|e]; [|unfold fetch_finish; wp_run; by left].
      apply wp_bind, (wp_fetch_connect url_parse idle_kind t got); [destruct H3 as (received & []); by exists received|done|].
      intros f4 H4 _. apply wp_bind, wp_write, wp_work. simpl. apply wp_fetch_end. exact (H4 true).
  - by apply wp_ret, wp_fetch_end.
  - apply wp_bind, wp_read. simpl. destruct (fe_poll_inflight (fr_self f3)) eqn:Hp; [by apply wp_ret, wp_fetch_end|].
    apply (wp_fetch_poll_again url_parse idle_kind t got); [done..|]. intros f4 H4. by apply wp_fetch_end.
Qed.

Lemma fetch_process_calls : fetch_calls fetch_kind (imap_fetch_process url_parse message_json).
Proof.
  intros t got c ctx Hok. apply wp_call. unfold imap_fetch_process.
  apply wp_bind, (wp_fetch_check_signals url_parse fetch_kind t got); [done| |by left]. intros f1 H1.
  apply wp_bind, (start_results fetch_kind t got); [done| |by left]. intros f2 H2.
  apply wp_bind. unfold fetch_output. apply wp_bind, wp_read, (wp_output_messages fetch_kind t got); [done|done|]. intros f3 H3.
  apply wp_bind, wp_read. simpl. apply wp_bind.
  destruct (fe_state (fr_self f3)) eqn:Hst; [| | |by apply wp_leave; left].
  - unfold fetch_wait_for_config. apply wp_bind, wp_pop; simpl.
    + intros _ r _. apply wp_leave. right. destruct H3 as (received & []). by exists received.
    + intros m rest r _ _. destruct (as_text m) as [url|]; [|by apply wp_leave].
      apply wp_bind, (wp_fetch_connect url_parse fetch_kind t got); [destruct H3 as (received & []); by exists received|done|].
      intros f4 _ H4. apply wp_work, wp_fetch_end. exact H4.
  - apply wp_leave. by right.
  - apply wp_bind, wp_read, wp_bind, wp_read. simpl. destruct (fe_poll_inflight (fr_self f3)) eqn:Hp; simpl; [by apply wp_ret, wp_fetch_end|].
    destruct (bool_decide _); [|by apply wp_ret, wp_fetch_end].
    apply (wp_fetch_poll_again url_parse fetch_kind t got); [done..|]. intros f4 H4. by apply wp_fetch_end.
Qed.

Lemma idle_fetches config answer log :
  match (fk_fetch idle_kind config answer log).1 with Ok ms => ms | Err _ => [] end = unread (fg_delete config) answer.
Proof.
  simpl. unfold fetch_unseen_messages_configurable, unread, imap_bind, imap_op, imap_ret.
  destruct (fa_search answer) as [[|u us]|]; simpl; [by destruct (fa_fetch answer)| |done].
  destruct (fa_fetch answer) as [ms|]; simpl; [|done].
  assert (omap (fun message : option N * option (list byte) =>
      match message.1, message.2 with Some uid, Some body => Some (pretty uid, body) | _, _ => None end) ms =
    omap (fun message => uid ← message.1; body ← message.2; Some (pretty uid, body)) ms) as Heq.
  { clear. induction ms as [|[[uid|] [body|]] ms IH]; simpl; [done|..]; by rewrite ?IH. }
  destruct (fg_delete config); [destruct (fa_op answer _)|]; first [done|exact Heq].
Qed.

Lemma fetch_fetches config answer log :
  match (fk_fetch fetch_kind config answer log).1 with Ok ms => ms | Err _ => [] end = unread false answer.
Proof. exact (idle_fetches (mk_FetchConfig "" false true true) answer log). Qed.

(** C38: IMAPFetchIdle and IMAPFetch deliver what the server has answered.  Along
    every run that has not finished: what has been sent on OUT, what waits for
    room, and what the thread has said or is saying, are together the messages
    that the answers to its fetches have with a number and a body, one after the
    other and in order: after a login, and whenever the mailbox has changed, and
    nothing where a part of a fetch (for IMAPFetchIdle, also the marking as
    deleted) has failed; at most one command is under way, and while it waits, all
    results have been taken; and every call returns or unwinds. *)
Theorem imap_fetch_delivers :
  (forall s0 s ctx, fetch_untouched s0 ->
     rtc (fetch_step url_parse idle_kind (imap_fetch_idle_process url_parse message_json)) s0 s ->
     fetch_delivers url_parse idle_kind fg_delete s /\
     is_Some (call (imap_fetch_idle_process url_parse message_json) (fn_fetcher s) ctx)) /\
  (forall s0 s ctx, fetch_untouched s0 ->
     rtc (fetch_step url_parse fetch_kind (imap_fetch_process url_parse message_json)) s0 s ->
     fetch_delivers url_parse fetch_kind (fun _ => false) s /\
     is_Some (call (imap_fetch_process url_parse message_json) (fn_fetcher s) ctx)).
Proof.
  split; intros s0 s ctx H0 Hr.
  - pose proof (fetch_run_ok url_parse idle_kind fg_delete idle_fetches _ idle_calls s0 s H0 Hr) as Hok.
    split; [by apply fetch_ok_delivers|]. destruct Hok as [[t Hok] _]. by destruct (idle_calls _ _ _ ctx Hok) as (f & r & -> & _).
  - pose proof (fetch_run_ok url_parse fetch_kind (fun _ => false) fetch_fetches _ fetch_process_calls s0 s H0 Hr) as Hok.
    split; [by apply fetch_ok_delivers|]. destruct Hok as [[t Hok] _]. by destruct (fetch_process_calls _ _ _ ctx Hok) as (f & r & -> & _).
Qed.
End processes.

(** * Runs *)
#[local] Existing Instance list_rtrb.

Definition demo_imap_url (url : string) : result FullUrl string :=
  Ok (mk_FullUrl (mk_Url (Some "h") None "/INBOX" [("delete", "true"); ("retrieve", "uid")]) "imaps" "u%40h" (Some "p")).
Definition demo_imap_target : ImapTarget := mk_ImapTarget "h" 993 "u@h" "p" "INBOX".
Definition demo_imap_answer : ImapAnswer := fun _ => Ok tt.
Definition demo_append : MailRun (Conf := ()) (Op := FbpMessage) :=
  mk_MailRun (mk_MailSender (demo_ring false [Text "url"]) (demo_ring false []) demo_channel demo_channel MailWaitingForConfig
    (mk_Agent channel channel (Some (mk_MailThread None [])) [] [] []) [] 0 tt) [].
Abbreviation demo_append_step := (mail_step demo_imap_url imap_append_kind).
Ltac mail_calls := eapply rtc_l; [eapply (mail_called _ _ _ _ (demo_context Normal 8)); [vm_compute; reflexivity|done]|].
Ltac mail_moves := eapply rtc_l; [eapply (mail_turns _ _ demo_imap_answer)|].

Lemma imap_ends_when_done_witness :
  exists s, rtc demo_append_step demo_append s /\ mn_given s = [Bytes [x61]; Bytes [x62]] /\
    exists f r, call (mail_process demo_imap_url imap_append_kind) (mn_sender s) (demo_context Normal 8) = Some (f, r) /\
      r = Some Finished /\
      (mt_log <$> ag_worker (ms_agent (fr_self f))) =
        Some [OpLogin demo_imap_target; OpAppend "INBOX" [x61]; OpAppend "INBOX" [x62]] /\
      exists url w, ag_worker (ms_agent (fr_self f)) = Some w /\
        log_of demo_imap_url imap_append_kind url [Bytes [x61]; Bytes [x62]] = Some w.
Proof.
  assert (exists s f, rtc demo_append_step demo_append s /\ mn_given s = [Bytes [x61]; Bytes [x62]] /\
    sc_items (ms_signals_in (mn_sender s)) = [] /\ mp_items (ag_res (ms_agent (mn_sender s))) = [MailDone] /\
    call (mail_process demo_imap_url imap_append_kind) (mn_sender s) (demo_context Normal 8) = Some (f, Some Finished) /\
    (mt_log <$> ag_worker (ms_agent (fr_self f))) =
      Some [OpLogin demo_imap_target; OpAppend "INBOX" [x61]; OpAppend "INBOX" [x62]])
    as (s & f & Hr & Hg & Hsig & Hres & Hcall & Hlog).
  { eexists _, _. split; [|split_and!].
    - mail_calls. mail_moves. mail_moves. eapply rtc_l; [eapply (mail_given _ _ _ _ (Bytes [x61])); vm_compute; reflexivity|].
      mail_calls. mail_moves. mail_moves. eapply rtc_l; [eapply (mail_given _ _ _ _ (Bytes [x62])); vm_compute; reflexivity|].
      eapply rtc_l; [eapply mail_closed|]. mail_calls. mail_moves. mail_moves. apply rtc_refl.
    - vm_compute. reflexivity.
    - vm_compute. reflexivity.
    - vm_compute. reflexivity.
    - vm_compute. reflexivity.
    - vm_compute. reflexivity. }
  exists s. split; [exact Hr|]. split; [exact Hg|].
  destruct (imap_ends_when_done demo_imap_url imap_append_kind demo_append s (demo_context Normal 8)) as (f' & r & Hcall' & H);
    [by split_and!|exact Hr|].
  rewrite Hcall in Hcall'. injection Hcall' as <- <-. exists f, (Some Finished). split_and!; [exact Hcall|reflexivity|exact Hlog|].
  destruct H as (_ & url & w & Hw & Hl); [reflexivity| | |].
  - unfold stop_next. simpl. rewrite Hsig. intros (m & Hm & _). discriminate Hm.
  - rewrite Hres. repeat constructor. intros [].
  - rewrite Hg in Hl. by exists url, w.
Defined.

(** Two unseen messages are found after the login; their numbers are sent, and
    they are marked as deleted. *)
Definition demo_idle : FetchRun (Conf := FetchConfig) (M := list byte) :=
  mk_FetchRun (mk_Fetcher (demo_ring false [Text "url"]) (demo_out 4) demo_channel demo_channel FetchWaitingForConfig
    (mk_Agent channel channel (Some (mk_FetchThread None [])) [] [] []) [] false) [] [].
Definition demo_fetch_answer : FetchAnswer :=
  mk_FetchAnswer demo_imap_answer (Ok TimedOut) (Ok [12; 7]%N) (Ok [(Some 7%N, Some [x61]); (Some 12%N, Some [x62])]).
Abbreviation demo_idle_step :=
  (fetch_step demo_imap_url (imap_fetch_idle_kind (fun _ => None)) (imap_fetch_idle_process demo_imap_url (fun _ => None))).
Ltac fetch_moves := eapply rtc_l; [eapply (fetch_turns _ _ _ demo_fetch_answer)|].
Ltac fetch_calls_ := eapply rtc_l; [eapply (fetch_called _ _ _ _ _ _ (demo_context Normal 8)); [vm_compute; reflexivity|done]|].

Lemma imap_fetch_delivers_witness :
  exists s, rtc demo_idle_step demo_idle s /\
    sink_items (fe_out (fn_fetcher s)) = [from_bytes (string_bytes "7"); from_bytes (string_bytes "12")] /\
    (ft_log <$> ag_worker (fe_agent (fn_fetcher s))) =
      Some [OpLogin demo_imap_target; OpSearchUnseen; OpFetchBody "7,12"; OpStoreDeleted "7,12"] /\
    (found demo_imap_url (imap_fetch_idle_kind (fun _ => None)) fg_delete (fn_answers s)).2 = [string_bytes "7"; string_bytes "12"] /\
    fetch_delivers demo_imap_url (imap_fetch_idle_kind (fun _ => None)) fg_delete s.
Proof.
  assert (exists s, rtc demo_idle_step demo_idle s /\
    sink_items (fe_out (fn_fetcher s)) = [from_bytes (string_bytes "7"); from_bytes (string_bytes "12")] /\
    (ft_log <$> ag_worker (fe_agent (fn_fetcher s))) =
      Some [OpLogin demo_imap_target; OpSearchUnseen; OpFetchBody "7,12"; OpStoreDeleted "7,12"] /\
    (found demo_imap_url (imap_fetch_idle_kind (fun _ => None)) fg_delete (fn_answers s)).2 = [string_bytes "7"; string_bytes "12"])
    as (s & Hr & Ho & Hl & Hfo).
  { eexists. split; [|split; [|split]].
    - fetch_calls_. fetch_moves. fetch_moves. fetch_moves. fetch_calls_. apply rtc_refl.
    - vm_compute. reflexivity.
    - vm_compute. reflexivity.
    - vm_compute. reflexivity. }
  exists s. split; [exact Hr|]. split; [exact Ho|]. split; [exact Hl|]. split; [exact Hfo|].
  apply (proj1 (imap_fetch_delivers demo_imap_url (fun _ => None)) demo_idle s (demo_context Normal 8)); [by split_and!|exact Hr].
Defined.
