(* ===== verification/Services.v ===== *)
(** Components that have one thing at a time done by a thread of their own:
    [SSHClient] of [src/components/ssh/src/ssh.rs], and [ZeroconfResponder] and
    [ZeroconfBrowser] of [src/components/zeroconf/src/zeroconf.rs], with their
    threads.  What the thread does while a command waits is an argument, as in
    [Agents]; so is what the outside answers to a step of the thread. *)
From S2P Require Import Prelude Api Scheduler Process Pipes Sinks Relays Io Clients Agents.
From Stdlib Require Strings.String.
From Stdlib Require Import NArith ZArith Lia Strings.Byte Strings.Ascii.
From stdpp Require Import base list strings gmap pretty.
Local Open Scope string_scope.
Local Open Scope list_scope.
Local Open Scope flowd_scope.

(** * SSHClient *)

Inductive SshMode : Type := SshOne | SshEach.
Record ParsedSSHConfig : Type := mk_ParsedSSHConfig {
  sh_address_port : string;
  sh_username : option string;
  sh_password : option string;
  sh_private_key_path : option string;
  sh_mode : SshMode;
  sh_retry : bool;
  sh_pipe_out : bool
}.
Inductive SSHCommand : Type :=
| SshConnect (config : ParsedSSHConfig)
| SshExecute (command : string) (input : list byte)
| SshDisconnect.
Inductive SSHResult : Type :=
| SshConnected
| SshOutput (output : list byte)
| SshFailed (message : string).

(** ** Options *)

(** An argument as the parser yields it: an option with its value, if there is
    one, or a free argument. *)
Inductive SshArg : Type :=
| SshLong (name : string) (value : option string)
| SshShort (name : ascii) (value : option string)
| SshValue (val : string).

Record SshOptions : Type := mk_SshOptions {
  so_username : option string;
  so_password : option string;
  so_private_key_path : option string;
  so_mode : SshMode;
  so_retry : bool;
  so_pipe_out : bool;
  so_address_port : option string
}.

(** What parsing leads to: an unwinding, the end of the component, or a value. *)
Inductive parsed (A : Type) : Type := ParseUnwinds | ParseFinishes | Parsed (a : A).
Arguments ParseUnwinds {A}.
Arguments ParseFinishes {A}.
Arguments Parsed {A}.
Definition or_unwind {A B} (o : option A) (k : A -> parsed B) : parsed B :=
  match o with Some a => k a | None => ParseUnwinds end.

Definition so_with_user (u : option string) (o : SshOptions) : SshOptions :=
  mk_SshOptions u (so_password o) (so_private_key_path o) (so_mode o) (so_retry o) (so_pipe_out o) (so_address_port o).
Definition so_with_mode (m : SshMode) (o : SshOptions) : SshOptions :=
  mk_SshOptions (so_username o) (so_password o) (so_private_key_path o) m (so_retry o) (so_pipe_out o) (so_address_port o).
Definition so_with_address (a : string) (o : SshOptions) : SshOptions :=
  mk_SshOptions (so_username o) (so_password o) (so_private_key_path o) (so_mode o) (so_retry o) (so_pipe_out o) (Some a).

Definition ssh_long (name : string) (value : option string) (o : SshOptions) : parsed SshOptions :=
  if String.eqb name "retry" then
    or_unwind (value ≫= parse_bool) (fun retry => Parsed (mk_SshOptions (so_username o) (so_password o) (so_private_key_path o)
      (so_mode o) retry (so_pipe_out o) (so_address_port o)))
  else if String.eqb name "mode" then
    or_unwind value (fun mode_str =>
      if String.eqb mode_str "one" then Parsed (so_with_mode SshOne o)
      else if String.eqb mode_str "each" then Parsed (so_with_mode SshEach o)
      else ParseFinishes)
  else if String.eqb name "user" then or_unwind value (fun user => Parsed (so_with_user (Some user) o))
  else if String.eqb name "pass" then
    or_unwind value (fun pass => Parsed (mk_SshOptions (so_username o) (Some pass) (so_private_key_path o)
      (so_mode o) (so_retry o) (so_pipe_out o) (so_address_port o)))
  else if String.eqb name "pipeout" then
    or_unwind (value ≫= parse_bool) (fun pipe_out => Parsed (mk_SshOptions (so_username o) (so_password o) (so_private_key_path o)
      (so_mode o) (so_retry o) pipe_out (so_address_port o)))
  else ParseFinishes.

(** The address, with or without a user. *)
Definition ssh_value (val : string) (o : SshOptions) : parsed SshOptions :=
  match so_address_port o with
  | Some _ => ParseFinishes
  | None =>
      match str_split "@" val with
      | [_] => Parsed (so_with_address val o)
      | [user; address] => Parsed (so_with_user (Some user) (so_with_address address o))
      | _ => ParseFinishes
      end
  end.

Definition ssh_arg (arg : SshArg) (o : SshOptions) : parsed SshOptions :=
  match arg with
  | SshLong name value => ssh_long name value o
  | SshShort name value =>
      if Ascii.eqb name "i" then
        or_unwind value (fun path => Parsed (mk_SshOptions (so_username o) (so_password o) (Some path)
          (so_mode o) (so_retry o) (so_pipe_out o) (so_address_port o)))
      else ParseFinishes
  | SshValue val => ssh_value val o
  end.

(** What [parser.next()] yields, one after the other; [None] is an error. *)
Fixpoint ssh_args (args : list (option SshArg)) (o : SshOptions) : parsed SshOptions :=
  match args with
  | [] => Parsed o
  | arg :: args =>
      or_unwind arg (fun arg =>
        match ssh_arg arg o with
        | Parsed o => ssh_args args o
        | r => r
        end)
  end.

Definition ssh_config_of (o : SshOptions) : parsed ParsedSSHConfig :=
  match so_address_port o, so_mode o with
  | Some address_port, SshEach =>
      Parsed (mk_ParsedSSHConfig address_port (so_username o) (so_password o) (so_private_key_path o) (so_mode o)
        (so_retry o) (so_pipe_out o))
  | _, _ => ParseFinishes
  end.

(** ** The thread *)

Record SshOutputOf : Type := mk_SshOutputOf { ox_success : bool; ox_code : option Z; ox_stdout : list byte }.
Record SshAnswer : Type := mk_SshAnswer {
  sa_connect : result () string;
  sa_output : result SshOutputOf string
}.

(** The connection: user, key and address; and the commands that have been run. *)
Record SshThread : Type := mk_SshThread {
  st_session : option (option string * option string * string);
  st_commands : list string
}.

Definition connect_ssh (config : ParsedSSHConfig) : option string * option string * string :=
  (sh_username config, sh_private_key_path config, sh_address_port config).

(** What is given as input is not used. *)
Definition execute_command (answer : SshAnswer) (input : list byte) : result (list byte) string :=
  match sa_output answer with
  | Err e => Err e
  | Ok output =>
      if ox_success output then Ok (ox_stdout output)
      else Err ("Command failed with exit code " +:+
                match ox_code output with Some code => "Some(" +:+ pretty code +:+ ")" | None => "None" end)
  end.

#[export] Instance ssh_main : AgentThread SshThread SSHCommand SSHResult SshAnswer :=
  fun answer cmd w =>
    match cmd with
    | SshConnect config =>
        match sa_connect answer with
        | Ok _ => (Some (mk_SshThread (Some (connect_ssh config)) (st_commands w)), [SshConnected])
        | Err e => (Some w, [SshFailed ("Connect failed: " +:+ e)])
        end
    | SshExecute command input =>
        match st_session w with
        | Some _ =>
            (Some (mk_SshThread (st_session w) (st_commands w ++ [command])),
             [match execute_command answer input with
              | Ok output => SshOutput output
              | Err e => SshFailed ("Execute failed: " +:+ e)
              end])
        | None => (Some w, [SshFailed "Not connected"])
        end
    | SshDisconnect => (Some (mk_SshThread None (st_commands w)), [SshFailed "Disconnected"])
    end.

(** ** The component *)

Section ssh.
Context `{R : Rtrb}.
Variable shell_words_split : string -> option (list string).
Variable lexopt_args : list string -> list (option SshArg).
Variable meanwhile : list (AgentMove SshAnswer SSHResult).

Inductive SSHState : Type := SshWaitingForConfig | SshConnecting | SshIsConnected | SshExecuting | SshFinished.

Record SSHClientComponent : Type := mk_SSHClientComponent {
  ss_inn : ring;
  ss_cmd : ring;
  ss_conf : ring;
  ss_out : ProcessEdgeSink;
  ss_signals_in : sync_channel;
  ss_signals_out : sync_channel;
  ss_cmd_config : option string;
  ss_ssh_config : option ParsedSSHConfig;
  ss_state : SSHState;
  ss_agent : Agent SshThread SSHCommand SSHResult
}.

Definition new_ssh_client `{MultiMapLib ring} `{MultiMapLib ProcessEdgeSink} (inports : multimap ring)
    (outports : multimap ProcessEdgeSink) (signals_in signals_out : sync_channel) : outcome SSHClientComponent :=
  let* (inn, inports) := take_port "IN" inports in
  let* (cmd, inports) := take_port "CMD" inports in
  let* (conf, inports) := take_port "CONF" inports in
  let* (out, outports) := take_port "OUT" outports in
  Done (mk_SSHClientComponent inn cmd conf out signals_in signals_out None None SshWaitingForConfig
          (new_agent (mk_SshThread None []))).

Definition ss_l_inn : lens SSHClientComponent ring := mk_lens ss_inn
  (fun x c => mk_SSHClientComponent x (ss_cmd c) (ss_conf c) (ss_out c) (ss_signals_in c) (ss_signals_out c)
     (ss_cmd_config c) (ss_ssh_config c) (ss_state c) (ss_agent c)).
Definition ss_l_cmd : lens SSHClientComponent ring := mk_lens ss_cmd
  (fun x c => mk_SSHClientComponent (ss_inn c) x (ss_conf c) (ss_out c) (ss_signals_in c) (ss_signals_out c)
     (ss_cmd_config c) (ss_ssh_config c) (ss_state c) (ss_agent c)).
Definition ss_l_conf : lens SSHClientComponent ring := mk_lens ss_conf
  (fun x c => mk_SSHClientComponent (ss_inn c) (ss_cmd c) x (ss_out c) (ss_signals_in c) (ss_signals_out c)
     (ss_cmd_config c) (ss_ssh_config c) (ss_state c) (ss_agent c)).
Definition ss_l_out : lens SSHClientComponent ProcessEdgeSink := mk_lens ss_out
  (fun x c => mk_SSHClientComponent (ss_inn c) (ss_cmd c) (ss_conf c) x (ss_signals_in c) (ss_signals_out c)
     (ss_cmd_config c) (ss_ssh_config c) (ss_state c) (ss_agent c)).
Definition ss_l_signals : lens SSHClientComponent Signals := mk_lens
  (fun c => mk_Signals (ss_signals_in c) (ss_signals_out c))
  (fun x c => mk_SSHClientComponent (ss_inn c) (ss_cmd c) (ss_conf c) (ss_out c) (sig_in x) (sig_out x)
     (ss_cmd_config c) (ss_ssh_config c) (ss_state c) (ss_agent c)).
Definition ss_l_cmd_config : lens SSHClientComponent (option string) := mk_lens ss_cmd_config
  (fun x c => mk_SSHClientComponent (ss_inn c) (ss_cmd c) (ss_conf c) (ss_out c) (ss_signals_in c) (ss_signals_out c)
     x (ss_ssh_config c) (ss_state c) (ss_agent c)).
Definition ss_l_ssh_config : lens SSHClientComponent (option ParsedSSHConfig) := mk_lens ss_ssh_config
  (fun x c => mk_SSHClientComponent (ss_inn c) (ss_cmd c) (ss_conf c) (ss_out c) (ss_signals_in c) (ss_signals_out c)
     (ss_cmd_config c) x (ss_state c) (ss_agent c)).
Definition ss_l_state : lens SSHClientComponent SSHState := mk_lens ss_state
  (fun x c => mk_SSHClientComponent (ss_inn c) (ss_cmd c) (ss_conf c) (ss_out c) (ss_signals_in c) (ss_signals_out c)
     (ss_cmd_config c) (ss_ssh_config c) x (ss_agent c)).
Definition ss_l_agent : lens SSHClientComponent (Agent SshThread SSHCommand SSHResult) := mk_lens ss_agent
  (fun x c => mk_SSHClientComponent (ss_inn c) (ss_cmd c) (ss_conf c) (ss_out c) (ss_signals_in c) (ss_signals_out c)
     (ss_cmd_config c) (ss_ssh_config c) (ss_state c) x).

Definition parse_ssh_config (conf_words_str : string) : parsed ParsedSSHConfig :=
  or_unwind (shell_words_split conf_words_str) (fun conf_words =>
    match ssh_args (lexopt_args conf_words) (mk_SshOptions None None None SshEach false false None) with
    | Parsed o => ssh_config_of o
    | ParseFinishes => ParseFinishes
    | ParseUnwinds => ParseUnwinds
    end).

Definition ssh_read_cmd : proc SSHClientComponent ProcessResult :=
  cmd_ip ← pop ss_l_cmd;
  match cmd_ip with
  | None => mret NoWork
  | Some cmd_ip =>
      match as_text cmd_ip with
      | None => panic
      | Some cmd_line => write ss_l_cmd_config (Some cmd_line);; mret (DidWork 1)
      end
  end.

Definition ssh_read_conf : proc SSHClientComponent ProcessResult :=
  conf_vec ← pop ss_l_conf;
  match conf_vec with
  | None => mret NoWork
  | Some conf_vec =>
      match as_text conf_vec with
      | None => panic
      | Some conf_words_str =>
          match parse_ssh_config conf_words_str with
          | ParseUnwinds => panic
          | ParseFinishes => mret Finished
          | Parsed config =>
              write ss_l_ssh_config (Some config);;
              sent ← command ss_l_agent meanwhile (SshConnect config);
              if (sent : bool) then write ss_l_state SshConnecting;; mret (DidWork 1) else mret Finished
          end
      end
  end.

Definition ssh_connecting : proc SSHClientComponent ProcessResult :=
  r ← result_of ss_l_agent;
  match r with
  | Received SshConnected => write ss_l_state SshIsConnected;; mret (DidWork 1)
  | Received (SshFailed _) => mret Finished
  | _ => mret NoWork
  end.

Definition ssh_connected (cmd : string) : proc SSHClientComponent ProcessResult :=
  input ← pop ss_l_inn;
  match input with
  | None => mret NoWork
  | Some input =>
      sent ← command ss_l_agent meanwhile (SshExecute cmd (packet_bytes input));
      if (sent : bool) then write ss_l_state SshExecuting;; mret (DidWork 1) else mret Finished
  end.

Definition ssh_executing : proc SSHClientComponent ProcessResult :=
  r ← result_of ss_l_agent;
  match r with
  | Received (SshOutput output) =>
      res ← send ss_l_out (from_bytes output);
      match res with
      | Ok _ => write ss_l_state SshIsConnected;; mret (DidWork 1)
      | Err _ => mret Finished
      end
  | Received (SshFailed _) => write ss_l_state SshIsConnected;; mret (DidWork 1)
  | _ => mret NoWork
  end.

Definition ssh_process : proc SSHClientComponent ProcessResult :=
  stop_signal message_as_utf8 ss_l_signals (command ss_l_agent meanwhile SshDisconnect;; write ss_l_state SshFinished);;
  cmd_config ← read ss_l_cmd_config;
  match cmd_config with
  | None => ssh_read_cmd
  | Some cmd =>
      ssh_config ← read ss_l_ssh_config;
      if is_none ssh_config then ssh_read_conf
      else
        state ← read ss_l_state;
        match state with
        | SshWaitingForConfig => mret NoWork
        | SshConnecting => ssh_connecting
        | SshIsConnected => ssh_connected cmd
        | SshExecuting => ssh_executing
        | SshFinished => mret Finished
        end
  end.
End ssh.

(** * ZeroconfResponder *)

Record ZeroconfResponderConfig : Type := mk_ZeroconfResponderConfig {
  zr_service_name : string;
  zr_instance_name : string;
  zr_host_name : string;
  zr_address : string;
  zr_port : N
}.
Inductive ZeroconfResponderCommand : Type := ZrRegister (config : ZeroconfResponderConfig) | ZrUnregister.
Inductive ZeroconfResponderResult : Type := ZrRegistered | ZrFailed (message : string).

(** The service that is announced, and whether one is; the answer is that of
    [register_service]. *)
#[export] Instance async_responder_main :
    AgentThread (option ZeroconfResponderConfig) ZeroconfResponderCommand ZeroconfResponderResult (result () string) :=
  fun answer cmd w =>
    match cmd with
    | ZrRegister config =>
        match answer with
        | Ok _ => (Some (Some config), [ZrRegistered])
        | Err e => (Some w, [ZrFailed ("Registration failed: " +:+ e)])
        end
    | ZrUnregister => (None, [])
    end.

Section responder.
Context `{R : Rtrb}.
Variable url_parse : string -> option FullUrl.
Variable meanwhile : list (AgentMove (result () string) ZeroconfResponderResult).

Inductive ZeroconfResponderState : Type := ZrWaitingForConfig | ZrRegistering | ZrIsRegistered | ZrFinished.
Record ZeroconfResponderComponent : Type := mk_ZeroconfResponderComponent {
  zs_conf : ring;
  zs_signals_in : sync_channel;
  zs_signals_out : sync_channel;
  zs_state : ZeroconfResponderState;
  zs_config : option ZeroconfResponderConfig;
  zs_agent : Agent (option ZeroconfResponderConfig) ZeroconfResponderCommand ZeroconfResponderResult
}.

Definition new_zeroconf_responder `{MultiMapLib ring} (inports : multimap ring) (signals_in signals_out : sync_channel) :
    outcome ZeroconfResponderComponent :=
  let* (conf, inports) := take_port "CONF" inports in
  Done (mk_ZeroconfResponderComponent conf signals_in signals_out ZrWaitingForConfig None (new_agent None)).

Definition zs_l_conf : lens ZeroconfResponderComponent ring := mk_lens zs_conf
  (fun x c => mk_ZeroconfResponderComponent x (zs_signals_in c) (zs_signals_out c) (zs_state c) (zs_config c) (zs_agent c)).
Definition zs_l_signals : lens ZeroconfResponderComponent Signals := mk_lens
  (fun c => mk_Signals (zs_signals_in c) (zs_signals_out c))
  (fun x c => mk_ZeroconfResponderComponent (zs_conf c) (sig_in x) (sig_out x) (zs_state c) (zs_config c) (zs_agent c)).
Definition zs_l_state : lens ZeroconfResponderComponent ZeroconfResponderState := mk_lens zs_state
  (fun x c => mk_ZeroconfResponderComponent (zs_conf c) (zs_signals_in c) (zs_signals_out c) x (zs_config c) (zs_agent c)).
Definition zs_l_config : lens ZeroconfResponderComponent (option ZeroconfResponderConfig) := mk_lens zs_config
  (fun x c => mk_ZeroconfResponderComponent (zs_conf c) (zs_signals_in c) (zs_signals_out c) (zs_state c) x (zs_agent c)).
Definition zs_l_agent : lens ZeroconfResponderComponent
    (Agent (option ZeroconfResponderConfig) ZeroconfResponderCommand ZeroconfResponderResult) := mk_lens zs_agent
  (fun x c => mk_ZeroconfResponderComponent (zs_conf c) (zs_signals_in c) (zs_signals_out c) (zs_state c) (zs_config c) x).

(** [None] unwinds. *)
Definition responder_config (url_str : string) : option ZeroconfResponderConfig :=
  url_parse url_str ≫= fun url : FullUrl =>
  instance_name ← strip_slash (url_path url);
  service_name ← query_value "service" url;
  host ← url_host_str url;
  port ← url_port url;
  Some (mk_ZeroconfResponderConfig service_name instance_name (host +:+ ".local.") host port).

Definition responder_configure : proc ZeroconfResponderComponent ProcessResult :=
  conf_vec ← pop zs_l_conf;
  match conf_vec with
  | None => mret NoWork
  | Some conf_vec =>
      match as_text conf_vec ≫= responder_config with
      | None => panic
      | Some config =>
          write zs_l_config (Some config);;
          sent ← command zs_l_agent meanwhile (ZrRegister config);
          if (sent : bool) then write zs_l_state ZrRegistering;; mret (DidWork 1) else mret Finished
      end
  end.

Definition responder_process : proc ZeroconfResponderComponent ProcessResult :=
  stop_signal message_as_utf8 zs_l_signals (command zs_l_agent meanwhile ZrUnregister;; write zs_l_state ZrFinished);;
  state ← read zs_l_state;
  match state with
  | ZrWaitingForConfig => responder_configure
  | ZrRegistering =>
      r ← result_of zs_l_agent;
      match r with
      | Received ZrRegistered => write zs_l_state ZrIsRegistered;; mret (DidWork 1)
      | Received (ZrFailed _) => mret Finished
      | _ => mret NoWork
      end
  | ZrIsRegistered => mret NoWork
  | ZrFinished => mret Finished
  end.
End responder.

(** * ZeroconfBrowser *)

Record ZeroconfBrowserConfig : Type := mk_ZeroconfBrowserConfig { zb_service_name : string; zb_instance_name : string }.
Inductive ZeroconfBrowserCommand : Type := ZbBrowse (config : ZeroconfBrowserConfig) | ZbStop.
Inductive ZeroconfBrowserResult : Type := ZbServiceFound (url : string) | ZbFailed (message : string).

(** Addresses with whether they are of version 6. *)
Record ServiceInfo : Type := mk_ServiceInfo {
  si_fullname : string;
  si_addresses : list (bool * string);
  si_port : N
}.
Inductive ServiceEvent : Type := ServiceResolved (info : ServiceInfo) | OtherServiceEvent.

(** What [start_browse] answers, and the events up to the first time that none
    comes for half a second. *)
Record BrowserAnswer : Type := mk_BrowserAnswer {
  ba_start : result () string;
  ba_events : list ServiceEvent
}.

Definition service_found (event : ServiceEvent) : option ZeroconfBrowserResult :=
  match event with
  | ServiceResolved info =>
      let instance_name_this := default "" (head (str_split "." (si_fullname info))) in
      match si_addresses info with
      | [] => None
      | (is_ipv6, addr) :: _ =>
          let address_str := if (is_ipv6 : bool) then "[" +:+ addr +:+ "]" else addr in
          Some (ZbServiceFound ("tcp://" +:+ address_str +:+ ":" +:+ pretty (si_port info) +:+ "/" +:+ instance_name_this))
      end
  | OtherServiceEvent => None
  end.

(** The state says whether there is a receiver.  Events are looked at after the
    loop over the commands has ended. *)
#[export] Instance async_browser_main : AgentThread bool ZeroconfBrowserCommand ZeroconfBrowserResult BrowserAnswer :=
  fun answer cmd receiver =>
    match cmd with
    | ZbBrowse config =>
        match ba_start answer with
        | Ok _ => (Some true, [])
        | Err e => (Some receiver, [ZbFailed ("Browse failed: " +:+ e)])
        end
    | ZbStop => (None, if (receiver : bool) then omap service_found (ba_events answer) else [])
    end.

Section browser.
Context `{R : Rtrb}.
Variable url_parse : string -> option FullUrl.
Variable meanwhile : list (AgentMove BrowserAnswer ZeroconfBrowserResult).

Inductive ZeroconfBrowserState : Type := ZbWaitingForConfig | ZbBrowsing | ZbFinished.
Record ZeroconfBrowserComponent : Type := mk_ZeroconfBrowserComponent {
  zc_conf : ring;
  zc_out : ProcessEdgeSink;
  zc_signals_in : sync_channel;
  zc_signals_out : sync_channel;
  zc_state : ZeroconfBrowserState;
  zc_config : option ZeroconfBrowserConfig;
  zc_agent : Agent bool ZeroconfBrowserCommand ZeroconfBrowserResult
}.

Definition new_zeroconf_browser `{MultiMapLib ring} `{MultiMapLib ProcessEdgeSink} (inports : multimap ring)
    (outports : multimap ProcessEdgeSink) (signals_in signals_out : sync_channel) : outcome ZeroconfBrowserComponent :=
  let* (conf, inports) := take_port "CONF" inports in
  let* (out, outports) := take_port "OUT" outports in
  Done (mk_ZeroconfBrowserComponent conf out signals_in signals_out ZbWaitingForConfig None (new_agent false)).

Definition zc_l_conf : lens ZeroconfBrowserComponent ring := mk_lens zc_conf
  (fun x c => mk_ZeroconfBrowserComponent x (zc_out c) (zc_signals_in c) (zc_signals_out c) (zc_state c) (zc_config c) (zc_agent c)).
Definition zc_l_out : lens ZeroconfBrowserComponent ProcessEdgeSink := mk_lens zc_out
  (fun x c => mk_ZeroconfBrowserComponent (zc_conf c) x (zc_signals_in c) (zc_signals_out c) (zc_state c) (zc_config c) (zc_agent c)).
Definition zc_l_signals : lens ZeroconfBrowserComponent Signals := mk_lens
  (fun c => mk_Signals (zc_signals_in c) (zc_signals_out c))
  (fun x c => mk_ZeroconfBrowserComponent (zc_conf c) (zc_out c) (sig_in x) (sig_out x) (zc_state c) (zc_config c) (zc_agent c)).
Definition zc_l_state : lens ZeroconfBrowserComponent ZeroconfBrowserState := mk_lens zc_state
  (fun x c => mk_ZeroconfBrowserComponent (zc_conf c) (zc_out c) (zc_signals_in c) (zc_signals_out c) x (zc_config c) (zc_agent c)).
Definition zc_l_config : lens ZeroconfBrowserComponent (option ZeroconfBrowserConfig) := mk_lens zc_config
  (fun x c => mk_ZeroconfBrowserComponent (zc_conf c) (zc_out c) (zc_signals_in c) (zc_signals_out c) (zc_state c) x (zc_agent c)).
Definition zc_l_agent : lens ZeroconfBrowserComponent (Agent bool ZeroconfBrowserCommand ZeroconfBrowserResult) := mk_lens zc_agent
  (fun x c => mk_ZeroconfBrowserComponent (zc_conf c) (zc_out c) (zc_signals_in c) (zc_signals_out c) (zc_state c) (zc_config c) x).

(** [None] unwinds. *)
Definition browser_config (url_str : string) : option ZeroconfBrowserConfig :=
  url_parse url_str ≫= fun url : FullUrl =>
  service_name ← url_host_str url;
  instance_name ← (if String.eqb (url_path url) "" then Some "" else strip_slash (url_path url));
  Some (mk_ZeroconfBrowserConfig service_name instance_name).

Definition browser_configure : proc ZeroconfBrowserComponent ProcessResult :=
  conf_vec ← pop zc_l_conf;
  match conf_vec with
  | None => mret NoWork
  | Some conf_vec =>
      match as_text conf_vec ≫= browser_config with
      | None => panic
      | Some config =>
          write zc_l_config (Some config);;
          sent ← command zc_l_agent meanwhile (ZbBrowse config);
          if (sent : bool) then write zc_l_state ZbBrowsing;; mret (DidWork 1) else mret Finished
      end
  end.

Definition browser_browsing : proc ZeroconfBrowserComponent ProcessResult :=
  r ← result_of zc_l_agent;
  match r with
  | Received (ZbServiceFound url) =>
      res ← send zc_l_out (from_text url);
      mret (match res with Ok _ => DidWork 1 | Err _ => Finished end)
  | Received (ZbFailed _) => mret (DidWork 1)
  | _ => mret NoWork
  end.

Definition browser_process : proc ZeroconfBrowserComponent ProcessResult :=
  stop_signal message_as_utf8 zc_l_signals (command zc_l_agent meanwhile ZbStop;; write zc_l_state ZbFinished);;
  state ← read zc_l_state;
  match state with
  | ZbWaitingForConfig => browser_configure
  | ZbBrowsing => browser_browsing
  | ZbFinished => mret Finished
  end.
End browser.
