(* ===== verification/ServicesTheorems.v ===== *)
(** What is proved about the components that have one thing at a time done: each
    packet of [SSHClient] is one run of the command, whose output is sent before
    the next; [ZeroconfResponder] announces what it says it does; and
    [ZeroconfBrowser] never finds anything. *)
From S2P Require Import Prelude Api Scheduler Process Pipes PipesTheorems Sinks SinksTheorems Io Clients BrokersTheorems Agents AgentsTheorems Services.
From Stdlib Require Strings.String.
From Stdlib Require Import NArith ZArith Lia Strings.Byte.
From stdpp Require Import base list strings gmap.
Local Open Scope string_scope.
Local Open Scope list_scope.
Local Open Scope flowd_scope.

(** * One thing at a time *)

Section one.
Context {W Cmd Res Ext : Type} `{T : !AgentThread W Cmd Res Ext}.
Abbreviation Agent := (Agent W Cmd Res).
Implicit Types (a : Agent).

(** The thread lives, and both channels have room for two. *)
Record roomy a : Prop := mk_roomy {
  ro_cmd_alive : mp_rx_alive (ag_cmd a) = true;
  ro_res_alive : mp_rx_alive (ag_res a) = true;
  ro_cmd : forall n, mp_bound (ag_cmd a) = Some n -> (2 <= n)%nat;
  ro_res : forall n, mp_bound (ag_res a) = Some n -> (2 <= n)%nat;
  ro_worker : is_Some (ag_worker a)
}.

(** Nothing is to be done; or one command, which waits or has been answered. *)
Definition idle a : Prop := mp_items (ag_cmd a) = [] /\ mp_items (ag_res a) ++ ag_sending a = [].
Definition busy (c : Cmd) (P : Res -> Prop) a : Prop :=
  (mp_items (ag_cmd a) = [c] /\ mp_items (ag_res a) ++ ag_sending a = []) \/
  (mp_items (ag_cmd a) = [] /\ exists r, mp_items (ag_res a) ++ ag_sending a = [r] /\ P r).

Definition commanded (c : Cmd) a : Agent :=
  mk_Agent (with_items (mp_items (ag_cmd a) ++ [c]) (ag_cmd a)) (ag_res a) (ag_worker a) (ag_sending a) (ag_done a) (ag_made a).

Lemma not_full {A} (ch : mpsc A) :
  (forall n, mp_bound ch = Some n -> (2 <= n)%nat) -> (length (mp_items ch) <= 1)%nat -> mpsc_full ch = false.
Proof.
  intros Hb Hl. unfold mpsc_full. destruct (mp_bound ch) as [n|]; [|done]. specialize (Hb n eq_refl).
  destruct (Nat.leb_spec n (length (mp_items ch))); [lia|done].
Qed.

Lemma roomy_send moves c a :
  roomy a -> (length (mp_items (ag_cmd a)) <= 1)%nat -> agent_send moves c a = Some (true, commanded c a).
Proof.
  intros [Ha _ Hb _ _] Hl. pose proof (not_full _ Hb Hl) as Hf.
  destruct moves; cbn [agent_send]; unfold mpsc_try_send; by rewrite Ha, Hf.
Qed.

Lemma roomy_commanded c a : roomy a -> roomy (commanded c a).
Proof. by intros []. Qed.

Lemma roomy_put r sending a : roomy a -> mp_items (ag_res a) = [] ->
  put_result r sending a = mk_Agent (ag_cmd a) (with_items [r] (ag_res a)) (ag_worker a) sending (ag_done a) (ag_made a ++ [r]).
Proof.
  intros [_ Ha _ Hb _] Hi. unfold put_result, mpsc_try_send. rewrite Ha, (not_full _ Hb) by (rewrite Hi; simpl; lia).
  simpl. by rewrite Hi.
Qed.

Lemma one_turn (c : Cmd) (P : Res -> Prop) answer a :
  (forall w, exists w' r, handle answer c w = (Some w', [r]) /\ P r) -> roomy a -> idle a \/ busy c P a ->
  let a' := agent_move (Turn answer) a in roomy a' /\ (idle a -> idle a') /\ (busy c P a -> busy c P a').
Proof.
  intros Hh Hro Hib. pose proof Hro as [Ha Hra Hb Hrb [w Hw]]. cbn zeta. cbn [agent_move].
  destruct (ag_sending a) as [|r rest] eqn:Hs.
  - unfold take_command, mpsc_try_recv. rewrite Hw. destruct (mp_items (ag_cmd a)) as [|c' items] eqn:Hi; [by destruct (mp_tx_alive _)|].
    destruct Hib as [[Hc _]|[[Hc Hr]|[Hc _]]]; rewrite Hi in Hc; try done. injection Hc as -> ->.
    destruct (Hh w) as (w' & r & -> & Hp). rewrite Hs, app_nil_r in Hr. split_and!.
    + by split.
    + intros [Hc _]. by rewrite Hi in Hc.
    + intros _. right. split; [done|]. exists r. split; [|done]. simpl. by rewrite Hr.
  - destruct Hib as [[_ Hr]|[[_ Hr]|(Hc & r' & Hr & Hp)]]; [by rewrite Hs in Hr; apply app_eq_nil in Hr as [_ Hr]..|].
    rewrite Hs in Hr. destruct (mp_items (ag_res a)) as [|r0 items] eqn:Hi; [|by destruct items]. simpl in Hr. injection Hr as -> ->.
    rewrite roomy_put by done. split_and!.
    + by split.
    + intros [_ Hr]. by rewrite Hs, Hi in Hr.
    + intros _. right. split; [done|]. by exists r'.
Qed.

(** The same, with what it says about commands and results. *)
Record stepped a a' : Prop := mk_stepped {
  sp_asked : asked a' = asked a;
  sp_made : exists l, ag_made a' = ag_made a ++ l /\ mp_items (ag_res a') = mp_items (ag_res a) ++ l
}.
Lemma turn_stepped answer a : roomy (agent_move (Turn answer) a) -> stepped a (agent_move (Turn answer) a).
Proof.
  intros Hro. destruct (told_move (Turn answer) a) as [(rest & E & L) _ _ Hm _]. split; [|done].
  by rewrite app_nil_r, (L (ro_cmd_alive _ Hro)), app_nil_r in E.
Qed.

(** The answer. *)
Lemma busy_result c P a r rest :
  busy c P a -> mp_items (ag_res a) = r :: rest -> rest = [] /\ mp_items (ag_cmd a) = [] /\ ag_sending a = [] /\ P r.
Proof.
  intros [[_ Hr]|(Hc & r' & Hr & Hp)] Hi; rewrite Hi in Hr; [done|]. injection Hr as -> Hr. by apply app_eq_nil in Hr as [-> ->].
Qed.

Section operations.
Context {C : Type}.
Variable l : lens C Agent.

Lemma wp_command_roomy moves c f (Q : bool -> frame C -> Prop) E :
  roomy (get l (fr_self f)) -> (length (mp_items (ag_cmd (get l (fr_self f)))) <= 1)%nat ->
  Q true (with_self (set l (commanded c (get l (fr_self f))) (fr_self f)) f) -> wp (command l moves c) Q E f.
Proof. intros Hr Hl HQ. unfold wp, command. by rewrite roomy_send. Qed.

(** A busy thread has answered, and is idle then, or has not. *)
Lemma wp_result_busy c P f (Q : received Res -> frame C -> Prop) E :
  let a := get l (fr_self f) in
  roomy a -> busy c P a ->
  (forall r, P r -> mp_items (ag_res a) = [r] ->
     let a' := mk_Agent (ag_cmd a) (with_items [] (ag_res a)) (ag_worker a) (ag_sending a) (ag_done a) (ag_made a) in
     roomy a' -> idle a' -> Q (Received r) (with_self (set l a' (fr_self f)) f)) ->
  (forall r, (forall x, r <> Received x) -> Q r (with_self (set l a (fr_self f)) f)) ->
  wp (result_of l) Q E f.
Proof.
  cbn zeta. set (a := get l (fr_self f)). intros Hro Hb HQ H0. unfold wp, result_of, agent_recv, mpsc_try_recv. fold a.
  destruct (mp_items (ag_res a)) as [|r rest] eqn:Hi; simpl.
  - assert (mk_Agent (ag_cmd a) (ag_res a) (ag_worker a) (ag_sending a) (ag_done a) (ag_made a) = a) as -> by (by destruct a).
    destruct (mp_tx_alive (ag_res a)); by apply H0.
  - destruct (busy_result _ _ _ _ _ Hb Hi) as (-> & Hc & Hs & Hp). apply HQ; [done|done|by destruct Hro|]. by split.
Qed.
End operations.
End one.

(** * SSHClient *)

Section ssh.
Context `{R : Rtrb}.
Variable shell_words_split : string -> option (list string).
Variable lexopt_args : list string -> list (option SshArg).
Implicit Types (c : SSHClientComponent) (f : frame SSHClientComponent).

Definition executed (cmd : string) (packet : FbpMessage) : SSHCommand := SshExecute cmd (packet_bytes packet).
Definition output_of (r : SSHResult) : option FbpMessage := match r with SshOutput output => Some (from_bytes output) | _ => None end.
Definition connect_answer (r : SSHResult) : Prop := match r with SshOutput _ => False | _ => True end.
Definition execute_answer (r : SSHResult) : Prop := match r with SshConnected => False | _ => True end.

(** The thread has run the command of each request to execute one, once and in
    order; and it has a connection if [connected] says so, or its answer to the
    request to connect does. *)
Definition run_of (cmd : SSHCommand) : option string := match cmd with SshExecute command _ => Some command | _ => None end.
Definition ran (connected : Prop) (a : Agent SshThread SSHCommand SSHResult) : Prop :=
  exists w, ag_worker a = Some w /\ st_commands w = omap run_of (ag_done a) /\
    (connected \/ SshConnected ∈ mp_items (ag_res a) ++ ag_sending a -> is_Some (st_session w)).
Definition connected c : Prop := ss_state c = SshIsConnected \/ ss_state c = SshExecuting.

(** [given] has come to IN, [taken] of it has been handed to the thread, [got] has
    been taken from OUT, and [received] are the results that have been taken. *)
Record ssh_inv (given got taken : list FbpMessage) (received : list SSHResult) c : Prop := mk_ssh_inv {
  si_roomy : roomy (ss_agent c);
  si_given : given = taken ++ ring_items (ss_inn c);
  si_asked : match ss_cmd_config c, ss_ssh_config c with
             | Some cmd, Some config => asked (ss_agent c) = SshConnect config :: map (executed cmd) taken
             | _, _ => asked (ss_agent c) = [] /\ taken = []
             end;
  si_made : ag_made (ss_agent c) = received ++ mp_items (ag_res (ss_agent c));
  si_flow : got ++ sink_items (ss_out c) = omap output_of received;
  si_state : match ss_ssh_config c, ss_state c with
             | None, SshWaitingForConfig => idle (ss_agent c) /\ received = []
             | Some config, SshConnecting => is_Some (ss_cmd_config c) /\ busy (SshConnect config) connect_answer (ss_agent c) /\
                 received = [] /\ taken = []
             | Some _, SshIsConnected => is_Some (ss_cmd_config c) /\ idle (ss_agent c) /\ length received = S (length taken)
             | Some _, SshExecuting => is_Some (ss_cmd_config c) /\
                 (exists cmd input, busy (SshExecute cmd input) execute_answer (ss_agent c)) /\ length received = length taken
             | _, _ => False
             end;
  si_ran : ran (connected c) (ss_agent c)
}.
Definition ssh_ok (given got : list FbpMessage) c : Prop := exists taken received, ssh_inv given got taken received c.

Lemma ssh_handle_connect answer config w : exists w' r, handle answer (SshConnect config) w = (Some w', [r]) /\ connect_answer r.
Proof. unfold handle, ssh_main. destruct (sa_connect answer); by eexists _, _. Qed.
Lemma handle_execute answer cmd input w : exists w' r, handle answer (SshExecute cmd input) w = (Some w', [r]) /\ execute_answer r.
Proof.
  unfold handle, ssh_main. destruct (st_session w); [|by eexists _, _]. eexists _, _. split; [done|]. by destruct (execute_command _ _).
Qed.

Lemma ran_turn answer P a :
  (forall cmd, cmd ∈ mp_items (ag_cmd a) -> match cmd with SshConnect _ => True | SshExecute _ _ => P | SshDisconnect => False end) ->
  ran P a -> ran P (agent_move (Turn answer) a).
Proof.
  intros Hq (w & Hw & Hc & Hses). cbn [agent_move]. destruct (ag_sending a) as [|r rest] eqn:Hs.
  - unfold take_command, mpsc_try_recv. rewrite Hw.
    destruct (mp_items (ag_cmd a)) as [|cmd items]; [destruct (mp_tx_alive _); by exists w; rewrite Hs|].
    specialize (Hq cmd ltac:(left)). rewrite app_nil_r in Hses. unfold handle, ssh_main. destruct cmd as [config|command input|].
    + destruct (sa_connect answer); eexists; (split; [done|]); simpl; rewrite omap_app, app_nil_r; (split; [done|]).
      * intros _. by eexists.
      * intros [HP|Hin%elem_of_app]; apply Hses; [by left|]. destruct Hin as [|Hin%list_elem_of_singleton]; [by right|done].
    + destruct (Hses (or_introl Hq)) as [session Hsession]. rewrite Hsession. eexists. split; [done|]. simpl.
      rewrite omap_app, Hc. split; [done|]. intros _. by eexists.
    + done.
  - unfold put_result, mpsc_try_send. destruct (negb _); [by exists w; rewrite Hs|].
    destruct (mpsc_full _); [by exists w; rewrite Hs|]. exists w. split_and!; [done..|]. simpl. by rewrite <- app_assoc.
Qed.

Lemma ran_weaken (P Q : Prop) a a' :
  ag_worker a' = ag_worker a -> ag_done a' = ag_done a ->
  (Q \/ SshConnected ∈ mp_items (ag_res a') ++ ag_sending a' -> P \/ SshConnected ∈ mp_items (ag_res a) ++ ag_sending a) ->
  ran P a -> ran Q a'.
Proof. intros Hw Hd HPQ (w & H1 & H2 & H3). exists w. rewrite Hw, Hd. split_and!; auto. Qed.

(** A result is taken. *)
Lemma ran_received (P Q : Prop) a a' r :
  mp_items (ag_res a) = [r] -> (Q -> P \/ r = SshConnected) ->
  a' = mk_Agent (ag_cmd a) (with_items [] (ag_res a)) (ag_worker a) (ag_sending a) (ag_done a) (ag_made a) ->
  ran P a -> ran Q a'.
Proof.
  intros Hi HQ ->. apply ran_weaken; [done..|]. simpl. rewrite Hi. intros [HQ'|Hin].
  - destruct (HQ HQ') as [| ->]; [by left|right; left].
  - right. by right.
Qed.

(** The input is not used. *)
Lemma ssh_ignores_input answer cmd input1 input2 w :
  handle answer (SshExecute cmd input1) w = handle answer (SshExecute cmd input2) w.
Proof. done. Qed.

Lemma ssh_turn answer given got c : ssh_ok given got c -> ssh_ok given got (set ss_l_agent (agent_move (Turn answer) (ss_agent c)) c).
Proof.
  intros (taken & received & [Hro Hg Ha Hm Hf Hst Hran]). exists taken, received.
  set (a' := agent_move (Turn answer) (ss_agent c)). assert (roomy a' /\ (idle (ss_agent c) -> idle a') /\
    (forall config, busy (SshConnect config) connect_answer (ss_agent c) -> busy (SshConnect config) connect_answer a') /\
    (forall cmd input, busy (SshExecute cmd input) execute_answer (ss_agent c) -> busy (SshExecute cmd input) execute_answer a'))
    as (Hro' & Hidle & Hcon & Hex).
  { pose proof (fun config => one_turn _ _ answer (ss_agent c) (ssh_handle_connect answer config) Hro) as H1.
    pose proof (fun cmd input => one_turn _ _ answer (ss_agent c) (handle_execute answer cmd input) Hro) as H2.
    split_and!; [|by intros H; apply (H2 "" []); [left|]|by intros config H; apply (H1 config); [right|]
      |by intros cmd input H; apply (H2 cmd input); [right|]].
    destruct (ss_ssh_config c) as [config|], (ss_state c); try done.
    - apply (H1 config). right. apply Hst.
    - apply (H2 "" []). left. apply Hst.
    - destruct Hst as (_ & (cmd & input & Hb) & _). apply (H2 cmd input). by right.
    - apply (H2 "" []). left. apply Hst. }
  assert (ran (connected c) a') as Hran'.
  { apply ran_turn; [|done]. intros cmd Hin. unfold connected.
    destruct (ss_ssh_config c) as [config|], (ss_state c); try done.
    - destruct Hst as (_ & [[Hc _]|[Hc _]] & _); rewrite Hc in Hin; [by apply list_elem_of_singleton in Hin as ->|by apply elem_of_nil in Hin].
    - destruct Hst as (_ & [Hc _] & _). rewrite Hc in Hin. by apply elem_of_nil in Hin.
    - destruct Hst as (_ & (command & input & [[Hc _]|[Hc _]]) & _); rewrite Hc in Hin; [|by apply elem_of_nil in Hin].
      apply list_elem_of_singleton in Hin as ->. by right.
    - destruct Hst as [[Hc _] _]. rewrite Hc in Hin. by apply elem_of_nil in Hin. }
  destruct (turn_stepped answer (ss_agent c) Hro') as [Ha' (l & Hm' & Hi')]. fold a' in Ha', Hm', Hi'. clearbody a'.
  split; simpl; rewrite ?Ha'; try done; [by rewrite Hm', Hi', Hm, app_assoc|].
  destruct (ss_ssh_config c) as [config|], (ss_state c); try done.
  - destruct Hst as (H1 & H2 & H3). split_and!; [done|by apply Hcon|apply H3..].
  - destruct Hst as (H1 & H2 & H3). split_and!; [done|by apply Hidle|done].
  - destruct Hst as (H1 & (cmd & input & H2) & H3). split_and!; [done|exists cmd, input; by apply Hex|done].
  - destruct Hst as [H1 H2]. split; [by apply Hidle|done].
Qed.

Ltac keeps_ran Hs :=
  eapply ran_weaken; [reflexivity|reflexivity| |eassumption]; unfold connected; simpl; rewrite ?Hs; intuition congruence.

(** ** Calls *)
Section calls.
Variable meanwhile : list (AgentMove SshAnswer SSHResult).
Variable given got : list FbpMessage.
Abbreviation ok f := (ssh_ok given got (fr_self f)).
(** What is known after a call that returns. *)
Definition ssh_returns (r : ProcessResult) f : Prop := r = Finished \/ ok f.

Lemma wp_ssh_read_cmd f (E : exit -> frame SSHClientComponent -> Prop) :
  ok f -> ss_cmd_config (fr_self f) = None -> (forall f', E Unwind f') -> wp ssh_read_cmd ssh_returns E f.
Proof.
  intros (taken & received & [Hro Hg Ha Hm Hf Hst Hran]) Hcmd HE. unfold ssh_read_cmd. rewrite Hcmd in Ha. apply wp_bind, wp_pop; simpl.
  - intros _ r _. apply wp_ret. right. exists taken, received. split; simpl; try done. by rewrite Hcmd.
  - intros m rest r _ _. destruct (as_text m) as [cmd|]; [|by apply wp_leave]. wp_run. right. exists taken, received.
    split; simpl; try done.
    + destruct (ss_ssh_config (fr_self f)) as [config|]; [|done]. destruct (ss_state (fr_self f)); try done; by destruct Hst as ([? Hc] & _); rewrite Hcmd in Hc.
    + destruct (ss_ssh_config (fr_self f)) as [config|]; [|done]. destruct (ss_state (fr_self f)); try done; by destruct Hst as ([? Hc] & _); rewrite Hcmd in Hc.
Qed.

Lemma wp_ssh_read_conf cmd f (E : exit -> frame SSHClientComponent -> Prop) :
  ok f -> ss_cmd_config (fr_self f) = Some cmd -> ss_ssh_config (fr_self f) = None -> (forall f', E Unwind f') ->
  wp (ssh_read_conf shell_words_split lexopt_args meanwhile) ssh_returns E f.
Proof.
  intros (taken & received & [Hro Hg Ha Hm Hf Hst Hran]) Hcmd Hconf HE. unfold ssh_read_conf. rewrite Hconf, Hcmd in Ha.
  rewrite Hconf in Hst. destruct (ss_state (fr_self f)) eqn:Hs; try done. destruct Hst as [[Hi Hi'] ->]. destruct Ha as [Ha ->].
  apply wp_bind, wp_pop; simpl.
  - intros _ r _. apply wp_ret. right. exists [], []. split; simpl; rewrite ?Hconf, ?Hcmd, ?Hs; try done.
    keeps_ran Hs.
  - intros m rest r _ _. destruct (as_text m) as [words|]; [|by apply wp_leave].
    destruct (parse_ssh_config _ _ words) as [| |config]; [by apply wp_leave|apply wp_ret; by left|].
    apply wp_bind, wp_write, wp_bind, wp_command_roomy; simpl; [done|rewrite Hi; simpl; lia|]. wp_run. right. exists [], [].
    split; simpl; try done.
    + by apply roomy_commanded.
    + rewrite Hcmd. unfold asked, commanded in *. simpl. by rewrite app_assoc, Ha.
    + split_and!; [by rewrite Hcmd|left; split; [simpl; by rewrite Hi|done]|done..].
    + keeps_ran Hs.
Qed.

Lemma wp_ssh_connecting f (E : exit -> frame SSHClientComponent -> Prop) :
  ok f -> is_Some (ss_ssh_config (fr_self f)) -> ss_state (fr_self f) = SshConnecting -> wp ssh_connecting ssh_returns E f.
Proof.
  intros (taken & received & [Hro Hg Ha Hm Hf Hst Hran]) [config Hconf] Hs. rewrite Hconf, Hs in Hst.
  destruct Hst as (Hcmd & Hb & -> & ->). unfold ssh_connecting.
  apply wp_bind, (wp_result_busy ss_l_agent (SshConnect config) connect_answer); simpl; [done|done| |].
  - intros r Hp Hi Hro' Hidle. destruct r as [|output|e]; [|done|apply wp_ret; by left]. wp_run. right. exists [], [SshConnected].
    rewrite Hi in Hm. split; simpl; rewrite ?Hconf in *; try done.
    by eapply ran_received; [exact Hi| |reflexivity|exact Hran]; right.
  - intros r Hr. assert (ok (with_self (set ss_l_agent (ss_agent (fr_self f)) (fr_self f)) f)) as Hok
      by (exists [], []; split; simpl; rewrite ?Hconf, ?Hs in *; try done; keeps_ran Hs).
    destruct r; [by destruct (Hr t)|..]; apply wp_ret; by right.
Qed.

Lemma wp_ssh_connected cmd f (E : exit -> frame SSHClientComponent -> Prop) :
  ok f -> ss_cmd_config (fr_self f) = Some cmd -> is_Some (ss_ssh_config (fr_self f)) -> ss_state (fr_self f) = SshIsConnected ->
  wp (ssh_connected meanwhile cmd) ssh_returns E f.
Proof.
  intros (taken & received & [Hro Hg Ha Hm Hf Hst Hran]) Hcmd [config Hconf] Hs. rewrite Hconf, Hs in Hst. rewrite Hconf, Hcmd in Ha.
  destruct Hst as (_ & [Hi Hi'] & Hlen). unfold ssh_connected. apply wp_bind, wp_pop; simpl.
  - intros H0 r [Hr _ _]. apply wp_ret. right. exists taken, received. rewrite drop_0 in Hr.
    split; simpl; rewrite ?Hconf, ?Hcmd, ?Hs, ?Hr; try done. keeps_ran Hs.
  - intros m rest r Hin [Hr _ _]. rewrite Hin in Hr. simpl in Hr. apply wp_bind, wp_command_roomy; simpl; [done|rewrite Hi; simpl; lia|].
    wp_run. right. exists (taken ++ [m]), received. split; simpl; rewrite ?Hconf, ?Hcmd; try done.
    + by apply roomy_commanded.
    + by rewrite Hg, Hin, Hr, drop_0, <- app_assoc.
    + unfold asked, commanded in *. simpl. by rewrite app_assoc, Ha, map_app.
    + split_and!; [done|exists cmd, (packet_bytes m); left; split; [simpl; by rewrite Hi|done]|].
      rewrite Hlen, length_app. simpl. lia.
    + keeps_ran Hs.
Qed.

Lemma wp_ssh_executing f (E : exit -> frame SSHClientComponent -> Prop) :
  ok f -> is_Some (ss_ssh_config (fr_self f)) -> ss_state (fr_self f) = SshExecuting -> wp ssh_executing ssh_returns E f.
Proof.
  intros (taken & received & [Hro Hg Ha Hm Hf Hst Hran]) [config Hconf] Hs. rewrite Hconf, Hs in Hst.
  destruct Hst as (Hcmd & (cmd & input & Hb) & Hlen). unfold ssh_executing.
  apply wp_bind, (wp_result_busy ss_l_agent (SshExecute cmd input) execute_answer); simpl; [done|done| |].
  - intros r Hp Hi Hro' Hidle. rewrite Hi in Hm. destruct r as [|output|e]; [done| |].
    + apply wp_bind, wp_send; simpl; [|intros; apply wp_ret; by left]. intros _ o es Hsent _. wp_run. right.
      exists taken, (received ++ [SshOutput output]). split; simpl; rewrite ?Hconf in *; try done.
      * by rewrite Hm, app_nil_r.
      * by rewrite (sent_items _ _ _ _ Hsent), app_assoc, Hf, omap_app.
      * split_and!; [done..|]. rewrite length_app. simpl. lia.
      * eapply ran_received; [exact Hi| |reflexivity|exact Hran]. left. by right.
    + wp_run. right. exists taken, (received ++ [SshFailed e]). split; simpl; rewrite ?Hconf in *; try done.
      * by rewrite Hm, app_nil_r.
      * by rewrite Hf, omap_app, app_nil_r.
      * split_and!; [done..|]. rewrite length_app. simpl. lia.
      * eapply ran_received; [exact Hi| |reflexivity|exact Hran]. left. by right.
  - intros r Hr. assert (ok (with_self (set ss_l_agent (ss_agent (fr_self f)) (fr_self f)) f)) as Hok
      by (exists taken, received; split; simpl; rewrite ?Hconf, ?Hs in *; try done; [split_and!; [done|by exists cmd, input|done]|keeps_ran Hs]).
    destruct r; [by destruct (Hr t)|..]; apply wp_ret; by right.
Qed.

Lemma ssh_waits_little c : ssh_ok given got c -> (length (mp_items (ag_cmd (ss_agent c))) <= 1)%nat.
Proof.
  intros (taken & received & [_ _ _ _ _ Hst _]).
  destruct (ss_ssh_config c), (ss_state c); try done.
  - destruct Hst as (_ & [[-> _]|[-> _]] & _); simpl; lia.
  - destruct Hst as (_ & [-> _] & _). simpl. lia.
  - destruct Hst as (_ & (cmd & input & [[-> _]|[-> _]]) & _); simpl; lia.
  - destruct Hst as ([-> _] & _). simpl. lia.
Qed.

Lemma ssh_call c ctx : ssh_ok given got c ->
  exists f r, call (ssh_process shell_words_split lexopt_args meanwhile) c ctx = Some (f, r) /\
    match r with Some r => ssh_returns r f | None => True end.
Proof.
  intros Hok. apply wp_call. unfold ssh_process. apply wp_bind, wp_stop_signal; cbn [fr_self].
  2: { intros _ sg _. pose proof (ssh_waits_little c Hok) as Hl. destruct Hok as (taken & received & []).
       apply wp_bind, wp_command_roomy; simpl; [done|done|]. wp_run. by left. }
  intros _ sg _. set (g := with_self _ _). assert (ok g) as Hg by (destruct Hok as (taken & received & []); by exists taken, received).
  clearbody g. apply wp_bind, wp_read. simpl. destruct (ss_cmd_config (fr_self g)) as [cmd|] eqn:Hcmd; [|by apply wp_ssh_read_cmd].
  apply wp_bind, wp_read. simpl. destruct (ss_ssh_config (fr_self g)) as [config|] eqn:Hconf; simpl; [|by apply (wp_ssh_read_conf cmd)].
  apply wp_bind, wp_read. simpl. destruct (ss_state (fr_self g)) eqn:Hs.
  - apply wp_ret. by right.
  - apply wp_ssh_connecting; [done|by rewrite Hconf|done].
  - apply wp_ssh_connected; [done|done|by rewrite Hconf|done].
  - apply wp_ssh_executing; [done|by rewrite Hconf|done].
  - apply wp_ret. by left.
Qed.
End calls.

(** ** Runs *)
Record SshRun : Type := mk_SshRun { sn_client : SSHClientComponent; sn_given : list FbpMessage; sn_got : list FbpMessage }.

Inductive ssh_step : SshRun -> SshRun -> Prop :=
| ssh_called meanwhile c given got ctx f r :
    call (ssh_process shell_words_split lexopt_args meanwhile) c ctx = Some (f, Some r) -> r <> Finished ->
    ssh_step (mk_SshRun c given got) (mk_SshRun (fr_self f) given got)
| ssh_turns answer c given got :
    ssh_step (mk_SshRun c given got) (mk_SshRun (set ss_l_agent (agent_move (Turn answer) (ss_agent c)) c) given got)
| ssh_commanded c given got m r :
    ring_push m (ss_cmd c) = (Ok tt, r) -> ssh_step (mk_SshRun c given got) (mk_SshRun (set ss_l_cmd r c) given got)
| ssh_configured c given got m r :
    ring_push m (ss_conf c) = (Ok tt, r) -> ssh_step (mk_SshRun c given got) (mk_SshRun (set ss_l_conf r c) given got)
| ssh_given c given got m r :
    ring_push m (ss_inn c) = (Ok tt, r) -> ssh_step (mk_SshRun c given got) (mk_SshRun (set ss_l_inn r c) (given ++ [m]) got)
| ssh_signalled c given got m sin :
    try_send m (ss_signals_in c) = (Ok tt, sin) ->
    ssh_step (mk_SshRun c given got) (mk_SshRun (set ss_l_signals (mk_Signals sin (ss_signals_out c)) c) given got)
| ssh_got c given got m r :
    ring_pop (pes_sink (ss_out c)) = (Some m, r) ->
    ssh_step (mk_SshRun c given got) (mk_SshRun (set ss_l_out (set_sink r (ss_out c)) c) given (got ++ [m])).

Definition ssh_untouched (s : SshRun) : Prop :=
  let c := sn_client s in
  ss_cmd_config c = None /\ ss_ssh_config c = None /\ ss_state c = SshWaitingForConfig /\ ring_items (ss_inn c) = sn_given s /\
  sn_got s = [] /\ sink_items (ss_out c) = [] /\ ss_agent c = new_agent (mk_SshThread None []).

Lemma roomy_new {W Cmd Res} (w : W) : roomy (new_agent w : Agent W Cmd Res).
Proof.
  split; simpl; [done|done| | |by eexists]; intros n [= <-]; [unfold DEFAULT_MAX_INFLIGHT|unfold DEFAULT_MAX_PENDING]; lia.
Qed.

Lemma ssh_run_ok s0 s : ssh_untouched s0 -> rtc ssh_step s0 s -> ssh_ok (sn_given s) (sn_got s) (sn_client s).
Proof.
  intros (Hc & Hconf & Hst & Hi & Hg & Ho & Ha) Hrun. assert (ssh_ok (sn_given s0) (sn_got s0) (sn_client s0)) as Hok.
  { exists [], []. split; rewrite ?Hc, ?Hconf, ?Hst, ?Hg, ?Ho, ?Ha; [apply roomy_new|done..|by split_and!|].
    exists (mk_SshThread None []). split_and!; [done..|]. unfold connected. rewrite Hst. intros [[]|Hin]; [done..|].
    by apply elem_of_nil in Hin. }
  clear Hc Hconf Hst Hi Hg Ho Ha. induction Hrun as [s|s1 s2 s3 Hs _ IH]; [done|]. apply IH. clear IH.
  destruct Hs as [mw c given got ctx f r Hcall Hr|answer c given got|c given got m r Hp|c given got m r Hp|c given got m r Hp|c given got m sin Hp|c given got m r Hp];
    cbn [sn_client sn_given sn_got] in *; [|by apply ssh_turn|..].
  - destruct (ssh_call mw given got c ctx Hok) as (f' & r' & Hcall' & H). rewrite Hcall in Hcall'. injection Hcall' as <- <-. by destruct H.
  - destruct Hok as (taken & received & []). by exists taken, received.
  - destruct Hok as (taken & received & []). by exists taken, received.
  - pose proof (ring_push_items m (ss_inn c)) as H. rewrite Hp in H. simpl in H.
    pose proof (ring_push_res m (ss_inn c)) as Hres. rewrite Hp in Hres. simpl in Hres. destruct (_ <? _)%nat; [|done].
    destruct Hok as (taken & received & [H1 H2 H3 H4 H5 H6 H7]). exists taken, received. split; simpl; try done. by rewrite H, H2, app_assoc.
  - destruct Hok as (taken & received & []). by exists taken, received.
  - destruct Hok as (taken & received & [H1 H2 H3 H4 H5 H6 H7]). exists taken, received. split; simpl; try done.
    by rewrite (sink_taken _ got _ _ Hp).
Qed.

(** C39: SSHClient runs its command once for each packet, one after the other.
    Along every run that has not finished, the thread has been asked to connect
    once and then to run the command for the packets taken from IN, in order, each
    once; the commands that it has run on the server, together with the request
    that may still wait for it, are one for each of these packets, whether or not
    they succeed: nothing is tried again; at most one answer is missing; the
    outputs that were sent are those that have been answered, in order; and every
    call returns or unwinds, whatever the thread does: a command never waits. *)
Theorem ssh_one_at_a_time s0 s cmd config meanwhile ctx :
  ssh_untouched s0 -> rtc ssh_step s0 s ->
  ss_cmd_config (sn_client s) = Some cmd -> ss_ssh_config (sn_client s) = Some config ->
  is_Some (call (ssh_process shell_words_split lexopt_args meanwhile) (sn_client s) ctx) /\
  exists taken answers w,
    sn_given s = taken ++ ring_items (ss_inn (sn_client s)) /\
    asked (ss_agent (sn_client s)) = SshConnect config :: map (executed cmd) taken /\
    ag_worker (ss_agent (sn_client s)) = Some w /\
    st_commands w ++ omap run_of (mp_items (ag_cmd (ss_agent (sn_client s)))) = map (fun _ => cmd) taken /\
    ag_made (ss_agent (sn_client s)) = answers ++ mp_items (ag_res (ss_agent (sn_client s))) /\
    (length taken <= length answers <= S (length taken))%nat /\
    sn_got s ++ sink_items (ss_out (sn_client s)) = omap output_of answers.
Proof.
  intros H0 Hr Hcmd Hconf. pose proof (ssh_run_ok s0 s H0 Hr) as Hok. split.
  - by destruct (ssh_call meanwhile _ _ _ ctx Hok) as (f & r & -> & _).
  - destruct Hok as (taken & received & [_ H2 H3 H4 H5 H6 (w & Hw & Hc & _)]). rewrite Hcmd, Hconf in H3. rewrite Hconf in H6.
    exists taken, received, w. split; [done|]. split; [done|]. split; [done|]. split.
    { rewrite Hc, <- omap_app. change (ag_done _ ++ _) with (asked (ss_agent (sn_client s))). rewrite H3. simpl.
      clear. induction taken as [|m taken IH]; simpl; [done|]. by rewrite IH. }
    split; [done|]. split; [|done]. destruct (ss_state (sn_client s)); try done.
    + destruct H6 as (_ & _ & -> & ->). simpl. lia.
    + destruct H6 as (_ & _ & ->). lia.
    + destruct H6 as (_ & _ & ->). lia.
Qed.
End ssh.

(** * ZeroconfResponder *)

Section responder.
Context `{R : Rtrb}.
Variable url_parse : string -> option FullUrl.
Implicit Types (c : ZeroconfResponderComponent) (f : frame ZeroconfResponderComponent).

(** What the thread has registered, once it has said so. *)
Definition registers (config : ZeroconfResponderConfig) (a : Agent (option ZeroconfResponderConfig) ZeroconfResponderCommand ZeroconfResponderResult) : Prop :=
  ZrRegistered ∈ mp_items (ag_res a) ++ ag_sending a -> ag_worker a = Some (Some config).
Record responder_ok c : Prop := mk_responder_ok {
  rs_roomy : roomy (zs_agent c);
  rs_state : match zs_state c with
             | ZrWaitingForConfig => idle (zs_agent c)
             | ZrRegistering => exists config, zs_config c = Some config /\ registers config (zs_agent c) /\
                 busy (ZrRegister config) (fun _ => True) (zs_agent c)
             | ZrIsRegistered => exists config, zs_config c = Some config /\ idle (zs_agent c) /\
                 ag_worker (zs_agent c) = Some (Some config)
             | ZrFinished => False
             end
}.

Lemma handle_register answer config w : exists w' r, handle answer (ZrRegister config) w = (Some w', [r]) /\
  (fun _ => True) r /\ (r = ZrRegistered -> w' = Some config).
Proof. unfold handle, async_responder_main. destruct answer as [[]|e]; by eexists _, _. Qed.

Lemma idle_turn {W Cmd Res Ext} `{T : !AgentThread W Cmd Res Ext} answer (a : Agent W Cmd Res) : idle a -> agent_move (Turn answer) a = a.
Proof.
  intros [Hc Hr]. apply app_eq_nil in Hr as [Hr Hs]. cbn [agent_move]. rewrite Hs. unfold take_command, mpsc_try_recv.
  destruct (ag_worker a); [|done]. rewrite Hc. by destruct (mp_tx_alive _).
Qed.

Lemma registers_turn answer config a :
  roomy a -> busy (ZrRegister config) (fun _ => True) a -> registers config a -> registers config (agent_move (Turn answer) a).
Proof.
  intros Hro Hb Hreg. unfold registers. cbn [agent_move]. pose proof Hro as [_ _ _ _ [w Hw]].
  destruct (ag_sending a) as [|r rest] eqn:Hs.
  - unfold take_command, mpsc_try_recv. rewrite Hw. destruct (mp_items (ag_cmd a)) as [|c' items] eqn:Hi.
    + destruct (mp_tx_alive _); [exact Hreg|exact Hreg].
    + destruct Hb as [[Hc Hr]|[Hc _]]; rewrite Hi in Hc; [|done]. injection Hc as -> ->.
      destruct (handle_register answer config w) as (w' & r & -> & _ & Hw'). simpl. apply app_eq_nil in Hr as [-> _]. simpl.
      rewrite list_elem_of_singleton. intros <-. by rewrite Hw'.
  - destruct Hb as [[_ Hr]|(Hc & r' & Hr & _)]; rewrite Hs in Hr; [by apply app_eq_nil in Hr as [_ Hr]|].
    destruct (mp_items (ag_res a)) as [|r0 items] eqn:Hi; [|by destruct items]. rewrite roomy_put by done. simpl.
    injection Hr as -> ->. intros H. apply Hreg. by rewrite Hi, Hs.
Qed.

Lemma responder_turn answer c : responder_ok c -> responder_ok (set zs_l_agent (agent_move (Turn answer) (zs_agent c)) c).
Proof.
  intros [Hro Hst]. destruct (zs_state c) eqn:Hs; try done.
  - rewrite idle_turn by done. split; simpl; [done|by rewrite Hs].
  - destruct Hst as (config & Hconf & Hreg & Hb).
    pose proof (registers_turn answer config _ Hro Hb Hreg) as Hreg'.
    assert (forall w, exists w' r, handle answer (ZrRegister config) w = (Some w', [r]) /\ (fun _ : ZeroconfResponderResult => True) r) as Hh
      by (intros w; destruct (handle_register answer config w) as (w' & r & -> & _); by eexists _, _).
    destruct (one_turn _ _ answer (zs_agent c) Hh Hro (or_intror Hb)) as (Hro' & _ & Hb').
    split; [exact Hro'|]. unfold zs_l_agent, set. cbn [zs_state zs_config zs_agent]. rewrite Hs. exists config. split_and!; [done|done|by apply Hb'].
  - destruct Hst as (config & Hconf & Hidle & Hw). rewrite idle_turn by done. split; simpl; [done|]. rewrite Hs. by exists config.
Qed.

Definition responder_returns (r : ProcessResult) f : Prop := r = Finished \/ responder_ok (fr_self f).

Lemma responder_call meanwhile c ctx : responder_ok c ->
  exists f r, call (responder_process url_parse meanwhile) c ctx = Some (f, r) /\
    match r with Some r => responder_returns r f | None => True end.
Proof.
  intros Hok. apply wp_call. unfold responder_process. apply wp_bind, wp_stop_signal; cbn [fr_self].
  2: { intros _ sg _. destruct Hok as [Hro Hst]. apply wp_bind, wp_command_roomy; simpl; [done| |wp_run; by left].
       destruct (zs_state c); [|destruct Hst as (config & _ & _ & Hst)|destruct Hst as (config & _ & Hst & _)|done];
         destruct Hst as [[-> _]|[-> _]] || destruct Hst as [-> _]; simpl; lia. }
  intros _ sg _. set (g := with_self _ _). assert (responder_ok (fr_self g)) as Hg by (destruct Hok; by split).
  clearbody g. clear Hok c. apply wp_bind, wp_read. simpl. pose proof Hg as [Hro Hst].
  destruct (zs_state (fr_self g)) eqn:Hs; [| | |done].
  - unfold responder_configure. apply wp_bind, wp_pop; simpl.
    + intros _ r _. apply wp_ret. right. split; simpl; [done|]. by rewrite Hs.
    + intros m rest r _ _. destruct (as_text m ≫= _) as [config|]; [|by apply wp_leave]. destruct Hst as [Hc Hr].
      apply wp_bind, wp_write, wp_bind, wp_command_roomy; simpl; [done|rewrite Hc; simpl; lia|]. wp_run. right.
      split; simpl; [by apply roomy_commanded|]. exists config. split_and!; [done| |left; split; [simpl; by rewrite Hc|done]].
      unfold registers. simpl. rewrite Hr. by intros H%elem_of_nil.
  - destruct Hst as (config & Hconf & Hreg & Hb).
    apply wp_bind, (wp_result_busy zs_l_agent (ZrRegister config) (fun _ => True)); simpl; [done|done| |].
    + intros r _ Hi Hro' Hidle. destruct r; [|apply wp_ret; by left]. wp_run. right. split; simpl; [done|].
      exists config. split_and!; [done|done|]. apply Hreg. rewrite Hi. by left.
    + intros r Hr. assert (responder_ok (fr_self (with_self (set zs_l_agent (zs_agent (fr_self g)) (fr_self g)) g))) as Hok
        by (split; simpl; [done|]; rewrite Hs; by exists config).
      destruct r; [by destruct (Hr t)|..]; apply wp_ret; by right.
  - apply wp_ret. by right.
Qed.

Inductive responder_step : ZeroconfResponderComponent -> ZeroconfResponderComponent -> Prop :=
| responder_called meanwhile c ctx f r :
    call (responder_process url_parse meanwhile) c ctx = Some (f, Some r) -> r <> Finished -> responder_step c (fr_self f)
| responder_turns answer c : responder_step c (set zs_l_agent (agent_move (Turn answer) (zs_agent c)) c)
| responder_configured c m r :
    ring_push m (zs_conf c) = (Ok tt, r) -> responder_step c (set zs_l_conf r c)
| responder_signalled c m sin :
    try_send m (zs_signals_in c) = (Ok tt, sin) ->
    responder_step c (set zs_l_signals (mk_Signals sin (zs_signals_out c)) c).

Lemma responder_run_ok c0 c :
  zs_state c0 = ZrWaitingForConfig -> zs_agent c0 = new_agent None -> rtc responder_step c0 c -> responder_ok c.
Proof.
  intros Hst Ha Hrun. assert (responder_ok c0) as Hok by (split; rewrite Ha; [apply roomy_new|by rewrite Hst]).
  clear Hst Ha. induction Hrun as [c|c1 c2 c3 Hs _ IH]; [done|]. apply IH. clear IH.
  destruct Hs as [mw c ctx f r Hcall Hr|answer c|c m r Hp|c m sin Hp].
  - destruct (responder_call mw c ctx Hok) as (f' & r' & Hcall' & H). rewrite Hcall in Hcall'. injection Hcall' as <- <-. by destruct H.
  - by apply responder_turn.
  - destruct Hok. by split.
  - destruct Hok. by split.
Qed.

(** What the responder says is true: once it is registered, the service of its
    configuration is announced; and no call waits. *)
Lemma responder_announces c0 c meanwhile ctx :
  zs_state c0 = ZrWaitingForConfig -> zs_agent c0 = new_agent None -> rtc responder_step c0 c ->
  is_Some (call (responder_process url_parse meanwhile) c ctx) /\
  (zs_state c = ZrIsRegistered -> exists config, zs_config c = Some config /\ ag_worker (zs_agent c) = Some (Some config)).
Proof.
  intros H0 Ha Hr. pose proof (responder_run_ok c0 c H0 Ha Hr) as Hok. split.
  - by destruct (responder_call meanwhile c ctx Hok) as (f & r & -> & _).
  - intros Hst. destruct Hok as [_ H]. rewrite Hst in H. destruct H as (config & Hc & _ & Hw). by exists config.
Qed.
End responder.

(** * ZeroconfBrowser *)

Section browser.
Context `{R : Rtrb}.
Variable url_parse : string -> option FullUrl.
Implicit Types (c : ZeroconfBrowserComponent) (f : frame ZeroconfBrowserComponent).

(** Nothing but failures has been said, nothing but to browse has been asked, and
    nothing has been sent. *)
Definition only_failures (rs : list ZeroconfBrowserResult) : Prop := Forall (fun r => exists e, r = ZbFailed e) rs.
Definition only_browsing (cmds : list ZeroconfBrowserCommand) : Prop := Forall (fun cmd => exists config, cmd = ZbBrowse config) cmds.
Record browser_ok (got : list FbpMessage) c : Prop := mk_browser_ok {
  br_got : got = [] /\ sink_items (zc_out c) = [];
  br_results : only_failures (mp_items (ag_res (zc_agent c)) ++ ag_sending (zc_agent c));
  br_commands : only_browsing (mp_items (ag_cmd (zc_agent c)));
  br_state : zc_state c <> ZbFinished
}.
Definition quiet_agent (a : Agent bool ZeroconfBrowserCommand ZeroconfBrowserResult) : Prop :=
  only_failures (mp_items (ag_res a) ++ ag_sending a) /\ only_browsing (mp_items (ag_cmd a)).

Lemma browse_fails answer config w : only_failures (handle answer (ZbBrowse config) w).2.
Proof. unfold handle, async_browser_main. destruct (ba_start answer); repeat constructor. by eexists. Qed.

Lemma quiet_turn answer a : quiet_agent a -> quiet_agent (agent_move (Turn answer) a).
Proof.
  intros [Hr Hc]. cbn [agent_move]. destruct (ag_sending a) as [|r rest] eqn:Hs.
  - unfold take_command, mpsc_try_recv. destruct (ag_worker a) as [w|]; [|by split; rewrite ?Hs].
    destruct (mp_items (ag_cmd a)) as [|cmd items] eqn:Hi; [by destruct (mp_tx_alive _); split; rewrite ?Hs, ?Hi|].
    inversion Hc as [|? ? [config ->] Hc']; subst. pose proof (browse_fails answer config w) as Hf.
    destruct (handle answer (ZbBrowse config) w) as [w' rs]. simpl in Hf. rewrite app_nil_r in Hr.
    split; simpl; [by apply Forall_app|by destruct (is_none w')].
  - unfold put_result, mpsc_try_send. destruct (negb _); [by split; rewrite ?Hs|]. destruct (mpsc_full _); [by split; rewrite ?Hs|].
    split; simpl; [by rewrite <- app_assoc|done].
Qed.

(** A send is one command more, after some turns. *)
Lemma quiet_send moves config a :
  Forall (fun m => exists answer, m = Turn answer) moves -> quiet_agent a ->
  match agent_send moves (ZbBrowse config) a with Some (_, a') => quiet_agent a' | None => True end.
Proof.
  intros Hm. revert a. induction Hm as [|m moves (answer & ->) _ IH]; intros a Hq; cbn [agent_send]; unfold mpsc_try_send;
    destruct (negb _); [done| |done|]; destruct (mpsc_full _); [done| |by apply IH, quiet_turn|];
    (destruct Hq as [Hr Hc]; split; [done|]; simpl; apply Forall_app; split; [done|]; repeat constructor; by eexists).
Qed.

Definition browser_returns (got : list FbpMessage) (r : ProcessResult) f : Prop := r = Finished \/ browser_ok got (fr_self f).

Lemma browser_call meanwhile got c ctx f r :
  Forall (fun m => exists answer, m = Turn answer) meanwhile -> browser_ok got c ->
  call (browser_process url_parse meanwhile) c ctx = Some (f, Some r) -> r <> Finished -> browser_ok got (fr_self f).
Proof.
  intros Hmw Hok Hcall Hr. assert (browser_returns got r f) as [?|?]; [|done|done].
  refine (wlp_call _ c ctx (fun f r => match r with Some r => browser_returns got r f | None => True end) f (Some r) _ Hcall).
  clear f r Hcall Hr. unfold browser_process. apply wlp_bind. unfold stop_signal. apply wlp_bind_wp, wp_zoom, wp_signal_stop; cbn [fr_self get set].
  2: { intros _ sg _. apply wlp_bind, wlp_bind, wlp_command. intros sent a _ _. wlp_run. by left. }
  intros _ sg _. apply wlp_wp, wp_ret. apply wlp_bind_wp, wp_read. set (g := mk_frame _ _ _ _ _).
  assert (browser_ok got (fr_self g)) as Hg by (destruct Hok; by split). clearbody g. clear Hok c. simpl.
  destruct (zc_state (fr_self g)) eqn:Hs; [| |by destruct Hg].
  - unfold browser_configure. apply wlp_bind_wp, wp_pop; simpl.
    + intros _ r _. apply wlp_wp, wp_ret. right. destruct Hg. by split.
    + intros m rest r _ _. destruct (as_text m ≫= _) as [config|]; [|by apply wlp_wp, wp_leave]. destruct Hg as [H1 H2 H3 H4].
      apply wlp_bind_wp, wp_write, wlp_bind. unfold wlp, wp, command. simpl.
      pose proof (quiet_send meanwhile config (zc_agent (fr_self g)) Hmw (conj H2 H3)) as Hq.
      destruct (agent_send meanwhile _ _) as [[[] a]|]; [right|right; apply wlp_wp, wp_ret; by left|by left]. destruct Hq as [Hq1 Hq2].
      apply wlp_wp. wp_run. right. by split.
  - destruct Hg as [H1 H2 H3 H4]. unfold browser_browsing. apply wlp_wp, wp_bind. unfold wp, result_of, agent_recv, mpsc_try_recv. simpl.
    destruct (mp_items (ag_res (zc_agent (fr_self g)))) as [|r rest] eqn:Hi.
    + destruct (mp_tx_alive _); right; split; simpl; rewrite ?Hi; done.
    + inversion H2 as [|? ? [e ->] H2']; subst. simpl.
      right. by split.
Qed.

Record BrowserRun : Type := mk_BrowserRun { bn_browser : ZeroconfBrowserComponent; bn_got : list FbpMessage }.
Inductive browser_step : BrowserRun -> BrowserRun -> Prop :=
| browser_called meanwhile c got ctx f r :
    Forall (fun m => exists answer, m = Turn answer) meanwhile ->
    call (browser_process url_parse meanwhile) c ctx = Some (f, Some r) -> r <> Finished ->
    browser_step (mk_BrowserRun c got) (mk_BrowserRun (fr_self f) got)
| browser_turns answer c got :
    browser_step (mk_BrowserRun c got) (mk_BrowserRun (set zc_l_agent (agent_move (Turn answer) (zc_agent c)) c) got)
| browser_configured c got m r :
    ring_push m (zc_conf c) = (Ok tt, r) -> browser_step (mk_BrowserRun c got) (mk_BrowserRun (set zc_l_conf r c) got)
| browser_signalled c got m sin :
    try_send m (zc_signals_in c) = (Ok tt, sin) ->
    browser_step (mk_BrowserRun c got) (mk_BrowserRun (set zc_l_signals (mk_Signals sin (zc_signals_out c)) c) got)
| browser_got c got m r :
    ring_pop (pes_sink (zc_out c)) = (Some m, r) ->
    browser_step (mk_BrowserRun c got) (mk_BrowserRun (set zc_l_out (set_sink r (zc_out c)) c) (got ++ [m])).
Definition browser_untouched (s : BrowserRun) : Prop :=
  let c := bn_browser s in
  zc_state c = ZbWaitingForConfig /\ bn_got s = [] /\ sink_items (zc_out c) = [] /\ zc_agent c = new_agent false.

(** ZeroconfBrowser never finds a service.  Its thread waits for commands in
    a loop, and looks at what was found only after the loop has ended, which is
    when the component is told to stop: along every run that has not finished,
    whatever services there are, nothing has been sent on OUT. *)
Theorem browser_finds_nothing s0 s :
  browser_untouched s0 -> rtc browser_step s0 s -> bn_got s = [] /\ sink_items (zc_out (bn_browser s)) = [].
Proof.
  intros (Hst & Hg & Ho & Ha) Hrun. assert (browser_ok (bn_got s0) (bn_browser s0)) as Hok
    by (split; rewrite ?Ha, ?Hst; [by split|constructor|constructor|done]).
  assert (browser_ok (bn_got s) (bn_browser s)) as []; [|done].
  clear Hst Hg Ho Ha. induction Hrun as [s|s1 s2 s3 Hs _ IH]; [done|]. apply IH. clear IH.
  destruct Hs as [mw c got ctx f r Hmw Hcall Hr|answer c got|c got m r Hp|c got m sin Hp|c got m r Hp]; cbn [bn_browser bn_got] in *.
  - by eapply browser_call.
  - destruct Hok as [H1 H2 H3 H4]. destruct (quiet_turn answer _ (conj H2 H3)) as [H2' H3'].
    set (a' := agent_move (Turn answer) (zc_agent c)) in *. clearbody a'. by split.
  - destruct Hok. by split.
  - destruct Hok. by split.
  - destruct Hok as [[_ H1] _ _ _]. unfold sink_items in H1. pose proof (ring_pop_res (pes_sink (zc_out c))) as H.
    rewrite Hp, H1 in H. done.
Qed.
End browser.

(** * Runs *)
#[local] Existing Instance list_rtrb.

Definition demo_ssh_args (words : list string) : list (option SshArg) := map (fun w => Some (SshValue w)) words.
Definition demo_ssh_split (s : string) : option (list string) := Some [s].
Definition demo_ssh : SshRun :=
  mk_SshRun (mk_SSHClientComponent (demo_ring false []) (demo_ring false [Text "date"]) (demo_ring false [Text "me@h:22"]) (demo_out 4)
    demo_channel demo_channel None None SshWaitingForConfig (new_agent (mk_SshThread None []))) [] [].
Definition demo_ssh_answer : SshAnswer := mk_SshAnswer (Ok tt) (Ok (mk_SshOutputOf true (Some 0%Z) [x6e])).
Ltac ssh_calls := eapply rtc_l; [eapply (ssh_called _ _ [] _ _ _ (demo_context Normal 8)); [vm_compute; reflexivity|done]|].
Ltac ssh_moves := eapply rtc_l; [eapply (ssh_turns _ _ demo_ssh_answer)|].
Ltac ssh_gives m := eapply rtc_l; [eapply (ssh_given _ _ _ _ _ m); vm_compute; reflexivity|].

(** Two packets: the command has been run for the first, and is run for the
    second. *)
Lemma ssh_one_at_a_time_witness :
  exists s config, rtc (ssh_step demo_ssh_split demo_ssh_args) demo_ssh s /\
    sh_username config = Some "me" /\ sh_address_port config = "h:22" /\
    sink_items (ss_out (sn_client s)) = [from_bytes [x6e]] /\
    is_Some (call (ssh_process demo_ssh_split demo_ssh_args []) (sn_client s) (demo_context Normal 8)) /\
    exists taken answers w, [Bytes [x61]; Bytes [x62]] = taken ++ ring_items (ss_inn (sn_client s)) /\
      asked (ss_agent (sn_client s)) = SshConnect config :: map (executed "date") taken /\
      ag_worker (ss_agent (sn_client s)) = Some w /\
      st_commands w ++ omap run_of (mp_items (ag_cmd (ss_agent (sn_client s)))) = map (fun _ => "date") taken /\
      sn_got s ++ sink_items (ss_out (sn_client s)) = omap output_of answers.
Proof.
  assert (exists s config, rtc (ssh_step demo_ssh_split demo_ssh_args) demo_ssh s /\
    sh_username config = Some "me" /\ sh_address_port config = "h:22" /\ sink_items (ss_out (sn_client s)) = [from_bytes [x6e]] /\
    ss_cmd_config (sn_client s) = Some "date" /\ ss_ssh_config (sn_client s) = Some config /\ sn_given s = [Bytes [x61]; Bytes [x62]])
    as (s & config & Hr & Hu & Ha & Ho & Hc & Hconf & Hg).
  { eexists _, _. split; [|split_and!].
    - ssh_calls. ssh_calls. ssh_moves. ssh_moves. ssh_calls. ssh_gives (Bytes [x61]). ssh_gives (Bytes [x62]).
      ssh_calls. ssh_moves. ssh_moves. ssh_calls. ssh_calls. apply rtc_refl.
    - instantiate (1 := mk_ParsedSSHConfig "h:22" (Some "me") None None SshEach false false). reflexivity.
    - reflexivity.
    - vm_compute. reflexivity.
    - vm_compute. reflexivity.
    - vm_compute. reflexivity.
    - vm_compute. reflexivity. }
  exists s, config. split_and!; [exact Hr|exact Hu|exact Ha|exact Ho|..];
    destruct (ssh_one_at_a_time demo_ssh_split demo_ssh_args demo_ssh s "date" config [] (demo_context Normal 8)) as [H1 H2];
    [by split_and!|exact Hr|exact Hc|exact Hconf|exact H1|by split_and!|exact Hr|exact Hc|exact Hconf|].
  destruct H2 as (taken & answers & w & H2 & H3 & H4 & H5 & _ & _ & H6). exists taken, answers, w. rewrite <- Hg. by split_and!.
Defined.

(** A service has been announced; nobody is told. *)
Definition demo_browser_url (url : string) : option FullUrl := Some (mk_FullUrl (mk_Url (Some "s") None "/i" []) "mdns" "" None).
Definition demo_browser : BrowserRun :=
  mk_BrowserRun (mk_ZeroconfBrowserComponent (demo_ring false [Text "url"]) (demo_out 4) demo_channel demo_channel ZbWaitingForConfig None
    (new_agent false)) [].
Definition demo_browser_answer : BrowserAnswer :=
  mk_BrowserAnswer (Ok tt) [ServiceResolved (mk_ServiceInfo "i.s.local." [(false, "10.0.0.1")] 80)].
Lemma browser_finds_nothing_witness :
  exists s, rtc (browser_step demo_browser_url) demo_browser s /\
    ag_worker (zc_agent (bn_browser s)) = Some true /\ zc_state (bn_browser s) = ZbBrowsing /\
    bn_got s = [] /\ sink_items (zc_out (bn_browser s)) = [].
Proof.
  assert (exists s, rtc (browser_step demo_browser_url) demo_browser s /\
    ag_worker (zc_agent (bn_browser s)) = Some true /\ zc_state (bn_browser s) = ZbBrowsing) as (s & Hr & Hw & Hst).
  { eexists. split; [|split].
    - eapply rtc_l; [eapply (browser_called _ [] _ _ (demo_context Normal 8)); [constructor|vm_compute; reflexivity|done]|].
      eapply rtc_l; [eapply (browser_turns _ demo_browser_answer)|].
      eapply rtc_l; [eapply (browser_called _ [] _ _ (demo_context Normal 8)); [constructor|vm_compute; reflexivity|done]|]. apply rtc_refl.
    - vm_compute. reflexivity.
    - vm_compute. reflexivity. }
  exists s. split; [exact Hr|]. split; [exact Hw|]. split; [exact Hst|].
  apply (browser_finds_nothing demo_browser_url demo_browser s); [by split_and!|exact Hr].
Defined.
