(* ===== verification/Email.v ===== *)
(** [EmailParser] of [src/components/email/src/email.rs] and what is proved about
    it: which parts of an e-mail are its bodies, and what becomes of each packet in
    a call.  The crates mailparse and serde_json are parameters. *)
From S2P Require Import Prelude Api Scheduler Process Pipes PipesTheorems Sinks Routers.
From Stdlib Require Strings.String.
From Stdlib Require Import NArith ZArith Lia Strings.Byte Strings.Ascii.
From stdpp Require Import base list strings gmap.
Local Open Scope string_scope.
Local Open Scope list_scope.
Local Open Scope flowd_scope.

Record EmailParserConfig : Type := mk_EmailParserConfig {
  ec_extract_headers : list string;
  ec_prefer_text_body : bool;
  ec_include_html_body : bool
}.
Record BodyPart : Type := mk_BodyPart { bp_content_type : string; bp_content : string }.
Record ParsedEmail : Type := mk_ParsedEmail {
  pe_headers : gmap string string;
  pe_body_text : option string;
  pe_body_html : option string;
  pe_raw_size : nat
}.

(** What mailparse finds: keys and values of the headers, the type, the body if it
    can be decoded, and the parts. *)
Inductive ParsedMail : Type :=
  mk_ParsedMail (headers : list (string * string)) (mimetype : string) (body_raw : option (list byte)) (subparts : list ParsedMail).
Definition ml_headers (m : ParsedMail) : list (string * string) := let '(mk_ParsedMail h _ _ _) := m in h.
Definition ml_mimetype (m : ParsedMail) : string := let '(mk_ParsedMail _ t _ _) := m in t.
Definition ml_body_raw (m : ParsedMail) : option (list byte) := let '(mk_ParsedMail _ _ b _) := m in b.
Definition ml_subparts (m : ParsedMail) : list ParsedMail := let '(mk_ParsedMail _ _ _ p) := m in p.

Section email.
Context `{R : Rtrb}.
(** Unicode's lower case, [mailparse::parse_mail], and the two directions of
    serde_json. *)
Variable to_lowercase : string -> string.
Variable parse_mail : list byte -> result ParsedMail string.
Variable config_from_str : string -> option EmailParserConfig.
Variable email_to_string : ParsedEmail -> option string.

(** The first header with a name. *)
Definition header_value (name : string) (headers : list (string * string)) : option string :=
  snd <$> List.find (fun h => eq_ignore_ascii_case h.1 name) headers.
Fixpoint extract_headers (names : list string) (headers : list (string * string)) (found : gmap string string) : gmap string string :=
  match names with
  | [] => found
  | name :: names =>
      extract_headers names headers (match header_value name headers with Some value => <[name := value]> found | None => found end)
  end.

Definition is_attachment (part : ParsedMail) : bool :=
  match header_value "Content-Disposition" (ml_headers part) with
  | Some value => str_contains "attachment" (to_lowercase value)
  | None => false
  end.
(** The body of a part itself. *)
Definition own_body (part : ParsedMail) : list BodyPart :=
  match ml_body_raw part ≫= from_utf8 with
  | Some content =>
      if negb (is_attachment part) && String.prefix "text/" (ml_mimetype part)
      then [mk_BodyPart (ml_mimetype part) content] else []
  | None => []
  end.
Fixpoint extract_bodies (part : ParsedMail) : list BodyPart :=
  own_body part ++
  (fix extend (subparts : list ParsedMail) : list BodyPart :=
     match subparts with [] => [] | subpart :: subparts => extract_bodies subpart ++ extend subparts end) (ml_subparts part).

Definition contents_of (content_type : string) (parts : list BodyPart) : list string :=
  omap (fun part => if String.eqb (bp_content_type part) content_type then Some (bp_content part) else None) parts.
Definition line_feed : string := String.String (Ascii.ascii_of_nat 10) EmptyString.
Definition select_bodies (parts : list BodyPart) (config : EmailParserConfig) : option string * option string :=
  let text_parts := contents_of "text/plain" parts in
  let html_parts := contents_of "text/html" parts in
  let text := Some (String.concat line_feed text_parts) in
  let html := Some (String.concat line_feed html_parts) in
  match text_parts, html_parts with
  | [], [] => (None, None)
  | _, [] => (text, None)
  | [], _ => (None, html)
  | _, _ =>
      if ec_prefer_text_body config then (text, if ec_include_html_body config then html else None)
      else (if ec_include_html_body config then text else None, html)
  end.

Definition parse_email (email_bytes : list byte) (config : EmailParserConfig) : result ParsedEmail string :=
  match parse_mail email_bytes with
  | Err e => Err e
  | Ok mail =>
      let headers := extract_headers (ec_extract_headers config) (ml_headers mail) ∅ in
      let '(body_text, body_html) := select_bodies (extract_bodies mail) config in
      Ok (mk_ParsedEmail headers body_text body_html (length email_bytes))
  end.

Record EmailParserComponent : Type := mk_EmailParserComponent {
  em_conf : ring;
  em_inn : ring;
  em_out : ProcessEdgeSink;
  em_signals_in : sync_channel;
  em_signals_out : sync_channel;
  em_config : option EmailParserConfig
}.
Definition new_email_parser `{MultiMapLib ring} `{MultiMapLib ProcessEdgeSink} (inports : multimap ring)
    (outports : multimap ProcessEdgeSink) (signals_in signals_out : sync_channel) : outcome EmailParserComponent :=
  let* (conf, inports) := take_port "CONF" inports in
  let* (inn, inports) := take_port "IN" inports in
  let* (out, outports) := take_port "OUT" outports in
  Done (mk_EmailParserComponent conf inn out signals_in signals_out None).

Definition em_l_conf : lens EmailParserComponent ring := mk_lens em_conf
  (fun x c => mk_EmailParserComponent x (em_inn c) (em_out c) (em_signals_in c) (em_signals_out c) (em_config c)).
Definition em_l_inn : lens EmailParserComponent ring := mk_lens em_inn
  (fun x c => mk_EmailParserComponent (em_conf c) x (em_out c) (em_signals_in c) (em_signals_out c) (em_config c)).
Definition em_l_out : lens EmailParserComponent ProcessEdgeSink := mk_lens em_out
  (fun x c => mk_EmailParserComponent (em_conf c) (em_inn c) x (em_signals_in c) (em_signals_out c) (em_config c)).
Definition em_l_signals : lens EmailParserComponent Signals := mk_lens
  (fun c => mk_Signals (em_signals_in c) (em_signals_out c))
  (fun x c => mk_EmailParserComponent (em_conf c) (em_inn c) (em_out c) (sig_in x) (sig_out x) (em_config c)).
Definition em_l_config : lens EmailParserComponent (option EmailParserConfig) := mk_lens em_config
  (fun x c => mk_EmailParserComponent (em_conf c) (em_inn c) (em_out c) (em_signals_in c) (em_signals_out c) x).

Definition email_configure : proc EmailParserComponent EmailParserConfig :=
  config ← read em_l_config;
  match config with
  | Some config => mret config
  | None =>
      conf_msg ← pop em_l_conf;
      match conf_msg with
      | None => return_ NoWork
      | Some conf_msg =>
          match as_text conf_msg with
          | None => panic
          | Some conf_text =>
              match config_from_str conf_text with
              | Some config => write em_l_config (Some config);; work 1;; mret config
              | None => return_ Finished
              end
          end
      end
  end.

(** The text for a packet; without one it is dropped. *)
Definition email_json (config : EmailParserConfig) (email_msg : FbpMessage) : option string :=
  match parse_email (packet_bytes email_msg) config with Ok parsed => email_to_string parsed | Err _ => None end.

Definition email_loop (config : EmailParserConfig) : proc EmailParserComponent unit :=
  while (fun f => S (ring_slots (em_inn (fr_self f))))
    (fun f => (0 <? remaining_budget (fr_ctx f))%N && negb (ring_is_empty (em_inn (fr_self f))))
    (email_msg ← pop em_l_inn;
     match email_msg with
     | None => break
     | Some email_msg =>
         match email_json config email_msg with
         | None => mret tt
         | Some json_str =>
             res ← send em_l_out (from_text json_str);
             match res with Ok _ => work 1;; charge 1 | Err _ => break end
         end
     end).

Definition email_process : proc EmailParserComponent ProcessResult :=
  zoom em_l_signals (poll message_as_utf8);;
  config ← email_configure;
  email_loop config;;
  abandoned ← is_abandoned em_l_inn;
  if (abandoned : bool) then return_ Finished
  else w ← work_units; mret (if (0 <? w)%N then DidWork w else NoWork).

#[export] Instance keeps_email : Keeps email_process.
Proof. unfold email_process, email_configure, email_loop. apply _. Qed.
Definition email_component := component_of email_process.

(** * Bodies *)

(** All parts, each before those in it. *)
Fixpoint all_parts (part : ParsedMail) : list ParsedMail :=
  part ::
  (fix parts (subparts : list ParsedMail) : list ParsedMail :=
     match subparts with [] => [] | subpart :: subparts => all_parts subpart ++ parts subparts end) (ml_subparts part).

Lemma extract_headers_spec names headers found name :
  extract_headers names headers found !! name =
    if decide (name ∈ names) then (match header_value name headers with Some value => Some value | None => found !! name end)
    else found !! name.
Proof.
  revert found. induction names as [|n names IH]; intros found; cbn [extract_headers]; [by rewrite decide_False by apply not_elem_of_nil|].
  rewrite IH. destruct (decide (name = n)) as [->|Hn].
  - rewrite (decide_True (P := n ∈ n :: names)) by apply list_elem_of_here.
    destruct (header_value n headers) as [v|]; [rewrite lookup_insert_eq|]; by destruct (decide (n ∈ names)).
  - assert ((match header_value n headers with Some value => <[n := value]> found | None => found end) !! name = found !! name) as ->
      by (destruct (header_value n headers); [by rewrite lookup_insert_ne|done]).
    destruct (decide (name ∈ names)) as [H|H], (decide (name ∈ n :: names)) as [H'|H']; try done.
    + destruct H'. by right.
    + by apply elem_of_cons in H' as [?|?].
Qed.

Section induction.
Variable P : ParsedMail -> Prop.
Hypothesis parts_first : forall part, Forall P (ml_subparts part) -> P part.
Fixpoint mail_ind (part : ParsedMail) : P part :=
  parts_first part
    ((match part as p return Forall P (ml_subparts p) with
      | mk_ParsedMail h t b subparts =>
          (fix all (l : list ParsedMail) : Forall P l :=
             match l with [] => List.Forall_nil P | x :: l => List.Forall_cons P x l (mail_ind x) (all l) end) subparts
      end)).
End induction.

Lemma extract_bodies_parts part : extract_bodies part = concat (map own_body (all_parts part)).
Proof.
  induction part as [[h t b subparts] IH] using mail_ind. simpl in *. f_equal.
  induction IH as [|x l Hx _ IH]; [done|]. by rewrite Hx, IH, map_app, concat_app.
Qed.

(** * Calls *)

(** What a call has done with the packets: those whose texts were sent and those
    without one, and what the budget paid for. *)
Record email_done (config : EmailParserConfig) (taken : list FbpMessage) (f f' : frame EmailParserComponent) : Prop := mk_email_done {
  ed_inn : ring_items (em_inn (fr_self f)) = taken ++ ring_items (em_inn (fr_self f'));
  ed_out : sink_items (em_out (fr_self f')) = sink_items (em_out (fr_self f)) ++ map from_text (omap (email_json config) taken);
  ed_work : fr_work f' = (fr_work f + N.of_nat (length (omap (email_json config) taken)))%N;
  ed_budget : (remaining_budget (fr_ctx f') + N.of_nat (length (omap (email_json config) taken)) = remaining_budget (fr_ctx f))%N;
  ed_abandoned : ring_is_abandoned (em_inn (fr_self f')) = ring_is_abandoned (em_inn (fr_self f));
  ed_room : room (em_out (fr_self f')) = (room (em_out (fr_self f)) - length (omap (email_json config) taken))%nat
}.

(** How the loop ends: the budget or the inport is used up, or a packet is lost
    because there is no room for its text. *)
Definition email_ends (config : EmailParserConfig) (lost : list FbpMessage) (f f' : frame EmailParserComponent) : Prop :=
  (lost = [] /\ (remaining_budget (fr_ctx f') = 0%N \/ ring_items (em_inn (fr_self f')) = [])) \/
  (exists m, lost = [m] /\ is_Some (email_json config m) /\ room (em_out (fr_self f')) = 0%nat).

Lemma email_done_refl config f : email_done config [] f f.
Proof. split; simpl; [done|by rewrite app_nil_r|lia|lia|done|lia]. Qed.

(** One packet more. *)
Lemma email_done_more config taken m f f1 f2 :
  email_done config taken f f1 ->
  ring_items (em_inn (fr_self f1)) = m :: ring_items (em_inn (fr_self f2)) ->
  sink_items (em_out (fr_self f2)) = sink_items (em_out (fr_self f1)) ++ map from_text (omap (email_json config) [m]) ->
  (fr_work f2 = fr_work f1 + N.of_nat (length (omap (email_json config) [m])))%N ->
  (remaining_budget (fr_ctx f2) + N.of_nat (length (omap (email_json config) [m])) = remaining_budget (fr_ctx f1))%N ->
  ring_is_abandoned (em_inn (fr_self f2)) = ring_is_abandoned (em_inn (fr_self f1)) ->
  room (em_out (fr_self f2)) = (room (em_out (fr_self f1)) - length (omap (email_json config) [m]))%nat ->
  email_done config (taken ++ [m]) f f2.
Proof.
  intros [H1 H2 H3 H4 H5 H6] E1 E2 E3 E4 E5 E6. split; rewrite ?omap_app, ?map_app, ?length_app.
  - by rewrite H1, E1, <- app_assoc.
  - by rewrite E2, H2, <- app_assoc.
  - lia.
  - lia.
  - by rewrite E5.
  - rewrite E6, H6. lia.
Qed.

Lemma wp_email_loop config f (Q : unit -> frame EmailParserComponent -> Prop) E :
  (forall f' taken lost, email_ends config lost f f' ->
     (exists g, email_done config taken f g /\ ring_items (em_inn (fr_self g)) = lost ++ ring_items (em_inn (fr_self f')) /\
        sink_items (em_out (fr_self f')) = sink_items (em_out (fr_self g)) /\ fr_work f' = fr_work g /\
        ring_is_abandoned (em_inn (fr_self f')) = ring_is_abandoned (em_inn (fr_self g)) /\
        fr_ctx f' = fr_ctx g /\ room (em_out (fr_self f')) = room (em_out (fr_self g))) -> Q tt f') ->
  wp (email_loop config) Q E f.
Proof.
  intros HQ. unfold email_loop. apply (wp_while (fun g => exists taken, email_done config taken f g) (fun g => length (ring_items (em_inn (fr_self g))))).
  - exists []. apply email_done_refl.
  - rewrite ring_slots_spec. lia.
  - intros g (taken & Hg) Hc. apply (HQ g taken []); [left; split; [done|]|by exists g].
    apply andb_false_iff in Hc as [Hc|Hc]; [left; by destruct (remaining_budget (fr_ctx g))|right].
    rewrite ring_is_empty_spec in Hc. by destruct (ring_items _).
  - intros g (taken & Hg) Hc. apply andb_true_iff in Hc as [Hb He]. apply N.ltb_lt in Hb. rewrite ring_is_empty_spec in He.
    apply wp_bind, wp_pop; simpl; [intros H0; by rewrite H0 in He|]. intros m rest r Hi [Hr _ Hab]. rewrite Hi in Hr. simpl in Hr. rewrite drop_0 in Hr.
    destruct (email_json config m) as [json|] eqn:Hj.
    + apply wp_bind, wp_send; simpl.
      * intros _ o es Hs _. wp_run. split; [|simpl; rewrite Hr, Hi; simpl; lia]. exists (taken ++ [m]).
        eapply email_done_more; [exact Hg|simpl; rewrite ?Hj..]; simpl; [by rewrite Hi, Hr|by rewrite (sent_items _ _ _ _ Hs)|done|lia|done|].
        by rewrite (sent_room _ _ _ _ Hs).
      * intros Hfull o Hs. wp_run. pose proof (sent_items _ _ _ _ Hs) as Ho. rewrite app_nil_r in Ho.
        pose proof (sent_room _ _ _ _ Hs) as Hroom. simpl in Hroom. rewrite Nat.sub_0_r in Hroom.
        eapply (HQ _ taken [m]); [right; exists m; split_and!; [done|by rewrite Hj|simpl; by rewrite Hroom]|].
        exists g. split_and!; simpl; try done. by rewrite Hi, Hr.
    + apply wp_ret. split; [|simpl; rewrite Hr, Hi; simpl; lia]. exists (taken ++ [m]).
      eapply email_done_more; [exact Hg|simpl; rewrite ?Hj..]; simpl; [by rewrite Hi, Hr|by rewrite app_nil_r|lia|lia|done|lia].
Qed.

(** C40: a call of EmailParser that is configured and not told to stop.  It takes
    packets in order: those whose text is made are sent in order and paid for, one
    unit of budget each, those without are dropped; it goes on until the budget or
    the inport is used up, or until there is no room at OUT, and then the packet
    that was taken last is lost.  It finishes exactly when the producer is gone,
    whatever is left at the inport. *)
Theorem email_call config c ctx :
  em_config c = Some config -> ~ stop_next message_as_utf8 (get em_l_signals c) ->
  exists f taken lost n, call email_process c ctx =
      Some (f, Some (if ring_is_abandoned (em_inn c) then Finished else if (0 <? n)%N then DidWork n else NoWork)) /\
    ring_items (em_inn c) = taken ++ lost ++ ring_items (em_inn (fr_self f)) /\
    sink_items (em_out (fr_self f)) = sink_items (em_out c) ++ map from_text (omap (email_json config) taken) /\
    n = N.of_nat (length (omap (email_json config) taken)) /\
    (remaining_budget (fr_ctx f) + n = remaining_budget ctx)%N /\
    ((lost = [] /\ (n = remaining_budget ctx \/ ring_items (em_inn (fr_self f)) = [])) \/
     (exists m, lost = [m] /\ is_Some (email_json config m) /\ (N.of_nat (room (em_out c)) <= n)%N)).
Proof.
  intros Hconf Hstop.
  assert (exists f r, call email_process c ctx = Some (f, r) /\
    exists taken lost, r = Some (if ring_is_abandoned (em_inn c) then Finished else
        let n := N.of_nat (length (omap (email_json config) taken)) in if (0 <? n)%N then DidWork n else NoWork) /\
      exists f0 g, fr_ctx f0 = ctx /\ em_inn (fr_self f0) = em_inn c /\ em_out (fr_self f0) = em_out c /\ fr_work f0 = 0%N /\
        email_ends config lost f0 f /\ email_done config taken f0 g /\
        ring_items (em_inn (fr_self g)) = lost ++ ring_items (em_inn (fr_self f)) /\
        sink_items (em_out (fr_self f)) = sink_items (em_out (fr_self g)) /\ fr_work f = fr_work g /\
        ring_is_abandoned (em_inn (fr_self f)) = ring_is_abandoned (em_inn (fr_self g)) /\
        fr_ctx f = fr_ctx g /\ room (em_out (fr_self f)) = room (em_out (fr_self g))) as (f & r & Hcall & taken & lost & Hres & f0 & g & H).
  { apply wp_call. unfold email_process. apply wp_bind, wp_zoom, wp_poll; [|done]. intros sg sg_out ?. apply wp_bind. unfold email_configure.
    apply wp_bind, wp_read. simpl. rewrite Hconf. apply wp_ret, wp_bind, wp_email_loop. set (f0 := mk_frame _ _ _ _ _).
    intros f taken lost He (g & Hg & H1 & H2 & H3 & H4 & H5 & H6). apply wp_bind, wp_is_abandoned. simpl.
    assert (ring_is_abandoned (em_inn (fr_self f)) = ring_is_abandoned (em_inn c)) as Hab by (rewrite H4; apply (ed_abandoned _ _ _ _ Hg)).
    rewrite Hab. destruct (ring_is_abandoned (em_inn c)).
    - apply wp_leave. exists taken, lost. split; [done|]. exists f0, g. by split_and!.
    - apply wp_bind, wp_work_units, wp_ret. exists taken, lost. rewrite H3, (ed_work _ _ _ _ Hg). split; [done|]. exists f0, g. split_and!; try done. by rewrite (ed_work _ _ _ _ Hg). }
  rewrite Hres in Hcall. destruct H as (E1 & E2 & E3 & E4 & He & [D1 D2 D3 D4 D5 D6] & H1 & H2 & H3 & H4 & H5 & H6).
  rewrite E1 in D4. rewrite E2, H1 in D1. rewrite E3 in D2, D6.
  exists f, taken, lost, (N.of_nat (length (omap (email_json config) taken))). split_and!; [exact Hcall|exact D1|by rewrite H2|done|by rewrite H5|].
  destruct He as [[-> [Hb|Hi]]|(m & -> & Hm & Hroom)]; [left; split; [done|left; rewrite H5 in Hb; lia]|left; by split; [|right]|right].
  exists m. split_and!; [done|done|]. rewrite H6, D6 in Hroom. lia.
Qed.
End email.

#[local] Existing Instance list_rtrb.

(** Of four packets two are sent, one cannot be parsed, and one is lost. *)
Definition demo_mail (bs : list byte) : result ParsedMail string :=
  match bs with
  | [] => Err "empty"
  | _ => Ok (mk_ParsedMail [("SUBJECT", "s")] "text/plain" (Some bs) [])
  end.
Definition demo_email : EmailParserComponent :=
  mk_EmailParserComponent (demo_ring false []) (demo_ring false [Bytes [x61]; Text "t"; Bytes [x62]; Bytes [x63]; Bytes [x64]]) (demo_out 2)
    demo_channel demo_channel (Some (mk_EmailParserConfig ["Subject"] true false)).
Definition demo_email_text (e : ParsedEmail) : option string := pe_body_text e.
Lemma email_call_witness :
  exists f taken, call (email_process id demo_mail (fun _ => None) demo_email_text) demo_email (demo_context Normal 8) =
      Some (f, Some (DidWork 2)) /\
    sink_items (em_out (fr_self f)) = [from_text "a"; from_text "b"] /\ ring_items (em_inn (fr_self f)) = [Bytes [x64]] /\
    [Bytes [x61]; Text "t"; Bytes [x62]; Bytes [x63]; Bytes [x64]] = taken ++ [Bytes [x63]] ++ [Bytes [x64]].
Proof.
  destruct (email_call id demo_mail (fun _ => None) demo_email_text (mk_EmailParserConfig ["Subject"] true false) demo_email (demo_context Normal 8))
    as (f & taken & lost & n & Hcall & Hi & _).
  - reflexivity.
  - unfold stop_next. simpl. intros (m & Hm & _). discriminate Hm.
  - assert (exists f', call (email_process id demo_mail (fun _ => None) demo_email_text) demo_email (demo_context Normal 8) =
        Some (f', Some (DidWork 2)) /\ sink_items (em_out (fr_self f')) = [from_text "a"; from_text "b"] /\
        ring_items (em_inn (fr_self f')) = [Bytes [x64]]) as (f' & Hcall' & Ho & Hi')
      by (eexists; split; [vm_compute; reflexivity|split; vm_compute; reflexivity]).
    rewrite Hcall' in Hcall. injection Hcall as <- _. rewrite Hi' in Hi. exists f', [Bytes [x61]; Text "t"; Bytes [x62]].
    split_and!; [exact Hcall'|exact Ho|exact Hi'|reflexivity].
Defined.
