(* ===== verification/HttpClient.v ===== *)
(** [HTTPClient] of [src/components/http/src/http.rs] and its worker thread, to which
    it is joined by two channels.

    What the crate reqwest answers to an attempt, the display of a status and
    serde_json are arguments. *)
From S2P Require Import Prelude Api Scheduler Process Pipes Io.
From Stdlib Require Strings.String.
From Stdlib Require Import NArith ZArith Lia Strings.Byte.
From stdpp Require Import base list strings gmap.
Local Open Scope string_scope.
Local Open Scope list_scope.
Local Open Scope flowd_scope.

(** * The worker *)

Inductive HttpErrorType : Type := HttpTransient | HttpPermanent.

(** [reqwest::Error], as far as it is asked. *)
Record HttpError : Type := mk_HttpError {
  he_timeout : bool;
  he_connect : bool;
  he_status : option N;
  he_text : string
}.
(** The classes of [StatusCode]. *)
Definition is_success (status : N) : bool := ((200 <=? status) && (status <? 300))%N.
Definition is_client_error (status : N) : bool := ((400 <=? status) && (status <? 500))%N.
Definition is_server_error (status : N) : bool := ((500 <=? status) && (status <? 600))%N.

Definition classify_http_error (error : HttpError) : HttpErrorType :=
  if he_timeout error || he_connect error then HttpTransient
  else match he_status error with
       | Some status =>
           if is_server_error status then HttpTransient
           else if is_client_error status then HttpPermanent else HttpTransient
       | None => HttpTransient
       end.

(** One attempt: no client could be built, which unwinds; the request failed; or
    there is a response, whose body can be read or not. *)
Inductive HttpAttempt : Type :=
| NoClient
| RequestFailed (e : HttpError)
| Responded (status : N) (body : result (list byte) string).

Section worker.
Variable http_get : string -> nat -> HttpAttempt.
Variable status_display : N -> string.

Definition WORKER_RETRIES : nat := 3.
Definition WORKER_BASE_MS : N := 100.
Definition WORKER_MAX_MS : N := 30000.
Definition worker_backoff (attempt : nat) : N :=
  N.min (WORKER_BASE_MS * 2 ^ N.of_nat (attempt - 1)) WORKER_MAX_MS.

(** What an attempt leads to: the result, or another attempt if it may be
    repeated. *)
Definition attempt_result (a : HttpAttempt) : option (result (list byte) string * bool) :=
  match a with
  | NoClient => None
  | RequestFailed e =>
      Some (Err ("HTTP request failed: " +:+ he_text e),
            match classify_http_error e with HttpTransient => true | HttpPermanent => false end)
  | Responded status (Ok body) =>
      if is_success status then Some (Ok body, false)
      else Some (Err ("HTTP " +:+ status_display status +:+ ": "
                      +:+ String.string_of_list_byte (utf8_lossy body)), is_server_error status)
  | Responded status (Err e) =>
      Some (Err ("HTTP " +:+ status_display status +:+ ": Failed to read response body: " +:+ e), true)
  end.

(** The loop over the attempts, from number [attempt] on, with the pauses in
    milliseconds; [None] unwinds.  Every attempt may be followed by another one
    as long as its number is below the limit. *)
Fixpoint attempts (fuel attempt : nat) (url : string) : option (result (list byte) string * list N) :=
  match attempt_result (http_get url attempt) with
  | None => None
  | Some (res, retry) =>
      match fuel with
      | S fuel =>
          if retry && (attempt <? WORKER_RETRIES)%nat then
            match attempts fuel (S attempt) url with
            | Some (res, pauses) => Some (res, worker_backoff attempt :: pauses)
            | None => None
            end
          else Some (res, [])
      | O => Some (res, [])
      end
  end.
Definition worker_request (url : string) : option (result (list byte) string * list N) :=
  attempts (WORKER_RETRIES - 1) 1 url.
End worker.

(** * The component *)

Inductive HttpClientState : Type :=
| WaitingForRequests
| Processing
| HttpFinished.

Section http_client.
Context `{R : Rtrb} {Json : Type}.
(** [serde_json::from_str], and [config.get(key).and_then(as_u64)]. *)
Variable json_from_str : string -> option Json.
Variable json_get_u64 : Json -> string -> option N.

Record HTTPClientComponent : Type := mk_HTTPClientComponent {
  hc_conf : ring;
  hc_req : ring;
  hc_out_resp : ProcessEdgeSink;
  hc_out_err : ProcessEdgeSink;
  hc_signals_in : sync_channel;
  hc_signals_out : sync_channel;
  hc_state : HttpClientState;
  hc_pending_responses : list (list byte);
  hc_pending_errors : list (list byte);
  hc_max_retries : N;
  hc_backoff_base_ms : N;
  hc_backoff_max_ms : N;
  hc_cmd : mpsc string;
  hc_result : mpsc (result (list byte) string)
}.

Definition hc_l_conf : lens HTTPClientComponent ring := mk_lens hc_conf
  (fun x c => mk_HTTPClientComponent x (hc_req c) (hc_out_resp c) (hc_out_err c) (hc_signals_in c)
     (hc_signals_out c) (hc_state c) (hc_pending_responses c) (hc_pending_errors c) (hc_max_retries c)
     (hc_backoff_base_ms c) (hc_backoff_max_ms c) (hc_cmd c) (hc_result c)).
Definition hc_l_req : lens HTTPClientComponent ring := mk_lens hc_req
  (fun x c => mk_HTTPClientComponent (hc_conf c) x (hc_out_resp c) (hc_out_err c) (hc_signals_in c)
     (hc_signals_out c) (hc_state c) (hc_pending_responses c) (hc_pending_errors c) (hc_max_retries c)
     (hc_backoff_base_ms c) (hc_backoff_max_ms c) (hc_cmd c) (hc_result c)).
Definition hc_l_out_resp : lens HTTPClientComponent ProcessEdgeSink := mk_lens hc_out_resp
  (fun x c => mk_HTTPClientComponent (hc_conf c) (hc_req c) x (hc_out_err c) (hc_signals_in c)
     (hc_signals_out c) (hc_state c) (hc_pending_responses c) (hc_pending_errors c) (hc_max_retries c)
     (hc_backoff_base_ms c) (hc_backoff_max_ms c) (hc_cmd c) (hc_result c)).
Definition hc_l_out_err : lens HTTPClientComponent ProcessEdgeSink := mk_lens hc_out_err
  (fun x c => mk_HTTPClientComponent (hc_conf c) (hc_req c) (hc_out_resp c) x (hc_signals_in c)
     (hc_signals_out c) (hc_state c) (hc_pending_responses c) (hc_pending_errors c) (hc_max_retries c)
     (hc_backoff_base_ms c) (hc_backoff_max_ms c) (hc_cmd c) (hc_result c)).
Definition hc_l_state : lens HTTPClientComponent HttpClientState := mk_lens hc_state
  (fun x c => mk_HTTPClientComponent (hc_conf c) (hc_req c) (hc_out_resp c) (hc_out_err c) (hc_signals_in c)
     (hc_signals_out c) x (hc_pending_responses c) (hc_pending_errors c) (hc_max_retries c)
     (hc_backoff_base_ms c) (hc_backoff_max_ms c) (hc_cmd c) (hc_result c)).
Definition hc_l_pending_responses : lens HTTPClientComponent (list (list byte)) := mk_lens hc_pending_responses
  (fun x c => mk_HTTPClientComponent (hc_conf c) (hc_req c) (hc_out_resp c) (hc_out_err c) (hc_signals_in c)
     (hc_signals_out c) (hc_state c) x (hc_pending_errors c) (hc_max_retries c) (hc_backoff_base_ms c)
     (hc_backoff_max_ms c) (hc_cmd c) (hc_result c)).
Definition hc_l_pending_errors : lens HTTPClientComponent (list (list byte)) := mk_lens hc_pending_errors
  (fun x c => mk_HTTPClientComponent (hc_conf c) (hc_req c) (hc_out_resp c) (hc_out_err c) (hc_signals_in c)
     (hc_signals_out c) (hc_state c) (hc_pending_responses c) x (hc_max_retries c) (hc_backoff_base_ms c)
     (hc_backoff_max_ms c) (hc_cmd c) (hc_result c)).
Definition hc_l_cmd : lens HTTPClientComponent (mpsc string) := mk_lens hc_cmd
  (fun x c => mk_HTTPClientComponent (hc_conf c) (hc_req c) (hc_out_resp c) (hc_out_err c) (hc_signals_in c)
     (hc_signals_out c) (hc_state c) (hc_pending_responses c) (hc_pending_errors c) (hc_max_retries c)
     (hc_backoff_base_ms c) (hc_backoff_max_ms c) x (hc_result c)).
Definition hc_l_result : lens HTTPClientComponent (mpsc (result (list byte) string)) := mk_lens hc_result
  (fun x c => mk_HTTPClientComponent (hc_conf c) (hc_req c) (hc_out_resp c) (hc_out_err c) (hc_signals_in c)
     (hc_signals_out c) (hc_state c) (hc_pending_responses c) (hc_pending_errors c) (hc_max_retries c)
     (hc_backoff_base_ms c) (hc_backoff_max_ms c) (hc_cmd c) x).
Definition hc_l_signals : lens HTTPClientComponent Signals := mk_lens 
  (fun c => mk_Signals (hc_signals_in c) (hc_signals_out c))
  (fun x c => mk_HTTPClientComponent (hc_conf c) (hc_req c) (hc_out_resp c) (hc_out_err c) (sig_in x)
     (sig_out x) (hc_state c) (hc_pending_responses c) (hc_pending_errors c) (hc_max_retries c)
     (hc_backoff_base_ms c) (hc_backoff_max_ms c) (hc_cmd c) (hc_result c)).
Definition hc_l_retries : lens HTTPClientComponent (N * N * N) := mk_lens 
  (fun c => (hc_max_retries c, hc_backoff_base_ms c, hc_backoff_max_ms c))
  (fun x c => mk_HTTPClientComponent (hc_conf c) (hc_req c) (hc_out_resp c) (hc_out_err c) (hc_signals_in c)
     (hc_signals_out c) (hc_state c) (hc_pending_responses c) (hc_pending_errors c) x.1.1 x.1.2 x.2 (hc_cmd c)
     (hc_result c)).

Definition new_http_client `{MultiMapLib ring} `{MultiMapLib ProcessEdgeSink}
    (inports : multimap ring) (outports : multimap ProcessEdgeSink)
    (signals_in signals_out : sync_channel) : outcome HTTPClientComponent :=
  let '(cmd, res) := create_io_channels string (result (list byte) string) in
  let* (conf, inports) := take_port "CONF" inports in
  let* (req, inports) := take_port "REQ" inports in
  let* (out_resp, outports) := take_port "RESP" outports in
  let* (out_err, outports) := take_port "ERR" outports in
  Done (mk_HTTPClientComponent conf req out_resp out_err signals_in signals_out WaitingForRequests [] [] 3 100 30000
          cmd res).

(** The retry parameters, which the worker does not see. *)
Definition read_retries : proc HTTPClientComponent unit :=
  conf_msg ← pop hc_l_conf;
  match (conf_msg : option FbpMessage) ≫= (fun m => as_text m ≫= json_from_str) with
  | None => mret tt
  | Some config =>
      r ← read hc_l_retries;
      write hc_l_retries
        (default r.1.1 (u32_of_u64 <$> json_get_u64 config "max_retries"),
         default r.1.2 (json_get_u64 config "backoff_base_ms"),
         default r.2 (json_get_u64 config "backoff_max_ms"))
  end.

Definition check_http_signals : proc HTTPClientComponent unit :=
  stop ← zoom hc_l_signals (signal_stop message_as_utf8);
  if (stop : bool) then write hc_l_state HttpFinished;; return_ Finished else mret tt.

(** A request goes to the worker; one that finds no room is dropped. *)
Definition post_request (url_msg : FbpMessage) : proc HTTPClientComponent ProcessResult :=
  match message_as_utf8 url_msg with
  | None => panic
  | Some url =>
      p ← post hc_l_cmd url;
      match p with
      | Posted => write hc_l_state Processing;; return_ (DidWork 1)
      | PostFull => write hc_l_state WaitingForRequests;; return_ NoWork
      | PostDisconnected => write hc_l_state HttpFinished;; return_ Finished
      end
  end.

(** A result is sent, or kept where nothing takes it from. *)
Definition output_result (res : result (list byte) string) : proc HTTPClientComponent ProcessResult :=
  match res with
  | Ok body =>
      r ← send hc_l_out_resp (from_bytes body);
      match r with
      | Ok _ => mret tt
      | Err body =>
          p ← read hc_l_pending_responses; write hc_l_pending_responses (p ++ [default [] (as_bytes body)])
      end
  | Err error_msg =>
      r ← send hc_l_out_err (from_bytes (string_bytes error_msg));
      match r with
      | Ok _ => mret tt
      | Err error_bytes =>
          p ← read hc_l_pending_errors; write hc_l_pending_errors (p ++ [default [] (as_bytes error_bytes)])
      end
  end;;
  write hc_l_state WaitingForRequests;; return_ (DidWork 1).

Definition wait_for_requests : proc HTTPClientComponent ProcessResult :=
  url_msg ← pop hc_l_req;
  match url_msg with
  | Some url_msg => post_request url_msg
  | None =>
      res ← receive hc_l_result;
      match res with
      | Received res => output_result res
      | RecvDisconnected => write hc_l_state HttpFinished;; return_ Finished
      | RecvEmpty =>
          b ← budget;
          if (b =? 0)%N then return_ NoWork else charge 1;; return_ NoWork
      end
  end.

(** The state is replaced by [Finished] before it is looked at. *)
Definition http_client_process : proc HTTPClientComponent ProcessResult :=
  read_retries;;
  check_http_signals;;
  current_state ← read hc_l_state;
  write hc_l_state HttpFinished;;
  match current_state with
  | WaitingForRequests => wait_for_requests
  | Processing => write hc_l_state HttpFinished;; mret Finished
  | HttpFinished => mret Finished
  end.

#[export] Instance keeps_http_client : Keeps http_client_process.
Proof.
  unfold http_client_process, read_retries, check_http_signals, wait_for_requests, output_result, post_request.
  apply _.
Qed.
Definition http_client_component := component_of http_client_process.
End http_client.
