(* ===== verification/HttpClientTheorems.v ===== *)
(** What is proved about [HTTPClient]: its worker repeats a request at most twice,
    and the component finishes before any answer can reach it. *)
From S2P Require Import Prelude Api Scheduler Process Pipes Io HttpClient.
From Stdlib Require Strings.String.
From Stdlib Require Import NArith ZArith Lia Strings.Byte.
From stdpp Require Import base list strings gmap relations.
Local Open Scope string_scope.
Local Open Scope list_scope.

(** * The worker *)
Section worker.
Variable http_get : string -> nat -> HttpAttempt.
Variable status_display : N -> string.

(** Attempt [n] may be repeated. *)
Definition retryable (url : string) (n : nat) : Prop :=
  exists e, attempt_result status_display (http_get url n) = Some (e, true).

Lemma attempts_spec fuel attempt url :
  (attempt + fuel = WORKER_RETRIES)%nat ->
  exists n, (attempt <= n <= WORKER_RETRIES)%nat /\ (forall i, (attempt <= i < n)%nat -> retryable url i) /\
    match attempts http_get status_display fuel attempt url with
    | Some (res, pauses) =>
        (exists again, attempt_result status_display (http_get url n) = Some (res, again) /\
           (again = true -> n = WORKER_RETRIES)) /\
        pauses = map worker_backoff (seq attempt (n - attempt))
    | None => attempt_result status_display (http_get url n) = None
    end.
Proof.
  revert attempt. induction fuel as [|fuel IH]; intros attempt Hf; simpl.
  - exists attempt. split; [lia|]. split; [lia|].
    destruct (attempt_result _ _) as [[res again]|] eqn:Hr; [|done].
    split; [exists again; split; [done|lia]|]. by rewrite Nat.sub_diag.
  - destruct (attempt_result _ _) as [[res again]|] eqn:Hr; [|exists attempt; split_and!; [lia..|done]].
    destruct (Nat.ltb_spec attempt WORKER_RETRIES) as [_|]; [|lia]. destruct again; simpl.
    + destruct (IH (S attempt) ltac:(lia)) as (n & Hn & Hre & H). exists n. split; [lia|]. split.
      { intros i Hi. destruct (decide (i = attempt)) as [->|]; [by exists res|]. apply Hre. lia. }
      destruct (attempts _ _ fuel (S attempt) url) as [[res' pauses]|]; [|done].
      destruct H as [Hres ->]. split; [done|]. replace (n - attempt)%nat with (S (n - S attempt)) by lia. done.
    + exists attempt. split; [lia|]. split; [lia|]. split; [by exists false|]. by rewrite Nat.sub_diag.
Qed.

(** The worker makes one to three attempts, each but the last one failed in a
    way that may be repeated; it returns what the last one led to, an error that
    may be repeated only from the third; between the attempts it pauses for 100
    and 200 milliseconds. *)
Theorem http_worker_retries url res pauses :
  worker_request http_get status_display url = Some (res, pauses) ->
  exists n again, (1 <= n <= 3)%nat /\ (forall i, (1 <= i < n)%nat -> retryable url i) /\
    attempt_result status_display (http_get url n) = Some (res, again) /\ (again = true -> n = 3%nat) /\
    pauses = take (n - 1) [100; 200]%N.
Proof.
  intros Hw. destruct (attempts_spec (WORKER_RETRIES - 1) 1 url eq_refl) as (n & Hn & Hre & H).
  unfold worker_request in Hw. rewrite Hw in H. destruct H as ((again & Hres & Hag) & ->). exists n, again.
  split_and!; [exact (proj1 Hn)|exact (proj2 Hn)|done..|].
  unfold WORKER_RETRIES in Hn. destruct n as [|[|[|[|n]]]]; [lia|done..|lia].
Qed.
End worker.

(** * The component *)
Section client.
Context `{R : Rtrb} {Json : Type}.
Variable json_from_str : string -> option Json.
Variable json_get_u64 : Json -> string -> option N.
Variable http_get : string -> nat -> HttpAttempt.
Variable status_display : N -> string.
Abbreviation process := (http_client_process json_from_str json_get_u64).

(** The component, the request that the worker is at, and the requests that it
    has taken. *)
Record HttpRun : Type := mk_HttpRun {
  hr_client : HTTPClientComponent;
  hr_busy : option string;
  hr_asked : list string
}.
Abbreviation post_result c res :=
  (set hc_l_result (mpsc_try_send res (hc_result c)).2 c).

(** What may have happened to the ports from outside: packets and signals have
    come, and packets have been taken. *)
Record ports_moved (c c' : HTTPClientComponent) : Prop := mk_ports_moved {
  pm_resp : sink_items (hc_out_resp c') `suffix_of` sink_items (hc_out_resp c);
  pm_err : sink_items (hc_out_err c') `suffix_of` sink_items (hc_out_err c);
  pm_state : hc_state c' = hc_state c;
  pm_cmd : hc_cmd c' = hc_cmd c;
  pm_result : hc_result c' = hc_result c;
  pm_kept : hc_pending_responses c' = hc_pending_responses c /\ hc_pending_errors c' = hc_pending_errors c
}.

(** A call; a move of the ports; the worker takes a request, and has an answer
    or dies. *)
Inductive http_client_step : HttpRun -> HttpRun -> Prop :=
| http_call c busy asked ctx f r :
    call process c ctx = Some (f, r) ->
    http_client_step (mk_HttpRun c busy asked) (mk_HttpRun (fr_self f) busy asked)
| http_ports c c' busy asked :
    ports_moved c c' -> http_client_step (mk_HttpRun c busy asked) (mk_HttpRun c' busy asked)
| http_take c asked url ch :
    mpsc_try_recv (hc_cmd c) = (Received url, ch) ->
    http_client_step (mk_HttpRun c None asked) (mk_HttpRun (set hc_l_cmd ch c) (Some url) (asked ++ [url]))
| http_answer c url asked res pauses :
    worker_request http_get status_display url = Some (res, pauses) ->
    http_client_step (mk_HttpRun c (Some url) asked) (mk_HttpRun (post_result c res) None asked)
| http_dies c url asked :
    worker_request http_get status_display url = None ->
    http_client_step (mk_HttpRun c (Some url) asked)
      (mk_HttpRun (set hc_l_cmd (drop_receiver (hc_cmd c)) (set hc_l_result (drop_sender (hc_result c)) c)) None asked).

(** As the constructor leaves it. *)
Definition http_untouched (s : HttpRun) : Prop :=
  let c := hr_client s in
  hc_state c = WaitingForRequests /\ (hc_cmd c, hc_result c) = create_io_channels _ _ /\
  hc_pending_responses c = [] /\ hc_pending_errors c = [] /\ hr_busy s = None /\ hr_asked s = [].

(** As long as the component waits for requests, there is none and no answer;
    afterwards there is at most one. *)
Definition no_answer (c0 : HTTPClientComponent) (s : HttpRun) : Prop :=
  let c := hr_client s in
  sink_items (hc_out_resp c) `suffix_of` sink_items (hc_out_resp c0) /\
  sink_items (hc_out_err c) `suffix_of` sink_items (hc_out_err c0) /\
  hc_pending_responses c = [] /\ hc_pending_errors c = [] /\
  (length (hr_asked s) + length (mp_items (hc_cmd c)) <= 1)%nat /\
  (hc_state c = WaitingForRequests ->
   (hc_cmd c, hc_result c) = create_io_channels _ _ /\ hr_busy s = None /\ hr_asked s = []).

(** What the configuration and the signals leave alone. *)
Definition kept (c c' : HTTPClientComponent) : Prop :=
  (hc_out_resp c', hc_out_err c', hc_pending_responses c', hc_pending_errors c', hc_cmd c', hc_result c') =
  (hc_out_resp c, hc_out_err c, hc_pending_responses c, hc_pending_errors c, hc_cmd c, hc_result c).

Lemma kept_no_answer c0 c c' busy asked :
  kept c c' -> hc_state c' = hc_state c \/ hc_state c' <> WaitingForRequests ->
  no_answer c0 (mk_HttpRun c busy asked) -> no_answer c0 (mk_HttpRun c' busy asked).
Proof.
  unfold kept, no_answer. simpl. intros [= -> -> -> -> -> ->] Hs (H1 & H2 & H3 & H4 & H5 & H6).
  split_and!; try done. intros Hw. apply H6. destruct Hs; congruence.
Qed.

Lemma wp_read_retries (Q : unit -> frame HTTPClientComponent -> Prop) E f :
  (forall f', kept (fr_self f) (fr_self f') -> hc_state (fr_self f') = hc_state (fr_self f) -> Q tt f') ->
  wp (read_retries json_from_str json_get_u64) Q E f.
Proof.
  intros HQ. unfold read_retries. apply wp_bind, wp_pop; simpl.
  - intros _ r _. wp_run. by apply HQ.
  - intros m rest r _ _. destruct (_ ≫= _); wp_run; by apply HQ.
Qed.

Lemma wp_check_http_signals (Q : unit -> frame HTTPClientComponent -> Prop) E f :
  (forall f', kept (fr_self f) (fr_self f') -> hc_state (fr_self f') = hc_state (fr_self f) -> Q tt f') ->
  (forall f', kept (fr_self f) (fr_self f') -> hc_state (fr_self f') = HttpFinished -> E (Return Finished) f') ->
  wp check_http_signals Q E f.
Proof.
  intros HQ HE. unfold check_http_signals. apply wp_bind, wp_zoom, wp_signal_stop; simpl; intros _ s _.
  - wp_run. by apply HQ.
  - wp_run. by apply HE.
Qed.

(** The only call that finds the component waiting posts at most one request. *)
Lemma wp_wait_for_requests c0 busy asked f (Q : ProcessResult -> frame HTTPClientComponent -> Prop)
    (E : exit -> frame HTTPClientComponent -> Prop) :
  no_answer c0 (mk_HttpRun (fr_self f) busy asked) ->
  (hc_cmd (fr_self f), hc_result (fr_self f)) = create_io_channels _ _ -> asked = [] ->
  hc_state (fr_self f) = HttpFinished ->
  (forall e f', e <> Break -> no_answer c0 (mk_HttpRun (fr_self f') busy asked) ->
     hc_state (fr_self f') <> WaitingForRequests -> E e f') ->
  wp wait_for_requests Q E f.
Proof.
  intros Hna [= Hc Hr] -> Hst HE. pose proof Hna as (H1 & H2 & H3 & H4 & _). unfold wait_for_requests.
  apply wp_bind, wp_pop; simpl.
  - intros _ r _. apply wp_bind, wp_receive. simpl. rewrite Hr. simpl. apply wp_bind, wp_budget.
    assert (forall f' : frame HTTPClientComponent, kept (fr_self f) (fr_self f') ->
      hc_state (fr_self f') = HttpFinished -> E (Return NoWork) f') as Hend.
    { intros f' Hk Hf. apply HE; [done| |by rewrite Hf]. eapply kept_no_answer; [exact Hk| |exact Hna].
      right. by rewrite Hf. }
    simpl. destruct (N.eqb_spec (remaining_budget (fr_ctx f)) 0) as [Hz|Hz]; wp_run; apply Hend; try done;
      unfold kept; simpl; by rewrite Hr.
  - intros m rest r _ _. unfold post_request. destruct (message_as_utf8 m) as [url|].
    + apply wp_bind, wp_post. simpl. rewrite Hc. simpl. wp_run. apply HE; [done| |done].
      unfold no_answer. simpl in *. split_and!; try done.
    + wp_run. apply HE; [done| |by rewrite Hst]. eapply kept_no_answer; [|by left|exact Hna]. done.
Qed.

(** A call outputs nothing and does not wait again. *)
Lemma http_client_call c0 c busy asked ctx :
  no_answer c0 (mk_HttpRun c busy asked) ->
  exists f r, call process c ctx = Some (f, r) /\
    (no_answer c0 (mk_HttpRun (fr_self f) busy asked) /\ hc_state (fr_self f) <> WaitingForRequests).
Proof.
  intros Hna. apply wp_call. unfold http_client_process. apply wp_bind, wp_read_retries. simpl. intros f1 Hk1 Hs1.
  assert (no_answer c0 (mk_HttpRun (fr_self f1) busy asked)) as H1 by (eapply kept_no_answer; eauto).
  apply wp_bind, wp_check_http_signals; intros f2 Hk2 Hs2.
  2:{ split; [|by rewrite Hs2]. eapply kept_no_answer; [exact Hk2|right; by rewrite Hs2|exact H1]. }
  assert (no_answer c0 (mk_HttpRun (fr_self f2) busy asked)) as H2 by (eapply kept_no_answer; eauto).
  assert (hc_state (fr_self f2) = hc_state c) as Hs by congruence. clear H1 Hk1 Hk2 Hs1 Hs2 f1 Hna.
  apply wp_bind, wp_read, wp_bind, wp_write. simpl.
  set (f := mk_frame _ _ _ _ _). assert (no_answer c0 (mk_HttpRun (fr_self f) busy asked)) as Hf.
  { eapply kept_no_answer; [|by right|exact H2]. done. }
  rewrite Hs. destruct (hc_state c) eqn:Hc.
  - destruct H2 as (_ & _ & _ & _ & _ & Hw). simpl in Hw. destruct (Hw Hs) as (Hch & _ & Ha).
    eapply wp_wait_for_requests; [exact Hf|exact Hch|exact Ha|done|].
    intros e f' He Hna' Hst'. destruct e; [done|..]; by split_and!.
  - wp_run. by split_and!.
  - wp_run. by split_and!.
Qed.

Lemma http_client_step_inv c0 s s' : no_answer c0 s -> http_client_step s s' -> no_answer c0 s'.
Proof.
  intros H Hs. destruct Hs as [c busy asked ctx f r Hcall|c c' busy asked Hm|c asked url ch Ht|c url asked res p Hw|c url asked Hw].
  - destruct (http_client_call c0 c busy asked ctx H) as (f' & r' & Hcall' & H' & _). rewrite Hcall in Hcall'.
    by injection Hcall' as <- <-.
  - destruct Hm as [Hr He Hst Hc Hres [Hp Hq]]. destruct H as (H1 & H2 & H3 & H4 & H5 & H6). unfold no_answer. simpl in *.
    rewrite Hp, Hq, Hc, Hres, Hst. split_and!; try done; by etrans.
  - destruct H as (H1 & H2 & H3 & H4 & H5 & H6). unfold no_answer, mpsc_try_recv in *. simpl in *.
    destruct (mp_items (hc_cmd c)) as [|u rest] eqn:Hi; [by destruct (mp_tx_alive _)|]. injection Ht as -> <-.
    split_and!; try done; simpl in *; [rewrite length_app; simpl; lia|]. intros Hst.
    destruct (H6 Hst) as ([= Hc _] & _ & _). by rewrite Hc in Hi.
  - destruct H as (H1 & H2 & H3 & H4 & H5 & H6). unfold no_answer. simpl in *. split_and!; try done.
    intros Hst. by destruct (H6 Hst) as (_ & ? & _).
  - destruct H as (H1 & H2 & H3 & H4 & H5 & H6). unfold no_answer. simpl in *. split_and!; try done.
    intros Hst. by destruct (H6 Hst) as (_ & ? & _).
Qed.

Lemma http_client_run_inv s0 s :
  http_untouched s0 -> rtc http_client_step s0 s -> no_answer (hr_client s0) s.
Proof.
  intros (Hs & Hc & Hp & Hq & Hb & Ha) Hr. assert (no_answer (hr_client s0) s0) as Hinv.
  { unfold no_answer. rewrite Ha, Hp, Hq. split_and!; try done. injection Hc as -> _. simpl. lia. }
  revert Hinv. generalize (hr_client s0) at 1 2 as c0. clear Hs Hc Hp Hq Hb Ha.
  induction Hr as [s|s1 s2 s3 Hs Hr IH]; [done|]. intros c0 H. apply IH. by eapply http_client_step_inv.
Qed.

(** A component that does not wait finishes. *)
Lemma http_client_finishes c ctx :
  hc_state c <> WaitingForRequests ->
  exists f, call process c ctx = Some (f, Some Finished) /\ hc_state (fr_self f) = HttpFinished.
Proof.
  intros Hc. assert (exists f r, call process c ctx = Some (f, Some r) /\
    (r = Finished /\ hc_state (fr_self f) = HttpFinished)) as (f & r & Hcall & -> & H); [|by exists f].
  apply wp_returns. unfold http_client_process. apply wp_bind, wp_read_retries. simpl. intros f1 _ Hs1.
  apply wp_bind, wp_check_http_signals; intros f2 _ Hs2; [|done].
  wp_run. rewrite Hs2, Hs1. destruct (hc_state c); [done| |]; by wp_run.
Qed.

(** HTTPClient never answers.  However often it is called, whatever its
    ports and its worker do: nothing is ever sent on RESP or ERR, nothing is kept
    to be sent, at most one request ever reaches the worker, and whatever the
    first call finds, every later one finishes the component. *)
Theorem http_client_never_answers s0 s :
  http_untouched s0 -> rtc http_client_step s0 s ->
  sink_items (hc_out_resp (hr_client s)) `suffix_of` sink_items (hc_out_resp (hr_client s0)) /\
  sink_items (hc_out_err (hr_client s)) `suffix_of` sink_items (hc_out_err (hr_client s0)) /\
  hc_pending_responses (hr_client s) = [] /\ hc_pending_errors (hr_client s) = [] /\
  (length (hr_asked s) <= 1)%nat /\
  forall ctx, exists f r, call process (hr_client s) ctx = Some (f, r) /\
    forall c' ctx', hc_state c' = hc_state (fr_self f) ->
      exists g, call process c' ctx' = Some (g, Some Finished).
Proof.
  intros H0 Hr. pose proof (http_client_run_inv s0 s H0 Hr) as H. destruct s as [c busy asked].
  pose proof H as (H1 & H2 & H3 & H4 & H5 & _). simpl in *. split_and!; try done; [lia|]. intros ctx.
  destruct (http_client_call _ _ _ _ ctx H) as (f & r & Hcall & _ & Hst). exists f, r. split; [done|].
  intros c' ctx' Hc'. destruct (http_client_finishes c' ctx') as (g & Hg & _); [by rewrite Hc'|]. by exists g.
Qed.
End client.

(** * A run *)
#[local] Existing Instance list_rtrb.

(** A server that is busy at first. *)
Definition demo_http_get (url : string) (n : nat) : HttpAttempt :=
  if (n =? 1)%nat then Responded 503 (Ok []) else Responded 200 (Ok [x68; x69]).
Definition demo_status (status : N) : string := "status".

Lemma http_worker_retries_witness :
  exists n again, (1 <= n <= 3)%nat /\ (forall i, (1 <= i < n)%nat -> retryable demo_http_get demo_status "http://a/" i) /\
    attempt_result demo_status (demo_http_get "http://a/" n) = Some (Ok [x68; x69], again) /\
    (again = true -> n = 3%nat) /\ [100]%N = take (n - 1) [100; 200]%N.
Proof.
  apply (http_worker_retries demo_http_get demo_status "http://a/" (Ok [x68; x69]) [100]%N). vm_compute. reflexivity.
Defined.

Definition demo_http_client : HTTPClientComponent :=
  let '(cmd, res) := create_io_channels string (result (list byte) string) in
  mk_HTTPClientComponent (demo_ring false []) (demo_ring true [Text "http://a/"; Text "http://b/"]) (demo_out 4)
    (demo_out 4) demo_channel demo_channel WaitingForRequests [] [] 3 100 30000 cmd res.
Abbreviation demo_http_step := (http_client_step (fun _ => @None unit) (fun _ _ => None) demo_http_get demo_status).

(** The answer is there, and the next call finishes. *)
Lemma http_client_never_answers_witness :
  exists s, rtc demo_http_step (mk_HttpRun demo_http_client None []) s /\
    mp_items (hc_result (hr_client s)) = [Ok [x68; x69]] /\ hr_asked s = ["http://a/"] /\
    sink_items (hc_out_resp (hr_client s)) `suffix_of` [].
Proof.
  assert (exists s, rtc demo_http_step (mk_HttpRun demo_http_client None []) s /\
    mp_items (hc_result (hr_client s)) = [Ok [x68; x69]] /\ hr_asked s = ["http://a/"]) as (s & Hr & Hi & Ha).
  { eexists. split.
    - eapply rtc_l; [eapply (http_call _ _ _ _ demo_http_client None [] (demo_context Normal 8)); vm_compute; reflexivity|].
      eapply rtc_l; [eapply http_take; vm_compute; reflexivity|].
      eapply rtc_l; [eapply (http_answer _ _ _ _ _ _ _ (Ok [x68; x69]) [100]%N); vm_compute; reflexivity|].
      apply rtc_refl.
    - split; vm_compute; reflexivity. }
  exists s. split; [exact Hr|]. split; [exact Hi|]. split; [exact Ha|].
  apply (http_client_never_answers (fun _ => @None unit) (fun _ _ => None) demo_http_get demo_status
    (mk_HttpRun demo_http_client None []) s); [by split_and!|exact Hr].
Defined.
