(* ===== verification/HttpServer.v ===== *)
(** [HTTPServer] of [src/components/http/src/http.rs]: a server of many connections
    that hands requests to routes and answers them with what comes back.

    A socket is what its peer and the network will do with it.  A call of
    [process] need not return (see [Http.parse_loop]), so that it takes fuel, and
    the component is no instance of [Component]. *)
From S2P Require Import Prelude Api Scheduler Process Pipes Io Servers Http.
From Stdlib Require Strings.String.
From Stdlib Require Import NArith ZArith Lia Strings.Byte.
From stdpp Require Import base list strings gmap.
Local Open Scope string_scope.
Local Open Scope list_scope.
Local Open Scope flowd_scope.

(** * Sockets

    As [Servers.Socket], but for [write], which says how much it has taken;
    without anything left to find, it takes everything. *)
Record HttpSocket : Type := mk_HttpSocket {
  ht_reads : list ReadAnswer;
  ht_writes : list (result nat ErrorKind);
  ht_written : list byte;
  ht_nonblocking : bool
}.
Definition http_read (n : nat) (s : HttpSocket) : result (list byte) ErrorKind * HttpSocket :=
  let left rest := mk_HttpSocket rest (ht_writes s) (ht_written s) (ht_nonblocking s) in
  match ht_reads s with
  | [] => (Err WouldBlock, s)
  | ReadError kind :: rest => (Err kind, left rest)
  | ReadBytes bs :: rest =>
      (Ok (take n bs), left (if (length bs <=? n)%nat then rest else ReadBytes (drop n bs) :: rest))
  end.
Definition http_write (bs : list byte) (s : HttpSocket) : result nat ErrorKind * HttpSocket :=
  let wrote rest n := mk_HttpSocket (ht_reads s) rest (ht_written s ++ take n bs) (ht_nonblocking s) in
  match ht_writes s with
  | [] => (Ok (length bs), wrote [] (length bs))
  | Ok n :: rest => (Ok (Nat.min n (length bs)), wrote rest n)
  | Err kind :: rest => (Err kind, wrote rest 0%nat)
  end.

Record HttpListener : Type := mk_HttpListener {
  hl_accepts : list (result HttpSocket ErrorKind);
  hl_nonblocking : bool
}.
Definition http_accept (li : HttpListener) : result HttpSocket ErrorKind * HttpListener :=
  match hl_accepts li with
  | [] => (Err WouldBlock, li)
  | a :: rest => (a, mk_HttpListener rest (hl_nonblocking li))
  end.

(** * Connections *)

Inductive HttpResponseState : Type :=
| RespPending
| RespWriting (response : HttpResponse) (sent : nat)
| RespComplete.

Inductive ConnectionState : Type :=
| ReadingRequest (rd : Reading)
| ProcessingRequest (request : HttpRequest) (client_id : N)
| WritingResponse (request_id : N) (response_state : HttpResponseState) (client_id : N)
| KeepAlive
| ConnClosed.

Record HttpConnection : Type := mk_HttpConnection {
  cx_state : ConnectionState;
  cx_last_active : Instant;
  cx_sock : HttpSocket;
  cx_keep_alive_requested : bool
}.
Definition cx_with_state (s : ConnectionState) (cx : HttpConnection) : HttpConnection :=
  mk_HttpConnection s (cx_last_active cx) (cx_sock cx) (cx_keep_alive_requested cx).
Definition cx_with_sock (s : HttpSocket) (cx : HttpConnection) : HttpConnection :=
  mk_HttpConnection (cx_state cx) (cx_last_active cx) s (cx_keep_alive_requested cx).
Definition cx_touched (t : Instant) (cx : HttpConnection) : HttpConnection :=
  mk_HttpConnection (cx_state cx) t (cx_sock cx) (cx_keep_alive_requested cx).

Definition is_writing (s : ConnectionState) : bool :=
  match s with WritingResponse _ _ _ => true | _ => false end.

Section http_server.
Context `{R : Rtrb} `{HI : HashIter} `{CM : CaseMapping}.
Variable clock : nat -> Instant.
(** The time of a reading of the clock as the crate time formats it; [None]
    before 1970. *)
Variable http_date : Instant -> option string.
(** [TcpListener::bind]. *)
Variable http_bind : string -> result HttpListener ErrorKind.
(** For the parsing loop. *)
Variable fuel : nat.

(** What the requests and their answers need. *)
Record HttpHub : Type := mk_HttpHub {
  hh_resp : ring;
  hh_req : list ProcessEdgeSink;
  hh_routes_config : option (list RouteConfig);
  hh_listener : option HttpListener;
  hh_connections : gmap N HttpConnection;
  hh_next_client_id : N;
  hh_pending_requests : list (N * N * HttpRequest);
  hh_pending_responses : gmap N HttpResponse;
  hh_response_wait_queue : list N;
  hh_next_request_id : N;
  hh_keep_alive_timeout : Duration
}.
Definition hh_l_resp : lens HttpHub ring := mk_lens hh_resp
  (fun x h => mk_HttpHub x (hh_req h) (hh_routes_config h) (hh_listener h) (hh_connections h) (hh_next_client_id h)
     (hh_pending_requests h) (hh_pending_responses h) (hh_response_wait_queue h) (hh_next_request_id h)
     (hh_keep_alive_timeout h)).
Definition hh_l_req : lens HttpHub (list ProcessEdgeSink) := mk_lens hh_req
  (fun x h => mk_HttpHub (hh_resp h) x (hh_routes_config h) (hh_listener h) (hh_connections h) (hh_next_client_id h)
     (hh_pending_requests h) (hh_pending_responses h) (hh_response_wait_queue h) (hh_next_request_id h)
     (hh_keep_alive_timeout h)).
Definition hh_l_routes_config : lens HttpHub (option (list RouteConfig)) := mk_lens hh_routes_config
  (fun x h => mk_HttpHub (hh_resp h) (hh_req h) x (hh_listener h) (hh_connections h) (hh_next_client_id h)
     (hh_pending_requests h) (hh_pending_responses h) (hh_response_wait_queue h) (hh_next_request_id h)
     (hh_keep_alive_timeout h)).
Definition hh_l_listener : lens HttpHub (option HttpListener) := mk_lens hh_listener
  (fun x h => mk_HttpHub (hh_resp h) (hh_req h) (hh_routes_config h) x (hh_connections h) (hh_next_client_id h)
     (hh_pending_requests h) (hh_pending_responses h) (hh_response_wait_queue h) (hh_next_request_id h)
     (hh_keep_alive_timeout h)).
Definition hh_l_connections : lens HttpHub (gmap N HttpConnection) := mk_lens hh_connections
  (fun x h => mk_HttpHub (hh_resp h) (hh_req h) (hh_routes_config h) (hh_listener h) x (hh_next_client_id h)
     (hh_pending_requests h) (hh_pending_responses h) (hh_response_wait_queue h) (hh_next_request_id h)
     (hh_keep_alive_timeout h)).
Definition hh_l_next_client_id : lens HttpHub N := mk_lens hh_next_client_id
  (fun x h => mk_HttpHub (hh_resp h) (hh_req h) (hh_routes_config h) (hh_listener h) (hh_connections h) x
     (hh_pending_requests h) (hh_pending_responses h) (hh_response_wait_queue h) (hh_next_request_id h)
     (hh_keep_alive_timeout h)).
Definition hh_l_pending_requests : lens HttpHub (list (N * N * HttpRequest)) := mk_lens hh_pending_requests
  (fun x h => mk_HttpHub (hh_resp h) (hh_req h) (hh_routes_config h) (hh_listener h) (hh_connections h)
     (hh_next_client_id h) x (hh_pending_responses h) (hh_response_wait_queue h) (hh_next_request_id h)
     (hh_keep_alive_timeout h)).
Definition hh_l_pending_responses : lens HttpHub (gmap N HttpResponse) := mk_lens hh_pending_responses
  (fun x h => mk_HttpHub (hh_resp h) (hh_req h) (hh_routes_config h) (hh_listener h) (hh_connections h)
     (hh_next_client_id h) (hh_pending_requests h) x (hh_response_wait_queue h) (hh_next_request_id h)
     (hh_keep_alive_timeout h)).
Definition hh_l_response_wait_queue : lens HttpHub (list N) := mk_lens hh_response_wait_queue
  (fun x h => mk_HttpHub (hh_resp h) (hh_req h) (hh_routes_config h) (hh_listener h) (hh_connections h)
     (hh_next_client_id h) (hh_pending_requests h) (hh_pending_responses h) x (hh_next_request_id h)
     (hh_keep_alive_timeout h)).
Definition hh_l_next_request_id : lens HttpHub N := mk_lens hh_next_request_id
  (fun x h => mk_HttpHub (hh_resp h) (hh_req h) (hh_routes_config h) (hh_listener h) (hh_connections h)
     (hh_next_client_id h) (hh_pending_requests h) (hh_pending_responses h) (hh_response_wait_queue h) x
     (hh_keep_alive_timeout h)).
Definition hh_l_keep_alive_timeout : lens HttpHub Duration := mk_lens hh_keep_alive_timeout
  (fun x h => mk_HttpHub (hh_resp h) (hh_req h) (hh_routes_config h) (hh_listener h) (hh_connections h)
     (hh_next_client_id h) (hh_pending_requests h) (hh_pending_responses h) (hh_response_wait_queue h)
     (hh_next_request_id h) x).

(** ** Accepting *)

Definition put_cx (id : N) (cx : HttpConnection) : proc HttpHub unit :=
  connections ← read hh_l_connections; write hh_l_connections (<[id := cx]> connections).

(** All connections that wait, within the budget. *)
Definition accept_http : proc HttpHub unit :=
  while (fun f => match hh_listener (fr_self f) with Some li => S (length (hl_accepts li)) | None => 0%nat end)
    (fun f => match hh_listener (fr_self f) with Some _ => (0 <? remaining_budget (fr_ctx f))%N | None => false end)
    (listener ← read hh_l_listener;
     match listener with
     | None => break
     | Some listener =>
         let '(res, listener) := http_accept listener in
         write hh_l_listener (Some listener);;
         match res with
         | Ok sock =>
             if ht_nonblocking sock then
               client_id ← read hh_l_next_client_id;
               write hh_l_next_client_id ((client_id + 1) mod u32_modulus)%N;;
               t ← now clock;
               put_cx client_id (mk_HttpConnection (ReadingRequest fresh_reading) t sock false);;
               work 1;; charge 1
             else panic
         | Err _ => break
         end
     end).

(** ** The connections

    The loop collects the connections to remove and the states to change. *)
Definition http_lists : Type := (list N * list (N * ConnectionState)).

Definition READ_SIZE : nat := 1024.

(** The next request id. *)
Definition fresh_request_id : proc HttpHub N :=
  request_id ← read hh_l_next_request_id;
  write hh_l_next_request_id (u64_add request_id 1);;
  mret request_id.

(** An error ends the reading: its response takes the place of the request. *)
Definition queue_error (client_id : N) (response : option HttpResponse) (changes : list (N * ConnectionState)) :
    proc HttpHub (list (N * ConnectionState)) :=
  match response with
  | None => mret changes
  | Some response =>
      request_id ← fresh_request_id;
      responses ← read hh_l_pending_responses;
      write hh_l_pending_responses (<[request_id := response]> responses);;
      mret (changes ++ [(client_id, WritingResponse request_id RespPending client_id)])
  end.

(** What follows the loop if parsing is complete; the request is taken in both
    cases. *)
Definition end_of_parsing (client_id : N) (cx : HttpConnection) (rd : Reading)
    (changes : list (N * ConnectionState)) : proc HttpHub (list (N * ConnectionState)) :=
  put_cx client_id (cx_with_state (ReadingRequest (mk_Reading (rd_state rd) (rd_buffer rd) None)) cx);;
  if existsb (fun c => (c.1 =? client_id)%N && is_writing c.2) changes then mret changes
  else
    match rd_request rd with
    | None => mret changes
    | Some req =>
        request_id ← fresh_request_id;
        requests ← read hh_l_pending_requests;
        write hh_l_pending_requests (requests ++ [(request_id, client_id, req)]);;
        work 1;; charge 1;;
        mret (changes ++ [(client_id, ProcessingRequest req client_id)])
    end.

Definition read_request (client_id : N) (cx : HttpConnection) (rd : Reading) (lists : http_lists) :
    proc HttpHub http_lists :=
  let '(remove, changes) := lists in
  let '(res, sock) := http_read READ_SIZE (cx_sock cx) in
  let cx := cx_with_sock sock cx in
  put_cx client_id cx;;
  match res with
  | Err WouldBlock => mret (remove, changes)
  | Err _ => mret (remove ++ [client_id], changes)
  | Ok [] => mret (remove ++ [client_id], changes)
  | Ok data =>
      t ← now clock;
      let cx := cx_touched t cx in
      match parse_loop fuel (mk_Reading (rd_state rd) (rd_buffer rd ++ data) (rd_request rd)) with
      | None => fun _ => None
      | Some (Finish response rd) =>
          changes ← queue_error client_id response changes;
          changes ← end_of_parsing client_id cx rd changes;
          mret (remove, changes)
      | Some (NeedMore rd) | Some (Again rd) =>
          put_cx client_id (cx_with_state (ReadingRequest rd) cx);; mret (remove, changes)
      end
  end.

(** The time for the header of a response that has none. *)
Definition response_date (response : HttpResponse) : proc HttpHub (option string) :=
  if has_header "date" response then mret None else t ← now clock; mret (http_date t).

(** [client_id] is the one that the state names, [id] the key of the connection. *)
Definition write_response (id client_id request_id : N) (response_state : HttpResponseState) (cx : HttpConnection)
    (lists : http_lists) : proc HttpHub http_lists :=
  let '(remove, changes) := lists in
  let put s cx := put_cx id (cx_with_state (WritingResponse request_id s client_id) cx) in
  match response_state with
  | RespPending =>
      responses ← read hh_l_pending_responses;
      match responses !! request_id with
      | None => mret lists
      | Some response =>
          write hh_l_pending_responses (delete request_id responses);;
          put (RespWriting response 0) cx;; work 1;; charge 1;; mret lists
      end
  | RespWriting response sent =>
      date ← response_date response;
      let response_bytes := format_response date response in
      if (sent <=? length response_bytes)%nat then
        let '(res, sock) := http_write (drop sent response_bytes) (cx_sock cx) in
        let cx := cx_with_sock sock cx in
        match res with
        | Ok bytes_written =>
            let sent := (sent + bytes_written)%nat in
            if (length response_bytes <=? sent)%nat then
              put RespComplete cx;; work 1;; charge 1;; mret (remove, changes ++ [(client_id, KeepAlive)])
            else put (RespWriting response sent) cx;; work 1;; charge 1;; mret lists
        | Err WouldBlock => put response_state cx;; mret lists
        | Err _ => put response_state cx;; mret (remove ++ [client_id], changes)
        end
      else panic
  | RespComplete => mret lists
  end.

(** A connection that has been answered is closed if it was quiet for too long,
    and reads on otherwise. *)
Definition keep_alive (client_id : N) (cx : HttpConnection) (lists : http_lists) : proc HttpHub http_lists :=
  let '(remove, changes) := lists in
  t ← now clock;
  timeout ← read hh_l_keep_alive_timeout;
  if (timeout <? t - cx_last_active cx)%N then
    mret (remove ++ [client_id], changes ++ [(client_id, ConnClosed)])
  else work 1;; charge 1;; mret (remove, changes ++ [(client_id, ReadingRequest fresh_reading)]).

Definition serve_http (id : N) (lists : http_lists) : proc HttpHub http_lists :=
  connections ← read hh_l_connections;
  match connections !! id with
  | None => mret lists
  | Some cx =>
      match cx_state cx with
      | ReadingRequest rd => read_request id cx rd lists
      | ProcessingRequest _ _ => mret lists
      | WritingResponse request_id response_state client_id =>
          write_response id client_id request_id response_state cx lists
      | KeepAlive => keep_alive id cx lists
      | ConnClosed => mret (lists.1 ++ [id], lists.2)
      end
  end.

(** The loop over the connections. *)
Fixpoint serve_https (ids : list N) (lists : http_lists) : proc HttpHub http_lists :=
  match ids with
  | [] => mret lists
  | id :: ids =>
      b ← budget;
      if (b =? 0)%N then mret lists
      else lists ← serve_http id lists; serve_https ids lists
  end.

(** The states that change, and the connections that go. *)
Fixpoint apply_changes (changes : list (N * ConnectionState)) (connections : gmap N HttpConnection) :
    gmap N HttpConnection :=
  match changes with
  | [] => connections
  | (client_id, new_state) :: changes =>
      apply_changes changes (alter (cx_with_state new_state) client_id connections)
  end.

Definition remove_connection (client_id : N) : proc HttpHub unit :=
  connections ← read hh_l_connections;
  write hh_l_connections (delete client_id connections);;
  match cx_state <$> connections !! client_id with
  | Some (WritingResponse request_id _ _) =>
      queue ← read hh_l_response_wait_queue;
      write hh_l_response_wait_queue (filter (fun queued_id => queued_id <> request_id) queue);;
      responses ← read hh_l_pending_responses;
      write hh_l_pending_responses (delete request_id responses)
  | _ => mret tt
  end;;
  work 1.
Fixpoint remove_connections (ids : list N) : proc HttpHub unit :=
  match ids with [] => mret tt | id :: ids => remove_connection id;; remove_connections ids end.

(** ** Requests to the network *)

(** [self.req[index].push(m)]. *)
Definition send_req (index : nat) (m : FbpMessage) : proc HttpHub (result unit FbpMessage) := fun f =>
  match hh_req (fr_self f) !! index with
  | None => Some (f, inr Unwind)
  | Some o =>
      let '(res, o, es) := push m o in
      Some (mk_frame (set hh_l_req (<[index := o]> (hh_req (fr_self f))) (fr_self f)) (fr_ctx f) (fr_work f)
              (fr_effects f ++ es) (fr_reads f), inl res)
  end.

(** The connection of a request waits for its response. *)
Definition await_response (client_id request_id : N) : proc HttpHub unit :=
  connections ← read hh_l_connections;
  write hh_l_connections
    (alter (cx_with_state (WritingResponse request_id RespPending client_id)) client_id connections).
Definition drop_request : proc HttpHub unit :=
  requests ← read hh_l_pending_requests; write hh_l_pending_requests (tail requests).

Definition refuse_request (client_id request_id : N) (body : string) : proc HttpHub unit :=
  drop_request;;
  responses ← read hh_l_pending_responses;
  write hh_l_pending_responses (<[request_id := error_response 404 "Not Found" body]> responses);;
  await_response client_id request_id.

Definition route_request (request_id client_id : N) (request : HttpRequest) (routes : list RouteConfig) :
    proc HttpHub unit :=
  match find_route 0 routes request with
  | None => refuse_request client_id request_id "Route not found"
  | Some (index, params) =>
      let request_to_send := if bool_decide (params = ∅) then request else set_path_params params request in
      hub_req ← read hh_l_req;
      if (index <? length hub_req)%nat then
        r ← send_req index (from_bytes (encode_request_for_req_port request_to_send));
        match r with
        | Ok _ =>
            drop_request;; work 1;; charge 1;;
            queue ← read hh_l_response_wait_queue;
            write hh_l_response_wait_queue (queue ++ [request_id]);;
            await_response client_id request_id
        | Err _ => break
        end
      else refuse_request client_id request_id "Route not configured"
  end.

(** Every round that goes on takes a request.  Without routes, which a server
    that listens has, nothing would be taken. *)
Definition send_requests : proc HttpHub unit :=
  while (fun f => S (length (hh_pending_requests (fr_self f))))
    (fun f => (0 <? remaining_budget (fr_ctx f))%N && negb (bool_decide (hh_pending_requests (fr_self f) = [])))
    (requests ← read hh_l_pending_requests;
     match requests with
     | [] => break
     | (request_id, client_id, request) :: _ =>
         routes ← read hh_l_routes_config;
         match routes with
         | Some routes => route_request request_id client_id request routes
         | None => mret tt
         end
     end).

(** ** Responses from the network

    In the order of the requests; a response that nobody waits for is taken and
    lost. *)
Definition ok_response (body : list byte) : HttpResponse := mk_HttpResponse 200 "OK" ∅ body.
Definition take_responses : proc HttpHub unit :=
  while (fun f => S (ring_slots (hh_resp (fr_self f)))) (fun f => (0 <? remaining_budget (fr_ctx f))%N)
    (response_msg ← pop hh_l_resp;
     match response_msg with
     | None => break
     | Some response_msg =>
         queue ← read hh_l_response_wait_queue;
         match queue with
         | [] => break
         | request_id :: queue =>
             write hh_l_response_wait_queue queue;;
             responses ← read hh_l_pending_responses;
             write hh_l_pending_responses
               (<[request_id := ok_response (default [] (as_bytes response_msg))]> responses);;
             work 1;; charge 1
         end
     end).

(** The connections are visited, and the lists are carried out. *)
Definition serve_clients : proc HttpHub unit :=
  connections ← read hh_l_connections;
  lists ← serve_https (hash_iter connections).*1 ([], []);
  connections ← read hh_l_connections;
  write hh_l_connections (apply_changes lists.2 connections);;
  remove_connections lists.1.

(** What a call does once the server listens and has looked at its signals. *)
Definition serve_hub : proc HttpHub unit :=
  accept_http;;
  serve_clients;;
  send_requests;;
  take_responses.

(** * HTTPServer *)

Record HTTPServerComponent : Type := mk_HTTPServerComponent {
  hs_conf : ring;
  hs_routes : ring;
  hs_signals_in : sync_channel;
  hs_signals_out : sync_channel;
  hs_listen_addr : option string;
  hs_hub : HttpHub
}.

Definition new_http_server `{MultiMapLib ring} `{MultiMapLib ProcessEdgeSink}
    (inports : multimap ring) (outports : multimap ProcessEdgeSink)
    (signals_in signals_out : sync_channel) : outcome HTTPServerComponent :=
  let* (conf, inports) := take_port "CONF" inports in
  let* (routes, inports) := take_port "ROUTES" inports in
  let* (resp, inports) := take_port "RESP" inports in
  let* req := expect (mm_remove "REQ" outports).1 in
  Done (mk_HTTPServerComponent conf routes signals_in signals_out None
          (mk_HttpHub resp req None None ∅ 0 [] ∅ [] 0 30000000000)).

Definition hs_l_conf : lens HTTPServerComponent ring := mk_lens hs_conf
  (fun x c => mk_HTTPServerComponent x (hs_routes c) (hs_signals_in c) (hs_signals_out c) (hs_listen_addr c) (hs_hub c)).
Definition hs_l_routes : lens HTTPServerComponent ring := mk_lens hs_routes
  (fun x c => mk_HTTPServerComponent (hs_conf c) x (hs_signals_in c) (hs_signals_out c) (hs_listen_addr c) (hs_hub c)).
Definition hs_l_signals : lens HTTPServerComponent Signals := mk_lens
  (fun c => mk_Signals (hs_signals_in c) (hs_signals_out c))
  (fun x c => mk_HTTPServerComponent (hs_conf c) (hs_routes c) (sig_in x) (sig_out x) (hs_listen_addr c) (hs_hub c)).
Definition hs_l_listen_addr : lens HTTPServerComponent (option string) := mk_lens hs_listen_addr
  (fun x c => mk_HTTPServerComponent (hs_conf c) (hs_routes c) (hs_signals_in c) (hs_signals_out c) x (hs_hub c)).
Definition hs_l_hub : lens HTTPServerComponent HttpHub := mk_lens hs_hub
  (fun x c => mk_HTTPServerComponent (hs_conf c) (hs_routes c) (hs_signals_in c) (hs_signals_out c)
     (hs_listen_addr c) x).

(** The two configuration ports; whether one of them had a packet. *)
Definition read_http_conf : proc HTTPServerComponent bool :=
  listen_addr_msg ← pop hs_l_conf;
  match listen_addr_msg with
  | None => mret false
  | Some listen_addr_msg =>
      match message_as_utf8 listen_addr_msg with
      | None => panic
      | Some conf_str =>
          let '(listen_addr, timeout) := parse_http_server_conf conf_str in
          write hs_l_listen_addr (Some listen_addr);;
          match timeout with
          | Some timeout => zoom hs_l_hub (write hh_l_keep_alive_timeout timeout)
          | None => mret tt
          end;;
          mret true
      end
  end.
Definition read_http_routes : proc HTTPServerComponent bool :=
  routes_msg ← pop hs_l_routes;
  match routes_msg with
  | None => mret false
  | Some routes_msg =>
      match message_as_utf8 routes_msg with
      | None => panic
      | Some routes_str => zoom hs_l_hub (write hh_l_routes_config (Some (parse_routes routes_str)));; mret true
      end
  end.

(** Listening starts with the first call that has both. *)
Definition http_listen (config_changed : bool) : proc HTTPServerComponent unit :=
  hub ← read hs_l_hub;
  match hh_listener hub with
  | Some _ => if config_changed then work 1;; charge 1 else mret tt
  | None =>
      addr ← read hs_l_listen_addr;
      match addr with
      | None => return_ NoWork
      | Some addr =>
          match hh_routes_config hub with
          | None => return_ NoWork
          | Some _ =>
              match http_bind addr with
              | Ok listener =>
                  if hl_nonblocking listener then
                    zoom hs_l_hub (write hh_l_listener (Some listener));; work 1;; charge 1
                  else panic
              | Err _ => panic
              end
          end
      end
  end.

Definition http_server_result : proc HTTPServerComponent ProcessResult :=
  w ← work_units;
  if (0 <? w)%N then mret (DidWork w)
  else
    hub ← read hs_l_hub;
    (if is_none (hh_listener hub) then mret tt else wake_poll clock);; mret NoWork.

(** What comes before the connections. *)
Definition get_ready : proc HTTPServerComponent unit :=
  conf_changed ← read_http_conf;
  routes_changed ← read_http_routes;
  http_listen (conf_changed || routes_changed);;
  zoom hs_l_signals (poll message_as_utf8).

Definition http_server_process : proc HTTPServerComponent ProcessResult :=
  get_ready;;
  zoom hs_l_hub serve_hub;;
  http_server_result.
End http_server.
