(* ===== verification/HttpServerTheorems.v ===== *)
(** What is proved about [HTTPServer]: along every run the i-th response of the
    network answers the i-th request that was handed to it, on the connection
    that the request was read from.  What a call has read, handed over and taken
    is a function of the call ([http_log]): it is found by running the call up to
    the ends of its stages. *)
From S2P Require Import Prelude Api Scheduler Process Pipes Io Servers Http HttpTheorems HttpServer.
From Stdlib Require Strings.String.
From Stdlib Require Import NArith ZArith Lia Strings.Byte.
From stdpp Require Import base list strings gmap relations.
Local Open Scope string_scope.
Local Open Scope list_scope.
Local Open Scope flowd_scope.

Section server.
Context `{R : Rtrb} `{HI : HashIter} `{CM : CaseMapping}.

(** * The invariant *)

(** A request that was handed to the network: its number, its connection, the
    outport and the packet. *)
Record Forwarded : Type := mk_Forwarded {
  fw_id : N;
  fw_client : N;
  fw_index : nat;
  fw_packet : FbpMessage
}.
(** The requests handed over, and the responses taken for them. *)
Record History : Type := mk_History { hi_forwarded : list Forwarded; hi_taken : list FbpMessage }.

Definition packets_for (k : nat) (l : list Forwarded) : list FbpMessage :=
  map fw_packet (filter (fun e => fw_index e = k) l).
Definition request_number (r : N * N * HttpRequest) : N := r.1.1.
Arguments request_number _ /.

(** The states of the connections, with the changes that are still to be made. *)
Definition states : Type := N -> option ConnectionState.
Fixpoint changed (id : N) (changes : list (N * ConnectionState)) (s : ConnectionState) : ConnectionState :=
  match changes with
  | [] => s
  | (i, s') :: changes => changed id changes (if (i =? id)%N then s' else s)
  end.
Definition st_of (changes : list (N * ConnectionState)) (h : HttpHub) : states := fun id =>
  (fun cx => changed id changes (cx_state cx)) <$> hh_connections h !! id.
(** The connection has a response under way. *)
Definition writes (st : states) (id rid : N) (rs : HttpResponseState) : Prop :=
  exists cid, st id = Some (WritingResponse rid rs cid).

(** [got] is what has been taken from the outports, [given] what was ever put
    into RESP. *)
Record hub_ok (got : nat -> list FbpMessage) (given : list FbpMessage) (hs : History) (h : HttpHub) (st : states) :
    Prop := mk_hub_ok {
  ok_routed : forall k o, hh_req h !! k = Some o -> got k ++ sink_items o = packets_for k (hi_forwarded hs);
  ok_given : hi_taken hs ++ ring_items (hh_resp h) `sublist_of` given;
  ok_forwarded : NoDup (map fw_id (hi_forwarded hs));
  ok_requests : NoDup (map request_number (hh_pending_requests h));
  ok_disjoint : forall e r, e ∈ hi_forwarded hs -> r ∈ hh_pending_requests h -> fw_id e <> request_number r;
  ok_below_forwarded : forall e, e ∈ hi_forwarded hs -> (fw_id e < hh_next_request_id h)%N;
  ok_below_requests : forall r, r ∈ hh_pending_requests h -> (request_number r < hh_next_request_id h)%N;
  ok_below_responses : forall rid, is_Some (hh_pending_responses h !! rid) -> (rid < hh_next_request_id h)%N;
  ok_below_writes : forall id rid rs, writes st id rid rs -> (rid < hh_next_request_id h)%N;
  ok_queue : hh_response_wait_queue h = drop (length (hi_taken hs)) (map fw_id (hi_forwarded hs));
  ok_taken : (length (hi_taken hs) <= length (hi_forwarded hs))%nat;
  ok_unanswered : forall r, r ∈ hh_pending_requests h ->
    hh_pending_responses h !! request_number r = None /\ forall id rs, ~ writes st id (request_number r) rs;
  ok_own : forall id rid rs cid, st id = Some (WritingResponse rid rs cid) -> cid = id;
  ok_client : forall e id rs, e ∈ hi_forwarded hs -> writes st id (fw_id e) rs -> id = fw_client e;
  ok_unique : forall id1 id2 rid rs1 rs2, writes st id1 rid rs1 -> writes st id2 rid rs2 -> id1 = id2;
  ok_waiting : forall rid, rid ∈ hh_response_wait_queue h ->
    hh_pending_responses h !! rid = None /\ forall id rs, writes st id rid rs -> rs = RespPending;
  ok_answered : forall i e m resp, hi_forwarded hs !! i = Some e -> hi_taken hs !! i = Some m ->
    (hh_pending_responses h !! fw_id e = Some resp \/ exists id sent, writes st id (fw_id e) (RespWriting resp sent)) ->
    resp = ok_response (default [] (as_bytes m))
}.

(** ** Keeping it *)

(** What only the hand-over and the responses change. *)
Definition same_core (h h' : HttpHub) : Prop :=
  (hh_resp h', hh_req h', hh_pending_requests h', hh_response_wait_queue h', hh_next_request_id h') =
  (hh_resp h, hh_req h, hh_pending_requests h, hh_response_wait_queue h, hh_next_request_id h).

(** Writing goes on. *)
Definition rs_next (rs rs' : HttpResponseState) : Prop :=
  rs' = rs \/ exists resp sent, rs = RespWriting resp sent /\ (rs' = RespComplete \/ exists sent', rs' = RespWriting resp sent').
Definition st_less (st st' : states) : Prop :=
  forall id rid rs' cid, st' id = Some (WritingResponse rid rs' cid) ->
    exists rs, st id = Some (WritingResponse rid rs cid) /\ rs_next rs rs'.

Lemma st_less_refl st : st_less st st.
Proof. intros id rid rs cid H. exists rs. split; [done|by left]. Qed.

Lemma hub_ok_less got given hs h h' st st' :
  hub_ok got given hs h st -> same_core h h' -> hh_pending_responses h' ⊆ hh_pending_responses h -> st_less st st' ->
  hub_ok got given hs h' st'.
Proof.
  intros [] Hcore Hsub Hst. injection Hcore as Hr Hq Hp Hw Hn.
  assert (forall id rid rs, writes st' id rid rs -> exists rs0, writes st id rid rs0 /\ rs_next rs0 rs) as Hwr.
  { intros id rid rs [cid H]. destruct (Hst _ _ _ _ H) as (rs0 & H0 & Hrs). exists rs0. split; [by exists cid|done]. }
  assert (forall rid resp, hh_pending_responses h' !! rid = Some resp -> hh_pending_responses h !! rid = Some resp) as Hre
    by (intros; by eapply lookup_weaken).
  assert (forall rid, hh_pending_responses h !! rid = None -> hh_pending_responses h' !! rid = None) as Hnone.
  { intros rid H. destruct (hh_pending_responses h' !! rid) eqn:He; [|done]. apply Hre in He. congruence. }
  split; rewrite ?Hr, ?Hq, ?Hp, ?Hw, ?Hn; try done.
  - intros rid [resp H%Hre]. eauto.
  - intros id rid rs (rs0 & H & _)%Hwr. eauto.
  - intros r Hr'. destruct (ok_unanswered0 r Hr') as [H1 H2]. split; [by apply Hnone|].
    intros id rs (rs0 & H & _)%Hwr. by eapply H2.
  - intros id rid rs cid H. destruct (Hst _ _ _ _ H) as (rs0 & H0 & _). by eapply ok_own0.
  - intros e id rs He (rs0 & H & _)%Hwr. eauto.
  - intros id1 id2 rid rs1 rs2 (? & ? & _)%Hwr (? & ? & _)%Hwr. eauto.
  - intros rid Hin. destruct (ok_waiting0 rid Hin) as [H1 H2]. split; [by apply Hnone|].
    intros id rs (rs0 & H & Hrs)%Hwr. apply H2 in H as ->. destruct Hrs as [->|(? & ? & [=] & _)]. done.
  - intros i e m resp He Hm [H%Hre|(id & sent & (rs0 & H & Hrs)%Hwr)]; [by eauto|].
    destruct Hrs as [Heq|(resp0 & sent0 & -> & [Heq|[sent' Heq]])]; try done; [subst rs0|injection Heq as <- <-];
      (eapply ok_answered0; [exact He|exact Hm|right; by eauto]).
Qed.

(** A response starts to be written. *)
Lemma hub_ok_start got given hs h h' st st' id rid resp :
  hub_ok got given hs h st -> same_core h h' -> hh_pending_responses h !! rid = Some resp ->
  hh_pending_responses h' = delete rid (hh_pending_responses h) ->
  st id = Some (WritingResponse rid RespPending id) ->
  (forall j, st' j = if decide (j = id) then Some (WritingResponse rid (RespWriting resp 0) id) else st j) ->
  hub_ok got given hs h' st'.
Proof.
  intros [] Hcore Hresp Hdel Hid Hst. injection Hcore as Hr Hq Hp Hw Hn.
  assert (forall j r rs, writes st' j r rs -> (j = id /\ r = rid /\ rs = RespWriting resp 0) \/ (j <> id /\ writes st j r rs)) as Hwr.
  { intros j r rs [cid H]. rewrite Hst in H. destruct (decide (j = id)) as [->|]; [left; by simplify_eq|right; by split; [|exists cid]]. }
  assert (writes st id rid RespPending) as Hold by by exists id.
  assert (rid ∉ hh_response_wait_queue h) as Hnq by (intros [H _]%ok_waiting0; congruence).
  split; rewrite ?Hr, ?Hq, ?Hp, ?Hw, ?Hn, ?Hdel; try done.
  - intros r [x [Hne Hx]%lookup_delete_Some]. eauto.
  - intros j r rs [(-> & -> & _)|[_ H]]%Hwr; eauto.
  - intros r Hin. destruct (ok_unanswered0 r Hin) as [H1 H2]. split; [by rewrite lookup_delete_None; right|].
    intros j rs [(-> & Heq & _)|[_ H]]%Hwr; [|by eapply H2]. eapply (H2 id RespPending). by rewrite Heq.
  - intros j r rs cid H. rewrite Hst in H. destruct (decide (j = id)) as [->|]; [by simplify_eq|by eapply ok_own0].
  - intros e j rs He [(-> & Heq & _)|[_ H]]%Hwr; [|by eauto]. eapply ok_client0; [done|]. by rewrite Heq.
  - intros j1 j2 r rs1 rs2 [(-> & -> & _)|[H1 W1]]%Hwr [(-> & Heq & _)|[H2 W2]]%Hwr; try subst; try done; eauto.
  - intros r Hin. destruct (ok_waiting0 r Hin) as [H1 H2]. split; [by rewrite lookup_delete_None; right|].
    intros j rs [(-> & -> & _)|[_ H]]%Hwr; [done|by eapply H2].
  - intros i e m x He Hm [[_ Hx]%lookup_delete_Some|(j & sent & [(-> & Heq & [= -> _])|[_ H]]%Hwr)];
      (eapply ok_answered0; [exact He|exact Hm|]); [by left|left; by rewrite Heq|right; by eauto].
Qed.

(** A connection that waits for a response from now on. *)
Definition st_await (st : states) (cid rid : N) : states := fun j =>
  if decide (j = cid) then (fun _ => WritingResponse rid RespPending cid) <$> st cid else st j.

Lemma writes_await st cid rid j r rs :
  writes (st_await st cid rid) j r rs -> (j = cid /\ r = rid /\ rs = RespPending) \/ (j <> cid /\ writes st j r rs).
Proof.
  intros [c H]. unfold st_await in H. destruct (decide (j = cid)) as [->|]; [|right; by split; [|exists c]].
  left. destruct (st cid); simplify_eq/=. done.
Qed.

(** Nobody waits for a request that has not been handed over, nor for a number
    that has not been given. *)
Definition unwritten (st : states) (rid : N) : Prop := forall id rs, ~ writes st id rid rs.

Lemma own_await st cid rid :
  (forall id r rs c, st id = Some (WritingResponse r rs c) -> c = id) ->
  forall id r rs c, st_await st cid rid id = Some (WritingResponse r rs c) -> c = id.
Proof.
  intros Hown id r rs c. unfold st_await. destruct (decide (id = cid)) as [->|]; [|by apply Hown].
  destruct (st cid); naive_solver.
Qed.

Lemma unique_await st cid rid :
  unwritten st rid -> (forall id1 id2 r rs1 rs2, writes st id1 r rs1 -> writes st id2 r rs2 -> id1 = id2) ->
  forall id1 id2 r rs1 rs2, writes (st_await st cid rid) id1 r rs1 -> writes (st_await st cid rid) id2 r rs2 -> id1 = id2.
Proof.
  intros Hu Huniq j1 j2 r rs1 rs2 [(-> & -> & _)|[_ W1]]%writes_await [(-> & Heq & _)|[_ W2]]%writes_await;
    try subst; try done; [by apply Hu in W2|by apply Hu in W1|by eapply Huniq].
Qed.

(** Whoever waits has been handed over. *)
Lemma queue_forwarded got given hs h st rid :
  hub_ok got given hs h st -> rid ∈ hh_response_wait_queue h -> exists e, e ∈ hi_forwarded hs /\ fw_id e = rid.
Proof.
  intros [] Hin. rewrite ok_queue0 in Hin. apply list_elem_of_lookup in Hin as [i Hi]. rewrite lookup_drop in Hi.
  apply list_lookup_fmap_Some in Hi as (e & -> & He). exists e. split; [by eapply list_elem_of_lookup_2|done].
Qed.

(** A response to an error of the parser, under a new number. *)
Lemma hub_ok_reject got given hs h h' st id resp :
  hub_ok got given hs h st ->
  (hh_resp h', hh_req h', hh_pending_requests h', hh_response_wait_queue h', hh_next_request_id h') =
    (hh_resp h, hh_req h, hh_pending_requests h, hh_response_wait_queue h, (hh_next_request_id h + 1)%N) ->
  hh_pending_responses h' = <[hh_next_request_id h := resp]> (hh_pending_responses h) ->
  hub_ok got given hs h' (st_await st id (hh_next_request_id h)).
Proof.
  intros Hok [= Hr Hq Hp Hw Hn] Hre. pose proof (queue_forwarded _ _ _ _ _ (hh_next_request_id h) Hok) as Hqf.
  destruct Hok. set (rid := hh_next_request_id h) in *.
  assert (unwritten st rid) as Hu by (intros j rs W; apply ok_below_writes0 in W; lia).
  assert (forall e, e ∈ hi_forwarded hs -> rid <> fw_id e) as Hne by (intros e He%ok_below_forwarded0; lia).
  assert (forall x, x ∈ hh_pending_requests h -> rid <> request_number x) as Hnr by (intros x Hx%ok_below_requests0; lia).
  assert (rid ∉ hh_response_wait_queue h) as Hnq by (intros (e & He & Heq)%Hqf; by apply (Hne e)).
  split; rewrite ?Hr, ?Hq, ?Hp, ?Hw, ?Hn, ?Hre; try done.
  - intros e He%ok_below_forwarded0. lia.
  - intros x Hx%ok_below_requests0. lia.
  - intros j Hj. destruct (decide (j = rid)) as [->|]; [lia|]. rewrite lookup_insert_ne in Hj by done.
    apply ok_below_responses0 in Hj. lia.
  - intros j r rs [(_ & -> & _)|[_ W%ok_below_writes0]]%writes_await; lia.
  - intros x Hx. destruct (ok_unanswered0 x Hx) as [H1 H2]. split; [by rewrite lookup_insert_ne by (by apply Hnr)|].
    intros j rs [(_ & Heq & _)|[_ W]]%writes_await; [by apply (Hnr x)|by eapply H2].
  - by apply own_await.
  - intros e j rs He [(_ & Heq & _)|[_ W]]%writes_await; [by destruct (Hne e)|by eauto].
  - by apply unique_await.
  - intros r Hin. destruct (ok_waiting0 r Hin) as [H1 H2]. split; [rewrite lookup_insert_ne; [done|by intros ->]|].
    intros j rs [(_ & -> & _)|[_ W]]%writes_await; [done|by eapply H2].
  - intros i e m x He Hm Hx. pose proof (Hne e (list_elem_of_lookup_2 _ _ _ He)) as Hd. rewrite lookup_insert_ne in Hx by done.
    eapply ok_answered0; [exact He|exact Hm|]. destruct Hx as [|(j & sent & [(_ & _ & [=])|[_ W]]%writes_await)]; eauto.
Qed.

(** A new request waits to be handed over. *)
Lemma hub_ok_request got given hs h h' st st' id req :
  hub_ok got given hs h st ->
  (hh_resp h', hh_req h', hh_response_wait_queue h', hh_next_request_id h', hh_pending_responses h') =
    (hh_resp h, hh_req h, hh_response_wait_queue h, (hh_next_request_id h + 1)%N, hh_pending_responses h) ->
  hh_pending_requests h' = hh_pending_requests h ++ [(hh_next_request_id h, id, req)] -> st_less st st' ->
  hub_ok got given hs h' st'.
Proof.
  intros Hok [= Hr Hq Hw Hn Hre] Hp Hst. assert (hub_ok got given hs h st') as Hok' by (by eapply hub_ok_less).
  clear Hok Hst. pose proof (queue_forwarded _ _ _ _ _ (hh_next_request_id h) Hok') as Hqf. destruct Hok'.
  set (rid := hh_next_request_id h) in *.
  assert (forall e, e ∈ hi_forwarded hs -> fw_id e <> rid) as Hne by (intros e He%ok_below_forwarded0; lia).
  split; rewrite ?Hr, ?Hq, ?Hp, ?Hw, ?Hn, ?Hre; try done.
  - rewrite map_app. apply NoDup_app. split_and!; [done| |apply NoDup_singleton].
    intros x (y & -> & Hy)%list_elem_of_fmap Heq%list_elem_of_singleton. apply ok_below_requests0 in Hy. simpl in *. lia.
  - intros e x He [Hx|Hx%list_elem_of_singleton]%elem_of_app; [by apply ok_disjoint0|]. subst x. by apply Hne.
  - intros e He%ok_below_forwarded0. lia.
  - intros x [Hx%ok_below_requests0|Hx%list_elem_of_singleton]%elem_of_app; [lia|]. subst x. simpl. lia.
  - intros j Hj%ok_below_responses0. lia.
  - intros j r rs W%ok_below_writes0. lia.
  - intros x [Hx|Hx%list_elem_of_singleton]%elem_of_app; [by apply ok_unanswered0|]. subst x. simpl. split.
    + destruct (hh_pending_responses h !! rid) eqn:He; [|done]. assert (rid < rid)%N; [|lia]. apply ok_below_responses0. by rewrite He.
    + intros j rs W%ok_below_writes0. lia.
Qed.

(** The first waiting request is handed over. *)
Lemma hub_ok_forward got given hs h h' st rid cid req rest e o o' es :
  hub_ok got given hs h st -> hh_pending_requests h = (rid, cid, req) :: rest ->
  hh_req h !! fw_index e = Some o -> sent [fw_packet e] o o' es -> fw_id e = rid -> fw_client e = cid ->
  (hh_resp h', hh_next_request_id h', hh_pending_responses h', hh_pending_requests h') =
    (hh_resp h, hh_next_request_id h, hh_pending_responses h, rest) ->
  hh_req h' = <[fw_index e := o']> (hh_req h) -> hh_response_wait_queue h' = hh_response_wait_queue h ++ [rid] ->
  hub_ok got given (mk_History (hi_forwarded hs ++ [e]) (hi_taken hs)) h' (st_await st cid rid).
Proof.
  intros Hok Hpr Ho [Hs _ _ _ _] He Hc [= Hr Hn Hre Hp] Hq Hw.
  pose proof (fun r => queue_forwarded _ _ _ _ _ r Hok) as Hqf. destruct Hok. rewrite Hpr in *.
  assert ((rid, cid, req) ∈ (rid, cid, req) :: rest) as Hin0 by (by left).
  destruct (ok_unanswered0 _ Hin0) as [Hna Hu]. unfold request_number in Hna, Hu. simpl in Hna, Hu.
  assert (forall x, x ∈ hi_forwarded hs -> fw_id x <> rid) as Hne by (intros x Hx; by apply (ok_disjoint0 x _ Hx Hin0)).
  simpl in ok_requests0. apply NoDup_cons in ok_requests0 as [Hnr Hnd]. unfold request_number in Hnr at 1. simpl in Hnr.
  assert (forall x, x ∈ rest -> request_number x <> rid) as Hrest.
  { intros x Hx Heq. apply Hnr. apply list_elem_of_fmap. by exists x. }
  split; rewrite ?Hr, ?Hq, ?Hp, ?Hw, ?Hn, ?Hre; cbn [hi_forwarded hi_taken]; try done.
  - intros k x Hx. unfold packets_for. rewrite filter_app, map_app. destruct (decide (k = fw_index e)) as [->|Hk].
    + rewrite list_lookup_insert_eq in Hx by (by eapply lookup_lt_Some). injection Hx as <-. rewrite Hs, app_assoc.
      rewrite (ok_routed0 _ _ Ho). unfold packets_for. by rewrite (filter_cons_True _ e) by done.
    + rewrite list_lookup_insert_ne in Hx by done. rewrite (ok_routed0 _ _ Hx).
      by rewrite (filter_cons_False _ e), filter_nil, app_nil_r by done.
  - rewrite map_app. apply NoDup_app. split_and!; [done| |apply NoDup_singleton].
    intros x (y & -> & Hy)%list_elem_of_fmap Heq%list_elem_of_singleton. apply (Hne y Hy). congruence.
  - intros x y [Hx|Hx%list_elem_of_singleton]%elem_of_app Hy; [apply ok_disjoint0; [done|by right]|]. subst x.
    rewrite He. intros Heq. by apply (Hrest y).
  - intros x [Hx|Hx%list_elem_of_singleton]%elem_of_app; [by apply ok_below_forwarded0|]. subst x. rewrite He.
    by apply (ok_below_requests0 (rid, cid, req)).
  - intros x Hx. apply ok_below_requests0. by right.
  - intros j r rs [(_ & -> & _)|[_ W]]%writes_await; [by apply (ok_below_requests0 (rid, cid, req))|by eauto].
  - rewrite map_app, drop_app_le by (rewrite length_map; lia). simpl. by rewrite ok_queue0, He.
  - rewrite length_app. lia.
  - intros x Hx. destruct (ok_unanswered0 x) as [H1 H2]; [by right|]. split; [done|].
    intros j rs [(_ & Heq & _)|[_ W]]%writes_await; [by apply (Hrest x)|by eapply H2].
  - by apply own_await.
  - intros x j rs [Hx|Hx%list_elem_of_singleton]%elem_of_app W.
    + apply writes_await in W as [(_ & Heq & _)|[_ W]]; [by destruct (Hne x)|by eauto].
    + subst x. apply writes_await in W as [(-> & _)|[_ W]]; [done|]. rewrite He in W. by apply Hu in W.
  - by apply unique_await.
  - intros r [Hin|Hin%list_elem_of_singleton]%elem_of_app.
    + destruct (ok_waiting0 r Hin) as [H1 H2]. split; [done|].
      intros j rs [(_ & _ & ->)|[_ W]]%writes_await; [done|by eapply H2].
    + subst r. split; [done|]. intros j rs [(_ & _ & ->)|[_ W]]%writes_await; [done|by apply Hu in W].
  - intros i x m resp Hx Hm Hresp. assert (i < length (hi_forwarded hs))%nat as Hi
      by (apply lookup_lt_Some in Hm; lia).
    rewrite lookup_app_l in Hx by done. eapply ok_answered0; [exact Hx|exact Hm|].
    destruct Hresp as [|(j & sent & [(_ & _ & [=])|[_ W]]%writes_await)]; eauto.
Qed.

(** The first waiting request is refused. *)
Lemma hub_ok_refuse got given hs h h' st rid cid req rest resp :
  hub_ok got given hs h st -> hh_pending_requests h = (rid, cid, req) :: rest ->
  (hh_resp h', hh_req h', hh_next_request_id h', hh_response_wait_queue h', hh_pending_requests h') =
    (hh_resp h, hh_req h, hh_next_request_id h, hh_response_wait_queue h, rest) ->
  hh_pending_responses h' = <[rid := resp]> (hh_pending_responses h) ->
  hub_ok got given hs h' (st_await st cid rid).
Proof.
  intros Hok Hpr [= Hr Hq Hn Hw Hp] Hre. pose proof (fun r => queue_forwarded _ _ _ _ _ r Hok) as Hqf.
  destruct Hok. rewrite Hpr in *. assert ((rid, cid, req) ∈ (rid, cid, req) :: rest) as Hin0 by (by left).
  destruct (ok_unanswered0 _ Hin0) as [Hna Hu]. unfold request_number in Hna, Hu. simpl in Hna, Hu.
  assert (forall x, x ∈ hi_forwarded hs -> rid <> fw_id x) as Hne
    by (intros x Hx Heq; by apply (ok_disjoint0 x _ Hx Hin0)).
  simpl in ok_requests0. apply NoDup_cons in ok_requests0 as [Hnr Hnd]. unfold request_number in Hnr at 1. simpl in Hnr.
  assert (forall x, x ∈ rest -> rid <> request_number x) as Hrest.
  { intros x Hx Heq. apply Hnr. apply list_elem_of_fmap. by exists x. }
  split; rewrite ?Hr, ?Hq, ?Hp, ?Hw, ?Hn, ?Hre; try done.
  - intros x y Hx Hy. apply ok_disjoint0; [done|by right].
  - intros x Hx. apply ok_below_requests0. by right.
  - intros r Hx. destruct (decide (r = rid)) as [->|]; [by apply (ok_below_requests0 (rid, cid, req))|].
    rewrite lookup_insert_ne in Hx by done. by apply ok_below_responses0.
  - intros j r rs [(_ & -> & _)|[_ W]]%writes_await; [by apply (ok_below_requests0 (rid, cid, req))|by eauto].
  - intros x Hx. destruct (ok_unanswered0 x) as [H1 H2]; [by right|]. split; [rewrite lookup_insert_ne; [done|by apply Hrest]|].
    intros j rs [(_ & Heq & _)|[_ W]]%writes_await; [by apply (Hrest x)|by eapply H2].
  - by apply own_await.
  - intros x j rs Hx [(_ & Heq & _)|[_ W]]%writes_await; [by destruct (Hne x)|by eauto].
  - by apply unique_await.
  - intros r Hin. destruct (ok_waiting0 r Hin) as [H1 H2]. split.
    + rewrite lookup_insert_ne; [done|]. intros <-. apply Hqf in Hin as (x & Hx & Heq). by apply (Hne x).
    + intros j rs [(_ & _ & ->)|[_ W]]%writes_await; [done|by eapply H2].
  - intros i x m y Hx Hm Hy. pose proof (Hne x (list_elem_of_lookup_2 _ _ _ Hx)) as Hd. rewrite lookup_insert_ne in Hy by done.
    eapply ok_answered0; [exact Hx|exact Hm|]. destruct Hy as [|(j & sent & [(_ & _ & [=])|[_ W]]%writes_await)]; eauto.
Qed.

(** A response of the network is for the first that waits. *)
Lemma hub_ok_take got given hs h h' st rid queue m r :
  hub_ok got given hs h st -> hh_response_wait_queue h = rid :: queue ->
  ring_items (hh_resp h) = m :: r -> ring_items (hh_resp h') = r ->
  (hh_req h', hh_next_request_id h', hh_response_wait_queue h', hh_pending_requests h') =
    (hh_req h, hh_next_request_id h, queue, hh_pending_requests h) ->
  hh_pending_responses h' = <[rid := ok_response (default [] (as_bytes m))]> (hh_pending_responses h) ->
  hub_ok got given (mk_History (hi_forwarded hs) (hi_taken hs ++ [m])) h' st.
Proof.
  intros Hok Hq Hm Hm' [= Hr Hn Hw Hp] Hre.
  destruct (queue_forwarded _ _ _ _ _ rid Hok) as (e0 & He0 & Heq0); [rewrite Hq; by left|].
  destruct Hok. rewrite Hq in *. symmetry in ok_queue0. apply drop_cons in ok_queue0 as [Hi Hd].
  apply list_lookup_fmap_Some in Hi as (e & -> & Hi). pose proof (lookup_lt_Some _ _ _ Hi) as Hlt.
  assert (forall j x, hi_forwarded hs !! j = Some x -> fw_id x = fw_id e -> j = length (hi_taken hs)) as Hnth.
  { intros j x Hj Heq. apply (NoDup_lookup (map fw_id (hi_forwarded hs)) j (length (hi_taken hs)) (fw_id e));
      [done|apply list_lookup_fmap_Some; by exists x|apply list_lookup_fmap_Some; by exists e]. }
  split; rewrite ?Hr, ?Hp, ?Hw, ?Hn, ?Hre, ?Hm'; cbn [hi_forwarded hi_taken]; try done.
  - rewrite <- app_assoc. simpl. by rewrite <- Hm.
  - intros j Hj. destruct (decide (j = fw_id e)) as [->|].
    + by apply ok_below_forwarded0, (list_elem_of_lookup_2 _ _ _ Hi).
    + rewrite lookup_insert_ne in Hj by done. by apply ok_below_responses0.
  - rewrite length_app. simpl. by rewrite Nat.add_comm.
  - rewrite length_app. simpl. lia.
  - intros x Hx. destruct (ok_unanswered0 x Hx) as [H1 H2]. split; [|done]. rewrite lookup_insert_ne; [done|].
    apply ok_disjoint0; [by eapply list_elem_of_lookup_2|done].
  - intros j Hj. destruct (ok_waiting0 j) as [H1 H2]; [by right|]. split; [|done]. rewrite lookup_insert_ne; [done|].
    intros Heq. subst j. rewrite <- Hd in Hj. apply list_elem_of_lookup in Hj as [i Hj]. rewrite lookup_drop in Hj.
    apply list_lookup_fmap_Some in Hj as (x & Hx & Hj). apply Hnth in Hj; [lia|done].
  - intros i x m' resp Hx Hm0 Hresp. destruct (decide (fw_id x = fw_id e)) as [Heq|Hne].
    + pose proof (Hnth _ _ Hx Heq) as ->. rewrite lookup_app_r, Nat.sub_diag in Hm0 by lia. injection Hm0 as <-.
      rewrite Heq in Hresp. rewrite lookup_insert_eq in Hresp. destruct Hresp as [[= <-]|(j & s & W)]; [done|].
      apply (proj2 (ok_waiting0 (fw_id e) (list_elem_of_here _ _))) in W. done.
    + rewrite lookup_insert_ne in Hresp by done. assert (i < length (hi_taken hs))%nat as Hlti.
      { apply lookup_lt_Some in Hm0. rewrite length_app in Hm0. simpl in Hm0.
        destruct (decide (i = length (hi_taken hs))) as [->|]; [|lia]. rewrite Hi in Hx. congruence. }
      rewrite lookup_app_l in Hm0 by done. by eapply ok_answered0.
Qed.

(** A response that nobody waits for is lost. *)
Lemma hub_ok_lose got given hs h h' st m r :
  hub_ok got given hs h st -> ring_items (hh_resp h) = m :: r -> ring_items (hh_resp h') = r ->
  (hh_req h', hh_next_request_id h', hh_response_wait_queue h', hh_pending_requests h', hh_pending_responses h') =
    (hh_req h, hh_next_request_id h, hh_response_wait_queue h, hh_pending_requests h, hh_pending_responses h) ->
  hub_ok got given hs h' st.
Proof.
  intros [] Hm Hm' [= Hr Hn Hw Hp Hre]. split; rewrite ?Hr, ?Hn, ?Hw, ?Hp, ?Hre; try done.
  rewrite Hm', Hm in *. etrans; [|exact ok_given0]. apply sublist_app; [done|]. by apply sublist_cons.
Qed.

(** * The states *)

Lemma changed_app id c1 c2 s : changed id (c1 ++ c2) s = changed id c2 (changed id c1 s).
Proof. revert s. induction c1 as [|[i s'] c1 IH]; intros s; simpl; [done|]. apply IH. Qed.

Lemma changed_fresh id changes s : id ∉ changes.*1 -> changed id changes s = s.
Proof.
  revert s. induction changes as [|[i s'] changes IH]; intros s; simpl; [done|].
  intros [Hi Hn]%not_elem_of_cons. destruct (N.eqb_spec i id); [by subst|]. by apply IH.
Qed.

(** Changes that are there already. *)
Lemma changed_known id changes s1 s2 : id ∈ changes.*1 -> changed id changes s1 = changed id changes s2.
Proof.
  revert s1 s2. induction changes as [|[i s'] changes IH]; intros s1 s2; simpl; [by intros ?%elem_of_nil|].
  intros [->|Hin]%elem_of_cons; [by rewrite N.eqb_refl|by apply IH].
Qed.

Lemma st_of_put changes h h' id cx j :
  hh_connections h' = <[id := cx]> (hh_connections h) ->
  st_of changes h' j = if decide (j = id) then Some (changed id changes (cx_state cx)) else st_of changes h j.
Proof.
  intros H. unfold st_of. rewrite H. destruct (decide (j = id)) as [->|]; [by rewrite lookup_insert_eq|].
  by rewrite lookup_insert_ne.
Qed.

Lemma st_of_snoc changes h id s j :
  st_of (changes ++ [(id, s)]) h j =
    if decide (j = id) then (fun _ => s) <$> hh_connections h !! id else st_of changes h j.
Proof.
  unfold st_of. destruct (decide (j = id)) as [->|Hne].
  - destruct (hh_connections h !! id); simpl; [|done]. by rewrite changed_app; simpl; rewrite N.eqb_refl.
  - destruct (hh_connections h !! j); simpl; [|done]. rewrite changed_app. simpl.
    by destruct (N.eqb_spec id j) as [->|].
Qed.

Lemma apply_changes_lookup changes connections id :
  apply_changes changes connections !! id =
    (fun cx => cx_with_state (changed id changes (cx_state cx)) cx) <$> connections !! id.
Proof.
  revert connections. induction changes as [|[i s] changes IH]; intros connections; simpl.
  - destruct (connections !! id) as [[]|]; done.
  - rewrite IH, lookup_alter. destruct (decide (i = id)) as [->|Hne].
    + rewrite N.eqb_refl. destruct (connections !! id); [|done]. done.
    + destruct (N.eqb_spec i id); [done|]. done.
Qed.

Lemma st_of_ext changes h h' : hh_connections h' = hh_connections h -> st_of changes h' = st_of changes h.
Proof. intros H. unfold st_of. by rewrite H. Qed.

(** * The operations *)

Lemma wp_put_cx id cx (Q : unit -> frame HttpHub -> Prop) E f :
  Q tt (with_self (set hh_l_connections (<[id := cx]> (hh_connections (fr_self f))) (fr_self f)) f) ->
  wp (put_cx id cx) Q E f.
Proof. done. Qed.

Lemma wp_fresh_request_id (Q : N -> frame HttpHub -> Prop) E f :
  (hh_next_request_id (fr_self f) + 1 < u64_modulus)%N ->
  Q (hh_next_request_id (fr_self f))
    (with_self (set hh_l_next_request_id (hh_next_request_id (fr_self f) + 1)%N (fr_self f)) f) ->
  wp fresh_request_id Q E f.
Proof. intros Hn HQ. unfold fresh_request_id. wp_run. by rewrite u64_add_small. Qed.

Ltac hub_step := lazymatch goal with
  | |- wlp (charge _ ≫= _) _ _ _ => apply wlp_bind_wp, wp_charge_any; intros ?
  | |- wlp (put_cx _ _ ≫= _) _ _ _ => apply wlp_bind_wp, wp_put_cx
  | |- wlp (put_cx _ _) _ _ _ => apply wlp_wp, wp_put_cx
  | _ => wlp_step
  end.
Ltac hub_run := repeat (hub_step; simpl).
(** The same for code that ends. *)
Ltac any_run := repeat (lazymatch goal with
  | |- wp (charge _) _ _ _ => apply wp_charge_any; intros ?
  | _ => wp_step
  end; simpl).

Section calls.
Variable clock : nat -> Instant.
Variable http_date : Instant -> option string.
Variable http_bind : string -> result HttpListener ErrorKind.
Variable fuel : nat.
Variable got : nat -> list FbpMessage.
Variable given : list FbpMessage.

(** ** Accepting *)

Lemma hub_ok_accept hs h h' id cx :
  hub_ok got given hs h (st_of [] h) -> hh_connections h' = <[id := cx]> (hh_connections h) ->
  same_core h h' -> hh_pending_responses h' = hh_pending_responses h -> is_writing (cx_state cx) = false ->
  hub_ok got given hs h' (st_of [] h').
Proof.
  intros Hok Hc Hcore Hre Hw. eapply hub_ok_less; [exact Hok|done|by rewrite Hre|].
  intros j rid rs cid Hj. rewrite (st_of_put [] h h' id cx) in Hj by done. simpl in Hj.
  destruct (decide (j = id)) as [->|].
  - injection Hj as Hj. by rewrite Hj in Hw.
  - exists rs. split; [done|by left].
Qed.

Definition room_left (f : frame HttpHub) : N :=
  (N.of_nat (size (hh_connections (fr_self f))) + remaining_budget (fr_ctx f))%N.

Lemma wp_accept_http hs f (Q : unit -> frame HttpHub -> Prop) (E : exit -> frame HttpHub -> Prop) :
  hub_ok got given hs (fr_self f) (st_of [] (fr_self f)) ->
  (forall f', hub_ok got given hs (fr_self f') (st_of [] (fr_self f')) ->
     hh_next_request_id (fr_self f') = hh_next_request_id (fr_self f) ->
     hh_pending_requests (fr_self f') = hh_pending_requests (fr_self f) -> (room_left f' <= room_left f)%N -> Q tt f') ->
  (forall f', E Unwind f') ->
  wp (accept_http clock) Q E f.
Proof.
  intros Hok HQ HE. unfold accept_http. destruct (hh_listener (fr_self f)) as [li|] eqn:Hli.
  2:{ unfold wp, while. simpl. rewrite Hli. simpl. rewrite Hli. by apply HQ. }
  apply (wp_while (fun f' => hub_ok got given hs (fr_self f') (st_of [] (fr_self f')) /\
      hh_next_request_id (fr_self f') = hh_next_request_id (fr_self f) /\
      hh_pending_requests (fr_self f') = hh_pending_requests (fr_self f) /\ (room_left f' <= room_left f)%N /\
      is_Some (hh_listener (fr_self f')))
    (fun f' => match hh_listener (fr_self f') with Some li => length (hl_accepts li) | None => 0%nat end)).
  - split_and!; [done|done|done|lia|by rewrite Hli].
  - rewrite Hli. lia.
  - intros f' (H1 & H2 & Hp & H3 & _) _. by apply HQ.
  - intros f' (H1 & H2 & Hp & H3 & [li' Hli']) Hb. rewrite Hli' in Hb. apply N.ltb_lt in Hb. wp_run. rewrite Hli'.
    unfold http_accept. destruct (hl_accepts li') as [|a rest] eqn:Ha.
    { wp_run. apply HQ; try done. eapply hub_ok_less; [exact H1|done..|apply st_less_refl]. }
    wp_run. destruct a as [sock|kind].
    2:{ wp_run. apply HQ; try done. eapply hub_ok_less; [exact H1|done..|apply st_less_refl]. }
    destruct (ht_nonblocking sock); [|wp_run; apply HE]. wp_run. apply wp_put_cx. simpl. wp_run.
    set (g := mk_frame _ _ _ _ _). set (h' := fr_self g). split; [split_and!|].
    + eapply hub_ok_accept; [exact H1|reflexivity|done|done|done].
    + done.
    + done.
    + etrans; [|exact H3]. unfold room_left. simpl. rewrite map_size_insert. destruct (hh_connections (fr_self f') !! _); simpl; lia.
    + by eexists.
    + simpl. lia.
Qed.

(** ** Visiting connections *)
Variable hs : History.

Record visiting (todo : list N) (lists : http_lists) (h : HttpHub) : Prop := mk_visiting {
  vi_ok : hub_ok got given hs h (st_of lists.2 h);
  vi_remove : forall j rid, j ∈ lists.1 -> ~ writes (st_of lists.2 h) j rid RespPending;
  vi_todo : forall j, j ∈ todo -> (j ∉ lists.1) /\ (j ∉ lists.2.*1);
  vi_nodup : NoDup todo;
  vi_next : (hh_next_request_id h + N.of_nat (length todo) < u64_modulus)%N
}.

(** What a visit to [id] may do. *)
Lemma visiting_step id todo lists lists' h h' :
  visiting (id :: todo) lists h -> hub_ok got given hs h' (st_of lists'.2 h') ->
  (hh_next_request_id h' <= hh_next_request_id h + 1)%N ->
  (forall j, j <> id -> st_of lists'.2 h' j = st_of lists.2 h j) ->
  (forall j, j ∈ lists'.1 -> j ∈ lists.1 \/ (j = id /\ forall rid, ~ writes (st_of lists'.2 h') id rid RespPending)) ->
  (forall j, j ∈ lists'.2.*1 -> j ∈ lists.2.*1 \/ j = id) -> visiting todo lists' h'.
Proof.
  intros [Hok Hrem Htodo Hnd Hn] Hok' Hn' Hst Hr Hc. apply NoDup_cons in Hnd as [Hid Hnd].
  destruct (Htodo id) as [Hi1 Hi2]; [by left|]. split; try done.
  - intros j rid Hj. destruct (Hr j Hj) as [Hold|[-> Hno]]; [|by apply Hno].
    assert (j <> id) as Hne by (by intros ->). intros [cid W]. rewrite Hst in W by done. by apply (Hrem j rid Hold); exists cid.
  - intros j Hj. assert (j <> id) as Hne by (by intros ->). destruct (Htodo j) as [H1 H2]; [by right|].
    split; [by intros [?|[? _]]%Hr|by intros [?|?]%Hc].
  - simpl length in Hn. lia.
Qed.

(** A visit that puts back a connection and lists nothing new. *)
Lemma visiting_put id todo lists h h' cx :
  visiting (id :: todo) lists h -> hh_connections h' = <[id := cx]> (hh_connections h) -> same_core h h' ->
  hh_pending_responses h' ⊆ hh_pending_responses h -> st_less (st_of lists.2 h) (st_of lists.2 h') ->
  visiting todo lists h'.
Proof.
  intros Hv Hc Hcore Hsub Hst. pose proof (vi_ok _ _ _ Hv) as Hok. eapply visiting_step; [exact Hv|by eapply hub_ok_less|..].
  - injection Hcore as _ _ _ _ ->. lia.
  - intros j Hj. rewrite (st_of_put _ h h' id cx) by done. by destruct (decide (j = id)).
  - by left.
  - by left.
Qed.

Lemma visiting_same id todo lists h : visiting (id :: todo) lists h -> visiting todo lists h.
Proof.
  intros Hv. eapply visiting_step; [exact Hv|exact (vi_ok _ _ _ Hv)|lia|done|by left|by left].
Qed.

(** A connection whose state does not write. *)
Lemma st_less_quiet changes h h' id cx :
  hh_connections h' = <[id := cx]> (hh_connections h) -> is_writing (cx_state cx) = false \/ id ∈ changes.*1 ->
  is_Some (hh_connections h !! id) -> st_less (st_of changes h) (st_of changes h').
Proof.
  intros Hc Hw [cx0 Hcx0] j rid rs cid Hj. rewrite (st_of_put changes h h' id cx) in Hj by done.
  destruct (decide (j = id)) as [->|]; [|exists rs; split; [done|by left]].
  destruct (decide (id ∈ changes.*1)) as [Hin|Hin].
  - exists rs. split; [|by left]. unfold st_of. rewrite Hcx0. simpl. by rewrite (changed_known _ _ _ (cx_state cx)).
  - destruct Hw as [Hw|]; [|done]. rewrite changed_fresh in Hj by done. injection Hj as Hj. by rewrite Hj in Hw.
Qed.

(** The last change of a connection to a state that does not write. *)
Lemma st_less_change changes h id s :
  is_writing s = false -> st_less (st_of changes h) (st_of (changes ++ [(id, s)]) h).
Proof.
  intros Hs j rid rs cid Hj. rewrite st_of_snoc in Hj. destruct (decide (j = id)) as [->|]; [|exists rs; split; [done|by left]].
  destruct (hh_connections h !! id); [|done]. injection Hj as ->. done.
Qed.

Lemma visiting_change id todo lists h s (remove : list N) :
  visiting (id :: todo) lists h -> is_writing s = false -> remove = [] \/ remove = [id] ->
  visiting todo (lists.1 ++ remove, lists.2 ++ [(id, s)]) h.
Proof.
  intros Hv Hs Hrem. eapply visiting_step; [exact Hv|..]; simpl.
  - eapply hub_ok_less; [exact (vi_ok _ _ _ Hv)|done..|by apply st_less_change].
  - lia.
  - intros j Hj. rewrite st_of_snoc. by destruct (decide (j = id)).
  - intros j [Hj|Hj]%elem_of_app; [by left|]. destruct Hrem as [-> | ->]; [by apply elem_of_nil in Hj|].
    apply list_elem_of_singleton in Hj as ->. right. split; [done|]. intros rid [cid W]. rewrite st_of_snoc in W.
    rewrite decide_True in W by done. destruct (hh_connections h !! id); [|done]. injection W as ->. done.
  - intros j Hj. rewrite fmap_app in Hj. apply elem_of_app in Hj as [|Hj]; [by left|].
    apply list_elem_of_singleton in Hj. by right.
Qed.

(** A connection that is not written to is listed for removal. *)
Lemma visiting_remove id todo lists h :
  visiting (id :: todo) lists h -> (forall rid, ~ writes (st_of lists.2 h) id rid RespPending) ->
  visiting todo (lists.1 ++ [id], lists.2) h.
Proof.
  intros Hv Hno. eapply visiting_step; [exact Hv|exact (vi_ok _ _ _ Hv)|lia|done| |by left].
  intros j [Hj|Hj]%elem_of_app; [by left|]. apply list_elem_of_singleton in Hj as ->. by right.
Qed.

(** The state of a connection that has not been visited. *)
Lemma visiting_st id todo lists h cx :
  visiting (id :: todo) lists h -> hh_connections h !! id = Some cx -> st_of lists.2 h id = Some (cx_state cx).
Proof.
  intros Hv Hc. unfold st_of. rewrite Hc. simpl. rewrite changed_fresh; [done|].
  apply (vi_todo _ _ _ Hv). by left.
Qed.

Lemma st_less_eq (st st' : states) : (forall j, st' j = st j) -> st_less st st'.
Proof. intros H j rid rs cid Hj. exists rs. rewrite <- H. split; [done|by left]. Qed.

(** The connection is put back during its visit. *)
Lemma visiting_quiet id todo lists h h' cx :
  visiting (id :: todo) lists h -> is_Some (hh_connections h !! id) ->
  hh_connections h' = <[id := cx]> (hh_connections h) -> same_core h h' ->
  hh_pending_responses h' = hh_pending_responses h -> is_writing (cx_state cx) = false ->
  visiting (id :: todo) lists h'.
Proof.
  intros Hv Hid Hc Hcore Hre Hw. destruct (vi_todo _ _ _ Hv id) as [Hn1 Hn2]; [by left|]. split.
  - eapply hub_ok_less; [exact (vi_ok _ _ _ Hv)|done|by rewrite Hre|by eapply st_less_quiet; eauto].
  - intros j rid Hj [cid W]. rewrite (st_of_put _ h h' id cx) in W by done. destruct (decide (j = id)) as [->|]; [done|].
    by apply (vi_remove _ _ _ Hv j rid Hj); exists cid.
  - apply (vi_todo _ _ _ Hv).
  - apply (vi_nodup _ _ _ Hv).
  - injection Hcore as _ _ _ _ ->. apply (vi_next _ _ _ Hv).
Qed.

(** An error of the parser. *)
Lemma visiting_reject id todo lists h h' resp :
  visiting (id :: todo) lists h -> is_Some (hh_connections h !! id) ->
  (hh_resp h', hh_req h', hh_pending_requests h', hh_response_wait_queue h', hh_next_request_id h', hh_connections h') =
    (hh_resp h, hh_req h, hh_pending_requests h, hh_response_wait_queue h, (hh_next_request_id h + 1)%N,
     hh_connections h) ->
  hh_pending_responses h' = <[hh_next_request_id h := resp]> (hh_pending_responses h) ->
  visiting todo (lists.1, lists.2 ++ [(id, WritingResponse (hh_next_request_id h) RespPending id)]) h'.
Proof.
  intros Hv [cx Hcx] [= Hr Hq Hp Hw Hn Hc] Hre. eapply visiting_step; [exact Hv|..]; simpl.
  - eapply hub_ok_less; [eapply (hub_ok_reject got given hs h h' _ id resp); [exact (vi_ok _ _ _ Hv)|congruence|done]|done..|].
    apply st_less_eq. intros j. rewrite st_of_snoc, (st_of_ext _ h h' Hc). unfold st_await.
    destruct (decide (j = id)) as [->|]; [|done]. rewrite Hc, (visiting_st _ _ _ _ _ Hv Hcx), Hcx. done.
  - lia.
  - intros j Hj. rewrite st_of_snoc, (st_of_ext _ h h' Hc). by destruct (decide (j = id)).
  - by left.
  - intros j Hj. rewrite fmap_app in Hj. apply elem_of_app in Hj as [|Hj]; [by left|].
    apply list_elem_of_singleton in Hj. by right.
Qed.

(** A request. *)
Lemma visiting_request id todo lists h h' req s :
  visiting (id :: todo) lists h -> is_writing s = false ->
  (hh_resp h', hh_req h', hh_response_wait_queue h', hh_next_request_id h', hh_pending_responses h', hh_connections h') =
    (hh_resp h, hh_req h, hh_response_wait_queue h, (hh_next_request_id h + 1)%N, hh_pending_responses h,
     hh_connections h) ->
  hh_pending_requests h' = hh_pending_requests h ++ [(hh_next_request_id h, id, req)] ->
  visiting todo (lists.1, lists.2 ++ [(id, s)]) h'.
Proof.
  intros Hv Hs [= Hr Hq Hw Hn Hre Hc] Hp. eapply visiting_step; [exact Hv|..]; simpl.
  - eapply (hub_ok_request got given hs h h'); [exact (vi_ok _ _ _ Hv)|congruence|exact Hp|].
    intros j rid rs cid Hj. rewrite <- (st_of_ext _ h h' Hc). by apply (st_less_change lists.2 h' id s Hs).
  - lia.
  - intros j Hj. rewrite st_of_snoc, (st_of_ext _ h h' Hc). by destruct (decide (j = id)).
  - by left.
  - intros j Hj. rewrite fmap_app in Hj. apply elem_of_app in Hj as [|Hj]; [by left|].
    apply list_elem_of_singleton in Hj. by right.
Qed.

Lemma writing_change changes id rid :
  existsb (fun c => (c.1 =? id)%N && is_writing c.2) (changes ++ [(id, WritingResponse rid RespPending id)]) = true.
Proof. rewrite existsb_app. simpl. by rewrite N.eqb_refl, orb_true_r. Qed.

Lemma wlp_read_request id todo remove changes cx rd f (Q : http_lists -> frame HttpHub -> Prop) E :
  visiting (id :: todo) (remove, changes) (fr_self f) -> hh_connections (fr_self f) !! id = Some cx ->
  cx_state cx = ReadingRequest rd ->
  (forall lists' f', visiting todo lists' (fr_self f') -> Q lists' f') ->
  wlp (read_request clock fuel id cx rd (remove, changes)) Q E f.
Proof.
  intros Hv Hcx Hst HQ. unfold read_request. destruct (http_read READ_SIZE (cx_sock cx)) as [res sock].
  hub_step. set (f1 := with_self _ f). set (cx1 := cx_with_sock sock cx).
  assert (visiting (id :: todo) (remove, changes) (fr_self f1)) as Hv1
    by (eapply (visiting_quiet id todo _ (fr_self f) _ cx1); [exact Hv|by eexists|done..|by simpl; rewrite Hst]).
  assert (hh_connections (fr_self f1) !! id = Some cx1) as Hcx1 by apply lookup_insert_eq.
  assert (forall rid, ~ writes (st_of changes (fr_self f1)) id rid RespPending) as Hno.
  { intros rid [cid W]. pose proof (visiting_st _ _ _ _ _ Hv1 Hcx1) as Hst1. simpl in Hst1, W. congruence. }
  clearbody f1. clear Hv Hcx f. destruct res as [data|kind].
  2:{ destruct kind; wlp_step; apply HQ; first [by eapply visiting_same|exact (visiting_remove _ _ _ _ Hv1 Hno)]. }
  destruct data as [|b data]; [wlp_step; apply HQ; exact (visiting_remove _ _ _ _ Hv1 Hno)|].
  hub_step. set (f2 := mk_frame _ _ _ _ _). change (fr_self f1) with (fr_self f2) in Hv1, Hcx1. clearbody f2. clear Hno.
  set (cx2 := cx_touched _ cx1). destruct (parse_loop _ _) as [r|]; [|by apply wlp_diverge].
  assert (forall rd', wlp (put_cx id (cx_with_state (ReadingRequest rd') cx2);; mret (remove, changes)) Q E f2) as Hmore.
  { intros rd'. hub_step. wlp_step. apply HQ. eapply visiting_same.
    eapply (visiting_quiet id todo _ (fr_self f2)); [exact Hv1|by eexists|done..]. }
  destruct r as [rd'|rd'|response rd']; [apply Hmore..|]. clear Hmore.
  apply wlp_bind. unfold queue_error. destruct response as [resp|].
  - apply wlp_bind_wp, wp_fresh_request_id; [pose proof (vi_next _ _ _ Hv1) as Hn; simpl length in Hn; lia|].
    wlp_run. set (rid := hh_next_request_id (fr_self f2)). apply wlp_bind. unfold end_of_parsing. hub_step.
    rewrite writing_change. wlp_run. apply HQ. match goal with |- visiting _ _ ?h => set (h3 := h) end.
    set (h4 := set hh_l_pending_responses (<[rid := resp]> (hh_pending_responses (fr_self f2)))
      (set hh_l_next_request_id (rid + 1)%N (fr_self f2))).
    assert (visiting todo (remove, changes ++ [(id, WritingResponse rid RespPending id)]) h4) as Hv4
      by (eapply (visiting_reject id todo (remove, changes) (fr_self f2) h4 resp); [exact Hv1|by eexists|done|done]).
    destruct Hv4 as [H1 H2 H3 H4 H5].
    assert (st_less (st_of (changes ++ [(id, WritingResponse rid RespPending id)]) h4)
      (st_of (changes ++ [(id, WritingResponse rid RespPending id)]) h3)) as Hless.
    { eapply (st_less_quiet _ h4 h3 id); [reflexivity|right|by eexists]. rewrite fmap_app. apply elem_of_app. right. by left. }
    split; [by eapply hub_ok_less|intros j r Hj|done..].
    intros [cid W]. destruct (Hless _ _ _ _ W) as (rs & W' & Hrs). destruct Hrs as [<-|(? & ? & _ & [[=]|[? [=]]])].
    by apply (H2 j r Hj); exists cid.
  - wlp_step. apply wlp_bind. unfold end_of_parsing. hub_step. set (f3 := with_self _ f2).
    assert (visiting (id :: todo) (remove, changes) (fr_self f3)) as Hv3
      by (eapply (visiting_quiet id todo _ (fr_self f2)); [exact Hv1|by eexists|done..]).
    clearbody f3. destruct (existsb _ changes); [wlp_run; apply HQ; by eapply visiting_same|].
    destruct (rd_request rd') as [req|]; [|wlp_run; apply HQ; by eapply visiting_same].
    apply wlp_bind_wp, wp_fresh_request_id; [pose proof (vi_next _ _ _ Hv3) as Hn; simpl length in Hn; lia|].
    hub_run. apply HQ. by eapply (visiting_request id todo (remove, changes) (fr_self f3)).
Qed.

Lemma wp_response_date resp f (Q : option string -> frame HttpHub -> Prop) E :
  (forall date n, Q date (mk_frame (fr_self f) (fr_ctx f) (fr_work f) (fr_effects f) n)) ->
  wp (response_date clock http_date resp) Q E f.
Proof. intros HQ. unfold response_date. destruct f. destruct (has_header _ _); wp_run; apply HQ. Qed.

(** A connection that writes goes on writing. *)
Lemma visiting_writing id todo lists h h' rid rs rs' cx cx' :
  visiting (id :: todo) lists h -> hh_connections h !! id = Some cx -> cx_state cx = WritingResponse rid rs id ->
  hh_connections h' = <[id := cx']> (hh_connections h) -> cx_state cx' = WritingResponse rid rs' id ->
  same_core h h' -> hh_pending_responses h' = hh_pending_responses h -> rs_next rs rs' -> rs' <> RespPending ->
  visiting (id :: todo) lists h' /\ forall r, ~ writes (st_of lists.2 h') id r RespPending.
Proof.
  intros Hv Hcx Hs Hc Hs' Hcore Hre Hn Hne. destruct (vi_todo _ _ _ Hv id) as [Hn1 Hn2]; [by left|].
  assert (st_of lists.2 h' id = Some (WritingResponse rid rs' id)) as Hid.
  { rewrite (st_of_put _ h h' id cx') by done. rewrite decide_True by done. by rewrite changed_fresh, Hs'. }
  assert (st_less (st_of lists.2 h) (st_of lists.2 h')) as Hless.
  { intros j r rs0 cid Hj. destruct (decide (j = id)) as [->|Hj'].
    - rewrite Hid in Hj. injection Hj as <- <- <-. exists rs. split; [|done].
      by rewrite (visiting_st _ _ _ _ _ Hv Hcx), Hs.
    - rewrite (st_of_put _ h h' id cx') in Hj by done. rewrite decide_False in Hj by done. exists rs0. split; [done|by left]. }
  split; [split|].
  - eapply hub_ok_less; [exact (vi_ok _ _ _ Hv)|done|by rewrite Hre|done].
  - intros j r Hj [cid W]. destruct (Hless _ _ _ _ W) as (rs0 & W0 & [<-|(? & ? & _ & [[=]|[? [=]]])]).
    by apply (vi_remove _ _ _ Hv j r Hj); exists cid.
  - apply (vi_todo _ _ _ Hv).
  - apply (vi_nodup _ _ _ Hv).
  - injection Hcore as _ _ _ _ ->. apply (vi_next _ _ _ Hv).
  - intros r [cid W]. rewrite Hid in W. by injection W as _ ->.
Qed.

(** A response that is being written: it is complete, or goes on, or its
    connection goes. *)
Lemma wlp_write_more id todo remove changes cx rid response sent f (Q : http_lists -> frame HttpHub -> Prop)
    (E : exit -> frame HttpHub -> Prop) :
  visiting (id :: todo) (remove, changes) (fr_self f) -> hh_connections (fr_self f) !! id = Some cx ->
  cx_state cx = WritingResponse rid (RespWriting response sent) id ->
  (forall lists' f', visiting todo lists' (fr_self f') -> Q lists' f') -> (forall f', E Unwind f') ->
  wlp (write_response clock http_date id id rid (RespWriting response sent) cx (remove, changes)) Q E f.
Proof.
  intros Hv Hcx Hst HQ HE. unfold write_response. apply wlp_bind_wp, wp_response_date. intros date n. cbv beta zeta.
  destruct (sent <=? _)%nat; [|wlp_run; apply HE]. destruct (http_write _ _) as [res sock].
  assert (forall rs' g, rs_next (RespWriting response sent) rs' -> rs' <> RespPending ->
    hh_connections g = <[id := cx_with_state (WritingResponse rid rs' id) (cx_with_sock sock cx)]>
      (hh_connections (fr_self f)) ->
    same_core (fr_self f) g -> hh_pending_responses g = hh_pending_responses (fr_self f) ->
    visiting (id :: todo) (remove, changes) g /\ forall r, ~ writes (st_of changes g) id r RespPending) as Hput.
  { intros rs' g Hn Hne Hc Hcore Hre. by eapply (visiting_writing id todo (remove, changes)). }
  destruct res as [k|kind].
  - match goal with |- context [(?a <=? ?b)%nat] => destruct (a <=? b)%nat end; hub_run; apply HQ;
      match goal with |- visiting _ _ ?h => set (h' := h) end.
    + destruct (Hput RespComplete h') as [H1 _]; [right; by eauto|done..|].
      pose proof (visiting_change id todo (remove, changes) h' KeepAlive [] H1 eq_refl (or_introl eq_refl)) as H.
      simpl in H. by rewrite app_nil_r in H.
    + destruct (Hput (RespWriting response (sent + k)) h') as [H1 _]; [right; by eauto 6|done..|by eapply visiting_same].
  - assert (forall g, hh_connections g =
        <[id := cx_with_state (WritingResponse rid (RespWriting response sent) id) (cx_with_sock sock cx)]>
          (hh_connections (fr_self f)) ->
      same_core (fr_self f) g -> hh_pending_responses g = hh_pending_responses (fr_self f) ->
      visiting todo (remove, changes) g /\ visiting todo (remove ++ [id], changes) g) as Herr.
    { intros g Hc Hcore Hre. destruct (Hput (RespWriting response sent) g) as [H1 H2]; [by left|done..|].
      split; [by eapply visiting_same|by apply (visiting_remove _ _ (remove, changes))]. }
    destruct kind; hub_run; apply HQ; by apply Herr.
Qed.

Lemma wlp_write_response id todo lists cx rid rs f (Q : http_lists -> frame HttpHub -> Prop) (E : exit -> frame HttpHub -> Prop) :
  visiting (id :: todo) lists (fr_self f) -> hh_connections (fr_self f) !! id = Some cx ->
  cx_state cx = WritingResponse rid rs id ->
  (forall lists' f', visiting todo lists' (fr_self f') -> Q lists' f') -> (forall f', E Unwind f') ->
  wlp (write_response clock http_date id id rid rs cx lists) Q E f.
Proof.
  intros Hv Hcx Hst HQ HE. destruct lists as [remove changes].
  destruct rs as [|response sent|]; [|by eapply wlp_write_more|unfold write_response; wlp_step; apply HQ; by eapply visiting_same].
  unfold write_response. wlp_step. simpl. destruct (hh_pending_responses (fr_self f) !! rid) as [resp|] eqn:Hresp;
    [|wlp_step; apply HQ; by eapply visiting_same].
  hub_run. apply HQ. match goal with |- visiting _ _ ?h => set (h' := h) end.
  pose proof (visiting_st _ _ _ _ _ Hv Hcx) as Hs. rewrite Hst in Hs. simpl in Hs.
  assert (forall j, st_of changes h' j =
    if decide (j = id) then Some (WritingResponse rid (RespWriting resp 0) id) else st_of changes (fr_self f) j) as Hs'.
  { intros j. rewrite (st_of_put changes (fr_self f) h' id (cx_with_state (WritingResponse rid (RespWriting resp 0) id) cx))
      by done. rewrite changed_fresh; [done|]. apply (vi_todo _ _ _ Hv id). by left. }
  eapply visiting_step; [exact Hv| | |..]; simpl;
    [by eapply hub_ok_start; [exact (vi_ok _ _ _ Hv)|..]|lia| |by left|by left].
  intros j Hj. rewrite Hs'. by rewrite decide_False.
Qed.

Lemma wlp_keep_alive id todo lists cx f (Q : http_lists -> frame HttpHub -> Prop) E :
  visiting (id :: todo) lists (fr_self f) ->
  (forall lists' f', visiting todo lists' (fr_self f') -> Q lists' f') -> wlp (keep_alive clock id cx lists) Q E f.
Proof.
  intros Hv HQ. unfold keep_alive. destruct lists as [remove changes]. wlp_run.
  destruct (_ <? _)%N; hub_run; apply HQ.
  - by apply (visiting_change id todo (remove, changes) _ ConnClosed [id]); [|done|right].
  - pose proof (visiting_change id todo (remove, changes) _ (ReadingRequest fresh_reading) [] Hv eq_refl (or_introl eq_refl)) as H.
    simpl in H. by rewrite app_nil_r in H.
Qed.

Lemma wlp_serve_http id todo lists f (Q : http_lists -> frame HttpHub -> Prop) (E : exit -> frame HttpHub -> Prop) :
  visiting (id :: todo) lists (fr_self f) ->
  (forall lists' f', visiting todo lists' (fr_self f') -> Q lists' f') -> (forall f', E Unwind f') ->
  wlp (serve_http clock http_date fuel id lists) Q E f.
Proof.
  intros Hv HQ HE. unfold serve_http. wlp_step. simpl.
  destruct (hh_connections (fr_self f) !! id) as [cx|] eqn:Hcx; [|wlp_step; apply HQ; by eapply visiting_same].
  pose proof (visiting_st _ _ _ _ _ Hv Hcx) as Hs. destruct lists as [remove changes].
  destruct (cx_state cx) as [rd|req cid|rid rs cid| |] eqn:Hst.
  - by eapply wlp_read_request.
  - wlp_step. apply HQ. by eapply visiting_same.
  - pose proof (ok_own _ _ _ _ _ (vi_ok _ _ _ Hv) _ _ _ _ Hs) as ->. by eapply wlp_write_response.
  - by eapply wlp_keep_alive.
  - wlp_step. apply HQ. apply (visiting_remove id todo (remove, changes)); [done|].
    intros r [c W]. simpl in Hs, W. congruence.
Qed.

Lemma wlp_serve_https ids lists f (Q : http_lists -> frame HttpHub -> Prop) (E : exit -> frame HttpHub -> Prop) :
  visiting ids lists (fr_self f) -> (forall lists' f', visiting [] lists' (fr_self f') -> Q lists' f') ->
  (forall f', E Unwind f') -> wlp (serve_https clock http_date fuel ids lists) Q E f.
Proof.
  intros Hv HQ HE. assert (forall ids lists h, visiting ids lists h -> visiting [] lists h) as Hany.
  { clear. intros ids. induction ids as [|id ids IH]; [done|]. intros lists h H. by eapply IH, visiting_same. }
  revert lists f Hv. induction ids as [|id ids IH]; intros lists f Hv; simpl; [wlp_step; by apply HQ|].
  wlp_step. simpl. destruct (N.eqb_spec (remaining_budget (fr_ctx f)) 0) as [_|_].
  - wlp_step. apply HQ. by eapply Hany.
  - apply wlp_bind. eapply wlp_serve_http; [exact Hv| |done]. intros lists' f' Hv'. by apply IH.
Qed.

(** ** Removing *)

Abbreviation ok h := (hub_ok got given hs h (st_of [] h)).

Lemma wp_drop_connections ids f (Q : unit -> frame HttpHub -> Prop) E :
  ok (fr_self f) -> (forall j rid, j ∈ ids -> ~ writes (st_of [] (fr_self f)) j rid RespPending) ->
  (forall f', ok (fr_self f') -> Q tt f') -> wp (remove_connections ids) Q E f.
Proof.
  intros Hok Hrem HQ. revert f Hok Hrem. induction ids as [|id ids IH]; intros f Hok Hrem; [by apply HQ|].
  cbn [remove_connections]. apply wp_bind. unfold remove_connection.
  assert (forall h', hh_connections h' = delete id (hh_connections (fr_self f)) -> st_less (st_of [] (fr_self f)) (st_of [] h'))
    as Hless.
  { intros h' Hc j rid rs cid Hj. unfold st_of in *. rewrite Hc in Hj. destruct (decide (j = id)) as [->|].
    - by rewrite lookup_delete_eq in Hj.
    - rewrite lookup_delete_ne in Hj by done. exists rs. split; [done|by left]. }
  assert (forall f', ok (fr_self f') -> st_less (st_of [] (fr_self f)) (st_of [] (fr_self f')) -> wp (remove_connections ids) Q E f')
    as Hnext.
  { intros f' Hok' Hl. apply IH; [done|]. intros j rid Hj [cid W]. destruct (Hl _ _ _ _ W) as (rs & W' & [<-|(? & ? & _ & [[=]|[? [=]]])]).
    apply (Hrem j rid); [by right|by exists cid]. }
  wp_run. destruct (hh_connections (fr_self f) !! id) as [cx|] eqn:Hcx; simpl.
  - destruct (cx_state cx) as [rd|req cid|rid rs cid| |] eqn:Hst; wp_run;
      try (apply Hnext; [eapply hub_ok_less; [exact Hok|done|done|]|]; by apply Hless).
    assert (rid ∉ hh_response_wait_queue (fr_self f)) as Hnq.
    { intros Hin. assert (writes (st_of [] (fr_self f)) id rid rs) as W by (exists cid; unfold st_of; by rewrite Hcx; simpl; rewrite Hst).
      pose proof (proj2 (ok_waiting _ _ _ _ _ Hok rid Hin) _ _ W) as ->. by apply (Hrem id rid); [left|]. }
    assert (filter (fun q => q <> rid) (hh_response_wait_queue (fr_self f)) = hh_response_wait_queue (fr_self f)) as Hf.
    { clear -Hnq. induction (hh_response_wait_queue (fr_self f)) as [|q l IH]; [done|].
      apply not_elem_of_cons in Hnq as [Hq Hl]. rewrite filter_cons_True by done. by rewrite IH. }
    apply Hnext; [|by apply Hless]. eapply hub_ok_less; [exact Hok|unfold same_core; simpl; by rewrite Hf|simpl; apply delete_subseteq|].
    by apply Hless.
  - wp_run. apply Hnext; [eapply hub_ok_less; [exact Hok|done|done|]|]; by apply Hless.
Qed.
End calls.

(** ** Handing over

    What one pass over the waiting requests has handed to the outports, and what
    one pass over RESP has taken: a function of the hub before and after. *)
Definition request_packet (params : gmap string string) (req : HttpRequest) : FbpMessage :=
  from_bytes (encode_request_for_req_port (if bool_decide (params = ∅) then req else set_path_params params req)).
Definition forward_of (routes : option (list RouteConfig)) (r : N * N * HttpRequest) : option Forwarded :=
  routes ← routes; p ← find_route 0 routes r.2;
  Some (mk_Forwarded r.1.1 r.1.2 p.1 (request_packet p.2 r.2)).
Definition numbered (rid : N) (l : list (N * N * HttpRequest)) : option (N * N * HttpRequest) :=
  List.find (fun r => (r.1.1 =? rid)%N) l.
Definition handed_over (h h' : HttpHub) : list Forwarded :=
  omap (fun rid => r ← numbered rid (hh_pending_requests h); forward_of (hh_routes_config h) r)
    (drop (length (hh_response_wait_queue h)) (hh_response_wait_queue h')).
Definition taken_from (h h' : HttpHub) : list FbpMessage :=
  take (length (hh_response_wait_queue h) - length (hh_response_wait_queue h')) (ring_items (hh_resp h)).

Lemma numbered_head popped rid cid req rest :
  NoDup (map request_number (popped ++ (rid, cid, req) :: rest)) ->
  numbered rid (popped ++ (rid, cid, req) :: rest) = Some (rid, cid, req).
Proof.
  unfold numbered. induction popped as [|r popped IH]; simpl; [by rewrite N.eqb_refl|].
  intros [Hr Hnd]%NoDup_cons. destruct (N.eqb_spec r.1.1 rid) as [Heq|_]; [|by apply IH].
  destruct Hr. rewrite Heq, map_app. apply elem_of_app. right. by left.
Qed.

Section handing_over.
Variable got : nat -> list FbpMessage.
Variable given : list FbpMessage.
Abbreviation ok hs h := (hub_ok got given hs h (st_of [] h)).

Lemma st_of_await h h' cid rid j :
  hh_connections h' = alter (cx_with_state (WritingResponse rid RespPending cid)) cid (hh_connections h) ->
  st_of [] h' j = st_await (st_of [] h) cid rid j.
Proof.
  intros Hc. unfold st_of, st_await. rewrite Hc, lookup_alter. destruct (decide (cid = j)) as [->|Hne].
  - rewrite decide_True by done. by destruct (hh_connections h !! j).
  - by rewrite decide_False.
Qed.

(** [h0] is the hub when the pass began, [forwarded] had been handed over. *)
Record sending (forwarded : list Forwarded) (taken : list FbpMessage) (h0 h : HttpHub) : Prop := mk_sending {
  se_ok : ok (mk_History (forwarded ++ handed_over h0 h) taken) h;
  se_queue : exists new, hh_response_wait_queue h = hh_response_wait_queue h0 ++ new;
  se_pending : exists popped, hh_pending_requests h0 = popped ++ hh_pending_requests h;
  se_numbers : NoDup (map request_number (hh_pending_requests h0));
  se_routes : hh_routes_config h = hh_routes_config h0;
  se_next : hh_next_request_id h = hh_next_request_id h0
}.

Lemma sending_start forwarded taken h : ok (mk_History forwarded taken) h -> sending forwarded taken h h.
Proof.
  intros Hok. split; [|exists []; by rewrite app_nil_r|by exists []|by eapply ok_requests|done|done].
  unfold handed_over. by rewrite drop_all, app_nil_r.
Qed.

Lemma sending_refused forwarded taken h0 h h' rid cid req rest resp :
  sending forwarded taken h0 h -> hh_pending_requests h = (rid, cid, req) :: rest ->
  (hh_resp h', hh_req h', hh_next_request_id h', hh_response_wait_queue h', hh_pending_requests h', hh_routes_config h') =
    (hh_resp h, hh_req h, hh_next_request_id h, hh_response_wait_queue h, rest, hh_routes_config h) ->
  hh_pending_responses h' = <[rid := resp]> (hh_pending_responses h) ->
  (forall j, st_of [] h' j = st_await (st_of [] h) cid rid j) ->
  sending forwarded taken h0 h'.
Proof.
  intros [Hok Hq Hp Hnd Hr Hn] Hpr [= H1 H2 H3 H4 H5 H6] H7 H8. split; try congruence.
  - unfold handed_over in *. rewrite H4. eapply hub_ok_less; [eapply (hub_ok_refuse got given _ h);
      [exact Hok|exact Hpr|by rewrite H1, H2, H3, H4, H5|exact H7]|done|done|by apply st_less_eq].
  - by rewrite H4.
  - destruct Hp as [popped ->]. exists (popped ++ [(rid, cid, req)]). by rewrite Hpr, H5, <- app_assoc.
Qed.

Lemma sending_forwarded forwarded taken h0 h h' rid cid req rest e o o' es :
  sending forwarded taken h0 h -> hh_pending_requests h = (rid, cid, req) :: rest ->
  forward_of (hh_routes_config h) (rid, cid, req) = Some e ->
  hh_req h !! fw_index e = Some o -> sent [fw_packet e] o o' es ->
  (hh_resp h', hh_next_request_id h', hh_pending_responses h', hh_pending_requests h', hh_routes_config h') =
    (hh_resp h, hh_next_request_id h, hh_pending_responses h, rest, hh_routes_config h) ->
  hh_req h' = <[fw_index e := o']> (hh_req h) -> hh_response_wait_queue h' = hh_response_wait_queue h ++ [rid] ->
  (forall j, st_of [] h' j = st_await (st_of [] h) cid rid j) ->
  sending forwarded taken h0 h'.
Proof.
  intros [Hok [new Hq] [popped Hp] Hnd Hr Hn] Hpr He Ho Hs [= H1 H2 H3 H4 H5] H6 H7 H8.
  assert (fw_id e = rid /\ fw_client e = cid) as [Hid Hcl].
  { unfold forward_of in He. destruct (hh_routes_config h) as [routes|]; [|done]. simpl in He.
    by destruct (find_route 0 routes req); simplify_eq/=. }
  assert (handed_over h0 h' = handed_over h0 h ++ [e]) as Hh.
  { unfold handed_over. rewrite H7, Hq, <- app_assoc, !drop_app_length, omap_app. f_equal. simpl.
    rewrite Hp, Hpr, numbered_head by (by rewrite <- Hpr, <- Hp). simpl. by rewrite <- Hr, He. }
  split; try congruence.
  - rewrite Hh, app_assoc. eapply hub_ok_less; [eapply (hub_ok_forward got given (mk_History (forwarded ++ handed_over h0 h) taken) h);
      [exact Hok|exact Hpr|exact Ho|exact Hs|exact Hid|exact Hcl|by rewrite H1, H2, H3, H4|exact H6|exact H7]|done|done|by apply st_less_eq].
  - exists (new ++ [rid]). by rewrite H7, Hq, app_assoc.
  - exists (popped ++ [(rid, cid, req)]). by rewrite Hp, Hpr, H4, <- app_assoc.
Qed.

(** A rejected packet leaves the outport as it was. *)
Lemma hub_ok_rejected hs h h' index o o' :
  ok hs h -> hh_req h !! index = Some o -> sent [] o o' [] -> hh_req h' = <[index := o']> (hh_req h) ->
  (hh_resp h', hh_next_request_id h', hh_response_wait_queue h', hh_pending_requests h', hh_pending_responses h',
   hh_connections h') =
    (hh_resp h, hh_next_request_id h, hh_response_wait_queue h, hh_pending_requests h, hh_pending_responses h,
     hh_connections h) ->
  ok hs h'.
Proof.
  intros [] Ho [Hs _ _ _ _] Hq [= Hr Hn Hw Hp Hre Hc]. rewrite (st_of_ext [] h h' Hc).
  split; rewrite ?Hr, ?Hn, ?Hw, ?Hp, ?Hre, ?Hq; try done. intros k x Hx. destruct (decide (k = index)) as [->|].
  - rewrite list_lookup_insert_eq in Hx by (by eapply lookup_lt_Some). injection Hx as <-. rewrite Hs, app_nil_r. by apply ok_routed0.
  - rewrite list_lookup_insert_ne in Hx by done. by apply ok_routed0.
Qed.

Section pass.
Variable forwarded : list Forwarded.
Variable taken : list FbpMessage.
Variable h0 : HttpHub.
Abbreviation still h := (sending forwarded taken h0 h).

Lemma wp_refuse_request rid cid req rest body f (Q : unit -> frame HttpHub -> Prop) E :
  still (fr_self f) -> hh_pending_requests (fr_self f) = (rid, cid, req) :: rest ->
  (forall f', still (fr_self f') -> Q tt f') -> wp (refuse_request cid rid body) Q E f.
Proof.
  intros Hs Hp HQ. unfold refuse_request, drop_request, await_response. wp_run. apply HQ.
  eapply (sending_refused _ _ _ (fr_self f)); [exact Hs|exact Hp|simpl; by rewrite Hp|reflexivity|].
  intros j. by apply st_of_await.
Qed.

Lemma wp_send_req index m f (Q : result unit FbpMessage -> frame HttpHub -> Prop) E :
  (index < length (hh_req (fr_self f)))%nat ->
  (forall o o' es, hh_req (fr_self f) !! index = Some o -> sent [m] o o' es ->
     Q (Ok tt) (mk_frame (set hh_l_req (<[index := o']> (hh_req (fr_self f))) (fr_self f)) (fr_ctx f) (fr_work f)
                  (fr_effects f ++ es) (fr_reads f))) ->
  (forall o o' es, hh_req (fr_self f) !! index = Some o -> sent [] o o' [] ->
     Q (Err m) (mk_frame (set hh_l_req (<[index := o']> (hh_req (fr_self f))) (fr_self f)) (fr_ctx f) (fr_work f)
                  (fr_effects f ++ es) (fr_reads f))) ->
  wp (send_req index m) Q E f.
Proof.
  intros Hi Hok Herr. apply lookup_lt_is_Some in Hi as [o Ho]. unfold wp, send_req. rewrite Ho.
  destruct (push_spec m o) as (o' & es & Hpush & Hit & Hc & Hw & Hfull & Hwake & Hab). rewrite Hpush.
  destruct (sink_full o) eqn:Hf; simpl.
  - apply (Herr o); [done|]. by split; [rewrite app_nil_r|..].
  - apply (Hok o); [done|]. by split; auto.
Qed.

Lemma wp_route_request rid cid req rest routes f (Q : unit -> frame HttpHub -> Prop) (E : exit -> frame HttpHub -> Prop) :
  still (fr_self f) -> hh_pending_requests (fr_self f) = (rid, cid, req) :: rest ->
  hh_routes_config (fr_self f) = Some routes ->
  (forall f', still (fr_self f') -> Q tt f') -> (forall f', still (fr_self f') -> E Break f') ->
  wp (route_request rid cid req routes) Q E f.
Proof.
  intros Hs Hp Hro HQ HE. unfold route_request. destruct (find_route 0 routes req) as [[index params]|] eqn:Hf;
    [|by eapply wp_refuse_request].
  wp_run. destruct (Nat.ltb_spec index (length (hh_req (fr_self f)))) as [Hi|]; [|by eapply wp_refuse_request].
  apply wp_bind, wp_send_req; [done|..]; intros o o' es Ho Hsent.
  - unfold drop_request, await_response. any_run. apply HQ.
    eapply (sending_forwarded _ _ _ (fr_self f) _ rid cid req rest (mk_Forwarded rid cid index (request_packet params req)));
      [exact Hs|exact Hp|unfold forward_of; rewrite Hro; simpl; by rewrite Hf|exact Ho|exact Hsent|simpl; by rewrite Hp|reflexivity|
       reflexivity|]. intros j. by apply st_of_await.
  - wp_run. apply HE. destruct Hs as [Hok Hq Hpe Hnd Hr Hn]. split; try done. by eapply hub_ok_rejected.
Qed.

Lemma wlp_send_requests f (Q : unit -> frame HttpHub -> Prop) E :
  still (fr_self f) -> (forall f', still (fr_self f') -> Q tt f') -> wlp send_requests Q E f.
Proof.
  intros Hok HQ. unfold send_requests. apply (wlp_while (fun f => still (fr_self f))); [done|auto|].
  intros f' Hok' _. wlp_step. simpl. destruct (hh_pending_requests (fr_self f')) as [|[[rid cid] req] rest] eqn:Hp;
    [wlp_step; by apply HQ|].
  wlp_step. simpl. destruct (hh_routes_config (fr_self f')) as [routes|] eqn:Hr; [|by wlp_step].
  apply wlp_wp. by eapply wp_route_request.
Qed.
End pass.

(** [h0] is the hub when the pass began, [msgs] have been taken since. *)
Record taking (forwarded : list Forwarded) (taken : list FbpMessage) (h0 h : HttpHub) (msgs : list FbpMessage) : Prop := mk_taking {
  ta_ok : ok (mk_History forwarded (taken ++ msgs)) h;
  ta_ring : exists rest, ring_items (hh_resp h0) = msgs ++ rest;
  ta_queue : exists served, hh_response_wait_queue h0 = served ++ hh_response_wait_queue h /\ length served = length msgs;
  ta_pending : hh_pending_requests h = hh_pending_requests h0;
  ta_next : hh_next_request_id h = hh_next_request_id h0
}.

Lemma taking_taken forwarded taken h0 h msgs : taking forwarded taken h0 h msgs -> msgs = taken_from h0 h.
Proof.
  intros [_ [rest Hr] (served & Hq & Hl) _ _]. unfold taken_from. rewrite Hr, Hq, length_app, Nat.add_sub, Hl. by rewrite take_app_length.
Qed.

Lemma wp_take_responses forwarded taken f (Q : unit -> frame HttpHub -> Prop) E :
  ok (mk_History forwarded taken) (fr_self f) ->
  (forall f', taking forwarded taken (fr_self f) (fr_self f') (taken_from (fr_self f) (fr_self f')) -> Q tt f') ->
  wp take_responses Q E f.
Proof.
  intros Hok HQ. assert (forall f' msgs, taking forwarded taken (fr_self f) (fr_self f') msgs -> Q tt f') as HQ'.
  { intros f' msgs Ht. apply HQ. by rewrite <- (taking_taken _ _ _ _ _ Ht). }
  unfold take_responses. apply (wp_while (fun f' => exists msgs, taking forwarded taken (fr_self f) (fr_self f') msgs /\
      ring_items (hh_resp (fr_self f)) = msgs ++ ring_items (hh_resp (fr_self f')))
    (fun f => length (ring_items (hh_resp (fr_self f))))).
  - exists []. split; [|done]. split; [by rewrite app_nil_r|by eexists|by exists []|done|done].
  - rewrite ring_slots_spec. lia.
  - intros f' (msgs & Ht & _) _. by eapply HQ'.
  - intros f' (msgs & Ht & Hring) _. pose proof Ht as [Hok' Hr (served & Hq0 & Hl) Hp Hn]. apply wp_bind, wp_pop; simpl.
    + intros Hi r [Htk _ _]. wp_run. apply (HQ' _ msgs). split; [|done|by exists served|done|done]. simpl. destruct Hok'.
      rewrite Hi in *. simpl in *. rewrite drop_nil in Htk || idtac. split; simpl; rewrite ?Htk, ?Hi; done.
    + intros m rest r Hi [Htk _ _]. wp_run. rewrite Hi in Htk. simpl in Htk. rewrite drop_0 in Htk.
      destruct (hh_response_wait_queue (fr_self f')) as [|rid queue] eqn:Hq.
      * wp_run. apply (HQ' _ msgs). split; [|done|exists served; split; [simpl; congruence|done]|done|done].
        eapply (hub_ok_lose got given _ (fr_self f')); [exact Hok'|exact Hi|exact Htk|]. simpl. by rewrite Hq.
      * any_run. split; [|rewrite Htk, Hi; simpl; lia]. exists (msgs ++ [m]). split; [|by rewrite Htk, Hring, Hi, <- app_assoc]. split.
        -- rewrite app_assoc. eapply (hub_ok_take got given (mk_History forwarded (taken ++ msgs)) (fr_self f')); [exact Hok'|exact Hq|exact Hi|exact Htk|done|done].
        -- exists rest. by rewrite Hring, Hi, <- app_assoc.
        -- exists (served ++ [rid]). simpl. rewrite !length_app, Hl, Hq0, <- app_assoc. done.
        -- done.
        -- done.
Qed.
End handing_over.

(** ** Reading

    What the parser makes of the next bytes on a connection, if they complete a
    request. *)
Definition request_of (fuel : nat) (cx : HttpConnection) : option HttpRequest :=
  match cx_state cx, (http_read READ_SIZE (cx_sock cx)).1 with
  | ReadingRequest rd, Ok data =>
      match parse_loop fuel (mk_Reading (rd_state rd) (rd_buffer rd ++ data) (rd_request rd)) with
      | Some (Finish None rd') => rd_request rd'
      | _ => None
      end
  | _, _ => None
  end.

Section reading.
Variable clock : nat -> Instant.
Variable http_date : Instant -> option string.
Variable fuel : nat.
(** The hub when the visits began. *)
Variable h0 : HttpHub.

(** The request came from its connection, and its number is new. *)
Record came_in (h : HttpHub) (r : N * N * HttpRequest) : Prop := mk_came_in {
  ci_parsed : hh_connections h0 !! r.1.2 ≫= request_of fuel = Some r.2;
  ci_number : (hh_next_request_id h0 <= r.1.1 < hh_next_request_id h)%N
}.
Record reads (ids : list N) (h : HttpHub) (l : list (N * N * HttpRequest)) : Prop := mk_reads {
  rd_same : forall id, id ∈ ids -> hh_connections h !! id = hh_connections h0 !! id;
  rd_pending : hh_pending_requests h = hh_pending_requests h0 ++ l;
  rd_came : Forall (came_in h) l;
  rd_numbers : NoDup (map request_number l);
  rd_next : (hh_next_request_id h0 <= hh_next_request_id h /\ hh_next_request_id h + N.of_nat (length ids) < u64_modulus)%N;
  rd_ids : NoDup ids
}.
Definition reading (ids : list N) (f : frame HttpHub) : Prop := exists l, reads ids (fr_self f) l.

(** A visit that reads no request; a number may be used. *)
Lemma reads_other id ids h h' l :
  reads (id :: ids) h l -> (forall j, j <> id -> hh_connections h' !! j = hh_connections h !! j) ->
  hh_pending_requests h' = hh_pending_requests h ->
  (hh_next_request_id h <= hh_next_request_id h' <= hh_next_request_id h + 1)%N -> reads ids h' l.
Proof.
  intros [H1 H2 H3 H4 [H5 H5'] H6] Hc Hp Hn. apply NoDup_cons in H6 as [Hid Hnd]. simpl length in H5'. split; try done.
  - intros j Hj. rewrite Hc by (by intros ->). apply H1. by right.
  - by rewrite Hp.
  - eapply Forall_impl; [exact H3|]. intros r [? ?]. split; [done|lia].
  - lia.
Qed.

(** A visit that reads one. *)
Lemma reads_request id ids h h' l cx req :
  reads (id :: ids) h l -> hh_connections h !! id = Some cx -> request_of fuel cx = Some req ->
  (forall j, j <> id -> hh_connections h' !! j = hh_connections h !! j) ->
  hh_pending_requests h' = hh_pending_requests h ++ [(hh_next_request_id h, id, req)] ->
  hh_next_request_id h' = (hh_next_request_id h + 1)%N -> reads ids h' (l ++ [(hh_next_request_id h, id, req)]).
Proof.
  intros [H1 H2 H3 H4 [H5 H5'] H6] Hcx Hreq Hc Hp Hn. pose proof H6 as [Hid Hnd]%NoDup_cons. simpl length in H5'. split; try done.
  - intros j Hj. rewrite Hc by (by intros ->). apply H1. by right.
  - by rewrite Hp, H2, app_assoc.
  - apply Forall_app. split; [eapply Forall_impl; [exact H3|]; intros r [? ?]; split; [done|lia]|].
    constructor; [|constructor]. split; simpl; [|lia]. rewrite <- (H1 id) by (by left). by rewrite Hcx.
  - rewrite map_app. apply NoDup_app. split_and!; [done| |apply NoDup_singleton].
    intros x (y & -> & Hy)%list_elem_of_fmap Heq%list_elem_of_singleton. rewrite Forall_forall in H3. apply H3 in Hy as [_ Hy].
    unfold request_number in Heq. simpl in Heq. lia.
  - lia.
Qed.

Ltac visit := lazymatch goal with
  | |- wlp (response_date _ _ _ ≫= _) _ _ _ => apply wlp_bind_wp, wp_response_date; intros ? ?; cbv beta zeta
  | _ => hub_step
  end.

(** The visits that read no request. *)
Lemma wlp_write_quiet id ids cid rid rs cx lists f (Q : http_lists -> frame HttpHub -> Prop) :
  reading (id :: ids) f -> (forall lists f', reading ids f' -> Q lists f') ->
  wlp (write_response clock http_date id cid rid rs cx lists) Q (fun _ _ => True) f.
Proof.
  intros [l Hl] HQ. assert (forall lists g, hh_pending_requests (fr_self g) = hh_pending_requests (fr_self f) ->
    hh_next_request_id (fr_self g) = hh_next_request_id (fr_self f) ->
    (forall j, j <> id -> hh_connections (fr_self g) !! j = hh_connections (fr_self f) !! j) -> Q lists g) as Hend.
  { intros lists' g Hp Hn Hc. apply HQ. exists l. eapply reads_other; [exact Hl|exact Hc|exact Hp|lia]. }
  destruct lists as [remove changes]. unfold write_response. destruct rs as [|response sent|].
  - wlp_step. simpl. destruct (_ !! rid); [|wlp_step; by apply Hend]. hub_run. apply Hend; [done..|].
    intros j Hj. simpl. by rewrite lookup_insert_ne.
  - visit. destruct (sent <=? _)%nat; [|wlp_run; done]. destruct (http_write _ _) as [[k|kind] sock].
    + match goal with |- context [(?a <=? ?b)%nat] => destruct (a <=? b)%nat end; hub_run; (apply Hend; [done..|]);
        intros j Hj; simpl; by rewrite lookup_insert_ne.
    + destruct kind; hub_run; (apply Hend; [done..|]); intros j Hj; simpl; by rewrite lookup_insert_ne.
  - wlp_step. by apply Hend.
Qed.

Lemma wlp_read_quiet id ids cx rd lists f (Q : http_lists -> frame HttpHub -> Prop) :
  reading (id :: ids) f -> hh_connections (fr_self f) !! id = Some cx -> cx_state cx = ReadingRequest rd ->
  (forall lists f', reading ids f' -> Q lists f') ->
  wlp (read_request clock fuel id cx rd lists) Q (fun _ _ => True) f.
Proof.
  intros [l Hl] Hcx Hst HQ. pose proof (rd_next _ _ _ Hl) as [_ Hnx]. simpl length in Hnx.
  assert (forall lists g, hh_pending_requests (fr_self g) = hh_pending_requests (fr_self f) ->
    (hh_next_request_id (fr_self f) <= hh_next_request_id (fr_self g) <= hh_next_request_id (fr_self f) + 1)%N ->
    (forall j, j <> id -> hh_connections (fr_self g) !! j = hh_connections (fr_self f) !! j) -> Q lists g) as Hend.
  { intros lists' g Hp Hn Hc. apply HQ. exists l. by eapply reads_other. }
  destruct lists as [remove changes]. unfold read_request. destruct (http_read READ_SIZE (cx_sock cx)) as [res sock] eqn:Hread.
  hub_step. assert (forall j y z (g : HttpHub), j <> id -> hh_connections g = <[id := y]> (<[id := z]> (hh_connections (fr_self f))) ->
    hh_connections g !! j = hh_connections (fr_self f) !! j) as Hput by (intros j y z g Hj ->; by rewrite !lookup_insert_ne).
  destruct res as [data|kind].
  2:{ destruct kind; wlp_step; (apply Hend; [done|simpl; lia|]); intros j Hj; simpl; by rewrite lookup_insert_ne. }
  destruct data as [|b data]; [wlp_step; apply Hend; [done|simpl; lia|]; intros j Hj; simpl; by rewrite lookup_insert_ne|].
  hub_step. destruct (parse_loop _ _) as [r|] eqn:Hparse; [|by apply wlp_diverge].
  destruct r as [rd'|rd'|response rd'].
  1,2: hub_run; (apply Hend; [done|simpl; lia|]); intros j Hj; by eapply Hput.
  apply wlp_bind. unfold queue_error. destruct response as [resp|].
  - apply wlp_bind_wp, wp_fresh_request_id; [simpl; lia|]. hub_run. apply wlp_bind. unfold end_of_parsing. hub_step.
    rewrite writing_change. wlp_run. apply Hend; [done|simpl; lia|]. intros j Hj; by eapply Hput.
  - wlp_step. apply wlp_bind. unfold end_of_parsing. hub_step.
    destruct (existsb _ changes); [wlp_run; apply Hend; [done|simpl; lia|]; intros j Hj; by eapply Hput|].
    destruct (rd_request rd') as [req|] eqn:Hreq; [|wlp_run; apply Hend; [done|simpl; lia|]; intros j Hj; by eapply Hput].
    apply wlp_bind_wp, wp_fresh_request_id; [simpl; lia|]. hub_run. apply HQ. eexists.
    eapply (reads_request id ids (fr_self f) _ l cx req); [exact Hl|exact Hcx| |intros j Hj; by eapply Hput|done|done].
    unfold request_of. rewrite Hst, Hread. simpl. by rewrite Hparse.
Qed.

Lemma wlp_serve_quiet ids lists f (Q : http_lists -> frame HttpHub -> Prop) :
  reading ids f -> (forall lists f', reading [] f' -> Q lists f') ->
  wlp (serve_https clock http_date fuel ids lists) Q (fun _ _ => True) f.
Proof.
  intros Hf HQ. assert (forall ids f, reading ids f -> reading [] f) as Hany.
  { clear. intros ids f [l [H1 H2 H3 H4 [H5 H5'] H6]]. exists l. split; [by intros id ?%elem_of_nil|done..|simpl; lia|apply NoDup_nil_2]. }
  revert lists f Hf. induction ids as [|id ids IH]; intros lists f Hf; simpl; [wlp_step; by apply HQ|].
  wlp_step. simpl. destruct (remaining_budget (fr_ctx f) =? 0)%N; [wlp_step; by eapply HQ, Hany|].
  apply wlp_bind. assert (forall l g, reading ids g -> wlp (serve_https clock http_date fuel ids l) Q (fun _ _ => True) g) as Hgo
    by (intros; by apply IH).
  assert (forall l g, hh_pending_requests (fr_self g) = hh_pending_requests (fr_self f) ->
    hh_next_request_id (fr_self g) = hh_next_request_id (fr_self f) -> hh_connections (fr_self g) = hh_connections (fr_self f) ->
    wlp (serve_https clock http_date fuel ids l) Q (fun _ _ => True) g) as Hsame.
  { intros l g Hp Hn Hc. apply Hgo. destruct Hf as [rs Hrs]. exists rs.
    eapply reads_other; [exact Hrs|intros j _; by rewrite Hc|exact Hp|lia]. }
  unfold serve_http. wlp_step. simpl. destruct (hh_connections (fr_self f) !! id) as [cx|] eqn:Hcx; [|wlp_step; by apply Hsame].
  destruct (cx_state cx) as [rd|req cid|rid rs cid| |] eqn:Hst.
  - by eapply wlp_read_quiet.
  - wlp_step. by apply Hsame.
  - by eapply wlp_write_quiet.
  - unfold keep_alive. destruct lists. wlp_run. destruct (_ <? _)%N; hub_run; by apply Hsame.
  - wlp_step. by apply Hsame.
Qed.
End reading.

(** * Calls *)
Section call.
Variable clock : nat -> Instant.
Variable http_date : Instant -> option string.
Variable http_bind : string -> result HttpListener ErrorKind.
Variable fuel : nat.
Variable got : nat -> list FbpMessage.
Variable given : list FbpMessage.

(** *** Stages *)

Definition stage (p : proc HttpHub unit) (f : frame HttpHub) : option (frame HttpHub) :=
  match p f with Some (f', inl _) => Some f' | _ => None end.

Lemma wlp_stage (p : proc HttpHub unit) (Q : unit -> frame HttpHub -> Prop) E f :
  wlp p Q E f -> wlp p (fun a f' => stage p f = Some f' /\ Q a f') E f.
Proof. unfold stage, wlp, wp. destruct (p f) as [[f' [[]|e]]|]; naive_solver. Qed.

Lemma wlp_and {A} (p : proc HttpHub A) (Q1 Q2 : A -> frame HttpHub -> Prop) (E1 E2 : exit -> frame HttpHub -> Prop) f :
  wlp p Q1 E1 f -> wlp p Q2 E2 f -> wlp p (fun a f' => Q1 a f' /\ Q2 a f') E1 f.
Proof. unfold wlp, wp. destruct (p f) as [[f' [a|e]]|]; naive_solver. Qed.

Lemma wp_remove_quiet ids f (Q : unit -> frame HttpHub -> Prop) E :
  (forall f', hh_pending_requests (fr_self f') = hh_pending_requests (fr_self f) ->
     hh_next_request_id (fr_self f') = hh_next_request_id (fr_self f) -> Q tt f') ->
  wp (remove_connections ids) Q E f.
Proof.
  revert f. induction ids as [|id ids IH]; intros f HQ; [by apply HQ|]. cbn [remove_connections]. apply wp_bind.
  unfold remove_connection. wp_run. destruct (cx_state <$> _) as [[]|]; wp_run; apply IH; intros f' Hp Hn; by apply HQ.
Qed.

(** What the visits add to the waiting requests. *)
Record clients_served (h h' : HttpHub) (l : list (N * N * HttpRequest)) : Prop := mk_clients_served {
  cs_pending : hh_pending_requests h' = hh_pending_requests h ++ l;
  cs_came : Forall (came_in fuel h h') l;
  cs_numbers : NoDup (map request_number l);
  cs_next : (hh_next_request_id h <= hh_next_request_id h')%N
}.

Lemma wlp_clients_quiet f :
  (hh_next_request_id (fr_self f) + room_left f < u64_modulus)%N ->
  wlp (serve_clients clock http_date fuel)
    (fun _ f' => exists l, clients_served (fr_self f) (fr_self f') l) (fun _ _ => True) f.
Proof.
  intros Hn. unfold serve_clients. wlp_step. simpl. apply wlp_bind, (wlp_serve_quiet clock http_date fuel (fr_self f)).
  { exists []. split; simpl; [done|by rewrite app_nil_r|constructor|apply NoDup_nil_2| |apply hash_iter_keys_nodup].
    unfold room_left in Hn. rewrite length_fmap, hash_iter_perm, length_map_to_list. lia. }
  intros [remove changes] f1 [l [_ H2 H3 H4 [H5 _] _]]. wlp_run. apply wlp_wp, wp_remove_quiet. simpl. intros f2 Hp2 Hn2.
  exists l. split; [by rewrite Hp2| |done|by rewrite Hn2].
  eapply Forall_impl; [exact H3|]. intros r [? ?]. split; [done|by rewrite Hn2].
Qed.

Lemma wlp_serve_clients hs f :
  hub_ok got given hs (fr_self f) (st_of [] (fr_self f)) -> (hh_next_request_id (fr_self f) + room_left f < u64_modulus)%N ->
  wlp (serve_clients clock http_date fuel) (fun _ f' => hub_ok got given hs (fr_self f') (st_of [] (fr_self f')) /\
    exists l, clients_served (fr_self f) (fr_self f') l) (fun e _ => e = Unwind) f.
Proof.
  intros Hok Hn. eapply wlp_and; [|by apply wlp_clients_quiet]. unfold serve_clients. wlp_step. simpl. apply wlp_bind.
  eapply (wlp_serve_https clock http_date fuel got given hs); [| |done].
  { split; simpl; [exact Hok|by intros j rid ?%elem_of_nil|by split; apply not_elem_of_nil|apply hash_iter_keys_nodup|].
    unfold room_left in *. rewrite length_fmap, hash_iter_perm. rewrite length_map_to_list. lia. }
  intros [remove changes] f2 [Hok2 Hrem2 _ _ _]. simpl in Hok2, Hrem2. wlp_run. apply wlp_wp.
  match goal with |- wp _ _ _ ?g => set (f3 := g) end.
  assert (forall j, st_of [] (fr_self f3) j = st_of changes (fr_self f2) j) as Hst.
  { intros j. unfold st_of. simpl. rewrite apply_changes_lookup. by destruct (hh_connections (fr_self f2) !! j). }
  eapply (wp_drop_connections got given hs).
  - eapply hub_ok_less; [exact Hok2|done|done|by apply st_less_eq].
  - intros j rid Hj [cid W]. rewrite Hst in W. by apply (Hrem2 j rid Hj); exists cid.
  - done.
Qed.

(** The stages of a pass over the hub, after those of [forwarded] and [taken]. *)
Record hub_served (forwarded : list Forwarded) (taken : list FbpMessage) (f1 f2 f3 f4 f5 : frame HttpHub)
    (l : list (N * N * HttpRequest)) : Prop := mk_hub_served {
  hv_accepted : stage (accept_http clock) f1 = Some f2;
  hv_clients : stage (serve_clients clock http_date fuel) f2 = Some f3;
  hv_sent : stage send_requests f3 = Some f4;
  hv_took : stage take_responses f4 = Some f5;
  hv_same : hh_pending_requests (fr_self f2) = hh_pending_requests (fr_self f1) /\
    hh_next_request_id (fr_self f2) = hh_next_request_id (fr_self f1);
  hv_read : clients_served (fr_self f2) (fr_self f3) l;
  hv_sending : sending got given forwarded taken (fr_self f3) (fr_self f4);
  hv_taking : taking got given (forwarded ++ handed_over (fr_self f3) (fr_self f4)) taken (fr_self f4) (fr_self f5)
    (taken_from (fr_self f4) (fr_self f5))
}.

Lemma wlp_serve_hub forwarded taken f1 :
  hub_ok got given (mk_History forwarded taken) (fr_self f1) (st_of [] (fr_self f1)) ->
  (hh_next_request_id (fr_self f1) + room_left f1 < u64_modulus)%N ->
  wlp (serve_hub clock http_date fuel) (fun _ f5 => exists f2 f3 f4 l, hub_served forwarded taken f1 f2 f3 f4 f5 l)
    (fun e _ => e = Unwind) f1.
Proof.
  intros Hok Hn. unfold serve_hub. apply wlp_bind. eapply wlp_conseq; [apply wlp_stage, wlp_wp;
    eapply (wp_accept_http clock got given _ f1 (fun _ f' => hub_ok got given (mk_History forwarded taken) (fr_self f') (st_of [] (fr_self f')) /\
      hh_next_request_id (fr_self f') = hh_next_request_id (fr_self f1) /\
      hh_pending_requests (fr_self f') = hh_pending_requests (fr_self f1) /\ (room_left f' <= room_left f1)%N) (fun e _ => e = Unwind));
    [exact Hok|done|done]| |done].
  intros _ f2 (Ha & Hok2 & Hn2 & Hp2 & Hr2). apply wlp_bind.
  eapply wlp_conseq; [apply wlp_stage, wlp_serve_clients; [exact Hok2|rewrite Hn2; lia]| |done].
  intros _ f3 (Hc & Hok3 & l & Hl). apply wlp_bind.
  eapply wlp_conseq; [apply wlp_stage, (wlp_send_requests got given forwarded taken (fr_self f3) f3
    (fun _ f' => sending got given forwarded taken (fr_self f3) (fr_self f')) (fun e _ => e = Unwind)); [by apply sending_start|done]| |done].
  intros _ f4 [Hs Hsend]. eapply wlp_conseq; [apply wlp_stage, wlp_wp, (wp_take_responses got given (forwarded ++ handed_over (fr_self f3) (fr_self f4)) taken f4
    (fun _ f' => taking got given (forwarded ++ handed_over (fr_self f3) (fr_self f4)) taken (fr_self f4) (fr_self f')
      (taken_from (fr_self f4) (fr_self f'))) (fun e _ => e = Unwind)); [by apply se_ok in Hsend|done]| |done].
  intros _ f5 [Ht Htake]. exists f2, f3, f4, l. by split.
Qed.

(** What a call of the component leaves of the hub before it serves. *)
Definition hub_kept (h h' : HttpHub) : Prop :=
  (hh_resp h', hh_req h', hh_connections h', hh_pending_requests h', hh_pending_responses h', hh_response_wait_queue h',
   hh_next_request_id h') =
  (hh_resp h, hh_req h, hh_connections h, hh_pending_requests h, hh_pending_responses h, hh_response_wait_queue h,
   hh_next_request_id h).

Lemma hub_kept_ok hs h h' : hub_kept h h' -> hub_ok got given hs h (st_of [] h) -> hub_ok got given hs h' (st_of [] h').
Proof.
  intros [= Hr Hq Hc Hp Hre Hw Hn] Hok. rewrite (st_of_ext [] h h' Hc).
  eapply hub_ok_less; [exact Hok|congruence|by rewrite Hre|apply st_less_refl].
Qed.

Definition served (f0 f : frame HTTPServerComponent) : Prop :=
  hub_kept (hs_hub (fr_self f0)) (hs_hub (fr_self f)) /\
  (remaining_budget (fr_ctx f) <= remaining_budget (fr_ctx f0))%N.

Lemma wp_read_http_conf f0 f (Q : bool -> frame HTTPServerComponent -> Prop) (E : exit -> frame HTTPServerComponent -> Prop) :
  served f0 f -> (remaining_budget (fr_ctx f) = remaining_budget (fr_ctx f0)) ->
  (forall b f', served f0 f' -> remaining_budget (fr_ctx f') = remaining_budget (fr_ctx f0) -> Q b f') ->
  (forall f', E Unwind f') -> wp read_http_conf Q E f.
Proof.
  intros [Hk Hb] He HQ HE. unfold read_http_conf. apply wp_bind, wp_pop; simpl; [intros _ r _; wp_run; by apply HQ|].
  intros m rest r _ _. destruct (message_as_utf8 m); [|wp_run; apply HE].
  destruct (parse_http_server_conf _) as [addr [timeout|]]; wp_run; by apply HQ.
Qed.

Lemma wp_read_http_routes f0 f (Q : bool -> frame HTTPServerComponent -> Prop) (E : exit -> frame HTTPServerComponent -> Prop) :
  served f0 f -> (remaining_budget (fr_ctx f) = remaining_budget (fr_ctx f0)) ->
  (forall b f', served f0 f' -> remaining_budget (fr_ctx f') = remaining_budget (fr_ctx f0) -> Q b f') ->
  (forall f', E Unwind f') -> wp read_http_routes Q E f.
Proof.
  intros [Hk Hb] He HQ HE. unfold read_http_routes. apply wp_bind, wp_pop; simpl; [intros _ r _; wp_run; by apply HQ|].
  intros m rest r _ _. destruct (message_as_utf8 m); [|wp_run; apply HE]. wp_run. by apply HQ.
Qed.

Lemma wp_http_listen f0 b f (Q : unit -> frame HTTPServerComponent -> Prop) (E : exit -> frame HTTPServerComponent -> Prop) :
  served f0 f -> (0 < remaining_budget (fr_ctx f))%N -> (forall f', served f0 f' -> Q tt f') ->
  (forall f' r, served f0 f' -> E (Return r) f') -> (forall f', E Unwind f') -> wp (http_listen http_bind b) Q E f.
Proof.
  intros [Hk Hb] Hpos HQ HR HE. unfold http_listen. wp_run. destruct (hh_listener (hs_hub (fr_self f))).
  - destruct b; wp_run; [apply HQ; split; [done|simpl; lia]|by apply HQ].
  - wp_run. destruct (hs_listen_addr (fr_self f)); [|wp_run; by apply HR].
    destruct (hh_routes_config (hs_hub (fr_self f))); [|wp_run; by apply HR].
    destruct (http_bind _) as [li|]; [|wp_run; apply HE]. destruct (hl_nonblocking li); [|wp_run; apply HE].
    apply wp_bind, wp_zoom. wp_run. apply HQ. split; [done|simpl; lia].
Qed.

(** *** What a call has read, handed over and taken

    It is found by running the call up to the ends of its stages. *)
Record HttpLog : Type := mk_HttpLog {
  lg_read : list (N * N * HttpRequest);
  lg_forwarded : list Forwarded;
  lg_taken : list FbpMessage
}.
Definition hub_frame (f : frame HTTPServerComponent) : frame HttpHub :=
  mk_frame (hs_hub (fr_self f)) (fr_ctx f) (fr_work f) (fr_effects f) (fr_reads f).
Definition accepted (c : HTTPServerComponent) (ctx : NodeContext) : option (frame HttpHub) :=
  match get_ready http_bind (mk_frame c ctx 0 [] 0) with
  | Some (f, inl _) => stage (accept_http clock) (hub_frame f)
  | _ => None
  end.
Definition read_between (h h' : HttpHub) : list (N * N * HttpRequest) :=
  drop (length (hh_pending_requests h)) (hh_pending_requests h').
Definition http_log (c : HTTPServerComponent) (ctx : NodeContext) : HttpLog :=
  match (f2 ← accepted c ctx; f3 ← stage (serve_clients clock http_date fuel) f2; f4 ← stage send_requests f3;
         f5 ← stage take_responses f4; Some (f2, f3, f4, f5)) with
  | Some (f2, f3, f4, f5) =>
      mk_HttpLog (read_between (fr_self f2) (fr_self f3)) (handed_over (fr_self f3) (fr_self f4))
        (taken_from (fr_self f4) (fr_self f5))
  | None => mk_HttpLog [] [] []
  end.

(** All requests that were read, and what was handed over of them. *)
Record read_ok (rd : list (N * N * HttpRequest)) (forwarded : list Forwarded) (h : HttpHub) : Prop := mk_read_ok {
  ro_numbers : NoDup (map request_number rd);
  ro_below : Forall (fun r => (request_number r < hh_next_request_id h)%N) rd;
  ro_pending : exists handled, rd = handled ++ hh_pending_requests h;
  ro_forwarded : Forall (fun e => exists r routes, r ∈ rd /\ forward_of (Some routes) r = Some e) forwarded
}.

Lemma read_ok_kept rd forwarded h h' : hub_kept h h' -> read_ok rd forwarded h -> read_ok rd forwarded h'.
Proof. intros [= _ _ _ Hp _ _ Hn] [H1 H2 H3 H4]. split; rewrite ?Hp, ?Hn; done. Qed.

Lemma handed_over_from h h' :
  Forall (fun e => exists r routes, r ∈ hh_pending_requests h /\ forward_of (Some routes) r = Some e) (handed_over h h').
Proof.
  apply Forall_forall. intros e (rid & _ & He)%list_elem_of_omap. destruct (numbered rid _) as [r|] eqn:Hr; [|done].
  apply List.find_some in Hr as [Hin _]. simpl in He. destruct (hh_routes_config h) as [routes|]; [|done].
  exists r, routes. split; [by apply list_elem_of_In|exact He].
Qed.

Lemma hub_served_read rd forwarded taken f1 f2 f3 f4 f5 l :
  hub_served forwarded taken f1 f2 f3 f4 f5 l -> read_ok rd forwarded (fr_self f1) ->
  l = read_between (fr_self f2) (fr_self f3) /\
  read_ok (rd ++ l) (forwarded ++ handed_over (fr_self f3) (fr_self f4)) (fr_self f5).
Proof.
  intros [_ _ _ _ [Hp2 Hn2] [Hp3 Hcame Hnd Hle] Hs Ht] [H1 H2 [handled H3] H4].
  assert (Forall (fun r => (hh_next_request_id (fr_self f1) <= request_number r < hh_next_request_id (fr_self f3))%N) l) as Hl.
  { eapply Forall_impl; [exact Hcame|]. intros r [_ Hr]. by rewrite Hn2 in Hr. }
  split; [unfold read_between; by rewrite Hp3, drop_app_length|]. split.
  - rewrite map_app. apply NoDup_app. split_and!; [done| |done].
    intros x (r & -> & Hr)%list_elem_of_fmap (r' & Heq & Hr')%list_elem_of_fmap. rewrite Forall_forall in H2, Hl.
    apply H2 in Hr. apply Hl in Hr'. lia.
  - rewrite (ta_next _ _ _ _ _ _ _ Ht), (se_next _ _ _ _ _ _ Hs). apply Forall_app. split.
    + eapply Forall_impl; [exact H2|]. simpl. intros r Hr. rewrite Hn2 in Hle. lia.
    + eapply Forall_impl; [exact Hl|]. simpl. intros r [_ Hr]. exact Hr.
  - rewrite (ta_pending _ _ _ _ _ _ _ Ht). destruct (se_pending _ _ _ _ _ _ Hs) as [popped Hpop]. exists (handled ++ popped).
    by rewrite <- app_assoc, <- Hpop, Hp3, Hp2, H3, <- app_assoc.
  - apply Forall_app. split; eapply Forall_impl; [exact H4| |apply handed_over_from|];
      intros e (r & routes & Hr & He); exists r, routes; (split; [|exact He]).
    + apply elem_of_app. by left.
    + rewrite Hp3, Hp2 in Hr. rewrite H3. set_solver.
Qed.

(** A call that returns keeps the invariant, with what its log adds. *)
Lemma wp_get_ready f0 (Q : unit -> frame HTTPServerComponent -> Prop) (E : exit -> frame HTTPServerComponent -> Prop) :
  (0 < remaining_budget (fr_ctx f0))%N -> (forall f, served f0 f -> Q tt f) ->
  (forall f r, served f0 f -> E (Return r) f) -> (forall f, E Unwind f) -> wp (get_ready http_bind) Q E f0.
Proof.
  intros Hpos HQ HR HE. unfold get_ready. apply wp_bind. eapply (wp_read_http_conf f0); [done|done| |done].
  intros b1 f1 H1 Hb1. apply wp_bind. eapply (wp_read_http_routes f0); [done|done| |done].
  intros b2 f2 H2 Hb2. apply wp_bind. eapply (wp_http_listen f0); [done|by rewrite Hb2| |done|done].
  intros f3 H3. apply wp_zoom, wp_poll; cbn [fr_self get hs_l_signals]; [intros _ s _; by apply HQ|intros _ s _; by apply HR].
Qed.

Lemma http_server_call c ctx f r rd forwarded taken :
  hub_ok got given (mk_History forwarded taken) (hs_hub c) (st_of [] (hs_hub c)) -> read_ok rd forwarded (hs_hub c) ->
  (0 < remaining_budget ctx)%N ->
  (hh_next_request_id (hs_hub c) + N.of_nat (size (hh_connections (hs_hub c))) + remaining_budget ctx < u64_modulus)%N ->
  call (http_server_process clock http_date http_bind fuel) c ctx = Some (f, Some r) ->
  let lg := http_log c ctx in
  hub_ok got given (mk_History (forwarded ++ lg_forwarded lg) (taken ++ lg_taken lg)) (hs_hub (fr_self f))
    (st_of [] (hs_hub (fr_self f))) /\
  read_ok (rd ++ lg_read lg) (forwarded ++ lg_forwarded lg) (hs_hub (fr_self f)) /\
  Forall (fun r => exists f2, accepted c ctx = Some f2 /\ hh_connections (fr_self f2) !! r.1.2 ≫= request_of fuel = Some r.2)
    (lg_read lg).
Proof.
  intros Hok Hrd Hpos Hn. unfold call, http_server_process, mbind, proc_bind. set (f0 := mk_frame c ctx 0%N [] 0%nat).
  pose proof (wp_get_ready f0 (fun _ f => served f0 f) (fun e f => e = Unwind \/ exists r, e = Return r /\ served f0 f)
    Hpos (fun _ H => H) (fun f r H => or_intror (ex_intro _ r (conj eq_refl H))) (fun _ => or_introl eq_refl)) as Hready.
  unfold wp in Hready. unfold http_log, accepted. fold f0. destruct (get_ready http_bind f0) as [[f1 [[]|e]]|]; [| |done].
  2:{ destruct Hready as [-> | (r' & -> & [Hk _])]; [done|]. intros [= <- <-]. simpl. rewrite !app_nil_r.
      split_and!; [by eapply hub_kept_ok|by eapply read_ok_kept|constructor]. }
  destruct Hready as [Hk Hb]. unfold zoom. change (mk_frame (get hs_l_hub (fr_self f1)) _ _ _ _) with (hub_frame f1).
  destruct (wlp_serve_hub forwarded taken (hub_frame f1)) as [-> | Hwp]; [by eapply hub_kept_ok| |done|].
  { injection Hk as _ _ Hc _ _ _ Hnx. unfold room_left. simpl. rewrite Hc, Hnx. simpl in Hb. lia. }
  unfold wp in Hwp. destruct (serve_hub clock http_date fuel (hub_frame f1)) as [[f5 [[]|e]]|]; [|by subst e|done].
  destruct Hwp as (f2 & f3 & f4 & l & Hs). pose proof Hs as [Ha Hc Hse Hta _ Hread Hsend Htake].
  destruct (hub_served_read rd _ _ _ _ _ _ _ _ Hs) as [Hl Hro]; [by eapply read_ok_kept|].
  rewrite Ha. simpl. rewrite Hc. simpl. rewrite Hse. simpl. rewrite Hta. simpl.
  match goal with |- context [http_server_result clock ?g] => set (g1 := g) end.
  assert (forall o, http_server_result clock g1 = Some o -> hs_hub (fr_self o.1) = fr_self f5) as Hres.
  { intros o. unfold http_server_result, work_units, read, wake_poll, mret, mbind, proc_bind, proc_ret. simpl.
    destruct (0 <? _)%N; [by intros [= <-]|]. destruct (is_none _); [by intros [= <-]|]. by intros [= <-]. }
  intros Hcall. assert (hs_hub (fr_self f) = fr_self f5) as ->.
  { destruct (http_server_result clock g1) as [o|] eqn:Ho; [|done]. specialize (Hres o eq_refl).
    destruct o as [g [x|[|x|]]]; simpl in *; try done; by injection Hcall as <- <-. }
  split_and!; [exact (ta_ok _ _ _ _ _ _ _ Htake)|rewrite <- Hl; exact Hro|]. rewrite <- Hl.
  eapply Forall_impl; [exact (cs_came _ _ _ Hread)|]. intros x [Hx _]. by exists f2.
Qed.
End call.

(** * Runs

    A server, what has been taken from its outports and put into RESP, and what
    the calls so far have read, handed over and taken. *)
Record HttpServerRun : Type := mk_HttpServerRun {
  sr_server : HTTPServerComponent;
  sr_got : nat -> list FbpMessage;
  sr_given : list FbpMessage;
  sr_log : HttpLog
}.
Definition log_app (a b : HttpLog) : HttpLog :=
  mk_HttpLog (lg_read a ++ lg_read b) (lg_forwarded a ++ lg_forwarded b) (lg_taken a ++ lg_taken b).

(** What else may happen between calls: configuration and signals come, clients
    connect, and sockets have other things to find. *)
Definition elsewhere (c c' : HTTPServerComponent) : Prop :=
  let h := hs_hub c in let h' := hs_hub c' in
  (hh_resp h', hh_req h', hh_pending_requests h', hh_pending_responses h', hh_response_wait_queue h', hh_next_request_id h') =
  (hh_resp h, hh_req h, hh_pending_requests h, hh_pending_responses h, hh_response_wait_queue h, hh_next_request_id h) /\
  forall id, cx_state <$> hh_connections h' !! id = cx_state <$> hh_connections h !! id.

(** A call has a budget, and the request numbers are not used up. *)
Definition callable (c : HTTPServerComponent) (ctx : NodeContext) : Prop :=
  (0 < remaining_budget ctx)%N /\
  (hh_next_request_id (hs_hub c) + N.of_nat (size (hh_connections (hs_hub c))) + remaining_budget ctx < u64_modulus)%N.

(** A call that returns; a response of the network; a packet taken from an
    outport. *)
Inductive http_server_step : HttpServerRun -> HttpServerRun -> Prop :=
| http_server_called clock http_date http_bind fuel c got given log ctx f r :
    callable c ctx -> call (http_server_process clock http_date http_bind fuel) c ctx = Some (f, Some r) ->
    http_server_step (mk_HttpServerRun c got given log)
      (mk_HttpServerRun (fr_self f) got given (log_app log (http_log clock http_date http_bind fuel c ctx)))
| http_server_given c got given log m r :
    ring_push m (hh_resp (hs_hub c)) = (Ok tt, r) ->
    http_server_step (mk_HttpServerRun c got given log)
      (mk_HttpServerRun (set hs_l_hub (set hh_l_resp r (hs_hub c)) c) got (given ++ [m]) log)
| http_server_got c got given log k o o' m :
    hh_req (hs_hub c) !! k = Some o -> sink_items o = m :: sink_items o' ->
    http_server_step (mk_HttpServerRun c got given log)
      (mk_HttpServerRun (set hs_l_hub (set hh_l_req (<[k := o']> (hh_req (hs_hub c))) (hs_hub c)) c)
         (fun i => if decide (i = k) then got i ++ [m] else got i) given log)
| http_server_elsewhere c c' got given log :
    elsewhere c c' -> http_server_step (mk_HttpServerRun c got given log) (mk_HttpServerRun c' got given log).

Definition http_server_untouched (s : HttpServerRun) : Prop :=
  let h := hs_hub (sr_server s) in
  hh_connections h = ∅ /\ hh_pending_requests h = [] /\ hh_pending_responses h = ∅ /\ hh_response_wait_queue h = [] /\
  Forall (fun o => sink_items o = []) (hh_req h) /\ (forall k, sr_got s k = []) /\ sr_given s = ring_items (hh_resp h) /\
  sr_log s = mk_HttpLog [] [] [].

Definition run_ok (s : HttpServerRun) : Prop :=
  hub_ok (sr_got s) (sr_given s) (mk_History (lg_forwarded (sr_log s)) (lg_taken (sr_log s))) (hs_hub (sr_server s))
    (st_of [] (hs_hub (sr_server s))) /\
  read_ok (lg_read (sr_log s)) (lg_forwarded (sr_log s)) (hs_hub (sr_server s)).

Lemma http_server_step_inv s s' : run_ok s -> http_server_step s s' -> run_ok s'.
Proof.
  intros [Hok Hrd] Hs. destruct Hs as [clock date bind fuel c got given log ctx f r [Hpos Hn] Hcall|c got given log m r Hp|
    c got given log k o o' m Ho Hi|c c' got given log Hc]; simpl in Hok, Hrd.
  - destruct (http_server_call clock date bind fuel got given c ctx f r _ _ _ Hok Hrd Hpos Hn Hcall) as (H1 & H2 & _). by split.
  - split; [|by destruct Hrd]. simpl. destruct Hok. pose proof (ring_push_items m (hh_resp (hs_hub c))) as Hr. rewrite Hp in Hr. simpl in Hr.
    pose proof (ring_push_res m (hh_resp (hs_hub c))) as Hres. rewrite Hp in Hres. simpl in Hres.
    destruct (_ <? _)%nat; [|done]. split; simpl; try done. rewrite Hr, app_assoc. by apply sublist_app.
  - split; [|by destruct Hrd]. simpl. destruct Hok. split; simpl; try done. intros i x Hx. destruct (decide (i = k)) as [->|].
    + rewrite list_lookup_insert_eq in Hx by (by eapply lookup_lt_Some). injection Hx as <-.
      rewrite <- app_assoc. simpl. rewrite <- Hi. by apply ok_routed0.
    + rewrite list_lookup_insert_ne in Hx by done. by apply ok_routed0.
  - destruct Hc as [[= Hr Hq Hp Hre Hw Hn] Hst]. split; [|destruct Hrd; split; simpl; rewrite ?Hp, ?Hn; done].
    eapply hub_ok_less; [exact Hok|unfold same_core; simpl; congruence|simpl; by rewrite Hre|].
    apply st_less_eq. intros j. unfold st_of. apply Hst.
Qed.

Lemma http_server_run_inv s0 s : http_server_untouched s0 -> rtc http_server_step s0 s -> run_ok s.
Proof.
  intros (Hc & Hp & Hre & Hw & Hq & Hg & Hgi & Hl) Hr. assert (run_ok s0) as Hok.
  { assert (forall id rid rs, ~ writes (st_of [] (hs_hub (sr_server s0))) id rid rs) as Hno.
    { intros id rid rs [cid W]. unfold st_of in W. by rewrite Hc in W. }
    split; rewrite Hl; simpl; [|split; [apply NoDup_nil_2|constructor|exists []; by rewrite Hp|constructor]].
    split; rewrite ?Hp, ?Hre, ?Hw; simpl; try done; try (by intros; edestruct Hno); try apply NoDup_nil_2;
      try (by intros; match goal with H : _ ∈ [] |- _ => apply elem_of_nil in H end).
    - intros k o Ho. rewrite Hg. apply list_elem_of_lookup_2 in Ho. rewrite Forall_forall in Hq. by rewrite Hq.
    - by rewrite Hgi.
    - intros rid [x Hx]. by rewrite lookup_empty in Hx.
    - intros id rid rs cid W. by destruct (Hno id rid rs); exists cid. }
  clear Hc Hp Hre Hw Hq Hg Hgi Hl. induction Hr as [s|s1 s2 s3 Hs _ IH]; [done|]. apply IH. by eapply http_server_step_inv.
Qed.

(** C27: every response answers its own request.  The log of a run is what its
    calls have read, handed over and taken, found by running them stage by stage.
    Along any run (calls that return, responses of the network, packets taken from
    the outports, new connections and configuration in between) from an untouched
    server: the requests read bear each its own number; every request that was
    handed over is one of them, with its number and its connection, in the packet
    for its text and at the outport for its route; what an outport of REQ has
    given and still holds are the packets handed to it, in order, each once; the
    responses taken are the RESP packets, in order, some possibly lost; the
    requests that wait are exactly those handed over without a response; the i-th
    request handed over is answered by the i-th response: a connection that writes
    for its number is the one it was read from, and it writes that packet's body
    under 200 OK; no two connections write for one number; and the requests that
    the next call reads are what the parser makes of the bytes of the
    connections they are said to come from. *)
Theorem http_server_answers_its_own s0 s :
  http_server_untouched s0 -> rtc http_server_step s0 s ->
  let h := hs_hub (sr_server s) in
  let forwarded := lg_forwarded (sr_log s) in
  let taken := lg_taken (sr_log s) in
  NoDup (map request_number (lg_read (sr_log s))) /\ NoDup (map fw_id forwarded) /\
  Forall (fun e => exists r routes, r ∈ lg_read (sr_log s) /\ forward_of (Some routes) r = Some e) forwarded /\
  (forall k o, hh_req h !! k = Some o -> sr_got s k ++ sink_items o = packets_for k forwarded) /\
  taken ++ ring_items (hh_resp h) `sublist_of` sr_given s /\
  hh_response_wait_queue h = drop (length taken) (map fw_id forwarded) /\
  (forall i e m id cx resp sent cid, forwarded !! i = Some e -> taken !! i = Some m ->
     hh_connections h !! id = Some cx -> cx_state cx = WritingResponse (fw_id e) (RespWriting resp sent) cid ->
     id = fw_client e /\ resp = ok_response (default [] (as_bytes m))) /\
  (forall id1 id2 cx1 cx2 rid rs1 rs2 c1 c2,
     hh_connections h !! id1 = Some cx1 -> cx_state cx1 = WritingResponse rid rs1 c1 ->
     hh_connections h !! id2 = Some cx2 -> cx_state cx2 = WritingResponse rid rs2 c2 -> id1 = id2) /\
  (forall clock http_date http_bind fuel ctx f r, callable (sr_server s) ctx ->
     call (http_server_process clock http_date http_bind fuel) (sr_server s) ctx = Some (f, Some r) ->
     Forall (fun r => exists f2, accepted clock http_bind (sr_server s) ctx = Some f2 /\
         hh_connections (fr_self f2) !! r.1.2 ≫= request_of fuel = Some r.2)
       (lg_read (http_log clock http_date http_bind fuel (sr_server s) ctx))).
Proof.
  intros H0 Hr. pose proof (http_server_run_inv s0 s H0 Hr) as [Hok Hrd].
  assert (forall clock date bind fuel ctx f r, callable (sr_server s) ctx ->
    call (http_server_process clock date bind fuel) (sr_server s) ctx = Some (f, Some r) ->
    Forall (fun r => exists f2, accepted clock bind (sr_server s) ctx = Some f2 /\
      hh_connections (fr_self f2) !! r.1.2 ≫= request_of fuel = Some r.2) (lg_read (http_log clock date bind fuel (sr_server s) ctx)))
    as Hcalls.
  { intros clock date bind fuel ctx f r [Hpos Hn] Hcall. by eapply http_server_call. }
  destruct Hok, Hrd.
  assert (forall id cx rid rs cid, hh_connections (hs_hub (sr_server s)) !! id = Some cx ->
    cx_state cx = WritingResponse rid rs cid -> writes (st_of [] (hs_hub (sr_server s))) id rid rs) as Hw.
  { intros id cx rid rs cid Hcx Hst. exists cid. unfold st_of. rewrite Hcx. simpl. by rewrite Hst. }
  repeat split; try done.
  - eapply ok_client0; [by eapply list_elem_of_lookup_2|by eapply Hw].
  - eapply ok_answered0; [done|done|right; eauto].
  - intros. eapply ok_unique0; by eapply Hw.
Qed.
End server.

(** * A run *)
#[local] Existing Instance list_rtrb.
#[local] Existing Instance ascii_case_mapping.
#[local] Existing Instance sorted_hash_iter.

(** Two clients that ask for the same path. *)
Definition demo_http_socket : HttpSocket :=
  mk_HttpSocket [ReadBytes (request_line "GET" "/x" "HTTP/1.1" ++ crlf ++ header_line "Host" "h" ++ crlf)] [] [] true.
Definition demo_http_server : HTTPServerComponent :=
  mk_HTTPServerComponent (demo_ring false [Text "a:80"]) (demo_ring false [Text "/y,GET /x"]) demo_channel demo_channel
    None (mk_HttpHub (demo_ring false []) [demo_out 4; demo_out 4] None None ∅ 0 [] ∅ [] 0 30000000000).
Definition demo_http_bind (addr : string) : result HttpListener ErrorKind :=
  Ok (mk_HttpListener [Ok demo_http_socket; Ok demo_http_socket] true).
Abbreviation demo_http_call := (http_server_called (fun n => N.of_nat n) (fun _ => None) demo_http_bind 10).

Definition writing_body (cx : HttpConnection) : option (N * list byte) :=
  match cx_state cx with
  | WritingResponse rid (RespWriting resp _) _ => Some (rid, resp_body resp)
  | _ => None
  end.

(** Each gets its own answer; here the second connection was served first. *)
Lemma http_server_answers_its_own_witness :
  exists s, rtc http_server_step (mk_HttpServerRun demo_http_server (fun _ => []) [] (mk_HttpLog [] [] [])) s /\
    map_to_list (writing_body <$> hh_connections (hs_hub (sr_server s))) =
      [(1%N, Some (0%N, [x41])); (0%N, Some (1%N, [x42]))] /\
    map fw_client (lg_forwarded (sr_log s)) = [1%N; 0%N] /\ lg_taken (sr_log s) = [Bytes [x41]; Bytes [x42]] /\
    NoDup (map fw_id (lg_forwarded (sr_log s))) /\
    Forall (fun e => exists r routes, r ∈ lg_read (sr_log s) /\ forward_of (Some routes) r = Some e) (lg_forwarded (sr_log s)).
Proof.
  assert (exists s, rtc http_server_step (mk_HttpServerRun demo_http_server (fun _ => []) [] (mk_HttpLog [] [] [])) s /\
    map_to_list (writing_body <$> hh_connections (hs_hub (sr_server s))) =
      [(1%N, Some (0%N, [x41])); (0%N, Some (1%N, [x42]))] /\
    map fw_client (lg_forwarded (sr_log s)) = [1%N; 0%N] /\ lg_taken (sr_log s) = [Bytes [x41]; Bytes [x42]])
    as (s & Hr & Hw & Hf & Ht).
  { eexists. split.
    - eapply rtc_l; [eapply (demo_http_call demo_http_server (fun _ => []) [] _ (demo_context Normal 20)); [by split|vm_compute; reflexivity]|].
      eapply rtc_l; [eapply (http_server_given _ _ _ _ (Bytes [x41])); vm_compute; reflexivity|].
      eapply rtc_l; [eapply (http_server_given _ _ _ _ (Bytes [x42])); vm_compute; reflexivity|].
      eapply rtc_l; [eapply (demo_http_call _ _ _ _ (demo_context Normal 20)); [by split|vm_compute; reflexivity]|].
      eapply rtc_l; [eapply (demo_http_call _ _ _ _ (demo_context Normal 20)); [by split|vm_compute; reflexivity]|].
      apply rtc_refl.
    - split; [|split]; vm_compute; reflexivity. }
  exists s. split; [exact Hr|]. split; [exact Hw|]. split; [exact Hf|]. split; [exact Ht|].
  destruct (http_server_answers_its_own (mk_HttpServerRun demo_http_server (fun _ => []) [] (mk_HttpLog [] [] [])) s) as (_ & H1 & H2 & _);
    [by split_and!; repeat constructor|exact Hr|]. split; [exact H1|exact H2].
Defined.

(** A text is answered with nothing. *)
Example http_text_answers_empty t : ok_response (default [] (as_bytes (Text t))) = ok_response [].
Proof. done. Qed.
