(* ===== verification/Build.v ===== *)
(** The build script [src/build.rs]: the validation of flowd.build.toml against
    the manifests, and the code that it generates. *)
From S2P Require Import Prelude Api Scheduler Process Pipes Relays Routers Timers Library.
From Stdlib Require Strings.String.
From Stdlib Require Import NArith Strings.Ascii.
From stdpp Require Import base list strings gmap.
Local Open Scope string_scope.
Local Open Scope list_scope.
Local Open Scope flowd_scope.

(** * Texts and paths *)

(** [Path::join]: an absolute path replaces the first one. *)
Definition path_join (base path : string) : string :=
  if String.prefix "/" path then path
  else if String.eqb base "" || str_ends_with "/" base then base +:+ path
  else base +:+ "/" +:+ path.

(** [s.strip_prefix(p)]. *)
Definition strip_prefix (p s : string) : option string :=
  if String.prefix p s then
    Some (String.substring (String.length p) (String.length s - String.length p) s)
  else None.

(** [s.trim_start_matches(p)], which strips the prefix as often as it is there;
    every round that goes on makes the text shorter. *)
Fixpoint trim_start_matches_fuel (fuel : nat) (p s : string) : string :=
  match fuel with
  | O => s
  | S fuel =>
      match strip_prefix p s with
      | Some r => trim_start_matches_fuel fuel p r
      | None => s
      end
  end.
Definition trim_start_matches (p s : string) : string :=
  trim_start_matches_fuel (String.length s) p s.

Definition backslash : string := String (Ascii.ascii_of_nat 92) EmptyString.

Definition escape_rust_string (value : string) : string :=
  str_replace quote (backslash +:+ quote) (str_replace backslash (backslash +:+ backslash) value).

Definition to_snake_case (value : string) : string := str_replace "-" "_" value.

Definition parse_major_minor (raw : string) : option (N * N) :=
  match str_split "."%char raw with
  | major :: minor :: _ =>
      match parse_u64 major with
      | Some major => match parse_u64 minor with Some minor => Some (major, minor) | None => None end
      | None => None
      end
  | _ => None
  end.

(** * The build configuration *)

Record ComponentEntry : Type := mk_ComponentEntry {
  ce_name : string;
  ce_crate_name : string;
  ce_struct_name : string;
  ce_log_ignore : option (list string);
  ce_budget_class : option string
}.

Record DependencySpec : Type := mk_DependencySpec { ds_path : option string }.

Section build.
(** [toml::Value] and [semver::Version]. *)
Context {Value Version : Type}.
Variable toml_get : string -> Value -> option Value.
Variable toml_as_str : Value -> option string.
Variable toml_as_table : Value -> option (list (string * Value)).
Variable version_parse : string -> option Version.
Variable version_major : Version -> N.
Variable version_minor : Version -> N.
(** The files: one that can be read and parsed as a manifest, and whether
    there is one. *)
Variable read_manifest : string -> option Value.
Variable exists_file : string -> bool.
(** [allow_module_components()], an environment variable. *)
Variable allow_module_components : bool.

Definition toml_path (path : list string) (v : Value) : option Value :=
  fold_left (fun v key => match v with Some v => toml_get key v | None => None end) path (Some v).

Definition toml_str (path : list string) (v : Value) : option string :=
  match toml_path path v with Some v => toml_as_str v | None => None end.

Definition load_root_cargo_toml (manifest_dir : string) : outcome Value :=
  expect (read_manifest (path_join manifest_dir "Cargo.toml")).

Definition load_flowd_version (root_cargo : Value) : outcome Version :=
  let* raw := expect (toml_str ["package"; "version"] root_cargo) in
  expect (version_parse raw).

Definition load_dependency_specs (root_cargo : Value) : gmap string DependencySpec :=
  match match toml_get "dependencies" root_cargo with
        | Some v => toml_as_table v
        | None => None
        end with
  | Some deps =>
      fold_left (fun specs dep =>
        let path := match toml_as_table dep.2 with
                    | Some _ => toml_str ["path"] dep.2
                    | None => None
                    end in
        <[dep.1 := mk_DependencySpec path]> specs) deps ∅
  | None => ∅
  end.

(** [Done tt] where the code returns. *)
Definition validate_crate_name (manifest_dir : string) (dependencies : gmap string DependencySpec)
    (crate_name : string) : outcome unit :=
  if String.prefix "components::" crate_name then
    if negb allow_module_components then Panicked
    else
      let module := trim_start_matches "components::" crate_name in
      if String.eqb module "" || str_contains "::" module then Panicked
      else
        let components_dir := path_join manifest_dir "src/components" in
        let file_path := path_join components_dir (module +:+ ".rs") in
        let dir_path := path_join (path_join components_dir module) "mod.rs" in
        if negb (exists_file file_path) && negb (exists_file dir_path) then Panicked else Done tt
  else if str_contains "::" crate_name then Panicked
  else if bool_decide (dependencies !! crate_name = None) then Panicked
  else Done tt.

Definition validate_component_version_compatibility (manifest_dir : string)
    (dependencies : gmap string DependencySpec) (crate_name : string)
    (flowd_major_minor : N * N) : outcome unit :=
  if String.prefix "components::" crate_name then
    if negb allow_module_components then Panicked else Done tt
  else
    let* dep := expect (dependencies !! crate_name) in
    let* dep_path := expect (ds_path dep) in
    let crate_cargo_toml_path := path_join (path_join manifest_dir dep_path) "Cargo.toml" in
    let* crate_cargo := expect (read_manifest crate_cargo_toml_path) in
    let* crate_version_raw := expect (toml_str ["package"; "version"] crate_cargo) in
    let* flowd_compat_raw :=
      expect (toml_str ["package"; "metadata"; "flowd"; "compatible"] crate_cargo) in
    let* component_target_major_minor := expect (parse_major_minor flowd_compat_raw) in
    if bool_decide (component_target_major_minor = flowd_major_minor) then Done tt else Panicked.

Definition add_log_filters (filters log_filters : list string) : list string :=
  fold_left (fun log_filters filter =>
    if bool_decide (filter ∈ log_filters) then log_filters else log_filters ++ [filter])
    filters log_filters.

(** The loop over the entries, with [seen_names] and [log_filters]. *)
Fixpoint check_entries (manifest_dir : string) (dependencies : gmap string DependencySpec)
    (flowd_major_minor : N * N) (entries : list ComponentEntry) (seen_names : gset string)
    (log_filters : list string) : outcome (list string) :=
  match entries with
  | [] => Done log_filters
  | entry :: entries =>
      if String.eqb (str_trim (ce_name entry)) "" then Panicked
      else if String.eqb (str_trim (ce_crate_name entry)) "" then Panicked
      else if String.eqb (str_trim (ce_struct_name entry)) "" then Panicked
      else if bool_decide (ce_name entry ∈ seen_names) then Panicked
      else
        let* _ := validate_crate_name manifest_dir dependencies (ce_crate_name entry) in
        let* _ := validate_component_version_compatibility manifest_dir dependencies
                    (ce_crate_name entry) flowd_major_minor in
        check_entries manifest_dir dependencies flowd_major_minor entries
          ({[ce_name entry]} ∪ seen_names)
          (add_log_filters (default [] (ce_log_ignore entry)) log_filters)
  end.

(** * The generated code *)

(** The lines of a text. *)
Definition code (lines : list string) : string :=
  fold_right (fun line rest => line +:+ linefeed +:+ rest) "" lines.

Definition literal (value : string) : string := quote +:+ escape_rust_string value +:+ quote.

Definition use_line (entry : ComponentEntry) : string :=
  "use " +:+ to_snake_case (ce_crate_name entry) +:+ "::" +:+ ce_struct_name entry +:+ ";".

Definition metadata_line (entry : ComponentEntry) : string :=
  "        " +:+ ce_struct_name entry +:+ "::get_metadata(),".

Definition factory_line (entry : ComponentEntry) : string :=
  "        " +:+ literal (ce_name entry) +:+ " => Some(Box::new(" +:+ ce_struct_name entry +:+
  "::new(inports, outports, signalsource, watchdog_signalsink, graph_inout, scheduler_waker))),".

Definition filter_line (filter : string) : string :=
  "    _logger.add_filter_ignore_str(" +:+ literal filter +:+ ");".

Definition budget_line (entry : ComponentEntry) : list string :=
  match ce_budget_class entry with
  | Some budget_class =>
      [ "        " +:+ literal (ce_name entry) +:+ " => flowd_component_api::BudgetClass::" +:+
        budget_class +:+ "," ]
  | None => []
  end.

Definition generate (entries : list ComponentEntry) (log_filters : list string) : string :=
  code
  ( [ "// @generated by build.rs; do not edit."; "" ] ++
    map use_line entries ++ [ "" ] ++
    [ "pub(crate) fn build_component_library() -> Arc<RwLock<ComponentLibrary>> {"
    ; "    Arc::new(RwLock::new(ComponentLibrary::new(vec![" ] ++
    map metadata_line entries ++
    [ "    ])))"; "}"; "" ] ++
    [ "pub(crate) fn instantiate_component("
    ; "    name: &str,"
    ; "    inports: ProcessInports,"
    ; "    outports: ProcessOutports,"
    ; "    signalsource: ProcessSignalSource,"
    ; "    watchdog_signalsink: ProcessSignalSink,"
    ; "    graph_inout: GraphInportOutportHandle,"
    ; "    scheduler_waker: Option<flowd_component_api::SchedulerWaker>,"
    ; ") -> Option<Box<dyn Component>> {"
    ; "    match name {" ] ++
    map factory_line entries ++
    [ "        _ => {"
    ; "            let _ = (inports, outports, signalsource, watchdog_signalsink, graph_inout, scheduler_waker);"
    ; "            None"
    ; "        }"; "    }"; "}"; "" ] ++
    [ "pub fn register_component_log_filters(_logger: &mut simplelog::ConfigBuilder) {" ] ++
    map filter_line log_filters ++
    [ "}"; "" ] ++
    [ "pub fn get_component_budget_class(component_name: &str) -> flowd_component_api::BudgetClass {"
    ; "    match component_name {" ] ++
    concat (map budget_line entries) ++
    [ "        _ => flowd_component_api::BudgetClass::Normal,"
    ; "    }"; "}"; "" ] ).

(** [main]: [config] is what reading and parsing flowd.build.toml gives; the
    result is the text that is written to build_generated.rs. *)
Definition build_main (manifest_dir : string) (config : option (list ComponentEntry)) :
    outcome string :=
  let* entries := expect config in
  if bool_decide (entries = []) then Panicked
  else
    let* root_cargo := load_root_cargo_toml manifest_dir in
    let* flowd_version := load_flowd_version root_cargo in
    let flowd_major_minor := (version_major flowd_version, version_minor flowd_version) in
    let dependencies := load_dependency_specs root_cargo in
    let* log_filters := check_entries manifest_dir dependencies flowd_major_minor entries ∅ [] in
    Done (generate entries log_filters).
End build.

(** * What the generated functions compute *)

(** The arms of a generated [match] on a name, the first one that fits. *)
Definition entry_named (name : string) (entries : list ComponentEntry) : option ComponentEntry :=
  List.find (fun entry => String.eqb (ce_name entry) name) entries.

(** [flowd_component_api::BudgetClass::X]; another name does not compile. *)
Definition budget_class_named (name : string) : option BudgetClass :=
  if String.eqb name "Realtime" then Some Realtime
  else if String.eqb name "Normal" then Some Normal
  else if String.eqb name "Heavy" then Some Heavy
  else None.

(** The generated [get_component_budget_class]: the arms are those of the
    entries that set a class. *)
Definition get_component_budget_class (entries : list ComponentEntry) (component_name : string) :
    BudgetClass :=
  match entry_named component_name
          (List.filter (fun entry => match ce_budget_class entry with Some _ => true | None => false end)
             entries) with
  | Some entry =>
      match ce_budget_class entry with
      | Some budget_class => default Normal (budget_class_named budget_class)
      | None => Normal
      end
  | None => Normal
  end.

(** flowd.build.toml. *)
Definition flowd_build_toml : list ComponentEntry :=
  [ mk_ComponentEntry "Repeat" "flowd-repeat" "RepeatComponent" None (Some "Normal")
  ; mk_ComponentEntry "Drop" "flowd-drop" "DropComponent" None (Some "Normal")
  ; mk_ComponentEntry "Output" "flowd-output" "OutputComponent" None None
  ; mk_ComponentEntry "LibComponent" "flowd-libcomponent" "LibComponent" None None
  ; mk_ComponentEntry "UnixSocketServer" "flowd-unixsocket" "UnixSocketServerComponent" None None
  ; mk_ComponentEntry "UnixSocketClient" "flowd-unixsocket" "UnixSocketClientComponent" None None
  ; mk_ComponentEntry "FileReader" "flowd-file" "FileReaderComponent" None (Some "Heavy")
  ; mk_ComponentEntry "FileWriter" "flowd-file" "FileWriterComponent" None (Some "Heavy")
  ; mk_ComponentEntry "FileTailer" "flowd-file" "FileTailerComponent" None None
  ; mk_ComponentEntry "Trim" "flowd-trim" "TrimComponent" None None
  ; mk_ComponentEntry "SplitLines" "flowd-splitlines" "SplitLinesComponent" None None
  ; mk_ComponentEntry "Count" "flowd-count" "CountComponent" None (Some "Normal")
  ; mk_ComponentEntry "Cron" "flowd-cron" "CronComponent" None (Some "Heavy")
  ; mk_ComponentEntry "Cmd" "flowd-cmd" "CmdComponent" None None
  ; mk_ComponentEntry "Hasher" "flowd-hasher" "HasherComponent" None None
  ; mk_ComponentEntry "Equals" "flowd-equals" "EqualsComponent" None None
  ; mk_ComponentEntry "HTTPClient" "flowd-http" "HTTPClientComponent" (Some ["hyper"]) (Some "Heavy")
  ; mk_ComponentEntry "HTTPServer" "flowd-http" "HTTPServerComponent" (Some ["hyper"]) None
  ; mk_ComponentEntry "Muxer" "flowd-muxer" "MuxerComponent" None None
  ; mk_ComponentEntry "MQTTPublisher" "flowd-mqtt" "MQTTPublisherComponent" (Some ["rumqttc"]) None
  ; mk_ComponentEntry "MQTTSubscriber" "flowd-mqtt" "MQTTSubscriberComponent" (Some ["rumqttc"]) None
  ; mk_ComponentEntry "RedisPublisher" "flowd-redis" "RedisPublisherComponent" None None
  ; mk_ComponentEntry "RedisSubscriber" "flowd-redis" "RedisSubscriberComponent" None None
  ; mk_ComponentEntry "IMAPAppend" "flowd-imap" "IMAPAppendComponent" None None
  ; mk_ComponentEntry "IMAPFetchIdle" "flowd-imap" "IMAPFetchIdleComponent" None None
  ; mk_ComponentEntry "IMAPFetch" "flowd-imap" "IMAPFetchComponent" None None
  ; mk_ComponentEntry "IMAPMoveCopy" "flowd-imap" "IMAPMoveCopyComponent" None None
  ; mk_ComponentEntry "IMAPDelete" "flowd-imap" "IMAPDeleteComponent" None None
  ; mk_ComponentEntry "OpenAIChat" "flowd-openai" "OpenAIChatComponent" (Some ["reqwest"; "hyper"]) None
  ; mk_ComponentEntry "TeraTemplate" "flowd-template" "TeraTemplateComponent" None None
  ; mk_ComponentEntry "RegexpExtract" "flowd-regexp" "RegexpExtractComponent" None None
  ; mk_ComponentEntry "TextReplace" "flowd-text" "TextReplaceComponent" None (Some "Normal")
  ; mk_ComponentEntry "ZeroconfResponder" "flowd-zeroconf" "ZeroconfResponderComponent" (Some ["mdns_sd"]) None
  ; mk_ComponentEntry "ZeroconfBrowser" "flowd-zeroconf" "ZeroconfBrowserComponent" (Some ["mdns_sd"]) None
  ; mk_ComponentEntry "XzCompress" "flowd-xz" "XzCompressComponent" None None
  ; mk_ComponentEntry "XzDecompress" "flowd-xz" "XzDecompressComponent" None None
  ; mk_ComponentEntry "BrotliCompress" "flowd-brotli" "BrotliCompressComponent" None None
  ; mk_ComponentEntry "BrotliDecompress" "flowd-brotli" "BrotliDecompressComponent" None None
  ; mk_ComponentEntry "HTMLStrip" "flowd-html" "HTMLStripComponent" None None
  ; mk_ComponentEntry "HTMLQuery" "flowd-html" "HTMLQueryComponent" None None
  ; mk_ComponentEntry "WSClient" "flowd-ws" "WSClientComponent" None None
  ; mk_ComponentEntry "WSServer" "flowd-ws" "WSServerComponent" None None
  ; mk_ComponentEntry "TCPClient" "flowd-tcp" "TCPClientComponent" None (Some "Heavy")
  ; mk_ComponentEntry "TCPServer" "flowd-tcp" "TCPServerComponent" None None
  ; mk_ComponentEntry "TLSClient" "flowd-tls" "TLSClientComponent" (Some ["rustls"]) None
  ; mk_ComponentEntry "TLSServer" "flowd-tls" "TLSServerComponent" (Some ["rustls"]) None
  ; mk_ComponentEntry "JSONQuery" "flowd-json" "JSONQueryComponent" None None
  ; mk_ComponentEntry "SSHClient" "flowd-ssh" "SSHClientComponent" (Some ["ssh"]) None
  ; mk_ComponentEntry "TelegramBot" "flowd-telegram" "TelegramBotComponent" (Some ["reqwest"; "hyper"; "teloxide"]) None
  ; mk_ComponentEntry "MatrixClient" "flowd-matrix" "MatrixClientComponent" (Some ["matrix_sdk"]) None
  ; mk_ComponentEntry "Demux3" "flowd-muxer" "Demux3Component" None None
  ; mk_ComponentEntry "Delay" "flowd-delay" "DelayComponent" None (Some "Heavy")
  ; mk_ComponentEntry "Visualization" "flowd-vis" "FlowdVisComponent" None None
  ; mk_ComponentEntry "Panic" "flowd-panic" "PanicComponent" None None
  ; mk_ComponentEntry "EmailParser" "flowd-email" "EmailParserComponent" None None
  ; mk_ComponentEntry "GenericRouter" "flowd-router" "GenericRouterComponent" None None ].
