(* ===== verification/BuildTheorems.v ===== *)
(** What is proved about the build script: which configurations it accepts, and
    that the names in the generated code are the names of the entries. *)
From S2P Require Import Prelude Api Scheduler Process Pipes Relays Routers Timers Library Build.
From Stdlib Require Strings.String.
From Stdlib Require Import NArith Strings.Ascii Lia.
From stdpp Require Import base list strings gmap.
Local Open Scope string_scope.
Local Open Scope list_scope.
Local Open Scope flowd_scope.

(** * Literals *)

(** How a string literal is read, from behind its opening quote: the value and
    what follows the closing one.  (The escapes of other characters do not
    occur.) *)
Fixpoint read_literal (s : string) : option (string * string) :=
  match s with
  | EmptyString => None
  | String c r =>
      if Ascii.eqb c (Ascii.ascii_of_nat 34) then Some (EmptyString, r)
      else if Ascii.eqb c (Ascii.ascii_of_nat 92) then
        match r with
        | String d r =>
            if Ascii.eqb d (Ascii.ascii_of_nat 34) || Ascii.eqb d (Ascii.ascii_of_nat 92) then
              match read_literal r with
              | Some (value, rest) => Some (String d value, rest)
              | None => None
              end
            else None
        | EmptyString => None
        end
      else
        match read_literal r with
        | Some (value, rest) => Some (String c value, rest)
        | None => None
        end
  end.

Lemma append_cons c s t : String c s +:+ t = String c (s +:+ t).
Proof. done. Qed.
Lemma append_nil t : "" +:+ t = t.
Proof. done. Qed.

Lemma prefix_char c d s : String.prefix (String c "") (String d s) = Ascii.eqb c d.
Proof.
  simpl. destruct (ascii_dec c d) as [->|Hne].
  - rewrite Ascii.eqb_refl. by destruct s.
  - symmetry. by apply Ascii.eqb_neq.
Qed.

Lemma str_replace_cons c to d s :
  str_replace (String c "") to (String d s) =
    (if Ascii.eqb c d then to else String d "") +:+ str_replace (String c "") to s.
Proof.
  unfold str_replace. cbn [String.eqb replace_from]. rewrite prefix_char. by destruct (Ascii.eqb c d).
Qed.

(** What becomes of one character of a name. *)
Definition escaped (c : ascii) : string :=
  if Ascii.eqb c (Ascii.ascii_of_nat 34) || Ascii.eqb c (Ascii.ascii_of_nat 92)
  then String (Ascii.ascii_of_nat 92) (String c "") else String c "".

Lemma escape_cons c s : escape_rust_string (String c s) = escaped c +:+ escape_rust_string s.
Proof.
  unfold escape_rust_string, escaped, backslash, quote. rewrite str_replace_cons.
  destruct (Ascii.eqb_spec (Ascii.ascii_of_nat 92) c) as [<-|Hb].
  - rewrite Ascii.eqb_refl, !append_cons, !append_nil. by rewrite !str_replace_cons.
  - rewrite !append_cons, !append_nil, str_replace_cons.
    apply not_eq_sym, Ascii.eqb_neq in Hb. rewrite Hb, orb_false_r, (Ascii.eqb_sym c).
    by destruct (Ascii.eqb_spec (Ascii.ascii_of_nat 34) c) as [<-|].
Qed.

(** A name survives its way through the generated code: read as a string
    literal, what [escape_rust_string] writes between quotes is the name, and
    the literal ends at the quote behind it, whatever the name contains. *)
Theorem escape_rust_string_roundtrip value rest :
  read_literal (escape_rust_string value +:+ quote +:+ rest) = Some (value, rest).
Proof.
  induction value as [|c value IH]; [done|]. rewrite escape_cons.
  unfold escaped. destruct (Ascii.eqb_spec c (Ascii.ascii_of_nat 34)) as [->|Hq].
  { simpl. by rewrite append_nil, IH. }
  destruct (Ascii.eqb_spec c (Ascii.ascii_of_nat 92)) as [->|Hb].
  { simpl. by rewrite append_nil, IH. }
  cbn [orb]. rewrite append_cons, append_nil, append_cons. cbn [read_literal].
  rewrite (proj2 (Ascii.eqb_neq _ _) Hq), (proj2 (Ascii.eqb_neq _ _) Hb). by rewrite IH.
Qed.

(** * The configurations that are accepted *)
Section build.
Context {Value Version : Type}.
Variable toml_get : string -> Value -> option Value.
Variable toml_as_str : Value -> option string.
Variable toml_as_table : Value -> option (list (string * Value)).
Variable version_parse : string -> option Version.
Variable version_major : Version -> N.
Variable version_minor : Version -> N.
Variable read_manifest : string -> option Value.
Variable exists_file : string -> bool.
Variable allow_module_components : bool.
Implicit Types (entry : ComponentEntry) (deps : gmap string DependencySpec).

Abbreviation build := (build_main toml_get toml_as_str toml_as_table version_parse version_major
  version_minor read_manifest exists_file allow_module_components).
Abbreviation str := (toml_str toml_get toml_as_str).

(** A module of the runtime's own source. *)
Definition module_component (dir crate_name : string) : Prop :=
  let module := trim_start_matches "components::" crate_name in
  let components := path_join dir "src/components" in
  allow_module_components = true /\ module <> "" /\ str_contains "::" module = false /\
  (exists_file (path_join components (module +:+ ".rs")) = true \/
   exists_file (path_join (path_join components module) "mod.rs") = true).

(** A crate among the dependencies, with a local manifest that declares itself
    compatible with this version of the runtime. *)
Definition crate_component (dir : string) deps (v : Version) (crate_name : string) : Prop :=
  str_contains "::" crate_name = false /\
  exists path manifest compat, deps !! crate_name = Some (mk_DependencySpec (Some path)) /\
    read_manifest (path_join (path_join dir path) "Cargo.toml") = Some manifest /\
    is_Some (str ["package"; "version"] manifest) /\
    str ["package"; "metadata"; "flowd"; "compatible"] manifest = Some compat /\
    parse_major_minor compat = Some (version_major v, version_minor v).

Definition acceptable (dir : string) deps (v : Version) entry : Prop :=
  str_trim (ce_name entry) <> "" /\ str_trim (ce_crate_name entry) <> "" /\
  str_trim (ce_struct_name entry) <> "" /\
  if String.prefix "components::" (ce_crate_name entry) then module_component dir (ce_crate_name entry)
  else crate_component dir deps v (ce_crate_name entry).

Lemma crate_checks dir deps v crate_name :
  (let* _ := validate_crate_name exists_file allow_module_components dir deps crate_name in
   validate_component_version_compatibility toml_get toml_as_str read_manifest
     allow_module_components dir deps crate_name (version_major v, version_minor v)) = Done tt <->
  if String.prefix "components::" crate_name then module_component dir crate_name
  else crate_component dir deps v crate_name.
Proof.
  unfold validate_crate_name, validate_component_version_compatibility, module_component,
    crate_component.
  destruct (String.prefix _ crate_name).
  - destruct allow_module_components; [|split; [done|by intros [? _]]]. simpl negb. cbv iota.
    set (module := trim_start_matches _ _).
    destruct (String.eqb_spec module "") as [->|Hm]; [split; [done|by intros (_ & ? & _)]|].
    destruct (str_contains "::" module); [split; [done|by intros (_ & _ & ? & _)]|]. simpl.
    destruct (exists_file _), (exists_file _); simpl; (split; [by auto|by intros (_ & _ & _ & [|])]).
  - destruct (str_contains _ _); [split; [done|by intros [? _]]|].
    destruct (deps !! crate_name) as [[path]|]; simpl; [|split; [done|by intros (_ & ? & ? & ? & ? & _)]].
    split.
    + destruct path as [path|]; simpl; [|done].
      destruct (read_manifest _) as [manifest|] eqn:Hm; simpl; [|done].
      destruct (str ["package"; "version"] manifest) as [raw|] eqn:Hv; simpl; [|done].
      destruct (str ["package"; "metadata"; "flowd"; "compatible"] manifest) as [compat|] eqn:Hc; simpl; [|done].
      destruct (parse_major_minor compat) as [mm|] eqn:Hp; simpl; [|done].
      case_bool_decide; [|done]. intros _. split; [done|]. exists path, manifest, compat.
      repeat split; try done. congruence.
    + intros (_ & p & manifest & compat & [= ->] & Hm & [raw Hv] & Hc & Hp). simpl. rewrite Hm. simpl.
      rewrite Hv. simpl. rewrite Hc. simpl. rewrite Hp. simpl. by rewrite bool_decide_eq_true_2.
Qed.

Lemma add_log_filters_spec filters known :
  NoDup known -> NoDup (add_log_filters filters known) /\
  forall f, f ∈ add_log_filters filters known <-> f ∈ filters \/ f ∈ known.
Proof.
  revert known. unfold add_log_filters. induction filters as [|x filters IH]; intros known Hn; simpl.
  { split; [done|]. intros f. rewrite elem_of_nil. tauto. }
  case_bool_decide as Hx.
  - destruct (IH known Hn) as [? H]. split; [done|]. intros f. rewrite H, elem_of_cons.
    naive_solver.
  - destruct (IH (known ++ [x])) as [? H].
    { apply NoDup_app. split; [done|]. split; [set_solver|apply NoDup_singleton]. }
    split; [done|]. intros f. rewrite H, elem_of_cons, elem_of_app, list_elem_of_singleton. tauto.
Qed.

Definition filters_of entry : list string := default [] (ce_log_ignore entry).

Lemma check_entries_spec dir deps v entries seen known :
  NoDup known ->
  match check_entries toml_get toml_as_str read_manifest exists_file allow_module_components dir deps
          (version_major v, version_minor v) entries seen known with
  | Done filters =>
      Forall (acceptable dir deps v) entries /\ NoDup (map ce_name entries) /\
      Forall (fun e => ce_name e ∉ seen) entries /\ NoDup filters /\
      forall f, f ∈ filters <-> f ∈ known \/ exists e, e ∈ entries /\ f ∈ filters_of e
  | Panicked =>
      Forall (acceptable dir deps v) entries -> NoDup (map ce_name entries) ->
      ~ Forall (fun e => ce_name e ∉ seen) entries
  end.
Proof.
  revert seen known. induction entries as [|e entries IH]; intros seen known Hn; simpl.
  { repeat split; try done; [constructor|auto|intros [?|(? & ?%elem_of_nil & _)]; done]. }
  pose proof (crate_checks dir deps v (ce_crate_name e)) as Hcrate.
  destruct (String.eqb_spec (str_trim (ce_name e)) ""); [by intros [[? _] _]%Forall_cons|].
  destruct (String.eqb_spec (str_trim (ce_crate_name e)) ""); [by intros [[_ [? _]] _]%Forall_cons|].
  destruct (String.eqb_spec (str_trim (ce_struct_name e)) "");
    [by intros [(_ & _ & ? & _) _]%Forall_cons|].
  case_bool_decide as Hs; [by intros _ _ [? _]%Forall_cons|].
  assert (forall x : outcome unit, x <> Done tt -> x = Panicked) as Hunit by (by intros [[]|]).
  destruct (validate_crate_name _ _ _ _ _) as [[]|]; simpl in *;
    [|intros [(_ & _ & _ & Ha) _]%Forall_cons; by apply Hcrate in Ha].
  destruct (validate_component_version_compatibility _ _ _ _ _ _ _ _) as [[]|]; simpl in *;
    [|intros [(_ & _ & _ & Ha) _]%Forall_cons; by apply Hcrate in Ha].
  assert (acceptable dir deps v e) as Ha by (repeat split; try done; by apply Hcrate).
  destruct (add_log_filters_spec (filters_of e) known Hn) as [Hn' Hf].
  specialize (IH ({[ce_name e]} ∪ seen) _ Hn').
  destruct (check_entries _ _ _ _ _ _ _ _ _ _ _) as [filters|].
  - destruct IH as (Hall & Hnd & Hseen & Hnf & Hin). rewrite Forall_forall in Hseen.
    repeat split; try done.
    + by constructor.
    + constructor; [|done]. intros (e' & He & Hin')%list_elem_of_fmap. apply (Hseen e' Hin'). set_solver.
    + constructor; [done|]. apply Forall_forall. intros e' He. specialize (Hseen e' He). set_solver.
    + intros Hx. apply Hin in Hx. rewrite Hf in Hx. setoid_rewrite elem_of_cons. naive_solver.
    + intros Hx. apply Hin. rewrite Hf. setoid_rewrite elem_of_cons in Hx. naive_solver.
  - intros [_ Hall]%Forall_cons [Hfresh Hnd]%NoDup_cons [_ Hseen]%Forall_cons.
    apply (IH Hall Hnd). rewrite Forall_forall in *. intros e' He'. specialize (Hseen e' He').
    assert (ce_name e' <> ce_name e); [|set_solver].
    intros Heq. apply Hfresh, list_elem_of_fmap. by exists e'.
Qed.

(** What [main] asks of the configuration and of the runtime's own manifest. *)
Definition buildable (dir : string) (config : option (list ComponentEntry)) entries : Prop :=
  config = Some entries /\ entries <> [] /\ NoDup (map ce_name entries) /\
  exists root raw v, read_manifest (path_join dir "Cargo.toml") = Some root /\
    str ["package"; "version"] root = Some raw /\ version_parse raw = Some v /\
    Forall (acceptable dir (load_dependency_specs toml_get toml_as_str toml_as_table root) v) entries.

(** C16: the build goes through exactly when there is an entry, no two entries
    share a name, and every entry has a name, a struct and either a module of
    the runtime (where those are allowed) or a crate among the dependencies
    whose manifest declares this major and minor version; the code it writes
    is generated from all entries, and filters the log of every crate that some
    entry names, once. *)
Theorem build_main_spec dir config :
  match build dir config with
  | Done text =>
      exists entries filters, buildable dir config entries /\ text = generate entries filters /\
        NoDup filters /\ forall f, f ∈ filters <-> exists e, e ∈ entries /\ f ∈ filters_of e
  | Panicked => forall entries, ~ buildable dir config entries
  end.
Proof.
  unfold build_main. destruct config as [entries|]; simpl; [|by intros ? [? _]].
  case_bool_decide as He; [by intros ? ([= <-] & ? & _)|].
  unfold load_root_cargo_toml. destruct (read_manifest _) as [root|] eqn:Hroot; simpl;
    [|intros ? (_ & _ & _ & ? & ? & ? & ? & _); congruence].
  unfold load_flowd_version. destruct (str _ root) as [raw|] eqn:Hraw; simpl;
    [|intros ? (_ & _ & _ & ? & ? & ? & ? & ? & _); congruence].
  destruct (version_parse raw) as [v|] eqn:Hv; simpl;
    [|intros ? (_ & _ & _ & ? & ? & ? & ? & ? & ? & _); congruence].
  set (deps := load_dependency_specs _ _ _ root).
  pose proof (check_entries_spec dir deps v entries ∅ [] (NoDup_nil_2)) as H.
  destruct (check_entries _ _ _ _ _ _ _ _ _ _ _) as [filters|]; simpl.
  - destruct H as (Hall & Hnd & _ & Hnf & Hin). exists entries, filters. split.
    { repeat split; try done. by exists root, raw, v. }
    repeat split; [done|..]; intros Hx; [by apply Hin in Hx as [?%elem_of_nil|?]|apply Hin; by right].
  - intros entries' ([= <-] & _ & Hnd & root' & raw' & v' & Hr' & Hraw' & Hv' & Hall).
    simplify_eq. apply H; [done|done|]. apply Forall_forall. set_solver.
Qed.
End build.
