(* ===== verification/Factory.v ===== *)
(** The component factory: the generated [instantiate_component] over all
    components of flowd.build.toml, and the boxed components as one type. *)
From S2P Require Import Prelude Api Scheduler Process Pipes Sinks Relays Routers Timers Library Build.
From S2P Require Import Io Files Servers Clients Sessions Codecs Filters Cmd HttpClient HttpServer Brokers Agents Mail Services Email.
From Stdlib Require Strings.String.
From Stdlib Require Import NArith Strings.Byte Strings.Ascii.
From stdpp Require Import base list strings gmap.
Local Open Scope string_scope.
Local Open Scope list_scope.
Local Open Scope flowd_scope.

(** [Box<dyn Component>]: a component with its vtable. *)
Record boxed_component : Type := Box {
  bx_type : Type;
  bx_vtable : Component bx_type;
  bx_self : bx_type
}.

Definition boxed_call (c : boxed_component) (ctx : NodeContext) : process_run boxed_component :=
  let r := @process _ (bx_vtable c) (bx_self c) ctx in
  mk_process_run (Box (bx_type c) (bx_vtable c) (pr_self r)) (pr_context r) (pr_effects r) (pr_elapsed r)
    (pr_now r) (pr_result r).

#[export, refine] Instance boxed_component_process : Component boxed_component := { process := boxed_call }.
Proof. intros c ctx. exact (@process_keeps_flag _ (bx_vtable c) (bx_self c) ctx). Defined.

(** What the components use of their crates and of the machine: the types of
    the values they keep, the functions that the modelled calls use, the time,
    and the vtables of the components whose calls involve threads and
    connections of their own.  What a call of those does is defined in their
    files, by the process definitions; starting a network calls none of them. *)
Class Crates `{R : Rtrb} : Type := mk_Crates {
  cr_Regex : Type;
  cr_Template : Type;
  cr_Json : Type;
  cr_Schedule : Type;
  cr_Upcoming : Type;
  cr_TailedFile : Type;
  cr_SocketAddr : Type;
  cr_TcpStream : Type;
  cr_WebSocket : Type;
  cr_UnixSocketAddr : Type;
  cr_UnixConn : Type;
  cr_ServerConfig : Type;
  cr_Lib : Type;
  cr_Filter : Type;
  cr_Query : Type;
  cr_MqttConn : Type;
  cr_RedisConn : Type;
  cr_ToolCalls : Type;
  cr_query_pairs : string -> option (list (string * string));
  cr_atoi : list byte -> option N;
  cr_regex_new : string -> option cr_Regex;
  cr_captures : cr_Regex -> string -> option (option string);
  cr_regex_is_match : cr_Regex -> string -> bool;
  cr_add_raw_template : string -> option cr_Template;
  cr_render : cr_Template -> string -> option string;
  cr_json_null : cr_Json;
  cr_json_as_str : cr_Json -> option string;
  cr_json_as_object : cr_Json -> option (gmap string cr_Json);
  cr_json_from_str : string -> option cr_Json;
  cr_json_get : string -> cr_Json -> option cr_Json;
  cr_config_from_str : string -> option RouterConfig;
  cr_f64_times : string -> N -> option N;
  cr_schedule_from_str : string -> option cr_Schedule;
  cr_upcoming_owned : cr_Schedule -> cr_Upcoming;
  cr_upcoming_next : cr_Upcoming -> option N * cr_Upcoming;
  cr_imap_url_parse : string -> result FullUrl string;
  cr_library_new : string -> option cr_Lib;
  cr_library_get : cr_Lib -> string -> option (list byte -> N);
  cr_clock : nat -> Instant;
  cr_local_clock : nat -> N;
  cr_instant_now : Instant;
  cr_timing : NodeContext -> Duration * Instant;
  cr_lib_component_vtable :: Component (LibComponent (Lib := cr_Lib));
  cr_unix_server_vtable :: Component (UnixSocketServerComponent);
  cr_unix_client_vtable :: Component (UnixSocketClientComponent (UnixSocketAddr := cr_UnixSocketAddr) (Conn := cr_UnixConn));
  cr_file_reader_vtable :: Component (FileReaderComponent);
  cr_file_writer_vtable :: Component (FileWriterComponent);
  cr_file_tailer_vtable :: Component (FileTailerComponent (TailedFile := cr_TailedFile));
  cr_cmd_vtable :: Component (CmdComponent);
  cr_hasher_vtable :: Component (HasherComponent);
  cr_http_client_vtable :: Component (HTTPClientComponent);
  cr_http_server_vtable :: Component (HTTPServerComponent);
  cr_mqtt_publisher_vtable :: Component (MQTTPublisherComponent (Conn := cr_MqttConn));
  cr_mqtt_subscriber_vtable :: Component (MQTTSubscriberComponent (Conn := cr_MqttConn));
  cr_redis_publisher_vtable :: Component (RedisPublisherComponent (Conn := cr_RedisConn));
  cr_redis_subscriber_vtable :: Component (RedisSubscriberComponent);
  cr_imap_append_vtable :: Component (MailSender () FbpMessage);
  cr_imap_fetch_idle_vtable :: Component (Fetcher FetchConfig (list byte));
  cr_imap_fetch_vtable :: Component (Fetcher string (string * list byte));
  cr_imap_movecopy_vtable :: Component (MailSender bool MoveCopyOp);
  cr_imap_delete_vtable :: Component (MailSender () string);
  cr_openai_chat_vtable :: Component (OpenAIChatComponent (ToolCalls := cr_ToolCalls));
  cr_telegram_bot_vtable :: Component (TelegramBotComponent);
  cr_matrix_client_vtable :: Component (MatrixClientComponent);
  cr_zeroconf_responder_vtable :: Component (ZeroconfResponderComponent);
  cr_zeroconf_browser_vtable :: Component (ZeroconfBrowserComponent);
  cr_xz_compress_vtable :: Component (XzCompressComponent);
  cr_xz_decompress_vtable :: Component (XzDecompressComponent);
  cr_brotli_compress_vtable :: Component (BrotliCompressComponent);
  cr_brotli_decompress_vtable :: Component (BrotliDecompressComponent);
  cr_html_query_vtable :: Component (HTMLQueryComponent (Query := cr_Query));
  cr_json_query_vtable :: Component (JSONQueryComponent (Filter := cr_Filter));
  cr_ws_client_vtable :: Component (WSClientComponent (WebSocket := cr_WebSocket));
  cr_ws_server_vtable :: Component (WSServerComponent);
  cr_tcp_client_vtable :: Component (TCPClientComponent (SocketAddr := cr_SocketAddr) (TcpStream := cr_TcpStream));
  cr_tcp_server_vtable :: Component (TCPServerComponent);
  cr_tls_client_vtable :: Component (TLSClientComponent);
  cr_tls_server_vtable :: Component (TLSServerComponent (ServerConfig := cr_ServerConfig));
  cr_ssh_client_vtable :: Component (SSHClientComponent);
  cr_email_parser_vtable :: Component (EmailParserComponent)
}.

Section factory.
Context `{R : Rtrb} `{MM : forall V : Type, MultiMapLib V} `{K : !Crates}.

(** The vtables of the components whose calls involve no thread and no
    connection of their own. *)
#[local] Instance repeat_vtable : Component RepeatComponent := repeat_component (fun _ => cr_timing).
#[local] Instance drop_vtable : Component DropComponent := drop_component (fun _ => cr_timing).
#[local] Instance output_vtable : Component OutputComponent := output_component (fun _ => cr_timing).
#[local] Instance trim_vtable : Component TrimComponent := trim_component (fun _ => cr_timing).
#[local] Instance split_lines_vtable : Component SplitLinesComponent := split_lines_component (fun _ => cr_timing).
#[local] Instance count_vtable : Component CountComponent := count_component cr_query_pairs cr_atoi cr_clock (fun _ => cr_timing).
#[local] Instance cron_vtable : Component (CronComponent (Upcoming := cr_Upcoming)) :=
  cron_component cr_clock cr_schedule_from_str cr_upcoming_owned cr_upcoming_next cr_local_clock (fun _ => cr_timing).
#[local] Instance equals_vtable : Component EqualsComponent := equals_component (fun _ => cr_timing).
#[local] Instance muxer_vtable : Component MuxerComponent := muxer_component (fun _ => cr_timing).
#[local] Instance tera_template_vtable : Component (TeraTemplateComponent (Template := cr_Template)) :=
  tera_template_component cr_add_raw_template cr_render (fun _ => cr_timing).
#[local] Instance regexp_extract_vtable : Component (RegexpExtractComponent (Regex := cr_Regex)) :=
  regexp_extract_component cr_regex_new cr_captures (fun _ => cr_timing).
#[local] Instance text_replace_vtable : Component TextReplaceComponent := text_replace_component (fun _ => cr_timing).
#[local] Instance html_strip_vtable : Component HTMLStripComponent := html_strip_component (fun _ => cr_timing).
#[local] Instance demux3_vtable : Component Demux3Component := demux3_component (fun _ => cr_timing).
#[local] Instance delay_vtable : Component DelayComponent := delay_component cr_f64_times cr_clock (fun _ => cr_timing).
#[local] Instance vis_vtable : Component FlowdVisComponent := vis_component (fun _ => cr_timing).
#[local] Instance panic_vtable : Component PanicComponent := panic_component (fun _ => cr_timing).
#[local] Instance generic_router_vtable : Component (GenericRouterComponent (Regex := cr_Regex)) :=
  generic_router_component cr_json_null cr_json_as_str cr_json_as_object cr_json_from_str cr_regex_new cr_regex_is_match
    cr_config_from_str (fun _ => cr_timing).

(** [Box::new(X::new(..)) as Box<dyn Component>]. *)
Definition boxed {X : Type} `{!Component X} (o : outcome X) : outcome boxed_component :=
  let* c := o in Done (Box X _ c).

Definition constructor : Type :=
  multimap ring -> multimap ProcessEdgeSink -> sync_channel -> sync_channel -> option SchedulerWaker ->
  outcome boxed_component.

(** The arms of the generated match. *)
Definition constructors : list (string * constructor) :=
  [ ("Repeat", fun ins outs si so w => boxed (new_repeat ins outs si so))
  ; ("Drop", fun ins outs si so w => boxed (new_drop ins si so))
  ; ("Output", fun ins outs si so w => boxed (new_output ins outs si so))
  ; ("LibComponent", fun ins outs si so w => boxed (new_lib_component cr_library_new cr_library_get ins outs si so))
  ; ("UnixSocketServer", fun ins outs si so w => boxed (new_unix_server ins outs si so))
  ; ("UnixSocketClient", fun ins outs si so w => boxed (new_unix_client (UnixSocketAddr := cr_UnixSocketAddr) (Conn := cr_UnixConn) ins outs si so w))
  ; ("FileReader", fun ins outs si so w => boxed (new_file_reader ins outs si so w))
  ; ("FileWriter", fun ins outs si so w => boxed (new_file_writer ins si so w))
  ; ("FileTailer", fun ins outs si so w => boxed (new_file_tailer (TailedFile := cr_TailedFile) ins outs si so))
  ; ("Trim", fun ins outs si so w => boxed (new_trim ins outs si so))
  ; ("SplitLines", fun ins outs si so w => boxed (new_split_lines ins outs si so))
  ; ("Count", fun ins outs si so w => boxed (new_count ins outs si so))
  ; ("Cron", fun ins outs si so w => boxed (new_cron (Upcoming := cr_Upcoming) ins outs si so))
  ; ("Cmd", fun ins outs si so w => boxed (new_cmd ins outs si so w))
  ; ("Hasher", fun ins outs si so w => boxed (new_hasher ins outs si so))
  ; ("Equals", fun ins outs si so w => boxed (new_equals ins outs si so))
  ; ("HTTPClient", fun ins outs si so w => boxed (new_http_client ins outs si so))
  ; ("HTTPServer", fun ins outs si so w => boxed (new_http_server ins outs si so))
  ; ("Muxer", fun ins outs si so w => boxed (new_muxer ins outs si so))
  ; ("MQTTPublisher", fun ins outs si so w => boxed (new_publisher (Conn := cr_MqttConn) ins si so cr_instant_now : outcome MQTTPublisherComponent))
  ; ("MQTTSubscriber", fun ins outs si so w => boxed (new_mqtt_subscriber (Conn := cr_MqttConn) ins outs si so))
  ; ("RedisPublisher", fun ins outs si so w => boxed (new_publisher (Conn := cr_RedisConn) ins si so cr_instant_now : outcome RedisPublisherComponent))
  ; ("RedisSubscriber", fun ins outs si so w => boxed (new_redis_subscriber ins outs si so))
  ; ("IMAPAppend", fun ins outs si so w => boxed (new_mail_sender imap_append_kind ins si so))
  ; ("IMAPFetchIdle", fun ins outs si so w => boxed (new_fetcher (Conf := FetchConfig) (M := list byte) ins outs si so))
  ; ("IMAPFetch", fun ins outs si so w => boxed (new_fetcher (Conf := string) (M := string * list byte) ins outs si so))
  ; ("IMAPMoveCopy", fun ins outs si so w => boxed (new_mail_sender (imap_movecopy_kind cr_json_from_str cr_json_get cr_json_as_str cr_imap_url_parse) ins si so))
  ; ("IMAPDelete", fun ins outs si so w => boxed (new_mail_sender (imap_delete_kind cr_json_from_str cr_json_get cr_json_as_str) ins si so))
  ; ("OpenAIChat", fun ins outs si so w => boxed (new_chat (mk_OpenAIThread None [] []) ins outs si so : outcome (OpenAIChatComponent (ToolCalls := cr_ToolCalls))))
  ; ("TeraTemplate", fun ins outs si so w => boxed (new_tera_template (Template := cr_Template) ins outs si so))
  ; ("RegexpExtract", fun ins outs si so w => boxed (new_regexp_extract (Regex := cr_Regex) ins outs si so))
  ; ("TextReplace", fun ins outs si so w => boxed (new_text_replace ins outs si so))
  ; ("ZeroconfResponder", fun ins outs si so w => boxed (new_zeroconf_responder ins si so))
  ; ("ZeroconfBrowser", fun ins outs si so w => boxed (new_zeroconf_browser ins outs si so))
  ; ("XzCompress", fun ins outs si so w => boxed (new_xz_compress ins outs si so))
  ; ("XzDecompress", fun ins outs si so w => boxed (new_xz_decompress ins outs si so))
  ; ("BrotliCompress", fun ins outs si so w => boxed (new_brotli_compress ins outs si so))
  ; ("BrotliDecompress", fun ins outs si so w => boxed (new_brotli_decompress ins outs si so))
  ; ("HTMLStrip", fun ins outs si so w => boxed (new_html_strip ins outs si so))
  ; ("HTMLQuery", fun ins outs si so w => boxed (new_html_query (Query := cr_Query) ins outs si so))
  ; ("WSClient", fun ins outs si so w => boxed (new_client ins outs si so w cr_instant_now : outcome (WSClientComponent (WebSocket := cr_WebSocket))))
  ; ("WSServer", fun ins outs si so w => boxed (new_ws_server ins outs si so))
  ; ("TCPClient", fun ins outs si so w => boxed (new_client ins outs si so w cr_instant_now : outcome (TCPClientComponent (SocketAddr := cr_SocketAddr) (TcpStream := cr_TcpStream))))
  ; ("TCPServer", fun ins outs si so w => boxed (new_tcp_server ins outs si so))
  ; ("TLSClient", fun ins outs si so w => boxed (new_tls_client ins outs si so w))
  ; ("TLSServer", fun ins outs si so w => boxed (new_tls_server (ServerConfig := cr_ServerConfig) ins outs si so w))
  ; ("JSONQuery", fun ins outs si so w => boxed (new_json_query (Filter := cr_Filter) ins outs si so))
  ; ("SSHClient", fun ins outs si so w => boxed (new_ssh_client ins outs si so))
  ; ("TelegramBot", fun ins outs si so w => boxed (new_chat (mk_TelegramThread None 0 []) ins outs si so : outcome TelegramBotComponent))
  ; ("MatrixClient", fun ins outs si so w => boxed (new_chat (mk_MatrixThread false None None []) ins outs si so : outcome MatrixClientComponent))
  ; ("Demux3", fun ins outs si so w => boxed (new_demux3 ins outs si so))
  ; ("Delay", fun ins outs si so w => boxed (new_delay ins outs si so))
  ; ("Visualization", fun ins outs si so w => boxed (new_vis ins si so))
  ; ("Panic", fun ins outs si so w => boxed (new_panic ins outs si so))
  ; ("EmailParser", fun ins outs si so w => boxed (new_email_parser ins outs si so))
  ; ("GenericRouter", fun ins outs si so w => boxed (new_generic_router (Regex := cr_Regex) ins outs si so)) ].

(** [instantiate_component]. *)
Definition instantiate_component (name : string) (inports : multimap ring)
    (outports : multimap ProcessEdgeSink) (signalsource watchdog_signalsink : sync_channel)
    (scheduler_waker : option SchedulerWaker) : outcome (option boxed_component) :=
  match List.find (fun arm => String.eqb name arm.1) constructors with
  | Some (_, new) =>
      let* component := new inports outports signalsource watchdog_signalsink scheduler_waker in
      Done (Some component)
  | None => Done None
  end.

(** * The factory behind [start]

    [start] hands out connections by their index: [source] and [sink] are the
    two ends of a connection. *)
Variable source : nat -> ring.
Variable sink : nat -> ProcessEdgeSink.

Definition ends {W} (end_ : nat -> W) (m : multimap nat) : multimap W :=
  fold_left (fun m' k =>
    fold_left (fun m' v => mm_insert k (end_ v) m') (default [] (mm_get_vec k m)) m')
    (mm_keys m) mm_new.

(** The signal channels as [start] makes them: the runtime's own ends are
    dropped with the iteration of the loop, so nothing is ever sent to the
    component, and what it answers is disconnected. *)
Definition process_signalsource : sync_channel := mk_sync_channel [] PROCESSEDGE_SIGNAL_BUFSIZE true.
Definition watchdog_signalsink_clone : sync_channel :=
  mk_sync_channel [] PROCESSEDGE_SIGNAL_BUFSIZE false.

Definition make (name : string) (inports outports : multimap nat) (w : option SchedulerWaker) :
    outcome (option boxed_component) :=
  instantiate_component name (ends source inports) (ends sink outports) process_signalsource
    watchdog_signalsink_clone w.
End factory.
