(* ===== verification/LibraryTheorems.v ===== *)
(** What is proved about the component library and the factory: the metadata and
    the build configuration fit together, and every node whose ports are
    connected is constructed. *)
From S2P Require Import Prelude Api Scheduler Graph Runtime Network NetworkProofs NetworkTheorems.
From S2P Require Import Process Pipes Sinks Relays Routers Timers Library Build.
From S2P Require Import Io Files Servers Clients Sessions Codecs Filters Cmd HttpClient HttpServer Brokers Agents Mail Services Email Factory.
From Stdlib Require Strings.String.
From Stdlib Require Import NArith Strings.Byte Strings.Ascii.
From stdpp Require Import base list strings gmap.
Local Open Scope string_scope.
Local Open Scope list_scope.
Local Open Scope flowd_scope.

(** * The tables *)

Definition port_names (ports : list ComponentPort) : list string := map cp_name ports.

(** The ports of a component can be told apart and found under the name in
    which the runtime wires them. *)
Definition ports_well_formed (ports : list ComponentPort) : Prop :=
  NoDup (port_names ports) /\
  Forall (fun p => cp_name p <> "" /\ to_ascii_uppercase (cp_name p) = cp_name p) ports.

#[export] Instance ports_well_formed_dec ports : Decision (ports_well_formed ports).
Proof. unfold ports_well_formed. apply _. Defined.

(** C15: the library and flowd.build.toml list the same components under the
    same names in the same order, all different and none empty; the ports of a
    component have different, upper-case names, as the runtime wires them;
    looking a component up by its name gives its own metadata; and every budget
    class is one of the three there are. *)
Theorem library_well_formed :
  map ccp_name library = map ce_name flowd_build_toml /\
  NoDup (map ccp_name library) /\
  Forall (fun c => ccp_name c <> "" /\ ports_well_formed (ccp_in_ports c) /\
    ports_well_formed (ccp_out_ports c) /\ find_component (ccp_name c) library = Some c) library /\
  Forall (fun e => match ce_budget_class e with
                   | Some b => is_Some (budget_class_named b)
                   | None => True
                   end) flowd_build_toml.
Proof.
  split; [reflexivity|]. split; [by apply (bool_decide_unpack _); vm_compute|].
  split.
  - repeat (apply Forall_cons; split; [split; [discriminate|]; split; [|split];
      [by apply (bool_decide_unpack _); vm_compute..|reflexivity]|]). apply Forall_nil, I.
  - repeat (apply Forall_cons; split; [by (exact I || by eexists)|]). apply Forall_nil, I.
Qed.

(** Ports that the metadata call optional. *)
Definition optional_ports : list (string * string) :=
  flat_map (fun c => map (fun p => (ccp_name c, cp_name p))
    (List.filter (fun p => negb (cp_required p)) (ccp_in_ports c ++ ccp_out_ports c))) library.

Lemma nothing_connected {V} `{MultiMapLib V} name :
  mm_contains_key name (mm_new : multimap V) = false.
Proof. rewrite mm_contains_key_spec, mm_get_vec_new. apply bool_decide_eq_false. by intros [? ?]. Qed.

(** The check of [start] demands them like the others. *)
Lemma optional_ports_are_demanded `{MM : forall V : Type, MultiMapLib V} `{HI : HashIter} proc_name p :
  missing_port [p] (mm_new : multimap nat) proc_name ∅ = Some p.
Proof.
  unfold missing_port, has_port. cbn [List.find]. rewrite !nothing_connected.
  assert (hash_iter (∅ : gmap string GraphPort) = []) as ->; [|done].
  apply Permutation_nil. by rewrite hash_iter_perm, map_to_list_empty.
Qed.

Example there_are_optional_ports : optional_ports = [("HTTPClient", "CONF"); ("Panic", "OUT")].
Proof. reflexivity. Qed.

(** * The ports behind a factory call *)
Section ports.
Context `{MM : forall V : Type, MultiMapLib V}.

Lemma remove_ok {V} name (m : multimap V) :
  has_channel name m -> exists v vs m', mm_remove name m = (Some (v :: vs), m') /\
    forall name', name <> name' -> mm_get_vec name' m' = mm_get_vec name' m.
Proof.
  intros (v & vs & Hm). pose proof (mm_remove_res name m) as Hr.
  pose proof (fun k => mm_remove_ne name k m) as Hne.
  destruct (mm_remove name m) as [res m']. simpl in *. exists v, vs, m'. by rewrite Hr, Hm.
Qed.

Lemma take_port_ok {V} name (m : multimap V) :
  has_channel name m -> exists v m', take_port name m = Done (v, m') /\
    forall name', name <> name' -> mm_get_vec name' m' = mm_get_vec name' m.
Proof.
  intros (v & vs & m' & Hr & Hne)%remove_ok. unfold take_port. rewrite Hr. simpl.
  assert (is_Some (last (v :: vs))) as [x ->] by (by apply last_is_Some). by exists x, m'.
Qed.

Lemma has_channel_eq {V} name (m m' : multimap V) :
  mm_get_vec name m' = mm_get_vec name m -> has_channel name m -> has_channel name m'.
Proof. unfold has_channel. by intros ->. Qed.

Lemma has_channel_insert {V} name k v (m : multimap V) :
  has_channel name m \/ k = name -> has_channel name (mm_insert k v m).
Proof.
  unfold has_channel. destruct (decide (k = name)) as [->|Hk].
  - intros _. rewrite mm_get_vec_insert_eq. destruct (default [] _) as [|x l]; by eexists _, _.
  - intros [H|]; [|done]. by rewrite mm_get_vec_insert_ne.
Qed.

Lemma has_channel_inserts {V W} (f : V -> W) name k (vs : list V) (m : multimap W) :
  has_channel name m \/ (k = name /\ vs <> []) ->
  has_channel name (fold_left (fun m v => mm_insert k (f v) m) vs m).
Proof.
  revert m. induction vs as [|v vs IH]; intros m H; simpl; [by destruct H as [|[]]|].
  apply IH. left. apply has_channel_insert. tauto.
Qed.

(** The ends of the connections are there where the connections are. *)
Lemma has_channel_ends {W} (end_ : nat -> W) name (m : multimap nat) :
  has_channel name m -> has_channel name (ends end_ m).
Proof.
  intros (v & vs & Hm). assert (name ∈ mm_keys m) as Hin by (apply mm_keys_spec; by eexists).
  unfold ends. generalize (mm_new : multimap W) as acc. revert Hin.
  induction (mm_keys m) as [|k ks IH]; intros Hin acc; [by apply elem_of_nil in Hin|]. simpl.
  assert (forall acc, has_channel name acc -> has_channel name (fold_left (fun m' k =>
    fold_left (fun m' v => mm_insert k (end_ v) m') (default [] (mm_get_vec k m)) m') ks acc)) as Hkeep.
  { clear. induction ks as [|k ks IH]; intros acc H; [done|]. simpl.
    apply IH, has_channel_inserts. by left. }
  apply elem_of_cons in Hin as [<-|Hin]; [|by apply IH].
  apply Hkeep, has_channel_inserts. right. by rewrite Hm.
Qed.
End ports.

(** Takes the ports of a constructor one after the other; [t] settles that the
    other ports are still there. *)
Ltac take_ports :=
  repeat match goal with
    | H : has_channel ?n ?m |- context [mm_remove ?n ?m] =>
        destruct (remove_ok n m H) as (? & ? & ? & -> & _); simpl
    | H : has_channel ?n ?m |- context [take_port ?n ?m] =>
        let Heq := fresh in let Hne := fresh in
        destruct (take_port_ok n m H) as (? & ? & Heq & Hne); rewrite Heq; simpl; clear Heq;
        repeat match goal with
          | H' : has_channel ?n' m |- _ =>
              first [ unify n n'; clear H'
                    | apply (has_channel_eq n' _ _ (Hne n' ltac:(discriminate))) in H' ]
          end; clear Hne
    end.

(** * The factory *)
Section factory.
Context `{R : Rtrb} `{J : SerdeJson} `{MM : forall V : Type, MultiMapLib V} `{HI : HashIter} `{K : !Crates}.
Variable source : nat -> ring.
Variable sink : nat -> ProcessEdgeSink.

(** The constructor finds every port that the metadata declare. *)
Definition finds_its_ports (name : string) (new : constructor) : Prop :=
  forall c inports outports si so w, find_component name library = Some c ->
    Forall (fun p => has_channel (cp_name p) inports) (ccp_in_ports c) ->
    Forall (fun p => has_channel (cp_name p) outports) (ccp_out_ports c) ->
    exists inst, new inports outports si so w = Done inst.

(** The shared object that [LibComponent::new] loads is there. *)
Definition wordcounter_loads : Prop :=
  exists lib f, cr_library_new "wordcounter" = Some lib /\ cr_library_get lib "process" = Some f.

(** The graph has no [LibComponent], or its shared object can be loaded. *)
Definition libraries_load (g : Graph) : Prop :=
  forall n node, g_nodes g !! n = Some node -> node_component node = "LibComponent" -> wordcounter_loads.

Ltac unfold_constructor :=
  unfold new_repeat, new_drop, new_output, new_lib_component, new_unix_server, new_unix_client, new_file_reader,
    new_file_writer, new_file_tailer, new_trim, new_split_lines, new_count, new_cron, new_cmd, new_hasher, new_equals,
    new_http_client, new_http_server, new_muxer, new_publisher, new_mqtt_subscriber, new_redis_subscriber,
    new_mail_sender, new_fetcher, new_chat, new_tera_template, new_regexp_extract, new_text_replace,
    new_zeroconf_responder, new_zeroconf_browser, new_xz_compress, new_xz_decompress, new_brotli_compress,
    new_brotli_decompress, new_html_strip, new_html_query, new_client, new_ws_server, new_tcp_server, new_tls_client,
    new_tls_server, new_json_query, new_ssh_client, new_demux3, new_delay, new_vis, new_panic, new_email_parser,
    new_generic_router.
Ltac construct :=
  intros c inports outports si so w Hc; (vm_compute in Hc; injection Hc as <-); simpl; intros Hin Hout;
  repeat match goal with
    | H : Forall _ (_ :: _) |- _ => apply Forall_cons in H as [? H]
    | H : Forall _ [] |- _ => clear H
    end; simpl in *; unfold boxed;
  unfold_constructor; simpl; take_ports; by eexists.

Lemma lib_component_finds_ports inports outports si so :
  wordcounter_loads -> has_channel "IN" inports -> has_channel "OUT" outports ->
  exists inst, boxed (new_lib_component cr_library_new cr_library_get inports outports si so) = Done inst.
Proof.
  intros (lib & f & Hlib & Hf) Hin Hout. unfold boxed, new_lib_component. rewrite Hlib. simpl. rewrite Hf. simpl.
  take_ports. by eexists.
Qed.

(** The metadata declare every port that a constructor takes. *)
Lemma constructors_find_ports :
  Forall (fun arm => (arm.1 = "LibComponent" -> wordcounter_loads) -> finds_its_ports arm.1 arm.2) constructors.
Proof.
  unfold constructors.
  repeat (apply Forall_cons; split; [simpl; intros Hload; try construct|]); [|apply Forall_nil, I].
  intros c inports outports si so w Hc Hin Hout.
  (vm_compute in Hc; injection Hc as <-). apply Forall_cons in Hin as [Hin _], Hout as [Hout _].
  apply lib_component_finds_ports; [by apply Hload|done..].
Qed.

(** There is an arm for every entry of flowd.build.toml, in the same order. *)
Lemma constructors_names : map fst constructors = map ce_name flowd_build_toml.
Proof. reflexivity. Qed.

Lemma find_constructor name :
  name ∈ map ce_name flowd_build_toml ->
  exists new, List.find (fun arm => String.eqb name arm.1) constructors = Some (name, new) /\
    (name, new) ∈ constructors.
Proof.
  rewrite <- constructors_names. induction constructors as [|[n new] l IH]; simpl; [by intros ?%elem_of_nil|].
  destruct (String.eqb_spec name n) as [->|Hne]; [intros _; exists new; split; [done|apply list_elem_of_here]|].
  intros [?|Hin]%elem_of_cons; [done|]. destruct (IH Hin) as (new' & ? & ?). exists new'. split; [done|by apply list_elem_of_further].
Qed.

Lemma library_component name c :
  find_component name library = Some c -> name ∈ map ce_name flowd_build_toml.
Proof.
  unfold find_component. intros [Hin Heq%String.eqb_eq]%find_some. subst name.
  change (map ce_name flowd_build_toml) with (map ccp_name library).
  apply list_elem_of_In in Hin. by apply list_elem_of_fmap; eexists.
Qed.

Lemma library_constructs g : libraries_load g -> constructs (make source sink) g library.
Proof.
  intros Hload n node c ins outs Hn Hc Hin Hout. unfold make, instantiate_component.
  destruct (find_constructor _ (library_component _ _ Hc)) as (new & -> & Harm).
  pose proof constructors_find_ports as Hall. rewrite Forall_forall in Hall. specialize (Hall _ Harm).
  simpl in Hall. destruct (Hall (Hload n node Hn) c (ends source ins) (ends sink outs)
    process_signalsource watchdog_signalsink_clone (Some n) Hc) as [inst ->].
  - eapply Forall_impl; [exact Hin|]. intros p. apply has_channel_ends.
  - eapply Forall_impl; [exact Hout|]. intros p. apply has_channel_ends.
  - by eexists.
Qed.

(** C4: starting a well-formed graph of components of the library, any of the
    56 of flowd.build.toml, with the factory and the budget classes that the
    build script generates, succeeds while no network runs and tracing is off,
    and leaves the network of the graph running: every constructor finds its
    ports, and every boxed component is registered.  (A [LibComponent] also
    needs its shared object: its constructor unwinds without.) *)
Theorem library_graph_starts enforce g tx clock now net :
  libraries_load g -> startable g -> ports_connected g library ->
  source_sharing_allowed g library -> target_sharing_allowed g library ->
  network_busy (net_runtime net) = false -> rt_tracing (net_runtime net) = false ->
  exists status net' evs,
    start (get_component_budget_class flowd_build_toml) (make source sink) g library tx clock now net =
      Returns (Ok status, net', evs) /\
    network_runs enforce (make source sink) g net'.
Proof.
  intros Hm%library_constructs Hs Hc Hsrc Htgt Hb Ht.
  destruct (start_builds enforce (get_component_budget_class flowd_build_toml) (make source sink) g library
    tx clock now net Hs Hc Hm Hsrc Htgt Hb Ht) as (status & net' & evs & Hstart & Hrun & _).
  by exists status, net', evs.
Qed.
End factory.

(** * The demo graph, run with the real factory *)
#[local] Existing Instance gmap_serde_json.
#[local] Existing Instance list_rtrb.
#[local] Existing Instance gmap_multimap.
#[local] Existing Instance sorted_hash_iter.

(** Crates whose values carry nothing, with components that never have work. *)
#[local, refine] Instance resting_component {A : Type} : Component A := {
  process := fun c ctx => mk_process_run c ctx [] 0 0 (Some NoWork)
}.
Proof. done. Defined.
#[local] Instance demo_crates : Crates :=
  { cr_Regex := unit; cr_Template := unit; cr_Json := unit; cr_Schedule := unit; cr_Upcoming := unit;
    cr_TailedFile := unit; cr_SocketAddr := unit; cr_TcpStream := unit; cr_WebSocket := unit;
    cr_UnixSocketAddr := unit; cr_UnixConn := unit; cr_ServerConfig := unit; cr_Lib := unit; cr_Filter := unit;
    cr_Query := unit; cr_MqttConn := unit; cr_RedisConn := unit; cr_ToolCalls := unit;
    cr_query_pairs := fun _ => None; cr_atoi := fun _ => None; cr_regex_new := fun _ => None;
    cr_captures := fun _ _ => None; cr_regex_is_match := fun _ _ => false; cr_add_raw_template := fun _ => None;
    cr_render := fun _ _ => None; cr_json_null := tt; cr_json_as_str := fun _ => None;
    cr_json_as_object := fun _ => None; cr_json_from_str := fun _ => None; cr_json_get := fun _ _ => None;
    cr_config_from_str := fun _ => None; cr_f64_times := fun _ _ => None; cr_schedule_from_str := fun _ => None;
    cr_upcoming_owned := fun _ => tt; cr_upcoming_next := fun u => (None, u);
    cr_imap_url_parse := fun _ => Err "no url"; cr_library_new := fun _ => None;
    cr_library_get := fun _ _ => None; cr_clock := fun _ => 0%N; cr_local_clock := fun _ => 0%N;
    cr_instant_now := 0%N; cr_timing := fun _ => (0%N, 0%N) }.

Lemma demo_libraries_load : libraries_load demo_graph.
Proof.
  intros n node Hn. rewrite demo_nodes in Hn.
  apply lookup_insert_Some in Hn as [[<- <-]|[_ Hn]];
    [|apply lookup_singleton_Some in Hn as [<- <-]]; discriminate.
Defined.

Lemma demo_library_connected : ports_connected demo_graph library.
Proof.
  intros n node Hn. rewrite demo_links. rewrite demo_nodes in Hn.
  apply lookup_insert_Some in Hn as [[<- <-]|[_ Hn]];
    [|apply lookup_singleton_Some in Hn as [<- <-]]; eexists;
    (split; [reflexivity|split; simpl]); repeat (apply Forall_cons; split); try apply Forall_nil, I;
    simpl; rewrite ?Exists_cons; auto.
Defined.

Lemma demo_library_sharing :
  source_sharing_allowed demo_graph library /\ target_sharing_allowed demo_graph library.
Proof. rewrite <- check_source_ports_ok, <- check_target_ports_ok. by split; vm_compute. Defined.

Lemma library_graph_starts_witness : exists status net' evs,
  start (get_component_budget_class flowd_build_toml)
    (make (R := list_rtrb) (K := demo_crates) (fun _ => demo_ring false []) (fun _ => demo_out 4))
    demo_graph library 7 (fun _ => 0%N) 5 (mk_Network (demo_runtime false false) ∅ [] None) =
    Returns (Ok status, net', evs).
Proof.
  destruct (library_graph_starts (R := list_rtrb) (K := demo_crates) (fun _ => demo_ring false []) (fun _ => demo_out 4) true demo_graph 7
    (fun _ => 0%N) 5 (mk_Network (demo_runtime false false) ∅ [] None)
    demo_libraries_load demo_startable demo_library_connected
    (proj1 demo_library_sharing) (proj2 demo_library_sharing) eq_refl eq_refl)
    as (status & net' & evs & Hs & _).
  by exists status, net', evs.
Defined.
